(* ===== verification/_CoqProject ===== *)
-Q . S2P
Prelude.v
Buf.v
Bitmap.v
Crc32.v
Hashmap.v
Pktgen.v
KvServer.v
Fifo.v
Ring.v
Mbox.v
MboxWait.v
Region.v
BBuddyMap.v
BBuddyList.v
PageAlloc.v
BBuddy.v
UkAlloc.v
IfMalloc.v
Mem.v
NolibcString.v
Sglist.v
Virtqueue.v
Timeconv.v
ErrMonad.v
P9Req.v
P9Dev.v
P9Client.v
Pipe.v
FdTable.v
Sched.v
Uio.v
Vnode.v
Ramfs.v
RamfsFile.v
RamfsDir.v
RamfsRun.v
RamfsUse.v
ArgParse.v
Netbuf.v
NetbufRun.v
Path.v
Dentry.v
FileIo.v
Namei.v
NameiRamfs.v
Mount.v
Syscalls.v
VfsUse.v
Strto.v
Qsort.v
Libparam.v
Boot.v
KvmMemory.v
