(* ===== verification/Prelude.v ===== *)
(** * A verification of the Unikraft artifacts

    The repository holds the experiments of the EuroSys 2021 paper on Unikraft.  Most of it
    drives other programs; its own C code is a key-value server with its packet generator
    ([experiments/tab_04_kvs_compare/server/unikraft_raw/uk_test_suite/test_dpdk/basic_forward],
    below [K]) and the unikernel that the server runs on
    ([experiments/tab_04_kvs_compare/aux/unikraft], below [U]).  This library models the parts
    of both that carry state and algorithms, and proves them correct.

    ** The program

    A unikernel links one application with the libraries it needs.  At boot a page allocator
    receives the memory of the machine; malloc, realloc and memalign are built on pages or on
    another malloc.  A virtio driver describes buffers as scatter-gather lists of physical
    segments, publishes them to the host through a virtqueue and collects the completions.
    Threads and drivers pass messages over lock-free rings and mailboxes.  A small libc gives
    strings, a small time library gives dates.  Threads run under a cooperative scheduler and
    wait for each other in wait queues.  Files are reached through a table of descriptors,
    which also gives pipes.  A path is made absolute, given to the file system mounted there,
    and walked through a cache of directory entries, which hold vnodes, which stand for the
    files of a file system; the RAM file system keeps its files in memory, and a 9P client,
    which speaks to the host over virtio, gives the host's files.  Network packets travel in
    chains of counted buffers.  The key-value server receives UDP requests,
    looks the key up in an open-addressing hash map and answers by turning the packet round;
    the generator builds the requests with their IPv4 and UDP headers.

    ** Files and what they model

    - [Prelude]: machine integers ([wrap], [sext], [in_u]), indexed lists ([zget], [zset]),
      alignment, tactics and the hint database [uk].
    - [Crc32], [Hashmap], [KvServer] ([K/kv.c]): [crc32_tab], [crc32], [hashmap_hash_int];
      [hashmap_new] to [hashmap_length]; [init_hashmap], [do_processing], [echo_packet].
    - [Pktgen] ([K/pktgen.c], [K/pktgen.h]): [copy_buf_to_pkt], [setup_pkt_udp_ip_headers],
      [tx_pkt_setup].
    - [Fifo]: the abstract bounded queue, the class [BoundedFifo]; instances in [Ring]
      ([U/include/uk/ring.h]) and [Mbox] ([U/lib/ukmpi/mbox.c], [U/lib/uklock]), where a
      semaphore is its count.
    - [MboxWait] (the same with [U/lib/uklock/include/uk/semaphore.h] and
      [U/lib/uksched/include/uk/wait.h]): the mailbox with the wait queues of its semaphores and
      the wait loop of [uk_semaphore_down]; its runs are runs of [Mbox].
    - [Region] ([U/lib/ukallocregion/region.c]): the bump allocator.
    - [BBuddyMap], [BBuddyList], [BBuddy] ([U/lib/ukallocbbuddy/bbuddy.c]): the bitmap, the
      intrusive free lists, and the allocator on top of them.
    - [PageAlloc]: the class [PageAllocator], what a page allocator promises; [BBuddy]
      discharges it, [UkAlloc] ([U/lib/ukalloc/alloc.c], the [ifpages] and [compat] functions)
      is proved against it.  [IfMalloc] (the [ifmalloc] functions of the same file) is proved
      against the class [MallocBackend].
    - [Mem], [NolibcString] ([U/lib/nolibc/string.c]): byte memory, and the memory and string
      functions on it, the word-at-a-time ones included.
    - [Strto] ([U/lib/nolibc/stdlib.c], [ctype.c]), [Qsort] ([qsort.c]): numbers in strings, and
      sorting in place, on the same memory.
    - [Libparam] ([U/lib/uklibparam]): the parameters of libraries on the command line, set with
      the functions of [NolibcString] and [Strto].
    - [Sglist] ([U/lib/uksglist]): scatter-gather lists.
    - [Virtqueue] ([U/plat/drivers/virtio/virtio_ring.c] and its headers): the split queue,
      the driver's operations and the host.
    - [Timeconv] ([U/lib/uktimeconv]): calendar dates to nanoseconds.
    - [Buf], [ErrMonad]: copies into and out of byte buffers; the monad of code that may fail
      with an error code or be undefined, over a state.
    - [Bitmap] ([U/include/uk/bitops.h], [bitmap.h], [bitcount.h]): searches, ranges, aligned
      regions and counting on bitmaps.
    - [P9Req], [P9Dev], [P9Client] ([U/lib/uk9p]): the serialization and the life of a request;
      requests, tags and fids of a device with their reference counts
      ([U/include/uk/refcount.h]); the operations of [9p.c] over a transport
      ([U/plat/drivers/virtio/virtio_9p.c]) whose answers are any bytes.
    - [Pipe] ([U/lib/vfscore/pipe.c]): the ring of bytes, and calls of readers and writers as
      steps between lock operations.
    - [FdTable] ([U/lib/vfscore/fd.c], [file.c], [close], [dup], [dup2] and [dup3] of [main.c],
      [stdio.c]): the table, on [Bitmap], from its start with the standard descriptors on, and the
      reference counts of the files.
    - [Sched] ([U/lib/ukschedcoop/schedcoop.c], [U/lib/uksched]): threads, run queue, sleeping
      and exited lists, wait queues.
    - [Uio] ([U/lib/vfscore/include/vfscore/uio.h], [subr_uio.c]): transfers between a buffer
      of the kernel and the vectors of the caller.
    - [Vnode] ([U/lib/vfscore/vnode.c]): the table of active vnodes and their reference counts.
    - [Ramfs], [RamfsFile], [RamfsDir], [RamfsRun], [RamfsUse] ([U/lib/ramfs]): the nodes and
      buffers with every operation of [ramfs_vnops.c]; the operations on bytes and on
      directories; the abstract tree of files that they implement; sequences of calls.
    - [ArgParse] ([U/lib/ukargparse/argparse.c]): splitting the command line.
    - [Boot] ([U/lib/ukboot/boot.c]): the command line on its way to [main], through [ArgParse]
      and [Libparam].
    - [KvmMemory] ([U/plat/kvm/x86/setup.c], [U/plat/kvm/memory.c], [U/include/uk/plat/memory.h]):
      the memory map, the class [MemRegions] of what a platform tells of its memory, with KVM as
      instance, and the loop of [ukplat_entry] that makes the heap of it, on [BBuddy].
    - [Netbuf], [NetbufRun] ([U/lib/uknetdev/netbuf.c], [netbuf.h]): the layout of network
      buffers, and their chains and reference counts, on the counters of [P9Dev].
    - [Path] ([U/lib/vfscore/task.c], [vfs_findroot] of [mount.c]): paths and mount points.
    - [Dentry] ([U/lib/vfscore/dentry.c]): the cache of directory entries, on [Vnode].
    - [FileIo] ([U/lib/vfscore/fops.c], [sys_read], [sys_write], [sys_lseek] of [syscalls.c]
      and the calls of [main.c] on them): from the descriptor ([FdTable]) over the vectors
      ([Uio]) to the file ([Ramfs]).
    - [Namei] ([U/lib/vfscore/lookup.c]): walking a path through the dentry cache, over the
      classes [DirOps] and [DirFs], what a file system offers and promises to the walk;
      [NameiRamfs] discharges them for the RAM file system.
    - [Mount] ([U/lib/vfscore/mount.c]): the list of mount points, [mount], [umount] and
      [umount2], over the classes [VfsOps] and [VfsFs], with the RAM file system as instance.
    - [Syscalls] ([U/lib/vfscore/syscalls.c]): [sys_open], [sys_mkdir], [sys_mknod], [sys_rmdir],
      [sys_unlink], [sys_rename], [sys_symlink], [sys_link], [sys_access], [sys_truncate];
      [VfsUse]: what these calls, searching and mounting promise together.

    ** How the code is represented

    A C integer is a [Z] with the wrap-around of its width written out; pointers are 64-bit
    addresses, NULL is 0.  A struct is a [Record] with the fields of the source.  A C function
    is an executable definition that takes the state and returns the result with the new
    state.  [option] is the partiality of C: [None] is an access outside an array, an unmapped
    address, a failed [UK_ASSERT] or a use of an undefined value.  Error codes are returned as
    the code returns them.  Where other parties act in between (the threads of a mailbox, the
    host of a virtqueue) the functions are the labels of an inductive step relation, and the
    properties are invariants of its reachable states.

    Code outside the repository is a parameter: DPDK's byte-order functions, the platform's
    address translation, the memory [malloc] and [calloc] return, the page allocator and the
    backend malloc (as classes with laws and with at least one instance).

    ** What is proved

    The comment of each theorem names the conditions under which it holds; where a condition
    excludes inputs that the program can meet, the theorem that shows what happens there is named
    too.

    - Allocators: over any sequence of calls the live blocks are disjoint, inside the memory
      given, aligned as asked for; free pages are conserved, and chunks merge back until no two
      buddies are free side by side (for regions of up to 32449 pages, [buddy_region_overrun]); realloc
      keeps the contents; failures change nothing ([buddy_run_safe], [buddy_palloc_correct],
      [buddy_pfree_correct], [buddy_addmem_correct], [ukalloc_run_safe], [ifmalloc_correct],
      [region_blocks_disjoint]).
    - Queues: ring and mailbox refine the bounded first-in first-out queue; under every
      interleaving of the threads the mailbox neither loses nor duplicates nor overwrites a
      message; with the wait queues of its semaphores no wake-up is lost, and posters sleep only
      in front of a full box and receivers in front of an empty one ([ring_single_refines_fifo],
      [ring_bulk_spec], [mbox_safe], [mbox_no_deadlock]).
    - Virtqueue: no descriptor is lost or used twice, the host sees the segments as submitted
      and in order, the driver gets its cookies back, no wake-up is lost ([virtqueue_safe],
      [virtqueue_delivers], [virtqueue_conserves], [virtqueue_intr_enable_no_lost_wakeup]).
    - Hash map: [hashmap_put], [hashmap_get] and [hashmap_remove] act on the finite map the
      table represents, across rehashing, and always return ([hashmap_put_refines],
      [hashmap_put_total], [hashmap_get_correct]); the CRC table is the CRC
      ([crc32_table_correct]); requests find their values and echoes turn the packet round.
    - Strings, scatter-gather lists, dates and headers: the functional behaviour against a
      reference on lists of bytes, lists of physical addresses, a calendar that counts
      seconds, and the one's complement sum.
    - Libc: conversions agree with a reference reading of a numeral, limits included
      ([strto_correct]) and read back what is printed ([atoi_roundtrip]); [qsort] sorts every array of
      less than 2^31 bytes ([qsort_sorts]); the command line sets exactly the parameters it names
      ([libparam_sets]).

    - Scheduler: every thread is in exactly the list its flags say, no operation but the removal of
      a blocked thread ([remove_blocked_corrupts]) corrupts a list, runnable threads run in turn, sleepers are woken in time ([sched_safe],
      [sched_round_robin], [sched_timeouts]).
    - Pipes: the bytes read are the bytes written, in order, under every interleaving, and
      readers and writers do not wait for each other ([pipe_fifo], [pipe_no_deadlock]); [pipe_fifo]
      also says exactly when a reader's step is undefined, because the length computed by
      [pipe_buf_read] is wrong ([pipe_read_hazard], [pipe_second_round_undefined]).
    - Descriptors: from the boot on, the count of a file is the number of its descriptors and other
      references, less one for each descriptor made by [dup3], which the code forgets to count;
      [close] frees at the last reference, [dup] takes the lowest free descriptor
      ([fdtable_safe], [fd_dup_correct], [dup3_loses_reference]).
    - 9P: serialization round trips, tags are unique, no request leaks whatever the server
      answers ([p9_fields_roundtrip], [p9_requests_safe], [p9_no_leak], [p9_open_correct]).
    - Bitmaps: operations by words agree with the bits they mean ([bitmap_set_clear_correct],
      [zero_area_least], [free_region_first_fit], [bitmap_weight_correct]).

    - RAM file system: every operation that [allowed] admits acts on the abstract tree of files as specified, errors
      included, and touches no memory of others ([ramfs_refines]); what is written is read back
      ([ramfs_write_read]); a directory lists its children ([ramfs_listing]).
    - Virtual file system: vnodes and dentries are counted exactly, found exactly when they are
      there, freed with their last reference and never before ([vnode_cache_safe],
      [dentry_cache_safe]), and nothing is left when all references are given back
      ([dentry_cache_drains]); a path leads to the names it means and to the innermost mount
      point ([path_reaches_mount]); a descriptor behaves like bytes with a position
      ([file_io_refines]).  Over all of these together: a search ends at the file that the path
      means in the tree of the file system, or with the error that it means ([namei_correct]);
      mounting and unmounting lead back to the system before ([mount_correct]); making
      directories and opening files change the tree as they should and hold exactly the
      references they return ([mkdir_correct], [open_correct]).
    - Network buffers: buffer, private area and descriptor do not overlap ([netbuf_layout]); the
      linked buffers are the chains of a list of lists with counts ([netbuf_chains_refine]).
    - Boot: command lines are split into the words of a reference tokenizer ([argparse_correct]);
      the line sets the parameters and the rest of it reaches [main] ([boot_command_line]); image,
      stack, RAM disk and heap are laid out apart from each other ([kvm_layout]), and the pages
      that the heap hands out stay clear of the others ([kvm_heap_safe]).

    Where the code does not do what it means to, the theorem that shows it evaluates the model
    on the input concerned (for instance [memmove_backward_off_by_one],
    [sglist_split_drops_tail], [ring_mixed_out_of_bounds]).

    ** Bounds and fuel

    - Loops over a fixed number of things recurse on that number (probe chains of 8 slots, 52
      free lists, 256 table entries) or on the list they walk.
    - [merge_loop], [split_loop] and the carving of [bbuddy_addmem] have fuel equal to the
      number of orders or pages left; the theorems show that it is enough.
    - [hashmap_put] and [hashmap_rehash] call each other, with the table doubled at each turn;
      the fuel is the number of doublings that the allocation limit allows, and
      [hashmap_put_total] shows that with it the call returns.
    - String loops have fuel; the theorems conclude [Some] for every fuel above the length of
      the strings.  Descriptor chains are followed with the size of the table as fuel, and the
      invariant shows it is never used up.
    - The search of the memory map has its length in bytes as fuel, the walk over the regions
      their number ([kvm_layout], [kvm_heap_safe] conclude that both end).
    - [qsort] has the number of elements plus one as fuel, for the recursion and for each loop.
    - The retries of [uk_bitmap_find_next_zero_area_off] have the number of bits as fuel
      ([zero_area_least]).  The loop of the scheduler consumes one event (a clock value and the
      threads that interrupts wake) per pass; [sched_safe] shows that it returns as soon as
      the events make a thread runnable.
    - The chains of a RAM file system and of network buffers are walked with the number of
      nodes as fuel, [vfscore_uioforeach] with two steps per vector, [drele] with the number of
      dentries (every parent that goes makes them fewer), [path_conv] with the length of the
      path, the walk of [namei] with the length of the path and [MAXSYMLINKS] restarts; the theorems
      conclude that the calls return.

    ** Not modelled

    The DPDK receive and transmit loops, command lines and statistics (I/O); the context
    switch, interrupts, page tables and devices (machine state); device files and the file
    system over 9P, the network stack glue, and of the boot code the constructors, the clock and
    the first thread.  The calls of [syscalls.c] on
    attributes (stat, times, mode) and on open directories only hand data to the file system.
    The theorems on searching ask that no symbolic link is on the way; the loop over links is
    modelled, with its bound.  The ring is modelled one operation at a time, without weak
    memory.  The mutexes of the virtual file system are the unit of a definition.  The records that
    [alloc.c] keeps in front of an object are in a map of their own, by address.  Appending to the
    scatter-gather lists of the 9P transport is taken to succeed.  [strerror] is a table of messages.  [libfdt], DPDK and the
    libraries under [aux/libs] are other projects. *)
From Stdlib Require Import ZArith Lia Bool.
From stdpp Require Export base option numbers.
From stdpp Require Export list.

Declare Scope uk_scope.
Delimit Scope uk_scope with uk.
Open Scope Z_scope.

(** ** Machine integers

    A [w]-bit unsigned C integer is a [Z] in [0 .. 2^w - 1]; every C operation
    that may leave the range is written with its wrap-around. *)

Definition wrap (w z : Z) : Z := z mod 2 ^ w.

Abbreviation u8 := (wrap 8).
Abbreviation u16 := (wrap 16).
Abbreviation u32 := (wrap 32).
Abbreviation u64 := (wrap 64).

(** Reinterpretation of the low [w] bits as a two's complement integer. *)
Definition sext (w z : Z) : Z :=
  let r := wrap w z in if r <? 2 ^ (w - 1) then r else r - 2 ^ w.

Definition in_u (w z : Z) : Prop := 0 <= z < 2 ^ w.
Notation "z '∈u' w" := (in_u w z) (at level 70, no associativity) : uk_scope.
Open Scope uk_scope.

(** The low [w] bits of the bitwise complement: C's [~x] on a [w]-bit type. *)
Definition lnotw (w z : Z) : Z := wrap w (Z.lnot z).

(** ** Shared automation *)

Create HintDb uk discriminated.

(** Turn boolean tests of the code into propositions, splitting on every
    test that the goal or a hypothesis branches on. *)
Ltac tests :=
  repeat match goal with
  | H : (_ && _)%bool = true |- _ => apply andb_true_iff in H; destruct H
  | H : (_ || _)%bool = false |- _ => apply orb_false_iff in H; destruct H
  | H : negb _ = true |- _ => apply negb_true_iff in H
  | H : negb _ = false |- _ => apply negb_false_iff in H
  | H : (_ <? _) = true |- _ => apply Z.ltb_lt in H
  | H : (_ <? _) = false |- _ => apply Z.ltb_ge in H
  | H : (_ <=? _) = true |- _ => apply Z.leb_le in H
  | H : (_ <=? _) = false |- _ => apply Z.leb_gt in H
  | H : (_ =? _) = true |- _ => apply Z.eqb_eq in H
  | H : (_ =? _) = false |- _ => apply Z.eqb_neq in H
  | H : bool_decide _ = true |- _ => apply bool_decide_eq_true in H
  | H : bool_decide _ = false |- _ => apply bool_decide_eq_false in H
  end.

Ltac case_test :=
  match goal with
  | |- context [if ?b then _ else _] => let E := fresh "E" in destruct b eqn:E
  | H : context [if ?b then _ else _] |- _ => let E := fresh "E" in destruct b eqn:E
  end; tests.

(** Case analysis on the head [match] of an equation about a fallible run. *)
Ltac inv_run H :=
  repeat match type of H with
  | context [match ?x with _ => _ end] =>
      let E := fresh "E" in destruct x eqn:E; try discriminate H
  end; simplify_eq/=.

(** ** Lemmas on machine integers *)

Lemma pow2_pos w : 0 <= w -> 0 < 2 ^ w.
Proof. intros. apply Z.pow_pos_nonneg; lia. Qed.

Lemma wrap_range w z : 0 <= w -> wrap w z ∈u w.
Proof. intros. unfold wrap, in_u. apply Z.mod_pos_bound, pow2_pos; lia. Qed.

Lemma wrap_small w z : z ∈u w -> wrap w z = z.
Proof. apply Z.mod_small. Qed.

Lemma sext_small w z : 0 < w -> 0 <= z < 2 ^ (w - 1) -> sext w z = z.
Proof.
  intros Hw Hz. pose proof (Z.pow_lt_mono_r 2 (w - 1) w ltac:(lia) ltac:(lia) ltac:(lia)).
  unfold sext. rewrite wrap_small by (unfold in_u; lia).
  by destruct (Z.ltb_spec z (2 ^ (w - 1))); [|lia].
Qed.

Lemma wrap_wrap w z : 0 <= w -> wrap w (wrap w z) = wrap w z.
Proof. intros. apply wrap_small, wrap_range; lia. Qed.

Lemma wrap_land w z : 0 <= w -> wrap w z = Z.land z (Z.ones w).
Proof. intros. unfold wrap. by rewrite Z.land_ones. Qed.

Lemma land_ff z : Z.land z 0xFF = z mod 2 ^ 8.
Proof. by rewrite <- Z.land_ones. Qed.

Lemma land_ffff z : Z.land z 0xFFFF = z mod 2 ^ 16.
Proof. by rewrite <- Z.land_ones. Qed.

Lemma wrap_testbit w z i :
  0 <= w -> Z.testbit (wrap w z) i = (i <? w) && Z.testbit z i.
Proof.
  intros Hw. unfold wrap. destruct (Z.ltb_spec i w).
  - destruct (Z.leb_spec 0 i).
    + by rewrite Z.mod_pow2_bits_low.
    + by rewrite !Z.testbit_neg_r by lia.
  - by rewrite Z.mod_pow2_bits_high by lia.
Qed.

(** A number is a [w]-bit unsigned integer iff its bits above [w] are clear. *)
Lemma in_u_testbit w z i : 0 <= w -> z ∈u w -> w <= i -> Z.testbit z i = false.
Proof.
  intros Hw Hz Hi. rewrite <- (wrap_small w z Hz), wrap_testbit by done.
  by destruct (Z.ltb_spec i w); [lia|].
Qed.

Lemma in_u_bits w z :
  0 <= w -> 0 <= z -> (forall i, w <= i -> Z.testbit z i = false) -> z ∈u w.
Proof.
  intros Hw Hz Hb. enough (wrap w z = z) as <- by by apply wrap_range.
  apply Z.bits_inj'. intros i Hi. rewrite wrap_testbit by done.
  destruct (Z.ltb_spec i w); [done|]. by rewrite Hb.
Qed.

Lemma in_u_lxor w a b : 0 <= w -> a ∈u w -> b ∈u w -> Z.lxor a b ∈u w.
Proof.
  intros Hw Ha Hb. apply in_u_bits; [done| |].
  - apply Z.lxor_nonneg. unfold in_u in *. lia.
  - intros i Hi. rewrite Z.lxor_spec, !(in_u_testbit w) by done. done.
Qed.

Lemma in_u_shiftr w a n : 0 <= w -> 0 <= n -> a ∈u w -> Z.shiftr a n ∈u w.
Proof.
  intros Hw Hn Ha. apply in_u_bits; [done| |].
  - apply Z.shiftr_nonneg. unfold in_u in *. lia.
  - intros i Hi. rewrite Z.shiftr_spec by lia. apply (in_u_testbit w); auto. lia.
Qed.

Lemma in_u_mono w w' z : 0 <= w <= w' -> z ∈u w -> z ∈u w'.
Proof.
  unfold in_u. intros. pose proof (Z.pow_le_mono_r 2 w w'). lia.
Qed.

(** ** Alignment *)

Definition ALIGN_UP (v a : Z) : Z := Z.land (u64 (u64 (v + a) - 1)) (lnotw 64 (u64 (a - 1))).
Definition ALIGN_DOWN (v a : Z) : Z := Z.land v (lnotw 64 (u64 (a - 1))).

(** Clearing the low [k] bits. *)
Lemma land_lnot_ones w k v :
  0 <= k <= w -> v ∈u w -> Z.land v (lnotw w (2 ^ k - 1)) = 2 ^ k * (v / 2 ^ k).
Proof.
  intros Hk Hv. rewrite <- (Z.mul_comm (v / 2 ^ k)).
  rewrite <- Z.shiftr_div_pow2, <- Z.shiftl_mul_pow2, <- Z.ldiff_ones_r by lia.
  apply Z.bits_inj'. intros j Hj. rewrite Z.land_spec, Z.ldiff_spec. unfold lnotw.
  replace (2 ^ k - 1) with (Z.ones k) by (rewrite Z.ones_equiv; lia).
  rewrite wrap_testbit, Z.lnot_spec by lia.
  destruct (Z.ltb_spec j w); [done|]. by rewrite (in_u_testbit w v j) by (done || lia).
Qed.

Lemma ALIGN_DOWN_spec k v :
  0 <= k < 64 -> v ∈u 64 ->
  ALIGN_DOWN v (2 ^ k) = 2 ^ k * (v / 2 ^ k).
Proof.
  intros Hk Hv. unfold ALIGN_DOWN. pose proof (pow2_pos k). pose proof (Z.pow_lt_mono_r 2 k 64).
  rewrite (wrap_small 64 (2 ^ k - 1)) by (unfold in_u; lia). apply land_lnot_ones; [lia|done].
Qed.

(** Rounding up, when the sum does not wrap. *)
Lemma ALIGN_UP_spec k v :
  0 <= k < 64 -> 0 <= v -> v + 2 ^ k <= 2 ^ 64 ->
  ALIGN_UP v (2 ^ k) = 2 ^ k * ((v + 2 ^ k - 1) / 2 ^ k).
Proof.
  intros Hk Hv Hs. unfold ALIGN_UP. pose proof (pow2_pos k). pose proof (Z.pow_lt_mono_r 2 k 64).
  assert (Hsum : u64 (u64 (v + 2 ^ k) - 1) = v + 2 ^ k - 1).
  { unfold wrap. rewrite Zminus_mod_idemp_l. apply Z.mod_small. lia. }
  rewrite Hsum, (wrap_small 64 (2 ^ k - 1)) by (unfold in_u; lia).
  apply land_lnot_ones; [lia|unfold in_u; lia].
Qed.

Lemma ALIGN_UP_bounds k v :
  0 <= k < 64 -> 0 <= v -> v + 2 ^ k <= 2 ^ 64 ->
  v <= ALIGN_UP v (2 ^ k) < v + 2 ^ k /\ (2 ^ k | ALIGN_UP v (2 ^ k)).
Proof.
  intros Hk Hv Hs. rewrite ALIGN_UP_spec by done. pose proof (pow2_pos k ltac:(lia)).
  pose proof (Z.div_mod (v + 2 ^ k - 1) (2 ^ k) ltac:(lia)).
  pose proof (Z.mod_pos_bound (v + 2 ^ k - 1) (2 ^ k) ltac:(lia)).
  split; [lia|]. apply Z.divide_factor_l.
Qed.

(** A power-of-two multiple of eight is at least eight, and a nonzero number passing the test
    [((a - 1) & a) == 0] is a power of two. *)
Lemma pow2_of_land a : 0 < a -> Z.land (a - 1) a = 0 -> a = 2 ^ Z.log2 a.
Proof.
  intros Ha Hl. destruct (Z.log2_spec a Ha) as [Hlo Hhi]. pose proof (Z.log2_nonneg a).
  destruct (Z.eq_dec a (2 ^ Z.log2 a)) as [|Hne]; [done|].
  assert (Hb : Z.testbit (Z.land (a - 1) a) (Z.log2 a) = true); [|by rewrite Hl, Z.bits_0 in Hb].
  assert (Hlog : Z.log2 (a - 1) = Z.log2 a) by (apply Z.log2_unique; lia).
  rewrite Z.land_spec, Z.bit_log2 by done. rewrite <- Hlog, Z.bit_log2; [done|].
  destruct (Z.eq_dec a 1); [subst; done|lia].
Qed.

(** ** Counters that wrap *)

(** Masking with a power of two minus one is a remainder. *)
Lemma land_mask x k : 0 <= k -> Z.land x (2 ^ k - 1) = x mod 2 ^ k.
Proof. intros Hk. rewrite <- Z.land_ones by done. f_equal. rewrite Z.ones_equiv. lia. Qed.

Lemma mod_sum c d m :
  0 <= c < m -> 0 <= d <= m -> (c + d) mod m = if c + d <? m then c + d else c + d - m.
Proof.
  intros Hc Hd. case_test; [apply Z.mod_small; lia|].
  rewrite <- (Z.mod_small (c + d - m) m) by lia.
  replace (c + d) with (c + d - m + 1 * m) at 1 by lia. apply Z_mod_plus_full.
Qed.

Lemma mod_ne c i j m : 0 <= i < j -> j - i < m -> (c + i) mod m <> (c + j) mod m.
Proof.
  intros Hij Hm Heq. assert (0 < m) by lia.
  assert (H0 : ((c + j) - (c + i)) mod m = 0) by by rewrite Zminus_mod, Heq, Z.sub_diag.
  replace (c + j - (c + i)) with (j - i) in H0 by lia. rewrite Z.mod_small in H0; lia.
Qed.

Lemma sub_mod c d m : 0 <= d < m -> ((c + d) mod m - c) mod m = d.
Proof.
  intros Hd. rewrite Zminus_mod_idemp_l. replace (c + d - c) with d by lia.
  by apply Z.mod_small.
Qed.

#[export] Hint Resolve wrap_range in_u_lxor in_u_shiftr : uk.

(** ** Lists indexed by [Z], as C arrays are

    A read or write outside the array is [None]: the C program has undefined
    behaviour there, and no theorem may rely on it. *)

Definition zget {A} (l : list A) (i : Z) : option A :=
  if i <? 0 then None else l !! Z.to_nat i.

Definition zset {A} (l : list A) (i : Z) (x : A) : option (list A) :=
  if (0 <=? i) && (i <? Z.of_nat (length l)) then Some (<[Z.to_nat i := x]> l)
  else None.

Abbreviation zlen l := (Z.of_nat (length l)).

Section ZList.
Context {A : Type}.
Implicit Types (l : list A) (i j : Z) (x : A).

Lemma zget_Some_range l i x : zget l i = Some x -> 0 <= i < zlen l.
Proof.
  unfold zget. case_test; [done|]. intros H%lookup_lt_Some. lia.
Qed.

Lemma zget_is_Some l i : 0 <= i < zlen l -> is_Some (zget l i).
Proof. intros. unfold zget. case_test; [lia|]. apply lookup_lt_is_Some. lia. Qed.

Lemma zset_is_Some l i x : 0 <= i < zlen l -> zset l i x = Some (<[Z.to_nat i := x]> l).
Proof.
  intros. unfold zset. destruct (Z.leb_spec 0 i), (Z.ltb_spec i (zlen l)); simpl; lia || done.
Qed.

Lemma zset_length l i x l' : zset l i x = Some l' -> length l' = length l.
Proof. unfold zset. intros H. case_test; simplify_eq. by rewrite length_insert. Qed.

Lemma zset_range l i x l' : zset l i x = Some l' -> 0 <= i < zlen l.
Proof. unfold zset. intros H. case_test; simplify_eq. lia. Qed.

Lemma zget_zset_eq l i x l' : zset l i x = Some l' -> zget l' i = Some x.
Proof.
  intros H. pose proof (zset_range _ _ _ _ H). rewrite zset_is_Some in H by done.
  simplify_eq. unfold zget. case_test; [lia|]. apply list_lookup_insert_eq. lia.
Qed.

Lemma zget_zset_ne l i j x l' : i <> j -> zset l i x = Some l' -> zget l' j = zget l j.
Proof.
  intros Hne H. pose proof (zset_range _ _ _ _ H). rewrite zset_is_Some in H by done.
  simplify_eq. unfold zget. case_test; [done|]. apply list_lookup_insert_ne. lia.
Qed.

Lemma zget_zset l i j x l' :
  zset l i x = Some l' -> zget l' j = if decide (i = j) then Some x else zget l j.
Proof.
  intros H. case_decide; subst; [by eapply zget_zset_eq|by eapply zget_zset_ne].
Qed.

Lemma zget_lookup l (n : nat) : zget l (Z.of_nat n) = l !! n.
Proof. unfold zget. case_test; [lia|]. by rewrite Nat2Z.id. Qed.
End ZList.

(** ** Pairwise relations *)

(** Every element is related to every later one. *)
Fixpoint pairwise {A} (R : A -> A -> Prop) (l : list A) : Prop :=
  match l with [] => True | x :: l' => Forall (R x) l' /\ pairwise R l' end.

Lemma pairwise_app {A} (R : A -> A -> Prop) l1 l2 :
  pairwise R (l1 ++ l2) <->
  pairwise R l1 /\ pairwise R l2 /\ (forall x y, x ∈ l1 -> y ∈ l2 -> R x y).
Proof.
  induction l1 as [|x l1 IH]; cbn.
  { split; [|tauto]. intros H. split; [done|]. split; [done|]. intros x y Hx.
    by apply not_elem_of_nil in Hx. }
  rewrite IH, Forall_app, !Forall_forall. split.
  - intros [[H1 H2] (H3 & H4 & H5)]. repeat split; try done.
    intros y z Hy Hz. apply elem_of_cons in Hy as [->|Hy]; auto.
  - intros [[H1 H2] [H3 H4]]. repeat split; try done.
    + intros y Hy. apply H4; [apply list_elem_of_here|done].
    + intros y z Hy Hz. apply H4; [by apply list_elem_of_further|done].
Qed.

(** Removing one element, with what it was related to. *)
Lemma pairwise_remove {A} (R : A -> A -> Prop) l1 x l2 :
  (forall x y, R x y -> R y x) -> pairwise R (l1 ++ x :: l2) ->
  pairwise R (l1 ++ l2) /\ Forall (R x) (l1 ++ l2).
Proof.
  intros Hsym. rewrite !pairwise_app. cbn. intros (H1 & [H2 H3] & H4). split.
  - repeat split; try done. intros y z Hy Hz. apply H4; [done|by apply list_elem_of_further].
  - apply Forall_app. split; [|done]. apply Forall_forall. intros y Hy.
    apply Hsym, H4; [done|apply list_elem_of_here].
Qed.

Lemma filter_ne_id (t : Z) (l : list Z) : t ∉ l -> filter (fun x => x <> t) l = l.
Proof.
  induction l as [|x l IH]; intros H; [done|]. apply not_elem_of_cons in H as [H1 H2].
  rewrite filter_cons_True by congruence. by rewrite IH.
Qed.

(** ** Counting references *)

(** The number of references held to each object, with [k] more to [p]. *)
Definition bump (ext : Z -> Z) (p k : Z) : Z -> Z :=
  fun q => if decide (q = p) then ext q + k else ext q.

Lemma bump_eq ext p k : bump ext p k p = ext p + k.
Proof. unfold bump. by rewrite decide_True. Qed.
Lemma bump_ne ext p k q : q <> p -> bump ext p k q = ext q.
Proof. intros. unfold bump. by rewrite decide_False. Qed.
