(* ===== verification/Buf.v ===== *)
(** * Buf: copying bytes in and out of buffers

    [memcpy] between a buffer at an offset and a block of bytes; a copy that leaves the buffer
    is [None].  Shared by the 9P client, the pipes, the network buffers and the RAM file
    system. *)
From Stdlib Require Import ZArith Lia Bool.
From S2P Require Import Prelude.
Open Scope Z_scope.

(** [memcpy] into a buffer at an offset, and out of it. *)
Definition buf_write (l : list Z) (off : Z) (bs : list Z) : option (list Z) :=
  if (0 <=? off) && (off + zlen bs <=? zlen l)
  then Some (take (Z.to_nat off) l ++ bs ++ drop (Z.to_nat off + length bs) l) else None.
Definition buf_read (l : list Z) (off n : Z) : option (list Z) :=
  if (0 <=? off) && (0 <=? n) && (off + n <=? zlen l)
  then Some (take (Z.to_nat n) (drop (Z.to_nat off) l)) else None.

Lemma buf_write_length l off bs l' : buf_write l off bs = Some l' -> length l' = length l.
Proof.
  unfold buf_write. intros H. case_test; [|done]. simplify_eq.
  rewrite !length_app, length_take, length_drop. lia.
Qed.

Lemma buf_write_ok l off bs :
  0 <= off -> off + zlen bs <= zlen l ->
  buf_write l off bs = Some (take (Z.to_nat off) l ++ bs ++ drop (Z.to_nat off + length bs) l).
Proof.
  intros H1 H2. unfold buf_write. destruct (Z.leb_spec 0 off); [|lia].
  by destruct (Z.leb_spec (off + zlen bs) (zlen l)); [|lia].
Qed.

Lemma buf_write_range l off bs l' :
  buf_write l off bs = Some l' -> 0 <= off /\ off + zlen bs <= zlen l.
Proof. unfold buf_write. intros H. case_test; [lia|done]. Qed.

Lemma buf_write_front l bs :
  zlen bs <= zlen l -> buf_write l 0 bs = Some (bs ++ drop (length bs) l).
Proof. intros H. by rewrite buf_write_ok by lia. Qed.

Lemma buf_write_nil l off : 0 <= off <= zlen l -> buf_write l off [] = Some l.
Proof.
  intros H. rewrite buf_write_ok by (cbn; lia). cbn. by rewrite Nat.add_0_r, take_drop.
Qed.

Lemma buf_read_ok l off n :
  0 <= off -> 0 <= n -> off + n <= zlen l ->
  buf_read l off n = Some (take (Z.to_nat n) (drop (Z.to_nat off) l)).
Proof.
  intros H1 H2 H3. unfold buf_read.
  destruct (Z.leb_spec 0 off), (Z.leb_spec 0 n), (Z.leb_spec (off + n) (zlen l)); done || lia.
Qed.

Lemma buf_read_length l off n bs : buf_read l off n = Some bs -> zlen bs = n.
Proof.
  unfold buf_read. intros H. case_test; [|done]. simplify_eq.
  rewrite length_take, length_drop. lia.
Qed.

Lemma buf_read_all l : buf_read l 0 (zlen l) = Some l.
Proof.
  rewrite buf_read_ok by lia. cbn [Z.to_nat drop]. by rewrite Nat2Z.id, firstn_all.
Qed.

Lemma buf_read_range l off n bs :
  buf_read l off n = Some bs -> 0 <= off /\ 0 <= n /\ off + n <= zlen l.
Proof. unfold buf_read. intros H. case_test; [lia|done]. Qed.

(** Byte by byte. *)
Lemma buf_write_zget l off bs l' i :
  buf_write l off bs = Some l' ->
  zget l' i = if (off <=? i) && (i <? off + zlen bs) then zget bs (i - off) else zget l i.
Proof.
  intros H. pose proof (buf_write_range _ _ _ _ H) as [H1 H2].
  rewrite buf_write_ok in H by lia. injection H as <-. unfold zget.
  destruct (Z.ltb_spec i 0) as [Hi|Hi].
  { destruct (Z.leb_spec off i); [lia|]. done. }
  assert (Ht : length (take (Z.to_nat off) l) = Z.to_nat off) by (rewrite length_take; lia).
  destruct (Z.leb_spec off i), (Z.ltb_spec i (off + zlen bs)); cbn [andb].
  - destruct (Z.ltb_spec (i - off) 0); [lia|].
    rewrite lookup_app_r, Ht, lookup_app_l by lia. f_equal. lia.
  - rewrite lookup_app_r, Ht, lookup_app_r, lookup_drop by lia. f_equal. lia.
  - rewrite lookup_app_l, lookup_take_lt by lia. done.
  - lia.
Qed.

Lemma buf_read_zget l off n bs i :
  buf_read l off n = Some bs ->
  zget bs i = if (0 <=? i) && (i <? n) then zget l (off + i) else None.
Proof.
  intros H. pose proof (buf_read_range _ _ _ _ H) as (H1 & H2 & H3).
  rewrite buf_read_ok in H by lia. injection H as <-. unfold zget.
  destruct (Z.ltb_spec i 0), (Z.leb_spec 0 i); cbn [andb]; try lia; [done|].
  destruct (Z.ltb_spec (off + i) 0); [lia|]. destruct (Z.ltb_spec i n).
  - rewrite lookup_take_lt, lookup_drop by lia. f_equal. lia.
  - apply lookup_take_ge. lia.
Qed.

Lemma zget_ext {A} (l1 l2 : list A) : (forall i, 0 <= i -> zget l1 i = zget l2 i) -> l1 = l2.
Proof.
  intros H. apply list_eq. intros n. specialize (H (Z.of_nat n) ltac:(lia)).
  by rewrite !zget_lookup in H.
Qed.

Lemma zget_app {A} (l1 l2 : list A) i :
  0 <= i -> zget (l1 ++ l2) i = if i <? zlen l1 then zget l1 i else zget l2 (i - zlen l1).
Proof.
  intros Hi. unfold zget. destruct (Z.ltb_spec i 0); [lia|]. destruct (Z.ltb_spec i (zlen l1)).
  - apply lookup_app_l. lia.
  - destruct (Z.ltb_spec (i - zlen l1) 0); [lia|]. rewrite lookup_app_r by lia. f_equal. lia.
Qed.

(** Two writes next to each other are one. *)
Lemma buf_write_app l off b1 b2 l1 l2 :
  buf_write l off b1 = Some l1 -> buf_write l1 (off + zlen b1) b2 = Some l2 ->
  buf_write l off (b1 ++ b2) = Some l2.
Proof.
  intros H1 H2. pose proof (buf_write_range _ _ _ _ H1). pose proof (buf_write_range _ _ _ _ H2).
  pose proof (buf_write_length _ _ _ _ H1).
  assert (Hr : off + zlen (b1 ++ b2) <= zlen l) by (rewrite length_app; lia).
  pose proof (buf_write_ok l off (b1 ++ b2) ltac:(lia) Hr) as HW. rewrite HW. f_equal.
  apply zget_ext. intros i Hi. rewrite (buf_write_zget _ _ _ _ i HW), (buf_write_zget _ _ _ _ i H2),
    (buf_write_zget _ _ _ _ i H1), length_app.
  destruct (Z.leb_spec off i), (Z.ltb_spec i (off + Z.of_nat (length b1 + length b2))),
    (Z.leb_spec (off + zlen b1) i), (Z.ltb_spec i (off + zlen b1 + zlen b2)),
    (Z.ltb_spec i (off + zlen b1)); cbn [andb]; try lia; try done;
    rewrite zget_app by lia; destruct (Z.ltb_spec (i - off) (zlen b1)); try lia; try done.
  f_equal. lia.
Qed.

(** What was written is read back. *)
Lemma buf_read_write l off bs l' : buf_write l off bs = Some l' -> buf_read l' off (zlen bs) = Some bs.
Proof.
  intros H. pose proof (buf_write_range _ _ _ _ H). pose proof (buf_write_length _ _ _ _ H).
  pose proof (buf_read_ok l' off (zlen bs) ltac:(lia) ltac:(lia) ltac:(lia)) as Hr. rewrite Hr.
  f_equal. apply zget_ext. intros i Hi.
  rewrite (buf_read_zget _ _ _ _ i Hr), (buf_write_zget _ _ _ _ (off + i) H).
  replace (off + i - off) with i by lia.
  destruct (Z.leb_spec 0 i), (Z.ltb_spec i (zlen bs)), (Z.leb_spec off (off + i)),
    (Z.ltb_spec (off + i) (off + zlen bs)); cbn [andb]; try lia; try done.
  unfold zget. destruct (Z.ltb_spec i 0); [done|]. symmetry. apply lookup_ge_None. lia.
Qed.

(** A write inside the first [k] bytes. *)
Lemma buf_write_prefix l off bs l' k :
  buf_write l off bs = Some l' -> off + zlen bs <= Z.of_nat k -> (k <= length l)%nat ->
  buf_write (take k l) off bs = Some (take k l') /\ drop k l' = drop k l.
Proof.
  intros H Hk Hl. pose proof (buf_write_range _ _ _ _ H) as [H1 H2].
  assert (Ht : length (take (Z.to_nat off) l) = Z.to_nat off) by (rewrite length_take; lia).
  rewrite buf_write_ok in H by lia. injection H as <-.
  rewrite buf_write_ok by (rewrite ?length_take; lia). split.
  - f_equal. rewrite take_take, Nat.min_l by lia. rewrite !take_app, !Ht.
    rewrite take_take, Nat.min_r by lia. f_equal. rewrite (take_ge bs) by lia. f_equal.
    rewrite take_drop_commute. f_equal. f_equal. lia.
  - rewrite !drop_app, Ht, (drop_ge (take _ l)), (drop_ge bs) by (rewrite ?Ht; lia). cbn [app].
    rewrite drop_drop. f_equal. lia.
Qed.
