(* ===== verification/Bitmap.v ===== *)
(** * Bitmap: bit operations and bitmaps

    Models [include/uk/bitops.h], [include/uk/bitmap.h] and [include/uk/bitcount.h].  A bitmap
    is an array of 64-bit words ([list Z], [None] is an access outside it); bit [i] is bit
    [i mod 64] of word [i / 64].  The functions work on masked words, on bytes and, for the
    population count, on fields of a word in parallel; the theorems say what they do to single
    bits.  Sizes are below [2^31], where the code's [int] positions do not overflow.  A shift
    count is taken modulo the width, as x86 takes it: [UK_BITMAP_LAST_WORD_MASK] relies on that
    whenever its argument is not in 1..64. *)
From Stdlib Require Import ZArith Lia Bool.
From S2P Require Import Prelude.
Open Scope Z_scope.

Module Bitmap.

Definition ENOMEM : Z := 12.
Definition EBUSY : Z := 16.
Definition UK_BITS_PER_LONG : Z := 64.

(** [~0UL] *)
Definition ones64 : Z := 2 ^ 64 - 1.

Definition UK_BITMAP_FIRST_WORD_MASK (start : Z) : Z :=
  u64 (Z.shiftl ones64 (start mod UK_BITS_PER_LONG)).
Definition UK_BITMAP_LAST_WORD_MASK (n : Z) : Z :=
  Z.shiftr ones64 ((UK_BITS_PER_LONG - n) mod 64).
Definition UK_BITS_TO_LONGS (n : Z) : Z := (n + (UK_BITS_PER_LONG - 1)) / UK_BITS_PER_LONG.
Definition UK_BIT_WORD (nr : Z) : Z := nr / UK_BITS_PER_LONG.

(** The instructions [bsf] and [bsr], on a word that is not zero. *)
Definition ukarch_ffsl (word : Z) : Z := Z.log2 (Z.land word (- word)).
Definition ukarch_flsl (word : Z) : Z := Z.log2 word.

Definition uk_ror32 (word shift : Z) : Z :=
  Z.lor (Z.shiftr word (shift mod 32)) (u32 (Z.shiftl word (u32 (32 - shift) mod 32))).

Definition uk_get_count_order (count : Z) : Z :=
  let order := ukarch_flsl count in
  if Z.land count (u32 (count - 1)) =? 0 then order else order + 1.

(** ** Searching *)

(** The loop over whole words and the rest word that four functions share: [g] is the identity
    or the complement, [pos] the word at [addr]. *)
Fixpoint scan (fuel : nat) (g : Z -> Z) (addr : list Z) (pos bit size : Z) : option Z :=
  if UK_BITS_PER_LONG <=? size then
    match fuel with
    | O => None
    | S fuel' =>
        w ← zget addr pos;
        if g w =? 0 then
          scan fuel' g addr (pos + 1) (bit + UK_BITS_PER_LONG) (size - UK_BITS_PER_LONG)
        else Some (bit + ukarch_ffsl (g w))
    end
  else if size =? 0 then Some bit
  else
    w ← zget addr pos;
    let mask := Z.land (g w) (UK_BITMAP_LAST_WORD_MASK size) in
    Some (if mask =? 0 then bit + size else bit + ukarch_ffsl mask).

Definition find_first (g : Z -> Z) (addr : list Z) (size : Z) : option Z :=
  scan (Z.to_nat (size / 64)) g addr 0 0 size.

Definition uk_find_first_bit : list Z -> Z -> option Z := find_first (fun w => w).
Definition uk_find_first_zero_bit : list Z -> Z -> option Z := find_first (lnotw 64).

Definition find_next (g : Z -> Z) (addr : list Z) (size offset : Z) : option Z :=
  if size <=? offset then Some size
  else
    let pos := offset / UK_BITS_PER_LONG in
    let offs := offset mod UK_BITS_PER_LONG in
    let bit := UK_BITS_PER_LONG * pos in
    if negb (offs =? 0) then
      w ← zget addr pos;
      let mask := Z.land (g w) (lnotw 64 (UK_BITMAP_LAST_WORD_MASK offs)) in
      if negb (mask =? 0) then Some (bit + ukarch_ffsl mask)
      else if size - bit <=? UK_BITS_PER_LONG then Some size
      else
        let bit := bit + UK_BITS_PER_LONG in
        scan (Z.to_nat ((size - bit) / 64)) g addr (pos + 1) bit (size - bit)
    else scan (Z.to_nat ((size - bit) / 64)) g addr pos bit (size - bit).

Definition uk_find_next_bit : list Z -> Z -> Z -> option Z := find_next (fun w => w).
Definition uk_find_next_zero_bit : list Z -> Z -> Z -> option Z := find_next (lnotw 64).

(** [while (pos--) { addr--; bit -= 64; if ( *addr) return ...; }] with [pos] words left. *)
Fixpoint last_loop (pos : nat) (addr : list Z) (size : Z) : option Z :=
  match pos with
  | O => Some size
  | S pos' =>
      w ← zget addr (Z.of_nat pos');
      if negb (w =? 0) then Some (UK_BITS_PER_LONG * Z.of_nat pos' + ukarch_flsl w)
      else last_loop pos' addr size
  end.

Definition uk_find_last_bit (addr : list Z) (size : Z) : option Z :=
  let pos := size / UK_BITS_PER_LONG in
  let offs := size mod UK_BITS_PER_LONG in
  if negb (offs =? 0) then
    w ← zget addr pos;
    let mask := Z.land w (UK_BITMAP_LAST_WORD_MASK offs) in
    if negb (mask =? 0) then Some (UK_BITS_PER_LONG * pos + ukarch_flsl mask)
    else last_loop (Z.to_nat pos) addr size
  else last_loop (Z.to_nat pos) addr size.

(** ** Single bits, through bytes *)

(** [((__u8 * ) addr)[k]], little endian. *)
Definition byte_get (addr : list Z) (k : Z) : option Z :=
  w ← zget addr (k / 8); Some (u8 (Z.shiftr w (8 * (k mod 8)))).

Definition byte_set (addr : list Z) (k v : Z) : option (list Z) :=
  w ← zget addr (k / 8);
  zset addr (k / 8)
    (Z.lor (Z.ldiff w (Z.shiftl 255 (8 * (k mod 8)))) (Z.shiftl v (8 * (k mod 8)))).

Definition uk_test_and_clear_bit (nr : Z) (addr : list Z) : option (bool * list Z) :=
  let mask := u8 (Z.shiftl 1 (Z.land nr 7)) in
  orig ← byte_get addr (Z.shiftr nr 3);
  addr ← byte_set addr (Z.shiftr nr 3) (Z.land orig (lnotw 8 mask));
  Some (negb (Z.land orig mask =? 0), addr).

Definition uk_test_and_set_bit (nr : Z) (addr : list Z) : option (bool * list Z) :=
  let mask := u8 (Z.shiftl 1 (Z.land nr 7)) in
  orig ← byte_get addr (Z.shiftr nr 3);
  addr ← byte_set addr (Z.shiftr nr 3) (Z.lor orig mask);
  Some (negb (Z.land orig mask =? 0), addr).

Definition uk_set_bit (nr : Z) (addr : list Z) : option (list Z) :=
  '(_, addr) ← uk_test_and_set_bit nr addr; Some addr.
Definition uk_clear_bit (nr : Z) (addr : list Z) : option (list Z) :=
  '(_, addr) ← uk_test_and_clear_bit nr addr; Some addr.

Definition uk_test_bit (nr : Z) (addr : list Z) : option bool :=
  b ← byte_get addr (Z.shiftr nr 3);
  Some (negb (Z.land (Z.shiftl 1 (Z.land nr 7)) b =? 0)).

(** ** Regions of [2^order] bits *)

Inductive reg_op := REG_OP_ISFREE | REG_OP_ALLOC | REG_OP_RELEASE.

Fixpoint words_free (n : nat) (bitmap : list Z) (i mask : Z) : option bool :=
  match n with
  | O => Some true
  | S n' =>
      w ← zget bitmap i;
      if negb (Z.land w mask =? 0) then Some false else words_free n' bitmap (i + 1) mask
  end.

(** [for (i = 0; i < n; i++) bitmap[index + i] = f(bitmap[index + i], mask)] *)
Fixpoint words_update (n : nat) (f : Z -> Z -> Z) (bitmap : list Z) (i mask : Z)
    : option (list Z) :=
  match n with
  | O => Some bitmap
  | S n' =>
      w ← zget bitmap i;
      bitmap ← zset bitmap i (f w mask);
      words_update n' f bitmap (i + 1) mask
  end.

(** [w | mask] and [w & ~mask] *)
Definition set_mask (w mask : Z) : Z := Z.lor w mask.
Definition clear_mask (w mask : Z) : Z := Z.land w (lnotw 64 mask).

Definition reg_mask (nbits_reg offset : Z) : Z :=
  let nbitsinlong := Z.min nbits_reg UK_BITS_PER_LONG in
  let mask := Z.shiftl 1 (nbitsinlong - 1) in
  let mask := u64 (mask + (mask - 1)) in
  u64 (Z.shiftl mask offset).

Definition __uk_bitopts_reg_op (bitmap : list Z) (pos order : Z) (op : reg_op)
    : option (bool * list Z) :=
  let nbits_reg := Z.shiftl 1 order in
  let index := pos / UK_BITS_PER_LONG in
  let offset := pos - index * UK_BITS_PER_LONG in
  let nlongs_reg := Z.to_nat (UK_BITS_TO_LONGS nbits_reg) in
  let mask := reg_mask nbits_reg offset in
  match op with
  | REG_OP_ISFREE => r ← words_free nlongs_reg bitmap index mask; Some (r, bitmap)
  | REG_OP_ALLOC =>
      bitmap ← words_update nlongs_reg set_mask bitmap index mask; Some (false, bitmap)
  | REG_OP_RELEASE =>
      bitmap ← words_update nlongs_reg clear_mask bitmap index mask; Some (false, bitmap)
  end.

Definition uk_sign_extend64 (value index : Z) : Z :=
  let shift := u8 (63 - index) in
  u64 (Z.shiftr (sext 64 (u64 (Z.shiftl value shift))) shift).

(** ** Bitmaps *)

Fixpoint set_words (n : nat) (addr : list Z) (i v : Z) : option (list Z) :=
  match n with
  | O => Some addr
  | S n' => addr ← zset addr i v; set_words n' addr (i + 1) v
  end.

Definition uk_bitmap_zero (addr : list Z) (size : Z) : option (list Z) :=
  set_words (Z.to_nat (UK_BITS_TO_LONGS size)) addr 0 0.

Definition uk_bitmap_fill (addr : list Z) (size : Z) : option (list Z) :=
  let tail := Z.land size (UK_BITS_PER_LONG - 1) in
  addr ← set_words (Z.to_nat (UK_BIT_WORD size)) addr 0 ones64;
  if negb (tail =? 0) then zset addr (UK_BIT_WORD size) (UK_BITMAP_LAST_WORD_MASK tail)
  else Some addr.

(** [for (i = 0; i != end; i++) if (!p(i)) return 0;] *)
Fixpoint for_words (n : nat) (i : Z) (p : Z -> option bool) : option bool :=
  match n with
  | O => Some true
  | S n' => b ← p i; if (b : bool) then for_words n' (i + 1) p else Some false
  end.

Definition check_words (size : Z) (p : Z -> option bool) (q : Z -> Z -> option bool)
    : option bool :=
  let end_ := UK_BIT_WORD size in
  let tail := Z.land size (UK_BITS_PER_LONG - 1) in
  b ← for_words (Z.to_nat end_) 0 p;
  if negb b then Some false
  else if negb (tail =? 0) then q end_ (UK_BITMAP_LAST_WORD_MASK tail)
  else Some true.

Definition uk_bitmap_full (addr : list Z) (size : Z) : option bool :=
  check_words size (fun i => w ← zget addr i; Some (w =? ones64))
    (fun i mask => w ← zget addr i; Some (Z.land w mask =? mask)).

Definition uk_bitmap_empty (addr : list Z) (size : Z) : option bool :=
  check_words size (fun i => w ← zget addr i; Some (w =? 0))
    (fun i mask => w ← zget addr i; Some (Z.land w mask =? 0)).

Definition uk_bitmap_equal (pa pb : list Z) (size : Z) : option bool :=
  check_words size (fun i => a ← zget pa i; b ← zget pb i; Some (a =? b))
    (fun i mask => a ← zget pa i; b ← zget pb i; Some (Z.land (Z.lxor a b) mask =? 0)).

(** The loop of [uk_bitmap_set] and [uk_bitmap_clear], [f] being [set_mask] or [clear_mask]. *)
Fixpoint range_loop (fuel : nat) (f : Z -> Z -> Z) (map : list Z) (pos nr bits mask size : Z)
    : option (list Z) :=
  if 0 <=? nr - bits then
    match fuel with
    | O => None
    | S fuel' =>
        w ← zget map pos;
        map ← zset map pos (f w mask);
        range_loop fuel' f map (pos + 1) (nr - bits) UK_BITS_PER_LONG ones64 size
    end
  else if negb (nr =? 0) then
    w ← zget map pos;
    zset map pos (f w (Z.land mask (UK_BITMAP_LAST_WORD_MASK size)))
  else Some map.

Definition range_update (f : Z -> Z -> Z) (map : list Z) (start nr : Z) : option (list Z) :=
  let size := u32 (start + nr) in
  let bits := UK_BITS_PER_LONG - start mod UK_BITS_PER_LONG in
  range_loop (Z.to_nat nr) f map (UK_BIT_WORD start) nr bits
    (UK_BITMAP_FIRST_WORD_MASK start) size.

Definition uk_bitmap_set : list Z -> Z -> Z -> option (list Z) := range_update set_mask.
Definition uk_bitmap_clear : list Z -> Z -> Z -> option (list Z) := range_update clear_mask.

(** The [retry] loop. *)
Fixpoint uk_bitmap_find_next_zero_area_off (fuel : nat) (map : list Z)
    (size start nr align_mask align_offset : Z) : option Z :=
  match fuel with
  | O => None
  | S fuel' =>
      index ← uk_find_next_zero_bit map size start;
      let index :=
        u32 (Z.land (u32 (u32 (index + align_offset) + align_mask)) (lnotw 32 align_mask)
             - align_offset) in
      let end_ := u32 (index + nr) in
      if size <? end_ then Some end_
      else
        i ← uk_find_next_bit map end_ index;
        if i <? end_ then
          uk_bitmap_find_next_zero_area_off fuel' map size (u32 (i + 1)) nr align_mask
            align_offset
        else Some index
  end.

Definition uk_bitmap_find_next_zero_area (fuel : nat) (map : list Z)
    (size start nr align_mask : Z) : option Z :=
  uk_bitmap_find_next_zero_area_off fuel map size start nr align_mask 0.

(** [for (pos = 0; (end = pos + (1 << order)) <= bits; pos = end)], [k] rounds at most. *)
Fixpoint free_region_loop (k : nat) (bitmap : list Z) (bits order pos : Z)
    : option (Z * list Z) :=
  let end_ := pos + Z.shiftl 1 order in
  if end_ <=? bits then
    match k with
    | O => None
    | S k' =>
        '(free, _) ← __uk_bitopts_reg_op bitmap pos order REG_OP_ISFREE;
        if negb free then free_region_loop k' bitmap bits order end_
        else
          '(_, bitmap) ← __uk_bitopts_reg_op bitmap pos order REG_OP_ALLOC;
          Some (pos, bitmap)
    end
  else Some (- ENOMEM, bitmap).

Definition uk_bitmap_find_free_region (bitmap : list Z) (bits order : Z)
    : option (Z * list Z) :=
  free_region_loop (Z.to_nat bits) bitmap bits order 0.

Definition uk_bitmap_allocate_region (bitmap : list Z) (pos order : Z) : option (Z * list Z) :=
  '(free, _) ← __uk_bitopts_reg_op bitmap pos order REG_OP_ISFREE;
  if negb free then Some (- EBUSY, bitmap)
  else
    '(_, bitmap) ← __uk_bitopts_reg_op bitmap pos order REG_OP_ALLOC;
    Some (0, bitmap).

Definition uk_bitmap_release_region (bitmap : list Z) (pos order : Z) : option (list Z) :=
  '(_, bitmap) ← __uk_bitopts_reg_op bitmap pos order REG_OP_RELEASE; Some bitmap.

(** ** Population counts *)

Definition uk_bitcount16 (x : Z) : Z :=
  let x := u16 (Z.land x 0x5555 + Z.shiftr (Z.land x 0xaaaa) 1) in
  let x := u16 (Z.land x 0x3333 + Z.shiftr (Z.land x 0xcccc) 2) in
  let x := Z.land (x + Z.shiftr x 4) 0x0f0f in
  Z.land (x + Z.shiftr x 8) 0x00ff.

Definition uk_bitcount32 (x : Z) : Z :=
  let x := u32 (Z.land x 0x55555555 + Z.shiftr (Z.land x 0xaaaaaaaa) 1) in
  let x := u32 (Z.land x 0x33333333 + Z.shiftr (Z.land x 0xcccccccc) 2) in
  let x := Z.land (u32 (x + Z.shiftr x 4)) 0x0f0f0f0f in
  let x := u32 (x + Z.shiftr x 8) in
  Z.land (u32 (x + Z.shiftr x 16)) 0x000000ff.

Definition uk_bitcount64 (x : Z) : Z :=
  let x := u64 (Z.land x 0x5555555555555555 + Z.shiftr (Z.land x 0xaaaaaaaaaaaaaaaa) 1) in
  let x := u64 (Z.land x 0x3333333333333333 + Z.shiftr (Z.land x 0xcccccccccccccccc) 2) in
  let x := Z.land (u64 (x + Z.shiftr x 4)) 0x0f0f0f0f0f0f0f0f in
  let x := u64 (x + Z.shiftr x 8) in
  let x := u64 (x + Z.shiftr x 16) in
  Z.land (u64 (x + Z.shiftr x 32)) 0x000000ff.

Fixpoint weight_loop (n : nat) (addr : list Z) (i retval : Z) : option Z :=
  match n with
  | O => Some retval
  | S n' => w ← zget addr i; weight_loop n' addr (i + 1) (u32 (retval + uk_bitcount64 w))
  end.

Definition uk_bitmap_weight (addr : list Z) (size : Z) : option Z :=
  let end_ := UK_BIT_WORD size in
  let tail := Z.land size (UK_BITS_PER_LONG - 1) in
  retval ← weight_loop (Z.to_nat end_) addr 0 0;
  if negb (tail =? 0) then
    w ← zget addr end_;
    Some (u32 (retval + uk_bitcount64 (Z.land w (UK_BITMAP_LAST_WORD_MASK tail))))
  else Some retval.

(** [for (i = 0; i != end; i++) dst[i] = f(src1[i], src2[i]);] *)
Fixpoint combine_loop (n : nat) (f : Z -> Z -> Z) (dst src1 src2 : list Z) (i : Z)
    : option (list Z) :=
  match n with
  | O => Some dst
  | S n' =>
      a ← zget src1 i; b ← zget src2 i;
      dst ← zset dst i (f a b);
      combine_loop n' f dst src1 src2 (i + 1)
  end.

Definition combine_words (f : Z -> Z -> Z) (dst src1 src2 : list Z) (size : Z)
    : option (list Z) :=
  combine_loop (Z.to_nat (UK_BITS_TO_LONGS size)) f dst src1 src2 0.

Definition uk_bitmap_complement (dst src : list Z) : Z -> option (list Z) :=
  combine_words (fun a _ => lnotw 64 a) dst src src.
Definition uk_bitmap_or : list Z -> list Z -> list Z -> Z -> option (list Z) :=
  combine_words Z.lor.
Definition uk_bitmap_and : list Z -> list Z -> list Z -> Z -> option (list Z) :=
  combine_words Z.land.
Definition uk_bitmap_xor : list Z -> list Z -> list Z -> Z -> option (list Z) :=
  combine_words Z.lxor.

(** ** What a bitmap means *)

Definition bit (m : list Z) (i : Z) : bool :=
  match zget m (i / 64) with Some w => Z.testbit w (i mod 64) | None => false end.

Definition words_ok (m : list Z) : Prop := Forall (in_u 64) m.

(** ** Masks and bit numbers *)

Lemma ones64_bits j : 0 <= j -> Z.testbit ones64 j = (j <? 64).
Proof.
  intros Hj. unfold ones64. replace (2 ^ 64 - 1) with (Z.ones 64) by reflexivity.
  by rewrite Z.testbit_ones_nonneg by lia.
Qed.

Lemma ones64_in_u : ones64 ∈u 64.
Proof. unfold ones64, in_u. lia. Qed.

(** The number of bits [UK_BITMAP_LAST_WORD_MASK n] keeps. *)
Definition last_bits (n : Z) : Z := 64 - (64 - n) mod 64.

Lemma last_bits_small n : 1 <= n <= 64 -> last_bits n = n.
Proof. unfold last_bits. Z.div_mod_to_equations. lia. Qed.

Lemma last_bits_mod n : n mod 64 <> 0 -> last_bits n = n mod 64.
Proof. unfold last_bits. Z.div_mod_to_equations. lia. Qed.

Lemma last_word_mask_bits n j :
  0 <= j -> Z.testbit (UK_BITMAP_LAST_WORD_MASK n) j = (j <? last_bits n).
Proof.
  intros Hj. unfold UK_BITMAP_LAST_WORD_MASK, UK_BITS_PER_LONG, last_bits.
  pose proof (Z.mod_pos_bound (64 - n) 64 ltac:(lia)).
  rewrite Z.shiftr_spec, ones64_bits by lia. apply eq_true_iff_eq. rewrite !Z.ltb_lt. lia.
Qed.

Lemma last_word_mask_in_u n : UK_BITMAP_LAST_WORD_MASK n ∈u 64.
Proof.
  unfold UK_BITMAP_LAST_WORD_MASK, UK_BITS_PER_LONG.
  apply in_u_shiftr; [lia| |apply ones64_in_u]. apply Z.mod_pos_bound. lia.
Qed.

Lemma first_word_mask_bits s j :
  0 <= j -> Z.testbit (UK_BITMAP_FIRST_WORD_MASK s) j = (s mod 64 <=? j) && (j <? 64).
Proof.
  intros Hj. unfold UK_BITMAP_FIRST_WORD_MASK, UK_BITS_PER_LONG.
  pose proof (Z.mod_pos_bound s 64 ltac:(lia)).
  rewrite wrap_testbit, Z.shiftl_spec by lia. rewrite andb_comm.
  destruct (Z.leb_spec (s mod 64) j).
  - rewrite ones64_bits by lia. destruct (Z.ltb_spec j 64); [|by rewrite andb_false_r].
    by destruct (Z.ltb_spec (j - s mod 64) 64); [|lia].
  - by rewrite Z.testbit_neg_r by lia.
Qed.

Lemma in_u_land w a b : 0 <= w -> a ∈u w -> 0 <= b -> Z.land a b ∈u w.
Proof.
  intros Hw Ha Hb. apply in_u_bits; [done|apply Z.land_nonneg; lia|].
  intros i Hi. by rewrite Z.land_spec, (in_u_testbit w a i).
Qed.

Lemma in_u_lor w a b : 0 <= w -> a ∈u w -> b ∈u w -> Z.lor a b ∈u w.
Proof.
  intros Hw Ha Hb. apply in_u_bits; [done| |].
  - apply Z.lor_nonneg. unfold in_u in *. lia.
  - intros i Hi. by rewrite Z.lor_spec, !(in_u_testbit w).
Qed.

Lemma lnotw_in_u w z : 0 <= w -> lnotw w z ∈u w.
Proof. intros. by apply wrap_range. Qed.

Lemma lnotw_bits w z j :
  0 <= w -> 0 <= j -> Z.testbit (lnotw w z) j = (j <? w) && negb (Z.testbit z j).
Proof. intros Hw Hj. unfold lnotw. by rewrite wrap_testbit, Z.lnot_spec. Qed.

#[local] Hint Resolve ones64_in_u last_word_mask_in_u in_u_land in_u_lor lnotw_in_u : uk.

(** Every number other than zero is an odd number times a power of two. *)
Lemma odd_part z : 0 < z -> exists k q, 0 <= k /\ z = (2 * q + 1) * 2 ^ k.
Proof.
  induction (Z.lt_wf 0 z) as [z _ IH]. intros Hz.
  destruct (Z.even z) eqn:He.
  - apply Z.even_spec in He as [h ->]. destruct (IH h) as (k & q & Hk & ->); [lia|lia|].
    exists (k + 1), q. split; [lia|]. rewrite Z.pow_add_r by lia. lia.
  - assert (Ho : Z.odd z = true) by by rewrite <- Z.negb_even, He.
    apply Z.odd_spec in Ho as [h ->].
    exists 0, h. lia.
Qed.

Lemma land_opp_odd q : Z.land (2 * q + 1) (- (2 * q + 1)) = 1.
Proof.
  replace (- (2 * q + 1)) with (2 * (- q - 1) + 1) by lia.
  apply Z.bits_inj'. intros j Hj. rewrite Z.land_spec.
  destruct (Z.eq_dec j 0) as [->|]; [by rewrite !Z.testbit_odd_0|].
  replace j with (Z.succ (j - 1)) by lia. rewrite !Z.testbit_odd_succ by lia.
  replace (- q - 1) with (Z.lnot q) by (unfold Z.lnot; lia).
  rewrite Z.lnot_spec by lia. rewrite andb_negb_r. symmetry.
  change 1 with (2 * 0 + 1). rewrite Z.testbit_odd_succ, Z.bits_0 by lia. done.
Qed.

Lemma ukarch_ffsl_spec w :
  0 < w -> 0 <= ukarch_ffsl w /\ Z.testbit w (ukarch_ffsl w) = true /\
  forall j, 0 <= j < ukarch_ffsl w -> Z.testbit w j = false.
Proof.
  intros Hw. destruct (odd_part w Hw) as (k & q & Hk & E).
  assert (ukarch_ffsl w = k) as Hf.
  { unfold ukarch_ffsl. rewrite E, <- Z.mul_opp_l, <- !Z.shiftl_mul_pow2 by done.
    rewrite <- Z.shiftl_land, land_opp_odd, Z.shiftl_mul_pow2, Z.mul_1_l by done.
    by apply Z.log2_pow2. }
  rewrite Hf, E. repeat split; [done| |].
  - rewrite Z.mul_pow2_bits, Z.sub_diag by done. apply Z.testbit_odd_0.
  - intros j Hj. apply Z.mul_pow2_bits_low. lia.
Qed.

Lemma ukarch_flsl_spec w :
  0 < w -> 0 <= ukarch_flsl w /\ Z.testbit w (ukarch_flsl w) = true /\
  forall j, ukarch_flsl w < j -> Z.testbit w j = false.
Proof.
  intros Hw. unfold ukarch_flsl. split; [apply Z.log2_nonneg|]. split; [by apply Z.bit_log2|].
  intros j Hj. apply Z.bits_above_log2; lia.
Qed.

Implicit Types (m : list Z).

(** ** Words and bits *)

Lemma words_ok_get m k w : words_ok m -> zget m k = Some w -> w ∈u 64.
Proof.
  intros Hm H. unfold zget in H. case_test; [done|].
  exact (proj1 (Forall_lookup _ _) Hm _ _ H).
Qed.

Lemma words_ok_set m k w m' : words_ok m -> w ∈u 64 -> zset m k w = Some m' -> words_ok m'.
Proof. intros Hm Hw H. unfold zset in H. case_test; simplify_eq. by apply Forall_insert. Qed.

Lemma word_get m k : 0 <= k < zlen m -> exists w, zget m k = Some w.
Proof. apply zget_is_Some. Qed.

(** A bit of the word [k] by its position in the map. *)
Lemma bit_word m k w i :
  zget m k = Some w -> 64 * k <= i < 64 * k + 64 -> bit m i = Z.testbit w (i - 64 * k).
Proof.
  intros H Hi. unfold bit. replace (i / 64) with k by (Z.div_mod_to_equations; lia).
  rewrite H. f_equal. Z.div_mod_to_equations. lia.
Qed.

Lemma bit_set_word m k w m' i :
  zset m k w = Some m' -> 0 <= i ->
  bit m' i = if (64 * k <=? i) && (i <? 64 * k + 64) then Z.testbit w (i - 64 * k) else bit m i.
Proof.
  intros H Hi. pose proof (zset_range _ _ _ _ H).
  destruct (Z.leb_spec (64 * k) i), (Z.ltb_spec i (64 * k + 64)); cbn.
  1: by apply bit_word; [eapply zget_zset_eq|].
  all: unfold bit; erewrite (zget_zset_ne m k (i / 64)); eauto; Z.div_mod_to_equations; lia.
Qed.

(** A word is zero when all its 64 bits are. *)
Lemma word_zero w : w ∈u 64 -> (forall j, 0 <= j < 64 -> Z.testbit w j = false) -> w = 0.
Proof.
  intros Hw Hb. apply Z.bits_inj'. intros j Hj. rewrite Z.bits_0.
  destruct (Z.lt_ge_cases j 64); [apply Hb; lia|by apply (in_u_testbit 64)].
Qed.

(** ** Searching *)

Section Search.

(** [g] selects bits: [p b] says whether a bit with value [b] is looked for. *)
Context (g : Z -> Z) (p : bool -> bool).
Hypothesis g_in_u : forall w, w ∈u 64 -> g w ∈u 64.
Hypothesis g_bits : forall w j, w ∈u 64 -> 0 <= j < 64 -> Z.testbit (g w) j = p (Z.testbit w j).

(** [r] is the first position from [a] on with a bit looked for, if there is one below [e]. *)
Definition first_from (m : list Z) (a e r : Z) : Prop :=
  a <= r /\ (forall i, a <= i < e -> i < r -> p (bit m i) = false) /\
  (r < e -> p (bit m r) = true).

(** The masked word decides the search inside one word. *)
Lemma masked_word m k w mask a e :
  words_ok m -> zget m k = Some w -> 64 * k <= a -> e <= 64 * k + 64 ->
  mask ∈u 64 ->
  (forall j, 0 <= j < 64 -> Z.testbit mask j = (a - 64 * k <=? j) && (j <? e - 64 * k)) ->
  if Z.land (g w) mask =? 0 then forall i, a <= i < e -> p (bit m i) = false
  else let r := 64 * k + ukarch_ffsl (Z.land (g w) mask) in
       a <= r < e /\ p (bit m r) = true /\ forall i, a <= i < r -> p (bit m i) = false.
Proof.
  intros Hm Hw Ha He Hmask Hbits. pose proof (words_ok_get _ _ _ Hm Hw) as Hu.
  pose proof (g_in_u w Hu) as Hg.
  assert (Hl : forall i, 64 * k <= i < 64 * k + 64 ->
      Z.testbit (Z.land (g w) mask) (i - 64 * k) = (a <=? i) && (i <? e) && p (bit m i)).
  { intros i Hi. rewrite Z.land_spec, g_bits, Hbits, (bit_word m k w i) by (done || lia).
    rewrite andb_comm. do 2 f_equal; apply eq_true_iff_eq;
      rewrite ?Z.leb_le, ?Z.ltb_lt; lia. }
  destruct (Z.eqb_spec (Z.land (g w) mask) 0) as [E|E].
  - intros i Hi. specialize (Hl i ltac:(lia)). rewrite E, Z.bits_0 in Hl.
    destruct (Z.leb_spec a i), (Z.ltb_spec i e); [done|lia..].
  - assert (Hin : Z.land (g w) mask ∈u 64) by (apply in_u_land; [lia|done|apply Hmask]).
    destruct (ukarch_ffsl_spec (Z.land (g w) mask)) as (H0 & H1 & H2).
    { unfold in_u in Hin. lia. }
    set (f := ukarch_ffsl (Z.land (g w) mask)) in *.
    assert (f < 64).
    { destruct (Z.lt_ge_cases f 64) as [|Hf]; [done|].
      by rewrite (in_u_testbit 64 _ f ltac:(lia) Hin Hf) in H1. }
    assert (Hr := Hl (64 * k + f) ltac:(lia)).
    replace (64 * k + f - 64 * k) with f in Hr by lia. rewrite H1 in Hr. symmetry in Hr.
    apply andb_true_iff in Hr as [Hr1 Hr2]. tests. cbn zeta. split; [lia|]. split; [done|].
    intros i Hi. specialize (Hl i ltac:(lia)). rewrite H2 in Hl by lia.
    destruct (Z.leb_spec a i), (Z.ltb_spec i e); [done|lia..].
Qed.

(** The rest of the range, less than a word. *)
Lemma scan_rest m fuel pos size :
  words_ok m -> 0 <= pos -> 0 <= size < 64 -> 64 * pos + size <= 64 * zlen m ->
  exists r, scan fuel g m pos (64 * pos) size = Some r /\
    first_from m (64 * pos) (64 * pos + size) r /\ r <= 64 * pos + size.
Proof.
  intros Hm Hpos Hs Hlen.
  replace (scan fuel g m pos (64 * pos) size) with
    (if size =? 0 then Some (64 * pos)
     else w ← zget m pos; let mask := Z.land (g w) (UK_BITMAP_LAST_WORD_MASK size) in
          Some (if mask =? 0 then 64 * pos + size else 64 * pos + ukarch_ffsl mask))
    by (destruct fuel; cbn [scan]; unfold UK_BITS_PER_LONG;
        destruct (Z.leb_spec 64 size); lia || done).
  destruct (Z.eqb_spec size 0) as [->|].
  { exists (64 * pos). split; [done|]. split; [|lia]. split; [lia|]. split; intros; lia. }
  destruct (word_get m pos ltac:(lia)) as [w Hw]. rewrite Hw. cbn.
  pose proof (masked_word m pos w (UK_BITMAP_LAST_WORD_MASK size) (64 * pos)
                (64 * pos + size) Hm Hw ltac:(lia) ltac:(lia) ltac:(auto with uk)) as HM.
  ospecialize (HM _).
  { intros j Hj. rewrite last_word_mask_bits, last_bits_small by lia.
    apply eq_true_iff_eq. rewrite andb_true_iff, Z.leb_le, !Z.ltb_lt. lia. }
  eexists. split; [done|].
  destruct (Z.eqb_spec (Z.land (g w) (UK_BITMAP_LAST_WORD_MASK size)) 0).
  - split; [|lia]. split; [lia|]. split; [|lia]. intros; apply HM; lia.
  - destruct HM as (? & ? & ?). split; [|lia]. split; [lia|]. split; [|done]. auto with zarith.
Qed.

Lemma scan_spec m fuel pos size :
  words_ok m -> 0 <= pos -> 0 <= size -> 64 * pos + size <= 64 * zlen m ->
  (Z.to_nat (size / 64) <= fuel)%nat ->
  exists r, scan fuel g m pos (64 * pos) size = Some r /\
    first_from m (64 * pos) (64 * pos + size) r /\ r <= 64 * pos + size.
Proof.
  intros Hm. revert pos size. induction fuel as [|fuel IH]; intros pos size Hpos Hs Hlen Hf;
    (destruct (Z.lt_ge_cases size 64); [apply scan_rest; done || lia|]).
  { Z.div_mod_to_equations. lia. }
  cbn [scan]. unfold UK_BITS_PER_LONG. destruct (Z.leb_spec 64 size); [|lia].
  destruct (word_get m pos ltac:(lia)) as [w Hw]. rewrite Hw. cbn [mbind option_bind].
  pose proof (masked_word m pos w ones64 (64 * pos) (64 * pos + 64) Hm Hw ltac:(lia)
                ltac:(lia) ltac:(auto with uk)) as HM.
  ospecialize (HM _).
  { intros j Hj. rewrite ones64_bits by lia. apply eq_true_iff_eq.
    rewrite andb_true_iff, Z.leb_le, !Z.ltb_lt. lia. }
  assert (Hid : Z.land (g w) ones64 = g w).
  { replace ones64 with (Z.ones 64) by reflexivity. rewrite Z.land_ones by lia.
    apply (wrap_small 64), g_in_u. by eapply words_ok_get. }
  rewrite Hid in HM. destruct (Z.eqb_spec (g w) 0).
  - destruct (IH (pos + 1) (size - 64)) as (r & Hr & (H1 & H2 & H3) & H4);
      [lia|lia|lia|Z.div_mod_to_equations; lia|].
    replace (64 * (pos + 1)) with (64 * pos + 64) in * by lia.
    exists r. split; [done|]. split; [|lia]. split; [lia|]. split; [|intros; apply H3; lia].
    intros i Hi Hir. destruct (Z.lt_ge_cases i (64 * pos + 64)); [apply HM|apply H2]; lia.
  - destruct HM as (? & ? & ?). eexists. split; [done|]. split; [|lia].
    split; [lia|]. split; [|done]. intros. auto with zarith.
Qed.

Lemma find_next_spec m size offset :
  words_ok m -> 0 <= offset -> size <= 64 * zlen m ->
  exists r, find_next g m size offset = Some r /\
    (if size <=? offset then r = size else first_from m offset size r /\ r < size + 64).
Proof.
  intros Hm Ho Hs. unfold find_next, UK_BITS_PER_LONG.
  destruct (Z.leb_spec size offset) as [|Hlt]; [by eexists|]. cbv zeta.
  set (pos := offset / 64). assert (Hpos : 64 * pos + offset mod 64 = offset)
    by (unfold pos; Z.div_mod_to_equations; lia).
  pose proof (Z.mod_pos_bound offset 64 ltac:(lia)) as Hmod.
  destruct (Z.eqb_spec (offset mod 64) 0) as [E|E]; cbn [negb].
  { destruct (scan_spec m (Z.to_nat ((size - 64 * pos) / 64)) pos (size - 64 * pos))
      as (r & Hr & (H1 & H2 & H3) & H4); [done|lia..|].
    exists r. split; [done|]. replace (64 * pos + (size - 64 * pos)) with size in * by lia.
    split; [|lia]. split; [lia|]. split; [|done]. intros. apply H2; lia. }
  destruct (word_get m pos ltac:(lia)) as [w Hw]. rewrite Hw. cbn [mbind option_bind].
  pose proof (masked_word m pos w (lnotw 64 (UK_BITMAP_LAST_WORD_MASK (offset mod 64))) offset
                (64 * pos + 64) Hm Hw ltac:(lia) ltac:(lia) ltac:(auto with uk zarith)) as HM.
  ospecialize (HM _).
  { intros j Hj. rewrite lnotw_bits, last_word_mask_bits, last_bits_small by lia.
    apply eq_true_iff_eq. rewrite !andb_true_iff, negb_true_iff, Z.ltb_ge, Z.leb_le, !Z.ltb_lt.
    lia. }
  destruct (Z.land (g w) (lnotw 64 (UK_BITMAP_LAST_WORD_MASK (offset mod 64))) =? 0);
    cbn [negb].
  - destruct (Z.leb_spec (size - 64 * pos) 64).
    { exists size. split; [done|]. split; [|lia]. split; [lia|]. split; [|lia].
      intros. apply HM. lia. }
    destruct (scan_spec m (Z.to_nat ((size - (64 * pos + 64)) / 64)) (pos + 1)
                (size - (64 * pos + 64))) as (r & Hr & (H1 & H2 & H3) & H4); [done|lia..|].
    replace (64 * (pos + 1)) with (64 * pos + 64) in * by lia.
    replace (64 * pos + 64 + (size - (64 * pos + 64))) with size in * by lia.
    exists r. split; [done|]. split; [|lia]. split; [lia|]. split; [|done].
    intros i Hi Hir. destruct (Z.lt_ge_cases i (64 * pos + 64)); [apply HM|apply H2]; lia.
  - destruct HM as (? & ? & ?). eexists. split; [done|]. split; [|lia]. split; [lia|].
    split; [|done]. intros. auto with zarith.
Qed.

End Search.

Lemma lnotw64_bits w j : w ∈u 64 -> 0 <= j < 64 ->
  Z.testbit (lnotw 64 w) j = negb (Z.testbit w j).
Proof. intros _ Hj. rewrite lnotw_bits by lia. by destruct (Z.ltb_spec j 64); [|lia]. Qed.

Definition find_zero_spec m size offset :=
  find_next_spec (lnotw 64) negb (fun w _ => lnotw_in_u 64 w ltac:(lia)) lnotw64_bits
    m size offset.
Definition find_one_spec m size offset :=
  find_next_spec (fun w => w) (fun b => b) (fun w H => H) (fun w j _ _ => eq_refl) m size offset.

Lemma last_loop_spec m pos size :
  words_ok m -> Z.of_nat pos <= zlen m ->
  exists r, last_loop pos m size = Some r /\
    ((r = size /\ forall i, 0 <= i < 64 * Z.of_nat pos -> bit m i = false) \/
     (0 <= r < 64 * Z.of_nat pos /\ bit m r = true /\
      forall i, r < i < 64 * Z.of_nat pos -> bit m i = false)).
Proof.
  intros Hm. induction pos as [|pos IH]; intros Hp; cbn [last_loop].
  { exists size. split; [done|]. left. split; [done|]. lia. }
  destruct (word_get m (Z.of_nat pos) ltac:(lia)) as [w Hw]. rewrite Hw.
  cbn [mbind option_bind]. pose proof (words_ok_get _ _ _ Hm Hw) as Hu.
  assert (Hbit : forall i, 64 * Z.of_nat pos <= i < 64 * Z.of_nat (S pos) ->
    bit m i = Z.testbit w (i - 64 * Z.of_nat pos)) by (intros; apply bit_word; done || lia).
  destruct (Z.eqb_spec w 0) as [->|Hne]; cbn [negb].
  - destruct (IH ltac:(lia)) as (r & Hr & HIH). exists r. split; [done|].
    destruct HIH as [[-> H]|(H1 & H2 & H3)].
    + left. split; [done|]. intros i Hi.
      destruct (Z.lt_ge_cases i (64 * Z.of_nat pos)); [apply H; lia|].
      rewrite Hbit by lia. apply Z.bits_0.
    + right. split; [lia|]. split; [done|]. intros i Hi.
      destruct (Z.lt_ge_cases i (64 * Z.of_nat pos)); [apply H3; lia|].
      rewrite Hbit by lia. apply Z.bits_0.
  - destruct (ukarch_flsl_spec w) as (H1 & H2 & H3); [unfold in_u in Hu; lia|].
    assert (ukarch_flsl w < 64).
    { destruct (Z.lt_ge_cases (ukarch_flsl w) 64) as [|Hf]; [done|].
      by rewrite (in_u_testbit 64 w _ ltac:(lia) Hu Hf) in H2. }
    eexists. split; [done|]. right. unfold UK_BITS_PER_LONG. split; [lia|]. split.
    + rewrite Hbit by lia. rewrite <- H2. f_equal. lia.
    + intros i Hi. rewrite Hbit by lia. apply H3. lia.
Qed.

(** ** Ranges *)

Section Range.

(** [f w mask] gives the bits of [mask] the value [v] and keeps the others. *)
Context (f : Z -> Z -> Z) (v : bool).
Hypothesis f_in_u : forall w mask, w ∈u 64 -> mask ∈u 64 -> f w mask ∈u 64.
Hypothesis f_bits : forall w mask j, 0 <= j < 64 ->
  Z.testbit (f w mask) j = if Z.testbit mask j then v else Z.testbit w j.

(** [m'] is [m] with [v] in the positions from [a] to [e]. *)
Definition range_set m (a e : Z) m' : Prop :=
  words_ok m' /\ length m' = length m /\
  forall i, 0 <= i -> bit m' i = if (a <=? i) && (i <? e) then v else bit m i.

Lemma range_set_nil m a : words_ok m -> range_set m a a m.
Proof.
  intros Hm. split; [done|]. split; [done|]. intros i Hi.
  by destruct (Z.leb_spec a i), (Z.ltb_spec i a); try lia.
Qed.

Lemma range_set_app m a b e m1 m2 :
  a <= b <= e -> range_set m a b m1 -> range_set m1 b e m2 -> range_set m a e m2.
Proof.
  intros Hab (H1 & H2 & H3) (H4 & H5 & H6). split; [done|]. split; [lia|].
  intros i Hi. rewrite H6, H3 by done.
  destruct (Z.leb_spec a i), (Z.leb_spec b i), (Z.ltb_spec i b), (Z.ltb_spec i e); cbn;
    lia || done.
Qed.

Lemma range_word m k mask a e :
  words_ok m -> 0 <= k < zlen m -> mask ∈u 64 -> 64 * k <= a <= e -> e <= 64 * k + 64 ->
  (forall j, 0 <= j < 64 -> Z.testbit mask j = (a - 64 * k <=? j) && (j <? e - 64 * k)) ->
  exists w m', zget m k = Some w /\ zset m k (f w mask) = Some m' /\ range_set m a e m'.
Proof.
  intros Hm Hk Hmask Ha He Hb. destruct (word_get m k Hk) as [w Hw].
  pose proof (words_ok_get _ _ _ Hm Hw) as Hu.
  pose proof (zset_is_Some m k (f w mask) Hk) as Hset. do 2 eexists. split; [done|].
  split; [done|]. split; [exact (words_ok_set _ _ _ _ Hm (f_in_u _ _ Hu Hmask) Hset)|].
  split; [exact (zset_length _ _ _ _ Hset)|].
  intros i Hi. rewrite (bit_set_word _ _ _ _ _ Hset Hi).
  destruct ((64 * k <=? i) && (i <? 64 * k + 64)) eqn:E.
  - tests. rewrite f_bits, Hb, (bit_word m k w i Hw) by lia.
    replace (a - 64 * k <=? i - 64 * k) with (a <=? i)
      by (apply eq_true_iff_eq; rewrite !Z.leb_le; lia).
    by replace (i - 64 * k <? e - 64 * k) with (i <? e)
      by (apply eq_true_iff_eq; rewrite !Z.ltb_lt; lia).
  - replace ((a <=? i) && (i <? e)) with false; [done|]. symmetry.
    apply andb_false_iff in E as [E|E]; tests; apply andb_false_iff;
      [left; apply Z.leb_gt|right; apply Z.ltb_ge]; lia.
Qed.

Lemma range_loop_spec m fuel s nr mask :
  words_ok m -> 0 <= s -> 0 <= nr -> s + nr <= 64 * zlen m -> s + nr < 2 ^ 32 ->
  (Z.to_nat nr <= fuel)%nat -> mask ∈u 64 ->
  (forall j, 0 <= j < 64 -> Z.testbit mask j = (s mod 64 <=? j)) ->
  exists m', range_loop fuel f m (s / 64) nr (64 - s mod 64) mask (s + nr) = Some m' /\
    range_set m s (s + nr) m'.
Proof.
  revert m s nr mask. induction fuel as [|fuel IH]; intros m s nr mask Hm Hs Hnr Hlen H32 Hf
    Hmask Hb; pose proof (Z.mod_pos_bound s 64 ltac:(lia)) as Hmod;
    pose proof (Z.div_mod s 64 ltac:(lia)) as Hdm; cbn [range_loop];
    destruct (Z.leb_spec 0 (nr - (64 - s mod 64))); try lia.
  - assert (nr = 0) as -> by lia. cbn. eexists. split; [done|]. rewrite Z.add_0_r.
    by apply range_set_nil.
  - destruct (range_word m (s / 64) mask s (64 * (s / 64) + 64)) as (w & m1 & Hw & Hset & H1);
      [done|lia..|done|lia|lia| |].
    { intros j Hj. rewrite Hb by done. destruct (Z.ltb_spec j (64 * (s / 64) + 64 - 64 * (s / 64)));
        [|lia]. rewrite andb_true_r. f_equal. lia. }
    rewrite Hw. cbn [mbind option_bind]. rewrite Hset. cbn [mbind option_bind].
    set (s' := 64 * (s / 64) + 64) in *.
    assert (E1 : s / 64 + 1 = s' / 64) by (unfold s'; Z.div_mod_to_equations; lia).
    assert (E2 : s' mod 64 = 0) by (unfold s'; Z.div_mod_to_equations; lia).
    replace (nr - (64 - s mod 64)) with (s + nr - s') by lia.
    rewrite E1.
    replace UK_BITS_PER_LONG with (64 - s' mod 64) by (rewrite E2; done).
    destruct H1 as (Hok1 & Hl1 & Hb1).
    destruct (IH m1 s' (s + nr - s') ones64) as (m2 & Hm2 & H2);
      [done|lia|lia|lia|lia|lia|auto with uk| |].
    { intros j Hj. rewrite ones64_bits, E2 by lia. apply eq_true_iff_eq.
      rewrite Z.ltb_lt, Z.leb_le. lia. }
    replace (s' + (s + nr - s')) with (s + nr) in * by lia. exists m2. split; [done|].
    eapply range_set_app; [|split; [exact Hok1|split; [exact Hl1|exact Hb1]]|exact H2]. lia.
  - destruct (Z.eqb_spec nr 0) as [->|Hne]; cbn [negb].
    { eexists. split; [done|]. rewrite Z.add_0_r. by apply range_set_nil. }
    destruct (range_word m (s / 64) (Z.land mask (UK_BITMAP_LAST_WORD_MASK (s + nr))) s (s + nr))
      as (w & m1 & Hw & Hset & H1); [done|lia..| |lia|lia| |].
    { apply in_u_land; [lia|done|]. apply last_word_mask_in_u. }
    { intros j Hj. rewrite Z.land_spec, Hb, last_word_mask_bits, last_bits_mod
        by (Z.div_mod_to_equations; lia).
      replace (s - 64 * (s / 64)) with (s mod 64) by lia. f_equal. f_equal.
      Z.div_mod_to_equations. lia. }
    rewrite Hw. cbn [mbind option_bind]. rewrite Hset. by eexists.
Qed.

Lemma range_update_spec m start nr :
  words_ok m -> 0 <= start -> 0 <= nr -> start + nr <= 64 * zlen m -> start + nr < 2 ^ 32 ->
  exists m', range_update f m start nr = Some m' /\ range_set m start (start + nr) m'.
Proof.
  intros Hm Hs Hnr Hlen H32. unfold range_update, UK_BIT_WORD, UK_BITS_PER_LONG.
  rewrite (wrap_small 32) by (unfold in_u; lia).
  destruct (range_loop_spec m (Z.to_nat nr) start nr (UK_BITMAP_FIRST_WORD_MASK start))
    as (m' & H1 & H2); try done; [unfold UK_BITMAP_FIRST_WORD_MASK; auto with uk zarith| |eauto].
  intros j Hj. rewrite first_word_mask_bits by lia.
  destruct (Z.ltb_spec j 64); [by rewrite andb_true_r|lia].
Qed.

End Range.

Lemma set_mask_bits w mask j : 0 <= j < 64 ->
  Z.testbit (set_mask w mask) j = if Z.testbit mask j then true else Z.testbit w j.
Proof. intros. unfold set_mask. rewrite Z.lor_spec. by destruct (Z.testbit mask j), (Z.testbit w j). Qed.

Lemma clear_mask_bits w mask j : 0 <= j < 64 ->
  Z.testbit (clear_mask w mask) j = if Z.testbit mask j then false else Z.testbit w j.
Proof.
  intros. unfold clear_mask. rewrite Z.land_spec, lnotw_bits by lia.
  destruct (Z.ltb_spec j 64); [|lia]. by destruct (Z.testbit mask j), (Z.testbit w j).
Qed.

Lemma set_mask_in_u w mask : w ∈u 64 -> mask ∈u 64 -> set_mask w mask ∈u 64.
Proof. apply in_u_lor. lia. Qed.

Lemma clear_mask_in_u w mask : w ∈u 64 -> mask ∈u 64 -> clear_mask w mask ∈u 64.
Proof.
  intros Hw _. apply in_u_land; [lia|done|]. apply (lnotw_in_u 64). lia.
Qed.

(** [uk_bitmap_set] and [uk_bitmap_clear] change exactly the bits of the range, whatever
    its position relative to the words. *)
Theorem bitmap_set_clear_correct m start nr :
  words_ok m -> 0 <= start -> 0 <= nr -> start + nr <= 64 * zlen m -> start + nr < 2 ^ 32 ->
  exists ms mc,
    uk_bitmap_set m start nr = Some ms /\ range_set true m start (start + nr) ms /\
    uk_bitmap_clear m start nr = Some mc /\ range_set false m start (start + nr) mc.
Proof.
  intros. destruct (range_update_spec set_mask true set_mask_in_u set_mask_bits m start nr)
    as (ms & ? & ?); try done.
  destruct (range_update_spec clear_mask false clear_mask_in_u clear_mask_bits m start nr)
    as (mc & ? & ?); try done. by exists ms, mc.
Qed.

(** ** Free areas *)

Definition area_free m (size nr i : Z) : Prop :=
  i + nr <= size /\ forall j, i <= j < i + nr -> bit m j = false.

(** Rounding [index + align_offset] up to a multiple of [2^k]. *)
Lemma align_index index off k :
  0 <= index -> 0 <= off -> 0 <= k < 31 -> index + off + 2 ^ k < 2 ^ 32 ->
  let r := u32 (Z.land (u32 (u32 (index + off) + (2 ^ k - 1))) (lnotw 32 (2 ^ k - 1)) - off) in
  index <= r < index + 2 ^ k /\ (2 ^ k | r + off) /\
  forall i, index <= i -> (2 ^ k | i + off) -> r <= i.
Proof.
  intros Hi Ho Hk Hs. cbv zeta. pose proof (pow2_pos k ltac:(lia)) as Hp.
  rewrite (wrap_small 32 (index + off)) by (unfold in_u; lia).
  rewrite (wrap_small 32 (index + off + (2 ^ k - 1))) by (unfold in_u; lia).
  rewrite land_lnot_ones by (unfold in_u; lia).
  set (x := index + off + (2 ^ k - 1)).
  pose proof (Z.div_mod x (2 ^ k) ltac:(lia)) as Hd.
  pose proof (Z.mod_pos_bound x (2 ^ k) Hp) as Hm.
  set (q := x / 2 ^ k) in *.
  assert (index + off <= 2 ^ k * q <= x) by (unfold x in *; lia).
  rewrite (wrap_small 32) by (unfold in_u, x in *; lia).
  split; [unfold x in *; lia|]. split.
  - exists q. lia.
  - intros i Hge [c Hc]. assert (q < c + 1); [|nia].
    apply (Z.mul_lt_mono_pos_l (2 ^ k)); [done|]. unfold x in *. lia.
Qed.

Lemma zero_area_spec m fuel size start nr off k :
  words_ok m -> 0 <= size <= 64 * zlen m -> 0 <= start -> 0 < nr -> 0 <= off -> 0 <= k < 31 ->
  size + nr + off + 2 ^ k + 64 < 2 ^ 32 -> (Z.to_nat (size - start) < fuel)%nat ->
  exists r, uk_bitmap_find_next_zero_area_off fuel m size start nr (2 ^ k - 1) off = Some r /\
    ((start <= r /\ (2 ^ k | r + off) /\ area_free m size nr r /\
      forall i, start <= i < r -> (2 ^ k | i + off) -> ~ area_free m size nr i) \/
     (size < r /\ forall i, start <= i -> (2 ^ k | i + off) -> ~ area_free m size nr i)).
Proof.
  intros Hm Hsize. revert start. induction fuel as [|fuel IH]; intros start Hs Hnr Ho Hk H32 Hf;
    [lia|]. pose proof (pow2_pos k ltac:(lia)) as Hp.
  cbn [uk_bitmap_find_next_zero_area_off].
  destruct (find_zero_spec m size start Hm Hs ltac:(lia)) as (x & Hx & Hxs).
  unfold uk_find_next_zero_bit. rewrite Hx. cbn [mbind option_bind].
  assert (Hx0 : 0 <= x < size + 64 /\ (start < size -> start <= x) /\ (size <= start -> x = size) /\
     forall i, start <= i -> i < x -> i < size -> bit m i = true).
  { destruct (Z.leb_spec size start); [subst x; split; [lia|split; [lia|split; lia]]|].
    destruct Hxs as [(H1 & H2 & H3) H4]. split; [lia|]. split; [lia|]. split; [lia|].
    intros i Hi1 Hi2 Hi3. by apply negb_false_iff, H2. }
  clear Hxs. destruct Hx0 as (Hx1 & Hx2 & Hxe & Hx3).
  pose proof (align_index x off k ltac:(lia) Ho Hk ltac:(lia)) as Hal. cbv zeta in Hal.
  set (r := u32 (Z.land (u32 (u32 (x + off) + (2 ^ k - 1))) (lnotw 32 (2 ^ k - 1)) - off)) in *.
  destruct Hal as (Hr1 & Hr2 & Hr3).
  rewrite (wrap_small 32 (r + nr)) by (unfold in_u; lia).
  (* positions before [r] are not free *)
  assert (Hbefore : forall i, start <= i < r -> (2 ^ k | i + off) -> ~ area_free m size nr i).
  { intros i Hi Hdiv [Hfit Hfree]. destruct (Z.lt_ge_cases i x) as [Hlt|Hge].
    - specialize (Hfree i ltac:(lia)). rewrite Hx3 in Hfree by lia. done.
    - specialize (Hr3 i Hge Hdiv). lia. }
  destruct (Z.ltb_spec size (r + nr)).
  { eexists. split; [done|]. right. split; [lia|]. intros i Hi Hdiv Hfree.
    destruct (Z.lt_ge_cases i r); [by apply (Hbefore i); [lia| |]|]. destruct Hfree. lia. }
  destruct (find_one_spec m (r + nr) r Hm ltac:(lia) ltac:(lia)) as (y & Hy & Hys).
  unfold uk_find_next_bit. rewrite Hy. cbn [mbind option_bind].
  destruct (Z.leb_spec (r + nr) r); [lia|]. destruct Hys as [(Hy1 & Hy2 & Hy3) _].
  destruct (Z.ltb_spec y (r + nr)) as [Hlt|Hge].
  - rewrite (wrap_small 32 (y + 1)) by (unfold in_u; lia).
    destruct (IH (y + 1)) as (r' & Hr' & HIH); try lia. exists r'. split; [done|].
    assert (Hskip : forall i, start <= i <= y -> (2 ^ k | i + off) -> ~ area_free m size nr i).
    { intros i Hi Hdiv. destruct (Z.lt_ge_cases i r); [apply Hbefore; [lia|done]|].
      intros [_ Hfree]. specialize (Hfree y ltac:(lia)). rewrite Hy3 in Hfree by done. done. }
    destruct HIH as [(H1 & H2 & H3 & H4)|[H1 H2]].
    + left. split; [lia|]. split; [done|]. split; [done|]. intros i Hi Hdiv.
      destruct (Z.le_gt_cases i y); [apply Hskip|apply H4]; done || lia.
    + right. split; [done|]. intros i Hi Hdiv.
      destruct (Z.le_gt_cases i y); [apply Hskip|apply H2]; done || lia.
  - eexists. split; [done|]. left. split; [lia|]. split; [done|]. split; [|done].
    split; [lia|]. intros j Hj. apply Hy2; lia.
Qed.

(** ** Counting bits in parallel

    The population counts add fields of a word pairwise: [digits w n x] are the [n] fields of
    width [w], and every step of the code keeps their sum. *)

Fixpoint digits (w : Z) (n : nat) (x : Z) : list Z :=
  match n with O => [] | S n' => x mod 2 ^ w :: digits w n' (x / 2 ^ w) end.

Fixpoint undigits (w : Z) (l : list Z) : Z :=
  match l with [] => 0 | d :: l' => d + 2 ^ w * undigits w l' end.

Fixpoint pair_sums (l : list Z) : list Z :=
  match l with a :: b :: l' => a + b :: pair_sums l' | _ => [] end.

Definition total (l : list Z) : Z := foldr Z.add 0 l.

(** The mask of every other field: [n] times [w] ones and [w] zeros. *)
Fixpoint field_mask (w : Z) (n : nat) : Z :=
  match n with O => 0 | S n' => (2 ^ w - 1) + 2 ^ (2 * w) * field_mask w n' end.

(** How many of the positions from [a] on satisfy [p]. *)
Fixpoint nbits (p : Z -> bool) (a : Z) (n : nat) : Z :=
  match n with O => 0 | S n' => Z.b2z (p a) + nbits p (a + 1) n' end.

Lemma undigits_digits w n x :
  0 < w -> 0 <= x < 2 ^ (w * Z.of_nat n) -> undigits w (digits w n x) = x.
Proof.
  intros Hw. pose proof (pow2_pos w ltac:(lia)) as Hp. revert x.
  induction n as [|n IH]; intros x Hx; cbn [digits undigits].
  { rewrite Z.mul_0_r in Hx. change (2 ^ 0) with 1 in Hx. lia. }
  rewrite IH; [pose proof (Z.div_mod x (2 ^ w) ltac:(lia)); lia|].
  replace (w * Z.of_nat (S n)) with (w + w * Z.of_nat n) in Hx by lia.
  rewrite Z.pow_add_r in Hx by lia. split; [apply Z.div_pos; lia|].
  apply Z.div_lt_upper_bound; lia.
Qed.

Lemma digits_undigits w l :
  0 < w -> Forall (fun d => 0 <= d < 2 ^ w) l -> digits w (length l) (undigits w l) = l.
Proof.
  intros Hw. pose proof (pow2_pos w ltac:(lia)) as Hp.
  induction l as [|d l IH]; intros Hl; [done|]. apply Forall_cons in Hl as [Hd Hl].
  cbn [length digits undigits]. rewrite (Z.mul_comm (2 ^ w)), Z_mod_plus_full, Z.mod_small by done.
  rewrite Z.div_add, (Z.div_small d), Z.add_0_l, IH by (done || lia). done.
Qed.

Lemma undigits_bound w l :
  0 < w -> Forall (fun d => 0 <= d < 2 ^ w) l ->
  0 <= undigits w l < 2 ^ (w * Z.of_nat (length l)).
Proof.
  intros Hw. pose proof (pow2_pos w ltac:(lia)) as Hp.
  induction l as [|d l IH]; intros Hl; cbn [length undigits]; [by rewrite Z.mul_0_r|].
  apply Forall_cons in Hl as [Hd Hl]. specialize (IH Hl).
  replace (w * Z.of_nat (S (length l))) with (w + w * Z.of_nat (length l)) by lia.
  rewrite Z.pow_add_r by lia. nia.
Qed.

Lemma digits_bound w n x : 0 < w -> Forall (fun d => 0 <= d < 2 ^ w) (digits w n x).
Proof.
  intros Hw. pose proof (pow2_pos w ltac:(lia)). revert x.
  induction n; intros x; cbn [digits]; constructor; [by apply Z.mod_pos_bound|done].
Qed.

Lemma digits_length w n x : length (digits w n x) = n.
Proof. revert x. induction n; intros; cbn; auto. Qed.

Lemma land_fields n a p c q :
  0 <= n -> 0 <= a < 2 ^ n -> 0 <= c < 2 ^ n ->
  Z.land (a + 2 ^ n * p) (c + 2 ^ n * q) = Z.land a c + 2 ^ n * Z.land p q.
Proof.
  intros Hn Ha Hc. pose proof (pow2_pos n Hn) as Hp.
  set (z := Z.land (a + 2 ^ n * p) (c + 2 ^ n * q)).
  assert (Hd : forall d r, 0 <= d < 2 ^ n -> (d + 2 ^ n * r) / 2 ^ n = r /\
    (d + 2 ^ n * r) mod 2 ^ n = d).
  { intros d r Hd. rewrite (Z.mul_comm (2 ^ n)), Z.div_add, Z_mod_plus_full by lia.
    rewrite Z.div_small, Z.mod_small by done. lia. }
  rewrite (Z.div_mod z (2 ^ n)) by lia. rewrite (Z.add_comm (2 ^ n * (z / 2 ^ n))). f_equal.
  - unfold z. rewrite <- !Z.land_ones by done.
    rewrite <- (Z.land_diag (Z.ones n)), Z.land_assoc.
    rewrite <- (Z.land_assoc _ (c + 2 ^ n * q)), (Z.land_comm (c + 2 ^ n * q)), Z.land_assoc.
    rewrite <- Z.land_assoc, !Z.land_ones by done. f_equal; by apply Hd.
  - f_equal. unfold z. rewrite <- Z.shiftr_div_pow2, Z.shiftr_land by done.
    rewrite !Z.shiftr_div_pow2 by done. f_equal; by apply Hd.
Qed.

Lemma field_mask_nonneg w n : 0 < w -> 0 <= field_mask w n.
Proof.
  intros Hw. pose proof (pow2_pos w ltac:(lia)). pose proof (pow2_pos (2 * w) ltac:(lia)).
  induction n; cbn [field_mask]; nia.
Qed.

(** Two adjacent fields in front of a number. *)
Lemma split_pair w x :
  0 < w -> exists lo hi, 0 <= lo < 2 ^ w /\ 0 <= hi < 2 ^ w /\
    x = lo + 2 ^ w * hi + 2 ^ (2 * w) * (x / 2 ^ w / 2 ^ w) /\
    lo = x mod 2 ^ w /\ hi = x / 2 ^ w mod 2 ^ w.
Proof.
  intros Hw. pose proof (pow2_pos w ltac:(lia)) as Hp.
  pose proof (Z.mod_pos_bound x (2 ^ w) Hp). pose proof (Z.mod_pos_bound (x / 2 ^ w) (2 ^ w) Hp).
  pose proof (Z.div_mod x (2 ^ w) ltac:(lia)).
  pose proof (Z.div_mod (x / 2 ^ w) (2 ^ w) ltac:(lia)).
  do 2 eexists. split; [|split; [|split; [|split; reflexivity]]]; [done..|].
  replace (2 * w) with (w + w) by lia. rewrite Z.pow_add_r by lia. nia.
Qed.

(** [(x & M) + ((x & (M << w)) >> w)] adds the fields in pairs. *)
Lemma add_pairs w n x :
  0 < w -> 0 <= x ->
  Z.land x (field_mask w n) + Z.shiftr (Z.land x (2 ^ w * field_mask w n)) w =
  undigits (2 * w) (pair_sums (digits w (2 * n) x)).
Proof.
  intros Hw. pose proof (pow2_pos w ltac:(lia)) as Hp. revert x.
  induction n as [|n IH]; intros x Hx.
  { cbn. rewrite Z.mul_0_r, Z.land_0_r. by rewrite Z.shiftr_0_l. }
  replace (2 * S n)%nat with (S (S (2 * n))) by lia. cbn [digits pair_sums undigits field_mask].
  set (x' := x / 2 ^ w / 2 ^ w) in *. assert (0 <= x') by (do 2 (apply Z.div_pos; [|lia]); lia).
  rewrite <- (IH x') by done. clear IH.
  destruct (split_pair w x Hw) as (lo & hi & Hlo & Hhi & E & Elo & Ehi). fold x' in E.
  rewrite <- Elo, <- Ehi. clear Elo Ehi. clearbody x'. subst x.
  assert (Hww : 2 ^ (2 * w) = 2 ^ w * 2 ^ w)
    by (replace (2 * w) with (w + w) by lia; apply Z.pow_add_r; lia).
  assert (E1 : Z.land (lo + 2 ^ w * hi + 2 ^ (2 * w) * x')
                 ((2 ^ w - 1) + 2 ^ (2 * w) * field_mask w n) =
               lo + 2 ^ (2 * w) * Z.land x' (field_mask w n)).
  { rewrite land_fields by nia. f_equal. replace (2 ^ w - 1) with (Z.ones w)
      by (rewrite Z.ones_equiv; lia). rewrite Z.land_ones by lia.
    rewrite (Z.mul_comm (2 ^ w)), Z_mod_plus_full. by apply Z.mod_small. }
  assert (E2 : Z.land (lo + 2 ^ w * hi + 2 ^ (2 * w) * x')
                 (2 ^ w * ((2 ^ w - 1) + 2 ^ (2 * w) * field_mask w n)) =
               2 ^ w * hi + 2 ^ (2 * w) * Z.land x' (2 ^ w * field_mask w n)).
  { replace (2 ^ w * ((2 ^ w - 1) + 2 ^ (2 * w) * field_mask w n)) with
      (2 ^ w * (2 ^ w - 1) + 2 ^ (2 * w) * (2 ^ w * field_mask w n)) by lia.
    rewrite land_fields by nia. f_equal.
    replace (2 ^ w * (2 ^ w - 1)) with (0 + 2 ^ w * (2 ^ w - 1)) by lia.
    rewrite land_fields by lia. rewrite Z.land_0_r, Z.add_0_l. f_equal.
    replace (2 ^ w - 1) with (Z.ones w) by (rewrite Z.ones_equiv; lia).
    rewrite Z.land_ones by lia. by apply Z.mod_small. }
  rewrite E1, E2. rewrite !Z.shiftr_div_pow2 by lia.
  set (b := Z.land x' (2 ^ w * field_mask w n)). rewrite Hww.
  pose proof (field_mask_nonneg w n Hw).
  replace (2 ^ w * hi + 2 ^ w * 2 ^ w * b) with ((hi + 2 ^ w * b) * 2 ^ w) by lia.
  rewrite Z.div_mul by lia.
  assert (b = 2 ^ w * (b / 2 ^ w)); [|nia].
  pose proof (Z.div_mod b (2 ^ w) ltac:(lia)) as Hb. rewrite Hb at 1.
  assert (b mod 2 ^ w = 0); [|lia]. unfold b. rewrite <- Z.land_ones by lia.
  rewrite <- Z.land_assoc, Z.land_ones by lia.
  by rewrite Z.mul_comm, Z_mod_mult, Z.land_0_r.
Qed.

(** [(x + (x >> w)) & M] does so too, when no sum leaves its field. *)
Lemma add_pairs_late w n x :
  0 < w -> 0 <= x -> Forall (fun d => 2 * d < 2 ^ w) (digits w (2 * n) x) ->
  Z.land (x + Z.shiftr x w) (field_mask w n) =
  undigits (2 * w) (pair_sums (digits w (2 * n) x)).
Proof.
  intros Hw. pose proof (pow2_pos w ltac:(lia)) as Hp. revert x.
  induction n as [|n IH]; intros x Hx Hd; [apply Z.land_0_r|].
  replace (2 * S n)%nat with (S (S (2 * n))) in * by lia.
  cbn [digits pair_sums undigits field_mask] in *.
  set (x' := x / 2 ^ w / 2 ^ w) in *. assert (0 <= x') by (do 2 (apply Z.div_pos; [|lia]); lia).
  apply Forall_cons in Hd as [Hd1 Hd]. apply Forall_cons in Hd as [Hd2 Hd].
  rewrite <- (IH x') by done. clear IH.
  destruct (split_pair w x Hw) as (lo & hi & Hlo & Hhi & E & Elo & Ehi). fold x' in E.
  rewrite <- Elo, <- Ehi in *. clear Elo Ehi.
  assert (Hww : 2 ^ (2 * w) = 2 ^ w * 2 ^ w)
    by (replace (2 * w) with (w + w) by lia; apply Z.pow_add_r; lia).
  assert (Hs : Z.shiftr x w = hi + 2 ^ w * x').
  { rewrite Z.shiftr_div_pow2, E, Hww by lia.
    replace (lo + 2 ^ w * hi + 2 ^ w * 2 ^ w * x') with (lo + (hi + 2 ^ w * x') * 2 ^ w) by lia.
    rewrite Z.div_add, Z.div_small by lia. lia. }
  rewrite Hs. rewrite E at 1. destruct n as [|n].
  { cbn [field_mask]. rewrite Z.mul_0_r, Z.land_0_r, Z.mul_0_r, !Z.add_0_r.
    replace (2 ^ w - 1) with (Z.ones w) by (rewrite Z.ones_equiv; lia).
    rewrite Z.land_ones, Hww by lia.
    replace (lo + 2 ^ w * hi + 2 ^ w * 2 ^ w * x' + (hi + 2 ^ w * x')) with
      (lo + hi + (hi + x' + 2 ^ w * x') * 2 ^ w) by lia.
    rewrite Z_mod_plus_full. apply Z.mod_small. lia. }
  replace (2 * S n)%nat with (S (S (2 * n))) in Hd by lia. cbn [digits] in Hd.
  apply Forall_cons in Hd as [Hd3 _]. pose proof (Z.div_mod x' (2 ^ w) ltac:(lia)) as Hx'.
  pose proof (Z.mod_pos_bound x' (2 ^ w) Hp).
  set (M := field_mask w (S n)). rewrite Z.shiftr_div_pow2 by lia.
  set (top := x' mod 2 ^ w) in *. set (x2 := x' / 2 ^ w) in *.
  replace (lo + 2 ^ w * hi + 2 ^ (2 * w) * x' + (hi + 2 ^ w * x')) with
    (lo + hi + 2 ^ w * (hi + top) + 2 ^ (2 * w) * (x' + x2)) by nia.
  rewrite land_fields by nia. f_equal.
  replace (2 ^ w - 1) with (Z.ones w) by (rewrite Z.ones_equiv; lia).
  rewrite Z.land_ones, (Z.mul_comm (2 ^ w)), Z_mod_plus_full by lia. apply Z.mod_small. lia.
Qed.

Lemma list_pair_ind {A} (P : list A -> Prop) :
  P [] -> (forall a, P [a]) -> (forall a b l, P l -> P (a :: b :: l)) -> forall l, P l.
Proof.
  intros H0 H1 H2. fix IH 1. intros [|a [|b l]]; [exact H0|exact (H1 a)|exact (H2 a b l (IH l))].
Qed.

Lemma pair_sums_total l k : length l = (2 * k)%nat ->
  total (pair_sums l) = total l /\ length (pair_sums l) = k.
Proof.
  revert k. induction l as [|a|a b l IH] using list_pair_ind; intros k Hk; cbn in Hk;
    [split; [done|cbn; lia]|lia|].
  destruct (IH (k - 1)%nat ltac:(lia)) as [H1 H2]. cbn [pair_sums total foldr length].
  fold (total (pair_sums l)) (total l). rewrite H1, H2. lia.
Qed.

Lemma pair_sums_bound c l :
  Forall (fun d => 0 <= d <= c) l -> Forall (fun d => 0 <= d <= 2 * c) (pair_sums l).
Proof.
  induction l as [|a|a b l IH] using list_pair_ind; intros Hl; [constructor|constructor|].
  apply Forall_cons in Hl as [Ha Hl]. apply Forall_cons in Hl as [Hb Hl].
  constructor; [lia|auto].
Qed.

(** What a step of a population count keeps. *)
Lemma pair_step w n c x (y := undigits (2 * w) (pair_sums (digits w (2 * n) x))) :
  0 < w -> 2 * c < 2 ^ (2 * w) -> Forall (fun d => 0 <= d <= c) (digits w (2 * n) x) ->
  total (digits (2 * w) n y) = total (digits w (2 * n) x) /\
  Forall (fun d => 0 <= d <= 2 * c) (digits (2 * w) n y) /\
  0 <= y < 2 ^ (2 * w * Z.of_nat n).
Proof.
  intros Hw Hc Hd. pose proof (pair_sums_bound _ _ Hd) as Hb.
  destruct (pair_sums_total (digits w (2 * n) x) n (digits_length _ _ _)) as [Ht Hl].
  assert (Hu : Forall (fun d => 0 <= d < 2 ^ (2 * w)) (pair_sums (digits w (2 * n) x))).
  { eapply Forall_impl; [exact Hb|]. intros d Hd'. cbn in Hd'. lia. }
  assert (E : digits (2 * w) n y = pair_sums (digits w (2 * n) x)).
  { unfold y. rewrite <- Hl at 1. apply digits_undigits; [lia|done]. }
  rewrite E. split; [done|]. split; [done|]. unfold y.
  pose proof (undigits_bound (2 * w) _ ltac:(lia) Hu) as HB. by rewrite Hl in HB.
Qed.

Lemma nbits_digits x n : forall a, 0 <= a ->
  nbits (Z.testbit x) a n = total (digits 1 n (x / 2 ^ a)).
Proof.
  induction n as [|n IH]; intros a Ha; [done|]. cbn [nbits digits total foldr].
  fold (total (digits 1 n (x / 2 ^ a / 2 ^ 1))). rewrite IH by lia. f_equal.
  - rewrite Z.testbit_spec' by done. by rewrite Z.pow_1_r.
  - rewrite Z.div_div, <- Z.pow_add_r by lia. done.
Qed.

Lemma digits_one n x : Forall (fun d => 0 <= d <= 1) (digits 1 n x).
Proof.
  eapply Forall_impl; [apply digits_bound; lia|]. cbn. change (2 ^ 1) with 2. lia.
Qed.

(** Fields of four bits up to 4 leave room for a carry. *)
Lemma nibbles_bound l :
  Forall (fun d => 0 <= d <= 4) l -> 3 * undigits 4 l < 2 ^ (4 * Z.of_nat (length l)).
Proof.
  induction l as [|d l IH]; intros Hl; cbn [length undigits]; [done|].
  apply Forall_cons in Hl as [Hd Hl]. specialize (IH Hl).
  replace (4 * Z.of_nat (S (length l))) with (4 + 4 * Z.of_nat (length l)) by lia.
  rewrite Z.pow_add_r by lia. change (2 ^ 4) with 16. lia.
Qed.

(** The first three steps of each count leave a number in every byte. *)
Lemma byte_counts n x :
  0 <= x < 2 ^ (8 * Z.of_nat n) ->
  let k := (4 * n)%nat in
  let x1 := Z.land x (field_mask 1 k) + Z.shiftr (Z.land x (2 ^ 1 * field_mask 1 k)) 1 in
  let k := (2 * n)%nat in
  let x2 := Z.land x1 (field_mask 2 k) + Z.shiftr (Z.land x1 (2 ^ 2 * field_mask 2 k)) 2 in
  let x3 := Z.land (x2 + Z.shiftr x2 4) (field_mask 4 n) in
  0 <= x1 < 2 ^ (8 * Z.of_nat n) /\
  (0 <= x2 /\ x2 + Z.shiftr x2 4 < 2 ^ (8 * Z.of_nat n)) /\
  (0 <= x3 < 2 ^ (8 * Z.of_nat n)) /\
  Forall (fun d => 0 <= d <= 8) (digits 8 n x3) /\
  total (digits 8 n x3) = nbits (Z.testbit x) 0 (8 * n).
Proof.
  intros Hx. cbv zeta. rewrite nbits_digits by done. change (2 ^ 0) with 1. rewrite Z.div_1_r.
  rewrite (add_pairs 1 (4 * n) x) by lia.
  pose proof (pair_step 1 (4 * n) 1 x ltac:(lia) ltac:(done) (digits_one _ _)) as (T1 & B1 & R1).
  set (x1 := undigits (2 * 1) (pair_sums (digits 1 (2 * (4 * n)) x))) in *.
  change (2 * 1) with 2 in *. rewrite (add_pairs 2 (2 * n) x1) by lia.
  replace (4 * n)%nat with (2 * (2 * n))%nat in * by lia.
  pose proof (pair_step 2 (2 * n) 2 x1 ltac:(lia) ltac:(done) B1) as (T2 & B2 & R2).
  set (x2 := undigits (2 * 2) (pair_sums (digits 2 (2 * (2 * n)) x1))) in *.
  change (2 * 2) with 4 in *.
  rewrite (add_pairs_late 4 n x2) by
    (lia || (eapply Forall_impl; [exact B2|]; cbn; change (2 ^ 4) with 16; lia)).
  pose proof (pair_step 4 n 4 x2 ltac:(lia) ltac:(done) B2) as (T3 & B3 & R3).
  set (x3 := undigits (2 * 4) (pair_sums (digits 4 (2 * n) x2))) in *.
  change (2 * 4) with 8 in *.
  replace (2 * (2 * (2 * n)))%nat with (8 * n)%nat in * by lia.
  replace (2 * Z.of_nat (2 * (2 * n))) with (8 * Z.of_nat n) in * by lia.
  pose proof (nibbles_bound _ B2) as HN. rewrite digits_length in HN.
  rewrite undigits_digits in HN by lia.
  replace (4 * Z.of_nat (2 * n)) with (8 * Z.of_nat n) in * by lia.
  rewrite Z.shiftr_div_pow2 by lia. pose proof (Z.div_le_upper_bound x2 (2 ^ 4) x2).
  split; [lia|]. split; [split; [lia|]|split; [done|split; [done|lia]]].
  change (2 ^ 4) with 16 in *. Z.div_mod_to_equations. lia.
Qed.

Lemma bitcount64_correct x : x ∈u 64 -> uk_bitcount64 x = nbits (Z.testbit x) 0 64.
Proof.
  intros Hx. destruct (byte_counts 8 x Hx) as (R1 & [R2 R2'] & R3 & B & T). cbv zeta in *.
  change (field_mask 1 (4 * 8)) with 0x5555555555555555 in *.
  change (2 ^ 1 * 0x5555555555555555) with 0xaaaaaaaaaaaaaaaa in *.
  change (field_mask 2 (2 * 8)) with 0x3333333333333333 in *.
  change (2 ^ 2 * 0x3333333333333333) with 0xcccccccccccccccc in *.
  change (field_mask 4 8) with 0x0f0f0f0f0f0f0f0f in *.
  change (8 * Z.of_nat 8) with 64 in *. unfold uk_bitcount64.
  set (x1 := Z.land x 0x5555555555555555 + Z.shiftr (Z.land x 0xaaaaaaaaaaaaaaaa) 1) in *.
  rewrite (wrap_small 64 x1) by done.
  set (x2 := Z.land x1 0x3333333333333333 + Z.shiftr (Z.land x1 0xcccccccccccccccc) 2) in *.
  assert (0 <= Z.shiftr x2 4) by (by apply Z.shiftr_nonneg).
  rewrite (wrap_small 64 x2) by (unfold in_u; lia).
  rewrite (wrap_small 64 (x2 + Z.shiftr x2 4)) by (unfold in_u; lia).
  set (x3 := Z.land (x2 + Z.shiftr x2 4) 0x0f0f0f0f0f0f0f0f) in *.
  change (8 * 8)%nat with 64%nat in T. rewrite <- T. clear T.
  assert (E : undigits 8 (digits 8 8 x3) = x3) by by apply undigits_digits.
  revert B E. generalize (digits_length 8 8 x3). generalize (digits 8 8 x3). clearbody x3.
  intros l Hl B E. do 8 (destruct l as [|? l]; [done|]). destruct l; [|done].
  repeat (apply Forall_cons in B as [? B]). cbn [undigits] in E. cbn [total foldr].
  change (2 ^ 8) with 256 in *. clear -E H0 H1 H2 H3 H4 H5 H6 H7.
  change 0x000000ff with (Z.ones 8). rewrite Z.land_ones, !Z.shiftr_div_pow2 by lia.
  unfold wrap. change (2 ^ 8) with 256. change (2 ^ 16) with 65536.
  change (2 ^ 32) with 4294967296. change (2 ^ 64) with 18446744073709551616.
  assert (E1 : x3 / 256 = z0 + 256 * (z1 + 256 * (z2 + 256 * (z3 + 256 * (z4 + 256 * (z5 +
    256 * z6)))))) by (Z.div_mod_to_equations; lia).
  rewrite E1, (Z.mod_small (x3 + _)) by lia.
  set (x4 := x3 + _). assert (E2 : x4 / 65536 = (z1 + z2) + 256 * (z2 + z3) + 65536 *
    (z3 + z4 + 256 * (z4 + z5) + 65536 * (z5 + z6 + 256 * z6)))
    by (unfold x4; Z.div_mod_to_equations; lia).
  rewrite E2, (Z.mod_small (x4 + _)) by (unfold x4; lia).
  set (x5 := x4 + _). assert (E3 : x5 / 4294967296 = (z3 + z4 + z5 + z6) + 256 * (z4 + z5 + z6 +
    256 * (z5 + z6 + 256 * z6))) by (unfold x5, x4; Z.div_mod_to_equations; lia).
  rewrite E3, (Z.mod_small (x5 + _)) by (unfold x5, x4; lia).
  unfold x5, x4. rewrite <- E. Z.div_mod_to_equations. lia.
Qed.


Lemma bitcount32_correct x : x ∈u 32 -> uk_bitcount32 x = nbits (Z.testbit x) 0 32.
Proof.
  intros Hx. destruct (byte_counts 4 x Hx) as (R1 & [R2 R2'] & R3 & B & T). cbv zeta in *.
  change (field_mask 1 (4 * 4)) with 0x55555555 in *.
  change (2 ^ 1 * 0x55555555) with 0xaaaaaaaa in *.
  change (field_mask 2 (2 * 4)) with 0x33333333 in *.
  change (2 ^ 2 * 0x33333333) with 0xcccccccc in *.
  change (field_mask 4 4) with 0x0f0f0f0f in *.
  change (8 * Z.of_nat 4) with 32 in *. unfold uk_bitcount32.
  set (x1 := Z.land x 0x55555555 + Z.shiftr (Z.land x 0xaaaaaaaa) 1) in *.
  rewrite (wrap_small 32 x1) by done.
  set (x2 := Z.land x1 0x33333333 + Z.shiftr (Z.land x1 0xcccccccc) 2) in *.
  assert (0 <= Z.shiftr x2 4) by (by apply Z.shiftr_nonneg).
  rewrite (wrap_small 32 x2) by (unfold in_u; lia).
  rewrite (wrap_small 32 (x2 + Z.shiftr x2 4)) by (unfold in_u; lia).
  set (x3 := Z.land (x2 + Z.shiftr x2 4) 0x0f0f0f0f) in *.
  change (8 * 4)%nat with 32%nat in T. rewrite <- T. clear T.
  assert (E : undigits 8 (digits 8 4 x3) = x3) by by apply undigits_digits.
  revert B E. generalize (digits_length 8 4 x3). generalize (digits 8 4 x3). clearbody x3.
  intros l Hl B E. do 4 (destruct l as [|? l]; [done|]). destruct l; [|done].
  repeat (apply Forall_cons in B as [? B]). cbn [undigits] in E. cbn [total foldr].
  change (2 ^ 8) with 256 in *. clear -E H0 H1 H2 H3.
  change 0x000000ff with (Z.ones 8). rewrite Z.land_ones, !Z.shiftr_div_pow2 by lia.
  unfold wrap. change (2 ^ 8) with 256. change (2 ^ 16) with 65536.
  change (2 ^ 32) with 4294967296.
  assert (E1 : x3 / 256 = z0 + 256 * (z1 + 256 * z2)) by (Z.div_mod_to_equations; lia).
  rewrite E1, (Z.mod_small (x3 + _)) by lia. set (x4 := x3 + _).
  assert (E2 : x4 / 65536 = (z1 + z2) + 256 * z2) by (unfold x4; Z.div_mod_to_equations; lia).
  rewrite E2, (Z.mod_small (x4 + _)) by (unfold x4; lia).
  unfold x4. rewrite <- E. Z.div_mod_to_equations. lia.
Qed.

Lemma bitcount16_correct x : x ∈u 16 -> uk_bitcount16 x = nbits (Z.testbit x) 0 16.
Proof.
  intros Hx. destruct (byte_counts 2 x Hx) as (R1 & [R2 R2'] & R3 & B & T). cbv zeta in *.
  change (field_mask 1 (4 * 2)) with 0x5555 in *. change (2 ^ 1 * 0x5555) with 0xaaaa in *.
  change (field_mask 2 (2 * 2)) with 0x3333 in *. change (2 ^ 2 * 0x3333) with 0xcccc in *.
  change (field_mask 4 2) with 0x0f0f in *.
  change (8 * Z.of_nat 2) with 16 in *. unfold uk_bitcount16.
  set (x1 := Z.land x 0x5555 + Z.shiftr (Z.land x 0xaaaa) 1) in *.
  rewrite (wrap_small 16 x1) by done.
  set (x2 := Z.land x1 0x3333 + Z.shiftr (Z.land x1 0xcccc) 2) in *.
  assert (0 <= Z.shiftr x2 4) by (by apply Z.shiftr_nonneg).
  rewrite (wrap_small 16 x2) by (unfold in_u; lia).
  set (x3 := Z.land (x2 + Z.shiftr x2 4) 0x0f0f) in *.
  change (8 * 2)%nat with 16%nat in T. rewrite <- T. clear T.
  assert (E : undigits 8 (digits 8 2 x3) = x3) by by apply undigits_digits.
  revert B E. generalize (digits_length 8 2 x3). generalize (digits 8 2 x3). clearbody x3.
  intros l Hl B E. do 2 (destruct l as [|? l]; [done|]). destruct l; [|done].
  repeat (apply Forall_cons in B as [? B]). cbn [undigits] in E. cbn [total foldr].
  change (2 ^ 8) with 256 in *. clear -E H0 H1.
  change 0x00ff with (Z.ones 8). rewrite Z.land_ones, !Z.shiftr_div_pow2 by lia.
  change (2 ^ 8) with 256. Z.div_mod_to_equations. lia.
Qed.

Lemma nbits_ext p q a b n :
  (forall i, 0 <= i < Z.of_nat n -> p (a + i) = q (b + i)) -> nbits p a n = nbits q b n.
Proof.
  revert a b. induction n as [|n IH]; intros a b H; [done|]. cbn [nbits]. f_equal.
  - f_equal. specialize (H 0 ltac:(lia)). by rewrite !Z.add_0_r in H.
  - apply IH. intros i Hi. rewrite <- !Z.add_assoc. apply H. lia.
Qed.

Lemma nbits_app p a n k : nbits p a (n + k) = nbits p a n + nbits p (a + Z.of_nat n) k.
Proof.
  revert a. induction n as [|n IH]; intros a; cbn [nbits Nat.add].
  - by rewrite Z.add_0_r.
  - rewrite IH. replace (a + 1 + Z.of_nat n) with (a + Z.of_nat (S n)) by lia. lia.
Qed.

Lemma nbits_range p a n : 0 <= nbits p a n <= Z.of_nat n.
Proof.
  revert a. induction n as [|n IH]; intros a; cbn [nbits]; [lia|].
  specialize (IH (a + 1)). destruct (p a); cbn; lia.
Qed.

Lemma nbits_none p a n : (forall i, a <= i -> p i = false) -> nbits p a n = 0.
Proof.
  intros H. revert a H. induction n as [|n IH]; intros a H; [done|].
  cbn [nbits]. rewrite H, IH by (lia || (intros; apply H; lia)). done.
Qed.

Lemma weight_loop_spec m n k acc :
  words_ok m -> 0 <= k -> k + Z.of_nat n <= zlen m -> 0 <= acc ->
  acc + 64 * Z.of_nat n < 2 ^ 32 ->
  weight_loop n m k acc = Some (acc + nbits (bit m) (64 * k) (64 * n)).
Proof.
  intros Hm. revert k acc. induction n as [|n IH]; intros k acc Hk Hl Ha Hb; cbn [weight_loop].
  { by rewrite Z.add_0_r. }
  destruct (word_get m k ltac:(lia)) as [w Hw]. rewrite Hw. cbn [mbind option_bind].
  rewrite bitcount64_correct by (by eapply words_ok_get).
  assert (E : nbits (Z.testbit w) 0 64 = nbits (bit m) (64 * k) 64).
  { apply nbits_ext. intros i Hi. rewrite (bit_word m k w) by (done || lia). f_equal. lia. }
  rewrite E. pose proof (nbits_range (bit m) (64 * k) 64).
  rewrite wrap_small, IH by (unfold in_u; lia). f_equal.
  replace (64 * S n)%nat with (64 + 64 * n)%nat by lia. rewrite nbits_app.
  replace (64 * (k + 1)) with (64 * k + Z.of_nat 64) by lia. lia.
Qed.

(** [uk_bitmap_weight] is the number of bits set among the first [size], counted with the
    parallel additions of [uk_bitcount64]. *)
Theorem bitmap_weight_correct m size :
  words_ok m -> 0 <= size <= 64 * zlen m -> size < 2 ^ 32 ->
  uk_bitmap_weight m size = Some (nbits (bit m) 0 (Z.to_nat size)).
Proof.
  intros Hm Hs H32. unfold uk_bitmap_weight, UK_BIT_WORD, UK_BITS_PER_LONG.
  change (64 - 1) with (2 ^ 6 - 1). rewrite land_mask by lia. change (2 ^ 6) with 64.
  pose proof (Z.div_mod size 64 ltac:(lia)) as Hdm.
  pose proof (Z.mod_pos_bound size 64 ltac:(lia)) as Hmod. pose proof (Z.div_pos size 64).
  rewrite weight_loop_spec by (done || lia). cbn [mbind option_bind]. rewrite Z.add_0_l, Z.mul_0_r.
  destruct (Z.eqb_spec (size mod 64) 0) as [E|E]; cbn [negb].
  { do 2 f_equal. lia. }
  destruct (word_get m (size / 64) ltac:(lia)) as [w Hw]. rewrite Hw. cbn [mbind option_bind].
  assert (Hwm : Z.land w (UK_BITMAP_LAST_WORD_MASK (size mod 64)) ∈u 64).
  { apply in_u_land; [lia|by eapply words_ok_get|]. apply last_word_mask_in_u. }
  rewrite bitcount64_correct by done.
  assert (En : nbits (Z.testbit (Z.land w (UK_BITMAP_LAST_WORD_MASK (size mod 64)))) 0 64 =
    nbits (bit m) (64 * (size / 64)) (Z.to_nat (size mod 64))).
  { replace 64%nat with (Z.to_nat (size mod 64) + (64 - Z.to_nat (size mod 64)))%nat by lia.
    rewrite nbits_app, (nbits_none _ (0 + _)), Z.add_0_r.
    - apply nbits_ext. intros i Hi.
      rewrite Z.land_spec, last_word_mask_bits, last_bits_small, (bit_word m (size / 64) w)
        by (done || lia).
      destruct (Z.ltb_spec (0 + i) (size mod 64)); [rewrite andb_true_r; f_equal; lia|lia].
    - intros i Hi. rewrite Z.land_spec, last_word_mask_bits, last_bits_small by lia.
      destruct (Z.ltb_spec i (size mod 64)); [lia|apply andb_false_r]. }
  rewrite En. pose proof (nbits_range (bit m) 0 (64 * Z.to_nat (size / 64))).
  pose proof (nbits_range (bit m) (64 * (size / 64)) (Z.to_nat (size mod 64))).
  rewrite wrap_small by (unfold in_u; lia).
  replace (Z.to_nat size) with (64 * Z.to_nat (size / 64) + Z.to_nat (size mod 64))%nat by lia.
  rewrite nbits_app. do 3 f_equal. lia.
Qed.

(** ** Single bits *)

Lemma pow2_bits j i : 0 <= j -> 0 <= i -> Z.testbit (Z.shiftl 1 j) i = (i =? j).
Proof.
  intros Hj Hi. rewrite Z.shiftl_1_l, Z.pow2_bits_eqb by lia. by rewrite Z.eqb_sym.
Qed.

Lemma land_pow2_bit x j : 0 <= j -> (Z.land x (Z.shiftl 1 j) =? 0) = negb (Z.testbit x j).
Proof.
  intros Hj. apply eq_true_iff_eq. rewrite Z.eqb_eq, negb_true_iff. split.
  - intros H. rewrite <- (andb_true_r (Z.testbit x j)).
    replace true with (Z.testbit (Z.shiftl 1 j) j) by (rewrite pow2_bits by lia; apply Z.eqb_refl).
    by rewrite <- Z.land_spec, H, Z.bits_0.
  - intros H. apply Z.bits_inj'. intros i Hi. rewrite Z.land_spec, Z.bits_0, pow2_bits by done.
    destruct (Z.eqb_spec i j) as [->|]; [by rewrite H|apply andb_false_r].
Qed.

(** The byte and the bit in it that hold bit [nr]. *)
Lemma byte_position nr :
  0 <= nr -> Z.shiftr nr 3 / 8 = nr / 64 /\ 0 <= Z.land nr 7 < 8 /\
  8 * (Z.shiftr nr 3 mod 8) + Z.land nr 7 = nr mod 64.
Proof.
  intros Hn. rewrite Z.shiftr_div_pow2 by lia. change 7 with (2 ^ 3 - 1) at 1 2 3.
  rewrite land_mask by lia. change (2 ^ 3) with 8. Z.div_mod_to_equations. lia.
Qed.

Lemma byte_get_spec m nr w :
  0 <= nr -> zget m (nr / 64) = Some w ->
  exists b, byte_get m (Z.shiftr nr 3) = Some b /\ b ∈u 8 /\
    forall j, 0 <= j < 8 -> Z.testbit b j = Z.testbit w (8 * (Z.shiftr nr 3 mod 8) + j).
Proof.
  intros Hn Hw. destruct (byte_position nr Hn) as (E & Hj & Es). unfold byte_get.
  rewrite E, Hw. cbn. eexists. split; [done|]. split; [apply wrap_range; lia|].
  intros j Hj'. rewrite wrap_testbit, Z.shiftr_spec by lia.
  destruct (Z.ltb_spec j 8); [|lia]. cbn. f_equal. lia.
Qed.

(** Storing a byte that differs from the old one in bit [nr & 7] only changes bit [nr]. *)
Lemma byte_set_spec m nr w b b' v :
  words_ok m -> 0 <= nr -> zget m (nr / 64) = Some w ->
  (forall j, 0 <= j < 8 -> Z.testbit b j = Z.testbit w (8 * (Z.shiftr nr 3 mod 8) + j)) ->
  b' ∈u 8 ->
  (forall j, 0 <= j < 8 -> Z.testbit b' j = if j =? Z.land nr 7 then v else Z.testbit b j) ->
  exists m', byte_set m (Z.shiftr nr 3) b' = Some m' /\ range_set v m nr (nr + 1) m'.
Proof.
  intros Hm Hn Hw Hb Hu' Hb'. destruct (byte_position nr Hn) as (E & Hj & Es).
  pose proof (zget_Some_range _ _ _ Hw) as Hr. pose proof (words_ok_get _ _ _ Hm Hw) as Hu.
  unfold byte_set. rewrite E, Hw. cbn [mbind option_bind].
  set (sh := 8 * (Z.shiftr nr 3 mod 8)) in *.
  assert (Hsh : 0 <= sh <= 56) by (unfold sh; pose proof (Z.mod_pos_bound (Z.shiftr nr 3) 8); lia).
  set (w' := Z.lor _ _).
  assert (Hbits : forall j, 0 <= j < 64 -> Z.testbit w' j =
            if j =? nr mod 64 then v else Z.testbit w j).
  { intros j Hj'. unfold w'. rewrite Z.lor_spec, Z.ldiff_spec, !Z.shiftl_spec by lia.
    change 255 with (Z.ones 8).
    destruct (Z.lt_ge_cases j sh).
    { rewrite !(Z.testbit_neg_r _ (j - sh)), orb_false_r, andb_true_r by lia.
      destruct (Z.eqb_spec j (nr mod 64)); [lia|done]. }
    rewrite Z.testbit_ones_nonneg by lia. destruct (Z.ltb_spec (j - sh) 8); cbn.
    - rewrite andb_false_r, orb_false_l, Hb' by lia.
      replace (j - sh =? Z.land nr 7) with (j =? nr mod 64)
        by (apply eq_true_iff_eq; rewrite !Z.eqb_eq; lia).
      destruct (j =? nr mod 64); [done|]. rewrite Hb by lia. f_equal. lia.
    - rewrite andb_true_r, (in_u_testbit 8 b'), orb_false_r by (done || lia).
      destruct (Z.eqb_spec j (nr mod 64)); [lia|done]. }
  assert (Hw' : w' ∈u 64).
  { apply in_u_bits; [lia| |].
    - apply Z.lor_nonneg. split; [apply Z.ldiff_nonneg|apply Z.shiftl_nonneg];
        unfold in_u in *; lia.
    - intros i Hi. unfold w'. rewrite Z.lor_spec, Z.ldiff_spec, !Z.shiftl_spec by lia.
      rewrite (in_u_testbit 64 w), (in_u_testbit 8 b') by (done || lia). done. }
  pose proof (zset_is_Some m (nr / 64) w' Hr) as Hset. eexists. split; [exact Hset|].
  split; [exact (words_ok_set _ _ _ _ Hm Hw' Hset)|].
  split; [exact (zset_length _ _ _ _ Hset)|]. intros i Hi.
  rewrite (bit_set_word _ _ _ _ _ Hset Hi).
  pose proof (Z.div_mod nr 64 ltac:(lia)). pose proof (Z.mod_pos_bound nr 64 ltac:(lia)).
  destruct ((64 * (nr / 64) <=? i) && (i <? 64 * (nr / 64) + 64)) eqn:Ein.
  - tests. rewrite Hbits, (bit_word m (nr / 64) w i Hw) by lia.
    destruct (Z.eqb_spec (i - 64 * (nr / 64)) (nr mod 64)), (Z.leb_spec nr i),
      (Z.ltb_spec i (nr + 1)); cbn; lia || done.
  - destruct (Z.leb_spec nr i), (Z.ltb_spec i (nr + 1)); cbn; try done.
    apply andb_false_iff in Ein as [|]; tests; lia.
Qed.

(** The functions on single bits, which go through bytes, read and write bit [nr]. *)
Theorem single_bit_correct m nr :
  words_ok m -> 0 <= nr < 64 * zlen m ->
  uk_test_bit nr m = Some (bit m nr) /\
  (exists ms, uk_test_and_set_bit nr m = Some (bit m nr, ms) /\
     range_set true m nr (nr + 1) ms) /\
  (exists mc, uk_test_and_clear_bit nr m = Some (bit m nr, mc) /\
     range_set false m nr (nr + 1) mc).
Proof.
  intros Hm Hn. destruct (byte_position nr ltac:(lia)) as (E & Hj & Es).
  destruct (word_get m (nr / 64)) as [w Hw]; [Z.div_mod_to_equations; lia|].
  destruct (byte_get_spec m nr w ltac:(lia) Hw) as (b & Hget & Hub & Hb).
  assert (Hbit : bit m nr = Z.testbit b (Z.land nr 7)).
  { rewrite Hb, Es by done. unfold bit. by rewrite Hw. }
  assert (Hmask : u8 (Z.shiftl 1 (Z.land nr 7)) = Z.shiftl 1 (Z.land nr 7)).
  { apply wrap_small, in_u_bits; [lia|by apply Z.shiftl_nonneg|]. intros i Hi.
    rewrite pow2_bits by lia. destruct (Z.eqb_spec i (Z.land nr 7)); [lia|done]. }
  assert (Hmu : Z.shiftl 1 (Z.land nr 7) ∈u 8) by (rewrite <- Hmask; by apply wrap_range).
  unfold uk_test_bit, uk_test_and_set_bit, uk_test_and_clear_bit. rewrite Hget, Hmask.
  cbn [mbind option_bind]. rewrite Z.land_comm, land_pow2_bit, negb_involutive, <- Hbit by lia.
  split; [done|]. split.
  - destruct (byte_set_spec m nr w b (Z.lor b (Z.shiftl 1 (Z.land nr 7))) true)
      as (m' & -> & ?); try done; [lia|apply in_u_lor; [lia|done|done]| |by eexists].
    intros j Hj'. rewrite Z.lor_spec, pow2_bits by lia.
    destruct (j =? Z.land nr 7); [apply orb_true_r|apply orb_false_r].
  - destruct (byte_set_spec m nr w b (Z.land b (lnotw 8 (Z.shiftl 1 (Z.land nr 7)))) false)
      as (m' & -> & ?); try done; [lia| | |by eexists].
    { apply in_u_land; [lia|done|]. apply (lnotw_in_u 8). lia. }
    intros j Hj'. rewrite Z.land_spec, lnotw_bits, pow2_bits by lia.
    destruct (Z.ltb_spec j 8); [|lia]. cbn.
    destruct (j =? Z.land nr 7); [apply andb_false_r|apply andb_true_r].
Qed.

(** ** Regions *)

Lemma reg_mask_bits n offset j :
  0 < n -> 0 <= offset -> offset + Z.min n 64 <= 64 -> 0 <= j < 64 ->
  reg_mask n offset ∈u 64 /\
  Z.testbit (reg_mask n offset) j = (offset <=? j) && (j <? offset + Z.min n 64).
Proof.
  intros Hn Ho Hfit Hj. unfold reg_mask, UK_BITS_PER_LONG. split; [apply wrap_range; lia|].
  set (k := Z.min n 64) in *. assert (Hk : 1 <= k <= 64) by (unfold k; lia).
  assert (Hm : u64 (Z.shiftl 1 (k - 1) + (Z.shiftl 1 (k - 1) - 1)) = Z.ones k).
  { rewrite Z.shiftl_1_l, Z.ones_equiv. pose proof (pow2_pos (k - 1) ltac:(lia)).
    assert (Hp : 2 ^ k = 2 * 2 ^ (k - 1)).
    { replace k with (Z.succ (k - 1)) at 1 by lia. apply Z.pow_succ_r. lia. }
    pose proof (Z.pow_le_mono_r 2 k 64 ltac:(lia) ltac:(lia)).
    rewrite wrap_small by (unfold in_u; lia). lia. }
  rewrite Hm, wrap_testbit, Z.shiftl_spec by lia. destruct (Z.ltb_spec j 64); [|lia]. cbn.
  destruct (Z.leb_spec offset j); [|by rewrite Z.testbit_neg_r by lia].
  rewrite Z.testbit_ones_nonneg by lia. apply eq_true_iff_eq. rewrite !Z.ltb_lt. lia.
Qed.

(** The words and the mask of a region: one word with a part of it, or whole words. *)
Lemma region_shape pos order (n := 2 ^ order) (offset := pos - pos / 64 * 64) :
  0 <= pos -> 0 <= order -> (n | pos) ->
  (UK_BITS_TO_LONGS n = 1 /\ 0 <= offset /\ offset + n <= 64 /\ Z.min n 64 = n) \/
  (64 * UK_BITS_TO_LONGS n = n /\ offset = 0 /\ Z.min n 64 = 64).
Proof.
  intros Hp Ho Hd. assert (Hn : 0 < n) by (by apply pow2_pos).
  unfold UK_BITS_TO_LONGS, UK_BITS_PER_LONG.
  assert (Ho' : offset = pos mod 64) by (unfold offset; Z.div_mod_to_equations; lia).
  destruct (Z.le_gt_cases order 6) as [H6|H6].
  - assert (Hdiv : (n | 64)).
    { exists (2 ^ (6 - order)). unfold n. rewrite <- Z.pow_add_r by lia.
      by replace (6 - order + order) with 6 by lia. }
    assert (Hle : n <= 64) by (apply Z.divide_pos_le; [lia|done]).
    left. split; [Z.div_mod_to_equations; lia|].
    pose proof (Z.mod_pos_bound pos 64 ltac:(lia)). split; [lia|]. split; [|lia].
    destruct Hdiv as [c Hc]. destruct Hd as [q Hq].
    assert (Hoff : (n | offset)).
    { rewrite Ho'. exists (q - c * (pos / 64)). pose proof (Z.div_mod pos 64 ltac:(lia)).
      assert (c * n * (pos / 64) = 64 * (pos / 64)) by by rewrite <- Hc. lia. }
    destruct Hoff as [r Hr]. assert (r < c) by (apply (Z.mul_lt_mono_pos_r n); lia). nia.
  - right. assert (Hdiv : (64 | n)).
    { exists (2 ^ (order - 6)). unfold n. change 64 with (2 ^ 6). rewrite <- Z.pow_add_r by lia.
      by replace (order - 6 + 6) with order by lia. }
    destruct Hdiv as [c Hc]. split; [Z.div_mod_to_equations; lia|].
    split; [|nia]. rewrite Ho'. apply Z.mod_divide; [lia|].
    etransitivity; [|exact Hd]. by exists c.
Qed.

Lemma words_update_ones (f : Z -> Z -> Z) v m n i :
  (forall w mask, w ∈u 64 -> mask ∈u 64 -> f w mask ∈u 64) ->
  (forall w mask j, 0 <= j < 64 ->
     Z.testbit (f w mask) j = if Z.testbit mask j then v else Z.testbit w j) ->
  words_ok m -> 0 <= i -> i + Z.of_nat n <= zlen m ->
  exists m', words_update n f m i ones64 = Some m' /\
    range_set v m (64 * i) (64 * (i + Z.of_nat n)) m'.
Proof.
  intros Hf1 Hf2. revert m i. induction n as [|n IH]; intros m i Hm Hi Hl; cbn [words_update].
  { exists m. split; [done|]. rewrite Z.add_0_r. by apply range_set_nil. }
  destruct (range_word f v Hf1 Hf2 m i ones64 (64 * i) (64 * i + 64))
    as (w & m1 & Hw & Hset & H1); [done|lia|apply ones64_in_u|lia|lia| |].
  { intros j Hj. rewrite ones64_bits by lia. apply eq_true_iff_eq.
    rewrite andb_true_iff, Z.leb_le, !Z.ltb_lt. lia. }
  rewrite Hw. cbn [mbind option_bind]. rewrite Hset. cbn [mbind option_bind].
  pose proof H1 as (Hok & Hlen & _).
  destruct (IH m1 (i + 1) Hok) as (m2 & Hm2 & H2); [lia|lia|]. exists m2. split; [done|].
  apply (range_set_app v m (64 * i) (64 * i + 64) _ m1); [lia|done|].
  replace (64 * i + 64) with (64 * (i + 1)) by lia.
  by replace (64 * (i + Z.of_nat (S n))) with (64 * (i + 1 + Z.of_nat n)) by lia.
Qed.

Lemma region_update (f : Z -> Z -> Z) v m pos order :
  (forall w mask, w ∈u 64 -> mask ∈u 64 -> f w mask ∈u 64) ->
  (forall w mask j, 0 <= j < 64 ->
     Z.testbit (f w mask) j = if Z.testbit mask j then v else Z.testbit w j) ->
  words_ok m -> 0 <= pos -> 0 <= order -> (2 ^ order | pos) -> pos + 2 ^ order <= 64 * zlen m ->
  exists m', words_update (Z.to_nat (UK_BITS_TO_LONGS (2 ^ order))) f m (pos / 64)
      (reg_mask (2 ^ order) (pos - pos / 64 * 64)) = Some m' /\
    range_set v m pos (pos + 2 ^ order) m'.
Proof.
  intros Hf1 Hf2 Hm Hp Ho Hd Hl. pose proof (pow2_pos order Ho) as Hn.
  pose proof (Z.div_mod pos 64 ltac:(lia)) as Hdm.
  pose proof (Z.mod_pos_bound pos 64 ltac:(lia)).
  destruct (region_shape pos order Hp Ho Hd) as [(E1 & E2 & E3 & E4)|(E1 & E2 & E3)].
  - rewrite E1. change (Z.to_nat 1) with 1%nat. cbn [words_update].
    destruct (range_word f v Hf1 Hf2 m (pos / 64) (reg_mask (2 ^ order) (pos - pos / 64 * 64))
                pos (pos + 2 ^ order)) as (w & m1 & Hw & Hset & H1); [done|lia| |lia|lia| |].
    { apply (reg_mask_bits _ _ 0); lia. }
    { intros j Hj. rewrite (proj2 (reg_mask_bits _ _ j Hn E2 ltac:(lia) Hj)), E4.
      f_equal; [f_equal; lia|]. apply eq_true_iff_eq. rewrite !Z.ltb_lt. lia. }
    rewrite Hw. cbn [mbind option_bind]. rewrite Hset. by eexists.
  - assert (Hones : reg_mask (2 ^ order) (pos - pos / 64 * 64) = ones64).
    { rewrite E2. unfold reg_mask, UK_BITS_PER_LONG. rewrite E3. reflexivity. }
    rewrite Hones.
    destruct (words_update_ones f v m (Z.to_nat (UK_BITS_TO_LONGS (2 ^ order))) (pos / 64))
      as (m' & H1 & H2); try done; [lia|lia|]. exists m'. split; [done|].
    replace (64 * (pos / 64 + Z.of_nat (Z.to_nat (UK_BITS_TO_LONGS (2 ^ order)))))
      with (pos + 2 ^ order) in H2 by lia.
    by replace (64 * (pos / 64)) with pos in H2 by lia.
Qed.

(** Testing words against the mask of a region. *)
Lemma words_free_spec m n i mask :
  words_ok m -> 0 <= i -> i + Z.of_nat n <= zlen m -> mask ∈u 64 ->
  exists r, words_free n m i mask = Some r /\
    (r = true <-> forall k j, 0 <= k < Z.of_nat n -> 0 <= j < 64 -> Z.testbit mask j = true ->
       bit m (64 * (i + k) + j) = false).
Proof.
  intros Hm. revert i. induction n as [|n IH]; intros i Hi Hl Hmask; cbn [words_free].
  { exists true. split; [done|]. split; [lia|done]. }
  destruct (word_get m i ltac:(lia)) as [w Hw]. rewrite Hw. cbn [mbind option_bind].
  pose proof (words_ok_get _ _ _ Hm Hw) as Hu.
  assert (Hbit : forall j, 0 <= j < 64 -> bit m (64 * i + j) = Z.testbit w j).
  { intros j Hj. rewrite (bit_word m i w) by (done || lia). f_equal. lia. }
  destruct (Z.eqb_spec (Z.land w mask) 0) as [E|E]; cbn [negb].
  - destruct (IH (i + 1) ltac:(lia) ltac:(lia) Hmask) as (r & -> & Hr). exists r. split; [done|].
    rewrite Hr. split; intros H k j Hk Hj Hmj.
    + destruct (Z.eq_dec k 0) as [->|].
      * rewrite Z.add_0_r, Hbit by done. rewrite <- (andb_true_r (Z.testbit w j)), <- Hmj.
        by rewrite <- Z.land_spec, E, Z.bits_0.
      * replace (i + k) with (i + 1 + (k - 1)) by lia. apply H; [lia..|done].
    + replace (i + 1 + k) with (i + (k + 1)) by lia. apply H; [lia..|done].
  - exists false. split; [done|]. split; [done|]. intros H. exfalso. apply E.
    apply word_zero; [by apply in_u_land; [lia| |apply Hmask]|].
    intros j Hj. rewrite Z.land_spec. destruct (Z.testbit mask j) eqn:Ej; [|apply andb_false_r].
    rewrite andb_true_r, <- Hbit by done. specialize (H 0 j ltac:(lia) Hj Ej).
    by rewrite Z.add_0_r in H.
Qed.

Lemma region_isfree m pos order :
  words_ok m -> 0 <= pos -> 0 <= order -> (2 ^ order | pos) -> pos + 2 ^ order <= 64 * zlen m ->
  exists r, __uk_bitopts_reg_op m pos order REG_OP_ISFREE = Some (r, m) /\
    (r = true <-> forall i, pos <= i < pos + 2 ^ order -> bit m i = false).
Proof.
  intros Hm Hp Ho Hd Hl. unfold __uk_bitopts_reg_op, UK_BITS_PER_LONG.
  rewrite Z.shiftl_1_l. pose proof (pow2_pos order Ho) as Hn.
  pose proof (Z.div_mod pos 64 ltac:(lia)) as Hdm.
  pose proof (Z.mod_pos_bound pos 64 ltac:(lia)).
  pose proof (region_shape pos order Hp Ho Hd) as Hshape.
  assert (Hfit : 0 <= pos - pos / 64 * 64 /\ pos - pos / 64 * 64 + Z.min (2 ^ order) 64 <= 64)
    by lia.
  destruct (words_free_spec m (Z.to_nat (UK_BITS_TO_LONGS (2 ^ order))) (pos / 64)
              (reg_mask (2 ^ order) (pos - pos / 64 * 64)) Hm) as (r & -> & Hr);
    [lia|lia|apply (reg_mask_bits _ _ 0); lia|].
  cbn. exists r. split; [done|]. rewrite Hr. clear Hr.
  assert (Hmb := fun j => reg_mask_bits (2 ^ order) (pos - pos / 64 * 64) j Hn (proj1 Hfit)
    (proj2 Hfit)).
  split.
  - intros H1 i Hi. pose proof (Z.div_mod i 64 ltac:(lia)).
    pose proof (Z.mod_pos_bound i 64 ltac:(lia)).
    replace i with (64 * (pos / 64 + (i / 64 - pos / 64)) + i mod 64) by lia.
    destruct Hshape as [(E1 & E2 & E3 & E4)|(E1 & E2 & E3)]; apply H1;
      try (Z.div_mod_to_equations; lia).
    all: rewrite (proj2 (Hmb (i mod 64) ltac:(lia))); apply andb_true_iff;
      rewrite Z.leb_le, Z.ltb_lt; Z.div_mod_to_equations; lia.
  - intros H1 k j Hk Hj Hmj. apply H1. rewrite (proj2 (Hmb j Hj)) in Hmj. tests.
    destruct Hshape as [(E1 & E2 & E3 & E4)|(E1 & E2 & E3)]; lia.
Qed.

Lemma region_alloc m pos order :
  words_ok m -> 0 <= pos -> 0 <= order -> (2 ^ order | pos) -> pos + 2 ^ order <= 64 * zlen m ->
  exists m', __uk_bitopts_reg_op m pos order REG_OP_ALLOC = Some (false, m') /\
    range_set true m pos (pos + 2 ^ order) m'.
Proof.
  intros. unfold __uk_bitopts_reg_op. rewrite Z.shiftl_1_l.
  destruct (region_update set_mask true m pos order set_mask_in_u set_mask_bits)
    as (m' & Hm' & ?); try done.
  exists m'. unfold UK_BITS_PER_LONG. by rewrite Hm'.
Qed.

Lemma region_release m pos order :
  words_ok m -> 0 <= pos -> 0 <= order -> (2 ^ order | pos) -> pos + 2 ^ order <= 64 * zlen m ->
  exists m', uk_bitmap_release_region m pos order = Some m' /\
    range_set false m pos (pos + 2 ^ order) m'.
Proof.
  intros. unfold uk_bitmap_release_region, __uk_bitopts_reg_op. rewrite Z.shiftl_1_l.
  destruct (region_update clear_mask false m pos order clear_mask_in_u clear_mask_bits)
    as (m' & Hm' & ?); try done.
  exists m'. unfold UK_BITS_PER_LONG. by rewrite Hm'.
Qed.

Lemma free_region_loop_spec m k bits order pos :
  words_ok m -> 0 <= order -> bits <= 64 * zlen m -> 0 <= pos -> (2 ^ order | pos) ->
  (Z.to_nat (bits - pos) <= k)%nat ->
  exists r m', free_region_loop k m bits order pos = Some (r, m') /\
    ((r = - ENOMEM /\ m' = m /\
      forall q, pos <= q -> (2 ^ order | q) -> ~ area_free m bits (2 ^ order) q) \/
     (pos <= r /\ (2 ^ order | r) /\ area_free m bits (2 ^ order) r /\
      range_set true m r (r + 2 ^ order) m' /\
      forall q, pos <= q < r -> (2 ^ order | q) -> ~ area_free m bits (2 ^ order) q)).
Proof.
  intros Hm Ho Hb. pose proof (pow2_pos order Ho) as Hn. revert pos.
  induction k as [|k IH]; intros pos Hp Hd Hk; cbn [free_region_loop]; rewrite Z.shiftl_1_l;
    destruct (Z.leb_spec (pos + 2 ^ order) bits) as [Hle|Hgt]; try lia.
  1, 3: do 2 eexists; split; [done|]; left; split; [done|]; split; [done|];
    intros q Hq _ [Hfit _]; lia.
  destruct (region_isfree m pos order Hm Hp Ho Hd ltac:(lia)) as (r & -> & Hr).
  cbn [mbind option_bind]. destruct r; cbn [negb].
  - destruct (region_alloc m pos order Hm Hp Ho Hd ltac:(lia)) as (m' & -> & Hset).
    cbn. do 2 eexists. split; [done|]. right. split; [lia|]. split; [done|].
    split; [split; [lia|by apply Hr]|]. split; [done|]. lia.
  - assert (Hnot : ~ area_free m bits (2 ^ order) pos).
    { intros [_ Hfree]. by apply Hr in Hfree. }
    assert (Hskip : forall q, pos <= q < pos + 2 ^ order -> (2 ^ order | q) ->
              ~ area_free m bits (2 ^ order) q).
    { intros q Hq [c Hc]. destruct Hd as [d Hd]. assert (c = d) as -> by nia.
      by rewrite Hc, <- Hd. }
    destruct (IH (pos + 2 ^ order)) as (r & m' & -> & HIH); [lia| |lia|].
    { by apply Z.divide_add_r. }
    exists r, m'. split; [done|]. destruct HIH as [(-> & -> & H1)|(H1 & H2 & H3 & H4 & H5)].
    + left. split; [done|]. split; [done|]. intros q Hq Hdq.
      destruct (Z.lt_ge_cases q (pos + 2 ^ order)); [apply Hskip|apply H1]; done || lia.
    + right. split; [lia|]. split; [done|]. split; [done|]. split; [done|]. intros q Hq Hdq.
      destruct (Z.lt_ge_cases q (pos + 2 ^ order)); [apply Hskip|apply H5]; done || lia.
Qed.

(** ** Properties *)

Lemma bitmap_set_clear_correct_witness :
  exists ms mc,
    uk_bitmap_set [0; 0; 5] 60 70 = Some ms /\ range_set true [0; 0; 5] 60 130 ms /\
    uk_bitmap_clear [0; 0; 5] 60 70 = Some mc /\ range_set false [0; 0; 5] 60 130 mc.
Proof.
  apply (bitmap_set_clear_correct [0; 0; 5] 60 70); try (cbn; lia).
  repeat constructor; by compute.
Defined.

Lemma bitmap_weight_correct_witness : uk_bitmap_weight [7; 2 ^ 63; 5] 130 = Some 5.
Proof.
  exact (bitmap_weight_correct [7; 2 ^ 63; 5] 130
    ltac:(repeat constructor; by compute) ltac:(cbn; lia) ltac:(lia)).
Defined.

(** The word-at-a-time searches find the first set bit and the first clear bit from an
    offset on; a result of at least [size] means that there is none. *)
Theorem bitmap_search_correct m size offset :
  words_ok m -> 0 <= offset < size -> size <= 64 * zlen m ->
  (exists r, uk_find_next_bit m size offset = Some r /\
     offset <= r /\ (r < size -> bit m r = true) /\
     forall i, offset <= i < size -> i < r -> bit m i = false) /\
  (exists r, uk_find_next_zero_bit m size offset = Some r /\
     offset <= r /\ (r < size -> bit m r = false) /\
     forall i, offset <= i < size -> i < r -> bit m i = true) /\
  (exists r, uk_find_first_bit m size = Some r /\
     0 <= r <= size /\ (r < size -> bit m r = true) /\
     forall i, 0 <= i < r -> bit m i = false).
Proof.
  intros Hm Ho Hs. split; [|split].
  - destruct (find_one_spec m size offset Hm ltac:(lia) Hs) as (r & Hr & H).
    destruct (Z.leb_spec size offset); [lia|]. destruct H as [(H1 & H2 & H3) _].
    exists r. split; [done|]. split; [done|]. by split.
  - destruct (find_zero_spec m size offset Hm ltac:(lia) Hs) as (r & Hr & H).
    destruct (Z.leb_spec size offset); [lia|]. destruct H as [(H1 & H2 & H3) _].
    exists r. split; [done|]. split; [done|]. split.
    + intros Hlt. by apply negb_true_iff, H3.
    + intros i Hi Hir. by apply negb_false_iff, H2.
  - destruct (scan_spec (fun w => w) (fun b => b) (fun w H => H) (fun w j _ _ => eq_refl)
                m (Z.to_nat (size / 64)) 0 size Hm) as (r & Hr & (H1 & H2 & H3) & H4);
      [lia..|]. exists r. split; [done|]. split; [lia|]. split; [done|].
    intros i Hi. apply H2; lia.
Qed.

Lemma bitmap_search_correct_witness :
  uk_find_next_bit [2 ^ 40; 0; 1] 130 41 = Some 128 /\
  uk_find_next_zero_bit [ones64; 7; 0] 130 5 = Some 67.
Proof.
  destruct (bitmap_search_correct [2 ^ 40; 0; 1] 130 41) as [(r & Hr & _) _];
    [repeat constructor; by compute|lia|cbn; lia|].
  destruct (bitmap_search_correct [ones64; 7; 0] 130 5) as (_ & (r' & Hr' & _) & _);
    [repeat constructor; by compute|lia|cbn; lia|].
  split; [rewrite Hr; vm_compute in Hr; done|rewrite Hr'; vm_compute in Hr'; done].
Defined.

(** [uk_find_last_bit] finds the last set bit; its whole words are searched downwards. *)
Theorem find_last_correct m size :
  words_ok m -> 0 <= size <= 64 * zlen m ->
  exists r, uk_find_last_bit m size = Some r /\
    ((r = size /\ forall i, 0 <= i < size -> bit m i = false) \/
     (0 <= r < size /\ bit m r = true /\ forall i, r < i < size -> bit m i = false)).
Proof.
  intros Hm Hs. unfold uk_find_last_bit, UK_BITS_PER_LONG.
  pose proof (Z.div_mod size 64 ltac:(lia)) as Hdm.
  pose proof (Z.mod_pos_bound size 64 ltac:(lia)) as Hmod. pose proof (Z.div_pos size 64).
  destruct (last_loop_spec m (Z.to_nat (size / 64)) size Hm ltac:(lia)) as (r0 & Hr0 & HL).
  rewrite Z2Nat.id in HL by lia.
  destruct (Z.eqb_spec (size mod 64) 0) as [E|E]; cbn [negb].
  { replace (64 * (size / 64)) with size in HL by lia. by exists r0. }
  destruct (word_get m (size / 64) ltac:(lia)) as [w Hw]. rewrite Hw. cbn [mbind option_bind].
  assert (Hl : forall i, 64 * (size / 64) <= i < 64 * (size / 64) + 64 ->
    Z.testbit (Z.land w (UK_BITMAP_LAST_WORD_MASK (size mod 64))) (i - 64 * (size / 64)) =
    (i <? size) && bit m i).
  { intros i Hi. rewrite Z.land_spec, last_word_mask_bits, last_bits_small,
      (bit_word m (size / 64) w i) by (done || lia). rewrite andb_comm. f_equal.
    apply eq_true_iff_eq. rewrite !Z.ltb_lt. lia. }
  set (mask := Z.land w (UK_BITMAP_LAST_WORD_MASK (size mod 64))) in *.
  assert (Hmu : mask ∈u 64).
  { apply in_u_land; [lia|by eapply words_ok_get|]. apply last_word_mask_in_u. }
  destruct (Z.eqb_spec mask 0) as [Em|Em]; cbn [negb].
  - exists r0. split; [done|].
    assert (Hrest : forall i, 64 * (size / 64) <= i < size -> bit m i = false).
    { intros i Hi. specialize (Hl i ltac:(lia)). rewrite Em, Z.bits_0 in Hl.
      destruct (Z.ltb_spec i size); [done|lia]. }
    destruct HL as [[-> H1]|(H1 & H2 & H3)]; [left|right].
    + split; [done|]. intros i Hi.
      destruct (Z.lt_ge_cases i (64 * (size / 64))); [apply H1|apply Hrest]; lia.
    + split; [lia|]. split; [done|]. intros i Hi.
      destruct (Z.lt_ge_cases i (64 * (size / 64))); [apply H3|apply Hrest]; lia.
  - destruct (ukarch_flsl_spec mask) as (H1 & H2 & H3); [unfold in_u in Hmu; lia|].
    assert (ukarch_flsl mask < 64).
    { destruct (Z.lt_ge_cases (ukarch_flsl mask) 64) as [|Hf]; [done|].
      by rewrite (in_u_testbit 64 mask _ ltac:(lia) Hmu Hf) in H2. }
    eexists. split; [done|]. right.
    assert (Hb := Hl (64 * (size / 64) + ukarch_flsl mask) ltac:(lia)).
    replace (64 * (size / 64) + ukarch_flsl mask - 64 * (size / 64)) with (ukarch_flsl mask)
      in Hb by lia. rewrite H2 in Hb. symmetry in Hb. tests. split; [lia|]. split; [done|].
    intros i Hi. specialize (Hl i ltac:(lia)). rewrite H3 in Hl by lia.
    destruct (Z.ltb_spec i size); [done|lia].
Qed.

(** [uk_bitmap_find_next_zero_area_off] returns the least position from [start] on that is
    aligned as asked for and followed by [nr] clear bits, or a number above [size] when there
    is none; the retries end. *)
Theorem zero_area_least m size start nr off k :
  words_ok m -> 0 <= size <= 64 * zlen m -> 0 <= start -> 0 < nr -> 0 <= off -> 0 <= k < 31 ->
  size + nr + off + 2 ^ k + 64 < 2 ^ 32 ->
  exists r, uk_bitmap_find_next_zero_area_off (S (Z.to_nat size)) m size start nr (2 ^ k - 1) off
      = Some r /\
    ((start <= r /\ (2 ^ k | r + off) /\ area_free m size nr r /\
      forall i, start <= i < r -> (2 ^ k | i + off) -> ~ area_free m size nr i) \/
     (size < r /\ forall i, start <= i -> (2 ^ k | i + off) -> ~ area_free m size nr i)).
Proof. intros. apply zero_area_spec; done || lia. Qed.

Lemma zero_area_least_witness :
  exists r, uk_bitmap_find_next_zero_area_off 65 [0xF0FF0F] 64 0 8 (2 ^ 2 - 1) 0 = Some r /\
    ((0 <= r /\ (2 ^ 2 | r + 0) /\ area_free [0xF0FF0F] 64 8 r /\
      forall i, 0 <= i < r -> (2 ^ 2 | i + 0) -> ~ area_free [0xF0FF0F] 64 8 i) \/
     (64 < r /\ forall i, 0 <= i -> (2 ^ 2 | i + 0) -> ~ area_free [0xF0FF0F] 64 8 i)).
Proof.
  apply (zero_area_least [0xF0FF0F] 64 0 8 0 2); try (cbn; lia).
  repeat constructor; by compute.
Defined.

(** [uk_bitmap_find_free_region] takes the first free block of [2^order] bits at a multiple
    of its size and marks exactly that block, or answers [-ENOMEM] when no block is free;
    releasing a block clears exactly its bits. *)
Theorem free_region_first_fit m bits order :
  words_ok m -> 0 <= order -> 0 <= bits <= 64 * zlen m ->
  exists r m', uk_bitmap_find_free_region m bits order = Some (r, m') /\
    ((r = - ENOMEM /\ m' = m /\
      forall q, 0 <= q -> (2 ^ order | q) -> ~ area_free m bits (2 ^ order) q) \/
     (0 <= r /\ (2 ^ order | r) /\ area_free m bits (2 ^ order) r /\
      range_set true m r (r + 2 ^ order) m' /\
      (forall q, 0 <= q < r -> (2 ^ order | q) -> ~ area_free m bits (2 ^ order) q) /\
      exists m'', uk_bitmap_release_region m' r order = Some m'' /\
        forall i, 0 <= i -> bit m'' i = bit m i)).
Proof.
  intros Hm Ho Hb. unfold uk_bitmap_find_free_region.
  destruct (free_region_loop_spec m (Z.to_nat bits) bits order 0 Hm Ho) as (r & m' & Hr & H);
    [lia|lia|apply Z.divide_0_r|lia|].
  exists r, m'. split; [done|]. destruct H as [?|(H1 & H2 & H3 & H4 & H5)]; [by left|].
  right. repeat (split; [done|]).
  pose proof H3 as [Hfit Hfree]. pose proof H4 as (Hok & Hlen & Hbit).
  destruct (region_release m' r order Hok H1 Ho H2 ltac:(lia)) as (m'' & Hrel & _ & _ & Hb2).
  exists m''. split; [done|]. intros i Hi. rewrite Hb2, Hbit by done.
  destruct ((r <=? i) && (i <? r + 2 ^ order)) eqn:E; [|done]. tests. symmetry. apply Hfree. lia.
Qed.

Lemma free_region_first_fit_witness :
  exists r m', uk_bitmap_find_free_region [0xF0FF0F; 0] 128 4 = Some (r, m') /\ r = 32.
Proof.
  destruct (free_region_first_fit [0xF0FF0F; 0] 128 4) as (r & m' & Hr & _);
    [repeat constructor; by compute|lia|cbn; lia|].
  exists r, m'. split; [done|]. vm_compute in Hr. by simplify_eq.
Defined.

(** A set bit behind [size] in the word of the offset is returned although it is outside. *)
Theorem find_next_bit_behind_size : uk_find_next_bit [2 ^ 20] 10 5 = Some 20.
Proof. reflexivity. Qed.

End Bitmap.
