(* ===== verification/Crc32.v ===== *)
(** * Crc32: the hash function of the key-value store

    Models [crc32_tab], [crc32] and [hashmap_hash_int] of
    [test_dpdk/basic_forward/kv.c].  The table-driven CRC is proved equal to
    the bit-serial CRC-32 (reflected polynomial 0xEDB88320, initial value 0, no
    final complement), which is what the 256 constants are meant to encode. *)
From Stdlib Require Import ZArith Lia Bool.
From S2P Require Import Prelude.
Open Scope Z_scope.

(** The table, 256 [unsigned long] constants. *)
Definition crc32_tab : list Z := [
   0x00000000; 0x77073096; 0xee0e612c; 0x990951ba; 0x076dc419;
   0x706af48f; 0xe963a535; 0x9e6495a3; 0x0edb8832; 0x79dcb8a4;
   0xe0d5e91e; 0x97d2d988; 0x09b64c2b; 0x7eb17cbd; 0xe7b82d07;
   0x90bf1d91; 0x1db71064; 0x6ab020f2; 0xf3b97148; 0x84be41de;
   0x1adad47d; 0x6ddde4eb; 0xf4d4b551; 0x83d385c7; 0x136c9856;
   0x646ba8c0; 0xfd62f97a; 0x8a65c9ec; 0x14015c4f; 0x63066cd9;
   0xfa0f3d63; 0x8d080df5; 0x3b6e20c8; 0x4c69105e; 0xd56041e4;
   0xa2677172; 0x3c03e4d1; 0x4b04d447; 0xd20d85fd; 0xa50ab56b;
   0x35b5a8fa; 0x42b2986c; 0xdbbbc9d6; 0xacbcf940; 0x32d86ce3;
   0x45df5c75; 0xdcd60dcf; 0xabd13d59; 0x26d930ac; 0x51de003a;
   0xc8d75180; 0xbfd06116; 0x21b4f4b5; 0x56b3c423; 0xcfba9599;
   0xb8bda50f; 0x2802b89e; 0x5f058808; 0xc60cd9b2; 0xb10be924;
   0x2f6f7c87; 0x58684c11; 0xc1611dab; 0xb6662d3d; 0x76dc4190;
   0x01db7106; 0x98d220bc; 0xefd5102a; 0x71b18589; 0x06b6b51f;
   0x9fbfe4a5; 0xe8b8d433; 0x7807c9a2; 0x0f00f934; 0x9609a88e;
   0xe10e9818; 0x7f6a0dbb; 0x086d3d2d; 0x91646c97; 0xe6635c01;
   0x6b6b51f4; 0x1c6c6162; 0x856530d8; 0xf262004e; 0x6c0695ed;
   0x1b01a57b; 0x8208f4c1; 0xf50fc457; 0x65b0d9c6; 0x12b7e950;
   0x8bbeb8ea; 0xfcb9887c; 0x62dd1ddf; 0x15da2d49; 0x8cd37cf3;
   0xfbd44c65; 0x4db26158; 0x3ab551ce; 0xa3bc0074; 0xd4bb30e2;
   0x4adfa541; 0x3dd895d7; 0xa4d1c46d; 0xd3d6f4fb; 0x4369e96a;
   0x346ed9fc; 0xad678846; 0xda60b8d0; 0x44042d73; 0x33031de5;
   0xaa0a4c5f; 0xdd0d7cc9; 0x5005713c; 0x270241aa; 0xbe0b1010;
   0xc90c2086; 0x5768b525; 0x206f85b3; 0xb966d409; 0xce61e49f;
   0x5edef90e; 0x29d9c998; 0xb0d09822; 0xc7d7a8b4; 0x59b33d17;
   0x2eb40d81; 0xb7bd5c3b; 0xc0ba6cad; 0xedb88320; 0x9abfb3b6;
   0x03b6e20c; 0x74b1d29a; 0xead54739; 0x9dd277af; 0x04db2615;
   0x73dc1683; 0xe3630b12; 0x94643b84; 0x0d6d6a3e; 0x7a6a5aa8;
   0xe40ecf0b; 0x9309ff9d; 0x0a00ae27; 0x7d079eb1; 0xf00f9344;
   0x8708a3d2; 0x1e01f268; 0x6906c2fe; 0xf762575d; 0x806567cb;
   0x196c3671; 0x6e6b06e7; 0xfed41b76; 0x89d32be0; 0x10da7a5a;
   0x67dd4acc; 0xf9b9df6f; 0x8ebeeff9; 0x17b7be43; 0x60b08ed5;
   0xd6d6a3e8; 0xa1d1937e; 0x38d8c2c4; 0x4fdff252; 0xd1bb67f1;
   0xa6bc5767; 0x3fb506dd; 0x48b2364b; 0xd80d2bda; 0xaf0a1b4c;
   0x36034af6; 0x41047a60; 0xdf60efc3; 0xa867df55; 0x316e8eef;
   0x4669be79; 0xcb61b38c; 0xbc66831a; 0x256fd2a0; 0x5268e236;
   0xcc0c7795; 0xbb0b4703; 0x220216b9; 0x5505262f; 0xc5ba3bbe;
   0xb2bd0b28; 0x2bb45a92; 0x5cb36a04; 0xc2d7ffa7; 0xb5d0cf31;
   0x2cd99e8b; 0x5bdeae1d; 0x9b64c2b0; 0xec63f226; 0x756aa39c;
   0x026d930a; 0x9c0906a9; 0xeb0e363f; 0x72076785; 0x05005713;
   0x95bf4a82; 0xe2b87a14; 0x7bb12bae; 0x0cb61b38; 0x92d28e9b;
   0xe5d5be0d; 0x7cdcefb7; 0x0bdbdf21; 0x86d3d2d4; 0xf1d4e242;
   0x68ddb3f8; 0x1fda836e; 0x81be16cd; 0xf6b9265b; 0x6fb077e1;
   0x18b74777; 0x88085ae6; 0xff0f6a70; 0x66063bca; 0x11010b5c;
   0x8f659eff; 0xf862ae69; 0x616bffd3; 0x166ccf45; 0xa00ae278;
   0xd70dd2ee; 0x4e048354; 0x3903b3c2; 0xa7672661; 0xd06016f7;
   0x4969474d; 0x3e6e77db; 0xaed16a4a; 0xd9d65adc; 0x40df0b66;
   0x37d83bf0; 0xa9bcae53; 0xdebb9ec5; 0x47b2cf7f; 0x30b5ffe9;
   0xbdbdf21c; 0xcabac28a; 0x53b39330; 0x24b4a3a6; 0xbad03605;
   0xcdd70693; 0x54de5729; 0x23d967bf; 0xb3667a2e; 0xc4614ab8;
   0x5d681b02; 0x2a6f2b94; 0xb40bbe37; 0xc30c8ea1; 0x5a05df1b;
   0x2d02ef8d].

(** [crc32]: the loop over the bytes of the buffer.  The index
    [(crc32val ^ s[i]) & 0xff] is always below 256, so the read is in range
    ([crc32_tab_index]). *)
Definition crc32_step (crc32val b : Z) : Z :=
  Z.lxor (nth (Z.to_nat (Z.land (Z.lxor crc32val b) 0xff)) crc32_tab 0)
         (Z.shiftr crc32val 8).

Definition crc32 (s : list Z) : Z := fold_left crc32_step s 0.

(** The mixing steps of [hashmap_hash_int], on a 64-bit [unsigned long]. *)
Definition mix_add (n key : Z) : Z := u64 (key + u64 (Z.shiftl key n)).
Definition mix_xor (n key : Z) : Z := Z.lxor key (Z.shiftr key n).

(** Everything [hashmap_hash_int] computes before the final [% table_size]. *)
Definition hash_key (keystring : list Z) : Z :=
  let key := crc32 keystring in
  (* Robert Jenkins' 32 bit Mix Function *)
  let key := mix_add 12 key in
  let key := mix_xor 22 key in
  let key := mix_add 4 key in
  let key := mix_xor 9 key in
  let key := mix_add 10 key in
  let key := mix_xor 2 key in
  let key := mix_add 7 key in
  let key := mix_xor 12 key in
  (* Knuth's Multiplicative Method *)
  u64 (Z.shiftr key 3 * 2654435761).

(** [hashmap_hash_int]: [key % m->table_size], returned as [unsigned int]. *)
Definition hashmap_hash_int (table_size : Z) (keystring : list Z) : Z :=
  u32 (hash_key keystring mod table_size).

(** ** The bit-serial reference *)

Definition crc_poly : Z := 0xEDB88320.

Definition crc_bit (c : Z) : Z :=
  if Z.testbit c 0 then Z.lxor (Z.shiftr c 1) crc_poly else Z.shiftr c 1.

Definition crc_byte (c : Z) : Z := Nat.iter 8 crc_bit c.

Definition crc32_ref (s : list Z) : Z :=
  fold_left (fun c b => crc_byte (Z.lxor c b)) s 0.

(** ** The table encodes eight bit-steps *)

Lemma crc32_tab_index c b : 0 <= Z.land (Z.lxor c b) 0xff < 256.
Proof.
  change 0xff with (Z.ones 8). rewrite Z.land_ones by lia.
  by apply Z.mod_pos_bound.
Qed.

Lemma crc32_tab_spec i : 0 <= i < 256 -> nth (Z.to_nat i) crc32_tab 0 = crc_byte i.
Proof.
  intros Hi. rewrite <- (Z2Nat.id i) at 2 by lia.
  assert (Hall : forallb (fun n => nth n crc32_tab 0 =? crc_byte (Z.of_nat n)) (seq 0 256) = true)
    by (vm_compute; reflexivity).
  rewrite forallb_forall in Hall.
  specialize (Hall (Z.to_nat i)). rewrite in_seq in Hall.
  apply Z.eqb_eq, Hall. lia.
Qed.

(** ** Linearity of the bit step over exclusive or *)

Ltac xor_bits :=
  apply Z.bits_inj'; intros ? ?; rewrite ?Z.lxor_spec;
  repeat match goal with |- context [Z.testbit ?a ?i] => destruct (Z.testbit a i) end;
  reflexivity.

Lemma crc_bit_lxor a b : crc_bit (Z.lxor a b) = Z.lxor (crc_bit a) (crc_bit b).
Proof.
  unfold crc_bit. rewrite Z.lxor_spec, Z.shiftr_lxor.
  destruct (Z.testbit a 0), (Z.testbit b 0); simpl xorb; cbv iota; xor_bits.
Qed.

Lemma iter_lxor (f : Z -> Z) n a b :
  (forall a b, f (Z.lxor a b) = Z.lxor (f a) (f b)) ->
  Nat.iter n f (Z.lxor a b) = Z.lxor (Nat.iter n f a) (Nat.iter n f b).
Proof. intros Hf. induction n as [|n IH]; simpl; [done|]. by rewrite IH, Hf. Qed.

Lemma crc_byte_lxor a b : crc_byte (Z.lxor a b) = Z.lxor (crc_byte a) (crc_byte b).
Proof. apply iter_lxor, crc_bit_lxor. Qed.

Lemma crc_bit_shift a n : 0 < n -> crc_bit (Z.shiftl a n) = Z.shiftl a (n - 1).
Proof.
  intros Hn. unfold crc_bit. rewrite Z.shiftl_spec_low by lia.
  rewrite Z.shiftr_shiftl_l by lia. done.
Qed.

Lemma crc_byte_high a : crc_byte (Z.shiftl a 8) = a.
Proof.
  unfold crc_byte. cbn [Nat.iter nat_rect].
  repeat (rewrite crc_bit_shift by lia).
  apply Z.shiftl_0_r.
Qed.

Lemma split_low_byte x : x = Z.lxor (Z.land x 0xff) (Z.shiftl (Z.shiftr x 8) 8).
Proof.
  change 0xff with (Z.ones 8).
  apply Z.bits_inj'. intros i Hi.
  rewrite Z.lxor_spec, Z.land_spec, Z.shiftl_spec, Z.testbit_ones_nonneg by lia.
  destruct (Z.ltb_spec i 8).
  - rewrite (Z.testbit_neg_r _ (i - 8)) by lia. by destruct (Z.testbit x i).
  - rewrite Z.shiftr_spec by lia. replace (i - 8 + 8) with i by lia.
    by destruct (Z.testbit x i).
Qed.

Lemma shiftr_lxor_byte c b : 0 <= b < 256 -> Z.shiftr (Z.lxor c b) 8 = Z.shiftr c 8.
Proof.
  intros Hb. rewrite Z.shiftr_lxor. rewrite (Z.shiftr_div_pow2 b) by lia.
  rewrite Z.div_small by lia. apply Z.lxor_0_r.
Qed.

Lemma crc32_step_ref c b : 0 <= b < 256 -> crc32_step c b = crc_byte (Z.lxor c b).
Proof.
  intros Hb. rewrite (split_low_byte (Z.lxor c b)), crc_byte_lxor, crc_byte_high.
  rewrite shiftr_lxor_byte by done. unfold crc32_step.
  by rewrite crc32_tab_spec by apply crc32_tab_index.
Qed.

Lemma crc32_fold_ref s c :
  Forall (fun b => 0 <= b < 256) s ->
  fold_left crc32_step s c = fold_left (fun c b => crc_byte (Z.lxor c b)) s c.
Proof.
  intros Hs. revert c. induction Hs as [|b s Hb Hs IH]; intros c; simpl; [done|].
  by rewrite crc32_step_ref, IH.
Qed.

(** ** Range: the CRC is a 32-bit value although [crc32val] is 64 bits wide *)

Lemma crc_bit_range c : c ∈u 32 -> crc_bit c ∈u 32.
Proof.
  intros Hc. unfold crc_bit. destruct (Z.testbit c 0); [|auto with uk lia].
  apply in_u_lxor; [lia| |done]. apply in_u_shiftr; auto with lia.
Qed.

Lemma crc_byte_range c : c ∈u 32 -> crc_byte c ∈u 32.
Proof. intros. unfold crc_byte. cbn. by repeat apply crc_bit_range. Qed.

Lemma crc32_range s : Forall (fun b => 0 <= b < 256) s -> crc32 s ∈u 32.
Proof.
  intros Hs. unfold crc32. rewrite crc32_fold_ref by done.
  assert (H0 : 0 ∈u 32) by done. revert H0. generalize 0.
  induction Hs as [|b s Hb Hs IH]; intros c Hc; simpl; [done|].
  apply IH, crc_byte_range, in_u_lxor; [lia|done|].
  eapply (in_u_mono 8); [lia|]. unfold in_u. lia.
Qed.

Lemma hashmap_hash_int_range T k :
  0 < T < 2 ^ 32 -> 0 <= hashmap_hash_int T k < T.
Proof.
  intros HT. unfold hashmap_hash_int.
  pose proof (Z.mod_pos_bound (hash_key k) T ltac:(lia)).
  rewrite wrap_small; [lia|unfold in_u; lia].
Qed.

(** Clients reason about the hash only through its range. *)
#[global] Opaque hash_key hashmap_hash_int.

(** ** Properties *)

(** The table-driven [crc32] of every byte string equals the bit-serial
    CRC-32 with polynomial 0xEDB88320, initial value 0 and no final xor. *)
Theorem crc32_table_correct s :
  Forall (fun b => 0 <= b < 256) s -> crc32 s = crc32_ref s.
Proof. apply crc32_fold_ref. Qed.

Lemma crc32_table_correct_witness :
  crc32 [97; 98; 99] = crc32_ref [97; 98; 99] /\ crc32 [97; 98; 99] = 3395655888.
Proof.
  split; [|vm_compute; reflexivity].
  apply crc32_table_correct. repeat constructor; lia.
Defined.
