(* ===== verification/Hashmap.v ===== *)
(** * Hashmap: the in-memory store of the UDP key-value server

    Models the open-addressing hash map of [test_dpdk/basic_forward/kv.c]
    ([hashmap_new], [hashmap_hash], [hashmap_rehash], [hashmap_put],
    [hashmap_get], [hashmap_iterate], [hashmap_remove], [hashmap_length]).

    Keys are the contents of the C strings (the program never mutates a key after
    it was stored), values are [void *] addresses with NULL = 0.  A run returns
    [None] when the C code would have undefined behaviour (an index outside an
    array, [strcmp] on NULL, overflow of [2 * table_size]) or when the fuel that
    bounds the mutual recursion of [hashmap_put] and [hashmap_rehash] is used up;
    [hashmap_put_total] shows that neither happens. *)
From Stdlib Require Import ZArith Lia Bool.
From stdpp Require Import gmap.
From S2P Require Import Prelude Crc32.
Open Scope Z_scope.

(** ** Data *)

Definition MAP_MISSING : Z := -3.
Definition MAP_FULL : Z := -2.
Definition MAP_OMEM : Z := -1.
Definition MAP_OK : Z := 0.
Definition INITIAL_SIZE : Z := 256.
Definition MAX_CHAIN_LENGTH : nat := 8.

Abbreviation any_t := Z.
Abbreviation cstring := (list Z).

Record hashmap_element := Elem {
  key : option cstring;   (* NULL or a string *)
  in_use : Z;
  data : any_t
}.

Record hashmap_map := Map {
  table_size : Z;
  msize : Z;
  mdata : list hashmap_element
}.

(** What [calloc] fills an element with. *)
Definition elem0 : hashmap_element := Elem None 0 0.

Definition calloc_elems (n : Z) : list hashmap_element := replicate (Z.to_nat n) elem0.

(** [strcmp(e.key, k) == 0]; comparing with NULL is undefined. *)
Definition key_is (e : hashmap_element) (k : cstring) : option bool :=
  k' ← key e; Some (bool_decide (k' = k)).

(** ** Operations *)

(** [malloc]'s and [calloc]'s success are inputs: the first is asked for the
    descriptor, the second for a number of elements. *)
Definition hashmap_new (malloc_ok : bool) (calloc_ok : Z -> bool) : option hashmap_map :=
  if negb malloc_ok then None
  else if negb (calloc_ok INITIAL_SIZE) then None
  else Some (Map INITIAL_SIZE 0 (calloc_elems INITIAL_SIZE)).

(** The probing loop of [hashmap_hash]. *)
Fixpoint hash_loop (n : nat) (m : hashmap_map) (k : cstring) (curr : Z) : option Z :=
  match n with
  | O => Some MAP_FULL
  | S n' =>
      e ← zget (mdata m) curr;
      if in_use e =? 0 then Some curr
      else
        hit ← (if in_use e =? 1 then key_is e k else Some false);
        if (hit : bool) then Some curr
        else hash_loop n' m k ((curr + 1) mod table_size m)
  end.

Definition hashmap_hash (m : hashmap_map) (k : cstring) : option Z :=
  if table_size m / 2 <=? msize m then Some MAP_FULL
  else hash_loop MAX_CHAIN_LENGTH m k (hashmap_hash_int (table_size m) k).

(** The loop of [hashmap_rehash] over the old array [curr]. *)
Fixpoint rehash_loop (put : hashmap_map -> cstring -> any_t -> option (Z * hashmap_map))
    (curr : list hashmap_element) (m : hashmap_map) : option (Z * hashmap_map) :=
  match curr with
  | [] => Some (MAP_OK, m)
  | e :: curr' =>
      if in_use e =? 0 then rehash_loop put curr' m
      else
        k ← key e;
        '(status, m') ← put m k (data e);
        if status =? MAP_OK then rehash_loop put curr' m' else Some (status, m')
  end.

Definition rehash_with (put : hashmap_map -> cstring -> any_t -> option (Z * hashmap_map))
    (calloc_ok : Z -> bool) (m : hashmap_map) : option (Z * hashmap_map) :=
  if 2 ^ 31 <=? 2 * table_size m then None   (* int overflow *)
  else if negb (calloc_ok (2 * table_size m)) then Some (MAP_OMEM, m)
  else rehash_loop put (mdata m)
         (Map (2 * table_size m) 0 (calloc_elems (2 * table_size m))).

(** [hashmap_put]: the [while (index == MAP_FULL)] loop is the recursive call on
    the rehashed map. *)
Fixpoint hashmap_put (calloc_ok : Z -> bool) (fuel : nat) (m : hashmap_map)
    (k : cstring) (value : any_t) : option (Z * hashmap_map) :=
  index ← hashmap_hash m k;
  if index =? MAP_FULL then
    match fuel with
    | O => None
    | S fuel' =>
        '(status, m') ← rehash_with (hashmap_put calloc_ok fuel') calloc_ok m;
        if status =? MAP_OMEM then Some (MAP_OMEM, m')
        else hashmap_put calloc_ok fuel' m' k value
    end
  else
    data' ← zset (mdata m) index (Elem (Some k) 1 value);
    Some (MAP_OK, Map (table_size m) (msize m + 1) data').

Definition hashmap_rehash (calloc_ok : Z -> bool) (fuel : nat) (m : hashmap_map)
    : option (Z * hashmap_map) :=
  rehash_with (hashmap_put calloc_ok fuel) calloc_ok m.

(** [hashmap_get]: the status and what is stored through [arg]. *)
Fixpoint get_loop (n : nat) (m : hashmap_map) (k : cstring) (curr : Z)
    : option (Z * any_t) :=
  match n with
  | O => Some (MAP_MISSING, 0)
  | S n' =>
      e ← zget (mdata m) curr;
      hit ← (if in_use e =? 1 then key_is e k else Some false);
      if (hit : bool) then Some (MAP_OK, data e)
      else get_loop n' m k ((curr + 1) mod table_size m)
  end.

Definition hashmap_get (m : hashmap_map) (k : cstring) : option (Z * any_t) :=
  get_loop MAX_CHAIN_LENGTH m k (hashmap_hash_int (table_size m) k).

Fixpoint remove_loop (n : nat) (m : hashmap_map) (k : cstring) (curr : Z)
    : option (Z * hashmap_map) :=
  match n with
  | O => Some (MAP_MISSING, m)
  | S n' =>
      e ← zget (mdata m) curr;
      hit ← (if in_use e =? 1 then key_is e k else Some false);
      if (hit : bool) then
        data' ← zset (mdata m) curr (Elem None 0 0);
        Some (MAP_OK, Map (table_size m) (msize m - 1) data')
      else remove_loop n' m k ((curr + 1) mod table_size m)
  end.

Definition hashmap_remove (m : hashmap_map) (k : cstring) : option (Z * hashmap_map) :=
  remove_loop MAX_CHAIN_LENGTH m k (hashmap_hash_int (table_size m) k).

(** [hashmap_length] also accepts NULL. *)
Definition hashmap_length (m : option hashmap_map) : Z :=
  match m with Some m => msize m | None => 0 end.

(** [hashmap_iterate]: the callback [f] reads and updates a state [S] of its own. *)
Section Iterate.
Context {S : Type} (f : S -> any_t -> any_t -> S * Z) (item : any_t).

Fixpoint iterate_loop (es : list hashmap_element) (s : S) : S * Z :=
  match es with
  | [] => (s, MAP_OK)
  | e :: es' =>
      if negb (in_use e =? 0) then
        let '(s', status) := f s item (data e) in
        if status =? MAP_OK then iterate_loop es' s' else (s', status)
      else iterate_loop es' s
  end.

Definition hashmap_iterate (m : hashmap_map) (s : S) : S * Z :=
  if hashmap_length (Some m) <=? 0 then (s, MAP_MISSING)
  else iterate_loop (mdata m) s.
End Iterate.

(** ** Invariant and abstraction *)

Definition used (e : hashmap_element) (k : cstring) (v : any_t) : Prop :=
  in_use e = 1 /\ key e = Some k /\ data e = v.

#[export] Instance used_dec e k v : Decision (used e k v).
Proof. unfold used. solve_decision. Defined.

(** Slot number [i] of the probe sequence of [k]. *)
Definition slot (m : hashmap_map) (k : cstring) (i : nat) : Z :=
  (hashmap_hash_int (table_size m) k + Z.of_nat i) mod table_size m.

Definition busy (m : hashmap_map) (j : Z) : Prop :=
  exists e, zget (mdata m) j = Some e /\ in_use e = 1.

(** [key k is stored with value v in slot j]. *)
Definition at_slot (m : hashmap_map) (j : Z) (k : cstring) (v : any_t) : Prop :=
  exists e, zget (mdata m) j = Some e /\ used e k v.

(** The shape every operation keeps: the array has [table_size] elements, each is
    free or holds a string key that lies within the probe window of its hash, and no
    key is stored twice. *)
Record wf_weak (m : hashmap_map) : Prop := {
  wf_table : 8 <= table_size m < 2 ^ 31;
  wf_len : zlen (mdata m) = table_size m;
  wf_elem : forall j e, zget (mdata m) j = Some e ->
    in_use e = 0 \/ exists k i, in_use e = 1 /\ key e = Some k /\
      (i < MAX_CHAIN_LENGTH)%nat /\ j = slot m k i;
  wf_unique : forall j j' k v v', at_slot m j k v -> at_slot m j' k v' -> j = j'
}.

(** The put-only regime additionally has no hole in front of a stored key. *)
Record wf (m : hashmap_map) : Prop := {
  wf_is_weak :> wf_weak m;
  wf_chain : forall k i v, (i < MAX_CHAIN_LENGTH)%nat -> at_slot m (slot m k i) k v ->
    forall i', (i' < i)%nat -> busy m (slot m k i')
}.

(** The finite map a table stores. *)
Fixpoint contents_of (es : list hashmap_element) : gmap cstring any_t :=
  match es with
  | [] => ∅
  | e :: es' =>
      match key e with
      | Some k => if in_use e =? 1 then <[k := data e]> (contents_of es') else contents_of es'
      | None => contents_of es'
      end
  end.

Definition contents (m : hashmap_map) : gmap cstring any_t := contents_of (mdata m).

(** ** Slots *)

Section Slots.
Context (m : hashmap_map) (k : cstring) (HT : 0 < table_size m < 2 ^ 31).

Lemma slot_range i : 0 <= slot m k i < table_size m.
Proof. apply Z.mod_pos_bound. lia. Qed.

Lemma slot_0 : slot m k 0 = hashmap_hash_int (table_size m) k.
Proof.
  unfold slot. rewrite Z.add_0_r. apply Z.mod_small, hashmap_hash_int_range. lia.
Qed.

Lemma slot_S i : (slot m k i + 1) mod table_size m = slot m k (S i).
Proof.
  unfold slot. rewrite Zplus_mod_idemp_l. f_equal. lia.
Qed.
End Slots.

Lemma slot_inj m k i i' :
  8 <= table_size m < 2 ^ 31 -> (i < 8)%nat -> (i' < 8)%nat ->
  slot m k i = slot m k i' -> i = i'.
Proof.
  intros HT Hi Hi'. unfold slot. set (h := hashmap_hash_int _ _).
  intros E. assert (Ed : (Z.of_nat i - Z.of_nat i') mod table_size m = 0).
  { replace (Z.of_nat i - Z.of_nat i') with ((h + Z.of_nat i) - (h + Z.of_nat i')) by lia.
    rewrite Zminus_mod, E, Z.sub_diag. done. }
  apply Z.mod_divide in Ed as [q Hq]; [|lia]. assert (q = 0) by nia. lia.
Qed.

Lemma slot_table_size m m' k i : table_size m' = table_size m -> slot m' k i = slot m k i.
Proof. unfold slot. by intros ->. Qed.

Lemma busy_slot m i k : wf_weak m -> exists e, zget (mdata m) (slot m k i) = Some e.
Proof.
  intros H. apply zget_is_Some. rewrite (wf_len _ H). apply slot_range.
  pose proof (wf_table _ H). lia.
Qed.

(** A used element is at most one key and at least one. *)
Lemma wf_used m j e :
  wf_weak m -> zget (mdata m) j = Some e ->
  in_use e = 0 \/ (in_use e = 1 /\ exists k, key e = Some k /\ at_slot m j k (data e)).
Proof.
  intros H He. destruct (wf_elem _ H _ _ He) as [?|(k & i & Hu & Hk & ? & ->)]; [by left|].
  right. split; [done|]. exists k. split; [done|]. exists e. by repeat split.
Qed.

(** ** The abstraction agrees with the array *)

Lemma contents_of_sound es k v :
  contents_of es !! k = Some v -> exists j e, es !! j = Some e /\ used e k v.
Proof.
  induction es as [|e es IH]; simpl; [by rewrite lookup_empty|].
  assert (Hrec : contents_of es !! k = Some v ->
                 exists j e0, (e :: es) !! j = Some e0 /\ used e0 k v).
  { intros (j & e0 & ? & ?)%IH. by exists (S j), e0. }
  destruct (key e) as [k'|] eqn:Ek; [|done]. case_test; [|done].
  destruct (decide (k' = k)) as [->|]; [|by rewrite lookup_insert_ne].
  rewrite lookup_insert_eq. intros [= <-]. by exists 0%nat, e.
Qed.

Lemma contents_of_complete es j e k v :
  es !! j = Some e -> used e k v -> is_Some (contents_of es !! k).
Proof.
  intros Hj (Hu & Hk & Hv). revert j Hj. induction es as [|e' es IH]; intros j Hj; [done|].
  destruct j as [|j]; simpl in *; simplify_eq.
  - rewrite Hk, Hu. simpl. by rewrite lookup_insert_eq.
  - specialize (IH _ Hj). destruct (key e') as [k'|]; [|done]. case_test; [|done].
    rewrite lookup_insert. by case_decide.
Qed.

Lemma at_slot_nat m j k v : at_slot m j k v <-> exists n e, j = Z.of_nat n /\ mdata m !! n = Some e /\ used e k v.
Proof.
  split.
  - intros (e & He & Hu). pose proof (zget_Some_range _ _ _ He).
    exists (Z.to_nat j), e. split; [lia|]. split; [|done].
    rewrite <- zget_lookup, Z2Nat.id by lia. done.
  - intros (n & e & -> & He & Hu). exists e. by rewrite zget_lookup.
Qed.

Lemma contents_lookup m k v :
  wf_weak m -> contents m !! k = Some v <-> exists j, at_slot m j k v.
Proof.
  intros H. split.
  - intros (n & e & Hn & Hu)%contents_of_sound. exists (Z.of_nat n).
    apply at_slot_nat. by exists n, e.
  - intros (j & Hj). pose proof Hj as (n & e & -> & He & Hu)%at_slot_nat.
    destruct (contents_of_complete _ _ _ _ _ He Hu) as [v' Hv'].
    pose proof (contents_of_sound _ _ _ Hv') as (n' & e' & He' & Hu').
    assert (Hj' : at_slot m (Z.of_nat n') k v') by (apply at_slot_nat; by exists n', e').
    pose proof (wf_unique _ H _ _ _ _ _ Hj Hj') as Hnn. apply Nat2Z.inj in Hnn. subst n'.
    rewrite He in He'. simplify_eq. destruct Hu as (_&_&<-), Hu' as (_&_&<-). done.
Qed.

(** ** Probing *)

(** What the three probe loops look at in a well-formed table. *)
Lemma hit_spec m j e k :
  wf_weak m -> zget (mdata m) j = Some e ->
  (if in_use e =? 1 then key_is e k else Some false) = Some (bool_decide (used e k (data e))).
Proof.
  intros H He. unfold key_is.
  destruct (wf_used _ _ _ H He) as [Hu|(Hu & k' & Hk & _)]; rewrite Hu; simpl.
  - f_equal. symmetry. apply bool_decide_eq_false_2. intros (?&_). lia.
  - rewrite Hk. simpl. f_equal. apply bool_decide_ext. unfold used. naive_solver.
Qed.

(** [hash_loop] from slot [i]: it returns the first slot that is free or holds [k],
    and every slot it skipped holds another key. *)
Lemma hash_loop_spec m k n i :
  wf_weak m ->
  exists r, hash_loop n m k (slot m k i) = Some r /\
    (r = MAP_FULL \/
     exists i', (i <= i' < i + n)%nat /\ r = slot m k i' /\
       (busy m r -> exists v, at_slot m r k v) /\
       (forall i'', (i <= i'' < i')%nat ->
          busy m (slot m k i'') /\ forall v, ~ at_slot m (slot m k i'') k v)).
Proof.
  intros H. revert i. induction n as [|n IH]; intros i; cbn [hash_loop].
  { exists MAP_FULL. auto. }
  destruct (busy_slot m i k H) as [e He]. rewrite He. simpl.
  assert (HT := wf_table _ H).
  destruct (Z.eqb_spec (in_use e) 0) as [Hu|Hu].
  { exists (slot m k i). split; [done|]. right. exists i.
    split; [lia|]. split; [done|]. split; [|lia].
    intros (e' & He' & Hu'). rewrite He in He'. simplify_eq. congruence. }
  rewrite (hit_spec m _ e k H He). simpl. case_bool_decide as Hused.
  { exists (slot m k i). split; [done|]. right. exists i.
    split; [lia|]. split; [done|]. split; [|lia].
    intros _. exists (data e). by exists e. }
  rewrite slot_S by lia. destruct (IH (S i)) as (r & Hr & Hcase). exists r. split; [done|].
  destruct Hcase as [?|(i' & Hi' & Hri & Hbusy & Hskip)]; [by left|]. right. exists i'.
  split; [lia|]. split; [done|]. split; [done|]. intros i'' Hi''.
  destruct (decide (i'' = i)) as [->|]; [|apply Hskip; lia].
  destruct (wf_used _ _ _ H He) as [?|(Hu1 & _)]; [done|]. split; [by exists e|].
  intros v (e' & He' & Hu'). rewrite He in He'. simplify_eq. destruct Hu' as (?&?&<-).
  by apply Hused.
Qed.

(** The lookup loops: [get_loop] finds the key iff one of the probed slots has it. *)
Lemma get_loop_spec m k n i :
  wf_weak m ->
  (exists i' v, (i <= i' < i + n)%nat /\ at_slot m (slot m k i') k v /\
     get_loop n m k (slot m k i) = Some (MAP_OK, v)) \/
  ((forall i' v, (i <= i' < i + n)%nat -> ~ at_slot m (slot m k i') k v) /\
     get_loop n m k (slot m k i) = Some (MAP_MISSING, 0)).
Proof.
  intros H. revert i. induction n as [|n IH]; intros i; cbn [get_loop].
  { right. split; [lia|done]. }
  destruct (busy_slot m i k H) as [e He]. rewrite He. cbn.
  rewrite (hit_spec m _ e k H He). cbn. case_bool_decide as Hused.
  { left. exists i, (data e). split; [lia|]. split; [by exists e|done]. }
  pose proof (wf_table _ H). rewrite slot_S by lia.
  destruct (IH (S i)) as [(i' & v & Hi' & Hat & Hget)|[Hnot Hget]].
  { left. exists i', v. split; [lia|]. done. }
  right. split; [|done]. intros i' v Hi' Hat. destruct (decide (i' = i)) as [->|].
  - destruct Hat as (e' & He' & Hu). rewrite He in He'. simplify_eq.
    apply Hused. by destruct Hu as (?&?&<-).
  - eapply (Hnot i'); eauto. lia.
Qed.

(** A stored key lies in its probe window. *)
Lemma at_slot_window m j k v :
  wf_weak m -> at_slot m j k v -> exists i, (i < MAX_CHAIN_LENGTH)%nat /\ j = slot m k i.
Proof.
  intros H (e & He & Hu & Hk & Hv).
  destruct (wf_elem _ H _ _ He) as [?|(k' & i & _ & Hk' & Hi & ->)]; [lia|].
  simplify_eq. eauto.
Qed.

Lemma get_spec m k :
  wf_weak m ->
  hashmap_get m k = Some (match contents m !! k with
                          | Some v => (MAP_OK, v)
                          | None => (MAP_MISSING, 0)
                          end).
Proof.
  intros H. unfold hashmap_get. rewrite <- slot_0 by (pose proof (wf_table _ H); lia).
  destruct (get_loop_spec m k MAX_CHAIN_LENGTH 0 H) as [(i & v & Hi & Hat & ->)|[Hno ->]].
  - assert (contents m !! k = Some v) as -> by (apply contents_lookup; eauto). done.
  - destruct (contents m !! k) as [v|] eqn:E; [|done].
    apply contents_lookup in E as (j & Hj); [|done].
    destruct (at_slot_window _ _ _ _ H Hj) as (i & Hi & ->). by apply Hno in Hj; [|lia].
Qed.

(** ** Storing at the slot found by probing *)

Lemma at_slot_store m j k v s d' j0 k0 v0 :
  zset (mdata m) j (Elem (Some k) 1 v) = Some d' ->
  at_slot (Map (table_size m) s d') j0 k0 v0 <->
  (j0 = j /\ k0 = k /\ v0 = v) \/ (j0 <> j /\ at_slot m j0 k0 v0).
Proof.
  intros Hs. unfold at_slot, used. simpl. rewrite (zget_zset _ _ j0 _ _ Hs).
  case_decide as Hj; [subst j0|]; naive_solver.
Qed.

(** Putting [k] in the first free or matching slot of its probe sequence. *)
Section Store.
Context (m : hashmap_map) (k : cstring) (v s : any_t) (i : nat) (d' : list hashmap_element).
Context (Hwf : wf m) (Hi : (i < MAX_CHAIN_LENGTH)%nat).
Context (Hset : zset (mdata m) (slot m k i) (Elem (Some k) 1 v) = Some d').
Context (Hmine : busy m (slot m k i) -> exists v', at_slot m (slot m k i) k v').
Context (Hskip : forall i', (i' < i)%nat ->
           busy m (slot m k i') /\ forall v', ~ at_slot m (slot m k i') k v').

Let m' := Map (table_size m) s d'.

(** No other slot held [k] before. *)
Lemma store_fresh j v' : j <> slot m k i -> ~ at_slot m j k v'.
Proof.
  intros Hj Hat. destruct (at_slot_window _ _ _ _ Hwf Hat) as (i' & Hi' & ->).
  destruct (Nat.lt_trichotomy i' i) as [Hlt|[->|Hgt]]; [|done|].
  - by destruct (Hskip i' Hlt) as [_ ?%(fun H => H v')].
  - destruct (wf_chain _ Hwf k i' v' Hi' Hat i Hgt) as (e & He & Hu).
    destruct Hmine as [v'' Hv'']; [by exists e|].
    by apply Hj, (wf_unique _ Hwf _ _ _ _ _ Hat Hv'').
Qed.

Lemma store_at j0 k0 v0 :
  at_slot m' j0 k0 v0 <->
  (j0 = slot m k i /\ k0 = k /\ v0 = v) \/ (j0 <> slot m k i /\ k0 <> k /\ at_slot m j0 k0 v0).
Proof.
  unfold m'. rewrite (at_slot_store _ _ _ _ _ _ _ _ _ Hset).
  split; [|naive_solver]. intros [?|[Hne Hat]]; [by left|right].
  split; [done|]. split; [|done]. intros ->. by eapply store_fresh.
Qed.

Lemma store_busy j : busy m j -> busy m' j.
Proof.
  intros (e & He & Hu). unfold busy. simpl. rewrite (zget_zset _ _ j _ _ Hset).
  case_decide; [by eexists|by exists e].
Qed.

(** A different key is not displaced by the store. *)
Lemma store_other j0 k0 v0 : k0 <> k -> at_slot m j0 k0 v0 -> j0 <> slot m k i.
Proof.
  intros Hk Hat ->. pose proof Hat as (e & He & Hu & Hk0 & _).
  destruct Hmine as [v' (e' & He' & _ & Hk' & _)]; [by exists e|]. congruence.
Qed.

Lemma store_wf : wf m'.
Proof.
  assert (HT : table_size m' = table_size m) by done.
  split; [split|].
  - apply (wf_table _ Hwf).
  - simpl. rewrite (zset_length _ _ _ _ Hset). apply (wf_len _ Hwf).
  - intros j e. simpl. rewrite (zget_zset _ _ j _ _ Hset). case_decide as Hj.
    + intros [= <-]. right. exists k, i. by repeat split.
    + apply (wf_elem _ Hwf).
  - intros j j' k0 v0 v0'. rewrite !store_at.
    intros [(->&->&->)|(?&?&?)] [(->&?&->)|(?&?&?)]; try done.
    by eapply (wf_unique _ Hwf).
  - intros k0 i0 v0 Hi0. rewrite (slot_table_size _ _ _ _ HT), store_at.
    intros Hcase i' Hi'. rewrite (slot_table_size _ _ _ _ HT). apply store_busy.
    destruct Hcase as [(Hs & -> & _)|(_ & _ & Hat)]; [|by eapply (wf_chain _ Hwf)].
    apply slot_inj in Hs; [subst i0; by apply Hskip|apply (wf_table _ Hwf)|done|done].
Qed.

Lemma store_contents : contents m' = <[k := v]> (contents m).
Proof.
  apply map_eq. intros k0. apply option_eq. intros v0.
  rewrite (contents_lookup m') by apply store_wf. setoid_rewrite store_at.
  rewrite lookup_insert_Some, contents_lookup by apply Hwf. split.
  - intros (j & [(->&->&->)|(?&?&?)]); [by left|right]. eauto.
  - intros [[-> ->]|[Hne [j Hj]]]; [eauto|].
    exists j. right. split; [by eapply store_other|]. done.
Qed.
End Store.

(** ** The empty table *)

Lemma zget_calloc n j e : zget (calloc_elems n) j = Some e -> e = elem0.
Proof.
  unfold zget, calloc_elems. case_test; [done|]. by intros [-> _]%lookup_replicate_1.
Qed.

Lemma empty_wf T : 8 <= T < 2 ^ 31 -> wf (Map T 0 (calloc_elems T)).
Proof.
  intros HT.
  assert (Hno : forall j k v, ~ at_slot (Map T 0 (calloc_elems T)) j k v).
  { intros j k v (e & ->%zget_calloc & Hu & _). done. }
  split; [split|]; simpl.
  - done.
  - unfold calloc_elems. rewrite length_replicate. lia.
  - intros j e ->%zget_calloc. by left.
  - by intros j j' k v v' ?%Hno.
  - by intros k i v _ ?%Hno.
Qed.

Lemma contents_calloc T s n : contents (Map T s (calloc_elems n)) = ∅.
Proof.
  unfold contents, calloc_elems. simpl. by induction (Z.to_nat n) as [|i IH]; simpl.
Qed.

(** ** [hashmap_put] and [hashmap_rehash] as operations on finite maps *)

Definition put_ok (put : hashmap_map -> cstring -> any_t -> option (Z * hashmap_map)) : Prop :=
  (forall m k v st m', put m k v = Some (st, m') -> st = MAP_OK \/ st = MAP_OMEM) /\
  (forall m k v m', wf m -> put m k v = Some (MAP_OK, m') ->
     wf m' /\ contents m' = <[k := v]> (contents m)).

(** The shape of an array to be rehashed. *)
Definition elems_ok (es : list hashmap_element) : Prop :=
  (forall i e, es !! i = Some e -> in_use e = 0 \/ exists k, used e k (data e)) /\
  (forall i j e e' k v v', es !! i = Some e -> es !! j = Some e' ->
     used e k v -> used e' k v' -> i = j).

Lemma elems_ok_cons e es : elems_ok (e :: es) -> elems_ok es.
Proof.
  intros [H1 H2]. split.
  - intros i e' He. by apply (H1 (S i)).
  - intros i j e1 e2 k v v' Hi Hj Hu Hu'.
    assert (S i = S j) by by eapply (H2 (S i) (S j)). lia.
Qed.

Lemma elems_ok_head e es k v : elems_ok (e :: es) -> used e k v -> contents_of es !! k = None.
Proof.
  intros [_ H] Hu. apply eq_None_not_Some. intros [v' (j & e' & Hj & Hu')%contents_of_sound].
  by assert (0%nat = S j) by by eapply (H 0%nat (S j)).
Qed.

Lemma wf_elems_ok m : wf_weak m -> elems_ok (mdata m).
Proof.
  intros H. split.
  - intros i e He. rewrite <- zget_lookup in He.
    destruct (wf_used _ _ _ H He) as [?|(?&k&?&_)]; [by left|]. right. by exists k.
  - intros i j e e' k v v' Hi Hj Hu Hu'. apply Nat2Z.inj.
    eapply (wf_unique _ H); [exists e|exists e']; rewrite zget_lookup; eauto.
Qed.

Lemma rehash_loop_status put es m st m' :
  put_ok put -> rehash_loop put es m = Some (st, m') -> st = MAP_OK \/ st = MAP_OMEM.
Proof.
  intros [Hst _]. revert m. induction es as [|e es IH]; intros m; cbn [rehash_loop].
  { intros [= <- <-]. by left. }
  destruct (in_use e =? 0); [apply IH|].
  intros (k & Hk & H)%bind_Some. apply bind_Some in H as ([st1 m1] & Hput & H).
  destruct (Z.eqb_spec st1 MAP_OK); [by eapply IH|]. simplify_eq. by eapply Hst.
Qed.

Lemma rehash_loop_contents put es m m' :
  put_ok put -> elems_ok es -> wf m -> rehash_loop put es m = Some (MAP_OK, m') ->
  wf m' /\ contents m' = contents_of es ∪ contents m.
Proof.
  intros [Hst Hput] Hes Hwf. revert m Hes Hwf.
  induction es as [|e es IH]; intros m Hes Hwf; cbn [rehash_loop contents_of].
  { intros [= <-]. by rewrite (left_id_L ∅ (∪)). }
  pose proof (elems_ok_cons _ _ Hes) as Hes'.
  destruct (proj1 Hes 0%nat e eq_refl) as [Hu|[k Hused]].
  - rewrite Hu. simpl. intros H. destruct (IH _ Hes' Hwf H) as [? ->]. split; [done|].
    by destruct (key e).
  - pose proof Hused as (Hu & Hk & _). rewrite Hu, Hk. simpl.
    intros ([st1 m1] & Hp & H)%bind_Some.
    destruct (Z.eqb_spec st1 MAP_OK) as [->|]; [|congruence].
    destruct (Hput _ _ _ _ Hwf Hp) as [Hwf1 Hc1].
    destruct (IH _ Hes' Hwf1 H) as [? ->]. split; [done|].
    rewrite Hc1, <- insert_union_l, insert_union_r; [done|]. by eapply elems_ok_head.
Qed.

Lemma rehash_with_ok put calloc_ok m m' :
  put_ok put -> wf_weak m -> rehash_with put calloc_ok m = Some (MAP_OK, m') ->
  wf m' /\ contents m' = contents m.
Proof.
  intros Hput Hwf. unfold rehash_with. case_test; [done|]. case_test; [done|]. intros H.
  assert (Hnew : wf (Map (2 * table_size m) 0 (calloc_elems (2 * table_size m))))
    by (apply empty_wf; pose proof (wf_table _ Hwf); lia).
  destruct (rehash_loop_contents _ _ _ _ Hput (wf_elems_ok _ Hwf) Hnew H) as [? ->].
  split; [done|]. by rewrite contents_calloc, (right_id_L ∅ (∪)).
Qed.

(** The slot [hashmap_hash] returns is the one [Store] assumes. *)
Lemma hashmap_hash_spec m k :
  wf_weak m -> exists r, hashmap_hash m k = Some r /\
    (r = MAP_FULL \/
     (msize m < table_size m / 2 /\
      exists i, (i < MAX_CHAIN_LENGTH)%nat /\ r = slot m k i /\
       (busy m r -> exists v, at_slot m r k v) /\
       (forall i', (i' < i)%nat ->
          busy m (slot m k i') /\ forall v, ~ at_slot m (slot m k i') k v))).
Proof.
  intros H. unfold hashmap_hash. case_test; [by eauto|].
  rewrite <- slot_0 by (pose proof (wf_table _ H); lia).
  destruct (hash_loop_spec m k MAX_CHAIN_LENGTH 0 H) as (r & -> & Hr). exists r.
  split; [done|]. destruct Hr as [?|(i & Hi & -> & Hb & Hs)]; [by left|right].
  split; [done|]. exists i. repeat split; try lia; try done; intros; apply Hs; lia.
Qed.

Lemma slot_not_full m k i : 8 <= table_size m < 2 ^ 31 -> (slot m k i =? MAP_FULL) = false.
Proof.
  intros HT. apply Z.eqb_neq. unfold MAP_FULL.
  pose proof (slot_range m k ltac:(lia) i). lia.
Qed.

Lemma put_spec calloc_ok fuel : put_ok (hashmap_put calloc_ok fuel).
Proof.
  induction fuel as [|fuel IH]; split.
  - intros m k v st m'. cbn [hashmap_put]. intros (r & _ & H)%bind_Some.
    case_test; [done|]. apply bind_Some in H as (d & _ & [= <- <-]). by left.
  - intros m k v m' Hwf. cbn [hashmap_put].
    destruct (hashmap_hash_spec m k Hwf) as (r & -> & Hr). cbn. case_test; [done|].
    intros (d & Hd & [= <-])%bind_Some.
    destruct Hr as [->|(_ & i & Hi & -> & Hb & Hs)]; [done|].
    split; [by eapply store_wf|by eapply store_contents].
  - intros m k v st m'. cbn [hashmap_put]. intros (r & _ & H)%bind_Some. case_test.
    + apply bind_Some in H as ([st1 m1] & _ & H). case_test; [|by eapply IH].
      simplify_eq. by right.
    + apply bind_Some in H as (d & _ & [= <- <-]). by left.
  - intros m k v m' Hwf. cbn [hashmap_put].
    destruct (hashmap_hash_spec m k Hwf) as (r & -> & Hr). cbn. case_test.
    + intros ([st1 m1] & Hre & H)%bind_Some. case_test; [done|].
      assert (st1 = MAP_OK) as ->.
      { unfold rehash_with in Hre. case_test; [done|]. case_test; [by simplify_eq|].
        by destruct (rehash_loop_status _ _ _ _ _ IH Hre). }
      destruct (rehash_with_ok _ _ _ _ IH Hwf Hre) as [Hwf1 Hc1].
      destruct (proj2 IH _ _ _ _ Hwf1 H) as [? ->]. by rewrite Hc1.
    + intros (d & Hd & [= <-])%bind_Some.
      destruct Hr as [->|(_ & i & Hi & -> & Hb & Hs)]; [done|].
      split; [by eapply store_wf|by eapply store_contents].
Qed.

(** ** Totality: no undefined behaviour and enough fuel

    [calloc] refuses tables of [limit] elements or more; every rehash doubles the
    table, so [fuel] rehashes deep is enough once [table_size * 2^fuel] is twice the
    limit. *)
Section Total.
Context (calloc_ok : Z -> bool) (limit : Z).
Context (Hcalloc : forall n, calloc_ok n = true -> n < limit) (Hlimit : limit <= 2 ^ 30).

Definition total_at (fuel : nat) (run : option (Z * hashmap_map)) (T : Z) : Prop :=
  exists st m', run = Some (st, m') /\ (st = MAP_OK -> T <= table_size m' < limit).

Lemma rehash_loop_total fuel :
  (forall m k v, wf m -> table_size m < limit -> 2 * limit <= table_size m * 2 ^ Z.of_nat fuel ->
     total_at fuel (hashmap_put calloc_ok fuel m k v) (table_size m)) ->
  forall es m, elems_ok es -> wf m -> table_size m < limit ->
    2 * limit <= table_size m * 2 ^ Z.of_nat fuel ->
    total_at fuel (rehash_loop (hashmap_put calloc_ok fuel) es m) (table_size m).
Proof.
  intros Hput es. induction es as [|e es IH]; intros m Hes Hwf HT Hf; cbn [rehash_loop].
  { exists MAP_OK, m. split; [done|]. lia. }
  pose proof (elems_ok_cons _ _ Hes) as Hes'.
  destruct (proj1 Hes 0%nat e eq_refl) as [Hu|[k Hused]].
  { rewrite Hu. simpl. by apply IH. }
  pose proof Hused as (Hu & Hk & _). rewrite Hu, Hk. simpl.
  destruct (Hput m k (data e) Hwf HT Hf) as (st & m1 & Hp & HT1). rewrite Hp. simpl.
  destruct (Z.eqb_spec st MAP_OK) as [->|]; [|exists st, m1; by split].
  destruct (HT1 eq_refl) as [Hle Hlt].
  destruct (proj2 (put_spec calloc_ok fuel) _ _ _ _ Hwf Hp) as [Hwf1 _].
  destruct (IH m1 Hes' Hwf1 Hlt) as (st2 & m2 & -> & HT2).
  { pose proof (pow2_pos (Z.of_nat fuel)). nia. }
  exists st2, m2. split; [done|]. intros ?%HT2. lia.
Qed.

Lemma put_total fuel m k v :
  wf m -> table_size m < limit -> 2 * limit <= table_size m * 2 ^ Z.of_nat fuel ->
  total_at fuel (hashmap_put calloc_ok fuel m k v) (table_size m).
Proof.
  revert m k v. induction fuel as [|fuel IH]; intros m k v Hwf HT Hf.
  { exfalso. pose proof (wf_table _ Hwf). simpl in Hf. lia. }
  cbn [hashmap_put]. pose proof (wf_table _ Hwf) as HT0.
  destruct (hashmap_hash_spec m k Hwf) as (r & -> & Hr). cbn.
  destruct Hr as [->|(_ & i & Hi & -> & _ & _)].
  - rewrite Z.eqb_refl. unfold rehash_with.
    destruct (Z.leb_spec (2 ^ 31) (2 * table_size m)); [lia|].
    destruct (calloc_ok (2 * table_size m)) eqn:Ec; simpl;
      [|exists MAP_OMEM, m; by split].
    apply Hcalloc in Ec.
    assert (Hf' : 2 * limit <= 2 * table_size m * 2 ^ Z.of_nat fuel).
    { rewrite Nat2Z.inj_succ, Z.pow_succ_r in Hf by lia. lia. }
    destruct (rehash_loop_total fuel IH (mdata m)
                (Map (2 * table_size m) 0 (calloc_elems (2 * table_size m)))
                (wf_elems_ok _ Hwf)) as (st & m1 & Hre & HT1);
      [apply empty_wf; lia|simpl; lia|simpl; lia|].
    rewrite Hre. simpl. case_test; [exists MAP_OMEM, m1; by split|].
    destruct (rehash_loop_status _ _ _ _ _ (put_spec calloc_ok fuel) Hre) as [->|]; [|done].
    destruct (HT1 eq_refl) as [Hle Hlt]. simpl in Hle.
    edestruct rehash_loop_contents as [Hwf1 _];
      [apply (put_spec calloc_ok fuel)|apply (wf_elems_ok _ Hwf)|apply empty_wf|exact Hre|]; [lia|].
    destruct (IH m1 k v Hwf1 Hlt) as (st2 & m2 & -> & HT2).
    { pose proof (pow2_pos (Z.of_nat fuel)). nia. }
    exists st2, m2. split; [done|]. intros ?%HT2. lia.
  - rewrite slot_not_full by done.
    rewrite zset_is_Some; [|rewrite (wf_len _ Hwf); apply slot_range; lia].
    simpl. eexists _, _. split; [done|]. simpl. lia.
Qed.
End Total.

(** ** Removal *)

Lemma remove_loop_spec m k n i :
  wf_weak m ->
  (exists i' v d', (i <= i' < i + n)%nat /\ at_slot m (slot m k i') k v /\
     zset (mdata m) (slot m k i') elem0 = Some d' /\
     remove_loop n m k (slot m k i) = Some (MAP_OK, Map (table_size m) (msize m - 1) d')) \/
  ((forall i' v, (i <= i' < i + n)%nat -> ~ at_slot m (slot m k i') k v) /\
     remove_loop n m k (slot m k i) = Some (MAP_MISSING, m)).
Proof.
  intros H. revert i. induction n as [|n IH]; intros i; cbn [remove_loop].
  { right. split; [lia|done]. }
  destruct (busy_slot m i k H) as [e He]. rewrite He. cbn.
  rewrite (hit_spec m _ e k H He). cbn. case_bool_decide as Hused.
  { pose proof (zget_Some_range _ _ _ He) as Hr.
    left. exists i, (data e), (<[Z.to_nat (slot m k i) := elem0]> (mdata m)).
    split; [lia|]. split; [by exists e|]. by rewrite !zset_is_Some. }
  pose proof (wf_table _ H). rewrite slot_S by lia.
  destruct (IH (S i)) as [(i' & v & d' & Hi' & ?)|[Hnot Hget]].
  { left. exists i', v, d'. split; [lia|]. done. }
  right. split; [|done]. intros i' v Hi' Hat. destruct (decide (i' = i)) as [->|].
  - destruct Hat as (e' & He' & Hu). rewrite He in He'. simplify_eq.
    apply Hused. by destruct Hu as (?&?&<-).
  - eapply (Hnot i'); eauto. lia.
Qed.

(** Blanking the slot of [k] keeps the weak invariant and deletes [k]. *)
Lemma blank_spec m j k v s d' :
  wf_weak m -> at_slot m j k v -> zset (mdata m) j elem0 = Some d' ->
  wf_weak (Map (table_size m) s d') /\
  contents (Map (table_size m) s d') = delete k (contents m).
Proof.
  intros H Hat Hset.
  assert (Hslot : forall j0 k0 v0, at_slot (Map (table_size m) s d') j0 k0 v0 <->
                    j0 <> j /\ at_slot m j0 k0 v0).
  { intros j0 k0 v0. unfold at_slot. simpl. rewrite (zget_zset _ _ j0 _ _ Hset).
    case_decide as Hj; [|naive_solver]. subst. split; [|naive_solver].
    intros (e & [= <-] & Hu & _). done. }
  assert (Hwf' : wf_weak (Map (table_size m) s d')).
  { split; simpl.
    - apply (wf_table _ H).
    - rewrite (zset_length _ _ _ _ Hset). apply (wf_len _ H).
    - intros j0 e. rewrite (zget_zset _ _ j0 _ _ Hset). case_decide.
      + intros [= <-]. by left.
      + apply (wf_elem _ H).
    - intros j0 j1 k0 v0 v1 [_ ?]%Hslot [_ ?]%Hslot. by eapply (wf_unique _ H). }
  split; [done|]. apply map_eq. intros k0. apply option_eq. intros v0.
  rewrite (contents_lookup _ _ _ Hwf'), lookup_delete_Some, (contents_lookup _ _ _ H).
  setoid_rewrite Hslot. split.
  - intros (j0 & Hne & Hat0). split; [|eauto]. intros <-.
    by apply Hne, (wf_unique _ H _ _ _ _ _ Hat0 Hat).
  - intros (Hne & j0 & Hat0). exists j0. split; [|done]. intros ->.
    destruct Hat as (e & He & _ & Hk & _), Hat0 as (e0 & He0 & _ & Hk0 & _). congruence.
Qed.

(** ** Size accounting *)

Definition counted (m : hashmap_map) : Prop := Z.of_nat (size (contents m)) <= msize m.

Lemma size_insert_le (c : gmap cstring any_t) k v : (size (<[k := v]> c) <= S (size c))%nat.
Proof.
  destruct (c !! k) eqn:E; [rewrite map_size_insert_Some by eauto; lia|].
  by rewrite map_size_insert_None.
Qed.

Lemma rehash_loop_counted put es m m' :
  put_ok put ->
  (forall m k v m', wf m -> counted m -> put m k v = Some (MAP_OK, m') -> counted m') ->
  elems_ok es -> wf m -> counted m ->
  rehash_loop put es m = Some (MAP_OK, m') -> counted m'.
Proof.
  intros Hok Hc Hes Hwf Hm. revert m Hes Hwf Hm.
  induction es as [|e es IH]; intros m Hes Hwf Hm; cbn [rehash_loop]; [by intros [= <-]|].
  pose proof (elems_ok_cons _ _ Hes). case_test; [by apply IH|].
  intros (k & Hk & ([st1 m1] & Hp & H1)%bind_Some)%bind_Some.
  destruct (Z.eqb_spec st1 MAP_OK) as [->|]; [|congruence].
  destruct (proj2 Hok _ _ _ _ Hwf Hp). eapply IH; eauto.
Qed.

Lemma put_counted calloc_ok fuel m k v m' :
  wf m -> counted m -> hashmap_put calloc_ok fuel m k v = Some (MAP_OK, m') -> counted m'.
Proof.
  revert m k v m'. induction fuel as [|fuel IH]; intros m k v m' Hwf Hm H.
  all: pose proof (proj2 (put_spec _ _) _ _ _ _ Hwf H) as [_ Hc'];
    cbn [hashmap_put] in H; apply bind_Some in H as (r & Hr & H);
    destruct (Z.eqb_spec r MAP_FULL) as [->|Hne].
  2,4: apply bind_Some in H as (d & _ & [= <-]); unfold counted in *; rewrite Hc';
       simpl; pose proof (size_insert_le (contents m) k v); lia.
  - done.
  - apply bind_Some in H as ([st1 m1] & Hre & H). case_test; [done|].
    unfold rehash_with in Hre. do 2 (case_test; [by simplify_eq|]).
    pose proof (wf_table _ Hwf).
    assert (Hnew : wf (Map (2 * table_size m) 0 (calloc_elems (2 * table_size m))))
      by (apply empty_wf; lia).
    destruct (rehash_loop_status _ _ _ _ _ (put_spec calloc_ok fuel) Hre) as [->|]; [|done].
    destruct (rehash_loop_contents _ _ _ _ (put_spec calloc_ok fuel) (wf_elems_ok _ Hwf) Hnew Hre).
    eapply IH; [| |exact H]; [done|].
    eapply rehash_loop_counted; [apply put_spec|exact IH|apply (wf_elems_ok _ Hwf)| | |exact Hre].
    + done.
    + unfold counted. rewrite contents_calloc, map_size_empty. simpl. lia.
Qed.

Lemma put_load calloc_ok fuel m k v m' :
  hashmap_put calloc_ok fuel m k v = Some (MAP_OK, m') -> msize m' <= table_size m' / 2.
Proof.
  revert m k v m'. induction fuel as [|fuel IH]; intros m k v m' H; cbn [hashmap_put] in H;
    apply bind_Some in H as (r & Hr & H); destruct (Z.eqb_spec r MAP_FULL) as [->|Hne].
  2,4: apply bind_Some in H as (d & _ & [= <-]); simpl;
       unfold hashmap_hash in Hr; case_test; [congruence|lia].
  - done.
  - apply bind_Some in H as ([st1 m1] & _ & H). case_test; [done|]. by eapply IH.
Qed.

(** Iteration order: [hashmap_iterate] passes the values of the used slots in order. *)
Definition live_values (m : hashmap_map) : list any_t :=
  data <$> filter (fun e => in_use e <> 0) (mdata m).

(** ** Properties *)

(** C3: storing through [hashmap_put], including every rehash it triggers, is
    insertion into the finite map the table represents: the invariant is kept, the key is
    bound to the new value and no other binding changes. *)
Theorem hashmap_put_refines calloc_ok fuel m k v m' :
  wf m -> hashmap_put calloc_ok fuel m k v = Some (MAP_OK, m') ->
  wf m' /\ contents m' = <[k := v]> (contents m).
Proof. apply put_spec. Qed.

(** C39: [hashmap_put] terminates without undefined behaviour on every well-formed
    table, whatever the keys: if [calloc] refuses tables of [limit <= 2^30] elements,
    recursion depth [fuel] with [table_size * 2^fuel >= 2 * limit] is enough, and the result
    is MAP_OK or MAP_OMEM. *)
Theorem hashmap_put_total calloc_ok limit fuel m k v :
  (forall n, calloc_ok n = true -> n < limit) -> limit <= 2 ^ 30 ->
  wf m -> table_size m < limit -> 2 * limit <= table_size m * 2 ^ Z.of_nat fuel ->
  exists st m', hashmap_put calloc_ok fuel m k v = Some (st, m') /\ (st = MAP_OK \/ st = MAP_OMEM).
Proof.
  intros Hc Hl Hwf HT Hf.
  destruct (put_total calloc_ok limit Hc Hl fuel m k v Hwf HT Hf) as (st & m' & Hrun & _).
  exists st, m'. split; [done|]. by eapply (proj1 (put_spec calloc_ok fuel)).
Qed.

(** C10: [hashmap_get] is total on well-formed tables (also after removals) and
    returns exactly the binding of the represented map: MAP_OK and the value, or
    MAP_MISSING and NULL. *)
Theorem hashmap_get_correct m k :
  wf_weak m ->
  hashmap_get m k = Some (match contents m !! k with
                          | Some v => (MAP_OK, v)
                          | None => (MAP_MISSING, 0)
                          end).
Proof. apply get_spec. Qed.

(** [hashmap_remove] deletes the key from the represented map, answers
    MAP_MISSING and changes nothing when the key is absent, and leaves a table on which
    lookups are still exact. *)
Theorem hashmap_remove_correct m k :
  wf_weak m ->
  exists st m', hashmap_remove m k = Some (st, m') /\ wf_weak m' /\
    contents m' = delete k (contents m) /\
    st = (if decide (is_Some (contents m !! k)) then MAP_OK else MAP_MISSING) /\
    (st = MAP_MISSING -> m' = m).
Proof.
  intros H. unfold hashmap_remove. rewrite <- slot_0 by (pose proof (wf_table _ H); lia).
  destruct (remove_loop_spec m k MAX_CHAIN_LENGTH 0 H)
    as [(i & v & d' & Hi & Hat & Hset & ->)|[Hno ->]].
  - destruct (blank_spec _ _ _ _ (msize m - 1) _ H Hat Hset) as [Hwf' Hc].
    eexists _, _. split; [done|]. split; [done|]. split; [done|]. split; [|done].
    assert (contents m !! k = Some v) as -> by (apply contents_lookup; eauto).
    by rewrite decide_True by eauto.
  - assert (Hnone : contents m !! k = None).
    { apply eq_None_not_Some. intros [v Hv]. apply contents_lookup in Hv as [j Hj]; [|done].
      destruct (at_slot_window _ _ _ _ H Hj) as (i & Hi & ->). by apply Hno in Hj; [|lia]. }
    exists MAP_MISSING, m. rewrite Hnone, delete_id by done.
    by rewrite decide_False by apply is_Some_None.
Qed.

(** After a successful put, [hashmap_length] is at least the number of
    distinct keys and at most half the table, so the table is never more than half full. *)
Theorem hashmap_length_bounds calloc_ok fuel m k v m' :
  wf m -> counted m -> hashmap_put calloc_ok fuel m k v = Some (MAP_OK, m') ->
  Z.of_nat (size (contents m')) <= hashmap_length (Some m') <= table_size m' / 2.
Proof.
  intros Hwf Hm H. split; [by eapply put_counted|by eapply put_load].
Qed.

(** [hashmap_iterate] with a callback that always succeeds visits the value of
    every used slot exactly once, in index order, and returns MAP_OK. *)
Theorem hashmap_iterate_visits m (item : any_t) (seen : list any_t) :
  0 < hashmap_length (Some m) ->
  hashmap_iterate (fun s _ d => (s ++ [d], MAP_OK)) item m seen =
  (seen ++ live_values m, MAP_OK).
Proof.
  intros Hlen. unfold hashmap_iterate. case_test; [lia|]. clear.
  unfold live_values. revert seen. induction (mdata m) as [|e es IH]; intros seen; simpl.
  { by rewrite app_nil_r. }
  rewrite filter_cons. destruct (Z.eqb_spec (in_use e) 0) as [E|E]; simpl.
  - rewrite IH. by rewrite decide_False by (intros Hn; by apply Hn).
  - rewrite IH, decide_True by done. simpl. by rewrite <- app_assoc.
Qed.

(** ** Witnesses and behaviours worth knowing *)

Definition calloc_1M (n : Z) : bool := n <? 2 ^ 20.

Definition map0 : hashmap_map := Map INITIAL_SIZE 0 (calloc_elems INITIAL_SIZE).

Lemma map0_wf : wf map0.
Proof. apply empty_wf. unfold INITIAL_SIZE. lia. Defined.

Definition run_map (r : option (Z * hashmap_map)) : hashmap_map :=
  match r with Some (_, m) => m | None => map0 end.

(** Two keys with the same hash in a table of 256. *)
Definition key_ab : cstring := [97; 98].
Definition key_ar : cstring := [97; 114].

Definition map1 : hashmap_map := Eval vm_compute in run_map (hashmap_put calloc_1M 20 map0 key_ab 7).

Lemma map1_put : hashmap_put calloc_1M 20 map0 key_ab 7 = Some (MAP_OK, map1).
Proof. vm_compute. reflexivity. Qed.

Lemma hashmap_put_refines_witness : wf map1 /\ contents map1 = <[key_ab := 7]> (contents map0).
Proof. exact (hashmap_put_refines calloc_1M 20 map0 key_ab 7 map1 map0_wf map1_put). Defined.

Lemma calloc_1M_limit n : calloc_1M n = true -> n < 2 ^ 20.
Proof. unfold calloc_1M. apply Z.ltb_lt. Qed.

Lemma hashmap_put_total_witness :
  exists st m', hashmap_put calloc_1M 13 map0 key_ab 7 = Some (st, m') /\
    (st = MAP_OK \/ st = MAP_OMEM).
Proof.
  apply (hashmap_put_total calloc_1M (2 ^ 20) 13 map0 key_ab 7 calloc_1M_limit);
    [lia|exact map0_wf|simpl; unfold INITIAL_SIZE; lia|simpl; unfold INITIAL_SIZE; lia].
Defined.

Lemma map1_wf : wf map1.
Proof. exact (proj1 (proj2 (put_spec calloc_1M 20) _ _ _ _ map0_wf map1_put)). Qed.

Lemma hashmap_get_correct_witness : hashmap_get map1 key_ab = Some (MAP_OK, 7).
Proof.
  rewrite (hashmap_get_correct map1 key_ab map1_wf). vm_compute. reflexivity.
Defined.

Lemma hashmap_remove_correct_witness :
  exists st m', hashmap_remove map1 key_ab = Some (st, m') /\ wf_weak m' /\
    contents m' = delete key_ab (contents map1) /\
    st = (if decide (is_Some (contents map1 !! key_ab)) then MAP_OK else MAP_MISSING) /\
    (st = MAP_MISSING -> m' = map1).
Proof. exact (hashmap_remove_correct map1 key_ab map1_wf). Defined.

Lemma hashmap_length_bounds_witness :
  Z.of_nat (size (contents map1)) <= hashmap_length (Some map1) <= table_size map1 / 2.
Proof.
  apply (hashmap_length_bounds calloc_1M 20 map0 key_ab 7 map1 map0_wf); [|exact map1_put].
  unfold counted, map0. rewrite contents_calloc. done.
Defined.

Lemma hashmap_iterate_visits_witness :
  hashmap_iterate (fun s _ d => (s ++ [d], MAP_OK)) 0 map1 [] = ([7], MAP_OK).
Proof.
  rewrite (hashmap_iterate_visits map1 0 []); [vm_compute; reflexivity|vm_compute; reflexivity].
Defined.

(** Removing a key and storing a colliding one again leaves a second copy of
    the latter behind: with "ab" and "ar" hashing to the same slot, the sequence
    put ab, put ar 1, remove ab, put ar 2, remove ar leaves [hashmap_get ar] answering
    MAP_OK with the value 1 that was overwritten and removed. *)
Theorem hashmap_remove_stale :
  exists m1 m2 m3 m4 m5,
    hashmap_put calloc_1M 20 map0 key_ab 7 = Some (MAP_OK, m1) /\
    hashmap_put calloc_1M 20 m1 key_ar 1 = Some (MAP_OK, m2) /\
    hashmap_remove m2 key_ab = Some (MAP_OK, m3) /\
    hashmap_put calloc_1M 20 m3 key_ar 2 = Some (MAP_OK, m4) /\
    hashmap_remove m4 key_ar = Some (MAP_OK, m5) /\
    hashmap_get m5 key_ar = Some (MAP_OK, 1).
Proof.
  pose (m1 := run_map (hashmap_put calloc_1M 20 map0 key_ab 7)).
  pose (m2 := run_map (hashmap_put calloc_1M 20 m1 key_ar 1)).
  pose (m3 := run_map (hashmap_remove m2 key_ab)).
  pose (m4 := run_map (hashmap_put calloc_1M 20 m3 key_ar 2)).
  pose (m5 := run_map (hashmap_remove m4 key_ar)).
  exists m1, m2, m3, m4, m5. repeat split; vm_compute; reflexivity.
Qed.

(** [hashmap_put] counts an overwrite as a new element: storing the same key
    twice in an empty map gives length 2 although one key is stored. *)
Theorem hashmap_length_overcounts :
  exists m1 m2,
    hashmap_put calloc_1M 20 map0 key_ab 7 = Some (MAP_OK, m1) /\
    hashmap_put calloc_1M 20 m1 key_ab 8 = Some (MAP_OK, m2) /\
    hashmap_length (Some m2) = 2 /\ size (contents m2) = 1%nat.
Proof.
  pose (m1 := run_map (hashmap_put calloc_1M 20 map0 key_ab 7)).
  pose (m2 := run_map (hashmap_put calloc_1M 20 m1 key_ab 8)).
  exists m1, m2. repeat split; vm_compute; reflexivity.
Qed.
