(* ===== verification/Pktgen.v ===== *)
(** * Pktgen: the packet generator's IPv4/UDP headers

    Models [copy_buf_to_pkt_segs], [copy_buf_to_pkt], [setup_pkt_udp_ip_headers]
    and [tx_pkt_setup] of [test_dpdk/basic_forward/pktgen.c].  The header records have
    the fields the code assigns; the checksum code reads the IPv4 header as ten 16-bit words
    of the wire layout, little endian as on x86.  DPDK's [rte_cpu_to_be_16]/[_32] are not part
    of the repository: they are parameters that return a value of their width. *)
From Stdlib Require Import ZArith Lia Bool.
From S2P Require Import Prelude.
Open Scope Z_scope.

(** ** Header setup *)

Record rte_udp_hdr := UdpHdr {
  src_port : Z; dst_port : Z; dgram_len : Z; dgram_cksum : Z
}.

Record rte_ipv4_hdr := Ipv4Hdr {
  version_ihl : Z; type_of_service : Z; total_length : Z; packet_id : Z;
  fragment_offset : Z; time_to_live : Z; next_proto_id : Z; hdr_checksum : Z;
  src_addr : Z; dst_addr : Z
}.

Definition IPPROTO_UDP : Z := 17.
Definition IP_DEFTTL : Z := 64.
Definition IP_VERSION : Z := 0x40.
Definition IP_HDRLEN : Z := 0x05.
Definition IP_VHL_DEF : Z := Z.lor IP_VERSION IP_HDRLEN.

Definition sizeof_rte_udp_hdr : Z := 8.
Definition sizeof_rte_ipv4_hdr : Z := 20.
Definition sizeof_rte_ether_hdr : Z := 14.

(** [RTE_CPU_TO_BE_16] of pktgen.h. *)
Definition RTE_CPU_TO_BE_16 (v : Z) : Z :=
  u16 (Z.lor (Z.shiftl (Z.land v 0xFF) 8) (Z.shiftr v 8)).

(** [ptr16[0] .. ptr16[9]]: the header in memory, as little-endian 16-bit words. *)
Definition ptr16 (h : rte_ipv4_hdr) : list Z :=
  [version_ihl h + 256 * type_of_service h; total_length h; packet_id h;
   fragment_offset h; time_to_live h + 256 * next_proto_id h; hdr_checksum h;
   src_addr h mod 2 ^ 16; src_addr h / 2 ^ 16;
   dst_addr h mod 2 ^ 16; dst_addr h / 2 ^ 16].

(** The sum over words 0-4 and 6-9, reduced to 16 bits and complemented. *)
Definition ip_cksum_sum (w : list Z) : Z :=
  match w with
  | [w0; w1; w2; w3; w4; _; w6; w7; w8; w9] =>
      fold_left (fun s x => u32 (s + x)) [w0; w1; w2; w3; w4; w6; w7; w8; w9] 0
  | _ => 0
  end.

Definition ip_cksum_reduce (s : Z) : Z :=
  let c := u32 (Z.shiftr (Z.land s 0xFFFF0000) 16 + Z.land s 0x0000FFFF) in
  let c := if 65535 <? c then u32 (c - 65535) else c in
  let c := Z.land (lnotw 32 c) 0x0000FFFF in
  let c := if c =? 0 then 0xFFFF else c in
  u16 c.

Section Setup.
Context (rte_cpu_to_be_16 rte_cpu_to_be_32 : Z -> Z).

Definition setup_pkt_udp_ip_headers (pkt_data_len src_ipv4_addr dst_ipv4_addr
    sport dport : Z) : rte_ipv4_hdr * rte_udp_hdr :=
  let pkt_len := u16 (pkt_data_len + sizeof_rte_udp_hdr) in
  let udp := {| src_port := rte_cpu_to_be_16 sport; dst_port := rte_cpu_to_be_16 dport;
                dgram_len := RTE_CPU_TO_BE_16 pkt_len; dgram_cksum := 0 |} in
  let pkt_len := u16 (pkt_len + sizeof_rte_ipv4_hdr) in
  let ip0 := {| version_ihl := IP_VHL_DEF; type_of_service := 0; fragment_offset := 0;
                time_to_live := IP_DEFTTL; next_proto_id := IPPROTO_UDP; packet_id := 0;
                total_length := RTE_CPU_TO_BE_16 pkt_len;
                src_addr := rte_cpu_to_be_32 src_ipv4_addr;
                dst_addr := rte_cpu_to_be_32 dst_ipv4_addr;
                hdr_checksum := 0 |} in
  let cksum := ip_cksum_reduce (ip_cksum_sum (ptr16 ip0)) in
  ({| version_ihl := version_ihl ip0; type_of_service := type_of_service ip0;
      total_length := total_length ip0; packet_id := packet_id ip0;
      fragment_offset := fragment_offset ip0; time_to_live := time_to_live ip0;
      next_proto_id := next_proto_id ip0; hdr_checksum := cksum;
      src_addr := src_addr ip0; dst_addr := dst_addr ip0 |}, udp).

(** [tx_pkt_setup], for a configured packet length [tx_pkt_length]. *)
Definition tx_pkt_setup (tx_pkt_length src dst sport dport : Z) : rte_ipv4_hdr * rte_udp_hdr :=
  let pkt_data_len :=
    u16 (tx_pkt_length - (sizeof_rte_ether_hdr + sizeof_rte_ipv4_hdr + sizeof_rte_udp_hdr)) in
  setup_pkt_udp_ip_headers pkt_data_len src dst sport dport.
End Setup.

(** ** Copying a buffer into a chain of segments

    A packet is the list of its segments, each the bytes of its data area
    ([data_len] is its length); running off the end of the chain is undefined. *)
Definition blit (seg : list Z) (off : nat) (buf : list Z) : list Z :=
  take off seg ++ buf ++ drop (off + length buf) seg.

(** The second loop of [copy_buf_to_pkt_segs] and its final copy, from the start of
    segment [seg] on. *)
Fixpoint copy_rest (buf : list Z) (segs : list (list Z)) : option (list (list Z)) :=
  match segs with
  | [] => None
  | seg :: segs' =>
      let copy_len := length seg in
      if (copy_len <? length buf)%nat then
        rest ← copy_rest (drop copy_len buf) segs';
        Some (blit seg 0 (take copy_len buf) :: rest)
      else Some (blit seg 0 buf :: segs')
  end.

Fixpoint copy_buf_to_pkt_segs (buf : list Z) (segs : list (list Z)) (offset : nat)
    : option (list (list Z)) :=
  match segs with
  | [] => None
  | seg :: segs' =>
      if (length seg <=? offset)%nat then
        rest ← copy_buf_to_pkt_segs buf segs' (offset - length seg);
        Some (seg :: rest)
      else
        let copy_len := (length seg - offset)%nat in
        if (copy_len <? length buf)%nat then
          rest ← copy_rest (drop copy_len buf) segs';
          Some (blit seg offset (take copy_len buf) :: rest)
        else Some (blit seg offset buf :: segs')
  end.

(** [copy_buf_to_pkt]: the fast path copies into the first segment. *)
Definition copy_buf_to_pkt (buf : list Z) (segs : list (list Z)) (offset : nat)
    : option (list (list Z)) :=
  match segs with
  | [] => None
  | seg :: segs' =>
      if (offset + length buf <=? length seg)%nat then Some (blit seg offset buf :: segs')
      else copy_buf_to_pkt_segs buf segs offset
  end.

(** ** Reference: one's complement sums (RFC 1071) *)

Definition oc_add (a b : Z) : Z := if 65535 <? a + b then a + b - 65535 else a + b.
Definition oc_sum (ws : list Z) : Z := fold_left oc_add ws 0.
Definition zsum (ws : list Z) : Z := fold_left Z.add ws 0.

(** The same header read in network byte order, as a receiver does. *)
Definition swap16 (w : Z) : Z := 256 * (w mod 256) + w / 256.

Lemma fold_add_acc ws a : fold_left Z.add ws a = a + zsum ws.
Proof.
  unfold zsum. revert a. induction ws as [|w ws IH]; intros a; cbn [fold_left]; [lia|].
  rewrite (IH (a + w)), (IH (0 + w)). lia.
Qed.

(** Value of a one's complement sum from the plain sum. *)
Definition oc_norm (s : Z) : Z := if s =? 0 then 0 else (s - 1) mod 65535 + 1.

Lemma oc_norm_small a : 0 <= a <= 65535 -> oc_norm a = a.
Proof.
  intros Ha. unfold oc_norm. case_test; [lia|]. rewrite Z.mod_small by lia. lia.
Qed.

Lemma oc_add_norm s w :
  0 <= s -> 0 <= w <= 65535 -> oc_add (oc_norm s) w = oc_norm (s + w).
Proof.
  intros Hs Hw. unfold oc_add, oc_norm.
  destruct (Z.eqb_spec s 0) as [->|Hs0].
  { simpl. case_test; [lia|]. case_test; [done|]. rewrite Z.mod_small; lia. }
  pose proof (Z.mod_pos_bound (s - 1) 65535 ltac:(lia)).
  pose proof (Z.div_mod (s - 1) 65535 ltac:(lia)) as Hd.
  set (r := (s - 1) mod 65535) in *. set (q := (s - 1) / 65535) in *.
  destruct (Z.eqb_spec (s + w) 0); [lia|].
  destruct (Z.ltb_spec 65535 (r + 1 + w)).
  - assert ((s + w - 1) mod 65535 = r + w - 65535) as ->; [|lia].
    symmetry. apply (Z.mod_unique_pos _ _ (q + 1)); lia.
  - assert ((s + w - 1) mod 65535 = r + w) as ->; [|lia].
    symmetry. apply (Z.mod_unique_pos _ _ q); lia.
Qed.

Lemma oc_sum_norm ws :
  Forall (fun w => 0 <= w <= 65535) ws -> oc_sum ws = oc_norm (zsum ws).
Proof.
  intros Hws. unfold oc_sum, zsum.
  assert (Hgen : forall s, 0 <= s -> fold_left oc_add ws (oc_norm s) = oc_norm (fold_left Z.add ws s)).
  { induction Hws as [|w ws Hw _ IH]; intros s Hs; simpl; [done|].
    rewrite oc_add_norm by done. apply IH. lia. }
  by apply (Hgen 0).
Qed.

Lemma oc_norm_full s : 0 < s -> s mod 65535 = 0 -> oc_norm s = 65535.
Proof.
  intros Hs H0. unfold oc_norm. case_test; [lia|].
  apply Z.mod_divide in H0 as [q ->]; [|lia].
  assert ((q * 65535 - 1) mod 65535 = 65534) as ->; [|lia].
  symmetry. apply (Z.mod_unique_pos _ _ (q - 1)); lia.
Qed.

(** The checksum complements the sum modulo 65535. *)
Lemma ip_cksum_reduce_spec s :
  0 < s <= 9 * 65535 ->
  0 < ip_cksum_reduce s <= 65535 /\ (s + ip_cksum_reduce s) mod 65535 = 0.
Proof.
  intros Hs. unfold ip_cksum_reduce.
  assert (Hhi : Z.shiftr (Z.land s 0xFFFF0000) 16 = s / 2 ^ 16).
  { rewrite Z.shiftr_land. change (Z.shiftr 0xFFFF0000 16) with (Z.ones 16).
    rewrite Z.land_ones, Z.shiftr_div_pow2 by lia. apply Z.mod_small.
    split; [apply Z.div_pos; lia|]. apply Z.div_lt_upper_bound; lia. }
  rewrite Hhi, (land_ffff s). clear Hhi.
  pose proof (Z.div_mod s (2 ^ 16) ltac:(lia)) as Hd.
  pose proof (Z.mod_pos_bound s (2 ^ 16) ltac:(lia)) as Hm.
  set (q := s / 2 ^ 16) in *. set (r := s mod 2 ^ 16) in *.
  assert (Hq : 0 <= q <= 8) by lia.
  rewrite (wrap_small 32 (q + r)) by (unfold in_u; lia).
  set (c := if 65535 <? q + r then u32 (q + r - 65535) else q + r).
  assert (Hc : 0 < c <= 65535 /\ exists p, s = c + 65535 * p).
  { unfold c. destruct (Z.ltb_spec 65535 (q + r)).
    - rewrite wrap_small by (unfold in_u; lia). split; [lia|]. exists (q + 1). lia.
    - split; [lia|]. exists q. lia. }
  clearbody c. destruct Hc as [Hc [p Hp]].
  assert (Hnot : Z.land (lnotw 32 c) 0x0000FFFF = 65535 - c).
  { rewrite land_ffff.
    unfold lnotw, wrap. rewrite Z.mod_mod_divide by by exists (2 ^ 16).
    unfold Z.lnot. symmetry. apply (Z.mod_unique_pos _ _ (-1)); lia. }
  rewrite Hnot. destruct (Z.eqb_spec (65535 - c) 0) as [Hz|Hz].
  - rewrite wrap_small by (unfold in_u; lia). split; [lia|].
    assert (c = 65535) as -> by lia. apply Z.mod_divide; [lia|]. exists (p + 2). lia.
  - rewrite wrap_small by (unfold in_u; lia). split; [lia|].
    apply Z.mod_divide; [lia|]. exists (p + 1). lia.
Qed.

(** ** The header sum *)

Ltac solve_Forall := repeat (apply Forall_cons_2; [assumption || lia || (split; assumption)|]); apply Forall_nil_2.

Definition hdr_words_ok (h : rte_ipv4_hdr) : Prop := Forall (fun w => 0 <= w <= 65535) (ptr16 h).

Lemma u32_fold_sum ws s :
  Forall (fun w => 0 <= w <= 65535) ws -> 0 <= s -> s + 65535 * zlen ws < 2 ^ 32 ->
  fold_left (fun s x => u32 (s + x)) ws s = fold_left Z.add ws s /\
  s <= fold_left Z.add ws s <= s + 65535 * zlen ws.
Proof.
  intros Hws. revert s. induction Hws as [|w ws Hw _ IH]; intros s Hs Hb; cbn [fold_left].
  { simpl. lia. }
  cbn [length] in Hb |- *. rewrite (wrap_small 32 (s + w)) by (unfold in_u; lia).
  destruct (IH (s + w)) as [-> ?]; lia.
Qed.

(** Storing [ip_cksum_reduce (ip_cksum_sum (ptr16 h))] makes the sum of all ten words a
    positive multiple of 65535. *)
Lemma ptr16_sum h :
  hdr_words_ok h -> 0 < version_ihl h -> 0 <= type_of_service h ->
  let c := ip_cksum_reduce (ip_cksum_sum (ptr16 h)) in
  0 <= c <= 65535 /\
  exists t, zsum (ptr16 h) = t + hdr_checksum h /\ 0 < t + c /\ (t + c) mod 65535 = 0.
Proof.
  intros Hok Hv Ht c. unfold hdr_words_ok, ptr16 in Hok. rewrite !Forall_cons_iff in Hok.
  destruct_and! Hok.
  pose (l := [version_ihl h + 256 * type_of_service h; total_length h; packet_id h;
     fragment_offset h; time_to_live h + 256 * next_proto_id h; src_addr h mod 2 ^ 16;
     src_addr h / 2 ^ 16; dst_addr h mod 2 ^ 16; dst_addr h / 2 ^ 16]).
  assert (Hl : ip_cksum_sum (ptr16 h) = fold_left (fun s x => u32 (s + x)) l 0) by reflexivity.
  destruct (u32_fold_sum l 0) as [Hfold Hsum]; [by unfold l; solve_Forall|lia|done|].
  assert (Hpos : 0 < fold_left Z.add l 0) by (cbn [fold_left l]; lia).
  destruct (ip_cksum_reduce_spec (fold_left Z.add l 0)) as [Hr Hmod].
  { change (zlen l) with 9 in Hsum. lia. }
  assert (Hc : c = ip_cksum_reduce (fold_left Z.add l 0)) by (unfold c; by rewrite Hl, Hfold).
  rewrite Hc. split; [lia|]. exists (fold_left Z.add l 0).
  split; [|split; [lia|done]]. unfold ptr16, zsum. cbn [fold_left l]. lia.
Qed.

Lemma zsum_swap ws :
  Forall (fun w => 0 <= w <= 65535) ws ->
  (zsum (swap16 <$> ws)) mod 65535 = (256 * zsum ws) mod 65535 /\ (0 < zsum ws -> 0 < zsum (swap16 <$> ws)) /\ 0 <= zsum (swap16 <$> ws).
Proof.
  unfold zsum. induction 1 as [|w ws Hw Hws IH]; [done|]. cbn [fmap list_fmap fold_left].
  rewrite !fold_add_acc. destruct IH as (IH1 & IH2 & IH3). unfold zsum in *.
  pose proof (Z.div_mod w 256 ltac:(lia)). pose proof (Z.mod_pos_bound w 256 ltac:(lia)).
  assert (0 <= w / 256) by (apply Z.div_pos; lia).
  assert (Hsw : swap16 w = 256 * w - 65535 * (w / 256)) by (unfold swap16; lia).
  assert (Hsw0 : 0 <= swap16 w) by (unfold swap16; lia).
  split; [|split].
  - rewrite <- Zplus_mod_idemp_r, IH1, Zplus_mod_idemp_r, Hsw.
    rewrite <- (Z.mod_add _ (w / 256) 65535) by lia. f_equal. lia.
  - intros Hpos.
    destruct (decide (w = 0)) as [->|Hw0]; [specialize (IH2 ltac:(lia)); lia|].
    assert (0 < swap16 w) by (unfold swap16; lia). lia.
  - lia.
Qed.

Lemma swap16_range w : 0 <= w <= 65535 -> 0 <= swap16 w <= 65535.
Proof.
  intros Hw. unfold swap16. pose proof (Z.mod_pos_bound w 256 ltac:(lia)).
  assert (0 <= w / 256 < 256) by (split; [apply Z.div_pos; lia|apply Z.div_lt_upper_bound; lia]).
  lia.
Qed.

(** A header whose words sum to a positive multiple of 65535 passes the RFC 1071 check in
    either byte order. *)
Lemma checksum_accepts h :
  hdr_words_ok h -> 0 < zsum (ptr16 h) -> zsum (ptr16 h) mod 65535 = 0 ->
  oc_sum (ptr16 h) = 0xFFFF /\ oc_sum (swap16 <$> ptr16 h) = 0xFFFF.
Proof.
  intros Hok Hpos Hmod. destruct (zsum_swap _ Hok) as (Hs & Hp & _). split.
  - rewrite oc_sum_norm by done. by apply oc_norm_full.
  - rewrite oc_sum_norm.
    + apply oc_norm_full; [by apply Hp|]. by rewrite Hs, <- Zmult_mod_idemp_r, Hmod.
    + apply Forall_fmap. eapply List.Forall_impl; [|exact Hok]. apply swap16_range.
Qed.

Lemma u32_halves s : s ∈u 32 -> 0 <= s mod 2 ^ 16 <= 65535 /\ 0 <= s / 2 ^ 16 <= 65535.
Proof.
  unfold in_u. intros Hs. pose proof (Z.mod_pos_bound s (2 ^ 16) ltac:(lia)).
  assert (0 <= s / 2 ^ 16 < 2 ^ 16)
    by (split; [apply Z.div_pos; lia|apply Z.div_lt_upper_bound; lia]). lia.
Qed.

(** ** Properties *)

(** The IPv4 header built by [setup_pkt_udp_ip_headers] carries a correct header
    checksum for all addresses, ports and lengths: the one's complement sum of its ten words
    is 0xFFFF, in host and in network byte order. *)
Theorem setup_headers_checksum (be16 be32 : Z -> Z) len src dst sport dport :
  (forall x, be32 x ∈u 32) ->
  let ip := fst (setup_pkt_udp_ip_headers be16 be32 len src dst sport dport) in
  oc_sum (ptr16 ip) = 0xFFFF /\ oc_sum (swap16 <$> ptr16 ip) = 0xFFFF.
Proof.
  intros Hbe ip. unfold ip, setup_pkt_udp_ip_headers. cbv zeta. cbn [fst].
  set (L := RTE_CPU_TO_BE_16 _). assert (HL : L ∈u 16) by (apply wrap_range; lia). clearbody L.
  pose proof (Hbe src) as Hsrc. pose proof (Hbe dst) as Hdst.
  revert Hsrc Hdst. generalize (be32 src), (be32 dst). intros s d Hs Hd.
  set (h0 := Ipv4Hdr _ _ _ _ _ _ _ 0 s d).
  assert (Hok0 : hdr_words_ok h0).
  { destruct (u32_halves s Hs), (u32_halves d Hd). unfold in_u in HL.
    unfold hdr_words_ok, ptr16, h0, IP_DEFTTL, IPPROTO_UDP. change IP_VHL_DEF with 69.
    cbn [version_ihl type_of_service total_length packet_id fragment_offset time_to_live
         next_proto_id hdr_checksum src_addr dst_addr]. solve_Forall. }
  destruct (ptr16_sum h0 Hok0) as [Hc (t & Hsum & Hpos & Hmod)]; [done|done|].
  set (c := ip_cksum_reduce _) in *. set (h := Ipv4Hdr _ _ _ _ _ _ _ c _ _).
  assert (Hptr : zsum (ptr16 h) = t + c).
  { enough (zsum (ptr16 h) = zsum (ptr16 h0) + c) by (simpl in Hsum; lia).
    unfold ptr16, zsum, h, h0. cbn [fold_left hdr_checksum version_ihl type_of_service
      total_length packet_id fragment_offset time_to_live next_proto_id src_addr dst_addr]. lia. }
  apply checksum_accepts; [|by rewrite Hptr|by rewrite Hptr].
  unfold hdr_words_ok, ptr16 in *. rewrite !Forall_cons_iff in Hok0. destruct_and! Hok0.
  solve_Forall.
Qed.

Definition bswap32 (x : Z) : Z :=
  u32 (Z.shiftl x 24 + Z.shiftl (Z.land x 0xFF00) 8 + Z.land (Z.shiftr x 8) 0xFF00 + Z.shiftr (u32 x) 24).

Lemma setup_headers_checksum_witness :
  oc_sum (ptr16 (fst (setup_pkt_udp_ip_headers RTE_CPU_TO_BE_16 bswap32 22 2886860804 2886860802 9000 9001))) = 0xFFFF.
Proof.
  apply (setup_headers_checksum RTE_CPU_TO_BE_16 bswap32 22 2886860804 2886860802 9000 9001).
  intros x. apply wrap_range. lia.
Defined.

(** ** Copying across segments *)

Lemma blit_length seg off buf :
  (off + length buf <= length seg)%nat -> length (blit seg off buf) = length seg.
Proof. intros H. unfold blit. rewrite !length_app, length_take, length_drop. lia. Qed.

Lemma blit_app_r s1 s2 off buf :
  (length s1 <= off)%nat -> blit (s1 ++ s2) off buf = s1 ++ blit s2 (off - length s1) buf.
Proof.
  intros H. unfold blit. rewrite take_app, drop_app.
  rewrite (take_ge s1) by lia. rewrite (drop_ge s1) by lia. simpl.
  rewrite <- app_assoc. do 3 f_equal. f_equal. lia.
Qed.

Lemma blit_app_l s1 s2 off buf :
  (off + length buf <= length s1)%nat -> blit (s1 ++ s2) off buf = blit s1 off buf ++ s2.
Proof.
  intros H. unfold blit. rewrite take_app_le, drop_app_le by lia. by rewrite <- !app_assoc.
Qed.

(** A copy that straddles a segment boundary. *)
Lemma blit_app_split s1 s2 off buf :
  (off <= length s1)%nat -> (length s1 - off <= length buf)%nat ->
  blit (s1 ++ s2) off buf =
  blit s1 off (take (length s1 - off) buf) ++ blit s2 0 (drop (length s1 - off) buf).
Proof.
  intros H1 H2. unfold blit. rewrite take_app_le, length_take, length_drop by lia.
  rewrite drop_app_ge, (drop_ge s1 (off + _)) by lia. rewrite app_nil_r. simpl.
  rewrite <- app_assoc. f_equal. rewrite app_assoc, take_drop. do 2 f_equal. lia.
Qed.

Definition seg_lengths (segs : list (list Z)) : list nat := length <$> segs.

Lemma copy_rest_spec segs buf :
  (0 < length buf)%nat -> (length buf <= length (concat segs))%nat ->
  exists segs', copy_rest buf segs = Some segs' /\
    concat segs' = blit (concat segs) 0 buf /\ seg_lengths segs' = seg_lengths segs.
Proof.
  revert buf. induction segs as [|seg segs IH]; intros buf H0 Hlen; simpl in *; [lia|].
  rewrite length_app in Hlen. destruct (Nat.ltb_spec (length seg) (length buf)) as [Hlt|Hge].
  - destruct (IH (drop (length seg) buf)) as (segs' & -> & Hc & Hl); [rewrite length_drop; lia..|].
    simpl. eexists. split; [done|]. simpl. rewrite Hc. split.
    + rewrite (blit_app_split seg) by lia. by rewrite Nat.sub_0_r.
    + unfold seg_lengths in *. simpl. rewrite Hl, blit_length by (rewrite length_take; lia). done.
  - eexists. split; [done|]. simpl. split; [by rewrite blit_app_l by lia|].
    unfold seg_lengths. simpl. by rewrite blit_length by lia.
Qed.

Lemma copy_segs_spec segs buf off :
  (0 < length buf)%nat -> (off + length buf <= length (concat segs))%nat ->
  exists segs', copy_buf_to_pkt_segs buf segs off = Some segs' /\
    concat segs' = blit (concat segs) off buf /\ seg_lengths segs' = seg_lengths segs.
Proof.
  revert off. induction segs as [|seg segs IH]; intros off H0 Hlen; simpl in *; [lia|].
  rewrite length_app in Hlen. destruct (Nat.leb_spec (length seg) off) as [Hle|Hgt].
  - destruct (IH (off - length seg)%nat) as (segs' & -> & Hc & Hl); [lia..|].
    eexists. split; [done|]. simpl. rewrite Hc, blit_app_r by done. split; [done|].
    unfold seg_lengths in *. simpl. by rewrite Hl.
  - destruct (Nat.ltb_spec (length seg - off) (length buf)) as [Hlt|Hge].
    + destruct (copy_rest_spec segs (drop (length seg - off) buf)) as (segs' & -> & Hc & Hl);
        [rewrite length_drop; lia..|].
      simpl. eexists. split; [done|]. simpl. rewrite Hc, blit_app_split by lia. split; [done|].
      unfold seg_lengths in *. simpl. rewrite Hl, blit_length by (rewrite length_take; lia). done.
    + eexists. split; [done|]. simpl. split; [by rewrite blit_app_l by lia|].
      unfold seg_lengths. simpl. by rewrite blit_length by lia.
Qed.

(** [copy_buf_to_pkt] writes the buffer at the given offset of the packet seen as one
    byte string, however it is cut into segments, and keeps every segment's length; a
    non-empty copy that fits never runs off the chain. *)
Theorem copy_buf_to_pkt_flat segs buf off :
  (0 < length buf)%nat -> (off + length buf <= length (concat segs))%nat ->
  exists segs', copy_buf_to_pkt buf segs off = Some segs' /\
    concat segs' = blit (concat segs) off buf /\ seg_lengths segs' = seg_lengths segs.
Proof.
  intros H0 Hlen. unfold copy_buf_to_pkt. destruct segs as [|seg segs]; [simpl in *; lia|].
  destruct (Nat.leb_spec (off + length buf) (length seg)); [|by apply copy_segs_spec].
  eexists. split; [done|]. simpl. split; [by rewrite blit_app_l by lia|].
  unfold seg_lengths. simpl. by rewrite blit_length by lia.
Qed.

Lemma copy_buf_to_pkt_flat_witness :
  exists segs', copy_buf_to_pkt [7; 8; 9] [[1; 2]; [3]; [4; 5]] 1 = Some segs' /\
    concat segs' = blit (concat [[1; 2]; [3]; [4; 5]]) 1 [7; 8; 9] /\
    seg_lengths segs' = seg_lengths [[1; 2]; [3]; [4; 5]].
Proof. apply (copy_buf_to_pkt_flat [[1; 2]; [3]; [4; 5]] [7; 8; 9] 1); simpl; lia. Defined.
