(* ===== verification/KvServer.v ===== *)
(** * KvServer: the key-value server on top of the hash map

    Models the client side of [test_dpdk/basic_forward/kv.c]: [init_hashmap], the [keys]
    table filled by [test_udpecho], [do_processing] and [echo_packet].  The memory the
    values live in comes from [malloc], a parameter [malloc i] giving the address of the
    [i]-th block. *)
From Stdlib Require Import ZArith Lia Bool.
From stdpp Require Import gmap.
From S2P Require Import Prelude Crc32 Hashmap.
Open Scope Z_scope.

(** ** Printing keys *)

(** The digits "%d" prints for a non-negative number, most significant first. *)
Fixpoint digits (fuel : nat) (n : Z) (acc : cstring) : cstring :=
  match fuel with
  | O => acc
  | S fuel' =>
      let acc' := (48 + n mod 10) :: acc in
      if n / 10 =? 0 then acc' else digits fuel' (n / 10) acc'
  end.

(** An [int] has at most ten digits. *)
Definition fmt_d (z : Z) : cstring :=
  if z <? 0 then 45 :: digits 10 (- z) [] else digits 10 z [].

(** "somekey" *)
Definition KEY_PREFIX : cstring := [115; 111; 109; 101; 107; 101; 121].

(** [snprintf(..., "%s%d", KEY_PREFIX, index)]; the result is far shorter than
    KEY_MAX_LENGTH, so nothing is truncated. *)
Definition prefix_key (index : Z) : cstring := KEY_PREFIX ++ fmt_d index.

(** ** [init_hashmap] *)

(** A sequence of [hashmap_put] calls, each followed by [assert(error==MAP_OK)]. *)
Fixpoint put_all (calloc_ok : Z -> bool) (fuel : nat) (m : hashmap_map)
    (kvs : list (cstring * any_t)) : option hashmap_map :=
  match kvs with
  | [] => Some m
  | (k, v) :: kvs' =>
      '(error, m') ← hashmap_put calloc_ok fuel m k v;
      if error =? MAP_OK then put_all calloc_ok fuel m' kvs' else None
  end.

(** The first loop stores 256 prefixed keys.  The second one calls
    [snprintf(key, KEY_MAX_LENGTH, "%d", KEY_PREFIX, index)]: "%d" consumes the pointer
    KEY_PREFIX (its low 32 bits here) and [index] is ignored, so all [key_count] iterations
    store the same key. *)
Definition init_entries (malloc : nat -> any_t) (prefix_ptr : Z) (key_count : nat)
    : list (cstring * any_t) :=
  ((fun i : nat => (prefix_key (Z.of_nat i), malloc i)) <$> seq 0 256) ++
  ((fun i : nat => (fmt_d (sext 32 prefix_ptr), malloc i)) <$> seq 256 key_count).

Definition init_hashmap (calloc_ok : Z -> bool) (fuel : nat) (malloc : nat -> any_t)
    (prefix_ptr : Z) (key_count : nat) : option hashmap_map :=
  mymap ← hashmap_new true calloc_ok;
  put_all calloc_ok fuel mymap (init_entries malloc prefix_ptr key_count).

(** ** Requests *)

(** The [keys] table, filled in [test_udpecho]. *)
Definition keys : list cstring := (fun i : nat => prefix_key (Z.of_nat i)) <$> seq 0 256.

(** [do_processing]: the first payload byte, a (signed) [char], selects the key. *)
Definition do_processing (mymap : hashmap_map) (t0 : Z) : option (Z * any_t) :=
  let index := sext 8 t0 in
  k ← zget keys index;
  hashmap_get mymap k.

(** ** [echo_packet] *)

Record frame := Frame {
  d_addr : list Z; s_addr : list Z; ether_type : Z;
  ip_proto : Z; ip_src : Z; ip_dst : Z;
  udp_src : Z; udp_dst : Z;
  payload0 : Z
}.

(** The three exclusive ors that exchange two fields in place. *)
Definition xor_swap (a b : Z) : Z * Z :=
  let a := Z.lxor a b in
  let b := Z.lxor b a in
  let a := Z.lxor a b in
  (a, b).

(** [echo_packet] never assigns [udp_hdr]: [udp_hdr_ok] says whether the indeterminate pointer
    happens to designate the UDP header of the frame; otherwise the accesses through it are
    undefined. *)
Definition echo_packet (mymap : hashmap_map) (udp_hdr_ok : bool) (f : frame)
    : option (Z * frame) :=
  if ether_type f =? 0x8 then
    if ip_proto f =? 0x11 then
      let '(isrc, idst) := xor_swap (ip_src f) (ip_dst f) in
      if negb udp_hdr_ok then None else
      let '(usrc, udst) := xor_swap (udp_src f) (udp_dst f) in
      _ ← do_processing mymap (payload0 f);
      Some (0, {| d_addr := s_addr f; s_addr := d_addr f; ether_type := ether_type f;
                  ip_proto := ip_proto f; ip_src := isrc; ip_dst := idst;
                  udp_src := usrc; udp_dst := udst; payload0 := payload0 f |})
    else Some (-1, f)
  else Some (-1, f).

(** ** Lemmas *)

Lemma xor_swap_spec a b : xor_swap a b = (b, a).
Proof.
  unfold xor_swap.
  assert (H1 : Z.lxor b (Z.lxor a b) = a)
    by (by rewrite (Z.lxor_comm a b), <- Z.lxor_assoc, Z.lxor_nilpotent, Z.lxor_0_l).
  rewrite H1. f_equal.
  by rewrite (Z.lxor_comm a b), Z.lxor_assoc, Z.lxor_nilpotent, Z.lxor_0_r.
Qed.

Lemma echo_packet_eq m d s isrc idst us ud t :
  echo_packet m true (Frame d s 0x8 0x11 isrc idst us ud t) =
  (_ ← do_processing m t; Some (0, Frame s d 0x8 0x11 idst isrc ud us t)).
Proof. unfold echo_packet. cbn -[xor_swap do_processing]. by rewrite !xor_swap_spec. Qed.

Lemma put_all_contents calloc_ok fuel kvs m m' :
  wf m -> put_all calloc_ok fuel m kvs = Some m' ->
  wf m' /\ contents m' = foldl (fun c kv => <[kv.1 := kv.2]> c) (contents m) kvs.
Proof.
  revert m. induction kvs as [|[k v] kvs IH]; intros m Hwf; cbn [put_all foldl].
  { by intros [= <-]. }
  intros ([error m1] & Hput & H)%bind_Some. case_test; [|done]. subst error.
  destruct (proj2 (put_spec calloc_ok fuel) _ _ _ _ Hwf Hput) as [Hwf1 Hc].
  destruct (IH _ Hwf1 H) as [? ->]. by rewrite Hc.
Qed.

(** Later insertions at other keys do not disturb a binding. *)
Lemma foldl_insert_notin (kvs : list (cstring * any_t)) (c : gmap cstring any_t) k :
  k ∉ kvs.*1 -> foldl (fun c kv => <[kv.1 := kv.2]> c) c kvs !! k = c !! k.
Proof.
  revert c. induction kvs as [|[k' v'] kvs IH]; intros c Hk; simpl; [done|].
  apply not_elem_of_cons in Hk as [? ?]. rewrite IH by done. by rewrite lookup_insert_ne.
Qed.

Lemma foldl_insert_in (kvs : list (cstring * any_t)) (c : gmap cstring any_t) k v :
  NoDup kvs.*1 -> (k, v) ∈ kvs -> foldl (fun c kv => <[kv.1 := kv.2]> c) c kvs !! k = Some v.
Proof.
  revert c. induction kvs as [|[k' v'] kvs IH]; intros c Hnd Hin; simpl in *;
    [by apply not_elem_of_nil in Hin|].
  apply list.NoDup_cons in Hnd as [Hk Hnd]. apply elem_of_cons in Hin as [[= -> ->]|Hin].
  - rewrite foldl_insert_notin by done. apply lookup_insert_eq.
  - by apply IH.
Qed.

Lemma prefix_keys_nodup : NoDup keys.
Proof. apply (bool_decide_unpack (NoDup keys)). vm_compute. exact I. Qed.

Lemma digits_head_ge fuel n acc :
  0 <= n -> Forall (fun b => 48 <= b < 58) acc -> Forall (fun b => 48 <= b < 58) (digits fuel n acc).
Proof.
  revert n acc. induction fuel as [|fuel IH]; intros n acc Hn Hacc; simpl; [done|].
  pose proof (Z.mod_pos_bound n 10 ltac:(lia)).
  assert (Forall (fun b => 48 <= b < 58) ((48 + n mod 10) :: acc)) by (constructor; [lia|done]).
  case_test; [done|]. apply IH; [|done]. apply Z.div_pos; lia.
Qed.

(** A printed number never starts with a letter, so it is no prefixed key. *)
Lemma fmt_d_not_prefixed z i : fmt_d z <> prefix_key i.
Proof.
  unfold fmt_d, prefix_key, KEY_PREFIX. case_test; [done|]. intros Heq.
  pose proof (digits_head_ge 10 z [] ltac:(lia) (Forall_nil_2 _)) as Hd.
  rewrite Heq in Hd. inversion Hd. lia.
Qed.

Lemma keys_lookup i : 0 <= i < 256 -> zget keys i = Some (prefix_key i).
Proof.
  intros Hi. rewrite <- (Z2Nat.id i) by lia. rewrite zget_lookup. unfold keys.
  rewrite list_lookup_fmap, lookup_seq_lt by lia. done.
Qed.

(** ** Properties *)

Section Init.
Context (calloc_ok : Z -> bool) (fuel : nat) (malloc : nat -> any_t).
Context (prefix_ptr : Z) (key_count : nat) (mymap : hashmap_map).
Context (Hinit : init_hashmap calloc_ok fuel malloc prefix_ptr key_count = Some mymap).

Lemma init_wf : wf mymap /\
  forall i, 0 <= i < 256 -> contents mymap !! prefix_key i = Some (malloc (Z.to_nat i)).
Proof.
  unfold init_hashmap in Hinit. apply bind_Some in Hinit as (m0 & Hm0 & Hput).
  unfold hashmap_new in Hm0. simpl in Hm0. case_test; [done|]. injection Hm0 as <-.
  apply put_all_contents in Hput as [Hwf Hc]; [|by apply map0_wf]. split; [done|].
  intros i Hi. rewrite Hc. unfold init_entries. rewrite foldl_app, foldl_insert_notin.
  - apply foldl_insert_in.
    + rewrite <- list_fmap_compose. apply prefix_keys_nodup.
    + apply list_elem_of_fmap. exists (Z.to_nat i). rewrite Z2Nat.id by lia.
      split; [done|]. apply elem_of_seq. lia.
  - rewrite <- list_fmap_compose. intros (j & Hj & _)%list_elem_of_fmap.
    symmetry in Hj. by apply fmt_d_not_prefixed in Hj.
Qed.
End Init.

(** After [init_hashmap], a request whose first payload byte is an ASCII character
    (below 128) finds the block stored for that key number, whatever the second loop of
    [init_hashmap] stored. *)
Theorem do_processing_finds calloc_ok fuel malloc prefix_ptr key_count mymap t0 :
  init_hashmap calloc_ok fuel malloc prefix_ptr key_count = Some mymap ->
  0 <= t0 < 128 ->
  do_processing mymap t0 = Some (MAP_OK, malloc (Z.to_nat t0)).
Proof.
  intros Hinit Ht. destruct (init_wf _ _ _ _ _ _ Hinit) as [Hwf Hc].
  unfold do_processing. assert (sext 8 t0 = t0) as ->.
  { unfold sext. rewrite wrap_small by (unfold in_u; lia). case_test; lia. }
  rewrite keys_lookup by lia. simpl. rewrite get_spec by apply Hwf. by rewrite Hc by lia.
Qed.

(** A request whose first payload byte is 128 or more makes [do_processing] index
    [keys] with a negative number: the byte is a signed [char], and the access is outside the
    array for every map. *)
Theorem do_processing_out_of_bounds mymap t0 :
  128 <= t0 < 256 -> sext 8 t0 < 0 /\ do_processing mymap t0 = None.
Proof.
  intros Ht. assert (Hs : sext 8 t0 = t0 - 256).
  { unfold sext. rewrite wrap_small by (unfold in_u; lia). case_test; lia. }
  rewrite Hs. split; [lia|]. unfold do_processing, zget. rewrite Hs. by case_test; [|lia].
Qed.

Lemma do_processing_out_of_bounds_witness : sext 8 200 < 0 /\ do_processing map0 200 = None.
Proof. apply (do_processing_out_of_bounds map0 200). lia. Defined.

(** The map of a run of [init_hashmap] with one iteration of the second loop. *)
Definition init_map : hashmap_map :=
  match init_hashmap calloc_1M 13 (fun i => 4096 + Z.of_nat i) 0x601060 1 with
  | Some m => m
  | None => map0
  end.

Lemma do_processing_finds_witness :
  do_processing init_map 65 = Some (MAP_OK, 4161).
Proof.
  apply (do_processing_finds calloc_1M 13 (fun i => 4096 + Z.of_nat i) 0x601060 1 init_map 65);
    [vm_compute; reflexivity|lia].
Defined.

(** The frame with the Ethernet, IPv4 and UDP endpoints exchanged. *)
Definition swapped (f : frame) : frame :=
  Frame (s_addr f) (d_addr f) (ether_type f) (ip_proto f) (ip_dst f) (ip_src f) (udp_dst f) (udp_src f) (payload0 f).

Definition is_udp (f : frame) : bool := (ether_type f =? 0x8) && (ip_proto f =? 0x11).

(** A payload byte below 128 is a valid index, and the lookup returns. *)
Lemma do_processing_total mymap t0 :
  wf_weak mymap -> 0 <= t0 < 128 -> is_Some (do_processing mymap t0).
Proof.
  intros Hwf Ht. unfold do_processing.
  assert (Hs : sext 8 t0 = t0) by (unfold sext; rewrite wrap_small by (unfold in_u; lia); case_test; lia).
  rewrite Hs, keys_lookup by lia. cbn [mbind option_bind]. rewrite get_spec by done. eauto.
Qed.

(** With the UDP header found and a valid request byte, [echo_packet] on a UDP frame
    exchanges the Ethernet, IPv4 and UDP source and destination (the exclusive-or swaps are
    correct) and echoing twice gives back the frame; every other frame is refused with -1
    and left alone. *)
Theorem echo_packet_swaps mymap f :
  wf_weak mymap -> 0 <= payload0 f < 128 ->
  echo_packet mymap true f = Some (if is_udp f then (0, swapped f) else (-1, f)) /\
  (is_udp f = true -> echo_packet mymap true (swapped f) = Some (0, f)).
Proof.
  intros Hwf Hp. destruct (do_processing_total mymap (payload0 f) Hwf Hp) as [r Hr].
  destruct f as [d a ty pr isrc idst us ud t]; cbn -[echo_packet do_processing] in *. unfold is_udp.
  cbn [ether_type ip_proto]. destruct (Z.eqb_spec ty 0x8) as [->|Hty], (Z.eqb_spec pr 0x11) as [->|Hpr].
  - unfold swapped. cbn -[echo_packet do_processing]. by rewrite !echo_packet_eq, Hr.
  - split; [|done]. unfold echo_packet. cbn -[Z.eqb]. by destruct (Z.eqb_spec pr 0x11).
  - split; [|done]. unfold echo_packet. cbn -[Z.eqb]. by destruct (Z.eqb_spec ty 0x8).
  - split; [|done]. unfold echo_packet. cbn -[Z.eqb]. by destruct (Z.eqb_spec ty 0x8).
Qed.

Definition frame0 : frame := Frame [1] [2] 0x8 0x11 10 20 9000 9001 65.

Lemma echo_packet_swaps_witness :
  echo_packet map0 true frame0 = Some (0, Frame [2] [1] 0x8 0x11 20 10 9001 9000 65).
Proof.
  apply (echo_packet_swaps map0 frame0); [apply map0_wf|cbn; lia].
Defined.
