(* ===== verification/Fifo.v ===== *)
(** * Fifo: what a bounded queue promises to its clients

    The abstract specification shared by the lock-free ring ([include/uk/ring.h]) and the
    mailbox ([lib/ukmpi/mbox.c]): a list with a capacity.  The class [BoundedFifo] is the
    interface between the queue implementations and their clients; the client theorems
    here are proved against it and instantiated by [Ring] and [Mbox]. *)
From Stdlib Require Import ZArith Lia Bool.
From S2P Require Import Prelude.
Open Scope Z_scope.

(** A client either offers a value or asks for one, without blocking. *)
Inductive fifo_op (A : Type) := Put (x : A) | Take.
Arguments Put {A} x.
Arguments Take {A}.

(** [Done]/[Full] answer an offer, [Got]/[Empty] a request. *)
Inductive fifo_res (A : Type) := Done | Full | Got (x : A) | Empty.
Arguments Done {A}.
Arguments Full {A}.
Arguments Got {A} x.
Arguments Empty {A}.

(** The reference queue: a list that never grows beyond [cap]. *)
Definition ref_step {A} (cap : Z) (q : list A) (o : fifo_op A) : fifo_res A * list A :=
  match o with
  | Put x => if zlen q <? cap then (Done, q ++ [x]) else (Full, q)
  | Take => match q with [] => (Empty, []) | x :: q' => (Got x, q') end
  end.

Fixpoint ref_run {A} (cap : Z) (q : list A) (ops : list (fifo_op A))
    : list (fifo_res A) * list A :=
  match ops with
  | [] => ([], q)
  | o :: ops' =>
      let '(r, q') := ref_step cap q o in
      let '(rs, q'') := ref_run cap q' ops' in
      (r :: rs, q'')
  end.

(** An implementation: a representation relation, its capacity, and a step that is defined
    and agrees with the reference on every represented queue. *)
Class BoundedFifo (T A : Type) := {
  fifo_rep : T -> list A -> Prop;
  fifo_cap : T -> Z;
  fifo_step : T -> fifo_op A -> option (fifo_res A * T);
  fifo_step_spec t q o :
    fifo_rep t q ->
    exists t', fifo_step t o = Some ((ref_step (fifo_cap t) q o).1, t') /\
      fifo_rep t' (ref_step (fifo_cap t) q o).2 /\ fifo_cap t' = fifo_cap t
}.

(** The values a client got, and the values it managed to enqueue. *)
Fixpoint received {A} (rs : list (fifo_res A)) : list A :=
  match rs with
  | [] => []
  | Got x :: rs' => x :: received rs'
  | _ :: rs' => received rs'
  end.

Fixpoint accepted {A} (ops : list (fifo_op A)) (rs : list (fifo_res A)) : list A :=
  match ops, rs with
  | Put x :: ops', Done :: rs' => x :: accepted ops' rs'
  | _ :: ops', _ :: rs' => accepted ops' rs'
  | _, _ => []
  end.

Section Client.
Context `{BoundedFifo T A}.
Implicit Types (t : T) (q : list A) (ops : list (fifo_op A)).

Fixpoint fifo_run t ops : option (list (fifo_res A) * T) :=
  match ops with
  | [] => Some ([], t)
  | o :: ops' =>
      '(r, t') ← fifo_step t o;
      '(rs, t'') ← fifo_run t' ops';
      Some (r :: rs, t'')
  end.

(** A client of the interface cannot tell the implementation from the reference. *)
Lemma fifo_run_refines t q ops :
  fifo_rep t q ->
  exists t', fifo_run t ops = Some ((ref_run (fifo_cap t) q ops).1, t') /\
    fifo_rep t' (ref_run (fifo_cap t) q ops).2.
Proof.
  revert t q. induction ops as [|o ops IH]; intros t q Hrep; simpl; [by eauto|].
  destruct (fifo_step_spec t q o Hrep) as (t1 & -> & Hrep1 & Hcap). simpl.
  destruct (ref_step (fifo_cap t) q o) as [r q1]; simpl in *.
  destruct (IH _ _ Hrep1) as (t2 & -> & Hrep2). rewrite Hcap in *. simpl.
  destruct (ref_run (fifo_cap t) q1 ops) as [rs q2]. simpl in *. eauto.
Qed.
End Client.

(** Order, no loss and no invention: what was received followed by what is still queued is
    what was queued at first followed by what was accepted. *)
Lemma ref_run_order {A} cap (q : list A) ops rs q' :
  ref_run cap q ops = (rs, q') -> received rs ++ q' = q ++ accepted ops rs.
Proof.
  revert q rs. induction ops as [|o ops IH]; intros q rs; simpl.
  { intros [= <- <-]. by rewrite app_nil_r. }
  destruct o as [x|]; simpl.
  - case_test; destruct (ref_run _ _ _) as [rs1 q1] eqn:Er; intros [= <- <-]; simpl;
      rewrite (IH _ _ Er); [by rewrite <- app_assoc|done].
  - destruct q as [|x q]; destruct (ref_run _ _ _) as [rs1 q1] eqn:Er; intros [= <- <-]; simpl;
      by rewrite (IH _ _ Er).
Qed.

Lemma ref_run_bounded {A} cap (q : list A) ops :
  zlen q <= cap -> zlen (ref_run cap q ops).2 <= cap.
Proof.
  revert q. induction ops as [|o ops IH]; intros q Hq; simpl; [done|].
  destruct (ref_step cap q o) as [r q1] eqn:Es. specialize (IH q1).
  destruct (ref_run cap q1 ops) as [rs q2]. simpl in *. apply IH.
  destruct o as [x|]; simpl in Es; [case_test|destruct q]; simplify_eq; simpl in *; try lia.
  rewrite length_app. simpl. lia.
Qed.
