(* ===== verification/Ring.v ===== *)
(** * Ring: the multi-producer, multi-consumer ring buffer

    Models [include/uk/ring.h], the macros that define a ring of [br_type] elements.  The
    head and tail counters are 32-bit and wrap; the array is a list indexed with [zget] and
    [zset], so an access outside it is [None].  The model runs one operation at a time: a
    compare-and-exchange on a counter that was just read succeeds, and a spin on a tail that
    no other thread can move never ends, which is [None] as well. *)
From Stdlib Require Import ZArith Lia Bool.
From S2P Require Import Prelude Fifo.
Open Scope Z_scope.

Definition ENOBUFS : Z := 55.

(** [POWER_OF_2(v)] *)
Definition POWER_OF_2 (v : Z) : bool := negb (0 =? v) && (0 =? Z.land v (u32 (v - 1))).

Module Ring.
Section Ops.
Context {A : Type}.

Record uk_ring := mk {
  br_prod_head : Z;
  br_prod_tail : Z;
  br_prod_size : Z;
  br_prod_mask : Z;
  br_drops : Z;
  br_cons_head : Z;
  br_cons_tail : Z;
  br_cons_size : Z;
  br_cons_mask : Z;
  br_ring : list A
}.

Definition set_prod_head (br : uk_ring) (v : Z) : uk_ring :=
  mk v (br_prod_tail br) (br_prod_size br) (br_prod_mask br) (br_drops br)
     (br_cons_head br) (br_cons_tail br) (br_cons_size br) (br_cons_mask br) (br_ring br).
Definition set_prod_tail (br : uk_ring) (v : Z) : uk_ring :=
  mk (br_prod_head br) v (br_prod_size br) (br_prod_mask br) (br_drops br)
     (br_cons_head br) (br_cons_tail br) (br_cons_size br) (br_cons_mask br) (br_ring br).
Definition set_drops (br : uk_ring) (v : Z) : uk_ring :=
  mk (br_prod_head br) (br_prod_tail br) (br_prod_size br) (br_prod_mask br) v
     (br_cons_head br) (br_cons_tail br) (br_cons_size br) (br_cons_mask br) (br_ring br).
Definition set_cons_head (br : uk_ring) (v : Z) : uk_ring :=
  mk (br_prod_head br) (br_prod_tail br) (br_prod_size br) (br_prod_mask br) (br_drops br)
     v (br_cons_tail br) (br_cons_size br) (br_cons_mask br) (br_ring br).
Definition set_cons_tail (br : uk_ring) (v : Z) : uk_ring :=
  mk (br_prod_head br) (br_prod_tail br) (br_prod_size br) (br_prod_mask br) (br_drops br)
     (br_cons_head br) v (br_cons_size br) (br_cons_mask br) (br_ring br).
Definition set_ring (br : uk_ring) (l : list A) : uk_ring :=
  mk (br_prod_head br) (br_prod_tail br) (br_prod_size br) (br_prod_mask br) (br_drops br)
     (br_cons_head br) (br_cons_tail br) (br_cons_size br) (br_cons_mask br) l.

(** [ukarch_compare_exchange_sync] on the two heads: new state and success. *)
Definition cas_prod_head (br : uk_ring) (old new : Z) : bool * uk_ring :=
  if br_prod_head br =? old then (true, set_prod_head br new) else (false, br).
Definition cas_cons_head (br : uk_ring) (old new : Z) : bool * uk_ring :=
  if br_cons_head br =? old then (true, set_cons_head br new) else (false, br).

(** [while (br->br_prod_tail != prod_head) ukarch_spinwait();] *)
Definition wait_prod_tail (br : uk_ring) (prod_head : Z) : option unit :=
  if br_prod_tail br =? prod_head then Some tt else None.
Definition wait_cons_tail (br : uk_ring) (cons_head : Z) : option unit :=
  if br_cons_tail br =? cons_head then Some tt else None.

(** *** Construction *)

(** [br_alloc]: the array and the drop counter keep whatever [uk_malloc] returned
    ([mem], [drops]); [None] for the failed assertion, [Some None] for no memory. *)
Definition alloc (count : Z) (malloc : option (list A * Z)) : option (option uk_ring) :=
  if POWER_OF_2 count then
    match malloc with
    | None => Some None
    | Some (mem, drops) =>
        Some (Some (mk 0 0 count (count - 1) drops 0 0 count (count - 1) mem))
    end
  else None.

(** *** One element at a time *)

Definition enqueue (br : uk_ring) (buf : A) : option (Z * uk_ring) :=
  let prod_head := br_prod_head br in
  let prod_next := Z.land (u32 (prod_head + 1)) (br_prod_mask br) in
  let cons_tail := br_cons_tail br in
  if prod_next =? cons_tail then
    Some (- ENOBUFS, set_drops br (u64 (br_drops br + 1)))
  else
    let '(success, br) := cas_prod_head br prod_head prod_next in
    if negb success then None else
    ring' ← zset (br_ring br) prod_head buf;
    let br := set_ring br ring' in
    _ ← wait_prod_tail br prod_head;
    Some (0, set_prod_tail br prod_next).

Definition dequeue_mc (br : uk_ring) : option (option A * uk_ring) :=
  let cons_head := br_cons_head br in
  let cons_next := Z.land (u32 (cons_head + 1)) (br_cons_mask br) in
  if cons_head =? br_prod_tail br then Some (None, br)
  else
    let '(success, br) := cas_cons_head br cons_head cons_next in
    if negb success then None else
    buf ← zget (br_ring br) cons_head;
    _ ← wait_cons_tail br cons_head;
    Some (Some buf, set_cons_tail br cons_next).

(** [dequeue_sc] compares with its local [prod_tail], which nothing initialises: its value
    is the argument [prod_tail]. *)
Definition dequeue_sc (prod_tail : Z) (br : uk_ring) : option (option A * uk_ring) :=
  let cons_head := br_cons_head br in
  let cons_next := Z.land (u32 (cons_head + 1)) (br_cons_mask br) in
  if cons_head =? prod_tail then Some (None, br)
  else
    let br := set_cons_head br cons_next in
    buf ← zget (br_ring br) cons_head;
    Some (Some buf, set_cons_tail br cons_next).

Definition advance_sc (br : uk_ring) : uk_ring :=
  let cons_head := br_cons_head br in
  let prod_tail := br_prod_tail br in
  let cons_next := Z.land (u32 (cons_head + 1)) (br_cons_mask br) in
  if cons_head =? prod_tail then br
  else set_cons_tail (set_cons_head br cons_next) cons_next.

Definition putback_sc (br : uk_ring) (new : A) : option uk_ring :=
  if br_cons_head br =? br_prod_tail br then None
  else ring' ← zset (br_ring br) (br_cons_head br) new; Some (set_ring br ring').

Definition peek (br : uk_ring) : option (option A) :=
  if br_cons_head br =? br_prod_tail br then Some None
  else buf ← zget (br_ring br) (br_cons_head br); Some (Some buf).

(** Without DEBUG_BUFRING nothing is cleared. *)
Definition peek_clear_sc (br : uk_ring) : option (option A) :=
  if br_cons_head br =? br_prod_tail br then Some None
  else ret ← zget (br_ring br) (br_cons_head br); Some (Some ret).

Definition full (br : uk_ring) : bool :=
  Z.land (u32 (br_prod_head br + 1)) (br_prod_mask br) =? br_cons_tail br.

Definition empty (br : uk_ring) : bool := br_cons_head br =? br_prod_tail br.

Definition count (br : uk_ring) : Z :=
  Z.land (u32 (br_prod_size br + br_prod_tail br - br_cons_tail br)) (br_prod_mask br).

(** *** Several elements at a time *)

(** Result: number of elements, old head, new head, free entries before the move. *)
Definition move_prod_head (br : uk_ring) (is_sp : bool) (n : Z)
    : option (Z * Z * Z * Z * uk_ring) :=
  let capacity := u32 (br_prod_size br) in
  let old_head := br_prod_head br in
  let free_entries := u32 (capacity + br_cons_tail br - old_head) in
  let n := if free_entries <? n then free_entries else n in
  if n =? 0 then Some (0, old_head, old_head, free_entries, br)
  else
    let new_head := u32 (old_head + n) in
    if is_sp then Some (n, old_head, new_head, free_entries, set_prod_head br new_head)
    else
      let '(success, br) := cas_prod_head br old_head new_head in
      if negb success then None else Some (n, old_head, new_head, free_entries, br).

Definition move_cons_head (br : uk_ring) (is_sc : bool) (n : Z)
    : option (Z * Z * Z * Z * uk_ring) :=
  let old_head := br_cons_head br in
  let entries := u32 (br_prod_tail br - old_head) in
  let n := if entries <? n then entries else n in
  if n =? 0 then Some (0, old_head, old_head, entries, br)
  else
    let new_head := u32 (old_head + n) in
    if is_sc then Some (n, old_head, new_head, entries, set_cons_head br new_head)
    else
      let '(success, br) := cas_cons_head br old_head new_head in
      if negb success then None else Some (n, old_head, new_head, entries, br).

(** [dst[di] = src[si]] *)
Definition copy1 (dst : list A) (di : Z) (src : list A) (si : Z) : option (list A) :=
  x ← zget src si; zset dst di x.

(** The unrolled loop: four elements per round while [i < lim]; [i] is the running index
    of the caller's buffer, and both indices advance together. *)
Fixpoint copy4 (fuel : nat) (dst : list A) (di : Z) (src : list A) (si : Z) (i lim : Z)
    : option (list A * Z * Z * Z) :=
  if i <? lim then
    match fuel with
    | O => None
    | S fuel' =>
        dst ← copy1 dst di src si;
        dst ← copy1 dst (di + 1) src (si + 1);
        dst ← copy1 dst (di + 2) src (si + 2);
        dst ← copy1 dst (di + 3) src (si + 3);
        copy4 fuel' dst (di + 4) src (si + 4) (i + 4) lim
    end
  else Some (dst, di, si, i).

(** The [switch (n & 0x3)] with its fall-through cases. *)
Definition copy_tail (dst : list A) (di : Z) (src : list A) (si : Z) (sel : Z)
    : option (list A) :=
  if sel =? 3 then
    dst ← copy1 dst di src si;
    dst ← copy1 dst (di + 1) src (si + 1);
    copy1 dst (di + 2) src (si + 2)
  else if sel =? 2 then
    dst ← copy1 dst di src si;
    copy1 dst (di + 1) src (si + 1)
  else if sel =? 1 then copy1 dst di src si
  else Some dst.

(** A plain loop of [k] rounds [dst[di++] = src[si++]]. *)
Fixpoint copy_n (k : nat) (dst : list A) (di : Z) (src : list A) (si : Z)
    : option (list A) :=
  match k with
  | O => Some dst
  | S k' => dst ← copy1 dst di src si; copy_n k' dst (di + 1) src (si + 1)
  end.

Definition copy_unrolled (dst : list A) (di : Z) (src : list A) (si : Z) (n : Z)
    : option (list A) :=
  '(dst, di, si, i) ← copy4 (Z.to_nat n) dst di src si 0 (Z.land n (lnotw 32 0x3));
  copy_tail dst di src si (Z.land n 0x3).

(** [enqueue_bulk_mc]: number of elements, [*free_space], state. *)
Definition enqueue_bulk_mc (br : uk_ring) (buf : list A) (n : Z)
    : option (Z * Z * uk_ring) :=
  '(n, prod_head, prod_next, free_entries, br) ← move_prod_head br false n;
  if n =? 0 then Some (n, u32 (free_entries - n), br)
  else
    let idx := Z.land prod_head (br_prod_mask br) in
    ring' ←
      (if u32 (idx + n) <? u32 (br_prod_size br) then
         copy_unrolled (br_ring br) idx buf 0 n
       else
         let k := br_prod_size br - idx in
         ring1 ← copy_n (Z.to_nat k) (br_ring br) idx buf 0;
         copy_n (Z.to_nat (n - k)) ring1 0 buf k);
    let br := set_ring br ring' in
    _ ← wait_prod_tail br prod_head;
    Some (n, u32 (free_entries - n), set_prod_tail br prod_next).

(** [dequeue_bulk_mc]: number of elements, [*available], the caller's buffer, state. *)
Definition dequeue_bulk_mc (br : uk_ring) (buf : list A) (n : Z)
    : option (Z * Z * list A * uk_ring) :=
  '(n, cons_head, cons_next, entries, br) ← move_cons_head br false n;
  if n =? 0 then Some (n, u32 (entries - n), buf, br)
  else
    let idx := Z.land cons_head (br_cons_mask br) in
    buf' ←
      (if u32 (idx + n) <? u32 (br_cons_size br) then
         copy_unrolled buf 0 (br_ring br) idx n
       else
         let k := br_cons_size br - idx in
         buf1 ← copy_n (Z.to_nat k) buf 0 (br_ring br) idx;
         copy_n (Z.to_nat (n - k)) buf1 k (br_ring br) 0);
    _ ← wait_cons_tail br cons_head;
    Some (n, u32 (entries - n), buf', set_cons_tail br cons_next).
End Ops.
Arguments uk_ring A : clear implicits.

(** ** Copy loops *)
Section Copy.
Context {A : Type}.
Implicit Types (dst src : list A).

Lemma copy1_Some dst di src si :
  0 <= di < zlen dst -> 0 <= si < zlen src ->
  exists dst', copy1 dst di src si = Some dst' /\ length dst' = length dst /\
    forall j, zget dst' j = if decide (j = di) then zget src si else zget dst j.
Proof.
  intros Hd Hs. destruct (zget_is_Some src si Hs) as [x Hx]. unfold copy1. rewrite Hx. simpl.
  eexists. split; [by apply zset_is_Some|]. split; [by rewrite length_insert|].
  intros j. rewrite (zget_zset dst di j x _ (zset_is_Some _ _ _ Hd)).
  repeat case_decide; by subst.
Qed.

(** A loop of [k] rounds is defined when it stays inside both arrays, and changes exactly
    the [k] destination cells. *)
Lemma copy_n_Some k dst di src si :
  0 <= di -> di + Z.of_nat k <= zlen dst -> 0 <= si -> si + Z.of_nat k <= zlen src ->
  exists dst', copy_n k dst di src si = Some dst' /\ length dst' = length dst /\
    forall j, zget dst' j =
      if decide (di <= j < di + Z.of_nat k) then zget src (si + (j - di)) else zget dst j.
Proof.
  revert dst di si. induction k as [|k IH]; intros dst di si Hd Hd' Hs Hs'; cbn [copy_n].
  { exists dst. repeat split. intros j. by case_decide; [lia|]. }
  destruct (copy1_Some dst di src si) as (d1 & -> & Hl1 & Hg1); [lia..|]. simpl.
  destruct (IH d1 (di + 1) (si + 1)) as (d2 & -> & Hl2 & Hg2); [lia..|].
  exists d2. split; [done|]. split; [lia|]. intros j. rewrite Hg2, Hg1.
  repeat case_decide; try lia; subst; f_equal; lia.
Qed.

Lemma copy_n_app a b dst di src si :
  copy_n (a + b) dst di src si =
  (d ← copy_n a dst di src si; copy_n b d (di + Z.of_nat a) src (si + Z.of_nat a)).
Proof.
  revert dst di si. induction a as [|a IH]; intros dst di si; cbn [copy_n Nat.add].
  { simpl. by rewrite !Z.add_0_r. }
  destruct (copy1 dst di src si) as [d|]; [simpl|done]. rewrite IH.
  destruct (copy_n a d _ src _); [simpl|done]. f_equal; lia.
Qed.

Lemma copy4_copy_n m fuel dst di src si i lim :
  lim = i + 4 * Z.of_nat m -> (m <= fuel)%nat ->
  copy4 fuel dst di src si i lim =
  (d ← copy_n (4 * m) dst di src si;
   Some (d, di + 4 * Z.of_nat m, si + 4 * Z.of_nat m, lim)).
Proof.
  revert fuel dst di si i. induction m as [|m IH]; intros fuel dst di si i -> Hf.
  - replace (i + 4 * Z.of_nat 0) with i by lia. rewrite !Z.add_0_r.
    destruct fuel; cbn [copy4]; case_test; try lia; done.
  - destruct fuel as [|fuel]; [lia|]. cbn [copy4]. case_test; [|lia].
    replace (4 * S m)%nat with (S (S (S (S (4 * m))))) by lia. cbn [copy_n].
    rewrite <- !Z.add_assoc. simpl (1 + _).
    repeat (destruct (copy1 _ _ src _); simpl; [|done]).
    rewrite (IH fuel _ _ _ (i + 4)) by lia.
    rewrite <- !Z.add_assoc. change (1 + (1 + (1 + 1))) with 4.
    destruct (copy_n _ _ _ src _); simpl; [|done]. repeat f_equal; lia.
Qed.

(** The unrolled loop followed by the fall-through switch is the plain loop. *)
Lemma copy_unrolled_copy_n dst di src si n :
  n ∈u 32 -> copy_unrolled dst di src si n = copy_n (Z.to_nat n) dst di src si.
Proof.
  intros Hn. unfold copy_unrolled.
  assert (Hlow : Z.land n 3 = n mod 4) by exact (land_mask n 2 ltac:(lia)).
  assert (Hhi : Z.land n (lnotw 32 3) = 4 * (n / 4)).
  { rewrite <- (Z.mul_comm (n / 4)). change 4 with (2 ^ 2).
    rewrite <- Z.shiftr_div_pow2, <- Z.shiftl_mul_pow2, <- Z.ldiff_ones_r by lia.
    apply Z.bits_inj'. intros j Hj. rewrite Z.land_spec, Z.ldiff_spec. unfold lnotw.
    rewrite wrap_testbit, Z.lnot_spec by lia.
    destruct (Z.ltb_spec j 32); [done|]. by rewrite (in_u_testbit 32 n j). }
  rewrite Hlow, Hhi. unfold in_u in Hn.
  pose proof (Z.div_mod n 4 ltac:(lia)). pose proof (Z.mod_pos_bound n 4 ltac:(lia)).
  pose proof (Z.div_pos n 4 ltac:(lia) ltac:(lia)).
  rewrite (copy4_copy_n (Z.to_nat (n / 4))) by lia.
  replace (Z.to_nat n) with (4 * Z.to_nat (n / 4) + Z.to_nat (n mod 4))%nat by lia.
  rewrite copy_n_app. destruct (copy_n _ dst di src si) as [d|]; simpl; [|done].
  replace (Z.of_nat (_ + _)) with (4 * Z.of_nat (Z.to_nat (n / 4))) by lia.
  unfold copy_tail. assert (Hm : n mod 4 = 0 \/ n mod 4 = 1 \/ n mod 4 = 2 \/ n mod 4 = 3) by lia.
  destruct Hm as [-> | [-> | [-> | ->]]]; simpl; rewrite <- ?Z.add_assoc; simpl;
    try done; repeat (destruct (copy1 _ _ src _); simpl; try done).
Qed.
End Copy.

(** ** Representation

    [rep M k br q]: the ring of [2^k] slots holds the queue [q], with counters running modulo
    [M].  The one-element operations run them modulo the size, the bulk operations modulo
    [2^32]; both moduli are multiples of the size. *)
Section Rep.
Context {A : Type}.
Implicit Types (br : uk_ring A) (q : list A).

Record geometry (k : Z) br : Prop := {
  geo_k : 0 <= k <= 30;
  geo_psize : br_prod_size br = 2 ^ k;
  geo_csize : br_cons_size br = 2 ^ k;
  geo_pmask : br_prod_mask br = 2 ^ k - 1;
  geo_cmask : br_cons_mask br = 2 ^ k - 1;
  geo_len : zlen (br_ring br) = 2 ^ k
}.

Record rep (M k : Z) br q : Prop := {
  rep_geo : geometry k br;
  rep_mod : (2 ^ k | M);
  rep_Mpos : 0 < M <= 2 ^ 32;
  rep_ch : 0 <= br_cons_head br < M;
  rep_ct : br_cons_tail br = br_cons_head br;
  rep_pt : br_prod_tail br = br_prod_head br;
  rep_ph : br_prod_head br = (br_cons_head br + zlen q) mod M;
  rep_len : zlen q <= 2 ^ k;
  rep_slots i x : q !! i = Some x ->
    zget (br_ring br) ((br_cons_head br + Z.of_nat i) mod 2 ^ k) = Some x
}.

(** The bound that makes [2^k] a 32-bit size. *)
Lemma pow_k_bounds k : 0 <= k <= 30 -> 1 <= 2 ^ k <= 2 ^ 30.
Proof.
  intros Hk. split; [pose proof (pow2_pos k); lia|]. apply Z.pow_le_mono_r; lia.
Qed.

Lemma rep_slot_ph M k br q :
  rep M k br q -> br_prod_head br mod 2 ^ k = (br_cons_head br + zlen q) mod 2 ^ k.
Proof. intros R. rewrite (rep_ph _ _ _ _ R). apply Z.mod_mod_divide, (rep_mod _ _ _ _ R). Qed.

(** Counters range below [M]. *)
Lemma rep_ph_range M k br q : rep M k br q -> 0 <= br_prod_head br < M.
Proof.
  intros R. rewrite (rep_ph _ _ _ _ R). apply Z.mod_pos_bound, (rep_Mpos _ _ _ _ R).
Qed.

(** Dropping [m] elements: the head moves by [m], the array may not. *)
Lemma rep_drop M k br q m :
  rep M k br q -> 0 <= m <= zlen q ->
  rep M k (set_cons_tail (set_cons_head br ((br_cons_head br + m) mod M))
            ((br_cons_head br + m) mod M)) (drop (Z.to_nat m) q).
Proof.
  intros [G Hdiv HM Hch Hct Hpt Hph Hl Hs] Hm. split; cbn; try done.
  - by destruct G.
  - apply Z.mod_pos_bound. lia.
  - rewrite Hph, Zplus_mod_idemp_l, length_drop. f_equal. lia.
  - rewrite length_drop. lia.
  - intros i x. rewrite lookup_drop. intros Hi%Hs. rewrite <- Hi. f_equal.
    rewrite <- Zplus_mod_idemp_l, Z.mod_mod_divide, Zplus_mod_idemp_l by done. f_equal. lia.
Qed.

(** Appending: the slots from the producer head on hold the new elements and the old slots
    are unchanged. *)
Lemma rep_append M k br q xs ring' ph' :
  rep M k br q -> zlen q + zlen xs <= 2 ^ k -> length ring' = length (br_ring br) ->
  ph' = (br_prod_head br + zlen xs) mod M ->
  (forall i x, xs !! i = Some x ->
     zget ring' ((br_cons_head br + (zlen q + Z.of_nat i)) mod 2 ^ k) = Some x) ->
  (forall i, 0 <= i < zlen q ->
     zget ring' ((br_cons_head br + i) mod 2 ^ k) =
     zget (br_ring br) ((br_cons_head br + i) mod 2 ^ k)) ->
  rep M k (set_prod_tail (set_ring (set_prod_head br ph') ring') ph') (q ++ xs).
Proof.
  intros [G Hdiv HM Hch Hct Hpt Hph Hl Hs] Hlen Hlr -> Hnew Hold. split; cbn; try done.
  - destruct G. split; cbn; try done. by rewrite Hlr.
  - rewrite Hph, Zplus_mod_idemp_l, length_app. f_equal. lia.
  - rewrite length_app. lia.
  - intros i x Hi. apply lookup_app_Some in Hi as [Hi|[Hge Hi]].
    + rewrite Hold by (apply lookup_lt_Some in Hi; lia). by apply Hs.
    + rewrite <- (Hnew _ _ Hi). f_equal. f_equal. lia.
Qed.

Lemma rep_set_drops M k br q d : rep M k br q -> rep M k (set_drops br d) q.
Proof. intros [[] ???????? ]. split; cbn; try done. Qed.

(** *** One-element operations: counters modulo the size *)

(** One more than a counter, masked. *)
Lemma next_masked k h :
  0 <= k <= 30 -> 0 <= h < 2 ^ k -> Z.land (u32 (h + 1)) (2 ^ k - 1) = (h + 1) mod 2 ^ k.
Proof.
  intros Hk Hh. pose proof (pow_k_bounds k Hk).
  rewrite land_mask, wrap_small by (unfold in_u; lia). done.
Qed.

(** The producer's next slot is the consumer's exactly when one slot is left. *)
Lemma full_iff k br q :
  rep (2 ^ k) k br q -> zlen q < 2 ^ k ->
  full br = (zlen q =? 2 ^ k - 1) /\
  Z.land (u32 (br_prod_head br + 1)) (br_prod_mask br) = (br_prod_head br + 1) mod 2 ^ k.
Proof.
  intros R Hlt. pose proof (rep_ph_range _ _ _ _ R) as Hr.
  destruct R as [[Hk ? ? Hm ? ?] ? ? Hch Hct ? Hph ? ?].
  unfold full. rewrite Hm, next_masked by done. split; [|done].
  rewrite Hph, Zplus_mod_idemp_l, Hct, <- Z.add_assoc, mod_sum by lia.
  case_test; destruct (Z.eqb_spec (zlen q) (2 ^ k - 1));
    [apply Z.eqb_eq|apply Z.eqb_neq|apply Z.eqb_eq|apply Z.eqb_neq]; lia.
Qed.

Lemma empty_iff M k br q :
  rep M k br q -> zlen q < M -> empty br = match q with [] => true | _ => false end.
Proof.
  intros [? ? ? Hch ? Hpt Hph ? ?] Hlt. unfold empty. rewrite Hpt, Hph, mod_sum by lia.
  destruct q as [|x q]; simpl length in *; case_test; [apply Z.eqb_eq|apply Z.eqb_eq|apply Z.eqb_neq|apply Z.eqb_neq]; lia.
Qed.

Lemma enqueue_spec k br q x :
  rep (2 ^ k) k br q -> zlen q < 2 ^ k ->
  exists br', enqueue br x = Some (if zlen q <? 2 ^ k - 1 then 0 else - ENOBUFS, br') /\
    rep (2 ^ k) k br' (if zlen q <? 2 ^ k - 1 then q ++ [x] else q).
Proof.
  intros R Hlt. destruct (full_iff _ _ _ R Hlt) as [Hfull Hnext].
  pose proof (rep_ph_range _ _ _ _ R) as Hr. pose proof (rep_slot_ph _ _ _ _ R) as Hslot.
  unfold full in Hfull. unfold enqueue. rewrite Hnext in *.
  destruct (zlen q =? 2 ^ k - 1) eqn:Ef; rewrite Hfull; tests.
  - case_test; [lia|]. eexists. split; [done|]. by apply rep_set_drops.
  - case_test; [|lia]. pose proof (rep_geo _ _ _ _ R) as G.
    unfold cas_prod_head. rewrite Z.eqb_refl. cbn.
    rewrite zset_is_Some by (rewrite (geo_len _ _ G); lia). cbn.
    unfold wait_prod_tail. cbn. rewrite (rep_pt _ _ _ _ R), Z.eqb_refl. cbn.
    eexists. split; [done|].
    assert (Hz : zset (br_ring br) (br_prod_head br) x =
              Some (<[Z.to_nat (br_prod_head br) := x]> (br_ring br)))
      by (apply zset_is_Some; rewrite (geo_len _ _ G); lia).
    rewrite <- (Z.mod_small _ _ Hr) in Hz at 1. rewrite Hslot in Hz.
    apply (rep_append _ _ _ _ [x]); try done.
    + simpl. lia.
    + by rewrite length_insert.
    + intros [|i] y Hy; simplify_eq/=. rewrite Z.add_0_r. by eapply zget_zset_eq.
    + intros i Hi. eapply zget_zset_ne; [|exact Hz].
      intros Heq. symmetry in Heq. revert Heq. apply mod_ne; lia.
Qed.

Lemma head_slot M k br x q :
  rep M k br (x :: q) -> zget (br_ring br) (br_cons_head br mod 2 ^ k) = Some x.
Proof.
  intros R. rewrite <- (rep_slots _ _ _ _ R 0 x eq_refl). by rewrite Z.add_0_r.
Qed.

Lemma dequeue_mc_spec k br q :
  rep (2 ^ k) k br q -> zlen q < 2 ^ k ->
  exists br', dequeue_mc br = Some (head q, br') /\ rep (2 ^ k) k br' (tail q).
Proof.
  intros R Hlt. pose proof (empty_iff _ _ _ _ R Hlt) as He. unfold empty in He.
  unfold dequeue_mc. rewrite He. destruct q as [|x q].
  { exists br. by split. }
  pose proof (rep_ch _ _ _ _ R) as Hch. pose proof (rep_geo _ _ _ _ R) as G.
  unfold cas_cons_head. rewrite Z.eqb_refl. cbn.
  pose proof (head_slot _ _ _ _ _ R) as Hx. rewrite Z.mod_small in Hx by done.
  rewrite Hx. cbn. unfold wait_cons_tail. cbn. rewrite (rep_ct _ _ _ _ R), Z.eqb_refl. cbn.
  eexists. split; [done|]. rewrite (geo_cmask _ _ G), next_masked by (try done; apply G).
  apply (rep_drop _ _ _ _ 1 R). simpl. lia.
Qed.

Lemma count_spec k br q :
  rep (2 ^ k) k br q -> zlen q < 2 ^ k -> count br = zlen q.
Proof.
  intros [[Hk Hs ? Hm ? ?] ? ? Hch Hct Hpt Hph ? ?] Hlt. unfold count.
  pose proof (pow_k_bounds k Hk).
  rewrite Hs, Hm, Hct, Hpt, Hph, land_mask by lia.
  rewrite mod_sum by lia. etransitivity; [|apply (Z.mod_small _ (2 ^ k)); lia].
  case_test.
  - rewrite wrap_small by (unfold in_u; lia).
    replace (2 ^ k + _ - _) with (zlen q + 1 * 2 ^ k) by lia. apply Z_mod_plus_full.
  - rewrite wrap_small by (unfold in_u; lia). f_equal. lia.
Qed.

(** *** Bulk operations: counters modulo [2^32] *)

Lemma divide_2_32 k : 0 <= k <= 30 -> (2 ^ k | 2 ^ 32).
Proof. intros. exists (2 ^ (32 - k)). rewrite <- Z.pow_add_r by lia. f_equal. lia. Qed.

(** What [move_prod_head] computes: free space is the capacity minus the queue. *)
Lemma move_prod_head_spec k br q is_sp n :
  rep (2 ^ 32) k br q -> n ∈u 32 ->
  let m := Z.min n (2 ^ k - zlen q) in
  move_prod_head br is_sp n =
    Some (m, br_prod_head br, (br_prod_head br + m) mod 2 ^ 32, 2 ^ k - zlen q,
          set_prod_head br ((br_prod_head br + m) mod 2 ^ 32)).
Proof.
  intros R Hn m. pose proof (rep_ph_range _ _ _ _ R) as Hr.
  destruct R as [[Hk Hs ? ? ? ?] ? ? Hch Hct Hpt Hph Hl ?]. pose proof (pow_k_bounds k Hk).
  unfold in_u in Hn. unfold move_prod_head. rewrite Hs, (wrap_small 32 (2 ^ k)) by (unfold in_u; lia).
  assert (Hfree : u32 (2 ^ k + br_cons_tail br - br_prod_head br) = 2 ^ k - zlen q).
  { rewrite Hct, Hph. unfold wrap. rewrite Zminus_mod_idemp_r.
    replace (2 ^ k + _ - _) with (2 ^ k - zlen q) by lia. apply Z.mod_small. lia. }
  rewrite Hfree. assert (Hm : (if 2 ^ k - zlen q <? n then 2 ^ k - zlen q else n) = m)
    by (unfold m; case_test; lia).
  rewrite Hm. case_test.
  - rewrite E, Z.add_0_r, Z.mod_small by done. by destruct br.
  - unfold cas_prod_head. rewrite Z.eqb_refl. by destruct is_sp.
Qed.

Lemma move_cons_head_spec k br q is_sc n :
  rep (2 ^ 32) k br q -> n ∈u 32 ->
  let m := Z.min n (zlen q) in
  move_cons_head br is_sc n =
    Some (m, br_cons_head br, (br_cons_head br + m) mod 2 ^ 32, zlen q,
          set_cons_head br ((br_cons_head br + m) mod 2 ^ 32)).
Proof.
  intros R Hn m. destruct R as [[Hk ? ? ? ? ?] ? ? Hch Hct Hpt Hph Hl ?].
  pose proof (pow_k_bounds k Hk). unfold in_u in Hn. unfold move_cons_head.
  assert (Hent : u32 (br_prod_tail br - br_cons_head br) = zlen q).
  { rewrite Hpt, Hph. apply sub_mod. lia. }
  rewrite Hent. assert (Hm : (if zlen q <? n then zlen q else n) = m)
    by (unfold m; case_test; lia).
  rewrite Hm. case_test.
  - rewrite E, Z.add_0_r, Z.mod_small by done. by destruct br.
  - unfold cas_cons_head. rewrite Z.eqb_refl. by destruct is_sc.
Qed.

(** The two ways the bulk operations walk around the array, as one statement: [m] cells
    from [h mod 2^k] on, wrapping, are written from (or read into) the linear buffer. *)
Lemma ring_write_spec k (ring buf : list A) h m :
  0 <= k <= 30 -> zlen ring = 2 ^ k -> 0 < m <= 2 ^ k -> m <= zlen buf -> 0 <= h ->
  let idx := h mod 2 ^ k in
  exists ring',
    (if u32 (idx + m) <? u32 (2 ^ k) then copy_unrolled ring idx buf 0 m
     else ring1 ← copy_n (Z.to_nat (2 ^ k - idx)) ring idx buf 0;
          copy_n (Z.to_nat (m - (2 ^ k - idx))) ring1 0 buf (2 ^ k - idx)) = Some ring' /\
    length ring' = length ring /\
    (forall i, 0 <= i < m -> zget ring' ((h + i) mod 2 ^ k) = zget buf i) /\
    (forall i, m <= i < 2 ^ k -> zget ring' ((h + i) mod 2 ^ k) = zget ring ((h + i) mod 2 ^ k)).
Proof.
  intros Hk Hlen Hm Hb Hh idx. pose proof (pow_k_bounds k Hk).
  assert (Hidx : 0 <= idx < 2 ^ k) by (apply Z.mod_pos_bound; lia).
  assert (Hpos : forall i, 0 <= i < 2 ^ k ->
    (h + i) mod 2 ^ k = if idx + i <? 2 ^ k then idx + i else idx + i - 2 ^ k).
  { intros i Hi. rewrite <- Zplus_mod_idemp_l. fold idx. apply mod_sum; lia. }
  rewrite !wrap_small by (unfold in_u; lia). case_test.
  - rewrite copy_unrolled_copy_n by (unfold in_u; lia).
    destruct (copy_n_Some (Z.to_nat m) ring idx buf 0) as (r & -> & Hl & Hg); [lia..|].
    exists r. split; [done|]. split; [done|].
    split; intros i Hi; rewrite Hpos, Hg by lia; repeat case_test; case_decide;
      try lia; f_equal; lia.
  - destruct (copy_n_Some (Z.to_nat (2 ^ k - idx)) ring idx buf 0)
      as (r1 & -> & Hl1 & Hg1); [lia..|]. cbn.
    destruct (copy_n_Some (Z.to_nat (m - (2 ^ k - idx))) r1 0 buf (2 ^ k - idx))
      as (r2 & -> & Hl2 & Hg2); [lia..|].
    exists r2. split; [done|]. split; [lia|].
    split; intros i Hi; rewrite Hpos, Hg2, Hg1 by lia; repeat case_test; repeat case_decide;
      try lia; f_equal; lia.
Qed.

Lemma ring_read_spec k (ring buf : list A) h m :
  0 <= k <= 30 -> zlen ring = 2 ^ k -> 0 < m <= 2 ^ k -> m <= zlen buf -> 0 <= h ->
  let idx := h mod 2 ^ k in
  exists buf',
    (if u32 (idx + m) <? u32 (2 ^ k) then copy_unrolled buf 0 ring idx m
     else buf1 ← copy_n (Z.to_nat (2 ^ k - idx)) buf 0 ring idx;
          copy_n (Z.to_nat (m - (2 ^ k - idx))) buf1 (2 ^ k - idx) ring 0) = Some buf' /\
    length buf' = length buf /\
    forall i, zget buf' i = if decide (0 <= i < m) then zget ring ((h + i) mod 2 ^ k)
                            else zget buf i.
Proof.
  intros Hk Hlen Hm Hb Hh idx. pose proof (pow_k_bounds k Hk).
  assert (Hidx : 0 <= idx < 2 ^ k) by (apply Z.mod_pos_bound; lia).
  assert (Hpos : forall i, 0 <= i < 2 ^ k ->
    (h + i) mod 2 ^ k = if idx + i <? 2 ^ k then idx + i else idx + i - 2 ^ k).
  { intros i Hi. rewrite <- Zplus_mod_idemp_l. fold idx. apply mod_sum; lia. }
  rewrite !wrap_small by (unfold in_u; lia). case_test.
  - rewrite copy_unrolled_copy_n by (unfold in_u; lia).
    destruct (copy_n_Some (Z.to_nat m) buf 0 ring idx) as (r & -> & Hl & Hg); [lia..|].
    exists r. split; [done|]. split; [done|].
    intros i; rewrite Hg; repeat case_decide; try lia; try done; rewrite Hpos by lia; case_test; try lia;
      f_equal; lia.
  - destruct (copy_n_Some (Z.to_nat (2 ^ k - idx)) buf 0 ring idx)
      as (r1 & -> & Hl1 & Hg1); [lia..|]. cbn.
    destruct (copy_n_Some (Z.to_nat (m - (2 ^ k - idx))) r1 (2 ^ k - idx) ring 0)
      as (r2 & -> & Hl2 & Hg2); [lia..|].
    exists r2. split; [done|]. split; [lia|].
    intros i; rewrite Hg2, Hg1; repeat case_decide; try lia; try done; rewrite Hpos by lia; case_test;
      try lia; f_equal; lia.
Qed.

Lemma enqueue_bulk_spec k br q buf n :
  rep (2 ^ 32) k br q -> n ∈u 32 -> n <= zlen buf ->
  let m := Z.min n (2 ^ k - zlen q) in
  exists br', enqueue_bulk_mc br buf n = Some (m, 2 ^ k - zlen q - m, br') /\
    rep (2 ^ 32) k br' (q ++ take (Z.to_nat m) buf).
Proof.
  intros R Hn Hb m. pose proof (move_prod_head_spec k br q false n R Hn) as Hmv. fold m in Hmv.
  pose proof (rep_ph_range _ _ _ _ R) as Hr. pose proof (rep_slot_ph _ _ _ _ R) as Hslot.
  pose proof (rep_geo _ _ _ _ R) as G. pose proof (rep_len _ _ _ _ R) as Hl.
  pose proof (pow_k_bounds k (geo_k _ _ G)) as Hpk. unfold in_u in Hn.
  unfold enqueue_bulk_mc. rewrite Hmv. cbn. rewrite wrap_small by (unfold in_u; lia).
  destruct (Z.eqb_spec m 0) as [->|Hm0].
  { eexists. split; [done|]. simpl. rewrite app_nil_r, Z.add_0_r, Z.mod_small by done.
    by destruct br. }
  rewrite (geo_pmask _ _ G), (geo_psize _ _ G), land_mask by apply G.
  destruct (ring_write_spec k (br_ring br) buf (br_prod_head br) m) as (r & Hrun & Hlr & Hnew & Hold);
    [apply G|apply G|lia..|].
  setoid_rewrite Hrun. cbn. unfold wait_prod_tail. cbn.
  rewrite (rep_pt _ _ _ _ R), Z.eqb_refl. cbn. eexists. split; [done|].
  assert (Hlt : zlen (take (Z.to_nat m) buf) = m) by (rewrite length_take; lia).
  assert (Hsh : forall i, (br_prod_head br + i) mod 2 ^ k = (br_cons_head br + (zlen q + i)) mod 2 ^ k).
  { intros i. rewrite <- Zplus_mod_idemp_l, Hslot, Zplus_mod_idemp_l. f_equal. lia. }
  apply (rep_append _ _ _ _ (take (Z.to_nat m) buf)); rewrite ?Hlt; try done; try lia.
  - intros i x Hi. pose proof (lookup_lt_Some _ _ _ Hi). rewrite lookup_take_Some in Hi.
    rewrite <- Hsh, Hnew, zget_lookup by lia. apply Hi.
  - intros i Hi. specialize (Hold (2 ^ k - zlen q + i) ltac:(lia)). rewrite Hsh in Hold.
    replace (br_cons_head br + _) with (br_cons_head br + i + 1 * 2 ^ k) in Hold by lia.
    by rewrite Z_mod_plus_full in Hold.
Qed.

Lemma dequeue_bulk_spec k br q buf n :
  rep (2 ^ 32) k br q -> n ∈u 32 -> n <= zlen buf ->
  let m := Z.min n (zlen q) in
  exists br', dequeue_bulk_mc br buf n =
      Some (m, zlen q - m, take (Z.to_nat m) q ++ drop (Z.to_nat m) buf, br') /\
    rep (2 ^ 32) k br' (drop (Z.to_nat m) q).
Proof.
  intros R Hn Hb m. pose proof (move_cons_head_spec k br q false n R Hn) as Hmv. fold m in Hmv.
  pose proof (rep_geo _ _ _ _ R) as G. pose proof (rep_len _ _ _ _ R) as Hl.
  pose proof (rep_ch _ _ _ _ R) as Hch.
  pose proof (pow_k_bounds k (geo_k _ _ G)) as Hpk. unfold in_u in Hn.
  unfold dequeue_bulk_mc. rewrite Hmv. cbn. rewrite wrap_small by (unfold in_u; lia).
  destruct (Z.eqb_spec m 0) as [->|Hm0].
  { eexists. split; [done|]. rewrite Z.add_0_r, Z.mod_small by done. simpl. by destruct br. }
  rewrite (geo_cmask _ _ G), (geo_csize _ _ G), land_mask by apply G.
  destruct (ring_read_spec k (br_ring br) buf (br_cons_head br) m) as (b & Hrun & Hlb & Hg);
    [apply G|apply G|lia..|].
  setoid_rewrite Hrun. cbn. unfold wait_cons_tail. cbn.
  rewrite (rep_ct _ _ _ _ R), Z.eqb_refl. cbn. eexists. split.
  - repeat f_equal. apply list_eq. intros i. rewrite <- zget_lookup, Hg.
    case_decide as Hd.
    + destruct (lookup_lt_is_Some_2 q i) as [x Hx]; [lia|].
      rewrite (rep_slots _ _ _ _ R _ _ Hx), lookup_app_l, lookup_take_lt by (rewrite ?length_take; lia).
      done.
    + rewrite zget_lookup, lookup_app_r, lookup_drop, length_take by (rewrite length_take; lia).
      f_equal. lia.
  - apply rep_drop; [done|lia].
Qed.

(** A fresh ring is empty for either family of operations. *)
Lemma alloc_rep M k mem drops :
  0 <= k <= 30 -> zlen mem = 2 ^ k -> (2 ^ k | M) -> 0 < M <= 2 ^ 32 ->
  exists br, alloc (2 ^ k) (Some (mem, drops)) = Some (Some br) /\ rep M k br [].
Proof.
  intros Hk Hlen Hdiv HM. pose proof (pow_k_bounds k Hk) as Hp. unfold alloc, POWER_OF_2.
  rewrite wrap_small, (land_mask (2 ^ k)), Z_mod_same_full by (unfold in_u; lia).
  destruct (Z.eqb_spec 0 (2 ^ k)); [lia|]. cbn. eexists. split; [done|].
  split; cbn; try done; try lia.
Qed.
End Rep.

(** ** The ring as a bounded queue *)

(** A ring used through [enqueue] and [dequeue_mc] only; the size is part of its type. *)
Definition single (k : Z) (A : Type) : Type := uk_ring A.
#[global] Typeclasses Opaque single.

Definition single_step {A} (br : uk_ring A) (o : fifo_op A) : option (fifo_res A * uk_ring A) :=
  match o with
  | Put x => '(rc, br') ← enqueue br x; Some (if rc =? 0 then Done else Full, br')
  | Take =>
      '(r, br') ← dequeue_mc br;
      Some (match r with Some x => Got x | None => Empty end, br')
  end.

#[export, refine] Instance single_fifo k A : BoundedFifo (single k A) A := {|
  fifo_rep br q := rep (2 ^ k) k br q /\ zlen q < 2 ^ k;
  fifo_cap _ := 2 ^ k - 1;
  fifo_step := single_step
|}.
Proof.
  intros br q o [R Hlt]. destruct o as [x|]; unfold ref_step, single_step.
  - destruct (enqueue_spec k br q x R Hlt) as (br' & -> & R'). cbn. exists br'.
    destruct (Z.ltb_spec (zlen q) (2 ^ k - 1)); cbn; (split; [done|]); split; try done;
      (split; [done|]); rewrite ?length_app; simpl; lia.
  - destruct (dequeue_mc_spec k br q R Hlt) as (br' & -> & R'). cbn. exists br'.
    destruct q as [|y q]; cbn in *; (split; [done|]); split; try done; split; [done|lia].
Defined.

(** A ring used through the bulk operations, one element per call. *)
Definition bulk (k : Z) (A : Type) : Type := uk_ring A.
#[global] Typeclasses Opaque bulk.

Definition bulk_step {A} (br : uk_ring A) (o : fifo_op A) : option (fifo_res A * uk_ring A) :=
  match o with
  | Put x => '(n, _, br') ← enqueue_bulk_mc br [x] 1; Some (if n =? 1 then Done else Full, br')
  | Take =>
      match br_ring br with
      | [] => None
      | slot :: _ =>   (* any value serves as the initial content of the caller's buffer *)
          '(n, _, buf, br') ← dequeue_bulk_mc br [slot] 1;
          if n =? 1 then x ← zget buf 0; Some (Got x, br') else Some (Empty, br')
      end
  end.

#[export, refine] Instance bulk_fifo k A : BoundedFifo (bulk k A) A := {|
  fifo_rep br q := rep (2 ^ 32) k br q;
  fifo_cap _ := 2 ^ k;
  fifo_step := bulk_step
|}.
Proof.
  intros br q o R. pose proof (rep_len _ _ _ _ R) as Hl. pose proof (rep_geo _ _ _ _ R) as G.
  pose proof (pow_k_bounds k (geo_k _ _ G)) as Hpk.
  destruct o as [x|]; unfold ref_step, bulk_step.
  - destruct (enqueue_bulk_spec k br q [x] 1 R) as (br' & Hrun & R'); [done|done|].
    rewrite Hrun. cbn. exists br'. destruct (Z.ltb_spec (zlen q) (2 ^ k)); cbn.
    + rewrite Z.min_l in * by lia. done.
    + replace (Z.min 1 (2 ^ k - zlen q)) with 0 in * by lia. cbn in R'. by rewrite app_nil_r in R'.
  - pose proof (geo_len _ _ G) as Hlen. destruct (br_ring br) as [|slot rest]; [cbn in Hlen; lia|].
    destruct (dequeue_bulk_spec k br q [slot] 1 R) as (br' & Hrun & R'); [done|done|].
    rewrite Hrun. exists br'. destruct q as [|y q]; cbn in *.
    + done.
    + rewrite Z.min_l in * by lia. done.
Defined.

(** *** Properties *)

(** C6: a fresh ring of [2^k] slots, driven by any sequence of [enqueue] and [dequeue_mc]
    calls, never runs outside its array, never spins forever, and returns exactly the answers
    of a first-in first-out queue of capacity [2^k - 1]; in particular what was received
    followed by what is left is what was accepted, in order. *)
Theorem ring_single_refines_fifo {A} k (mem : list A) drops ops :
  0 <= k <= 30 -> zlen mem = 2 ^ k ->
  exists br br' q',
    alloc (2 ^ k) (Some (mem, drops)) = Some (Some br) /\
    fifo_run (T := single k A) br ops = Some ((ref_run (2 ^ k - 1) [] ops).1, br') /\
    rep (2 ^ k) k br' q' /\ zlen q' <= 2 ^ k - 1 /\
    received (ref_run (2 ^ k - 1) [] ops).1 ++ q' = accepted ops (ref_run (2 ^ k - 1) [] ops).1.
Proof.
  intros Hk Hlen. pose proof (pow_k_bounds k Hk).
  destruct (alloc_rep (2 ^ k) k mem drops) as (br & Ha & R); [done|done|by exists 1; lia|lia|].
  destruct (fifo_run_refines (T := single k A) br [] ops) as (br' & Hrun & R' & Hlt);
    [split; [done|cbn; lia]|].
  exists br, br', (ref_run (2 ^ k - 1) [] ops).2. cbn in *.
  split; [done|]. split; [done|]. split; [done|]. split; [lia|].
  apply (ref_run_order (2 ^ k - 1) [] ops). by destruct (ref_run _ _ _).
Qed.

Lemma ring_single_refines_fifo_witness :
  exists br br' q',
    alloc 2 (Some ([7; 7], 0)) = Some (Some br) /\
    fifo_run (T := single 1 Z) br [Put 1; Put 2; Take; Take] =
      Some ([Done; Full; Got 1; Empty], br') /\
    rep 2 1 br' q' /\ zlen q' <= 1 /\ [1] ++ q' = [1].
Proof.
  exact (ring_single_refines_fifo 1 [7; 7] 0 [Put 1; Put 2; Take; Take] ltac:(lia) eq_refl).
Defined.

(** The bulk operations on a ring of [2^k] slots that holds [q], with free-running 32-bit
    counters: [enqueue_bulk_mc] appends as many elements as fit, up to all [2^k] slots, and
    [dequeue_bulk_mc] then removes from the front, whichever way the four-fold unrolled or the
    wrapping copy loop is taken; the counts and remaining sizes they report are exact. *)
Theorem ring_bulk_spec {A} k (br : uk_ring A) q buf out n n' :
  rep (2 ^ 32) k br q -> n ∈u 32 -> n <= zlen buf -> n' ∈u 32 -> n' <= zlen out ->
  let m := Z.min n (2 ^ k - zlen q) in
  let q1 := q ++ take (Z.to_nat m) buf in
  let m' := Z.min n' (zlen q1) in
  exists br1 br2,
    enqueue_bulk_mc br buf n = Some (m, 2 ^ k - zlen q - m, br1) /\
    dequeue_bulk_mc br1 out n' =
      Some (m', zlen q1 - m', take (Z.to_nat m') q1 ++ drop (Z.to_nat m') out, br2) /\
    rep (2 ^ 32) k br2 (drop (Z.to_nat m') q1).
Proof.
  intros R Hn Hb Hn' Ho m q1 m'.
  destruct (enqueue_bulk_spec k br q buf n R Hn Hb) as (br1 & H1 & R1).
  destruct (dequeue_bulk_spec k br1 q1 out n' R1 Hn' Ho) as (br2 & H2 & R2).
  by exists br1, br2.
Qed.

(** A ring of four slots whose counters are about to wrap around. *)
Definition ring4 : uk_ring Z := mk 0 0 4 3 0 (2 ^ 32 - 2) (2 ^ 32 - 2) 4 3 [0; 0; 10; 11].

Lemma ring4_rep : rep (2 ^ 32) 2 ring4 [10; 11].
Proof.
  split; cbn; try lia; try done; [by exists (2 ^ 30)|].
  intros [|[|i]] x Hx; simplify_eq/=; reflexivity.
Qed.

Lemma ring_bulk_spec_witness :
  exists br1 br2,
    enqueue_bulk_mc ring4 [12; 13; 14] 3 = Some (2, 0, br1) /\
    dequeue_bulk_mc br1 [0; 0; 0] 3 = Some (3, 1, [10; 11; 12], br2) /\
    rep (2 ^ 32) 2 br2 [13].
Proof.
  exact (ring_bulk_spec 2 ring4 [10; 11] [12; 13; 14] [0; 0; 0] 3 3 ring4_rep
           ltac:(by compute) ltac:(by compute) ltac:(by compute) ltac:(by compute)).
Defined.

(** The observers and the single-consumer operations agree with the queue the ring
    holds: [count], [full] and [empty] are exact, [peek] and [peek_clear_sc] return the first
    element, [advance_sc] drops it and [putback_sc] replaces it, failing its assertion on an
    empty ring. *)
Theorem ring_observers {A} k (br : uk_ring A) q y :
  rep (2 ^ k) k br q -> zlen q < 2 ^ k ->
  count br = zlen q /\ full br = (zlen q =? 2 ^ k - 1) /\
  empty br = bool_decide (q = []) /\
  peek br = Some (head q) /\ peek_clear_sc br = peek br /\
  rep (2 ^ k) k (advance_sc br) (tail q) /\
  match q with
  | [] => putback_sc br y = None
  | _ :: q' => exists br', putback_sc br y = Some br' /\ rep (2 ^ k) k br' (y :: q')
  end.
Proof.
  intros R Hlt. pose proof (rep_ch _ _ _ _ R) as Hch. pose proof (rep_geo _ _ _ _ R) as G.
  pose proof (empty_iff _ _ _ _ R Hlt) as He. split; [by eapply count_spec|].
  split; [by eapply full_iff|]. rewrite He. unfold empty in He.
  unfold peek_clear_sc, peek, advance_sc, putback_sc. rewrite He.
  destruct q as [|x q]; [done|].
  pose proof (head_slot _ _ _ _ _ R) as Hx. rewrite Z.mod_small in Hx by done. rewrite Hx.
  repeat (split; [done|]). split.
  - rewrite (geo_cmask _ _ G), next_masked by (try done; apply G).
    apply (rep_drop _ _ _ _ 1 R). simpl. lia.
  - rewrite zset_is_Some by (rewrite (geo_len _ _ G); lia). cbn. eexists. split; [done|].
    destruct R as [[] ? ? ? ? ? ? Hl Hs]. split; cbn; try done.
    + split; cbn; try done. by rewrite length_insert.
    + intros [|i] z Hi; simpl in Hi; simplify_eq.
      * rewrite Z.add_0_r, Z.mod_small by done. unfold zget. case_test; [lia|].
        apply list_lookup_insert_eq. lia.
      * rewrite <- (Hs (S i) z Hi). eapply zget_zset_ne; [|apply zset_is_Some; lia].
        rewrite <- (Z.mod_small (br_cons_head br) (2 ^ k)) at 1 by lia.
        rewrite <- (Z.add_0_r (br_cons_head br)) at 1. apply lookup_lt_Some in Hi.
        apply mod_ne; simpl in *; lia.
Qed.

Definition ring2 : uk_ring Z := mk 0 0 2 1 0 1 1 2 1 [5; 6].

Lemma ring2_rep : rep (2 ^ 1) 1 ring2 [6].
Proof.
  split; cbn; try lia; try done. intros [|i] x Hx; simplify_eq/=; reflexivity.
Qed.

Lemma ring_observers_witness :
  count ring2 = 1 /\ full ring2 = true /\ peek ring2 = Some (Some 6) /\
  exists br', putback_sc ring2 9 = Some br' /\ rep 2 1 br' [9].
Proof.
  destruct (ring_observers 1 ring2 [6] 9 ring2_rep eq_refl)
    as (H1 & H2 & H3 & H4 & H5 & H6 & H7).
  exact (conj H1 (conj H2 (conj H4 H7))).
Defined.

(** [dequeue_sc] on an empty ring returns the stale content of a slot, and moves the consumer
    past the producer, for every value of its uninitialised [prod_tail] but one. *)
Theorem dequeue_sc_uninitialised {A} k (br : uk_ring A) prod_tail :
  rep (2 ^ k) k br [] -> prod_tail <> br_cons_head br ->
  exists x br', dequeue_sc prod_tail br = Some (Some x, br') /\
    zget (br_ring br) (br_cons_head br) = Some x /\
    br_cons_head br' = (br_prod_tail br + 1) mod 2 ^ k.
Proof.
  intros R Hne. pose proof (rep_ch _ _ _ _ R) as Hch. pose proof (rep_geo _ _ _ _ R) as G.
  unfold dequeue_sc. case_test; [congruence|].
  destruct (zget_is_Some (br_ring br) (br_cons_head br)) as [x Hx];
    [by rewrite (geo_len _ _ G)|].
  exists x. cbn. rewrite Hx. cbn. eexists. split; [done|]. split; [done|].
  cbn. rewrite (geo_cmask _ _ G), next_masked by (try done; apply G).
  rewrite (rep_pt _ _ _ _ R), (rep_ph _ _ _ _ R). cbn. by rewrite Z.add_0_r, Zplus_mod_idemp_l.
Qed.

(** The two families of operations do not mix: after a bulk enqueue of all four slots the
    producer counter is 4, and [enqueue] writes [br_ring[4]] of a four-element array. *)
Theorem ring_mixed_out_of_bounds :
  exists br br',
    alloc 4 (Some ([0; 0; 0; 0], 0)) = Some (Some br) /\
    enqueue_bulk_mc br [1; 2; 3; 4] 4 = Some (4, 0, br') /\
    br_prod_head br' = 4 /\ enqueue br' 5 = None.
Proof. do 2 eexists. repeat split; vm_compute; reflexivity. Qed.
End Ring.
