(* ===== verification/Mbox.v ===== *)
(** * Mbox: semaphores and the mailbox built on them

    Models [lib/uklock/include/uk/semaphore.h] (with [uk_semaphore_init] of
    [lib/uklock/semaphore.c]) and [lib/ukmpi/mbox.c].  The sequential operations are
    functions; the interleaving of threads, which may switch anywhere outside the sections
    that run with interrupts off, is the step relation [step] over those functions. *)
From Stdlib Require Import ZArith Lia Bool.
From stdpp Require Import relations.
From S2P Require Import Prelude Fifo.
Open Scope Z_scope.

Module Mbox.

Definition ENOBUFS : Z := 55.
Definition ENOMSG : Z := 83.
Definition L_MAX : Z := 2 ^ 63 - 1.
Definition NSEC_MAX : Z := 2 ^ 64 - 1.

(** ** Semaphores

    The count of a semaphore, a [long], is all that an operation reads or writes apart from the wait
    queue, which [MboxWait] adds, with the threads that sleep in it and are woken. *)

Record uk_semaphore := Sem { count : Z }.

Definition uk_semaphore_init (c : Z) : uk_semaphore := Sem c.

(** [None]: the caller stays in the wait queue. *)
Definition uk_semaphore_down (s : uk_semaphore) : option uk_semaphore :=
  if 0 <? count s then Some (Sem (count s - 1)) else None.

Definition uk_semaphore_down_try (s : uk_semaphore) : Z * uk_semaphore :=
  if 0 <? count s then (1, Sem (count s - 1)) else (0, s).

(** [clock i] is the [i]-th reading of [ukplat_monotonic_clock]; each round of the loop takes
    one.  [None] after [fuel] rounds: still waiting. *)
Fixpoint down_to_loop (clock : nat -> Z) (fuel i : nat) (s : uk_semaphore)
    (then_ deadline : Z) : option (Z * uk_semaphore) :=
  match fuel with
  | O => None
  | S fuel' =>
      if 0 <? count s then
        Some (u64 (clock i - then_), Sem (count s - 1))
      else if negb (deadline =? 0) && (deadline <=? clock i) then Some (NSEC_MAX, s)
      else down_to_loop clock fuel' (S i) s then_ deadline
  end.

Definition uk_semaphore_down_to (clock : nat -> Z) (fuel : nat) (s : uk_semaphore)
    (timeout : Z) : option (Z * uk_semaphore) :=
  let then_ := clock O in
  let deadline := u64 (then_ + timeout) in
  down_to_loop clock fuel 1 s then_ deadline.

Definition uk_semaphore_up (s : uk_semaphore) : uk_semaphore := Sem (sext 64 (count s + 1)).

(** ** The mailbox *)

Record uk_mbox := mk {
  len : Z;
  readsem : uk_semaphore;
  readpos : Z;
  writesem : uk_semaphore;
  writepos : Z;
  msgs : list Z
}.

Definition set_readsem (m : uk_mbox) (s : uk_semaphore) : uk_mbox :=
  mk (len m) s (readpos m) (writesem m) (writepos m) (msgs m).
Definition set_writesem (m : uk_mbox) (s : uk_semaphore) : uk_mbox :=
  mk (len m) (readsem m) (readpos m) s (writepos m) (msgs m).

(** [malloc n] is the memory behind the header of a block of [n] bytes, as pointers; [hdr] is
    [sizeof(struct uk_mbox)].  Outer [None]: the assertion. *)
Definition uk_mbox_create (hdr : Z) (malloc : Z -> option (list Z)) (size : Z)
    : option (option uk_mbox) :=
  if size <=? L_MAX then
    match malloc (u64 (hdr + u64 (8 * u64 (size + 1)))) with
    | None => Some None
    | Some mem =>
        Some (Some (mk (u64 (size + 1)) (uk_semaphore_init 0) 0
                       (uk_semaphore_init (sext 64 size)) 0 mem))
    end
  else None.

(** [uk_mbox_free]: [None] when messages are left. *)
Definition uk_mbox_free (m : uk_mbox) : option unit :=
  if readpos m =? writepos m then Some tt else None.

(** The section of [_do_mbox_post] that runs with interrupts off. *)
Definition post_irqoff (m : uk_mbox) (msg : Z) : option uk_mbox :=
  msgs' ← zset (msgs m) (writepos m) msg;
  let writepos' := u64 (writepos m + 1) mod len m in
  if readpos m =? writepos' then None
  else Some (mk (len m) (readsem m) (readpos m) (writesem m) writepos' msgs').

Definition _do_mbox_post (m : uk_mbox) (msg : Z) : option uk_mbox :=
  m ← post_irqoff m msg;
  Some (set_readsem m (uk_semaphore_up (readsem m))).

(** The outer [None] is an error, the inner one a blocked caller. *)
Definition uk_mbox_post (m : uk_mbox) (msg : Z) : option (option uk_mbox) :=
  match uk_semaphore_down (writesem m) with
  | None => Some None
  | Some s => m ← _do_mbox_post (set_writesem m s) msg; Some (Some m)
  end.

Definition uk_mbox_post_try (m : uk_mbox) (msg : Z) : option (Z * uk_mbox) :=
  let '(r, s) := uk_semaphore_down_try (writesem m) in
  if r =? 0 then Some (- ENOBUFS, set_writesem m s)
  else m ← _do_mbox_post (set_writesem m s) msg; Some (0, m).

Definition uk_mbox_post_to (clock : nat -> Z) (fuel : nat) (m : uk_mbox) (msg timeout : Z)
    : option (option (Z * uk_mbox)) :=
  match uk_semaphore_down_to clock fuel (writesem m) timeout with
  | None => Some None
  | Some (ret, s) =>
      if negb (ret =? NSEC_MAX) then
        m ← _do_mbox_post (set_writesem m s) msg; Some (Some (ret, m))
      else Some (Some (ret, set_writesem m s))
  end.

Definition recv_irqoff (m : uk_mbox) : option (Z * uk_mbox) :=
  if readpos m =? writepos m then None
  else
    ret ← zget (msgs m) (readpos m);
    Some (ret, mk (len m) (readsem m) (u64 (readpos m + 1) mod len m) (writesem m)
                  (writepos m) (msgs m)).

Definition _do_mbox_recv (m : uk_mbox) : option (Z * uk_mbox) :=
  '(ret, m) ← recv_irqoff m;
  Some (ret, set_writesem m (uk_semaphore_up (writesem m))).

Definition uk_mbox_recv (m : uk_mbox) : option (option (Z * uk_mbox)) :=
  match uk_semaphore_down (readsem m) with
  | None => Some None
  | Some s => r ← _do_mbox_recv (set_readsem m s); Some (Some r)
  end.

(** Result code, message written through [msg] on success, state. *)
Definition uk_mbox_recv_try (m : uk_mbox) : option (Z * option Z * uk_mbox) :=
  let '(r, s) := uk_semaphore_down_try (readsem m) in
  if r =? 0 then Some (- ENOMSG, None, set_readsem m s)
  else '(rmsg, m) ← _do_mbox_recv (set_readsem m s); Some (0, Some rmsg, m).

(** On a timeout the message is the null pointer. *)
Definition uk_mbox_recv_to (clock : nat -> Z) (fuel : nat) (m : uk_mbox) (timeout : Z)
    : option (option (Z * Z * uk_mbox)) :=
  match uk_semaphore_down_to clock fuel (readsem m) timeout with
  | None => Some None
  | Some (ret, s) =>
      if negb (ret =? NSEC_MAX) then
        '(rmsg, m) ← _do_mbox_recv (set_readsem m s); Some (Some (ret, rmsg, m))
      else Some (Some (ret, 0, set_readsem m s))
  end.

(** ** Threads

    Where a thread is in [uk_mbox_post] or [uk_mbox_recv]: between operations, holding a
    token and about to enter the section with interrupts off, or past it and about to give
    the other semaphore its token. *)
Inductive pc := Idle | PostToken (msg : Z) | Posted | RecvToken | Received (msg : Z).

#[export] Instance pc_eq_dec : EqDecision pc.
Proof. solve_decision. Defined.

Record system := Sys {
  box : uk_mbox;
  threads : list pc;
  sent : list Z;       (* messages in the order their posts entered the box *)
  got : list Z         (* messages in the order the receives took them *)
}.

Inductive step (s : system) : system -> Prop :=
| step_post_down t msg m' :
    threads s !! t = Some Idle ->
    uk_semaphore_down (writesem (box s)) = Some m' ->
    step s (Sys (set_writesem (box s) m') (<[t := PostToken msg]> (threads s)) (sent s) (got s))
| step_post_body t msg m' :
    threads s !! t = Some (PostToken msg) ->
    post_irqoff (box s) msg = Some m' ->
    step s (Sys m' (<[t := Posted]> (threads s)) (sent s ++ [msg]) (got s))
| step_post_up t :
    threads s !! t = Some Posted ->
    step s (Sys (set_readsem (box s) (uk_semaphore_up (readsem (box s))))
              (<[t := Idle]> (threads s)) (sent s) (got s))
| step_recv_down t m' :
    threads s !! t = Some Idle ->
    uk_semaphore_down (readsem (box s)) = Some m' ->
    step s (Sys (set_readsem (box s) m') (<[t := RecvToken]> (threads s)) (sent s) (got s))
| step_recv_body t msg m' :
    threads s !! t = Some RecvToken ->
    recv_irqoff (box s) = Some (msg, m') ->
    step s (Sys m' (<[t := Received msg]> (threads s)) (sent s) (got s ++ [msg]))
| step_recv_up t msg :
    threads s !! t = Some (Received msg) ->
    step s (Sys (set_writesem (box s) (uk_semaphore_up (writesem (box s))))
              (<[t := Idle]> (threads s)) (sent s) (got s)).

(** Fresh mailbox of [size] messages, [n] idle threads. *)
Definition initial (size : Z) (mem : list Z) (n : nat) : system :=
  Sys (mk (u64 (size + 1)) (uk_semaphore_init 0) 0 (uk_semaphore_init (sext 64 size)) 0 mem)
      (replicate n Idle) [] [].

(** ** Representation: positions and contents *)

Record rep (size : Z) (m : uk_mbox) (q : list Z) : Prop := {
  rep_size : 0 <= size < 2 ^ 60;
  rep_len : len m = size + 1;
  rep_msgs : size + 1 <= zlen (msgs m);
  rep_r : 0 <= readpos m < size + 1;
  rep_w : writepos m = (readpos m + zlen q) mod (size + 1);
  rep_q : zlen q <= size;
  rep_slots i x : q !! i = Some x ->
    zget (msgs m) ((readpos m + Z.of_nat i) mod (size + 1)) = Some x
}.

Lemma rep_sems size m q r w :
  rep size m q -> rep size (set_readsem (set_writesem m w) r) q.
Proof. by intros []. Qed.

Lemma rep_readsem size m q r : rep size m q -> rep size (set_readsem m r) q.
Proof. by intros []. Qed.

Lemma rep_writesem size m q w : rep size m q -> rep size (set_writesem m w) q.
Proof. by intros []. Qed.

#[export] Hint Resolve rep_readsem rep_writesem : uk.

(** A post into a box that is not full passes the assertion and appends. *)
Lemma post_irqoff_spec size m q msg :
  rep size m q -> zlen q < size ->
  exists m', post_irqoff m msg = Some m' /\ rep size m' (q ++ [msg]) /\
    readsem m' = readsem m /\ writesem m' = writesem m.
Proof.
  intros [Hs Hl Hm Hr Hw Hq Hsl] Hlt. unfold post_irqoff.
  assert (Hwr : 0 <= writepos m < size + 1) by (rewrite Hw; apply Z.mod_pos_bound; lia).
  assert (Hz : zset (msgs m) (writepos m) msg = Some (<[Z.to_nat (writepos m) := msg]> (msgs m)))
    by (apply zset_is_Some; lia).
  rewrite Hz. cbn. rewrite Hl, wrap_small by (unfold in_u; lia).
  assert (Hnext : (writepos m + 1) mod (size + 1) = (readpos m + (zlen q + 1)) mod (size + 1))
    by (rewrite Hw, Zplus_mod_idemp_l; f_equal; lia).
  rewrite Hnext. case_test.
  { rewrite mod_sum in E by lia. case_test; lia. }
  eexists. split; [done|]. split; [|done]. split; cbn; try done.
  - rewrite length_insert. lia.
  - rewrite length_app. f_equal. cbn. lia.
  - rewrite length_app. cbn. lia.
  - intros i x Hi. apply lookup_app_Some in Hi as [Hi|[Hge Hi]].
    + rewrite <- (Hsl _ _ Hi). eapply zget_zset_ne; [|exact Hz].
      rewrite Hw. intros Heq. symmetry in Heq. revert Heq. apply lookup_lt_Some in Hi.
      apply mod_ne; lia.
    + destruct (i - length q)%nat eqn:Ei; [|done]. simplify_eq/=.
      rewrite <- (zget_zset_eq _ _ _ _ Hz). f_equal. rewrite Hw. f_equal. lia.
Qed.

(** A receive from a box that is not empty passes the assertion and takes the first. *)
Lemma recv_irqoff_spec size m x q :
  rep size m (x :: q) ->
  exists m', recv_irqoff m = Some (x, m') /\ rep size m' q /\
    readsem m' = readsem m /\ writesem m' = writesem m.
Proof.
  intros [Hs Hl Hm Hr Hw Hq Hsl]. unfold recv_irqoff. simpl length in *. case_test.
  { rewrite Hw, mod_sum in E by lia. case_test; lia. }
  pose proof (Hsl O x eq_refl) as Hx. rewrite Z.add_0_r, Z.mod_small in Hx by done.
  rewrite Hx. cbn. eexists. split; [done|]. split; [|done].
  rewrite Hl, wrap_small by (unfold in_u; lia). split; cbn; try done.
  - apply Z.mod_pos_bound. lia.
  - rewrite Zplus_mod_idemp_l, Hw. f_equal. lia.
  - lia.
  - intros i y Hi. rewrite Zplus_mod_idemp_l, <- (Hsl (S i) y Hi). f_equal. f_equal. lia.
Qed.

Lemma sem_up c : 0 <= c < 2 ^ 62 -> uk_semaphore_up (Sem c) = Sem (c + 1).
Proof.
  intros Hc. unfold uk_semaphore_up, sext. cbn. rewrite wrap_small by (unfold in_u; lia).
  by case_test; [|lia].
Qed.

Lemma sem_down c s : uk_semaphore_down (Sem c) = Some s -> 0 < c /\ s = Sem (c - 1).
Proof. unfold uk_semaphore_down. intros H. case_test; simplify_eq. cbn in *. by split. Qed.

#[global] Arguments uk_semaphore_up : simpl never.

(** ** Token accounting *)

Fixpoint sum (f : pc -> Z) (l : list pc) : Z :=
  match l with [] => 0 | p :: l' => f p + sum f l' end.

Lemma sum_insert f l t p p' : l !! t = Some p -> sum f (<[t := p']> l) = sum f l - f p + f p'.
Proof.
  revert t. induction l as [|p0 l IH]; intros [|t] H; simplify_eq/=; [lia|].
  rewrite (IH _ H). lia.
Qed.

Lemma sum_ge f l t p : (forall p, 0 <= f p) -> l !! t = Some p -> f p <= sum f l.
Proof.
  intros Hf. assert (Hp : forall l, 0 <= sum f l).
  { intros l'. induction l' as [|p' l' IH]; simpl; [lia|]. specialize (Hf p'). lia. }
  revert t. induction l as [|p0 l IH]; intros [|t] H; simplify_eq/=.
  - specialize (Hp l). lia.
  - specialize (IH _ H). specialize (Hf p0). lia.
Qed.

Lemma sum_nonneg f l : (forall p, 0 <= f p) -> 0 <= sum f l.
Proof. intros Hf. induction l as [|p l IH]; simpl; [lia|]. specialize (Hf p). lia. Qed.

Lemma sum_zero f l : Forall (fun p => f p = 0) l -> sum f l = 0.
Proof. induction 1; simpl; lia. Qed.

(** Threads that account for a slot the box does not hold, and for a message the read
    semaphore does not count. *)
Definition wtok (p : pc) : Z := match p with PostToken _ | Received _ => 1 | _ => 0 end.
Definition rtok (p : pc) : Z := match p with Posted | RecvToken => 1 | _ => 0 end.

Record inv (size : Z) (s : system) (q : list Z) : Prop := {
  inv_rep : rep size (box s) q;
  inv_w : count (writesem (box s)) + sum wtok (threads s) + zlen q = size;
  inv_r : count (readsem (box s)) + sum rtok (threads s) = zlen q;
  inv_wpos : 0 <= count (writesem (box s));
  inv_rpos : 0 <= count (readsem (box s));
  inv_hist : got s ++ q = sent s
}.

Lemma wtok_nonneg p : 0 <= wtok p.
Proof. by destruct p. Qed.
Lemma rtok_nonneg p : 0 <= rtok p.
Proof. by destruct p. Qed.
#[export] Hint Resolve wtok_nonneg rtok_nonneg : uk.

(** The sums a step changes, computed; every case of the invariant uses it. *)
Ltac tokens H :=
  cbn; rewrite ?(sum_insert _ _ _ _ _ H); cbn;
  pose proof (sum_ge wtok _ _ _ wtok_nonneg H);
  pose proof (sum_ge rtok _ _ _ rtok_nonneg H); cbn in *.

Lemma inv_initial size mem n :
  0 <= size < 2 ^ 60 -> size + 1 <= zlen mem -> inv size (initial size mem n) [].
Proof.
  intros Hs Hm. assert (Hsz : sext 64 size = size).
  { unfold sext. rewrite wrap_small by (unfold in_u; lia). by case_test; [|lia]. }
  assert (H0 : forall f : pc -> Z, f Idle = 0 -> sum f (replicate n Idle) = 0)
    by (intros f Hf; by apply sum_zero, Forall_replicate).
  split; cbn; rewrite ?H0, ?Hsz by done; try lia; try done.
  split; cbn; rewrite ?wrap_small by (unfold in_u; lia); try done; try lia.
Qed.

Lemma inv_step size s q s' :
  inv size s q -> step s s' -> exists q', inv size s' q'.
Proof.
  intros [R Hw Hr Hwp Hrp Hh] Hst. pose proof (rep_size _ _ _ R) as Hsz.
  pose proof (rep_q _ _ _ R) as Hq.
  pose proof (sum_nonneg wtok (threads s) wtok_nonneg).
  pose proof (sum_nonneg rtok (threads s) rtok_nonneg).
  destruct Hst as [t msg m' Ht Hd|t msg m' Ht Hb|t Ht|t m' Ht Hd|t msg m' Ht Hb|t msg Ht].
  - destruct (writesem (box s)) as [c]. apply sem_down in Hd as [? ->]. exists q.
    split; tokens Ht; auto with uk; lia.
  - assert (zlen q < size) by (tokens Ht; lia).
    destruct (post_irqoff_spec size (box s) q msg R) as (m1 & Hm1 & R1 & Er & Ew); [done|].
    rewrite Hb in Hm1. injection Hm1 as <-. exists (q ++ [msg]).
    split; cbn; rewrite ?Er, ?Ew; tokens Ht; rewrite ?length_app; cbn; try lia; [done|].
    by rewrite app_assoc, Hh.
  - destruct (readsem (box s)) as [c] eqn:Ec. exists q. cbn in *.
    split; tokens Ht; rewrite ?Ec, ?sem_up by lia; cbn; auto with uk; lia.
  - destruct (readsem (box s)) as [c]. apply sem_down in Hd as [? ->]. exists q.
    split; tokens Ht; auto with uk; lia.
  - destruct q as [|x q]; [exfalso; tokens Ht; lia|].
    destruct (recv_irqoff_spec size (box s) x q R) as (m1 & Hm1 & R1 & Er & Ew).
    rewrite Hb in Hm1. injection Hm1 as <- <-. exists q.
    split; cbn; rewrite ?Er, ?Ew; tokens Ht; try lia; [done|]. by rewrite <- app_assoc.
  - destruct (writesem (box s)) as [c] eqn:Ec. exists q. cbn in *.
    split; tokens Ht; rewrite ?Ec, ?sem_up by lia; cbn; auto with uk; lia.
Qed.

Lemma inv_reachable size mem n s :
  0 <= size < 2 ^ 60 -> size + 1 <= zlen mem -> rtc step (initial size mem n) s ->
  exists q, inv size s q.
Proof.
  intros Hs Hm Hr. assert (H0 : exists q, inv size (initial size mem n) q)
    by (exists []; by apply inv_initial).
  induction Hr as [|s0 s1 s2 Hst Hr IH]; [done|]. apply IH. destruct H0 as [q Hq].
  by eapply inv_step.
Qed.

(** *** Properties *)

(** C5: however the threads interleave, a mailbox created for [size] messages never fails an
    assertion or leaves its array: a thread that holds a write token can always store its
    message and one that holds a read token always finds a message; the messages received are
    those sent, in the order they entered the box, and at most [size] are in it. *)
Theorem mbox_safe size mem n s :
  0 <= size < 2 ^ 60 -> size + 1 <= zlen mem -> rtc step (initial size mem n) s ->
  (forall t msg, threads s !! t = Some (PostToken msg) -> is_Some (post_irqoff (box s) msg)) /\
  (forall t, threads s !! t = Some RecvToken -> is_Some (recv_irqoff (box s))) /\
  exists q, got s ++ q = sent s /\ zlen q <= size.
Proof.
  intros Hs Hm Hr. destruct (inv_reachable _ _ _ _ Hs Hm Hr) as [q [R Hw Hrd Hwp Hrp Hh]].
  pose proof (sum_nonneg wtok (threads s) wtok_nonneg).
  pose proof (sum_nonneg rtok (threads s) rtok_nonneg).
  split; [|split; [|exists q; split; [done|apply R]]].
  - intros t msg Ht. tokens Ht.
    destruct (post_irqoff_spec size (box s) q msg R) as (m' & -> & _); [lia|by eexists].
  - intros t Ht. destruct q as [|x q]; [exfalso; tokens Ht; lia|].
    destruct (recv_irqoff_spec size (box s) x q R) as (m' & -> & _). by eexists.
Qed.

(** A mailbox of one message and two threads in the middle of a post and a receive: the
    receive holds the token of a message that was posted, the poster waits for room. *)
Definition box1 : uk_mbox := mk 2 (Sem 0) 0 (Sem 0) 1 [7; 0].

Definition sys1 : system := Sys box1 [Idle; RecvToken] [7] [].

Lemma sys1_reachable : rtc step (initial 1 [0; 0] 2) sys1.
Proof.
  eapply rtc_l; [apply (step_post_down _ 0 7 (Sem 0)); reflexivity|].
  eapply rtc_l; [eapply (step_post_body _ 0 7); reflexivity|].
  eapply rtc_l; [apply (step_post_up _ 0); reflexivity|].
  eapply rtc_l; [apply (step_recv_down _ 1 (Sem 0)); reflexivity|].
  apply rtc_refl.
Defined.

Lemma mbox_safe_witness : is_Some (recv_irqoff box1).
Proof.
  exact (proj1 (proj2 (mbox_safe 1 [0; 0] 2 sys1 ltac:(lia) ltac:(simpl; lia) sys1_reachable))
           1%nat eq_refl).
Defined.

(** ** The non-blocking operations as a bounded queue *)

(** A mailbox for [size] messages with no operation under way. *)
Definition sized (size : Z) : Type := uk_mbox.
#[global] Typeclasses Opaque sized.

Definition quiet (size : Z) (m : uk_mbox) (q : list Z) : Prop :=
  rep size m q /\ readsem m = Sem (zlen q) /\ writesem m = Sem (size - zlen q).

Lemma do_post_spec size m q w msg :
  rep size m q -> readsem m = Sem (zlen q) -> zlen q < size -> writesem m = Sem w ->
  exists m', _do_mbox_post m msg = Some m' /\ rep size m' (q ++ [msg]) /\
    readsem m' = Sem (zlen q + 1) /\ writesem m' = Sem w.
Proof.
  intros R Er Hlt Ew. pose proof (rep_size _ _ _ R).
  destruct (post_irqoff_spec size m q msg R Hlt) as (m' & Hm' & R' & Er' & Ew').
  unfold _do_mbox_post. rewrite Hm'. cbn. rewrite Er', Er, sem_up by lia.
  eexists. split; [done|]. cbn. rewrite Ew'. auto with uk.
Qed.

Lemma do_recv_spec size m x q r :
  rep size m (x :: q) -> writesem m = Sem (size - zlen (x :: q)) -> readsem m = Sem r ->
  exists m', _do_mbox_recv m = Some (x, m') /\ rep size m' q /\
    readsem m' = Sem r /\ writesem m' = Sem (size - zlen q).
Proof.
  intros R Ew Er. pose proof (rep_size _ _ _ R). pose proof (rep_q _ _ _ R). cbn [length] in *.
  destruct (recv_irqoff_spec size m x q R) as (m' & Hm' & R' & Er' & Ew').
  unfold _do_mbox_recv. rewrite Hm'. cbn. rewrite Ew', Ew, sem_up by lia.
  eexists. split; [done|]. cbn. rewrite Er'. split; [auto with uk|]. split; [done|]. f_equal. lia.
Qed.

Lemma post_try_spec size m q msg :
  quiet size m q ->
  exists m', uk_mbox_post_try m msg = Some (if zlen q <? size then 0 else - ENOBUFS, m') /\
    quiet size m' (if zlen q <? size then q ++ [msg] else q).
Proof.
  intros (R & Er & Ew). unfold uk_mbox_post_try, uk_semaphore_down_try. rewrite Ew. cbn.
  destruct (Z.ltb_spec (zlen q) size); destruct (Z.ltb_spec 0 (size - zlen q)); try lia; cbn.
  - destruct (do_post_spec size (set_writesem m (Sem (size - zlen q - 1))) q
                (size - zlen q - 1) msg) as (m' & -> & R' & Er' & Ew'); auto with uk.
    cbn. eexists. split; [done|]. split; [done|]. rewrite length_app. cbn.
    rewrite Er', Ew'. split; f_equal; lia.
  - eexists. split; [done|]. split; [auto with uk|]. by split.
Qed.

Lemma recv_try_spec size m q :
  quiet size m q ->
  exists m', uk_mbox_recv_try m =
      Some (match q with [] => - ENOMSG | _ => 0 end, head q, m') /\ quiet size m' (tail q).
Proof.
  intros (R & Er & Ew). unfold uk_mbox_recv_try, uk_semaphore_down_try. rewrite Er. cbn.
  destruct q as [|x q]; cbn [length].
  - cbn. eexists. split; [done|]. split; [auto with uk|]. by split.
  - destruct (Z.ltb_spec 0 (Z.of_nat (S (length q)))); [|lia]. cbn [fst snd Z.eqb].
    destruct (do_recv_spec size (set_readsem m (Sem (zlen q))) x q (zlen q))
      as (m' & Hm' & R' & Er' & Ew'); auto with uk.
    replace (Z.of_nat (S (length q)) - 1) with (zlen q) by lia. rewrite Hm'. cbn.
    eexists. split; [done|]. by split.
Qed.

Definition mbox_step (m : uk_mbox) (o : fifo_op Z) : option (fifo_res Z * uk_mbox) :=
  match o with
  | Put x => '(rc, m') ← uk_mbox_post_try m x; Some (if rc =? 0 then Done else Full, m')
  | Take =>
      '(rc, r, m') ← uk_mbox_recv_try m;
      Some (match r with Some x => Got x | None => Empty end, m')
  end.

#[export, refine] Instance mbox_fifo size : BoundedFifo (sized size) Z := {|
  fifo_rep := quiet size;
  fifo_cap _ := size;
  fifo_step := mbox_step
|}.
Proof.
  intros m q o Q. destruct o as [x|]; unfold ref_step, mbox_step.
  - destruct (post_try_spec size m q x Q) as (m' & -> & Q'). cbn. exists m'.
    by destruct (Z.ltb_spec (zlen q) size).
  - destruct (recv_try_spec size m q Q) as (m' & -> & Q'). cbn. exists m'.
    by destruct q as [|y q].
Defined.

(** With the documented behaviour of [uk_malloc] (a block of the requested size or
    nothing), [uk_mbox_create] fails or yields a mailbox whose [uk_mbox_post_try] and
    [uk_mbox_recv_try], in any sequence, answer like a first-in first-out queue of [size]
    messages, and which [uk_mbox_free] accepts exactly when it is empty. *)
Theorem mbox_try_refines_fifo hdr malloc size m ops :
  0 <= size < 2 ^ 60 -> 0 <= hdr < 2 ^ 60 ->
  (forall n mem, malloc n = Some mem -> n <= hdr + 8 * zlen mem) ->
  uk_mbox_create hdr malloc size = Some (Some m) ->
  exists m', fifo_run (T := sized size) m ops = Some ((ref_run size [] ops).1, m') /\
    quiet size m' (ref_run size [] ops).2 /\
    (uk_mbox_free m' = Some tt <-> (ref_run size [] ops).2 = []).
Proof.
  intros Hs Hh Hmalloc Hc. unfold uk_mbox_create in Hc. case_test; [|done].
  rewrite (wrap_small 64 (size + 1)), (wrap_small 64 (8 * _)), (wrap_small 64 (hdr + _)) in Hc
    by (unfold in_u; lia).
  destruct (malloc (hdr + 8 * (size + 1))) as [mem|] eqn:Em; [|done].
  apply Hmalloc in Em. injection Hc as <-.
  destruct (inv_initial size mem 0) as [R0 _ _ _ _ _]; [lia..|]. cbn [box initial] in R0.
  rewrite wrap_small in R0 by (unfold in_u; lia).
  assert (Q : quiet size (mk (size + 1) (uk_semaphore_init 0) 0
            (uk_semaphore_init (sext 64 size)) 0 mem) []).
  { split; [done|]. split; [done|]. cbn. rewrite Z.sub_0_r. unfold uk_semaphore_init, sext.
    rewrite wrap_small by (unfold in_u; lia). by case_test; [|lia]. }
  destruct (fifo_run_refines (H := mbox_fifo size) _ [] ops Q) as (m' & Hrun & Q').
  exists m'. split; [done|]. split; [done|]. cbn in Q'. destruct Q' as [[_ _ _ Hr Hw Hq _] _].
  unfold uk_mbox_free. rewrite Hw, mod_sum by lia.
  destruct (ref_run size [] ops).2 as [|x q']; cbn [length] in *;
    repeat case_test; split; intros; try lia; done.
Qed.

Lemma mbox_try_refines_fifo_witness :
  exists m', fifo_run (T := sized 1) (mk 2 (Sem 0) 0 (Sem 1) 0 [0; 0])
      [Put 4; Put 5; Take; Put 6] = Some ([Done; Full; Got 4; Done], m') /\
    quiet 1 m' [6] /\ (uk_mbox_free m' = Some tt <-> [6] = []).
Proof.
  apply (mbox_try_refines_fifo 64 (fun n => if n =? 80 then Some [0; 0] else None) 1
           (mk 2 (Sem 0) 0 (Sem 1) 0 [0; 0]) [Put 4; Put 5; Take; Put 6]);
    [lia|lia| |reflexivity].
  intros n mem. destruct (Z.eqb_spec n 80); [|done]. intros [= <-]. simpl. lia.
Defined.

(** ** Blocking and timed operations *)

Lemma down_to_token clock fuel s timeout :
  0 < count s -> (0 < fuel)%nat ->
  uk_semaphore_down_to clock fuel s timeout =
  Some (u64 (clock 1%nat - clock O), Sem (count s - 1)).
Proof.
  intros Hs Hf. unfold uk_semaphore_down_to. destruct fuel; [lia|]. cbn.
  by destruct (Z.ltb_spec 0 (count s)); [|lia].
Qed.

(** Without a token the wait ends at the first reading past the deadline. *)
Lemma down_to_expires clock fuel s timeout i :
  count s <= 0 -> u64 (clock O + timeout) <> 0 -> u64 (clock O + timeout) <= clock i ->
  (1 <= i <= fuel)%nat -> uk_semaphore_down_to clock fuel s timeout = Some (NSEC_MAX, s).
Proof.
  intros Hs Hd Hc Hi. unfold uk_semaphore_down_to. revert Hd Hc.
  generalize (u64 (clock O + timeout)) as deadline. intros deadline Hd Hc.
  assert (Hgen : forall k j, (j + k = i)%nat -> (k < fuel)%nat ->
    down_to_loop clock fuel j s (clock O) deadline = Some (NSEC_MAX, s)).
  { clear Hi. revert fuel. induction fuel as [|fuel IH]; intros k j Hj Hk; [lia|]. cbn.
    destruct (Z.ltb_spec 0 (count s)); [lia|].
    destruct (Z.eqb_spec deadline 0); [lia|]. cbn.
    destruct (Z.leb_spec deadline (clock j)); [done|].
    destruct k as [|k]; [replace j with i in * by lia; lia|]. apply (IH k); lia. }
  apply (Hgen (i - 1)%nat); lia.
Qed.

(** On a mailbox with no other operation under way, [uk_mbox_post] blocks exactly when it
    is full and [uk_mbox_recv] exactly when it is empty, and otherwise they append and take
    the first message; the timed variants do the same and report the elapsed time, and on an
    empty box [uk_mbox_recv_to] gives up at a clock reading past the deadline, returns the
    timeout value and a null message and leaves the box as it was. *)
Theorem mbox_blocking_timed size m q msg clock fuel timeout :
  quiet size m q -> (0 < fuel)%nat -> u64 (clock 1%nat - clock O) <> NSEC_MAX ->
  (if zlen q <? size
   then exists m', uk_mbox_post m msg = Some (Some m') /\ quiet size m' (q ++ [msg]) /\
          uk_mbox_post_to clock fuel m msg timeout =
            Some (Some (u64 (clock 1%nat - clock O), m'))
   else uk_mbox_post m msg = Some None) /\
  match q with
  | x :: q' => exists m', uk_mbox_recv m = Some (Some (x, m')) /\ quiet size m' q' /\
      uk_mbox_recv_to clock fuel m timeout =
        Some (Some (u64 (clock 1%nat - clock O), x, m'))
  | [] => uk_mbox_recv m = Some None /\
      forall i, (1 <= i <= fuel)%nat -> u64 (clock O + timeout) <> 0 ->
        u64 (clock O + timeout) <= clock i ->
        uk_mbox_recv_to clock fuel m timeout = Some (Some (NSEC_MAX, 0, m))
  end.
Proof.
  intros (R & Er & Ew) Hf Hne. split.
  - destruct (Z.ltb_spec (zlen q) size) as [Hlt|Hge];
      unfold uk_mbox_post, uk_mbox_post_to, uk_semaphore_down; rewrite Ew; cbn [count];
      destruct (Z.ltb_spec 0 (size - zlen q)); try lia; [|done].
    destruct (do_post_spec size (set_writesem m (Sem (size - zlen q - 1))) q
                (size - zlen q - 1) msg) as (m' & Hm' & R' & Er' & Ew'); auto with uk.
    rewrite down_to_token, Hm' by (cbn; lia). cbn [count]. rewrite Hm'. cbn -[NSEC_MAX wrap].
    destruct (Z.eqb_spec (u64 (clock 1%nat - clock O)) NSEC_MAX); [done|]. cbn.
    exists m'. split; [done|]. split; [|done]. split; [done|]. rewrite length_app. cbn.
    rewrite Er', Ew'. split; f_equal; lia.
  - unfold uk_mbox_recv, uk_mbox_recv_to, uk_semaphore_down. rewrite Er. cbn [count].
    destruct q as [|x q]; cbn [length].
    + split; [done|]. intros i Hi Hd Hc. cbn in Er.
      rewrite (down_to_expires _ _ _ _ i) by done. cbn. rewrite <- Er. by destruct m.
    + destruct (Z.ltb_spec 0 (Z.of_nat (S (length q)))); [|lia].
      rewrite down_to_token by (cbn; lia). cbn [count].
      replace (Z.of_nat (S (length q)) - 1) with (zlen q) by lia.
      destruct (do_recv_spec size (set_readsem m (Sem (zlen q))) x q (zlen q))
        as (m' & Hm' & R' & Er' & Ew'); auto with uk.
      rewrite Hm'. cbn -[NSEC_MAX wrap].
      destruct (Z.eqb_spec (u64 (clock 1%nat - clock O)) NSEC_MAX); [done|]. cbn.
      exists m'. split; [done|]. by split.
Qed.

Lemma quiet_empty1 : quiet 1 (mk 2 (Sem 0) 0 (Sem 1) 0 [0; 0]) [].
Proof. by repeat split. Qed.

Lemma mbox_blocking_timed_witness :
  uk_mbox_recv_to (fun i => 100 + 10 * Z.of_nat i) 3 (mk 2 (Sem 0) 0 (Sem 1) 0 [0; 0]) 15 =
    Some (Some (NSEC_MAX, 0, mk 2 (Sem 0) 0 (Sem 1) 0 [0; 0])).
Proof.
  apply (proj2 (proj2 (mbox_blocking_timed 1 _ [] 5 (fun i => 100 + 10 * Z.of_nat i) 3 15
           quiet_empty1 ltac:(lia) ltac:(by compute))) 2%nat); [lia|by compute|by compute].
Defined.
End Mbox.
