(* ===== verification/MboxWait.v ===== *)
(** * MboxWait: the mailbox with the wait queues of its semaphores

    [Mbox] models a semaphore by its count.  Here a thread that finds the count exhausted goes through the loop
    of [uk_waitq_wait_event] ([lib/uksched/include/uk/wait.h]): it enters the wait queue, gives up being
    runnable, tests the count again and yields, and goes on only when [uk_semaphore_up]
    ([lib/uklock/include/uk/semaphore.h]) has woken the threads of the queue.  A call that waits stays in its
    call.  Every run of this system is a run of [Mbox.step] with waiting threads seen as idle. *)
From Stdlib Require Import ZArith Lia Bool.
From stdpp Require Import relations.
From S2P Require Import Prelude Fifo Mbox.
Open Scope Z_scope.

Module MboxWait.
Import Mbox.

(** The call that a thread has made; both take a token of a semaphore first. *)
Inductive call := Post (msg : Z) | Recv.

(** Where a thread is: outside [uk_semaphore_down]; in it, in front of the wait; at the head of the loop of the
    wait; in the queue and in front of the test; in [uk_sched_yield]; behind the wait and in front of the
    section with interrupts off. *)
Inductive wpc := Run (p : pc) | Down (c : call) | Enter (c : call) | Test (c : call) | Yield (c : call) | Grab (c : call).

#[export] Instance call_eq_dec : EqDecision call.
Proof. solve_decision. Defined.
#[export] Instance wpc_eq_dec : EqDecision wpc.
Proof. solve_decision. Defined.

(** [runnable] has the flags of the threads, [wq] and [rq] are the wait queues of the two semaphores. *)
Record wsystem := WSys {
  wbox : uk_mbox;
  wq : list nat;
  rq : list nat;
  runnable : list bool;
  pcs : list wpc;
  wsent : list Z;
  wgot : list Z
}.

Definition sem_of (c : call) (m : uk_mbox) : uk_semaphore := match c with Post _ => writesem m | Recv => readsem m end.
Definition set_sem (c : call) (m : uk_mbox) (s : uk_semaphore) : uk_mbox := match c with Post _ => set_writesem m s | Recv => set_readsem m s end.
Definition queue (c : call) (s : wsystem) : list nat := match c with Post _ => wq s | Recv => rq s end.
Definition token (c : call) : pc := match c with Post msg => PostToken msg | Recv => RecvToken end.

Definition goto (s : wsystem) (t : nat) (p : wpc) : wsystem := WSys (wbox s) (wq s) (rq s) (runnable s) (<[t := p]> (pcs s)) (wsent s) (wgot s).
Definition with_runnable (s : wsystem) (r : list bool) : wsystem := WSys (wbox s) (wq s) (rq s) r (pcs s) (wsent s) (wgot s).
Definition set_queue (c : call) (s : wsystem) (q : list nat) : wsystem :=
  match c with
  | Post _ => WSys (wbox s) q (rq s) (runnable s) (pcs s) (wsent s) (wgot s)
  | Recv => WSys (wbox s) (wq s) q (runnable s) (pcs s) (wsent s) (wgot s)
  end.
Definition set_box (s : wsystem) (m : uk_mbox) : wsystem := WSys m (wq s) (rq s) (runnable s) (pcs s) (wsent s) (wgot s).

(** [uk_waitq_add], [uk_waitq_remove]: an entry is in its queue at most once. *)
Definition waitq_add (q : list nat) (t : nat) : list nat := if bool_decide (t ∈ q) then q else q ++ [t].
Definition waitq_remove (q : list nat) (t : nat) : list nat := filter (fun x => x <> t) q.

(** [uk_waitq_wake_up]: every thread of the queue becomes runnable. *)
Definition waitq_wake_up (q : list nat) (r : list bool) : list bool := foldl (fun r t => <[t := true]> r) r q.

(** [uk_semaphore_up] on the semaphore that calls like [c] wait for. *)
Definition sem_up_wake (c : call) (s : wsystem) : wsystem :=
  with_runnable (set_box s (set_sem c (wbox s) (uk_semaphore_up (sem_of c (wbox s))))) (waitq_wake_up (queue c s) (runnable s)).

(** The next step of thread [t] in its call; [None]: it makes no call, it waits to be woken, or an assertion fails. *)
Definition wadvance (s : wsystem) (t : nat) : option wsystem :=
  p ← pcs s !! t;
  match p with
  | Run Idle => None
  | Down c => Some (goto s t (if 0 <? count (sem_of c (wbox s)) then Grab c else Enter c))
  | Enter c => Some (goto (with_runnable (set_queue c s (waitq_add (queue c s) t)) (<[t := false]> (runnable s))) t (Test c))
  | Test c =>
      if 0 <? count (sem_of c (wbox s)) then
        Some (goto (set_queue c (with_runnable s (<[t := true]> (runnable s))) (waitq_remove (queue c s) t)) t (Grab c))
      else Some (goto s t (Yield c))
  | Yield c => r ← runnable s !! t; if r : bool then Some (goto s t (Enter c)) else None
  | Grab c =>
      match uk_semaphore_down (sem_of c (wbox s)) with
      | Some sem => Some (goto (set_box s (set_sem c (wbox s) sem)) t (Run (token c)))
      | None => Some (goto s t (Down c))
      end
  | Run (PostToken msg) =>
      m ← post_irqoff (wbox s) msg;
      Some (WSys m (wq s) (rq s) (runnable s) (<[t := Run Posted]> (pcs s)) (wsent s ++ [msg]) (wgot s))
  | Run Posted => Some (goto (sem_up_wake Recv s) t (Run Idle))
  | Run RecvToken =>
      '(msg, m) ← recv_irqoff (wbox s);
      Some (WSys m (wq s) (rq s) (runnable s) (<[t := Run (Received msg)]> (pcs s)) (wsent s) (wgot s ++ [msg]))
  | Run (Received msg) => Some (goto (sem_up_wake (Post 0) s) t (Run Idle))
  end.

(** Threads go on with their calls, or make one when they have none. *)
Inductive wstep (s : wsystem) : wsystem -> Prop :=
| w_call t c : pcs s !! t = Some (Run Idle) -> wstep s (goto s t (Down c))
| w_advance t s' : wadvance s t = Some s' -> wstep s s'.

Definition winitial (size : Z) (mem : list Z) (n : nat) : wsystem :=
  WSys (box (initial size mem n)) [] [] (replicate n true) (replicate n (Run Idle)) [] [].

(** ** A run of the simpler system *)

Definition outside (p : wpc) : pc := match p with Run p => p | _ => Idle end.
Definition abs (s : wsystem) : system := Sys (wbox s) (outside <$> pcs s) (wsent s) (wgot s).

Lemma outside_insert s t p p' : pcs s !! t = Some p -> outside p = outside p' -> outside <$> <[t := p']> (pcs s) = outside <$> pcs s.
Proof. intros H E. rewrite list_fmap_insert. apply list_insert_id. by rewrite list_lookup_fmap, H, <- E. Qed.

Lemma wstep_sim s s' : wstep s s' -> abs s' = abs s \/ step (abs s) (abs s').
Proof.
  intros [t c Ht|t s1 H].
  - left. unfold abs. cbn. by rewrite (outside_insert s t _ (Down c) Ht).
  - unfold wadvance in H. destruct (pcs s !! t) as [p|] eqn:Ht; [|done]. cbn [mbind option_bind] in H.
    assert (Hf : threads (abs s) !! t = Some (outside p)) by (cbn; by rewrite list_lookup_fmap, Ht).
    assert (Hsame : forall p', outside p = outside p' -> outside <$> <[t := p']> (pcs s) = outside <$> pcs s) by (intros p'; by apply outside_insert).
    destruct p as [[|msg| | |msg]|c|c|c|c|c]; cbn [outside] in Hf.
    + done.
    + right. destruct (post_irqoff (wbox s) msg) as [m|] eqn:E; [|done]. injection H as <-. unfold abs at 2. cbn. rewrite list_fmap_insert. by apply (step_post_body (abs s)).
    + right. injection H as <-. unfold abs at 2. cbn. rewrite list_fmap_insert. by apply (step_post_up (abs s)).
    + right. destruct (recv_irqoff (wbox s)) as [[msg m]|] eqn:E; [|done]. injection H as <-. unfold abs at 2. cbn. rewrite list_fmap_insert. by apply (step_recv_body (abs s)).
    + right. injection H as <-. unfold abs at 2. cbn. rewrite list_fmap_insert. by apply (step_recv_up (abs s) t msg).
    + left. injection H as <-. unfold abs. cbn. rewrite Hsame; [done|]. by destruct (_ <? _).
    + left. injection H as <-. unfold abs. destruct c; cbn; by rewrite Hsame.
    + left. destruct (_ <? _); injection H as <-; unfold abs; destruct c; cbn; by rewrite Hsame.
    + left. destruct (runnable s !! t) as [[|]|]; [|done..]. injection H as <-. unfold abs. cbn. by rewrite Hsame.
    + destruct (uk_semaphore_down _) as [sem|] eqn:E; injection H as <-.
      * right. unfold abs at 2. destruct c; cbn in *; rewrite list_fmap_insert; [by apply (step_post_down (abs s))|by apply (step_recv_down (abs s))].
      * left. unfold abs. cbn. by rewrite Hsame.
Qed.

Lemma abs_initial size mem n : abs (winitial size mem n) = initial size mem n.
Proof. unfold abs, winitial, initial. cbn. by rewrite fmap_replicate. Qed.

Lemma wreachable_sim size mem n s : rtc wstep (winitial size mem n) s -> rtc step (initial size mem n) (abs s).
Proof.
  rewrite <- (abs_initial size mem n). generalize (winitial size mem n). intros s0 H. induction H as [|s0 s1 s2 Hst _ IH]; [done|].
  destruct (wstep_sim _ _ Hst) as [<-|Hs]; [done|by eapply rtc_l].
Qed.

(** ** No wake-up is lost *)

(** A thread in front of the test or in the yield is in the queue; and one that sleeps has no token to wait for. *)
Record waits (s : wsystem) : Prop := {
  wt_flags : length (runnable s) = length (pcs s);
  wt_queued t c : pcs s !! t = Some (Test c) \/ pcs s !! t = Some (Yield c) -> t ∈ queue c s;
  wt_asleep t c : pcs s !! t = Some (Yield c) -> runnable s !! t = Some false -> count (sem_of c (wbox s)) <= 0
}.

Lemma wake_up_length q r : length (waitq_wake_up q r) = length r.
Proof. revert r. induction q as [|t q IH]; intros r; cbn; [done|]. fold (waitq_wake_up q (<[t := true]> r)). by rewrite IH, length_insert. Qed.

(** A thread that is still asleep was not in the queue. *)
Lemma wake_up_asleep q u : forall r, waitq_wake_up q r !! u = Some false -> (u ∉ q) /\ r !! u = Some false.
Proof.
  induction q as [|t q IH]; intros r; cbn; [intros H; split; [by apply not_elem_of_nil|done]|]. fold (waitq_wake_up q (<[t := true]> r)). intros H. apply IH in H as [Hq Hr].
  destruct (decide (t = u)) as [->|Hne].
  - exfalso. destruct (decide (u < length r)%nat) as [Hl|Hl]; [by rewrite list_lookup_insert_eq in Hr|]. rewrite list_insert_ge in Hr by lia. apply lookup_lt_Some in Hr. lia.
  - rewrite list_lookup_insert_ne in Hr by done. split; [|done]. by apply not_elem_of_cons.
Qed.

Lemma initial_waits size mem n : waits (winitial size mem n).
Proof.
  split; cbn; [by rewrite !length_replicate|intros t c [H|H]; apply lookup_replicate in H as [? _]; done|]. intros t c H. apply lookup_replicate in H as [? _]. done.
Qed.

(** A thread goes on to a place where it does not wait. *)
Lemma waits_goto s t p : waits s -> (forall c, p <> Test c /\ p <> Yield c) -> waits (goto s t p).
Proof.
  intros [W1 W2 W3] Hp. split; cbn; [by rewrite length_insert|..].
  - intros u c H. apply (W2 u c). destruct (decide (t = u)) as [->|Hne]; [|by rewrite !list_lookup_insert_ne in H by done].
    destruct (Hp c). destruct H as [H|H]; apply list_lookup_insert_Some in H as [(_ & E & _)|[? _]]; congruence.
  - intros u c H. apply (W3 u c). destruct (decide (t = u)) as [->|Hne]; [|by rewrite list_lookup_insert_ne in H by done].
    destruct (Hp c). apply list_lookup_insert_Some in H as [(_ & E & _)|[? _]]; congruence.
Qed.

Lemma waits_box s m : waits s -> (forall c, count (sem_of c m) <= count (sem_of c (wbox s))) -> waits (set_box s m).
Proof. intros [W1 W2 W3] Hm. split; cbn; [done|exact W2|]. intros t c H1 H2. specialize (W3 t c H1 H2). specialize (Hm c). lia. Qed.

Lemma waits_sent s l l' : waits s -> waits (WSys (wbox s) (wq s) (rq s) (runnable s) (pcs s) l l').
Proof. intros [W1 W2 W3]. by split. Qed.

(** Giving a token wakes all that wait for one. *)
Lemma waits_up s c : waits s -> waits (sem_up_wake c s).
Proof.
  intros [W1 W2 W3]. split; cbn; [by rewrite wake_up_length|intros t c' H; destruct c; exact (W2 t c' H)|]. intros t c' H1 H2. apply wake_up_asleep in H2 as [Hq Hr]. specialize (W3 t c' H1 Hr). pose proof (W2 t c' (or_intror H1)) as Hin.
  destruct c, c'; cbn in *; done.
Qed.

Lemma enter_waits s t c : waits s -> (t < length (pcs s))%nat ->
  waits (goto (with_runnable (set_queue c s (waitq_add (queue c s) t)) (<[t := false]> (runnable s))) t (Test c)).
Proof.
  intros [W1 W2 W3] Ht. assert (Hadd : forall c' u, u ∈ queue c' s \/ (u = t /\ queue c' s = queue c s /\ (forall q, queue c' (set_queue c s q) = q)) -> u ∈ queue c' (set_queue c s (waitq_add (queue c s) t))).
  { intros c' u Hu. assert (Hin : forall q, (u ∈ q \/ u = t) -> u ∈ waitq_add q t) by (intros q Hq; unfold waitq_add; case_bool_decide; [destruct Hq as [? | ->]; done|]; apply elem_of_app; destruct Hq as [? | ->]; [by left|right; by apply list_elem_of_singleton]).
    destruct Hu as [Hu|(-> & Hq & Hs)]; [|rewrite Hs; apply Hin; by right]. destruct c, c'; cbn in *; try done; apply Hin; by left. }
  split; cbn; [by rewrite !length_insert; destruct c; cbn|..].
  - intros u c' H. replace (queue c' _) with (queue c' (set_queue c s (waitq_add (queue c s) t))) by (by destruct c, c'). apply Hadd.
    destruct (decide (u = t)) as [->|Hne].
    + right. assert (c' = c) as ->; [|split; [done|]; split; [done|]; intros q; by destruct c]. destruct H as [H|H]; destruct c; cbn in H; rewrite list_lookup_insert_eq in H by done; congruence.
    + left. apply (W2 u c'). destruct c; cbn in H; by rewrite !list_lookup_insert_ne in H by done.
  - intros u c' H1 H2. assert (Hne : u <> t). { intros ->. destruct c; cbn in H1; rewrite list_lookup_insert_eq in H1 by done; congruence. }
    rewrite list_lookup_insert_ne in H2 by done. destruct c; cbn in H1 |- *; rewrite list_lookup_insert_ne in H1 by done; by apply (W3 u c').
Qed.

Lemma leave_waits s t c : waits s -> (t < length (pcs s))%nat ->
  waits (goto (set_queue c (with_runnable s (<[t := true]> (runnable s))) (waitq_remove (queue c s) t)) t (Grab c)).
Proof.
  intros [W1 W2 W3] Ht. split; cbn.
  - destruct c; cbn; by rewrite !length_insert.
  - intros u c' H. assert (Hne : u <> t). { intros ->. destruct c; cbn in H; rewrite list_lookup_insert_eq in H by done; naive_solver. }
    assert (Hu : u ∈ queue c' s) by (apply W2; destruct c; cbn in H; by rewrite !list_lookup_insert_ne in H by done).
    destruct c, c'; cbn in *; try done; apply list_elem_of_filter; done.
  - intros u c' H1 H2. assert (Hne : u <> t). { intros ->. destruct c; cbn in H1; rewrite list_lookup_insert_eq in H1 by done; done. }
    destruct c; cbn in *; rewrite list_lookup_insert_ne in H1 by done; rewrite list_lookup_insert_ne in H2 by done; by apply (W3 u c').
Qed.

Lemma yield_waits s t c : waits s -> pcs s !! t = Some (Test c) -> count (sem_of c (wbox s)) <= 0 -> waits (goto s t (Yield c)).
Proof.
  intros [W1 W2 W3] Ht Hc. split; cbn; [by rewrite length_insert|..].
  - intros u c' H. destruct (decide (u = t)) as [->|Hne]; [|apply W2; by rewrite !list_lookup_insert_ne in H by done].
    rewrite list_lookup_insert_eq in H by (by eapply lookup_lt_Some). assert (c' = c) as -> by (destruct H; congruence). apply W2. by left.
  - intros u c' H1 H2. destruct (decide (u = t)) as [->|Hne]; [|rewrite list_lookup_insert_ne in H1 by done; by apply (W3 u c')].
    rewrite list_lookup_insert_eq in H1 by (by eapply lookup_lt_Some). by injection H1 as <-.
Qed.

Lemma down_count c m sem : uk_semaphore_down (sem_of c m) = Some sem -> forall c', count (sem_of c' (set_sem c m sem)) <= count (sem_of c' m).
Proof.
  intros H c'. destruct (sem_of c m) as [n] eqn:E. apply sem_down in H as [Hn ->]. destruct c, c'; cbn in *; rewrite ?E; cbn; lia.
Qed.

Lemma wstep_waits s s' : wstep s s' -> waits s -> waits s'.
Proof.
  intros [t c Ht|t s1 H] W; [by apply waits_goto|]. unfold wadvance in H. destruct (pcs s !! t) as [p|] eqn:Ht; [|done]. cbn [mbind option_bind] in H. pose proof (lookup_lt_Some _ _ _ Ht) as Hl.
  destruct p as [[|msg| | |msg]|c|c|c|c|c].
  - done.
  - destruct (post_irqoff (wbox s) msg) as [m|] eqn:E; [|done]. injection H as <-. apply (waits_sent (goto (set_box s m) t (Run Posted))), waits_goto; [|done]. apply waits_box; [done|].
    unfold post_irqoff in E. apply bind_Some in E as (l & _ & E). destruct (_ =? _); [done|]. injection E as <-. intros []; cbn; lia.
  - injection H as <-. apply waits_goto; [by apply waits_up|done].
  - destruct (recv_irqoff (wbox s)) as [[msg m]|] eqn:E; [|done]. injection H as <-. apply (waits_sent (goto (set_box s m) t (Run (Received msg)))), waits_goto; [|done]. apply waits_box; [done|].
    unfold recv_irqoff in E. destruct (_ =? _); [done|]. apply bind_Some in E as (x & _ & [= _ <-]). intros []; cbn; lia.
  - injection H as <-. apply waits_goto; [by apply waits_up|done].
  - injection H as <-. apply waits_goto; [done|]. by destruct (_ <? _).
  - injection H as <-. by apply enter_waits.
  - destruct (Z.ltb_spec 0 (count (sem_of c (wbox s)))); injection H as <-; [by apply leave_waits|by apply yield_waits].
  - destruct (runnable s !! t) as [[|]|]; [|done..]. injection H as <-. by apply waits_goto.
  - destruct (uk_semaphore_down _) as [sem|] eqn:E; injection H as <-; apply waits_goto; try done. apply waits_box; [done|]. by apply down_count.
Qed.

Lemma wreachable_waits size mem n s : rtc wstep (winitial size mem n) s -> waits s.
Proof.
  assert (H0 : waits (winitial size mem n)) by apply initial_waits. revert H0. generalize (winitial size mem n). intros s0 H0 H. induction H as [|s0 s1 s2 Hst _ IH]; [done|]. apply IH. by eapply wstep_waits.
Qed.

(** A thread that cannot go on has no call, or sleeps in one. *)
Lemma stuck_sleeps size s q t p : inv size (abs s) q -> length (runnable s) = length (pcs s) -> pcs s !! t = Some p -> wadvance s t = None ->
  p = Run Idle \/ exists c, p = Yield c /\ runnable s !! t = Some false.
Proof.
  intros [R Hw Hr Hwp Hrp _] Hlen Ht H. unfold wadvance in H. rewrite Ht in H. cbn [mbind option_bind] in H. assert (Hf : threads (abs s) !! t = Some (outside p)) by (cbn; by rewrite list_lookup_fmap, Ht).
  pose proof (sum_nonneg wtok (threads (abs s)) wtok_nonneg). pose proof (sum_nonneg rtok (threads (abs s)) rtok_nonneg).
  destruct p as [[|msg| | |msg]|c|c|c|c|c]; cbn [outside] in Hf; try done.
  - by left.
  - exfalso. pose proof (sum_ge wtok _ _ _ wtok_nonneg Hf) as Hg. assert (Hq : zlen q < size). { change (wtok (PostToken msg)) with 1 in Hg. cbn [abs box threads] in *. lia. } destruct (post_irqoff_spec size (wbox s) q msg R Hq) as (m & E & _). rewrite E in H. done.
  - exfalso. pose proof (sum_ge rtok _ _ _ rtok_nonneg Hf) as Hg. change (rtok RecvToken) with 1 in Hg. destruct q as [|x q]; [cbn [length abs box threads] in *; lia|]. destruct (recv_irqoff_spec size (wbox s) x q R) as (m & E & _). rewrite E in H. done.
  - by destruct (_ <? _).
  - right. exists c. split; [done|]. destruct (lookup_lt_is_Some_2 (runnable s) t) as [r Er]; [rewrite Hlen; by eapply lookup_lt_Some|]. rewrite Er in H |- *. cbn in H. by destruct r.
  - by destruct (uk_semaphore_down _).
Qed.

(** C27: With the wait queues of the semaphores: no wake-up is lost, a thread that sleeps in a call waits for a
    semaphore without tokens.  When no thread can go on with its call, every thread is outside a call or sleeps in
    one, posters sleep only in front of a full box and receivers only in front of an empty one; so with room for a message
    never do both wait, and a thread that posts or receives what the other waits for can always do so. *)
Theorem mbox_no_deadlock size mem n s :
  0 < size < 2 ^ 60 -> size + 1 <= zlen mem -> rtc wstep (winitial size mem n) s ->
  (forall t c, pcs s !! t = Some (Yield c) -> runnable s !! t = Some false -> count (sem_of c (wbox s)) = 0) /\
  ((forall t, wadvance s t = None) ->
   exists q, wgot s ++ q = wsent s /\
     (forall t p, pcs s !! t = Some p -> p = Run Idle \/ (exists msg, p = Yield (Post msg) /\ zlen q = size) \/ (p = Yield Recv /\ q = [])) /\
     count (readsem (wbox s)) = zlen q /\ count (writesem (wbox s)) = size - zlen q).
Proof.
  intros Hs Hm Hr. pose proof (wreachable_waits size mem n s Hr) as W. destruct (inv_reachable size mem n (abs s) ltac:(lia) Hm (wreachable_sim _ _ _ _ Hr)) as [q I]. pose proof I as [R Hw Hrd Hwp Hrp Hh]. cbn [box abs] in *.
  split; [intros t c H1 H2; pose proof (wt_asleep _ W t c H1 H2); destruct c; cbn in *; lia|]. intros Hstuck. exists q. split; [done|].
  assert (Hcase : forall t p, pcs s !! t = Some p -> p = Run Idle \/ exists c, p = Yield c /\ runnable s !! t = Some false) by (intros t p Ht; eapply stuck_sleeps; [exact I|apply W|exact Ht|apply Hstuck]).
  assert (Hidle : forall f : pc -> Z, f Idle = 0 -> sum f (threads (abs s)) = 0).
  { intros f Hf. apply sum_zero, Forall_lookup_2. intros t p Hp. cbn in Hp. rewrite list_lookup_fmap in Hp. destruct (pcs s !! t) as [p0|] eqn:Ht; [|done]. injection Hp as <-. destruct (Hcase t p0 Ht) as [-> |(c & -> & _)]; done. }
  rewrite (Hidle wtok), (Hidle rtok) in * by done. split; [|lia]. intros t p Ht. destruct (Hcase t p Ht) as [-> |(c & -> & Hf)]; [by left|right]. pose proof (wt_asleep _ W t c Ht Hf) as Hz.
  destruct c as [msg|]; cbn in Hz; [left; exists msg; split; [done|lia]|right; split; [done|]]. destruct q; [done|cbn in Hrd; lia].
Qed.

(** A receiver that waits in front of an empty box, and a poster that has not yet given the token. *)
Definition wsys1 : wsystem := WSys (mk 2 (Sem 0) 0 (Sem 0) 1 [7; 0]) [] [0%nat] [false; true] [Yield Recv; Run Posted] [7] [].

(** A schedule: the thread to go on, or to make a call. *)
Fixpoint schedule (s : wsystem) (l : list (nat * option call)) : option wsystem :=
  match l with
  | [] => Some s
  | (t, None) :: l' => s' ← wadvance s t; schedule s' l'
  | (t, Some c) :: l' => if bool_decide (pcs s !! t = Some (Run Idle)) then schedule (goto s t (Down c)) l' else None
  end.

Lemma schedule_steps l : forall s s', schedule s l = Some s' -> rtc wstep s s'.
Proof.
  induction l as [|[t [c|]] l IH]; intros s s'; cbn [schedule]; [by intros [= <-]|..].
  - case_bool_decide as H; [|done]. intros Hs. eapply rtc_l; [by apply (w_call s t c)|]. by apply IH.
  - intros (s1 & H & Hs)%bind_Some. eapply rtc_l; [by apply (w_advance s t)|]. by apply IH.
Qed.

Lemma wsys1_reachable : rtc wstep (winitial 1 [0; 0] 2) wsys1.
Proof. apply (schedule_steps [(0, Some Recv); (0, None); (0, None); (0, None); (1, Some (Post 7)); (1, None); (1, None); (1, None)]%nat). by vm_compute. Qed.

Lemma mbox_no_deadlock_witness : count (readsem (wbox wsys1)) = 0.
Proof. exact (proj1 (mbox_no_deadlock 1 [0; 0] 2 wsys1 ltac:(lia) ltac:(simpl; lia) wsys1_reachable) 0%nat Recv eq_refl eq_refl). Defined.
End MboxWait.
