(* ===== verification/Region.v ===== *)
(** * Region: the bump allocator

    Models [lib/ukallocregion/region.c]: allocation moves [heap_base] up to [heap_top] and
    nothing is ever freed.  Addresses are 64-bit and wrap; the null pointer is 0. *)
From Stdlib Require Import ZArith Lia Bool.
From S2P Require Import Prelude.
Open Scope Z_scope.

Module Region.

Definition EINVAL : Z := 22.
Definition ENOMEM : Z := 12.
Definition PAGE_SIZE : Z := 4096.
Definition sizeof_ptr : Z := 8.

Record uk_allocregion := mk { heap_top : Z; heap_base : Z }.

Definition uk_allocregion_malloc (b : uk_allocregion) (size : Z) : Z * uk_allocregion :=
  let intptr := ALIGN_UP (heap_base b) sizeof_ptr in
  let newbase := u64 (intptr + size) in
  if heap_top b <? newbase then (0, b)
  else if newbase <=? heap_base b then (0, b)
  else (intptr, mk (heap_top b) newbase).

(** Error code, value stored in [*memptr] if any, state; [None] when an assertion on [align]
    fails. *)
Definition uk_allocregion_posix_memalign (b : uk_allocregion) (align size : Z)
    : option (Z * option Z * uk_allocregion) :=
  if negb (Z.land (u64 (align - 1)) align =? 0) then None
  else if negb (align mod sizeof_ptr =? 0) then None
  else if size =? 0 then Some (EINVAL, Some 0, b)
  else
    let intptr := ALIGN_UP (heap_base b) align in
    let newbase := u64 (intptr + size) in
    if heap_top b <? newbase then Some (ENOMEM, None, b)
    else if newbase <=? heap_base b then Some (EINVAL, None, b)
    else Some (0, Some intptr, mk (heap_top b) newbase).

Definition uk_allocregion_free (b : uk_allocregion) (ptr : Z) : uk_allocregion := b.

Definition uk_allocregion_addmem (b : uk_allocregion) (base size : Z) : Z * uk_allocregion :=
  (0, b).

(** [metalen] is [sizeof(struct uk_alloc) + sizeof(struct uk_allocregion)]. *)
Definition uk_allocregion_init (metalen base len : Z) : option uk_allocregion :=
  if len <=? PAGE_SIZE then None
  else if len <? metalen then None
  else Some (mk (u64 (base + len)) (u64 (base + metalen))).

(** ** Histories of requests *)

(** [Memalign k size] asks for alignment [2^k]. *)
Inductive request := Malloc (size : Z) | Memalign (k size : Z) | Free (ptr : Z).

(** The pointer and size a successful request handed out. *)
Definition serve (b : uk_allocregion) (r : request) : option (option (Z * Z) * uk_allocregion) :=
  match r with
  | Malloc size =>
      let '(p, b') := uk_allocregion_malloc b size in
      Some (if p =? 0 then None else Some (p, size), b')
  | Memalign k size =>
      '(rc, p, b') ← uk_allocregion_posix_memalign b (2 ^ k) size;
      Some (match p with Some p => if rc =? 0 then Some (p, size) else None | None => None end, b')
  | Free ptr => Some (None, uk_allocregion_free b ptr)
  end.

Fixpoint serve_all (b : uk_allocregion) (rs : list request)
    : option (list (Z * Z) * uk_allocregion) :=
  match rs with
  | [] => Some ([], b)
  | r :: rs' =>
      '(o, b') ← serve b r;
      '(blocks, b'') ← serve_all b' rs';
      Some (match o with Some blk => blk :: blocks | None => blocks end, b'')
  end.

(** Requests whose size leaves room for the alignment below [2^64]. *)
Definition sane (r : request) : Prop :=
  match r with
  | Malloc size => 0 <= size <= 2 ^ 64 - 8
  | Memalign k size => 3 <= k < 63 /\ 0 <= size <= 2 ^ 64 - 2 ^ k
  | Free _ => True
  end.

(** Room above the heap for the largest alignment in use. *)
Definition ok (room : Z) (b : uk_allocregion) : Prop :=
  0 < heap_base b <= heap_top b /\ heap_top b + room <= 2 ^ 64.

(** [(p, n)] lies in [lo, hi). *)
Definition within (lo hi : Z) (blk : Z * Z) : Prop := lo <= blk.1 /\ blk.1 + blk.2 <= hi.

Definition disjoint_blocks (b1 b2 : Z * Z) : Prop :=
  b1.1 + b1.2 <= b2.1 \/ b2.1 + b2.2 <= b1.1.

(** What one bump does, for both entry points. *)
Lemma bump k b size :
  0 <= k < 63 -> ok (2 ^ k) b -> 0 <= size <= 2 ^ 64 - 2 ^ k ->
  let p := ALIGN_UP (heap_base b) (2 ^ k) in
  let nb := u64 (p + size) in
  nb <= heap_top b -> heap_base b < nb ->
  nb = p + size /\ (2 ^ k | p) /\ 0 < p /\ within (heap_base b) nb (p, size) /\
  ok (2 ^ k) (mk (heap_top b) nb).
Proof.
  intros Hk [Hb Ht] Hs p nb H1 H2. pose proof (pow2_pos k ltac:(lia)).
  destruct (ALIGN_UP_bounds k (heap_base b)) as [Hp Hd]; [lia..|]. fold p in Hp, Hd.
  assert (Hnb : nb = p + size).
  { subst nb. unfold wrap in *. destruct (Z.ltb_spec (p + size) (2 ^ 64)).
    - rewrite Z.mod_small in *; lia.
    - replace (p + size) with (p + size - 2 ^ 64 + 1 * 2 ^ 64) in H1, H2 |- * by lia.
      rewrite Z_mod_plus_full, Z.mod_small in * by lia. lia. }
  split; [done|]. split; [done|]. split; [lia|]. split; [split; cbn; lia|]. split; cbn; lia.
Qed.

Lemma region_malloc_spec b size p b' :
  ok 8 b -> 0 <= size <= 2 ^ 64 - 8 -> uk_allocregion_malloc b size = (p, b') ->
  heap_top b' = heap_top b /\ heap_base b <= heap_base b' /\ ok 8 b' /\
  (p = 0 /\ b' = b \/
   p <> 0 /\ (8 | p) /\ within (heap_base b) (heap_base b') (p, size)).
Proof.
  intros Hok Hs Hm. unfold uk_allocregion_malloc in Hm.
  change sizeof_ptr with (2 ^ 3) in Hm.
  repeat case_test; simplify_eq; try (by intuition lia).
  destruct (bump 3 b size) as (-> & Hd & Hp & Hw & Hok'); [lia|done|lia|done|done|].
  cbn. destruct Hw as [Hw1 Hw2]. cbn in Hw1, Hw2. destruct Hok as [? ?].
  repeat split; try done; try lia; try apply Hok'. right. repeat split; cbn; try lia; done.
Qed.

Lemma region_memalign_spec room k b size :
  3 <= k < 63 -> 2 ^ k <= room -> ok room b -> 0 <= size <= 2 ^ 64 - 2 ^ k ->
  exists rc p b', uk_allocregion_posix_memalign b (2 ^ k) size = Some (rc, p, b') /\
  heap_top b' = heap_top b /\ heap_base b <= heap_base b' /\ ok room b' /\
  (rc <> 0 /\ b' = b \/
   rc = 0 /\ exists q, p = Some q /\ (2 ^ k | q) /\ within (heap_base b) (heap_base b') (q, size)).
Proof.
  intros Hk Hroom [Hb Ht] Hs. unfold uk_allocregion_posix_memalign.
  pose proof (pow2_pos k ltac:(lia)). pose proof (Z.pow_lt_mono_r 2 k 64 ltac:(lia) ltac:(lia)).
  assert (H1 : Z.land (u64 (2 ^ k - 1)) (2 ^ k) = 0).
  { rewrite wrap_small by (unfold in_u; lia). rewrite Z.land_comm, land_mask by lia.
    apply Z_mod_same_full. }
  assert (H2 : 2 ^ k mod sizeof_ptr = 0).
  { apply Z.mod_divide; [done|]. exists (2 ^ (k - 3)). change sizeof_ptr with (2 ^ 3).
    rewrite <- Z.pow_add_r by lia. f_equal. lia. }
  rewrite H1, H2. cbn [negb Z.eqb].
  repeat case_test; do 3 eexists; (split; [reflexivity|]);
    try (by unfold EINVAL, ENOMEM, ok; intuition lia).
  destruct (bump k b size) as (-> & Hd & Hp & Hw & Hok');
    [lia|by split; lia|lia|done|done|].
  cbn. destruct Hw as [Hw1 Hw2]. cbn in Hw1, Hw2. unfold ok in *. cbn in *.
  repeat split; try lia. right. split; [done|]. eexists. repeat split; cbn; try lia; done.
Qed.

(** One request: the heap only shrinks from below, by the block handed out. *)
Lemma serve_spec room b r :
  8 <= room -> (forall k size, r = Memalign k size -> 2 ^ k <= room) ->
  sane r -> ok room b ->
  exists o b', serve b r = Some (o, b') /\ heap_top b' = heap_top b /\
    heap_base b <= heap_base b' /\ ok room b' /\
    forall blk, o = Some blk -> within (heap_base b) (heap_base b') blk.
Proof.
  intros H8 Hroom Hs Hok. destruct r as [size|k size|ptr]; cbn in Hs |- *.
  - destruct (uk_allocregion_malloc b size) as [p b'] eqn:Em. apply region_malloc_spec in Em;
      [|unfold ok in *; lia|lia]. destruct Em as (Ht & Hb & Hok' & Hr).
    do 2 eexists. split; [done|]. split; [done|]. split; [done|].
    split; [unfold ok in *; lia|]. intros blk Hblk. case_test; simplify_eq.
    destruct Hr as [[? ?]|(? & ? & ?)]; [lia|done].
  - destruct Hs as [Hk Hs]. specialize (Hroom k size eq_refl).
    destruct (region_memalign_spec room k b size) as (rc & p & b' & Hm & Ht & Hb & Hok' & Hr);
      [done|done|done|done|]. rewrite Hm. cbn.
    do 2 eexists. split; [done|]. split; [done|]. split; [done|]. split; [done|].
    intros blk Hblk. destruct p as [p|]; [|done]. case_test; simplify_eq.
    destruct Hr as [[? ?]|(? & q & ? & ? & ?)]; [lia|by simplify_eq].
  - do 2 eexists. split; [done|]. unfold uk_allocregion_free.
    repeat split; try lia; try apply Hok; done.
Qed.

Definition align_bound (room : Z) (r : request) : Prop :=
  match r with Memalign k _ => 2 ^ k <= room | _ => True end.

Lemma serve_all_spec room b rs :
  8 <= room -> Forall sane rs -> Forall (align_bound room) rs -> ok room b ->
  exists blocks b', serve_all b rs = Some (blocks, b') /\ heap_base b <= heap_base b' /\
    heap_top b' = heap_top b /\ ok room b' /\
    Forall (within (heap_base b) (heap_base b')) blocks /\
    ForallOrdPairs disjoint_blocks blocks.
Proof.
  intros H8 Hs. revert b. induction Hs as [|r rs Hr Hs IH]; intros b Hal Hok.
  { exists [], b. repeat split; try lia; try apply Hok; constructor. }
  inversion Hal as [|? ? Ha Hal' E1]; subst.
  destruct (serve_spec room b r H8) as (o & b1 & H1 & Ht1 & Hb1 & Hok1 & Hblk); [|done|done|].
  { intros k size ->. exact Ha. }
  destruct (IH b1 Hal' Hok1) as (blocks & b2 & H2 & Hb2 & Ht2 & Hok2 & Hw & Hd).
  cbn. rewrite H1. cbn. rewrite H2. cbn. do 2 eexists. split; [done|].
  split; [lia|]. split; [congruence|]. split; [done|].
  assert (Hw' : Forall (within (heap_base b) (heap_base b2)) blocks).
  { eapply List.Forall_impl; [|exact Hw]. unfold within. intros ? ?. lia. }
  destruct o as [blk|]; [|done]. specialize (Hblk blk eq_refl). split.
  - constructor; [|done]. unfold within in *. lia.
  - constructor; [|done]. eapply List.Forall_impl; [|exact Hw].
    unfold within, disjoint_blocks in *. intros ? ?. lia.
Qed.

(** *** Properties *)

(** Over any sequence of [malloc], [posix_memalign] and [free] calls on a fresh region
    with sizes that leave room for the alignment, no assertion fails, every block handed out
    lies between the metadata and the end of the region, and no two of them overlap. *)
Theorem region_blocks_disjoint metalen base length room b rs :
  uk_allocregion_init metalen base length = Some b ->
  0 < base -> 0 <= metalen -> 8 <= room -> base + length + room <= 2 ^ 64 ->
  Forall sane rs -> Forall (align_bound room) rs ->
  exists blocks b', serve_all b rs = Some (blocks, b') /\
    Forall (within (base + metalen) (base + length)) blocks /\
    ForallOrdPairs disjoint_blocks blocks.
Proof.
  intros Hi Hb Hm H8 Hroom Hs Hal. unfold uk_allocregion_init in Hi. repeat case_test; simplify_eq.
  unfold PAGE_SIZE in *. rewrite !wrap_small by (unfold in_u; lia).
  destruct (serve_all_spec room (mk (base + length) (base + metalen)) rs)
    as (blocks & b' & H1 & Hb' & Ht' & Hok' & Hw & Hd); [done..|split; cbn; lia|].
  exists blocks, b'. split; [done|]. split; [|done]. eapply List.Forall_impl; [|exact Hw].
  unfold within, ok in *. cbn in *. intros ? ?. lia.
Qed.

Lemma region_blocks_disjoint_witness :
  exists blocks b',
    serve_all (mk 0x12000 0x10101) [Malloc 10; Memalign 6 100; Malloc 0x4000] = Some (blocks, b') /\
    Forall (within (0x10000 + 0x101) (0x10000 + 0x2000)) blocks /\
    ForallOrdPairs disjoint_blocks blocks.
Proof.
  apply (region_blocks_disjoint 0x101 0x10000 0x2000 64 (mk 0x12000 0x10101)
           [Malloc 10; Memalign 6 100; Malloc 0x4000]); try lia; try reflexivity;
    repeat first [apply List.Forall_nil | apply List.Forall_cons; [by compute|]].
Defined.

(** What a single [malloc] answers: it fails exactly when the aligned block would pass the
    end of the heap, or when nothing is requested from an aligned base; otherwise the block
    is pointer-aligned and the base moves just past it. *)
Theorem region_malloc_result b size :
  ok 8 b -> 0 <= size <= 2 ^ 64 - 8 ->
  let p := ALIGN_UP (heap_base b) 8 in
  uk_allocregion_malloc b size =
    if (heap_top b <? p + size) || (p + size =? heap_base b) then (0, b)
    else (p, mk (heap_top b) (p + size)).
Proof.
  intros Hok Hs p. pose proof Hok as [Hb Ht].
  destruct (ALIGN_UP_bounds 3 (heap_base b)) as [Hp Hd]; [lia..|].
  change (2 ^ 3) with 8 in Hp, Hd. fold p in Hp, Hd.
  unfold uk_allocregion_malloc. change sizeof_ptr with 8. fold p. unfold wrap.
  destruct (Z.ltb_spec (p + size) (2 ^ 64)) as [Hlt|Hge].
  - rewrite (Z.mod_small (p + size)) by lia.
    destruct (Z.ltb_spec (heap_top b) (p + size)); [done|]. cbn.
    destruct (Z.leb_spec (p + size) (heap_base b)), (Z.eqb_spec (p + size) (heap_base b));
      lia || done.
  - assert (Hnb : (p + size) mod 2 ^ 64 <= heap_base b).
    { replace (p + size) with (p + size - 2 ^ 64 + 1 * 2 ^ 64) by lia.
      rewrite Z_mod_plus_full, Z.mod_small by lia. lia. }
    destruct (Z.ltb_spec (heap_top b) (p + size)); [cbn|lia].
    repeat case_test; lia || done.
Qed.

Lemma region_malloc_result_witness :
  uk_allocregion_malloc (mk 0x2000 0x1001) 16 = (0x1008, mk 0x2000 0x1018).
Proof.
  apply (region_malloc_result (mk 0x2000 0x1001) 16); [split; cbn; lia|lia].
Defined.

(** The overflow check compares with the unaligned base: a request for all but five bytes of
    the address space wraps around to just above it and is granted. *)
Theorem region_malloc_overflow :
  uk_allocregion_malloc (mk 0x2000 0x1001) (2 ^ 64 - 5) = (0x1008, mk 0x2000 0x1003).
Proof. reflexivity. Qed.
End Region.
