(* ===== verification/BBuddyMap.v ===== *)
(** * BBuddyMap: the allocation bitmap of the buddy allocator

    Models the data structures and the bitmap of [lib/ukallocbbuddy/bbuddy.c]: memory
    regions, [map_get_memr], [allocated_in_map], [map_alloc] and [map_free].  One bit per
    page, set when the page is allocated, in words of 64 bits.  The main lemmas say that the
    word-level loops change exactly the bits of the pages they name. *)
From Stdlib Require Import ZArith Lia Bool.
From stdpp Require Import gmap.
From S2P Require Import Prelude.
Open Scope Z_scope.

Module BBuddy.

Definition PAGE_SHIFT : Z := 12.
Definition PAGE_SIZE : Z := 4096.
Definition FREELIST_SIZE : Z := 52.
Definition BITS_PER_BYTE : Z := 8.
Definition BYTES_PER_MAPWORD : Z := 8.
Definition PAGES_PER_MAPWORD : Z := 64.

(** A pointer to a chunk head: a chunk at an address, the sentinel [&free_tail[i]], or NULL. *)
Inductive cptr := Null | Chunk (a : Z) | Tail (i : Z).

(** A pointer to such a pointer: [&free_head[i]], or [&ch->next] of the chunk at [a]. *)
Inductive pptr := FreeHead (i : Z) | NextOf (a : Z).

Record chunk_head_st := ChunkHead { next : cptr; pprev : pptr; level : Z }.

Record uk_bbpalloc_memr := Memr {
  first_page : Z;
  nr_pages : Z;
  mm_alloc_bitmap_size : Z;
  mm_alloc_bitmap : list Z
}.

(** The allocator.  [heads] and [tails] are the chunk heads and tails that live in the
    managed memory itself, by the address of the chunk and of its tail; [memr_head] is the
    linked list of regions, first one first. *)
Record uk_bbpalloc := BB {
  nr_free_pages : Z;
  free_head : list cptr;
  free_tail : list chunk_head_st;
  memr_head : list uk_bbpalloc_memr;
  heads : gmap Z chunk_head_st;
  tails : gmap Z Z
}.

#[export] Instance cptr_eq_dec : EqDecision cptr.
Proof. solve_decision. Defined.
#[export] Instance pptr_eq_dec : EqDecision pptr.
Proof. solve_decision. Defined.

Definition memr_end (m : uk_bbpalloc_memr) : Z :=
  u64 (first_page m + u64 (Z.shiftl (nr_pages m) PAGE_SHIFT)).

(** The position of the region in the list, and the region. *)
Fixpoint map_get_memr (l : list uk_bbpalloc_memr) (page_va : Z)
    : option (nat * uk_bbpalloc_memr) :=
  match l with
  | [] => None
  | m :: l' =>
      if (first_page m <=? page_va) && (page_va <? memr_end m) then Some (0%nat, m)
      else '(i, m') ← map_get_memr l' page_va; Some (S i, m')
  end.

(** [Some true] for a page outside every region; [None] for a read outside the bitmap. *)
Definition allocated_in_map (l : list uk_bbpalloc_memr) (page_va : Z) : option bool :=
  match map_get_memr l page_va with
  | None => Some true
  | Some (_, memr) =>
      let page_idx := Z.shiftr (u64 (page_va - first_page memr)) PAGE_SHIFT in
      let bm_idx := page_idx / PAGES_PER_MAPWORD in
      let bm_off := Z.land page_idx (PAGES_PER_MAPWORD - 1) in
      w ← zget (mm_alloc_bitmap memr) bm_idx;
      Some (negb (Z.land w (u64 (Z.shiftl 1 bm_off)) =? 0))
  end.

(** [bitmap[idx] |= m] and [bitmap[idx] &= m].  When a range ends at a word boundary the code
    applies the neutral mask to the word after it, which may lie just behind the bitmap: that
    word is read and written back unchanged. *)
Definition word_or (bm : list Z) (idx m : Z) : option (list Z) :=
  match zget bm idx with
  | Some w => zset bm idx (Z.lor w m)
  | None => if (idx =? zlen bm) && (m =? 0) then Some bm else None
  end.

Definition word_and (bm : list Z) (idx m : Z) : option (list Z) :=
  match zget bm idx with
  | Some w => zset bm idx (Z.land w m)
  | None => if (idx =? zlen bm) && (m =? 2 ^ 64 - 1) then Some bm else None
  end.

(** [while (++curr_idx < end_idx) bitmap[curr_idx] = v;] for [k] rounds. *)
Fixpoint fill_words (k : nat) (bm : list Z) (idx v : Z) : option (list Z) :=
  match k with
  | O => Some bm
  | S k' => bm ← zset bm idx v; fill_words k' bm (idx + 1) v
  end.

(** [-(1UL << off)] and [(1UL << off) - 1]. *)
Definition mask_from (off : Z) : Z := u64 (- u64 (Z.shiftl 1 off)).
Definition mask_below (off : Z) : Z := u64 (u64 (Z.shiftl 1 off) - 1).

(** The bitmap part of [map_alloc], from page index [first_page_idx] on. *)
Definition bitmap_alloc (bm : list Z) (first_page_idx nr : Z) : option (list Z) :=
  let curr_idx := first_page_idx / PAGES_PER_MAPWORD in
  let start_off := Z.land first_page_idx (PAGES_PER_MAPWORD - 1) in
  let end_page_idx := u64 (first_page_idx + nr) in
  let end_idx := end_page_idx / PAGES_PER_MAPWORD in
  let end_off := Z.land end_page_idx (PAGES_PER_MAPWORD - 1) in
  if curr_idx =? end_idx then
    word_or bm curr_idx (Z.land (mask_below end_off) (mask_from start_off))
  else
    bm ← word_or bm curr_idx (mask_from start_off);
    bm ← fill_words (Z.to_nat (end_idx - curr_idx - 1)) bm (curr_idx + 1) (2 ^ 64 - 1);
    word_or bm end_idx (mask_below end_off).

Definition bitmap_free (bm : list Z) (first_page_idx nr : Z) : option (list Z) :=
  let curr_idx := first_page_idx / PAGES_PER_MAPWORD in
  let start_off := Z.land first_page_idx (PAGES_PER_MAPWORD - 1) in
  let end_page_idx := u64 (first_page_idx + nr) in
  let end_idx := end_page_idx / PAGES_PER_MAPWORD in
  let end_off := Z.land end_page_idx (PAGES_PER_MAPWORD - 1) in
  if curr_idx =? end_idx then
    word_and bm curr_idx (Z.lor (mask_from end_off) (mask_below start_off))
  else
    bm ← word_and bm curr_idx (mask_below start_off);
    bm ← fill_words (Z.to_nat (end_idx - curr_idx - 1)) bm (curr_idx + 1) 0;
    word_and bm end_idx (mask_from end_off).

Definition set_bitmap (m : uk_bbpalloc_memr) (bm : list Z) : uk_bbpalloc_memr :=
  Memr (first_page m) (nr_pages m) (mm_alloc_bitmap_size m) bm.

(** Both functions: find the region, check the range, update the bitmap; [None] when an
    assertion fails. *)
Definition map_update (f : list Z -> Z -> Z -> option (list Z)) (l : list uk_bbpalloc_memr)
    (first nr : Z) : option (list uk_bbpalloc_memr) :=
  '(i, memr) ← map_get_memr l first;
  if u64 (first + u64 (Z.shiftl nr PAGE_SHIFT)) <=? memr_end memr then
    let first := u64 (first - first_page memr) in
    let first_page_idx := Z.shiftr first PAGE_SHIFT in
    bm ← f (mm_alloc_bitmap memr) first_page_idx nr;
    Some (<[i := set_bitmap memr bm]> l)
  else None.

Definition map_alloc (b : uk_bbpalloc) (first nr : Z) : option uk_bbpalloc :=
  l ← map_update bitmap_alloc (memr_head b) first nr;
  Some (BB (u64 (nr_free_pages b - nr)) (free_head b) (free_tail b) l (heads b) (tails b)).

Definition map_free (b : uk_bbpalloc) (first nr : Z) : option uk_bbpalloc :=
  l ← map_update bitmap_free (memr_head b) first nr;
  Some (BB (u64 (nr_free_pages b + nr)) (free_head b) (free_tail b) l (heads b) (tails b)).

Definition bbuddy_availmem (b : uk_bbpalloc) : Z := u64 (Z.shiftl (nr_free_pages b) PAGE_SHIFT).

(** ** Bits of the bitmap *)

(** The bit of page [j]; set outside the bitmap. *)
Definition pbit (bm : list Z) (j : Z) : bool :=
  match zget bm (j / 64) with Some w => Z.testbit w (j mod 64) | None => true end.

Lemma shiftl_1 k : 0 <= k < 64 -> u64 (Z.shiftl 1 k) = 2 ^ k.
Proof.
  intros Hk. rewrite Z.shiftl_1_l. apply wrap_small. unfold in_u.
  pose proof (pow2_pos k). pose proof (Z.pow_lt_mono_r 2 k 64). lia.
Qed.

Lemma mask_below_testbit off r :
  0 <= off < 64 -> 0 <= r -> Z.testbit (mask_below off) r = (r <? off).
Proof.
  intros Ho Hr. unfold mask_below. rewrite shiftl_1 by done.
  pose proof (pow2_pos off ltac:(lia)). pose proof (Z.pow_lt_mono_r 2 off 64 ltac:(lia) ltac:(lia)).
  rewrite wrap_small by (unfold in_u; lia).
  replace (2 ^ off - 1) with (Z.ones off) by (rewrite Z.ones_equiv; lia).
  destruct (Z.ltb_spec r off); [apply Z.ones_spec_low|apply Z.ones_spec_high]; lia.
Qed.

Lemma mask_from_testbit off r :
  0 <= off < 64 -> 0 <= r < 64 -> Z.testbit (mask_from off) r = (off <=? r).
Proof.
  intros Ho Hr. unfold mask_from. rewrite shiftl_1, wrap_testbit by done.
  replace (- 2 ^ off) with (Z.lnot (Z.ones off)) by (rewrite Z.ones_equiv; unfold Z.lnot; lia).
  rewrite Z.lnot_spec by lia. destruct (Z.ltb_spec r 64); [|lia]. cbn.
  destruct (Z.leb_spec off r); [rewrite Z.ones_spec_high|rewrite Z.ones_spec_low]; lia || done.
Qed.

Lemma mask_below_0 : mask_below 0 = 0.
Proof. reflexivity. Qed.
Lemma mask_from_0 : mask_from 0 = 2 ^ 64 - 1.
Proof. reflexivity. Qed.

Lemma pbit_set bm idx w bm' j :
  zset bm idx w = Some bm' ->
  pbit bm' j = if j / 64 =? idx then Z.testbit w (j mod 64) else pbit bm j.
Proof.
  intros H. unfold pbit. destruct (Z.eqb_spec (j / 64) idx) as [->|Hne].
  - by rewrite (zget_zset_eq _ _ _ _ H).
  - by rewrite (zget_zset_ne _ _ (j / 64) _ _ (not_eq_sym Hne) H).
Qed.

(** A masked word operation inside the bitmap, or neutral just behind it. *)
Lemma word_or_spec bm idx m :
  0 <= idx < zlen bm \/ (idx = zlen bm /\ m = 0) ->
  exists bm', word_or bm idx m = Some bm' /\ length bm' = length bm /\
    forall j, 0 <= j < 64 * zlen bm ->
      pbit bm' j = pbit bm j || ((j / 64 =? idx) && Z.testbit m (j mod 64)).
Proof.
  intros Hcase. unfold word_or. destruct (zget bm idx) as [w|] eqn:Ew.
  - assert (Hr : 0 <= idx < zlen bm) by by eapply zget_Some_range.
    rewrite zset_is_Some by done. eexists. split; [done|]. split; [by rewrite length_insert|].
    intros j Hj. rewrite (pbit_set bm idx (Z.lor w m)) by by apply zset_is_Some.
    destruct (Z.eqb_spec (j / 64) idx) as [<-|]; cbn; [|by rewrite orb_false_r].
    unfold pbit. by rewrite Ew, Z.lor_spec.
  - destruct Hcase as [Hr|[-> ->]]; [by apply zget_is_Some in Hr; rewrite Ew in Hr; destruct Hr|].
    rewrite !Z.eqb_refl. cbn. exists bm. split; [done|]. split; [done|].
    intros j Hj. by rewrite Z.bits_0, andb_false_r, orb_false_r.
Qed.

Lemma word_and_spec bm idx m :
  0 <= idx < zlen bm \/ (idx = zlen bm /\ m = 2 ^ 64 - 1) ->
  exists bm', word_and bm idx m = Some bm' /\ length bm' = length bm /\
    forall j, 0 <= j < 64 * zlen bm ->
      pbit bm' j = pbit bm j && (negb (j / 64 =? idx) || Z.testbit m (j mod 64)).
Proof.
  intros Hcase. unfold word_and. destruct (zget bm idx) as [w|] eqn:Ew.
  - assert (Hr : 0 <= idx < zlen bm) by by eapply zget_Some_range.
    rewrite zset_is_Some by done. eexists. split; [done|]. split; [by rewrite length_insert|].
    intros j Hj. rewrite (pbit_set bm idx (Z.land w m)) by by apply zset_is_Some.
    destruct (Z.eqb_spec (j / 64) idx) as [<-|]; cbn; [|by rewrite andb_true_r].
    unfold pbit. by rewrite Ew, Z.land_spec.
  - destruct Hcase as [Hr|[-> ->]]; [by apply zget_is_Some in Hr; rewrite Ew in Hr; destruct Hr|].
    rewrite !Z.eqb_refl. cbn [andb]. exists bm. split; [done|]. split; [done|].
    intros j Hj. assert (j / 64 < zlen bm) by (apply Z.div_lt_upper_bound; lia).
    destruct (Z.eqb_spec (j / 64) (zlen bm)); [lia|]. by rewrite andb_true_r.
Qed.

Lemma fill_words_spec k bm idx v :
  0 <= idx -> idx + Z.of_nat k <= zlen bm ->
  exists bm', fill_words k bm idx v = Some bm' /\ length bm' = length bm /\
    forall j, pbit bm' j =
      if (idx <=? j / 64) && (j / 64 <? idx + Z.of_nat k) then Z.testbit v (j mod 64)
      else pbit bm j.
Proof.
  revert bm idx. induction k as [|k IH]; intros bm idx Hi Hk; cbn [fill_words].
  { exists bm. split; [done|]. split; [done|]. intros j.
    destruct (Z.leb_spec idx (j / 64)), (Z.ltb_spec (j / 64) (idx + Z.of_nat 0)); cbn; lia || done. }
  rewrite zset_is_Some by lia. cbn.
  destruct (IH (<[Z.to_nat idx := v]> bm) (idx + 1)) as (bm' & -> & Hl & Hb);
    [lia|rewrite length_insert; lia|].
  exists bm'. split; [done|]. split; [by rewrite Hl, length_insert|].
  intros j. rewrite Hb, (pbit_set bm idx v _ j) by (apply zset_is_Some; lia).
  destruct (Z.leb_spec (idx + 1) (j / 64)), (Z.ltb_spec (j / 64) (idx + 1 + Z.of_nat k)),
    (Z.leb_spec idx (j / 64)), (Z.ltb_spec (j / 64) (idx + Z.of_nat (S k))),
    (Z.eqb_spec (j / 64) idx); cbn; lia || done.
Qed.

(** Membership of a page index in a range, by words and offsets. *)
Ltac word_cases j :=
  pose proof (Z.div_mod j 64 ltac:(lia)); pose proof (Z.mod_pos_bound j 64 ltac:(lia)).

Section Ranges.
Context (bm : list Z) (f n : Z).
Context (Hf : 0 <= f) (Hn : 0 < n) (Hend : f + n <= 64 * zlen bm) (Hbig : f + n < 2 ^ 64).

Lemma range_words :
  0 <= f / 64 < zlen bm /\ f / 64 <= (f + n) / 64 <= zlen bm /\
  ((f + n) / 64 = zlen bm -> (f + n) mod 64 = 0).
Proof.
  pose proof (Z.div_mod f 64 ltac:(lia)). pose proof (Z.mod_pos_bound f 64 ltac:(lia)).
  pose proof (Z.div_mod (f + n) 64 ltac:(lia)). pose proof (Z.mod_pos_bound (f + n) 64 ltac:(lia)).
  lia.
Qed.

(** The word loops of [map_alloc] set exactly the bits of the range. *)
Lemma bitmap_alloc_spec :
  exists bm', bitmap_alloc bm f n = Some bm' /\ length bm' = length bm /\
    forall j, 0 <= j < 64 * zlen bm ->
      pbit bm' j = pbit bm j || ((f <=? j) && (j <? f + n)).
Proof.
  destruct range_words as (Hc & He & Hlast). unfold bitmap_alloc, PAGES_PER_MAPWORD.
  rewrite (wrap_small 64 (f + n)) by (unfold in_u; lia).
  change (64 - 1) with (2 ^ 6 - 1). rewrite !land_mask by lia. change (2 ^ 6) with 64.
  pose proof (Z.div_mod f 64 ltac:(lia)). pose proof (Z.mod_pos_bound f 64 ltac:(lia)).
  pose proof (Z.div_mod (f + n) 64 ltac:(lia)). pose proof (Z.mod_pos_bound (f + n) 64 ltac:(lia)).
  destruct (Z.eqb_spec (f / 64) ((f + n) / 64)) as [Heq|Hne].
  - destruct (word_or_spec bm (f / 64) (Z.land (mask_below ((f + n) mod 64)) (mask_from (f mod 64))))
      as (bm' & -> & Hl & Hb); [by left|].
    exists bm'. split; [done|]. split; [done|]. intros j Hj. rewrite Hb by done. f_equal.
    word_cases j. rewrite Z.land_spec, mask_below_testbit, mask_from_testbit by lia.
    destruct (Z.eqb_spec (j / 64) (f / 64)), (Z.ltb_spec (j mod 64) ((f + n) mod 64)),
      (Z.leb_spec (f mod 64) (j mod 64)), (Z.leb_spec f j), (Z.ltb_spec j (f + n)); cbn; lia || done.
  - destruct (word_or_spec bm (f / 64) (mask_from (f mod 64))) as (b1 & -> & Hl1 & Hb1); [by left|].
    cbn. destruct (fill_words_spec (Z.to_nat ((f + n) / 64 - f / 64 - 1)) b1 (f / 64 + 1) (2 ^ 64 - 1))
      as (b2 & -> & Hl2 & Hb2); [lia|lia|]. cbn.
    destruct (word_or_spec b2 ((f + n) / 64) (mask_below ((f + n) mod 64))) as (b3 & -> & Hl3 & Hb3).
    { destruct (Z.eq_dec ((f + n) / 64) (zlen bm)) as [E|]; [|left; lia].
      right. split; [lia|]. by rewrite (Hlast E). }
    exists b3. split; [done|]. split; [lia|]. intros j Hj.
    rewrite Hb3, Hb2, Hb1 by lia. word_cases j.
    rewrite mask_below_testbit, mask_from_testbit by lia.
    assert (Hones : Z.testbit (2 ^ 64 - 1) (j mod 64) = true)
      by (change (2 ^ 64 - 1) with (Z.ones 64); apply Z.ones_spec_low; lia).
    rewrite Hones.
    destruct (Z.eqb_spec (j / 64) (f / 64)), (Z.eqb_spec (j / 64) ((f + n) / 64)),
      (Z.ltb_spec (j mod 64) ((f + n) mod 64)), (Z.leb_spec (f / 64 + 1) (j / 64)),
      (Z.ltb_spec (j / 64) (f / 64 + 1 + Z.of_nat (Z.to_nat ((f + n) / 64 - f / 64 - 1)))),
      (Z.leb_spec (f mod 64) (j mod 64)), (Z.leb_spec f j), (Z.ltb_spec j (f + n)); cbn;
      try lia; destruct (pbit bm j); done.
Qed.

(** ... and those of [map_free] clear exactly them. *)
Lemma bitmap_free_spec :
  exists bm', bitmap_free bm f n = Some bm' /\ length bm' = length bm /\
    forall j, 0 <= j < 64 * zlen bm ->
      pbit bm' j = pbit bm j && negb ((f <=? j) && (j <? f + n)).
Proof.
  destruct range_words as (Hc & He & Hlast). unfold bitmap_free, PAGES_PER_MAPWORD.
  rewrite (wrap_small 64 (f + n)) by (unfold in_u; lia).
  change (64 - 1) with (2 ^ 6 - 1). rewrite !land_mask by lia. change (2 ^ 6) with 64.
  pose proof (Z.div_mod f 64 ltac:(lia)). pose proof (Z.mod_pos_bound f 64 ltac:(lia)).
  pose proof (Z.div_mod (f + n) 64 ltac:(lia)). pose proof (Z.mod_pos_bound (f + n) 64 ltac:(lia)).
  destruct (Z.eqb_spec (f / 64) ((f + n) / 64)) as [Heq|Hne].
  - destruct (word_and_spec bm (f / 64) (Z.lor (mask_from ((f + n) mod 64)) (mask_below (f mod 64))))
      as (bm' & -> & Hl & Hb); [by left|].
    exists bm'. split; [done|]. split; [done|]. intros j Hj. rewrite Hb by done. f_equal.
    word_cases j. rewrite Z.lor_spec, mask_below_testbit, mask_from_testbit by lia.
    destruct (Z.eqb_spec (j / 64) (f / 64)), (Z.leb_spec ((f + n) mod 64) (j mod 64)),
      (Z.ltb_spec (j mod 64) (f mod 64)), (Z.leb_spec f j), (Z.ltb_spec j (f + n)); cbn; lia || done.
  - destruct (word_and_spec bm (f / 64) (mask_below (f mod 64))) as (b1 & -> & Hl1 & Hb1); [by left|].
    cbn. destruct (fill_words_spec (Z.to_nat ((f + n) / 64 - f / 64 - 1)) b1 (f / 64 + 1) 0)
      as (b2 & -> & Hl2 & Hb2); [lia|lia|]. cbn.
    destruct (word_and_spec b2 ((f + n) / 64) (mask_from ((f + n) mod 64))) as (b3 & -> & Hl3 & Hb3).
    { destruct (Z.eq_dec ((f + n) / 64) (zlen bm)) as [E|]; [|left; lia].
      right. split; [lia|]. by rewrite (Hlast E). }
    exists b3. split; [done|]. split; [lia|]. intros j Hj.
    rewrite Hb3, Hb2, Hb1 by lia. word_cases j.
    rewrite mask_below_testbit, mask_from_testbit, Z.bits_0 by lia.
    destruct (Z.eqb_spec (j / 64) (f / 64)), (Z.eqb_spec (j / 64) ((f + n) / 64)),
      (Z.leb_spec ((f + n) mod 64) (j mod 64)), (Z.leb_spec (f / 64 + 1) (j / 64)),
      (Z.ltb_spec (j / 64) (f / 64 + 1 + Z.of_nat (Z.to_nat ((f + n) / 64 - f / 64 - 1)))),
      (Z.ltb_spec (j mod 64) (f mod 64)), (Z.leb_spec f j), (Z.ltb_spec j (f + n)); cbn;
      try lia; destruct (pbit bm j); done.
Qed.
End Ranges.

(** ** Pages of the regions *)

Record memr_ok (m : uk_bbpalloc_memr) : Prop := {
  mo_first : 0 < first_page m;
  mo_align : (PAGE_SIZE | first_page m);
  mo_nr : 0 < nr_pages m;
  mo_end : first_page m + PAGE_SIZE * nr_pages m < 2 ^ 64;
  mo_bitmap : nr_pages m <= 64 * zlen (mm_alloc_bitmap m)
}.

(** Regions do not overlap. *)
Definition regions_disjoint (l : list uk_bbpalloc_memr) : Prop :=
  forall i j m m', l !! i = Some m -> l !! j = Some m' -> i <> j ->
    first_page m + PAGE_SIZE * nr_pages m <= first_page m' \/
    first_page m' + PAGE_SIZE * nr_pages m' <= first_page m.

Record regions_ok (l : list uk_bbpalloc_memr) : Prop := {
  ro_memr i m : l !! i = Some m -> memr_ok m;
  ro_disj : regions_disjoint l
}.

(** An address lies in a region. *)
Definition in_memr (m : uk_bbpalloc_memr) (va : Z) : Prop :=
  first_page m <= va < first_page m + PAGE_SIZE * nr_pages m.

Lemma shiftl_page n : Z.shiftl n PAGE_SHIFT = PAGE_SIZE * n.
Proof. rewrite Z.shiftl_mul_pow2 by done. unfold PAGE_SIZE. change (2 ^ PAGE_SHIFT) with 4096. lia. Qed.

Lemma shiftr_page n : Z.shiftr n PAGE_SHIFT = n / PAGE_SIZE.
Proof. by rewrite Z.shiftr_div_pow2. Qed.

Lemma memr_end_ok m : memr_ok m -> memr_end m = first_page m + PAGE_SIZE * nr_pages m.
Proof.
  intros [H1 _ H2 H3 _]. unfold memr_end. rewrite shiftl_page. unfold PAGE_SIZE in *.
  rewrite (wrap_small 64 (4096 * _)), wrap_small by (unfold in_u; lia). done.
Qed.

(** The linear search finds the region of the address, and only depends on the geometry. *)
Lemma map_get_memr_Some l va i m :
  regions_ok l -> map_get_memr l va = Some (i, m) -> l !! i = Some m /\ in_memr m va.
Proof.
  intros [Hok _]. revert i Hok. induction l as [|m0 l IH]; intros i Hok; [done|]. cbn.
  rewrite memr_end_ok by by apply (Hok 0%nat).
  destruct (_ && _) eqn:E; tests.
  - intros [= <- <-]. by split.
  - intros ([i' m'] & H & [= <- <-])%bind_Some. apply IH in H; [done|].
    intros k mk Hk. by apply (Hok (S k)).
Qed.

Lemma map_get_memr_in l va i m :
  regions_ok l -> l !! i = Some m -> in_memr m va -> map_get_memr l va = Some (i, m).
Proof.
  intros [Hok Hd]. revert i Hok Hd. induction l as [|m0 l IH]; intros i Hok Hd Hi Hin; [done|].
  cbn. rewrite memr_end_ok by by apply (Hok 0%nat). destruct i as [|i]; cbn in Hi.
  - simplify_eq. destruct Hin. destruct (Z.leb_spec (first_page m) va); [|lia].
    by destruct (Z.ltb_spec va (first_page m + PAGE_SIZE * nr_pages m)); [|lia].
  - destruct (_ && _) eqn:E; tests.
    + destruct (Hd 0%nat (S i) m0 m) as [?|?]; [done|done|done|destruct Hin; lia..].
    + erewrite IH; [done| | |done|done].
      * intros k mk Hk. by apply (Hok (S k)).
      * intros k k' mk mk' Hk Hk' Hne. apply (Hd (S k) (S k')); [done|done|lia].
Qed.

Lemma map_get_memr_None l va :
  regions_ok l -> map_get_memr l va = None -> forall i m, l !! i = Some m -> ~ in_memr m va.
Proof. intros Hok HN i m Hi Hin. by rewrite (map_get_memr_in l va i m) in HN. Qed.

Lemma allocated_in_map_spec l va i m :
  regions_ok l -> l !! i = Some m -> in_memr m va ->
  allocated_in_map l va = Some (pbit (mm_alloc_bitmap m) ((va - first_page m) / PAGE_SIZE)).
Proof.
  intros Hok Hi Hin. unfold allocated_in_map. rewrite (map_get_memr_in l va i m) by done.
  destruct (ro_memr _ Hok _ _ Hi) as [H1 _ H2 H3 H4]. destruct Hin as [Hlo Hhi].
  unfold PAGES_PER_MAPWORD. rewrite (wrap_small 64 (va - first_page m)), shiftr_page by (unfold in_u, PAGE_SIZE in *; lia).
  change (64 - 1) with (2 ^ 6 - 1). rewrite land_mask by lia. change (2 ^ 6) with 64.
  set (j := (va - first_page m) / PAGE_SIZE).
  assert (Hj : 0 <= j < nr_pages m).
  { split; [apply Z.div_pos|apply Z.div_lt_upper_bound]; unfold PAGE_SIZE in *; lia. }
  destruct (zget_is_Some (mm_alloc_bitmap m) (j / 64)) as [w Hw].
  { split; [apply Z.div_pos|apply Z.div_lt_upper_bound]; lia. }
  unfold pbit. rewrite Hw. cbn. f_equal. rewrite shiftl_1 by (apply Z.mod_pos_bound; lia).
  pose proof (Z.mod_pos_bound j 64 ltac:(lia)).
  destruct (Z.eqb_spec (Z.land w (2 ^ (j mod 64))) 0) as [E|E]; cbn.
  - apply (f_equal (fun z => Z.testbit z (j mod 64))) in E.
    rewrite Z.land_spec, Z.pow2_bits_true, andb_true_r, Z.bits_0 in E by lia. by rewrite E.
  - destruct (Z.testbit w (j mod 64)) eqn:Eb; [done|]. exfalso. apply E.
    apply Z.bits_inj'. intros k Hk. rewrite Z.land_spec, Z.bits_0, Z.pow2_bits_eqb by lia.
    destruct (Z.eqb_spec (j mod 64) k); [subst; by rewrite Eb|apply andb_false_r].
Qed.

Lemma allocated_in_map_total l va : regions_ok l -> is_Some (allocated_in_map l va).
Proof.
  intros Hok. destruct (map_get_memr l va) as [[i m]|] eqn:E.
  - apply map_get_memr_Some in E as [Hi Hin]; [|done]. by erewrite allocated_in_map_spec.
  - unfold allocated_in_map. by rewrite E.
Qed.

(** A page is free when the map says so. *)
Definition page_free (l : list uk_bbpalloc_memr) (va : Z) : Prop :=
  allocated_in_map l va = Some false.

#[export] Instance page_free_dec l va : Decision (page_free l va).
Proof. unfold page_free. apply _. Defined.

Lemma page_free_region l va :
  regions_ok l -> page_free l va -> exists i m, l !! i = Some m /\ in_memr m va.
Proof.
  intros Hok Hfree. unfold page_free, allocated_in_map in Hfree.
  destruct (map_get_memr l va) as [[i m]|] eqn:E; [|done].
  apply map_get_memr_Some in E; [|done]. eauto.
Qed.

(** Changing the bitmap of one region keeps the geometry. *)
Lemma regions_ok_set_bitmap l i m bm :
  regions_ok l -> l !! i = Some m -> length bm = length (mm_alloc_bitmap m) ->
  regions_ok (<[i := set_bitmap m bm]> l).
Proof.
  intros [Hok Hd] Hi Hlen.
  assert (Hgeo : forall j m', <[i := set_bitmap m bm]> l !! j = Some m' ->
    exists m0, l !! j = Some m0 /\ first_page m' = first_page m0 /\ nr_pages m' = nr_pages m0 /\
      zlen (mm_alloc_bitmap m') = zlen (mm_alloc_bitmap m0)).
  { intros j m' Hj. destruct (decide (i = j)) as [<-|Hne].
    - rewrite list_lookup_insert_eq in Hj by by eapply lookup_lt_Some. simplify_eq.
      exists m. cbn. by rewrite Hlen.
    - rewrite list_lookup_insert_ne in Hj by done. by exists m'. }
  split.
  - intros j m' Hj. destruct (Hgeo _ _ Hj) as (m0 & H0 & E1 & E2 & E3).
    destruct (Hok _ _ H0). split; rewrite ?E1, ?E2, ?E3; done.
  - intros j k m1 m2 H1 H2 Hne. destruct (Hgeo _ _ H1) as (m1' & H1' & -> & -> & _).
    destruct (Hgeo _ _ H2) as (m2' & H2' & -> & -> & _). by eapply Hd.
Qed.

(** The regions with their bitmaps forgotten. *)
Definition geometry (l : list uk_bbpalloc_memr) : list (Z * Z) :=
  (fun m => (first_page m, nr_pages m)) <$> l.

Lemma map_get_memr_lookup l va i m : map_get_memr l va = Some (i, m) -> l !! i = Some m.
Proof.
  revert i. induction l as [|m0 l IH]; intros i; [done|]. cbn. destruct (_ && _); [by intros [= <- <-]|]. intros ([i' m'] & H & [= <- <-])%bind_Some. by apply IH.
Qed.

Lemma map_update_geometry f l first nr l' : map_update f l first nr = Some l' -> geometry l' = geometry l.
Proof.
  unfold map_update. intros ([i m] & H%map_get_memr_lookup & Hu)%bind_Some. destruct (_ <=? _); [|done]. apply bind_Some in Hu as (bm & _ & [= <-]).
  unfold geometry. rewrite list_fmap_insert. apply list_insert_id. by rewrite list_lookup_fmap, H.
Qed.

Section Update.
Context (f : list Z -> Z -> Z -> option (list Z)) (op : bool -> bool -> bool).
Context (Hf : forall bm p n, 0 <= p -> 0 < n -> p + n <= 64 * zlen bm -> p + n < 2 ^ 64 ->
  exists bm', f bm p n = Some bm' /\ length bm' = length bm /\
    forall j, 0 <= j < 64 * zlen bm -> pbit bm' j = op (pbit bm j) ((p <=? j) && (j <? p + n))).
Context (Hop : forall b, op b false = b).

(** [map_alloc] or [map_free] on a range inside a region succeeds and changes exactly the
    pages of the range. *)
Lemma map_update_spec l i m first n :
  regions_ok l -> l !! i = Some m -> (PAGE_SIZE | first) -> 0 < n ->
  first_page m <= first -> first + PAGE_SIZE * n <= first_page m + PAGE_SIZE * nr_pages m ->
  exists l', map_update f l first n = Some l' /\ regions_ok l' /\ geometry l' = geometry l /\
    forall va b, allocated_in_map l va = Some b ->
      allocated_in_map l' va =
        Some (op b ((first <=? va) && (va <? first + PAGE_SIZE * n))).
Proof.
  intros Hok Hi Hal Hn Hlo Hhi. pose proof (ro_memr _ Hok _ _ Hi) as Hm.
  pose proof Hm as [M1 M2 M3 M4 M5]. unfold PAGE_SIZE in *.
  assert (Hin : in_memr m first) by (unfold in_memr, PAGE_SIZE; lia).
  unfold map_update. rewrite (map_get_memr_in l first i m) by done. cbn [mbind option_bind].
  rewrite (memr_end_ok m) by done. unfold PAGE_SIZE. rewrite shiftl_page. unfold PAGE_SIZE.
  rewrite (wrap_small 64 (4096 * n)), (wrap_small 64 (first + _)) by (unfold in_u; lia).
  destruct (Z.leb_spec (first + 4096 * n) (first_page m + 4096 * nr_pages m)); [|lia].
  rewrite wrap_small, shiftr_page by (unfold in_u; lia). unfold PAGE_SIZE.
  destruct Hal as [a ->]. destruct M2 as [c Hc].
  replace ((a * 4096 - first_page m) / 4096) with (a - c)
    by (rewrite Hc, <- Z.mul_sub_distr_r; symmetry; by apply Z.div_mul).
  destruct (Hf (mm_alloc_bitmap m) (a - c) n) as (bm & -> & Hl & Hb); [lia..|].
  cbn. eexists. split; [done|]. pose proof (regions_ok_set_bitmap l i m bm Hok Hi Hl) as Hok'.
  split; [done|]. split.
  { unfold geometry. rewrite list_fmap_insert, list_insert_id; [done|].
    by rewrite list_lookup_fmap, Hi. }
  intros va b Hva. destruct (map_get_memr l va) as [[k mk]|] eqn:Eg.
  - apply map_get_memr_Some in Eg as [Hk Hink]; [|done].
    rewrite (allocated_in_map_spec l va k mk) in Hva by done. injection Hva as <-.
    destruct (decide (i = k)) as [<-|Hne].
    + simplify_eq. rewrite (allocated_in_map_spec _ va i (set_bitmap m bm));
        [|done|by apply list_lookup_insert_eq; eapply lookup_lt_Some|done]. cbn.
      unfold in_memr, PAGE_SIZE in *.
      pose proof (Z.div_mod (va - first_page m) 4096 ltac:(lia)) as Hdm.
      pose proof (Z.mod_pos_bound (va - first_page m) 4096 ltac:(lia)) as Hmb.
      rewrite Hb by lia. do 2 f_equal.
      destruct (Z.leb_spec (a - c) ((va - first_page m) / 4096)),
        (Z.ltb_spec ((va - first_page m) / 4096) (a - c + n)),
        (Z.leb_spec (a * 4096) va), (Z.ltb_spec va (a * 4096 + 4096 * n)); cbn; lia || done.
    + rewrite (allocated_in_map_spec _ va k mk);
        [|done|by rewrite list_lookup_insert_ne|done].
      destruct (ro_disj _ Hok i k m mk) as [?|?]; [done|done|done|..];
        unfold in_memr, PAGE_SIZE in *;
        (destruct (Z.leb_spec (a * 4096) va), (Z.ltb_spec va (a * 4096 + 4096 * n)); cbn;
         [lia|by rewrite Hop..]).
  - pose proof (map_get_memr_None l va Hok Eg i m Hi) as Hout. unfold in_memr, PAGE_SIZE in Hout.
    assert (Eg' : map_get_memr (<[i := set_bitmap m bm]> l) va = None).
    { destruct (map_get_memr (<[i := set_bitmap m bm]> l) va) as [[k mk]|] eqn:E; [exfalso|done].
      apply map_get_memr_Some in E as [Hk Hink]; [|done]. destruct (decide (i = k)) as [<-|Hne].
      - rewrite list_lookup_insert_eq in Hk by by eapply lookup_lt_Some. simplify_eq.
        by eapply (map_get_memr_None l va Hok Eg i m).
      - rewrite list_lookup_insert_ne in Hk by done. by eapply (map_get_memr_None l va Hok Eg k mk). }
    unfold allocated_in_map in *. rewrite Eg in Hva. injection Hva as <-. rewrite Eg'.
    f_equal. destruct (Z.leb_spec (a * 4096) va), (Z.ltb_spec va (a * 4096 + 4096 * n)); cbn;
      [lia|by rewrite Hop..].
Qed.
End Update.

(** The two instances, on page freedom. *)
Lemma map_alloc_pages l i m first n :
  regions_ok l -> l !! i = Some m -> (PAGE_SIZE | first) -> 0 < n ->
  first_page m <= first -> first + PAGE_SIZE * n <= first_page m + PAGE_SIZE * nr_pages m ->
  exists l', map_update bitmap_alloc l first n = Some l' /\ regions_ok l' /\
    geometry l' = geometry l /\
    forall va, page_free l' va <-> page_free l va /\ ~ (first <= va < first + PAGE_SIZE * n).
Proof.
  intros Hok Hi Hal Hn Hlo Hhi.
  destruct (map_update_spec bitmap_alloc orb) with (l := l) (i := i) (m := m) (first := first) (n := n)
    as (l' & H1 & H2 & H3 & H4); try done.
  { intros. by apply bitmap_alloc_spec. }
  { apply orb_false_r. }
  exists l'. split; [done|]. split; [done|]. split; [done|]. intros va. unfold page_free.
  destruct (allocated_in_map_total l va Hok) as [b Hb]. rewrite (H4 va b Hb), Hb.
  destruct b, (Z.leb_spec first va), (Z.ltb_spec va (first + PAGE_SIZE * n)); cbn;
    intuition (congruence || lia).
Qed.

Lemma map_free_pages l i m first n :
  regions_ok l -> l !! i = Some m -> (PAGE_SIZE | first) -> 0 < n ->
  first_page m <= first -> first + PAGE_SIZE * n <= first_page m + PAGE_SIZE * nr_pages m ->
  exists l', map_update bitmap_free l first n = Some l' /\ regions_ok l' /\
    geometry l' = geometry l /\
    forall va, page_free l' va <-> page_free l va \/ first <= va < first + PAGE_SIZE * n.
Proof.
  intros Hok Hi Hal Hn Hlo Hhi.
  destruct (map_update_spec bitmap_free (fun b c => b && negb c))
    with (l := l) (i := i) (m := m) (first := first) (n := n) as (l' & H1 & H2 & H3 & H4); try done.
  { intros. by apply bitmap_free_spec. }
  { apply andb_true_r. }
  exists l'. split; [done|]. split; [done|]. split; [done|]. intros va. unfold page_free.
  destruct (allocated_in_map_total l va Hok) as [b Hb]. rewrite (H4 va b Hb), Hb.
  destruct b, (Z.leb_spec first va), (Z.ltb_spec va (first + PAGE_SIZE * n)); cbn;
    intuition (congruence || lia).
Qed.

(** [map_alloc] and [map_free] on a range inside a region change the bits of exactly the
    pages of the range, across word boundaries and for every page of every region, and keep
    the free page counter in step. *)
Theorem buddy_map_exact b i m first n :
  regions_ok (memr_head b) -> memr_head b !! i = Some m -> (PAGE_SIZE | first) -> 0 < n ->
  first_page m <= first -> first + PAGE_SIZE * n <= first_page m + PAGE_SIZE * nr_pages m ->
  exists ba bf,
    map_alloc b first n = Some ba /\ map_free b first n = Some bf /\
    (forall va, page_free (memr_head ba) va <->
       page_free (memr_head b) va /\ ~ (first <= va < first + PAGE_SIZE * n)) /\
    (forall va, page_free (memr_head bf) va <->
       page_free (memr_head b) va \/ first <= va < first + PAGE_SIZE * n) /\
    nr_free_pages ba = u64 (nr_free_pages b - n) /\ nr_free_pages bf = u64 (nr_free_pages b + n).
Proof.
  intros Hok Hi Hal Hn Hlo Hhi.
  destruct (map_alloc_pages _ i m first n Hok Hi Hal Hn Hlo Hhi) as (la & Ha & _ & _ & Hpa).
  destruct (map_free_pages _ i m first n Hok Hi Hal Hn Hlo Hhi) as (lf & Hf & _ & _ & Hpf).
  unfold map_alloc, map_free. rewrite Ha, Hf. cbn. do 2 eexists. by repeat split; try apply Hpa; try apply Hpf.
Qed.

(** One region of 70 pages, all allocated. *)
Definition memr70 : uk_bbpalloc_memr := Memr 0x101000 70 16 [2 ^ 64 - 1; 2 ^ 64 - 1].

Lemma buddy_map_exact_witness :
  exists ba bf,
    map_alloc (BB 0 [] [] [memr70] ∅ ∅) 0x13e000 6 = Some ba /\
    map_free (BB 0 [] [] [memr70] ∅ ∅) 0x13e000 6 = Some bf /\ nr_free_pages bf = 6.
Proof.
  destruct (buddy_map_exact (BB 0 [] [] [memr70] ∅ ∅) 0 memr70 0x13e000 6) as (ba & bf & H1 & H2 & _ & _ & _ & H4).
  - split.
    + intros [|i] m Hi; [|discriminate Hi]. injection Hi as <-.
      split; cbn; unfold PAGE_SIZE; try lia. exists 0x101. reflexivity.
    + intros [|i] [|j] m m' Hi Hj Hne; try discriminate Hi; try discriminate Hj. done.
  - reflexivity.
  - exists 0x13e. reflexivity.
  - lia.
  - cbn. lia.
  - cbn. unfold PAGE_SIZE. lia.
  - exists ba, bf. split; [exact H1|]. split; [exact H2|exact H4].
Defined.
End BBuddy.
