(* ===== verification/BBuddyList.v ===== *)
(** * BBuddyList: the free lists of the buddy allocator

    The doubly linked lists of [lib/ukallocbbuddy/bbuddy.c]: every chunk head stores a
    pointer to the next chunk and a pointer [pprev] to the pointer that designates it.  The
    link and unlink sequences of [bbuddy_palloc], [bbuddy_pfree] and [bbuddy_addmem] are
    shown to implement insertion and deletion on the lists [fl i] of the chunks of order
    [i]. *)
From Stdlib Require Import ZArith Lia Bool.
From stdpp Require Import gmap.
From S2P Require Import Prelude BBuddyMap.
Open Scope Z_scope.

Module BBList.
Export BBuddy.

(** [*c] *)
Definition deref (b : uk_bbpalloc) (c : cptr) : option chunk_head_st :=
  match c with
  | Null => None
  | Chunk a => heads b !! a
  | Tail i => zget (free_tail b) i
  end.

Definition set_heads (b : uk_bbpalloc) (hs : gmap Z chunk_head_st) : uk_bbpalloc :=
  BB (nr_free_pages b) (free_head b) (free_tail b) (memr_head b) hs (tails b).
Definition set_free_tail (b : uk_bbpalloc) (tl : list chunk_head_st) : uk_bbpalloc :=
  BB (nr_free_pages b) (free_head b) tl (memr_head b) (heads b) (tails b).
Definition set_free_head (b : uk_bbpalloc) (fh : list cptr) : uk_bbpalloc :=
  BB (nr_free_pages b) fh (free_tail b) (memr_head b) (heads b) (tails b).
Definition set_tail_level (b : uk_bbpalloc) (ct lvl : Z) : uk_bbpalloc :=
  BB (nr_free_pages b) (free_head b) (free_tail b) (memr_head b) (heads b) (<[ct := lvl]> (tails b)).

(** [c->pprev = p] *)
Definition store_pprev (b : uk_bbpalloc) (c : cptr) (p : pptr) : option uk_bbpalloc :=
  h ← deref b c;
  let h' := ChunkHead (next h) p (level h) in
  match c with
  | Null => None
  | Chunk a => Some (set_heads b (<[a := h']> (heads b)))
  | Tail i => tl ← zset (free_tail b) i h'; Some (set_free_tail b tl)
  end.

(** [*p = c] *)
Definition store_through (b : uk_bbpalloc) (p : pptr) (c : cptr) : option uk_bbpalloc :=
  match p with
  | FreeHead i => fh ← zset (free_head b) i c; Some (set_free_head b fh)
  | NextOf a =>
      h ← heads b !! a;
      Some (set_heads b (<[a := ChunkHead c (pprev h) (level h)]> (heads b)))
  end.

(** The sequence that creates a free chunk of order [i] at [a] (tail at [ct]) and links it in
    front:
    [ch->level = i; ch->next = free_head[i]; ch->pprev = &free_head[i]; ct->level = i;]
    [ch->next->pprev = &ch->next; free_head[i] = ch;] *)
Definition link_front (b : uk_bbpalloc) (i a ct : Z) : option uk_bbpalloc :=
  nx ← zget (free_head b) i;
  let b := set_heads b (<[a := ChunkHead nx (FreeHead i) i]> (heads b)) in
  let b := set_tail_level b ct i in
  b ← store_pprev b nx (NextOf a);
  fh ← zset (free_head b) i (Chunk a);
  Some (set_free_head b fh).

(** [*(ch->pprev) = ch->next; ch->next->pprev = ch->pprev;] *)
Definition unlink (b : uk_bbpalloc) (a : Z) : option uk_bbpalloc :=
  h ← heads b !! a;
  b ← store_through b (pprev h) (next h);
  h ← heads b !! a;
  store_pprev b (next h) (pprev h).

(** [ch = free_head[i]; free_head[i] = ch->next; ch->next->pprev = ch->pprev;] *)
Definition pop_front (b : uk_bbpalloc) (i : Z) : option (Z * uk_bbpalloc) :=
  c ← zget (free_head b) i;
  match c with
  | Chunk a =>
      h ← heads b !! a;
      fh ← zset (free_head b) i (next h);
      let b := set_free_head b fh in
      h ← heads b !! a;
      b ← store_pprev b (next h) (pprev h);
      Some (a, b)
  | _ => None
  end.

(** [FREELIST_EMPTY(free_head[i])]: the designated head has no successor. *)
Definition freelist_empty (b : uk_bbpalloc) (i : Z) : option bool :=
  c ← zget (free_head b) i;
  h ← deref b c;
  Some (bool_decide (next h = Null)).

(** The links are not in the regions. *)
Lemma store_pprev_memr b c p b' : store_pprev b c p = Some b' -> memr_head b' = memr_head b.
Proof. unfold store_pprev. intros (h & _ & H)%bind_Some. destruct c; [done|by injection H as <-|]. by apply bind_Some in H as (tl & _ & [= <-]). Qed.

Lemma store_through_memr b p c b' : store_through b p c = Some b' -> memr_head b' = memr_head b.
Proof. destruct p; cbn [store_through]; intros (x & _ & [= <-])%bind_Some; done. Qed.

Lemma link_front_memr b i a ct b' : link_front b i a ct = Some b' -> memr_head b' = memr_head b.
Proof. unfold link_front. intros (nx & _ & (b1 & H & (fh & _ & [= <-])%bind_Some)%bind_Some)%bind_Some. cbn. by rewrite (store_pprev_memr _ _ _ _ H). Qed.

Lemma unlink_memr b a b' : unlink b a = Some b' -> memr_head b' = memr_head b.
Proof. unfold unlink. intros (h & _ & (b1 & H1 & (h' & _ & H2)%bind_Some)%bind_Some)%bind_Some. by rewrite (store_pprev_memr _ _ _ _ H2), (store_through_memr _ _ _ _ H1). Qed.

Lemma pop_front_memr b i a b' : pop_front b i = Some (a, b') -> memr_head b' = memr_head b.
Proof.
  unfold pop_front. intros (c & _ & H)%bind_Some. destruct c; try done. apply bind_Some in H as (h & _ & (fh & _ & (h' & _ & (b1 & H & [= _ <-])%bind_Some)%bind_Some)%bind_Some).
  by rewrite (store_pprev_memr _ _ _ _ H).
Qed.

(** ** Well-formed lists *)

(** The chunks of [l] follow each other from [c] on; [p] designates the first. *)
Fixpoint chain (hs : gmap Z chunk_head_st) (tl : list chunk_head_st) (i : Z) (p : pptr)
    (c : cptr) (l : list Z) : Prop :=
  match l with
  | [] => c = Tail i /\ exists t, zget tl i = Some t /\ next t = Null /\ pprev t = p
  | a :: l' =>
      c = Chunk a /\
      exists h, hs !! a = Some h /\ pprev h = p /\ level h = i /\
        next h <> Null /\ chain hs tl i (NextOf a) (next h) l'
  end.

Record lists_ok (b : uk_bbpalloc) (fl : Z -> list Z) : Prop := {
  lo_head : zlen (free_head b) = FREELIST_SIZE;
  lo_tail : zlen (free_tail b) = FREELIST_SIZE;
  lo_chain i : 0 <= i < FREELIST_SIZE ->
    exists c, zget (free_head b) i = Some c /\
      chain (heads b) (free_tail b) i (FreeHead i) c (fl i);
  lo_out i : ~ 0 <= i < FREELIST_SIZE -> fl i = [];
  lo_nodup i : NoDup (fl i);
  lo_uniq i j a : a ∈ fl i -> a ∈ fl j -> i = j
}.

Definition upd {B} (fl : Z -> B) (i : Z) (l : B) : Z -> B :=
  fun j => if decide (j = i) then l else fl j.

Lemma upd_eq {B} (fl : Z -> B) i l : upd fl i l i = l.
Proof. unfold upd. by rewrite decide_True. Qed.
Lemma upd_ne {B} (fl : Z -> B) i j l : j <> i -> upd fl i l j = fl j.
Proof. intros. unfold upd. by rewrite decide_False. Qed.

(** A chain only reads the heads of its chunks and its own sentinel. *)
Lemma chain_frame hs hs' tl tl' i p c l :
  chain hs tl i p c l -> (forall a, a ∈ l -> hs' !! a = hs !! a) -> zget tl' i = zget tl i ->
  chain hs' tl' i p c l.
Proof.
  revert p c. induction l as [|a l IH]; intros p c; cbn; intros H Hs Ht.
  - destruct H as (? & t & ? & ?). split; [done|]. exists t. by rewrite Ht.
  - destruct H as (? & h & Hh & ? & ? & ? & Hc). split; [done|]. exists h.
    rewrite Hs by apply list_elem_of_here. repeat split; try done.
    apply IH; [done| |done]. intros x Hx. apply Hs. by apply list_elem_of_further.
Qed.

Lemma chain_next_not_null hs tl i p c l : chain hs tl i p c l -> c <> Null.
Proof. destruct l; cbn; [intros [-> _]|intros [-> _]]; done. Qed.

(** The chunks of a chain have heads with its order. *)
Lemma chain_head hs tl i p c l a :
  chain hs tl i p c l -> a ∈ l -> exists h, hs !! a = Some h /\ level h = i.
Proof.
  revert p c. induction l as [|x l IH]; intros p c; cbn; intros H Ha; [by apply not_elem_of_nil in Ha|].
  destruct H as (-> & h & Hh & ? & ? & ? & Hc). apply elem_of_cons in Ha as [->|Ha]; eauto.
Qed.

(** The memory after [c->pprev = p], as heads and sentinels. *)
Definition repprev (hs : gmap Z chunk_head_st) (tl : list chunk_head_st) (c : cptr) (p : pptr)
    : gmap Z chunk_head_st * list chunk_head_st :=
  match c with
  | Null => (hs, tl)
  | Chunk a => (alter (fun h => ChunkHead (next h) p (level h)) a hs, tl)
  | Tail i => (hs, alter (fun h => ChunkHead (next h) p (level h)) (Z.to_nat i) tl)
  end.

Lemma repprev_heads hs tl c p a : c <> Chunk a -> (repprev hs tl c p).1 !! a = hs !! a.
Proof. intros Hne. destruct c as [|x|i]; cbn; [done| |done]. apply lookup_alter_ne. congruence. Qed.

Lemma zget_alter {B} (f : B -> B) (l : list B) (i j : Z) :
  0 <= i -> zget (alter f (Z.to_nat i) l) j = if decide (i = j) then f <$> zget l j else zget l j.
Proof.
  intros Hi. unfold zget. case_test.
  - by rewrite decide_False by lia.
  - case_decide as Hd.
    + subst. by rewrite list_lookup_alter_eq.
    + rewrite list_lookup_alter_ne by lia. done.
Qed.

Lemma repprev_tail hs tl c p i : (forall j, c = Tail j -> 0 <= j) ->
  c <> Tail i -> zget (repprev hs tl c p).2 i = zget tl i.
Proof.
  intros Hj Hne. destruct c as [|x|j]; cbn; [done|done|].
  rewrite zget_alter by by apply Hj. rewrite decide_False; [done|congruence].
Qed.

Lemma store_pprev_eq b c p :
  (exists h, deref b c = Some h) -> (forall j, c = Tail j -> 0 <= j) ->
  store_pprev b c p =
  Some (BB (nr_free_pages b) (free_head b) (repprev (heads b) (free_tail b) c p).2 (memr_head b)
          (repprev (heads b) (free_tail b) c p).1 (tails b)).
Proof.
  intros [h Hh] Hj. unfold store_pprev. rewrite Hh. destruct c as [|a|i]; cbn in *; [done|..].
  - unfold set_heads. do 2 f_equal. apply map_eq. intros x. destruct (decide (x = a)) as [->|].
    + by rewrite lookup_insert_eq, lookup_alter_eq, Hh.
    + by rewrite lookup_insert_ne, lookup_alter_ne by done.
  - pose proof (zget_Some_range _ _ _ Hh) as Hr. rewrite zset_is_Some by done. cbn.
    unfold set_free_tail. do 2 f_equal. apply list_eq. intros k.
    destruct (decide (k = Z.to_nat i)) as [->|].
    + rewrite list_lookup_insert_eq, list_lookup_alter_eq by lia.
      unfold zget in Hh. case_test; [lia|]. by rewrite Hh.
    + by rewrite list_lookup_insert_ne, list_lookup_alter_ne by done.
Qed.

(** The pointer stored first designates an existing head. *)
Lemma chain_deref hs tl i p c l :
  chain hs tl i p c l ->
  (exists h, match c with Null => None | Chunk a => hs !! a | Tail j => zget tl j end = Some h) /\
  (forall j, c = Tail j -> 0 <= j).
Proof.
  destruct l as [|a l]; cbn.
  - intros (-> & t & Ht & _). split; [by exists t|]. intros j [= <-].
    by apply zget_Some_range in Ht as [? _].
  - intros (-> & h & Hh & _). split; [by exists h|done].
Qed.

(** Redirecting the back pointer of the first chunk. *)
Lemma chain_repprev hs tl i p p' c l :
  chain hs tl i p c l -> NoDup l ->
  chain (repprev hs tl c p').1 (repprev hs tl c p').2 i p' c l.
Proof.
  intros Hc Hnd. destruct (chain_deref _ _ _ _ _ _ Hc) as [_ Hj].
  destruct l as [|a l]; cbn in Hc.
  - destruct Hc as (-> & t & Ht & Hn & _). cbn. split; [done|].
    rewrite zget_alter by by apply Hj. rewrite decide_True, Ht by done. cbn. by eexists.
  - destruct Hc as (-> & h & Hh & _ & Hl & Hnn & Hc). cbn. split; [done|].
    rewrite lookup_alter_eq, Hh. cbn. eexists. split; [done|]. cbn. repeat split; try done.
    apply list.NoDup_cons in Hnd as [Ha _]. eapply chain_frame; [exact Hc| |done].
    intros x Hx. apply lookup_alter_ne. by intros ->.
Qed.

(** What the back pointer of a chunk in the middle is. *)
Lemma chain_middle hs tl i p c l1 a l2 :
  chain hs tl i p c (l1 ++ a :: l2) ->
  exists h, hs !! a = Some h /\
    pprev h = match list.last l1 with None => p | Some z => NextOf z end /\
    (l1 = [] -> c = Chunk a) /\ chain hs tl i (NextOf a) (next h) l2.
Proof.
  revert p c. induction l1 as [|x l1 IH]; intros p c; cbn.
  - intros (-> & h & Hh & Hp & _ & _ & Hc). exists h. by repeat split.
  - intros (-> & hx & Hx & _ & _ & _ & Hc). destruct (IH _ _ Hc) as (h & Hh & Hp & _ & Hc').
    exists h. split; [done|]. split; [|done]. rewrite Hp. destruct l1 as [|y l1]; [done|].
    change (list.last (x :: y :: l1)) with (list.last (y :: l1)).
    destruct (list.last (y :: l1)) eqn:El; [done|]. by apply last_None in El.
Qed.

(** The memory after [*p = c]. *)
Definition through (hs : gmap Z chunk_head_st) (p : pptr) (c : cptr) : gmap Z chunk_head_st :=
  match p with
  | FreeHead _ => hs
  | NextOf a => alter (fun h => ChunkHead c (pprev h) (level h)) a hs
  end.

Lemma through_other hs p c a : p <> NextOf a -> through hs p c !! a = hs !! a.
Proof. intros Hne. destruct p; cbn; [done|]. apply lookup_alter_ne. congruence. Qed.

(** Taking a chunk out of a chain. *)
Lemma chain_unlink hs tl i p c l1 a l2 h :
  chain hs tl i p c (l1 ++ a :: l2) -> NoDup (l1 ++ a :: l2) ->
  (forall x, p = NextOf x -> x ∉ l1 ++ a :: l2) -> hs !! a = Some h ->
  let m := repprev (through hs (pprev h) (next h)) tl (next h) (pprev h) in
  chain m.1 m.2 i p (match l1 with [] => next h | _ => c end) (l1 ++ l2).
Proof.
  intros Hc Hnd Hp Hh m.
  assert (Hrest : chain m.1 m.2 i (pprev h) (next h) l2).
  { destruct (chain_middle _ _ _ _ _ _ _ _ Hc) as (h' & Hh' & Hpp & _ & Hc'). simplify_eq.
    apply NoDup_app in Hnd as (Hnd1 & Hdisj & Hnd2). apply list.NoDup_cons in Hnd2 as [Ha Hnd2].
    eapply chain_repprev; [|done]. eapply chain_frame; [exact Hc'| |done].
    intros x Hx. apply through_other. rewrite Hpp. destruct (list.last l1) as [z|] eqn:El.
    - intros [= ->]. apply last_Some_elem_of in El. apply (Hdisj _ El). by apply list_elem_of_further.
    - intros ->. apply (Hp x eq_refl). apply elem_of_app. right. by apply list_elem_of_further. }
  revert p c Hc Hp. induction l1 as [|x l1 IH]; intros p c Hc Hp.
  - cbn in *. destruct Hc as (_ & h' & Hh' & <- & _). by simplify_eq.
  - cbn in Hc. destruct Hc as (-> & hx & Hx & Hpx & Hlx & Hnx & Hc).
    cbn in Hnd. apply list.NoDup_cons in Hnd as [Hxn Hnd].
    assert (Hc' : chain m.1 m.2 i (NextOf x) (match l1 with [] => next h | _ => next hx end) (l1 ++ l2)).
    { apply IH; try done. by intros y [= <-]. }
    cbn. split; [done|].
    destruct (chain_middle _ _ _ _ _ _ _ _ Hc) as (h' & Hh' & Hpp & Hfst & Hc2). simplify_eq.
    assert (Hnx' : next h <> Chunk x).
    { intros E. rewrite E in Hc2. destruct l2 as [|y l2]; cbn in Hc2; [by destruct Hc2|].
      destruct Hc2 as [[= ->] _]. apply Hxn, elem_of_app. right. apply list_elem_of_further, list_elem_of_here. }
    assert (Hm : m.1 !! x = through hs (pprev h) (next h) !! x) by by apply repprev_heads.
    destruct l1 as [|y l1].
    + cbn in Hpp. rewrite Hpp in Hm. cbn in Hm. rewrite lookup_alter_eq, Hx in Hm. cbn in Hm.
      eexists. split; [exact Hm|]. cbn. repeat split; try done. by eapply chain_next_not_null.
    + rewrite through_other in Hm.
      * exists hx. by rewrite Hm.
      * rewrite Hpp. destruct (list.last (y :: l1)) as [z|] eqn:El; [|by apply last_None in El].
        intros [= ->]. apply Hxn. apply last_Some_elem_of in El. apply elem_of_app. by left.
Qed.

(** The first chunk of a chain, as a pointer. *)
Lemma chain_first hs tl i p c l :
  chain hs tl i p c l -> c = match l with [] => Tail i | a :: _ => Chunk a end.
Proof. destruct l; cbn; by intros [-> _]. Qed.

(** ** Operations on well-formed lists *)

(** What an operation may change besides the lists themselves. *)
Definition same_rest (b b' : uk_bbpalloc) : Prop :=
  nr_free_pages b' = nr_free_pages b /\ memr_head b' = memr_head b.

Section Ops.
Context (b : uk_bbpalloc) (fl : Z -> list Z) (L : lists_ok b fl).

Lemma freelist_empty_spec i :
  0 <= i < FREELIST_SIZE -> freelist_empty b i = Some (bool_decide (fl i = [])).
Proof.
  intros Hi. destruct (lo_chain _ _ L i Hi) as (c & Hc & Hch). unfold freelist_empty.
  rewrite Hc. cbn. destruct (fl i) as [|a l]; cbn in Hch.
  - destruct Hch as (-> & t & Ht & Hn & _). cbn. rewrite Ht. cbn.
    by rewrite !bool_decide_true.
  - destruct Hch as (-> & h & Hh & _ & _ & Hn & _). cbn. rewrite Hh. cbn.
    by rewrite !bool_decide_false.
Qed.

(** Lists other than [i] do not see a change confined to the nodes of list [i]. *)
Lemma other_chains i hs tl j :
  0 <= j < FREELIST_SIZE -> j <> i ->
  (forall a, a ∉ fl i -> (forall k, a ∈ fl k -> hs !! a = heads b !! a)) ->
  (zget tl j = zget (free_tail b) j) ->
  exists c, zget (free_head b) j = Some c /\ chain hs tl j (FreeHead j) c (fl j).
Proof.
  intros Hj Hne Hs Ht. destruct (lo_chain _ _ L j Hj) as (c & Hc & Hch). exists c.
  split; [done|]. eapply chain_frame; [exact Hch| |done]. intros a Ha.
  apply (Hs a) with j; [|done]. intros Ha'. by apply Hne, (lo_uniq _ _ L _ _ a).
Qed.

(** Bookkeeping shared by the three operations: a new list [l] for order [i]. *)
Lemma lists_ok_upd b' i l :
  0 <= i < FREELIST_SIZE ->
  zlen (free_head b') = FREELIST_SIZE -> zlen (free_tail b') = FREELIST_SIZE ->
  (exists c, zget (free_head b') i = Some c /\
     chain (heads b') (free_tail b') i (FreeHead i) c l) ->
  (forall j, 0 <= j < FREELIST_SIZE -> j <> i ->
     exists c, zget (free_head b') j = Some c /\
       chain (heads b') (free_tail b') j (FreeHead j) c (fl j)) ->
  NoDup l -> (forall a j, a ∈ l -> j <> i -> a ∉ fl j) ->
  lists_ok b' (upd fl i l).
Proof.
  intros Hi Hh Ht Hc Hoth Hnd Hdis. split; try done.
  - intros j Hj. destruct (decide (j = i)) as [->|Hne]; [by rewrite upd_eq|].
    rewrite upd_ne by done. by apply Hoth.
  - intros j Hj. rewrite upd_ne by (intros ->; lia). by apply L.
  - intros j. destruct (decide (j = i)) as [->|]; [by rewrite upd_eq|].
    rewrite upd_ne by done. apply L.
  - intros j k a. destruct (decide (j = i)) as [->|], (decide (k = i)) as [->|];
      rewrite ?upd_eq, ?upd_ne by done; try done; intros H1 H2.
    + by destruct (Hdis a k).
    + by destruct (Hdis a j).
    + by eapply (lo_uniq _ _ L).
Qed.

Lemma link_front_spec i a ct :
  0 <= i < FREELIST_SIZE -> (forall j, a ∉ fl j) ->
  exists b', link_front b i a ct = Some b' /\ lists_ok b' (upd fl i (a :: fl i)) /\
    same_rest b b'.
Proof.
  intros Hi Ha. destruct (lo_chain _ _ L i Hi) as (c & Hc & Hch). unfold link_front.
  rewrite Hc. cbn [mbind option_bind].
  set (hs1 := <[a := ChunkHead c (FreeHead i) i]> (heads b)).
  assert (Hch1 : chain hs1 (free_tail b) i (FreeHead i) c (fl i)).
  { eapply chain_frame; [exact Hch| |done]. intros x Hx. apply lookup_insert_ne.
    intros ->. by apply (Ha i). }
  destruct (chain_deref _ _ _ _ _ _ Hch1) as [Hd Hj].
  rewrite store_pprev_eq by (destruct c; done). cbn [heads free_tail set_tail_level set_heads
    free_head nr_free_pages memr_head mbind option_bind].
  rewrite zset_is_Some by (rewrite (lo_head _ _ L); done). cbn [mbind option_bind].
  eexists. split; [done|]. split; [|by split].
  assert (Hz : zset (free_head b) i (Chunk a) = Some (<[Z.to_nat i := Chunk a]> (free_head b)))
    by (apply zset_is_Some; rewrite (lo_head _ _ L); done).
  pose proof (chain_repprev _ _ _ _ (NextOf a) _ _ Hch1 (lo_nodup _ _ L i)) as Hch2.
  assert (Hca : c <> Chunk a).
  { rewrite (chain_first _ _ _ _ _ _ Hch). destruct (fl i) as [|y l] eqn:El; [done|].
    intros [= ->]. apply (Ha i). rewrite El. apply list_elem_of_here. }
  apply lists_ok_upd; cbn [heads free_tail free_head set_free_head]; try done.
  - rewrite length_insert. apply L.
  - destruct c; cbn; [apply L|apply L|]. rewrite length_alter. apply L.
  - exists (Chunk a). split; [by eapply zget_zset_eq|]. cbn. split; [done|].
    rewrite repprev_heads by done. unfold hs1. rewrite lookup_insert_eq. eexists.
    split; [done|]. cbn. repeat split; try done. by eapply chain_next_not_null.
  - intros j Hj' Hne. rewrite (zget_zset_ne _ _ j _ _ (not_eq_sym Hne) Hz).
    apply (other_chains i); [done|done| |].
    + intros x Hx k Hk. rewrite repprev_heads.
      * unfold hs1. apply lookup_insert_ne. intros ->. by apply (Ha k).
      * rewrite (chain_first _ _ _ _ _ _ Hch). destruct (fl i) as [|y l]; [done|].
        intros [= ->]. apply Hx. apply list_elem_of_here.
    + apply repprev_tail; [done|]. rewrite (chain_first _ _ _ _ _ _ Hch).
      destruct (fl i); [congruence|done].
  - apply list.NoDup_cons. split; [apply Ha|apply L].
  - intros x j Hx Hne. apply elem_of_cons in Hx as [->|Hx]; [apply Ha|].
    intros Hx'. by apply Hne, (lo_uniq _ _ L _ _ x).
Qed.

(** After unlinking the middle chunk, for either way the code spells it. *)
Lemma unlinked i l1 a l2 h b' :
  0 <= i < FREELIST_SIZE -> fl i = l1 ++ a :: l2 -> heads b !! a = Some h ->
  let m := repprev (through (heads b) (pprev h) (next h)) (free_tail b) (next h) (pprev h) in
  heads b' = m.1 -> free_tail b' = m.2 ->
  (free_head b' = match l1 with [] => <[Z.to_nat i := next h]> (free_head b) | _ => free_head b end) ->
  lists_ok b' (upd fl i (l1 ++ l2)).
Proof.
  intros Hi Hfl Hh m Hheads Htail Hfh. destruct (lo_chain _ _ L i Hi) as (c & Hc & Hch).
  pose proof (lo_nodup _ _ L i) as Hnd. rewrite Hfl in Hch, Hnd.
  destruct (chain_middle _ _ _ _ _ _ _ _ Hch) as (h' & Hh' & Hpp & _ & Hch2). simplify_eq.
  pose proof (chain_unlink _ _ _ _ _ _ _ _ h Hch Hnd ltac:(done) Hh) as Hun. fold m in Hun.
  destruct (chain_deref _ _ _ _ _ _ Hch2) as [_ Hj].
  assert (Hin : forall z, list.last l1 = Some z -> z ∈ fl i).
  { intros z Hz. rewrite Hfl. apply elem_of_app. left. by apply last_Some_elem_of. }
  apply lists_ok_upd; try done.
  - rewrite Hfh. destruct l1; rewrite ?length_insert; apply L.
  - rewrite Htail. unfold m. destruct (next h); cbn; rewrite ?length_alter; apply L.
  - rewrite Hheads, Htail, Hfh. destruct l1 as [|x l1]; [|by exists c].
    exists (next h). split; [|done]. unfold zget. case_test; [lia|].
    apply list_lookup_insert_eq. pose proof (lo_head _ _ L). lia.
  - intros j Hj' Hne. rewrite Hheads, Htail.
    assert (Hhj : zget (free_head b') j = zget (free_head b) j).
    { rewrite Hfh. destruct l1; [|done]. unfold zget. case_test; [done|].
      apply list_lookup_insert_ne. lia. }
    rewrite Hhj. apply (other_chains i); [done|done| |].
    + intros x Hx k Hk. unfold m. rewrite repprev_heads.
      * apply through_other. rewrite Hpp. destruct (list.last l1) as [z|] eqn:El; [|done].
        intros [= ->]. by apply Hx, Hin.
      * rewrite (chain_first _ _ _ _ _ _ Hch2). destruct l2 as [|y l2]; [done|].
        intros [= ->]. apply Hx. rewrite Hfl. apply elem_of_app. right.
        apply list_elem_of_further, list_elem_of_here.
    + apply repprev_tail; [done|]. rewrite (chain_first _ _ _ _ _ _ Hch2).
      destruct l2; [congruence|done].
  - apply NoDup_app in Hnd as (? & Hd & Hn2). apply list.NoDup_cons in Hn2 as [? ?].
    apply NoDup_app. repeat split; try done. intros x Hx Hx2. apply (Hd x Hx).
    by apply list_elem_of_further.
  - intros x j Hx Hne Hx'. apply Hne, (lo_uniq _ _ L _ _ x); [done|]. rewrite Hfl.
    apply elem_of_app in Hx as [?|?]; apply elem_of_app; [by left|right; by apply list_elem_of_further].
Qed.

Lemma unlink_spec i l1 a l2 :
  0 <= i < FREELIST_SIZE -> fl i = l1 ++ a :: l2 ->
  exists b', unlink b a = Some b' /\ lists_ok b' (upd fl i (l1 ++ l2)) /\ same_rest b b'.
Proof.
  intros Hi Hfl. destruct (lo_chain _ _ L i Hi) as (c & Hc & Hch).
  pose proof (lo_nodup _ _ L i) as Hnd. rewrite Hfl in Hch, Hnd.
  destruct (chain_middle _ _ _ _ _ _ _ _ Hch) as (h & Hh & Hpp & _ & Hch2).
  destruct (chain_deref _ _ _ _ _ _ Hch2) as [[hn Hd] Hj].
  assert (Hna : next h <> Chunk a).
  { rewrite (chain_first _ _ _ _ _ _ Hch2). destruct l2 as [|y l2]; [done|]. intros [= ->].
    apply NoDup_app in Hnd as (_ & _ & Hn2). apply list.NoDup_cons in Hn2 as [Hn2 _].
    apply Hn2, list_elem_of_here. }
  unfold unlink. rewrite Hh. cbn [mbind option_bind].
  destruct l1 as [|x l1'] using rev_ind.
  - cbn in Hpp. rewrite Hpp. cbn [store_through].
    rewrite zset_is_Some by (rewrite (lo_head _ _ L); done).
    cbn [mbind option_bind set_free_head heads]. rewrite Hh. cbn [mbind option_bind].
    rewrite store_pprev_eq by (cbn; destruct (next h); eauto).
    eexists. split; [done|]. split; [|by split].
    apply (unlinked i [] a l2 h); cbn; rewrite ?Hpp; done.
  - clear IHl1'. rewrite last_snoc in Hpp. rewrite Hpp. cbn [store_through].
    assert (Hxa : x <> a).
    { intros ->. apply NoDup_app in Hnd as (_ & Hdj & _). apply (Hdj a).
      - apply elem_of_app. right. apply list_elem_of_here.
      - apply list_elem_of_here. }
    destruct (chain_head _ _ _ _ _ _ x Hch) as (hx & Hx & _).
    { apply elem_of_app. left. apply elem_of_app. right. apply list_elem_of_here. }
    rewrite Hx. cbn [mbind option_bind set_heads heads]. rewrite lookup_insert_ne, Hh by done.
    cbn [mbind option_bind].
    assert (Hth : <[x := ChunkHead (next h) (pprev hx) (level hx)]> (heads b) =
                  through (heads b) (pprev h) (next h)).
    { rewrite Hpp. cbn. apply map_eq. intros y. destruct (decide (y = x)) as [->|].
      - by rewrite lookup_insert_eq, lookup_alter_eq, Hx.
      - by rewrite lookup_insert_ne, lookup_alter_ne by done. }
    rewrite Hth. rewrite store_pprev_eq; [| |done].
    2: { destruct (next h) as [|y|j]; cbn in *; [done| |by eauto].
         destruct (decide (y = x)) as [->|].
         - rewrite Hpp. cbn. rewrite lookup_alter_eq, Hx. cbn. by eexists.
         - rewrite Hpp. cbn. rewrite lookup_alter_ne by done. by eexists. }
    eexists. split; [done|]. split; [|by split].
    apply (unlinked i (l1' ++ [x]) a l2 h); cbn; try done.
    by destruct l1'.
Qed.

Lemma pop_front_spec i a l :
  0 <= i < FREELIST_SIZE -> fl i = a :: l ->
  exists b', pop_front b i = Some (a, b') /\ lists_ok b' (upd fl i l) /\ same_rest b b'.
Proof.
  intros Hi Hfl. destruct (lo_chain _ _ L i Hi) as (c & Hc & Hch). rewrite Hfl in Hch.
  pose proof (chain_middle _ _ _ _ _ [] _ _ Hch) as (h & Hh & Hpp & Hca & Hch2).
  destruct (chain_deref _ _ _ _ _ _ Hch2) as [[hn Hd] Hj].
  unfold pop_front. rewrite Hc. cbn [mbind option_bind]. rewrite (Hca eq_refl), Hh.
  cbn [mbind option_bind]. rewrite zset_is_Some by (rewrite (lo_head _ _ L); done).
  cbn [mbind option_bind set_free_head heads]. rewrite Hh. cbn [mbind option_bind].
  rewrite store_pprev_eq by (cbn; destruct (next h); eauto). cbn [mbind option_bind].
  eexists. split; [done|]. split; [|by split].
  cbn in Hpp. apply (unlinked i [] a l h); cbn; rewrite ?Hpp; done.
Qed.
End Ops.
End BBList.
