(* ===== verification/PageAlloc.v ===== *)
(** * PageAlloc: what a page allocator promises

    The interface between a page allocator ([a->palloc], [a->pfree]) and the allocation
    functions built on it ([lib/ukalloc/alloc.c]).  [BBuddy] provides the instance of the
    buddy allocator; [UkAlloc] is proved against the class. *)
From Stdlib Require Import ZArith Lia Bool.
From S2P Require Import Prelude.
Open Scope Z_scope.

Definition PAGE : Z := 4096.

(** A block of [n] pages at [p] is the pair [(p, n)]. *)
Definition block_end (blk : Z * Z) : Z := blk.1 + PAGE * blk.2.

Definition blocks_apart (b1 b2 : Z * Z) : Prop :=
  block_end b1 <= b2.1 \/ block_end b2 <= b1.1.

Lemma blocks_apart_sym b1 b2 : blocks_apart b1 b2 -> blocks_apart b2 b1.
Proof. unfold blocks_apart. tauto. Qed.

(** A block a client may hold. *)
Definition block_ok (blk : Z * Z) : Prop :=
  0 < blk.1 /\ (PAGE | blk.1) /\ 0 < blk.2 /\ block_end blk < 2 ^ 64.

(** [pa_inv t live]: the allocator is in a good state with exactly the blocks of [live] handed
    out.  [palloc] answers 0 or a block apart from all of these; giving a block back succeeds. *)
Class PageAllocator (T : Type) := {
  pa_inv : T -> list (Z * Z) -> Prop;
  pa_palloc : T -> Z -> option (Z * T);
  pa_pfree : T -> Z -> Z -> option T;
  pa_blocks t live : pa_inv t live -> Forall block_ok live /\ pairwise blocks_apart live;
  pa_palloc_spec t live n :
    pa_inv t live -> 0 < n <= 2 ^ 52 ->
    exists p t', pa_palloc t n = Some (p, t') /\
      (p = 0 /\ pa_inv t' live \/ p <> 0 /\ pa_inv t' ((p, n) :: live));
  pa_pfree_spec t l1 p n l2 :
    pa_inv t (l1 ++ (p, n) :: l2) ->
    exists t', pa_pfree t p n = Some t' /\ pa_inv t' (l1 ++ l2)
}.

(** ** Clients *)

(** A client asks for pages or gives back the [k]-th block it holds. *)
Inductive page_req := PAlloc (n : Z) | PFree (k : nat).

Definition page_req_ok (r : page_req) : Prop :=
  match r with PAlloc n => 0 < n <= 2 ^ 52 | PFree _ => True end.

Section Client.
Context `{PageAllocator T}.
Implicit Types (t : T) (live : list (Z * Z)).

Definition pa_step t live (r : page_req) : option (T * list (Z * Z)) :=
  match r with
  | PAlloc n =>
      '(p, t') ← pa_palloc t n;
      Some (t', if p =? 0 then live else (p, n) :: live)
  | PFree k =>
      match live !! k with
      | None => Some (t, live)
      | Some (p, n) => t' ← pa_pfree t p n; Some (t', delete k live)
      end
  end.

Fixpoint pa_run t live (rs : list page_req) : option (T * list (Z * Z)) :=
  match rs with
  | [] => Some (t, live)
  | r :: rs' => '(t', live') ← pa_step t live r; pa_run t' live' rs'
  end.

(** No request sequence can make the allocator fail or corrupt it. *)
Lemma pa_run_inv t live rs :
  pa_inv t live -> Forall page_req_ok rs ->
  exists t' live', pa_run t live rs = Some (t', live') /\ pa_inv t' live'.
Proof.
  intros Hinv Hrs. revert t live Hinv. induction Hrs as [|r rs Hr _ IH]; intros t live Hinv; cbn.
  { eauto. }
  destruct r as [n|k]; cbn.
  - destruct (pa_palloc_spec t live n Hinv Hr) as (p & t' & -> & Hres). cbn.
    destruct (Z.eqb_spec p 0); apply IH; destruct Hres as [[? ?]|[? ?]]; done || lia.
  - destruct (live !! k) as [[p n]|] eqn:Hk; [|by apply IH].
    rewrite <- (take_drop_middle live k (p, n) Hk) in Hinv.
    destruct (pa_pfree_spec t _ p n _ Hinv) as (t' & -> & Hinv'). cbn. apply IH.
    by rewrite delete_take_drop.
Qed.
(** What both calls keep is kept by a run. *)
Lemma pa_run_keeps (Q : T -> Prop) rs :
  (forall t n p t', pa_palloc t n = Some (p, t') -> Q t -> Q t') -> (forall t p n t', pa_pfree t p n = Some t' -> Q t -> Q t') ->
  forall t live t' live', pa_run t live rs = Some (t', live') -> Q t -> Q t'.
Proof.
  intros Ha Hf. induction rs as [|r rs IH]; intros t live t' live'; cbn [pa_run]; [by intros [= <- <-]|]. intros ([t1 live1] & Hs & Hr)%bind_Some HQ. apply (IH t1 live1 t' live' Hr).
  destruct r as [n|k]; cbn [pa_step] in Hs; [apply bind_Some in Hs as ([p t2] & H1 & [= <- <-]); by eapply Ha|]. destruct (live !! k) as [[p n]|]; [|by injection Hs as <- <-].
  apply bind_Some in Hs as (t2 & H1 & [= <- <-]). by eapply Hf.
Qed.
End Client.
