(* ===== verification/BBuddy.v ===== *)
(** * BBuddy: the binary buddy page allocator

    Models [lib/ukallocbbuddy/bbuddy.c]: [num_pages_to_order], [bbuddy_palloc],
    [bbuddy_pfree], [bbuddy_addmem] and [uk_allocbbuddy_init], on top of the bitmap
    ([BBuddyMap]) and the free lists ([BBuddyList]). *)
From Stdlib Require Import ZArith Lia Bool.
From stdpp Require Import gmap.
From S2P Require Import Prelude BBuddyMap BBuddyList PageAlloc.
Open Scope Z_scope.

Module Buddy.
Export BBuddy BBList.

Definition EINVAL : Z := 22.
Definition sizeof_memr : Z := 40.
Definition sizeof_chunk_tail : Z := 4.

(** [ukarch_flsl]: position of the highest set bit of a nonzero word. *)
Definition ukarch_flsl (w : Z) : Z := Z.log2 w.

Definition num_pages_to_order (num_pages : Z) : option Z :=
  if num_pages =? 0 then None
  else if num_pages =? 1 then Some 0
  else Some (ukarch_flsl (num_pages - 1) + 1).

(** [1UL << (i + __PAGE_SHIFT)] *)
Definition bsize (i : Z) : Z := 2 ^ (i + PAGE_SHIFT).

(** [(chunk_tail_t * ) end - 1] *)
Definition tail_of (end_ : Z) : Z := end_ - sizeof_chunk_tail.

(** [for (i = order; i < FREELIST_SIZE; i++) if (!FREELIST_EMPTY(...)) break;] *)
Fixpoint find_order (fuel : nat) (b : uk_bbpalloc) (i : Z) : option Z :=
  match fuel with
  | O => Some i
  | S fuel' =>
      e ← freelist_empty b i;
      if negb e then Some i else find_order fuel' b (i + 1)
  end.

(** [while (i != order) { i--; ... }], the spare half of every split going to its list. *)
Fixpoint split_loop (fuel : nat) (b : uk_bbpalloc) (alloc_ch i order : Z)
    : option uk_bbpalloc :=
  if i =? order then Some b
  else
    match fuel with
    | O => None
    | S fuel' =>
        let i := i - 1 in
        let spare_ch := alloc_ch + bsize i in
        let spare_ct := tail_of (spare_ch + bsize i) in
        b ← link_front b i spare_ch spare_ct;
        split_loop fuel' b alloc_ch i order
    end.

(** The address is 0 when no chunk is large enough; [None] when the code would fail an
    assertion or leave an array. *)
Definition bbuddy_palloc (b : uk_bbpalloc) (num_pages : Z) : option (Z * uk_bbpalloc) :=
  order ← num_pages_to_order num_pages;
  i ← find_order (Z.to_nat (FREELIST_SIZE - order)) b order;
  if i =? FREELIST_SIZE then Some (0, b)
  else
    '(alloc_ch, b) ← pop_front b i;
    b ← split_loop (Z.to_nat (i - order)) b alloc_ch i order;
    b ← map_alloc b alloc_ch (2 ^ order);
    Some (alloc_ch, b).

(** The coalescing loop: the chunk, its tail and its order when it ends. *)
Fixpoint merge_loop (fuel : nat) (b : uk_bbpalloc) (freed_ch freed_ct order : Z)
    : option (uk_bbpalloc * Z * Z * Z) :=
  if order <? FREELIST_SIZE then
    match fuel with
    | O => None
    | S fuel' =>
        let mask := bsize order in
        if negb (Z.land freed_ch mask =? 0) then
          let to_merge_ch := freed_ch - mask in
          al ← allocated_in_map (memr_head b) to_merge_ch;
          if al : bool then Some (b, freed_ch, freed_ct, order)
          else
            h ← heads b !! to_merge_ch;
            if negb (level h =? order) then Some (b, freed_ch, freed_ct, order)
            else
              b ← unlink b to_merge_ch;
              merge_loop fuel' b to_merge_ch freed_ct (order + 1)
        else
          let to_merge_ch := freed_ch + mask in
          al ← allocated_in_map (memr_head b) to_merge_ch;
          if al : bool then Some (b, freed_ch, freed_ct, order)
          else
            h ← heads b !! to_merge_ch;
            if negb (level h =? order) then Some (b, freed_ch, freed_ct, order)
            else
              b ← unlink b to_merge_ch;
              merge_loop fuel' b freed_ch (tail_of (to_merge_ch + mask)) (order + 1)
    end
  else Some (b, freed_ch, freed_ct, order).

Definition bbuddy_pfree (b : uk_bbpalloc) (obj num_pages : Z) : option uk_bbpalloc :=
  order ← num_pages_to_order num_pages;
  if negb (Z.land obj (PAGE_SIZE - 1) =? 0) then None
  else
    b ← map_free b obj (2 ^ order);
    '(b, freed_ch, freed_ct, order) ←
      merge_loop (Z.to_nat (FREELIST_SIZE - order)) b obj (tail_of (obj + bsize order)) order;
    link_front b order freed_ch freed_ct.

Definition round_pgup (a : Z) : Z := ALIGN_UP a PAGE_SIZE.
Definition round_pgdown (a : Z) : Z := ALIGN_DOWN a PAGE_SIZE.

(** [for (i = __PAGE_SHIFT; (1UL << (i + 1)) <= range; i++) if (min & (1UL << i)) break;] *)
Fixpoint chunk_shift (fuel : nat) (i min range : Z) : Z :=
  match fuel with
  | O => i
  | S fuel' =>
      if 2 ^ (i + 1) <=? range then
        if negb (Z.land min (2 ^ i) =? 0) then i else chunk_shift fuel' (i + 1) min range
      else i
  end.

(** [while (range != 0)]: the largest chunks that alignment and size allow. *)
Fixpoint carve (fuel : nat) (b : uk_bbpalloc) (min range : Z) : option uk_bbpalloc :=
  if range =? 0 then Some b
  else
    match fuel with
    | O => None
    | S fuel' =>
        let i := chunk_shift 51 PAGE_SHIFT min range in
        let ch := min in
        let min := min + 2 ^ i in
        let range := range - 2 ^ i in
        b ← link_front b (i - PAGE_SHIFT) ch (tail_of min);
        carve fuel' b min range
    end.

(** Number of pages of a region and size of its metadata, from the bytes available. *)
Definition memr_pages (range : Z) : Z :=
  u64 (BITS_PER_BYTE * u64 (range - sizeof_memr)) / (BITS_PER_BYTE * PAGE_SIZE + 1).

Definition memr_meta (nr : Z) : Z :=
  round_pgup (sizeof_memr + (nr + BITS_PER_BYTE - 1) / BITS_PER_BYTE).

Definition bbuddy_addmem (b : uk_bbpalloc) (base len : Z) : option (Z * uk_bbpalloc) :=
  if base =? 0 then None
  else
    let min := round_pgup base in
    let max := round_pgdown (u64 (base + len)) in
    if max <? min then Some (- EINVAL, b)
    else
      let range := max - min in
      if range <? round_pgup (sizeof_memr + BYTES_PER_MAPWORD) + PAGE_SIZE then Some (- EINVAL, b)
      else
        let nr := memr_pages range in
        let memr_size := memr_meta nr in
        let bitmap_size := memr_size - sizeof_memr in
        let min := min + memr_size in
        let range := range - memr_size in
        let memr := Memr min nr bitmap_size
                      (replicate (Z.to_nat (bitmap_size / BYTES_PER_MAPWORD)) (2 ^ 64 - 1)) in
        let b := BB (nr_free_pages b) (free_head b) (free_tail b) (memr :: memr_head b)
                    (heads b) (tails b) in
        b ← map_free b min nr;
        b ← carve (Z.to_nat (range / PAGE_SIZE)) b min range;
        Some (0, b).

(** The lists of a new allocator. *)
Definition bb_empty : uk_bbpalloc :=
  BB 0 (Tail <$> (Z.of_nat <$> seq 0 52))
     ((fun i : nat => ChunkHead Null (FreeHead (Z.of_nat i)) 0) <$> seq 0 52) [] ∅ ∅.

(** [sizes] is [sizeof(struct uk_alloc) + sizeof(struct uk_bbpalloc)]; the result of
    [bbuddy_addmem] is ignored. *)
Definition uk_allocbbuddy_init (sizes base len : Z) : option (option uk_bbpalloc) :=
  let min := round_pgup base in
  let max := round_pgdown (u64 (base + len)) in
  if max <=? min then None
  else
    let metalen := round_pgup sizes in
    if max <? u64 (min + metalen) then Some None
    else
      let min := min + metalen in
      if u64 (min + metalen) <? max then
        '(_, b) ← bbuddy_addmem bb_empty (u64 (min + metalen)) (u64 (max - min - metalen));
        Some (Some b)
      else Some (Some bb_empty).

(** ** Orders and sizes *)

Lemma num_pages_to_order_spec n : 0 < n -> num_pages_to_order n = Some (Z.log2_up n).
Proof.
  intros Hn. unfold num_pages_to_order, ukarch_flsl. repeat case_test; subst; try done; try lia.
  rewrite Z.log2_up_eqn by lia. by rewrite <- Z.add_1_r, <- Z.sub_1_r.
Qed.

Lemma bsize_page i : 0 <= i -> bsize i = PAGE_SIZE * 2 ^ i.
Proof. intros. unfold bsize. rewrite Z.pow_add_r by done. unfold PAGE_SIZE. change (2 ^ PAGE_SHIFT) with 4096. lia. Qed.

Lemma bsize_pos i : 0 <= i -> PAGE_SIZE <= bsize i.
Proof. intros. rewrite bsize_page by done. pose proof (pow2_pos i). unfold PAGE_SIZE. lia. Qed.

Lemma bsize_succ i : 0 <= i -> bsize (i + 1) = 2 * bsize i.
Proof.
  intros. unfold bsize. replace (i + 1 + PAGE_SHIFT) with (1 + (i + PAGE_SHIFT)) by lia.
  rewrite Z.pow_add_r; unfold PAGE_SHIFT; lia.
Qed.

Lemma bsize_divide i j : 0 <= i <= j -> (bsize i | bsize j).
Proof.
  intros H. exists (2 ^ (j - i)). unfold bsize, PAGE_SHIFT. rewrite <- Z.pow_add_r by lia. f_equal. lia.
Qed.

Lemma bsize_div_page i : 0 <= i -> (PAGE_SIZE | bsize i).
Proof. intros. rewrite bsize_page by done. apply Z.divide_factor_l. Qed.

(** Two multiples of [s] less than [s] apart are equal. *)
Lemma multiples_close s a b : 0 < s -> (s | a) -> (s | b) -> a <= b < a + s -> a = b.
Proof. intros Hs [x ->] [y ->] H. f_equal. nia. Qed.

(** The parity test of the coalescing loop. *)
Lemma land_buddy k s : 0 <= s -> (Z.land (k * 2 ^ s) (2 ^ s) =? 0) = Z.even k.
Proof.
  intros Hs. assert (Hb : Z.testbit (k * 2 ^ s) s = Z.odd k).
  { rewrite Z.mul_pow2_bits by done. by rewrite Z.sub_diag, Z.bit0_odd. }
  rewrite <- Z.negb_odd, <- Hb. destruct (Z.eqb_spec (Z.land (k * 2 ^ s) (2 ^ s)) 0) as [E|E].
  - apply (f_equal (fun z => Z.testbit z s)) in E.
    rewrite Z.land_spec, Z.pow2_bits_true, andb_true_r, Z.bits_0 in E by done. by rewrite E.
  - destruct (Z.testbit (k * 2 ^ s) s) eqn:Eb; [done|]. exfalso. apply E.
    apply Z.bits_inj'. intros j Hj. rewrite Z.land_spec, Z.bits_0, Z.pow2_bits_eqb by done.
    destruct (Z.eqb_spec s j); [subst; by rewrite Eb|apply andb_false_r].
Qed.

(** ** Chunks and free pages

    [C a i]: there is a chunk of order [i] at [a].  The chunks partition the free pages,
    those in [P], into naturally aligned blocks. *)
Record chunks_ok (P : Z -> Prop) (C : Z -> Z -> Prop) : Prop := {
  ck_order a i : C a i -> 0 <= i;
  ck_align a i : C a i -> (bsize i | a);
  ck_free a i va : C a i -> a <= va < a + bsize i -> P va;
  ck_disj a i c j : C a i -> C c j -> a + bsize i <= c \/ c + bsize j <= a \/ (a = c /\ i = j);
  ck_cover va : P va -> exists a i, C a i /\ a <= va < a + bsize i
}.

Lemma chunks_ok_ext (P : Z -> Prop) C C' :
  chunks_ok P C -> (forall a i, C' a i <-> C a i) -> chunks_ok P C'.
Proof.
  intros [H1 H2 H3 H4 H5] E. split; intros.
  - by eapply H1, E.
  - by eapply H2, E.
  - eapply H3; [by apply E|done].
  - apply H4; by apply E.
  - destruct (H5 _ H) as (a & i & ? & ?). exists a, i. by rewrite E.
Qed.

Lemma chunks_split (P : Z -> Prop) (C C' : Z -> Z -> Prop) a i :
  chunks_ok P C -> C a (i + 1) -> 0 <= i ->
  (forall x j, C' x j <-> (C x j /\ ~ (x = a /\ j = i + 1)) \/ (j = i /\ (x = a \/ x = a + bsize i))) ->
  chunks_ok P C'.
Proof.
  intros [H1 H2 H3 H4 H5] Ha Hi E. pose proof (bsize_succ i Hi) as Hs. pose proof (bsize_pos i Hi) as Hp.
  unfold PAGE_SIZE in Hp. pose proof (H2 _ _ Ha) as Hal. rewrite Hs in Hal.
  assert (Hx : forall x j, C' x j -> exists x0 j0, C x0 j0 /\ x0 <= x /\ x + bsize j <= x0 + bsize j0 /\
     ((x0 = x /\ j0 = j /\ ~ (x = a /\ j = i + 1)) \/ (x0 = a /\ j0 = i + 1 /\ j = i /\ (x = a \/ x = a + bsize i)))).
  { intros x j Hx. apply E in Hx as [[Hc Hn]|[-> Hx]].
    - exists x, j. repeat split; try done; try lia; by left.
    - exists a, (i + 1). rewrite Hs. repeat split; try done; try lia; by right. }
  split.
  - intros x j Hc. apply E in Hc as [[Hc _]|[-> _]]; [by eapply H1|done].
  - intros x j Hc. apply E in Hc as [[Hc _]|[-> [->| ->]]]; [by eapply H2|..].
    + destruct Hal as [k ->]. exists (k * 2). lia.
    + destruct Hal as [k ->]. exists (k * 2 + 1). lia.
  - intros x j va Hc Hva. destruct (Hx _ _ Hc) as (x0 & j0 & Hc0 & ? & ? & _).
    eapply H3; [exact Hc0|lia].
  - intros x j y k Hxj Hyk.
    destruct (Hx _ _ Hxj) as (x0 & j0 & Hx0 & ? & ? & Hcx), (Hx _ _ Hyk) as (y0 & k0 & Hy0 & ? & ? & Hcy).
    destruct (H4 _ _ _ _ Hx0 Hy0) as [?|[?|[? ?]]]; [lia|lia|].
    destruct Hcx as [(-> & -> & ?)|(-> & -> & -> & Hcx)], Hcy as [(-> & -> & ?)|(-> & -> & -> & Hcy)];
      try (right; right; lia); lia.
  - intros va Hva. destruct (H5 va Hva) as (x & j & Hc & Hin).
    destruct (decide (x = a /\ j = i + 1)) as [[-> ->]|Hne].
    + rewrite Hs in Hin. destruct (Z.ltb_spec va (a + bsize i)).
      * exists a, i. split; [apply E; right; by auto|lia].
      * exists (a + bsize i), i. split; [apply E; right; by auto|lia].
    + exists x, j. split; [apply E; by left|done].
Qed.

Lemma chunks_merge (P : Z -> Prop) (C C' : Z -> Z -> Prop) a i :
  chunks_ok P C -> C a i -> C (a + bsize i) i -> (bsize (i + 1) | a) ->
  (forall x j, C' x j <->
     (C x j /\ ~ (j = i /\ (x = a \/ x = a + bsize i))) \/ (x = a /\ j = i + 1)) ->
  chunks_ok P C'.
Proof.
  intros [H1 H2 H3 H4 H5] Ha Hb Hal E. pose proof (H1 _ _ Ha) as Hi.
  pose proof (bsize_succ i Hi) as Hs. pose proof (bsize_pos i Hi) as Hp. unfold PAGE_SIZE in Hp. split.
  - intros x j Hc. apply E in Hc as [[Hc _]|[-> ->]]; [by eapply H1|lia].
  - intros x j Hc. apply E in Hc as [[Hc _]|[-> ->]]; [by eapply H2|done].
  - intros x j va Hc Hva. apply E in Hc as [[Hc _]|[-> ->]]; [by eapply H3|].
    rewrite Hs in Hva. destruct (Z.ltb_spec va (a + bsize i)); [apply (H3 a i)|apply (H3 (a + bsize i) i)];
      done || lia.
  - intros x j y k Hxj Hyk. apply E in Hxj as [[Hx Hnx]|[-> ->]], Hyk as [[Hy Hny]|[-> ->]].
    + by apply H4.
    + rewrite Hs. destruct (H4 _ _ _ _ Hx Ha) as [?|[?|[? ?]]]; [lia| |tauto].
      destruct (H4 _ _ _ _ Hx Hb) as [?|[?|[? ?]]]; [|lia|tauto].
      pose proof (H1 _ _ Hx) as Hj. pose proof (bsize_pos j Hj). unfold PAGE_SIZE in *. lia.
    + rewrite Hs. destruct (H4 _ _ _ _ Hy Ha) as [?|[?|[? ?]]]; [lia| |tauto].
      destruct (H4 _ _ _ _ Hy Hb) as [?|[?|[? ?]]]; [|lia|tauto].
      pose proof (H1 _ _ Hy) as Hj. pose proof (bsize_pos k Hj). unfold PAGE_SIZE in *. lia.
    + right. right. done.
  - intros va Hva. destruct (H5 va Hva) as (x & j & Hc & Hin).
    destruct (decide (j = i /\ (x = a \/ x = a + bsize i))) as [[-> Hx]|Hne].
    + exists a, (i + 1). split; [apply E; by right|]. rewrite Hs. lia.
    + exists x, j. split; [apply E; by left|done].
Qed.

(** Handing a chunk out removes its pages from the map, taking it back adds them. *)
Lemma chunks_alloc (P P' : Z -> Prop) (C C' : Z -> Z -> Prop) a i :
  chunks_ok P C -> C a i ->
  (forall va, P' va <-> P va /\ ~ (a <= va < a + bsize i)) ->
  (forall x j, C' x j <-> C x j /\ ~ (x = a /\ j = i)) -> chunks_ok P' C'.
Proof.
  intros [H1 H2 H3 H4 H5] Ha Hl E. split.
  - intros x j [Hc _]%E. by eapply H1.
  - intros x j [Hc _]%E. by eapply H2.
  - intros x j va [Hc Hn]%E Hva. apply Hl. split; [by eapply H3|].
    destruct (H4 _ _ _ _ Hc Ha) as [?|[?|[? ?]]]; [lia|lia|by destruct Hn].
  - intros x j y k [Hx _]%E [Hy _]%E. by apply H4.
  - intros va [Hva Hn]%Hl. destruct (H5 va Hva) as (x & j & Hc & Hin). exists x, j.
    split; [|done]. apply E. split; [done|]. intros [-> ->]. done.
Qed.

Lemma chunks_free (P P' : Z -> Prop) (C C' : Z -> Z -> Prop) a i :
  chunks_ok P C -> 0 <= i -> (bsize i | a) ->
  (forall va, a <= va < a + bsize i -> ~ P va) ->
  (forall va, P' va <-> P va \/ a <= va < a + bsize i) ->
  (forall x j, C' x j <-> C x j \/ (x = a /\ j = i)) -> chunks_ok P' C'.
Proof.
  intros [H1 H2 H3 H4 H5] Hi Hal Hnf Hl E. pose proof (bsize_pos i Hi). unfold PAGE_SIZE in *.
  assert (Hd : forall x j, C x j -> x + bsize j <= a \/ a + bsize i <= x).
  { intros x j Hc. pose proof (H1 _ _ Hc). pose proof (bsize_pos j ltac:(done)). unfold PAGE_SIZE in *.
    destruct (Z.leb_spec (x + bsize j) a); [lia|]. destruct (Z.leb_spec (a + bsize i) x); [lia|].
    exfalso. apply (Hnf (Z.max x a)); [lia|]. apply (H3 x j); [done|lia]. }
  split.
  - intros x j [Hc|[-> ->]]%E; [by eapply H1|done].
  - intros x j [Hc|[-> ->]]%E; [by eapply H2|done].
  - intros x j va [Hc|[-> ->]]%E Hva; apply Hl; [left; by eapply H3|by right].
  - intros x j y k [Hx|[-> ->]]%E [Hy|[-> ->]]%E; [by apply H4| | |by right; right].
    + destruct (Hd _ _ Hx); lia.
    + destruct (Hd _ _ Hy); lia.
  - intros va [Hva|Hva]%Hl.
    + destruct (H5 va Hva) as (x & j & Hc & Hin). exists x, j. split; [apply E; by left|done].
    + exists a, i. split; [apply E; by right|done].
Qed.

(** The buddy of a chunk, when its first page is free, is itself the start of a chunk, of at
    most the same order: the head the code reads there is a valid one. *)
Lemma buddy_chunk (P : Z -> Prop) C f o X :
  chunks_ok P C -> C f o -> (bsize o | X) ->
  (X = f + bsize o /\ (bsize (o + 1) | f) \/ X = f - bsize o /\ (bsize (o + 1) | X)) ->
  P X -> exists o', C X o' /\ o' <= o.
Proof.
  intros [H1 H2 H3 H4 H5] Hf HX Hbud Hfree. pose proof (H1 _ _ Hf) as Ho.
  pose proof (bsize_pos o Ho). pose proof (bsize_succ o Ho) as Hs. unfold PAGE_SIZE in *.
  destruct (H5 X Hfree) as (c & o' & Hc & Hin). pose proof (H1 _ _ Hc) as Ho'.
  pose proof (bsize_pos o' Ho') as Hp'. unfold PAGE_SIZE in *.
  destruct (Z.leb_spec o' o) as [Hle|Hgt].
  - exists o'. split; [|done]. enough (c = X) as <- by done.
    apply (multiples_close (bsize o')); [lia|by eapply H2| |lia].
    etransitivity; [|exact HX]. by apply bsize_divide.
  - exfalso. assert (Hdiv : (bsize (o + 1) | c)).
    { etransitivity; [|by eapply H2]. apply bsize_divide. lia. }
    assert (Hsz : (bsize (o + 1) | bsize o')) by (apply bsize_divide; lia).
    destruct (H4 _ _ _ _ Hf Hc) as [?|[?|[? ?]]]; [| |lia].
    + destruct Hbud as [[-> HB]|[-> HB]].
      * destruct HB as [x Hx], Hdiv as [y Hy]. rewrite Hs in Hx, Hy.
        assert (bsize o * (2 * x + 1) = bsize o * (2 * y)) by lia.
        assert (2 * x + 1 = 2 * y) by (eapply Z.mul_reg_l; [|done]; lia). lia.
      * lia.
    + destruct Hbud as [[-> HB]|[-> HB]]; [lia|].
      destruct HB as [x Hx], Hdiv as [y Hy], Hsz as [z Hz]. rewrite Hs in Hx, Hy, Hz.
      assert (x + 1 <= y + z) by nia.
      assert ((x + 1) * (2 * bsize o) <= (y + z) * (2 * bsize o)) by (apply Z.mul_le_mono_nonneg_r; lia).
      lia.
Qed.

(** ** The invariant *)

Definition gap (l : list uk_bbpalloc_memr) : Prop :=
  forall i j m m', l !! i = Some m -> l !! j = Some m' -> i <> j ->
    first_page m + PAGE_SIZE * nr_pages m < first_page m' \/
    first_page m' + PAGE_SIZE * nr_pages m' < first_page m.

(** A range of addresses lies in one region. *)
Definition in_region (l : list uk_bbpalloc_memr) (a s : Z) : Prop :=
  exists k m, l !! k = Some m /\ first_page m <= a /\ a + s <= first_page m + PAGE_SIZE * nr_pages m.

Lemma free_in_region l a s :
  regions_ok l -> gap l -> 0 < s -> (forall va, a <= va < a + s -> page_free l va) ->
  in_region l a s.
Proof.
  intros Hok Hgap Hs Hfree. destruct (page_free_region l a Hok (Hfree a ltac:(lia))) as (k & m & Hk & Hin).
  exists k, m. unfold in_memr in Hin. split; [done|]. split; [lia|].
  set (e := first_page m + PAGE_SIZE * nr_pages m) in *.
  destruct (Z.leb_spec (a + s) e); [done|]. exfalso.
  destruct (page_free_region l e Hok (Hfree e ltac:(lia))) as (k' & m' & Hk' & Hin').
  unfold in_memr in Hin'. destruct (decide (k = k')) as [<-|Hne].
  - simplify_eq. subst e. lia.
  - destruct (Hgap k k' m m') as [?|?]; [done|done|done|subst e; lia..].
Qed.

Lemma geometry_lookup l l' k m :
  geometry l' = geometry l -> l !! k = Some m ->
  exists m', l' !! k = Some m' /\ first_page m' = first_page m /\ nr_pages m' = nr_pages m.
Proof.
  intros Hg Hk. apply (f_equal (fun g => g !! k)) in Hg. unfold geometry in Hg.
  rewrite !list_lookup_fmap, Hk in Hg. cbn in Hg.
  destruct (l' !! k) as [m'|]; [|done]. cbn in Hg. simplify_eq. by exists m'.
Qed.

Lemma in_region_geometry l l' a s :
  geometry l' = geometry l -> in_region l a s -> in_region l' a s.
Proof.
  intros Hg (k & m & Hk & H). destruct (geometry_lookup _ _ _ _ Hg Hk) as (m' & Hk' & E1 & E2).
  exists k, m'. by rewrite E1, E2.
Qed.

Lemma gap_geometry l l' : geometry l' = geometry l -> gap l -> gap l'.
Proof.
  intros Hg H i j m m' Hi Hj Hne.
  destruct (geometry_lookup l' l i m (eq_sym Hg) Hi) as (m1 & H1 & <- & <-).
  destruct (geometry_lookup l' l j m' (eq_sym Hg) Hj) as (m2 & H2 & <- & <-). by eapply H.
Qed.

(** Chunks on the free lists, and the one an operation is working on. *)
Definition held (fl : Z -> list Z) (h : option (Z * Z)) (a i : Z) : Prop :=
  a ∈ fl i \/ h = Some (a, i).

(** Pages on the lists of order below [n]. *)
Fixpoint total (n : nat) (fl : Z -> list Z) : Z :=
  match n with
  | O => 0
  | S n' => total n' fl + 2 ^ Z.of_nat n' * zlen (fl (Z.of_nat n'))
  end.

Lemma total_upd n fl i l :
  0 <= i < Z.of_nat n ->
  total n (upd fl i l) = total n fl + 2 ^ i * (zlen l - zlen (fl i)).
Proof.
  assert (Hout : forall n, Z.of_nat n <= i -> total n (upd fl i l) = total n fl).
  { intros k. induction k as [|k IH]; intros Hk; cbn [total]; [done|].
    rewrite IH, upd_ne by lia. done. }
  induction n as [|n IH]; intros Hi; [lia|]. cbn [total].
  destruct (decide (i = Z.of_nat n)) as [->|Hne].
  - rewrite Hout, upd_eq by lia. lia.
  - rewrite IH, upd_ne by lia. lia.
Qed.

Definition held_pages (h : option (Z * Z)) : Z :=
  match h with Some (_, i) => 2 ^ i | None => 0 end.

(** The pages a request for [n] pages really takes. *)
Definition order_of (n : Z) : Z := Z.log2_up n.

Definition live_apart (b1 b2 : Z * Z) : Prop :=
  b1.1 + bsize (order_of b1.2) <= b2.1 \/ b2.1 + bsize (order_of b2.2) <= b1.1.

(** Pages taken by the live blocks. *)
Fixpoint live_pages (live : list (Z * Z)) : Z :=
  match live with [] => 0 | blk :: live' => 2 ^ order_of blk.2 + live_pages live' end.

Lemma live_pages_app l1 l2 : live_pages (l1 ++ l2) = live_pages l1 + live_pages l2.
Proof. induction l1 as [|x l1 IH]; cbn; [done|]. rewrite IH. lia. Qed.

Record live_ok (l : list uk_bbpalloc_memr) (blk : Z * Z) : Prop := {
  lv_n : 0 < blk.2;
  lv_align : (bsize (order_of blk.2) | blk.1);
  lv_region : in_region l blk.1 (bsize (order_of blk.2));
  lv_taken va : blk.1 <= va < blk.1 + bsize (order_of blk.2) -> ~ page_free l va
}.

(** [wf np b fl h live]: free lists, regions, chunks, page count and live blocks agree, over [np]
    pages in all. *)
Record wf (np : Z) (b : uk_bbpalloc) (fl : Z -> list Z) (h : option (Z * Z)) (live : list (Z * Z)) : Prop := {
  wf_lists : lists_ok b fl;
  wf_regions : regions_ok (memr_head b);
  wf_gap : gap (memr_head b);
  wf_chunks : chunks_ok (page_free (memr_head b)) (held fl h);
  wf_fresh a i j : h = Some (a, i) -> a ∉ fl j;
  wf_count : nr_free_pages b = u64 (total 52 fl + held_pages h);
  wf_pages : total 52 fl + held_pages h + live_pages live = np;
  wf_live : Forall (live_ok (memr_head b)) live;
  wf_apart : pairwise live_apart live
}.

(** No two buddies are free side by side: [a] is the lower one when it is aligned to the next order. *)
Definition merged (fl : Z -> list Z) : Prop := forall a i, a ∈ fl i -> (bsize (i + 1) | a) -> a + bsize i ∉ fl i.

Lemma merged_sub fl fl' : (forall a i, a ∈ fl' i -> a ∈ fl i) -> merged fl -> merged fl'.
Proof. intros H M a i Ha Hd Hb. by apply (M a i); auto. Qed.

(** A chunk may be put on its list when its buddy is not there. *)
Lemma merged_upd fl f o : merged fl -> 0 <= o -> ((bsize (o + 1) | f) -> f + bsize o ∉ fl o) ->
  (forall x, x ∈ fl o -> (bsize (o + 1) | x) -> x + bsize o <> f) -> merged (upd fl o (f :: fl o)).
Proof.
  intros M Ho H1 H2 a i. destruct (decide (i = o)) as [->|Hne]; [|rewrite upd_ne by done; apply M]. pose proof (bsize_pos o Ho) as Hp. unfold PAGE_SIZE in Hp.
  rewrite upd_eq, !elem_of_cons. intros [->|Ha] Hd [E|Hb]; [lia|by apply H1|by apply (H2 a)|by apply (M a o)].
Qed.

Section Wf.
Context (np : Z) (b : uk_bbpalloc) (fl : Z -> list Z) (h : option (Z * Z)) (live : list (Z * Z)).
Context (W : wf np b fl h live).

(** A chunk is inside a region, so its order is one of the lists'. *)
Lemma chunk_region a i : held fl h a i -> in_region (memr_head b) a (bsize i).
Proof.
  intros Hc. pose proof (ck_order _ _ (wf_chunks _ _ _ _ _ W) _ _ Hc) as Hi.
  pose proof (bsize_pos i Hi). unfold PAGE_SIZE in *.
  apply free_in_region; [apply W|apply W|lia|]. intros va Hva.
  by eapply (ck_free _ _ (wf_chunks _ _ _ _ _ W)).
Qed.

Lemma region_bounds a s : in_region (memr_head b) a s -> 0 < a /\ a + s < 2 ^ 64.
Proof.
  intros (k & m & Hk & Hlo & Hhi). destruct (ro_memr _ (wf_regions _ _ _ _ _ W) _ _ Hk).
  unfold PAGE_SIZE in *. lia.
Qed.

Lemma chunk_order a i : held fl h a i -> 0 <= i < FREELIST_SIZE.
Proof.
  intros Hc. pose proof (ck_order _ _ (wf_chunks _ _ _ _ _ W) _ _ Hc) as Hi. split; [done|].
  pose proof (region_bounds _ _ (chunk_region a i Hc)) as [? Hlt].
  destruct (Z.ltb_spec i FREELIST_SIZE) as [|Hge]; [done|]. exfalso.
  assert (2 ^ 64 <= bsize i); [|lia]. unfold bsize, FREELIST_SIZE, PAGE_SHIFT in *.
  apply Z.pow_le_mono_r; lia.
Qed.
End Wf.

(** What the list operations leave alone carries the rest of the invariant along. *)
Lemma wf_relist np b b' fl fl' h h' live :
  wf np b fl h live -> lists_ok b' fl' -> same_rest b b' ->
  chunks_ok (page_free (memr_head b)) (held fl' h') -> (forall a i j, h' = Some (a, i) -> a ∉ fl' j) ->
  total 52 fl' + held_pages h' = total 52 fl + held_pages h ->
  wf np b' fl' h' live.
Proof.
  intros W HL [En Em] HC Hf Ht. destruct W. split; rewrite ?Em, ?En, ?Ht; done.
Qed.

Lemma wf_pop np b fl live i a l :
  wf np b fl None live -> 0 <= i < FREELIST_SIZE -> fl i = a :: l ->
  exists b', pop_front b i = Some (a, b') /\ wf np b' (upd fl i l) (Some (a, i)) live /\ (merged fl -> merged (upd fl i l)).
Proof.
  intros W Hi Hfl. destruct (pop_front_spec b fl (wf_lists _ _ _ _ _ W) i a l Hi Hfl) as (b' & Hb' & HL & HR).
  exists b'. split; [done|]. split; [|apply merged_sub; intros x j; destruct (decide (j = i)) as [->|]; [rewrite upd_eq, Hfl, elem_of_cons; by right|by rewrite upd_ne by done]].
  pose proof (lo_nodup _ _ (wf_lists _ _ _ _ _ W) i) as Hnd. rewrite Hfl in Hnd. apply list.NoDup_cons in Hnd as [Ha _].
  assert (Hin : a ∈ fl i) by (rewrite Hfl; apply list_elem_of_here).
  eapply wf_relist; [exact W|exact HL|exact HR| | |].
  - eapply chunks_ok_ext; [apply W|]. intros x j. unfold held.
    destruct (decide (j = i)) as [->|]; [rewrite upd_eq, Hfl, elem_of_cons|rewrite upd_ne by done];
      naive_solver.
  - intros x y j [= <- <-]. destruct (decide (j = i)) as [->|]; [by rewrite upd_eq|].
    rewrite upd_ne by done. intros Hj. by pose proof (lo_uniq _ _ (wf_lists _ _ _ _ _ W) _ _ _ Hin Hj).
  - unfold FREELIST_SIZE in *. rewrite total_upd by lia. cbn [held_pages]. rewrite Hfl. cbn [length]. lia.
Qed.

Lemma wf_link np b fl live f o ct :
  wf np b fl (Some (f, o)) live ->
  exists b', link_front b o f ct = Some b' /\ wf np b' (upd fl o (f :: fl o)) None live.
Proof.
  intros W. pose proof (chunk_order _ _ _ _ _ W f o (or_intror eq_refl)) as Ho.
  destruct (link_front_spec b fl (wf_lists _ _ _ _ _ W) o f ct Ho) as (b' & Hb' & HL & HR).
  { intros j. by apply (wf_fresh _ _ _ _ _ W f o). }
  exists b'. split; [done|]. eapply wf_relist; [exact W|exact HL|exact HR| |done|].
  - eapply chunks_ok_ext; [apply W|]. intros x j. unfold held.
    destruct (decide (j = o)) as [->|]; [rewrite upd_eq, elem_of_cons|rewrite upd_ne by done];
      naive_solver.
  - unfold FREELIST_SIZE in *. rewrite total_upd by lia. cbn [held_pages length]. lia.
Qed.

Lemma wf_split np b fl live a i ct :
  wf np b fl (Some (a, i + 1)) live -> 0 <= i ->
  exists b', link_front b i (a + bsize i) ct = Some b' /\
    wf np b' (upd fl i ((a + bsize i) :: fl i)) (Some (a, i)) live /\ (merged fl -> merged (upd fl i ((a + bsize i) :: fl i))).
Proof.
  intros W Hi. pose proof (chunk_order _ _ _ _ _ W a (i + 1) (or_intror eq_refl)) as Ho.
  pose proof (bsize_pos i Hi). pose proof (bsize_succ i Hi) as Hs. unfold PAGE_SIZE in *.
  assert (Hfresh : forall j, a + bsize i ∉ fl j).
  { intros j Hj. pose proof (chunk_order _ _ _ _ _ W (a + bsize i) j (or_introl Hj)).
    pose proof (bsize_pos j ltac:(lia)). unfold PAGE_SIZE in *.
    destruct (ck_disj _ _ (wf_chunks _ _ _ _ _ W) a (i + 1) (a + bsize i) j) as [?|[?|[? ?]]];
      [by right|by left|lia..]. }
  destruct (link_front_spec b fl (wf_lists _ _ _ _ _ W) i (a + bsize i) ct) as (b' & Hb' & HL & HR);
    [lia|done|].
  exists b'. split; [done|]. split; [|intros M; apply merged_upd; [done|done|intros Hd|intros x Hx Hd Ex]].
  2: { pose proof (ck_align _ _ (wf_chunks _ _ _ _ _ W) a (i + 1) (or_intror eq_refl)) as Hal. exfalso. apply (Z.divide_add_cancel_r _ _ _ Hal) in Hd. apply Z.divide_pos_le in Hd; lia. }
  2: { replace x with a in Hx by lia. by apply (wf_fresh _ _ _ _ _ W a (i + 1) i). }
  eapply wf_relist; [exact W|exact HL|exact HR| | |].
  - eapply (chunks_split _ _ _ a i); [apply W|by right|done|]. intros x j. unfold held.
    destruct (decide (j = i)) as [->|]; [rewrite upd_eq, elem_of_cons|rewrite upd_ne by done].
    + split; [|naive_solver lia]. intros [[->|Hx]|[= ->]]; [naive_solver|left|naive_solver].
      split; [by left|lia].
    + split; [|naive_solver lia]. intros [Hx|[= -> ->]]; [|done]. left. split; [by left|].
      intros [-> ->]. by eapply (wf_fresh _ _ _ _ _ W).
  - intros x y j [= <- <-]. destruct (decide (j = i)) as [->|]; [rewrite upd_eq|rewrite upd_ne by done].
    + intros [?|?]%elem_of_cons; [lia|]. by eapply (wf_fresh _ _ _ _ _ W a (i + 1) i).
    + by apply (wf_fresh _ _ _ _ _ W a (i + 1)).
  - unfold FREELIST_SIZE in *. rewrite total_upd by lia. cbn [held_pages length].
    rewrite Z.pow_add_r by lia. lia.
Qed.

(** Coalescing with the buddy at [X]. *)
Lemma wf_coalesce np b fl live f o X :
  wf np b fl (Some (f, o)) live -> X ∈ fl o ->
  (X = f + bsize o /\ (bsize (o + 1) | f) \/ X = f - bsize o /\ (bsize (o + 1) | X)) ->
  exists b' fl', unlink b X = Some b' /\ wf np b' fl' (Some (Z.min f X, o + 1)) live /\ (merged fl -> merged fl').
Proof.
  intros W HX Hbud. pose proof (chunk_order _ _ _ _ _ W f o (or_intror eq_refl)) as Ho.
  pose proof (bsize_pos o ltac:(lia)). unfold PAGE_SIZE in *.
  apply list_elem_of_split in HX as (l1 & l2 & Hfl).
  destruct (unlink_spec b fl (wf_lists _ _ _ _ _ W) o l1 X l2 Ho Hfl) as (b' & Hb' & HL & HR).
  exists b', (upd fl o (l1 ++ l2)). split; [done|].
  pose proof (lo_nodup _ _ (wf_lists _ _ _ _ _ W) o) as Hnd. rewrite Hfl in Hnd.
  assert (HXn : X ∉ l1 ++ l2).
  { apply NoDup_app in Hnd as (_ & Hd & Hn2). apply list.NoDup_cons in Hn2 as [Hn2 _].
    intros [Hx|Hx]%elem_of_app; [|done]. apply (Hd _ Hx). apply list_elem_of_here. }
  assert (Hmem : forall x, x ∈ fl o <-> x = X \/ x ∈ l1 ++ l2).
  { intros x. rewrite Hfl, !elem_of_app, elem_of_cons. tauto. }
  pose proof (wf_fresh _ _ _ _ _ W f o) as Hff.
  split; [|apply merged_sub; intros x j; destruct (decide (j = o)) as [->|]; [rewrite upd_eq, Hmem; by right|by rewrite upd_ne by done]].
  eapply wf_relist; [exact W|exact HL|exact HR| | |].
  - eapply (chunks_merge _ _ _ (Z.min f X) o); [apply W|..].
    + destruct Hbud as [[-> _]|[-> _]]; [rewrite Z.min_l by lia; by right|].
      rewrite Z.min_r by lia. left. apply Hmem. by left.
    + destruct Hbud as [[-> _]|[-> _]]; [rewrite Z.min_l by lia; left; apply Hmem; by left|].
      rewrite Z.min_r by lia. right. do 2 f_equal. lia.
    + destruct Hbud as [[-> ?]|[-> ?]]; [rewrite Z.min_l by lia|rewrite Z.min_r by lia]; done.
    + assert (Hpair : forall x, (x = Z.min f X \/ x = Z.min f X + bsize o) <-> (x = f \/ x = X))
        by (intros x; lia).
      intros x j. rewrite Hpair. unfold held.
      destruct (decide (j = o)) as [->|]; [rewrite upd_eq, Hmem|rewrite upd_ne by done].
      * split; [|naive_solver lia]. intros [Hx|[= ? ?]]; [|lia]. left. split; [tauto|].
        intros [_ [->| ->]]; [|done]. apply (Hff o eq_refl). apply Hmem. by right.
      * naive_solver.
  - intros x y j [= <- <-]. assert (Hb2 : forall j, X ∈ fl j -> j = o).
    { intros j' Hj'. apply (lo_uniq _ _ (wf_lists _ _ _ _ _ W) _ _ X Hj'). apply Hmem. by left. }
    destruct (decide (j = o)) as [->|]; [rewrite upd_eq|rewrite upd_ne by done].
    + destruct (Z.min_spec f X) as [[_ ->]|[_ ->]]; [|done]. intros Hx. apply (Hff o eq_refl).
      apply Hmem. by right.
    + destruct (Z.min_spec f X) as [[_ ->]|[_ ->]]; [by apply Hff|]. intros Hx. by apply Hb2 in Hx.
  - unfold FREELIST_SIZE in *. rewrite total_upd by lia. cbn [held_pages]. rewrite Hfl, !length_app.
    cbn [length]. rewrite Z.pow_add_r by lia. lia.
Qed.

Lemma live_ok_map l l' blk :
  geometry l' = geometry l ->
  (forall va, blk.1 <= va < blk.1 + bsize (order_of blk.2) -> page_free l' va -> page_free l va) ->
  live_ok l blk -> live_ok l' blk.
Proof.
  intros Hg Hf [H1 H2 H3 H4]. split; [done|done|by eapply in_region_geometry|].
  intros va Hva Hfree. by apply (H4 va Hva), Hf.
Qed.

Lemma order_nonneg n : 0 <= order_of n.
Proof. apply Z.log2_up_nonneg. Qed.

Lemma pages_of_order o : 0 <= o -> PAGE_SIZE * 2 ^ o = bsize o.
Proof. intros. by rewrite bsize_page. Qed.

(** Marking the chunk in hand as allocated hands it out. *)
Lemma wf_map_alloc np b fl live a n :
  wf np b fl (Some (a, order_of n)) live -> 0 < n ->
  exists b', map_alloc b a (2 ^ order_of n) = Some b' /\ wf np b' fl None ((a, n) :: live).
Proof.
  intros W Hn. set (o := order_of n) in *. pose proof (order_nonneg n) as Ho. fold o in Ho.
  assert (Hc : held fl (Some (a, o)) a o) by by right.
  pose proof (chunk_region _ _ _ _ _ W a o Hc) as Hreg. destruct Hreg as (k & m & Hk & Hlo & Hhi).
  pose proof (ck_align _ _ (wf_chunks _ _ _ _ _ W) _ _ Hc) as Hal.
  pose proof (bsize_pos o Ho) as Hp. unfold PAGE_SIZE in Hp.
  destruct (map_alloc_pages (memr_head b) k m a (2 ^ o)) as (l' & Hl' & Hok' & Hg & Hpf);
    [apply W|done|etransitivity; [by apply bsize_div_page|done]|by apply pow2_pos|done|
     by rewrite pages_of_order|].
  rewrite pages_of_order in Hpf by done. unfold map_alloc. rewrite Hl'. cbn.
  eexists. split; [done|].
  assert (Hfree0 : forall va, a <= va < a + bsize o -> page_free (memr_head b) va)
    by (intros va Hva; by eapply (ck_free _ _ (wf_chunks _ _ _ _ _ W))).
  split; cbn [heads free_tail free_head nr_free_pages memr_head]; try done.
  - by destruct (wf_lists _ _ _ _ _ W).
  - eapply gap_geometry; [done|apply W].
  - eapply chunks_alloc; [apply W|exact Hc|done|]. intros x j. unfold held.
    pose proof (wf_fresh _ _ _ _ _ W a o). naive_solver.
  - rewrite (wf_count _ _ _ _ _ W). cbn [held_pages]. unfold wrap. rewrite Zminus_mod_idemp_l.
    f_equal. lia.
  - pose proof (wf_pages _ _ _ _ _ W) as Hpg. cbn [held_pages] in Hpg.
    cbn [held_pages live_pages snd]. fold o. lia.
  - constructor.
    + split; cbn; try done; fold o; [by eapply in_region_geometry; [done|exists k, m]|].
      intros va Hva [_ Hn']%Hpf. done.
    + eapply Forall_impl; [apply (wf_live _ _ _ _ _ W)|]. intros blk Hblk.
      eapply live_ok_map; [done| |done]. intros va _ [? _]%Hpf. done.
  - split; [|apply W]. apply Forall_forall. intros blk Hblk.
    pose proof (proj1 (Forall_forall _ _) (wf_live _ _ _ _ _ W) blk Hblk) as [L1 L2 L3 L4].
    unfold live_apart. cbn. fold o. pose proof (bsize_pos _ (order_nonneg blk.2)) as Hp2.
    unfold PAGE_SIZE in Hp2.
    destruct (Z.leb_spec (a + bsize o) blk.1); [lia|].
    destruct (Z.leb_spec (blk.1 + bsize (order_of blk.2)) a); [lia|]. exfalso.
    apply (L4 (Z.max a blk.1)); [lia|]. apply Hfree0. lia.
Qed.

(** Marking a live block as free puts it in hand. *)
Lemma wf_map_free np b fl l1 p n l2 :
  wf np b fl None (l1 ++ (p, n) :: l2) ->
  exists b', map_free b p (2 ^ order_of n) = Some b' /\ wf np b' fl (Some (p, order_of n)) (l1 ++ l2).
Proof.
  intros W. set (o := order_of n). pose proof (order_nonneg n) as Ho. fold o in Ho.
  pose proof (wf_live _ _ _ _ _ W) as Hlive. rewrite Forall_app, Forall_cons in Hlive.
  destruct Hlive as (Hlv1 & [L1 L2 L3 L4] & Hlv2). cbn in L1, L2, L3, L4. fold o in L2, L3, L4.
  pose proof L3 as (k & m & Hk & Hlo & Hhi). pose proof (bsize_pos o Ho) as Hp. unfold PAGE_SIZE in Hp.
  destruct (pairwise_remove live_apart l1 (p, n) l2) as [Hpw Hap];
    [unfold live_apart; tauto|apply W|].
  destruct (map_free_pages (memr_head b) k m p (2 ^ o)) as (l' & Hl' & Hok' & Hg & Hpf);
    [apply W|done|etransitivity; [by apply bsize_div_page|done]|by apply pow2_pos|done|
     by rewrite pages_of_order|].
  rewrite pages_of_order in Hpf by done. unfold map_free. rewrite Hl'. cbn.
  eexists. split; [done|].
  assert (Hnew : forall j, p ∉ fl j).
  { intros j Hj. apply (L4 p); [lia|]. apply (ck_free _ _ (wf_chunks _ _ _ _ _ W) p j); [by left|].
    pose proof (ck_order _ _ (wf_chunks _ _ _ _ _ W) p j (or_introl Hj)) as Hj0.
    pose proof (bsize_pos j Hj0). unfold PAGE_SIZE in *. lia. }
  split; cbn [heads free_tail free_head nr_free_pages memr_head]; try done.
  - by destruct (wf_lists _ _ _ _ _ W).
  - eapply gap_geometry; [done|apply W].
  - eapply (chunks_free (page_free (memr_head b))); [apply W|exact Ho|exact L2|done|done|]. intros x j. unfold held. naive_solver.
  - intros a i j [= <- <-]. apply Hnew.
  - rewrite (wf_count _ _ _ _ _ W). cbn [held_pages]. unfold wrap. rewrite Zplus_mod_idemp_l.
    f_equal. lia.
  - pose proof (wf_pages _ _ _ _ _ W) as Hpg. rewrite live_pages_app in Hpg |- *.
    cbn [held_pages live_pages snd] in Hpg |- *. fold o in Hpg. lia.
  - assert (Hall : Forall (live_ok (memr_head b)) (l1 ++ l2)) by (by apply Forall_app).
    apply Forall_forall. intros blk Hblk. rewrite Forall_forall in Hap, Hall.
    specialize (Hap blk Hblk). unfold live_apart in Hap. cbn in Hap. fold o in Hap.
    eapply live_ok_map; [done| |by apply Hall]. intros va Hva [?|?]%Hpf; [done|lia].
Qed.

(** ** The loops *)

Lemma find_order_spec b fl fuel i :
  lists_ok b fl -> 0 <= i -> i + Z.of_nat fuel = FREELIST_SIZE ->
  exists j, find_order fuel b i = Some j /\ i <= j <= FREELIST_SIZE /\
    (j < FREELIST_SIZE -> fl j <> []) /\ (forall k, i <= k < j -> fl k = []).
Proof.
  intros HL. revert i. induction fuel as [|fuel IH]; intros i Hi Hf; cbn [find_order].
  { exists i. split; [done|]. unfold FREELIST_SIZE in *. repeat split; try lia. }
  rewrite (freelist_empty_spec b fl HL) by (unfold FREELIST_SIZE in *; lia). cbn.
  case_bool_decide as He; cbn.
  - destruct (IH (i + 1)) as (j & -> & Hj & H1 & H2); [lia|lia|].
    exists j. split; [done|]. split; [lia|]. split; [done|]. intros k Hk.
    destruct (decide (k = i)) as [->|]; [done|]. apply H2. lia.
  - exists i. split; [done|]. unfold FREELIST_SIZE in *. repeat split; try lia; done.
Qed.

Lemma split_loop_spec fuel np b fl live a i order :
  wf np b fl (Some (a, i)) live -> 0 <= order <= i -> i - order <= Z.of_nat fuel ->
  exists b' fl', split_loop fuel b a i order = Some b' /\ wf np b' fl' (Some (a, order)) live /\ (merged fl -> merged fl').
Proof.
  revert b fl i. induction fuel as [|fuel IH]; intros b fl i W Ho Hf; cbn [split_loop].
  - replace i with order in * by lia. rewrite Z.eqb_refl. exists b, fl. done.
  - case_test; [subst; exists b, fl; done|].
    replace i with (i - 1 + 1) in W by lia.
    destruct (wf_split np b fl live a (i - 1) (tail_of (a + bsize (i - 1) + bsize (i - 1))) W)
      as (b1 & -> & W1 & M1); [lia|]. cbn. destruct (IH _ _ _ W1) as (b2 & fl2 & E2 & W2 & M2); [lia|lia|]. exists b2, fl2. split; [done|]. split; [done|]. auto.
Qed.

(** The two places where the buddy of a chunk may be. *)
Definition is_buddy (f o X : Z) : Prop := X = f + bsize o /\ (bsize (o + 1) | f) \/ X = f - bsize o /\ (bsize (o + 1) | X).

(** Coalescing: whichever buddies merge, a well-formed chunk in hand results, and in the end its buddy is not free. *)
Lemma merge_loop_spec fuel np b fl live f ct o :
  wf np b fl (Some (f, o)) live -> FREELIST_SIZE - o <= Z.of_nat fuel ->
  exists b' fl' f' ct' o', merge_loop fuel b f ct o = Some (b', f', ct', o') /\
    wf np b' fl' (Some (f', o')) live /\ (merged fl -> merged fl') /\ forall X, is_buddy f' o' X -> X ∉ fl' o'.
Proof.
  revert b fl f ct o. induction fuel as [|fuel IH]; intros b fl f ct o W Hf.
  { pose proof (chunk_order _ _ _ _ _ W f o (or_intror eq_refl)). lia. }
  assert (Hc : held fl (Some (f, o)) f o) by by right.
  pose proof (chunk_order _ _ _ _ _ W f o Hc) as Ho. cbn [merge_loop].
  destruct (Z.ltb_spec o FREELIST_SIZE); [|lia].
  pose proof (ck_align _ _ (wf_chunks _ _ _ _ _ W) _ _ Hc) as [q Hq].
  pose proof (bsize_pos o ltac:(lia)) as Hp. pose proof (bsize_succ o ltac:(lia)) as Hs.
  unfold PAGE_SIZE in Hp.
  (* what happens at the buddy [X], on either side *)
  assert (Hside : forall X,
    (X = f + bsize o /\ (bsize (o + 1) | f) \/ X = f - bsize o /\ (bsize (o + 1) | X)) ->
    (bsize o | X) ->
    (allocated_in_map (memr_head b) X = Some true /\ X ∉ fl o) \/
    (allocated_in_map (memr_head b) X = Some false /\ exists h, heads b !! X = Some h /\ (level h <> o -> X ∉ fl o) /\
      (level h = o -> exists b' fl', unlink b X = Some b' /\
         wf np b' fl' (Some (Z.min f X, o + 1)) live /\ (merged fl -> merged fl')))).
  { intros X Hbud HX. destruct (allocated_in_map_total (memr_head b) X) as [[|] Hal]; [apply W| |].
    { left. split; [done|]. intros Hin. assert (Hfr : page_free (memr_head b) X) by (apply (ck_free _ _ (wf_chunks _ _ _ _ _ W) X o); [by left|lia]). unfold page_free in Hfr. congruence. }
    right. split; [done|].
    destruct (buddy_chunk _ _ f o X (wf_chunks _ _ _ _ _ W) Hc HX Hbud Hal) as (o' & [Hin|[= -> ->]] & Hle);
      [|lia].
    pose proof (chunk_order _ _ _ _ _ W X o' (or_introl Hin)) as Ho'.
    destruct (lo_chain _ _ (wf_lists _ _ _ _ _ W) o' Ho') as (c & _ & Hch).
    destruct (chain_head _ _ _ _ _ _ X Hch Hin) as (h & Hh & Hlv). exists h. split; [done|].
    split; [intros Hlo Hin'; by apply Hlo; rewrite Hlv; apply (lo_uniq _ _ (wf_lists _ _ _ _ _ W) _ _ X)|]. intros Hlo. assert (o' = o) as -> by congruence. exact (wf_coalesce np b fl live f o X W Hin Hbud). }
  assert (Hstop : forall X, X ∉ fl o -> (forall Y, is_buddy f o Y -> Y = X) -> exists b' fl' f' ct' o', Some (b, f, ct, o) = Some (b', f', ct', o') /\
    wf np b' fl' (Some (f', o')) live /\ (merged fl -> merged fl') /\ forall X, is_buddy f' o' X -> X ∉ fl' o').
  { intros X HX HY. exists b, fl, f, ct, o. split; [done|]. split; [done|]. split; [done|]. intros Y Hb. by rewrite (HY Y Hb). }
  assert (Hodd : forall r, (bsize (o + 1) | f) -> f = (2 * r + 1) * bsize o -> False).
  { intros r [x Hx] Hr. rewrite Hs in Hx. assert (bsize o * (2 * x) = bsize o * (2 * r + 1)) as E by lia. apply Z.mul_reg_l in E; lia. }
  assert (Hpar : (Z.land f (bsize o) =? 0) = Z.even q)
    by (rewrite Hq; apply land_buddy; unfold PAGE_SHIFT; lia).
  rewrite Hpar. destruct (Z.even q) eqn:Eq; cbn [negb].
  - apply Z.even_spec in Eq as [r Er]. assert (Hlow : (bsize (o + 1) | f)) by (exists r; lia).
    assert (HY : forall Y, is_buddy f o Y -> Y = f + bsize o). { intros Y [[-> _]|[-> [x Hx]]]; [done|]. exfalso. apply (Hodd x Hlow). rewrite Hs in Hx. lia. }
    destruct (Hside (f + bsize o)) as [[-> HX]|[-> (h & -> & HX & Hun)]]; cbn; [by left|exists (q + 1); lia|by apply (Hstop (f + bsize o))|].
    case_test; cbn; [by apply (Hstop (f + bsize o)); auto|]. destruct (Hun E) as (b' & fl' & -> & W' & M'). cbn.
    rewrite Z.min_l in W' by lia. destruct (IH _ _ _ (tail_of (f + bsize o + bsize o)) _ W') as (b2 & fl2 & f2 & ct2 & o2 & E2 & W2 & M2 & N2); [lia|]. exists b2, fl2, f2, ct2, o2. auto 10.
  - rewrite <- Z.negb_odd in Eq. apply negb_false_iff, Z.odd_spec in Eq as [r Er]. assert (Hup : (bsize (o + 1) | f - bsize o)) by (exists r; lia).
    assert (HY : forall Y, is_buddy f o Y -> Y = f - bsize o). { intros Y [[-> Hd]|[-> _]]; [|done]. exfalso. apply (Hodd r Hd). lia. }
    destruct (Hside (f - bsize o)) as [[-> HX]|[-> (h & -> & HX & Hun)]]; cbn; [by right|exists (q - 1); lia|by apply (Hstop (f - bsize o))|].
    case_test; cbn; [by apply (Hstop (f - bsize o)); auto|]. destruct (Hun E) as (b' & fl' & -> & W' & M'). cbn.
    rewrite Z.min_r in W' by lia. destruct (IH _ _ _ ct _ W') as (b2 & fl2 & f2 & ct2 & o2 & E2 & W2 & M2 & N2); [lia|]. exists b2, fl2, f2, ct2, o2. auto 10.
Qed.

(** ** [palloc] and [pfree] *)

Lemma order_of_bound n : 0 < n <= 2 ^ 52 -> 0 <= order_of n <= 52.
Proof.
  intros Hn. split; [apply order_nonneg|]. unfold order_of.
  transitivity (Z.log2_up (2 ^ 52)); [apply Z.log2_up_le_mono; lia|by rewrite Z.log2_up_pow2].
Qed.

(** Every free list that could serve the request is empty. *)
Definition exhausted (fl : Z -> list Z) (n : Z) : Prop :=
  forall k, order_of n <= k < FREELIST_SIZE -> fl k = [].

Lemma palloc_spec np b fl live n :
  wf np b fl None live -> 0 < n <= 2 ^ 52 ->
  exists p b' fl', bbuddy_palloc b n = Some (p, b') /\
    (p = 0 /\ b' = b /\ exhausted fl n \/
     p <> 0 /\ (wf np b' fl' None ((p, n) :: live) /\ (merged fl -> merged fl')) /\ ~ exhausted fl n).
Proof.
  intros W Hn. pose proof (order_of_bound n Hn) as Ho. unfold bbuddy_palloc.
  rewrite num_pages_to_order_spec by lia. fold (order_of n). cbn [mbind option_bind].
  destruct (find_order_spec b fl (Z.to_nat (FREELIST_SIZE - order_of n)) (order_of n))
    as (j & -> & Hj & Hne & Hemp); [apply W|lia|unfold FREELIST_SIZE; lia|]. cbn [mbind option_bind].
  case_test.
  { exists 0, b, fl. split; [done|]. left. split; [done|]. split; [done|]. by subst j. }
  destruct (fl j) as [|a l] eqn:Efl; [exfalso; by apply Hne; [lia|]|].
  destruct (wf_pop np b fl live j a l W) as (b1 & -> & W1 & M1); [lia|done|]. cbn.
  destruct (split_loop_spec (Z.to_nat (j - order_of n)) np b1 _ live a j (order_of n) W1)
    as (b2 & fl2 & -> & W2 & M2); [lia|lia|]. cbn.
  destruct (wf_map_alloc np b2 fl2 live a n W2) as (b3 & -> & W3); [lia|]. cbn.
  exists a, b3, fl2. split; [done|]. right. split; [|split; [auto|]].
  - pose proof (chunk_region _ _ _ _ _ W2 a (order_of n) (or_intror eq_refl)) as Hreg.
    pose proof (region_bounds _ _ _ _ _ W2 _ _ Hreg). lia.
  - intros Hex. specialize (Hex j). rewrite Efl in Hex. unfold FREELIST_SIZE in *.
    discriminate Hex. lia.
Qed.

Lemma pfree_spec np b fl l1 p n l2 :
  wf np b fl None (l1 ++ (p, n) :: l2) ->
  exists b' fl', bbuddy_pfree b p n = Some b' /\ wf np b' fl' None (l1 ++ l2) /\ (merged fl -> merged fl').
Proof.
  intros W. pose proof (wf_live _ _ _ _ _ W) as Hlive. rewrite Forall_app, Forall_cons in Hlive.
  destruct Hlive as (_ & [L1 L2 L3 L4] & _). cbn in L1, L2, L3.
  unfold bbuddy_pfree. rewrite num_pages_to_order_spec by lia. fold (order_of n). cbn [mbind option_bind].
  assert (Hpg : Z.land p (PAGE_SIZE - 1) = 0).
  { change (PAGE_SIZE - 1) with (2 ^ 12 - 1). rewrite land_mask by lia. change (2 ^ 12) with PAGE_SIZE.
    apply Z.mod_divide; [done|]. etransitivity; [|exact L2]. apply bsize_div_page, order_nonneg. }
  rewrite Hpg. cbn.
  destruct (wf_map_free np b fl l1 p n l2 W) as (b1 & -> & W1). cbn [mbind option_bind].
  pose proof (chunk_order _ _ _ _ _ W1 p _ (or_intror eq_refl)).
  destruct (merge_loop_spec (Z.to_nat (FREELIST_SIZE - order_of n)) np b1 fl (l1 ++ l2) p
              (tail_of (p + bsize (order_of n))) (order_of n) W1)
    as (b2 & fl2 & f2 & ct2 & o2 & -> & W2 & M2 & N2); [lia|]. cbn [mbind option_bind].
  destruct (wf_link np b2 fl2 (l1 ++ l2) f2 o2 ct2 W2) as (b3 & -> & W3). exists b3. eexists. split; [done|]. split; [exact W3|]. intros M.
  pose proof (chunk_order _ _ _ _ _ W2 f2 o2 (or_intror eq_refl)). apply merged_upd; [auto|lia|intros Hd; apply N2; by left|]. intros x Hx Hd Ex. apply (N2 x); [right; subst f2; split; [lia|done]|done].
Qed.

(** ** Adding memory *)

Lemma chunk_shift_spec fuel i min range :
  0 <= i -> 2 ^ i <= range -> (2 ^ i | min) ->
  let j := chunk_shift fuel i min range in
  i <= j /\ 2 ^ j <= range /\ (2 ^ j | min) /\ (range < 2 ^ (i + Z.of_nat fuel + 1) -> (2 ^ (j + 1) | min) -> range < 2 ^ (j + 1)).
Proof.
  revert i. induction fuel as [|fuel IH]; intros i Hi Hr Hm; cbn [chunk_shift]; [split; [lia|]; split; [done|]; split; [done|]; intros Hb _; by replace (i + Z.of_nat 0 + 1) with (i + 1) in Hb by lia|].
  case_test; [|split; [lia|]; split; [done|]; split; [done|]; intros _ _; lia]. destruct Hm as [k Hk]. case_test.
  { split; [lia|]. split; [done|]. split; [by exists k|]. intros _ Hd. exfalso. assert (Ho : (Z.land min (2 ^ i) =? 0) = Z.even k) by (rewrite Hk; by apply land_buddy). destruct Hd as [x Hx]. rewrite Z.pow_add_r in Hx by lia.
    assert (He : k = 2 * x) by (pose proof (pow2_pos i); apply (Z.mul_reg_l _ _ (2 ^ i)); lia). rewrite He, Z.even_mul in Ho. cbn in Ho. apply Z.eqb_eq in Ho. done. }
  assert (He : Z.even k = true).
  { rewrite <- (land_buddy k i) by done. rewrite <- Hk. by apply Z.eqb_eq. }
  apply Z.even_spec in He as [q ->].
  destruct (IH (i + 1)) as (H1 & H2 & H3 & H4); [lia|done| |split; [lia|]; split; [done|]; split; [done|]; intros Hb; apply H4; by replace (i + 1 + Z.of_nat fuel + 1) with (i + Z.of_nat (S fuel) + 1) by lia].
  exists q. rewrite Z.pow_add_r by lia. lia.
Qed.

(** The loop that carves a range into chunks puts exactly its pages on the lists. *)
Lemma carve_spec fuel b fl min range (P : Z -> Prop) :
  lists_ok b fl -> 0 < min -> min + range < 2 ^ 64 -> (PAGE_SIZE | min) -> (PAGE_SIZE | range) ->
  0 <= range <= PAGE_SIZE * Z.of_nat fuel ->
  chunks_ok P (fun a i => a ∈ fl i) -> (forall va, min <= va < min + range -> ~ P va) ->
  exists b' fl', carve fuel b min range = Some b' /\ lists_ok b' fl' /\ same_rest b b' /\
    chunks_ok (fun va => P va \/ min <= va < min + range) (fun a i => a ∈ fl' i) /\
    total 52 fl' = total 52 fl + range / PAGE_SIZE /\
    (merged fl -> (forall x j, x ∈ fl j -> (bsize (j + 1) | x) -> x + bsize j = min -> range < bsize j) -> (forall j, min + range ∉ fl j) -> merged fl').
Proof.
  revert b fl min range P. induction fuel as [|fuel IH];
    intros b fl min range P HL Hmin Hmax Hdm Hdr Hr HC HP.
  { replace range with 0 in * by lia. exists b, fl. split; [done|]. split; [done|]. split; [by split|].
    split; [|by rewrite Z.add_0_r; split]. destruct HC as [C1 C2 C3 C4 C5]. split; eauto.
    intros va [?|?]; [by apply C5|lia]. }
  cbn [carve]. destruct (Z.eqb_spec range 0) as [->|Hne].
  { exists b, fl. split; [done|]. split; [done|]. split; [by split|].
    split; [|by rewrite Z.add_0_r; split]. destruct HC as [C1 C2 C3 C4 C5]. split; eauto.
    intros va [?|?]; [by apply C5|lia]. }
  assert (Hpage : PAGE_SIZE <= range) by (apply Z.divide_pos_le; [lia|done]).
  set (i := chunk_shift 51 PAGE_SHIFT min range).
  destruct (chunk_shift_spec 51 PAGE_SHIFT min range) as (Hi & Hle & Hdiv & Hgreedy); [done|exact Hpage|exact Hdm|].
  fold i in Hi, Hle, Hdiv, Hgreedy. unfold PAGE_SHIFT in Hi. cbv zeta.
  assert (Hbs : bsize (i - PAGE_SHIFT) = 2 ^ i) by (unfold bsize; f_equal; lia).
  assert (Hord : 0 <= i - PAGE_SHIFT < FREELIST_SIZE).
  { unfold PAGE_SHIFT, FREELIST_SIZE. split; [lia|]. destruct (Z.ltb_spec i 64); [lia|].
    pose proof (Z.pow_le_mono_r 2 64 i). lia. }
  assert (Hpos : PAGE_SIZE <= 2 ^ i) by (change PAGE_SIZE with (2 ^ 12); apply Z.pow_le_mono_r; lia).
  assert (Hdp : (PAGE_SIZE | 2 ^ i)).
  { rewrite <- Hbs. apply bsize_div_page. lia. }
  assert (Hfresh : forall j, min ∉ fl j).
  { intros j Hj. apply (HP min); [lia|]. apply (ck_free _ _ HC min j); [done|].
    pose proof (bsize_pos j (ck_order _ _ HC _ _ Hj)). unfold PAGE_SIZE in *. lia. }
  destruct (link_front_spec b fl HL (i - PAGE_SHIFT) min (tail_of (min + 2 ^ i)) Hord Hfresh)
    as (b1 & -> & HL1 & [En1 Em1]). cbn [mbind option_bind].
  set (P1 := fun va => P va \/ min <= va < min + 2 ^ i).
  destruct (IH b1 (upd fl (i - PAGE_SHIFT) (min :: fl (i - PAGE_SHIFT))) (min + 2 ^ i) (range - 2 ^ i) P1)
    as (b2 & fl2 & Hc & HL2 & [En2 Em2] & HC2 & Ht & HM); try done; unfold PAGE_SIZE in *; try lia.
  - by apply Z.divide_add_r.
  - by apply Z.divide_sub_r.
  - eapply (chunks_free P P1 _ _ min (i - PAGE_SHIFT)); [exact HC|lia|by rewrite Hbs| | |].
    + rewrite Hbs. intros va Hva. apply HP. lia.
    + by rewrite Hbs.
    + intros x j. destruct (decide (j = i - PAGE_SHIFT)) as [->|];
        [rewrite upd_eq, elem_of_cons|rewrite upd_ne by done]; naive_solver.
  - intros va Hva [Hx|Hx]; [|lia]. apply (HP va); [lia|done].
  - exists b2, fl2. split; [done|]. split; [done|]. split; [split; congruence|].
    assert (Hext : forall va, (P1 va \/ min + 2 ^ i <= va < min + 2 ^ i + (range - 2 ^ i)) <->
      (P va \/ min <= va < min + range)) by (intros va; unfold P1; intuition lia).
    split; [|split].
    + destruct HC2 as [C1 C2 C3 C4 C5]. split; eauto.
      * intros a j va Hin Hva. apply Hext. by eapply C3.
      * intros va Hva. by apply C5, Hext.
    + unfold FREELIST_SIZE in Hord. rewrite Ht, total_upd by lia. cbn [length].
      rewrite bsize_page in Hbs by lia. unfold PAGE_SIZE in Hbs. destruct Hdr as [kr Hkr].
      assert (Hq : range - 2 ^ i = (kr - 2 ^ (i - PAGE_SHIFT)) * 4096) by lia.
      rewrite Hq, Hkr, !Z.div_mul by done. lia.
    + assert (Hold : forall x j va, x ∈ fl j -> x <= va < x + bsize j -> min <= va < min + range -> False) by (intros x j va Hx Hv1 Hv2; apply (HP va Hv2); by apply (ck_free _ _ HC x j)).
      assert (Hsz : forall x j, x ∈ fl j -> 4096 <= bsize j) by (intros x j Hx; apply bsize_pos, (ck_order _ _ HC _ _ Hx)).
      intros M Hleft Hright. rewrite <- Hbs in *. set (o := i - PAGE_SHIFT) in *. apply HM; [apply merged_upd; [done|lia|..]| |].
      * intros _ Hin. pose proof (Hsz _ _ Hin). destruct (Z.eq_dec (min + bsize o) (min + range)) as [E|E]; [rewrite E in Hin; by apply (Hright o)|]. apply (Hold (min + bsize o) o (min + bsize o)); [done|lia|lia].
      * intros x Hx Hd Ex. specialize (Hleft x o Hx Hd Ex). lia.
      * intros x j Hx Hd Ex. assert (Hcase : x = min /\ j = o \/ x ∈ fl j). { destruct (decide (j = o)) as [->|]; [rewrite upd_eq, elem_of_cons in Hx; tauto|rewrite upd_ne in Hx by done; by right]. }
        destruct Hcase as [[-> ->]|Hin].
        -- assert (Hnext : bsize (o + 1) = 2 ^ (i + 1)) by (unfold bsize, o; f_equal; lia). rewrite Hnext in Hd. assert (Hlt : range < 2 ^ (i + 1)). { apply Hgreedy; [|done]. change (PAGE_SHIFT + Z.of_nat 51 + 1) with 64. lia. }
           rewrite <- Hnext, bsize_succ in Hlt by lia. lia.
        -- exfalso. pose proof (Hsz _ _ Hin). apply (Hold x j (Z.max x min)); [done|lia|]. lia.
      * intros j Hx. apply (Hright j). replace (min + bsize o + (range - bsize o)) with (min + range) in Hx by lia. destruct (decide (j = o)) as [->|]; [rewrite upd_eq, elem_of_cons in Hx; destruct Hx as [Hx|Hx]; [lia|done]|by rewrite upd_ne in Hx by done].
Qed.

Lemma round_pgup_page a : 0 <= a -> a + 4096 <= 2 ^ 64 ->
  a <= round_pgup a < a + 4096 /\ (PAGE_SIZE | round_pgup a).
Proof. intros. by apply (ALIGN_UP_bounds 12). Qed.

(** A region of up to 32449 pages gives one page to its metadata and the rest to clients. *)
Lemma memr_exact k : 2 <= k <= 32449 ->
  memr_pages (PAGE_SIZE * k) = k - 1 /\ memr_meta (k - 1) = PAGE_SIZE.
Proof.
  intros Hk. unfold memr_pages, BITS_PER_BYTE, PAGE_SIZE, sizeof_memr. split.
  - rewrite (wrap_small 64 (4096 * k - 40)), wrap_small by (unfold in_u; lia).
    symmetry. apply (Z.div_unique _ _ _ (8 * (4096 * k - 40) - 32769 * (k - 1))); lia.
  - unfold memr_meta, round_pgup, PAGE_SIZE, BITS_PER_BYTE, sizeof_memr.
    pose proof (Z.div_mod (k - 1 + 8 - 1) 8 ltac:(lia)).
    pose proof (Z.mod_pos_bound (k - 1 + 8 - 1) 8 ltac:(lia)).
    set (d := (k - 1 + 8 - 1) / 8) in *. change 4096 with (2 ^ 12).
    rewrite ALIGN_UP_spec by lia. change (2 ^ 12) with 4096.
    replace ((40 + d + 4096 - 1) / 4096) with 1; [done|].
    apply (Z.div_unique _ _ _ (40 + d - 1)); lia.
Qed.

(** A region may be added next to others: its last page not touching the next region, and its
    metadata not overlapping the previous one. *)
Definition fits (l : list uk_bbpalloc_memr) (min max : Z) : Prop :=
  forall i m, l !! i = Some m ->
    max < first_page m \/ first_page m + PAGE_SIZE * nr_pages m <= min.

Lemma fits_above l min max :
  forallb (fun m => first_page m + PAGE_SIZE * nr_pages m <=? min) l = true -> fits l min max.
Proof.
  intros Hall i m Hi. right. rewrite forallb_forall in Hall.
  apply Z.leb_le, Hall, list_elem_of_In, list_elem_of_lookup. eauto.
Qed.

Lemma regions_ok_cons m l :
  memr_ok m -> regions_ok l -> gap l ->
  (forall i m', l !! i = Some m' ->
     first_page m + PAGE_SIZE * nr_pages m < first_page m' \/
     first_page m' + PAGE_SIZE * nr_pages m' < first_page m) ->
  regions_ok (m :: l) /\ gap (m :: l).
Proof.
  intros Hm [R1 R2] Hg Hf. split; [split|].
  - intros [|i] m' Hi; cbn in Hi; [by simplify_eq|by eapply R1].
  - intros [|i] [|j] m1 m2 H1 H2 Hne; cbn in H1, H2; simplify_eq; try done.
    + destruct (Hf _ _ H2); lia.
    + destruct (Hf _ _ H1); lia.
    + eapply R2; [done|done|lia].
  - intros [|i] [|j] m1 m2 H1 H2 Hne; cbn in H1, H2; simplify_eq; try done.
    + destruct (Hf _ _ H2); lia.
    + destruct (Hf _ _ H1); lia.
    + eapply Hg; [done|done|lia].
Qed.


Lemma pbit_ones n j : pbit (replicate n (2 ^ 64 - 1)) j = true.
Proof.
  unfold pbit. destruct (zget _ _) as [w|] eqn:Ew; [|done].
  assert (w = Z.ones 64) as ->.
  { unfold zget in Ew. case_test; [done|]. apply lookup_replicate in Ew as [-> _]. done. }
  pose proof (Z.mod_pos_bound j 64 ltac:(lia)). apply Z.ones_spec_low. lia.
Qed.

(** A new region with every bit set adds no free page. *)
Lemma page_free_cons m l n va :
  regions_ok (m :: l) -> regions_ok l -> mm_alloc_bitmap m = replicate n (2 ^ 64 - 1) ->
  page_free (m :: l) va <-> page_free l va.
Proof.
  intros Hok Hokl Hones. unfold page_free.
  assert (Hdec : in_memr m va \/ ~ in_memr m va) by (unfold in_memr; lia). destruct Hdec as [Hin|Hout].
  - rewrite (allocated_in_map_spec (m :: l) va 0 m) by done. rewrite Hones, pbit_ones.
    split; [done|]. intros (i & m' & Hi & Hin')%page_free_region; [|done]. exfalso.
    unfold in_memr in *. destruct (ro_disj _ Hok 0%nat (S i) m m'); done || lia.
  - unfold allocated_in_map. cbn [map_get_memr].
    rewrite memr_end_ok by by apply (ro_memr _ Hok 0%nat).
    destruct (_ && _) eqn:E; tests; [by exfalso; apply Hout|].
    destruct (map_get_memr l va) as [[k m']|]; done.
Qed.

Lemma addmem_spec np b fl live base len k :
  wf np b fl None live -> 0 < base -> 0 <= len -> base + len < 2 ^ 64 - 4096 ->
  let min := round_pgup base in
  let max := round_pgdown (base + len) in
  max - min = PAGE_SIZE * k -> 2 <= k <= 32449 -> fits (memr_head b) min max ->
  exists b' fl', bbuddy_addmem b base len = Some (0, b') /\ wf (np + (k - 1)) b' fl' None live /\
    geometry (memr_head b') = (min + PAGE_SIZE, k - 1) :: geometry (memr_head b) /\ (merged fl -> merged fl').
Proof.
  intros W Hbase Hlen Hsum min max Hk Hkr Hfits.
  destruct (round_pgup_page base) as [Hmin Hmind]; [lia..|]. fold min in Hmin, Hmind.
  destruct (memr_exact k Hkr) as [Hnr Hmeta].
  assert (Hmaxle : max <= base + len).
  { unfold max, round_pgdown. change PAGE_SIZE with (2 ^ 12). rewrite ALIGN_DOWN_spec by (unfold in_u; lia).
    apply Z.mul_div_le. lia. }
  unfold bbuddy_addmem. rewrite (wrap_small 64 (base + len)) by (unfold in_u; lia). fold min max.
  destruct (Z.eqb_spec base 0); [lia|].
  destruct (Z.ltb_spec max min); [unfold PAGE_SIZE in *; lia|]. rewrite Hk.
  change (round_pgup (sizeof_memr + BYTES_PER_MAPWORD)) with PAGE_SIZE.
  destruct (Z.ltb_spec (PAGE_SIZE * k) (PAGE_SIZE + PAGE_SIZE)); [unfold PAGE_SIZE in *; lia|].
  cbv zeta. rewrite Hnr, Hmeta. change (PAGE_SIZE - sizeof_memr) with 4056.
  change (Z.to_nat (4056 / BYTES_PER_MAPWORD)) with 507%nat.
  set (memr := Memr (min + PAGE_SIZE) (k - 1) 4056 (replicate 507 (2 ^ 64 - 1))).
  set (l := memr_head b). set (l1 := memr :: l).
  assert (Hfirst : (PAGE_SIZE | min + PAGE_SIZE)) by (by apply Z.divide_add_r).
  assert (Hmok : memr_ok memr).
  { split; cbn; unfold PAGE_SIZE in *; try lia; try done. }
  assert (Hsep : forall i m', l !! i = Some m' ->
     max < first_page m' \/ first_page m' + PAGE_SIZE * nr_pages m' < min + PAGE_SIZE).
  { intros i m' Hi. unfold PAGE_SIZE. destruct (Hfits i m' Hi); unfold PAGE_SIZE in *; lia. }
  destruct (regions_ok_cons memr l) as [Hok1 Hgap1]; [done|apply W|apply W| |].
  { intros i m' Hi. cbn. destruct (Hsep i m' Hi); unfold PAGE_SIZE in *; lia. }
  destruct (map_free_pages l1 0 memr (min + PAGE_SIZE) (k - 1)) as (l2 & Hl2 & Hok2 & Hg2 & Hpf);
    [done|done|done|lia|cbn; lia|cbn; lia|].
  unfold map_free. cbn [memr_head free_head free_tail heads tails nr_free_pages].
  fold l1. rewrite Hl2. cbn [mbind option_bind].
  set (b1 := BB _ _ _ l2 _ _).
  assert (HL1 : lists_ok b1 fl) by (by destruct (wf_lists _ _ _ _ _ W)).
  assert (Hpl : forall va, page_free l1 va <-> page_free l va)
    by (intros va; eapply page_free_cons; [done|apply W|done]).
  assert (Hnot : forall va, min + PAGE_SIZE <= va < min + PAGE_SIZE + PAGE_SIZE * (k - 1) -> ~ page_free l va).
  { intros va Hva (i & m' & Hi & Hin)%page_free_region; [|apply W]. unfold in_memr in Hin.
    destruct (Hsep i m' Hi); unfold PAGE_SIZE in *; lia. }
  replace (PAGE_SIZE * k - PAGE_SIZE) with (PAGE_SIZE * (k - 1)) by (unfold PAGE_SIZE; lia).
  destruct (carve_spec (Z.to_nat (PAGE_SIZE * (k - 1) / PAGE_SIZE)) b1 fl (min + PAGE_SIZE)
              (PAGE_SIZE * (k - 1)) (page_free l)) as (b2 & fl2 & -> & HL2 & [En Em] & HC2 & Ht & HM);
    try done; unfold PAGE_SIZE in *; try lia.
  - apply Z.divide_factor_l.
  - rewrite Z.mul_comm, Z.div_mul by done. lia.
  - eapply chunks_ok_ext; [apply W|]. intros a i. unfold held. naive_solver.
  - rewrite (Z.mul_comm 4096 (k - 1)), Z.div_mul in Ht by done.
    cbn [mbind option_bind]. exists b2, fl2. split; [done|]. split; [|split; [by rewrite Em; cbn [b1 memr_head]; rewrite Hg2|]].
    2: { assert (Hreg : forall x j, x ∈ fl j -> exists m', (exists i, l !! i = Some m') /\ first_page m' <= x /\ x + bsize j <= first_page m' + 4096 * nr_pages m').
      { intros x j Hx. destruct (chunk_region _ _ _ _ _ W x j (or_introl Hx)) as (i & m' & Hi & H1 & H2). exists m'. eauto. }
      intros M. apply HM; [done|..].
      - intros x j Hx _ Ex. destruct (Hreg x j Hx) as (m' & [i Hi] & H1 & H2). pose proof (bsize_pos j (proj1 (chunk_order _ _ _ _ _ W x j (or_introl Hx)))). destruct (Hsep i m' Hi); unfold PAGE_SIZE in *; lia.
      - intros j Hx. destruct (Hreg _ j Hx) as (m' & [i Hi] & H1 & H2). pose proof (bsize_pos j (proj1 (chunk_order _ _ _ _ _ W _ j (or_introl Hx)))). destruct (Hsep i m' Hi); unfold PAGE_SIZE in *; lia. }
    split; rewrite ?Em, ?En; cbn [b1 memr_head nr_free_pages]; try done.
    + by eapply gap_geometry.
    + destruct HC2 as [C1 C2 C3 C4 C5].
      assert (Hiff : forall va, page_free l2 va <->
        (page_free l va \/ min + 4096 <= va < min + 4096 + 4096 * (k - 1))).
      { intros va. rewrite Hpf, Hpl. done. }
      split; unfold held.
      * intros a i [?|?]; [eauto|done].
      * intros a i [?|?]; [eauto|done].
      * intros a i va [Ha|?] Hva; [|done]. apply Hiff. by eapply C3.
      * intros a i c j [?|?] [?|?]; [eauto|done..].
      * intros va Hva%Hiff. destruct (C5 va Hva) as (a & i & ? & ?). exists a, i. auto.
    + rewrite (wf_count _ _ _ _ _ W), Ht. cbn [held_pages]. unfold wrap.
      rewrite Zplus_mod_idemp_l. f_equal. lia.
    + pose proof (wf_pages _ _ _ _ _ W). cbn [held_pages] in *. lia.
    + eapply Forall_impl; [apply (wf_live _ _ _ _ _ W)|]. intros blk [L1 L2 L3 L4].
      destruct L3 as (i & m' & Hi & Hlo & Hhi).
      split; [done|done| |].
      * eapply in_region_geometry; [exact Hg2|]. by exists (S i), m'.
      * intros va Hva Hfree. apply Hpf in Hfree as [Hf|Hf]; [by apply (L4 va Hva), Hpl|].
        destruct (Hsep i m' Hi); unfold PAGE_SIZE in *; lia.
    + apply W.
Qed.

(** A new allocator has no chunk, no region and no live block. *)
Lemma bb_empty_wf : wf 0 bb_empty (fun _ => []) None [].
Proof.
  assert (Hnf : forall va, ~ page_free [] va) by done.
  split; try done.
  - split; try done; [|intros i; by apply NoDup_nil_2|
      intros i j a Ha; by apply not_elem_of_nil in Ha].
    intros i Hi. unfold FREELIST_SIZE in Hi. exists (Tail i). unfold bb_empty. cbn [free_head free_tail heads].
    split.
    + rewrite <- (Z2Nat.id i) at 1 by lia. rewrite zget_lookup, !list_lookup_fmap, lookup_seq_lt by lia.
      cbn. do 2 f_equal. lia.
    + cbn [chain]. split; [done|]. eexists. rewrite <- (Z2Nat.id i) at 1 by lia.
      rewrite zget_lookup, list_lookup_fmap, lookup_seq_lt by lia. cbn. rewrite Z2Nat.id by lia. done.
  - assert (Hn : forall a i, ~ held (fun _ => []) None a i)
      by (intros a i [Hx|Hx]; [by apply not_elem_of_nil in Hx|done]).
    split.
    + intros a i H. by destruct (Hn a i).
    + intros a i H. by destruct (Hn a i).
    + intros a i va H. by destruct (Hn a i).
    + intros a i c j H. by destruct (Hn a i).
    + intros va H. by destruct (Hnf va).
Qed.

Lemma empty_merged : merged (fun _ => []).
Proof. intros a i Ha. by apply not_elem_of_nil in Ha. Qed.

(** ** The regions stay where they are *)

Lemma split_loop_memr fuel : forall b a i order b', split_loop fuel b a i order = Some b' -> memr_head b' = memr_head b.
Proof.
  induction fuel as [|fuel IH]; intros b a i order b'; cbn [split_loop]; (destruct (_ =? _); [by intros [= <-]|]); [done|].
  intros (b1 & H1 & H2)%bind_Some. by rewrite (IH _ _ _ _ _ H2), (link_front_memr _ _ _ _ _ H1).
Qed.

Lemma palloc_geometry b n p b' : bbuddy_palloc b n = Some (p, b') -> geometry (memr_head b') = geometry (memr_head b).
Proof.
  unfold bbuddy_palloc. intros (o & _ & (i & _ & H)%bind_Some)%bind_Some. destruct (_ =? _); [by injection H as <- <-|].
  apply bind_Some in H as ([a b1] & H1 & (b2 & H2 & (b3 & H3 & [= <- <-])%bind_Some)%bind_Some). unfold map_alloc in H3. apply bind_Some in H3 as (l & Hl & [= <-]). cbn [memr_head].
  by rewrite (map_update_geometry _ _ _ _ _ Hl), (split_loop_memr _ _ _ _ _ _ H2), (pop_front_memr _ _ _ _ H1).
Qed.

Lemma merge_loop_memr fuel : forall b a ct order r, merge_loop fuel b a ct order = Some r -> memr_head r.1.1.1 = memr_head b.
Proof.
  induction fuel as [|fuel IH]; intros b a ct order r; cbn [merge_loop]; (destruct (_ <? _); [|by intros [= <-]]); [done|].
  destruct (negb (Z.land _ _ =? 0)); intros ([|] & _ & H)%bind_Some; try (by injection H as <-);
    apply bind_Some in H as (h & _ & H); destruct (negb _); try (by injection H as <-);
    apply bind_Some in H as (b1 & H1 & H2); by rewrite (IH _ _ _ _ _ H2), (unlink_memr _ _ _ H1).
Qed.

Lemma pfree_geometry b p n b' : bbuddy_pfree b p n = Some b' -> geometry (memr_head b') = geometry (memr_head b).
Proof.
  unfold bbuddy_pfree. intros (o & _ & H)%bind_Some. destruct (negb _); [done|]. apply bind_Some in H as (b1 & H1 & ([[[b2 a] ct] o2] & H2 & H3)%bind_Some).
  unfold map_free in H1. apply bind_Some in H1 as (l & Hl & [= <-]). rewrite (link_front_memr _ _ _ _ _ H3). apply merge_loop_memr in H2. cbn [fst memr_head] in H2. by rewrite H2, (map_update_geometry _ _ _ _ _ Hl).
Qed.

(** ** The buddy allocator as a page allocator *)

(** An allocator that manages [np] pages in all. *)
Definition pool (np : Z) : Type := uk_bbpalloc.
#[global] Typeclasses Opaque pool.

Lemma order_of_covers n : 0 < n -> n <= 2 ^ order_of n.
Proof. intros Hn. unfold order_of. destruct (decide (n = 1)) as [->|]; [done|]. apply Z.log2_up_spec. lia. Qed.

Lemma live_blocks np b fl live :
  wf np b fl None live -> Forall block_ok live /\ pairwise blocks_apart live.
Proof.
  intros W. assert (Hsz : forall blk, live_ok (memr_head b) blk -> PAGE * blk.2 <= bsize (order_of blk.2)).
  { intros blk [L1 _ _ _]. rewrite bsize_page by apply order_nonneg.
    pose proof (order_of_covers _ L1). unfold PAGE, PAGE_SIZE. lia. }
  pose proof (wf_live _ _ _ _ _ W) as Hl. split.
  - eapply Forall_impl; [exact Hl|]. intros blk Hblk. specialize (Hsz _ Hblk).
    destruct Hblk as [L1 L2 L3 _]. destruct (region_bounds _ _ _ _ _ W _ _ L3).
    split; [done|]. split; [|split; [done|unfold block_end; lia]].
    etransitivity; [|exact L2]. apply bsize_div_page, order_nonneg.
  - pose proof (wf_apart _ _ _ _ _ W) as Ha. clear W. induction Hl as [|blk live Hblk Hl IH]; [done|].
    destruct Ha as [Ha1 Ha2]. split; [|by apply IH]. specialize (Hsz _ Hblk) as Hs1.
    apply Forall_forall. intros blk2 Hin. rewrite Forall_forall in Ha1, Hl.
    specialize (Ha1 _ Hin). specialize (Hsz _ (Hl _ Hin)). unfold live_apart in Ha1.
    unfold blocks_apart, block_end. lia.
Qed.

#[global, refine] Instance buddy_pages np : PageAllocator (pool np) := {|
  pa_inv b live := exists fl, wf np b fl None live /\ merged fl;
  pa_palloc := bbuddy_palloc;
  pa_pfree := bbuddy_pfree
|}.
Proof.
  - intros b live (fl & W & _). by eapply live_blocks.
  - intros b live n (fl & W & M) Hn.
    destruct (palloc_spec np b fl live n W Hn) as (p & b' & fl' & H1 & [(? & -> & _)|(? & [? ?] & _)]);
      exists p; eexists; (split; [exact H1|]); [left|right]; eauto 6.
  - intros b l1 p n l2 (fl & W & M). destruct (pfree_spec np b fl l1 p n l2 W) as (b' & fl' & H1 & H2 & H3).
    exists b'. eauto.
Defined.

(** The counter is what the live blocks leave. *)
Lemma free_pages_count np b fl live : wf np b fl None live -> np < 2 ^ 64 -> nr_free_pages b = np - live_pages live.
Proof.
  intros W Hnp. assert (Ht : 0 <= total 52 fl).
  { generalize 52%nat. intros n. induction n as [|n IH]; cbn [total]; [done|].
    pose proof (pow2_pos (Z.of_nat n)). nia. }
  assert (Hlp : 0 <= live_pages live).
  { clear. induction live as [|blk live IH]; cbn; [done|]. pose proof (pow2_pos _ (order_nonneg blk.2)). lia. }
  pose proof (wf_pages _ _ _ _ _ W) as Hp. rewrite (wf_count _ _ _ _ _ W).
  cbn [held_pages] in *. rewrite wrap_small; [lia|]. unfold in_u. lia.
Qed.

(** *** Properties *)

(** C2: every sequence of page requests to an allocator set up over one region of 2 to 32449
    pages (for a larger one the metadata are too small, [buddy_region_overrun]) runs without
    failing an assertion or leaving an array; at every point the blocks handed
    out are page-aligned, inside the address space and disjoint, the free page counter is
    the number of pages of the region minus those of the blocks, each rounded up to a power
    of two, and no two buddies are on the free lists side by side: what can be merged is. *)
Theorem buddy_run_safe base len k reqs :
  0 < base -> 0 <= len -> base + len < 2 ^ 64 - 4096 ->
  round_pgdown (base + len) - round_pgup base = PAGE_SIZE * k -> 2 <= k <= 32449 ->
  Forall page_req_ok reqs ->
  exists b b' live,
    bbuddy_addmem bb_empty base len = Some (0, b) /\
    pa_run (T := pool (k - 1)) b [] reqs = Some (b', live) /\
    Forall block_ok live /\ pairwise blocks_apart live /\
    nr_free_pages b' = k - 1 - live_pages live /\ exists fl, lists_ok b' fl /\ merged fl.
Proof.
  intros Hb Hl Hs Hk Hkr Hreq.
  destruct (addmem_spec 0 bb_empty (fun _ => []) [] base len k bb_empty_wf) as (b & fl & Ha & W & _ & M);
    [done..|].
  destruct (pa_run_inv (T := pool (k - 1)) b [] reqs) as (b' & live & Hrun & fl' & W' & M');
    [exists fl; split; [done|]; apply M, empty_merged|done|].
  exists b, b', live. split; [done|]. split; [done|].
  destruct (live_blocks _ _ _ _ W') as [H1 H2]. split; [done|]. split; [done|].
  split; [eapply free_pages_count; [exact W'|]; lia|]. exists fl'. split; [apply W'|done].
Qed.

Lemma buddy_run_safe_witness :
  exists b b' live,
    bbuddy_addmem bb_empty 0x100000 0x10000 = Some (0, b) /\
    pa_run (T := pool 15) b [] [PAlloc 3; PAlloc 1; PFree 1; PAlloc 8; PAlloc 9; PFree 1] =
      Some (b', live) /\
    Forall block_ok live /\ pairwise blocks_apart live /\ nr_free_pages b' = 15 - live_pages live /\
    exists fl, lists_ok b' fl /\ merged fl.
Proof.
  apply (buddy_run_safe 0x100000 0x10000 16
           [PAlloc 3; PAlloc 1; PFree 1; PAlloc 8; PAlloc 9; PFree 1]); try lia; try reflexivity.
  repeat first [apply List.Forall_nil | apply List.Forall_cons; [by compute|]].
Defined.

(** C8: [bbuddy_palloc] on a well-formed allocator never fails an assertion: it answers NULL,
    leaving the state alone, exactly when all free lists of sufficient order are empty, and
    otherwise hands out a new block next to the live ones, splitting larger chunks as needed. *)
Theorem buddy_palloc_correct np b fl live n :
  wf np b fl None live -> 0 < n <= 2 ^ 52 ->
  exists p b', bbuddy_palloc b n = Some (p, b') /\
    (exhausted fl n -> p = 0 /\ b' = b) /\
    (~ exhausted fl n -> p <> 0 /\ exists fl', wf np b' fl' None ((p, n) :: live)).
Proof.
  intros W Hn. destruct (palloc_spec np b fl live n W Hn)
    as (p & b' & fl' & Hp & [(-> & -> & Hex)|(Hp0 & [W' _] & Hex)]);
    do 2 eexists; (split; [exact Hp|]); split; intros ?; try done; eauto.
Qed.

(** C9: [bbuddy_pfree] of a live block succeeds and gives back a well-formed allocator without
    it, whose lists cover its pages again: every buddy the coalescing loop inspects and finds
    unallocated really starts a free chunk, so the level it reads and the links it follows are
    valid.  The chunk is merged as far as it goes: if no two buddies were free side by side
    before, none are afterwards; this is so of a new allocator and after every other call
    ([buddy_run_safe]). *)
Theorem buddy_pfree_correct np b fl l1 p n l2 :
  wf np b fl None (l1 ++ (p, n) :: l2) -> merged fl ->
  exists b' fl', bbuddy_pfree b p n = Some b' /\ wf np b' fl' None (l1 ++ l2) /\ merged fl'.
Proof. intros W M. destruct (pfree_spec np b fl l1 p n l2 W) as (b' & fl' & E & W' & M'). eauto 6. Qed.

(** An allocator over 15 pages, and the one with a block of three pages handed out. *)
Definition st15 : uk_bbpalloc :=
  match bbuddy_addmem bb_empty 0x100000 0x10000 with Some (_, b) => b | None => bb_empty end.

Lemma st15_wf : exists fl, wf 15 st15 fl None [] /\ merged fl.
Proof.
  destruct (addmem_spec 0 bb_empty (fun _ => []) [] 0x100000 0x10000 16 bb_empty_wf)
    as (b & fl & Ha & W & _ & M); try lia; try reflexivity; [done|].
  exists fl. assert (st15 = b) as -> by (unfold st15; by rewrite Ha). split; [exact W|apply M, empty_merged].
Qed.

Lemma buddy_palloc_correct_witness :
  exists fl p b', bbuddy_palloc st15 3 = Some (p, b') /\
    (exhausted fl 3 -> p = 0 /\ b' = st15) /\
    (~ exhausted fl 3 -> p <> 0 /\ exists fl', wf 15 b' fl' None [(p, 3)]).
Proof.
  destruct st15_wf as (fl & W & _). exists fl. apply (buddy_palloc_correct 15 st15 fl [] 3 W). lia.
Defined.

Definition st15_3 : Z * uk_bbpalloc :=
  match bbuddy_palloc st15 3 with Some r => r | None => (0, bb_empty) end.

Lemma st15_3_wf : exists fl, wf 15 st15_3.2 fl None [(st15_3.1, 3)] /\ merged fl.
Proof.
  destruct st15_wf as (fl & W & M). destruct (palloc_spec 15 st15 fl [] 3 W) as (p & b' & fl' & Hp & Hres); [lia|].
  assert (E : st15_3 = (p, b')) by (unfold st15_3; by rewrite Hp).
  rewrite E. cbn. destruct Hres as [(-> & _ & _)|(_ & [W' M'] & _)]; [|exists fl'; auto].
  exfalso. assert (Hz : (st15_3.1 =? 0) = true) by by rewrite E. vm_compute in Hz. done.
Qed.

Lemma buddy_pfree_correct_witness :
  exists b' fl', bbuddy_pfree st15_3.2 st15_3.1 3 = Some b' /\ wf 15 b' fl' None [] /\ merged fl'.
Proof.
  destruct st15_3_wf as (fl & W & M). exact (buddy_pfree_correct 15 st15_3.2 fl [] st15_3.1 3 [] W M).
Defined.

(** The order of a request is the least one whose chunk holds it. *)
Theorem num_pages_to_order_least n :
  0 < n -> exists o, num_pages_to_order n = Some o /\ 0 <= o /\ n <= 2 ^ o /\
    forall o', 0 <= o' -> n <= 2 ^ o' -> o <= o'.
Proof.
  intros Hn. exists (Z.log2_up n). split; [by apply num_pages_to_order_spec|].
  split; [apply Z.log2_up_nonneg|]. split; [by apply order_of_covers|].
  intros o' Ho' Hle. rewrite <- (Z.log2_up_pow2 o') by done. by apply Z.log2_up_le_mono.
Qed.

Lemma num_pages_to_order_least_witness :
  exists o, num_pages_to_order 9 = Some o /\ 0 <= o /\ 9 <= 2 ^ o /\
    forall o', 0 <= o' -> 9 <= 2 ^ o' -> o <= o'.
Proof. apply (num_pages_to_order_least 9). lia. Defined.

(** [bbuddy_addmem] extends a well-formed allocator, whatever blocks are live, by a region
    of [k] pages apart from the existing ones: one page holds the region's metadata and the
    other [k - 1] become free chunks, naturally aligned and covering the range. *)
Theorem buddy_addmem_correct np b fl live base len k :
  wf np b fl None live -> 0 < base -> 0 <= len -> base + len < 2 ^ 64 - 4096 ->
  round_pgdown (base + len) - round_pgup base = PAGE_SIZE * k -> 2 <= k <= 32449 ->
  fits (memr_head b) (round_pgup base) (round_pgdown (base + len)) ->
  exists b' fl', bbuddy_addmem b base len = Some (0, b') /\ wf (np + (k - 1)) b' fl' None live.
Proof. intros. edestruct addmem_spec as (b' & fl' & ? & ? & _); eauto. Qed.

Lemma buddy_addmem_correct_witness :
  exists b' fl', bbuddy_addmem st15_3.2 0x200000 0x4800 = Some (0, b') /\
    wf (15 + (4 - 1)) b' fl' None [(st15_3.1, 3)].
Proof.
  destruct st15_3_wf as (fl & W & _).
  apply (buddy_addmem_correct 15 st15_3.2 fl [(st15_3.1, 3)] 0x200000 0x4800 4 W);
    [lia|lia|lia|reflexivity|lia|].
  apply fits_above. vm_compute. reflexivity.
Defined.

(** A region of 32450 pages: the page count comes out as 32448 although 32449 pages are put on
    the free lists, and a request served from the page too many fails the assertion of
    [map_alloc]. *)
Theorem buddy_region_overrun :
  exists b, bbuddy_addmem bb_empty (32767 * 4096) (32450 * 4096) = Some (0, b) /\
    nr_free_pages b = 32448 /\ bbuddy_palloc b 1 = None.
Proof.
  eexists. split; [vm_compute; reflexivity|]. split; vm_compute; reflexivity.
Qed.

(** A request of more than [2^52] pages passes the test for a missing chunk and indexes the
    free lists out of range. *)
Theorem buddy_palloc_huge : bbuddy_palloc st15 (2 ^ 52 + 1) = None.
Proof. vm_compute. reflexivity. Qed.

(** The initialisation skips the allocator's own pages twice. *)
Theorem buddy_init_skips_twice :
  exists b, uk_allocbbuddy_init 3000 0x100000 0x10000 = Some (Some b) /\ nr_free_pages b = 13 /\
    (first_page <$> memr_head b) = [0x103000].
Proof. eexists. split; [vm_compute; reflexivity|]. split; vm_compute; reflexivity. Qed.
End Buddy.
