(* ===== verification/UkAlloc.v ===== *)
(** * UkAlloc: malloc, realloc and memalign on top of a page allocator

    Models [lib/ukalloc/alloc.c]: the [*_ifpages] functions, which serve byte requests from a
    page allocator and keep a [struct metadata_ifpages] in front of every object, and the
    [*_compat] wrappers.  The page allocator is the interface [PageAllocator]; everything here
    holds for any implementation of it, the buddy allocator in particular. *)
From Stdlib Require Import ZArith Lia Bool.
From stdpp Require Import gmap.
From S2P Require Import Prelude PageAlloc BBuddyMap BBuddy.
Open Scope Z_scope.

Module UkAlloc.

Definition EINVAL : Z := 22.
Definition ENOMEM : Z := 12.
Definition METADATA_IFPAGES_SIZE_POW2 : Z := 16.
Definition sizeof_metadata : Z := 16.

(** ** Registered allocators: the list [_uk_alloc_head] *)

(** [next] pointers by allocator address; 0 is NULL. *)
Record registry := Registry { _uk_alloc_head : Z; alloc_next : gmap Z Z }.

(** [while (this && this->next) this = this->next;] *)
Fixpoint last_alloc (fuel : nat) (nx : gmap Z Z) (this : Z) : option Z :=
  match fuel with
  | O => None
  | S fuel' =>
      if this =? 0 then Some this
      else n ← nx !! this; if n =? 0 then Some this else last_alloc fuel' nx n
  end.

Definition uk_alloc_register (fuel : nat) (r : registry) (a : Z) : option (Z * registry) :=
  if _uk_alloc_head r =? 0 then Some (0, Registry a (<[a := 0]> (alloc_next r)))
  else
    this ← last_alloc fuel (alloc_next r) (_uk_alloc_head r);
    if this =? 0 then None
    else Some (0, Registry (_uk_alloc_head r) (<[a := 0]> (<[this := a]> (alloc_next r)))).

(** ** Memory objects from pages *)

(** [size_to_num_pages(size)] *)
Definition size_to_num_pages (size : Z) : Z := ALIGN_UP size PAGE / PAGE.

Section IfPages.
Context {T : Type} `{PageAllocator T}.

(** The allocator, the metadata records in memory by address (page count and base), and the
    bytes of the objects. *)
Record ualloc := UA { pages : T; meta : gmap Z (Z * Z); mem : Z -> Z }.

(** [None]: the assertion on small pointers. *)
Definition uk_get_metadata (ptr : Z) : option Z :=
  if ptr <? PAGE + sizeof_metadata then None
  else
    let metadata := ALIGN_DOWN ptr PAGE in
    if metadata =? ptr then Some (metadata - PAGE) else Some metadata.

Definition uk_getmallocsize (st : ualloc) (ptr : Z) : option Z :=
  md ← uk_get_metadata ptr;
  '(num_pages, base) ← meta st !! md;
  Some (u64 (base + u64 (num_pages * PAGE) - ptr)).

Definition uk_malloc_ifpages (st : ualloc) (size : Z) : option (Z * ualloc) :=
  let realsize := u64 (sizeof_metadata + size) in
  if (size =? 0) || (realsize <? size) then Some (0, st)
  else
    let num_pages := size_to_num_pages realsize in
    '(intptr, t) ← pa_palloc (pages st) num_pages;
    if intptr =? 0 then Some (0, UA t (meta st) (mem st))
    else Some (u64 (intptr + sizeof_metadata),
               UA t (<[intptr := (num_pages, intptr)]> (meta st)) (mem st)).

Definition uk_free_ifpages (st : ualloc) (ptr : Z) : option ualloc :=
  if ptr =? 0 then Some st
  else
    md ← uk_get_metadata ptr;
    '(num_pages, base) ← meta st !! md;
    if (base =? 0) || (num_pages =? 0) then None
    else t ← pa_pfree (pages st) base num_pages; Some (UA t (meta st) (mem st)).

Definition memcpy (m : Z -> Z) (dst src n : Z) : Z -> Z :=
  fun a => if (dst <=? a) && (a <? dst + n) then m (src + (a - dst)) else m a.

Definition uk_realloc_ifpages (st : ualloc) (ptr size : Z) : option (Z * ualloc) :=
  if ptr =? 0 then uk_malloc_ifpages st size
  else if size =? 0 then st ← uk_free_ifpages st ptr; Some (0, st)
  else
    '(retptr, st) ← uk_malloc_ifpages st size;
    if retptr =? 0 then Some (0, st)
    else
      mallocsize ← uk_getmallocsize st ptr;
      let n := if size <? mallocsize then size else mallocsize in
      let st := UA (pages st) (meta st) (memcpy (mem st) retptr ptr n) in
      st ← uk_free_ifpages st ptr;
      Some (retptr, st).

(** Alignment used and padding added, by the four cases of the code. *)
Definition memalign_padding (align : Z) : Z * Z :=
  if PAGE <? align then (align, PAGE)
  else if align =? PAGE then (align, 0)
  else if align <? METADATA_IFPAGES_SIZE_POW2 then (METADATA_IFPAGES_SIZE_POW2, 0)
  else (align, sizeof_metadata).

(** Error code, the pointer stored in [*memptr] if any, state. *)
Definition uk_posix_memalign_ifpages (st : ualloc) (align size : Z)
    : option (Z * option Z * ualloc) :=
  if negb (Z.land (u64 (align - 1)) align =? 0) || negb (align mod 8 =? 0)
  then Some (EINVAL, None, st)
  else if size =? 0 then Some (EINVAL, None, st)
  else
    let '(align, padding) := memalign_padding align in
    let realsize := u64 (size + padding + align) in
    if realsize <? size then Some (EINVAL, None, st)
    else
      let num_pages := size_to_num_pages realsize in
      '(intptr, t) ← pa_palloc (pages st) num_pages;
      if intptr =? 0 then Some (ENOMEM, None, UA t (meta st) (mem st))
      else
        let memptr := ALIGN_UP (u64 (intptr + sizeof_metadata)) align in
        md ← uk_get_metadata memptr;
        if md <? intptr then None
        else Some (0, Some memptr, UA t (<[md := (num_pages, intptr)]> (meta st)) (mem st)).

(** ** Invariant *)

(** An object: pointer, requested size, and the block of pages behind it. *)
Record object := Obj { o_ptr : Z; o_size : Z; o_base : Z; o_pages : Z }.

Record obj_ok (st : ualloc) (o : object) : Prop := {
  ob_meta : exists md, uk_get_metadata (o_ptr o) = Some md /\
    meta st !! md = Some (o_pages o, o_base o) /\
    o_base o <= md /\ md + sizeof_metadata <= o_ptr o;
  ob_size : 0 < o_size o;
  ob_end : o_ptr o + o_size o <= o_base o + PAGE * o_pages o
}.

Definition blocks_of (os : list object) : list (Z * Z) := (fun o => (o_base o, o_pages o)) <$> os.

Record inv (st : ualloc) (os : list object) : Prop := {
  inv_pages : pa_inv (pages st) (blocks_of os);
  inv_objs : Forall (obj_ok st) os
}.

(** Two objects occupy different bytes. *)
Definition objs_apart (o1 o2 : object) : Prop :=
  o_ptr o1 + o_size o1 <= o_ptr o2 \/ o_ptr o2 + o_size o2 <= o_ptr o1.

Lemma inv_blocks st os :
  inv st os -> Forall block_ok (blocks_of os) /\ pairwise blocks_apart (blocks_of os).
Proof. intros [Hp _]. by eapply pa_blocks. Qed.

Lemma pairwise_fmap {X Y} (R : Y -> Y -> Prop) (f : X -> Y) (l : list X) :
  pairwise R (f <$> l) -> pairwise (fun x y => R (f x) (f y)) l.
Proof.
  induction l as [|x l IH]; cbn; [done|]. intros [H1 H2]. split; [|by apply IH].
  by rewrite Forall_fmap in H1.
Qed.

Lemma pairwise_mono {X} (R R' : X -> X -> Prop) (P : X -> Prop) l :
  (forall x y, P x -> P y -> R x y -> R' x y) -> Forall P l -> pairwise R l -> pairwise R' l.
Proof.
  intros HR. induction 1 as [|x l Hx Hl IH]; cbn; [done|]. intros [H1 H2]. split; [|by apply IH].
  rewrite Forall_forall in *. intros y Hy. apply HR; auto.
Qed.

(** The objects a client holds do not overlap. *)
Lemma inv_objs_apart st os : inv st os -> pairwise objs_apart os.
Proof.
  intros I. destruct (inv_blocks _ _ I) as [_ Hp]. apply pairwise_fmap in Hp.
  eapply pairwise_mono; [|exact (inv_objs _ _ I)|exact Hp].
  intros x y [(mx & _ & _ & ? & ?) ? ?] [(my & _ & _ & ? & ?) ? ?] Hap.
  unfold blocks_apart, block_end in Hap. cbn in Hap. unfold objs_apart, sizeof_metadata in *. lia.
Qed.

(** Recording metadata inside a new block does not touch that of the others. *)
Lemma obj_ok_insert t m mm o blk md v :
  obj_ok (UA t m mm) o -> blocks_apart blk (o_base o, o_pages o) ->
  blk.1 <= md < block_end blk ->
  forall t' mm', obj_ok (UA t' (<[md := v]> m) mm') o.
Proof.
  intros [(md' & H1 & H2 & H3 & H4) H5 H6] Hap Hmd t' mm'. split; [|done|done].
  exists md'. split; [done|]. split; [|done]. cbn in *. rewrite lookup_insert_ne; [done|].
  unfold blocks_apart, block_end, sizeof_metadata in *. cbn in *. lia.
Qed.

Lemma obj_ok_same t m mm o : obj_ok (UA t m mm) o -> forall t' mm', obj_ok (UA t' m mm') o.
Proof. intros [H1 H2 H3] t' mm'. by split. Qed.

(** A new object in a new block. *)
Lemma inv_add st os t p n md ptr size :
  inv st os -> pa_inv t ((p, n) :: blocks_of os) ->
  uk_get_metadata ptr = Some md -> p <= md -> md + sizeof_metadata <= ptr -> 0 < size ->
  ptr + size <= p + PAGE * n ->
  inv (UA t (<[md := (n, p)]> (meta st)) (mem st)) (Obj ptr size p n :: os).
Proof.
  intros [Hp Ho] Ht Hmd H1 H2 H3 H4. split; [done|]. constructor.
  - split; cbn; [|done|done]. exists md. rewrite lookup_insert_eq. done.
  - destruct (pa_blocks _ _ Ht) as [_ [Hap _]]. cbn in Hap.
    rewrite Forall_forall in Hap. rewrite Forall_forall in Ho |- *. intros o Hin. destruct st as [t0 m0 mm0]. cbn in *.
    eapply (obj_ok_insert t0 m0 mm0 o (p, n)); [by apply Ho| |].
    + apply Hap. apply list_elem_of_fmap. by exists o.
    + unfold block_end, sizeof_metadata in *. cbn. lia.
Qed.

(** Taking an object out. *)
Lemma inv_remove st l1 o l2 t :
  inv st (l1 ++ o :: l2) -> pa_inv t (blocks_of (l1 ++ l2)) ->
  inv (UA t (meta st) (mem st)) (l1 ++ l2).
Proof.
  intros [_ Ho] Ht. split; [done|]. rewrite Forall_app, Forall_cons in Ho.
  destruct Ho as (H1 & _ & H2). destruct st as [t0 m0 mm0]. apply Forall_app.
  split; (eapply Forall_impl; [eassumption|]); intros x Hx; by eapply obj_ok_same.
Qed.

(** ** Operations *)

Lemma num_pages_spec s :
  0 < s -> s + PAGE <= 2 ^ 64 ->
  let n := size_to_num_pages s in 0 < n <= 2 ^ 52 /\ s <= PAGE * n < s + PAGE.
Proof.
  intros Hs Hb n. unfold n, size_to_num_pages, PAGE in *. change 4096 with (2 ^ 12).
  rewrite ALIGN_UP_spec by lia. change (2 ^ 12) with 4096 in *.
  rewrite (Z.mul_comm 4096), Z.div_mul by done.
  pose proof (Z.div_mod (s + 4096 - 1) 4096 ltac:(lia)).
  pose proof (Z.mod_pos_bound (s + 4096 - 1) 4096 ltac:(lia)). lia.
Qed.

Lemma get_metadata_aligned k : 2 <= k -> PAGE * k < 2 ^ 64 ->
  uk_get_metadata (PAGE * k) = Some (PAGE * (k - 1)).
Proof.
  intros Hk Hb. unfold uk_get_metadata, sizeof_metadata. unfold PAGE in *.
  destruct (Z.ltb_spec (4096 * k) (4096 + 16)); [lia|]. change 4096 with (2 ^ 12).
  rewrite ALIGN_DOWN_spec by (unfold in_u; lia). change (2 ^ 12) with 4096.
  rewrite (Z.mul_comm 4096 k), Z.div_mul, (Z.mul_comm 4096 k), Z.eqb_refl by done. f_equal. lia.
Qed.

Lemma get_metadata_inner k d : 1 <= k -> sizeof_metadata <= d < PAGE -> PAGE * k + d < 2 ^ 64 ->
  uk_get_metadata (PAGE * k + d) = Some (PAGE * k).
Proof.
  intros Hk Hd Hb. unfold uk_get_metadata. unfold sizeof_metadata, PAGE in *.
  destruct (Z.ltb_spec (4096 * k + d) (4096 + 16)); [lia|]. change 4096 with (2 ^ 12).
  rewrite ALIGN_DOWN_spec by (unfold in_u; lia). change (2 ^ 12) with 4096.
  replace ((4096 * k + d) / 4096) with k by (apply (Z.div_unique _ _ _ d); lia).
  destruct (Z.eqb_spec (4096 * k) (4096 * k + d)); [lia|done].
Qed.

Lemma malloc_spec st os size :
  inv st os -> 0 <= size -> size + sizeof_metadata + PAGE <= 2 ^ 64 ->
  exists ptr st', uk_malloc_ifpages st size = Some (ptr, st') /\ mem st' = mem st /\
    (ptr = 0 /\ inv st' os \/
     exists base n, ptr = base + sizeof_metadata /\ (PAGE | base) /\ 0 < base /\
       inv st' (Obj ptr size base n :: os)).
Proof.
  intros I Hs Hb. unfold uk_malloc_ifpages.
  rewrite wrap_small by (unfold in_u, sizeof_metadata, PAGE in *; lia).
  destruct (Z.eqb_spec size 0) as [->|Hne]; cbn [orb].
  { exists 0, st. split; [done|]. split; [done|]. left. done. }
  destruct (Z.ltb_spec (sizeof_metadata + size) size); [unfold sizeof_metadata in *; lia|].
  destruct (num_pages_spec (sizeof_metadata + size)) as [Hn Hfit]; [unfold sizeof_metadata in *; lia..|].
  set (n := size_to_num_pages (sizeof_metadata + size)) in *.
  destruct (pa_palloc_spec _ _ n (inv_pages _ _ I) Hn) as (p & t & -> & Hres). cbn [mbind option_bind].
  destruct (Z.eqb_spec p 0) as [->|Hp].
  - exists 0, (UA t (meta st) (mem st)). split; [done|]. split; [done|]. left. split; [done|].
    destruct Hres as [[_ Hr]|[? _]]; [|done]. split; [done|]. destruct st as [t0 m0 mm0].
    eapply Forall_impl; [apply (inv_objs _ _ I)|]. intros o Ho. by eapply obj_ok_same.
  - destruct Hres as [[? _]|[_ Hr]]; [done|].
    destruct (pa_blocks _ _ Hr) as [Hbk _]. apply Forall_cons in Hbk as [(Hb0 & Hb1 & Hb2 & Hb3) _].
    unfold block_end in Hb3. cbn in Hb0, Hb1, Hb2, Hb3. destruct Hb1 as [k Hk].
    assert (1 <= k) by (unfold PAGE in *; lia).
    rewrite wrap_small by (unfold in_u, sizeof_metadata, PAGE in *; lia).
    eexists _, _. split; [done|]. split; [done|]. right. exists p, n.
    split; [done|]. split; [by exists k|]. split; [done|].
    eapply inv_add; [done|done| |lia|lia|unfold sizeof_metadata in *; lia|unfold sizeof_metadata, PAGE in *; lia].
    rewrite Hk, (Z.mul_comm k). apply get_metadata_inner;
      unfold sizeof_metadata, PAGE in *; lia.
Qed.

Lemma get_obj st os o l1 l2 :
  inv st os -> os = l1 ++ o :: l2 ->
  exists md, uk_get_metadata (o_ptr o) = Some md /\ meta st !! md = Some (o_pages o, o_base o) /\
    o_ptr o <> 0 /\ o_base o <> 0 /\ o_pages o <> 0 /\
    uk_getmallocsize st (o_ptr o) = Some (o_base o + PAGE * o_pages o - o_ptr o) /\
    o_size o <= o_base o + PAGE * o_pages o - o_ptr o.
Proof.
  intros I ->. pose proof (inv_objs _ _ I) as Ho. rewrite Forall_app, Forall_cons in Ho.
  destruct Ho as (_ & [(md & H1 & H2 & H3 & H4) H5 H6] & _).
  destruct (inv_blocks _ _ I) as [Hb _]. unfold blocks_of in Hb.
  rewrite fmap_app, Forall_app, fmap_cons, Forall_cons in Hb.
  destruct Hb as (_ & (B1 & B2 & B3 & B4) & _). unfold block_end in B4. cbn in B1, B3, B4.
  unfold sizeof_metadata, PAGE in *.
  exists md. split; [done|]. split; [done|]. repeat split; try lia.
  unfold uk_getmallocsize. rewrite H1. cbn. rewrite H2. cbn. f_equal.
  rewrite (wrap_small 64 (o_pages o * PAGE)), wrap_small by (unfold in_u, PAGE; lia).
  unfold PAGE. lia.
Qed.

Lemma free_spec st l1 o l2 :
  inv st (l1 ++ o :: l2) ->
  exists st', uk_free_ifpages st (o_ptr o) = Some st' /\ inv st' (l1 ++ l2) /\ mem st' = mem st.
Proof.
  intros I. destruct (get_obj st _ o l1 l2 I eq_refl) as (md & H1 & H2 & H3 & H4 & H5 & _).
  unfold uk_free_ifpages. destruct (Z.eqb_spec (o_ptr o) 0); [done|].
  rewrite H1. cbn. rewrite H2. cbn.
  destruct (Z.eqb_spec (o_base o) 0); [done|]. destruct (Z.eqb_spec (o_pages o) 0); [done|]. cbn.
  pose proof (inv_pages _ _ I) as Hp. unfold blocks_of in Hp. rewrite fmap_app, fmap_cons in Hp.
  destruct (pa_pfree_spec _ _ _ _ _ Hp) as (t & -> & Ht). cbn. eexists. split; [done|].
  split; [|done]. eapply inv_remove; [exact I|]. unfold blocks_of. by rewrite fmap_app.
Qed.

Lemma inv_mem st os mm : inv st os -> inv (UA (pages st) (meta st) mm) os.
Proof.
  intros [Hp Ho]. split; [done|]. destruct st as [t0 m0 mm0].
  eapply Forall_impl; [exact Ho|]. intros o. intros Hok. by eapply obj_ok_same.
Qed.

(** The bytes of an object. *)
Definition same_bytes (m m' : Z -> Z) (p p' n : Z) : Prop :=
  forall i, 0 <= i < n -> m' (p' + i) = m (p + i).

Lemma realloc_spec st l1 o l2 size :
  inv st (l1 ++ o :: l2) -> 0 < size -> size + sizeof_metadata + PAGE <= 2 ^ 64 ->
  exists ret st', uk_realloc_ifpages st (o_ptr o) size = Some (ret, st') /\
    (ret = 0 /\ inv st' (l1 ++ o :: l2) /\ mem st' = mem st \/
     ret <> 0 /\ exists base n, inv st' (Obj ret size base n :: l1 ++ l2) /\
       same_bytes (mem st) (mem st') (o_ptr o) ret (Z.min size (o_size o)) /\
       Forall (fun o' => same_bytes (mem st) (mem st') (o_ptr o') (o_ptr o') (o_size o')) (l1 ++ l2)).
Proof.
  intros I Hs Hb. destruct (get_obj st _ o l1 l2 I eq_refl) as (_ & _ & _ & Hp0 & _).
  unfold uk_realloc_ifpages. destruct (Z.eqb_spec (o_ptr o) 0) as [|_]; [done|].
  destruct (Z.eqb_spec size 0) as [|_]; [lia|].
  destruct (malloc_spec st _ size I) as (ret & st1 & -> & Hm & Hres); [lia|done|].
  cbn [mbind option_bind]. destruct (Z.eqb_spec ret 0) as [->|Hr].
  { exists 0, st1. split; [done|]. left. split; [done|]. split; [|done].
    destruct Hres as [[_ ?]|(base & n & E & _ & H0 & _)]; [done|]. unfold sizeof_metadata in E. lia. }
  destruct Hres as [[? _]|(base & n & E & Hdiv & H0 & I1)]; [done|].
  destruct (get_obj st1 _ o (Obj ret size base n :: l1) l2 I1 eq_refl)
    as (_ & _ & _ & _ & _ & _ & -> & Hsz). cbn [mbind option_bind].
  set (cnt := if size <? _ then size else _).
  assert (Hcnt : Z.min size (o_size o) <= cnt <= size) by (subst cnt; case_test; lia).
  set (mm := memcpy (mem st1) ret (o_ptr o) cnt).
  destruct (free_spec (UA (pages st1) (meta st1) mm) (Obj ret size base n :: l1) o l2)
    as (st2 & -> & I2 & Hm2); [by apply (inv_mem st1)|]. cbn [mbind option_bind].
  exists ret, st2. split; [done|]. right. split; [done|]. exists base, n. split; [done|].
  rewrite Hm2. cbn [mem]. unfold mm, memcpy, same_bytes. rewrite Hm. split.
  - intros i Hi. destruct (Z.leb_spec ret (ret + i)); [|lia].
    destruct (Z.ltb_spec (ret + i) (ret + cnt)); [|lia]. cbn. f_equal. lia.
  - apply Forall_forall. intros o' Hin i Hi.
    pose proof (inv_objs_apart _ _ I2) as [Hap _]. rewrite Forall_forall in Hap.
    specialize (Hap o' Hin). unfold objs_apart in Hap. cbn in Hap.
    destruct (Z.leb_spec ret (o_ptr o' + i)); [|done].
    destruct (Z.ltb_spec (o_ptr o' + i) (ret + cnt)); [lia|done].
Qed.

(** What the page block looks like when the request for [realsize] bytes succeeds. *)
Lemma memalign_spec st os k size :
  inv st os -> 3 <= k <= 61 -> 0 < size -> size + 2 ^ k + 2 * PAGE <= 2 ^ 64 ->
  exists rc p st', uk_posix_memalign_ifpages st (2 ^ k) size = Some (rc, p, st') /\ mem st' = mem st /\
    (rc = ENOMEM /\ p = None /\ inv st' os \/
     rc = 0 /\ exists ptr base n, p = Some ptr /\ (2 ^ k | ptr) /\ ptr <> 0 /\
       inv st' (Obj ptr size base n :: os)).
Proof.
  intros I Hk Hs Hb. unfold uk_posix_memalign_ifpages.
  assert (Hpk : 8 <= 2 ^ k <= 2 ^ 61) by (split; [change 8 with (2 ^ 3)|]; apply Z.pow_le_mono_r; lia).
  assert (H1 : Z.land (u64 (2 ^ k - 1)) (2 ^ k) = 0).
  { rewrite wrap_small by (unfold in_u; lia). rewrite Z.land_comm, land_mask by lia. apply Z_mod_same_full. }
  assert (H2 : 2 ^ k mod 8 = 0).
  { apply Z.mod_divide; [done|]. exists (2 ^ (k - 3)). change 8 with (2 ^ 3).
    rewrite <- Z.pow_add_r by lia. f_equal. lia. }
  rewrite H1, H2. cbn [negb orb Z.eqb]. destruct (Z.eqb_spec size 0) as [|_]; [lia|].
  (* the alignment and padding of the four cases *)
  assert (Hcase : exists k' pad, memalign_padding (2 ^ k) = (2 ^ k', pad) /\ k <= k' <= 61 /\
    (12 < k' /\ pad = PAGE \/ k' = 12 /\ pad = 0 \/ k' = 4 /\ pad = 0 \/
     4 <= k' < 12 /\ pad = sizeof_metadata) /\ pad + 2 ^ k' <= 2 ^ k + PAGE).
  { unfold memalign_padding, METADATA_IFPAGES_SIZE_POW2, PAGE, sizeof_metadata.
    destruct (Z.ltb_spec 4096 (2 ^ k)) as [Hx|Hx].
    { exists k, 4096. split; [done|]. split; [lia|]. split; [|lia]. left. split; [|done].
      destruct (Z.ltb_spec 12 k); [done|]. pose proof (Z.pow_le_mono_r 2 k 12). lia. }
    destruct (Z.eqb_spec (2 ^ k) 4096) as [Hy|Hy].
    { exists k, 0. split; [done|]. split; [lia|]. split; [|lia]. right. left. split; [|done].
      apply (Z.pow_inj_r 2); [lia..|]. by rewrite Hy. }
    destruct (Z.ltb_spec (2 ^ k) 16) as [Hz|Hz].
    { exists 4, 0. split; [done|]. assert (k < 4) by (apply (Z.pow_lt_mono_r_iff 2); lia).
      split; [lia|]. split; [|change (2 ^ 4) with 16; lia]. right. right. left. done. }
    exists k, 16. split; [done|]. split; [lia|]. split; [|lia]. right. right. right.
    split; [|done]. split.
    - apply (Z.pow_le_mono_r_iff 2); lia.
    - apply (Z.pow_lt_mono_r_iff 2); lia. }
  destruct Hcase as (k' & pad & -> & Hk' & Hpad & Hle).
  pose proof (Z.pow_le_mono_r 2 k k' ltac:(lia) ltac:(lia)) as Hge.
  assert (Hpad0 : 0 <= pad <= PAGE) by (unfold sizeof_metadata, PAGE in *; lia).
  rewrite wrap_small by (unfold in_u, PAGE in *; lia).
  destruct (Z.ltb_spec (size + pad + 2 ^ k') size); [lia|].
  destruct (num_pages_spec (size + pad + 2 ^ k')) as [Hn Hfit]; [unfold PAGE in *; lia..|].
  set (n := size_to_num_pages (size + pad + 2 ^ k')) in *.
  destruct (pa_palloc_spec _ _ n (inv_pages _ _ I) Hn) as (p & t & -> & Hres). cbn [mbind option_bind].
  destruct (Z.eqb_spec p 0) as [->|Hp].
  { eexists _, _, _. split; [done|]. split; [done|]. left. split; [done|]. split; [done|].
    destruct Hres as [[_ Hr]|[? _]]; [|done]. split; [done|]. destruct st as [t0 m0 mm0].
    eapply Forall_impl; [apply (inv_objs _ _ I)|]. intros o Ho. by eapply obj_ok_same. }
  destruct Hres as [[? _]|[_ Hr]]; [done|].
  destruct (pa_blocks _ _ Hr) as [Hbk _]. apply Forall_cons in Hbk as [(Hb0 & Hb1 & Hb2 & Hb3) _].
  unfold block_end in Hb3. cbn in Hb0, Hb1, Hb2, Hb3. destruct Hb1 as [q Hq].
  unfold sizeof_metadata, PAGE in *. assert (1 <= q) by lia.
  rewrite wrap_small by (unfold in_u; lia).
  destruct (ALIGN_UP_bounds k' (p + 16)) as [Hmb Hmd]; [lia..|].
  set (ptr := ALIGN_UP (p + 16) (2 ^ k')) in *.
  assert (Hdiv : (2 ^ k | ptr)).
  { etransitivity; [|exact Hmd]. exists (2 ^ (k' - k)). rewrite <- Z.pow_add_r by lia. f_equal. lia. }
  (* the metadata slot found from the pointer *)
  assert (Hslot : exists md, uk_get_metadata ptr = Some md /\ p <= md /\ md + 16 <= ptr /\
    ptr + size <= p + 4096 * n).
  { destruct (Z.leb_spec 12 k') as [Hbig|Hsmall].
    - assert (Hpg : (4096 | ptr)).
      { etransitivity; [|exact Hmd]. exists (2 ^ (k' - 12)). change 4096 with (2 ^ 12).
        rewrite <- Z.pow_add_r by lia. f_equal. lia. }
      destruct Hpg as [z Hz]. assert (q + 1 <= z) by lia.
      exists (4096 * (z - 1)). rewrite Hz, (Z.mul_comm z). split.
      { apply get_metadata_aligned; unfold PAGE; lia. }
      split; [lia|]. split; [lia|]. destruct (Z.eq_dec k' 12) as [->|]; [|lia].
      change (2 ^ 12) with 4096 in *. lia.
    - assert (2 ^ k' <= 2 ^ 11) by (apply Z.pow_le_mono_r; lia).
      exists p. replace ptr with (4096 * q + (ptr - p)) by lia.
      replace p with (4096 * q) at 2 by lia. split.
      { apply get_metadata_inner; unfold sizeof_metadata, PAGE; lia. }
      split; [lia|]. split; [lia|]. destruct Hpad as [[? ?]|[[? ?]|[[-> ->]|[? ->]]]]; [lia|lia| |lia].
      change (2 ^ 4) with 16 in *. assert (ptr = p + 16); [|lia].
      destruct Hmd as [z Hz]. lia. }
  destruct Hslot as (md & Hg & Hlo & Hhi & Hend). rewrite Hg. cbn [mbind option_bind].
  destruct (Z.ltb_spec md p); [lia|].
  eexists _, _, _. split; [done|]. split; [done|]. right. split; [done|].
  exists ptr, p, n. split; [done|]. split; [done|]. split; [lia|].
  by eapply inv_add.
Qed.
End IfPages.
Arguments ualloc T : clear implicits.

(** ** The wrappers for allocators without their own variants

    [S] is the state of the allocator, whose own operations are arguments. *)
Section Compat.
Context {S : Type}.
Context (malloc : S -> Z -> option (Z * S)) (free : S -> Z -> option S).
Context (posix_memalign : S -> Z -> Z -> option (Z * option Z * S)).
Context (get_mem : S -> Z -> Z) (set_mem : S -> (Z -> Z) -> S).

Definition uk_pfree_compat (st : S) (ptr num_pages : Z) : option S :=
  if negb (Z.land ptr (PAGE - 1) =? 0) then None else free st ptr.

Definition uk_palloc_compat (st : S) (num_pages : Z) : option (Z * S) :=
  if (2 ^ 64 - 1) / PAGE <? num_pages then Some (0, st)
  else
    '(rc, ptr, st) ← posix_memalign st PAGE (u64 (num_pages * PAGE));
    if negb (rc =? 0) then Some (0, st) else p ← ptr; Some (p, st).

Definition uk_realloc_compat (st : S) (ptr size : Z) : option (Z * S) :=
  if ptr =? 0 then malloc st size
  else if size =? 0 then st ← free st ptr; Some (0, st)
  else
    '(retptr, st) ← malloc st size;
    if retptr =? 0 then Some (0, st)
    else
      let st := set_mem st (memcpy (get_mem st) retptr ptr size) in
      st ← free st ptr;
      Some (retptr, st).

Definition memset (m : Z -> Z) (p v n : Z) : Z -> Z :=
  fun a => if (p <=? a) && (a <? p + n) then v else m a.

(** [None] for the division by zero when [size] is 0. *)
Definition uk_calloc_compat (st : S) (nmemb size : Z) : option (Z * S) :=
  let tlen := u64 (nmemb * size) in
  if size =? 0 then None
  else if (2 ^ 64 - 1) / size <? nmemb then Some (0, st)
  else
    '(ptr, st) ← malloc st tlen;
    if ptr =? 0 then Some (0, st)
    else Some (ptr, set_mem st (memset (get_mem st) ptr 0 tlen)).

Definition uk_memalign_compat (st : S) (align size : Z) : option (Z * S) :=
  '(rc, ptr, st) ← posix_memalign st align size;
  if negb (rc =? 0) then Some (0, st) else p ← ptr; Some (p, st).
End Compat.

(** ** Clients of the byte interface *)

(** Requests; objects are named by their position among those held. *)
Inductive req := Malloc (size : Z) | Memalign (k size : Z) | Free (i : nat) | Realloc (i : nat) (size : Z).

(** Sizes and alignments below the overflow of the page rounding. *)
Definition req_ok (r : req) : Prop :=
  match r with
  | Malloc size => 0 <= size /\ size + sizeof_metadata + PAGE <= 2 ^ 64
  | Memalign k size => 3 <= k <= 61 /\ 0 < size /\ size + 2 ^ k + 2 * PAGE <= 2 ^ 64
  | Free _ => True
  | Realloc _ size => 0 <= size /\ size + sizeof_metadata + PAGE <= 2 ^ 64
  end.

Section Run.
Context {T : Type} `{PageAllocator T}.

(** The client sees pointers and the sizes it asked for. *)
Definition step (st : ualloc T) (objs : list (Z * Z)) (r : req) : option (ualloc T * list (Z * Z)) :=
  match r with
  | Malloc size =>
      '(p, st) ← uk_malloc_ifpages st size;
      Some (st, if p =? 0 then objs else (p, size) :: objs)
  | Memalign k size =>
      '(rc, p, st) ← uk_posix_memalign_ifpages st (2 ^ k) size;
      Some (st, match p with Some p => if rc =? 0 then (p, size) :: objs else objs | None => objs end)
  | Free i =>
      match objs !! i with
      | None => Some (st, objs)
      | Some (p, _) => st ← uk_free_ifpages st p; Some (st, delete i objs)
      end
  | Realloc i size =>
      match objs !! i with
      | None => Some (st, objs)
      | Some (p, _) =>
          '(q, st) ← uk_realloc_ifpages st p size;
          Some (st, if size =? 0 then delete i objs
                    else if q =? 0 then objs else (q, size) :: delete i objs)
      end
  end.

Fixpoint run (st : ualloc T) (objs : list (Z * Z)) (rs : list req)
    : option (ualloc T * list (Z * Z)) :=
  match rs with
  | [] => Some (st, objs)
  | r :: rs' => '(st, objs) ← step st objs r; run st objs rs'
  end.

Definition view (os : list object) : list (Z * Z) := (fun o => (o_ptr o, o_size o)) <$> os.

Lemma view_lookup os i p s :
  view os !! i = Some (p, s) ->
  exists o l1 l2, os = l1 ++ o :: l2 /\ p = o_ptr o /\ s = o_size o /\ delete i (view os) = view (l1 ++ l2).
Proof.
  unfold view. rewrite list_lookup_fmap. intros Hi. destruct (os !! i) as [o|] eqn:Ho; [|done].
  cbn in Hi. injection Hi as <- <-. exists o, (take i os), (drop (S i) os).
  split; [symmetry; by apply take_drop_middle|]. split; [done|]. split; [done|].
  by rewrite delete_take_drop, fmap_app, fmap_take, fmap_drop.
Qed.

Lemma step_inv st os r :
  inv st os -> req_ok r ->
  exists st' os', step st (view os) r = Some (st', view os') /\ inv st' os'.
Proof.
  intros I Hr. destruct r as [size|k size|i|i size]; cbn [step req_ok] in *.
  - destruct (malloc_spec st os size I) as (p & st' & -> & _ & Hres); [apply Hr..|]. cbn [mbind option_bind].
    destruct (Z.eqb_spec p 0) as [->|Hp].
    + exists st', os. split; [done|]. destruct Hres as [[_ ?]|(base & n & E & _ & ? & _)]; [done|].
      unfold sizeof_metadata in E. lia.
    + destruct Hres as [[? _]|(base & n & E & _ & _ & I')]; [done|].
      exists st', (Obj p size base n :: os). by split.
  - destruct Hr as (Hk & Hs & Hb).
    destruct (memalign_spec st os k size I Hk Hs Hb) as (rc & p & st' & -> & _ & Hres).
    cbn [mbind option_bind].
    destruct Hres as [(-> & -> & I')|(-> & ptr & base & n & -> & _ & _ & I')]; [by exists st', os|].
    exists st', (Obj ptr size base n :: os). by split.
  - destruct (view os !! i) as [[p s]|] eqn:Hi; [|by exists st, os].
    destruct (view_lookup _ _ _ _ Hi) as (o & l1 & l2 & -> & -> & _ & ->).
    destruct (free_spec st l1 o l2 I) as (st' & -> & I' & _). by exists st', (l1 ++ l2).
  - destruct (view os !! i) as [[p s]|] eqn:Hi; [|by exists st, os].
    destruct (view_lookup _ _ _ _ Hi) as (o & l1 & l2 & -> & -> & _ & ->). destruct Hr as [Hs Hb].
    destruct (Z.eqb_spec size 0) as [->|Hne].
    + destruct (free_spec st l1 o l2 I) as (st' & Hf & I' & _). unfold uk_realloc_ifpages.
      destruct (get_obj st _ o l1 l2 I eq_refl) as (_ & _ & _ & Hp0 & _).
      destruct (Z.eqb_spec (o_ptr o) 0); [done|]. cbn. rewrite Hf. cbn. by exists st', (l1 ++ l2).
    + destruct (realloc_spec st l1 o l2 size I) as (ret & st' & -> & Hres); [lia|done|].
      cbn [mbind option_bind]. destruct (Z.eqb_spec ret 0) as [->|Hr0].
      * destruct Hres as [(_ & I' & _)|(? & _)]; [|done].
        exists st', (l1 ++ o :: l2). by split.
      * destruct Hres as [(? & _)|(_ & base & n & I' & _)]; [done|].
        exists st', (Obj ret size base n :: l1 ++ l2). by split.
Qed.

Lemma run_inv st os rs :
  inv st os -> Forall req_ok rs ->
  exists st' os', run st (view os) rs = Some (st', view os') /\ inv st' os'.
Proof.
  intros I Hrs. revert st os I. induction Hrs as [|r rs Hr _ IH]; intros st os I; cbn [run]; [eauto|].
  destruct (step_inv st os r I Hr) as (st1 & os1 & -> & I1). cbn. by apply IH.
Qed.

(** An allocator with no object handed out. *)
Definition fresh (t : T) (m : Z -> Z) : ualloc T := UA t ∅ m.

Lemma fresh_inv t m : pa_inv t [] -> inv (fresh t m) [].
Proof. intros Ht. by split. Qed.
End Run.

(** Objects a client sees, as byte ranges. *)
Definition ranges_apart (x y : Z * Z) : Prop := x.1 + x.2 <= y.1 \/ y.1 + y.2 <= x.1.

Lemma view_apart {T} `{PageAllocator T} (st : ualloc T) os :
  inv st os -> pairwise ranges_apart (view os).
Proof.
  intros I. pose proof (inv_objs_apart _ _ I) as Hp. clear I.
  induction os as [|o os IH]; cbn; [done|]. destruct Hp as [H1 H2]. split; [|by apply IH].
  apply Forall_fmap. eapply Forall_impl; [exact H1|]. done.
Qed.

(** *** Properties *)

(** C4: over any page allocator that keeps its promise, every sequence of [malloc],
    [posix_memalign], [realloc] and [free] calls of the [ifpages] family, with sizes below the
    overflow of the page rounding, runs without failing an assertion, always finds the
    metadata of the objects it is given back, and the objects held never overlap. *)
Theorem ukalloc_run_safe {T} `{PageAllocator T} (t : T) m rs :
  pa_inv t [] -> Forall req_ok rs ->
  exists st objs, run (fresh t m) [] rs = Some (st, objs) /\ pairwise ranges_apart objs /\
    exists blocks, pa_inv (pages st) blocks /\ length blocks = length objs.
Proof.
  intros Ht Hrs. destruct (run_inv (fresh t m) [] rs (fresh_inv t m Ht) Hrs) as (st & os & Hrun & I).
  exists st, (view os). split; [done|]. split; [by eapply view_apart|].
  exists (blocks_of os). split; [apply I|]. unfold blocks_of, view. by rewrite !length_fmap.
Qed.

Lemma st15_pages : pa_inv (T := Buddy.pool 15) Buddy.st15 [].
Proof. exact Buddy.st15_wf. Qed.

Lemma ukalloc_run_safe_witness :
  exists st objs,
    run (fresh (T := Buddy.pool 15) Buddy.st15 (fun _ => 0)) []
      [Malloc 100; Memalign 8 300; Realloc 1 5000; Free 1; Malloc 20000] = Some (st, objs) /\
    pairwise ranges_apart objs /\
    exists blocks, pa_inv (pages st) blocks /\ length blocks = length objs.
Proof.
  apply (ukalloc_run_safe (T := Buddy.pool 15) Buddy.st15 (fun _ => 0)
           [Malloc 100; Memalign 8 300; Realloc 1 5000; Free 1; Malloc 20000] st15_pages).
  repeat first [apply List.Forall_nil | apply List.Forall_cons; [by compute|]].
Defined.

(** [uk_realloc_ifpages] of a live object either fails and changes nothing, or returns a
    new object of the requested size that starts with the bytes of the old one, up to the
    smaller of the two sizes, gives the old one back, and leaves the bytes of every other
    object alone. *)
Theorem ukalloc_realloc_preserves {T} `{PageAllocator T} (st : ualloc T) l1 o l2 size :
  inv st (l1 ++ o :: l2) -> 0 < size -> size + sizeof_metadata + PAGE <= 2 ^ 64 ->
  exists ret st', uk_realloc_ifpages st (o_ptr o) size = Some (ret, st') /\
    (ret = 0 /\ inv st' (l1 ++ o :: l2) /\ mem st' = mem st \/
     ret <> 0 /\ exists base n, inv st' (Obj ret size base n :: l1 ++ l2) /\
       same_bytes (mem st) (mem st') (o_ptr o) ret (Z.min size (o_size o)) /\
       Forall (fun o' => same_bytes (mem st) (mem st') (o_ptr o') (o_ptr o') (o_size o')) (l1 ++ l2)).
Proof. apply realloc_spec. Qed.

(** One object of 100 bytes on a fresh buddy allocator. *)
Definition ua100 : Z * ualloc (Buddy.pool 15) :=
  match uk_malloc_ifpages (fresh (T := Buddy.pool 15) Buddy.st15 (fun _ => 7)) 100 with
  | Some r => r
  | None => (0, fresh (T := Buddy.pool 15) Buddy.st15 (fun _ => 7))
  end.

Lemma ua100_inv : exists base n, inv ua100.2 [Obj ua100.1 100 base n].
Proof.
  destruct (malloc_spec (fresh (T := Buddy.pool 15) Buddy.st15 (fun _ => 7)) [] 100)
    as (p & st & Hm & _ & Hres); [apply fresh_inv, st15_pages|lia|by compute|].
  assert (E : ua100 = (p, st)) by (unfold ua100; by rewrite Hm). rewrite E. cbn.
  destruct Hres as [[-> _]|(base & n & _ & _ & _ & I)]; [|by exists base, n].
  exfalso. assert (Hz : (ua100.1 =? 0) = true) by by rewrite E. vm_compute in Hz. done.
Qed.

Lemma ukalloc_realloc_preserves_witness :
  exists o ret st', inv ua100.2 [o] /\ o_size o = 100 /\
    uk_realloc_ifpages ua100.2 (o_ptr o) 6000 = Some (ret, st').
Proof.
  destruct ua100_inv as (base & n & I). exists (Obj ua100.1 100 base n).
  destruct (ukalloc_realloc_preserves ua100.2 [] (Obj ua100.1 100 base n) [] 6000 I ltac:(lia) ltac:(by compute))
    as (ret & st' & Hrun & _).
  exists ret, st'. split; [exact I|]. split; [reflexivity|exact Hrun].
Defined.

(** [uk_posix_memalign_ifpages] with a power-of-two alignment of at least a pointer: out
    of memory, or a pointer with the requested alignment whose metadata, in each of the four
    cases of the padding, lies in front of it inside the block of pages. *)
Theorem ukalloc_memalign_correct {T} `{PageAllocator T} (st : ualloc T) os k size :
  inv st os -> 3 <= k <= 61 -> 0 < size -> size + 2 ^ k + 2 * PAGE <= 2 ^ 64 ->
  exists rc p st', uk_posix_memalign_ifpages st (2 ^ k) size = Some (rc, p, st') /\ mem st' = mem st /\
    (rc = ENOMEM /\ p = None /\ inv st' os \/
     rc = 0 /\ exists ptr base n, p = Some ptr /\ (2 ^ k | ptr) /\ ptr <> 0 /\
       inv st' (Obj ptr size base n :: os)).
Proof. apply memalign_spec. Qed.

Lemma ukalloc_memalign_correct_witness :
  exists rc p st', uk_posix_memalign_ifpages (fresh (T := Buddy.pool 15) Buddy.st15 (fun _ => 0))
      (2 ^ 13) 10 = Some (rc, p, st') /\ mem st' = (fun _ => 0) /\
    (rc = ENOMEM /\ p = None /\ inv st' [] \/
     rc = 0 /\ exists ptr base n, p = Some ptr /\ (2 ^ 13 | ptr) /\ ptr <> 0 /\
       inv st' [Obj ptr 10 base n]).
Proof.
  exact (ukalloc_memalign_correct (fresh (T := Buddy.pool 15) Buddy.st15 (fun _ => 0)) [] 13 10
           (fresh_inv _ _ st15_pages) ltac:(lia) ltac:(lia) ltac:(by compute)).
Defined.

(** [uk_calloc_compat] over [uk_malloc_ifpages], for a nonzero element size: NULL when the
    product overflows, and otherwise NULL or an object of [nmemb * size] zero bytes; the bytes
    of the other objects are unchanged. *)
Theorem ukalloc_calloc_correct {T} `{PageAllocator T} (st : ualloc T) os nmemb size :
  inv st os -> 0 <= nmemb -> 0 < size ->
  (nmemb * size < 2 ^ 64 -> nmemb * size + sizeof_metadata + PAGE <= 2 ^ 64) ->
  exists ptr st',
    uk_calloc_compat uk_malloc_ifpages mem (fun st m => UA (pages st) (meta st) m) st nmemb size =
      Some (ptr, st') /\
    (2 ^ 64 <= nmemb * size -> ptr = 0 /\ st' = st) /\
    (ptr = 0 /\ inv st' os \/
     ptr <> 0 /\ exists base n, inv st' (Obj ptr (nmemb * size) base n :: os) /\
       (forall i, 0 <= i < nmemb * size -> mem st' (ptr + i) = 0) /\
       Forall (fun o' => same_bytes (mem st) (mem st') (o_ptr o') (o_ptr o') (o_size o')) os).
Proof.
  intros I Hn Hs Hbig. unfold uk_calloc_compat. destruct (Z.eqb_spec size 0) as [|_]; [lia|].
  assert (Hov : (2 ^ 64 - 1) / size < nmemb <-> 2 ^ 64 <= nmemb * size).
  { pose proof (Z.div_mod (2 ^ 64 - 1) size ltac:(lia)).
    pose proof (Z.mod_pos_bound (2 ^ 64 - 1) size ltac:(lia)). split; nia. }
  destruct (Z.ltb_spec ((2 ^ 64 - 1) / size) nmemb) as [Hlt|Hge].
  { exists 0, st. split; [done|]. split; [done|]. by left. }
  assert (Hsmall : nmemb * size < 2 ^ 64) by lia. specialize (Hbig Hsmall).
  rewrite wrap_small by (unfold in_u; nia).
  destruct (malloc_spec st os (nmemb * size) I) as (p & st1 & -> & Hm & Hres); [nia|done|].
  cbn [mbind option_bind]. destruct (Z.eqb_spec p 0) as [->|Hp].
  { exists 0, st1. split; [done|]. split; [lia|]. left. split; [done|].
    destruct Hres as [[_ ?]|(base & n & E & _ & ? & _)]; [done|]. unfold sizeof_metadata in E. lia. }
  destruct Hres as [[? _]|(base & n & E & _ & _ & I1)]; [done|].
  exists p. eexists. split; [done|]. split; [lia|]. right. split; [done|]. exists base, n.
  split; [by apply (inv_mem st1)|]. cbn [mem]. unfold memset, same_bytes. rewrite Hm. split.
  - intros i Hi. destruct (Z.leb_spec p (p + i)); [|lia].
    by destruct (Z.ltb_spec (p + i) (p + nmemb * size)); [|lia].
  - pose proof (inv_objs_apart _ _ I1) as [Hap _]. rewrite Forall_forall in *. intros o' Hin i Hi.
    specialize (Hap o' Hin). unfold objs_apart in Hap. cbn in Hap.
    destruct (Z.leb_spec p (o_ptr o' + i)); [|done].
    destruct (Z.ltb_spec (o_ptr o' + i) (p + nmemb * size)); [lia|done].
Qed.

Lemma ukalloc_calloc_correct_witness :
  exists o ptr st', inv ua100.2 [o] /\
    uk_calloc_compat uk_malloc_ifpages mem (fun st m => UA (pages st) (meta st) m) ua100.2 (2 ^ 40) (2 ^ 40) =
      Some (ptr, st') /\ ptr = 0 /\ st' = ua100.2.
Proof.
  destruct ua100_inv as (base & n & I). exists (Obj ua100.1 100 base n).
  destruct (ukalloc_calloc_correct ua100.2 [Obj ua100.1 100 base n] (2 ^ 40) (2 ^ 40) I
              ltac:(lia) ltac:(lia) ltac:(lia)) as (ptr & st' & Hrun & Hov & _).
  exists ptr, st'. split; [exact I|]. split; [exact Hrun|]. apply Hov. lia.
Defined.

(** A request just below the address space size is not caught by the overflow check, rounds up
    to zero pages, and fails the assertion of the buddy allocator instead of returning NULL. *)
Theorem ukalloc_malloc_rounds_to_zero :
  uk_malloc_ifpages (fresh (T := Buddy.pool 15) Buddy.st15 (fun _ => 0)) (2 ^ 64 - 100) = None.
Proof. vm_compute. reflexivity. Qed.
End UkAlloc.
