(* ===== verification/IfMalloc.v ===== *)
(** * IfMalloc: memalign and realloc for allocators that only have malloc and free

    The [ifmalloc] functions of [lib/ukalloc/alloc.c]: a 16-byte record in front of every
    object remembers the backend's block.  The backend ([malloc_backend], [free_backend]) is
    an interface, the class [MallocBackend]: it hands out disjoint blocks aligned for any
    object, as the C standard asks of malloc.  The theorems show that the functions hand out
    disjoint, aligned objects inside those blocks and that realloc keeps the contents. *)
From Stdlib Require Import ZArith Lia Bool.
From stdpp Require Import gmap.
From S2P Require Import Prelude.
Open Scope Z_scope.

(** A block of the backend: address and size. *)
Definition mb_block_ok (b : Z * Z) : Prop :=
  0 < b.1 /\ (16 | b.1) /\ 0 < b.2 /\ b.1 + b.2 < 2 ^ 64.

Definition mb_apart (b1 b2 : Z * Z) : Prop := b1.1 + b1.2 <= b2.1 \/ b2.1 + b2.2 <= b1.1.

Class MallocBackend (T : Type) := {
  mb_inv : T -> list (Z * Z) -> Prop;
  mb_malloc : T -> Z -> option (Z * T);
  mb_free : T -> Z -> option T;
  mb_malloc_spec t bs n : mb_inv t bs -> 0 < n < 2 ^ 64 ->
    exists p t', mb_malloc t n = Some (p, t') /\
      (p = 0 /\ mb_inv t' bs \/ p <> 0 /\ mb_inv t' ((p, n) :: bs));
  mb_free_spec t bs1 p n bs2 : mb_inv t (bs1 ++ (p, n) :: bs2) ->
    exists t', mb_free t p = Some t' /\ mb_inv t' (bs1 ++ bs2);
  mb_blocks t bs : mb_inv t bs -> Forall mb_block_ok bs /\ pairwise mb_apart bs
}.

Module IfMalloc.

Definition EINVAL : Z := 22.
Definition ENOMEM : Z := 12.
Definition METADATA_IFMALLOC_SIZE_POW2 : Z := 16.
Definition sizeof_ptr : Z := 8.

Section Ops.
Context {T : Type} `{MallocBackend T}.

(** The backend, the records in memory by address (size and base), the bytes. *)
Record imalloc := IM { backend : T; metadata : gmap Z (Z * Z); mem : Z -> Z }.

Definition uk_get_metadata_ifmalloc (ptr : Z) : Z := u64 (ptr - METADATA_IFMALLOC_SIZE_POW2).

Definition uk_getmallocsize_ifmalloc (st : imalloc) (ptr : Z) : option Z :=
  '(size, base) ← metadata st !! uk_get_metadata_ifmalloc ptr;
  Some (u64 (base + size - ptr)).

Definition uk_free_ifmalloc (st : imalloc) (ptr : Z) : option imalloc :=
  if ptr =? 0 then Some st
  else
    '(_, base) ← metadata st !! uk_get_metadata_ifmalloc ptr;
    t ← mb_free (backend st) base;
    Some (IM t (metadata st) (mem st)).

Definition uk_malloc_ifmalloc (st : imalloc) (size : Z) : option (Z * imalloc) :=
  let realsize := u64 (size + METADATA_IFMALLOC_SIZE_POW2) in
  if realsize <? size then Some (0, st)
  else
    '(ptr, t) ← mb_malloc (backend st) realsize;
    if ptr =? 0 then Some (0, IM t (metadata st) (mem st))
    else Some (u64 (ptr + METADATA_IFMALLOC_SIZE_POW2),
               IM t (<[ptr := (realsize, ptr)]> (metadata st)) (mem st)).

Definition copy_bytes (m : Z -> Z) (dst src n : Z) : Z -> Z :=
  fun a => if (dst <=? a) && (a <? dst + n) then m (src + (a - dst)) else m a.

Definition uk_realloc_ifmalloc (st : imalloc) (ptr size : Z) : option (Z * imalloc) :=
  if ptr =? 0 then uk_malloc_ifmalloc st size
  else if size =? 0 then st ← uk_free_ifmalloc st ptr; Some (0, st)
  else
    '(retptr, st) ← uk_malloc_ifmalloc st size;
    if retptr =? 0 then Some (0, st)
    else
      mallocsize ← uk_getmallocsize_ifmalloc st ptr;
      let st := IM (backend st) (metadata st) (copy_bytes (mem st) retptr ptr (Z.min size mallocsize)) in
      st ← uk_free_ifmalloc st ptr;
      Some (retptr, st).

(** Error code, the pointer stored in [*memptr] if any, state. *)
Definition uk_posix_memalign_ifmalloc (st : imalloc) (align size : Z) : option (Z * option Z * imalloc) :=
  if negb (Z.land (u64 (align - 1)) align =? 0) || (align <? sizeof_ptr) then Some (EINVAL, None, st)
  else if size =? 0 then Some (EINVAL, None, st)
  else
    let '(align, padding) :=
      if align <? METADATA_IFMALLOC_SIZE_POW2 then (METADATA_IFMALLOC_SIZE_POW2, 0)
      else (align, METADATA_IFMALLOC_SIZE_POW2) in
    let realsize := u64 (size + padding + align) in
    if realsize <? size then Some (ENOMEM, None, st)
    else
      '(intptr, t) ← mb_malloc (backend st) realsize;
      if intptr =? 0 then Some (ENOMEM, None, IM t (metadata st) (mem st))
      else
        let memptr := ALIGN_UP (u64 (intptr + METADATA_IFMALLOC_SIZE_POW2)) align in
        let md := uk_get_metadata_ifmalloc memptr in
        if negb (intptr <=? md) then None
        else Some (0, Some memptr, IM t (<[md := (realsize, intptr)]> (metadata st)) (mem st)).

(** ** Invariant *)

(** An object: pointer, size asked for, and the block behind it. *)
Record object := Obj { o_ptr : Z; o_size : Z; o_base : Z; o_real : Z }.

Record obj_ok (st : imalloc) (o : object) : Prop := {
  ob_meta : metadata st !! (o_ptr o - 16) = Some (o_real o, o_base o);
  ob_base : o_base o + 16 <= o_ptr o;
  ob_size : 0 <= o_size o;
  ob_end : o_ptr o + o_size o <= o_base o + o_real o
}.

Definition blocks_of (os : list object) : list (Z * Z) := (fun o => (o_base o, o_real o)) <$> os.

Record inv (st : imalloc) (os : list object) : Prop := {
  inv_back : mb_inv (backend st) (blocks_of os);
  inv_objs : Forall (obj_ok st) os
}.

(** Two objects and their records occupy different bytes. *)
Definition objs_apart (o1 o2 : object) : Prop :=
  o_ptr o1 + o_size o1 <= o_ptr o2 - 16 \/ o_ptr o2 + o_size o2 <= o_ptr o1 - 16.

Lemma inv_apart st os : inv st os -> pairwise objs_apart os.
Proof.
  intros [Hb Ho]. destruct (mb_blocks _ _ Hb) as [_ Hp]. clear Hb. revert Hp.
  induction Ho as [|o os Ho Hos IH]; cbn; [done|]. intros [H1 H2]. split; [|by apply IH].
  unfold blocks_of in H1. rewrite Forall_fmap in H1. rewrite Forall_forall in *. intros o' Ho'.
  specialize (H1 o' Ho'). specialize (Hos o' Ho'). destruct Ho, Hos. unfold mb_apart, objs_apart in *. cbn in *. lia.
Qed.

(** A new object, with its record, in a new block. *)
Lemma im_inv_add st os t p n ptr size :
  inv st os -> mb_inv t ((p, n) :: blocks_of os) -> p + 16 <= ptr -> 0 <= size -> ptr + size <= p + n ->
  inv (IM t (<[ptr - 16 := (n, p)]> (metadata st)) (mem st)) (Obj ptr size p n :: os).
Proof.
  intros [_ Ho] Ht H1 H2 H3. split; [done|]. destruct (mb_blocks _ _ Ht) as [_ [Hap _]].
  unfold blocks_of in Hap. rewrite Forall_fmap in Hap. constructor.
  - split; cbn; [by rewrite lookup_insert_eq|lia|lia|lia].
  - rewrite Forall_forall in *. intros o Hin. specialize (Hap o Hin). destruct (Ho o Hin) as [M1 M2 M3 M4].
    split; cbn; try done. rewrite lookup_insert_ne; [done|]. unfold mb_apart in Hap. cbn in Hap. lia.
Qed.

Lemma inv_backend st os t mm : inv st os -> mb_inv t (blocks_of os) -> inv (IM t (metadata st) mm) os.
Proof.
  intros [_ Ho] Ht. split; [done|]. rewrite Forall_forall in *. intros o Hin. destruct (Ho o Hin). by split.
Qed.

Lemma get_metadata_obj st os o : inv st os -> o ∈ os ->
  uk_get_metadata_ifmalloc (o_ptr o) = o_ptr o - 16 /\ o_ptr o <> 0 /\
  metadata st !! (o_ptr o - 16) = Some (o_real o, o_base o) /\
  uk_getmallocsize_ifmalloc st (o_ptr o) = Some (o_base o + o_real o - o_ptr o) /\
  0 < o_base o /\ o_base o + 16 <= o_ptr o /\ o_ptr o + o_size o <= o_base o + o_real o < 2 ^ 64 /\ 0 <= o_size o.
Proof.
  intros [Hb Ho] Hin. rewrite Forall_forall in Ho. destruct (Ho o Hin) as [M1 M2 M3 M4].
  destruct (mb_blocks _ _ Hb) as [Hok _]. unfold blocks_of in Hok. rewrite Forall_fmap, Forall_forall in Hok.
  destruct (Hok o Hin) as (B1 & B2 & B3 & B4). cbn in *.
  assert (Hmd : uk_get_metadata_ifmalloc (o_ptr o) = o_ptr o - 16)
    by (unfold uk_get_metadata_ifmalloc, METADATA_IFMALLOC_SIZE_POW2; apply wrap_small; unfold in_u; lia).
  split; [done|]. split; [lia|]. split; [done|]. split; [|lia].
  unfold uk_getmallocsize_ifmalloc. rewrite Hmd, M1. cbn. f_equal. apply wrap_small. unfold in_u. lia.
Qed.

Lemma im_malloc_ok st os size :
  inv st os -> 0 <= size -> size + 16 < 2 ^ 64 ->
  exists ptr st', uk_malloc_ifmalloc st size = Some (ptr, st') /\ mem st' = mem st /\
    (ptr = 0 /\ inv st' os \/
     ptr <> 0 /\ (16 | ptr) /\ exists base, inv st' (Obj ptr size base (size + 16) :: os)).
Proof.
  intros I Hs Hb. unfold uk_malloc_ifmalloc, METADATA_IFMALLOC_SIZE_POW2.
  rewrite wrap_small by (unfold in_u; lia). destruct (Z.ltb_spec (size + 16) size); [lia|].
  destruct (mb_malloc_spec _ _ (size + 16) (inv_back _ _ I) ltac:(lia)) as (p & t & -> & Hres). cbn [mbind option_bind].
  destruct (Z.eqb_spec p 0) as [->|Hp].
  - destruct Hres as [[_ Hr]|[? _]]; [|done]. eexists _, _. split; [done|]. split; [done|]. left. split; [done|].
    by apply inv_backend.
  - destruct Hres as [[? _]|[_ Hr]]; [done|]. destruct (mb_blocks _ _ Hr) as [Hok _].
    apply Forall_cons in Hok as [(B1 & B2 & B3 & B4) _]. cbn in B1, B2, B3, B4.
    rewrite wrap_small by (unfold in_u; lia). eexists _, _. split; [done|]. split; [done|]. right.
    split; [lia|]. split; [by apply Z.divide_add_r; [done|exists 1]|]. exists p.
    pose proof (im_inv_add st os t p (size + 16) (p + 16) size I Hr) as Ha.
    replace (p + 16 - 16) with p in Ha by lia. apply Ha; lia.
Qed.

Lemma im_free_ok st l1 o l2 :
  inv st (l1 ++ o :: l2) ->
  exists st', uk_free_ifmalloc st (o_ptr o) = Some st' /\ inv st' (l1 ++ l2) /\ mem st' = mem st.
Proof.
  intros I. destruct (get_metadata_obj _ _ o I) as (H1 & H2 & H3 & _).
  { apply elem_of_app. right. apply list_elem_of_here. }
  unfold uk_free_ifmalloc. destruct (Z.eqb_spec (o_ptr o) 0); [done|]. rewrite H1, H3. cbn [mbind option_bind].
  pose proof (inv_back _ _ I) as Hb. unfold blocks_of in Hb. rewrite fmap_app, fmap_cons in Hb.
  destruct (mb_free_spec _ _ _ _ _ Hb) as (t & -> & Ht). cbn [mbind option_bind]. eexists. split; [done|].
  split; [|done]. rewrite <- fmap_app in Ht. split; [done|].
  pose proof (inv_objs _ _ I) as Ho. rewrite Forall_app, Forall_cons in Ho. destruct Ho as (Ho1 & _ & Ho2).
  assert (Hall : Forall (obj_ok st) (l1 ++ l2)) by (apply Forall_app; done).
  rewrite Forall_forall in *. intros o' Hin. destruct (Hall o' Hin). by split.
Qed.

Definition same_bytes (m m' : Z -> Z) (p p' n : Z) : Prop := forall i, 0 <= i < n -> m' (p' + i) = m (p + i).

(** The copy stays inside the new object, so it reads and keeps the bytes of all others. *)
Lemma copy_bytes_spec m dst src n : same_bytes m (copy_bytes m dst src n) src dst n.
Proof.
  intros i Hi. unfold copy_bytes. destruct (Z.leb_spec dst (dst + i)), (Z.ltb_spec (dst + i) (dst + n)); try lia.
  cbn. f_equal. lia.
Qed.

Lemma copy_bytes_frame m dst src n p k :
  dst + n <= p \/ p + k <= dst -> same_bytes m (copy_bytes m dst src n) p p k.
Proof.
  intros Hap i Hi. unfold copy_bytes. destruct (Z.leb_spec dst (p + i)), (Z.ltb_spec (p + i) (dst + n)); cbn; (done || lia).
Qed.

Lemma im_realloc_ok st l1 o l2 size :
  inv st (l1 ++ o :: l2) -> 0 < size -> size + 16 < 2 ^ 64 ->
  exists ret st', uk_realloc_ifmalloc st (o_ptr o) size = Some (ret, st') /\
    (ret = 0 /\ inv st' (l1 ++ o :: l2) /\ mem st' = mem st \/
     ret <> 0 /\ (16 | ret) /\ (exists base, inv st' (Obj ret size base (size + 16) :: l1 ++ l2)) /\
     same_bytes (mem st) (mem st') (o_ptr o) ret (Z.min size (o_size o)) /\
     Forall (fun o' => same_bytes (mem st) (mem st') (o_ptr o') (o_ptr o') (o_size o')) (l1 ++ l2)).
Proof.
  intros I Hs Hb. assert (Hin : o ∈ l1 ++ o :: l2) by (apply elem_of_app; right; apply list_elem_of_here).
  destruct (get_metadata_obj _ _ o I Hin) as (_ & Hp0 & _ & _ & _).
  unfold uk_realloc_ifmalloc. destruct (Z.eqb_spec (o_ptr o) 0) as [|_]; [done|].
  destruct (Z.eqb_spec size 0) as [|_]; [lia|].
  destruct (im_malloc_ok st _ size I ltac:(lia) Hb) as (ret & st1 & -> & Hm1 & Hres). cbn [mbind option_bind].
  destruct (Z.eqb_spec ret 0) as [->|Hr].
  { destruct Hres as [[_ I1]|[? _]]; [|done]. exists 0, st1. split; [done|]. left. done. }
  destruct Hres as [[? _]|(_ & Hal & base & I1)]; [done|]. set (new := Obj ret size base (size + 16)) in *.
  assert (Hin1 : o ∈ new :: l1 ++ o :: l2) by by apply list_elem_of_further.
  destruct (get_metadata_obj _ _ o I1 Hin1) as (_ & _ & _ & Hms & _ & _ & He & Hz). rewrite Hms. cbn [mbind option_bind].
  set (n := Z.min size (o_base o + o_real o - o_ptr o)).
  set (st2 := IM (backend st1) (metadata st1) (copy_bytes (mem st1) ret (o_ptr o) n)).
  assert (I2 : inv st2 ((new :: l1) ++ o :: l2)) by (apply inv_backend; [done|apply (inv_back _ _ I1)]).
  destruct (im_free_ok st2 (new :: l1) o l2 I2) as (st3 & -> & I3 & Hm3). cbn [mbind option_bind].
  exists ret, st3. split; [done|]. right. split; [done|]. split; [done|]. split; [by exists base|].
  rewrite Hm3. unfold st2. cbn [mem]. rewrite Hm1. pose proof (inv_apart _ _ I1) as [Hap _].
  rewrite Forall_forall in Hap. split.
  - intros i Hi. apply copy_bytes_spec. unfold n. lia.
  - apply Forall_forall. intros o' Ho'. apply copy_bytes_frame.
    assert (Ho1 : o' ∈ l1 ++ o :: l2) by (apply elem_of_app in Ho' as [?|?]; apply elem_of_app; [by left|right; by apply list_elem_of_further]).
    specialize (Hap o' Ho1). unfold objs_apart in Hap. cbn [o_ptr o_size new] in Hap. unfold n.
    destruct (get_metadata_obj _ _ o' I Ho1) as (_ & _ & _ & _ & _ & _ & _ & ?). lia.
Qed.

Lemma im_memalign_ok st os k size :
  inv st os -> 3 <= k < 62 -> 0 < size -> size + 16 + 2 ^ k + 16 < 2 ^ 64 ->
  exists e r st', uk_posix_memalign_ifmalloc st (2 ^ k) size = Some (e, r, st') /\ mem st' = mem st /\
    (e = ENOMEM /\ r = None /\ inv st' os \/
     e = 0 /\ exists ptr base real, r = Some ptr /\ (2 ^ k | ptr) /\ inv st' (Obj ptr size base real :: os)).
Proof.
  intros I Hk Hs Hb. unfold uk_posix_memalign_ifmalloc. pose proof (pow2_pos k ltac:(lia)) as Hpk.
  pose proof (Z.pow_le_mono_r 2 3 k) as Hk8. pose proof (Z.pow_le_mono_r 2 k 61) as Hk61.
  rewrite (wrap_small 64 (2 ^ k - 1)) by (unfold in_u; lia).
  rewrite Z.land_comm, land_mask, Z.mod_same by lia. cbn [negb Z.eqb orb].
  unfold sizeof_ptr. destruct (Z.ltb_spec (2 ^ k) 8); [lia|]. destruct (Z.eqb_spec size 0) as [|_]; [lia|].
  unfold METADATA_IFMALLOC_SIZE_POW2.
  set (a := Z.max 4 k). set (padding := if 2 ^ k <? 16 then 0 else 16).
  assert (Ha : (if 2 ^ k <? 16 then (16, 0) else (2 ^ k, 16)) = (2 ^ a, padding)).
  { unfold padding, a. destruct (Z.ltb_spec (2 ^ k) 16) as [Hlt|Hge].
    - assert (k < 4) by (apply (Z.pow_lt_mono_r_iff 2); lia). by rewrite Z.max_l by lia.
    - assert (4 <= k) by (apply (Z.pow_le_mono_r_iff 2); lia). by rewrite Z.max_r by lia. }
  rewrite Ha. assert (Hak : 4 <= a < 62 /\ k <= a) by (unfold a; lia).
  assert (Hpa : 2 ^ a <= 2 ^ k + 8).
  { unfold a. destruct (Z.le_gt_cases 4 k); [rewrite Z.max_r by lia; lia|]. rewrite Z.max_l by lia.
    assert (k = 3) as -> by lia. lia. }
  assert (Hpad : 0 <= padding <= 16 /\ (padding = 0 -> 2 ^ a = 16)).
  { unfold padding. destruct (Z.ltb_spec (2 ^ k) 16); [|lia]. split; [lia|]. intros _.
    assert (k < 4) by (apply (Z.pow_lt_mono_r_iff 2); lia). unfold a. by rewrite Z.max_l by lia. }
  assert (Hpad2 : padding = 0 \/ padding = 16) by (unfold padding; destruct (2 ^ k <? 16); auto).
  pose proof (pow2_pos a ltac:(lia)) as Hpa0.
  rewrite (wrap_small 64 (size + padding + 2 ^ a)) by (unfold in_u; lia).
  set (real := size + padding + 2 ^ a). destruct (Z.ltb_spec real size); [lia|].
  destruct (mb_malloc_spec _ _ real (inv_back _ _ I) ltac:(lia)) as (p & t & -> & Hres). cbn [mbind option_bind].
  destruct (Z.eqb_spec p 0) as [->|Hp].
  { destruct Hres as [[_ Hr]|[? _]]; [|done]. eexists _, _, _. split; [done|]. split; [done|]. left.
    split; [done|]. split; [done|]. by apply inv_backend. }
  destruct Hres as [[? _]|[_ Hr]]; [done|]. destruct (mb_blocks _ _ Hr) as [Hok _].
  apply Forall_cons in Hok as [(B1 & B2 & B3 & B4) _]. cbn in B1, B2, B3, B4.
  rewrite (wrap_small 64 (p + 16)) by (unfold in_u; lia).
  assert (Hfits : p + 16 + 2 ^ a <= 2 ^ 64).
  { destruct Hpad2 as [E|E]; [|unfold real in *; lia]. destruct Hpad as [_ Hpad]. specialize (Hpad E).
    destruct B2 as [q Hq]. unfold real in *. lia. }
  destruct (ALIGN_UP_bounds a (p + 16)) as [Hup Hdiv]; [lia|lia|lia|]. set (ptr := ALIGN_UP (p + 16) (2 ^ a)) in *.
  assert (Hend : ptr + size <= p + real).
  { destruct Hpad2 as [E|E]; [|unfold real; lia]. destruct Hpad as [_ Hpad]. specialize (Hpad E).
    destruct B2 as [q Hq]. destruct Hdiv as [q' Hq']. rewrite Hpad in Hup, Hq'. unfold real. lia. }
  unfold uk_get_metadata_ifmalloc, METADATA_IFMALLOC_SIZE_POW2.
  rewrite (wrap_small 64 (ptr - 16)) by (unfold in_u; lia).
  destruct (Z.leb_spec p (ptr - 16)); [|lia]. cbn [negb]. eexists _, _, _. split; [done|]. split; [done|]. right.
  split; [done|]. exists ptr, p, real. split; [done|]. split.
  - apply (Z.divide_trans _ (2 ^ a)); [|done]. exists (2 ^ (a - k)). rewrite <- Z.pow_add_r by lia. f_equal. lia.
  - apply im_inv_add; (done || lia).
Qed.
End Ops.

(** C37: on every backend that meets the interface, [malloc], [free], [realloc] and
    [posix_memalign] keep the objects of a client apart (records included), hand out memory
    aligned to 16 bytes and to the alignment asked for, report failure with NULL or ENOMEM
    without disturbing anything, and [realloc] keeps the contents of the object it moves and of
    all others. *)
Theorem ifmalloc_correct {T} `{MallocBackend T} (st : imalloc) os :
  inv st os ->
  pairwise objs_apart os /\
  (forall size, 0 <= size -> size + 16 < 2 ^ 64 ->
     exists ptr st', uk_malloc_ifmalloc st size = Some (ptr, st') /\ mem st' = mem st /\
       (ptr = 0 /\ inv st' os \/
        ptr <> 0 /\ (16 | ptr) /\ exists base, inv st' (Obj ptr size base (size + 16) :: os))) /\
  (forall k size, 3 <= k < 62 -> 0 < size -> size + 16 + 2 ^ k + 16 < 2 ^ 64 ->
     exists e r st', uk_posix_memalign_ifmalloc st (2 ^ k) size = Some (e, r, st') /\ mem st' = mem st /\
       (e = ENOMEM /\ r = None /\ inv st' os \/
        e = 0 /\ exists ptr base real, r = Some ptr /\ (2 ^ k | ptr) /\ inv st' (Obj ptr size base real :: os))) /\
  (forall l1 o l2, os = l1 ++ o :: l2 ->
     (exists st', uk_free_ifmalloc st (o_ptr o) = Some st' /\ inv st' (l1 ++ l2) /\ mem st' = mem st) /\
     (forall size, 0 < size -> size + 16 < 2 ^ 64 ->
        exists ret st', uk_realloc_ifmalloc st (o_ptr o) size = Some (ret, st') /\
          (ret = 0 /\ inv st' (l1 ++ o :: l2) /\ mem st' = mem st \/
           ret <> 0 /\ (16 | ret) /\ (exists base, inv st' (Obj ret size base (size + 16) :: l1 ++ l2)) /\
           same_bytes (mem st) (mem st') (o_ptr o) ret (Z.min size (o_size o)) /\
           Forall (fun o' => same_bytes (mem st) (mem st') (o_ptr o') (o_ptr o') (o_size o')) (l1 ++ l2)))).
Proof.
  intros I. split; [by eapply inv_apart|]. split; [intros; by apply im_malloc_ok|].
  split; [intros; by apply im_memalign_ok|]. intros l1 o l2 ->. split; [by apply im_free_ok|].
  intros. by apply im_realloc_ok.
Qed.

(** ** A backend: a bump allocator that never reuses memory *)

Definition bump : Type := Z.

Definition bump_malloc (t : bump) (n : Z) : option (Z * bump) :=
  let t' := t + 16 * ((n + 15) / 16) in if t' <=? 2 ^ 32 then Some (t, t') else Some (0, t).

Definition bump_inv (t : bump) (bs : list (Z * Z)) : Prop :=
  0 < t <= 2 ^ 32 /\ (16 | t) /\ Forall mb_block_ok bs /\ pairwise mb_apart bs /\
  Forall (fun b => b.1 + b.2 <= t) bs.

#[export, refine] Instance bump_backend : MallocBackend bump := {|
  mb_inv := bump_inv; mb_malloc := bump_malloc; mb_free := fun t _ => Some t |}.
Proof.
  - intros t bs n (Ht & Hd & Hok & Hap & Hle) Hn. unfold bump_malloc.
    pose proof (Z.div_mod (n + 15) 16 ltac:(lia)). pose proof (Z.mod_pos_bound (n + 15) 16 ltac:(lia)).
    destruct (Z.leb_spec (t + 16 * ((n + 15) / 16)) (2 ^ 32)); eexists _, _; (split; [done|]).
    + right. split; [lia|]. split; [lia|]. split; [apply Z.divide_add_r; [done|apply Z.divide_factor_l]|].
      split; [constructor; [|done]|split; [split; [|done]|constructor; cbn; [lia|]]].
      * split; cbn; [lia|]. split; [done|lia].
      * eapply Forall_impl; [exact Hle|]. intros b Hb. cbn in Hb. unfold mb_apart. cbn. lia.
      * eapply Forall_impl; [exact Hle|]. cbn. lia.
    + left. done.
  - intros t bs1 p n bs2 (Ht & Hd & Hok & Hap & Hle). exists t. split; [done|].
    rewrite Forall_app, Forall_cons in Hok, Hle. destruct Hok as (O1 & _ & O2), Hle as (L1 & _ & L2).
    split; [done|]. split; [done|]. split; [apply Forall_app; done|]. split; [|apply Forall_app; done].
    apply (pairwise_remove mb_apart bs1 (p, n) bs2); [|done]. intros x y [?|?]; [by right|by left].
  - intros t bs (Ht & Hd & Hok & Hap & Hle). done.
Defined.

Lemma ifmalloc_correct_witness :
  exists ptr st', uk_malloc_ifmalloc (T := bump) (IM 4096 ∅ (fun _ => 0)) 100 = Some (ptr, st').
Proof.
  destruct (ifmalloc_correct (T := bump) (IM 4096 ∅ (fun _ => 0)) []) as (_ & Hm & _).
  - split; [|constructor]. split; [cbn; lia|]. split; [exists 256; reflexivity|]. repeat constructor.
  - destruct (Hm 100) as (ptr & st' & H1 & _); [lia|lia|]. exists ptr, st'. exact H1.
Defined.
End IfMalloc.
