(* ===== verification/Mem.v ===== *)
(** * Mem: byte-addressed memory

    The memory the string functions of [lib/nolibc/string.c] work on: mapped addresses hold
    bytes, an access to an unmapped address is [None].  Words are eight bytes, little endian.
    The lemma behind the word-at-a-time loops, [haszero_spec], says that musl's HASZERO test
    is exact. *)
From Stdlib Require Import ZArith Lia Bool.
From stdpp Require Import gmap.
From S2P Require Import Prelude.
Open Scope Z_scope.

Abbreviation mem := (gmap Z Z).

Definition load8 (m : mem) (a : Z) : option Z := m !! a.
Definition store8 (m : mem) (a v : Z) : option mem := _ ← m !! a; Some (<[a := u8 v]> m).

Fixpoint load_bytes (m : mem) (a : Z) (n : nat) : option (list Z) :=
  match n with
  | O => Some []
  | S n' => b ← load8 m a; bs ← load_bytes m (a + 1) n'; Some (b :: bs)
  end.

(** Little-endian value of a list of bytes. *)
Fixpoint le (bs : list Z) : Z := match bs with [] => 0 | b :: bs' => b + 256 * le bs' end.

Definition load64 (m : mem) (a : Z) : option Z := bs ← load_bytes m a 8; Some (le bs).

Fixpoint store_le (m : mem) (a w : Z) (n : nat) : option mem :=
  match n with
  | O => Some m
  | S n' => m ← store8 m a (w mod 256); store_le m (a + 1) (w / 256) n'
  end.

Definition store64 (m : mem) (a w : Z) : option mem := store_le m a w 8.

(** ** Contents *)

Definition byte (x : Z) : Prop := 0 <= x < 256.

(** [l] is in memory from [a] on. *)
Definition bytes_at (m : mem) (a : Z) (l : list Z) : Prop :=
  forall (i : nat) x, l !! i = Some x -> m !! (a + Z.of_nat i) = Some x.

(** [l] is the C string at [s]. *)
Record cstr (m : mem) (s : Z) (l : list Z) : Prop := {
  cs_bytes : bytes_at m s l;
  cs_nul : m !! (s + zlen l) = Some 0;
  cs_chars : Forall (fun x => 0 < x < 256) l
}.

Lemma bytes_at_cons m a x l :
  bytes_at m a (x :: l) <-> m !! a = Some x /\ bytes_at m (a + 1) l.
Proof.
  split.
  - intros H. split; [rewrite <- (Z.add_0_r a); by apply (H 0%nat)|].
    intros i y Hi. replace (a + 1 + Z.of_nat i) with (a + Z.of_nat (S i)) by lia. by apply H.
  - intros [H1 H2] [|i] y Hi; cbn in Hi; [simplify_eq; by rewrite Z.add_0_r|].
    replace (a + Z.of_nat (S i)) with (a + 1 + Z.of_nat i) by lia. by apply H2.
Qed.

Lemma bytes_at_app m a l1 l2 :
  bytes_at m a (l1 ++ l2) <-> bytes_at m a l1 /\ bytes_at m (a + zlen l1) l2.
Proof.
  revert a. induction l1 as [|x l1 IH]; intros a; cbn [app length].
  - rewrite Z.add_0_r. split; [|tauto]. intros H. split; [by intros i y Hi|done].
  - rewrite !bytes_at_cons, IH. replace (a + Z.of_nat (S (length l1))) with (a + 1 + zlen l1) by lia. tauto.
Qed.

Lemma cstr_cons m s x l :
  cstr m s (x :: l) <-> m !! s = Some x /\ 0 < x < 256 /\ cstr m (s + 1) l.
Proof.
  split.
  - intros [H1 H2 H3]. apply bytes_at_cons in H1 as [H1 H1']. apply Forall_cons in H3 as [H3 H3'].
    split; [done|]. split; [done|]. split; try done. rewrite <- H2. f_equal. cbn. lia.
  - intros (H1 & H2 & [H3 H4 H5]). split; [by apply bytes_at_cons| |by constructor].
    rewrite <- H4. f_equal. cbn. lia.
Qed.

Lemma cstr_nil m s : cstr m s [] <-> m !! s = Some 0.
Proof.
  split; [intros [_ H _]; cbn in H; by rewrite Z.add_0_r in H|].
  intros H. split; [by intros i x Hi|cbn; by rewrite Z.add_0_r|constructor].
Qed.

Lemma cstr_app m s l1 l2 : cstr m s (l1 ++ l2) -> cstr m (s + zlen l1) l2.
Proof.
  revert s. induction l1 as [|x l1 IH]; intros s; cbn [app length]; [by rewrite Z.add_0_r|].
  rewrite cstr_cons. intros (_ & _ & H). replace (s + Z.of_nat (S (length l1))) with (s + 1 + zlen l1) by lia.
  by apply IH.
Qed.

(** ** Words as bytes *)

Lemma le_range bs : Forall byte bs -> 0 <= le bs < 256 ^ zlen bs.
Proof.
  induction 1 as [|b bs Hb Hbs IH]; cbn [le length]; [lia|].
  rewrite Nat2Z.inj_succ, Z.pow_succ_r by lia. unfold byte in Hb. lia.
Qed.

(** Bits of [r + 256 t], for any [t]. *)
Lemma testbit_byte r t j :
  0 <= r < 256 -> 0 <= j ->
  Z.testbit (r + 256 * t) j = if j <? 8 then Z.testbit r j else Z.testbit t (j - 8).
Proof.
  intros Hr Hj. change 256 with (2 ^ 8). rewrite (Z.mul_comm (2 ^ 8)), <- Z.shiftl_mul_pow2 by lia.
  rewrite Z.add_nocarry_lxor.
  - rewrite Z.lxor_spec. case_test.
    + rewrite (Z.shiftl_spec_low t) by lia. apply xorb_false_r.
    + rewrite Z.shiftl_spec by lia. by rewrite (in_u_testbit 8 r j) by (unfold in_u; lia).
  - apply Z.bits_inj'. intros k Hk. rewrite Z.land_spec, Z.bits_0.
    destruct (Z.ltb_spec k 8); [rewrite (Z.shiftl_spec_low t) by lia; apply andb_false_r|].
    by rewrite (in_u_testbit 8 r k) by (unfold in_u; lia).
Qed.

Lemma byte_split_eq r t r' t' :
  0 <= r < 256 -> 0 <= r' < 256 -> r + 256 * t = r' + 256 * t' -> r = r' /\ t = t'.
Proof. lia. Qed.

(** A bitwise operation acts on the low byte and on the rest separately. *)
Lemma bitop_byte (op : Z -> Z -> Z) (f : bool -> bool -> bool) a b t u :
  (forall x y j, Z.testbit (op x y) j = f (Z.testbit x j) (Z.testbit y j)) ->
  0 <= a < 256 -> 0 <= b < 256 -> 0 <= op a b < 256 ->
  op (a + 256 * t) (b + 256 * u) = op a b + 256 * op t u.
Proof.
  intros Hop Ha Hb Hab. apply Z.bits_inj'. intros j Hj.
  rewrite Hop, !testbit_byte, !Hop by done. by case_test.
Qed.

(** ** HASZERO *)

Definition ONES : Z := (2 ^ 64 - 1) / 255.
Definition HIGHS : Z := u64 (ONES * (255 / 2 + 1)).
Definition HASZERO (x : Z) : Z := Z.land (Z.land (u64 (x - ONES)) (lnotw 64 x)) HIGHS.

Fixpoint ones (n : nat) : Z := match n with O => 0 | S n' => 1 + 256 * ones n' end.
Fixpoint highs (n : nat) : Z := match n with O => 0 | S n' => 128 + 256 * highs n' end.

(** The test without the limit to 64 bits, on any number of bytes. *)
Definition hz (bs : list Z) : Z :=
  Z.land (Z.land (le bs - ones (length bs)) (Z.lnot (le bs))) (highs (length bs)).

Lemma lnot_byte b t : Z.lnot (b + 256 * t) = (255 - b) + 256 * Z.lnot t.
Proof. unfold Z.lnot. lia. Qed.

Lemma land_byte_range a b : 0 <= a < 256 -> 0 <= b < 256 -> 0 <= Z.land a b < 256.
Proof.
  intros Ha Hb. assert (in_u 8 (Z.land a b)); [|done]. apply in_u_bits; [lia|apply Z.land_nonneg; lia|].
  intros i Hi. by rewrite Z.land_spec, (in_u_testbit 8 a i) by (unfold in_u; lia).
Qed.

(** A nonzero byte contributes nothing to the test. *)
Lemma byte_test_zero b : 1 <= b < 256 -> Z.land (Z.land (b - 1) (255 - b)) 128 = 0.
Proof.
  intros Hb. apply Z.bits_inj'. intros j Hj. rewrite !Z.land_spec, Z.bits_0.
  change 128 with (2 ^ 7). rewrite Z.pow2_bits_eqb by lia.
  destruct (Z.eqb_spec 7 j) as [<-|]; [|apply andb_false_r]. rewrite andb_true_r.
  rewrite !Z.testbit_odd, !Z.shiftr_div_pow2 by lia. change (2 ^ 7) with 128.
  destruct (Z.ltb_spec b 129).
  - replace ((b - 1) / 128) with 0 by (symmetry; apply Z.div_small; lia). done.
  - replace ((255 - b) / 128) with 0 by (symmetry; apply Z.div_small; lia). apply andb_false_r.
Qed.

(** The test on a list of bytes is zero exactly when no byte is. *)
Lemma hz_spec bs : Forall byte bs -> hz bs = 0 <-> Forall (fun b => b <> 0) bs.
Proof.
  induction 1 as [|b bs Hb Hbs IH]; [by split|]. unfold byte in Hb. rewrite Forall_cons.
  destruct (decide (b = 0)) as [->|Hne].
  - split; [|by intros [? _]]. intros Hz. exfalso.
    apply (f_equal (fun z => Z.testbit z 7)) in Hz. rewrite Z.bits_0 in Hz. unfold hz in Hz.
    cbn [le ones highs length] in Hz. rewrite !Z.land_spec in Hz.
    replace (0 + 256 * le bs - (1 + 256 * ones (length bs)))
      with (255 + 256 * (le bs - ones (length bs) - 1)) in Hz by lia.
    rewrite lnot_byte, !testbit_byte in Hz by lia. done.
  - assert (E : hz (b :: bs) = 256 * hz bs).
    { unfold hz. cbn [le ones highs length].
      replace (b + 256 * le bs - (1 + 256 * ones (length bs)))
        with ((b - 1) + 256 * (le bs - ones (length bs))) by lia.
      rewrite lnot_byte. pose proof (land_byte_range (b - 1) (255 - b)).
      rewrite (bitop_byte Z.land andb), (bitop_byte Z.land andb); try lia;
        try (intros; apply Z.land_spec).
      - by rewrite byte_test_zero by lia.
      - by rewrite byte_test_zero by lia. }
    rewrite E. rewrite <- IH. split; [intros; split; [done|lia]|intros [_ ->]; done].
Qed.

(** On a 64-bit word HASZERO is this test. *)
Lemma haszero_hz bs : length bs = 8%nat -> HASZERO (le bs) = hz bs.
Proof.
  intros Hl. unfold HASZERO, hz. rewrite Hl. change (ones 8) with ONES. change (highs 8) with HIGHS.
  apply Z.bits_inj'. intros j Hj. unfold lnotw.
  rewrite !Z.land_spec, !wrap_testbit by lia.
  destruct (Z.ltb_spec j 64); [done|]. cbn. symmetry.
  rewrite (in_u_testbit 64 HIGHS j) by (done || lia). apply andb_false_r.
Qed.

Lemma haszero_spec bs :
  length bs = 8%nat -> Forall byte bs -> HASZERO (le bs) = 0 <-> Forall (fun b => b <> 0) bs.
Proof. intros Hl Hb. rewrite haszero_hz by done. by apply hz_spec. Qed.

(** Exclusive or with the byte [c] repeated. *)
Lemma le_xor c bs :
  byte c -> Forall byte bs ->
  Z.lxor (le bs) (c * ones (length bs)) = le (Z.lxor c <$> bs) /\ Forall byte (Z.lxor c <$> bs).
Proof.
  intros Hc. assert (Hx : forall b, byte b -> byte (Z.lxor c b)).
  { intros b Hb. unfold byte in *. assert (in_u 8 (Z.lxor c b)) by (apply in_u_lxor; unfold in_u; lia). done. }
  induction 1 as [|b bs Hb Hbs [IH1 IH2]]; cbn [le ones length fmap list_fmap].
  { split; [by rewrite Z.mul_0_r|constructor]. }
  split; [|constructor; [by apply Hx|done]].
  replace (c * (1 + 256 * ones (length bs))) with (c + 256 * (c * ones (length bs))) by lia.
  rewrite (bitop_byte Z.lxor xorb); [|intros; apply Z.lxor_spec|done|done|rewrite Z.lxor_comm; by apply Hx].
  by rewrite IH1, Z.lxor_comm.
Qed.

Lemma load_bytes_Some m a n :
  (forall i, 0 <= i < Z.of_nat n -> is_Some (m !! (a + i))) ->
  exists bs, load_bytes m a n = Some bs /\ length bs = n /\ bytes_at m a bs.
Proof.
  revert a. induction n as [|n IH]; intros a Hm; cbn [load_bytes].
  { exists []. split; [done|]. split; [done|]. by intros i x Hi. }
  destruct (Hm 0) as [b Hb]; [lia|]. rewrite Z.add_0_r in Hb. unfold load8. rewrite Hb. cbn.
  destruct (IH (a + 1)) as (bs & -> & Hl & Hat).
  { intros i Hi. replace (a + 1 + i) with (a + (i + 1)) by lia. apply Hm. lia. }
  cbn. exists (b :: bs). split; [done|]. split; [cbn; lia|]. by apply bytes_at_cons.
Qed.

(** Every mapped byte is a byte. *)
Definition bytes_ok (m : mem) : Prop := forall a x, m !! a = Some x -> byte x.

Lemma bytes_at_ok m a l : bytes_ok m -> bytes_at m a l -> Forall byte l.
Proof.
  intros Hm Hat. apply Forall_lookup. intros i x Hi. eapply Hm. by apply Hat.
Qed.

(** ** Strings under writes *)

Lemma cstr_agree m m' s l :
  cstr m s l -> (forall a, s <= a <= s + zlen l -> m' !! a = m !! a) -> cstr m' s l.
Proof.
  intros [H1 H2 H3] Hag. split; [| |done].
  - intros i x Hi. rewrite Hag by (apply lookup_lt_Some in Hi; lia). by apply H1.
  - rewrite Hag by lia. done.
Qed.

(** Writing a terminator at position [k] leaves the first [k] characters. *)
Lemma cstr_truncate m s l (k : nat) :
  cstr m s l -> (k <= length l)%nat -> cstr (<[s + Z.of_nat k := 0]> m) s (take k l).
Proof.
  intros [H1 H2 H3] Hk. split.
  - intros i x Hi. pose proof (lookup_lt_Some _ _ _ Hi) as Hlt. rewrite length_take in Hlt.
    rewrite lookup_take_lt in Hi by lia. rewrite lookup_insert_ne by lia. by apply H1.
  - rewrite length_take. replace (Z.of_nat (k `min` length l)) with (Z.of_nat k) by lia.
    apply lookup_insert_eq.
  - by apply Forall_take.
Qed.

Lemma bytes_ok_insert m a x : bytes_ok m -> byte x -> bytes_ok (<[a := x]> m).
Proof.
  intros Hm Hx a' y. destruct (decide (a' = a)) as [->|]; [rewrite lookup_insert_eq; by intros [= <-]|].
  rewrite lookup_insert_ne by done. apply Hm.
Qed.

Lemma cstr_lookup m s l i x : cstr m s l -> l !! i = Some x -> m !! (s + Z.of_nat i) = Some x.
Proof. intros [H _ _]. apply H. Qed.

Lemma load_bytes_at m a bs : bytes_at m a bs -> load_bytes m a (length bs) = Some bs.
Proof.
  revert a. induction bs as [|b bs IH]; intros a H; cbn; [done|]. apply bytes_at_cons in H as [H1 H2]. unfold load8. rewrite H1. cbn. by rewrite (IH _ H2).
Qed.
