(* ===== verification/NolibcString.v ===== *)
(** * NolibcString: the string functions of nolibc

    Models [lib/nolibc/string.c] on the memory of [Mem].  A loop that ends at a terminating
    zero takes a fuel argument: [None] also means that the fuel ran out, and the theorems say
    how much is enough.  [char] is signed, as on x86 and with the default flags. *)
From Stdlib Require Import ZArith Lia Bool.
From stdpp Require Import gmap.
From S2P Require Import Prelude Mem.
Open Scope Z_scope.

Module Nolibc.

Definition SIZE_MAX : Z := 2 ^ 64 - 1.
Definition schar (x : Z) : Z := sext 8 x.

(** ** Memory blocks *)

(** [for (p = 0; p < len; ++p) dst[p] = src[p];] for [k] rounds from [p]. *)
Fixpoint memcpy_loop (k : nat) (m : mem) (dst src p : Z) : option mem :=
  match k with
  | O => Some m
  | S k' =>
      b ← load8 m (src + p);
      m ← store8 m (dst + p) b;
      memcpy_loop k' m dst src (p + 1)
  end.

Definition memcpy (m : mem) (dst src len : Z) : option mem :=
  memcpy_loop (Z.to_nat len) m dst src 0.

Fixpoint memset_loop (k : nat) (m : mem) (p val : Z) : option mem :=
  match k with
  | O => Some m
  | S k' => m ← store8 m p val; memset_loop k' m (p + 1) val
  end.

Definition memset (m : mem) (ptr val len : Z) : option mem := memset_loop (Z.to_nat len) m ptr val.

(** [Some None]: not found. *)
Fixpoint memchr_loop (fuel : nat) (m : mem) (ptr o val len : Z) : option (option Z) :=
  if o <? len then
    match fuel with
    | O => None
    | S fuel' =>
        b ← load8 m (ptr + o);
        if b =? u8 val then Some (Some (ptr + o)) else memchr_loop fuel' m ptr (o + 1) val len
    end
  else Some None.

Definition memchr (fuel : nat) (m : mem) (ptr val len : Z) : option (option Z) :=
  memchr_loop fuel m ptr 0 val len.

(** [while (n--) if (s[n] == c) return s + n;] *)
Fixpoint memrchr_loop (n : nat) (m : mem) (s c : Z) : option (option Z) :=
  match n with
  | O => Some None
  | S n' =>
      b ← load8 m (s + Z.of_nat n');
      if b =? c then Some (Some (s + Z.of_nat n')) else memrchr_loop n' m s c
  end.

Definition memrchr (m : mem) (s c n : Z) : option (option Z) := memrchr_loop (Z.to_nat n) m s (u8 c).

(** [*(d++) = *(s++)] upwards, [*(d--) = *(s--)] downwards. *)
Fixpoint move_loop (k : nat) (m : mem) (d s step : Z) : option mem :=
  match k with
  | O => Some m
  | S k' =>
      b ← load8 m s;
      m ← store8 m d b;
      move_loop k' m (d + step) (s + step) step
  end.

Definition memmove (m : mem) (dst src len : Z) : option mem :=
  if dst <? src then move_loop (Z.to_nat len) m dst src 1
  else move_loop (Z.to_nat len) m (dst + len) (src + len) (-1).

Fixpoint memcmp_loop (k : nat) (m : mem) (c1 c2 : Z) : option Z :=
  match k with
  | O => Some 0
  | S k' =>
      a ← load8 m c1;
      b ← load8 m c2;
      if negb (a =? b) then Some (a - b) else memcmp_loop k' m (c1 + 1) (c2 + 1)
  end.

Definition memcmp (m : mem) (ptr1 ptr2 len : Z) : option Z := memcmp_loop (Z.to_nat len) m ptr1 ptr2.

(** ** Strings *)

Definition strnlen (fuel : nat) (m : mem) (str len : Z) : option Z :=
  p ← memchr fuel m str 0 len;
  Some (match p with Some p => p - str | None => len end).

Definition strlen (fuel : nat) (m : mem) (str : Z) : option Z := strnlen fuel m str SIZE_MAX.

Definition strncpy (fuel : nat) (m : mem) (dst src len : Z) : option mem :=
  clen ← strnlen fuel m src len;
  m ← memcpy m dst src clen;
  if clen <? len then
    c ← load8 m (dst + (clen - 1));
    if negb (c =? 0) then store8 m (dst + clen) 0 else Some m
  else Some m.

Definition strcpy (fuel : nat) (m : mem) (dst src : Z) : option mem := strncpy fuel m dst src SIZE_MAX.

Fixpoint strncmp (fuel : nat) (m : mem) (c1 c2 len : Z) : option Z :=
  if 0 <? len then
    match fuel with
    | O => None
    | S fuel' =>
        a ← load8 m c1;
        b ← load8 m c2;
        if negb (schar a =? schar b) then Some (schar a - schar b)
        else if schar a =? 0 then Some 0
        else strncmp fuel' m (c1 + 1) (c2 + 1) (len - 1)
    end
  else Some 0.

(** [while ((__res = *str1 - *str2++) == 0 && *str1++);] with a [signed char] result. *)
Fixpoint strcmp (fuel : nat) (m : mem) (str1 str2 : Z) : option Z :=
  match fuel with
  | O => None
  | S fuel' =>
      a ← load8 m str1;
      b ← load8 m str2;
      let res := schar (schar a - schar b) in
      if (res =? 0) && negb (a =? 0) then strcmp fuel' m (str1 + 1) (str2 + 1)
      else Some res
  end.

(** ** Searching *)

(** [for (; s % ALIGN; s++) if (!*s || *s == c) return s;]: [inl] for the result, [inr] for
    the aligned address reached. *)
Fixpoint align_loop (fuel : nat) (m : mem) (s c : Z) : option (Z + Z) :=
  if s mod 8 =? 0 then Some (inr s)
  else
    match fuel with
    | O => None
    | S fuel' =>
        b ← load8 m s;
        if (b =? 0) || (b =? c) then Some (inl s) else align_loop fuel' m (s + 1) c
    end.

(** [for (; !HASZERO( *w) && !HASZERO( *w ^ k); w++);] *)
Fixpoint word_loop (fuel : nat) (m : mem) (w k : Z) : option Z :=
  match fuel with
  | O => None
  | S fuel' =>
      x ← load64 m w;
      if (HASZERO x =? 0) && (HASZERO (Z.lxor x k) =? 0) then word_loop fuel' m (w + 8) k
      else Some w
  end.

(** [for (; *s && *s != c; s++);] *)
Fixpoint char_loop (fuel : nat) (m : mem) (s c : Z) : option Z :=
  match fuel with
  | O => None
  | S fuel' =>
      b ← load8 m s;
      if negb (b =? 0) && negb (b =? c) then char_loop fuel' m (s + 1) c else Some s
  end.

Definition strchrnul (fuel : nat) (m : mem) (s c : Z) : option Z :=
  let c := u8 c in
  if c =? 0 then n ← strlen fuel m s; Some (s + n)
  else
    r ← align_loop 8 m s c;
    match r with
    | inl s => Some s
    | inr s =>
        let k := u64 (ONES * c) in
        w ← word_loop fuel m s k;
        char_loop fuel m w c
    end.

Definition strchr (fuel : nat) (m : mem) (str c : Z) : option (option Z) :=
  r ← strchrnul fuel m str c;
  b ← load8 m r;
  Some (if b =? u8 c then Some r else None).

Definition strrchr (fuel : nat) (m : mem) (s c : Z) : option (option Z) :=
  n ← strlen fuel m s;
  memrchr m s c (u64 (n + 1)).

(** ** Spans *)

(** [BITOP(byteset, b, |=)] and [BITOP(byteset, b, &)] on four 64-bit words. *)
Definition bit_word (b : Z) : Z := b / 64.
Definition bit_mask (b : Z) : Z := u64 (Z.shiftl 1 (b mod 64)).

Definition bitset_or (bs : list Z) (b : Z) : option (Z * list Z) :=
  w ← zget bs (bit_word b);
  let w' := Z.lor w (bit_mask b) in
  bs' ← zset bs (bit_word b) w';
  Some (w', bs').

Definition bitset_and (bs : list Z) (b : Z) : option Z :=
  w ← zget bs (bit_word b);
  Some (Z.land w (bit_mask b)).

(** [for (; *c && BITOP(byteset, *c, |=); c++);] *)
Fixpoint fill_set (fuel : nat) (m : mem) (bs : list Z) (c : Z) : option (list Z) :=
  match fuel with
  | O => None
  | S fuel' =>
      b ← load8 m c;
      if b =? 0 then Some bs
      else
        '(w, bs) ← bitset_or bs b;
        if w =? 0 then Some bs else fill_set fuel' m bs (c + 1)
  end.

(** [for (; *s && (BITOP(byteset, *s, &) != 0) == want; s++);] *)
Fixpoint scan_set (fuel : nat) (m : mem) (bs : list Z) (want : bool) (s : Z) : option Z :=
  match fuel with
  | O => None
  | S fuel' =>
      b ← load8 m s;
      if b =? 0 then Some s
      else
        w ← bitset_and bs b;
        if Bool.eqb (negb (w =? 0)) want then scan_set fuel' m bs want (s + 1) else Some s
  end.

Definition strcspn (fuel : nat) (m : mem) (s c : Z) : option Z :=
  c0 ← load8 m c;
  one ← (if c0 =? 0 then Some true else c1 ← load8 m (c + 1); Some (c1 =? 0));
  if one : bool then r ← strchrnul fuel m s (schar c0); Some (r - s)
  else
    bs ← fill_set fuel m [0; 0; 0; 0] c;
    r ← scan_set fuel m bs false s;
    Some (r - s).

(** [for (; *s == *c; s++);] *)
Fixpoint same_loop (fuel : nat) (m : mem) (s c0 : Z) : option Z :=
  match fuel with
  | O => None
  | S fuel' => b ← load8 m s; if b =? c0 then same_loop fuel' m (s + 1) c0 else Some s
  end.

Definition strspn (fuel : nat) (m : mem) (s c : Z) : option Z :=
  c0 ← load8 m c;
  if c0 =? 0 then Some 0
  else
    c1 ← load8 m (c + 1);
    if c1 =? 0 then r ← same_loop fuel m s c0; Some (r - s)
    else
      bs ← fill_set fuel m [0; 0; 0; 0] c;
      r ← scan_set fuel m bs true s;
      Some (r - s).

(** ** Tokens

    Result, value stored in [*p] (0 is NULL), memory. *)
Definition strtok_r (fuel : nat) (m : mem) (s sep p : Z) : option (Z * Z * mem) :=
  let s := if s =? 0 then p else s in
  if s =? 0 then Some (0, p, m)
  else
    n ← strspn fuel m s sep;
    let s := s + n in
    b ← load8 m s;
    if b =? 0 then Some (0, 0, m)
    else
      k ← strcspn fuel m s sep;
      let p := s + k in
      e ← load8 m p;
      if negb (e =? 0) then m ← store8 m p 0; Some (s, p + 1, m)
      else Some (s, 0, m).

(** [strtok] keeps [p] in a static variable. *)
Definition strtok (fuel : nat) (m : mem) (s sep static_p : Z) : option (Z * Z * mem) :=
  strtok_r fuel m s sep static_p.

(** ** Copies *)

(** [malloc n] is an address or NULL; the allocated bytes are part of the memory. *)
Definition strndup (fuel : nat) (malloc : Z -> Z) (m : mem) (str len : Z) : option (Z * mem) :=
  n ← strnlen fuel m str len;
  let len := sext 32 n in
  let res := malloc (len + 1) in
  if res =? 0 then Some (0, m)
  else
    m ← memcpy m res str len;
    m ← store8 m (res + len) 0;
    Some (res, m).

Definition strdup (fuel : nat) (malloc : Z -> Z) (m : mem) (str : Z) : option (Z * mem) :=
  strndup fuel malloc m str SIZE_MAX.

(** [for (; cond(s) && n && ( *d = *s); n--, s++, d++);] with or without the alignment test. *)
Fixpoint lcpy_loop (fuel : nat) (stop_aligned : bool) (m : mem) (d s n : Z)
    : option (mem * Z * Z * Z) :=
  if (stop_aligned && (Z.land s 7 =? 0)) || (n =? 0) then Some (m, d, s, n)
  else
    match fuel with
    | O => None
    | S fuel' =>
        b ← load8 m s;
        m ← store8 m d b;
        if b =? 0 then Some (m, d, s, n)
        else lcpy_loop fuel' stop_aligned m (d + 1) (s + 1) (n - 1)
    end.

(** [for (; n >= 8 && !HASZERO( *ws); n -= 8, ws++, wd++) *wd = *ws;] *)
Fixpoint lcpy_words (fuel : nat) (m : mem) (d s n : Z) : option (mem * Z * Z * Z) :=
  if 8 <=? n then
    match fuel with
    | O => None
    | S fuel' =>
        x ← load64 m s;
        if HASZERO x =? 0 then m ← store64 m d x; lcpy_words fuel' m (d + 8) (s + 8) (n - 8)
        else Some (m, d, s, n)
    end
  else Some (m, d, s, n).

Definition strlcpy (fuel : nat) (m : mem) (d s n : Z) : option (Z * mem) :=
  let d0 := d in
  if n =? 0 then l ← strlen fuel m s; Some (u64 (d - d0 + l), m)
  else
    let n := n - 1 in
    '(m, d, s, n) ←
      (if Z.land s 7 =? Z.land d 7 then
         '(m, d, s, n) ← lcpy_loop fuel true m d s n;
         if n =? 0 then Some (m, d, s, n)
         else
           b ← load8 m s;
           if negb (b =? 0) then lcpy_words fuel m d s n else Some (m, d, s, n)
       else Some (m, d, s, n));
    '(m, d, s, n) ← lcpy_loop fuel false m d s n;
    m ← store8 m d 0;
    l ← strlen fuel m s;
    Some (u64 (d - d0 + l), m).

Definition strlcat (fuel : nat) (m : mem) (d s n : Z) : option (Z * mem) :=
  l ← strnlen fuel m d n;
  if l =? n then k ← strlen fuel m s; Some (u64 (l + k), m)
  else '(k, m) ← strlcpy fuel m (d + l) s (n - l); Some (u64 (l + k), m).

(** ** Reference functions on lists *)

(** Position of the first [c], the length if there is none. *)
Fixpoint idx (c : Z) (l : list Z) : Z :=
  match l with [] => 0 | x :: l' => if x =? c then 0 else 1 + idx c l' end.

(** Length of the longest prefix of elements with [p]. *)
Fixpoint span_len (p : Z -> bool) (l : list Z) : Z :=
  match l with [] => 0 | x :: l' => if p x then 1 + span_len p l' else 0 end.

Definition in_set (lc : list Z) (x : Z) : bool := bool_decide (x ∈ lc).

Lemma idx_range c l : 0 <= idx c l <= zlen l.
Proof. induction l as [|x l IH]; cbn [idx length]; [lia|]. case_test; lia. Qed.

Lemma idx_app c l1 l2 : c ∉ l1 -> idx c (l1 ++ l2) = zlen l1 + idx c l2.
Proof.
  induction l1 as [|x l1 IH]; intros Hn; cbn [app idx length]; [lia|].
  apply not_elem_of_cons in Hn as [Hx Hn]. case_test; [congruence|]. rewrite IH by done. lia.
Qed.

Lemma idx_notin c l : c ∉ l -> idx c l = zlen l.
Proof. intros H. rewrite <- (app_nil_r l) at 1. rewrite idx_app by done. cbn. lia. Qed.

Lemma idx_in c l : idx c l < zlen l -> l !! Z.to_nat (idx c l) = Some c.
Proof.
  induction l as [|x l IH]; cbn [idx length]; [lia|]. case_test; [by subst|]. intros H.
  pose proof (idx_range c l). replace (Z.to_nat (1 + idx c l)) with (S (Z.to_nat (idx c l))) by lia.
  cbn. apply IH. lia.
Qed.

Lemma span_len_range p l : 0 <= span_len p l <= zlen l.
Proof. induction l as [|x l IH]; cbn [span_len length]; [lia|]. case_test; lia. Qed.

(** ** Scanning *)

Lemma memchr_loop_nul fuel m s o len l :
  cstr m (s + o) l -> (length l < fuel)%nat -> o + zlen l < len ->
  memchr_loop fuel m s o 0 len = Some (Some (s + o + zlen l)).
Proof.
  revert fuel o. induction l as [|x l IH]; intros fuel o Hc Hf Hlen; (destruct fuel as [|fuel]; [cbn in Hf; lia|]);
    cbn [memchr_loop length] in *; (destruct (Z.ltb_spec o len); [|lia]); unfold load8.
  - apply cstr_nil in Hc. rewrite Hc. cbn. by rewrite Z.add_0_r.
  - apply cstr_cons in Hc as (Hx & Hr & Hc). rewrite Hx. cbn [mbind option_bind].
    change (u8 0) with 0. destruct (Z.eqb_spec x 0); [lia|].
    rewrite (IH fuel (o + 1)); [do 2 f_equal; lia| |lia|lia].
    by replace (s + (o + 1)) with (s + o + 1) by lia.
Qed.

Lemma strlen_spec fuel m s l :
  cstr m s l -> (length l < fuel)%nat -> zlen l < SIZE_MAX -> strlen fuel m s = Some (zlen l).
Proof.
  intros Hc Hf Hl. unfold strlen, strnlen, memchr.
  rewrite (memchr_loop_nul fuel m s 0 SIZE_MAX l); [|by rewrite Z.add_0_r|done|lia].
  cbn. f_equal. lia.
Qed.

Lemma char_loop_spec fuel m s c l :
  cstr m s l -> (length l < fuel)%nat -> 0 < c -> char_loop fuel m s c = Some (s + idx c l).
Proof.
  revert fuel s. induction l as [|x l IH]; intros fuel s Hc Hf Hc0; (destruct fuel as [|fuel]; [cbn in Hf; lia|]);
    cbn [char_loop idx length] in *; unfold load8.
  - apply cstr_nil in Hc. rewrite Hc. cbn. by rewrite Z.add_0_r.
  - apply cstr_cons in Hc as (Hx & Hr & Hc). rewrite Hx. cbn [mbind option_bind].
    destruct (Z.eqb_spec x 0); [lia|]. cbn. destruct (Z.eqb_spec x c); cbn; [f_equal; lia|].
    rewrite (IH fuel (s + 1)) by (done || lia). f_equal. lia.
Qed.

(** The aligned words that hold the string and its terminator are mapped. *)
Definition words_mapped (m : mem) (s e : Z) : Prop :=
  forall a, s <= a < 8 * (e / 8) + 8 -> is_Some (m !! a).

Lemma align_loop_spec fuel m s c l :
  cstr m s l -> 0 < c -> 8 - s mod 8 <= Z.of_nat fuel ->
  align_loop fuel m s c = Some (inl (s + idx c l)) \/
  exists l1 l2, l = l1 ++ l2 /\ c ∉ l1 /\ align_loop fuel m s c = Some (inr (s + zlen l1)) /\
    (s + zlen l1) mod 8 = 0.
Proof.
  revert s l. induction fuel as [|fuel IH]; intros s l Hc Hc0 Hf; cbn [align_loop].
  { pose proof (Z.mod_pos_bound s 8). lia. }
  case_test.
  { right. exists [], l. split; [done|]. split; [apply not_elem_of_nil|].
    cbn. rewrite Z.add_0_r. by rewrite E. }
  unfold load8. destruct l as [|x l].
  { apply cstr_nil in Hc. rewrite Hc. cbn. left. by rewrite Z.add_0_r. }
  apply cstr_cons in Hc as (Hx & Hr & Hc). rewrite Hx. cbn [mbind option_bind].
  destruct (Z.eqb_spec x 0); [lia|]. cbn [orb idx].
  destruct (Z.eqb_spec x c) as [->|Hne]; [left; by rewrite Z.add_0_r|].
  pose proof (Z.mod_pos_bound s 8 ltac:(lia)) as Hb. pose proof (Z.div_mod s 8 ltac:(lia)) as Hd.
  assert (Hm : 8 - (s + 1) mod 8 <= Z.of_nat fuel \/ (s + 1) mod 8 = 0).
  { destruct (Z.eq_dec (s mod 8) 7) as [E7|E7].
    - right. symmetry. apply (Z.mod_unique _ _ (s / 8 + 1)); lia.
    - left. replace ((s + 1) mod 8) with (s mod 8 + 1); [lia|].
      apply (Z.mod_unique _ _ (s / 8)); lia. }
  destruct Hm as [Hm|Hm].
  - destruct (IH (s + 1) l Hc Hc0 Hm) as [->|(l1 & l2 & -> & Hn & -> & Hal)].
    + left. do 2 f_equal. lia.
    + right. exists (x :: l1), l2. split; [done|]. split; [by apply not_elem_of_cons|].
      cbn [length]. split; [do 2 f_equal; lia|]. rewrite <- Hal. f_equal. lia.
  - right. exists [x], l. split; [done|]. split; [apply not_elem_of_cons; split; [done|apply not_elem_of_nil]|].
    split; [|done]. destruct fuel; cbn [align_loop]; by rewrite Hm.
Qed.

(** A word that passes both tests is eight characters of the string, none of them [c]. *)
Lemma word_chars m s l c :
  bytes_ok m -> cstr m s l -> byte c -> 0 < c -> s mod 8 = 0 -> words_mapped m s (s + zlen l) ->
  exists x, load64 m s = Some x /\
    (HASZERO x = 0 -> HASZERO (Z.lxor x (u64 (ONES * c))) = 0 ->
     exists l1 l2, l = l1 ++ l2 /\ length l1 = 8%nat /\ c ∉ l1).
Proof.
  intros Hok Hc Hb Hc0 Hal Hmap.
  destruct (load_bytes_Some m s 8) as (bs & Hbs & Hl & Hat).
  { intros i Hi. apply Hmap. pose proof (Z.div_mod s 8 ltac:(lia)).
    pose proof (Z.div_le_mono s (s + zlen l) 8 ltac:(lia) ltac:(lia)). lia. }
  exists (le bs). unfold load64. rewrite Hbs. split; [done|]. intros H1 H2.
  pose proof (bytes_at_ok m s bs Hok Hat) as Hby.
  apply haszero_spec in H1; [|done|done].
  destruct (le_xor c bs Hb Hby) as [Hx Hxb]. rewrite Hl in Hx.
  assert (Hk : u64 (ONES * c) = c * ones 8).
  { change (ones 8) with ONES. rewrite Z.mul_comm. apply wrap_small. unfold in_u, byte, ONES in *.
    change ((2 ^ 64 - 1) / 255) with 72340172838076673. lia. }
  rewrite Hk, Hx in H2. apply haszero_spec in H2; [|by rewrite length_fmap|done].
  assert (Hnz : forall i x, bs !! i = Some x -> x <> 0 /\ x <> c).
  { intros i x Hi. rewrite Forall_lookup in H1. rewrite Forall_fmap, Forall_lookup in H2.
    split; [by eapply H1|]. intros ->. apply (H2 i c Hi). cbn. apply Z.lxor_nilpotent. }
  destruct Hc as [Hc1 Hc2 Hc3]. assert (Hlen : (8 <= length l)%nat).
  { destruct (decide (8 <= length l)%nat) as [|Hlt]; [done|]. exfalso.
    destruct (lookup_lt_is_Some_2 bs (length l)) as [y Hy]; [lia|].
    destruct (Hnz _ _ Hy) as [Hy0 _]. apply Hat in Hy. rewrite Hc2 in Hy. congruence. }
  exists (take 8 l), (drop 8 l). split; [by rewrite take_drop|]. split; [rewrite length_take; lia|].
  intros Hin. apply list_elem_of_lookup in Hin as [i Hi]. pose proof (lookup_lt_Some _ _ _ Hi) as Hi8.
  rewrite length_take in Hi8. rewrite lookup_take_lt in Hi by lia.
  destruct (lookup_lt_is_Some_2 bs i) as [y Hy]; [lia|].
  destruct (Hnz _ _ Hy) as [_ Hyc]. apply Hat in Hy. apply Hc1 in Hi. congruence.
Qed.

Lemma word_loop_spec fuel m s l c :
  bytes_ok m -> cstr m s l -> byte c -> 0 < c -> s mod 8 = 0 -> words_mapped m s (s + zlen l) ->
  (length l < fuel)%nat ->
  exists l1 l2, l = l1 ++ l2 /\ c ∉ l1 /\ word_loop fuel m s (u64 (ONES * c)) = Some (s + zlen l1).
Proof.
  intros Hok Hc Hb Hc0. revert s l Hc. induction fuel as [|fuel IH]; intros s l Hc Hal Hmap Hf; [lia|].
  destruct (word_chars m s l c) as (x & Hx & Hw); [done..|]. cbn [word_loop]. rewrite Hx.
  cbn [mbind option_bind].
  destruct (Z.eqb_spec (HASZERO x) 0) as [E1|E1]; cbn [andb];
    [|exists [], l; split; [done|]; split; [apply not_elem_of_nil|]; cbn; by rewrite Z.add_0_r].
  destruct (Z.eqb_spec (HASZERO (Z.lxor x (u64 (ONES * c)))) 0) as [E2|E2];
    [|exists [], l; split; [done|]; split; [apply not_elem_of_nil|]; cbn; by rewrite Z.add_0_r].
  destruct (Hw E1 E2) as (l1 & l2 & -> & Hl1 & Hn1). rewrite length_app in Hf.
  apply cstr_app in Hc as Hc2. rewrite Hl1 in Hc2. change (Z.of_nat 8) with 8 in Hc2.
  destruct (IH (s + 8) l2 Hc2) as (l3 & l4 & -> & Hn3 & ->).
  - rewrite <- Hal. apply (Z_mod_plus_full s 1 8).
  - intros a Ha. apply Hmap. rewrite length_app, Hl1.
    replace (s + Z.of_nat (8 + length l2)) with (s + 8 + zlen l2) by lia. lia.
  - lia.
  - exists (l1 ++ l3), l4. split; [by rewrite app_assoc|]. split.
    + intros [?|?]%elem_of_app; done.
    + rewrite length_app. f_equal. lia.
Qed.

Lemma strchrnul_spec fuel m s l c :
  bytes_ok m -> cstr m s l -> words_mapped m s (s + zlen l) -> zlen l < SIZE_MAX ->
  (length l < fuel)%nat ->
  strchrnul fuel m s c = Some (s + idx (u8 c) l).
Proof.
  intros Hok Hc Hmap Hsz Hf. unfold strchrnul. pose proof (wrap_range 8 c ltac:(lia)) as Hr.
  unfold in_u in Hr. change (2 ^ 8) with 256 in Hr. set (c8 := u8 c) in *.
  destruct (Z.eqb_spec c8 0) as [E|E].
  { rewrite (strlen_spec fuel m s l) by done. cbn. rewrite E, idx_notin; [done|].
    intros Hin. pose proof (cs_chars _ _ _ Hc) as Hch. rewrite Forall_forall in Hch.
    specialize (Hch 0 Hin). lia. }
  destruct (align_loop_spec 8 m s c8 l Hc) as [->|(l1 & l2 & -> & Hn & -> & Hal)];
    [lia|pose proof (Z.mod_pos_bound s 8); lia|done|].
  cbn [mbind option_bind]. rewrite length_app in Hf. apply cstr_app in Hc as Hc2.
  destruct (word_loop_spec fuel m (s + zlen l1) l2 c8) as (l3 & l4 & -> & Hn3 & ->);
    [done|done|done|lia|done| |lia|].
  { intros a Ha. apply Hmap. rewrite length_app.
    replace (s + Z.of_nat (length l1 + length l2)) with (s + zlen l1 + zlen l2) by lia. lia. }
  cbn [mbind option_bind]. rewrite length_app in Hf. apply cstr_app in Hc2 as Hc4.
  rewrite (char_loop_spec fuel m _ c8 l4) by (done || lia).
  rewrite !idx_app by done. f_equal. lia.
Qed.

(** ** Byte sets *)

(** The four words hold exactly the bytes of [lc]. *)
Record bset (bs : list Z) (lc : list Z) : Prop := {
  bs_len : length bs = 4%nat;
  bs_bits b : byte b -> exists w, zget bs (bit_word b) = Some w /\
    Z.testbit w (b mod 64) = in_set lc b
}.

Lemma bit_mask_testbit b j : 0 <= j -> Z.testbit (bit_mask b) j = (j =? b mod 64).
Proof.
  intros Hj. pose proof (Z.mod_pos_bound b 64 ltac:(lia)). unfold bit_mask.
  rewrite Z.shiftl_1_l, wrap_small.
  - rewrite Z.pow2_bits_eqb by lia. apply Z.eqb_sym.
  - unfold in_u. pose proof (pow2_pos (b mod 64)). pose proof (Z.pow_lt_mono_r 2 (b mod 64) 64). lia.
Qed.

Lemma bit_word_range b : byte b -> 0 <= bit_word b < 4.
Proof. unfold byte, bit_word. intros. split; [apply Z.div_pos|apply Z.div_lt_upper_bound]; lia. Qed.

Lemma bset_empty : bset [0; 0; 0; 0] [].
Proof.
  split; [done|]. intros b Hb. pose proof (bit_word_range b Hb) as Hw. exists 0.
  assert (Hc : bit_word b = 0 \/ bit_word b = 1 \/ bit_word b = 2 \/ bit_word b = 3) by lia.
  split; [destruct Hc as [-> | [-> | [-> | ->]]]; done|]. rewrite Z.bits_0. done.
Qed.

(** Two bytes with the same word and the same bit are equal. *)
Lemma bit_inj b b' : bit_word b = bit_word b' -> b mod 64 = b' mod 64 -> b = b'.
Proof.
  unfold bit_word. intros H1 H2. rewrite (Z.div_mod b 64), (Z.div_mod b' 64) by lia. congruence.
Qed.

Lemma bitset_or_spec bs lc b :
  bset bs lc -> byte b ->
  exists w bs', bitset_or bs b = Some (w, bs') /\ w <> 0 /\ bset bs' (lc ++ [b]).
Proof.
  intros [Hl Hbits] Hb. destruct (Hbits b Hb) as (w & Hw & Hbit). unfold bitset_or. rewrite Hw. cbn.
  pose proof (bit_word_range b Hb). pose proof (Z.mod_pos_bound b 64 ltac:(lia)).
  assert (Hz : zset bs (bit_word b) (Z.lor w (bit_mask b)) =
    Some (<[Z.to_nat (bit_word b) := Z.lor w (bit_mask b)]> bs)) by (apply zset_is_Some; lia).
  rewrite Hz. cbn. eexists _, _. split; [done|].
  split.
  { intros E. apply (f_equal (fun z => Z.testbit z (b mod 64))) in E.
    rewrite Z.lor_spec, bit_mask_testbit, Z.eqb_refl, Z.bits_0, orb_true_r in E by lia. done. }
  split; [by rewrite length_insert|]. intros b' Hb'. destruct (Hbits b' Hb') as (w' & Hw' & Hbit').
  pose proof (Z.mod_pos_bound b' 64 ltac:(lia)).
  assert (Hin : in_set (lc ++ [b]) b' = in_set lc b' || (b' =? b)).
  { unfold in_set. apply Bool.eq_iff_eq_true. rewrite orb_true_iff, !bool_decide_eq_true, Z.eqb_eq.
    rewrite elem_of_app, list_elem_of_singleton. done. }
  rewrite Hin, <- Hbit', (zget_zset _ _ _ _ _ Hz). case_decide as Hd.
  - eexists. split; [done|]. rewrite Hd in Hw. simplify_eq.
    rewrite Z.lor_spec, bit_mask_testbit by lia. f_equal.
    destruct (Z.eqb_spec (b' mod 64) (b mod 64)), (Z.eqb_spec b' b); try done; subst; try done.
    exfalso. by apply n, bit_inj.
  - exists w'. split; [done|]. destruct (Z.eqb_spec b' b); [by subst|]. by rewrite orb_false_r.
Qed.

Lemma bitset_and_spec bs lc b :
  bset bs lc -> byte b -> exists w, bitset_and bs b = Some w /\ negb (w =? 0) = in_set lc b.
Proof.
  intros [_ Hbits] Hb. destruct (Hbits b Hb) as (w & Hw & <-). unfold bitset_and. rewrite Hw. cbn.
  eexists. split; [done|]. pose proof (Z.mod_pos_bound b 64 ltac:(lia)).
  destruct (Z.eqb_spec (Z.land w (bit_mask b)) 0) as [E|E]; cbn.
  - apply (f_equal (fun z => Z.testbit z (b mod 64))) in E.
    rewrite Z.land_spec, bit_mask_testbit, Z.eqb_refl, andb_true_r, Z.bits_0 in E by lia. done.
  - destruct (Z.testbit w (b mod 64)) eqn:Eb; [done|]. exfalso. apply E. apply Z.bits_inj'.
    intros j Hj. rewrite Z.land_spec, bit_mask_testbit, Z.bits_0 by done.
    destruct (Z.eqb_spec j (b mod 64)) as [->|]; [by rewrite Eb|apply andb_false_r].
Qed.

Lemma fill_set_spec fuel m bs lc c l :
  bset bs lc -> cstr m c l -> (length l < fuel)%nat ->
  exists bs', fill_set fuel m bs c = Some bs' /\ bset bs' (lc ++ l).
Proof.
  revert fuel bs lc c. induction l as [|x l IH]; intros fuel bs lc c Hs Hc Hf;
    (destruct fuel as [|fuel]; [cbn in Hf; lia|]); cbn [fill_set length] in *; unfold load8.
  - apply cstr_nil in Hc. rewrite Hc. cbn. exists bs. by rewrite app_nil_r.
  - apply cstr_cons in Hc as (Hx & Hr & Hc). rewrite Hx. cbn [mbind option_bind].
    destruct (Z.eqb_spec x 0); [lia|].
    destruct (bitset_or_spec bs lc x Hs) as (w & bs1 & -> & Hw & Hs1); [unfold byte; lia|].
    cbn [mbind option_bind]. destruct (Z.eqb_spec w 0); [done|].
    destruct (IH fuel bs1 (lc ++ [x]) (c + 1) Hs1 Hc) as (bs' & -> & Hs'); [lia|].
    exists bs'. split; [done|]. by rewrite <- app_assoc in Hs'.
Qed.

Lemma scan_set_spec fuel m bs lc want s l :
  bset bs lc -> cstr m s l -> (length l < fuel)%nat ->
  scan_set fuel m bs want s = Some (s + span_len (fun x => Bool.eqb (in_set lc x) want) l).
Proof.
  intros Hs. revert fuel s. induction l as [|x l IH]; intros fuel s Hc Hf;
    (destruct fuel as [|fuel]; [cbn in Hf; lia|]); cbn [scan_set span_len length] in *; unfold load8.
  - apply cstr_nil in Hc. rewrite Hc. cbn. by rewrite Z.add_0_r.
  - apply cstr_cons in Hc as (Hx & Hr & Hc). rewrite Hx. cbn [mbind option_bind].
    destruct (Z.eqb_spec x 0); [lia|].
    destruct (bitset_and_spec bs lc x Hs) as (w & -> & Hw); [unfold byte; lia|].
    cbn [mbind option_bind]. rewrite Hw. destruct (Bool.eqb (in_set lc x) want); [|by rewrite Z.add_0_r].
    rewrite (IH fuel (s + 1)) by (done || lia). f_equal. lia.
Qed.

Lemma span_len_ext p q l : (forall x, x ∈ l -> p x = q x) -> span_len p l = span_len q l.
Proof.
  induction l as [|x l IH]; intros H; cbn; [done|]. rewrite (H x) by apply list_elem_of_here.
  rewrite IH; [done|]. intros y Hy. apply H. by apply list_elem_of_further.
Qed.

Lemma same_loop_spec fuel m s c l :
  cstr m s l -> 0 < c -> (length l < fuel)%nat ->
  same_loop fuel m s c = Some (s + span_len (fun x => x =? c) l).
Proof.
  revert fuel s. induction l as [|x l IH]; intros fuel s Hc H0 Hf;
    (destruct fuel as [|fuel]; [cbn in Hf; lia|]); cbn [same_loop span_len length] in *; unfold load8.
  - apply cstr_nil in Hc. rewrite Hc. cbn [mbind option_bind]. destruct (Z.eqb_spec 0 c); [lia|].
    by rewrite Z.add_0_r.
  - apply cstr_cons in Hc as (Hx & Hr & Hc). rewrite Hx. cbn [mbind option_bind].
    case_test; [|by rewrite Z.add_0_r]. rewrite (IH fuel (s + 1)) by (done || lia). f_equal. lia.
Qed.

Lemma strspn_spec fuel m s l c lc :
  cstr m s l -> cstr m c lc -> (length l < fuel)%nat -> (length lc < fuel)%nat ->
  strspn fuel m s c = Some (span_len (in_set lc) l).
Proof.
  intros Hs Hc Hf Hfc. unfold strspn, load8. destruct lc as [|c0 lc].
  { apply cstr_nil in Hc. rewrite Hc. cbn. f_equal. by destruct l. }
  pose proof Hc as (Hc0 & Hr0 & Hc1)%cstr_cons. rewrite Hc0. cbn [mbind option_bind].
  destruct (Z.eqb_spec c0 0); [lia|]. destruct lc as [|c1 lc].
  - apply cstr_nil in Hc1. rewrite Hc1. cbn [mbind option_bind Z.eqb].
    rewrite (same_loop_spec fuel m s c0 l) by (done || lia). cbn. f_equal.
    rewrite Z.add_simpl_l. apply span_len_ext. intros x _. unfold in_set.
    destruct (Z.eqb_spec x c0) as [->|Hne]; symmetry; [apply bool_decide_eq_true|apply bool_decide_eq_false];
      by rewrite list_elem_of_singleton.
  - pose proof Hc1 as (H1 & Hr1 & _)%cstr_cons. rewrite H1. cbn [mbind option_bind].
    destruct (Z.eqb_spec c1 0); [lia|].
    destruct (fill_set_spec fuel m _ [] c _ bset_empty Hc Hfc) as (bs & -> & Hbs). cbn [mbind option_bind app] in *.
    rewrite (scan_set_spec fuel m bs _ true s l Hbs Hs Hf). cbn [mbind option_bind]. f_equal.
    rewrite Z.add_simpl_l. apply span_len_ext. intros x _. by destruct (in_set _ x).
Qed.

Lemma strcspn_spec fuel m s l c lc :
  bytes_ok m -> cstr m s l -> cstr m c lc -> words_mapped m s (s + zlen l) -> zlen l < SIZE_MAX ->
  (length l < fuel)%nat -> (length lc < fuel)%nat ->
  strcspn fuel m s c = Some (span_len (fun x => negb (in_set lc x)) l).
Proof.
  intros Hok Hs Hc Hmap Hsz Hf Hfc.
  assert (Hidx : forall c, span_len (fun x => negb (x =? c)) l = idx c l).
  { intros c'. clear. induction l as [|x l IH]; cbn; [done|]. rewrite IH. by destruct (x =? c'). }
  assert (Hsc : forall c0, byte c0 -> u8 (schar c0) = c0).
  { intros c0 Hb. unfold schar, sext, byte in *. rewrite (wrap_small 8 c0) by (unfold in_u; lia).
    case_test; [apply wrap_small; unfold in_u; lia|]. unfold wrap.
    replace (c0 - 2 ^ 8) with (c0 + (-1) * 2 ^ 8) by lia. rewrite Z_mod_plus_full.
    apply Z.mod_small. lia. }
  unfold strcspn, load8. destruct lc as [|c0 lc].
  { apply cstr_nil in Hc. rewrite Hc. cbn [mbind option_bind Z.eqb].
    rewrite (strchrnul_spec fuel m s l) by done. cbn [mbind option_bind]. f_equal.
    rewrite Hsc, <- Hidx by (unfold byte; lia). rewrite Z.add_simpl_l. apply span_len_ext. intros x Hx.
    pose proof (cs_chars _ _ _ Hs) as Hch. rewrite Forall_forall in Hch. specialize (Hch x Hx).
    destruct (Z.eqb_spec x 0); [lia|]. done. }
  pose proof Hc as (Hc0 & Hr0 & Hc1)%cstr_cons. rewrite Hc0. cbn [mbind option_bind].
  destruct (Z.eqb_spec c0 0); [lia|]. destruct lc as [|c1 lc].
  - apply cstr_nil in Hc1. rewrite Hc1. cbn [mbind option_bind Z.eqb].
    rewrite (strchrnul_spec fuel m s l) by done. cbn [mbind option_bind]. f_equal.
    rewrite Hsc, <- Hidx by (unfold byte; lia). rewrite Z.add_simpl_l. apply span_len_ext. intros x _.
    unfold in_set. f_equal. destruct (Z.eqb_spec x c0) as [->|Hne]; symmetry;
      [apply bool_decide_eq_true|apply bool_decide_eq_false]; by rewrite list_elem_of_singleton.
  - pose proof Hc1 as (H1 & Hr1 & _)%cstr_cons. rewrite H1. cbn [mbind option_bind].
    destruct (Z.eqb_spec c1 0); [lia|].
    destruct (fill_set_spec fuel m _ [] c _ bset_empty Hc Hfc) as (bs & -> & Hbs). cbn [mbind option_bind app] in *.
    rewrite (scan_set_spec fuel m bs _ false s l Hbs Hs Hf). cbn [mbind option_bind]. f_equal.
    rewrite Z.add_simpl_l. apply span_len_ext. intros x _. by destruct (in_set _ x).
Qed.

(** ** Tokens *)

(** The maximal runs of characters that are no separators. *)
Fixpoint split_on (sep : Z -> bool) (cur l : list Z) : list (list Z) :=
  match l with
  | [] => match cur with [] => [] | _ => [cur] end
  | x :: l' =>
      if sep x then match cur with [] => split_on sep [] l' | _ => cur :: split_on sep [] l' end
      else split_on sep (cur ++ [x]) l'
  end.

Definition tokens (sep : Z -> bool) (l : list Z) : list (list Z) := split_on sep [] l.

Lemma split_on_cur sep cur l :
  cur <> [] ->
  split_on sep cur l =
  (cur ++ take (Z.to_nat (span_len (fun x => negb (sep x)) l)) l) ::
    split_on sep [] (drop (Z.to_nat (span_len (fun x => negb (sep x)) l + 1)) l).
Proof.
  revert cur. induction l as [|x l IH]; intros cur Hne; cbn [split_on span_len].
  - destruct cur; [done|]. by rewrite take_nil, drop_nil, app_nil_r.
  - destruct (sep x); cbn [negb].
    + destruct cur; [done|]. cbn. by rewrite app_nil_r.
    + rewrite IH by by destruct cur. pose proof (span_len_range (fun x => negb (sep x)) l).
      replace (Z.to_nat (1 + _)) with (S (Z.to_nat (span_len (fun x => negb (sep x)) l))) by lia.
      replace (Z.to_nat (1 + _ + 1)) with (S (Z.to_nat (span_len (fun x => negb (sep x)) l + 1))) by lia.
      cbn. by rewrite <- app_assoc.
Qed.

(** Skip separators, take one token, go on after its separator. *)
Lemma tokens_step sep l :
  let n := Z.to_nat (span_len sep l) in
  let rest := drop n l in
  let k := span_len (fun x => negb (sep x)) rest in
  tokens sep l =
  match rest with
  | [] => []
  | _ => take (Z.to_nat k) rest :: tokens sep (drop (Z.to_nat (k + 1)) rest)
  end.
Proof.
  induction l as [|x l IH]; [done|]. unfold tokens in *. cbn [split_on span_len].
  destruct (sep x) eqn:Ex.
  - pose proof (span_len_range sep l).
    replace (Z.to_nat (1 + span_len sep l)) with (S (Z.to_nat (span_len sep l))) by lia. exact IH.
  - cbv zeta. change (drop (Z.to_nat 0) (x :: l)) with (x :: l). cbn [app].
    rewrite split_on_cur by done. cbn [span_len]. rewrite Ex. cbn [negb].
    pose proof (span_len_range (fun x => negb (sep x)) l).
    replace (Z.to_nat (1 + _)) with (S (Z.to_nat (span_len (fun x => negb (sep x)) l))) by lia.
    replace (Z.to_nat (1 + _ + 1)) with (S (Z.to_nat (span_len (fun x => negb (sep x)) l + 1))) by lia.
    done.
Qed.

(** Calls with the string first and NULL afterwards, until NULL is returned. *)
Fixpoint tokenize (rounds fuel : nat) (m : mem) (s sep p : Z) : option (list Z * mem) :=
  match rounds with
  | O => None
  | S rounds' =>
      '(tok, p, m) ← strtok_r fuel m s sep p;
      if tok =? 0 then Some ([], m)
      else '(toks, m) ← tokenize rounds' fuel m 0 sep p; Some (tok :: toks, m)
  end.

Section Tok.
Context (fuel : nat) (sep : Z) (lc : list Z) (Hlc : (length lc < fuel)%nat).

(** What one call needs: the string and the separators in memory, apart. *)
Record tok_ok (m : mem) (s : Z) (l : list Z) : Prop := {
  tk_bytes : bytes_ok m;
  tk_pos : 0 < s;
  tk_str : cstr m s l;
  tk_sep : cstr m sep lc;
  tk_apart : sep + zlen lc < s \/ s + zlen l < sep;
  tk_map : words_mapped m s (s + zlen l);
  tk_size : zlen l < SIZE_MAX;
  tk_fuel : (length l < fuel)%nat
}.

Lemma tok_ok_drop m s l n : tok_ok m s l -> (n <= length l)%nat ->
  tok_ok m (s + Z.of_nat n) (drop n l).
Proof.
  intros [H1 H2 H3 H4 H5 H6 H7 H8] Hn. assert (Hl : zlen (drop n l) = zlen l - Z.of_nat n)
    by (rewrite length_drop; lia).
  split; try done; try lia.
  - rewrite <- (take_drop n l) in H3. apply cstr_app in H3. by rewrite length_take, Nat.min_l in H3 by lia.
  - intros a Ha. apply H6. rewrite Hl in Ha.
    replace (s + Z.of_nat n + (zlen l - Z.of_nat n)) with (s + zlen l) in Ha by lia. lia.
Qed.

(** One call: no token left, or the first token, terminated in place. *)
Lemma strtok_r_spec m s l p :
  tok_ok m s l ->
  let n := Z.to_nat (span_len (in_set lc) l) in
  let rest := drop n l in
  let k := span_len (fun x => negb (in_set lc x)) rest in
  strtok_r fuel m s sep p =
  match rest with
  | [] => Some (0, 0, m)
  | _ => if k <? zlen rest
         then Some (s + Z.of_nat n, s + Z.of_nat n + k + 1, <[s + Z.of_nat n + k := 0]> m)
         else Some (s + Z.of_nat n, 0, m)
  end.
Proof.
  intros T n rest k. pose proof (span_len_range (in_set lc) l) as Hn.
  assert (Hnl : (n <= length l)%nat) by (subst n; lia).
  pose proof (tok_ok_drop m s l n T Hnl) as Tr. fold rest in Tr.
  unfold strtok_r. destruct (Z.eqb_spec s 0); [pose proof (tk_pos _ _ _ T); lia|].
  destruct (Z.eqb_spec s 0); [lia|].
  rewrite (strspn_spec fuel m s l sep lc) by (apply T || done). cbn [mbind option_bind].
  replace (span_len (in_set lc) l) with (Z.of_nat n) by (subst n; lia).
  unfold load8. destruct rest as [|x r] eqn:Er.
  { pose proof (tk_str _ _ _ Tr) as Hc%cstr_nil. by rewrite Hc. }
  pose proof (tk_str _ _ _ Tr) as Hc. pose proof Hc as (Hx & Hr & _)%cstr_cons.
  rewrite Hx. cbn [mbind option_bind]. destruct (Z.eqb_spec x 0); [lia|].
  rewrite (strcspn_spec fuel m (s + Z.of_nat n) (x :: r) sep lc) by (apply Tr || done || apply T).
  cbn [mbind option_bind]. fold k. pose proof (span_len_range (fun x => negb (in_set lc x)) (x :: r)) as Hk.
  fold k in Hk. destruct (Z.ltb_spec k (zlen (x :: r))) as [Hlt|Hge].
  - destruct (lookup_lt_is_Some_2 (x :: r) (Z.to_nat k)) as [e He]; [lia|].
    pose proof (cstr_lookup _ _ _ _ _ Hc He) as Hm. rewrite Z2Nat.id in Hm by lia. rewrite Hm.
    pose proof (cs_chars _ _ _ Hc) as Hch. rewrite Forall_lookup in Hch. specialize (Hch _ _ He).
    cbn [mbind option_bind]. destruct (Z.eqb_spec e 0); [lia|]. cbn [negb].
    unfold store8. rewrite Hm. done.
  - replace k with (zlen (x :: r)) by lia. by rewrite (cs_nul _ _ _ Hc).
Qed.

Lemma strtok_r_null m s p : s <> 0 -> strtok_r fuel m 0 sep s = strtok_r fuel m s sep p.
Proof. 
  intros Hs. unfold strtok_r. change (0 =? 0) with true. cbv iota zeta.
  destruct (s =? 0) eqn:E; tests; [done|]. by rewrite (proj2 (Z.eqb_neq s 0) E).
Qed.

Lemma tokenize_spec rounds m s l p s0 :
  tok_ok m s l -> (length l < rounds)%nat ->
  (s0 = s \/ s0 = 0 /\ p = s) ->
  exists ps m', tokenize rounds fuel m s0 sep p = Some (ps, m') /\
    Forall2 (cstr m') ps (tokens (in_set lc) l) /\
    (forall a, ~ (s <= a < s + zlen l) -> m' !! a = m !! a).
Proof.
  revert m s l p s0. induction rounds as [|rounds IH]; intros m s l p s0 T Hr Hs0; [lia|].
  cbn [tokenize]. pose proof (tk_pos _ _ _ T) as Hpos.
  assert (Hcall : strtok_r fuel m s0 sep p = strtok_r fuel m s sep p).
  { destruct Hs0 as [->|[-> ->]]; [done|]. apply strtok_r_null. lia. }
  rewrite Hcall, (strtok_r_spec m s l p T). clear Hcall Hs0.
  rewrite tokens_step. set (n := Z.to_nat (span_len (in_set lc) l)).
  pose proof (span_len_range (in_set lc) l) as Hn.
  assert (Hnl : (n <= length l)%nat) by (subst n; lia).
  pose proof (tok_ok_drop m s l n T Hnl) as Tr. set (rest := drop n l) in *.
  assert (Hlr : zlen rest = zlen l - Z.of_nat n) by (subst rest; rewrite length_drop; lia).
  set (k := span_len (fun x => negb (in_set lc x)) rest).
  pose proof (span_len_range (fun x => negb (in_set lc x)) rest) as Hk. fold k in Hk.
  destruct rest as [|x r] eqn:Er.
  { cbn. exists [], m. split; [done|]. split; [constructor|done]. }
  assert (Hr1 : 1 <= zlen rest) by (rewrite Er; cbn [length]; lia).
  rewrite <- Er in *. set (t := s + Z.of_nat n) in *.
  destruct (Z.ltb_spec k (zlen rest)) as [Hlt|Hge]; cbn [mbind option_bind].
  - destruct (Z.eqb_spec t 0); [lia|].
    set (m1 := <[t + k := 0]> m).
    assert (T1 : tok_ok m1 (t + k + 1) (drop (Z.to_nat (k + 1)) rest)).
    { pose proof (tok_ok_drop m t rest (Z.to_nat (k + 1)) Tr ltac:(lia)) as [T1 T2 T3 T4 T5 T6 T7 T8].
      replace (t + Z.of_nat (Z.to_nat (k + 1))) with (t + k + 1) in * by lia.
      assert (Hld : zlen (drop (Z.to_nat (k + 1)) rest) = zlen rest - (k + 1)) by (rewrite length_drop; lia).
      split; try done.
      - apply bytes_ok_insert; [done|unfold byte; lia].
      - eapply cstr_agree; [done|]. intros a Ha. apply lookup_insert_ne. lia.
      - eapply cstr_agree; [done|]. intros a Ha. apply lookup_insert_ne. pose proof (tk_apart _ _ _ T). lia.
      - intros a Ha. unfold m1. rewrite lookup_insert_ne by lia. by apply T6. }
    destruct (IH m1 (t + k + 1) _ (t + k + 1) 0 T1) as (ps & m' & -> & Hps & Hag);
      [rewrite length_drop; lia|by right|].
    cbn [mbind option_bind]. exists (t :: ps), m'. split; [done|]. split.
    + constructor; [|done]. eapply cstr_agree.
      * replace (t + k) with (t + Z.of_nat (Z.to_nat k)) by lia.
        apply (cstr_truncate m t rest (Z.to_nat k)); [apply Tr|lia].
      * intros a Ha. rewrite length_take in Ha. rewrite Hag by lia. unfold m1.
        by replace (t + Z.of_nat (Z.to_nat k)) with (t + k) by lia.
    + intros a Ha. rewrite Hag.
      * apply lookup_insert_ne. lia.
      * rewrite length_drop. lia.
  - destruct (Z.eqb_spec t 0); [lia|]. destruct rounds as [|rounds]; [lia|].
    cbn [tokenize]. change (strtok_r fuel m 0 sep 0) with (Some (0, 0, m)). cbn [mbind option_bind Z.eqb].
    exists [t], m. split; [done|]. split; [|done].
    assert (Hd : drop (Z.to_nat (k + 1)) rest = []) by (apply drop_ge; lia).
    rewrite Hd. constructor; [|constructor]. rewrite take_ge by lia. apply Tr.
Qed.
End Tok.

(** ** Copying *)

Definition mapped (m : mem) (a n : Z) : Prop := forall x, a <= x < a + n -> is_Some (m !! x).

(** [m'] is [m] with [n] bytes copied from [src] to [dst]. *)
Definition copied (m m' : mem) (dst src n : Z) : Prop :=
  forall a, m' !! a = if decide (dst <= a < dst + n) then m !! (src + (a - dst)) else m !! a.

Lemma store8_byte m a b : is_Some (m !! a) -> byte b -> store8 m a b = Some (<[a := b]> m).
Proof.
  intros [x Hx] Hb. unfold store8. rewrite Hx. cbn. rewrite wrap_small; [done|]. done.
Qed.

Lemma move_up_spec k m d s :
  bytes_ok m -> mapped m s (Z.of_nat k) -> mapped m d (Z.of_nat k) ->
  (d <= s \/ s + Z.of_nat k <= d) ->
  exists m', move_loop k m d s 1 = Some m' /\ copied m m' d s (Z.of_nat k).
Proof.
  revert m d s. induction k as [|k IH]; intros m d s Hok Hs Hd Hdir; cbn [move_loop].
  { exists m. split; [done|]. intros a. by rewrite decide_False by lia. }
  destruct (Hs s ltac:(lia)) as [b Hb]. pose proof (Hok _ _ Hb) as Hbb. unfold load8. rewrite Hb.
  cbn [mbind option_bind]. rewrite store8_byte by (done || apply Hd; lia). cbn [mbind option_bind].
  destruct (IH (<[d := b]> m) (d + 1) (s + 1)) as (m' & -> & Hc).
  - by apply bytes_ok_insert.
  - intros x Hx. destruct (decide (x = d)) as [->|]; [rewrite lookup_insert_eq; eauto|].
    rewrite lookup_insert_ne by done. apply Hs. lia.
  - intros x Hx. rewrite lookup_insert_ne by lia. apply Hd. lia.
  - lia.
  - exists m'. split; [done|]. intros a. rewrite Hc. repeat case_decide; try lia.
    + rewrite lookup_insert_ne by lia. f_equal. lia.
    + destruct (decide (a = d)) as [->|]; [|lia]. rewrite lookup_insert_eq, <- Hb. f_equal. lia.
    + by rewrite lookup_insert_ne by lia.
Qed.

Lemma memcpy_move k m dst src p :
  memcpy_loop k m dst src p = move_loop k m (dst + p) (src + p) 1.
Proof.
  revert m p. induction k as [|k IH]; intros m p; cbn; [done|].
  destruct (load8 m (src + p)); cbn; [|done]. destruct (store8 m (dst + p) z); cbn; [|done].
  rewrite IH. f_equal; lia.
Qed.

Lemma memset_spec k m p val :
  mapped m p (Z.of_nat k) ->
  exists m', memset_loop k m p val = Some m' /\
    forall a, m' !! a = if decide (p <= a < p + Z.of_nat k) then Some (u8 val) else m !! a.
Proof.
  revert m p. induction k as [|k IH]; intros m p Hp; cbn [memset_loop].
  { exists m. split; [done|]. intros a. by rewrite decide_False by lia. }
  destruct (Hp p ltac:(lia)) as [b Hb]. unfold store8. rewrite Hb. cbn [mbind option_bind].
  destruct (IH (<[p := u8 val]> m) (p + 1)) as (m' & -> & Hc).
  - intros x Hx. rewrite lookup_insert_ne by lia. apply Hp. lia.
  - exists m'. split; [done|]. intros a. rewrite Hc. repeat case_decide; try lia; try done.
    + destruct (decide (a = p)) as [->|]; [|lia]. apply lookup_insert_eq.
    + by rewrite lookup_insert_ne by lia.
Qed.

(** ** Comparing *)

Lemma schar_inj a b : byte a -> byte b -> schar a = schar b -> a = b.
Proof.
  unfold byte, schar, sext. intros Ha Hb. rewrite !wrap_small by (unfold in_u; lia).
  change (2 ^ (8 - 1)) with 128. change (2 ^ 8) with 256. repeat case_test; lia.
Qed.

Lemma schar_sub_zero a b : byte a -> byte b -> schar (schar a - schar b) = 0 <-> a = b.
Proof.
  intros Ha Hb. split; [|intros ->; by rewrite Z.sub_diag]. intros H.
  apply schar_inj; [done|done|]. unfold byte, schar, sext in *.
  rewrite (wrap_small 8 a), (wrap_small 8 b) in * by (unfold in_u; lia).
  change (2 ^ (8 - 1)) with 128 in *. change (2 ^ 8) with 256 in *. unfold wrap in H.
  change (2 ^ 8) with 256 in H. set (d := (if a <? 128 then a else a - 256) - (if b <? 128 then b else b - 256)) in *.
  assert (Hd : -255 <= d <= 255) by (subst d; repeat case_test; lia).
  pose proof (Z.div_mod d 256 ltac:(lia)). pose proof (Z.mod_pos_bound d 256 ltac:(lia)).
  repeat case_test; lia.
Qed.

Lemma strcmp_spec fuel m s1 l1 s2 l2 :
  cstr m s1 l1 -> cstr m s2 l2 -> (length l1 < fuel)%nat ->
  exists r, strcmp fuel m s1 s2 = Some r /\ (r = 0 <-> l1 = l2).
Proof.
  revert fuel s1 s2 l2. induction l1 as [|x l1 IH]; intros fuel s1 s2 l2 H1 H2 Hf;
    (destruct fuel as [|fuel]; [cbn in Hf; lia|]); cbn [strcmp length] in *; unfold load8.
  - apply cstr_nil in H1. rewrite H1. destruct l2 as [|y l2].
    + apply cstr_nil in H2. rewrite H2. cbn. by eexists.
    + apply cstr_cons in H2 as (Hy & Hr & _). rewrite Hy. cbn [mbind option_bind].
      rewrite (proj2 (Z.eqb_eq 0 0) eq_refl), andb_false_r. eexists. split; [done|].
      split; [|done]. intros E. exfalso. rewrite (schar_sub_zero 0 y) in E by (unfold byte; lia). lia.
  - apply cstr_cons in H1 as (Hx & Hrx & H1). rewrite Hx. destruct l2 as [|y l2].
    + apply cstr_nil in H2. rewrite H2. cbn [mbind option_bind].
      destruct (Z.eqb_spec (schar (schar x - schar 0)) 0) as [E|E]; cbn [andb].
      * exfalso. rewrite (schar_sub_zero x 0) in E by (unfold byte; lia). lia.
      * eexists. split; [done|]. by split.
    + apply cstr_cons in H2 as (Hy & Hry & H2). rewrite Hy. cbn [mbind option_bind].
      pose proof (schar_sub_zero x y ltac:(unfold byte; lia) ltac:(unfold byte; lia)) as Hz.
      destruct (Z.eqb_spec (schar (schar x - schar y)) 0) as [E|E]; cbn [andb].
      * apply Hz in E as ->. destruct (Z.eqb_spec y 0); [lia|]. cbn [negb].
        destruct (IH fuel (s1 + 1) (s2 + 1) l2 H1 H2) as (r & -> & Hr); [lia|].
        exists r. split; [done|]. rewrite Hr. split; [by intros ->|by intros [= ->]].
      * eexists. split; [done|]. split; [done|]. intros [= <- _]. by destruct E; apply Hz.
Qed.

(** Lexicographic comparison of byte lists, as a sign. *)
Fixpoint lex (l1 l2 : list Z) : Z :=
  match l1, l2 with
  | x :: l1', y :: l2' => if x =? y then lex l1' l2' else x - y
  | _, _ => 0
  end.

Lemma memcmp_spec m p1 l1 p2 l2 :
  bytes_at m p1 l1 -> bytes_at m p2 l2 -> length l1 = length l2 ->
  memcmp m p1 p2 (zlen l1) = Some (lex l1 l2).
Proof.
  unfold memcmp. rewrite Nat2Z.id. revert p1 l2 p2.
  induction l1 as [|x l1 IH]; intros p1 [|y l2] p2 H1 H2 Hl; cbn in Hl; try lia; cbn; [done|].
  apply bytes_at_cons in H1 as [Hx H1]. apply bytes_at_cons in H2 as [Hy H2].
  unfold load8. rewrite Hx. cbn. rewrite Hy. cbn. destruct (Z.eqb_spec x y); cbn; [|done].
  apply IH; [done|done|lia].
Qed.

(** ** [strlcpy] *)

Lemma store_le_spec bs m a :
  Forall byte bs -> mapped m a (zlen bs) ->
  exists m', store_le m a (le bs) (length bs) = Some m' /\ bytes_at m' a bs /\
    forall x, ~ (a <= x < a + zlen bs) -> m' !! x = m !! x.
Proof.
  intros Hbs. revert m a. induction Hbs as [|b bs Hb Hbs IH]; intros m a Hm; cbn [store_le le length].
  { exists m. split; [done|]. split; [by intros i x Hi|done]. }
  assert (Hmod : (b + 256 * le bs) mod 256 = b).
  { rewrite (Z.mul_comm 256), Z_mod_plus_full. apply Z.mod_small. exact Hb. }
  assert (Hdiv : (b + 256 * le bs) / 256 = le bs).
  { rewrite (Z.mul_comm 256), Z.div_add, (Z.div_small b) by done. lia. }
  rewrite Hmod, Hdiv. cbn [length] in Hm.
  rewrite store8_byte; [|apply Hm; lia|done]. cbn [mbind option_bind].
  destruct (IH (<[a := b]> m) (a + 1)) as (m' & -> & Hat & Hag).
  { intros x Hx. rewrite lookup_insert_ne by lia. apply Hm. lia. }
  exists m'. split; [done|]. split.
  - apply bytes_at_cons. split; [|done]. rewrite Hag by lia. apply lookup_insert_eq.
  - intros x Hx. rewrite Hag by lia. apply lookup_insert_ne. lia.
Qed.

Section Lcpy.
Context (m0 : mem) (d0 s0 n0 : Z) (l : list Z).
Context (Hok0 : bytes_ok m0) (Hsrc : cstr m0 s0 l) (Hmap : words_mapped m0 s0 (s0 + zlen l)).
Context (Hdst : mapped m0 d0 (n0 + 1)) (Hn0 : 0 <= n0).
Context (Hapart : d0 + n0 < s0 \/ 8 * ((s0 + zlen l) / 8) + 8 <= d0).

(** After [j] characters: they are in place, and only the destination has changed. *)
Record copying (m : mem) (d s n j : Z) : Prop := {
  cp_d : d = d0 + j; cp_s : s = s0 + j; cp_n : n = n0 - j;
  cp_j : 0 <= j <= zlen l; cp_jn : j <= n0;
  cp_done : bytes_at m d0 (take (Z.to_nat j) l);
  cp_else a : ~ (d0 <= a < d0 + n0 + 1) -> m !! a = m0 !! a;
  cp_mapped : mapped m d0 (n0 + 1);
  cp_ok : bytes_ok m
}.

Lemma src_lookup m d s n j a :
  copying m d s n j -> s0 <= a < 8 * ((s0 + zlen l) / 8) + 8 -> m !! a = m0 !! a.
Proof. intros C Ha. apply (cp_else _ _ _ _ _ C). lia. Qed.

Lemma src_end : s0 + zlen l < 8 * ((s0 + zlen l) / 8) + 8.
Proof.
  pose proof (Z.div_mod (s0 + zlen l) 8 ltac:(lia)).
  pose proof (Z.mod_pos_bound (s0 + zlen l) 8 ltac:(lia)). lia.
Qed.

(** The rest of the source is still there. *)
Lemma src_rest m d s n j : copying m d s n j -> cstr m s (drop (Z.to_nat j) l).
Proof.
  intros C. pose proof src_end. pose proof (cp_j _ _ _ _ _ C) as Hj. rewrite (cp_s _ _ _ _ _ C).
  assert (Hc : cstr m s0 l).
  { eapply cstr_agree; [exact Hsrc|]. intros a Ha. eapply src_lookup; [done|lia]. }
  rewrite <- (take_drop (Z.to_nat j) l) in Hc. apply cstr_app in Hc. rewrite length_take in Hc.
  by replace (s0 + Z.of_nat (Z.to_nat j `min` length l)) with (s0 + j) in Hc by lia.
Qed.

Lemma copying_store m d s n j b v :
  copying m d s n j -> 0 < n -> l !! Z.to_nat j = Some b -> v = b ->
  copying (<[d := v]> m) (d + 1) (s + 1) (n - 1) (j + 1).
Proof.
  intros [-> -> -> Hj Hjn Hd He Hm Hok] Hn Hb ->. pose proof (lookup_lt_Some _ _ _ Hb) as Hlt.
  assert (Hbb : byte b).
  { pose proof (cs_chars _ _ _ Hsrc) as Hch. rewrite Forall_lookup in Hch. specialize (Hch _ _ Hb).
    unfold byte. lia. }
  split; try lia.
  - replace (Z.to_nat (j + 1)) with (S (Z.to_nat j)) by lia. rewrite (take_S_r l _ b Hb).
    apply bytes_at_app. rewrite length_take. replace (Z.of_nat (Z.to_nat j `min` length l)) with j by lia.
    split.
    + intros i x Hi. pose proof (lookup_lt_Some _ _ _ Hi) as Hi'. rewrite length_take in Hi'.
      rewrite lookup_insert_ne by lia. by apply Hd.
    + apply bytes_at_cons. split; [apply lookup_insert_eq|by intros i x Hi].
  - intros a Ha. rewrite lookup_insert_ne by lia. by apply He.
  - intros x Hx. destruct (decide (x = d0 + j)) as [->|]; [rewrite lookup_insert_eq; eauto|].
    rewrite lookup_insert_ne by done. by apply Hm.
  - by apply bytes_ok_insert.
Qed.

Lemma lcpy_loop_spec fuel al m d s n j :
  copying m d s n j -> zlen l - j < Z.of_nat fuel ->
  exists m' d' s' n' j', lcpy_loop fuel al m d s n = Some (m', d', s', n') /\
    copying m' d' s' n' j' /\ j <= j' /\
    (n' = 0 \/ j' = zlen l \/ al = true /\ Z.land s' 7 = 0).
Proof.
  revert m d s n j. induction fuel as [|fuel IH]; intros m d s n j C Hf.
  { pose proof (cp_j _ _ _ _ _ C). lia. }
  cbn [lcpy_loop]. destruct ((al && (Z.land s 7 =? 0)) || (n =? 0)) eqn:E.
  { exists m, d, s, n, j. split; [done|]. split; [done|]. split; [lia|].
    apply orb_true_iff in E as [E|E]; tests; [by right; right|by left]. }
  apply orb_false_iff in E as [_ En]. apply Z.eqb_neq in En.
  pose proof (cp_j _ _ _ _ _ C) as Hj. pose proof (cp_n _ _ _ _ _ C) as Hn. pose proof (cp_jn _ _ _ _ _ C) as Hjn.
  pose proof (src_rest _ _ _ _ _ C) as Hrest. unfold load8.
  destruct (drop (Z.to_nat j) l) as [|b rest] eqn:Er.
  - apply cstr_nil in Hrest. rewrite Hrest. cbn [mbind option_bind].
    assert (Hjl : j = zlen l).
    { apply (f_equal length) in Er. rewrite length_drop in Er. cbn in Er. lia. }
    rewrite store8_byte; [|apply (cp_mapped _ _ _ _ _ C); rewrite (cp_d _ _ _ _ _ C); lia|unfold byte; lia].
    cbn [mbind option_bind Z.eqb]. exists (<[d := 0]> m), d, s, n, j. split; [done|].
    split; [|split; [lia|by right; left]].
    destruct C as [-> -> -> ? ? Hd He Hm Hok]. split; try done; try lia.
    + intros i x Hi. pose proof (lookup_lt_Some _ _ _ Hi) as Hi'. rewrite length_take in Hi'.
      rewrite lookup_insert_ne by lia. by apply Hd.
    + intros a Ha. rewrite lookup_insert_ne by lia. by apply He.
    + intros x Hx. destruct (decide (x = d0 + j)) as [->|]; [rewrite lookup_insert_eq; eauto|].
      rewrite lookup_insert_ne by done. by apply Hm.
    + apply bytes_ok_insert; [done|unfold byte; lia].
  - apply cstr_cons in Hrest as (Hb & Hr & _). rewrite Hb. cbn [mbind option_bind].
    rewrite store8_byte; [|apply (cp_mapped _ _ _ _ _ C); rewrite (cp_d _ _ _ _ _ C); lia|unfold byte; lia].
    cbn [mbind option_bind]. destruct (Z.eqb_spec b 0); [lia|].
    assert (Hlk : l !! Z.to_nat j = Some b).
    { rewrite <- (Nat.add_0_r (Z.to_nat j)), <- lookup_drop, Er. done. }
    pose proof (lookup_lt_Some _ _ _ Hlk).
    destruct (IH _ _ _ _ (j + 1) (copying_store m d s n j b b C ltac:(lia) Hlk eq_refl))
      as (m' & d' & s' & n' & j' & -> & C' & Hj' & Hend); [lia|].
    exists m', d', s', n', j'. split; [done|]. split; [done|]. split; [lia|done].
Qed.

(** One word of eight nonzero bytes is eight characters. *)
Lemma word_of_chars m d s n j :
  copying m d s n j -> s mod 8 = 0 ->
  exists bs, load_bytes m s 8 = Some bs /\ length bs = 8%nat /\ Forall byte bs /\
    (Forall (fun b => b <> 0) bs -> j + 8 <= zlen l /\ bs = take 8 (drop (Z.to_nat j) l)).
Proof.
  intros C Hal. pose proof (cp_j _ _ _ _ _ C) as Hj. pose proof (cp_s _ _ _ _ _ C) as Hs.
  destruct (load_bytes_Some m s 8) as (bs & Hbs & Hl & Hat).
  { intros i Hi. erewrite src_lookup; [|done|].
    - apply Hmap. pose proof (Z.div_mod s 8 ltac:(lia)).
      pose proof (Z.div_le_mono s (s0 + zlen l) 8 ltac:(lia) ltac:(lia)). lia.
    - pose proof (Z.div_mod s 8 ltac:(lia)).
      pose proof (Z.div_le_mono s (s0 + zlen l) 8 ltac:(lia) ltac:(lia)). lia. }
  exists bs. split; [done|]. split; [done|].
  split; [by eapply bytes_at_ok; [apply (cp_ok _ _ _ _ _ C)|]|]. intros Hnz.
  pose proof (src_rest _ _ _ _ _ C) as [R1 R2 R3]. rewrite length_drop in R2.
  assert (Hlen : j + 8 <= zlen l).
  { destruct (Z.leb_spec (j + 8) (zlen l)); [done|]. exfalso.
    destruct (lookup_lt_is_Some_2 bs (length l - Z.to_nat j)) as [y Hy]; [lia|].
    rewrite Forall_lookup in Hnz. apply (Hnz _ _ Hy). apply Hat in Hy. congruence. }
  split; [done|]. apply list_eq_same_length with 8%nat; [rewrite length_take, length_drop; lia|done|].
  intros i x y Hi Hx Hy. rewrite lookup_take_lt in Hy by lia. apply Hat in Hx. apply R1 in Hy. congruence.
Qed.

Lemma copying_word m d s n j bs m' :
  copying m d s n j -> 8 <= n -> length bs = 8%nat -> j + 8 <= zlen l ->
  bs = take 8 (drop (Z.to_nat j) l) -> bytes_at m' d bs ->
  (forall x, ~ (d <= x < d + 8) -> m' !! x = m !! x) ->
  copying m' (d + 8) (s + 8) (n - 8) (j + 8).
Proof.
  intros [-> -> -> Hj Hjn Hd He Hm Hok] Hn Hl Hj8 Hbs Hat Hag.
  assert (Htk : take (Z.to_nat (j + 8)) l = take (Z.to_nat j) l ++ bs).
  { rewrite Hbs. replace (Z.to_nat (j + 8)) with (Z.to_nat j + 8)%nat by lia. by rewrite take_take_drop. }
  assert (Hby : Forall byte bs).
  { rewrite Hbs. apply Forall_take, Forall_drop. eapply Forall_impl; [apply (cs_chars _ _ _ Hsrc)|].
    intros x Hx. cbn beta in Hx. unfold byte. lia. }
  split; try lia.
  - rewrite Htk. apply bytes_at_app. rewrite length_take.
    replace (Z.of_nat (Z.to_nat j `min` length l)) with j by lia. split; [|done].
    intros i x Hi. pose proof (lookup_lt_Some _ _ _ Hi) as Hi'. rewrite length_take in Hi'.
    rewrite Hag by lia. by apply Hd.
  - intros a Ha. rewrite Hag by lia. by apply He.
  - intros x Hx. destruct (decide (d0 + j <= x < d0 + j + 8)) as [Hin|Hout].
    + destruct (lookup_lt_is_Some_2 bs (Z.to_nat (x - (d0 + j)))) as [y Hy]; [lia|].
      apply Hat in Hy. exists y. rewrite <- Hy. f_equal. lia.
    + rewrite Hag by done. by apply Hm.
  - intros a x Ha. destruct (decide (d0 + j <= a < d0 + j + 8)) as [Hin|Hout].
    + destruct (lookup_lt_is_Some_2 bs (Z.to_nat (a - (d0 + j)))) as [y Hy]; [lia|].
      rewrite Forall_lookup in Hby. pose proof (Hby _ _ Hy) as Hyb. apply Hat in Hy.
      replace (d0 + j + Z.of_nat (Z.to_nat (a - (d0 + j)))) with a in Hy by lia. by simplify_eq.
    + rewrite Hag in Ha by done. by eapply Hok.
Qed.

Lemma lcpy_words_spec fuel m d s n j :
  copying m d s n j -> s mod 8 = 0 -> n0 - j < Z.of_nat fuel ->
  exists m' d' s' n' j', lcpy_words fuel m d s n = Some (m', d', s', n') /\
    copying m' d' s' n' j' /\ j <= j'.
Proof.
  revert m d s n j. induction fuel as [|fuel IH]; intros m d s n j C Hal Hf.
  { pose proof (cp_jn _ _ _ _ _ C). lia. }
  cbn [lcpy_words]. destruct (Z.leb_spec 8 n) as [Hn8|_].
  2: { exists m, d, s, n, j. split; [done|]. split; [done|lia]. }
  destruct (word_of_chars m d s n j C Hal) as (bs & Hbs & Hl & Hby & Hnz).
  unfold load64. rewrite Hbs. cbn [mbind option_bind].
  destruct (Z.eqb_spec (HASZERO (le bs)) 0) as [Hz|_].
  2: { exists m, d, s, n, j. split; [done|]. split; [done|lia]. }
  apply haszero_spec in Hz; [|done|done]. destruct (Hnz Hz) as [Hj8 Hbs'].
  destruct (store_le_spec bs m d Hby) as (m1 & Hst & Hat & Hag).
  { rewrite Hl. intros x Hx. apply (cp_mapped _ _ _ _ _ C).
    pose proof (cp_d _ _ _ _ _ C). pose proof (cp_n _ _ _ _ _ C). pose proof (cp_j _ _ _ _ _ C). lia. }
  rewrite Hl in Hst, Hag. unfold store64. rewrite Hst. cbn [mbind option_bind].
  pose proof (copying_word m d s n j bs m1 C Hn8 Hl Hj8 Hbs' Hat Hag) as C1.
  destruct (IH _ _ _ _ _ C1) as (m' & d' & s' & n' & j' & -> & C' & Hj').
  - rewrite <- Hal. apply (Z_mod_plus_full s 1 8).
  - lia.
  - exists m', d', s', n', j'. split; [done|]. split; [done|lia].
Qed.

Lemma strlcpy_run fuel :
  zlen l + n0 < Z.of_nat fuel -> zlen l < SIZE_MAX ->
  exists m', strlcpy fuel m0 d0 s0 (n0 + 1) = Some (zlen l, m') /\
    cstr m' d0 (take (Z.to_nat n0) l) /\
    forall a, ~ (d0 <= a < d0 + n0 + 1) -> m' !! a = m0 !! a.
Proof.
  intros Hf Hsz. unfold strlcpy. destruct (Z.eqb_spec (n0 + 1) 0) as [|_]; [lia|]. cbv zeta.
  replace (n0 + 1 - 1) with n0 by lia.
  assert (C0 : copying m0 d0 s0 n0 0).
  { split; try lia; done. }
  (* the aligned prefix and the words *)
  assert (H1 : exists m1 d1 s1 n1 j1,
    (if Z.land s0 7 =? Z.land d0 7 then
       '(m, d, s, n) ← lcpy_loop fuel true m0 d0 s0 n0;
       if n =? 0 then Some (m, d, s, n)
       else b ← load8 m s;
            if negb (b =? 0) then lcpy_words fuel m d s n else Some (m, d, s, n)
     else Some (m0, d0, s0, n0)) = Some (m1, d1, s1, n1) /\ copying m1 d1 s1 n1 j1).
  { case_test; [|by exists m0, d0, s0, n0, 0].
    destruct (lcpy_loop_spec fuel true m0 d0 s0 n0 0 C0) as (m1 & d1 & s1 & n1 & j1 & -> & C1 & _ & Hex);
      [lia|]. cbn [mbind option_bind]. case_test; [by exists m1, d1, s1, n1, j1|].
    pose proof (src_rest _ _ _ _ _ C1) as Hr. pose proof (cp_j _ _ _ _ _ C1).
    unfold load8. destruct (drop (Z.to_nat j1) l) as [|b rest] eqn:Er.
    - apply cstr_nil in Hr. rewrite Hr. cbn. by exists m1, d1, s1, n1, j1.
    - apply cstr_cons in Hr as (Hb & Hbr & _). rewrite Hb. cbn [mbind option_bind].
      destruct (Z.eqb_spec b 0) as [|_]; [lia|]. cbn [negb].
      assert (Hal : s1 mod 8 = 0).
      { destruct Hex as [?|[->|[_ Hl7]]]; [done| |by rewrite <- Hl7; symmetry; apply (land_mask s1 3)].
        rewrite drop_ge in Er by lia. done. }
      destruct (lcpy_words_spec fuel m1 d1 s1 n1 j1 C1 Hal) as (m2 & d2 & s2 & n2 & j2 & -> & C2 & _);
        [lia|]. by exists m2, d2, s2, n2, j2. }
  destruct H1 as (m1 & d1 & s1 & n1 & j1 & H1 & C1).
  setoid_rewrite H1. cbn [mbind option_bind].
  pose proof (cp_j _ _ _ _ _ C1) as Hj1.
  destruct (lcpy_loop_spec fuel false m1 d1 s1 n1 j1 C1) as (m2 & d2 & s2 & n2 & j2 & -> & C2 & _ & Hex);
    [lia|]. cbn [mbind option_bind].
  pose proof (cp_j _ _ _ _ _ C2) as Hj2. pose proof (cp_jn _ _ _ _ _ C2) as Hjn2.
  assert (Hend : take (Z.to_nat n0) l = take (Z.to_nat j2) l).
  { destruct Hex as [Hn|[->|[? _]]]; [|by rewrite !take_ge by lia|done].
    pose proof (cp_n _ _ _ _ _ C2). do 2 f_equal. lia. }
  rewrite store8_byte; [|apply (cp_mapped _ _ _ _ _ C2); rewrite (cp_d _ _ _ _ _ C2); lia|unfold byte; lia].
  cbn [mbind option_bind]. set (m3 := <[d2 := 0]> m2). pose proof src_end as Hse.
  assert (Hs3 : cstr m3 s2 (drop (Z.to_nat j2) l)).
  { eapply cstr_agree; [by eapply src_rest|]. intros a Ha. apply lookup_insert_ne.
    rewrite length_drop in Ha. rewrite (cp_s _ _ _ _ _ C2) in Ha. rewrite (cp_d _ _ _ _ _ C2). lia. }
  rewrite (strlen_spec fuel m3 s2 _ Hs3) by (rewrite length_drop; lia). cbn [mbind option_bind].
  exists m3. split; [|split].
  - do 2 f_equal. rewrite length_drop, (cp_d _ _ _ _ _ C2). unfold SIZE_MAX in Hsz.
    rewrite wrap_small by (unfold in_u; lia). lia.
  - rewrite Hend. split.
    + intros i x Hi. pose proof (lookup_lt_Some _ _ _ Hi) as Hi'. rewrite length_take in Hi'.
      unfold m3. rewrite lookup_insert_ne by (rewrite (cp_d _ _ _ _ _ C2); lia).
      by apply (cp_done _ _ _ _ _ C2).
    + rewrite length_take. unfold m3. rewrite (cp_d _ _ _ _ _ C2).
      replace (Z.of_nat (Z.to_nat j2 `min` length l)) with j2 by lia. apply lookup_insert_eq.
    + apply Forall_take, (cs_chars _ _ _ Hsrc).
  - intros a Ha. unfold m3. rewrite lookup_insert_ne by (rewrite (cp_d _ _ _ _ _ C2); lia).
    by apply (cp_else _ _ _ _ _ C2).
Qed.
End Lcpy.

(** *** Properties *)

(** A small memory for examples: the bytes of [l] from address [a] on. *)
Definition mem_of (a : Z) (l : list Z) : mem := list_to_map (zip (seqZ a (zlen l)) l).

Definition all_bytes (m : mem) : bool := forallb (fun p => (0 <=? p.2) && (p.2 <? 256)) (map_to_list m).

Lemma all_bytes_ok m : all_bytes m = true -> bytes_ok m.
Proof.
  intros H a x Hx. unfold all_bytes in H. rewrite forallb_forall in H.
  specialize (H (a, x)). rewrite <- list_elem_of_In, elem_of_map_to_list in H.
  specialize (H Hx). cbn in H. tests. done.
Qed.

(** "somekey=1,2" at 18, in memory that is mapped up to a word boundary; separators at 64. *)
Definition mem_ex : mem :=
  mem_of 16 [0; 0; 107; 101; 121; 61; 49; 44; 50; 0; 0; 0; 0; 0; 0; 0] ∪ mem_of 64 [61; 44; 0].
Definition str_ex : list Z := [107; 101; 121; 61; 49; 44; 50].

Lemma mem_ex_ok : bytes_ok mem_ex.
Proof. apply all_bytes_ok. vm_compute. reflexivity. Qed.

(** Check a string in memory by evaluation. *)
Definition cstrb (m : mem) (s : Z) (l : list Z) : bool :=
  forallb (fun p : Z * Z => bool_decide (m !! (s + p.1) = Some p.2)) (zip (seqZ 0 (zlen l + 1)) (l ++ [0])) &&
  forallb (fun x => (0 <? x) && (x <? 256)) l.

Lemma cstrb_ok m s l : cstrb m s l = true -> cstr m s l.
Proof.
  unfold cstrb. rewrite andb_true_iff, !forallb_forall. intros [H1 H2].
  assert (Hall : forall (i : nat) x, (l ++ [0]) !! i = Some x -> m !! (s + Z.of_nat i) = Some x).
  { intros i x Hi. specialize (H1 (Z.of_nat i, x)). cbn in H1. rewrite bool_decide_eq_true in H1.
    apply H1, list_elem_of_In, list_elem_of_lookup. exists i. apply lookup_zip_Some. split; [|done].
    apply lookup_seqZ. apply lookup_lt_Some in Hi. rewrite length_app in Hi. cbn in Hi. lia. }
  split.
  - intros i x Hi. apply Hall. by apply lookup_app_l_Some.
  - apply Hall. rewrite lookup_app_r, Nat.sub_diag by lia. done.
  - apply Forall_forall. intros x Hx. apply list_elem_of_In in Hx. specialize (H2 x Hx). tests. lia.
Qed.

(** Check that a range is mapped by evaluation. *)
Definition mappedb (m : mem) (a n : Z) : bool :=
  forallb (fun x => bool_decide (is_Some (m !! x))) (seqZ a n).

Lemma mappedb_ok m a n : mappedb m a n = true -> mapped m a n.
Proof.
  unfold mappedb. rewrite forallb_forall. intros H x Hx.
  specialize (H x). rewrite bool_decide_eq_true in H. apply H, list_elem_of_In, elem_of_seqZ. lia.
Qed.

Lemma words_mappedb_ok m s e : mappedb m s (8 * (e / 8) + 8 - s) = true -> words_mapped m s e.
Proof. intros H a Ha. apply (mappedb_ok _ _ _ H). lia. Qed.

(** [strchr] and [strchrnul], which look at aligned 8-byte words with the HASZERO trick,
    return the first occurrence of the character in the string, and NULL respectively the
    terminator when there is none, for every alignment of the string; reading whole words is
    safe as soon as the words that hold the string are mapped. *)
Theorem strchr_correct fuel m s l c :
  bytes_ok m -> cstr m s l -> words_mapped m s (s + zlen l) -> zlen l < SIZE_MAX ->
  (length l < fuel)%nat -> 0 < c < 256 ->
  strchrnul fuel m s c = Some (s + idx c l) /\
  strchr fuel m s c = Some (if idx c l <? zlen l then Some (s + idx c l) else None) /\
  (idx c l < zlen l -> m !! (s + idx c l) = Some c) /\ c ∉ take (Z.to_nat (idx c l)) l.
Proof.
  intros Hok Hs Hmap Hsz Hf Hc. assert (Hu : u8 c = c) by (apply wrap_small; unfold in_u; lia).
  pose proof (strchrnul_spec fuel m s l c Hok Hs Hmap Hsz Hf) as Hn. rewrite Hu in Hn.
  pose proof (idx_range c l) as Hr. split; [done|].
  assert (Hin : idx c l < zlen l -> m !! (s + idx c l) = Some c).
  { intros Hlt. pose proof (cstr_lookup _ _ _ _ _ Hs (idx_in c l Hlt)) as Hl.
    by rewrite Z2Nat.id in Hl by lia. }
  split; [|split; [done|]].
  - unfold strchr, load8. rewrite Hn. cbn [mbind option_bind]. rewrite Hu. case_test.
    + rewrite Hin by done. cbn. by rewrite Z.eqb_refl.
    + replace (idx c l) with (zlen l) by lia. rewrite (cs_nul _ _ _ Hs). cbn [mbind option_bind].
      destruct (Z.eqb_spec 0 c); [lia|done].
  - clear. induction l as [|x l IH]; cbn; [apply not_elem_of_nil|]. case_test; [apply not_elem_of_nil|].
    pose proof (idx_range c l). replace (Z.to_nat (1 + idx c l)) with (S (Z.to_nat (idx c l))) by lia.
    cbn. apply not_elem_of_cons. split; [congruence|done].
Qed.

Lemma strchr_correct_witness :
  strchrnul 10 mem_ex 18 44 = Some 23 /\ strchr 10 mem_ex 18 44 = Some (Some 23).
Proof.
  destruct (strchr_correct 10 mem_ex 18 str_ex 44) as (H1 & H2 & _).
  - exact mem_ex_ok.
  - apply cstrb_ok. vm_compute. reflexivity.
  - apply words_mappedb_ok. vm_compute. reflexivity.
  - by compute.
  - cbn. lia.
  - lia.
  - split; [exact H1|exact H2].
Defined.

(** [strspn] and [strcspn], through the single-character shortcuts or the 256-bit set,
    return the length of the longest prefix of characters inside, respectively outside, the
    given set. *)
Theorem strspn_strcspn_correct fuel m s l c lc :
  bytes_ok m -> cstr m s l -> cstr m c lc -> words_mapped m s (s + zlen l) -> zlen l < SIZE_MAX ->
  (length l < fuel)%nat -> (length lc < fuel)%nat ->
  strspn fuel m s c = Some (span_len (in_set lc) l) /\
  strcspn fuel m s c = Some (span_len (fun x => negb (in_set lc x)) l).
Proof. intros. split; [by apply strspn_spec|by apply strcspn_spec]. Qed.

Lemma strspn_strcspn_correct_witness :
  strspn 10 mem_ex 18 64 = Some 0 /\ strcspn 10 mem_ex 18 64 = Some 3.
Proof.
  apply (strspn_strcspn_correct 10 mem_ex 18 str_ex 64 [61; 44]).
  - exact mem_ex_ok.
  - apply cstrb_ok. vm_compute. reflexivity.
  - apply cstrb_ok. vm_compute. reflexivity.
  - apply words_mappedb_ok. vm_compute. reflexivity.
  - by compute.
  - cbn. lia.
  - cbn. lia.
Defined.

(** C34: calling [strtok_r] with the string and then with NULL until it returns NULL yields
    exactly the tokens of the string, the maximal runs without separators, in order, each
    terminated in place, and changes memory only inside the string. *)
Theorem strtok_r_tokenizes fuel m s l sep lc p :
  (length lc < fuel)%nat -> tok_ok fuel sep lc m s l ->
  exists ps m', tokenize (S (length l)) fuel m s sep p = Some (ps, m') /\
    Forall2 (cstr m') ps (tokens (in_set lc) l) /\
    (forall a, ~ (s <= a < s + zlen l) -> m' !! a = m !! a).
Proof. intros Hf T. apply (tokenize_spec fuel sep lc Hf _ m s l p s T); [lia|by left]. Qed.

Lemma strtok_r_tokenizes_witness :
  exists ps m', tokenize 8 10 mem_ex 18 64 0 = Some (ps, m') /\
    Forall2 (cstr m') ps [[107; 101; 121]; [49]; [50]].
Proof.
  destruct (strtok_r_tokenizes 10 mem_ex 18 str_ex 64 [61; 44] 0) as (ps & m' & H1 & H2 & _).
  - cbn. lia.
  - split.
    + exact mem_ex_ok.
    + lia.
    + apply cstrb_ok. vm_compute. reflexivity.
    + apply cstrb_ok. vm_compute. reflexivity.
    + right. cbn. lia.
    + apply words_mappedb_ok. vm_compute. reflexivity.
    + by compute.
    + cbn. lia.
  - exists ps, m'. split; [exact H1|exact H2].
Defined.

(** [strlcpy] with a buffer of [n > 0] bytes apart from the source, with equal or different
    alignment: the buffer then holds the first [n - 1] characters and a terminator, memory
    outside it is unchanged, and the result is the length of the source. *)
Theorem strlcpy_correct fuel m d s n l :
  bytes_ok m -> cstr m s l -> words_mapped m s (s + zlen l) -> 0 < n -> mapped m d n ->
  (d + n <= s \/ 8 * ((s + zlen l) / 8) + 8 <= d) ->
  zlen l + n <= Z.of_nat fuel -> zlen l < SIZE_MAX ->
  exists m', strlcpy fuel m d s n = Some (zlen l, m') /\
    cstr m' d (take (Z.to_nat (n - 1)) l) /\
    forall a, ~ (d <= a < d + n) -> m' !! a = m !! a.
Proof.
  intros Hok Hs Hmap Hn Hd Hap Hf Hsz.
  destruct (strlcpy_run m d s (n - 1) l) with (fuel := fuel) as (m' & H1 & H2 & H3);
    try done; try lia; [by replace (n - 1 + 1) with n by lia|].
  replace (n - 1 + 1) with n in H1 by lia. exists m'. split; [done|]. split; [done|].
  intros a Ha. apply H3. lia.
Qed.

Lemma strlcpy_correct_witness :
  exists m', strlcpy 20 mem_ex 64 18 3 = Some (7, m') /\ cstr m' 64 [107; 101].
Proof.
  destruct (strlcpy_correct 20 mem_ex 64 18 3 str_ex) as (m' & H1 & H2 & _).
  - exact mem_ex_ok.
  - apply cstrb_ok. vm_compute. reflexivity.
  - apply words_mappedb_ok. vm_compute. reflexivity.
  - lia.
  - apply mappedb_ok. vm_compute. reflexivity.
  - right. by compute.
  - cbn. lia.
  - by compute.
  - exists m'. split; [exact H1|exact H2].
Defined.

(** [memcpy] of regions that do not overlap (or with the destination in front) and
    [memmove] towards lower addresses, overlapping or not, copy exactly the [len] bytes;
    [memset] fills exactly its range. *)
Theorem mem_copy_correct m dst src val len :
  bytes_ok m -> 0 <= len -> mapped m src len -> mapped m dst len ->
  ((dst <= src \/ src + len <= dst) ->
   exists m', memcpy m dst src len = Some m' /\ copied m m' dst src len) /\
  (dst < src -> exists m', memmove m dst src len = Some m' /\ copied m m' dst src len) /\
  exists m', memset m dst val len = Some m' /\
    forall a, m' !! a = if decide (dst <= a < dst + len) then Some (u8 val) else m !! a.
Proof.
  intros Hok Hl Hs Hd. rewrite <- (Z2Nat.id len Hl) in *. set (k := Z.to_nat len) in *. split; [|split].
  - intros Hap. unfold memcpy. rewrite Nat2Z.id, memcpy_move, !Z.add_0_r. by apply move_up_spec.
  - intros Hlt. unfold memmove. destruct (Z.ltb_spec dst src); [|lia]. rewrite Nat2Z.id.
    apply move_up_spec; try done. left. lia.
  - unfold memset. rewrite Nat2Z.id. by apply memset_spec.
Qed.

Lemma mem_copy_correct_witness :
  exists m', memmove mem_ex 17 18 5 = Some m' /\ copied mem_ex m' 17 18 5.
Proof.
  apply (proj1 (proj2 (mem_copy_correct mem_ex 17 18 0 5 mem_ex_ok ltac:(lia)
    (mappedb_ok mem_ex 18 5 ltac:(vm_compute; reflexivity))
    (mappedb_ok mem_ex 17 5 ltac:(vm_compute; reflexivity))))). lia.
Defined.

(** [strcmp] is zero exactly on equal strings, and [memcmp] is the difference of the first
    bytes that differ. *)
Theorem compare_correct fuel m s1 l1 s2 l2 p1 b1 p2 b2 :
  cstr m s1 l1 -> cstr m s2 l2 -> (length l1 < fuel)%nat ->
  bytes_at m p1 b1 -> bytes_at m p2 b2 -> length b1 = length b2 ->
  (exists r, strcmp fuel m s1 s2 = Some r /\ (r = 0 <-> l1 = l2)) /\
  memcmp m p1 p2 (zlen b1) = Some (lex b1 b2).
Proof. intros. split; [by apply strcmp_spec|by apply memcmp_spec]. Qed.

Lemma compare_correct_witness :
  (exists r, strcmp 10 mem_ex 18 64 = Some r /\ (r = 0 <-> str_ex = [61; 44])) /\
  memcmp mem_ex 18 64 2 = Some (lex [107; 101] [61; 44]).
Proof.
  apply (compare_correct 10 mem_ex 18 str_ex 64 [61; 44] 18 [107; 101] 64 [61; 44]).
  - apply cstrb_ok. vm_compute. reflexivity.
  - apply cstrb_ok. vm_compute. reflexivity.
  - cbn. lia.
  - intros [|[|i]] x Hi; [injection Hi as <-; vm_compute; reflexivity..|discriminate Hi].
  - intros [|[|i]] x Hi; [injection Hi as <-; vm_compute; reflexivity..|discriminate Hi].
  - reflexivity.
Defined.

(** Towards higher addresses [memmove] copies bytes 1 to [len] instead of 0 to [len - 1]:
    moving the two bytes "ab" one place up in "abcd" should give "aabd" and gives "abbc", one
    byte past the destination range overwritten and the first byte of the range not. *)
Theorem memmove_backward_off_by_one :
  exists m', memmove (mem_of 0 [97; 98; 99; 100]) 1 0 2 = Some m' /\
    (m' !! 1, m' !! 2, m' !! 3) = (Some 98, Some 98, Some 99).
Proof. eexists. split; vm_compute; reflexivity. Qed.

(** Copying the empty string reads the byte in front of the destination: if it is zero the
    destination is not terminated, and if it is not mapped the access fails. *)
Theorem strncpy_empty_source :
  (exists m', strncpy 5 (mem_of 0 [0; 120; 120; 0]) 1 3 2 = Some m' /\ m' !! 1 = Some 120) /\
  strncpy 5 (mem_of 1 [120; 120; 0]) 1 3 2 = None.
Proof. split; [eexists; split; vm_compute; reflexivity|vm_compute; reflexivity]. Qed.
End Nolibc.
