(* ===== verification/Sglist.v ===== *)
(** * Sglist: scatter-gather lists

    [lib/uksglist/sglist.c] and [include/uk/sglist.h]: lists of physical segments built from
    virtual buffers, which the virtio drivers hand to the virtqueues.  The array of segments
    is a list whose length is the allocated capacity; [None] is an access outside it.  The
    translation [ukplat_virt_to_phys] belongs to the platform and is a parameter, with the
    hypothesis that it is linear inside a page (the KVM and Linux platforms use the
    identity).  The theorems relate a list to the physical bytes it names. *)
From Stdlib Require Import ZArith Lia Bool.
From S2P Require Import Prelude.
Open Scope Z_scope.

Module Sglist.

Definition EINVAL : Z := 22.
Definition ENOMEM : Z := 12.
Definition EFBIG : Z := 27.
Definition EDOOFUS : Z := 88.
Definition PAGE_SIZE : Z := 4096.

Record uk_sglist_seg := Seg { ss_paddr : Z; ss_len : Z }.
Record uk_sglist := SG { sg_segs : list uk_sglist_seg; sg_refs : Z; sg_nseg : Z; sg_maxseg : Z }.

Definition set_segs (sg : uk_sglist) (l : list uk_sglist_seg) (n : Z) : uk_sglist :=
  SG l (sg_refs sg) n (sg_maxseg sg).

Definition uk_sglist_init (maxsegs : Z) (segs : list uk_sglist_seg) : uk_sglist := SG segs 1 0 (u16 maxsegs).
Definition uk_sglist_reset (sg : uk_sglist) : uk_sglist := set_segs sg (sg_segs sg) 0.

Definition page_off (x : Z) : Z := Z.land x (PAGE_SIZE - 1).
Definition trunc_page (x : Z) : Z := Z.land x (lnotw 64 (PAGE_SIZE - 1)).

(** [SGLIST_SAVE] and [SGLIST_RESTORE]. *)
Definition SGLIST_SAVE (sg : uk_sglist) : option (Z * Z) :=
  if 0 <? sg_nseg sg then s ← zget (sg_segs sg) (sg_nseg sg - 1); Some (sg_nseg sg, ss_len s)
  else Some (sg_nseg sg, 0).

Definition SGLIST_RESTORE (sg : uk_sglist) (save : Z * Z) : option uk_sglist :=
  if 0 <? save.1 then
    s ← zget (sg_segs sg) (save.1 - 1);
    l ← zset (sg_segs sg) (save.1 - 1) (Seg (ss_paddr s) save.2);
    Some (set_segs sg l save.1)
  else Some (set_segs sg (sg_segs sg) save.1).

(** [ss] is the index of the current segment: error code, new index, list. *)
Definition _sglist_append_range (sg : uk_sglist) (ss paddr len : Z) : option (Z * Z * uk_sglist) :=
  s ← zget (sg_segs sg) ss;
  if u64 (ss_paddr s + ss_len s) =? paddr then
    l ← zset (sg_segs sg) ss (Seg (ss_paddr s) (u64 (ss_len s + len)));
    Some (0, ss, set_segs sg l (sg_nseg sg))
  else if sg_nseg sg =? sg_maxseg sg then Some (- EFBIG, ss, sg)
  else
    l ← zset (sg_segs sg) (ss + 1) (Seg paddr len);
    Some (0, ss + 1, set_segs sg l (u16 (sg_nseg sg + 1))).

Section Append.
Context (virt_to_phys : Z -> Z).

(** The loop over the pages after the first. *)
Fixpoint append_pages (fuel : nat) (sg : uk_sglist) (ss vaddr len : Z) : option (Z * uk_sglist) :=
  match fuel with
  | O => None
  | S fuel' =>
      if len =? 0 then Some (0, sg)
      else
        let seglen := Z.min len PAGE_SIZE in
        '(error, ss, sg) ← _sglist_append_range sg ss (virt_to_phys vaddr) seglen;
        if negb (error =? 0) then Some (error, sg)
        else append_pages fuel' sg ss (u64 (vaddr + seglen)) (u64 (len - seglen))
  end.

(** The callers pass no [donep]. *)
Definition _sglist_append_buf (sg : uk_sglist) (buf len : Z) : option (Z * uk_sglist) :=
  if len =? 0 then Some (0, sg)
  else
    let vaddr := buf in
    let offset := page_off vaddr in
    let paddr := virt_to_phys vaddr in
    let seglen := Z.min len (PAGE_SIZE - offset) in
    r ← (if sg_nseg sg =? 0 then
           l ← zset (sg_segs sg) 0 (Seg paddr seglen);
           Some (0, 0, set_segs sg l 1)
         else _sglist_append_range sg (sg_nseg sg - 1) paddr seglen);
    let '(error, ss, sg) := r in
    if negb (error =? 0) then Some (error, sg)
    else append_pages (S (Z.to_nat (len / PAGE_SIZE + 1))) sg ss (u64 (vaddr + seglen)) (u64 (len - seglen)).

(** The loop of [uk_sglist_count]: segments so far, last physical page, next page. *)
Fixpoint count_loop (fuel : nat) (nsegs lastaddr vaddr vendaddr : Z) : option Z :=
  match fuel with
  | O => None
  | S fuel' =>
      if negb (vaddr <? vendaddr) then Some nsegs
      else
        let paddr := virt_to_phys vaddr in
        let nsegs := if negb (u64 (lastaddr + PAGE_SIZE) =? paddr) then nsegs + 1 else nsegs in
        count_loop fuel' nsegs paddr (u64 (vaddr + PAGE_SIZE)) vendaddr
  end.

Definition uk_sglist_count (buf len : Z) : option Z :=
  if len =? 0 then Some 0
  else
    let vaddr := trunc_page buf in
    let vendaddr := u64 (buf + len) in
    count_loop (S (Z.to_nat (len / PAGE_SIZE + 1))) 1 (virt_to_phys vaddr) (u64 (vaddr + PAGE_SIZE)) vendaddr.

Definition uk_sglist_append (sg : uk_sglist) (buf len : Z) : option (Z * uk_sglist) :=
  if sg_maxseg sg =? 0 then Some (- EINVAL, sg)
  else
    save ← SGLIST_SAVE sg;
    '(error, sg1) ← _sglist_append_buf sg buf len;
    if negb (error =? 0) then sg2 ← SGLIST_RESTORE sg1 save; Some (error, sg2)
    else Some (error, sg1).

(** The buffers of a chain of network buffers: data pointer and length. *)
Fixpoint append_netbufs (sg : uk_sglist) (save : Z * Z) (nbs : list (Z * Z)) (len : Z)
    : option (Z * uk_sglist) :=
  match nbs with
  | [] => Some (len, sg)
  | (data, n) :: nbs' =>
      if 0 <? n then
        '(error, sg1) ← uk_sglist_append sg data n;
        if negb (error =? 0) then sg2 ← SGLIST_RESTORE sg1 save; Some (error, sg2)
        else append_netbufs sg1 save nbs' (sext 32 (len + n))
      else append_netbufs sg save nbs' len
  end.

Definition uk_sglist_append_netbuf (sg : uk_sglist) (netbuf : list (Z * Z)) : option (Z * uk_sglist) :=
  if sg_maxseg sg =? 0 then Some (- EINVAL, sg)
  else save ← SGLIST_SAVE sg; append_netbufs sg save netbuf 0.
End Append.

(** The loop over the source's segments: error, remaining length, list. *)
Fixpoint append_source (sg : uk_sglist) (ss : Z) (source : list uk_sglist_seg) (offset length error : Z)
    : option (Z * Z * uk_sglist) :=
  match source with
  | [] => Some (error, length, sg)
  | s :: source' =>
      if ss_len s <=? offset then append_source sg ss source' (u64 (offset - ss_len s)) length error
      else
        let seglen := u64 (ss_len s - offset) in
        let seglen := if length <? seglen then length else seglen in
        '(error, ss, sg) ← _sglist_append_range sg ss (u64 (ss_paddr s + offset)) seglen;
        if negb (error =? 0) then Some (error, length, sg)
        else
          let length := u64 (length - seglen) in
          if length =? 0 then Some (error, length, sg)
          else append_source sg ss source' 0 length error
  end.

Definition uk_sglist_append_sglist (sg source : uk_sglist) (offset length : Z) : option (Z * uk_sglist) :=
  if (sg_maxseg sg =? 0) || (length =? 0) then Some (- EINVAL, sg)
  else
    save ← SGLIST_SAVE sg;
    '(error, rest, sg1) ← append_source sg (sg_nseg sg - 1) (take (Z.to_nat (sg_nseg source)) (sg_segs source))
                            offset length (- EINVAL);
    let error := if negb (rest =? 0) then - EINVAL else error in
    if negb (error =? 0) then sg2 ← SGLIST_RESTORE sg1 save; Some (error, sg2)
    else Some (error, sg1).

Definition uk_sglist_length (sg : uk_sglist) : Z :=
  fold_left (fun space s => u64 (space + ss_len s)) (take (Z.to_nat (sg_nseg sg)) (sg_segs sg)) 0.

(** [memmove] of [n] whole segments between two arrays. *)
Definition copy_segs (dst : list uk_sglist_seg) (di : Z) (src : list uk_sglist_seg) (si n : Z)
    : option (list uk_sglist_seg) :=
  if (0 <=? si) && (si + n <=? zlen src) && (0 <=? di) && (di + n <=? zlen dst) && (0 <=? n) then
    Some (take (Z.to_nat di) dst ++ take (Z.to_nat n) (drop (Z.to_nat si) src) ++ drop (Z.to_nat (di + n)) dst)
  else None.

(** The destination and source of the [memmove] are as the code has them. *)
Definition uk_sglist_join (first second : uk_sglist) : option (Z * uk_sglist * uk_sglist) :=
  if sg_nseg second =? 0 then Some (0, first, second)
  else
    sfirst ← zget (sg_segs second) 0;
    append ← (if negb (sg_nseg first =? 0) then
                flast ← zget (sg_segs first) (sg_nseg first - 1);
                Some (if u64 (ss_paddr flast + ss_len flast) =? ss_paddr sfirst then 1 else 0)
              else Some 0);
    if sg_maxseg first <? sg_nseg first + sg_nseg second - append then Some (- EFBIG, first, second)
    else
      l1 ← (if append =? 1 then
              flast ← zget (sg_segs first) (sg_nseg first - 1);
              zset (sg_segs first) (sg_nseg first - 1) (Seg (ss_paddr flast) (u64 (ss_len flast + ss_len sfirst)))
            else Some (sg_segs first));
      l2 ← copy_segs (sg_segs second) append l1 (sg_nseg first) (sg_nseg second - append);
      Some (0, set_segs first l1 (u16 (sg_nseg first + (sg_nseg second - append))),
            uk_sglist_reset (set_segs second l2 (sg_nseg second))).

(** ** Lists on the heap: [malloc] gives the uninitialised array *)

Definition uk_sglist_alloc (malloc : Z -> option (list uk_sglist_seg)) (nsegs : Z) : option uk_sglist :=
  match malloc nsegs with Some segs => Some (uk_sglist_init nsegs segs) | None => None end.

(** [decw]: the low 16 bits of the counter; whether the memory is to be freed. *)
Definition uk_sglist_free (sg : uk_sglist) : option (bool * uk_sglist) :=
  let old := sg_refs sg in
  if old =? 0 then None
  else Some (negb (1 <? old), SG (sg_segs sg) (65536 * (old / 65536) + u16 (old - 1)) (sg_nseg sg) (sg_maxseg sg)).

(** [Some None]: NULL. *)
Definition uk_sglist_build (virt_to_phys : Z -> Z) (malloc : Z -> option (list uk_sglist_seg)) (buf len : Z)
    : option (option uk_sglist) :=
  if len =? 0 then Some None
  else
    nsegs ← uk_sglist_count virt_to_phys buf len;
    if nsegs <=? 0 then None
    else match uk_sglist_alloc malloc nsegs with
         | None => Some None
         | Some sg =>
             '(rc, sg1) ← uk_sglist_append virt_to_phys sg buf len;
             Some (if negb (rc =? 0) then None else Some sg1)
         end.

Definition uk_sglist_clone (malloc : Z -> option (list uk_sglist_seg)) (sg : uk_sglist)
    : option (option uk_sglist) :=
  match uk_sglist_alloc malloc (sg_maxseg sg) with
  | None => Some None
  | Some new =>
      l ← copy_segs (sg_segs new) 0 (sg_segs sg) 0 (sg_nseg sg);
      Some (Some (set_segs new l (sg_nseg sg)))
  end.

(** The first loop of [uk_sglist_split]: entries the head needs, and what remains of the last. *)
Fixpoint split_scan (segs : list uk_sglist_seg) (length count space : Z) : Z * Z :=
  match segs with
  | [] => (count, 0)
  | s :: segs' =>
      let space := u64 (space + ss_len s) in
      let count := count + 1 in
      if length <=? space then (count, u64 (space - length)) else split_scan segs' length count space
  end.

(** The list that receives [count] entries: a new one, or the caller's if it is empty and large
    enough. *)
Definition target (malloc : Z -> option (list uk_sglist_seg)) (dest : option uk_sglist) (count : Z)
    : Z + uk_sglist :=
  match dest with
  | None => match uk_sglist_alloc malloc count with None => inl (- ENOMEM) | Some sg => inr sg end
  | Some sg =>
      if sg_maxseg sg <? count then inl (- EFBIG)
      else if negb (sg_nseg sg =? 0) then inl (- EINVAL)
      else inr sg
  end.

(** Error code, [*head], original. *)
Definition uk_sglist_split (malloc : Z -> option (list uk_sglist_seg)) (original : uk_sglist)
    (head : option uk_sglist) (length : Z) : option (Z * option uk_sglist * uk_sglist) :=
  if 1 <? sg_refs original then Some (- EDOOFUS, head, original)
  else
    let '(count, split) := split_scan (take (Z.to_nat (sg_nseg original)) (sg_segs original)) length 0 0 in
    if count =? 0 then Some (0, head, original)
    else match target malloc head count with
         | inl e => Some (e, head, original)
         | inr sg =>
             l ← copy_segs (sg_segs sg) 0 (sg_segs original) 0 count;
             '(count', l', lo) ←
               (if negb (split =? 0) then
                  s ← zget l (count - 1);
                  l' ← zset l (count - 1) (Seg (ss_paddr s) (u64 (ss_len s - split)));
                  lo ← zset (sg_segs original) (count - 1) (Seg (u64 (ss_paddr s + split)) split);
                  Some (count - 1, l', lo)
                else Some (count, l, sg_segs original));
             lo' ← copy_segs lo 0 lo count' count';
             Some (0, Some (set_segs sg l' (u16 count)), set_segs original lo' (u16 (sg_nseg original - count')))
         end.

(** The scan of [uk_sglist_slice]: space seen, entries, index and offset of the first, room left
    in the last. *)
Fixpoint slice_scan (segs : list uk_sglist_seg) (i offset end_ space count fseg foffs : Z)
    : Z * Z * Z * Z * Z :=
  match segs with
  | [] => (space, count, fseg, foffs, 0)
  | s :: segs' =>
      let space := u64 (space + ss_len s) in
      if offset <? space then
        let '(fseg, foffs) :=
          if count =? 0 then (i, u64 (offset - u64 (space - ss_len s))) else (fseg, foffs) in
        let count := count + 1 in
        if end_ <=? space then (space, count, fseg, foffs, u64 (space - end_))
        else slice_scan segs' (i + 1) offset end_ space count fseg foffs
      else slice_scan segs' (i + 1) offset end_ space count fseg foffs
  end.

(** Error code and [*slice]. *)
Definition uk_sglist_slice (malloc : Z -> option (list uk_sglist_seg)) (original : uk_sglist)
    (slice : option uk_sglist) (offset length : Z) : option (Z * option uk_sglist) :=
  if length =? 0 then Some (0, slice)
  else
    let end_ := u64 (offset + length) in
    let '(space, count, fseg, foffs, loffs) :=
      slice_scan (take (Z.to_nat (sg_nseg original)) (sg_segs original)) 0 offset end_ 0 0 0 0 in
    if space <? end_ then Some (- EINVAL, slice)
    else match target malloc slice count with
         | inl e => Some (e, slice)
         | inr sg =>
             l ← copy_segs (sg_segs sg) 0 (sg_segs original) fseg count;
             l1 ← (if negb (foffs =? 0) then
                     s ← zget l 0; zset l 0 (Seg (u64 (ss_paddr s + foffs)) (u64 (ss_len s - foffs)))
                   else Some l);
             l2 ← (if negb (loffs =? 0) then
                     s ← zget l1 (count - 1); zset l1 (count - 1) (Seg (ss_paddr s) (u64 (ss_len s - loffs)))
                   else Some l1);
             Some (0, Some (set_segs sg l2 (u16 count)))
         end.

(** ** What a list stands for *)

(** The physical bytes of the segments in use, in order. *)
Definition seg_bytes (s : uk_sglist_seg) : list Z := seqZ (ss_paddr s) (ss_len s).
Definition live (sg : uk_sglist) : list uk_sglist_seg := take (Z.to_nat (sg_nseg sg)) (sg_segs sg).
Definition bytes (sg : uk_sglist) : list Z := concat (seg_bytes <$> live sg).

(** A segment that does not wrap around the address space. *)
Definition seg_ok (s : uk_sglist_seg) : Prop :=
  0 <= ss_paddr s /\ 0 <= ss_len s /\ ss_paddr s + ss_len s < 2 ^ 64.

Record wf (sg : uk_sglist) : Prop := {
  wf_max : 0 <= sg_nseg sg <= sg_maxseg sg;
  wf_cap : sg_maxseg sg <= zlen (sg_segs sg);
  wf_u16 : sg_maxseg sg < 2 ^ 16;
  wf_segs : Forall seg_ok (live sg)
}.

(** The list [sg] grew out of [sg0]: only the last segment of [sg0] may have been extended. *)
Record extends (sg0 sg : uk_sglist) : Prop := {
  ex_n : sg_nseg sg0 <= sg_nseg sg;
  ex_max : sg_maxseg sg = sg_maxseg sg0;
  ex_refs : sg_refs sg = sg_refs sg0;
  ex_len : length (sg_segs sg) = length (sg_segs sg0);
  ex_pre : forall i, 0 <= i < sg_nseg sg0 - 1 -> zget (sg_segs sg) i = zget (sg_segs sg0) i;
  ex_last : 0 < sg_nseg sg0 -> ss_paddr <$> zget (sg_segs sg) (sg_nseg sg0 - 1) =
                               ss_paddr <$> zget (sg_segs sg0) (sg_nseg sg0 - 1)
}.

(** ** One range *)

Lemma extends_refl sg : extends sg sg.
Proof. by split. Qed.

Lemma extends_trans a b c : extends a b -> extends b c -> extends a c.
Proof.
  intros [A1 A2 A3 A4 A5 A6] [B1 B2 B3 B4 B5 B6]. split; try (congruence || lia).
  - intros i Hi. rewrite B5 by lia. apply A5. lia.
  - intros Hn. destruct (Z.eq_dec (sg_nseg a) (sg_nseg b)) as [E|E].
    + rewrite E in A6 |- *. rewrite B6 by lia. apply A6. lia.
    + rewrite B5 by lia. by apply A6.
Qed.

(** Writing the last of [n] entries. *)
Lemma take_set_last (l l' : list uk_sglist_seg) n s :
  0 < n -> zset l (n - 1) s = Some l' -> take (Z.to_nat n) l' = take (Z.to_nat (n - 1)) l ++ [s].
Proof.
  intros Hn Hs. pose proof (zset_range _ _ _ _ Hs) as Hr. rewrite zset_is_Some in Hs by done.
  injection Hs as <-. replace (Z.to_nat n) with (S (Z.to_nat (n - 1))) by lia.
  rewrite (take_S_r _ _ s) by (apply list_lookup_insert_eq; lia). f_equal.
  by rewrite take_insert_ge by lia.
Qed.

Lemma take_last (l : list uk_sglist_seg) n s :
  0 < n -> zget l (n - 1) = Some s -> take (Z.to_nat n) l = take (Z.to_nat (n - 1)) l ++ [s].
Proof.
  intros Hn Hs. replace (Z.to_nat n) with (S (Z.to_nat (n - 1))) by lia. apply take_S_r.
  unfold zget in Hs. case_test; [done|]. done.
Qed.

Lemma bytes_app (l1 l2 : list uk_sglist_seg) :
  concat (seg_bytes <$> (l1 ++ l2)) = concat (seg_bytes <$> l1) ++ concat (seg_bytes <$> l2).
Proof. by rewrite fmap_app, concat_app. Qed.

(** Where the last segment ends. *)
Definition last_end (sg : uk_sglist) : Z :=
  match zget (sg_segs sg) (sg_nseg sg - 1) with Some s => ss_paddr s + ss_len s | None => -1 end.

Lemma append_range_spec sg paddr len :
  wf sg -> 0 < sg_nseg sg -> 0 <= paddr -> 0 < len -> paddr + len < 2 ^ 64 ->
  (last_end sg <> paddr /\ sg_nseg sg = sg_maxseg sg /\
   _sglist_append_range sg (sg_nseg sg - 1) paddr len = Some (- EFBIG, sg_nseg sg - 1, sg)) \/
  exists sg', _sglist_append_range sg (sg_nseg sg - 1) paddr len = Some (0, sg_nseg sg' - 1, sg') /\
    wf sg' /\ extends sg sg' /\ bytes sg' = bytes sg ++ seqZ paddr len /\ last_end sg' = paddr + len /\
    sg_nseg sg' = sg_nseg sg + (if last_end sg =? paddr then 0 else 1).
Proof.
  intros [Hm Hcap Hu Hs] Hn Hp Hl Hb. unfold _sglist_append_range, last_end.
  destruct (zget_is_Some (sg_segs sg) (sg_nseg sg - 1)) as [s Es]; [lia|]. rewrite Es. cbn [mbind option_bind].
  unfold live in Hs. rewrite (take_last _ _ _ Hn Es), Forall_app, Forall_singleton in Hs.
  destruct Hs as [Hpre (Hs1 & Hs2 & Hs3)]. rewrite (wrap_small 64 (ss_paddr s + ss_len s)) by (unfold in_u; lia).
  destruct (Z.eqb_spec (ss_paddr s + ss_len s) paddr) as [Eq|Ne].
  - right. rewrite (wrap_small 64 (ss_len s + len)) by (unfold in_u; lia).
    destruct (zset (sg_segs sg) (sg_nseg sg - 1) (Seg (ss_paddr s) (ss_len s + len))) as [l|] eqn:El;
      [|rewrite zset_is_Some in El; [done|lia]].
    cbn [mbind option_bind]. exists (set_segs sg l (sg_nseg sg)). split; [done|].
    pose proof (take_set_last _ _ _ _ Hn El) as Et.
    pose proof (zset_length _ _ _ _ El) as Ell.
    split; [split; cbn; [lia|lia|lia|]|split; [split; cbn; try done|split; [|split]]]; cbn.
    + unfold live. cbn. rewrite Et, Forall_app, Forall_singleton. split; [done|]. unfold seg_ok. cbn. lia.
    + intros i Hi. eapply zget_zset_ne; [|exact El]. lia.
    + intros _. by rewrite (zget_zset_eq _ _ _ _ El), Es.
    + unfold bytes, live. cbn. rewrite Et, (take_last _ _ _ Hn Es), !bytes_app, <- app_assoc. f_equal.
      cbn. rewrite !app_nil_r. unfold seg_bytes. cbn. rewrite seqZ_app by lia. by rewrite Eq.
    + rewrite (zget_zset_eq _ _ _ _ El). cbn. lia.
    + lia.
  - destruct (Z.eqb_spec (sg_nseg sg) (sg_maxseg sg)) as [Efull|Eroom]; [left; done|right].
    rewrite wrap_small by (unfold in_u; lia).
    replace (sg_nseg sg - 1 + 1) with (sg_nseg sg + 1 - 1) by lia.
    destruct (zset (sg_segs sg) (sg_nseg sg + 1 - 1) (Seg paddr len)) as [l|] eqn:El;
      [|rewrite zset_is_Some in El; [done|lia]].
    cbn [mbind option_bind]. exists (set_segs sg l (sg_nseg sg + 1)). split; [done|].
    pose proof (take_set_last _ _ (sg_nseg sg + 1) _ ltac:(lia) El) as Et.
    pose proof (zset_length _ _ _ _ El) as Ell. replace (Z.to_nat (sg_nseg sg + 1 - 1)) with (Z.to_nat (sg_nseg sg)) in Et by lia.
    split; [split; cbn; [lia|lia|lia|]|split; [split; cbn; try done; try lia|split; [|split]]]; cbn.
    + unfold live. cbn. rewrite Et, (take_last _ _ _ Hn Es), !Forall_app, !Forall_singleton.
      split; [split; [done|by split]|]. unfold seg_ok. cbn. lia.
    + intros i Hi. eapply zget_zset_ne; [|exact El]. lia.
    + intros _. rewrite (zget_zset_ne (sg_segs sg) (sg_nseg sg + 1 - 1) (sg_nseg sg - 1) (Seg paddr len) l ltac:(lia) El). done.
    + unfold bytes, live. cbn. rewrite Et, bytes_app. f_equal. cbn. by rewrite app_nil_r.
    + by rewrite (zget_zset_eq _ _ _ _ El).
    + done.
Qed.

(** Undoing an append. *)
Lemma restore_spec sg0 sg save :
  wf sg0 -> extends sg0 sg -> SGLIST_SAVE sg0 = Some save ->
  exists sg', SGLIST_RESTORE sg save = Some sg' /\ sg_nseg sg' = sg_nseg sg0 /\
    sg_maxseg sg' = sg_maxseg sg0 /\ sg_refs sg' = sg_refs sg0 /\ live sg' = live sg0.
Proof.
  intros [Hm Hcap Hu Hs] [E1 E2 E3 E4 E5 E6] Hsave. unfold SGLIST_SAVE in Hsave. unfold SGLIST_RESTORE.
  destruct (Z.ltb_spec 0 (sg_nseg sg0)) as [Hn|Hz].
  - destruct (zget_is_Some (sg_segs sg0) (sg_nseg sg0 - 1)) as [s Es]; [lia|]. rewrite Es in Hsave.
    injection Hsave as <-. cbn [fst snd]. destruct (Z.ltb_spec 0 (sg_nseg sg0)); [|lia].
    specialize (E6 Hn). rewrite Es in E6. destruct (zget (sg_segs sg) (sg_nseg sg0 - 1)) as [s'|] eqn:Es'; [|done].
    cbn in E6. injection E6 as E6. cbn [mbind option_bind].
    pose proof (zget_Some_range _ _ _ Es') as Hr.
    destruct (zset (sg_segs sg) (sg_nseg sg0 - 1) (Seg (ss_paddr s') (ss_len s))) as [l|] eqn:El;
      [|rewrite zset_is_Some in El; [done|lia]].
    cbn [mbind option_bind]. eexists. split; [done|]. split; [done|]. split; [done|]. split; [done|].
    unfold live. cbn. rewrite (take_set_last _ _ _ _ Hn El), (take_last _ _ _ Hn Es). f_equal.
    + apply list_eq. intros i. destruct (decide (i < Z.to_nat (sg_nseg sg0 - 1))%nat) as [Hlt|Hge].
      * rewrite !lookup_take_lt by done. specialize (E5 (Z.of_nat i) ltac:(lia)). by rewrite !zget_lookup in E5.
      * by rewrite !lookup_take_ge by lia.
    + rewrite E6. by destruct s.
  - injection Hsave as <-. cbn [fst snd]. destruct (Z.ltb_spec 0 (sg_nseg sg0)); [lia|].
    eexists. split; [done|]. split; [done|]. split; [done|]. split; [done|]. unfold live. cbn.
    by replace (Z.to_nat (sg_nseg sg0)) with 0%nat by lia.
Qed.

(** ** Buffers *)

Section Buffers.
Context (virt_to_phys : Z -> Z).
(** Inside a page, physical addresses follow virtual ones. *)
Hypothesis page_linear : forall v i,
  0 <= v -> 0 <= i -> v mod PAGE_SIZE + i < PAGE_SIZE -> virt_to_phys (v + i) = virt_to_phys v + i.

(** No physical page touched by the buffer lies at the very end of the address space. *)
Definition phys_ok (buf len : Z) : Prop :=
  forall v, buf <= v < buf + len -> 0 <= virt_to_phys v /\ virt_to_phys v + PAGE_SIZE < 2 ^ 64.

Lemma v2p_seqZ v n :
  0 <= v -> 0 <= n -> v mod PAGE_SIZE + n <= PAGE_SIZE ->
  virt_to_phys <$> seqZ v n = seqZ (virt_to_phys v) n.
Proof.
  intros Hv Hn Hp. replace (seqZ v n) with (Z.add v <$> seqZ 0 n) by (rewrite fmap_add_seqZ; f_equal; lia).
  replace (seqZ (virt_to_phys v) n) with (Z.add (virt_to_phys v) <$> seqZ 0 n)
    by (rewrite fmap_add_seqZ; f_equal; lia).
  rewrite <- list_fmap_compose. apply list_fmap_ext. intros i x Hx. cbn.
  apply lookup_seqZ in Hx as [-> Hx]. apply page_linear; lia.
Qed.

(** The pages of a range split off one at a time. *)
Lemma v2p_split v n len :
  0 <= v -> 0 <= n <= len -> v mod PAGE_SIZE + n <= PAGE_SIZE ->
  virt_to_phys <$> seqZ v len = seqZ (virt_to_phys v) n ++ (virt_to_phys <$> seqZ (v + n) (len - n)).
Proof.
  intros Hv Hn Hp. replace len with (n + (len - n)) at 1 by lia.
  rewrite seqZ_app, fmap_app by lia. f_equal. apply v2p_seqZ; lia.
Qed.

(** The range [append_pages] hands over at a page boundary. *)
Lemma page_step vaddr len :
  0 <= vaddr -> vaddr mod PAGE_SIZE = 0 -> 0 < len -> vaddr + len < 2 ^ 64 ->
  let seglen := Z.min len PAGE_SIZE in
  0 < seglen <= len /\ seglen <= PAGE_SIZE /\ u64 (vaddr + seglen) = vaddr + seglen /\
  u64 (len - seglen) = len - seglen /\ (len - seglen = 0 \/ (vaddr + seglen) mod PAGE_SIZE = 0 /\ seglen = PAGE_SIZE).
Proof.
  intros Hv Hm Hl Hb seglen. unfold seglen, PAGE_SIZE in *.
  rewrite !wrap_small by (unfold in_u; lia). repeat split; try lia.
  destruct (Z.le_gt_cases len 4096); [left; lia|right]. rewrite Z.min_r by lia.
  split; [|done]. replace (vaddr + 4096) with (vaddr + 1 * 4096) by lia. by rewrite Z_mod_plus_full.
Qed.

Lemma append_pages_spec fuel : forall sg vaddr len,
  wf sg -> 0 < sg_nseg sg -> 0 <= vaddr -> len = 0 \/ vaddr mod PAGE_SIZE = 0 -> 0 <= len ->
  vaddr + len < 2 ^ 64 -> phys_ok vaddr len -> len <= PAGE_SIZE * (Z.of_nat fuel - 1) ->
  exists e sg', append_pages virt_to_phys fuel sg (sg_nseg sg - 1) vaddr len = Some (e, sg') /\
    extends sg sg' /\
    (e = - EFBIG \/ e = 0 /\ wf sg' /\ bytes sg' = bytes sg ++ (virt_to_phys <$> seqZ vaddr len)).
Proof.
  induction fuel as [|fuel IH]; intros sg vaddr len Hwf Hn Hv Hal Hl Hb Hph Hf; [unfold PAGE_SIZE in *; lia|].
  cbn [append_pages]. destruct (Z.eqb_spec len 0) as [->|Hne].
  { exists 0, sg. split; [done|]. split; [apply extends_refl|]. right. rewrite app_nil_r. done. }
  destruct Hal as [|Hal]; [done|].
  destruct (page_step vaddr len) as (Hs1 & Hs2 & Hs3 & Hs4 & Hs5); [lia..|].
  set (seglen := Z.min len PAGE_SIZE) in *. destruct (Hph vaddr ltac:(lia)) as [Hp1 Hp2].
  destruct (append_range_spec sg (virt_to_phys vaddr) seglen Hwf Hn) as
    [(_ & _ & ->)|(sg1 & -> & Hwf1 & Hex1 & Hby1 & _ & Hn1)]; [lia..| |]; cbn [mbind option_bind].
  { exists (- EFBIG), sg. split; [done|]. split; [apply extends_refl|]. by left. }
  cbn [negb Z.eqb]. rewrite Hs3, Hs4.
  pose proof (ex_n _ _ Hex1).
  assert (Hal1 : len - seglen = 0 \/ (vaddr + seglen) mod PAGE_SIZE = 0)
    by (destruct Hs5 as [|[? _]]; [by left|by right]).
  assert (Hph1 : phys_ok (vaddr + seglen) (len - seglen)) by (intros v Hv'; apply Hph; lia).
  assert (Hf1 : len - seglen <= PAGE_SIZE * (Z.of_nat fuel - 1))
    by (unfold PAGE_SIZE in *; destruct Hs5 as [|[_ ?]]; lia).
  destruct (IH sg1 (vaddr + seglen) (len - seglen)) as (e & sg' & -> & Hex & Hres); try done; [lia..|].
  exists e, sg'. split; [done|]. split; [by eapply extends_trans|]. destruct Hres as [->|(-> & Hwf' & Hby)]; [by left|].
    right. split; [done|]. split; [done|]. rewrite Hby, Hby1, <- app_assoc. f_equal. symmetry. apply v2p_split; lia.
Qed.

(** The first page, which may start in its middle. *)
Lemma page_off_mod v : page_off v = v mod PAGE_SIZE.
Proof. unfold page_off, PAGE_SIZE. change 4096 with (2 ^ 12). by rewrite land_mask. Qed.

Lemma first_step buf len :
  0 <= buf -> 0 < len -> buf + len < 2 ^ 64 ->
  let seglen := Z.min len (PAGE_SIZE - page_off buf) in
  0 < seglen <= len /\ buf mod PAGE_SIZE + seglen <= PAGE_SIZE /\ u64 (buf + seglen) = buf + seglen /\
  u64 (len - seglen) = len - seglen /\
  (len - seglen = 0 \/ (buf + seglen) mod PAGE_SIZE = 0 /\ seglen = PAGE_SIZE - buf mod PAGE_SIZE).
Proof.
  intros Hv Hl Hb seglen. unfold seglen. rewrite page_off_mod. unfold PAGE_SIZE.
  pose proof (Z.mod_pos_bound buf 4096). rewrite !wrap_small by (unfold in_u; lia).
  repeat split; try lia. destruct (Z.le_gt_cases len (4096 - buf mod 4096)); [left; lia|right].
  rewrite Z.min_r by lia. split; [|done].
  pose proof (Z.div_mod buf 4096 ltac:(lia)). replace (buf + (4096 - buf mod 4096)) with ((buf / 4096 + 1) * 4096) by lia.
  apply Z_mod_mult.
Qed.

(** The first range, into an empty list or behind the last segment. *)
Lemma first_range_spec sg paddr seglen :
  wf sg -> 0 < sg_maxseg sg -> 0 <= paddr -> 0 < seglen -> paddr + seglen < 2 ^ 64 ->
  let r := if sg_nseg sg =? 0 then
             l ← zset (sg_segs sg) 0 (Seg paddr seglen); Some (0, 0, set_segs sg l 1)
           else _sglist_append_range sg (sg_nseg sg - 1) paddr seglen in
  (exists ss, r = Some (- EFBIG, ss, sg) /\ 0 < sg_nseg sg) \/
  exists sg', r = Some (0, sg_nseg sg' - 1, sg') /\ wf sg' /\ 0 < sg_nseg sg' /\ extends sg sg' /\
    bytes sg' = bytes sg ++ seqZ paddr seglen /\ last_end sg' = paddr + seglen /\
    (sg_nseg sg = 0 -> sg_nseg sg' = 1).
Proof.
  intros Hwf Hmax Hp Hs Hb. cbv zeta. destruct (Z.eqb_spec (sg_nseg sg) 0) as [Hz|Hnz].
  - right. pose proof Hwf as [Hm Hcap Hu Hsg].
    destruct (zset (sg_segs sg) 0 (Seg paddr seglen)) as [l|] eqn:El; [|rewrite zset_is_Some in El; [done|lia]].
    cbn [mbind option_bind]. exists (set_segs sg l 1). split; [done|].
    pose proof (take_set_last (sg_segs sg) l 1 (Seg paddr seglen) ltac:(lia) El) as Et.
    change (take (Z.to_nat 1) l = [Seg paddr seglen]) in Et.
    pose proof (zset_length _ _ _ _ El) as Ell.
    split; [split; cbn; [lia|lia|lia|]|split; [done|split; [split; cbn; try done; try lia|split; [|split; [|done]]]]].
    + change (Forall seg_ok (take (Z.to_nat 1) l)). rewrite Et. constructor; [unfold seg_ok; cbn; lia|constructor].
    + change (concat (seg_bytes <$> take (Z.to_nat 1) l) = bytes sg ++ seqZ paddr seglen). rewrite Et.
      unfold bytes, live. rewrite Hz. unfold seg_bytes. cbn -[seqZ]. by rewrite app_nil_r.
    + unfold last_end. cbn [sg_segs sg_nseg set_segs]. change (1 - 1) with 0. by rewrite (zget_zset_eq _ _ _ _ El).
  - assert (Hn : 0 < sg_nseg sg) by (destruct Hwf; lia).
    destruct (append_range_spec sg paddr seglen Hwf Hn Hp Hs Hb) as
      [(_ & _ & ->)|(sg1 & -> & Hwf1 & Hex1 & Hby1 & Hle & Hn1)]; [left; eauto|right].
    exists sg1. split; [done|]. split; [done|]. pose proof (ex_n _ _ Hex1).
    split; [lia|]. split; [done|]. split; [done|]. split; [done|]. lia.
Qed.

Lemma page_fuel len : 0 <= len -> len <= PAGE_SIZE * (Z.of_nat (S (Z.to_nat (len / PAGE_SIZE + 1))) - 1).
Proof.
  intros Hl. unfold PAGE_SIZE. pose proof (Z.div_mod len 4096 ltac:(lia)).
  pose proof (Z.mod_pos_bound len 4096 ltac:(lia)). pose proof (Z.div_pos len 4096). lia.
Qed.

Lemma append_buf_spec sg buf len :
  wf sg -> 0 < sg_maxseg sg -> 0 <= buf -> 0 <= len -> buf + len < 2 ^ 64 -> phys_ok buf len ->
  exists e sg', _sglist_append_buf virt_to_phys sg buf len = Some (e, sg') /\ extends sg sg' /\
    (e = - EFBIG \/ e = 0 /\ wf sg' /\ bytes sg' = bytes sg ++ (virt_to_phys <$> seqZ buf len)).
Proof.
  intros Hwf Hmax Hv Hl Hb Hph. unfold _sglist_append_buf. destruct (Z.eqb_spec len 0) as [->|Hne].
  { exists 0, sg. split; [done|]. split; [apply extends_refl|]. right. by rewrite app_nil_r. }
  destruct (first_step buf len) as (Hs1 & Hs2 & Hs3 & Hs4 & Hs5); [lia..|]. cbv zeta.
  set (seglen := Z.min len (PAGE_SIZE - page_off buf)) in *. destruct (Hph buf ltac:(lia)) as [Hp1 Hp2].
  pose proof (Z.mod_pos_bound buf PAGE_SIZE ltac:(unfold PAGE_SIZE; lia)).
  destruct (first_range_spec sg (virt_to_phys buf) seglen Hwf Hmax) as
    [(ss & -> & _)|(sg1 & -> & Hwf1 & Hn1 & Hex1 & Hby1 & _ & _)]; [lia..| |]; cbn [mbind option_bind].
  { exists (- EFBIG), sg. split; [done|]. split; [apply extends_refl|]. by left. }
  cbn [negb Z.eqb]. rewrite Hs3, Hs4.
  assert (Hal1 : len - seglen = 0 \/ (buf + seglen) mod PAGE_SIZE = 0)
    by (destruct Hs5 as [|[? _]]; [by left|by right]).
  assert (Hph1 : phys_ok (buf + seglen) (len - seglen)) by (intros v Hv'; apply Hph; lia).
  pose proof (page_fuel len ltac:(lia)) as Hf.
  destruct (append_pages_spec (S (Z.to_nat (len / PAGE_SIZE + 1))) sg1 (buf + seglen) (len - seglen))
    as (e & sg' & -> & Hex & Hres); try done; [lia..|].
  exists e, sg'. split; [done|]. split; [by eapply extends_trans|]. destruct Hres as [->|(-> & Hwf' & Hby)]; [by left|].
    right. split; [done|]. split; [done|]. rewrite Hby, Hby1, <- app_assoc. f_equal. symmetry. apply v2p_split; lia.
Qed.

(** ** Counting the segments a buffer needs *)

Lemma count_mono fuel : forall nsegs last v vend m,
  count_loop virt_to_phys fuel nsegs last v vend = Some m -> nsegs <= m.
Proof.
  induction fuel as [|fuel IH]; intros nsegs last v vend m; cbn [count_loop]; [done|].
  destruct (negb (v <? vend)); [intros [= ->]; lia|]. intros H%IH. destruct (negb _) in H; lia.
Qed.

Lemma count_total fuel : forall nsegs last v vend,
  0 <= v -> vend + PAGE_SIZE < 2 ^ 64 -> vend - v <= PAGE_SIZE * (Z.of_nat fuel - 1) -> (0 < fuel)%nat ->
  exists m, count_loop virt_to_phys fuel nsegs last v vend = Some m.
Proof.
  induction fuel as [|fuel IH]; intros nsegs last v vend Hv Hb Hf Hp; [lia|]. cbn [count_loop].
  destruct (Z.ltb_spec v vend) as [Hlt|Hge]; cbn [negb]; [|by eauto].
  rewrite (wrap_small 64 (v + PAGE_SIZE)) by (unfold in_u, PAGE_SIZE in *; lia).
  apply IH; unfold PAGE_SIZE in *; lia.
Qed.

(** Appending page by page makes exactly the segments that were counted. *)
Lemma append_counted fuel : forall fuel2 sg vaddr len last m,
  wf sg -> 0 < sg_nseg sg -> 0 <= vaddr -> 0 <= len -> vaddr + len + PAGE_SIZE < 2 ^ 64 ->
  phys_ok vaddr len -> len <= PAGE_SIZE * (Z.of_nat fuel - 1) -> m <= sg_maxseg sg ->
  (len = 0 -> m = sg_nseg sg) ->
  (0 < len -> vaddr mod PAGE_SIZE = 0 /\ last_end sg = last + PAGE_SIZE /\ 0 <= last + PAGE_SIZE < 2 ^ 64 /\
     count_loop virt_to_phys fuel2 (sg_nseg sg) last vaddr (vaddr + len) = Some m) ->
  exists sg', append_pages virt_to_phys fuel sg (sg_nseg sg - 1) vaddr len = Some (0, sg') /\ sg_nseg sg' = m.
Proof.
  induction fuel as [|fuel IH]; intros fuel2 sg vaddr len last m Hwf Hn Hv Hl Hb Hph Hf Hm Hz Hpos;
    [unfold PAGE_SIZE in *; lia|].
  cbn [append_pages]. destruct (Z.eqb_spec len 0) as [Hl0|Hne]; [exists sg; split; [done|symmetry; auto]|].
  destruct Hpos as (Hal & Hle & Hlb & Hcnt); [lia|].
  destruct (page_step vaddr len) as (Hs1 & Hs2 & Hs3 & Hs4 & Hs5); [lia|done|lia|unfold PAGE_SIZE in *; lia|].
  set (seglen := Z.min len PAGE_SIZE) in *. destruct (Hph vaddr ltac:(lia)) as [Hp1 Hp2].
  destruct fuel2 as [|fuel2]; [done|]. cbn [count_loop] in Hcnt.
  destruct (Z.ltb_spec vaddr (vaddr + len)); [|lia]. cbn [negb] in Hcnt.
  rewrite (wrap_small 64 (last + PAGE_SIZE)), (wrap_small 64 (vaddr + PAGE_SIZE)) in Hcnt
    by (unfold in_u, PAGE_SIZE in *; lia).
  pose proof (count_mono _ _ _ _ _ _ Hcnt) as Hmono.
  destruct (append_range_spec sg (virt_to_phys vaddr) seglen Hwf Hn) as
    [(Hno & Hfull & _)|(sg1 & -> & Hwf1 & Hex1 & _ & Hle1 & Hn1)]; [lia..| |].
  { exfalso. rewrite Hle in Hno. destruct (Z.eqb_spec (last + PAGE_SIZE) (virt_to_phys vaddr)); [done|].
    cbn [negb] in Hmono. lia. }
  cbn [mbind option_bind negb Z.eqb]. rewrite Hs3, Hs4.
  assert (Hn1' : (if negb (last + PAGE_SIZE =? virt_to_phys vaddr) then sg_nseg sg + 1 else sg_nseg sg) = sg_nseg sg1)
    by (rewrite Hn1, Hle; destruct (last + PAGE_SIZE =? virt_to_phys vaddr); cbn [negb]; lia).
  rewrite Hn1' in Hcnt. pose proof (ex_n _ _ Hex1). pose proof (ex_max _ _ Hex1).
  apply (IH fuel2 sg1 (vaddr + seglen) (len - seglen) (virt_to_phys vaddr) m); try done; try lia.
  - intros v Hv'. apply Hph. lia.
  - unfold PAGE_SIZE in *. destruct Hs5 as [|[_ ?]]; lia.
  - intros Hend. destruct fuel2 as [|fuel2]; [done|]. cbn [count_loop] in Hcnt.
    destruct (Z.ltb_spec (vaddr + PAGE_SIZE) (vaddr + len)); [lia|]. cbn [negb] in Hcnt. by injection Hcnt as ->.
  - intros Hmore. destruct Hs5 as [|[Hs5 Hfullpage]]; [lia|]. split; [done|]. split; [lia|].
    split; [unfold PAGE_SIZE in *; lia|]. rewrite Hfullpage. replace (vaddr + PAGE_SIZE + (len - PAGE_SIZE)) with (vaddr + len) by lia. done.
Qed.

Lemma trunc_page_eq v : 0 <= v < 2 ^ 64 -> trunc_page v = v - v mod PAGE_SIZE.
Proof.
  intros Hv. unfold trunc_page, PAGE_SIZE. change 4096 with (2 ^ 12). rewrite land_lnot_ones by (unfold in_u; lia).
  change (2 ^ 12) with 4096. pose proof (Z.div_mod v 4096). lia.
Qed.

(** A list with as many places as counted takes the buffer. *)
Lemma append_buf_counted sg buf len m :
  wf sg -> sg_nseg sg = 0 -> 0 <= buf -> 0 < len -> buf + len + PAGE_SIZE < 2 ^ 64 -> phys_ok buf len ->
  uk_sglist_count virt_to_phys buf len = Some m -> m <= sg_maxseg sg -> 0 < sg_maxseg sg ->
  exists sg', _sglist_append_buf virt_to_phys sg buf len = Some (0, sg') /\ sg_nseg sg' = m.
Proof.
  intros Hwf Hz Hv Hl Hb Hph Hcnt Hm Hmax.
  pose proof (Z.mod_pos_bound buf PAGE_SIZE ltac:(unfold PAGE_SIZE; lia)) as Hmod.
  unfold uk_sglist_count in Hcnt. unfold _sglist_append_buf.
  destruct (Z.eqb_spec len 0) as [|_]; [lia|]. cbv zeta in *.
  rewrite trunc_page_eq, (wrap_small 64 (buf + len)) in Hcnt by (unfold in_u, PAGE_SIZE in *; lia).
  rewrite (wrap_small 64 (buf - buf mod PAGE_SIZE + PAGE_SIZE)) in Hcnt by (unfold in_u, PAGE_SIZE in *; lia).
  destruct (first_step buf len) as (Hs1 & Hs2 & Hs3 & Hs4 & Hs5); [lia|lia|unfold PAGE_SIZE in *; lia|].
  set (seglen := Z.min len (PAGE_SIZE - page_off buf)) in *. destruct (Hph buf ltac:(lia)) as [Hp1 Hp2].
  assert (Hbase : virt_to_phys buf = virt_to_phys (buf - buf mod PAGE_SIZE) + buf mod PAGE_SIZE).
  { replace buf with (buf - buf mod PAGE_SIZE + buf mod PAGE_SIZE) at 1 by lia. apply page_linear; [|lia|].
    - pose proof (Z.mod_le buf PAGE_SIZE Hv ltac:(unfold PAGE_SIZE; lia)). lia.
    - rewrite Zminus_mod_idemp_r, Z.sub_diag, Zmod_0_l. lia. }
  destruct (first_range_spec sg (virt_to_phys buf) seglen Hwf Hmax) as
    [(ss & _ & ?)|(sg1 & -> & Hwf1 & Hn1 & Hex1 & _ & Hle1 & H1)]; [lia..|]. cbn [mbind option_bind negb Z.eqb].
  specialize (H1 Hz). rewrite Hs3, Hs4. pose proof (ex_max _ _ Hex1).
  pose proof (page_fuel len ltac:(lia)) as Hf.
  apply (append_counted (S (Z.to_nat (len / PAGE_SIZE + 1))) (S (Z.to_nat (len / PAGE_SIZE + 1))) sg1 (buf + seglen) (len - seglen)
    (virt_to_phys (buf - buf mod PAGE_SIZE)) m); try done; try lia.
  - intros v Hv'. apply Hph. lia.
  - intros Hend. cbn [count_loop] in Hcnt.
    destruct (Z.ltb_spec (buf - buf mod PAGE_SIZE + PAGE_SIZE) (buf + len)) as [Hlt|_].
    + lia.
    + cbn [negb] in Hcnt. injection Hcnt as <-. lia.
  - intros Hmore. destruct Hs5 as [|[Hs5 Hpg]]; [lia|]. split; [done|]. split; [lia|].
    split; [unfold PAGE_SIZE in *; lia|]. rewrite H1, Hpg.
    replace (buf + (PAGE_SIZE - buf mod PAGE_SIZE)) with (buf - buf mod PAGE_SIZE + PAGE_SIZE) by lia.
    replace (buf - buf mod PAGE_SIZE + PAGE_SIZE + (len - (PAGE_SIZE - buf mod PAGE_SIZE))) with (buf + len) by lia.
    done.
Qed.
End Buffers.

(** ** Properties *)

(** [uk_sglist_append] adds to the list exactly the physical bytes of the buffer, in order
    and whatever way the pages are laid out physically, or answers -EFBIG and leaves the list
    as it was. *)
Theorem sglist_append_correct virt_to_phys sg buf len :
  (forall v i, 0 <= v -> 0 <= i -> v mod PAGE_SIZE + i < PAGE_SIZE ->
     virt_to_phys (v + i) = virt_to_phys v + i) ->
  wf sg -> 0 < sg_maxseg sg -> 0 <= buf -> 0 <= len -> buf + len < 2 ^ 64 ->
  phys_ok virt_to_phys buf len ->
  exists e sg', uk_sglist_append virt_to_phys sg buf len = Some (e, sg') /\
    sg_maxseg sg' = sg_maxseg sg /\
    (e = 0 /\ wf sg' /\ bytes sg' = bytes sg ++ (virt_to_phys <$> seqZ buf len) \/
     e = - EFBIG /\ sg_nseg sg' = sg_nseg sg /\ live sg' = live sg).
Proof.
  intros Hlin Hwf Hmax Hv Hl Hb Hph. unfold uk_sglist_append.
  destruct (Z.eqb_spec (sg_maxseg sg) 0); [lia|].
  assert (Hs : exists save, SGLIST_SAVE sg = Some save).
  { unfold SGLIST_SAVE. destruct (Z.ltb_spec 0 (sg_nseg sg)); [|by eauto]. destruct Hwf.
    destruct (zget_is_Some (sg_segs sg) (sg_nseg sg - 1)) as [s ->]; [lia|]. cbn. eauto. }
  destruct Hs as [save Hs]. rewrite Hs. cbn [mbind option_bind].
  destruct (append_buf_spec virt_to_phys Hlin sg buf len) as (e & sg1 & -> & Hex & Hres); try done.
  cbn [mbind option_bind]. pose proof (ex_max _ _ Hex). destruct Hres as [->|(-> & Hwf1 & Hby)].
  - destruct (restore_spec sg sg1 save Hwf Hex Hs) as (sg2 & Hr & H1 & H2 & H3 & H4).
    cbn [negb Z.eqb EFBIG Z.opp]. rewrite Hr. cbn [mbind option_bind]. exists (- EFBIG), sg2. split; [done|].
    split; [done|]. right. done.
  - cbn [negb Z.eqb]. exists 0, sg1. split; [done|]. split; [done|]. left. done.
Qed.

(** The identity translation of the KVM and Linux platforms. *)
Definition kvm_virt_to_phys (a : Z) : Z := a.

Definition sg_ex : uk_sglist := SG [Seg 0 0; Seg 0 0] 1 0 2.

Lemma sglist_append_correct_witness :
  exists e sg', uk_sglist_append kvm_virt_to_phys sg_ex 4090 10 = Some (e, sg') /\ sg_maxseg sg' = 2.
Proof.
  destruct (sglist_append_correct kvm_virt_to_phys sg_ex 4090 10) as (e & sg' & H1 & H2 & _).
  - intros v i _ _ _. reflexivity.
  - split; cbn; [lia|lia|lia|constructor].
  - cbn. lia.
  - lia.
  - lia.
  - lia.
  - intros v Hv. unfold kvm_virt_to_phys, PAGE_SIZE. lia.
  - exists e, sg'. split; [exact H1|exact H2].
Defined.

(** [uk_sglist_count] predicts the number of segments: a list built with that many places
    holds the buffer, uses all of them, and no append can fail. *)
Theorem sglist_build_exact virt_to_phys malloc buf len :
  (forall v i, 0 <= v -> 0 <= i -> v mod PAGE_SIZE + i < PAGE_SIZE ->
     virt_to_phys (v + i) = virt_to_phys v + i) ->
  (forall n, 0 <= n -> exists segs, malloc n = Some segs /\ zlen segs = n) ->
  0 <= buf -> 0 < len -> buf + len + PAGE_SIZE < 2 ^ 64 -> phys_ok virt_to_phys buf len ->
  exists m, uk_sglist_count virt_to_phys buf len = Some m /\ 0 < m /\
    (m < 2 ^ 16 -> exists sg, uk_sglist_build virt_to_phys malloc buf len = Some (Some sg) /\
       sg_nseg sg = m /\ sg_maxseg sg = m /\ bytes sg = virt_to_phys <$> seqZ buf len).
Proof.
  intros Hlin Hmal Hv Hl Hb Hph.
  assert (Hcnt : exists m, uk_sglist_count virt_to_phys buf len = Some m /\ 1 <= m).
  { unfold uk_sglist_count. destruct (Z.eqb_spec len 0); [lia|]. cbv zeta.
    rewrite trunc_page_eq, (wrap_small 64 (buf + len)) by (unfold in_u, PAGE_SIZE in *; lia).
    pose proof (Z.mod_pos_bound buf PAGE_SIZE ltac:(unfold PAGE_SIZE; lia)).
    pose proof (Z.mod_le buf PAGE_SIZE Hv ltac:(unfold PAGE_SIZE; lia)).
    rewrite (wrap_small 64 (buf - buf mod PAGE_SIZE + PAGE_SIZE)) by (unfold in_u, PAGE_SIZE in *; lia).
    pose proof (page_fuel len ltac:(lia)).
    destruct (count_total virt_to_phys (S (Z.to_nat (len / PAGE_SIZE + 1))) 1 (virt_to_phys (buf - buf mod PAGE_SIZE))
      (buf - buf mod PAGE_SIZE + PAGE_SIZE) (buf + len)) as [m Hm]; [unfold PAGE_SIZE in *; lia|lia|unfold PAGE_SIZE in *; lia|lia|].
    exists m. split; [done|]. by apply count_mono in Hm. }
  destruct Hcnt as (m & Hm & Hpos). exists m. split; [done|]. split; [lia|]. intros H16.
  unfold uk_sglist_build. destruct (Z.eqb_spec len 0); [lia|]. rewrite Hm. cbn [mbind option_bind].
  destruct (Z.leb_spec m 0); [lia|]. destruct (Hmal m ltac:(lia)) as (segs & Hsegs & Hlen).
  unfold uk_sglist_alloc. rewrite Hsegs. unfold uk_sglist_init.
  rewrite (wrap_small 16 m) by (unfold in_u; lia). set (sg0 := SG segs 1 0 m).
  assert (Hwf0 : wf sg0) by (split; cbn; [lia|lia|lia|constructor]).
  destruct (append_buf_counted virt_to_phys Hlin sg0 buf len m) as (sg1 & Hrun & Hn1); try done; [cbn; lia..|].
  destruct (append_buf_spec virt_to_phys Hlin sg0 buf len) as (e & sg1' & Hrun' & Hex & Hres); try done; try (cbn; lia); [unfold PAGE_SIZE in *; lia|].
  rewrite Hrun in Hrun'. injection Hrun' as <- <-. destruct Hres as [|(_ & Hwf1 & Hby)]; [done|].
  unfold uk_sglist_append. cbn [sg_maxseg sg0]. destruct (Z.eqb_spec m 0); [lia|].
  cbn -[_sglist_append_buf]. fold sg0. rewrite Hrun. cbn. exists sg1. split; [done|]. split; [done|].
  split; [by rewrite (ex_max _ _ Hex)|]. rewrite Hby. done.
Qed.

Lemma sglist_build_exact_witness :
  exists m, uk_sglist_count kvm_virt_to_phys 4090 9000 = Some m /\ 0 < m.
Proof.
  destruct (sglist_build_exact kvm_virt_to_phys (fun n => Some (replicate (Z.to_nat n) (Seg 0 0))) 4090 9000) as (m & H1 & H2 & _).
  - intros v i _ _ _. reflexivity.
  - intros n Hn. exists (replicate (Z.to_nat n) (Seg 0 0)). rewrite length_replicate. split; [reflexivity|lia].
  - lia.
  - lia.
  - unfold PAGE_SIZE. lia.
  - intros v Hv. unfold kvm_virt_to_phys, PAGE_SIZE. lia.
  - exists m. split; [exact H1|exact H2].
Defined.

(** [uk_sglist_join] passes the arrays to [memmove] in the wrong order: the second list's
    segments never reach the first, which counts entries nobody wrote. *)
Theorem sglist_join_swapped :
  uk_sglist_join (SG [Seg 0 16; Seg 7 7] 1 1 2) (SG [Seg 64 16] 1 1 1)
  = Some (0, SG [Seg 0 16; Seg 7 7] 1 2 2, SG [Seg 7 7] 1 0 1).
Proof. reflexivity. Qed.

(** [uk_sglist_split] moves [count] entries to the front instead of those that remain: of
    three segments split after the first, the second is left twice and the third is lost. *)
Theorem sglist_split_drops_tail :
  uk_sglist_split (fun n => Some (replicate (Z.to_nat n) (Seg 0 0)))
    (SG [Seg 0 16; Seg 64 16; Seg 128 16] 1 3 3) None 16
  = Some (0, Some (SG [Seg 0 16] 1 1 1), SG [Seg 64 16; Seg 64 16; Seg 128 16] 1 2 3).
Proof. reflexivity. Qed.

(** [uk_sglist_append_sglist] into an empty list looks at the segment in front of the array. *)
Theorem sglist_append_sglist_empty :
  uk_sglist_append_sglist (SG [Seg 0 0] 1 0 1) (SG [Seg 64 16] 1 1 1) 0 16 = None.
Proof. reflexivity. Qed.
End Sglist.
