(* ===== verification/Virtqueue.v ===== *)
(** * Virtqueue: the split virtqueue shared with the host

    [plat/drivers/virtio/virtio_ring.c] and [plat/drivers/include/virtio/virtio_ring.h]: the
    descriptor table with its chain of free descriptors, the available ring the driver
    publishes to and the used ring the host answers in.  The driver's functions are executable
    definitions ([None] is an access outside an array, a failed UK_ASSERT, or a descriptor
    chain with a cycle); the host is the other party of a step relation and may complete
    buffers in any order.  The theorems show that descriptors are neither lost nor used
    twice, that the host sees the submitted segments in submission order, and that the
    driver gets back the cookie it submitted with each buffer. *)
From Stdlib Require Import ZArith Lia Bool.
From stdpp Require Import sorting.
From S2P Require Import Prelude.
Open Scope Z_scope.

Module Virtqueue.

Definition VRING_DESC_F_NEXT : Z := 1.
Definition VRING_DESC_F_WRITE : Z := 2.
Definition VRING_USED_F_NO_NOTIFY : Z := 1.
Definition VRING_AVAIL_F_NO_INTERRUPT : Z := 1.
Definition VIRTQUEUE_MAX_SIZE : Z := 32768.
Definition VIRTIO_TRANSPORT_F_START : Z := 28.
Definition ENOMEM : Z := 12.
Definition EINVAL : Z := 22.
Definition ENOSPC : Z := 28.
Definition ENOMSG : Z := 83.

Record vring_desc := Desc { addr : Z; len : Z; flags : Z; next : Z }.
Record vring_avail := Avail { aflags : Z; aidx : Z; aring : list Z }.
Record vring_used := Used { uflags : Z; uidx : Z; uring : list (Z * Z) }.
Record vring := Vring { num : Z; desc : list vring_desc; avail : vring_avail; used : vring_used }.
Record virtqueue_desc_info := Info { cookie : Z; desc_count : Z }.
Record virtqueue_vring := VQ {
  ring : vring;
  desc_avail : Z;
  head_free_desc : Z;
  last_used_desc_idx : Z;
  vq_avail_idx : Z;
  vq_info : list virtqueue_desc_info
}.

(** A scatter-gather segment: physical address and length. *)
Definition seg : Type := Z * Z.

(** Assignments to one field. *)
Definition set_avail (v : virtqueue_vring) (a : vring_avail) : virtqueue_vring :=
  VQ (Vring (num (ring v)) (desc (ring v)) a (used (ring v))) (desc_avail v) (head_free_desc v)
    (last_used_desc_idx v) (vq_avail_idx v) (vq_info v).
Definition set_used (v : virtqueue_vring) (u : vring_used) : virtqueue_vring :=
  VQ (Vring (num (ring v)) (desc (ring v)) (avail (ring v)) u) (desc_avail v) (head_free_desc v)
    (last_used_desc_idx v) (vq_avail_idx v) (vq_info v).
Definition set_free (v : virtqueue_vring) (ds : list vring_desc) (n head : Z)
    (infos : list virtqueue_desc_info) : virtqueue_vring :=
  VQ (Vring (num (ring v)) ds (avail (ring v)) (used (ring v))) n head
    (last_used_desc_idx v) (vq_avail_idx v) infos.
Definition set_avail_idx (v : virtqueue_vring) (i : Z) : virtqueue_vring :=
  VQ (ring v) (desc_avail v) (head_free_desc v) (last_used_desc_idx v) i (vq_info v).
Definition set_last_used (v : virtqueue_vring) (i : Z) : virtqueue_vring :=
  VQ (ring v) (desc_avail v) (head_free_desc v) i (vq_avail_idx v) (vq_info v).

(** ** Layout of the ring in memory ([vring_init], [vring_size]) *)

Definition sizeof_vring_desc : Z := 16.
Definition sizeof_vring_avail : Z := 4.
Definition sizeof_vring_used : Z := 4.
Definition sizeof_vring_used_elem : Z := 8.

(** The addresses of [desc], [avail] and [used] for a ring of [n] descriptors at [p]. *)
Definition vring_init (n p align : Z) : Z * Z * Z :=
  let av := u64 (p + u64 (n * sizeof_vring_desc)) in
  (p, av, Z.land (u64 (u64 (u64 (av + sizeof_vring_avail + 2 * n) + align) - 1))
            (lnotw 64 (u64 (align - 1)))).

(** [int size]: every assignment truncates the [unsigned long] on its right to an [int]. *)
Definition vring_size (n align : Z) : Z :=
  let size := sext 32 (u64 (n * sizeof_vring_desc)) in
  let size := sext 32 (u64 (u64 size + sizeof_vring_avail + u64 (n * 2) + 2)) in
  let size := sext 32 (Z.land (u64 (u64 (u64 size + align) - 1)) (lnotw 64 (u64 (align - 1)))) in
  let size := sext 32 (u64 (u64 size + sizeof_vring_used + u64 (n * sizeof_vring_used_elem) + 2)) in
  u32 size.

(** The [__u16] operands are promoted to [int]: nothing wraps. *)
Definition vring_need_event (event_idx new_idx old_idx : Z) : bool :=
  new_idx - event_idx - 1 <? new_idx - old_idx.

(** ** The driver's side of the rings *)

Definition virtqueue_hasdata (v : virtqueue_vring) : bool :=
  negb (last_used_desc_idx v =? uidx (used (ring v))).

Definition virtqueue_intr_disable (v : virtqueue_vring) : virtqueue_vring :=
  let a := avail (ring v) in
  set_avail v (Avail (Z.lor (aflags a) VRING_AVAIL_F_NO_INTERRUPT) (aidx a) (aring a)).

(** [host] is what the host does to the used ring between enabling the interrupt and the
    second look at it. *)
Definition virtqueue_intr_enable (host : vring_used -> vring_used) (v : virtqueue_vring)
    : Z * virtqueue_vring :=
  if negb (virtqueue_hasdata v) then
    let a := avail (ring v) in
    if negb (Z.lor (aflags a) VRING_AVAIL_F_NO_INTERRUPT =? 0) then
      let v1 := set_avail v (Avail (Z.land (aflags a) (lnotw 16 VRING_AVAIL_F_NO_INTERRUPT))
                               (aidx a) (aring a)) in
      let v2 := set_used v1 (host (used (ring v1))) in
      if virtqueue_hasdata v2 then (1, virtqueue_intr_disable v2) else (0, v2)
    else (0, v)
  else (1, v).

Definition virtqueue_ring_update_avail_idx (v : virtqueue_vring) : virtqueue_vring :=
  let a := avail (ring v) in set_avail v (Avail (aflags a) (vq_avail_idx v) (aring a)).

Definition virtqueue_ring_update_avail (v : virtqueue_vring) (idx : Z) : option virtqueue_vring :=
  let a := avail (ring v) in
  let avail_idx := u16 (Z.land (vq_avail_idx v) (u32 (num (ring v) - 1))) in
  r ← zset (aring a) avail_idx idx;
  Some (set_avail_idx (set_avail v (Avail (aflags a) (aidx a) r)) (u16 (vq_avail_idx v + 1))).

(** The walk to the last descriptor of a chain, counting down. *)
Fixpoint detach_loop (fuel : nat) (ds : list vring_desc) (i count : Z) : option (Z * Z) :=
  match fuel with
  | O => None
  | S fuel' =>
      d ← zget ds i;
      if Z.land (flags d) VRING_DESC_F_NEXT =? 0 then Some (i, count)
      else detach_loop fuel' ds (next d) (u16 (count - 1))
  end.

Definition virtqueue_detach_desc (v : virtqueue_vring) (head_idx : Z) : option virtqueue_vring :=
  let ds := desc (ring v) in
  info ← zget (vq_info v) head_idx;
  '(last, count) ← detach_loop (S (length ds)) ds head_idx (u16 (desc_count info - 1));
  if negb (count =? 0) then None
  else
    infos ← zset (vq_info v) head_idx (Info (cookie info) count);
    d ← zget ds last;
    ds' ← zset ds last (Desc (addr d) (len d) (flags d) (head_free_desc v));
    Some (set_free v ds' (u16 (desc_avail v + desc_count info)) head_idx infos).

Definition virtqueue_notify_enabled (v : virtqueue_vring) : bool :=
  Z.land (uflags (used (ring v))) VRING_USED_F_NO_NOTIFY =? 0.

(** The loop of [virtqueue_buffer_enqueue_segments]: [j] is [i - off] and [k] the iterations
    left. *)
Fixpoint segments_loop (k : nat) (ds : list vring_desc) (idx : Z) (sg : list seg)
    (off j read_bufs total_desc : Z) : option (Z * list vring_desc) :=
  match k with
  | O => Some (idx, ds)
  | S k' =>
      s ← zget sg (off + j);
      d ← zget ds idx;
      let f := 0 in
      let f := if read_bufs <=? j then Z.lor f VRING_DESC_F_WRITE else f in
      let f := if j <? total_desc - 1 then Z.lor f VRING_DESC_F_NEXT else f in
      ds' ← zset ds idx (Desc s.1 (u32 s.2) f (next d));
      segments_loop k' ds' (next d) sg off (j + 1) read_bufs total_desc
  end.

Definition virtqueue_buffer_enqueue_segments (ds : list vring_desc) (head : Z) (sg : list seg)
    (off read_bufs write_bufs : Z) : option (Z * list vring_desc) :=
  segments_loop (Z.to_nat (read_bufs + write_bufs)) ds head sg off 0 read_bufs
    (read_bufs + write_bufs).

(** Only the transport's own features below [VIRTIO_TRANSPORT_F_START] survive. *)
Definition virtqueue_feature_negotiate (feature_set : Z) : Z :=
  Z.land (u64 (u64 (Z.shiftl 1 VIRTIO_TRANSPORT_F_START) - 1)) feature_set.

(** The interrupt handler; [callback] is [vq_callback] applied to the queue's private data. *)
Definition virtqueue_ring_interrupt (callback : option (virtqueue_vring -> Z * virtqueue_vring))
    (v : virtqueue_vring) : Z * virtqueue_vring :=
  if negb (virtqueue_hasdata v) then (0, v)
  else match callback with Some f => f v | None => (0, v) end.

Definition _virtqueue_buffer_dequeue (v : virtqueue_vring) : option (Z * Z * virtqueue_vring) :=
  let used_idx := u16 (Z.land (last_used_desc_idx v) (u32 (num (ring v) - 1))) in
  let v1 := set_last_used v (u16 (last_used_desc_idx v + 1)) in
  elem ← zget (uring (used (ring v1))) used_idx;
  let head_idx := u16 elem.1 in
  info ← zget (vq_info v1) head_idx;
  v2 ← virtqueue_detach_desc v1 head_idx;
  info2 ← zget (vq_info v2) head_idx;
  infos ← zset (vq_info v2) head_idx (Info 0 (desc_count info2));
  Some (cookie info, elem.2, set_free v2 (desc (ring v2)) (desc_avail v2) (head_free_desc v2) infos).

(** The result code with the dequeued cookie and length, if there is one. *)
Definition virtqueue_buffer_dequeue (v : virtqueue_vring)
    : option (Z * option (Z * Z) * virtqueue_vring) :=
  if negb (virtqueue_hasdata v) then Some (- ENOMSG, None, v)
  else
    '(c, l, v') ← _virtqueue_buffer_dequeue v;
    Some (sext 32 (num (ring v') - desc_avail v'), Some (c, l), v').

Fixpoint dequeue_loop (k : nat) (v : virtqueue_vring) : option (list (Z * Z) * virtqueue_vring) :=
  match k with
  | O => Some ([], v)
  | S k' =>
      '(c, l, v1) ← _virtqueue_buffer_dequeue v;
      '(r, v2) ← dequeue_loop k' v1;
      Some ((c, l) :: r, v2)
  end.

(** [cnt] buffers at most; the list is what the [cookie] and [len] arrays hold, its length the
    final [*cnt]. *)
Definition virtqueue_buffer_dequeue_burst (v : virtqueue_vring) (cnt : Z)
    : option (Z * list (Z * Z) * virtqueue_vring) :=
  let avail_desc := u16 (uidx (used (ring v)) - last_used_desc_idx v) in
  let count := u16 (Z.min avail_desc cnt) in
  '(r, v') ← dequeue_loop (Z.to_nat count) v;
  Some (sext 32 (num (ring v') - desc_avail v'), r, v').

Definition _virtqueue_buffer_enqueue (v : virtqueue_vring) (ck : Z) (sg : list seg)
    (off read_bufs write_bufs : Z) : option (Z * virtqueue_vring) :=
  let total_desc := read_bufs + write_bufs in
  if desc_avail v <? total_desc then Some (- ENOSPC, v)
  else
    let head_idx := head_free_desc v in
    if ck =? 0 then None
    else
      infos ← zset (vq_info v) head_idx (Info ck (u16 total_desc));
      '(idx, ds) ← virtqueue_buffer_enqueue_segments (desc (ring v)) head_idx sg off
                     read_bufs write_bufs;
      let v1 := set_free v ds (u16 (desc_avail v - total_desc)) (u16 idx) infos in
      v2 ← virtqueue_ring_update_avail v1 head_idx;
      Some (desc_avail v2, v2).

Definition virtqueue_buffer_enqueue (v : virtqueue_vring) (ck : Z) (sg : list seg)
    (read_bufs write_bufs : Z) : option (Z * virtqueue_vring) :=
  let total_desc := u16 (read_bufs + write_bufs) in
  if ck =? 0 then None
  else if (total_desc <? 1) || (num (ring v) <? total_desc) then Some (- EINVAL, v)
  else
    '(rc, v1) ← _virtqueue_buffer_enqueue v ck sg 0 read_bufs write_bufs;
    Some (rc, if 0 <=? rc then virtqueue_ring_update_avail_idx v1 else v1).

(** The burst: [reqs] lists the cookies with the running totals [read_bufs] and [write_bufs];
    [rc] starts undefined.  The result is the last [rc], the number of buffers added, and
    whether the loop ended without the early return. *)
Fixpoint enqueue_loop (v : virtqueue_vring) (sg : list seg) (reqs : list (Z * Z * Z))
    (i total_desc read_desc write_desc : Z) (rc : option Z)
    : option (option Z * Z * bool * virtqueue_vring) :=
  match reqs with
  | [] => Some (rc, i, true, v)
  | (ck, r, w) :: reqs' =>
      '(rc1, v1) ← _virtqueue_buffer_enqueue v ck sg total_desc (u16 (r - read_desc))
                     (u16 (w - write_desc));
      if (rc1 <? 0) && (i =? 0) then Some (Some rc1, i, false, v1)
      else if rc1 <? 0 then Some (Some rc1, i, true, v1)
      else enqueue_loop v1 sg reqs' (i + 1) (r + w) r w (Some rc1)
  end.

Definition virtqueue_buffer_enqueue_burst (v : virtqueue_vring) (sg : list seg)
    (reqs : list (Z * Z * Z)) : option (option Z * Z * virtqueue_vring) :=
  '(rc, i, completed, v1) ← enqueue_loop v sg reqs 0 0 0 0 None;
  Some (rc, if completed : bool then i else zlen reqs,
        if completed : bool then virtqueue_ring_update_avail_idx v1 else v1).

(** The network variant takes one buffer, used for every descriptor of the chain; the test for
    enough free descriptors is compiled out. *)
Fixpoint virtnet_loop (k : nat) (ds : list vring_desc) (idx : Z) (nb : seg)
    (i read_bufs total_desc : Z) : option (Z * list vring_desc) :=
  match k with
  | O => Some (idx, ds)
  | S k' =>
      d ← zget ds idx;
      let f := 0 in
      let f := if read_bufs <=? i then Z.lor f VRING_DESC_F_WRITE else f in
      let f := if i <? total_desc - 1 then Z.lor f VRING_DESC_F_NEXT else f in
      ds' ← zset ds idx (Desc nb.1 (u32 nb.2) f (next d));
      virtnet_loop k' ds' (next d) nb (i + 1) read_bufs total_desc
  end.

Definition _virtnet_buffer_enqueue (v : virtqueue_vring) (ck : Z) (nb : seg)
    (read_bufs write_bufs : Z) : option (Z * virtqueue_vring) :=
  let total_desc := read_bufs + write_bufs in
  let head_idx := head_free_desc v in
  if ck =? 0 then None
  else
    infos ← zset (vq_info v) head_idx (Info ck (u16 total_desc));
    '(idx, ds) ← virtnet_loop (Z.to_nat total_desc) (desc (ring v)) head_idx nb 0 read_bufs
                   total_desc;
    let v1 := set_free v ds (u16 (desc_avail v - total_desc)) (u16 idx) infos in
    if negb (desc_avail v1 <? num (ring v1)) then None
    else
      v2 ← virtqueue_ring_update_avail v1 head_idx;
      Some (desc_avail v2, v2).

Fixpoint virtnet_enqueue_loop (v : virtqueue_vring) (reqs : list (Z * seg * Z * Z)) (i : Z)
    (rc : option Z) : option (option Z * Z * bool * virtqueue_vring) :=
  match reqs with
  | [] => Some (rc, i, true, v)
  | (ck, nb, r, w) :: reqs' =>
      '(rc1, v1) ← _virtnet_buffer_enqueue v ck nb r w;
      if (rc1 <? 0) && (i =? 0) then Some (Some rc1, i, false, v1)
      else if rc1 <? 0 then Some (Some rc1, i, true, v1)
      else virtnet_enqueue_loop v1 reqs' (i + 1) (Some rc1)
  end.

Definition virtnet_buffer_enqueue_burst (v : virtqueue_vring) (reqs : list (Z * seg * Z * Z))
    : option (option Z * Z * virtqueue_vring) :=
  '(rc, i, completed, v1) ← virtnet_enqueue_loop v reqs 0 None;
  Some (rc, if completed : bool then i else zlen reqs,
        if completed : bool then virtqueue_ring_update_avail_idx v1 else v1).

(** The loop that links the free descriptors, on zeroed memory. *)
Fixpoint link_loop (k : nat) (ds : list vring_desc) (i : Z) : option (list vring_desc) :=
  match k with
  | O => Some ds
  | S k' =>
      d ← zget ds i;
      ds' ← zset ds i (Desc (addr d) (len d) (flags d) (u16 (i + 1)));
      link_loop k' ds' (i + 1)
  end.

Definition virtqueue_vring_init (nr_desc : Z) (infos : list virtqueue_desc_info)
    : option virtqueue_vring :=
  let n := Z.to_nat nr_desc in
  ds ← link_loop (Z.to_nat (nr_desc - 1)) (replicate n (Desc 0 0 0 0)) 0;
  d ← zget ds (nr_desc - 1);
  ds' ← zset ds (nr_desc - 1) (Desc (addr d) (len d) (flags d) VIRTQUEUE_MAX_SIZE);
  Some (VQ (Vring nr_desc ds' (Avail 0 0 (replicate n 0)) (Used 0 0 (replicate n (0, 0))))
          (u16 nr_desc) 0 0 0 infos).

(** [malloc] is the uninitialised memory [uk_malloc] gives for [vq_info], [memalign] whether
    the ring's memory could be allocated: [inl] is the error returned. *)
Definition virtqueue_create (malloc : Z -> option (list virtqueue_desc_info))
    (memalign : Z -> bool) (nr_descs align : Z) : option (Z + virtqueue_vring) :=
  match malloc nr_descs with
  | None => Some (inl (- ENOMEM))
  | Some infos =>
      if negb (memalign (vring_size nr_descs align)) then Some (inl (- ENOMEM))
      else v ← virtqueue_vring_init nr_descs infos; Some (inr v)
  end.

Definition virtqueue_is_full (v : virtqueue_vring) : bool := desc_avail v =? 0.

(** ** The queue between the driver and the host *)

(** One buffer of a chain as the host sees it: address, length, and whether the host may
    write to it. *)
Definition entry (d : vring_desc) : Z * Z * bool :=
  (addr d, len d, negb (Z.land (flags d) VRING_DESC_F_WRITE =? 0)).

(** What the host finds by following a chain from its head. *)
Fixpoint read_chain (fuel : nat) (ds : list vring_desc) (i : Z) : option (list (Z * Z * bool)) :=
  match fuel with
  | O => None
  | S fuel' =>
      d ← zget ds i;
      if Z.land (flags d) VRING_DESC_F_NEXT =? 0 then Some [entry d]
      else l ← read_chain fuel' ds (next d); Some (entry d :: l)
  end.

(** The buffers a request describes: [total] segments from [off] on, the first [read_bufs] of
    them for the host to read and the others for it to write. *)
Definition request (sg : list seg) (off read_bufs total : Z) : list (Z * Z * bool) :=
  (fun j => let s := default (0, 0) (zget sg (off + j)) in (s.1, u32 s.2, read_bufs <=? j))
  <$> seqZ 0 total.

(** The host: how far it has read the available ring, and the chains it holds, each with the
    number of the submission it fetched it as. *)
Record host := Host { last_avail : Z; taken : list (Z * nat) }.

(** The system, with what each side has done so far: the buffers submitted (cookie and
    segments), the segments the host fetched, the completions (number of the submission and
    length written) and what the driver dequeued (cookie and length). *)
Record system := Sys {
  vq : virtqueue_vring;
  hst : host;
  submitted : list (Z * list (Z * Z * bool));
  fetched : list (list (Z * Z * bool));
  completed : list (nat * Z);
  received : list (Z * Z)
}.

Inductive step (s : system) : system -> Prop :=
| StepEnqueue ck sg r w rc v' :
    0 <= r < 2 ^ 16 -> 0 <= w < 2 ^ 16 -> r + w <= zlen sg ->
    virtqueue_buffer_enqueue (vq s) ck sg r w = Some (rc, v') ->
    step s (Sys v' (hst s)
              (if 0 <=? rc then submitted s ++ [(ck, request sg 0 r (r + w))] else submitted s)
              (fetched s) (completed s) (received s))
| StepFetch i l :
    last_avail (hst s) <> aidx (avail (ring (vq s))) ->
    zget (aring (avail (ring (vq s)))) (last_avail (hst s) mod num (ring (vq s))) = Some i ->
    read_chain (length (desc (ring (vq s)))) (desc (ring (vq s))) i = Some l ->
    step s (Sys (vq s)
              (Host (u16 (last_avail (hst s) + 1)) (taken (hst s) ++ [(i, length (fetched s))]))
              (submitted s) (fetched s ++ [l]) (completed s) (received s))
| StepComplete t1 i k t2 n r :
    taken (hst s) = t1 ++ (i, k) :: t2 ->
    zset (uring (used (ring (vq s)))) (uidx (used (ring (vq s))) mod num (ring (vq s))) (i, n)
      = Some r ->
    step s (Sys (set_used (vq s) (Used (uflags (used (ring (vq s))))
                                    (u16 (uidx (used (ring (vq s))) + 1)) r))
              (Host (last_avail (hst s)) (t1 ++ t2))
              (submitted s) (fetched s) (completed s ++ [(k, n)]) (received s))
| StepDequeue rc c l v' :
    virtqueue_buffer_dequeue (vq s) = Some (rc, Some (c, l), v') ->
    step s (Sys v' (hst s) (submitted s) (fetched s) (completed s) (received s ++ [(c, l)])).

Inductive reachable (v0 : virtqueue_vring) : system -> Prop :=
| Reach0 : reachable v0 (Sys v0 (Host 0 []) [] [] [] [])
| ReachS s s' : reachable v0 s -> step s s' -> reachable v0 s'.

(** ** Chains of descriptors *)

(** The free descriptors, from [i] on along [next] to the end mark. *)
Fixpoint path (ds : list vring_desc) (i : Z) (l : list Z) : Prop :=
  match l with
  | [] => i = VIRTQUEUE_MAX_SIZE
  | x :: l' => i = x /\ exists d, zget ds x = Some d /\ path ds (next d) l'
  end.

(** The descriptors [ch] of a submitted chain hold the buffers [es]. *)
Fixpoint holds (ds : list vring_desc) (ch : list Z) (es : list (Z * Z * bool)) : Prop :=
  match ch, es with
  | x :: ch', e :: es' =>
      exists d, zget ds x = Some d /\ entry d = e /\
        match ch' with
        | [] => Z.land (flags d) VRING_DESC_F_NEXT = 0 /\ es' = []
        | y :: _ => Z.land (flags d) VRING_DESC_F_NEXT <> 0 /\ next d = y /\ holds ds ch' es'
        end
  | _, _ => False
  end.

Definition same_on (l : list Z) (ds ds' : list vring_desc) : Prop :=
  forall x, x ∈ l -> zget ds' x = zget ds x.

Lemma same_on_cons x l ds ds' : same_on (x :: l) ds ds' <-> zget ds' x = zget ds x /\ same_on l ds ds'.
Proof.
  unfold same_on. split.
  - intros H. split; [apply H, list_elem_of_here|]. intros y Hy. by apply H, list_elem_of_further.
  - intros [H1 H2] y [->|Hy]%elem_of_cons; auto.
Qed.

Lemma path_frame ds ds' i l : same_on l ds ds' -> path ds i l -> path ds' i l.
Proof.
  revert i. induction l as [|x l IH]; intros i; cbn; [done|].
  rewrite same_on_cons. intros [Hx Hl] (-> & d & Hd & Hp). split; [done|]. exists d.
  rewrite Hx. auto.
Qed.

Lemma holds_frame ds ds' ch es : same_on ch ds ds' -> holds ds ch es -> holds ds' ch es.
Proof.
  revert es. induction ch as [|x ch IH]; intros [|e es]; cbn; try done.
  rewrite same_on_cons. intros [Hx Hl] (d & Hd & He & Hr). exists d. rewrite Hx.
  split; [done|]. split; [done|]. destruct ch as [|y ch]; [done|].
  destruct Hr as (H1 & H2 & H3). auto.
Qed.

Lemma holds_length ds ch es : holds ds ch es -> (0 < length ch)%nat /\ length es = length ch.
Proof.
  revert es. induction ch as [|x ch IH]; intros [|e es]; cbn; try done.
  intros (d & Hd & He & Hr). split; [lia|]. f_equal. destruct ch as [|y ch]; [by destruct Hr as [_ ->]|].
  by destruct Hr as (_ & _ & [_ ->]%IH).
Qed.

Lemma path_range ds i l : path ds i l -> Forall (fun x => 0 <= x < zlen ds) l.
Proof.
  revert i. induction l as [|x l IH]; intros i; cbn; [constructor|].
  intros (-> & d & Hd & Hp). constructor; [by eapply zget_Some_range|by eapply IH].
Qed.

(** The host reads back exactly the entries of the chain. *)
Lemma read_chain_holds ds ch es fuel :
  holds ds ch es -> (length ch <= fuel)%nat -> read_chain fuel ds (hd 0 ch) = Some es.
Proof.
  revert es fuel. induction ch as [|x ch IH]; intros [|e es] fuel; cbn; try done.
  intros (d & Hd & He & Hr) Hf. destruct fuel as [|fuel]; [lia|]. cbn. rewrite Hd. cbn.
  destruct ch as [|y ch].
  - destruct Hr as [-> ->]. cbn. by subst.
  - destruct Hr as (Hn & -> & Hh). destruct (Z.eqb_spec (Z.land (flags d) VRING_DESC_F_NEXT) 0); [lia|].
    change y with (hd 0 (y :: ch)). rewrite (IH es) by (done || cbn in *; lia). cbn. by subst.
Qed.

(** Detaching walks to the last descriptor of the chain and counts down to zero. *)
Lemma detach_loop_holds ds ch es fuel :
  holds ds ch es -> (length ch <= fuel)%nat -> zlen ch < 2 ^ 16 ->
  detach_loop fuel ds (hd 0 ch) (zlen ch - 1) = Some (List.last ch 0, 0).
Proof.
  revert es fuel. induction ch as [|x ch IH]; intros [|e es] fuel; cbn -[Z.of_nat]; try done.
  intros (d & Hd & He & Hr) Hf Hb. destruct fuel as [|fuel]; [lia|]. cbn -[Z.of_nat]. rewrite Hd.
  cbn -[Z.of_nat]. destruct ch as [|y ch].
  - destruct Hr as [-> _]. done.
  - destruct Hr as (Hn & -> & Hh). destruct (Z.eqb_spec (Z.land (flags d) VRING_DESC_F_NEXT) 0); [lia|].
    rewrite wrap_small by (unfold in_u; cbn -[Z.of_nat] in *; lia).
    replace (Z.of_nat (S (length (y :: ch))) - 1 - 1) with (zlen (y :: ch) - 1) by (cbn; lia).
    apply (IH es fuel); [done|cbn in *; lia|cbn -[Z.of_nat] in *; lia].
Qed.

(** Relinking the last descriptor of a chain makes the chain a prefix of the free path. *)
Lemma holds_path ds ds' ch es h l d :
  holds ds ch es -> NoDup ch -> zget ds' (List.last ch 0) = Some d -> next d = h ->
  (forall x, x <> List.last ch 0 -> zget ds' x = zget ds x) ->
  path ds' h l -> path ds' (hd 0 ch) (ch ++ l).
Proof.
  revert es. induction ch as [|x ch IH]; intros [|e es]; cbn -[List.last]; try done.
  intros (d0 & Hd0 & He & Hr) [Hx Hnd]%list.NoDup_cons Hl Hh Hs Hp. split; [done|].
  destruct ch as [|y ch].
  - cbn in *. exists d. by subst.
  - destruct Hr as (Hn & Hy & Hhold). change (List.last (x :: y :: ch) 0) with (List.last (y :: ch) 0) in *.
    exists d0. split.
    + rewrite Hs; [done|]. intros ->. apply Hx. rewrite (app_removelast_last 0) by done.
      apply elem_of_app. right. apply list_elem_of_singleton. by rewrite <- (app_removelast_last 0).
    + rewrite Hy. change y with (hd 0 (y :: ch)). by eapply IH.
Qed.

(** Filling a chain: the loop takes the first free descriptors, leaves all others alone, and
    returns the rest of the free path. *)
Lemma segments_loop_spec sg off r total ch : forall ds j fr idx,
  path ds idx (ch ++ fr) -> NoDup (ch ++ fr) -> 0 <= off + j -> off + total <= zlen sg ->
  j + zlen ch = total ->
  exists idx' ds', segments_loop (length ch) ds idx sg off j r total = Some (idx', ds') /\
    path ds' idx' fr /\ length ds' = length ds /\
    (forall x, x ∉ ch -> zget ds' x = zget ds x) /\
    (ch <> [] -> holds ds' ch
       ((fun j => let s := default (0, 0) (zget sg (off + j)) in (s.1, u32 s.2, r <=? j))
        <$> seqZ j (zlen ch))).
Proof.
  induction ch as [|x ch IH]; intros ds j fr idx Hp Hnd Hj Hsg Ht.
  { exists idx, ds. cbn in *. split_and!; done. }
  cbn in Hp. destruct Hp as (-> & d & Hd & Hp). cbn -[seqZ Z.of_nat].
  destruct (zget_is_Some sg (off + j)) as [s Hs]; [cbn in *; lia|]. rewrite Hs. cbn -[seqZ Z.of_nat].
  rewrite Hd. cbn -[seqZ Z.of_nat]. pose proof (zget_Some_range _ _ _ Hd) as Hr.
  set (f := if j <? total - 1 then Z.lor (if r <=? j then Z.lor 0 VRING_DESC_F_WRITE else 0) VRING_DESC_F_NEXT
            else if r <=? j then Z.lor 0 VRING_DESC_F_WRITE else 0).
  destruct (zset ds x (Desc s.1 (u32 s.2) f (next d))) as [ds1|] eqn:Eset; [|by rewrite zset_is_Some in Eset].
  cbn -[seqZ Z.of_nat]. apply list.NoDup_cons in Hnd as [Hx Hnd].
  destruct (IH ds1 (j + 1) fr (next d)) as (idx' & ds' & -> & Hp' & Hl' & Hf' & Hh').
  - eapply path_frame; [|exact Hp]. intros y Hy. eapply zget_zset_ne; [|exact Eset]. intros ->. done.
  - done.
  - lia.
  - done.
  - cbn -[Z.of_nat] in Ht. lia.
  - exists idx', ds'. split; [done|]. split; [done|]. split; [by rewrite Hl', (zset_length _ _ _ _ Eset)|].
    split.
    { intros y [Hy1 Hy2]%not_elem_of_cons. rewrite Hf' by done. by eapply zget_zset_ne. }
    intros _. rewrite seqZ_cons by (cbn; lia). rewrite fmap_cons. cbn -[seqZ Z.of_nat].
    exists (Desc s.1 (u32 s.2) f (next d)). split.
    { rewrite Hf'; [by eapply zget_zset_eq|]. intros Hin. apply Hx, elem_of_app. by left. }
    split.
    { rewrite Hs. unfold entry. cbn. f_equal. unfold f. by destruct (j <? total - 1), (r <=? j). }
    replace (Z.pred (Z.of_nat (S (length ch)))) with (zlen ch) by lia.
    replace (Z.succ j) with (j + 1) by lia.
    destruct ch as [|y ch]; cbn -[seqZ Z.of_nat] in *.
    + unfold f. split; [|done]. destruct (Z.ltb_spec j (total - 1)); [lia|]. by destruct (r <=? j).
    + split; [unfold f; destruct (Z.ltb_spec j (total - 1)); [by destruct (r <=? j)|lia]|].
      split; [by destruct Hp as [-> _]|]. by apply Hh'.
Qed.

(** ** Ring windows: the entries between two free-running indices *)

Definition window {A} (ring : list A) (n i : Z) (l : list A) : Prop :=
  forall (j : nat) x, l !! j = Some x -> zget ring ((i + Z.of_nat j) mod n) = Some x.

Lemma window_push {A} (ring ring' : list A) n i l x :
  window ring n i l -> zlen l < n -> zset ring ((i + zlen l) mod n) x = Some ring' ->
  window ring' n i (l ++ [x]).
Proof.
  intros Hw Hn Hs j y Hj. apply lookup_app_Some in Hj as [Hj|[Hge Hj]].
  - rewrite (zget_zset_ne _ _ _ _ _ (not_eq_sym (mod_ne i (Z.of_nat j) (zlen l) n
      ltac:(apply lookup_lt_Some in Hj; lia) ltac:(lia))) Hs). by apply Hw.
  - apply list_lookup_singleton_Some in Hj as [Hj ->].
    replace (Z.of_nat j) with (zlen l) by lia. by eapply zget_zset_eq.
Qed.

(** A free-running 16-bit index may be reduced modulo a power-of-two ring size at any time. *)
Lemma u16_mod i k : 0 <= k <= 16 -> u16 i mod 2 ^ k = i mod 2 ^ k.
Proof.
  intros Hk. unfold wrap. apply Z.mod_mod_divide.
  exists (2 ^ (16 - k)). rewrite <- Z.pow_add_r by lia. f_equal. lia.
Qed.

Lemma window_tail {A} (ring : list A) k i x l :
  0 <= k <= 16 -> window ring (2 ^ k) i (x :: l) -> window ring (2 ^ k) (u16 (i + 1)) l.
Proof.
  intros Hk Hw j y Hj. specialize (Hw (S j) y Hj). rewrite <- Hw. f_equal.
  rewrite <- Zplus_mod_idemp_l, u16_mod, Zplus_mod_idemp_l by done. f_equal. lia.
Qed.

(** The masked index of the code. *)
Lemma mask_index i k : 0 <= k <= 15 -> u16 (Z.land i (u32 (2 ^ k - 1))) = i mod 2 ^ k.
Proof.
  intros Hk. pose proof (pow2_pos k). pose proof (Z.pow_le_mono_r 2 k 15).
  rewrite (wrap_small 32) by (unfold in_u; lia). rewrite land_mask by lia.
  pose proof (Z.mod_pos_bound i (2 ^ k)). apply wrap_small. unfold in_u. lia.
Qed.

(** ** Ownership of the descriptors *)

(** A buffer on its way: its chain, the number of its submission, its cookie and segments. *)
Record flight := Flight { fchain : list Z; fid : nat; fck : Z; fsegs : list (Z * Z * bool) }.

Definition fhead (f : flight) : Z := hd 0 (fchain f).

Record flight_ok (v : virtqueue_vring) (subm : list (Z * list (Z * Z * bool))) (f : flight)
    : Prop := {
  fl_sub : subm !! fid f = Some (fck f, fsegs f);
  fl_holds : holds (desc (ring v)) (fchain f) (fsegs f);
  fl_info : zget (vq_info v) (fhead f) = Some (Info (fck f) (zlen (fchain f)))
}.

(** Every descriptor is free or in exactly one flight. *)
Record owned (k : Z) (v : virtqueue_vring) (subm : list (Z * list (Z * Z * bool)))
    (fr : list Z) (fs : list flight) : Prop := {
  ow_k : 0 <= k <= 15;
  ow_num : num (ring v) = 2 ^ k;
  ow_desc : zlen (desc (ring v)) = 2 ^ k;
  ow_info : zlen (vq_info v) = 2 ^ k;
  ow_aring : zlen (aring (avail (ring v))) = 2 ^ k;
  ow_uring : zlen (uring (used (ring v))) = 2 ^ k;
  ow_free : path (desc (ring v)) (head_free_desc v) fr;
  ow_fl : Forall (flight_ok v subm) fs;
  ow_part : fr ++ concat (fchain <$> fs) ≡ₚ seqZ 0 (2 ^ k);
  ow_avail : desc_avail v = zlen fr
}.

#[global] Instance owned_perm k v subm fr : Proper ((≡ₚ) ==> iff) (owned k v subm fr).
Proof.
  assert (forall fs fs', fs ≡ₚ fs' -> owned k v subm fr fs -> owned k v subm fr fs') as Himp.
  { intros fs fs' Hp [H1 H2 H3 H4 H5 H6 H7 H8 H9 H10]. split; try done; by rewrite <- Hp. }
  intros fs fs' Hp. split; apply Himp; [done|by symmetry].
Qed.

Section Owned.
Context (k : Z) (v : virtqueue_vring) (subm : list (Z * list (Z * Z * bool))).
Context (fr : list Z) (fs : list flight) (O : owned k v subm fr fs).

Lemma ow_bound : 0 < 2 ^ k <= 2 ^ 15.
Proof. pose proof (ow_k _ _ _ _ _ O). split; [apply pow2_pos; lia|apply Z.pow_le_mono_r; lia]. Qed.

Lemma ow_nodup : NoDup (fr ++ concat (fchain <$> fs)).
Proof. rewrite (ow_part _ _ _ _ _ O). apply NoDup_seqZ. Qed.

Lemma ow_count : zlen fr + zlen (concat (fchain <$> fs)) = 2 ^ k.
Proof.
  pose proof (Permutation_length (ow_part _ _ _ _ _ O)) as H. rewrite length_app, length_seqZ in H.
  pose proof ow_bound. lia.
Qed.

Lemma flights_count l : l ⊆+ fs -> zlen l <= zlen (concat (fchain <$> fs)).
Proof.
  intros Hsub. pose proof (submseteq_length _ _ Hsub).
  enough (zlen fs <= zlen (concat (fchain <$> fs))) by lia.
  pose proof (ow_fl _ _ _ _ _ O) as Hfl. clear -Hfl.
  induction Hfl as [|f fs Hf _ IH]; [done|]. cbn -[Z.of_nat]. rewrite length_app.
  destruct (holds_length _ _ _ (fl_holds _ _ _ Hf)). cbn -[Z.of_nat] in *. lia.
Qed.

Lemma flight_disjoint f x : f ∈ fs -> x ∈ fchain f -> x ∉ fr.
Proof.
  intros Hf Hx Hin. pose proof ow_nodup as Hnd. apply NoDup_app in Hnd as (_ & Hd & _).
  apply (Hd x Hin). apply list_elem_of_In, in_concat. exists (fchain f). rewrite <- !list_elem_of_In.
  split; [by apply list_elem_of_fmap_2|done].
Qed.

Lemma flight_head f : f ∈ fs -> fhead f ∈ fchain f.
Proof.
  intros Hf. pose proof (ow_fl _ _ _ _ _ O) as Hfl. rewrite Forall_forall in Hfl.
  destruct (holds_length _ _ _ (fl_holds _ _ _ (Hfl f Hf))) as [Hl _].
  unfold fhead. destruct (fchain f); [cbn in Hl; lia|]. apply list_elem_of_here.
Qed.

Lemma fr_range x : x ∈ fr -> 0 <= x < 2 ^ k.
Proof.
  intros Hx. pose proof (path_range _ _ _ (ow_free _ _ _ _ _ O)) as H. rewrite Forall_forall in H.
  specialize (H x Hx). rewrite (ow_desc _ _ _ _ _ O) in H. done.
Qed.
End Owned.

Lemma flight_ok_frame v v' subm subm' f :
  same_on (fchain f) (desc (ring v)) (desc (ring v')) ->
  zget (vq_info v') (fhead f) = zget (vq_info v) (fhead f) -> subm `prefix_of` subm' ->
  flight_ok v subm f -> flight_ok v' subm' f.
Proof.
  intros Hs Hi Hp [H1 H2 H3]. split.
  - by eapply prefix_lookup_Some.
  - by eapply holds_frame.
  - by rewrite Hi.
Qed.

(** A buffer that fits takes the first free descriptors and the next place of the available
    ring; nothing else changes. *)
Lemma enqueue_owned k v subm fr fs ck sg off r w :
  owned k v subm fr fs -> vq_avail_idx v ∈u 16 ->
  ck <> 0 -> 0 <= r -> 0 <= w -> 0 < r + w <= zlen fr -> 0 <= off -> off + (r + w) <= zlen sg ->
  exists v' ch fr' ring', fr = ch ++ fr' /\ zlen ch = r + w /\
    _virtqueue_buffer_enqueue v ck sg off r w = Some (zlen fr', v') /\
    owned k v' (subm ++ [(ck, request sg off r (r + w))]) fr'
      (fs ++ [Flight ch (length subm) ck (request sg off r (r + w))]) /\
    zset (aring (avail (ring v))) (vq_avail_idx v mod 2 ^ k) (hd 0 ch) = Some ring' /\
    v' = VQ (Vring (2 ^ k) (desc (ring v'))
               (Avail (aflags (avail (ring v))) (aidx (avail (ring v))) ring') (used (ring v)))
           (zlen fr') (head_free_desc v') (last_used_desc_idx v) (u16 (vq_avail_idx v + 1)) (vq_info v').
Proof.
  intros O Hi Hck Hr Hw Ht Hoff Hsg. set (n := Z.to_nat (r + w)).
  set (ch := take n fr). set (fr' := drop n fr).
  assert (Hfr : fr = ch ++ fr') by (symmetry; apply take_drop).
  assert (Hch : zlen ch = r + w) by (unfold ch; rewrite length_take; lia).
  clearbody ch fr'. pose proof O as [Ok On Od Oi Oa Ou Of Ofl Op Oav].
  pose proof (ow_bound _ _ _ _ _ O) as Hk. pose proof (ow_nodup _ _ _ _ _ O) as Hnd.
  pose proof (ow_count _ _ _ _ _ O) as Hcnt. pose proof (Hnd) as (Hnd1 & Hdis & Hnd2)%NoDup_app.
  rewrite Hfr in Of, Hnd1.
  assert (Hne : ch <> []) by (intros E; rewrite E in Hch; cbn in Hch; lia).
  assert (Hhd : head_free_desc v = hd 0 ch).
  { destruct ch as [|c ch0]; [done|]. by destruct Of as [-> _]. }
  assert (Hin : hd 0 ch ∈ ch) by (destruct ch; [done|apply list_elem_of_here]).
  assert (Hhr : 0 <= hd 0 ch < 2 ^ k).
  { apply (fr_range _ _ _ _ _ O). rewrite Hfr. apply elem_of_app. by left. }
  destruct (segments_loop_spec sg off r (r + w) ch (desc (ring v)) 0 fr' (head_free_desc v))
    as (idx & ds & Hloop & Hpath & Hlen & Hfrm & Hhold); try done; [lia..|].
  destruct (zset (vq_info v) (head_free_desc v) (Info ck (u16 (r + w)))) as [infos|] eqn:Ei;
    [|rewrite zset_is_Some in Ei; [done|rewrite Hhd, Oi; lia]].
  pose proof (Z.mod_pos_bound (vq_avail_idx v) (2 ^ k)) as Hm.
  destruct (zset (aring (avail (ring v))) (vq_avail_idx v mod 2 ^ k) (hd 0 ch)) as [ring'|] eqn:Er;
    [|rewrite zset_is_Some in Er; [done|rewrite Oa; lia]].
  assert (Hidx : u16 idx = idx).
  { apply wrap_small. destruct fr' as [|y fr0]; cbn in Hpath; [by rewrite Hpath|].
    destruct Hpath as [-> _]. assert (0 <= y < 2 ^ k); [|unfold in_u; lia].
    apply (fr_range _ _ _ _ _ O). rewrite Hfr. apply elem_of_app. right. apply list_elem_of_here. }
  assert (Hav : zlen fr = r + w + zlen fr') by (rewrite Hfr, length_app; lia).
  set (v1 := set_free v ds (zlen fr') idx infos).
  set (v' := set_avail_idx (set_avail v1 (Avail (aflags (avail (ring v))) (aidx (avail (ring v))) ring'))
               (u16 (vq_avail_idx v + 1))).
  exists v', ch, fr', ring'. split; [done|]. split; [done|]. split; [|split; [|split; [done|]]].
  - unfold _virtqueue_buffer_enqueue. destruct (Z.ltb_spec (desc_avail v) (r + w)); [lia|].
    destruct (Z.eqb_spec ck 0); [done|]. rewrite Ei. cbn [mbind option_bind].
    unfold virtqueue_buffer_enqueue_segments. replace (Z.to_nat (r + w)) with (length ch) by lia.
    rewrite Hloop. cbn [mbind option_bind]. rewrite Hidx.
    replace (u16 (desc_avail v - (r + w))) with (zlen fr')
      by (rewrite wrap_small by (unfold in_u; lia); lia).
    fold v1. unfold virtqueue_ring_update_avail. change (num (ring v1)) with (num (ring v)).
    rewrite On, mask_index by done. change (aring (avail (ring v1))) with (aring (avail (ring v))).
    change (vq_avail_idx v1) with (vq_avail_idx v). rewrite Hhd, Er. done.
  - assert (Hfl : Forall (flight_ok v' (subm ++ [(ck, request sg off r (r + w))])) fs).
    { rewrite Forall_forall in Ofl |- *. intros f Hf.
      assert (Hap : forall x, x ∈ fchain f -> x ∉ ch).
      { intros x Hx Hc. apply (flight_disjoint _ _ _ _ _ O f x Hf Hx). rewrite Hfr. apply elem_of_app. by left. }
      apply (flight_ok_frame v v' subm); [intros x Hx; apply Hfrm; by apply Hap| |by apply prefix_app_r|by apply Ofl].
      cbn. eapply zget_zset_ne; [|exact Ei]. rewrite Hhd. intros E.
      apply (Hap (fhead f)); [by apply (flight_head _ _ _ _ _ O)|by rewrite <- E]. }
    split; try done; cbn.
    + by rewrite Hlen.
    + by rewrite (zset_length _ _ _ _ Ei).
    + by rewrite (zset_length _ _ _ _ Er).
    + apply Forall_app. split; [done|]. apply Forall_singleton. split; cbn.
      * by rewrite list_lookup_middle.
      * unfold request. rewrite <- Hch. by apply Hhold.
      * unfold fhead. cbn. rewrite <- Hhd. rewrite (zget_zset_eq _ _ _ _ Ei), Hch. f_equal. f_equal.
        apply wrap_small. unfold in_u. lia.
    + rewrite fmap_app, concat_app. cbn. rewrite app_nil_r, <- Op, Hfr. solve_Permutation.
  - unfold v', set_avail_idx, set_avail, v1, set_free. cbn. by rewrite On.
Qed.

(** The chain of a flight goes back in front of the free path. *)
Lemma detach_owned k v subm fr fs f :
  owned k v subm fr (f :: fs) ->
  exists v', virtqueue_detach_desc v (fhead f) = Some v' /\
    owned k v' subm (fchain f ++ fr) fs /\
    zget (vq_info v') (fhead f) = Some (Info (fck f) 0) /\
    v' = VQ (Vring (2 ^ k) (desc (ring v')) (avail (ring v)) (used (ring v)))
           (zlen (fchain f ++ fr)) (fhead f) (last_used_desc_idx v) (vq_avail_idx v) (vq_info v').
Proof.
  intros O. pose proof O as [Ok On Od Oi Oa Ou Of Ofl Op Oav].
  pose proof (ow_bound _ _ _ _ _ O) as Hk. pose proof (ow_nodup _ _ _ _ _ O) as Hnd.
  pose proof (ow_count _ _ _ _ _ O) as Hcnt. apply Forall_cons in Ofl as [[Hsub Hh Hinfo] Ofl].
  cbn in Hnd, Hcnt. rewrite length_app in Hcnt.
  apply NoDup_app in Hnd as (Hnd1 & Hdis & (Hndf & Hdisf & Hnd2)%NoDup_app).
  destruct (holds_length _ _ _ Hh) as [Hpos _].
  assert (Hlast : List.last (fchain f) 0 ∈ fchain f).
  { assert (Hne : fchain f <> []) by (intros E; rewrite E in Hpos; cbn in Hpos; lia).
    rewrite (app_removelast_last 0 Hne) at 2. apply elem_of_app. right. by apply list_elem_of_singleton. }
  assert (Hlr : 0 <= List.last (fchain f) 0 < 2 ^ k).
  { assert (Hin : List.last (fchain f) 0 ∈ seqZ 0 (2 ^ k)); [|apply elem_of_seqZ in Hin; lia].
    rewrite <- Op. cbn. rewrite !elem_of_app. auto. }
  unfold virtqueue_detach_desc. rewrite Hinfo. cbn [mbind option_bind desc_count cookie].
  rewrite (wrap_small 16 (zlen (fchain f) - 1)) by (unfold in_u; lia).
  rewrite (detach_loop_holds _ _ _ _ Hh) by lia. cbn [mbind option_bind].
  destruct (zset (vq_info v) (fhead f) (Info (fck f) 0)) as [infos|] eqn:Ei;
    [|apply zget_Some_range in Hinfo; by rewrite zset_is_Some in Ei].
  destruct (zget_is_Some (desc (ring v)) (List.last (fchain f) 0)) as [d Hd]; [lia|].
  cbn [negb Z.eqb mbind option_bind]. rewrite Hd. cbn [mbind option_bind].
  set (d' := Desc (addr d) (len d) (flags d) (head_free_desc v)).
  destruct (zset (desc (ring v)) (List.last (fchain f) 0) d') as [ds|] eqn:Es;
    [|rewrite zset_is_Some in Es; [done|lia]].
  cbn [mbind option_bind].
  assert (Hn : u16 (desc_avail v + zlen (fchain f)) = zlen (fchain f ++ fr)).
  { rewrite length_app, wrap_small by (unfold in_u; lia). lia. }
  rewrite Hn. eexists. split; [done|]. split; [|split; [by eapply zget_zset_eq|]].
  2: { unfold set_free. cbn. by rewrite On. }
  assert (Hsame : forall x, x <> List.last (fchain f) 0 -> zget ds x = zget (desc (ring v)) x)
    by (intros x Hx; eapply zget_zset_ne; [|exact Es]; congruence).
  split; cbn; try done.
  - by rewrite (zset_length _ _ _ _ Es).
  - by rewrite (zset_length _ _ _ _ Ei).
  - apply (holds_path (desc (ring v)) ds (fchain f) (fsegs f) (head_free_desc v) fr d' Hh Hndf);
      [by eapply zget_zset_eq|done|done|].
    eapply path_frame; [|exact Of]. intros x Hx. apply Hsame. intros ->.
    apply (Hdis _ Hx). apply elem_of_app. by left.
  - rewrite Forall_forall in Ofl |- *. intros g Hg.
    assert (Hap : forall x, x ∈ fchain g -> x ∉ fchain f).
    { intros x Hx Hf. apply (Hdisf x Hf). apply list_elem_of_In, in_concat. exists (fchain g).
      rewrite <- !list_elem_of_In. split; [by apply list_elem_of_fmap_2|done]. }
    apply (flight_ok_frame v _ subm); [| |done|by apply Ofl]; cbn.
    + intros x Hx. apply Hsame. intros ->. by apply (Hap _ Hx).
    + eapply zget_zset_ne; [|exact Ei]. intros E. apply (Hap (fhead f)).
      * rewrite E. apply (flight_head _ _ _ _ _ O). by apply list_elem_of_further.
      * apply (flight_head _ _ _ _ _ O). apply list_elem_of_here.
  - rewrite <- Op. cbn. solve_Permutation.
Qed.

Lemma dequeue_owned k v subm fr fs f n :
  owned k v subm fr (f :: fs) -> last_used_desc_idx v ∈u 16 ->
  zget (uring (used (ring v))) (last_used_desc_idx v mod 2 ^ k) = Some (fhead f, n) ->
  exists v', _virtqueue_buffer_dequeue v = Some (fck f, n, v') /\
    owned k v' subm (fchain f ++ fr) fs /\
    v' = VQ (Vring (2 ^ k) (desc (ring v')) (avail (ring v)) (used (ring v)))
           (zlen (fchain f ++ fr)) (fhead f) (u16 (last_used_desc_idx v + 1)) (vq_avail_idx v)
           (vq_info v').
Proof.
  intros O Hl Hu. unfold _virtqueue_buffer_dequeue.
  pose proof O as [Ok On Od Oi Oa Ou Of Ofl Op Oav]. pose proof (ow_bound _ _ _ _ _ O) as Hk.
  set (v1 := set_last_used v (u16 (last_used_desc_idx v + 1))).
  assert (O1 : owned k v1 subm fr (f :: fs)).
  { split; try done. eapply List.Forall_impl; [|exact Ofl]. intros g [? ? ?]. by split. }
  rewrite On, mask_index by done. change (uring (used (ring v1))) with (uring (used (ring v))).
  rewrite Hu. cbn [mbind option_bind fst snd].
  apply Forall_cons in Ofl as [[Hsub Hh Hinfo] Ofl]. change (vq_info v1) with (vq_info v).
  pose proof (zget_Some_range _ _ _ Hinfo) as Hr.
  rewrite (wrap_small 16 (fhead f)) by (unfold in_u; lia). rewrite Hinfo. cbn [mbind option_bind].
  destruct (detach_owned _ _ _ _ _ _ O1) as (v2 & -> & O2 & Hi2 & Ev2).
  cbn [mbind option_bind]. rewrite Hi2. cbn [mbind option_bind desc_count].
  destruct (zset (vq_info v2) (fhead f) (Info 0 0)) as [infos|] eqn:Ei;
    [|apply zget_Some_range in Hi2; by rewrite zset_is_Some in Ei].
  cbn [mbind option_bind cookie]. eexists. split; [done|].
  split; [|by rewrite Ev2]. pose proof O2 as [_ Pn Pd Pi Pa Pu Pf Pfl Pp Pav].
  split; try done; cbn in *.
  - by rewrite (zset_length _ _ _ _ Ei).
  - rewrite Forall_forall in Pfl |- *. intros g Hg. apply (flight_ok_frame v2 _ subm); [done| |done|by apply Pfl]. cbn.
    eapply zget_zset_ne; [|exact Ei]. intros E. apply (flight_disjoint _ _ _ _ _ O2 g (fhead g) Hg).
    + by apply (flight_head _ _ _ _ _ O2).
    + rewrite <- E. apply elem_of_app. left. apply (flight_head _ _ _ _ _ O). apply list_elem_of_here.
Qed.

(** Dequeuing everything a burst asks for, in the order of the used ring. *)
Lemma dequeue_loop_owned k subm ps : forall v fr fs,
  owned k v subm fr (ps.*1 ++ fs) -> last_used_desc_idx v ∈u 16 ->
  window (uring (used (ring v))) (2 ^ k) (last_used_desc_idx v) ((fun p => (fhead p.1, p.2)) <$> ps) ->
  exists v' fr', dequeue_loop (length ps) v = Some ((fun p => (fck p.1, p.2)) <$> ps, v') /\
    owned k v' subm fr' fs /\
    v' = VQ (Vring (2 ^ k) (desc (ring v')) (avail (ring v)) (used (ring v)))
           (zlen fr') (head_free_desc v') (u16 (last_used_desc_idx v + zlen ps)) (vq_avail_idx v)
           (vq_info v').
Proof.
  induction ps as [|[f n] ps IH]; intros v fr fs O Hl Hw.
  { exists v, fr. split; [done|]. split; [done|]. cbn -[Z.of_nat]. rewrite Z.add_0_r, wrap_small by done.
    destruct O. destruct v as [[? ? ? ?] ? ? ? ? ?]. cbn in *. by subst. }
  pose proof (Hw 0%nat (fhead f, n) eq_refl) as H0. rewrite Z.add_0_r in H0.
  destruct (dequeue_owned _ _ _ _ _ _ _ O Hl H0) as (v1 & Hd & O1 & E1).
  cbn [length dequeue_loop]. rewrite Hd. cbn [mbind option_bind].
  destruct (IH v1 (fchain f ++ fr) fs O1) as (v' & fr' & -> & O' & E').
  - rewrite E1. cbn. auto with uk lia.
  - rewrite E1. cbn. apply (window_tail _ _ _ (fhead f, n)); [pose proof (ow_k _ _ _ _ _ O); lia|done].
  - exists v', fr'. split; [done|]. split; [done|]. rewrite E', E1. cbn -[Z.of_nat]. f_equal.
    unfold wrap. rewrite Zplus_mod_idemp_l. f_equal. lia.
Qed.

(** ** The invariant of the system *)

(** The cookie of the [i]-th submission. *)
Definition ck_of (subm : list (Z * list (Z * Z * bool))) (i : nat) : Z := default 0 (fst <$> subm !! i).

(** Flights are waiting in the available ring ([avq]), with the host ([tk]) or in the used ring
    ([pend]); [got] lists the completions already dequeued. *)
Record inv (k : Z) (s : system) (fr : list Z) (avq tk : list flight) (pend : list (flight * Z))
    (got : list (nat * Z)) : Prop := {
  i_own : owned k (vq s) (submitted s) fr (avq ++ tk ++ pend.*1);
  i_aw : window (aring (avail (ring (vq s)))) (2 ^ k) (last_avail (hst s)) (fhead <$> avq);
  i_la : last_avail (hst s) ∈u 16;
  i_ai : vq_avail_idx (vq s) = u16 (last_avail (hst s) + zlen avq);
  i_pub : aidx (avail (ring (vq s))) = vq_avail_idx (vq s);
  i_uw : window (uring (used (ring (vq s)))) (2 ^ k) (last_used_desc_idx (vq s))
           ((fun p => (fhead p.1, p.2)) <$> pend);
  i_lu : last_used_desc_idx (vq s) ∈u 16;
  i_ui : uidx (used (ring (vq s))) = u16 (last_used_desc_idx (vq s) + zlen pend);
  i_tk : taken (hst s) = (fun f => (fhead f, fid f)) <$> tk;
  i_fe : fetched s ++ (fsegs <$> avq) = (submitted s).*2;
  i_avid : fid <$> avq = seq (length (fetched s)) (length avq);
  i_co : completed s = got ++ ((fun p => (fid p.1, p.2)) <$> pend);
  i_re : received s = (fun p => (ck_of (submitted s) p.1, p.2)) <$> got;
  i_ids : got.*1 ++ (fid <$> (avq ++ tk ++ pend.*1)) ≡ₚ seq 0 (length (submitted s))
}.

Section Inv.
Context (k : Z) (s : system) (fr : list Z) (avq tk : list flight) (pend : list (flight * Z)).
Context (got : list (nat * Z)) (I : inv k s fr avq tk pend got).

Lemma inv_counts :
  zlen avq + zlen tk + zlen pend <= 2 ^ k - zlen fr /\ 0 < 2 ^ k <= 2 ^ 15 /\ 0 <= k <= 15.
Proof.
  pose proof (i_own _ _ _ _ _ _ _ I) as O. pose proof (ow_count _ _ _ _ _ O).
  pose proof (flights_count _ _ _ _ _ O _ (reflexivity _)) as H1.
  rewrite !length_app, length_fmap in H1. pose proof (ow_bound _ _ _ _ _ O).
  pose proof (ow_k _ _ _ _ _ O). lia.
Qed.

(** Whether a ring is empty is visible in its two indices. *)
Lemma idx_empty i n : i ∈u 16 -> 0 <= n < 2 ^ 16 -> (i =? u16 (i + n)) = (n =? 0).
Proof.
  clear. intros Hi Hn. destruct (Z.eqb_spec n 0) as [->|Hne].
  - rewrite Z.add_0_r, wrap_small by done. apply Z.eqb_refl.
  - apply Z.eqb_neq. intros E. pose proof (sub_mod i n (2 ^ 16) Hn) as Hs.
    change ((i + n) mod 2 ^ 16) with (u16 (i + n)) in Hs.
    rewrite <- E, Z.sub_diag in Hs. done.
Qed.

Lemma hasdata_pend : virtqueue_hasdata (vq s) = negb (zlen pend =? 0).
Proof.
  unfold virtqueue_hasdata. pose proof inv_counts. rewrite (i_ui _ _ _ _ _ _ _ I).
  rewrite idx_empty; [done|apply I|lia].
Qed.

Lemma inv_enqueue_ok ck sg r w :
  ck <> 0 -> 0 <= r < 2 ^ 16 -> 0 <= w < 2 ^ 16 -> 0 < r + w <= zlen fr -> r + w <= zlen sg ->
  exists v' fr' f, virtqueue_buffer_enqueue (vq s) ck sg r w = Some (zlen fr', v') /\
    zlen fr' = zlen fr - (r + w) /\
    inv k (Sys v' (hst s) (submitted s ++ [(ck, request sg 0 r (r + w))]) (fetched s) (completed s)
             (received s)) fr' (avq ++ [f]) tk pend got.
Proof.
  intros Hck Hr Hw Ht Hsg. pose proof inv_counts as (Hc & Hk1 & Hk2).
  destruct I as [Hown Haw Hla Hai Hpub Huw Hlu Hui Htk Hfe Havid Hco Hre Hids].
  assert (Hvi : vq_avail_idx (vq s) ∈u 16) by (rewrite Hai; apply wrap_range; lia).
  destruct (enqueue_owned _ _ _ _ _ ck sg 0 r w Hown Hvi) as
    (v1 & ch & fr' & ring' & Hfr & Hch & Hrun & Hown' & Hring & Hv1); try lia; [done..|].
  exists (virtqueue_ring_update_avail_idx v1), fr', (Flight ch (length (submitted s)) ck (request sg 0 r (r + w))).
  assert (Hlen : zlen fr = r + w + zlen fr') by (rewrite Hfr, length_app; lia).
  split; [|split; [lia|]].
  { unfold virtqueue_buffer_enqueue. destruct (Z.eqb_spec ck 0); [done|].
    rewrite (wrap_small 16 (r + w)) by (unfold in_u; lia).
    rewrite (ow_num _ _ _ _ _ Hown). destruct (Z.ltb_spec (r + w) 1), (Z.ltb_spec (2 ^ k) (r + w)); try lia.
    cbn [orb]. rewrite Hrun. cbn [mbind option_bind]. by destruct (Z.leb_spec 0 (zlen fr')); [|lia]. }
  assert (Hown2 : owned k v1 (submitted s ++ [(ck, request sg 0 r (r + w))]) fr'
    ((avq ++ [Flight ch (length (submitted s)) ck (request sg 0 r (r + w))]) ++ tk ++ pend.*1)).
  { rewrite <- app_assoc. rewrite (Permutation_app_comm [_] (tk ++ pend.*1)), !app_assoc.
    rewrite <- (app_assoc avq). exact Hown'. }
  assert (Hsub : forall i, (i < length (submitted s))%nat ->
    ck_of (submitted s ++ [(ck, request sg 0 r (r + w))]) i = ck_of (submitted s) i).
  { intros i Hi. unfold ck_of. by rewrite lookup_app_l. }
  rewrite Hv1 in Hown2 |- *. split; cbn -[Z.of_nat] in *; try done.
  - destruct Hown2. split; try done. eapply List.Forall_impl; [|eassumption]. intros g [? ? ?]. by split.
  - rewrite fmap_app. cbn. unfold fhead at 2. cbn. apply (window_push (aring (avail (ring (vq s)))));
      [done|rewrite length_fmap; lia|]. rewrite length_fmap. rewrite <- Hring. f_equal.
    rewrite Hai, u16_mod by lia. done.
  - rewrite Hai, length_app. cbn. unfold wrap. rewrite Zplus_mod_idemp_l. f_equal. lia.
  - rewrite !fmap_app, <- Hfe. cbn. by rewrite app_assoc.
  - rewrite fmap_app, length_app, Havid. cbn. rewrite Nat.add_1_r, seq_S. f_equal. f_equal.
    pose proof (f_equal length Hfe) as Hl. rewrite length_app, !length_fmap in Hl. lia.
  - rewrite Hre. apply list_fmap_ext. intros i [x n] Hx. cbn. rewrite Hsub; [done|].
    assert (Hin : x ∈ seq 0 (length (submitted s))).
    { rewrite <- Hids. apply elem_of_app. left. apply list_elem_of_fmap. exists (x, n).
      split; [done|]. by eapply list_elem_of_lookup_2. }
    apply elem_of_seq in Hin. lia.
  - rewrite length_app. cbn. rewrite Nat.add_1_r, seq_S, <- Hids, !fmap_app. cbn. solve_Permutation.
Qed.

(** Requests that do not fit are refused and change nothing. *)
Lemma inv_enqueue_refused ck sg r w :
  ck <> 0 -> 0 <= r < 2 ^ 16 -> 0 <= w < 2 ^ 16 -> ~ (0 < r + w <= zlen fr) ->
  virtqueue_buffer_enqueue (vq s) ck sg r w =
    Some (if (u16 (r + w) <? 1) || (2 ^ k <? u16 (r + w)) then - EINVAL else - ENOSPC, vq s).
Proof.
  intros Hck Hr Hw Ht. pose proof inv_counts as (Hc & Hk1 & Hk2).
  pose proof (i_own _ _ _ _ _ _ _ I) as Hown.
  unfold virtqueue_buffer_enqueue. destruct (Z.eqb_spec ck 0); [done|].
  rewrite (ow_num _ _ _ _ _ Hown). destruct (_ || _) eqn:Ec; [done|]. tests.
  unfold _virtqueue_buffer_enqueue. rewrite (ow_avail _ _ _ _ _ Hown).
  destruct (Z.ltb_spec (zlen fr) (r + w)) as [_|Hge]; [done|].
  assert (Ez : r + w = 0) by lia. assert (u16 (r + w) = 0) by by rewrite Ez. lia.
Qed.

(** The host finds in the available ring a chain that holds what was submitted next. *)
Lemma inv_fetch f avq' :
  avq = f :: avq' ->
  zget (aring (avail (ring (vq s)))) (last_avail (hst s) mod num (ring (vq s))) = Some (fhead f) /\
  read_chain (length (desc (ring (vq s)))) (desc (ring (vq s))) (fhead f) = Some (fsegs f) /\
  inv k (Sys (vq s) (Host (u16 (last_avail (hst s) + 1)) (taken (hst s) ++ [(fhead f, length (fetched s))]))
           (submitted s) (fetched s ++ [fsegs f]) (completed s) (received s))
    fr avq' (tk ++ [f]) pend got.
Proof.
  pose proof inv_counts as (Hc & Hk1 & Hk2). intros ->.
  destruct I as [Hown Haw Hla Hai Hpub Huw Hlu Hui Htk Hfe Havid Hco Hre Hids].
  split; [|split].
  - rewrite (ow_num _ _ _ _ _ Hown). pose proof (Haw 0%nat (fhead f) eq_refl) as H0.
    by rewrite Z.add_0_r in H0.
  - pose proof (ow_fl _ _ _ _ _ Hown) as Hf. apply Forall_cons in Hf as [[_ Hh _] _].
    apply (read_chain_holds _ _ _ _ Hh). pose proof (ow_desc _ _ _ _ _ Hown) as Hd.
    pose proof (ow_count _ _ _ _ _ Hown) as Hn. cbn in Hn. rewrite length_app in Hn. lia.
  - cbn -[Z.of_nat] in *. injection Havid as Hid Havid. split; cbn -[Z.of_nat]; try done.
    + assert ((f :: avq') ++ tk ++ pend.*1 ≡ₚ avq' ++ (tk ++ [f]) ++ pend.*1) as <- by solve_Permutation.
      done.
    + apply (window_tail _ _ _ (fhead f)); [lia|done].
    + apply wrap_range. lia.
    + rewrite Hai. unfold wrap. rewrite Zplus_mod_idemp_l. f_equal. lia.
    + by rewrite fmap_app, Htk, <- Hid.
    + by rewrite <- app_assoc.
    + rewrite length_app, Nat.add_1_r. done.
    + rewrite <- Hids, !fmap_app. cbn. solve_Permutation.
Qed.

(** The host completes any chain it holds. *)
Lemma inv_complete tk1 f tk2 n r :
  tk = tk1 ++ f :: tk2 ->
  zset (uring (used (ring (vq s)))) (uidx (used (ring (vq s))) mod num (ring (vq s))) (fhead f, n)
    = Some r ->
  inv k (Sys (set_used (vq s) (Used (uflags (used (ring (vq s))))
                                 (u16 (uidx (used (ring (vq s))) + 1)) r))
           (Host (last_avail (hst s)) ((fun f => (fhead f, fid f)) <$> (tk1 ++ tk2)))
           (submitted s) (fetched s) (completed s ++ [(fid f, n)]) (received s))
    fr avq (tk1 ++ tk2) (pend ++ [(f, n)]) got.
Proof.
  pose proof inv_counts as (Hc & Hk1 & Hk2). intros -> Hset.
  destruct I as [Hown Haw Hla Hai Hpub Huw Hlu Hui Htk Hfe Havid Hco Hre Hids].
  rewrite (ow_num _ _ _ _ _ Hown), Hui, u16_mod in Hset by lia.
  rewrite length_app in Hc. cbn -[Z.of_nat] in Hc.
  assert (Hp : avq ++ (tk1 ++ f :: tk2) ++ pend.*1 ≡ₚ avq ++ (tk1 ++ tk2) ++ (pend ++ [(f, n)]).*1)
    by (rewrite fmap_app; cbn; solve_Permutation).
  split; cbn -[Z.of_nat]; try done.
  - rewrite <- Hp. destruct Hown. split; try done; cbn.
    + by rewrite (zset_length _ _ _ _ Hset).
    + eapply List.Forall_impl; [|eassumption]. intros g [? ? ?]. by split.
  - rewrite fmap_app. cbn. eapply window_push; [done|rewrite length_fmap; lia|]. by rewrite length_fmap.
  - rewrite Hui, length_app. cbn. unfold wrap. rewrite Zplus_mod_idemp_l. f_equal. lia.
  - rewrite Hco, fmap_app. cbn. by rewrite app_assoc.
  - rewrite <- Hids. by rewrite Hp.
Qed.

Lemma inv_dequeue f n pend' :
  pend = (f, n) :: pend' ->
  exists v', virtqueue_buffer_dequeue (vq s) =
      Some (2 ^ k - zlen (fchain f ++ fr), Some (fck f, n), v') /\
    inv k (Sys v' (hst s) (submitted s) (fetched s) (completed s) (received s ++ [(fck f, n)]))
      (fchain f ++ fr) avq tk pend' (got ++ [(fid f, n)]).
Proof.
  pose proof inv_counts as (Hc & Hk1 & Hk2). pose proof hasdata_pend as Hd. intros ->.
  destruct I as [Hown Haw Hla Hai Hpub Huw Hlu Hui Htk Hfe Havid Hco Hre Hids].
  assert (Hp : avq ++ tk ++ ((f, n) :: pend').*1 ≡ₚ f :: (avq ++ tk ++ pend'.*1))
    by (cbn; solve_Permutation).
  pose proof Hown as Hown0. rewrite Hp in Hown.
  pose proof (Huw 0%nat (fhead f, n) eq_refl) as H0. rewrite Z.add_0_r in H0.
  destruct (dequeue_owned _ _ _ _ _ _ _ Hown Hlu H0) as (v' & Hrun & Hown' & Ev').
  exists v'. pose proof (ow_fl _ _ _ _ _ Hown) as Hfl. apply Forall_cons in Hfl as [[Hsub Hh Hi] _].
  pose proof (ow_count _ _ _ _ _ Hown') as Hcnt. split.
  - unfold virtqueue_buffer_dequeue. rewrite Hd. cbn -[Z.of_nat]. rewrite Hrun. cbn [mbind option_bind].
    rewrite Ev'. cbn [num ring desc_avail]. do 3 f_equal. unfold sext.
    rewrite wrap_small by (unfold in_u; lia). by destruct (Z.ltb_spec (2 ^ k - zlen (fchain f ++ fr)) (2 ^ (32 - 1))); [|lia].
  - rewrite Ev' in Hown' |- *. split; cbn -[Z.of_nat] in *; try done.
    + apply (window_tail _ _ _ (fhead f, n)); [lia|done].
    + apply wrap_range. lia.
    + rewrite Hui. unfold wrap. rewrite Zplus_mod_idemp_l. f_equal. lia.
    + by rewrite Hco, <- app_assoc.
    + rewrite Hre, fmap_app. cbn. unfold ck_of at 3. by rewrite Hsub.
    + rewrite <- Hids, !fmap_app. cbn. solve_Permutation.
Qed.
End Inv.

(** ** A fresh queue *)

Lemma link_loop_spec n : forall ds i,
  0 <= i -> i + Z.of_nat n < zlen ds -> zlen ds <= 2 ^ 15 ->
  exists ds', link_loop n ds i = Some ds' /\ length ds' = length ds /\
    (forall x, i <= x < i + Z.of_nat n -> exists d, zget ds' x = Some d /\ next d = x + 1) /\
    (forall x, ~ (i <= x < i + Z.of_nat n) -> zget ds' x = zget ds x).
Proof.
  induction n as [|n IH]; intros ds i Hi Hn Hb.
  { exists ds. split; [done|]. split; [done|]. split; [intros; lia|done]. }
  cbn [link_loop]. destruct (zget_is_Some ds i) as [d Hd]; [lia|]. rewrite Hd. cbn [mbind option_bind].
  set (d' := Desc (addr d) (len d) (flags d) (u16 (i + 1))).
  destruct (zset ds i d') as [ds1|] eqn:Es; [|rewrite zset_is_Some in Es; [done|lia]].
  cbn [mbind option_bind]. pose proof (zset_length _ _ _ _ Es) as Hl.
  destruct (IH ds1 (i + 1)) as (ds' & -> & Hl' & Hin & Hout); [lia..|].
  exists ds'. split; [done|]. split; [lia|]. split.
  - intros x Hx. destruct (Z.eq_dec x i) as [->|Hne]; [|apply Hin; lia].
    exists d'. rewrite Hout by lia. split; [by eapply zget_zset_eq|]. apply wrap_small. unfold in_u. lia.
  - intros x Hx. rewrite Hout by lia. eapply zget_zset_ne; [|exact Es]. lia.
Qed.

Lemma path_seq ds (n : nat) : forall a,
  (0 < n)%nat ->
  (forall x, a <= x < a + Z.of_nat n -> exists d, zget ds x = Some d /\
     next d = if decide (x = a + Z.of_nat n - 1) then VIRTQUEUE_MAX_SIZE else x + 1) ->
  path ds a (seqZ a (Z.of_nat n)).
Proof.
  induction n as [|n IH]; intros a Hpos H; [lia|]. rewrite seqZ_cons by lia. cbn -[seqZ Z.of_nat].
  split; [done|]. destruct (H a) as (d & Hd & Hn); [lia|]. exists d. split; [done|].
  replace (Z.pred (Z.of_nat (S n))) with (Z.of_nat n) by lia. rewrite Hn.
  destruct n as [|n]; [by case_decide; [|lia]|]. case_decide; [lia|].
  replace (Z.succ a) with (a + 1) by lia. apply IH; [lia|]. intros x Hx.
  destruct (H x) as (d' & Hd' & Hn'); [lia|]. exists d'. split; [done|]. rewrite Hn'.
  repeat case_decide; (done || lia).
Qed.

Lemma vring_init_owned k infos :
  0 <= k <= 15 -> zlen infos = 2 ^ k ->
  exists v, virtqueue_vring_init (2 ^ k) infos = Some v /\ owned k v [] (seqZ 0 (2 ^ k)) [] /\
    vq_avail_idx v = 0 /\ last_used_desc_idx v = 0 /\ aidx (avail (ring v)) = 0 /\
    uidx (used (ring v)) = 0.
Proof.
  intros Hk Hi. pose proof (pow2_pos k ltac:(lia)) as Hpos. pose proof (Z.pow_le_mono_r 2 k 15) as Hle.
  unfold virtqueue_vring_init. set (ds0 := replicate (Z.to_nat (2 ^ k)) (Desc 0 0 0 0)).
  assert (H0 : zlen ds0 = 2 ^ k) by (unfold ds0; rewrite length_replicate; lia).
  destruct (link_loop_spec (Z.to_nat (2 ^ k - 1)) ds0 0) as (ds & -> & Hl & Hin & Hout); [lia..|].
  cbn [mbind option_bind]. destruct (zget_is_Some ds (2 ^ k - 1)) as [d Hd]; [lia|]. rewrite Hd.
  cbn [mbind option_bind]. set (d' := Desc _ _ _ VIRTQUEUE_MAX_SIZE).
  destruct (zset ds (2 ^ k - 1) d') as [ds'|] eqn:Es; [|rewrite zset_is_Some in Es; [done|lia]].
  cbn [mbind option_bind]. eexists. split; [done|]. split; [|done].
  pose proof (zset_length _ _ _ _ Es) as Hl'.
  split; cbn -[seqZ]; try done.
  - lia.
  - rewrite length_replicate. lia.
  - rewrite length_replicate. lia.
  - rewrite <- (Z2Nat.id (2 ^ k)) by lia. apply path_seq; [lia|]. intros x Hx.
    rewrite (zget_zset _ _ x _ _ Es). repeat case_decide; try lia.
    + by exists d'.
    + apply Hin. lia.
  - by rewrite app_nil_r.
  - rewrite length_seqZ, wrap_small by (unfold in_u; lia). lia.
Qed.

Lemma reachable_inv k infos v0 s :
  0 <= k <= 15 -> zlen infos = 2 ^ k -> virtqueue_vring_init (2 ^ k) infos = Some v0 ->
  reachable v0 s -> exists fr avq tk pend got, inv k s fr avq tk pend got.
Proof.
  intros Hk Hi Hv0 Hr. induction Hr as [|s s' Hr IH Hs].
  - destruct (vring_init_owned k infos Hk Hi) as (v & Hv & O & H1 & H2 & H3 & H4). simplify_eq.
    exists (seqZ 0 (2 ^ k)), [], [], [], []. split; cbn -[seqZ]; rewrite ?H1, ?H2, ?H3, ?H4; try done; unfold in_u; lia.
  - destruct IH as (fr & avq & tk & pend & got & I). destruct Hs.
    + destruct (Z.eq_dec ck 0) as [->|Hck]; [done|].
      destruct (decide (0 < r + w <= zlen fr)) as [Hfit|Hno].
      * destruct (inv_enqueue_ok _ _ _ _ _ _ _ I ck sg r w) as (v1 & fr' & f & Hrun & Hl & I'); try done.
        simplify_eq. destruct (Z.leb_spec 0 (zlen fr')); [|lia]. by exists fr', (avq ++ [f]), tk, pend, got.
      * rewrite (inv_enqueue_refused _ _ _ _ _ _ _ I ck sg r w) in H2 by done. simplify_eq.
        exists fr, avq, tk, pend, got. destruct (_ || _); cbn; by destruct I.
    + pose proof (inv_counts _ _ _ _ _ _ _ I) as (Hc & _ & _).
      destruct avq as [|f avq].
      { exfalso. apply H. rewrite (i_pub _ _ _ _ _ _ _ I), (i_ai _ _ _ _ _ _ _ I). cbn.
        rewrite Z.add_0_r, wrap_small; [done|apply I]. }
      destruct (inv_fetch _ _ _ _ _ _ _ I f avq eq_refl) as (H1' & H2' & I').
      assert (i = fhead f) as -> by congruence. assert (l = fsegs f) as -> by congruence. eauto 8.
    + pose proof (i_tk _ _ _ _ _ _ _ I) as Htk. rewrite H in Htk.
      symmetry in Htk. apply fmap_app_inv in Htk as (tk1 & tk2' & -> & Ht2 & ->).
      symmetry in Ht2. apply fmap_cons_inv in Ht2 as (f & tk2 & Hf & -> & ->).
      injection Hf as -> ->. pose proof (inv_complete _ _ _ _ _ _ _ I tk1 f tk2 n r eq_refl H0) as I'.
      rewrite fmap_app in I'. eauto 8.
    + destruct pend as [|[f n] pend].
      * unfold virtqueue_buffer_dequeue in H. rewrite (hasdata_pend _ _ _ _ _ _ _ I) in H. done.
      * destruct (inv_dequeue _ _ _ _ _ _ _ I f n pend eq_refl) as (v1 & Hrun & I').
        rewrite Hrun in H. simplify_eq. eauto 8.
Qed.

(** ** Layout *)

Lemma sext32_small x : 0 <= x < 2 ^ 31 -> sext 32 x = x.
Proof.
  intros Hx. unfold sext. rewrite wrap_small by (unfold in_u; lia).
  by destruct (Z.ltb_spec x (2 ^ (32 - 1))); [|lia].
Qed.

(** The driver asks for the ring's size at the alignment rounded offset of the used ring. *)
Lemma vring_size_eq k a :
  0 <= k <= 15 -> 4 <= a <= 12 ->
  vring_size (2 ^ k) (2 ^ a) = ALIGN_UP (18 * 2 ^ k + 6) (2 ^ a) + 8 * 2 ^ k + 6.
Proof.
  intros Hk Ha. pose proof (pow2_pos k ltac:(lia)) as Hn. pose proof (Z.pow_le_mono_r 2 k 15) as Hn'.
  pose proof (pow2_pos a ltac:(lia)). pose proof (Z.pow_le_mono_r 2 a 12) as Ha'.
  set (n := 2 ^ k) in *. assert (n <= 32768) by lia.
  destruct (ALIGN_UP_bounds a (18 * n + 6)) as [Hup _]; [lia..|].
  unfold vring_size, sizeof_vring_desc, sizeof_vring_avail, sizeof_vring_used, sizeof_vring_used_elem.
  rewrite (wrap_small 64 (n * 16)), (sext32_small (n * 16)), (wrap_small 64 (n * 16)) by (unfold in_u; lia).
  rewrite (wrap_small 64 (n * 2)), (wrap_small 64 (n * 8)) by (unfold in_u; lia).
  rewrite (wrap_small 64 (n * 16 + 4 + n * 2 + 2)), (sext32_small (n * 16 + 4 + n * 2 + 2)),
    (wrap_small 64 (n * 16 + 4 + n * 2 + 2)) by (unfold in_u; lia).
  replace (n * 16 + 4 + n * 2 + 2) with (18 * n + 6) by lia.
  fold (ALIGN_UP (18 * n + 6) (2 ^ a)). set (u := ALIGN_UP (18 * n + 6) (2 ^ a)) in *.
  rewrite (sext32_small u), (wrap_small 64 u), (wrap_small 64 (u + 4 + n * 8 + 2)) by (unfold in_u; lia).
  rewrite sext32_small, wrap_small by (unfold in_u; lia). lia.
Qed.

(** Two multiples of 16 and a number that is not one in between. *)
Lemma avail_end_unaligned k : 0 <= k -> (18 * 2 ^ k + 4) mod 16 <> 0.
Proof.
  intros Hk. assert (k = 0 \/ k = 1 \/ k = 2 \/ 3 <= k) as [->|[->|[->|H3]]] by lia; try (by compute).
  replace (2 ^ k) with (8 * 2 ^ (k - 3)) by (change 8 with (2 ^ 3); rewrite <- Z.pow_add_r by lia; f_equal; lia).
  replace (18 * (8 * 2 ^ (k - 3)) + 4) with (4 + (9 * 2 ^ (k - 3)) * 16) by lia.
  rewrite Z_mod_plus_full. by compute.
Qed.

(** The descriptor table, the available ring with its event field, and the used ring with
    its own do not overlap and lie within the [vring_size] bytes that [virtqueue_create]
    allocates, for every power-of-two number of descriptors and alignment. *)
Theorem vring_layout_fits k a p :
  0 <= k <= 15 -> 4 <= a <= 12 -> 0 <= p -> (2 ^ a | p) -> p + 2 ^ 20 <= 2 ^ 64 ->
  let '(d, av, u) := vring_init (2 ^ k) p (2 ^ a) in
  d = p /\ d + sizeof_vring_desc * 2 ^ k = av /\ av + sizeof_vring_avail + 2 * 2 ^ k + 2 <= u /\
  (2 ^ a | u) /\
  u + sizeof_vring_used + sizeof_vring_used_elem * 2 ^ k + 2 <= p + vring_size (2 ^ k) (2 ^ a) /\
  vring_size (2 ^ k) (2 ^ a) < 2 ^ 20.
Proof.
  intros Hk Ha Hp Hd Hb. rewrite vring_size_eq by done. unfold vring_init.
  pose proof (pow2_pos k ltac:(lia)) as Hn. pose proof (Z.pow_le_mono_r 2 k 15) as Hn'.
  pose proof (pow2_pos a ltac:(lia)). pose proof (Z.pow_le_mono_r 2 a 12) as Ha'.
  unfold sizeof_vring_desc, sizeof_vring_avail, sizeof_vring_used, sizeof_vring_used_elem.
  pose proof (avail_end_unaligned k ltac:(lia)) as Hun.
  set (n := 2 ^ k) in *. assert (n <= 32768) by lia. assert (2 ^ a <= 4096) by lia.
  rewrite (wrap_small 64 (n * 16)), (wrap_small 64 (p + n * 16)) by (unfold in_u; lia).
  rewrite (wrap_small 64 (p + n * 16 + 4 + 2 * n)) by (unfold in_u; lia).
  fold (ALIGN_UP (p + n * 16 + 4 + 2 * n) (2 ^ a)).
  rewrite !ALIGN_UP_spec by lia. destruct Hd as [q ->].
  assert (H16 : exists b, 2 ^ a = 16 * b /\ 0 < b).
  { exists (2 ^ (a - 4)). split; [|apply pow2_pos; lia]. change 16 with (2 ^ 4).
    rewrite <- Z.pow_add_r by lia. f_equal. lia. }
  destruct H16 as (b & Hb16 & Hbpos). set (A := 2 ^ a) in *.
  replace (q * A + n * 16 + 4 + 2 * n + A - 1) with (18 * n + 4 + A - 1 + q * A) by lia.
  rewrite Z.div_add by lia. replace (18 * n + 6 + A - 1) with (18 * n + 4 + A - 1 + 2) by lia.
  set (x := 18 * n + 4) in *.
  pose proof (Z.div_mod (x + A - 1) A ltac:(lia)). pose proof (Z.mod_pos_bound (x + A - 1) A ltac:(lia)).
  pose proof (Z.div_mod (x + A - 1 + 2) A ltac:(lia)). pose proof (Z.mod_pos_bound (x + A - 1 + 2) A ltac:(lia)).
  pose proof (Z.div_le_mono (x + A - 1) (x + A - 1 + 2) A ltac:(lia) ltac:(lia)).
  assert (Hne : A * ((x + A - 1) / A) <> x).
  { intros E. apply Hun. rewrite <- E, Hb16. rewrite <- Z.mul_assoc, Z.mul_comm. apply Z_mod_mult. }
  assert (Hpar : A * ((x + A - 1) / A) mod 2 = 0).
  { rewrite Hb16. replace (16 * b * ((x + 16 * b - 1) / (16 * b))) with (8 * b * ((x + 16 * b - 1) / (16 * b)) * 2) by lia.
    apply Z_mod_mult. }
  set (e := (x + A - 1) / A) in *. set (g := (x + A - 1 + 2) / A) in *.
  assert (A * e <= A * g) by (apply Z.mul_le_mono_nonneg_l; lia).
  split; [done|]. split; [lia|]. split; [|split; [apply Z.divide_factor_l|split; [|]]].
  - unfold x in *. Z.div_mod_to_equations. lia.
  - unfold x in *. lia.
  - unfold x in *. lia.
Qed.

Lemma vring_layout_fits_witness :
  let '(d, av, u) := vring_init 256 (2 ^ 30) 4096 in
  d = 2 ^ 30 /\ d + sizeof_vring_desc * 256 = av /\ av + sizeof_vring_avail + 2 * 256 + 2 <= u /\
  (4096 | u) /\
  u + sizeof_vring_used + sizeof_vring_used_elem * 256 + 2 <= 2 ^ 30 + vring_size 256 4096 /\
  vring_size 256 4096 < 2 ^ 20.
Proof.
  apply (vring_layout_fits 8 12 (2 ^ 30)); try lia. exists (2 ^ 18). reflexivity.
Defined.

(** ** Properties *)

(** C1: no interleaving of the driver and the host breaks the queue.  In every reachable state
    the driver's functions never leave an array, never fail an assertion and never meet a
    cyclic chain: an enqueue returns -EINVAL, -ENOSPC or the descriptors left, exactly by the
    numbers, a dequeue returns, and the host finds a well-formed chain whenever the available
    index announces one. *)
Theorem virtqueue_safe k infos v0 s :
  0 <= k <= 15 -> zlen infos = 2 ^ k -> virtqueue_vring_init (2 ^ k) infos = Some v0 ->
  reachable v0 s ->
  (forall ck sg r w, ck <> 0 -> 0 <= r < 2 ^ 16 -> 0 <= w < 2 ^ 16 -> r + w <= zlen sg ->
     exists v', virtqueue_buffer_enqueue (vq s) ck sg r w =
       Some (if (u16 (r + w) <? 1) || (2 ^ k <? u16 (r + w)) then - EINVAL
             else if desc_avail (vq s) <? r + w then - ENOSPC
             else desc_avail (vq s) - (r + w), v')) /\
  (exists res, virtqueue_buffer_dequeue (vq s) = Some res) /\
  (last_avail (hst s) <> aidx (avail (ring (vq s))) ->
   exists i l, zget (aring (avail (ring (vq s)))) (last_avail (hst s) mod num (ring (vq s))) = Some i /\
     read_chain (length (desc (ring (vq s)))) (desc (ring (vq s))) i = Some l).
Proof.
  intros Hk Hi Hv0 Hr. destruct (reachable_inv _ _ _ _ Hk Hi Hv0 Hr) as (fr & avq & tk & pend & got & I).
  pose proof (ow_avail _ _ _ _ _ (i_own _ _ _ _ _ _ _ I)) as Hav.
  pose proof (inv_counts _ _ _ _ _ _ _ I) as (Hc & Hk1 & _). split; [|split].
  - intros ck sg r w Hck Hr' Hw' Hsg. destruct (decide (0 < r + w <= zlen fr)) as [Hfit|Hno].
    + destruct (inv_enqueue_ok _ _ _ _ _ _ _ I ck sg r w) as (v' & fr' & f & -> & Hl & _); try done.
      exists v'. rewrite (wrap_small 16 (r + w)) by (unfold in_u; lia).
      destruct (Z.ltb_spec (r + w) 1), (Z.ltb_spec (2 ^ k) (r + w)), (Z.ltb_spec (desc_avail (vq s)) (r + w));
        try lia. cbn. repeat f_equal. lia.
    + rewrite (inv_enqueue_refused _ _ _ _ _ _ _ I ck sg r w) by done. exists (vq s).
      destruct (_ || _) eqn:Ec; [done|]. destruct (Z.ltb_spec (desc_avail (vq s)) (r + w)) as [|Hge]; [done|].
      tests. assert (Ez : r + w = 0) by lia. assert (u16 (r + w) = 0) by by rewrite Ez. lia.
  - destruct pend as [|[f n] pend].
    + unfold virtqueue_buffer_dequeue. rewrite (hasdata_pend _ _ _ _ _ _ _ I). eauto.
    + destruct (inv_dequeue _ _ _ _ _ _ _ I f n pend eq_refl) as (v' & -> & _). eauto.
  - intros Hne. destruct avq as [|f avq].
    { exfalso. apply Hne. rewrite (i_pub _ _ _ _ _ _ _ I), (i_ai _ _ _ _ _ _ _ I). cbn.
      rewrite Z.add_0_r, wrap_small; [done|apply I]. }
    destruct (inv_fetch _ _ _ _ _ _ _ I f avq eq_refl) as (H1 & H2 & _). eauto.
Qed.

(** C7: what goes in comes out.  The host fetches the submitted buffers in submission order,
    each with exactly its segments and directions; each submission is completed at most once,
    in whatever order the host likes; and the driver dequeues, in the order of completion,
    the cookie that was submitted with the completed buffer and the length the host wrote. *)
Theorem virtqueue_delivers k infos v0 s :
  0 <= k <= 15 -> zlen infos = 2 ^ k -> virtqueue_vring_init (2 ^ k) infos = Some v0 ->
  reachable v0 s ->
  fetched s `prefix_of` (submitted s).*2 /\
  NoDup (completed s).*1 /\
  Forall (fun p => (p.1 < length (fetched s))%nat) (completed s) /\
  received s = (fun p => (ck_of (submitted s) p.1, p.2)) <$> take (length (received s)) (completed s).
Proof.
  intros Hk Hi Hv0 Hr. destruct (reachable_inv _ _ _ _ Hk Hi Hv0 Hr) as (fr & avq & tk & pend & got & I).
  destruct I as [Hown Haw Hla Hai Hpub Huw Hlu Hui Htk Hfe Havid Hco Hre Hids].
  assert (Hco1 : (completed s).*1 = got.*1 ++ (fid <$> pend.*1)).
  { rewrite Hco, fmap_app. f_equal. by rewrite <- !list_fmap_compose. }
  assert (Hids' : got.*1 ++ (fid <$> pend.*1) ++ (fid <$> tk) ++ (fid <$> avq) ≡ₚ seq 0 (length (submitted s))).
  { rewrite <- Hids, !fmap_app. solve_Permutation. }
  assert (Hnd : NoDup (got.*1 ++ (fid <$> pend.*1) ++ (fid <$> tk) ++ (fid <$> avq)))
    by (rewrite Hids'; apply NoDup_seq).
  rewrite !app_assoc in Hnd. apply NoDup_app in Hnd as (Hnd & Hdis & _).
  split; [rewrite <- Hfe; apply prefix_app_r; done|]. split; [|split].
  - rewrite Hco1. by apply NoDup_app in Hnd as (? & _ & _).
  - apply Forall_forall. intros [x n] Hx. cbn.
    assert (Hin : x ∈ (completed s).*1) by (apply list_elem_of_fmap; by exists (x, n)).
    rewrite Hco1 in Hin. assert (Hs : x ∈ seq 0 (length (submitted s))).
    { rewrite <- Hids', app_assoc. apply elem_of_app. by left. }
    apply elem_of_seq in Hs. destruct (decide (x < length (fetched s))%nat) as [|Hge]; [done|].
    exfalso. apply (Hdis x); [apply elem_of_app; by left|]. rewrite Havid. apply elem_of_seq.
    pose proof (f_equal length Hfe) as Hl. rewrite length_app, !length_fmap in Hl. lia.
  - rewrite Hre at 1. f_equal. rewrite Hre, length_fmap, Hco. by rewrite take_app_length.
Qed.

(** Descriptors are conserved.  Free descriptors and the descriptors of buffers under way
    add up to the size of the queue, and once every submitted buffer has been dequeued all
    descriptors are free again. *)
Theorem virtqueue_conserves k infos v0 s :
  0 <= k <= 15 -> zlen infos = 2 ^ k -> virtqueue_vring_init (2 ^ k) infos = Some v0 ->
  reachable v0 s ->
  0 <= desc_avail (vq s) <= 2 ^ k /\
  zlen (submitted s) - zlen (received s) <= 2 ^ k - desc_avail (vq s) /\
  (length (received s) = length (submitted s) -> desc_avail (vq s) = 2 ^ k).
Proof.
  intros Hk Hi Hv0 Hr. destruct (reachable_inv _ _ _ _ Hk Hi Hv0 Hr) as (fr & avq & tk & pend & got & I).
  pose proof (inv_counts _ _ _ _ _ _ _ I) as (Hc & Hk1 & _).
  destruct I as [Hown Haw Hla Hai Hpub Huw Hlu Hui Htk Hfe Havid Hco Hre Hids].
  pose proof (ow_count _ _ _ _ _ Hown) as Hn. rewrite (ow_avail _ _ _ _ _ Hown).
  pose proof (Permutation_length Hids) as Hl. rewrite !length_app, !length_fmap, !length_app, length_seq, length_fmap in Hl.
  assert (Hg : length (received s) = length got) by by rewrite Hre, length_fmap.
  split; [lia|]. split; [lia|].
  intros Heq. destruct avq; [|cbn in Hl; lia]. destruct tk; [|cbn in Hl; lia]. destruct pend; [|cbn in Hl; lia].
  cbn in Hn. lia.
Qed.

(** C40: enabling interrupts loses no wake-up.  Whatever the host adds while the flag is being
    cleared, the function returns 0 only with interrupts enabled and the used ring still
    empty afterwards, and returns 1 only when there is data to process. *)
Theorem virtqueue_intr_enable_no_lost_wakeup hostf v :
  match virtqueue_intr_enable hostf v with
  | (rc, v') =>
      (rc = 0 /\ Z.testbit (aflags (avail (ring v'))) 0 = false /\ virtqueue_hasdata v' = false) \/
      (rc = 1 /\ virtqueue_hasdata v' = true /\
       (v' = v \/ Z.testbit (aflags (avail (ring v'))) 0 = true))
  end.
Proof.
  unfold virtqueue_intr_enable. destruct (virtqueue_hasdata v) eqn:Ed; cbn [negb]; [by right; auto|].
  set (a := avail (ring v)).
  assert (Hb : Z.testbit (Z.lor (aflags a) VRING_AVAIL_F_NO_INTERRUPT) 0 = true)
    by (rewrite Z.lor_spec; apply orb_true_r).
  destruct (Z.eqb_spec (Z.lor (aflags a) VRING_AVAIL_F_NO_INTERRUPT) 0) as [E|_]; [by rewrite E in Hb|].
  cbn [negb]. set (v2 := set_used _ _).
  assert (H2 : Z.testbit (aflags (avail (ring v2))) 0 = false)
    by (change (Z.testbit (Z.land (aflags a) (lnotw 16 VRING_AVAIL_F_NO_INTERRUPT)) 0 = false);
      rewrite Z.land_spec; apply andb_false_r).
  destruct (virtqueue_hasdata v2) eqn:E2; [right|left]; [|done]. split; [done|]. split; [done|].
  right. change (Z.testbit (Z.lor (aflags (avail (ring v2))) VRING_AVAIL_F_NO_INTERRUPT) 0 = true).
  rewrite Z.lor_spec. apply orb_true_r.
Qed.

(** ** The network variant *)

Lemma virtnet_loop_segments sg off r total nb n : forall ds idx i,
  (forall j, i <= j < i + Z.of_nat n -> zget sg (off + j) = Some nb) ->
  virtnet_loop n ds idx nb i r total = segments_loop n ds idx sg off i r total.
Proof.
  induction n as [|n IH]; intros ds idx i Hsg; [done|]. cbn -[Z.of_nat].
  rewrite (Hsg i) by lia. cbn -[Z.of_nat]. destruct (zget ds idx) as [d|]; [|done]. cbn -[Z.of_nat].
  destruct (zset ds idx _) as [ds'|]; [|done]. cbn -[Z.of_nat]. apply IH. intros j Hj. apply Hsg. lia.
Qed.

(** The network driver's enqueue, which leaves out the test for free descriptors, does what
    the checked one does with the buffer repeated for every descriptor as long as there are
    enough descriptors; on a full queue it writes outside the descriptor table. *)
Theorem virtnet_enqueue_equiv k infos v0 s ck nb r w :
  0 <= k <= 15 -> zlen infos = 2 ^ k -> virtqueue_vring_init (2 ^ k) infos = Some v0 ->
  reachable v0 s -> ck <> 0 -> 0 <= r -> 0 <= w -> 0 < r + w ->
  (r + w <= desc_avail (vq s) ->
   _virtnet_buffer_enqueue (vq s) ck nb r w =
   _virtqueue_buffer_enqueue (vq s) ck (replicate (Z.to_nat (r + w)) nb) 0 r w) /\
  (desc_avail (vq s) = 0 -> _virtnet_buffer_enqueue (vq s) ck nb r w = None).
Proof.
  intros Hk Hi Hv0 Hr Hck Hr0 Hw0 Ht.
  destruct (reachable_inv _ _ _ _ Hk Hi Hv0 Hr) as (fr & avq & tk & pend & got & I).
  pose proof (i_own _ _ _ _ _ _ _ I) as O. pose proof (inv_counts _ _ _ _ _ _ _ I) as (Hc & Hk1 & _).
  unfold _virtnet_buffer_enqueue, _virtqueue_buffer_enqueue. rewrite (ow_avail _ _ _ _ _ O).
  destruct (Z.eqb_spec ck 0); [done|]. split.
  - intros Hfit. destruct (Z.ltb_spec (zlen fr) (r + w)); [lia|].
    destruct (zset (vq_info (vq s)) _ _) as [infos'|]; [|done]. cbn [mbind option_bind].
    unfold virtqueue_buffer_enqueue_segments.
    rewrite (virtnet_loop_segments (replicate (Z.to_nat (r + w)) nb) 0).
    2: { intros j Hj. unfold zget. destruct (Z.ltb_spec (0 + j) 0); [lia|].
         apply lookup_replicate. split; [done|lia]. }
    destruct (segments_loop _ _ _ _ _ _ _ _) as [[idx ds]|]; [|done]. cbn [mbind option_bind].
    rewrite wrap_small by (unfold in_u; lia). cbn [desc_avail num ring set_free].
    rewrite (ow_num _ _ _ _ _ O).
    by destruct (Z.ltb_spec (zlen fr - (r + w)) (2 ^ k)); [|lia].
  - intros Hfull. assert (fr = []) as -> by (destruct fr; [done|cbn in Hfull; lia]).
    pose proof (ow_free _ _ _ _ _ O) as Hp. cbn in Hp. rewrite Hp.
    unfold zset. rewrite (ow_info _ _ _ _ _ O).
    destruct (Z.ltb_spec VIRTQUEUE_MAX_SIZE (2 ^ k)) as [Hlt|_]; [unfold VIRTQUEUE_MAX_SIZE in Hlt; lia|done].
Qed.

(** ** A run of the system *)

Definition infos2 : list virtqueue_desc_info := [Info 0 0; Info 0 0].

(** A fresh queue of two descriptors. *)
Definition vq2 : virtqueue_vring :=
  Eval vm_compute in
    match virtqueue_vring_init 2 infos2 with Some v => v | None => VQ (Vring 0 [] (Avail 0 0 []) (Used 0 0 [])) 0 0 0 0 [] end.

(** One buffer of two segments submitted, fetched and completed, not yet dequeued. *)
Definition vq2_full : virtqueue_vring :=
  Eval vm_compute in
    match virtqueue_buffer_enqueue vq2 7 [(4096, 12); (8192, 64)] 1 1 with Some (_, v) => v | None => vq2 end.

Definition vq2_done : virtqueue_vring := set_used vq2_full (Used 0 1 [(0, 60); (0, 0)]).

Definition sys2 : system :=
  Sys vq2_done (Host 1 []) [(7, [(4096, 12, false); (8192, 64, true)])]
    [[(4096, 12, false); (8192, 64, true)]] [(0%nat, 60)] [].

Lemma sys2_reachable : reachable vq2 sys2.
Proof.
  eapply ReachS; [eapply ReachS; [eapply ReachS; [apply Reach0|]|]|].
  - eapply (StepEnqueue _ 7 [(4096, 12); (8192, 64)] 1 1); [lia|lia|cbn; lia|vm_compute; reflexivity].
  - eapply (StepFetch _ 0 [(4096, 12, false); (8192, 64, true)]); cbn; [lia|reflexivity|reflexivity].
  - refine (StepComplete (Sys vq2_full (Host 1 [(0, 0%nat)]) _ _ [] []) [] 0 0%nat [] 60 _ _ _); reflexivity.
Qed.

Lemma virtqueue_safe_witness : exists res, virtqueue_buffer_dequeue (vq sys2) = Some res.
Proof.
  apply (virtqueue_safe 1 infos2 vq2 sys2); [lia|reflexivity|reflexivity|exact sys2_reachable].
Defined.

Lemma virtqueue_delivers_witness : NoDup (completed sys2).*1.
Proof.
  apply (virtqueue_delivers 1 infos2 vq2 sys2); [lia|reflexivity|reflexivity|exact sys2_reachable].
Defined.

Lemma virtqueue_conserves_witness : 0 <= desc_avail (vq sys2) <= 2 ^ 1.
Proof.
  apply (virtqueue_conserves 1 infos2 vq2 sys2); [lia|reflexivity|reflexivity|exact sys2_reachable].
Defined.

Lemma virtnet_enqueue_equiv_witness : _virtnet_buffer_enqueue (vq sys2) 9 (4096, 64) 1 0 = None.
Proof.
  apply (virtnet_enqueue_equiv 1 infos2 vq2 sys2 9 (4096, 64) 1 0);
    [lia|reflexivity|reflexivity|exact sys2_reachable|lia|lia|lia|lia|reflexivity].
Defined.

(** Without casts to [__u16] the test for an event index does not depend on the new index: it
    fires although index 5 has not reached the event index 100. *)
Theorem vring_need_event_ignores_new :
  (forall e n o, vring_need_event e n o = (o <=? e)) /\
  vring_need_event 100 5 3 = true /\ (u16 (5 - 100 - 1) <? u16 (5 - 3)) = false.
Proof.
  split; [|by split]. intros e n o. unfold vring_need_event.
  destruct (Z.ltb_spec (n - e - 1) (n - o)), (Z.leb_spec o e); (done || lia).
Qed.
End Virtqueue.
