(* ===== verification/Timeconv.v ===== *)
(** * Timeconv: calendar dates to nanoseconds since the epoch

    [lib/uktimeconv/timeconv.c] and [include/uk/timeconv.h]: leap years, month lengths and
    [uktimeconv_bmkclock_to_nsec].  The result is shown to be the number of nanoseconds that
    counting calendar seconds from 1970-01-01 00:00:00 gives, for every year the 64-bit
    result can hold except those the century arithmetic gets wrong. *)
From Stdlib Require Import ZArith Lia Bool.
From S2P Require Import Prelude.
Open Scope Z_scope.

Module Timeconv.

Definition FEBRUARY : Z := 2.
Definition POSIX_BASE_YEAR : Z := 1970.
Definition DAYSTO2000 : Z := 365 * 30 + 7.
Definition DAYS4YEARS : Z := 365 * 4 + 1.
Definition DAYS100YEARS : Z := 365 * 100 + 24.
Definition DAYS400YEARS : Z := 365 * 400 + 97.
Definition UKARCH_NSEC_PER_SEC : Z := 1000000000.

(** [dt_year] is a signed 64-bit integer, the other fields are bytes. *)
Record uktimeconv_bmkclock := Clock {
  dt_year : Z; dt_mon : Z; dt_day : Z; dt_hour : Z; dt_min : Z; dt_sec : Z
}.

Definition _days_in_month (m : Z) : Z :=
  if m =? FEBRUARY then 28
  else if (m =? 4) || (m =? 6) || (m =? 9) || (m =? 11) then 30
  else if (m =? 1) || (m =? 3) || (m =? 5) || (m =? 7) || (m =? 8) || (m =? 10) || (m =? 12) then 31
  else 0.

Definition uktimeconv_days_in_month (month : Z) (is_leap_year : bool) : Z :=
  let days := _days_in_month month in
  if is_leap_year && (month =? FEBRUARY) then u8 (days + 1) else days.

Definition uktimeconv_is_leap_year (year : Z) : bool :=
  if negb (Z.land year 3 =? 0) then false
  else if negb (Z.rem year 100 =? 0) then true
  else Z.rem year 400 =? 0.

Definition uktimeconv_days_per_year (year : Z) : Z :=
  if uktimeconv_is_leap_year year then 366 else 365.

Definition uktimeconv_bcdtobin (bcd : Z) : Z :=
  u32 (u32 (Z.land (Z.shiftr bcd 4) 15 * 10) + Z.land bcd 15).

(** [for (; n iterations; i++) days += f(i);] *)
Fixpoint add_loop (f : Z -> Z) (n : nat) (i days : Z) : Z :=
  match n with O => days | S n' => add_loop f n' (u64 (i + 1)) (u64 (days + f i)) end.

(** The days of whole years before [dt_year], added to [days]. *)
Definition add_years (dt_year days : Z) : Z :=
  let year := u64 dt_year in
  if year <? 2000 then
    add_loop (fun i => uktimeconv_days_per_year (sext 64 i)) (Z.to_nat (year - POSIX_BASE_YEAR))
      POSIX_BASE_YEAR days
  else
    let days := u64 (days + DAYSTO2000) in
    let year := u64 (year - 2000) in
    let i := year / 400 in
    let days := u64 (days + u64 (i * DAYS400YEARS)) in
    let year := u64 (year - u64 (i * 400)) in
    let i := year / 100 in
    let days := u64 (days + u64 (i * DAYS100YEARS)) in
    let year := u64 (year - u64 (i * 100)) in
    let i := year / 4 in
    let days := u64 (days + u64 (i * DAYS4YEARS)) in
    let year := u64 (year - u64 (i * 4)) in
    add_loop (fun i => uktimeconv_days_per_year (sext 64 i)) (Z.to_nat year) (u64 (dt_year - year)) days.

(** [None]: a year before the epoch, which the assertion refuses. *)
Definition uktimeconv_bmkclock_to_nsec (dt : uktimeconv_bmkclock) : option Z :=
  if dt_year dt <? POSIX_BASE_YEAR then None
  else
    let days := 0 in
    let days := if uktimeconv_is_leap_year (dt_year dt) && (FEBRUARY <? dt_mon dt) then u64 (days + 1)
                else days in
    let days := add_years (dt_year dt) days in
    let days := add_loop (fun i => _days_in_month (u8 i)) (Z.to_nat (dt_mon dt - 1)) 1 days in
    let days := u64 (days + (dt_day dt - 1)) in
    let secs := u64 (u64 (u64 (u64 (u64 (u64 (days * 24) + dt_hour dt) * 60) + dt_min dt) * 60)
                     + dt_sec dt) in
    Some (u64 (secs * UKARCH_NSEC_PER_SEC)).

(** ** The calendar *)

(** The Gregorian rule, as the comment in the source states it. *)
Definition gregorian_leap (year : Z) : bool :=
  ((year mod 4 =? 0) && negb (year mod 100 =? 0)) || (year mod 400 =? 0).

Definition month_length (year month : Z) : Z :=
  nth (Z.to_nat (month - 1)) [31; if gregorian_leap year then 29 else 28; 31; 30; 31; 30; 31; 31; 30; 31; 30; 31] 0.

(** The second after a given one, by the rules of the calendar. *)
Definition next_second (dt : uktimeconv_bmkclock) : uktimeconv_bmkclock :=
  let '(Clock y mo d h mi s) := dt in
  if s <? 59 then Clock y mo d h mi (s + 1)
  else if mi <? 59 then Clock y mo d h (mi + 1) 0
  else if h <? 23 then Clock y mo d (h + 1) 0 0
  else if d <? month_length y mo then Clock y mo (d + 1) 0 0 0
  else if mo <? 12 then Clock y (mo + 1) 1 0 0 0
  else Clock (y + 1) 1 1 0 0 0.

Record valid (dt : uktimeconv_bmkclock) : Prop := {
  v_mon : 1 <= dt_mon dt <= 12;
  v_day : 1 <= dt_day dt <= month_length (dt_year dt) (dt_mon dt);
  v_hour : 0 <= dt_hour dt <= 23;
  v_min : 0 <= dt_min dt <= 59;
  v_sec : 0 <= dt_sec dt <= 59
}.

(** The years whose instants fit 64 bits of nanoseconds, less the first four years of each
    century that does not begin with a leap year. *)
Definition year_ok (y : Z) : bool :=
  (1970 <=? y) && (y <? 2554) && negb ((100 <=? y mod 400) && (y mod 100 <? 4)).

(** Days from a fixed origin to January 1st of a year. *)
Definition year_start (y : Z) : Z := 365 * y + (y - 1) / 4 - (y - 1) / 100 + (y - 1) / 400.

Definition month_start (m : Z) : Z := nth (Z.to_nat (m - 1)) [0; 31; 59; 90; 120; 151; 181; 212; 243; 273; 304; 334] 0.

Definition day_number (y m d : Z) : Z :=
  year_start y - year_start 1970 + (if gregorian_leap y && (2 <? m) then 1 else 0) + month_start m + (d - 1).

Definition second_number (dt : uktimeconv_bmkclock) : Z :=
  ((day_number (dt_year dt) (dt_mon dt) (dt_day dt) * 24 + dt_hour dt) * 60 + dt_min dt) * 60 + dt_sec dt.

(** ** Proofs *)

(** Statements about a finite range of years or months are checked by evaluation. *)
Lemma range_check (P : Z -> bool) (a n : Z) :
  forallb P (seqZ a n) = true -> forall x, a <= x < a + n -> P x = true.
Proof. rewrite forallb_forall. intros H x Hx. apply H, list_elem_of_In, elem_of_seqZ. lia. Qed.

Lemma is_leap_year_correct y : 0 <= y -> uktimeconv_is_leap_year y = gregorian_leap y.
Proof.
  intros Hy. unfold uktimeconv_is_leap_year, gregorian_leap. rewrite !Z.rem_mod_nonneg by lia.
  change 3 with (2 ^ 2 - 1). rewrite land_mask by lia. change (2 ^ 2) with 4.
  destruct (Z.eqb_spec (y mod 4) 0) as [H4|H4]; cbn [negb andb orb].
  - destruct (Z.eqb_spec (y mod 100) 0); cbn [negb andb orb]; done.
  - destruct (Z.eqb_spec (y mod 400) 0) as [H400|]; [|done]. Z.div_mod_to_equations. lia.
Qed.

Lemma add_years_correct y d : year_ok y = true -> d = 0 \/ d = 1 ->
  add_years y d = d + (year_start y - year_start 1970).
Proof.
  intros Hy Hd. set (P := fun y => negb (year_ok y) ||
    ((add_years y 0 =? 0 + (year_start y - year_start 1970)) && (add_years y 1 =? 1 + (year_start y - year_start 1970)))).
  assert (Hr : 1970 <= y < 1970 + 584) by (unfold year_ok in Hy; tests; lia).
  pose proof (range_check P 1970 584 ltac:(vm_compute; reflexivity) y Hr) as HP. unfold P in HP.
  rewrite Hy in HP. cbn [negb orb] in HP. tests. destruct Hd as [-> | ->]. all: done.
Qed.

Lemma add_months_correct m d : 1 <= m <= 12 -> 0 <= d < 2 ^ 32 ->
  add_loop (fun i => _days_in_month (u8 i)) (Z.to_nat (m - 1)) 1 d = d + month_start m.
Proof.
  intros Hm Hd. assert (Hall : forall n i e, 0 <= e -> 0 <= i -> e + 31 * Z.of_nat n < 2 ^ 64 -> i + Z.of_nat n < 2 ^ 64 ->
    add_loop (fun i => _days_in_month (u8 i)) n i e = e + add_loop (fun i => _days_in_month (u8 i)) n i 0).
  { induction n as [|n IH]; intros i e He Hi Hb1 Hb2; [cbn; lia|]. cbn [add_loop].
    assert (Hdm : 0 <= _days_in_month (u8 i) <= 31) by (unfold _days_in_month; repeat case_test; lia).
    rewrite (wrap_small 64 (e + _days_in_month (u8 i))), (wrap_small 64 (0 + _days_in_month (u8 i))),
      (wrap_small 64 (i + 1)) by (unfold in_u; lia).
    rewrite (IH (i + 1) (e + _)), (IH (i + 1) (0 + _)) by lia. lia. }
  rewrite Hall by lia. f_equal.
  pose proof (range_check (fun m => add_loop (fun i => _days_in_month (u8 i)) (Z.to_nat (m - 1)) 1 0 =? month_start m)
    1 12 ltac:(vm_compute; reflexivity) m ltac:(lia)) as H. cbv beta in H. by tests.
Qed.

Lemma day_number_bounds y m d :
  year_ok y = true -> 1 <= m <= 12 -> 1 <= d <= 31 -> 0 <= day_number y m d < 213303.
Proof.
  intros Hy Hm Hd. unfold day_number, month_start.
  assert (Hr : 1970 <= y < 1970 + 584) by (unfold year_ok in Hy; tests; lia).
  pose proof (range_check (fun m => let s := nth (Z.to_nat (m - 1)) [0; 31; 59; 90; 120; 151; 181; 212; 243; 273; 304; 334] 0 in
    (0 <=? s) && (s <=? 334)) 1 12 ltac:(vm_compute; reflexivity) m ltac:(lia)) as H. cbv beta zeta in H. tests.
  pose proof (range_check (fun y => let s := year_start y - year_start 1970 in (0 <=? s) && (s <=? 212937)) 1970 584
    ltac:(vm_compute; reflexivity) y Hr) as Hs. cbv beta zeta in Hs. tests.
  destruct (gregorian_leap y && (2 <? m)); lia.
Qed.

Lemma month_length_bounds y m : month_length y m <= 31.
Proof.
  unfold month_length. set (l := [31; _; 31; 30; 31; 30; 31; 31; 30; 31; 30; 31]).
  destruct (nth_in_or_default (Z.to_nat (m - 1)) l 0) as [Hin|Heq]; [|rewrite Heq; lia].
  revert Hin. generalize (nth (Z.to_nat (m - 1)) l 0). unfold l. intros x Hin. cbn in Hin.
  destruct (gregorian_leap y); lia.
Qed.

(** On valid dates the function computes the number of the second. *)
Lemma to_nsec_second_number dt :
  valid dt -> year_ok (dt_year dt) = true ->
  uktimeconv_bmkclock_to_nsec dt = Some (second_number dt * UKARCH_NSEC_PER_SEC).
Proof.
  intros [Hmon Hday Hh Hmi Hs] Hy. pose proof (month_length_bounds (dt_year dt) (dt_mon dt)) as Hml.
  pose proof (day_number_bounds _ (dt_mon dt) (dt_day dt) Hy Hmon ltac:(lia)) as Hb.
  assert (Hr : 1970 <= dt_year dt) by (unfold year_ok in Hy; tests; lia).
  unfold uktimeconv_bmkclock_to_nsec. destruct (Z.ltb_spec (dt_year dt) POSIX_BASE_YEAR) as [Hlt|_];
    [unfold POSIX_BASE_YEAR in Hlt; lia|].
  rewrite is_leap_year_correct by lia. cbv zeta. set (lp := gregorian_leap (dt_year dt) && (FEBRUARY <? dt_mon dt)).
  assert (Hlp : (if lp then u64 (0 + 1) else 0) = if lp then 1 else 0) by by destruct lp.
  rewrite Hlp. rewrite add_years_correct by (done || destruct lp; auto).
  assert (Hys : 0 <= year_start (dt_year dt) - year_start 1970 < 2 ^ 20).
  { unfold year_start. Z.div_mod_to_equations. unfold year_ok in Hy. tests. lia. }
  rewrite add_months_correct by (done || destruct lp; lia).
  unfold second_number, UKARCH_NSEC_PER_SEC.
  assert (Hdn : (if lp then 1 else 0) + (year_start (dt_year dt) - year_start 1970) + month_start (dt_mon dt)
    + (dt_day dt - 1) = day_number (dt_year dt) (dt_mon dt) (dt_day dt)).
  { unfold day_number. change (gregorian_leap (dt_year dt) && (2 <? dt_mon dt)) with lp. lia. }
  rewrite Hdn. set (n := day_number _ _ _) in *.
  rewrite (wrap_small 64 n) by (unfold in_u; lia). rewrite (wrap_small 64 (n * 24)) by (unfold in_u; lia).
  rewrite (wrap_small 64 (n * 24 + _)) by (unfold in_u; lia).
  rewrite (wrap_small 64 ((n * 24 + _) * 60)) by (unfold in_u; lia).
  rewrite (wrap_small 64 ((n * 24 + _) * 60 + _)) by (unfold in_u; lia).
  rewrite (wrap_small 64 (((n * 24 + _) * 60 + _) * 60)) by (unfold in_u; lia).
  rewrite (wrap_small 64 (((n * 24 + _) * 60 + _) * 60 + _)) by (unfold in_u; lia).
  by rewrite wrap_small by (unfold in_u; lia).
Qed.

Lemma year_start_step y : 1970 <= y < 2554 -> year_start (y + 1) = year_start y + (if gregorian_leap y then 366 else 365).
Proof.
  intros Hy. pose proof (range_check (fun y => year_start (y + 1) =? year_start y + (if gregorian_leap y then 366 else 365))
    1970 584 ltac:(vm_compute; reflexivity) y ltac:(lia)) as H. cbv beta in H. by tests.
Qed.

(** The first of the next month follows the last of a month. *)
Lemma day_number_month y m :
  1 <= m < 12 -> day_number y (m + 1) 1 = day_number y m (month_length y m) + 1.
Proof.
  intros Hm. unfold day_number, month_length. generalize (gregorian_leap y), (year_start y - year_start 1970).
  intros b g. set (L := fun b : bool => [31; if b then 29 else 28; 31; 30; 31; 30; 31; 31; 30; 31; 30; 31]).
  pose proof (range_check (fun m => forallb (fun b : bool =>
    (if b && (2 <? m + 1) then 1 else 0) + month_start (m + 1) + (1 - 1) =?
    (if b && (2 <? m) then 1 else 0) + month_start m + (nth (Z.to_nat (m - 1)) (L b) 0 - 1) + 1) [true; false])
    1 11 ltac:(vm_compute; reflexivity) m ltac:(lia)) as H. cbv beta in H. rewrite forallb_forall in H.
  specialize (H b ltac:(destruct b; cbn; auto)). change (L b) with [31; if b then 29 else 28; 31; 30; 31; 30; 31; 31; 30; 31; 30; 31] in H.
  tests. lia.
Qed.

Ltac fields := cbn [dt_year dt_mon dt_day dt_hour dt_min dt_sec] in *.

(** Counting seconds by the calendar adds one each time. *)
Lemma second_number_next dt :
  valid dt -> 1970 <= dt_year dt < 2554 -> second_number (next_second dt) = second_number dt + 1.
Proof.
  destruct dt as [y mo d h mi s]. intros [Hmon Hday Hh Hmi Hs] Hy. fields. unfold second_number, next_second.
  destruct (Z.ltb_spec s 59); fields; [lia|]. destruct (Z.ltb_spec mi 59); fields; [lia|].
  destruct (Z.ltb_spec h 23); fields; [lia|].
  destruct (Z.ltb_spec d (month_length y mo)); fields; [unfold day_number; lia|].
  assert (Hd : d = month_length y mo) by lia. subst d.
  pose proof (year_start_step y Hy) as Hstep.
  destruct (Z.ltb_spec mo 12); fields.
  - rewrite (day_number_month y mo) by lia. lia.
  - assert (mo = 12) as -> by lia. unfold day_number. rewrite Hstep.
    change (month_start 12) with 334. change (month_start 1) with 0. change (month_length y 12) with 31.
    change (2 <? 1) with false. change (2 <? 12) with true. rewrite andb_false_r, andb_true_r. destruct (gregorian_leap y); lia.
Qed.

Lemma month_length_pos y m : 1 <= m <= 12 -> 28 <= month_length y m.
Proof.
  intros Hm. unfold month_length. generalize (gregorian_leap y). intros b.
  pose proof (range_check (fun m => forallb (fun b : bool =>
    28 <=? nth (Z.to_nat (m - 1)) [31; if b then 29 else 28; 31; 30; 31; 30; 31; 31; 30; 31; 30; 31] 0) [true; false])
    1 12 ltac:(vm_compute; reflexivity) m ltac:(lia)) as H. cbv beta in H. rewrite forallb_forall in H.
  specialize (H b ltac:(destruct b; cbn; auto)). by tests.
Qed.

Lemma valid_next dt : valid dt -> valid (next_second dt).
Proof.
  destruct dt as [y mo d h mi s]. intros [Hmon Hday Hh Hmi Hs]. fields. unfold next_second.
  destruct (Z.ltb_spec s 59); [split; fields; lia|]. destruct (Z.ltb_spec mi 59); [split; fields; lia|].
  destruct (Z.ltb_spec h 23); [split; fields; lia|].
  destruct (Z.ltb_spec d (month_length y mo)); [split; fields; lia|].
  pose proof (month_length_pos y (mo + 1)). pose proof (month_length_pos (y + 1) 1).
  destruct (Z.ltb_spec mo 12); split; fields; lia.
Qed.

(** The conversion counts calendar seconds: the epoch is 0, and the second after a valid
    date is one billion nanoseconds later, through minutes, hours, months of every length,
    leap days and the ends of years; nothing overflows up to the year 2553.  The first four
    years after a century year that is not a leap year are excepted. *)
Theorem bmkclock_to_nsec_counts dt n :
  uktimeconv_bmkclock_to_nsec (Clock 1970 1 1 0 0 0) = Some 0 /\
  (valid dt -> year_ok (dt_year dt) = true -> year_ok (dt_year (next_second dt)) = true ->
   uktimeconv_bmkclock_to_nsec dt = Some n ->
   uktimeconv_bmkclock_to_nsec (next_second dt) = Some (n + 1000000000)).
Proof.
  split; [vm_compute; reflexivity|]. intros Hv Hy Hy' Hn.
  rewrite (to_nsec_second_number _ Hv Hy) in Hn. injection Hn as <-.
  rewrite (to_nsec_second_number _ (valid_next _ Hv) Hy'), second_number_next; [unfold UKARCH_NSEC_PER_SEC; f_equal; lia|done|].
  unfold year_ok in Hy. tests. lia.
Qed.

Lemma bmkclock_to_nsec_counts_witness :
  uktimeconv_bmkclock_to_nsec (Clock 2024 2 29 0 0 0) = Some 1709164800000000000.
Proof.
  apply (bmkclock_to_nsec_counts (Clock 2024 2 28 23 59 59) 1709164799000000000).
  - split; vm_compute; split; discriminate.
  - reflexivity.
  - reflexivity.
  - vm_compute. reflexivity.
Defined.

(** The 100-year step counts 24 leap years, but the century from 2000 on has 25: the first of
    January 2100 is taken for the day before it. *)
Theorem bmkclock_2100_off_by_one_day :
  uktimeconv_bmkclock_to_nsec (Clock 2100 1 1 0 0 0) = uktimeconv_bmkclock_to_nsec (Clock 2099 12 31 0 0 0).
Proof. vm_compute. reflexivity. Qed.
End Timeconv.
