(* ===== verification/ErrMonad.v ===== *)
(** * ErrMonad: C functions that change a state and return an error code

    [EM S A] is a computation on a state [S] that ends with a value of type [A] or with the
    error code the C function returns; [None] is undefined behaviour or a call that does not
    return.  The C idiom [if ((rc = f()) || (rc = g())) return rc;] is a sequence of binds. *)
From Stdlib Require Import ZArith.
From S2P Require Import Prelude.

Definition EM (S A : Type) : Type := S -> option ((Z + A) * S).

Section Monad.
Context {S A B : Type}.

Definition eret (a : A) : EM S A := fun s => Some (inr a, s).
Definition efail (rc : Z) : EM S A := fun s => Some (inl rc, s).
Definition eundef : EM S A := fun _ => None.
Definition ebind (m : EM S A) (k : A -> EM S B) : EM S B := fun s =>
  '(r, s') ← m s; match r with inl rc => Some (inl rc, s') | inr a => k a s' end.

(** [goto free]: clean up when there was an error, and pass the error on. *)
Definition on_error (cleanup : EM S B) (m : EM S A) : EM S A := fun s =>
  '(r, s) ← m s;
  match r with
  | inr a => Some (inr a, s)
  | inl rc => '(_, s) ← cleanup s; Some (inl rc, s)
  end.
End Monad.

Notation "'let!' x := m 'in' k" := (ebind m (fun x => k))
  (at level 10, x pattern, m at level 100, k at level 200,
   format "'[v' 'let!'  x  :=  m  'in' '//' k ']'") : uk_scope.
Notation "m ;! k" := (ebind m (fun _ => k)) (at level 100, right associativity) : uk_scope.

Lemma ebind_ok {S A B} (m : EM S A) (k : A -> EM S B) s a s' :
  m s = Some (inr a, s') -> ebind m k s = k a s'.
Proof. intros H. unfold ebind. by rewrite H. Qed.

Lemma ebind_err {S A B} (m : EM S A) (k : A -> EM S B) s rc s' :
  m s = Some (inl rc, s') -> ebind m k s = Some (inl rc, s').
Proof. intros H. unfold ebind. by rewrite H. Qed.

Lemma ebind_assoc {S A B C} (m : EM S A) (k : A -> EM S B) (h : B -> EM S C) s :
  ebind (ebind m k) h s = ebind m (fun a => ebind (k a) h) s.
Proof. unfold ebind. destruct (m s) as [[[rc|a] s']|]; reflexivity. Qed.
