(* ===== verification/P9Req.v ===== *)
(** * P9Req: requests of the 9P client

    Models [lib/uk9p/include/uk/9preq.h] and [lib/uk9p/9preq.c]: the buffers of a request, the
    functions that serialize and deserialize the base types of the protocol, and the states a
    request goes through.  Buffers are lists of bytes; integers are little endian, as on x86.  A
    string that was read points into the receive buffer; the model takes the bytes it points
    to.  A zero-copy buffer is given by its contents. *)
From Stdlib Require Import ZArith Lia Bool.
From S2P Require Import Prelude Buf ErrMonad.
Open Scope Z_scope.

Module P9.

Definition EIO : Z := 5.
Definition ENOBUFS : Z := 55.
Definition UK_9P_HEADER_SIZE : Z := 7.
Definition UK_9P_BUFSIZE : Z := 1024.
Definition UK_9P_RERROR_MAXSIZE : Z := 141.
Definition UK_9P_RERROR : Z := 107.

(** ** Data *)

Inductive uk_9preq_zcdir :=
  | UK_9PREQ_ZCDIR_NONE | UK_9PREQ_ZCDIR_READ | UK_9PREQ_ZCDIR_WRITE.

Record uk_9preq_fcall := Fcall {
  f_size : Z; f_type : Z; f_offset : Z; f_buf : list Z;
  f_zc_buf : option (list Z); f_zc_size : Z; f_zc_offset : Z
}.

Inductive uk_9preq_state :=
  | UK_9PREQ_NONE | UK_9PREQ_INITIALIZED | UK_9PREQ_READY | UK_9PREQ_SENT | UK_9PREQ_RECEIVED.

#[export] Instance uk_9preq_state_eq_dec : EqDecision uk_9preq_state.
Proof. solve_decision. Defined.

(** [dev] says whether [_dev] still points to the device. *)
Record uk_9preq := Req {
  xmit : uk_9preq_fcall; recv : uk_9preq_fcall;
  state : uk_9preq_state; tag : Z; refcount : Z; dev : bool
}.

Record uk_9p_qid := Qid { q_type : Z; q_version : Z; q_path : Z }.
Record uk_9p_str := Str { s_size : Z; s_data : list Z }.
Record uk_9p_stat := Stat {
  st_size : Z; st_type : Z; st_dev : Z; st_qid : uk_9p_qid; st_mode : Z; st_atime : Z;
  st_mtime : Z; st_length : Z; st_name : uk_9p_str; st_uid : uk_9p_str; st_gid : uk_9p_str;
  st_muid : uk_9p_str; st_extension : uk_9p_str; st_n_uid : Z; st_n_gid : Z; st_n_muid : Z
}.

(** [p] is the C string without its terminator, [None] for NULL. *)
Definition uk_9p_str_init (p : option (list Z)) : uk_9p_str :=
  match p with None => Str 0 [] | Some p => Str (u16 (zlen p)) p end.

Definition set_xmit (r : uk_9preq) (x : uk_9preq_fcall) : uk_9preq :=
  Req x (recv r) (state r) (tag r) (refcount r) (dev r).
Definition set_recv (r : uk_9preq) (x : uk_9preq_fcall) : uk_9preq :=
  Req (xmit r) x (state r) (tag r) (refcount r) (dev r).
Definition set_state (r : uk_9preq) (s : uk_9preq_state) : uk_9preq :=
  Req (xmit r) (recv r) s (tag r) (refcount r) (dev r).
Definition set_refcount (r : uk_9preq) (c : Z) : uk_9preq :=
  Req (xmit r) (recv r) (state r) (tag r) c (dev r).

Definition set_offset (x : uk_9preq_fcall) (o : Z) : uk_9preq_fcall :=
  Fcall (f_size x) (f_type x) o (f_buf x) (f_zc_buf x) (f_zc_size x) (f_zc_offset x).
Definition set_size (x : uk_9preq_fcall) (s : Z) : uk_9preq_fcall :=
  Fcall s (f_type x) (f_offset x) (f_buf x) (f_zc_buf x) (f_zc_size x) (f_zc_offset x).
Definition set_type (x : uk_9preq_fcall) (t : Z) : uk_9preq_fcall :=
  Fcall (f_size x) t (f_offset x) (f_buf x) (f_zc_buf x) (f_zc_size x) (f_zc_offset x).
Definition set_buf (x : uk_9preq_fcall) (b : list Z) : uk_9preq_fcall :=
  Fcall (f_size x) (f_type x) (f_offset x) b (f_zc_buf x) (f_zc_size x) (f_zc_offset x).
Definition set_zc (x : uk_9preq_fcall) (b : option (list Z)) (n o : Z) : uk_9preq_fcall :=
  Fcall (f_size x) (f_type x) (f_offset x) (f_buf x) b n o.

(** ** Base types *)

Abbreviation io := (EM uk_9preq).

(** The [n] bytes of an integer, least significant first, and back. *)
Fixpoint le_bytes (n : nat) (v : Z) : list Z :=
  match n with O => [] | S n' => v mod 256 :: le_bytes n' (v / 256) end.
Fixpoint le_value (bs : list Z) : Z :=
  match bs with [] => 0 | b :: bs' => b + 256 * le_value bs' end.

(** The source of the copy has [size] bytes, those of [src]. *)
Definition uk_9preq_writebuf (src : list Z) (size : Z) : io unit := fun req =>
  let x := xmit req in
  if f_size x <? u32 (f_offset x + size) then Some (inl (- ENOBUFS), req)
  else
    bs ← buf_read src 0 size;
    b ← buf_write (f_buf x) (f_offset x) bs;
    Some (inr tt, set_xmit req (set_offset (set_buf x b) (u32 (f_offset x + size)))).

Definition uk_9preq_readbuf (size : Z) : io (list Z) := fun req =>
  let x := recv req in
  if f_size x <? u32 (f_offset x + size) then Some (inl (- ENOBUFS), req)
  else
    bs ← buf_read (f_buf x) (f_offset x) size;
    Some (inr bs, set_recv req (set_offset x (u32 (f_offset x + size)))).

Definition write_int (n : nat) (v : Z) : io unit :=
  uk_9preq_writebuf (le_bytes n v) (Z.of_nat n).
Definition uk_9preq_write8 : Z -> io unit := write_int 1.
Definition uk_9preq_write16 : Z -> io unit := write_int 2.
Definition uk_9preq_write32 : Z -> io unit := write_int 4.
Definition uk_9preq_write64 : Z -> io unit := write_int 8.

Definition uk_9preq_writeqid (val : uk_9p_qid) : io unit :=
  uk_9preq_write8 (q_type val) ;! uk_9preq_write32 (q_version val) ;!
  uk_9preq_write64 (q_path val).

Definition uk_9preq_writestr (val : uk_9p_str) : io unit :=
  uk_9preq_write16 (s_size val) ;! uk_9preq_writebuf (s_data val) (s_size val).

(** The [size] the function stores in the structure first. *)
Definition stat_size (val : uk_9p_stat) : Z :=
  u16 (61 + s_size (st_name val) + s_size (st_uid val) + s_size (st_gid val)
       + s_size (st_muid val) + s_size (st_extension val)).

Definition uk_9preq_writestat (val : uk_9p_stat) : io unit :=
  uk_9preq_write16 (stat_size val) ;! uk_9preq_write16 (st_type val) ;!
  uk_9preq_write32 (st_dev val) ;! uk_9preq_writeqid (st_qid val) ;!
  uk_9preq_write32 (st_mode val) ;! uk_9preq_write32 (st_atime val) ;!
  uk_9preq_write32 (st_mtime val) ;! uk_9preq_write64 (st_length val) ;!
  uk_9preq_writestr (st_name val) ;! uk_9preq_writestr (st_uid val) ;!
  uk_9preq_writestr (st_gid val) ;! uk_9preq_writestr (st_muid val) ;!
  uk_9preq_writestr (st_extension val) ;! uk_9preq_write32 (st_n_uid val) ;!
  uk_9preq_write32 (st_n_gid val) ;! uk_9preq_write32 (st_n_muid val).

Definition read_int (n : nat) : io Z :=
  let! bs := uk_9preq_readbuf (Z.of_nat n) in eret (le_value bs).
Definition uk_9preq_read8 : io Z := read_int 1.
Definition uk_9preq_read16 : io Z := read_int 2.
Definition uk_9preq_read32 : io Z := read_int 4.
Definition uk_9preq_read64 : io Z := read_int 8.

Definition uk_9preq_readqid : io uk_9p_qid :=
  let! t := uk_9preq_read8 in
  let! v := uk_9preq_read32 in
  let! p := uk_9preq_read64 in
  eret (Qid t v p).

(** The offset moves before the check; the string is the part of the buffer it then spans. *)
Definition uk_9preq_readstr : io uk_9p_str :=
  let! n := uk_9preq_read16 in
  fun req =>
    let x := recv req in
    let off := u32 (f_offset x + n) in
    let req' := set_recv req (set_offset x off) in
    if f_size x <? off then Some (inl (- ENOBUFS), req')
    else Some (inr (Str n (take (Z.to_nat n) (drop (Z.to_nat (f_offset x)) (f_buf x)))), req').

Definition uk_9preq_readstat : io uk_9p_stat :=
  let! sz := uk_9preq_read16 in
  let! ty := uk_9preq_read16 in
  let! dv := uk_9preq_read32 in
  let! qd := uk_9preq_readqid in
  let! mo := uk_9preq_read32 in
  let! at' := uk_9preq_read32 in
  let! mt := uk_9preq_read32 in
  let! ln := uk_9preq_read64 in
  let! na := uk_9preq_readstr in
  let! ui := uk_9preq_readstr in
  let! gi := uk_9preq_readstr in
  let! mu := uk_9preq_readstr in
  let! ex := uk_9preq_readstr in
  let! nu := uk_9preq_read32 in
  let! ng := uk_9preq_read32 in
  let! nm := uk_9preq_read32 in
  eret (Stat sz ty dv qd mo at' mt ln na ui gi mu ex nu ng nm).

(** ** The life of a request *)

Definition init_fcall (x : uk_9preq_fcall) (o : Z) : uk_9preq_fcall :=
  Fcall UK_9P_BUFSIZE (f_type x) o (f_buf x) None 0 0.

Definition uk_9preq_init (req : uk_9preq) : uk_9preq :=
  Req (init_fcall (xmit req) UK_9P_HEADER_SIZE) (init_fcall (recv req) 0)
      (state req) (tag req) 1 (dev req).

Definition update_xmit (f : uk_9preq_fcall -> uk_9preq_fcall) : io unit :=
  fun req => Some (inr tt, set_xmit req (f (xmit req))).
Definition update_recv (f : uk_9preq_fcall -> uk_9preq_fcall) : io unit :=
  fun req => Some (inr tt, set_recv req (f (recv req))).
Definition update_state (s : uk_9preq_state) : io unit :=
  fun req => Some (inr tt, set_state req s).
Definition current : io uk_9preq := fun req => Some (inr req, req).

Definition uk_9preq_ready (zc_dir : uk_9preq_zcdir) (zc_buf : option (list Z))
    (zc_size zc_offset : Z) : io unit :=
  let! req := current in
  if negb (bool_decide (state req = UK_9PREQ_INITIALIZED)) then efail (- EIO)
  else
    let total_size := f_offset (xmit req) in
    let total_size_with_zc :=
      match zc_dir with UK_9PREQ_ZCDIR_WRITE => u32 (total_size + zc_size) | _ => total_size end in
    update_xmit (fun x => set_offset x 0) ;!
    uk_9preq_write32 total_size_with_zc ;!
    uk_9preq_write8 (f_type (xmit req)) ;!
    uk_9preq_write16 (tag req) ;!
    update_xmit (fun x => set_size (set_offset x 0) total_size) ;!
    match zc_dir with
    | UK_9PREQ_ZCDIR_WRITE => update_xmit (fun x => set_zc x zc_buf zc_size (f_size x))
    | UK_9PREQ_ZCDIR_READ =>
        update_recv (fun x => set_size (set_zc x zc_buf zc_size zc_offset) zc_offset)
    | UK_9PREQ_ZCDIR_NONE => eret tt
    end ;!
    update_state UK_9PREQ_READY.

Definition uk_9preq_receive_cb (recv_size : Z) : io unit :=
  let! req := current in
  if negb (bool_decide (state req = UK_9PREQ_SENT)) then efail (- EIO)
  else if recv_size <? UK_9P_HEADER_SIZE then efail (- EIO)
  else
    update_recv (fun x => set_size (set_offset x 0) recv_size) ;!
    let! size := uk_9preq_read32 in
    let! ty := uk_9preq_read8 in
    update_recv (fun x => set_type x ty) ;!
    let! t := uk_9preq_read16 in
    if recv_size <? size then efail (- EIO)
    else if negb (tag req =? t) then efail (- EIO)
    else
      update_recv (fun x =>
        match f_zc_buf x with
        | Some _ => if negb (ty =? UK_9P_RERROR) then set_size x (f_zc_offset x)
                    else set_size x size
        | None => set_size x size
        end) ;!
      update_state UK_9PREQ_RECEIVED.

Definition uk_9preq_error : io unit :=
  let! req := current in
  if negb (bool_decide (state req = UK_9PREQ_RECEIVED)) then efail (- EIO)
  else if negb (f_type (recv req) =? UK_9P_RERROR) then eret tt
  else if negb (f_offset (recv req) =? UK_9P_HEADER_SIZE) then eundef
  else
    let! _ := uk_9preq_readstr in
    let! errcode := uk_9preq_read32 in
    if (errcode =? 0) || (512 <=? errcode) then efail (- EIO) else efail (- errcode).

(** The wait ends when the transport has received the reply; before that the call has not
    returned. *)
Definition uk_9preq_waitreply : io unit := fun req =>
  if bool_decide (state req = UK_9PREQ_RECEIVED) then uk_9preq_error req else None.

(** ** Integers as bytes *)

Lemma le_bytes_length n v : length (le_bytes n v) = n.
Proof. revert v. induction n; intros; cbn; auto. Qed.

Lemma le_value_bytes n v : 0 <= v < 256 ^ Z.of_nat n -> le_value (le_bytes n v) = v.
Proof.
  revert v. induction n as [|n IH]; intros v Hv; cbn [le_bytes le_value].
  { change (256 ^ Z.of_nat 0) with 1 in Hv. lia. }
  rewrite IH; [pose proof (Z.div_mod v 256 ltac:(lia)); lia|].
  rewrite Nat2Z.inj_succ, Z.pow_succ_r in Hv by lia.
  split; [apply Z.div_pos; lia|apply Z.div_lt_upper_bound; lia].
Qed.

(** ** Writing *)

Definition wf_fcall (x : uk_9preq_fcall) : Prop :=
  0 <= f_offset x /\ 0 <= f_size x <= zlen (f_buf x) /\ zlen (f_buf x) < 2 ^ 31.

(** The buffer after [bs] was appended at the offset. *)
Definition put (x : uk_9preq_fcall) (bs : list Z) : uk_9preq_fcall :=
  let off := Z.to_nat (f_offset x) in
  set_offset (set_buf x (take off (f_buf x) ++ bs ++ drop (off + length bs) (f_buf x)))
    (f_offset x + zlen bs).

Definition fits (x : uk_9preq_fcall) (bs : list Z) : Prop := f_offset x + zlen bs <= f_size x.

(** [m] appends the bytes [bs], or fails with [-ENOBUFS] having appended a part of them. *)
Definition writes (m : io unit) (bs : list Z) : Prop := forall req,
  wf_fcall (xmit req) -> f_offset (xmit req) <= f_size (xmit req) ->
  (fits (xmit req) bs /\ m req = Some (inr tt, set_xmit req (put (xmit req) bs))) \/
  (~ fits (xmit req) bs /\ exists bs', fits (xmit req) bs' /\
     m req = Some (inl (- ENOBUFS), set_xmit req (put (xmit req) bs'))).

Lemma put_nil x : 0 <= f_offset x -> put x [] = x.
Proof.
  intros Ho. unfold put. cbn [app length]. rewrite Nat.add_0_r, take_drop, Z.add_0_r.
  by destruct x.
Qed.

Lemma put_put x a b :
  wf_fcall x -> fits x a -> put (put x a) b = put x (a ++ b).
Proof.
  intros (Ho & Hs & _) Hf. unfold put, fits in *.
  cbn [set_offset set_buf f_offset f_buf f_size f_type f_zc_buf f_zc_size f_zc_offset] in *.
  rewrite length_app, <- app_assoc.
  assert (Hl : Z.to_nat (f_offset x + zlen a) = (Z.to_nat (f_offset x) + length a)%nat) by lia.
  assert (Ht : length (take (Z.to_nat (f_offset x)) (f_buf x)) = Z.to_nat (f_offset x))
    by (rewrite length_take; lia).
  rewrite Hl. unfold set_offset, set_buf. cbn. f_equal; [lia|].
  set (t := take (Z.to_nat (f_offset x)) (f_buf x)) in *.
  rewrite (app_assoc t a (drop _ _)).
  assert (Hta : length (t ++ a) = (Z.to_nat (f_offset x) + length a)%nat)
    by (rewrite length_app; lia).
  rewrite <- Hta, take_app_length. rewrite <- app_assoc. do 3 f_equal.
  rewrite drop_app_ge by lia. rewrite drop_drop. f_equal. lia.
Qed.

Lemma put_wf x bs : wf_fcall x -> fits x bs -> wf_fcall (put x bs).
Proof.
  unfold wf_fcall, fits, put. intros (Ho & Hs & Hl) Hf. cbn.
  rewrite !length_app, length_take, length_drop. lia.
Qed.

Lemma put_fits x a b : fits (put x a) b <-> fits x (a ++ b).
Proof. unfold fits, put. cbn. rewrite length_app. lia. Qed.

Lemma fits_app x a b : fits x (a ++ b) -> fits x a.
Proof. unfold fits. rewrite length_app. lia. Qed.

Lemma set_xmit_set_xmit r x y : set_xmit (set_xmit r x) y = set_xmit r y.
Proof. done. Qed.

Lemma writes_buf src : zlen src < 2 ^ 31 -> writes (uk_9preq_writebuf src (zlen src)) src.
Proof.
  intros Hn req (Ho & Hs & Hl) Hle. unfold uk_9preq_writebuf.
  assert (Hw : u32 (f_offset (xmit req) + zlen src) = f_offset (xmit req) + zlen src)
    by (apply wrap_small; unfold in_u; lia).
  rewrite Hw. destruct (Z.ltb_spec (f_size (xmit req)) (f_offset (xmit req) + zlen src)).
  - right. unfold fits. split; [lia|]. exists []. cbn. split; [lia|].
    rewrite put_nil by done. by destruct req.
  - left. unfold fits. split; [lia|].
    assert (Hr : buf_read src 0 (zlen src) = Some src).
    { unfold buf_read. destruct (Z.leb_spec 0 0); [|lia]. destruct (Z.leb_spec 0 (zlen src)); [|lia].
      destruct (Z.leb_spec (0 + zlen src) (zlen src)); [|lia]. cbn.
      rewrite Nat2Z.id, drop_0. f_equal. by apply firstn_all2. }
    rewrite Hr. cbn [mbind option_bind]. unfold buf_write.
    destruct (Z.leb_spec 0 (f_offset (xmit req))); [|lia].
    destruct (Z.leb_spec (f_offset (xmit req) + zlen src) (zlen (f_buf (xmit req)))); [|lia].
    reflexivity.
Qed.

Lemma writes_seq m1 b1 m2 b2 : writes m1 b1 -> writes m2 b2 -> writes (m1 ;! m2) (b1 ++ b2).
Proof.
  intros H1 H2 req Hwf Hle. destruct (H1 req Hwf Hle) as [[Hf E]|[Hf (bs & Hbs & E)]].
  - rewrite (ebind_ok _ _ _ _ _ E).
    destruct (H2 (set_xmit req (put (xmit req) b1))) as [[Hf2 E2]|[Hf2 (bs & Hbs & E2)]];
      [by apply put_wf|exact Hf|left|right]; cbn [xmit set_xmit] in *;
      rewrite ?put_put, ?set_xmit_set_xmit in E2 by done; rewrite <- put_fits.
    + done.
    + split; [done|]. exists (b1 ++ bs). split; [by apply put_fits|done].
  - right. split; [intros H; by apply Hf, (fits_app _ _ b2)|].
    exists bs. split; [done|]. by apply ebind_err.
Qed.

Lemma writes_int n v : Z.of_nat n < 2 ^ 31 -> writes (write_int n v) (le_bytes n v).
Proof.
  intros Hn. unfold write_int. rewrite <- (le_bytes_length n v) at 2. apply writes_buf.
  by rewrite le_bytes_length.
Qed.

(** A string as its size announces it. *)
Definition str_ok (s : uk_9p_str) : Prop := s_size s = zlen (s_data s) /\ zlen (s_data s) < 2 ^ 16.

Definition encode_qid (q : uk_9p_qid) : list Z :=
  le_bytes 1 (q_type q) ++ le_bytes 4 (q_version q) ++ le_bytes 8 (q_path q).
Definition encode_str (s : uk_9p_str) : list Z := le_bytes 2 (s_size s) ++ s_data s.
Definition encode_stat (v : uk_9p_stat) : list Z :=
  le_bytes 2 (stat_size v) ++ le_bytes 2 (st_type v) ++ le_bytes 4 (st_dev v) ++
  encode_qid (st_qid v) ++ le_bytes 4 (st_mode v) ++ le_bytes 4 (st_atime v) ++
  le_bytes 4 (st_mtime v) ++ le_bytes 8 (st_length v) ++ encode_str (st_name v) ++
  encode_str (st_uid v) ++ encode_str (st_gid v) ++ encode_str (st_muid v) ++
  encode_str (st_extension v) ++ le_bytes 4 (st_n_uid v) ++ le_bytes 4 (st_n_gid v) ++
  le_bytes 4 (st_n_muid v).

Lemma writes_str s : str_ok s -> writes (uk_9preq_writestr s) (encode_str s).
Proof.
  intros [Hs Hl]. apply writes_seq; [by apply writes_int|]. rewrite Hs. apply writes_buf. lia.
Qed.

Lemma writes_qid q : writes (uk_9preq_writeqid q) (encode_qid q).
Proof. repeat apply writes_seq; by apply writes_int. Qed.

Definition stat_strs_ok (v : uk_9p_stat) : Prop :=
  str_ok (st_name v) /\ str_ok (st_uid v) /\ str_ok (st_gid v) /\ str_ok (st_muid v) /\
  str_ok (st_extension v).

Create HintDb p9 discriminated.
#[local] Hint Resolve writes_str writes_qid : p9.
#[local] Hint Extern 1 (writes (uk_9preq_write8 _) _) => by apply writes_int : p9.
#[local] Hint Extern 1 (writes (uk_9preq_write16 _) _) => by apply writes_int : p9.
#[local] Hint Extern 1 (writes (uk_9preq_write32 _) _) => by apply writes_int : p9.
#[local] Hint Extern 1 (writes (uk_9preq_write64 _) _) => by apply writes_int : p9.

Lemma writes_stat v : stat_strs_ok v -> writes (uk_9preq_writestat v) (encode_stat v).
Proof.
  intros (? & ? & ? & ? & ?). unfold uk_9preq_writestat, encode_stat.
  repeat (apply writes_seq; [auto with p9|]). auto with p9.
Qed.

(** ** Reading *)

(** The bytes that are left between the offset and the size. *)
Definition rest (x : uk_9preq_fcall) : list Z :=
  take (Z.to_nat (f_size x - f_offset x)) (drop (Z.to_nat (f_offset x)) (f_buf x)).

Definition skip (x : uk_9preq_fcall) (n : Z) : uk_9preq_fcall := set_offset x (f_offset x + n).

(** [m] consumes the bytes [bs] and returns [a]. *)
Definition reads {A} (m : io A) (bs : list Z) (a : A) : Prop := forall req t,
  wf_fcall (recv req) -> f_offset (recv req) <= f_size (recv req) ->
  rest (recv req) = bs ++ t ->
  m req = Some (inr a, set_recv req (skip (recv req) (zlen bs))).

Lemma rest_length x : wf_fcall x -> zlen (rest x) = Z.max 0 (f_size x - f_offset x).
Proof.
  intros (Ho & Hs & _). unfold rest. rewrite length_take, length_drop. lia.
Qed.

Lemma rest_skip x bs t :
  wf_fcall x -> f_offset x <= f_size x -> rest x = bs ++ t ->
  rest (skip x (zlen bs)) = t /\ f_offset x + zlen bs <= f_size x.
Proof.
  intros Hwf Hle Hr. pose proof (rest_length x Hwf) as Hl. rewrite Hr, length_app in Hl.
  destruct Hwf as (Ho & Hs & _). split; [|lia]. unfold rest, skip in *. cbn.
  rewrite <- (drop_app_length bs t), <- Hr, skipn_firstn_comm, drop_drop. f_equal; [|f_equal]; lia.
Qed.

Lemma skip_wf x n : 0 <= n -> wf_fcall x -> wf_fcall (skip x n).
Proof. unfold wf_fcall, skip. cbn. lia. Qed.

Lemma reads_bind {A B} (m : io A) (k : A -> io B) b1 a b2 b :
  reads m b1 a -> reads (k a) b2 b -> reads (ebind m k) (b1 ++ b2) b.
Proof.
  intros H1 H2 req t Hwf Hle Hr. rewrite <- app_assoc in Hr.
  rewrite (ebind_ok _ _ _ _ _ (H1 req _ Hwf Hle Hr)).
  destruct (rest_skip _ _ _ Hwf Hle Hr) as [Hr' Hle'].
  rewrite (H2 _ t); [|by apply skip_wf; [lia|]|done|done].
  do 2 f_equal. unfold set_recv, skip. cbn. do 2 f_equal. rewrite length_app. lia.
Qed.

Lemma reads_ret {A} (a : A) : reads (eret a) [] a.
Proof.
  intros req t _ _ _. unfold eret, skip. rewrite Z.add_0_r. by destruct req as [? []].
Qed.

Lemma reads_buf bs : zlen bs < 2 ^ 31 -> reads (uk_9preq_readbuf (zlen bs)) bs bs.
Proof.
  intros Hb req t Hwf Hle Hr. destruct (rest_skip _ _ _ Hwf Hle Hr) as [_ Hoff].
  destruct Hwf as (Ho & Hs & Hlen). unfold uk_9preq_readbuf.
  rewrite (wrap_small 32) by (unfold in_u; lia).
  destruct (Z.ltb_spec (f_size (recv req)) (f_offset (recv req) + zlen bs)); [lia|].
  unfold buf_read. destruct (Z.leb_spec 0 (f_offset (recv req))); [|lia].
  destruct (Z.leb_spec 0 (zlen bs)); [|lia].
  destruct (Z.leb_spec (f_offset (recv req) + zlen bs) (zlen (f_buf (recv req)))); [|lia].
  cbn [andb mbind option_bind]. do 3 f_equal. rewrite Nat2Z.id.
  transitivity (take (length bs) (rest (recv req))); [|rewrite Hr; apply take_app_length].
  unfold rest. rewrite take_take. f_equal. lia.
Qed.

Lemma reads_int n v : Z.of_nat n < 2 ^ 31 -> 0 <= v < 256 ^ Z.of_nat n ->
  reads (read_int n) (le_bytes n v) v.
Proof.
  intros Hn Hv. unfold read_int. rewrite <- (app_nil_r (le_bytes n v)).
  eapply reads_bind.
  - rewrite <- (le_bytes_length n v) at 1. apply reads_buf. by rewrite le_bytes_length.
  - rewrite le_value_bytes by done. apply reads_ret.
Qed.

Lemma reads_str s : str_ok s -> reads uk_9preq_readstr (encode_str s) s.
Proof.
  intros [Hs Hl]. unfold uk_9preq_readstr, encode_str.
  eapply reads_bind; [apply reads_int; [done|cbn; lia]|].
  intros req t Hwf Hle Hr. destruct (rest_skip _ _ _ Hwf Hle Hr) as [_ Hoff].
  destruct Hwf as (Ho & Hsz & Hlen). cbv zeta. rewrite Hs.
  rewrite (wrap_small 32) by (unfold in_u; lia).
  destruct (Z.ltb_spec (f_size (recv req)) (f_offset (recv req) + zlen (s_data s))); [lia|].
  do 3 f_equal. destruct s as [n d]. cbn in *. subst n. f_equal. rewrite Nat2Z.id.
  transitivity (take (length d) (rest (recv req))); [|rewrite Hr; apply take_app_length].
  unfold rest. rewrite take_take. f_equal. lia.
Qed.

Definition qid_ok (q : uk_9p_qid) : Prop := q_type q ∈u 8 /\ q_version q ∈u 32 /\ q_path q ∈u 64.

Lemma reads_qid q : qid_ok q -> reads uk_9preq_readqid (encode_qid q) q.
Proof.
  intros (H1 & H2 & H3). unfold uk_9preq_readqid, encode_qid.
  do 2 (eapply reads_bind; [by apply reads_int|]). rewrite <- (app_nil_r (le_bytes 8 _)).
  eapply reads_bind; [by apply reads_int|]. destruct q. apply reads_ret.
Qed.

Definition stat_ok (v : uk_9p_stat) : Prop :=
  st_size v = stat_size v /\ st_type v ∈u 16 /\ st_dev v ∈u 32 /\ qid_ok (st_qid v) /\
  st_mode v ∈u 32 /\ st_atime v ∈u 32 /\ st_mtime v ∈u 32 /\ st_length v ∈u 64 /\
  stat_strs_ok v /\ st_n_uid v ∈u 32 /\ st_n_gid v ∈u 32 /\ st_n_muid v ∈u 32.

Lemma reads_stat v : stat_ok v -> reads uk_9preq_readstat (encode_stat v) v.
Proof.
  intros (H1 & H2 & H3 & H4 & H5 & H6 & H7 & H8 & (S1 & S2 & S3 & S4 & S5) & H9 & H10 & H11).
  unfold uk_9preq_readstat, encode_stat.
  eapply reads_bind; [apply reads_int; [done|apply wrap_range; lia]|].
  do 2 (eapply reads_bind; [by apply reads_int|]).
  eapply reads_bind; [by apply reads_qid|].
  do 4 (eapply reads_bind; [by apply reads_int|]).
  do 5 (eapply reads_bind; [by apply reads_str|]).
  do 2 (eapply reads_bind; [by apply reads_int|]).
  rewrite <- (app_nil_r (le_bytes 4 (st_n_muid v))).
  eapply reads_bind; [by apply reads_int|].
  rewrite <- H1. destruct v. apply reads_ret.
Qed.

(** ** Sequences of fields

    A message body is a sequence of base types. *)

Inductive field :=
  | F8 (v : Z) | F16 (v : Z) | F32 (v : Z) | F64 (v : Z)
  | FQid (q : uk_9p_qid) | FStr (s : uk_9p_str) | FStat (v : uk_9p_stat).

Definition encode_field (f : field) : list Z :=
  match f with
  | F8 v => le_bytes 1 v | F16 v => le_bytes 2 v | F32 v => le_bytes 4 v | F64 v => le_bytes 8 v
  | FQid q => encode_qid q | FStr s => encode_str s | FStat v => encode_stat v
  end.
Definition encode (l : list field) : list Z := concat (map encode_field l).

Definition field_ok (f : field) : Prop :=
  match f with
  | F8 v => v ∈u 8 | F16 v => v ∈u 16 | F32 v => v ∈u 32 | F64 v => v ∈u 64
  | FQid q => qid_ok q | FStr s => str_ok s | FStat v => stat_ok v
  end.

Definition write_field (f : field) : io unit :=
  match f with
  | F8 v => uk_9preq_write8 v | F16 v => uk_9preq_write16 v | F32 v => uk_9preq_write32 v
  | F64 v => uk_9preq_write64 v | FQid q => uk_9preq_writeqid q
  | FStr s => uk_9preq_writestr s | FStat v => uk_9preq_writestat v
  end.
Fixpoint write_fields (l : list field) : io unit :=
  match l with [] => eret tt | f :: l' => write_field f ;! write_fields l' end.

(** Reading a value of the type of [f]. *)
Definition read_field (f : field) : io field :=
  match f with
  | F8 _ => let! v := uk_9preq_read8 in eret (F8 v)
  | F16 _ => let! v := uk_9preq_read16 in eret (F16 v)
  | F32 _ => let! v := uk_9preq_read32 in eret (F32 v)
  | F64 _ => let! v := uk_9preq_read64 in eret (F64 v)
  | FQid _ => let! q := uk_9preq_readqid in eret (FQid q)
  | FStr _ => let! s := uk_9preq_readstr in eret (FStr s)
  | FStat _ => let! v := uk_9preq_readstat in eret (FStat v)
  end.
Fixpoint read_fields (l : list field) : io (list field) :=
  match l with
  | [] => eret []
  | f :: l' => let! x := read_field f in let! xs := read_fields l' in eret (x :: xs)
  end.

Lemma writes_nil : writes (eret tt) [].
Proof.
  intros req Hwf Hle. left. unfold fits. cbn. split; [lia|]. rewrite put_nil by apply Hwf.
  by destruct req.
Qed.

Lemma writes_field f : field_ok f -> writes (write_field f) (encode_field f).
Proof.
  destruct f; cbn; intros H; auto with p9. apply writes_stat. apply H.
Qed.

Lemma writes_fields l : Forall field_ok l -> writes (write_fields l) (encode l).
Proof.
  induction 1 as [|f l Hf Hl IH]; cbn; [apply writes_nil|].
  apply writes_seq; [by apply writes_field|done].
Qed.

Lemma reads_fmap {A B} (m : io A) (g : A -> B) bs a :
  reads m bs a -> reads (let! x := m in eret (g x)) bs (g a).
Proof.
  intros H. rewrite <- (app_nil_r bs). eapply reads_bind; [exact H|apply reads_ret].
Qed.

Lemma reads_field f : field_ok f -> reads (read_field f) (encode_field f) f.
Proof.
  destruct f; cbn [field_ok read_field encode_field]; intros H;
    [apply (reads_fmap _ F8)|apply (reads_fmap _ F16)|apply (reads_fmap _ F32)
    |apply (reads_fmap _ F64)|apply (reads_fmap _ FQid)|apply (reads_fmap _ FStr)
    |apply (reads_fmap _ FStat)];
    first [by apply reads_int|by apply reads_qid|by apply reads_str|by apply reads_stat].
Qed.

Lemma reads_fields l : Forall field_ok l -> reads (read_fields l) (encode l) l.
Proof.
  induction 1 as [|f l Hf Hl IH]; cbn; [apply reads_ret|].
  eapply reads_bind; [by apply reads_field|]. by apply reads_fmap.
Qed.

(** C35: what is serialized into one request and copied into the receive buffer of another is
    deserialized to the same values, for any sequence of the protocol's base types that fits
    the buffer; a sequence that does not fit is refused with [-ENOBUFS]. *)
Theorem p9_fields_roundtrip l wreq rreq :
  Forall field_ok l -> wf_fcall (xmit wreq) -> f_offset (xmit wreq) <= f_size (xmit wreq) ->
  wf_fcall (recv rreq) -> f_offset (recv rreq) <= f_size (recv rreq) ->
  match write_fields l wreq with
  | Some (inr _, wreq') =>
      forall t, let sent := drop (Z.to_nat (f_offset (xmit wreq)))
                  (take (Z.to_nat (f_offset (xmit wreq'))) (f_buf (xmit wreq'))) in
      rest (recv rreq) = sent ++ t ->
      exists rreq', read_fields l rreq = Some (inr l, rreq') /\ rest (recv rreq') = t
  | Some (inl rc, _) => rc = - ENOBUFS /\ f_size (xmit wreq) < f_offset (xmit wreq) + zlen (encode l)
  | None => False
  end.
Proof.
  intros Hl Hw Hwo Hr Hro.
  destruct (writes_fields l Hl wreq Hw Hwo) as [[Hf ->]|[Hf (bs & _ & ->)]].
  - intros t. cbv zeta. cbn [xmit set_xmit]. unfold put. cbn [f_offset f_buf set_offset set_buf].
    destruct Hw as (Ho & Hs & _). unfold fits in Hf.
    assert (Ht : length (take (Z.to_nat (f_offset (xmit wreq))) (f_buf (xmit wreq))) =
      Z.to_nat (f_offset (xmit wreq))) by (rewrite length_take; lia).
    rewrite app_assoc, take_app_length' by (rewrite length_app; lia).
    rewrite drop_app_length' by done.
    intros Hrest. rewrite (reads_fields l Hl rreq t Hr Hro Hrest). eexists. split; [done|].
    cbn [recv set_recv]. by apply (rest_skip _ _ _ Hr Hro).
  - split; [done|]. unfold fits in Hf. lia.
Qed.

(** A request with room for [n] bytes, whose receive side holds [l]. *)
Definition sample_req (n : Z) (l : list Z) : uk_9preq :=
  Req (Fcall n 0 7 (replicate (Z.to_nat n) 0) None 0 0) (Fcall (zlen l) 0 0 l None 0 0)
    UK_9PREQ_INITIALIZED 0 1 true.
Definition sample_fields : list field :=
  [F8 7; F64 (2 ^ 64 - 1); FStr (Str 2 [104; 105]); FQid (Qid 128 1 77)].

Lemma p9_fields_roundtrip_witness : exists rreq',
  read_fields sample_fields (sample_req 64 (encode sample_fields)) = Some (inr sample_fields, rreq') /\
  rest (recv rreq') = [].
Proof.
  assert (H := p9_fields_roundtrip sample_fields (sample_req 64 [])
    (sample_req 64 (encode sample_fields))).
  destruct (write_fields sample_fields (sample_req 64 [])) as [[[rc|[]] wreq']|] eqn:E;
    [by vm_compute in E| |by vm_compute in E].
  apply H.
  - repeat constructor; by vm_compute.
  - by vm_compute.
  - by vm_compute.
  - by vm_compute.
  - by vm_compute.
  - vm_compute in E. injection E as <-. by vm_compute.
Defined.

(** ** Messages *)

(** What the transport sends for a request. *)
Definition message (req : uk_9preq) : list Z :=
  take (Z.to_nat (f_size (xmit req))) (f_buf (xmit req)) ++
  match f_zc_buf (xmit req) with
  | Some b => take (Z.to_nat (f_zc_size (xmit req))) b
  | None => []
  end.

Definition header (size type t : Z) : list Z := le_bytes 4 size ++ le_bytes 1 type ++ le_bytes 2 t.

Lemma header_length size type t : length (header size type t) = 7%nat.
Proof. unfold header. by rewrite !length_app, !le_bytes_length. Qed.

(** A request whose body was written: the header comes first, then [body]. *)
Definition prepared (req : uk_9preq) (body : list Z) : Prop :=
  state req = UK_9PREQ_INITIALIZED /\ wf_fcall (xmit req) /\
  f_offset (xmit req) = 7 + zlen body /\ f_offset (xmit req) <= f_size (xmit req) /\
  f_zc_buf (xmit req) = None /\
  drop 7 (take (Z.to_nat (f_offset (xmit req))) (f_buf (xmit req))) = body.

Lemma header_write req :
  wf_fcall (xmit req) -> 7 <= f_size (xmit req) -> f_offset (xmit req) = 0 ->
  forall size type t, (uk_9preq_write32 size ;! uk_9preq_write8 type ;! uk_9preq_write16 t) req =
    Some (inr tt, set_xmit req (put (xmit req) (header size type t))).
Proof.
  intros Hwf H7 H0 size type t.
  destruct (writes_seq (uk_9preq_write32 size) (le_bytes 4 size)
    (uk_9preq_write8 type ;! uk_9preq_write16 t) (le_bytes 1 type ++ le_bytes 2 t)
    ltac:(auto with p9) ltac:(apply writes_seq; auto with p9) req Hwf ltac:(lia))
    as [[_ H]|[H _]]; [exact H|].
  exfalso. apply H. unfold fits. pose proof (header_length size type t) as Hl.
  unfold header in Hl. rewrite Hl, H0. lia.
Qed.

(** The request after [uk_9preq_ready]: the header is in front of the body. *)
Definition readied (req : uk_9preq) (zc_dir : uk_9preq_zcdir) (zc_buf : option (list Z))
    (zc_size zc_offset : Z) : uk_9preq :=
  let x := xmit req in
  let total := f_offset x in
  let x1 := set_size (set_offset (put (set_offset x 0) (header
              (match zc_dir with UK_9PREQ_ZCDIR_WRITE => u32 (total + zc_size) | _ => total end)
              (f_type x) (tag req))) 0) total in
  let x2 := match zc_dir with
            | UK_9PREQ_ZCDIR_WRITE => set_zc x1 zc_buf zc_size total | _ => x1 end in
  let r2 := match zc_dir with
            | UK_9PREQ_ZCDIR_READ => set_size (set_zc (recv req) zc_buf zc_size zc_offset) zc_offset
            | _ => recv req end in
  Req x2 r2 UK_9PREQ_READY (tag req) (refcount req) (dev req).

Lemma ebind_seq3 {S A B} (m1 m2 m3 : EM S A) (k : EM S B) s a s' :
  (m1 ;! m2 ;! m3) s = Some (inr a, s') -> (m1 ;! m2 ;! m3 ;! k) s = k s'.
Proof.
  unfold ebind. destruct (m1 s) as [[[rc|a1] s1]|]; cbn; try done.
  destruct (m2 s1) as [[[rc|a2] s2]|]; cbn; try done.
  destruct (m3 s2) as [[[rc|a3] s3]|]; cbn; try done. by intros [= -> ->].
Qed.

Lemma ready_spec req body zc_dir zc_buf zc_size zc_offset :
  prepared req body ->
  uk_9preq_ready zc_dir zc_buf zc_size zc_offset req =
    Some (inr tt, readied req zc_dir zc_buf zc_size zc_offset) /\
  message (readied req zc_dir zc_buf zc_size zc_offset) =
    match zc_dir with
    | UK_9PREQ_ZCDIR_WRITE =>
        header (u32 (7 + zlen body + zc_size)) (f_type (xmit req)) (tag req) ++ body ++
        match zc_buf with Some b => take (Z.to_nat zc_size) b | None => [] end
    | _ => header (7 + zlen body) (f_type (xmit req)) (tag req) ++ body
    end.
Proof.
  intros (Hst & Hwf & Hoff & Hfit & Hzc & Hbody). split.
  - unfold uk_9preq_ready. rewrite (ebind_ok current _ req req req) by done.
    rewrite bool_decide_eq_true_2 by done. cbn [negb].
    set (req0 := set_xmit req (set_offset (xmit req) 0)).
    rewrite (ebind_ok (update_xmit (fun x => set_offset x 0)) _ req tt req0) by done.
    erewrite ebind_seq3; [|apply header_write; [split; [cbn; lia|apply Hwf]|cbn; lia|done]].
    by destruct zc_dir.
  - assert (Hbuf : forall h, length h = 7%nat ->
      take (Z.to_nat (f_offset (xmit req))) (f_buf (put (set_offset (xmit req) 0) h)) = h ++ body).
    { intros h Hh. unfold put. cbn [f_buf set_offset set_buf f_offset].
      change (Z.to_nat 0) with 0%nat. rewrite take_0, app_nil_l, Nat.add_0_l, Hh.
      rewrite take_app_ge by lia. f_equal. by rewrite <- Hbody, skipn_firstn_comm, Hh. }
    unfold message, readied. destruct zc_dir; cbn [xmit f_size f_zc_buf f_buf f_zc_size set_size
      set_offset set_zc set_buf put]; cbn [f_zc_buf];
      try (rewrite Hzc); change (f_buf (set_offset (put ?a ?b) 0)) with (f_buf (put a b));
      rewrite ?app_nil_r, ?app_assoc; f_equal; rewrite <- Hoff; apply Hbuf, header_length.
Qed.

(** ** Replies *)

(** The receive side of a request that was sent, with the reply [bs] in its buffer. *)
Definition arrived (req : uk_9preq) (bs : list Z) : Prop :=
  state req = UK_9PREQ_SENT /\ zlen (f_buf (recv req)) < 2 ^ 31 /\
  exists t, f_buf (recv req) = bs ++ t.

Lemma receive_spec req ty body (bs := header (7 + zlen body) ty (tag req) ++ body) :
  arrived req bs -> ty ∈u 8 -> tag req ∈u 16 ->
  uk_9preq_receive_cb (zlen bs) req = Some (inr tt,
    let x := recv req in
    let sz := if bool_decide (is_Some (f_zc_buf x)) && negb (ty =? UK_9P_RERROR)
              then f_zc_offset x else zlen bs in
    set_state (set_recv req (set_size (set_type (set_offset x 7) ty) sz)) UK_9PREQ_RECEIVED).
Proof.
  intros (Hst & Hlen & t & Hbuf) Hty Htag.
  assert (Hbl : zlen bs = 7 + zlen body).
  { unfold bs. rewrite length_app, header_length. lia. }
  assert (Ebs : bs = header (zlen bs) ty (tag req) ++ body) by (by rewrite Hbl).
  clearbody bs.
  assert (Hin : zlen bs <= zlen (f_buf (recv req))) by (rewrite Hbuf, length_app; lia).
  unfold uk_9preq_receive_cb. rewrite (ebind_ok current _ req req req) by done.
  rewrite bool_decide_eq_true_2 by done. cbn [negb].
  unfold UK_9P_HEADER_SIZE. destruct (Z.ltb_spec (zlen bs) 7); [lia|].
  set (req0 := set_recv req (set_size (set_offset (recv req) 0) (zlen bs))).
  rewrite (ebind_ok (update_recv _) _ req tt req0) by done.
  assert (Hr0 : rest (recv req0) = le_bytes 4 (zlen bs) ++ le_bytes 1 ty ++ le_bytes 2 (tag req)
                  ++ body).
  { unfold rest, req0. cbn [recv set_recv set_size set_offset f_size f_offset f_buf].
    rewrite Z.sub_0_r, Nat2Z.id. change (Z.to_nat 0) with 0%nat.
    rewrite drop_0, Hbuf, take_app_length.
    rewrite Ebs at 1. unfold header. by rewrite <- !app_assoc. }
  assert (W0 : wf_fcall (recv req0)) by (unfold wf_fcall, req0; cbn; lia).
  assert (L0 : f_offset (recv req0) <= f_size (recv req0)) by (unfold req0; cbn; lia).
  rewrite (ebind_ok _ _ _ _ _ (reads_int 4 (zlen bs) ltac:(done) ltac:(cbn; lia) req0 _ W0 L0 Hr0)).
  set (req1 := set_recv req0 (skip (recv req0) (zlen (le_bytes 4 (zlen bs))))).
  destruct (rest_skip _ _ _ W0 L0 Hr0) as [Hr1 L1].
  assert (W1 : wf_fcall (recv req1)) by (apply skip_wf; [lia|done]).
  rewrite (ebind_ok _ _ _ _ _ (reads_int 1 ty ltac:(done) Hty req1 _ W1 L1 Hr1)).
  set (req2 := set_recv req1 (skip (recv req1) (zlen (le_bytes 1 ty)))).
  destruct (rest_skip _ _ _ W1 L1 Hr1) as [Hr2 L2].
  set (req3 := set_recv req2 (set_type (recv req2) ty)).
  rewrite (ebind_ok (update_recv _) _ req2 tt req3) by done.
  assert (W3 : wf_fcall (recv req3)) by (apply (skip_wf (recv req1)); [lia|done]).
  rewrite (ebind_ok _ _ _ _ _ (reads_int 2 (tag req) ltac:(done) Htag req3 _ W3 L2 Hr2)).
  rewrite Z.ltb_irrefl, Z.eqb_refl. cbn [negb]. unfold ebind, update_recv, update_state.
  cbn [mbind option_bind]. do 2 f_equal. unfold req3, req2, req1, req0, skip. cbn.
  destruct (f_zc_buf (recv req)) eqn:E; cbn.
  - by destruct (ty =? UK_9P_RERROR).
  - done.
Qed.

(** The error a reply carries: the server's code where it is one, [-EIO] otherwise. *)
Definition rerror_code (e : Z) : Z := if (e =? 0) || (512 <=? e) then - EIO else - e.

Lemma error_none req :
  state req = UK_9PREQ_RECEIVED -> f_type (recv req) <> UK_9P_RERROR ->
  uk_9preq_waitreply req = Some (inr tt, req).
Proof.
  intros Hst Hty. unfold uk_9preq_waitreply, uk_9preq_error.
  rewrite bool_decide_eq_true_2 by done. rewrite (ebind_ok current _ req req req) by done.
  rewrite bool_decide_eq_true_2 by done. by rewrite (proj2 (Z.eqb_neq _ _) Hty).
Qed.

Lemma error_some req ename e t :
  state req = UK_9PREQ_RECEIVED -> f_type (recv req) = UK_9P_RERROR -> wf_fcall (recv req) ->
  f_offset (recv req) = 7 -> 7 <= f_size (recv req) -> str_ok ename -> e ∈u 32 ->
  rest (recv req) = encode_str ename ++ le_bytes 4 e ++ t ->
  exists x, uk_9preq_waitreply req = Some (inl (rerror_code e), set_recv req x).
Proof.
  intros Hst Hty Hwf Hoff Hsz Hs He Hrest. unfold uk_9preq_waitreply, uk_9preq_error.
  rewrite bool_decide_eq_true_2 by done. rewrite (ebind_ok current _ req req req) by done.
  rewrite bool_decide_eq_true_2 by done. rewrite Hty, Z.eqb_refl, Hoff, Z.eqb_refl. cbn [negb].
  assert (L : f_offset (recv req) <= f_size (recv req)) by lia.
  rewrite (ebind_ok _ _ _ _ _ (reads_str ename Hs req _ Hwf L Hrest)).
  destruct (rest_skip _ _ _ Hwf L Hrest) as [Hr1 L1].
  rewrite (ebind_ok _ _ _ _ _ (reads_int 4 e ltac:(done) He
    (set_recv req (skip (recv req) (zlen (encode_str ename)))) _
    (skip_wf _ (zlen (encode_str ename)) ltac:(lia) Hwf) L1 Hr1)).
  unfold rerror_code. destruct ((e =? 0) || (512 <=? e)); by eexists.
Qed.

End P9.
