(* ===== verification/P9Dev.v ===== *)
(** * P9Dev: requests, tags and fids of a 9P device

    Models [lib/uk9p/9pdev.c] and [lib/uk9p/9pfid.c] with [include/uk/refcount.h]: which requests
    are outstanding, which tags they have, what is on the free lists, and the reference counts
    that decide when a request may be used again.  Requests and fids are objects on a heap,
    named by their addresses; the kernel's linked lists are lists of addresses (new entries go
    in front).  [calloc] returns the addresses of [d_supply] in turn, 0 or no address left being
    a failure.  The spinlock makes each function one step. *)
From Stdlib Require Import ZArith Lia Bool.
From stdpp Require Import gmap.
From S2P Require Import Prelude ErrMonad Bitmap P9Req.
Open Scope Z_scope.

Module P9Dev.
Import P9 Bitmap.

Definition ENOMEM : Z := 12.
Definition EINVAL : Z := 22.
Definition UK_9P_TVERSION : Z := 100.
Definition UK_9P_NOTAG : Z := 0xFFFF.
Definition UK_9P_NUMTAGS : Z := 0xFFFF + 1.

(** ** Reference counts *)

(** [incw] and [decw] change the low sixteen bits of the 32-bit counter. *)
Definition uk_refcount_acquire (c : Z) : Z := Z.lor (Z.ldiff c 0xFFFF) (u16 (c + 1)).
Definition uk_refcount_release (c : Z) : bool * Z :=
  (c <=? 1, Z.lor (Z.ldiff c 0xFFFF) (u16 (c - 1))).

(** ** The device *)

Inductive uk_9pdev_trans_state := UK_9PDEV_CONNECTED | UK_9PDEV_DISCONNECTING.

Record uk_9pfid := Fid {
  fid : Z; fqid : uk_9p_qid; iounit : Z; was_removed : bool; frefcount : Z
}.

Record uk_9pdev := Dev {
  d_state : uk_9pdev_trans_state;
  msize : Z;
  max_msize : Z;
  tag_bm : list Z;
  req_list : list Z;
  req_free_list : list Z;
  reqs : gmap Z uk_9preq;
  next_fid : Z;
  fid_free_list : list Z;
  fid_active_list : list Z;
  fids : gmap Z uk_9pfid;
  d_supply : list Z
}.

Definition set_mgmt (d : uk_9pdev) bm l fl rs : uk_9pdev :=
  Dev (d_state d) (msize d) (max_msize d) bm l fl rs (next_fid d) (fid_free_list d)
      (fid_active_list d) (fids d) (d_supply d).
Definition set_fid_mgmt (d : uk_9pdev) n fl al fs : uk_9pdev :=
  Dev (d_state d) (msize d) (max_msize d) (tag_bm d) (req_list d) (req_free_list d) (reqs d)
      n fl al fs (d_supply d).
Definition set_supply (d : uk_9pdev) s : uk_9pdev :=
  Dev (d_state d) (msize d) (max_msize d) (tag_bm d) (req_list d) (req_free_list d) (reqs d)
      (next_fid d) (fid_free_list d) (fid_active_list d) (fids d) s.
Definition set_reqs (d : uk_9pdev) rs : uk_9pdev :=
  set_mgmt d (tag_bm d) (req_list d) (req_free_list d) rs.
Definition set_fids (d : uk_9pdev) fs : uk_9pdev :=
  set_fid_mgmt d (next_fid d) (fid_free_list d) (fid_active_list d) fs.

Abbreviation dm := (EM uk_9pdev).

Definition uk_calloc : dm Z := fun d =>
  match d_supply d with
  | [] => Some (inl (- ENOMEM), d)
  | p :: s => Some (if p =? 0 then inl (- ENOMEM) else inr p, set_supply d s)
  end.

(** [uk_list_del] *)
Definition list_del (p : Z) (l : list Z) : list Z := filter (fun q => q <> p) l.

(** Memory that [calloc] zeroed. *)
Definition zero_fcall : uk_9preq_fcall :=
  Fcall 0 0 0 (replicate (Z.to_nat UK_9P_BUFSIZE) 0) None 0 0.
Definition zero_req : uk_9preq := Req zero_fcall zero_fcall UK_9PREQ_NONE 0 0 true.

Definition _req_mgmt_init : list Z := replicate (Z.to_nat (UK_BITS_TO_LONGS UK_9P_NUMTAGS)) 0.

Definition _req_mgmt_add_req_locked (p : Z) (d : uk_9pdev) : option uk_9pdev :=
  r ← reqs d !! p;
  bm ← uk_bitmap_set (tag_bm d) (tag r) 1;
  Some (set_mgmt d bm (p :: req_list d) (req_free_list d) (reqs d)).

Definition _req_mgmt_del_req_locked (p : Z) (d : uk_9pdev) : option uk_9pdev :=
  r ← reqs d !! p;
  bm ← uk_bitmap_clear (tag_bm d) (tag r) 1;
  Some (set_mgmt d bm (list_del p (req_list d)) (req_free_list d) (reqs d)).

Definition _req_mgmt_req_to_freelist_locked (p : Z) (d : uk_9pdev) : uk_9pdev :=
  set_mgmt d (tag_bm d) (req_list d) (p :: req_free_list d) (reqs d).

(** The tag is a [uint16_t]. *)
Definition _req_mgmt_next_tag_locked (d : uk_9pdev) : option Z :=
  t ← uk_find_next_zero_bit (tag_bm d) UK_9P_NUMTAGS 0; Some (u16 t).

(** The object a request starts from: the head of the free list, or new memory. *)
Definition _req_mgmt_from_freelist_locked : dm Z := fun d =>
  match req_free_list d with
  | p :: fl => Some (inr p, set_mgmt d (tag_bm d) (req_list d) fl (reqs d))
  | [] =>
      '(r, d) ← uk_calloc d;
      match r with
      | inl rc => Some (inl rc, d)
      | inr p => Some (inr p, set_reqs d (<[p := zero_req]> (reqs d)))
      end
  end.

Definition uk_9pdev_req_create (type : Z) : dm Z :=
  let! p := _req_mgmt_from_freelist_locked in
  fun d =>
    r ← reqs d !! p;
    let r := uk_9preq_init r in
    if negb (dev r) then None
    else
      let x := set_size (xmit r) (Z.min (f_size (xmit r)) (msize d)) in
      let y := set_size (recv r) (Z.min (f_size (recv r)) (msize d)) in
      t ← (if type =? UK_9P_TVERSION then Some UK_9P_NOTAG else _req_mgmt_next_tag_locked d);
      let r := Req (set_type x type) y (state r) t (refcount r) (dev r) in
      d ← _req_mgmt_add_req_locked p (set_reqs d (<[p := r]> (reqs d)));
      Some (inr p, set_reqs d (<[p := set_state r UK_9PREQ_INITIALIZED]> (reqs d))).

Definition uk_9preq_get (p : Z) (d : uk_9pdev) : option uk_9pdev :=
  r ← reqs d !! p;
  Some (set_reqs d (<[p := set_refcount r (uk_refcount_acquire (refcount r))]> (reqs d))).

Definition uk_9pdev_req_to_freelist (p : Z) (d : uk_9pdev) : uk_9pdev :=
  _req_mgmt_req_to_freelist_locked p d.

Definition uk_9preq_put (p : Z) (d : uk_9pdev) : option (bool * uk_9pdev) :=
  r ← reqs d !! p;
  let '(last, c) := uk_refcount_release (refcount r) in
  let d := set_reqs d (<[p := set_refcount r c]> (reqs d)) in
  Some (last, if last && dev r then uk_9pdev_req_to_freelist p d else d).

(** The first listed request with the tag. *)
Fixpoint find_tag (rs : gmap Z uk_9preq) (t : Z) (l : list Z) : option (option Z) :=
  match l with
  | [] => Some None
  | p :: l' => r ← rs !! p; if negb (t =? tag r) then find_tag rs t l' else Some (Some p)
  end.

Definition uk_9pdev_req_lookup (t : Z) : dm Z := fun d =>
  o ← find_tag (reqs d) t (req_list d);
  match o with
  | None => Some (inl (- EINVAL), d)
  | Some p => d ← uk_9preq_get p d; Some (inr p, d)
  end.

Definition uk_9pdev_req_remove (p : Z) (d : uk_9pdev) : option (bool * uk_9pdev) :=
  d ← _req_mgmt_del_req_locked p d; uk_9preq_put p d.

(** ** Fids *)

Definition zero_fid : uk_9pfid := Fid 0 (Qid 0 0 0) 0 false 0.

Definition _fid_mgmt_next_fid_locked : dm Z := fun d =>
  let take p d :=
    f ← fids d !! p;
    Some (inr p, set_fids d (<[p := Fid (fid f) (fqid f) (iounit f) false 1]> (fids d))) in
  match fid_free_list d with
  | p :: fl => take p (set_fid_mgmt d (next_fid d) fl (fid_active_list d) (fids d))
  | [] =>
      '(r, d) ← uk_calloc d;
      match r with
      | inl rc => Some (inl rc, d)
      | inr p =>
          let f := Fid (next_fid d) (fqid zero_fid) (iounit zero_fid) (was_removed zero_fid)
                     (frefcount zero_fid) in
          take p (set_fid_mgmt d (u32 (next_fid d + 1)) (fid_free_list d) (fid_active_list d)
                    (<[p := f]> (fids d)))
      end
  end.

Definition uk_9pdev_fid_create : dm Z :=
  let! p := _fid_mgmt_next_fid_locked in
  fun d => Some (inr p, set_fid_mgmt d (next_fid d) (fid_free_list d) (p :: fid_active_list d)
                          (fids d)).

(** Without the free list the memory is given back. *)
Definition _fid_mgmt_del_fid_locked (p : Z) (move_to_freelist : bool) (d : uk_9pdev) : uk_9pdev :=
  if move_to_freelist
  then set_fid_mgmt d (next_fid d) (p :: fid_free_list d) (list_del p (fid_active_list d)) (fids d)
  else set_fid_mgmt d (next_fid d) (fid_free_list d) (list_del p (fid_active_list d))
         (delete p (fids d)).

Definition uk_9pdev_set_msize (m : Z) (d : uk_9pdev) : bool * uk_9pdev :=
  if max_msize d <? m then (false, d)
  else (true, Dev (d_state d) m (max_msize d) (tag_bm d) (req_list d) (req_free_list d) (reqs d)
                (next_fid d) (fid_free_list d) (fid_active_list d) (fids d) (d_supply d)).

(** [uk_9pdev_connect]: [rc] and [m] are the result of the transport's [connect] and the message
    size it sets. *)
Definition uk_9pdev_connect (rc m : Z) (supply : list Z) : option (Z + uk_9pdev) :=
  match supply with
  | [] => Some (inl (- ENOMEM))
  | p :: supply' =>
      if p =? 0 then Some (inl (- ENOMEM))
      else if rc <? 0 then Some (inl rc)
      else if m =? 0 then None
      else Some (inr (Dev UK_9PDEV_CONNECTED m m _req_mgmt_init [] [] ∅ 0 [] [] ∅ supply'))
  end.

(** The fids must have been clunked; the free ones are given back. *)
Definition _fid_mgmt_cleanup (d : uk_9pdev) : option uk_9pdev :=
  match fid_active_list d with
  | _ :: _ => None
  | [] => Some (set_fid_mgmt d (next_fid d) [] [] (foldr delete (fids d) (fid_free_list d)))
  end.

Fixpoint cleanup_loop (l : list Z) (d : uk_9pdev) : option uk_9pdev :=
  match l with
  | [] => Some d
  | p :: l' =>
      d ← _req_mgmt_del_req_locked p d;
      '(last, d) ← uk_9preq_put p d;
      r ← reqs d !! p;
      let r' := Req (xmit r) (recv r) (state r) (tag r) (refcount r) false in
      cleanup_loop l' (if (last : bool) then d else set_reqs d (<[p := r']> (reqs d)))
  end.

Definition _req_mgmt_cleanup (d : uk_9pdev) : option uk_9pdev :=
  d ← cleanup_loop (req_list d) d;
  Some (set_mgmt d (tag_bm d) (req_list d) [] (foldr delete (reqs d) (req_free_list d))).

(** What is left of the device when it is freed, and the result of the transport. *)
Definition uk_9pdev_disconnect (rc : Z) (d : uk_9pdev) : option (Z * uk_9pdev) :=
  match d_state d with
  | UK_9PDEV_DISCONNECTING => None
  | UK_9PDEV_CONNECTED =>
      let d := Dev UK_9PDEV_DISCONNECTING (msize d) (max_msize d) (tag_bm d) (req_list d)
                 (req_free_list d) (reqs d) (next_fid d) (fid_free_list d) (fid_active_list d)
                 (fids d) (d_supply d) in
      d ← _fid_mgmt_cleanup d;
      d ← _req_mgmt_cleanup d;
      Some (rc, d)
  end.

(** ** The invariant

    [ext p] is the number of references to the request [p] other than the one of the list of
    outstanding requests. *)

Definition listed (d : uk_9pdev) (t : Z) : Prop :=
  exists p r, p ∈ req_list d /\ reqs d !! p = Some r /\ tag r = t.

Definition bufs_ok (r : uk_9preq) : Prop :=
  zlen (f_buf (xmit r)) = UK_9P_BUFSIZE /\ zlen (f_buf (recv r)) = UK_9P_BUFSIZE.

(** [hole] is the request that is being taken into use, which is on no list yet. *)
Record invh (hole : option Z) (d : uk_9pdev) (ext : Z -> Z) : Prop := Inv {
  i_words : words_ok (tag_bm d);
  i_len : zlen (tag_bm d) = 1024;
  i_nodup : NoDup (req_list d ++ req_free_list d);
  i_dom : forall p, p ∈ req_list d ++ req_free_list d -> is_Some (reqs d !! p);
  i_tags : forall p r, p ∈ req_list d -> reqs d !! p = Some r -> 0 <= tag r <= UK_9P_NOTAG;
  i_uniq : forall p q r s, p ∈ req_list d -> q ∈ req_list d -> reqs d !! p = Some r ->
    reqs d !! q = Some s -> tag r = tag s -> tag r <> UK_9P_NOTAG -> p = q;
  i_bits : forall t, 0 <= t < UK_9P_NOTAG -> (bit (tag_bm d) t = true <-> listed d t);
  i_obj : forall p r, reqs d !! p = Some r -> dev r = true /\ bufs_ok r;
  i_ref : forall p r, reqs d !! p = Some r -> p ∉ req_free_list d -> hole <> Some p ->
    refcount r = (if decide (p ∈ req_list d) then 1 else 0) + ext p /\ 1 <= refcount r < 2 ^ 16;
  i_ext : forall p, 0 <= ext p /\ (ext p <> 0 -> is_Some (reqs d !! p));
  i_free : forall p, p ∈ req_free_list d -> ext p = 0;
  i_supply : forall p, p ∈ d_supply d -> p <> 0 -> reqs d !! p = None;
  i_supply_nodup : NoDup (filter (fun p => p <> 0) (d_supply d));
  i_hole : forall p, hole = Some p ->
    (p ∉ req_list d ++ req_free_list d) /\ is_Some (reqs d !! p) /\ ext p = 0
}.
Abbreviation inv := (invh None).

Lemma acquire_small c : 0 <= c < 2 ^ 16 - 1 -> uk_refcount_acquire c = c + 1.
Proof.
  intros Hc. unfold uk_refcount_acquire. change 0xFFFF with (Z.ones 16).
  rewrite Z.ldiff_ones_r, Z.shiftr_div_pow2, Z.div_small, Z.shiftl_0_l, Z.lor_0_l by lia.
  apply wrap_small. unfold in_u. lia.
Qed.

Lemma release_small c : 1 <= c < 2 ^ 16 -> uk_refcount_release c = (c <=? 1, c - 1).
Proof.
  intros Hc. unfold uk_refcount_release. change 0xFFFF with (Z.ones 16).
  rewrite Z.ldiff_ones_r, Z.shiftr_div_pow2, Z.div_small, Z.shiftl_0_l, Z.lor_0_l by lia.
  f_equal. apply wrap_small. unfold in_u. lia.
Qed.

Lemma elem_of_list_del p q l : q ∈ list_del p l <-> q <> p /\ q ∈ l.
Proof. unfold list_del. rewrite list_elem_of_filter. done. Qed.

(** Whether there is an object for a new request. *)
Definition can_alloc (d : uk_9pdev) : bool :=
  match req_free_list d, d_supply d with
  | _ :: _, _ => true
  | [], p :: _ => negb (p =? 0)
  | [], [] => false
  end.

(** Taking an object for a new request leaves it on no list. *)
Lemma from_freelist_spec d ext :
  inv d ext ->
  (exists d', _req_mgmt_from_freelist_locked d = Some (inl (- ENOMEM), d') /\ inv d' ext /\
     req_list d' = req_list d /\ reqs d' = reqs d /\ can_alloc d = false) \/
  (exists p d', _req_mgmt_from_freelist_locked d = Some (inr p, d') /\ invh (Some p) d' ext /\
     req_list d' = req_list d /\ tag_bm d' = tag_bm d /\ msize d' = msize d /\
     d_state d' = d_state d /\ fids d' = fids d /\
     forall q, q <> p -> reqs d' !! q = reqs d !! q).
Proof.
  intros [W L N D T U B O R E F S SN H]. unfold _req_mgmt_from_freelist_locked.
  destruct (req_free_list d) as [|p fl] eqn:Efl.
  - unfold uk_calloc. destruct (d_supply d) as [|p sup] eqn:Esup.
    { left. eexists. split; [done|]. split; [constructor; rewrite ?Efl, ?Esup; done|].
      unfold can_alloc. by rewrite Efl, Esup. }
    cbn [mbind option_bind]. destruct (Z.eqb_spec p 0) as [->|Hp].
    { left. eexists. split; [done|]. unfold can_alloc. rewrite Efl, Esup. split; [|done].
      constructor; cbn; rewrite ?Efl; try done.
      intros q Hq. apply S. by apply list_elem_of_further. }
    right. assert (Hfresh : reqs d !! p = None) by (apply S; [apply list_elem_of_here|done]).
    assert (Hnl : p ∉ req_list d).
    { intros Hin. destruct (D p) as [r Hr]; [by rewrite app_nil_r|]. congruence. }
    rewrite filter_cons_True in SN by done. apply NoDup_cons in SN as [SN1 SN2].
    exists p. eexists. split; [done|]. split; [|repeat split; try done].
    2: { intros q Hq. cbn. by rewrite lookup_insert_ne. }
    assert (Hlk : forall q, q ∈ req_list d -> <[p := zero_req]> (reqs d) !! q = reqs d !! q).
    { intros q Hq. apply lookup_insert_ne. by intros ->. }
    constructor; cbn; rewrite ?Efl; try done.
    + intros q Hq. rewrite Hlk by (by rewrite app_nil_r in Hq). by apply D.
    + intros q r Hq. rewrite Hlk by done. by apply T.
    + intros q q' r r' Hq Hq'. rewrite !Hlk by done. by apply U.
    + intros t Ht. rewrite B by done. split; intros (q & r & H1 & H2 & H3); exists q, r;
        (split; [done|split; [|done]]); cbn in *; first [by rewrite Hlk|by rewrite Hlk in H2].
    + intros q r. destruct (decide (q = p)) as [->|Hne].
      * rewrite lookup_insert_eq. intros [= <-]. by split; [|split].
      * rewrite lookup_insert_ne by done. by apply O.
    + intros q r. destruct (decide (q = p)) as [->|Hne]; [done|].
      rewrite lookup_insert_ne by done. intros Hr Hq _. apply R; [done| |done].
      by apply not_elem_of_nil.
    + intros q. destruct (E q) as [E1 E2]. split; [done|]. intros Hq. apply E2 in Hq as [r Hr].
      destruct (decide (q = p)) as [->|Hne]; [congruence|]. rewrite lookup_insert_ne by done.
      by eexists.
    + intros q Hq Hq0. destruct (decide (q = p)) as [->|Hne].
      * exfalso. apply SN1. apply list_elem_of_filter. done.
      * rewrite lookup_insert_ne by done. apply S; [by apply list_elem_of_further|done].
    + intros q [= <-]. rewrite lookup_insert_eq, app_nil_r. split; [done|]. split; [by eexists|].
      destruct (E p) as [E1 E2]. destruct (Z.eq_dec (ext p) 0) as [|Hx]; [done|].
      apply E2 in Hx as [r Hr]. congruence.
  - right. exists p. eexists. split; [done|]. split; [|done].
    assert (N' := N). rewrite NoDup_app in N. destruct N as (N1 & N2 & N3).
    apply NoDup_cons in N3 as [N3 N4].
    assert (Hpl : p ∉ req_list d) by (intros Hin; apply (N2 p Hin), list_elem_of_here).
    constructor; cbn; try done.
    + apply NoDup_app. split; [done|]. split; [|done]. intros q Hq Hq'. apply (N2 q Hq).
      by apply list_elem_of_further.
    + intros q Hq. apply D. apply elem_of_app in Hq as [Hq|Hq];
        apply elem_of_app; [by left|right; by apply list_elem_of_further].
    + intros q r Hr Hq Hne. apply R; [done| |done]. rewrite elem_of_cons.
      intros [->|Hin]; [by apply Hne|done].
    + intros q Hq. apply F. by apply list_elem_of_further.
    + intros q [= <-]. split; [rewrite elem_of_app; tauto|].
      split; [apply D, elem_of_app; right; apply list_elem_of_here|].
      apply F, list_elem_of_here.
Qed.

(** ** Tags *)

(** With fewer than 65535 requests outstanding a tag below [UK_9P_NOTAG] is free. *)
Lemma free_tag d hole ext :
  invh hole d ext -> zlen (req_list d) < UK_9P_NOTAG ->
  exists t, 0 <= t < UK_9P_NOTAG /\ bit (tag_bm d) t = false.
Proof.
  intros I Hlen.
  destruct (decide (Exists (fun t => bit (tag_bm d) t = false) (seqZ 0 UK_9P_NOTAG))) as [HE|HE].
  { apply Exists_exists in HE as (t & Ht & Hb). apply elem_of_seqZ in Ht.
    exists t. split; [lia|done]. }
  exfalso. assert (Hsub : incl (seqZ 0 UK_9P_NOTAG)
    (map (fun p => match reqs d !! p with Some r => tag r | None => 0 end) (req_list d))).
  { intros t Ht. apply list_elem_of_In, elem_of_seqZ in Ht.
    destruct (bit (tag_bm d) t) eqn:Hb.
    - apply (i_bits _ _ _ I) in Hb as (p & r & Hp & Hr & Ht'); [|lia].
      apply in_map_iff. exists p. rewrite Hr. split; [done|by apply list_elem_of_In].
    - exfalso. apply HE, Exists_exists. exists t. split; [apply elem_of_seqZ; lia|done]. }
  apply NoDup_incl_length in Hsub; [|apply NoDup_ListNoDup, NoDup_seqZ].
  rewrite length_map, length_seqZ in Hsub. lia.
Qed.

Lemma next_tag_spec d hole ext :
  invh hole d ext -> zlen (req_list d) < UK_9P_NOTAG ->
  exists t, _req_mgmt_next_tag_locked d = Some t /\ 0 <= t < UK_9P_NOTAG /\
    bit (tag_bm d) t = false.
Proof.
  intros I Hlen. destruct (free_tag d hole ext I Hlen) as (t0 & Ht0 & Hb0).
  unfold _req_mgmt_next_tag_locked, uk_find_next_zero_bit, UK_9P_NUMTAGS, UK_9P_NOTAG in *.
  destruct (find_zero_spec (tag_bm d) (0xFFFF + 1) 0 (i_words _ _ _ I)) as (t & Ht & Hs);
    [lia|rewrite (i_len _ _ _ I); lia|]. rewrite Ht. cbn in Hs |- *.
  destruct Hs as [(H1 & H2 & H3) _].
  assert (t <= t0). { destruct (Z.le_gt_cases t t0); [done|].
    specialize (H2 t0 ltac:(lia) ltac:(lia)). by rewrite Hb0 in H2. }
  exists t. rewrite wrap_small by (unfold in_u; lia). split; [done|]. split; [lia|].
  apply negb_true_iff, H3. lia.
Qed.

(** ** Operations keep the invariant *)

(** Changing a request and [k] of its references. *)
Lemma invh_change hole d ext ext' p r r' k :
  invh hole d ext -> reqs d !! p = Some r -> tag r' = tag r -> dev r' = dev r ->
  (bufs_ok r -> bufs_ok r') -> refcount r' = refcount r + k ->
  (forall q, ext' q = ext q + (if decide (q = p) then k else 0)) ->
  (k = 0 \/ hole <> Some p /\ (p ∉ req_free_list d) /\ 0 <= ext p + k /\
     1 <= refcount r + k < 2 ^ 16) ->
  invh hole (set_reqs d (<[p := r']> (reqs d))) ext'.
Proof.
  intros [W L N D T U B O R E F S SN H] Hp Ht Hd Hb Hc Hext Hk.
  assert (Hlk : forall q s', <[p := r']> (reqs d) !! q = Some s' ->
    exists s, reqs d !! q = Some s /\ tag s' = tag s /\ dev s' = dev s /\
      (bufs_ok s -> bufs_ok s') /\ refcount s' = refcount s + (if decide (q = p) then k else 0)).
  { intros q s'. destruct (decide (q = p)) as [->|Hne].
    - rewrite lookup_insert_eq. intros [= <-]. by exists r.
    - rewrite lookup_insert_ne by done. intros Hs. exists s'. rewrite Z.add_0_r. done. }
  assert (His : forall q, is_Some (reqs d !! q) -> is_Some (<[p := r']> (reqs d) !! q)).
  { intros q Hq. destruct (decide (q = p)) as [->|Hne];
      [rewrite lookup_insert_eq; by eexists|by rewrite lookup_insert_ne]. }
  constructor; cbn; try done.
  - intros q Hq. by apply His, D.
  - intros q s' Hq (s & Hs & -> & _)%Hlk. by eapply T.
  - intros q q' s' t' Hq Hq' (s & Hs & -> & _)%Hlk (t & Htt & -> & _)%Hlk. by eapply U.
  - intros t Htt. rewrite B by done. split; intros (q & s & H1 & H2 & H3); cbn in *.
    + destruct (decide (q = p)) as [->|Hne].
      * exists p, r'. cbn. rewrite lookup_insert_eq. rewrite Hp in H2. simplify_eq.
        by rewrite Ht.
      * exists q, s. cbn. by rewrite lookup_insert_ne.
    + apply Hlk in H2 as (s0 & Hs0 & Ht0 & _). exists q, s0. by rewrite <- Ht0.
  - intros q s' (s & Hs & _ & -> & Hbb & _)%Hlk. destruct (O q s Hs). auto.
  - intros q s' (s & Hs & _ & _ & _ & ->)%Hlk Hq Hh. destruct (R q s Hs Hq Hh) as [R1 R2].
    rewrite Hext. destruct (decide (q = p)) as [->|]; [|lia]. rewrite Hp in Hs. simplify_eq. lia.
  - intros q. destruct (E q) as [E1 E2]. rewrite Hext.
    destruct (decide (q = p)) as [->|]; [split; [lia|]; intros _; apply His; by eexists|].
    rewrite Z.add_0_r. auto.
  - intros q Hq. rewrite Hext, F by done. case_decide; [|lia]. subst.
    destruct Hk as [->|(_ & Hn & _)]; [lia|done].
  - intros q Hq Hq0. specialize (S q Hq Hq0). destruct (decide (q = p)) as [->|Hne];
      [congruence|by rewrite lookup_insert_ne].
  - intros q Hq. destruct (H q Hq) as (H1 & H2 & H3). split; [done|]. split; [auto|].
    rewrite Hext, H3. case_decide; [|lia]. subst. destruct Hk as [->|[Hn _]]; [lia|done].
Qed.

(** Changes to a request that do not touch what the device keeps about it. *)
Definition same_mgmt (r r' : uk_9preq) : Prop :=
  tag r' = tag r /\ refcount r' = refcount r /\ dev r' = dev r /\ (bufs_ok r -> bufs_ok r').

Lemma invh_update hole d ext p r r' :
  invh hole d ext -> reqs d !! p = Some r -> same_mgmt r r' ->
  invh hole (set_reqs d (<[p := r']> (reqs d))) ext.
Proof.
  intros I Hp (Ht & Hc & Hd & Hb). eapply (invh_change _ _ _ _ _ r r' 0); eauto; [lia|].
  intros q. case_decide; lia.
Qed.

(** Listing the request in the hole with a tag that no other request has. *)
Lemma add_req_spec d ext p r :
  invh (Some p) d ext -> reqs d !! p = Some r -> refcount r = 1 -> 0 <= tag r <= UK_9P_NOTAG ->
  (tag r = UK_9P_NOTAG \/ bit (tag_bm d) (tag r) = false) ->
  exists bm, _req_mgmt_add_req_locked p d =
      Some (set_mgmt d bm (p :: req_list d) (req_free_list d) (reqs d)) /\
    inv (set_mgmt d bm (p :: req_list d) (req_free_list d) (reqs d)) ext.
Proof.
  intros [W L N D T U B O R E F S SN H] Hp Hc Ht Hfree. unfold UK_9P_NOTAG in *.
  destruct (H p eq_refl) as (Hnl & _ & Hext). rewrite elem_of_app in Hnl.
  unfold _req_mgmt_add_req_locked. rewrite Hp. cbn [mbind option_bind].
  destruct (range_update_spec set_mask true set_mask_in_u set_mask_bits (tag_bm d) (tag r) 1)
    as (bm & Hbm & W' & L' & Hbit); [done|lia|lia|lia|lia|].
  unfold uk_bitmap_set. rewrite Hbm. exists bm. split; [done|].
  assert (Hother : forall q, q ∈ req_list d -> q <> p) by (intros q Hq ->; tauto).
  constructor; cbn; try done.
  - lia.
  - constructor; [rewrite elem_of_app; tauto|done].
  - intros q Hq. apply elem_of_cons in Hq as [->|Hq]; [by eexists|by apply D].
  - intros q s Hq Hs. apply elem_of_cons in Hq as [->|Hq]; [|by eapply T].
    rewrite Hp in Hs. simplify_eq. done.
  - assert (Hclash : forall q s, q ∈ req_list d -> reqs d !! q = Some s -> tag s = tag r ->
      tag r <> 0xFFFF -> False).
    { intros q s Hq Hs Hts Hn. destruct Hfree as [|Hf]; [done|].
      assert (bit (tag_bm d) (tag r) = true); [|congruence].
      apply B; [unfold UK_9P_NOTAG; lia|]. by exists q, s. }
    intros q q' s s' Hq Hq' Hs Hs' Htt Hn.
    apply elem_of_cons in Hq as [->|Hq], Hq' as [->|Hq']; simplify_eq; [done|exfalso..|].
    + by eapply (Hclash q' s').
    + rewrite Htt in Hn. by eapply (Hclash q s).
    + by eapply U.
  - intros t Htt. rewrite Hbit by lia.
    destruct (Z.eq_dec t (tag r)) as [->|Hne].
    + destruct (Z.leb_spec (tag r) (tag r)), (Z.ltb_spec (tag r) (tag r + 1)); try lia.
      cbn. split; [intros _|done]. exists p, r. cbn. split; [apply list_elem_of_here|done].
    + replace ((tag r <=? t) && (t <? tag r + 1)) with false
        by (destruct (Z.leb_spec (tag r) t), (Z.ltb_spec t (tag r + 1)); cbn; lia || done).
      rewrite B by done. split; intros (q & s & H1 & H2 & H3); exists q, s; cbn in *.
      * split; [by apply list_elem_of_further|done].
      * apply elem_of_cons in H1 as [->|H1]; [|done]. rewrite Hp in H2. simplify_eq.
  - intros q s Hs Hq _. destruct (decide (q = p)) as [->|Hne].
    + rewrite Hp in Hs. simplify_eq. rewrite decide_True by apply list_elem_of_here.
      rewrite Hext. lia.
    + destruct (R q s Hs Hq ltac:(congruence)) as [H1 H2]. split; [|done]. rewrite H1. f_equal.
      apply decide_ext. rewrite elem_of_cons. tauto.
Qed.

Lemma invh_hole_update d ext p r' :
  invh (Some p) d ext -> dev r' = true -> bufs_ok r' ->
  invh (Some p) (set_reqs d (<[p := r']> (reqs d))) ext.
Proof.
  intros [W L N D T U B O R E F S SN H] Hd Hb. destruct (H p eq_refl) as (Hnl & Hsome & Hext).
  assert (Hlk : forall q, q <> p -> <[p := r']> (reqs d) !! q = reqs d !! q)
    by (intros; by apply lookup_insert_ne).
  assert (Hin : forall q, q ∈ req_list d ++ req_free_list d -> q <> p) by (by intros q Hq ->).
  assert (Hli : forall q, q ∈ req_list d -> q <> p)
    by (intros q Hq; apply Hin, elem_of_app; by left).
  constructor; cbn; try done.
  - intros q Hq. rewrite Hlk by auto. by apply D.
  - intros q s Hq. rewrite Hlk by auto. by apply T.
  - intros q q' s s' Hq Hq'. rewrite !Hlk by auto. by apply U.
  - intros t Ht. rewrite B by done. split; intros (q & s & H1 & H2 & H3); exists q, s; cbn in *;
      [rewrite Hlk by auto|rewrite Hlk in H2 by auto]; done.
  - intros q s. destruct (decide (q = p)) as [->|Hne].
    + rewrite lookup_insert_eq. by intros [= <-].
    + rewrite Hlk by done. apply O.
  - intros q s Hs Hq Hne. rewrite Hlk in Hs by congruence. by apply R.
  - intros q. destruct (E q) as [E1 E2]. split; [done|]. intros Hq.
    rewrite Hlk by (intros ->; done). auto.
  - intros q Hq Hq0. rewrite Hlk; [by apply S|]. intros ->.
    destruct Hsome as [? Hs]. by rewrite (S p Hq Hq0) in Hs.
  - intros q [= <-]. rewrite lookup_insert_eq. by split; [|split; [eexists|]].
Qed.

(** A request as [uk_9pdev_req_create] hands it out. *)
Definition fresh_req (d : uk_9pdev) (type : Z) (r : uk_9preq) : Prop :=
  state r = UK_9PREQ_INITIALIZED /\ bufs_ok r /\
  f_offset (xmit r) = 7 /\ f_size (xmit r) = Z.min UK_9P_BUFSIZE (msize d) /\
  f_type (xmit r) = type /\ f_zc_buf (xmit r) = None /\
  f_offset (recv r) = 0 /\ f_size (recv r) = Z.min UK_9P_BUFSIZE (msize d) /\
  f_zc_buf (recv r) = None /\ f_zc_size (recv r) = 0 /\ f_zc_offset (recv r) = 0 /\
  0 <= tag r <= UK_9P_NOTAG /\ (tag r = UK_9P_NOTAG <-> type = UK_9P_TVERSION).

Lemma req_create_spec type d ext :
  inv d ext -> zlen (req_list d) < UK_9P_NOTAG ->
  (exists d', uk_9pdev_req_create type d = Some (inl (- ENOMEM), d') /\ inv d' ext /\
     req_list d' = req_list d /\ reqs d' = reqs d /\ can_alloc d = false) \/
  (exists p r d', uk_9pdev_req_create type d = Some (inr p, d') /\ inv d' ext /\
     (p ∉ req_list d) /\ req_list d' = p :: req_list d /\ reqs d' !! p = Some r /\
     fresh_req d type r /\ ext p = 0 /\ msize d' = msize d /\ d_state d' = d_state d /\
     fids d' = fids d /\ forall q, q <> p -> reqs d' !! q = reqs d !! q).
Proof.
  intros I Hlen. unfold uk_9pdev_req_create.
  destruct (from_freelist_spec d ext I) as [(d' & Hd' & ?)|
    (p & d1 & Hd1 & I1 & El & Eb & Em & Es & Ef & Eo)].
  { left. exists d'. split; [by apply ebind_err|done]. }
  right. rewrite (ebind_ok _ _ _ _ _ Hd1).
  destruct (i_hole _ _ _ I1 p eq_refl) as (Hnl & [r0 Hr0] & Hext). rewrite Hr0.
  cbn [mbind option_bind]. destruct (i_obj _ _ _ I1 p r0 Hr0) as [Hdev Hbufs].
  unfold uk_9preq_init at 1. cbn [dev]. rewrite Hdev. cbn [negb].
  assert (Ht : exists t, (if type =? UK_9P_TVERSION then Some UK_9P_NOTAG
      else _req_mgmt_next_tag_locked d1) = Some t /\ 0 <= t <= UK_9P_NOTAG /\
      (t = UK_9P_NOTAG <-> type = UK_9P_TVERSION) /\
      (t = UK_9P_NOTAG \/ bit (tag_bm d1) t = false)).
  { destruct (Z.eqb_spec type UK_9P_TVERSION).
    - exists UK_9P_NOTAG. unfold UK_9P_NOTAG. split; [done|]. split; [lia|]. tauto.
    - destruct (next_tag_spec d1 (Some p) ext I1 ltac:(by rewrite El)) as (t & H1 & H2 & H3).
      exists t. split; [done|]. split; [lia|]. split; [|by right]. split; [lia|done]. }
  destruct Ht as (t & -> & Htr & Htv & Htf). cbn [mbind option_bind].
  set (r := Req _ _ _ _ _ _). set (d2 := set_reqs d1 (<[p := r]> (reqs d1))).
  assert (Hb : bufs_ok r) by exact Hbufs.
  assert (I2 : invh (Some p) d2 ext) by (apply invh_hole_update; done).
  assert (Hr2 : reqs d2 !! p = Some r) by apply lookup_insert_eq.
  destruct (add_req_spec d2 ext p r I2 Hr2 eq_refl Htr Htf) as (bm & -> & I3).
  cbn [mbind option_bind].
  exists p, (set_state r UK_9PREQ_INITIALIZED). eexists. split; [done|].
  split; [by apply (invh_update _ _ _ _ r)|].
  rewrite elem_of_app, El in Hnl. split; [tauto|]. cbn. rewrite El.
  split; [done|]. split; [apply lookup_insert_eq|]. split; [|repeat split; try done].
  - unfold fresh_req, r. cbn. rewrite Em. unfold UK_9P_BUFSIZE.
    repeat (split; [done|]). done.
  - intros q Hq. rewrite !lookup_insert_ne by done. by apply Eo.
Qed.

Lemma req_get_spec d ext p r :
  inv d ext -> reqs d !! p = Some r -> p ∉ req_free_list d -> refcount r < 2 ^ 16 - 1 ->
  exists d', uk_9preq_get p d = Some d' /\ inv d' (bump ext p 1) /\ req_list d' = req_list d.
Proof.
  intros I Hr Hf Hc. unfold uk_9preq_get. rewrite Hr. cbn. eexists. split; [done|].
  destruct (i_ref _ _ _ I p r Hr Hf ltac:(done)) as [Hrc Hrr].
  rewrite acquire_small by lia. split; [|done].
  pose proof (i_ext _ _ _ I p) as [He _].
  eapply (invh_change _ _ _ _ _ r _ 1); try done.
  - intros q. unfold bump. repeat case_decide; lia.
  - right. split; [done|]. split; [done|]. lia.
Qed.

Lemma req_put_spec d ext p :
  inv d ext -> 0 < ext p ->
  exists last d', uk_9preq_put p d = Some (last, d') /\ inv d' (bump ext p (-1)) /\
    req_list d' = req_list d /\
    (last = true -> (p ∉ req_list d) /\ ext p = 1) /\
    (forall q, q <> p -> reqs d' !! q = reqs d !! q).
Proof.
  intros I Hpos. destruct (proj2 (i_ext _ _ _ I p) ltac:(lia)) as [r Hr].
  assert (Hf : p ∉ req_free_list d) by (intros Hin; pose proof (i_free _ _ _ I p Hin); lia).
  destruct (i_ref _ _ _ I p r Hr Hf ltac:(done)) as [Hrc Hrr].
  destruct (i_obj _ _ _ I p r Hr) as [Hdev Hbufs].
  unfold uk_9preq_put. rewrite Hr. cbn [mbind option_bind].
  rewrite release_small, Hdev, andb_true_r by done.
  destruct (Z.leb_spec (refcount r) 1) as [H1|H1].
  - exists true. eexists. split; [done|].
    assert (Hnl : (p ∉ req_list d) /\ ext p = 1) by (revert Hrc; case_decide; [lia|split; [done|lia]]).
    destruct Hnl as [Hnl Hx]. split; [|split; [done|split; [done|]]]; cycle 1.
    { intros q Hq. cbn. by rewrite lookup_insert_ne. }
    destruct I as [W L N D T U B O R E F S SN H].
    set (r' := set_refcount r (refcount r - 1)).
    assert (Hlk : forall q, q <> p -> <[p := r']> (reqs d) !! q = reqs d !! q)
      by (intros; by apply lookup_insert_ne).
    assert (Hli : forall q, q ∈ req_list d -> q <> p) by (by intros q Hq ->).
    constructor; cbn; try done.
    + apply NoDup_app in N as (N1 & N2 & N3). apply NoDup_app. split; [done|]. split.
      * intros q Hq Hq'. apply elem_of_cons in Hq' as [->|Hq']; [done|by apply (N2 q)].
      * by constructor.
    + intros q Hq. destruct (decide (q = p)) as [->|Hne];
        [rewrite lookup_insert_eq; by eexists|]. rewrite Hlk by done. apply D.
      apply elem_of_app in Hq as [Hq|Hq]; apply elem_of_app; [by left|right].
      by apply elem_of_cons in Hq as [->|].
    + intros q s Hq. rewrite Hlk by auto. by apply T.
    + intros q q' s s' Hq Hq'. rewrite !Hlk by auto. by apply U.
    + intros t Ht. rewrite B by done. split; intros (q & s & H2 & H3 & H4); exists q, s; cbn in *;
        [rewrite Hlk by auto|rewrite Hlk in H3 by auto]; done.
    + intros q s. destruct (decide (q = p)) as [->|Hne].
      * rewrite lookup_insert_eq. intros [= <-]. done.
      * rewrite Hlk by done. apply O.
    + intros q s Hs Hq _. assert (q <> p) by (intros ->; apply Hq, list_elem_of_here).
      rewrite Hlk in Hs by done. unfold bump. rewrite (decide_False (P := q = p)) by done.
      apply R; [done| |done]. intros Hin. by apply Hq, list_elem_of_further.
    + intros q. destruct (E q) as [E1 E2]. unfold bump. destruct (decide (q = p)) as [->|Hne].
      * split; [lia|]. intros Hc. lia.
      * rewrite Hlk by done. auto.
    + intros q Hq. unfold bump. destruct (decide (q = p)) as [->|Hne]; [lia|].
      apply F. by apply elem_of_cons in Hq as [->|].
    + intros q Hq Hq0. rewrite Hlk; [by apply S|]. intros ->. by rewrite (S p Hq Hq0) in Hr.
  - exists false. eexists. split; [done|]. cbn [andb].
    split; [|split; [done|split; [done|]]]; cycle 1.
    { intros q Hq. cbn. by rewrite lookup_insert_ne. }
    eapply (invh_change _ _ _ _ _ r _ (-1)); try done.
    + intros q. unfold bump. repeat case_decide; lia.
    + right. split; [done|]. split; [done|]. lia.
Qed.

(** Taking a request off the list turns the list's reference into one of the caller. *)
Lemma del_req_spec d ext p :
  inv d ext -> p ∈ req_list d ->
  exists d', _req_mgmt_del_req_locked p d = Some d' /\ inv d' (bump ext p 1) /\
    req_list d' = list_del p (req_list d) /\ reqs d' = reqs d.
Proof.
  intros I Hp. pose proof I as [W L N D T U B O R E F S SN H].
  destruct (D p) as [r Hr]; [apply elem_of_app; by left|].
  pose proof (T p r Hp Hr) as Ht. unfold UK_9P_NOTAG in *.
  unfold _req_mgmt_del_req_locked. rewrite Hr. cbn [mbind option_bind].
  destruct (range_update_spec clear_mask false clear_mask_in_u clear_mask_bits (tag_bm d) (tag r) 1)
    as (bm & Hbm & W' & L' & Hbit); [done|lia|lia|lia|lia|].
  unfold uk_bitmap_clear. rewrite Hbm. cbn. eexists. split; [done|]. split; [|done].
  apply NoDup_app in N as (N1 & N2 & N3).
  constructor; cbn; try done.
  - lia.
  - apply NoDup_app. split; [by apply NoDup_filter|]. split; [|done].
    intros q Hq. apply elem_of_list_del in Hq as [_ Hq]. by apply N2.
  - intros q Hq. apply D. apply elem_of_app in Hq as [Hq|Hq]; apply elem_of_app; [left|by right].
    by apply elem_of_list_del in Hq as [_ Hq].
  - intros q s Hq Hs. apply elem_of_list_del in Hq as [_ Hq]. by eapply T.
  - intros q q' s s' Hq Hq'. apply elem_of_list_del in Hq as [_ Hq].
    apply elem_of_list_del in Hq' as [_ Hq']. by apply U.
  - intros t Htt. rewrite Hbit by lia. destruct (Z.eq_dec t (tag r)) as [->|Hne].
    + destruct (Z.leb_spec (tag r) (tag r)), (Z.ltb_spec (tag r) (tag r + 1)); try lia. cbn.
      split; [done|]. intros (q & s & Hin & H2 & H3). cbn in *.
      apply elem_of_list_del in Hin as [Hne Hin]. exfalso. apply Hne.
      eapply (U q p s r); try done. rewrite H3. unfold UK_9P_NOTAG in *. lia.
    + replace ((tag r <=? t) && (t <? tag r + 1)) with false
        by (destruct (Z.leb_spec (tag r) t), (Z.ltb_spec t (tag r + 1)); cbn; lia || done).
      rewrite B by done. split; intros (q & s & H1 & H2 & H3); exists q, s; cbn in *.
      * split; [|done]. apply elem_of_list_del. split; [|done]. intros ->.
        rewrite Hr in H2. by simplify_eq.
      * by apply elem_of_list_del in H1 as [_ H1].
  - intros q s Hs Hq _. destruct (R q s Hs Hq ltac:(done)) as [R1 R2]. split; [|done].
    rewrite R1. unfold bump. destruct (decide (q = p)) as [->|Hne].
    + rewrite decide_True by done. rewrite decide_False; [lia|].
      intros Hin. by apply elem_of_list_del in Hin as [? _].
    + f_equal. apply decide_ext. rewrite elem_of_list_del. tauto.
  - intros q. destruct (E q) as [E1 E2]. unfold bump. case_decide; [|auto].
    subst. split; [lia|]. intros _. by eexists.
  - intros q Hq. unfold bump. rewrite decide_False; [by apply F|].
    intros ->. by apply (N2 p).
Qed.

Lemma invh_ext hole d ext ext' :
  invh hole d ext -> (forall q, ext' q = ext q) -> invh hole d ext'.
Proof.
  intros [W L N D T U B O R E F S SN H] Hx. constructor; try done.
  - intros p r. rewrite Hx. apply R.
  - intros p. rewrite Hx. apply E.
  - intros p. rewrite Hx. apply F.
  - intros p. rewrite Hx. apply H.
Qed.

Lemma remove_spec d ext p :
  inv d ext -> p ∈ req_list d ->
  exists last d', uk_9pdev_req_remove p d = Some (last, d') /\ inv d' ext /\
    req_list d' = list_del p (req_list d) /\
    (last = true -> ext p = 0) /\ (forall q, q <> p -> reqs d' !! q = reqs d !! q).
Proof.
  intros I Hp. destruct (del_req_spec d ext p I Hp) as (d1 & H1 & I1 & E1 & E2).
  pose proof (proj1 (i_ext _ _ _ I p)) as He.
  destruct (req_put_spec d1 (bump ext p 1) p I1) as (last & d2 & H2 & I2 & E3 & E4 & E5).
  { unfold bump. rewrite decide_True by done. lia. }
  exists last, d2. unfold uk_9pdev_req_remove. rewrite H1. cbn [mbind option_bind].
  split; [done|]. split; [|split; [congruence|]].
  - eapply invh_ext; [exact I2|]. intros q. unfold bump. repeat case_decide; lia.
  - split.
    + intros Hl. destruct (E4 Hl) as [_ Hx]. unfold bump in Hx. rewrite decide_True in Hx by done.
      lia.
    + intros q Hq. rewrite <- E2. by apply E5.
Qed.

Lemma find_tag_spec rs t l :
  (forall p, p ∈ l -> is_Some (rs !! p)) ->
  exists o, find_tag rs t l = Some o /\
    match o with
    | Some p => p ∈ l /\ exists r, rs !! p = Some r /\ tag r = t
    | None => forall p r, p ∈ l -> rs !! p = Some r -> tag r <> t
    end.
Proof.
  induction l as [|q l IH]; intros Hdom; cbn [find_tag].
  { exists None. split; [done|]. intros p r Hp. by apply not_elem_of_nil in Hp. }
  destruct (Hdom q (list_elem_of_here _ _)) as [s Hs]. rewrite Hs. cbn [mbind option_bind].
  destruct (Z.eqb_spec t (tag s)) as [E|E]; cbn [negb].
  { exists (Some q). split; [done|]. split; [apply list_elem_of_here|by exists s]. }
  destruct IH as (o & Ho & Hspec); [intros p Hp; by apply Hdom, list_elem_of_further|].
  exists o. split; [done|]. destruct o as [p|].
  - destruct Hspec as [Hp Hr]. split; [by apply list_elem_of_further|done].
  - intros p r Hp Hr. apply elem_of_cons in Hp as [->|Hp]; [|by eapply Hspec].
    rewrite Hs in Hr. simplify_eq. done.
Qed.

Lemma lookup_spec d ext t :
  inv d ext -> (forall p, ext p < 2 ^ 16 - 2) ->
  (uk_9pdev_req_lookup t d = Some (inl (- EINVAL), d) /\ ~ listed d t) \/
  (exists p r d', uk_9pdev_req_lookup t d = Some (inr p, d') /\ inv d' (bump ext p 1) /\
     p ∈ req_list d /\ reqs d !! p = Some r /\ tag r = t).
Proof.
  intros I Hb. unfold uk_9pdev_req_lookup.
  destruct (find_tag_spec (reqs d) t (req_list d)) as (o & -> & Ho).
  { intros p Hp. apply (i_dom _ _ _ I), elem_of_app. by left. }
  cbn [mbind option_bind]. destruct o as [p|].
  - right. destruct Ho as (Hp & r & Hr & Ht).
    assert (Hf : p ∉ req_free_list d).
    { pose proof (i_nodup _ _ _ I) as N. apply NoDup_app in N as (_ & N2 & _). by apply N2. }
    destruct (i_ref _ _ _ I p r Hr Hf ltac:(done)) as [Hrc _].
    rewrite decide_True in Hrc by done.
    destruct (req_get_spec d ext p r I Hr Hf) as (d' & -> & I' & _); [specialize (Hb p); lia|].
    exists p, r, d'. done.
  - left. split; [done|]. intros (p & r & Hp & Hr & Ht). by eapply Ho.
Qed.

(** ** Reachable states *)

(** The users of the device: they create, look up and remove requests, use the requests they
    have, and give references back.  Fewer than 65535 requests are outstanding and no request
    has 65534 references. *)
Inductive step : uk_9pdev * (Z -> Z) -> uk_9pdev * (Z -> Z) -> Prop :=
| step_create type d ext res d' :
    zlen (req_list d) < UK_9P_NOTAG -> uk_9pdev_req_create type d = Some (res, d') ->
    step (d, ext) (d', ext)
| step_lookup t d ext res d' :
    (forall p, ext p < 2 ^ 16 - 2) -> uk_9pdev_req_lookup t d = Some (res, d') ->
    step (d, ext) (d', match res with inr p => bump ext p 1 | inl _ => ext end)
| step_put p d ext last d' :
    0 < ext p -> uk_9preq_put p d = Some (last, d') -> step (d, ext) (d', bump ext p (-1))
| step_remove p d ext last d' :
    p ∈ req_list d -> uk_9pdev_req_remove p d = Some (last, d') -> step (d, ext) (d', ext)
| step_use p d ext r r' :
    reqs d !! p = Some r -> same_mgmt r r' ->
    step (d, ext) (set_reqs d (<[p := r']> (reqs d)), ext).

Lemma dev_step_inv s s' : step s s' -> inv s.1 s.2 -> inv s'.1 s'.2.
Proof.
  intros [type d ext res d' Hlen Hc|t d ext res d' Hb Hl|p d ext last d' Hp Hput
         |p d ext last d' Hp Hr|p d ext r r' Hr Hs]; cbn; intros I.
  - destruct (req_create_spec type d ext I Hlen) as [(d1 & H1 & I1 & _)|(p & r & d1 & H1 & I1 & _)];
      rewrite H1 in Hc; by simplify_eq.
  - destruct (lookup_spec d ext t I Hb) as [[H1 _]|(p & r & d1 & H1 & I1 & _)];
      rewrite H1 in Hl; by simplify_eq.
  - destruct (req_put_spec d ext p I Hp) as (l & d1 & H1 & I1 & _). rewrite H1 in Hput. by simplify_eq.
  - destruct (remove_spec d ext p I Hp) as (l & d1 & H1 & I1 & _). rewrite H1 in Hr. by simplify_eq.
  - by eapply invh_update.
Qed.

Lemma connect_inv rc m supply d :
  uk_9pdev_connect rc m supply = Some (inr d) -> NoDup (filter (fun p => p <> 0) supply) ->
  inv d (fun _ => 0).
Proof.
  unfold uk_9pdev_connect. destruct supply as [|p sup]; [done|]. intros H HN.
  repeat case_test; simplify_eq.
  assert (Hbit : forall t, bit _req_mgmt_init t = false).
  { intros t. unfold bit, zget. case_test; [done|].
    destruct (_req_mgmt_init !! Z.to_nat (t / 64)) as [w|] eqn:Ew; [|done].
    unfold _req_mgmt_init in Ew. apply lookup_replicate in Ew as [-> _]. apply Z.bits_0. }
  constructor; cbn.
  - apply Forall_replicate. by compute.
  - done.
  - constructor.
  - intros q Hq. by apply not_elem_of_nil in Hq.
  - intros q r Hq. by apply not_elem_of_nil in Hq.
  - intros q q' r s Hq. by apply not_elem_of_nil in Hq.
  - intros t _. rewrite Hbit. split; [done|]. intros (q & r & Hq & _).
    by apply not_elem_of_nil in Hq.
  - intros q r. by rewrite lookup_empty.
  - intros q r. by rewrite lookup_empty.
  - done.
  - done.
  - intros q _ _. apply lookup_empty.
  - rewrite filter_cons in HN. case_decide; [by apply NoDup_cons in HN as [_ HN]|done].
  - done.
Qed.

(** C21: in every state that the users of a 9P device reach by creating, looking up, holding, dropping and
    removing requests, the tags of the outstanding requests are distinct, apart from the reserved
    NOTAG that all version requests share; a request waits for reuse only when nobody holds a
    reference to it; and the operations return: as long as fewer than 65535 requests are
    outstanding, a new one gets an object and a tag that nobody uses, or -ENOMEM is returned (beyond
    that a tag in use is given out, [p9_tags_exhausted]); with fewer than 2^16 - 2 references to a
    request a look-up finds an outstanding request with the tag, or there is none; a removal
    takes the request off the list. *)
Theorem p9_requests_safe rc m supply d0 d ext :
  uk_9pdev_connect rc m supply = Some (inr d0) -> NoDup (filter (fun p => p <> 0) supply) ->
  rtc step (d0, fun _ => 0) (d, ext) ->
  (forall p q r s, p ∈ req_list d -> q ∈ req_list d -> reqs d !! p = Some r ->
     reqs d !! q = Some s -> tag r = tag s -> tag r <> UK_9P_NOTAG -> p = q) /\
  (forall p, p ∈ req_free_list d -> ext p = 0 /\ p ∉ req_list d) /\
  (forall type, zlen (req_list d) < UK_9P_NOTAG -> exists res d',
     uk_9pdev_req_create type d = Some (res, d') /\
     match res with
     | inl rc => rc = - ENOMEM
     | inr p => (p ∉ req_list d) /\ ext p = 0 /\ exists r, reqs d' !! p = Some r /\
         fresh_req d type r /\ (type <> UK_9P_TVERSION -> ~ listed d (tag r))
     end) /\
  (forall t, (forall p, ext p < 2 ^ 16 - 2) -> exists res d',
     uk_9pdev_req_lookup t d = Some (res, d') /\
     match res with
     | inl rc => rc = - EINVAL /\ ~ listed d t
     | inr p => p ∈ req_list d /\ exists r, reqs d !! p = Some r /\ tag r = t
     end) /\
  (forall p, p ∈ req_list d -> exists last d', uk_9pdev_req_remove p d = Some (last, d') /\
     req_list d' = list_del p (req_list d) /\ (last = true -> ext p = 0)).
Proof.
  intros Hc HN Hreach.
  assert (I : inv d ext).
  { assert (H0 := connect_inv _ _ _ _ Hc HN). change d with (d, ext).1.
    change ext with (d, ext).2 at 2. change (inv (d0, fun _ : Z => 0).1 (d0, fun _ : Z => 0).2) in H0.
    revert H0. clear Hc. induction Hreach as [|s1 s2 s3 Hs _ IH]; [done|].
    intros H0. apply IH. by eapply dev_step_inv. }
  clear Hreach Hc HN. split; [apply (i_uniq _ _ _ I)|]. split; [|split; [|split]].
  - intros p Hp. split; [by apply (i_free _ _ _ I)|]. intros Hl.
    pose proof (i_nodup _ _ _ I) as N. apply NoDup_app in N as (_ & N2 & _). by apply (N2 p).
  - intros type Hlen.
    destruct (req_create_spec type d ext I Hlen) as [(d' & H1 & _)|
      (p & r & d' & H1 & I1 & Hnl & El & Hr & Hf & Hx & _ & _ & _ & Eo)].
    { by exists (inl (- ENOMEM)), d'. }
    exists (inr p), d'. split; [done|]. split; [done|]. split; [done|]. exists r.
    split; [done|]. split; [done|]. intros Hty (q & s & Hq & Hs & Ht).
    assert (q <> p) as Hne by (by intros ->). apply Hne.
    assert (Hs' : reqs d' !! q = Some s) by (by rewrite Eo).
    apply (i_uniq _ _ _ I1 q p s r); try done; [rewrite El..|].
    + by apply list_elem_of_further.
    + apply list_elem_of_here.
    + rewrite Ht. intros E. apply Hty. by apply Hf.
  - intros t Hb. destruct (lookup_spec d ext t I Hb) as [[H1 H2]|(p & r & d1 & H1 & I1 & H2 & H3)].
    + by exists (inl (- EINVAL)), d.
    + exists (inr p), d1. split; [done|]. split; [done|]. by exists r.
  - intros p Hp. destruct (remove_spec d ext p I Hp) as (l & d1 & H1 & _ & El & H2 & _).
    by exists l, d1.
Qed.

Lemma remove_fids p d last d' :
  uk_9pdev_req_remove p d = Some (last, d') -> fids d' = fids d.
Proof.
  unfold uk_9pdev_req_remove, _req_mgmt_del_req_locked, uk_9preq_put.
  destruct (reqs d !! p) as [r|] eqn:Er; [|done]. cbn [mbind option_bind].
  destruct (uk_bitmap_clear _ _ _) as [bm|]; [|done]. cbn. rewrite Er. cbn.
  intros [= <- <-]. by case_match.
Qed.

(** A device with one outstanding request. *)
Definition dev1 : uk_9pdev :=
  match uk_9pdev_connect 0 8192 [4096; 8192; 12288; 0] with
  | Some (inr d) => match uk_9pdev_req_create 112 d with Some (_, d') => d' | None => d end
  | _ => Dev UK_9PDEV_CONNECTED 0 0 [] [] [] ∅ 0 [] [] ∅ []
  end.

Lemma p9_requests_safe_witness :
  exists res d', uk_9pdev_req_lookup 0 dev1 = Some (res, d') /\
    match res with
    | inl rc => rc = - EINVAL /\ ~ listed dev1 0
    | inr p => p ∈ req_list dev1 /\ exists r, reqs dev1 !! p = Some r /\ tag r = 0
    end.
Proof.
  destruct (uk_9pdev_connect 0 8192 [4096; 8192; 12288; 0]) as [[|d0]|] eqn:E0; try done.
  destruct (uk_9pdev_req_create 112 d0) as [[res d1]|] eqn:E1;
    [|injection E0 as <-; by vm_compute in E1].
  assert (Hd : dev1 = d1) by (unfold dev1; by rewrite E0, E1). rewrite Hd.
  refine (proj1 (proj2 (proj2 (proj2
    (p9_requests_safe 0 8192 [4096; 8192; 12288; 0] d0 d1 (fun _ => 0) E0 _ _)))) 0 _).
  - apply (bool_decide_unpack (NoDup _)). vm_compute. exact I.
  - apply rtc_once. eapply step_create; [|exact E1]. injection E0 as <-. by cbn.
  - intros p. cbn. lia.
Defined.

(** With every tag in use the next one wraps around to 0, which is in use. *)
Theorem p9_tags_exhausted :
  _req_mgmt_next_tag_locked (set_mgmt dev1 (replicate 1024 ones64) [] [] ∅) = Some 0.
Proof. vm_compute. reflexivity. Qed.

(** The 16-bit increment of the 32-bit counter loses the count at 65536 references. *)
Theorem refcount_wraps : uk_refcount_acquire 65535 = 0.
Proof. reflexivity. Qed.

End P9Dev.
