(* ===== verification/P9Client.v ===== *)
(** * P9Client: the operations of the 9P client

    Models [lib/uk9p/9p.c] with the transport of [plat/drivers/virtio/virtio_9p.c]: every
    operation creates a request, serializes its arguments, sends the message, waits for the
    reply, deserializes it and removes the request.  The server is a parameter: a function from
    the bytes of a message to the bytes of the reply.  That the virtqueue between the two
    delivers buffers is proved in [Virtqueue]; here a message reaches the server as it is and
    the reply is scattered over the receive buffers as [virtio_9p_request] describes them. *)
From Stdlib Require Import ZArith Lia Bool.
From stdpp Require Import gmap.
From S2P Require Import Prelude Buf ErrMonad Bitmap P9Req P9Dev.
Open Scope Z_scope.

Module P9Client.
Import P9 P9Dev.

Definition ENOENT : Z := 2.
Definition UK_9P_TATTACH : Z := 104.
Definition UK_9P_TFLUSH : Z := 108.
Definition UK_9P_TWALK : Z := 110.
Definition UK_9P_TOPEN : Z := 112.
Definition UK_9P_TCREATE : Z := 114.
Definition UK_9P_TREAD : Z := 116.
Definition UK_9P_TWRITE : Z := 118.
Definition UK_9P_TCLUNK : Z := 120.
Definition UK_9P_TREMOVE : Z := 122.
Definition UK_9P_TSTAT : Z := 124.
Definition UK_9P_TWSTAT : Z := 126.

(** An operation on the request [p], and on the fid [p]. *)
Definition on_req {A} (p : Z) (m : io A) : dm A := fun d =>
  r ← reqs d !! p;
  '(res, r') ← m r;
  Some (res, set_reqs d (<[p := r']> (reqs d))).
Definition get_fid (p : Z) : dm uk_9pfid := fun d => f ← fids d !! p; Some (inr f, d).
Definition set_fid (p : Z) (g : uk_9pfid -> uk_9pfid) : dm unit := fun d =>
  f ← fids d !! p; Some (inr tt, set_fids d (<[p := g f]> (fids d))).
Definition get_dev : dm uk_9pdev := fun d => Some (inr d, d).

(** [goto out]: the request is removed whatever the result is. *)
Definition finally_remove {A} (p : Z) (m : dm A) : dm A := fun d =>
  '(res, d) ← m d; '(_, d) ← uk_9pdev_req_remove p d; Some (res, d).
(** For [goto free], where the request is removed when there was an error. *)
Definition remove_req (p : Z) : dm unit := fun d =>
  '(_, d) ← uk_9pdev_req_remove p d; Some (inr tt, d).

(** [uk_9preq_readqid(req, &fid->qid)]: the fields of the fid are stored one after the other. *)
Definition read_into {A} (fp p : Z) (m : io A) (g : A -> uk_9pfid -> uk_9pfid) : dm unit :=
  let! a := on_req p m in set_fid fp (g a).
Definition set_qid (f : uk_9pfid) (q : uk_9p_qid) : uk_9pfid :=
  Fid (fid f) q (iounit f) (was_removed f) (frefcount f).
Definition readqid_fid (fp p : Z) : dm unit :=
  read_into fp p uk_9preq_read8 (fun t f => set_qid f (Qid t (q_version (fqid f)) (q_path (fqid f)))) ;!
  read_into fp p uk_9preq_read32 (fun v f => set_qid f (Qid (q_type (fqid f)) v (q_path (fqid f)))) ;!
  read_into fp p uk_9preq_read64 (fun x f => set_qid f (Qid (q_type (fqid f)) (q_version (fqid f)) x)).

Section Client.
Context (host : list Z -> list Z).

(** ** The transport *)

(** The reply goes to the receive buffer, then to the zero-copy buffer, then to what is left of
    the receive buffer for the longest error message; the number of bytes written is returned. *)
Definition scatter (x : uk_9preq_fcall) (reply : list Z) : option (Z * uk_9preq_fcall) :=
  let n := Z.to_nat (f_size x) in
  b ← buf_write (f_buf x) 0 (take n reply);
  match f_zc_buf x with
  | None => Some (Z.min (zlen reply) (f_size x), set_buf x b)
  | Some z =>
      z' ← buf_write z 0 (take (Z.to_nat (f_zc_size x)) (drop n reply));
      let recv_size := u32 (f_size x + f_zc_size x) in
      let more := recv_size <? UK_9P_RERROR_MAXSIZE in
      let leftover := if more then UK_9P_RERROR_MAXSIZE - recv_size else 0 in
      b' ← (if more
            then buf_write b recv_size (take (Z.to_nat leftover) (drop (Z.to_nat recv_size) reply))
            else Some b);
      Some (Z.min (zlen reply) (recv_size + leftover),
            set_zc (set_buf x b') (Some z') (f_zc_size x) (f_zc_offset x))
  end.

(** [virtio_9p_request], the server, and [virtio_9p_recv] for this request: the bytes of an error
    message that landed in the zero-copy buffer are copied back. *)
Definition virtio_9p_transfer : io unit := fun req =>
  if negb (bool_decide (state req = UK_9PREQ_READY)) then None
  else
    '(len, y) ← scatter (recv req) (host (message req));
    '(_, req) ← uk_9preq_receive_cb len (set_state (set_recv req y) UK_9PREQ_SENT);
    let x := recv req in
    if f_type x =? UK_9P_RERROR then
      let k := Z.min (f_zc_size x) (u32 (len - UK_9P_HEADER_SIZE)) in
      src ← buf_read (default [] (f_zc_buf x)) 0 k;
      b ← buf_write (f_buf x) (f_zc_offset x) src;
      Some (inr tt, set_recv req (set_buf x b))
    else Some (inr tt, req).

(** The transport has room again at some point: [-ENOSPC] is retried. *)
Definition uk_9pdev_request (p : Z) : dm unit := fun d =>
  r ← reqs d !! p;
  if negb (bool_decide (state r = UK_9PREQ_READY)) then Some (inl (- EINVAL), d)
  else match d_state d with
  | UK_9PDEV_DISCONNECTING => Some (inl (- EIO), d)
  | UK_9PDEV_CONNECTED =>
      d ← uk_9preq_get p d;
      '(res, d) ← on_req p virtio_9p_transfer d;
      '(_, d) ← uk_9preq_put p d;
      Some (res, d)
  end.

Definition send_and_wait_zc (p : Z) (zc_dir : uk_9preq_zcdir) (zc_buf : option (list Z))
    (zc_size zc_offset : Z) : dm unit :=
  on_req p (uk_9preq_ready zc_dir zc_buf zc_size zc_offset) ;!
  uk_9pdev_request p ;!
  on_req p uk_9preq_waitreply.

Definition send_and_wait_no_zc (p : Z) : dm unit :=
  send_and_wait_zc p UK_9PREQ_ZCDIR_NONE None 0 0.

Definition request_create : Z -> dm Z := uk_9pdev_req_create.

(** ** Operations *)

(** The request stays: the version string points into it. *)
Definition uk_9p_version (requested : list Z) : dm (Z * uk_9p_str) :=
  let! p := request_create UK_9P_TVERSION in
  let! d := get_dev in
  let! v :=
    on_error (remove_req p) (
      on_req p (uk_9preq_write32 (msize d) ;!
                uk_9preq_writestr (uk_9p_str_init (Some requested))) ;!
      send_and_wait_no_zc p ;!
      on_req p (let! n := uk_9preq_read32 in
                let! s := uk_9preq_readstr in eret (n, s))) in
  fun d => let '(_, d) := uk_9pdev_set_msize v.1 d in Some (inr (p, v.2), d).

Definition uk_9p_clunk (fp : Z) : dm unit :=
  let! f := get_fid fp in
  if was_removed f then eret tt
  else
    let! p := request_create UK_9P_TCLUNK in
    finally_remove p (
      on_req p (uk_9preq_write32 (fid f)) ;!
      send_and_wait_no_zc p).

(** A fid that could not be clunked is not used again. *)
Definition uk_9pdev_fid_release (fp : Z) : dm unit := fun d =>
  '(res, d) ← uk_9p_clunk fp d;
  let ok := match res with inl rc => negb (rc <? 0) | inr _ => true end in
  Some (inr tt, _fid_mgmt_del_fid_locked fp ok d).

Definition uk_9p_attach (afid : Z) (uname aname : list Z) (n_uname : Z) : dm Z :=
  let! fp := uk_9pdev_fid_create in
  let! p := on_error (uk_9pdev_fid_release fp) (request_create UK_9P_TATTACH) in
  let! f := get_fid fp in
  on_error (uk_9pdev_fid_release fp ;! remove_req p) (
    on_req p (uk_9preq_write32 (fid f) ;! uk_9preq_write32 afid ;!
              uk_9preq_writestr (uk_9p_str_init (Some uname)) ;!
              uk_9preq_writestr (uk_9p_str_init (Some aname)) ;!
              uk_9preq_write32 n_uname) ;!
    send_and_wait_no_zc p ;!
    readqid_fid fp p) ;!
  remove_req p ;!
  eret fp.

Definition uk_9p_flush (oldtag : Z) : dm unit :=
  let! p := request_create UK_9P_TFLUSH in
  finally_remove p (
    on_req p (uk_9preq_write16 oldtag) ;!
    send_and_wait_no_zc p).

(** When no request can be created the code goes on to remove the error pointer. *)
Definition uk_9p_walk (fp : Z) (name : option (list Z)) : dm Z :=
  let! nfp := uk_9pdev_fid_create in
  let! f := get_fid fp in
  let! nf := get_fid nfp in
  let nwname := match name with Some _ => 1 | None => 0 end in
  let! p := (fun d => '(res, d) ← request_create UK_9P_TWALK d;
                      match res with inl _ => None | inr p => Some (inr p, d) end) in
  on_error (uk_9pdev_fid_release nfp) (
    finally_remove p (
      on_req p (uk_9preq_write32 (fid f) ;! uk_9preq_write32 (fid nf) ;!
                uk_9preq_write16 nwname ;!
                match name with
                | Some _ => uk_9preq_writestr (uk_9p_str_init name)
                | None => eret tt
                end) ;!
      on_error (set_fid nfp (fun f => Fid (fid f) (fqid f) (iounit f) true (frefcount f)))
        (send_and_wait_no_zc p) ;!
      let! nwqid := on_req p uk_9preq_read16 in
      if negb (nwqid =? nwname) then efail (- ENOENT)
      else
        if nwname =? 0 then set_fid nfp (fun nf => set_qid nf (fqid f))
        else readqid_fid nfp p)) ;!
  eret nfp.

(** What [open] and [create] do with their reply. *)
Definition read_open (fp p : Z) : dm unit :=
  readqid_fid fp p ;!
  read_into fp p uk_9preq_read32
    (fun n f => Fid (fid f) (fqid f) n (was_removed f) (frefcount f)).

Definition uk_9p_open (fp mode : Z) : dm unit :=
  let! f := get_fid fp in
  let! p := request_create UK_9P_TOPEN in
  finally_remove p (
    on_req p (uk_9preq_write32 (fid f) ;! uk_9preq_write8 mode) ;!
    send_and_wait_no_zc p ;!
    read_open fp p).

Definition uk_9p_create (fp : Z) (name : list Z) (perm mode : Z) (extension : option (list Z))
    : dm unit :=
  let! f := get_fid fp in
  let! p := request_create UK_9P_TCREATE in
  finally_remove p (
    on_req p (uk_9preq_write32 (fid f) ;! uk_9preq_writestr (uk_9p_str_init (Some name)) ;!
              uk_9preq_write32 perm ;! uk_9preq_write8 mode ;!
              uk_9preq_writestr (uk_9p_str_init extension)) ;!
    send_and_wait_no_zc p ;!
    read_open fp p).

Definition uk_9p_remove (fp : Z) : dm unit :=
  let! f := get_fid fp in
  set_fid fp (fun f => Fid (fid f) (fqid f) (iounit f) true (frefcount f)) ;!
  let! p := request_create UK_9P_TREMOVE in
  finally_remove p (
    on_req p (uk_9preq_write32 (fid f)) ;!
    send_and_wait_no_zc p).

(** The number of bytes read, and the contents of the caller's buffer. *)
Definition uk_9p_read (fp offset count : Z) (buf : list Z) : dm (Z * list Z) :=
  let! f := get_fid fp in
  let! d := get_dev in
  let count := if negb (iounit f =? 0) then Z.min count (iounit f) else count in
  let count := Z.min count (u32 (msize d - 11)) in
  let! p := request_create UK_9P_TREAD in
  finally_remove p (
    on_req p (uk_9preq_write32 (fid f) ;! uk_9preq_write64 offset ;! uk_9preq_write32 count) ;!
    send_and_wait_zc p UK_9PREQ_ZCDIR_READ (Some buf) count 11 ;!
    let! n := on_req p uk_9preq_read32 in
    let! r := on_req p current in
    eret (n, default [] (f_zc_buf (recv r)))).

Definition uk_9p_write (fp offset count : Z) (buf : list Z) : dm Z :=
  let! f := get_fid fp in
  let! d := get_dev in
  let count := Z.min count (iounit f) in
  let count := Z.min count (u32 (msize d - 23)) in
  let! p := request_create UK_9P_TWRITE in
  finally_remove p (
    on_req p (uk_9preq_write32 (fid f) ;! uk_9preq_write64 offset ;! uk_9preq_write32 count) ;!
    send_and_wait_zc p UK_9PREQ_ZCDIR_WRITE (Some buf) count 23 ;!
    on_req p uk_9preq_read32).

(** The request stays: the strings of the result point into it. *)
Definition uk_9p_stat_ (fp : Z) : dm (Z * uk_9p_stat) :=
  let! f := get_fid fp in
  let! p := request_create UK_9P_TSTAT in
  on_error (remove_req p) (
    on_req p (uk_9preq_write32 (fid f)) ;!
    send_and_wait_no_zc p ;!
    let! st := on_req p (uk_9preq_read16 ;! uk_9preq_readstat) in
    eret (p, st)).

Definition uk_9p_wstat (fp : Z) (st : uk_9p_stat) : dm unit :=
  let! f := get_fid fp in
  let! p := request_create UK_9P_TWSTAT in
  finally_remove p (
    on_req p (
      uk_9preq_write32 (fid f) ;!
      let! r := current in
      let dummy := f_offset (xmit r) in
      uk_9preq_write16 0 ;! uk_9preq_writestat st ;!
      fun r => b ← buf_write (f_buf (xmit r)) dummy (le_bytes 2 (u16 (stat_size st + 2)));
               Some (inr tt, set_xmit r (set_buf (xmit r) b))) ;!
    send_and_wait_no_zc p).

(** ** Requests are given back

    Whatever the server answers. *)

(** [m] does not touch what the device keeps about the request. *)
Definition pure {A} (m : io A) : Prop := forall r res r', m r = Some (res, r') -> same_mgmt r r'.

Lemma same_mgmt_refl r : same_mgmt r r.
Proof. done. Qed.

Lemma same_mgmt_trans r1 r2 r3 : same_mgmt r1 r2 -> same_mgmt r2 r3 -> same_mgmt r1 r3.
Proof.
  intros (A1 & B1 & C1 & D1) (A2 & B2 & C2 & D2). unfold same_mgmt.
  rewrite A2, B2, C2. auto 10.
Qed.

Lemma pure_bind {A B} (m : io A) (k : A -> io B) :
  pure m -> (forall a, pure (k a)) -> pure (ebind m k).
Proof.
  intros Hm Hk r res r'. unfold ebind. destruct (m r) as [[[rc|a] r1]|] eqn:E; cbn; [|  |done].
  - intros [= <- <-]. by eapply Hm.
  - intros H. eapply same_mgmt_trans; [by eapply Hm|by eapply Hk].
Qed.

Lemma pure_same {A} (m : io A) :
  (forall r, m r = None \/ exists res r', m r = Some (res, r') /\ same_mgmt r r') -> pure m.
Proof. intros H r res r' E. destruct (H r) as [H0|(? & ? & H0 & ?)]; congruence. Qed.

Lemma pure_ret {A} (a : A) : pure (eret a).
Proof. by intros r res r' [= <- <-]. Qed.

Lemma pure_fail {A} rc : pure (efail (A := A) rc).
Proof. by intros r res r' [= <- <-]. Qed.

Lemma pure_undef {A} : pure (eundef (A := A)).
Proof. by intros r res r'. Qed.

Lemma pure_current : pure current.
Proof. by intros r res r' [= <- <-]. Qed.

Lemma pure_update_xmit f : (forall x, f_buf (f x) = f_buf x) -> pure (update_xmit f).
Proof.
  intros Hf r res r' [= <- <-]. unfold same_mgmt, bufs_ok. cbn. by rewrite Hf.
Qed.

Lemma pure_update_recv f : (forall x, f_buf (f x) = f_buf x) -> pure (update_recv f).
Proof.
  intros Hf r res r' [= <- <-]. unfold same_mgmt, bufs_ok. cbn. by rewrite Hf.
Qed.

Lemma pure_update_state s : pure (update_state s).
Proof. by intros r res r' [= <- <-]. Qed.

Lemma pure_writebuf src n : pure (uk_9preq_writebuf src n).
Proof.
  intros r res r'. unfold uk_9preq_writebuf. case_test; [by intros [= <- <-]|].
  destruct (buf_read src 0 n) as [bs|]; [cbn [mbind option_bind]|done].
  destruct (buf_write _ _ bs) as [b|] eqn:Eb; [|done]. cbn. intros [= <- <-].
  apply buf_write_length in Eb. unfold same_mgmt, bufs_ok. cbn. by rewrite Eb.
Qed.

Lemma pure_readbuf n : pure (uk_9preq_readbuf n).
Proof.
  intros r res r'. unfold uk_9preq_readbuf. case_test; [by intros [= <- <-]|].
  destruct (buf_read _ _ n) as [bs|]; [cbn|done]. by intros [= <- <-].
Qed.

Create HintDb pure discriminated.
#[local] Hint Resolve pure_ret pure_fail pure_undef pure_current pure_update_xmit
  pure_update_recv pure_update_state pure_writebuf pure_readbuf : pure.

Lemma pure_readstr : pure uk_9preq_readstr.
Proof.
  apply pure_bind; [apply pure_bind; auto with pure|].
  intros n r res r'. cbv zeta. case_test; by intros [= <- <-].
Qed.
#[local] Hint Resolve pure_readstr : pure.

Ltac solve_pure :=
  repeat first
    [ progress intros
    | solve [eauto 2 with pure]
    | apply pure_bind
    | match goal with |- pure (if ?b then _ else _) => destruct b end
    | match goal with |- pure (match ?x with _ => _ end) => destruct x end
    | progress unfold uk_9preq_readstat, uk_9preq_readqid, uk_9preq_read8, uk_9preq_read16,
        uk_9preq_read32, uk_9preq_read64, read_int, uk_9preq_writestat, uk_9preq_writeqid,
        uk_9preq_writestr, uk_9preq_write8, uk_9preq_write16, uk_9preq_write32,
        uk_9preq_write64, write_int ].

Lemma pure_readqid : pure uk_9preq_readqid.
Proof. solve_pure. Qed.
Lemma pure_readstat : pure uk_9preq_readstat.
Proof. solve_pure. Qed.
Lemma pure_writestat st : pure (uk_9preq_writestat st).
Proof. solve_pure. Qed.

Lemma pure_ready dir zc zs zo : pure (uk_9preq_ready dir zc zs zo).
Proof. unfold uk_9preq_ready. solve_pure. Qed.

Lemma pure_receive n : pure (uk_9preq_receive_cb n).
Proof.
  unfold uk_9preq_receive_cb. solve_pure. apply pure_update_recv. intros x.
  destruct (f_zc_buf x); [by case_test|done].
Qed.

Lemma pure_waitreply : pure uk_9preq_waitreply.
Proof.
  intros r res r'. unfold uk_9preq_waitreply. case_test; [|done].
  revert r res r' E. enough (pure uk_9preq_error) by eauto.
  unfold uk_9preq_error. solve_pure.
Qed.

Lemma scatter_length x reply n y :
  scatter x reply = Some (n, y) -> length (f_buf y) = length (f_buf x).
Proof.
  unfold scatter. destruct (buf_write (f_buf x) _ _) as [b|] eqn:E1; [|done].
  cbn [mbind option_bind]. apply buf_write_length in E1.
  destruct (f_zc_buf x) as [z|]; [|by intros [= <- <-]].
  destruct (buf_write z _ _) as [z'|]; [|done]. cbn [mbind option_bind].
  case_test.
  - destruct (buf_write b _ _) as [b'|] eqn:E2; [|done]. apply buf_write_length in E2.
    cbn. intros [= <- <-]. cbn. lia.
  - cbn. intros [= <- <-]. done.
Qed.

Lemma pure_transfer : pure virtio_9p_transfer.
Proof.
  intros r res r'. unfold virtio_9p_transfer. case_test; [done|].
  destruct (scatter _ _) as [[len y]|] eqn:Es; [|done]. cbn [mbind option_bind].
  apply scatter_length in Es.
  destruct (uk_9preq_receive_cb len _) as [[res1 r1]|] eqn:Er; [|done]. cbn [mbind option_bind].
  apply pure_receive in Er.
  assert (H1 : same_mgmt r r1).
  { eapply same_mgmt_trans; [|exact Er]. unfold same_mgmt, bufs_ok. cbn. by rewrite Es. }
  case_test; [|by intros [= <- <-]].
  destruct (buf_read _ _ _) as [src|]; [|done]. cbn [mbind option_bind].
  destruct (buf_write _ _ src) as [b|] eqn:Eb; [|done]. cbn. intros [= <- <-].
  apply buf_write_length in Eb. eapply same_mgmt_trans; [exact H1|].
  unfold same_mgmt, bufs_ok. cbn. by rewrite Eb.
Qed.

(** [m] keeps the invariant of the device and maps the list of outstanding requests with [f];
    it needs the requests [need] to be outstanding and room for [k] more. *)
Definition effect {A} (need : list Z) (k : Z) (f : list Z -> list Z) (m : dm A) : Prop :=
  forall d ext res d', inv d ext -> (forall q, ext q < 2 ^ 16 - 2) ->
    zlen (req_list d) + k <= UK_9P_NOTAG -> (forall q, q ∈ need -> q ∈ req_list d) ->
    m d = Some (res, d') -> inv d' ext /\ req_list d' = f (req_list d).

Definition steady {A} (need : list Z) (k : Z) (m : dm A) : Prop := effect need k (fun l => l) m.
Definition drops {A} (p : Z) (need : list Z) (k : Z) (m : dm A) : Prop :=
  effect (p :: need) k (list_del p) m.

Lemma steady_bind {A B} need k (m : dm A) (h : A -> dm B) :
  steady need k m -> (forall a, steady need k (h a)) -> steady need k (ebind m h).
Proof.
  intros Hm Hh d ext res d' I Hx Hk Hn. unfold ebind.
  destruct (m d) as [[[rc|a] d1]|] eqn:E; cbn; [| |done].
  - intros [= <- <-]. by eapply Hm.
  - destruct (Hm d ext _ d1 I Hx Hk Hn E) as [I1 E1]. intros H.
    destruct (Hh a d1 ext res d' I1 Hx) as [I2 E2]; rewrite ?E1; try done. split; [done|congruence].
Qed.

Lemma steady_more {A} need need' k k' (m : dm A) :
  steady need k m -> k <= k' -> (forall q, q ∈ need -> q ∈ need') -> steady need' k' m.
Proof.
  intros Hm Hk Hn d ext res d' I Hx Hl Hn'. apply Hm; auto. lia.
Qed.

Lemma steady_ret {A} need k (a : A) : steady need k (eret a).
Proof. by intros d ext res d' I Hx Hk Hn [= <- <-]. Qed.
Lemma steady_fail {A} need k rc : steady need k (efail (A := A) rc).
Proof. by intros d ext res d' I Hx Hk Hn [= <- <-]. Qed.

Lemma steady_on_req {A} need k p (m : io A) : pure m -> steady need k (on_req p m).
Proof.
  intros Hp d ext res d' I Hx Hk Hn. unfold on_req.
  destruct (reqs d !! p) as [r|] eqn:Er; [|done]. cbn [mbind option_bind].
  destruct (m r) as [[res1 r1]|] eqn:Em; [|done]. cbn. intros [= <- <-].
  split; [|done]. eapply invh_update; eauto.
Qed.

(** The fids are not part of the invariant. *)
Lemma inv_fids d ext n fl al fs : inv d ext -> inv (set_fid_mgmt d n fl al fs) ext.
Proof. intros [W L N D T U B O R E F S SN H]. by constructor. Qed.

Lemma steady_get_fid need k p : steady need k (get_fid p).
Proof.
  intros d ext res d' I Hx Hk Hn. unfold get_fid.
  destruct (fids d !! p); [cbn|done]. by intros [= <- <-].
Qed.

Lemma steady_set_fid need k p g : steady need k (set_fid p g).
Proof.
  intros d ext res d' I Hx Hk Hn. unfold set_fid.
  destruct (fids d !! p) as [f|]; [cbn|done]. intros [= <- <-]. split; [|done]. by apply inv_fids.
Qed.

Lemma steady_get_dev need k : steady need k get_dev.
Proof. by intros d ext res d' I Hx Hk Hn [= <- <-]. Qed.

Lemma steady_on_error {A} need k (c : dm unit) (m : dm A) :
  steady need k c -> steady need k m -> steady need k (on_error c m).
Proof.
  intros Hc Hm d ext res d' I Hx Hk Hn. unfold on_error.
  destruct (m d) as [[[rc|a] d1]|] eqn:E; cbn [mbind option_bind]; [| |done].
  - destruct (Hm d ext _ d1 I Hx Hk Hn E) as [I1 E1].
    destruct (c d1) as [[res2 d2]|] eqn:Ec; [|done]. cbn. intros [= <- <-].
    destruct (Hc d1 ext res2 d2 I1 Hx) as [I2 E2]; rewrite ?E1; try done. split; [done|congruence].
  - intros [= <- <-]. by eapply Hm.
Qed.

Lemma steady_request need k p : p ∈ need -> steady need k (uk_9pdev_request p).
Proof.
  intros Hp d ext res d' I Hx Hk Hn. specialize (Hn p Hp). unfold uk_9pdev_request.
  destruct (reqs d !! p) as [r|] eqn:Er; [|done]. cbn [mbind option_bind].
  case_test; [by intros [= <- <-]|]. destruct (d_state d); [|by intros [= <- <-]].
  assert (Hf : p ∉ req_free_list d).
  { pose proof (i_nodup _ _ _ I) as N. apply NoDup_app in N as (_ & N2 & _). by apply N2. }
  destruct (i_ref _ _ _ I p r Er Hf ltac:(done)) as [Hrc _]. rewrite decide_True in Hrc by done.
  destruct (req_get_spec d ext p r I Er Hf) as (d1 & -> & I1 & E1); [specialize (Hx p); lia|].
  cbn [mbind option_bind]. unfold on_req.
  destruct (reqs d1 !! p) as [r1|] eqn:Er1; [|done]. cbn [mbind option_bind].
  destruct (virtio_9p_transfer r1) as [[res1 r2]|] eqn:Et; [|done]. cbn [mbind option_bind].
  apply pure_transfer in Et. pose proof (invh_update _ _ _ _ _ _ I1 Er1 Et) as I2.
  destruct (req_put_spec _ _ p I2) as (last & d3 & -> & I3 & E3 & _).
  { unfold bump. rewrite decide_True by done. pose proof (proj1 (i_ext _ _ _ I p)). lia. }
  cbn. intros [= <- <-]. split; [|cbn in E3; congruence].
  eapply invh_ext; [exact I3|]. intros q. unfold bump. case_decide; lia.
Qed.

Lemma steady_send need k p dir zc zs zo : p ∈ need -> steady need k (send_and_wait_zc p dir zc zs zo).
Proof.
  intros Hp. apply steady_bind; [apply steady_on_req, pure_ready|]. intros _.
  apply steady_bind; [by apply steady_request|]. intros _. apply steady_on_req, pure_waitreply.
Qed.

Lemma drops_remove p need k : drops p need k (remove_req p).
Proof.
  intros d ext res d' I Hx Hk Hn. unfold remove_req.
  destruct (remove_spec d ext p I) as (last & d1 & -> & I1 & E1 & _);
    [apply Hn, list_elem_of_here|]. cbn. by intros [= <- <-].
Qed.

Lemma drops_finally {A} p need k (m : dm A) :
  steady (p :: need) k m -> drops p need k (finally_remove p m).
Proof.
  intros Hm d ext res d' I Hx Hk Hn. unfold finally_remove.
  destruct (m d) as [[res1 d1]|] eqn:E; [|done]. cbn [mbind option_bind].
  destruct (Hm d ext _ d1 I Hx Hk Hn E) as [I1 E1].
  destruct (remove_spec d1 ext p I1) as (last & d2 & -> & I2 & E2 & _).
  { rewrite E1. apply Hn, list_elem_of_here. }
  cbn. intros [= <- <-]. split; [done|congruence].
Qed.

Lemma drops_bind_steady {A B} p need k (m : dm A) (h : A -> dm B) :
  drops p need k m -> (forall a, steady [] k (h a)) -> drops p need k (ebind m h).
Proof.
  intros Hm Hh d ext res d' I Hx Hk Hn. unfold ebind.
  destruct (m d) as [[[rc|a] d1]|] eqn:E; cbn; [| |done].
  - intros [= <- <-]. by eapply Hm.
  - destruct (Hm d ext _ d1 I Hx Hk Hn E) as [I1 E1]. intros H.
    destruct (Hh a d1 ext res d' I1 Hx) as [I2 E2]; [|by intros q Hq%not_elem_of_nil|done|].
    { rewrite E1. unfold list_del. pose proof (length_filter (fun q => q <> p) (req_list d)).
      lia. }
    split; [done|congruence].
Qed.

Lemma list_del_length p l : (length (list_del p l) <= length l)%nat.
Proof. apply length_filter. Qed.

Lemma drops_on_error {A} p need k (c : dm unit) (m : dm A) :
  drops p need k m -> steady [] k c -> drops p need k (on_error c m).
Proof.
  intros Hm Hc d ext res d' I Hx Hk Hn. unfold on_error.
  destruct (m d) as [[[rc|a] d1]|] eqn:E; cbn [mbind option_bind]; [| |done].
  - destruct (Hm d ext _ d1 I Hx Hk Hn E) as [I1 E1].
    destruct (c d1) as [[res2 d2]|] eqn:Ec; [|done]. cbn. intros [= <- <-].
    destruct (Hc d1 ext res2 d2 I1 Hx) as [I2 E2]; [|by intros q Hq%not_elem_of_nil|done|].
    { rewrite E1. pose proof (list_del_length p (req_list d)). lia. }
    split; [done|congruence].
  - intros [= <- <-]. by apply (Hm d ext (inr a)).
Qed.

(** [m] drops [p] when it fails. *)
Definition err_drops {A} (p : Z) (need : list Z) (k : Z) (m : dm A) : Prop :=
  forall d ext res d', inv d ext -> (forall q, ext q < 2 ^ 16 - 2) ->
    zlen (req_list d) + k <= UK_9P_NOTAG -> (forall q, q ∈ p :: need -> q ∈ req_list d) ->
    m d = Some (res, d') -> inv d' ext /\
    req_list d' = match res with inl _ => list_del p (req_list d) | inr _ => req_list d end.

(** [m] does not fail. *)
Definition total {A} (m : dm A) : Prop := forall d res d', m d = Some (res, d') -> exists a, res = inr a.

Lemma err_drops_on_error {A} p need k (c : dm unit) (m : dm A) :
  drops p need k c -> steady (p :: need) k m -> err_drops p need k (on_error c m).
Proof.
  intros Hc Hm d ext res d' I Hx Hk Hn. unfold on_error.
  destruct (m d) as [[[rc|a] d1]|] eqn:E; cbn [mbind option_bind]; [| |done].
  - destruct (Hm d ext _ d1 I Hx Hk Hn E) as [I1 E1].
    destruct (c d1) as [[res2 d2]|] eqn:Ec; [|done]. cbn. intros [= <- <-].
    destruct (Hc d1 ext res2 d2 I1 Hx) as [I2 E2]; rewrite ?E1; try done. split; [done|congruence].
  - intros [= <- <-]. by apply (Hm d ext (inr a)).
Qed.

Lemma err_drops_total {A} p need k (m : dm A) :
  total m -> steady (p :: need) k m -> err_drops p need k m.
Proof.
  intros Ht Hm d ext res d' I Hx Hk Hn H. destruct (Ht d res d' H) as [a ->]. by eapply Hm.
Qed.

Lemma drops_bind {A B} p need k (m : dm A) (h : A -> dm B) :
  err_drops p need k m -> (forall a, drops p need k (h a)) -> drops p need k (ebind m h).
Proof.
  intros Hm Hh d ext res d' I Hx Hk Hn. unfold ebind.
  destruct (m d) as [[[rc|a] d1]|] eqn:E; cbn; [| |done].
  - intros [= <- <-]. by apply (Hm d ext (inl rc)).
  - destruct (Hm d ext _ d1 I Hx Hk Hn E) as [I1 E1]. intros H.
    destruct (Hh a d1 ext res d' I1 Hx) as [I2 E2]; rewrite ?E1; try done. split; [done|congruence].
Qed.

Lemma total_get_fid p : total (get_fid p).
Proof. intros d res d'. unfold get_fid. destruct (fids d !! p); [cbn|done]. intros [= <- <-]. eauto. Qed.
Lemma total_set_fid p g : total (set_fid p g).
Proof. intros d res d'. unfold set_fid. destruct (fids d !! p); [cbn|done]. intros [= <- <-]. eauto. Qed.

Lemma list_del_id p l : p ∉ l -> list_del p l = l.
Proof.
  unfold list_del. induction l as [|q l IH]; intros Hp; [done|].
  apply not_elem_of_cons in Hp as [Hq Hp]. rewrite filter_cons_True by congruence.
  by rewrite IH.
Qed.

(** A request that is created and dropped again leaves the list as it was. *)
Lemma steady_create {A} need k type (body : Z -> dm A) :
  (forall p, drops p need k (body p)) -> 0 <= k ->
  steady need (k + 1) (let! p := request_create type in body p).
Proof.
  intros Hb Hk0 d ext res d' I Hx Hk Hn. unfold request_create.
  destruct (req_create_spec type d ext I ltac:(lia)) as [(d1 & H1 & I1 & E1 & _)|
    (p & r & d1 & H1 & I1 & Hnl & El & _)].
  - rewrite (ebind_err _ _ _ _ _ H1). intros [= <- <-]. done.
  - rewrite (ebind_ok _ _ _ _ _ H1). intros H.
    destruct (Hb p d1 ext res d' I1 Hx) as [I2 E2]; rewrite ?El.
    + cbn [length]. lia.
    + intros q Hq. apply elem_of_cons in Hq as [->|Hq]; [apply list_elem_of_here|].
      by apply list_elem_of_further, Hn.
    + done.
    + split; [done|]. rewrite E2, El. unfold list_del. rewrite filter_cons_False by naive_solver.
      by apply list_del_id.
Qed.

(** The same when a failure to create the request is handled, or ends in undefined behaviour. *)
Lemma steady_create_error {A} need k type (c : dm unit) (body : Z -> dm A) :
  (forall p, drops p need k (body p)) -> 0 <= k -> steady need (k + 1) c ->
  steady need (k + 1) (let! p := on_error c (request_create type) in body p).
Proof.
  intros Hb Hk0 Hc d ext res d' I Hx Hk Hn H.
  destruct (req_create_spec type d ext I ltac:(lia)) as [(d1 & H1 & I1 & E1 & _)|
    (p & r & d1 & H1 & _)].
  - unfold ebind, on_error, request_create in H. rewrite H1 in H. cbn [mbind option_bind] in H.
    destruct (c d1) as [[res2 d2]|] eqn:E2; [|done]. cbn in H. simplify_eq.
    destruct (Hc d1 ext res2 d' I1 Hx) as [I2 E3]; rewrite ?E1; try done. split; [done|congruence].
  - apply (steady_create need k type body Hb Hk0 d ext res d' I Hx Hk Hn).
    unfold request_create. rewrite (ebind_ok _ _ _ _ _ H1).
    unfold ebind, on_error, request_create in H. by rewrite H1 in H.
Qed.

Lemma steady_create_partial {A} need k type (body : Z -> dm A) :
  (forall p, drops p need k (body p)) -> 0 <= k ->
  steady need (k + 1) (let! p := (fun d => '(res, d) ← request_create type d;
     match res with inl _ => None | inr p => Some (inr p, d) end) in body p).
Proof.
  intros Hb Hk0 d ext res d' I Hx Hk Hn H.
  apply (steady_create need k type body Hb Hk0 d ext res d' I Hx Hk Hn).
  unfold ebind in *. destruct (request_create type d) as [[[rc|p] d1]|]; by cbn in *.
Qed.

Lemma steady_calls {A} need k type (body : Z -> dm A) :
  (forall p, steady (p :: need) k (body p)) -> 0 <= k ->
  steady need (k + 1) (let! p := request_create type in finally_remove p (body p)).
Proof. intros Hb Hk. apply steady_create; [|done]. intros p. by apply drops_finally. Qed.

Lemma steady_clunk need fp : steady need 1 (uk_9p_clunk fp).
Proof.
  apply steady_bind; [apply steady_get_fid|]. intros f. destruct (was_removed f).
  { apply steady_ret. }
  apply (steady_calls need 0); [|done]. intros p. apply steady_bind.
  - apply steady_on_req. solve_pure.
  - intros _. apply steady_send, list_elem_of_here.
Qed.

Lemma steady_release need fp : steady need 1 (uk_9pdev_fid_release fp).
Proof.
  intros d ext res d' I Hx Hk Hn. unfold uk_9pdev_fid_release.
  destruct (uk_9p_clunk fp d) as [[res1 d1]|] eqn:E; [|done]. cbn.
  destruct (steady_clunk need fp d ext _ d1 I Hx Hk Hn E) as [I1 E1].
  intros [= <- <-]. unfold _fid_mgmt_del_fid_locked. case_match; (split; [by apply inv_fids|done]).
Qed.

Lemma steady_fid_create need k : steady need k uk_9pdev_fid_create.
Proof.
  apply steady_bind.
  - intros d ext res d' I Hx Hk Hn. unfold _fid_mgmt_next_fid_locked.
    destruct (fid_free_list d) as [|p fl] eqn:Ef.
    + unfold uk_calloc. destruct (d_supply d) as [|q sup] eqn:Es;
        cbn [mbind option_bind]; [by intros [= <- <-]|].
      assert (Is : inv (set_supply d sup) ext).
      { destruct I as [W L N D T U B O R E F S SN H]. rewrite Es in *. constructor; cbn; try done.
        - intros p Hp. by apply S, list_elem_of_further.
        - rewrite filter_cons in SN. case_decide; [by apply NoDup_cons in SN as [_ SN]|done]. }
      destruct (q =? 0); [by intros [= <- <-]|]. cbn. rewrite lookup_insert_eq. cbn.
      intros [= <- <-]. split; [|done]. repeat apply inv_fids. done.
    + cbn. destruct (fids d !! p) as [f|]; [|done]. cbn. intros [= <- <-].
      split; [|done]. by repeat apply inv_fids.
  - intros p d ext res d' I Hx Hk Hn [= <- <-]. split; [by apply inv_fids|done].
Qed.

Lemma steady_read_into {A} need k fp p (m : io A) g : pure m -> steady need k (read_into fp p m g).
Proof.
  intros Hm. apply steady_bind; [by apply steady_on_req|]. intros a. apply steady_set_fid.
Qed.

Lemma steady_readqid_fid need k fp p : steady need k (readqid_fid fp p).
Proof. repeat (apply steady_bind; [|intros _]); apply steady_read_into; solve_pure. Qed.

Lemma steady_read_open need k fp p : steady need k (read_open fp p).
Proof.
  apply steady_bind; [apply steady_readqid_fid|]. intros _. apply steady_read_into. solve_pure.
Qed.

(** The operations.  [uk_9p_version] and [uk_9p_stat] hand their request to the caller, who is to
    remove it; the others give it back themselves. *)
Inductive p9op :=
  | Version (requested : list Z) | Stat (fp : Z)
  | Clunk (fp : Z) | Release (fp : Z) | Attach (afid : Z) (uname aname : list Z) (n_uname : Z)
  | Flush (oldtag : Z) | Walk (fp : Z) (name : option (list Z)) | Open (fp mode : Z)
  | Create (fp : Z) (name : list Z) (perm mode : Z) (extension : option (list Z))
  | Remove (fp : Z) | Read (fp offset count : Z) (buf : list Z)
  | Write (fp offset count : Z) (buf : list Z) | Wstat (fp : Z) (st : uk_9p_stat).

(** The result is the request handed to the caller, if any. *)
Definition run_op (o : p9op) : dm (option Z) :=
  match o with
  | Version v => let! r := uk_9p_version v in eret (Some r.1)
  | Stat fp => let! r := uk_9p_stat_ fp in eret (Some r.1)
  | Clunk fp => uk_9p_clunk fp ;! eret None
  | Release fp => uk_9pdev_fid_release fp ;! eret None
  | Attach a u n nu => uk_9p_attach a u n nu ;! eret None
  | Flush t => uk_9p_flush t ;! eret None
  | Walk fp n => uk_9p_walk fp n ;! eret None
  | Open fp m => uk_9p_open fp m ;! eret None
  | Create fp n pe m e => uk_9p_create fp n pe m e ;! eret None
  | Remove fp => uk_9p_remove fp ;! eret None
  | Read fp o n b => uk_9p_read fp o n b ;! eret None
  | Write fp o n b => uk_9p_write fp o n b ;! eret None
  | Wstat fp st => uk_9p_wstat fp st ;! eret None
  end.

Lemma total_release fp : total (uk_9pdev_fid_release fp).
Proof.
  intros d res d'. unfold uk_9pdev_fid_release. destruct (uk_9p_clunk fp d) as [[? ?]|]; [|done].
  cbn. intros [= <- <-]. by eexists.
Qed.

Lemma steady_attach a u n nu : steady [] 2 (uk_9p_attach a u n nu).
Proof.
  apply steady_bind; [apply steady_fid_create|]. intros fp.
  apply (steady_create_error [] 1); [|lia|].
  2: { eapply steady_more; [apply (steady_release [])|lia|done]. }
  intros p. apply drops_bind; [apply err_drops_total; [apply total_get_fid|apply steady_get_fid]|].
  intros f. apply drops_bind.
  - apply err_drops_on_error.
    + apply drops_bind; [apply err_drops_total; [apply total_release|apply steady_release]|].
      intros _. apply drops_remove.
    + apply steady_bind; [apply steady_on_req; solve_pure|]. intros _.
      apply steady_bind; [apply steady_send, list_elem_of_here|]. intros _.
      apply steady_readqid_fid.
  - intros _. apply drops_bind_steady; [apply drops_remove|]. intros _. apply steady_ret.
Qed.

Lemma steady_walk fp name : steady [] 2 (uk_9p_walk fp name).
Proof.
  apply steady_bind; [apply steady_fid_create|]. intros nfp.
  apply steady_bind; [apply steady_get_fid|]. intros f.
  apply steady_bind; [apply steady_get_fid|]. intros nf. cbv zeta.
  apply (steady_create_partial [] 1); [|lia]. intros p.
  apply drops_bind_steady; [|intros _; apply steady_ret].
  apply drops_on_error; [|apply steady_release]. apply drops_finally.
  apply steady_bind; [apply steady_on_req; solve_pure|]. intros _.
  apply steady_bind.
  { apply steady_on_error; [apply steady_set_fid|apply steady_send, list_elem_of_here]. }
  intros _. apply steady_bind; [apply steady_on_req; solve_pure|]. intros nwqid.
  match goal with |- steady _ _ (if ?b then _ else _) => destruct b end; [apply steady_fail|].
  match goal with |- steady _ _ (if ?b then _ else _) => destruct b end;
    [apply steady_set_fid|apply steady_readqid_fid].
Qed.

Lemma pure_patch dummy v : pure (fun r => b ← buf_write (f_buf (xmit r)) dummy v;
  Some (inr tt, set_xmit r (set_buf (xmit r) b))).
Proof.
  intros r res r'. destruct (buf_write _ dummy v) as [b|] eqn:Eb; [|done]. cbn.
  intros [= <- <-]. apply buf_write_length in Eb. unfold same_mgmt, bufs_ok. cbn. by rewrite Eb.
Qed.

Ltac steady_tac :=
  repeat first
    [ progress intros
    | apply steady_get_fid | apply steady_get_dev | apply steady_set_fid | apply steady_ret
    | apply steady_attach | apply steady_walk | apply steady_read_open
    | apply steady_send, list_elem_of_here
    | apply steady_on_req; solve_pure
    | apply (steady_calls [] 1); [|lia]
    | apply steady_bind ].

Lemma steady_none {A} (m : dm A) : steady [] 2 m -> steady [] 2 (m ;! eret (None : option Z)).
Proof. intros H. apply steady_bind; [done|]. intros _. apply steady_ret. Qed.

(** ** Requests handed to the caller *)

(** [m] leaves the list as it is when it fails, otherwise one request more, which it returns. *)
Definition hands_out {A} (f : A -> option Z) (m : dm A) : Prop :=
  forall d ext res d', inv d ext -> (forall q, ext q < 2 ^ 16 - 2) ->
    zlen (req_list d) + 2 <= UK_9P_NOTAG -> m d = Some (res, d') -> inv d' ext /\
    match res with
    | inl _ => req_list d' = req_list d
    | inr a => match f a with
               | Some p => p ∉ req_list d /\ req_list d' = p :: req_list d
               | None => req_list d' = req_list d
               end
    end.

Lemma none_hands_out {A} (m : dm A) : steady [] 2 m -> hands_out id (m ;! eret None).
Proof.
  intros H d ext res d' I Hx Hk E.
  destruct (steady_none m H d ext res d' I Hx Hk) as [I' E']; [by intros q Hq%not_elem_of_nil|done|].
  split; [done|]. destruct res as [rc|a]; [done|]. unfold ebind in E.
  destruct (m d) as [[[rc|x] d1]|]; cbn in E; [done| |done]. injection E as <- _. done.
Qed.

(** [m] ends with the result [p] when it does not fail. *)
Definition yields {A} (f : A -> Z) (p : Z) (m : dm A) : Prop :=
  forall d a d', m d = Some (inr a, d') -> f a = p.

Lemma yields_bind {A B} f p (m : dm A) (k : A -> dm B) :
  (forall a, yields f p (k a)) -> yields f p (ebind m k).
Proof.
  intros H d b d'. unfold ebind. destruct (m d) as [[[rc|a] d1]|]; cbn; [done| |done]. apply H.
Qed.

Lemma yields_on_error {A} f p (c : dm unit) (m : dm A) : yields f p m -> yields f p (on_error c m).
Proof.
  intros H d a d'. unfold on_error. destruct (m d) as [[[rc|x] d1]|] eqn:E; [| |done]; cbn.
  - by destruct (c d1) as [[? ?]|].
  - intros [= -> ->]. by eapply H.
Qed.

Lemma create_hands_out {A} type f (body : Z -> dm A) :
  (forall p, err_drops p [] 1 (body p)) -> (forall p, yields f p (body p)) ->
  hands_out (fun a => Some (f a)) (let! p := request_create type in body p).
Proof.
  intros Hb Hy d ext res d' I Hx Hk. unfold request_create.
  destruct (req_create_spec type d ext I ltac:(lia)) as [(d1 & H1 & I1 & E1 & _)|
    (p & r & d1 & H1 & I1 & Hnl & El & _)].
  - rewrite (ebind_err _ _ _ _ _ H1). by intros [= <- <-].
  - rewrite (ebind_ok _ _ _ _ _ H1). intros H.
    destruct (Hb p d1 ext res d' I1 Hx) as [I2 E2]; rewrite ?El.
    + cbn [length]. lia.
    + intros q Hq. apply elem_of_cons in Hq as [->|Hq%not_elem_of_nil]; [apply list_elem_of_here|done].
    + done.
    + split; [done|]. destruct res as [rc|a].
      * rewrite E2, El. unfold list_del. rewrite filter_cons_False by naive_solver.
        by apply list_del_id.
      * rewrite (Hy p d1 a d' H). split; [done|congruence].
Qed.

Lemma inv_msize d ext n : inv d ext -> inv (uk_9pdev_set_msize n d).2 ext.
Proof.
  intros [W L N D T U B O R E F S SN H]. unfold uk_9pdev_set_msize. by case_match; constructor.
Qed.

Lemma err_drops_bind_total {A B} p need k (m : dm A) (h : A -> dm B) :
  err_drops p need k m -> (forall a, steady (p :: need) k (h a)) -> (forall a, total (h a)) ->
  err_drops p need k (ebind m h).
Proof.
  intros Hm Hh Ht d ext res d' I Hx Hk Hn. unfold ebind.
  destruct (m d) as [[[rc|a] d1]|] eqn:E; cbn; [| |done].
  - intros [= <- <-]. by apply (Hm d ext (inl rc)).
  - destruct (Hm d ext _ d1 I Hx Hk Hn E) as [I1 E1]. intros H. destruct (Ht a _ _ _ H) as [b ->].
    destruct (Hh a d1 ext (inr b) d' I1 Hx) as [I2 E2]; rewrite ?E1; try done. split; [done|congruence].
Qed.

Lemma hands_out_bind {A B} f g (m : dm A) (k : A -> B) :
  (forall a, g (k a) = f a) -> hands_out f m -> hands_out g (let! a := m in eret (k a)).
Proof.
  intros Hg Hm d ext res d' I Hx Hk. unfold ebind.
  destruct (m d) as [[[rc|a] d1]|] eqn:E; cbn; [| |done]; intros [= <- <-];
    destruct (Hm d ext _ d1 I Hx Hk E) as [I1 E1]; [done|]. split; [done|]. by rewrite Hg.
Qed.

Lemma err_drops_after {A B} p need k (m : dm A) (h : A -> dm B) :
  total m -> steady (p :: need) k m -> (forall a, err_drops p need k (h a)) ->
  err_drops p need k (ebind m h).
Proof.
  intros Ht Hm Hh d ext res d' I Hx Hk Hn. unfold ebind.
  destruct (m d) as [[r d1]|] eqn:E; [|done]. destruct (Ht d r d1 E) as [a ->]. cbn.
  destruct (Hm d ext _ d1 I Hx Hk Hn E) as [I1 E1]. intros H. rewrite <- E1 in *.
  by eapply Hh.
Qed.

Lemma version_hands_out v : hands_out (fun r => Some r.1) (uk_9p_version v).
Proof.
  apply (create_hands_out UK_9P_TVERSION fst); intros p.
  - apply err_drops_after; [by intros d res d' [= <- <-]; eexists|apply steady_get_dev|]. intros d0.
    apply err_drops_bind_total.
    + apply err_drops_on_error; [apply drops_remove|].
      apply steady_bind; [apply steady_on_req; solve_pure|]. intros _.
      apply steady_bind; [apply steady_send, list_elem_of_here|]. intros _.
      apply steady_on_req. solve_pure.
    + intros a d ext res d' I Hx Hk Hn. pose proof (inv_msize d ext a.1 I) as I'.
      assert (El : req_list (uk_9pdev_set_msize a.1 d).2 = req_list d)
        by (unfold uk_9pdev_set_msize; by case_match).
      destruct (uk_9pdev_set_msize a.1 d) as [ok d1]. by intros [= <- <-].
    + intros a d res d'. destruct (uk_9pdev_set_msize a.1 d) as [ok d1]. intros [= <- <-]. by eexists.
  - apply yields_bind. intros d0. apply yields_bind. intros a d r d'.
    destruct (uk_9pdev_set_msize a.1 d) as [ok d1]. by intros [= <- <-].
Qed.

Lemma stat_hands_out fp : hands_out (fun r => Some r.1) (uk_9p_stat_ fp).
Proof.
  intros d ext res d' I Hx Hk. unfold uk_9p_stat_, get_fid, ebind at 1.
  destruct (fids d !! fp) as [f|]; [cbn [mbind option_bind]|done].
  apply (create_hands_out UK_9P_TSTAT fst); [| |done|done|done]; intros p.
  - apply err_drops_on_error; [apply drops_remove|].
    apply steady_bind; [apply steady_on_req; solve_pure|]. intros _.
    apply steady_bind; [apply steady_send, list_elem_of_here|]. intros _.
    apply steady_bind; [apply steady_on_req; solve_pure|]. intros st. apply steady_ret.
  - apply yields_on_error, yields_bind. intros _. apply yields_bind. intros _.
    apply yields_bind. intros st d1 r d2. by intros [= <- <-].
Qed.

Lemma op_hands_out o : hands_out id (run_op o).
Proof.
  destruct o; cbn [run_op];
    [by apply (hands_out_bind (fun r => Some r.1)), version_hands_out
    |by apply (hands_out_bind (fun r => Some r.1)), stat_hands_out|..];
    apply none_hands_out; unfold uk_9p_flush, uk_9p_open, uk_9p_create, uk_9p_remove,
    uk_9p_read, uk_9p_write, uk_9p_wstat.
  1: eapply steady_more; [apply (steady_clunk [])|lia|done].
  1: eapply steady_more; [apply (steady_release [])|lia|done].
  all: steady_tac. apply pure_patch.
Qed.

(** ** A call and its reply *)

(** The receive side after the reply [header ++ body] without a zero-copy buffer. *)
Definition received (x : uk_9preq_fcall) (ty t : Z) (body : list Z) : uk_9preq_fcall :=
  let reply := header (7 + zlen body) ty t ++ body in
  Fcall (zlen reply) ty 7 (reply ++ drop (length reply) (f_buf x)) None 0 0.

Lemma transfer_spec req msg ty body :
  state req = UK_9PREQ_READY -> message req = msg -> bufs_ok req -> tag req ∈u 16 -> ty ∈u 8 ->
  f_zc_buf (recv req) = None -> f_zc_size (recv req) = 0 -> f_zc_offset (recv req) = 0 ->
  7 + zlen body <= f_size (recv req) <= UK_9P_BUFSIZE ->
  host msg = header (7 + zlen body) ty (tag req) ++ body ->
  virtio_9p_transfer req = Some (inr tt,
    set_state (set_recv req (received (recv req) ty (tag req) body)) UK_9PREQ_RECEIVED).
Proof.
  intros Hst Hmsg [_ Hb] Ht Hty Hz1 Hz2 Hz3 Hfit Hhost. unfold virtio_9p_transfer.
  rewrite bool_decide_eq_true_2 by done. cbn [negb]. rewrite Hmsg, Hhost.
  unfold UK_9P_BUFSIZE in *.
  assert (Hl : zlen (header (7 + zlen body) ty (tag req) ++ body) = 7 + zlen body)
    by (rewrite length_app, header_length; lia).
  unfold scatter. cbv zeta.
  rewrite (firstn_all2 (n := Z.to_nat (f_size (recv req)))
    (header (7 + zlen body) ty (tag req) ++ body)) by lia.
  rewrite buf_write_front by lia.
  cbn [mbind option_bind]. rewrite Hz1. cbn [mbind option_bind].
  rewrite Z.min_l by lia.
  match goal with |- context [uk_9preq_receive_cb _ ?q] => set (req0 := q) end.
  pose proof (receive_spec req0 ty body) as HR. cbv zeta in HR.
  change (tag req0) with (tag req) in HR. rewrite HR; [|split; [done|split; [|by eexists]]|done|done].
  2: { cbn. rewrite length_app, length_drop. lia. }
  clear HR. unfold req0. clear req0.
  cbn [mbind option_bind]. cbv zeta. cbn [recv set_state set_recv f_type set_size set_type set_offset
    set_buf f_zc_size f_zc_buf f_zc_offset f_buf]. rewrite Hz1, Hz2, Hz3.
  rewrite bool_decide_eq_false_2 by (intros [? ?]; done). cbn [andb].
  assert (E : forall b, set_recv (set_state (set_recv (set_state (set_recv req (set_buf (recv req) b))
      UK_9PREQ_SENT) (set_size (set_type (set_offset (set_buf (recv req) b) 7) ty)
      (7 + zlen body))) UK_9PREQ_RECEIVED)
      (set_buf (set_size (set_type (set_offset (set_buf (recv req) b) 7) ty) (7 + zlen body)) b) =
    set_state (set_recv (set_state (set_recv req (set_buf (recv req) b)) UK_9PREQ_SENT)
      (set_size (set_type (set_offset (set_buf (recv req) b) 7) ty) (7 + zlen body)))
      UK_9PREQ_RECEIVED) by done.
  assert (Efin : forall b, b = header (7 + zlen body) ty (tag req) ++ body ++
      drop (length (header (7 + zlen body) ty (tag req) ++ body)) (f_buf (recv req)) ->
    set_state (set_recv (set_state (set_recv req (set_buf (recv req) b)) UK_9PREQ_SENT)
      (set_size (set_type (set_offset (set_buf (recv req) b) 7) ty) (7 + zlen body)))
      UK_9PREQ_RECEIVED =
    set_state (set_recv req (received (recv req) ty (tag req) body)) UK_9PREQ_RECEIVED).
  { intros b ->. unfold set_state, set_recv, received, set_size, set_type, set_offset, set_buf.
    cbn [xmit recv state tag refcount dev f_size f_type f_offset f_buf f_zc_buf f_zc_size
      f_zc_offset]. rewrite Hz1, Hz2, Hz3, Hl, <- app_assoc. done. }
  case_test.
  - rewrite Z.min_l by (apply wrap_range; lia). cbn [default].
    change (buf_read [] 0 0) with (Some ([] : list Z)). cbn [mbind option_bind].
    rewrite buf_write_nil by lia. cbn [mbind option_bind]. rewrite Hl.
    do 2 f_equal. rewrite E. apply Efin. by rewrite <- app_assoc.
  - rewrite Hl. do 2 f_equal. apply Efin. by rewrite <- app_assoc.
Qed.

Lemma received_rest x ty t body :
  zlen (f_buf x) = UK_9P_BUFSIZE -> 7 + zlen body <= UK_9P_BUFSIZE ->
  let y := received x ty t body in
  wf_fcall y /\ f_offset y <= f_size y /\ rest y = body.
Proof.
  intros Hb Hf. cbv zeta. unfold UK_9P_BUFSIZE in *.
  assert (Hl : zlen (header (7 + zlen body) ty t ++ body) = 7 + zlen body)
    by (rewrite length_app, header_length; lia).
  split; [|split].
  - unfold wf_fcall, received. cbn. rewrite length_app, length_drop. lia.
  - cbn. lia.
  - unfold rest, received. cbn [f_size f_offset f_buf]. rewrite Hl.
    change (Z.to_nat 7) with 7%nat. rewrite <- app_assoc.
    rewrite drop_app_length' by (by rewrite header_length).
    rewrite take_app_length' by lia. done.
Qed.

Lemma on_req_ok {A} p (m : io A) d r a r' :
  reqs d !! p = Some r -> m r = Some (a, r') ->
  on_req p m d = Some (a, set_reqs d (<[p := r']> (reqs d))).
Proof. intros H1 H2. unfold on_req. rewrite H1. cbn [mbind option_bind]. by rewrite H2. Qed.

Lemma set_reqs_set_reqs d p r r' :
  set_reqs (set_reqs d (<[p := r]> (reqs d))) (<[p := r']> (reqs (set_reqs d (<[p := r]> (reqs d)))))
  = set_reqs d (<[p := r']> (reqs d)).
Proof. unfold set_reqs, set_mgmt. cbn. by rewrite insert_insert_eq. Qed.

Lemma same_mgmt_put_buf r bs : fits (xmit r) bs -> wf_fcall (xmit r) ->
  same_mgmt r (set_xmit r (put (xmit r) bs)).
Proof.
  intros Hf (Ho & Hs & _). unfold same_mgmt, bufs_ok, put, fits in *. cbn.
  rewrite !length_app, length_take, length_drop. repeat split; lia.
Qed.

(** A request before and after the exchange of a message and its reply. *)
Definition replied (r : uk_9preq) (bs : list Z) (ty : Z) (rbody : list Z) : uk_9preq :=
  let r1 := readied (set_xmit r (put (xmit r) bs)) UK_9PREQ_ZCDIR_NONE None 0 0 in
  Req (xmit r1) (received (recv r) ty (tag r) rbody) UK_9PREQ_RECEIVED (tag r) 1 (dev r).

Lemma request_spec d p r msg ty rbody :
  reqs d !! p = Some r -> d_state d = UK_9PDEV_CONNECTED -> state r = UK_9PREQ_READY ->
  refcount r = 1 -> message r = msg -> bufs_ok r -> tag r ∈u 16 -> ty ∈u 8 ->
  f_zc_buf (recv r) = None -> f_zc_size (recv r) = 0 -> f_zc_offset (recv r) = 0 ->
  7 + zlen rbody <= f_size (recv r) <= UK_9P_BUFSIZE ->
  host msg = header (7 + zlen rbody) ty (tag r) ++ rbody ->
  uk_9pdev_request p d = Some (inr tt, set_reqs d (<[p :=
    Req (xmit r) (received (recv r) ty (tag r) rbody) UK_9PREQ_RECEIVED (tag r) 1 (dev r)]>
    (reqs d))).
Proof.
  intros Hr Hc Hst Hrc Hmsg Hb Ht Hty Hz1 Hz2 Hz3 Hfit Hhost. unfold uk_9pdev_request.
  rewrite Hr. cbn [mbind option_bind]. rewrite bool_decide_eq_true_2 by done. cbn [negb].
  rewrite Hc. unfold uk_9preq_get. rewrite Hr. cbn [mbind option_bind].
  rewrite acquire_small, Hrc by lia. change (1 + 1) with 2.
  set (d1 := set_reqs d _). set (r1 := set_refcount r 2) in *.
  assert (Hr1 : reqs d1 !! p = Some r1) by apply lookup_insert_eq.
  rewrite (on_req_ok p _ d1 r1 _ _ Hr1 (transfer_spec r1 msg ty rbody Hst Hmsg Hb Ht Hty Hz1 Hz2 Hz3
    Hfit Hhost)). cbn [mbind option_bind]. unfold d1. rewrite set_reqs_set_reqs.
  unfold uk_9preq_put. cbn [reqs set_reqs set_mgmt]. rewrite lookup_insert_eq.
  cbn [mbind option_bind refcount set_state set_recv].
  change (refcount r1) with 2. rewrite release_small by lia. cbn [andb].
  change (2 <=? 1) with false. cbn [andb]. do 2 f_equal.
  unfold set_reqs, set_mgmt. cbn. by rewrite insert_insert_eq.
Qed.

Lemma call_spec d p r W bs ty rbody :
  reqs d !! p = Some r -> d_state d = UK_9PDEV_CONNECTED ->
  fresh_req d (f_type (xmit r)) r -> refcount r = 1 -> writes W bs ->
  7 + zlen bs <= Z.min UK_9P_BUFSIZE (msize d) ->
  7 + zlen rbody <= Z.min UK_9P_BUFSIZE (msize d) -> ty ∈u 8 ->
  host (header (7 + zlen bs) (f_type (xmit r)) (tag r) ++ bs) =
    header (7 + zlen rbody) ty (tag r) ++ rbody ->
  (on_req p W ;! send_and_wait_no_zc p) d =
    ('(res, r') ← uk_9preq_waitreply (replied r bs ty rbody);
     Some (res, set_reqs d (<[p := r']> (reqs d)))) /\
  same_mgmt r (replied r bs ty rbody).
Proof.
  intros Hr Hc (Fst & Fb & Fo & Fs & _ & Fz & Fro & Frs & Frz & Frzs & Frzo & Ft & _) Hrc HW Hfit
    Hrfit Hty Hhost. unfold UK_9P_BUFSIZE, UK_9P_NOTAG in *. pose proof Fb as [Fb1 Fb2].
  unfold UK_9P_BUFSIZE in *.
  assert (Hwf : wf_fcall (xmit r)) by (unfold wf_fcall; lia).
  destruct (HW r Hwf ltac:(lia)) as [[Hfits Eq]|[Hn _]]; [|exfalso; apply Hn; unfold fits; lia].
  set (r1 := set_xmit r (put (xmit r) bs)) in *.
  pose proof (same_mgmt_put_buf r bs Hfits Hwf) as Hs1. fold r1 in Hs1.
  assert (Hprep : prepared r1 bs).
  { unfold prepared, r1. cbn [state xmit set_xmit]. split; [done|]. split; [by apply put_wf|].
    unfold put, fits in *. cbn. rewrite Fo in *. split; [done|]. split; [lia|]. split; [done|].
    rewrite app_assoc, take_app_length'
      by (rewrite length_app, length_take; change (Z.to_nat 7) with 7%nat; lia).
    by rewrite drop_app_length' by (rewrite length_take; change (Z.to_nat 7) with 7%nat; lia). }
  destruct (ready_spec r1 bs UK_9PREQ_ZCDIR_NONE None 0 0 Hprep) as [Eready Emsg].
  set (r2 := readied r1 UK_9PREQ_ZCDIR_NONE None 0 0) in *.
  assert (Hb2 : bufs_ok r2).
  { destruct (pure_ready UK_9PREQ_ZCDIR_NONE None 0 0 r1 _ r2 Eready) as (_ & _ & _ & Hb).
    apply Hb. by apply Hs1. }
  rewrite (ebind_ok _ _ _ _ _ (on_req_ok p W d r _ _ Hr Eq)). fold r1.
  set (d1 := set_reqs d (<[p := r1]> (reqs d))).
  assert (Hr1 : reqs d1 !! p = Some r1) by apply lookup_insert_eq.
  unfold send_and_wait_no_zc, send_and_wait_zc.
  rewrite (ebind_ok _ _ _ _ _ (on_req_ok p _ d1 r1 _ _ Hr1 Eready)).
  unfold d1. rewrite set_reqs_set_reqs.
  set (d2 := set_reqs d (<[p := r2]> (reqs d))).
  assert (Hr2 : reqs d2 !! p = Some r2) by apply lookup_insert_eq.
  rewrite (ebind_ok _ _ _ _ _ (request_spec d2 p r2 _ ty rbody Hr2 Hc eq_refl Hrc Emsg Hb2
    ltac:(unfold in_u; cbn; lia) Hty Frz Frzs Frzo ltac:(unfold UK_9P_BUFSIZE; cbn; lia) Hhost)).
  unfold d2. rewrite set_reqs_set_reqs.
  set (r3 := Req _ _ _ _ _ _). split.
  - unfold on_req. cbn [reqs set_reqs set_mgmt]. rewrite lookup_insert_eq.
    cbn [mbind option_bind]. change r3 with (replied r bs ty rbody).
    destruct (uk_9preq_waitreply (replied r bs ty rbody)) as [[res r4]|]; [|done].
    cbn [mbind option_bind]. do 2 f_equal. unfold set_reqs, set_mgmt. cbn.
    by rewrite insert_insert_eq.
  - split; [done|]. split; [done|]. split; [done|]. intros _. destruct Hb2 as [Hb2 _].
    split; [exact Hb2|]. unfold replied, received. cbn [recv f_buf].
    rewrite length_app, length_drop, length_app, header_length. unfold UK_9P_BUFSIZE. lia.
Qed.

(** An operation that creates a request and calls the server: the reply is ready to be read, or
    its error code comes back and the request is gone. *)
Lemma transact_spec {A} d ext type W bs rty rbody (k : Z -> dm A) :
  inv d ext -> zlen (req_list d) < UK_9P_NOTAG -> can_alloc d = true ->
  d_state d = UK_9PDEV_CONNECTED -> writes W bs ->
  7 + zlen bs <= Z.min UK_9P_BUFSIZE (msize d) ->
  7 + zlen rbody <= Z.min UK_9P_BUFSIZE (msize d) -> rty ∈u 8 ->
  (forall t, t ∈u 16 -> host (header (7 + zlen bs) type t ++ bs) =
                        header (7 + zlen rbody) rty t ++ rbody) ->
  exists p d1 r', inv d1 ext /\ (p ∉ req_list d) /\ req_list d1 = p :: req_list d /\
    fids d1 = fids d /\ reqs d1 !! p = Some r' /\ wf_fcall (recv r') /\
    f_offset (recv r') <= f_size (recv r') /\ rest (recv r') = rbody /\
    f_offset (recv r') = 7 /\ state r' = UK_9PREQ_RECEIVED /\ f_type (recv r') = rty /\
    (let! p := request_create type in
     finally_remove p (on_req p W ;! send_and_wait_no_zc p ;! k p)) d =
    finally_remove p (on_req p uk_9preq_waitreply ;! k p) d1.
Proof.
  intros I Hlen Hal Hc HW Hfit Hrfit Hty Hhost.
  destruct (req_create_spec type d ext I Hlen) as [(d0 & _ & _ & _ & _ & Hno)|
    (p & r & d1 & H1 & I1 & Hnl & El & Hr & Hf & Hx & Em & Es & Ef & _)]; [congruence|].
  pose proof Hf as (_ & Hb & _ & _ & Hft & _ & _ & _ & _ & _ & _ & Ht & _).
  assert (Hin : p ∈ req_list d1) by (rewrite El; apply list_elem_of_here).
  assert (Hrc : refcount r = 1).
  { assert (Hnf : p ∉ req_free_list d1).
    { pose proof (i_nodup _ _ _ I1) as N. apply NoDup_app in N as (_ & N2 & _). by apply N2. }
    destruct (i_ref _ _ _ I1 p r Hr Hnf ltac:(done)) as [E _].
    rewrite decide_True, Hx in E by done. lia. }
  assert (Htu : tag r ∈u 16) by (unfold in_u, UK_9P_NOTAG in *; lia).
  assert (Hf1 : fresh_req d1 (f_type (xmit r)) r).
  { rewrite Hft. unfold fresh_req in *. by rewrite Em. }
  destruct (call_spec d1 p r W bs rty rbody Hr ltac:(congruence) Hf1 Hrc HW
    ltac:(by rewrite Em) ltac:(by rewrite Em) Hty ltac:(rewrite Hft; by apply Hhost)) as [Hcall Hsame].
  set (r' := replied r bs rty rbody) in *.
  exists p, (set_reqs d1 (<[p := r']> (reqs d1))), r'.
  split; [by eapply invh_update|]. split; [done|]. split; [done|]. split; [done|].
  split; [apply lookup_insert_eq|].
  destruct (received_rest (recv r) rty (tag r) rbody) as (Hwf & Hle & Hrest);
    [apply Hb|lia|]. split; [done|]. split; [done|]. split; [done|]. split; [done|].
  split; [done|]. split; [done|].
  unfold request_create. rewrite (ebind_ok _ _ _ _ _ H1). unfold finally_remove.
  rewrite <- ebind_assoc. unfold ebind at 1. rewrite Hcall. cbn [mbind option_bind].
  unfold ebind at 1. unfold on_req at 1. cbn [reqs set_reqs set_mgmt]. rewrite lookup_insert_eq.
  cbn [mbind option_bind]. destruct (uk_9preq_waitreply r') as [[res r4]|]; [|done].
  cbn [mbind option_bind]. unfold set_reqs, set_mgmt. cbn [reqs tag_bm req_list req_free_list
    d_state msize max_msize next_fid fid_free_list fid_active_list fids d_supply].
  by rewrite insert_insert_eq.
Qed.

(** ** Reading a reply *)

Lemma set_reqs_id d p r : reqs d !! p = Some r -> set_reqs d (<[p := r]> (reqs d)) = d.
Proof. intros H. unfold set_reqs, set_mgmt. rewrite insert_id by done. by destruct d. Qed.

Lemma finally_remove_ok {A} (m : dm A) p d ext res d1 l :
  m d = Some (res, d1) -> inv d1 ext -> req_list d1 = p :: l -> p ∉ l ->
  exists d', finally_remove p m d = Some (res, d') /\ inv d' ext /\ req_list d' = l /\
    fids d' = fids d1.
Proof.
  intros Hm I El Hp. unfold finally_remove. rewrite Hm. cbn [mbind option_bind].
  destruct (remove_spec d1 ext p I) as (last & d2 & H2 & I2 & E2 & _).
  { rewrite El. apply list_elem_of_here. }
  rewrite H2. exists d2. split; [done|]. split; [done|]. split; [|by eapply remove_fids].
  rewrite E2, El. unfold list_del. rewrite filter_cons_False by naive_solver. by apply list_del_id.
Qed.

(** A step of deserialization: the request is advanced, the rest of the device stays. *)
Lemma read_step {A} (m : io A) bs a t p d ext r :
  reads m bs a -> inv d ext -> reqs d !! p = Some r -> wf_fcall (recv r) ->
  f_offset (recv r) <= f_size (recv r) -> rest (recv r) = bs ++ t ->
  exists d' r', on_req p m d = Some (inr a, d') /\ inv d' ext /\ req_list d' = req_list d /\
    fids d' = fids d /\ reqs d' !! p = Some r' /\ wf_fcall (recv r') /\
    f_offset (recv r') <= f_size (recv r') /\ rest (recv r') = t.
Proof.
  intros Hm I Hr Hwf Hle Hrest. pose proof (Hm r t Hwf Hle Hrest) as E.
  destruct (rest_skip _ _ _ Hwf Hle Hrest) as [Hr' Hle'].
  eexists _, _. split; [by apply (on_req_ok p m d r _ _ Hr E)|].
  split; [by eapply invh_update|]. split; [done|]. split; [done|].
  split; [apply lookup_insert_eq|]. split; [apply skip_wf; [lia|done]|]. done.
Qed.

(** What the server answers to a request: the result, or the text and the code of an error. *)
Definition reply_message (ty : Z) (reply : (uk_9p_str * Z) + list Z) : Z * list Z :=
  match reply with
  | inl (ename, e) => (UK_9P_RERROR, encode_str ename ++ le_bytes 4 e)
  | inr body => (ty, body)
  end.

Definition answers (type : Z) (bs : list Z) (ty : Z) (reply : (uk_9p_str * Z) + list Z) : Prop :=
  let '(rty, rbody) := reply_message ty reply in
  forall t, t ∈u 16 -> host (header (7 + zlen bs) type t ++ bs) =
                       header (7 + zlen rbody) rty t ++ rbody.

Definition reply_fits (d : uk_9pdev) (ty : Z) (reply : (uk_9p_str * Z) + list Z) : Prop :=
  ty ∈u 8 /\ ty <> UK_9P_RERROR /\
  7 + zlen (reply_message ty reply).2 <= Z.min UK_9P_BUFSIZE (msize d) /\
  match reply with inl (ename, e) => str_ok ename /\ e ∈u 32 | inr _ => True end.

(** A device that can make a call. *)
Definition usable (d : uk_9pdev) (ext : Z -> Z) : Prop :=
  inv d ext /\ zlen (req_list d) < UK_9P_NOTAG /\ can_alloc d = true /\
  d_state d = UK_9PDEV_CONNECTED.

(** A call ends with the error the server sent, or goes on with the body of its reply. *)
Lemma round_trip {A} d ext type W bs ty reply (k : Z -> dm A) (post : Z + A -> uk_9pdev -> Prop) :
  usable d ext -> writes W bs -> 7 + zlen bs <= Z.min UK_9P_BUFSIZE (msize d) ->
  reply_fits d ty reply -> answers type bs ty reply ->
  (forall ename e d', reply = inl (ename, e) -> fids d' = fids d -> post (inl (rerror_code e)) d') ->
  (forall body p d1 r, reply = inr body -> inv d1 ext -> p ∉ req_list d ->
     req_list d1 = p :: req_list d -> fids d1 = fids d -> reqs d1 !! p = Some r ->
     wf_fcall (recv r) -> f_offset (recv r) <= f_size (recv r) -> rest (recv r) = body ->
     exists res d2, k p d1 = Some (res, d2) /\ inv d2 ext /\ req_list d2 = req_list d1 /\
       forall d', fids d' = fids d2 -> post res d') ->
  exists res d', (let! p := request_create type in
     finally_remove p (on_req p W ;! send_and_wait_no_zc p ;! k p)) d = Some (res, d') /\
    inv d' ext /\ req_list d' = req_list d /\ post res d'.
Proof.
  intros (I & Hl & Hal & Hc) HW Hfit (Hty & Hne & Hrfit & Hok) Hans Herr Hres.
  unfold answers in Hans. destruct (reply_message ty reply) as [rty rbody] eqn:Er.
  cbn [snd] in Hrfit.
  assert (Hrty : rty ∈u 8).
  { destruct reply as [[ename e]|body]; cbn in Er; simplify_eq; [by compute|done]. }
  destruct (transact_spec d ext type W bs rty rbody k I Hl Hal Hc HW Hfit Hrfit Hrty Hans)
    as (p & d1 & r & I1 & Hp & El & Ef & Hr & Hwf & Hle & Hrest & Hoff & Hst & Hft & ->).
  destruct reply as [[ename e]|body]; cbn in Er; injection Er as <- <-.
  - destruct Hok as [Hs He].
    destruct (error_some r ename e [] Hst Hft Hwf Hoff ltac:(lia) Hs He
      ltac:(by rewrite app_nil_r)) as [x Ex].
    pose proof (on_req_ok p _ d1 r _ _ Hr Ex) as E1.
    assert (I2 : inv (set_reqs d1 (<[p := set_recv r x]> (reqs d1))) ext).
    { eapply invh_update; [done|done|]. by eapply pure_waitreply. }
    destruct (finally_remove_ok _ p d1 ext _ _ (req_list d) (ebind_err _ (fun _ => k p) _ _ _ E1)
      I2 El Hp) as (d' & E & I' & El' & Ef').
    exists (inl (rerror_code e)), d'. split; [done|]. split; [done|]. split; [done|].
    eapply Herr; [done|]. by rewrite Ef'.
  - pose proof (on_req_ok p _ d1 r _ _ Hr (error_none r Hst ltac:(by rewrite Hft))) as E1.
    rewrite (set_reqs_id d1 p r Hr) in E1.
    destruct (Hres body p d1 r eq_refl I1 Hp El Ef Hr Hwf Hle Hrest) as (res & d2 & E2 & I2 & El2 & HP).
    assert (E3 : (on_req p uk_9preq_waitreply ;! k p) d1 = Some (res, d2))
      by (by rewrite (ebind_ok _ _ _ _ _ E1)).
    destruct (finally_remove_ok _ p d1 ext _ _ (req_list d) E3 I2 ltac:(congruence) Hp)
      as (d' & E & I' & El' & Ef').
    exists res, d'. split; [done|]. split; [done|]. split; [done|]. by apply HP.
Qed.

(** [d'] is [d] after the reply's bytes were consumed up to [t] and the fid [fp] became [f']. *)
Definition advanced (d : uk_9pdev) (ext : Z -> Z) (p fp : Z) (f' : uk_9pfid) (t : list Z)
    (d' : uk_9pdev) : Prop :=
  inv d' ext /\ req_list d' = req_list d /\ fids d' = <[fp := f']> (fids d) /\
  exists r, reqs d' !! p = Some r /\ wf_fcall (recv r) /\ f_offset (recv r) <= f_size (recv r) /\
    rest (recv r) = t.

Lemma read_into_step {A} (m : io A) g bs a t p fp f d0 d ext :
  reads m bs a -> advanced d0 ext p fp f (bs ++ t) d ->
  exists d', read_into fp p m g d = Some (inr tt, d') /\ advanced d0 ext p fp (g a f) t d'.
Proof.
  intros Hm (I & El & Ef & r & Hr & Hwf & Hle & Hrest).
  destruct (read_step m bs a t p d ext r Hm I Hr Hwf Hle Hrest)
    as (d1 & r1 & E1 & I1 & El1 & Ef1 & Hr1 & Hwf1 & Hle1 & Hrest1).
  unfold read_into. rewrite (ebind_ok _ _ _ _ _ E1). unfold set_fid. rewrite Ef1, Ef, lookup_insert_eq.
  cbn [mbind option_bind]. eexists. split; [done|]. split; [by apply inv_fids|].
  split; [by cbn; rewrite El1|]. split; [|by exists r1]. cbn. by rewrite insert_insert_eq.
Qed.

Lemma read_open_spec d ext fp f p r q n :
  inv d ext -> reqs d !! p = Some r -> wf_fcall (recv r) -> f_offset (recv r) <= f_size (recv r) ->
  rest (recv r) = encode_qid q ++ le_bytes 4 n -> qid_ok q -> n ∈u 32 -> fids d !! fp = Some f ->
  exists d', read_open fp p d = Some (inr tt, d') /\
    advanced d ext p fp (Fid (fid f) q n (was_removed f) (frefcount f)) [] d'.
Proof.
  intros I Hr Hwf Hle Hrest (Hq1 & Hq2 & Hq3) Hn Hf.
  unfold encode_qid in Hrest. rewrite <- !app_assoc in Hrest.
  rewrite <- (app_nil_r (le_bytes 4 n)) in Hrest.
  assert (A0 : advanced d ext p fp f (le_bytes 1 (q_type q) ++ le_bytes 4 (q_version q) ++
    le_bytes 8 (q_path q) ++ le_bytes 4 n ++ []) d).
  { split; [done|]. split; [done|]. split; [by rewrite insert_id|]. by exists r. }
  unfold read_open, readqid_fid.
  edestruct (fun g => read_into_step uk_9preq_read8 g _ _ _ p fp f d d ext
    (reads_int 1 _ ltac:(done) Hq1) A0) as (d1 & E1 & A1).
  edestruct (fun g => read_into_step uk_9preq_read32 g _ _ _ p fp _ d d1 ext
    (reads_int 4 _ ltac:(done) Hq2) A1) as (d2 & E2 & A2).
  edestruct (fun g => read_into_step uk_9preq_read64 g _ _ _ p fp _ d d2 ext
    (reads_int 8 _ ltac:(done) Hq3) A2) as (d3 & E3 & A3).
  edestruct (fun g => read_into_step uk_9preq_read32 g _ _ _ p fp _ d d3 ext
    (reads_int 4 _ ltac:(done) Hn) A3) as (d4 & E4 & A4).
  rewrite (ebind_ok _ _ d tt d3).
  2: { rewrite (ebind_ok _ _ _ _ _ E1), (ebind_ok _ _ _ _ _ E2). exact E3. }
  rewrite E4. exists d4. split; [done|]. by destruct q.
Qed.

(** The reply to [open] and [create]: the error, or the identity of the file and the I/O unit. *)
Definition open_body (reply : (uk_9p_str * Z) + (uk_9p_qid * Z)) : (uk_9p_str * Z) + list Z :=
  match reply with inl e => inl e | inr (q, n) => inr (encode_qid q ++ le_bytes 4 n) end.
Definition opened (fp : Z) (f : uk_9pfid) (d : uk_9pdev) (reply : (uk_9p_str * Z) + (uk_9p_qid * Z))
    (res : Z + unit) (d' : uk_9pdev) : Prop :=
  match reply with
  | inl (_, e) => res = inl (rerror_code e) /\ fids d' = fids d
  | inr (q, n) => res = inr tt /\
      fids d' = <[fp := Fid (fid f) q n (was_removed f) (frefcount f)]> (fids d)
  end.

Lemma open_like d ext type W bs ty fp f reply :
  usable d ext -> writes W bs -> 7 + zlen bs <= Z.min UK_9P_BUFSIZE (msize d) ->
  fids d !! fp = Some f -> reply_fits d ty (open_body reply) -> answers type bs ty (open_body reply) ->
  match reply with inr (q, n) => qid_ok q /\ n ∈u 32 | inl _ => True end ->
  exists res d', (let! p := request_create type in
     finally_remove p (on_req p W ;! send_and_wait_no_zc p ;! read_open fp p)) d = Some (res, d') /\
    inv d' ext /\ req_list d' = req_list d /\ opened fp f d reply res d'.
Proof.
  intros Hu HW Hfit Hf Hrf Ha Hok.
  apply (round_trip d ext type W bs ty (open_body reply) (read_open fp)); try done.
  - intros ename e d' E Ef. destruct reply as [[en e']|[q n]]; cbn in E; simplify_eq. by cbn.
  - intros body p d1 r E I1 Hp El Ef Hr Hwf Hle Hrest.
    destruct reply as [[en e']|[q n]]; cbn in E; simplify_eq. destruct Hok as [Hq Hn].
    destruct (read_open_spec d1 ext fp f p r q n I1 Hr Hwf Hle (eq_sym E) Hq Hn) as
      (d2 & E2 & I2 & El2 & Ef2 & _); [by rewrite Ef|].
    exists (inr tt), d2. split; [done|]. split; [done|]. split; [done|]. intros d' E'. cbn.
    split; [done|]. rewrite E', Ef2, Ef. done.
Qed.

End Client.

(** C33: an operation of the client leaves no request behind and keeps the device's invariant,
    whatever the server answers: garbage, an error, or nothing that fits.  [uk_9p_version] and
    [uk_9p_stat] hand one new request to the caller when they succeed; it is in the list, and
    removing it, as the callers do, leaves the list as it was before the call.  There must be
    room for two requests below the limit of tags, and fewer than 2^16 - 2 other references to
    a request. *)
Theorem p9_no_leak host o d ext res d' :
  inv d ext -> (forall q, ext q < 2 ^ 16 - 2) -> zlen (req_list d) + 2 <= UK_9P_NOTAG ->
  run_op host o d = Some (res, d') -> inv d' ext /\
  match res with
  | inr (Some p) => p ∉ req_list d /\ req_list d' = p :: req_list d /\
      exists d'', remove_req p d' = Some (inr tt, d'') /\ inv d'' ext /\ req_list d'' = req_list d
  | _ => req_list d' = req_list d
  end.
Proof.
  intros I Hx Hl H. destruct (op_hands_out host o d ext res d' I Hx Hl H) as [I' H'].
  split; [done|]. destruct res as [rc|[p|]]; [done| |done]. cbn in H'. destruct H' as [Hp El].
  split; [done|]. split; [done|].
  destruct (remove_spec d' ext p I') as (last & d2 & E & I2 & E2 & _).
  { rewrite El. apply list_elem_of_here. }
  exists d2. unfold remove_req. rewrite E. split; [done|]. split; [done|].
  rewrite E2, El. unfold list_del. rewrite filter_cons_False by naive_solver. by apply list_del_id.
Qed.

(** C36: opening a file sends [Topen] with the fid and the mode, stores the identity and the I/O
    unit of the reply in the fid, returns the server's error code when there is one, and leaves
    no request behind. *)
Theorem p9_open_correct host d ext fp f mode reply :
  usable d ext -> fids d !! fp = Some f -> 12 <= msize d ->
  reply_fits d (UK_9P_TOPEN + 1) (open_body reply) ->
  answers host UK_9P_TOPEN (le_bytes 4 (fid f) ++ le_bytes 1 mode) (UK_9P_TOPEN + 1) (open_body reply) ->
  match reply with inr (q, n) => qid_ok q /\ n ∈u 32 | inl _ => True end ->
  exists res d', uk_9p_open host fp mode d = Some (res, d') /\ inv d' ext /\
    req_list d' = req_list d /\ opened fp f d reply res d'.
Proof.
  intros Hu Hf Hm Hrf Ha Hok. unfold uk_9p_open.
  rewrite (ebind_ok (get_fid fp) _ d f d) by (unfold get_fid; by rewrite Hf).
  apply (open_like host d ext UK_9P_TOPEN _ (le_bytes 4 (fid f) ++ le_bytes 1 mode)
    (UK_9P_TOPEN + 1)); try done.
  - apply writes_seq; by apply writes_int.
  - rewrite length_app, !le_bytes_length. unfold UK_9P_BUFSIZE. lia.
Qed.

(** A device with a fid for the root, and a server that lets it be opened. *)
Definition supply2 : list Z := [4096; 8192; 12288; 0].
Definition dev2 : uk_9pdev :=
  match uk_9pdev_connect 0 8192 supply2 with
  | Some (inr d) => match uk_9pdev_fid_create d with Some (_, d') => d' | None => d end
  | _ => dev1
  end.
Definition host1 (msg : list Z) : list Z :=
  header 24 113 (le_value (take 2 (drop 5 msg))) ++ encode_qid (Qid 128 1 77) ++ le_bytes 4 4096.

Lemma dev2_usable : usable dev2 (fun _ => 0).
Proof.
  split; [|by vm_compute; repeat split].
  destruct (uk_9pdev_connect 0 8192 supply2) as [[|d0]|] eqn:E0; try done.
  assert (I0 : inv d0 (fun _ => 0)).
  { apply (connect_inv _ _ _ _ E0). apply (bool_decide_unpack (NoDup _)). vm_compute. exact I. }
  destruct (uk_9pdev_fid_create d0) as [[res d]|] eqn:E; [|injection E0 as <-; by vm_compute in E].
  unfold dev2. rewrite E0, E. eapply (steady_fid_create [] 0 d0 (fun _ => 0) res d); try done.
  - injection E0 as <-. by cbn.
  - intros q Hq; by apply not_elem_of_nil in Hq.
Qed.

Lemma p9_no_leak_witness :
  exists d', run_op host1 (Open 8192 0) dev2 = Some (inr None, d') /\ req_list d' = req_list dev2.
Proof.
  destruct (run_op host1 (Open 8192 0) dev2) as [[res d']|] eqn:E; [|by vm_compute in E].
  assert (res = inr None) as -> by (vm_compute in E; by injection E as <- _).
  exists d'. split; [done|].
  refine (proj2 (p9_no_leak host1 (Open 8192 0) dev2 (fun _ => 0) _ d' (proj1 dev2_usable) _ _ E)).
  - intros q. lia.
  - vm_compute. done.
Defined.

Lemma p9_open_correct_witness : exists res d', uk_9p_open host1 8192 0 dev2 = Some (res, d') /\
  inv d' (fun _ => 0) /\ req_list d' = req_list dev2 /\
  opened 8192 (Fid 0 (Qid 0 0 0) 0 false 1) dev2 (inr (Qid 128 1 77, 4096)) res d'.
Proof.
  refine (p9_open_correct host1 dev2 (fun _ => 0) 8192 _ 0 (inr (Qid 128 1 77, 4096))
    dev2_usable _ _ _ _ _).
  - vm_compute. reflexivity.
  - vm_compute. done.
  - repeat split; vm_compute; done.
  - intros t Ht. unfold host1. do 3 f_equal.
    exact (le_value_bytes 2 t Ht).
  - repeat split; vm_compute; done.
Defined.

(** A server that stores everything it is asked to store: it answers [Rwrite] with the count of
    the [Twrite]. *)
Definition host_write (msg : list Z) : list Z :=
  header 11 119 (le_value (take 2 (drop 5 msg))) ++ take 4 (drop 19 msg).

(** The fid of [dev2] has the I/O unit 0, which stands for "no limit": a write sends nothing and
    reports 0 bytes written, although the server takes everything. *)
Theorem p9_write_zero_iounit :
  option_map fst (uk_9p_write host_write 8192 0 5 [104; 101; 108; 108; 111] dev2) = Some (inr 0).
Proof. vm_compute. reflexivity. Qed.

(** When the allocator fails for the request of a walk, the error pointer is used as a request. *)
Theorem p9_walk_no_memory :
  uk_9p_walk host1 8192 None (set_supply dev2 [16384]) = None /\
  option_map fst (uk_9p_open host1 8192 0 (set_supply dev2 [])) = Some (inl (- ENOMEM)).
Proof. vm_compute. by split. Qed.

End P9Client.
