(* ===== verification/Pipe.v ===== *)
(** * Pipe: anonymous pipes

    Models [lib/vfscore/pipe.c]: the circular buffer, and the read, write, close, seek and ioctl
    operations of the pipe's vnode.  A call of [pipe_write] or [pipe_read] that finds the buffer
    full or empty gives up its lock and waits, so a call is a sequence of steps; any number of
    writers and readers take their steps in any order.  A thread that waits for a wait queue is
    one whose step is not enabled until the condition it waits for holds. *)
From Stdlib Require Import ZArith Lia Bool.
From stdpp Require Import relations.
From S2P Require Import Prelude Buf.
Open Scope Z_scope.

Module Pipe.

Definition EPIPE : Z := 32.
Definition EAGAIN : Z := 35.
Definition EINVAL : Z := 22.
Definition ESPIPE : Z := 29.
Definition O_NONBLOCK : Z := 0x800.
Definition UK_FREAD : Z := 1.
Definition UK_FWRITE : Z := 2.
Definition FIONREAD : Z := 0x541B.

Record pipe_buf := PipeBuf { data : list Z; capacity : Z; prod : Z; cons : Z }.
Record pipe_file := PipeFile { buf : pipe_buf; w_refcount : Z; r_refcount : Z; flags : Z }.

(** ** The buffer *)

Definition PIPE_BUF_IDX (b : pipe_buf) (n : Z) : Z := Z.land n (u64 (capacity b - 1)).
Definition PIPE_BUF_PROD_IDX (b : pipe_buf) : Z := PIPE_BUF_IDX b (prod b).
Definition PIPE_BUF_CONS_IDX (b : pipe_buf) : Z := PIPE_BUF_IDX b (cons b).

(** [struct_ok] and [mem] are the results of the two allocations. *)
Definition pipe_buf_alloc (struct_ok : bool) (mem : option (list Z)) (cap : Z)
    : option (option pipe_buf) :=
  if negb (cap =? 0) && (Z.land cap (cap - 1) =? 0) then
    if struct_ok then
      match mem with
      | Some m => Some (Some (PipeBuf m cap 0 0))
      | None => Some None
      end
    else Some None
  else None.

Definition pipe_buf_get_available (b : pipe_buf) : Z := u64 (prod b - cons b).
Definition pipe_buf_get_free_space (b : pipe_buf) : Z := u64 (capacity b - pipe_buf_get_available b).
Definition pipe_buf_can_write (b : pipe_buf) : bool := 0 <? pipe_buf_get_free_space b.
Definition pipe_buf_can_read (b : pipe_buf) : bool := 0 <? pipe_buf_get_available b.

Definition set_data (b : pipe_buf) (d : list Z) : pipe_buf :=
  PipeBuf d (capacity b) (prod b) (cons b).

Definition pipe_buf_write (b : pipe_buf) (iovec : list Z) (iovec_off : Z)
    : option (Z * pipe_buf) :=
  let iov_len := u64 (zlen iovec - iovec_off) in
  let prod_idx := PIPE_BUF_PROD_IDX b in
  let to_write := Z.min (pipe_buf_get_free_space b) iov_len in
  if to_write =? 0 then Some (to_write, b)
  else
    d ← (if u64 (prod_idx + to_write) <=? capacity b then
           bs ← buf_read iovec iovec_off to_write;
           buf_write (data b) prod_idx bs
         else
           let first_copy_bytes := sext 32 (capacity b - prod_idx) in
           bs ← buf_read iovec iovec_off (u64 first_copy_bytes);
           d ← buf_write (data b) prod_idx bs;
           let second_copy_bytes := sext 32 (prod_idx + to_write - capacity b) in
           bs ← buf_read iovec (iovec_off + first_copy_bytes) (u64 second_copy_bytes);
           buf_write d 0 bs);
    Some (to_write, PipeBuf d (capacity b) (u64 (prod b + to_write)) (cons b)).

(** The bytes go to the buffer of the iovec, which is returned. *)
Definition pipe_buf_read (b : pipe_buf) (iovec : list Z) (iovec_off : Z)
    : option (Z * list Z * pipe_buf) :=
  let iov_len := u64 (zlen iovec - iovec_off) in
  let cons_idx := PIPE_BUF_CONS_IDX b in
  let to_read := Z.min (pipe_buf_get_available b) iov_len in
  if to_read =? 0 then Some (to_read, iovec, b)
  else
    v ← (if u64 (cons_idx + to_read) <=? capacity b then
           bs ← buf_read (data b) cons_idx to_read;
           buf_write iovec iovec_off bs
         else
           let first_copy_bytes := sext 32 (capacity b - cons b) in
           bs ← buf_read (data b) cons_idx (u64 first_copy_bytes);
           v ← buf_write iovec iovec_off bs;
           let second_copy_bytes := sext 32 (cons_idx + to_read - capacity b) in
           bs ← buf_read (data b) 0 (u64 second_copy_bytes);
           buf_write v (iovec_off + first_copy_bytes) bs);
    Some (to_read, v, PipeBuf (data b) (capacity b) (prod b) (u64 (cons b + to_read))).

(** ** The vnode operations *)

Definition pipe_file_alloc (file_ok struct_ok : bool) (mem : option (list Z)) (cap fl : Z)
    : option (option pipe_file) :=
  if file_ok then
    b ← pipe_buf_alloc struct_ok mem cap;
    Some (option_map (fun b => PipeFile b 1 1 fl) b)
  else Some None.

Definition set_buf (f : pipe_file) (b : pipe_buf) : pipe_file :=
  PipeFile b (w_refcount f) (r_refcount f) (flags f).

(** Where a call of [pipe_write] or [pipe_read] is: before it has the lock for the first time, in
    its loop with the lock held, in the wait loop without the lock, or finished. *)
Inductive pc := Enter | Lock | Loop | Wait | Returned (rc : Z).

(** A call: the iovecs done, the iovecs left with the offset in the first of them, and
    [uio_resid]. *)
Record call := Call {
  c_done : list (list Z); c_iovs : list (list Z); c_off : Z; c_resid : Z; c_pc : pc
}.
Definition at_pc (c : call) (p : pc) : call := Call (c_done c) (c_iovs c) (c_off c) (c_resid c) p.

(** The result of a step of a call: the state of the pipe, the holder of the lock, the call and
    the bytes that were moved; [Blocked] when it cannot take one now. *)
Inductive outcome := Blocked | Next (f : pipe_file) (owner : option nat) (c : call) (moved : list Z).

(** A call in [Wait] is in the loop [while (!can_write) { unlock; wait_event; lock; }]: it leaves
    the loop when it has the lock and the condition holds; having the lock without the condition
    it gives the lock back at once. *)

(** [uk_mutex_lock] by thread [i]. *)
Definition lock_then (i : nat) (owner : option nat) (k : outcome) : outcome :=
  match owner with None => k | Some _ => Blocked end.

Definition pipe_write_step (i : nat) (f : pipe_file) (owner : option nat) (c : call)
    : option outcome :=
  let b := buf f in
  match c_pc c with
  | Enter =>
      if r_refcount f =? 0 then Some (Next f owner (at_pc c (Returned (- EPIPE))) [])
      else Some (Next f owner (at_pc c Lock) [])
  | Lock => Some (lock_then i owner (Next f (Some i) (at_pc c Loop) []))
  | Loop =>
      match c_iovs c with
      | [] => Some (Next f None (at_pc c (Returned 0)) [])
      | iovec :: rest =>
          if c_off c <? zlen iovec then
            '(written_bytes, b') ← pipe_buf_write b iovec (c_off c);
            if written_bytes =? 0 then
              (if pipe_buf_can_write b' then Some (Next f owner c [])
               else Some (Next f None (at_pc c Wait) []))
            else
              Some (Next (set_buf f b') owner
                (Call (c_done c) (c_iovs c) (c_off c + written_bytes) (c_resid c - written_bytes)
                   Loop)
                (take (Z.to_nat written_bytes) (drop (Z.to_nat (c_off c)) iovec)))
          else Some (Next f owner (Call (c_done c ++ [iovec]) rest 0 (c_resid c) Loop) [])
      end
  | Wait =>
      if pipe_buf_can_write b
      then Some (lock_then i owner (Next f (Some i) (at_pc c Loop) []))
      else Some Blocked
  | Returned _ => Some Blocked
  end.

Definition pipe_read_step (f_flags : Z) (i : nat) (f : pipe_file) (owner : option nat)
    (c : call) : option outcome :=
  let b := buf f in
  let nonblocking := negb (Z.land f_flags O_NONBLOCK =? 0) in
  match c_pc c with
  | Enter =>
      Some (lock_then i owner
        (if nonblocking && negb (pipe_buf_can_read b)
         then Next f None (at_pc c (Returned EAGAIN)) []
         else Next f (Some i) (at_pc c Loop) []))
  | Lock => Some Blocked
  | Loop =>
      match c_iovs c with
      | [] => Some (Next f None (at_pc c (Returned 0)) [])
      | iovec :: rest =>
          if c_off c <? zlen iovec then
            '(read_bytes, iovec', b') ← pipe_buf_read b iovec (c_off c);
            if read_bytes =? 0 then
              (if nonblocking then Some (Next f None (at_pc c (Returned 0)) [])
               else if pipe_buf_can_read b' then Some (Next f owner c [])
               else Some (Next f None (at_pc c Wait) []))
            else
              Some (Next (set_buf f b') owner
                (Call (c_done c) (iovec' :: rest) (c_off c + read_bytes) (c_resid c - read_bytes)
                   Loop)
                (take (Z.to_nat read_bytes) (drop (Z.to_nat (c_off c)) iovec')))
          else Some (Next f owner (Call (c_done c ++ [iovec]) rest 0 (c_resid c) Loop) [])
      end
  | Wait =>
      if pipe_buf_can_read b
      then Some (lock_then i owner (Next f (Some i) (at_pc c Loop) []))
      else Some Blocked
  | Returned _ => Some Blocked
  end.

(** What is left of the pipe, [None] when it was freed. *)
Definition pipe_close (f : pipe_file) (f_flags : Z) : option pipe_file :=
  let r := if negb (Z.land f_flags UK_FREAD =? 0) then r_refcount f - 1 else r_refcount f in
  let w := if negb (Z.land f_flags UK_FWRITE =? 0) then w_refcount f - 1 else w_refcount f in
  if (r =? 0) && (w =? 0) then None else Some (PipeFile (buf f) w r (flags f)).

(** The result and [errno]. *)
Definition pipe_seek : Z * Z := (-1, ESPIPE).

Definition pipe_ioctl (f : pipe_file) (com : Z) : Z + Z :=
  if com =? FIONREAD then inr (sext 32 (pipe_buf_get_available (buf f))) else inl (- EINVAL).

(** ** The buffer is a queue of bytes *)

Record rep (b : pipe_buf) (q : list Z) : Prop := Rep {
  r_cap : exists k, 0 <= k <= 30 /\ capacity b = 2 ^ k;
  r_len : zlen (data b) = capacity b;
  r_cons : cons b ∈u 64;
  r_prod : prod b = u64 (cons b + zlen q);
  r_fits : zlen q <= capacity b;
  r_data : forall i, 0 <= i < zlen q -> zget q i = zget (data b) ((cons b + i) mod capacity b)
}.

Lemma cap_bounds b q : rep b q -> 1 <= capacity b <= 2 ^ 30 /\ 2 ^ 64 mod capacity b = 0.
Proof.
  intros R. destruct (r_cap _ _ R) as (k & Hk & ->).
  pose proof (Z.pow_le_mono_r 2 0 k ltac:(lia) ltac:(lia)).
  pose proof (Z.pow_le_mono_r 2 k 30 ltac:(lia) ltac:(lia)). split; [lia|].
  replace 64 with ((64 - k) + k) by lia. rewrite Z.pow_add_r by lia. apply Z_mod_mult.
Qed.

Lemma idx_mod b q n : rep b q -> PIPE_BUF_IDX b n = n mod capacity b.
Proof.
  intros R. pose proof (cap_bounds b q R). unfold PIPE_BUF_IDX.
  rewrite wrap_small by (unfold in_u; lia).
  destruct (r_cap _ _ R) as (k & Hk & ->). apply land_mask. lia.
Qed.

(** Wrapping a counter does not change its index. *)
Lemma u64_mod_cap b q n : rep b q -> u64 n mod capacity b = n mod capacity b.
Proof.
  intros R. pose proof (cap_bounds b q R) as [Hc Hd]. unfold wrap.
  rewrite (Z.mod_eq n (2 ^ 64)) by lia.
  apply Z.div_exact in Hd; [|lia]. rewrite Hd at 1.
  replace (n - capacity b * (2 ^ 64 / capacity b) * (n / 2 ^ 64)) with
    (n + - (2 ^ 64 / capacity b * (n / 2 ^ 64)) * capacity b) by lia.
  apply Z_mod_plus_full.
Qed.

Lemma available_spec b q : rep b q -> pipe_buf_get_available b = zlen q.
Proof.
  intros R. pose proof (cap_bounds b q R). pose proof (r_fits _ _ R).
  unfold pipe_buf_get_available. rewrite (r_prod _ _ R). apply sub_mod. lia.
Qed.

Lemma free_space_spec b q : rep b q -> pipe_buf_get_free_space b = capacity b - zlen q.
Proof.
  intros R. pose proof (cap_bounds b q R). pose proof (r_fits _ _ R).
  unfold pipe_buf_get_free_space. rewrite (available_spec b q R).
  apply wrap_small. unfold in_u. lia.
Qed.

(** A block written around the end of the buffer, seen byte by byte. *)
Definition circ (d : list Z) (cap idx : Z) (bs d' : list Z) : Prop :=
  zlen d' = zlen d /\
  forall j, 0 <= j < cap -> zget d' j =
    (let r := if idx <=? j then j - idx else j - idx + cap in
     if r <? zlen bs then zget bs r else zget d j).

Lemma zget_take_drop (l : list Z) off n i :
  0 <= off -> 0 <= n -> off + n <= zlen l -> 0 <= i < n ->
  zget (take (Z.to_nat n) (drop (Z.to_nat off) l)) i = zget l (off + i).
Proof.
  intros H1 H2 H3 Hi. pose proof (buf_read_ok l off n H1 H2 H3) as H.
  rewrite (buf_read_zget _ _ _ _ i H). destruct (Z.leb_spec 0 i), (Z.ltb_spec i n); done || lia.
Qed.

Lemma zlen_take_drop (l : list Z) off n :
  0 <= off -> 0 <= n -> off + n <= zlen l -> zlen (take (Z.to_nat n) (drop (Z.to_nat off) l)) = n.
Proof. intros. rewrite length_take, length_drop. lia. Qed.

Lemma circ_one d idx bs d' : buf_write d idx bs = Some d' -> circ d (zlen d) idx bs d'.
Proof.
  intros H. pose proof (buf_write_range _ _ _ _ H). split; [by rewrite (buf_write_length _ _ _ _ H)|].
  intros j Hj. rewrite (buf_write_zget _ _ _ _ j H). cbv zeta.
  destruct (Z.leb_spec idx j), (Z.ltb_spec j (idx + zlen bs)); cbn [andb];
    case_test; try lia; done.
Qed.

Lemma circ_two d idx b1 b2 d1 d2 :
  buf_write d idx b1 = Some d1 -> buf_write d1 0 b2 = Some d2 -> idx + zlen b1 = zlen d ->
  zlen b1 + zlen b2 <= zlen d -> circ d (zlen d) idx (b1 ++ b2) d2.
Proof.
  intros H1 H2 He Hl. split.
  { by rewrite (buf_write_length _ _ _ _ H2), (buf_write_length _ _ _ _ H1). }
  pose proof (buf_write_range _ _ _ _ H1).
  intros j Hj. rewrite (buf_write_zget _ _ _ _ j H2), (buf_write_zget _ _ _ _ j H1), length_app.
  cbv zeta. destruct (Z.leb_spec idx j).
  - rewrite zget_app by lia. destruct (Z.leb_spec 0 j), (Z.ltb_spec j (0 + zlen b2)),
      (Z.ltb_spec j (idx + zlen b1)); cbn [andb]; try lia.
    do 2 (case_test; try lia). done.
  - rewrite zget_app by lia. destruct (Z.leb_spec 0 j), (Z.ltb_spec j (0 + zlen b2)); cbn [andb];
      repeat (case_test; try lia); try done. f_equal. lia.
Qed.

Lemma rep_write b q bs d' :
  rep b q -> zlen q + zlen bs <= capacity b ->
  circ (data b) (capacity b) (prod b mod capacity b) bs d' ->
  rep (PipeBuf d' (capacity b) (u64 (prod b + zlen bs)) (cons b)) (q ++ bs).
Proof.
  intros R Hfit [Hl Hd]. pose proof (cap_bounds b q R) as [Hc _].
  assert (Hp : prod b mod capacity b = (cons b + zlen q) mod capacity b)
    by (rewrite (r_prod _ _ R); by apply (u64_mod_cap b q)).
  split; cbn [capacity data cons prod].
  - apply (r_cap _ _ R).
  - rewrite Hl. apply (r_len _ _ R).
  - apply (r_cons _ _ R).
  - rewrite (r_prod _ _ R), length_app. unfold wrap. rewrite Zplus_mod_idemp_l. f_equal. lia.
  - rewrite length_app. lia.
  - rewrite length_app. intros i Hi.
    rewrite Hd by (apply Z.mod_pos_bound; lia). rewrite Hp. cbv zeta.
    set (c0 := cons b mod capacity b).
    assert (Hc0 : 0 <= c0 < capacity b) by (apply Z.mod_pos_bound; lia).
    assert (Hi' : (cons b + i) mod capacity b = (c0 + i) mod capacity b)
      by (unfold c0; by rewrite Zplus_mod_idemp_l).
    assert (Hq' : (cons b + zlen q) mod capacity b = (c0 + zlen q) mod capacity b)
      by (unfold c0; by rewrite Zplus_mod_idemp_l).
    pose proof (r_fits _ _ R).
    rewrite Hi', Hq', !mod_sum by lia. rewrite zget_app by lia.
    destruct (Z.ltb_spec i (zlen q)).
    + rewrite (r_data _ _ R) by lia. rewrite Hi', mod_sum by lia.
      repeat (case_test; try lia); done.
    + repeat (case_test; try lia); f_equal; lia.
Qed.

(** The bytes of [iovec] that are moved next. *)
Definition piece (iovec : list Z) (off n : Z) : list Z :=
  take (Z.to_nat n) (drop (Z.to_nat off) iovec).

Lemma write_spec b q iovec off :
  rep b q -> 0 <= off <= zlen iovec -> zlen iovec < 2 ^ 64 ->
  let n := Z.min (capacity b - zlen q) (zlen iovec - off) in
  exists b', pipe_buf_write b iovec off = Some (n, b') /\ rep b' (q ++ piece iovec off n) /\
    capacity b' = capacity b /\ (n = 0 -> b' = b).
Proof.
  intros R Ho Hl n. pose proof (cap_bounds b q R) as [Hc _]. pose proof (r_fits _ _ R) as Hf.
  pose proof (r_len _ _ R) as Hdl. unfold pipe_buf_write, PIPE_BUF_PROD_IDX.
  rewrite (free_space_spec b q R), (idx_mod b q _ R), (wrap_small 64 (zlen iovec - off)) by (unfold in_u; lia).
  fold n. cbv zeta. set (idx := prod b mod capacity b).
  assert (Hi : 0 <= idx < capacity b) by (apply Z.mod_pos_bound; lia).
  destruct (Z.eqb_spec n 0) as [En|En].
  { exists b. unfold piece. rewrite En. change (Z.to_nat 0) with 0%nat.
    rewrite take_0, app_nil_r. done. }
  assert (Hpl : zlen (piece iovec off n) = n) by (apply zlen_take_drop; lia).
  enough (exists d', (if u64 (idx + n) <=? capacity b
     then bs ← buf_read iovec off n; buf_write (data b) idx bs
     else bs ← buf_read iovec off (u64 (sext 32 (capacity b - idx)));
       d ← buf_write (data b) idx bs;
       bs0 ← buf_read iovec (off + sext 32 (capacity b - idx))
         (u64 (sext 32 (idx + n - capacity b)));
       buf_write d 0 bs0) = Some d' /\ circ (data b) (capacity b) idx (piece iovec off n) d')
    as (d' & -> & Hd).
  { eexists. split; [done|]. split; [|by split].
    rewrite <- Hpl at 1. apply rep_write; [done|lia|done]. }
  rewrite wrap_small by (unfold in_u; lia). destruct (Z.leb_spec (idx + n) (capacity b)).
  - rewrite buf_read_ok by lia. cbn [mbind option_bind]. fold (piece iovec off n).
    destruct (buf_write (data b) idx (piece iovec off n)) as [d'|] eqn:E.
    + exists d'. split; [done|]. rewrite <- Hdl. by apply circ_one.
    + rewrite buf_write_ok in E by lia. done.
  - rewrite !sext_small by lia. rewrite !wrap_small by (unfold in_u; lia).
    rewrite !buf_read_ok by lia. cbn [mbind option_bind].
    set (b1 := take (Z.to_nat (capacity b - idx)) _).
    set (b2 := take (Z.to_nat (idx + n - capacity b)) _).
    assert (L1 : zlen b1 = capacity b - idx) by (apply zlen_take_drop; lia).
    assert (L2 : zlen b2 = idx + n - capacity b) by (apply zlen_take_drop; lia).
    destruct (buf_write (data b) idx b1) as [d1|] eqn:E1; [|rewrite buf_write_ok in E1 by lia; done].
    cbn [mbind option_bind]. pose proof (buf_write_length _ _ _ _ E1).
    destruct (buf_write d1 0 b2) as [d2|] eqn:E2; [|rewrite buf_write_ok in E2 by lia; done].
    exists d2. split; [done|]. rewrite <- Hdl.
    replace (piece iovec off n) with (b1 ++ b2); [by eapply circ_two; eauto; lia|].
    unfold piece, b1, b2. rewrite <- (take_drop (Z.to_nat (capacity b - idx))
      (take (Z.to_nat n) (drop (Z.to_nat off) iovec))). f_equal.
    + rewrite take_take. f_equal. lia.
    + rewrite skipn_firstn_comm, drop_drop. f_equal; [lia|]. f_equal. lia.
Qed.

(** Where the code reads the buffer as it should: the block does not go around the end, or the
    reader is in its first round since the low 32 bits of its counter were 0. *)
Definition read_safe (b : pipe_buf) (n : Z) : bool :=
  (cons b mod capacity b + n <=? capacity b) || (u32 (cons b) <? capacity b).

Lemma first_copy_spec b q :
  rep b q -> let idx := cons b mod capacity b in
  if u32 (cons b) <? capacity b then sext 32 (capacity b - cons b) = capacity b - idx
  else idx <> 0 -> sext 32 (capacity b - cons b) < 0 \/ capacity b - idx < sext 32 (capacity b - cons b).
Proof.
  intros R idx. pose proof (cap_bounds b q R) as [Hc _].
  assert (Hd : 2 ^ 32 mod capacity b = 0).
  { destruct (r_cap _ _ R) as (k & Hk & ->). replace 32 with ((32 - k) + k) by lia.
    rewrite Z.pow_add_r by lia. apply Z_mod_mult. }
  set (c := u32 (cons b)). assert (Hcr : 0 <= c < 2 ^ 32) by (by apply wrap_range).
  assert (Hidx : idx = c mod capacity b).
  { unfold c, wrap, idx. rewrite (Z.mod_eq (cons b) (2 ^ 32)) by lia.
    apply Z.div_exact in Hd; [|lia]. rewrite Hd at 1.
    replace (cons b - capacity b * (2 ^ 32 / capacity b) * (cons b / 2 ^ 32)) with
      (cons b + - (2 ^ 32 / capacity b * (cons b / 2 ^ 32)) * capacity b) by lia.
    by rewrite Z_mod_plus_full. }
  assert (Hw : u32 (capacity b - cons b) = (capacity b - c) mod 2 ^ 32).
  { unfold c, wrap. by rewrite Zminus_mod_idemp_r. }
  unfold sext. rewrite Hw. change (2 ^ (32 - 1)) with (2 ^ 31).
  pose proof (Z.mod_pos_bound c (capacity b) ltac:(lia)).
  destruct (Z.ltb_spec c (capacity b)).
  - rewrite (Z.mod_small (capacity b - c)) by lia. rewrite Hidx, (Z.mod_small c) by lia.
    by destruct (Z.ltb_spec (capacity b - c) (2 ^ 31)); [|lia].
  - intros Hne. assert (c <> capacity b) by (intros E; rewrite Hidx, E, Z_mod_same_full in Hne; done).
    rewrite <- (Z_mod_plus_full (capacity b - c) 1 (2 ^ 32)), Z.mod_small by lia.
    case_test; lia.
Qed.

Lemma rep_read b q n :
  rep b q -> 0 <= n <= zlen q ->
  rep (PipeBuf (data b) (capacity b) (prod b) (u64 (cons b + n))) (drop (Z.to_nat n) q).
Proof.
  intros R Hn. pose proof (cap_bounds b q R) as [Hc _]. split; cbn [capacity data cons prod].
  - apply (r_cap _ _ R).
  - apply (r_len _ _ R).
  - by apply wrap_range.
  - rewrite (r_prod _ _ R), length_drop. unfold wrap. rewrite Zplus_mod_idemp_l. f_equal. lia.
  - pose proof (r_fits _ _ R). rewrite length_drop. lia.
  - rewrite length_drop. intros i Hi.
    assert (E : (u64 (cons b + n) + i) mod capacity b = (cons b + (n + i)) mod capacity b).
    { rewrite <- Zplus_mod_idemp_l, (u64_mod_cap b q) by done. rewrite Zplus_mod_idemp_l.
      f_equal. lia. }
    rewrite E, <- (r_data _ _ R) by lia.
    unfold zget. destruct (Z.ltb_spec i 0), (Z.ltb_spec (n + i) 0); try lia.
    rewrite lookup_drop. f_equal. lia.
Qed.

(** The blocks the code copies are the front of the queue. *)
Lemma front_blocks b q n :
  rep b q -> 0 < n <= zlen q ->
  let idx := cons b mod capacity b in
  if idx + n <=? capacity b then buf_read (data b) idx n = Some (take (Z.to_nat n) q)
  else exists b1 b2, buf_read (data b) idx (capacity b - idx) = Some b1 /\
    buf_read (data b) 0 (idx + n - capacity b) = Some b2 /\ b1 ++ b2 = take (Z.to_nat n) q.
Proof.
  intros R Hn idx. pose proof (cap_bounds b q R) as [Hc _]. pose proof (r_fits _ _ R) as Hf.
  pose proof (r_len _ _ R) as Hdl.
  assert (Hi : 0 <= idx < capacity b) by (apply Z.mod_pos_bound; lia).
  assert (Hq : forall i, 0 <= i < n -> zget (take (Z.to_nat n) q) i =
    zget (data b) (if idx + i <? capacity b then idx + i else idx + i - capacity b)).
  { intros i Hi'. pose proof (zget_take_drop q 0 n i ltac:(lia) ltac:(lia) ltac:(lia) Hi') as H0.
    change (Z.to_nat 0) with 0%nat in H0. rewrite drop_0 in H0.
    rewrite H0, Z.add_0_l, (r_data _ _ R) by lia. rewrite <- Zplus_mod_idemp_l. fold idx.
    by rewrite mod_sum by lia. }
  assert (Hql : zlen (take (Z.to_nat n) q) = n) by (rewrite length_take; lia).
  assert (Hout : forall (l : list Z) i, zlen l <= i -> zget l i = None).
  { intros l i Hl. unfold zget. case_test; [done|]. apply lookup_ge_None. lia. }
  destruct (Z.leb_spec (idx + n) (capacity b)).
  - destruct (buf_read (data b) idx n) as [bs|] eqn:E; [|rewrite buf_read_ok in E by lia; done].
    f_equal. apply zget_ext. intros i Hi0. rewrite (buf_read_zget _ _ _ _ i E).
    destruct (Z.leb_spec 0 i), (Z.ltb_spec i n); cbn [andb]; try lia.
    + rewrite Hq by lia. by destruct (Z.ltb_spec (idx + i) (capacity b)); [|lia].
    + rewrite Hout; [done|lia].
  - destruct (buf_read (data b) idx (capacity b - idx)) as [b1|] eqn:E1;
      [|rewrite buf_read_ok in E1 by lia; done].
    destruct (buf_read (data b) 0 (idx + n - capacity b)) as [b2|] eqn:E2;
      [|rewrite buf_read_ok in E2 by lia; done].
    exists b1, b2. split; [done|]. split; [done|].
    pose proof (buf_read_length _ _ _ _ E1) as L1. pose proof (buf_read_length _ _ _ _ E2) as L2.
    apply zget_ext. intros i Hi0. rewrite zget_app, (buf_read_zget _ _ _ _ _ E1),
      (buf_read_zget _ _ _ _ _ E2), L1 by lia.
    destruct (Z.ltb_spec i n).
    + rewrite Hq by lia. destruct (Z.ltb_spec (idx + i) (capacity b));
        repeat (case_test; try lia); f_equal; lia.
    + destruct (Z.ltb_spec i (capacity b - idx)); [lia|].
      destruct (Z.ltb_spec (i - (capacity b - idx)) (idx + n - capacity b)); [lia|].
      rewrite andb_false_r. symmetry. apply Hout. lia.
Qed.

Lemma read_spec b q iovec off :
  rep b q -> 0 <= off <= zlen iovec -> zlen iovec < 2 ^ 64 ->
  let n := Z.min (zlen q) (zlen iovec - off) in
  if read_safe b n then exists v b', pipe_buf_read b iovec off = Some (n, v, b') /\
    buf_write iovec off (take (Z.to_nat n) q) = Some v /\ rep b' (drop (Z.to_nat n) q) /\
    capacity b' = capacity b /\ (n = 0 -> b' = b)
  else pipe_buf_read b iovec off = None.
Proof.
  intros R Ho Hl n. pose proof (cap_bounds b q R) as [Hc _]. pose proof (r_fits _ _ R) as Hf.
  pose proof (r_len _ _ R) as Hdl. pose proof (r_cons _ _ R) as Hcu.
  unfold pipe_buf_read, PIPE_BUF_CONS_IDX, read_safe.
  rewrite (available_spec b q R), (idx_mod b q _ R), (wrap_small 64 (zlen iovec - off))
    by (unfold in_u; lia).
  fold n. cbv zeta. set (idx := cons b mod capacity b).
  assert (Hi : 0 <= idx < capacity b) by (apply Z.mod_pos_bound; lia).
  destruct (Z.eqb_spec n 0) as [En|En].
  { rewrite En. destruct (Z.leb_spec (idx + 0) (capacity b)); [cbn [orb]|lia].
    exists iovec, b. change (Z.to_nat 0) with 0%nat. rewrite take_0, drop_0.
    rewrite buf_write_nil by lia. done. }
  pose proof (front_blocks b q n R ltac:(lia)) as HF. cbv zeta in HF. fold idx in HF.
  rewrite (wrap_small 64 (idx + n)) by (unfold in_u; lia).
  assert (Hql : zlen (take (Z.to_nat n) q) = n) by (rewrite length_take; lia).
  destruct (Z.leb_spec (idx + n) (capacity b)); cbn [orb].
  - rewrite HF. cbn [mbind option_bind].
    destruct (buf_write iovec off (take (Z.to_nat n) q)) as [v|] eqn:E;
      [|rewrite buf_write_ok in E by lia; done].
    eexists v, _. split; [done|]. split; [done|]. split; [by apply rep_read; [|lia]|by split].
  - destruct HF as (b1 & b2 & E1 & E2 & Eq).
    pose proof (buf_read_length _ _ _ _ E1) as L1. pose proof (buf_read_length _ _ _ _ E2) as L2.
    pose proof (first_copy_spec b q R) as HC. cbv zeta in HC. fold idx in HC.
    destruct (Z.ltb_spec (u32 (cons b)) (capacity b)).
    + rewrite HC, sext_small by lia. rewrite (wrap_small 64 (capacity b - idx)), (wrap_small 64 (idx + n - capacity b)) by (unfold in_u; lia).
      rewrite E1. cbn [mbind option_bind].
      destruct (buf_write iovec off b1) as [v1|] eqn:W1; [|rewrite buf_write_ok in W1 by lia; done].
      cbn [mbind option_bind]. rewrite E2. cbn [mbind option_bind].
      pose proof (buf_write_length _ _ _ _ W1).
      destruct (buf_write v1 _ b2) as [v2|] eqn:W2; [|rewrite buf_write_ok in W2 by lia; done].
      eexists v2, _. split; [done|].
      split; [|split; [by apply rep_read; [|lia]|by split]].
      rewrite buf_write_ok by lia. f_equal. rewrite <- Eq. apply zget_ext. intros i Hi0.
      rewrite (buf_write_zget _ _ _ _ i W2), (buf_write_zget _ _ _ _ i W1).
      pose proof (buf_write_ok iovec off (b1 ++ b2) ltac:(lia) ltac:(rewrite length_app; lia)) as W3.
      rewrite (buf_write_zget _ _ _ _ i W3), length_app.
      destruct (Z.leb_spec off i); cbn [andb]; repeat (case_test; try lia); try done;
        rewrite zget_app by lia; repeat (case_test; try lia); try done. f_equal. lia.
    + destruct (buf_read (data b) idx (u64 _)) as [bs|] eqn:E; [|done]. exfalso.
      apply buf_read_range in E. destruct E as (_ & _ & E).
      assert (sext 32 (capacity b - cons b) < 2 ^ 31 /\ - 2 ^ 31 <= sext 32 (capacity b - cons b)).
      { unfold sext. pose proof (wrap_range 32 (capacity b - cons b) ltac:(lia)) as Hw.
        unfold in_u in Hw. change (2 ^ (32 - 1)) with (2 ^ 31). case_test; lia. }
      destruct (Z.lt_ge_cases (sext 32 (capacity b - cons b)) 0) as [Hn|Hn].
      * unfold wrap in E. rewrite <- (Z_mod_plus_full _ 1 (2 ^ 64)), Z.mod_small in E; lia.
      * rewrite wrap_small in E by (unfold in_u; lia). lia.
Qed.

(** ** Calls *)

(** The bytes a call has moved so far. *)
Definition progress (c : call) : list Z :=
  concat (c_done c) ++ match c_iovs c with [] => [] | v :: _ => take (Z.to_nat (c_off c)) v end.

Record call_ok (c : call) : Prop := CallOk {
  k_off : 0 <= c_off c <= match c_iovs c with [] => 0 | v :: _ => zlen v end;
  k_len : Forall (fun v => zlen v < 2 ^ 64) (c_iovs c);
  k_resid : c_resid c = zlen (concat (c_iovs c)) - c_off c;
  k_start : c_pc c = Enter -> c_off c = 0
}.

(** What a step of thread [i] does to the owner of its lock. *)
Definition lock_step (i : nat) (o o' : option nat) (c' : call) : Prop :=
  (c_pc c' = Loop <-> o' = Some i) /\ forall j, j <> i -> (o' = Some j <-> o = Some j).

Lemma call_ok_pc c p : call_ok c -> p <> Enter -> call_ok (at_pc c p).
Proof. intros [O L R _] Hp. by split. Qed.

Lemma call_ok_next c v rest :
  call_ok c -> c_iovs c = v :: rest -> zlen v <= c_off c ->
  call_ok (Call (c_done c ++ [v]) rest 0 (c_resid c) Loop) /\
  progress (Call (c_done c ++ [v]) rest 0 (c_resid c) Loop) = progress c.
Proof.
  intros [O L R _] E Hv. rewrite E in *. split.
  - split; cbn [c_off c_iovs c_resid c_pc]; try done.
    + destruct rest; cbn; lia.
    + by apply Forall_cons in L as [_ L].
    + rewrite R. cbn [concat]. rewrite length_app. lia.
  - unfold progress. cbn [c_done c_iovs c_off]. rewrite E, concat_app. cbn [concat].
    rewrite app_nil_r, (firstn_all2 v) by lia. change (Z.to_nat 0) with 0%nat.
    destruct rest; cbn [take]; by rewrite app_nil_r.
Qed.

Lemma take_piece (v : list Z) off n :
  0 <= off -> 0 <= n ->
  take (Z.to_nat (off + n)) v = take (Z.to_nat off) v ++ piece v off n.
Proof.
  intros Ho Hn. unfold piece. rewrite <- (take_drop (Z.to_nat off) (take (Z.to_nat (off + n)) v)).
  rewrite take_take, skipn_firstn_comm. f_equal; f_equal; lia.
Qed.

Lemma call_ok_advance c v v' rest n :
  call_ok c -> c_iovs c = v :: rest -> 0 <= n -> c_off c + n <= zlen v -> length v' = length v ->
  take (Z.to_nat (c_off c)) v' = take (Z.to_nat (c_off c)) v ->
  let c' := Call (c_done c) (v' :: rest) (c_off c + n) (c_resid c - n) Loop in
  call_ok c' /\ progress c' = progress c ++ piece v' (c_off c) n.
Proof.
  intros [O L R _] E Hn Hv Hl Ht. rewrite E in *. cbv zeta. split.
  - split; cbn [c_off c_iovs c_resid c_pc]; try done; [lia| |].
    + apply Forall_cons in L as [L1 L2]. apply Forall_cons. split; [lia|done].
    + rewrite R. cbn [concat]. rewrite !length_app. lia.
  - unfold progress. cbn [c_done c_iovs c_off]. rewrite E, take_piece by lia.
    by rewrite Ht, app_assoc.
Qed.

(** Whether a call is over, and well. *)
Definition finished (c : call) : Prop := c_pc c = Returned 0 -> c_iovs c = [].

Lemma piece_length v off n : 0 <= off -> 0 <= n -> off + n <= zlen v -> zlen (piece v off n) = n.
Proof. intros. unfold piece. rewrite length_take, length_drop. lia. Qed.

(** What a step that is not blocked has to keep, with the queue as it is [before] and [after]. *)
Definition step_ok (i : nat) (f : pipe_file) (o : option nat) (c : call) (f' : pipe_file)
    (o' : option nat) (c' : call) (m : list Z) : Prop :=
  call_ok c' /\ finished c' /\ progress c' = progress c ++ m /\ lock_step i o o' c' /\
  r_refcount f' = r_refcount f /\ capacity (buf f') = capacity (buf f).

Ltac conj := repeat match goal with |- _ /\ _ => split end.
Ltac lock_tac :=
  unfold lock_step, finished, at_pc in *; cbn [c_pc c_iovs] in *;
  repeat match goal with H : _ <-> _ |- _ => destruct H end;
  repeat split; intros; subst;
  try solve [congruence | match goal with H : Some _ = Some _ -> _ |- _ => specialize (H eq_refl) end;
             congruence].

(** Steps that only change the place of the call. *)
Lemma step_ok_pc i f o o' c p :
  call_ok c -> p <> Enter -> finished (at_pc c p) -> lock_step i o o' (at_pc c p) ->
  step_ok i f o c f o' (at_pc c p) [].
Proof.
  intros K Hp Fi Hl. split; [by apply call_ok_pc|]. split; [done|].
  split; [by rewrite app_nil_r|]. done.
Qed.

Lemma step_ok_next i f o c v rest :
  call_ok c -> c_iovs c = v :: rest -> zlen v <= c_off c -> o = Some i ->
  step_ok i f o c f o (Call (c_done c ++ [v]) rest 0 (c_resid c) Loop) [].
Proof.
  intros K Ev Hv ->. destruct (call_ok_next c v rest K Ev Hv) as [K' P'].
  split; [done|]. split; [done|]. split; [by rewrite app_nil_r|]. split; [lock_tac|]. done.
Qed.

(** A writer's step is defined; it appends what it moved to the queue. *)
Lemma write_step_spec i f o c q :
  rep (buf f) q -> call_ok c -> finished c -> (c_pc c = Loop <-> o = Some i) ->
  exists out, pipe_write_step i f o c = Some out /\
  match out with
  | Blocked => True
  | Next f' o' c' m => rep (buf f') (q ++ m) /\ step_ok i f o c f' o' c' m /\
      c_done c' ++ c_iovs c' = c_done c ++ c_iovs c
  end.
Proof.
  intros R K Fi Ho. unfold pipe_write_step.
  destruct (c_pc c) eqn:Epc.
  - case_test; (eexists; split; [done|]; cbn beta iota; rewrite app_nil_r; split; [done|];
      split; [|done]); apply step_ok_pc; try done; lock_tac.
  - eexists; split; [done|]. unfold lock_then. destruct o as [j|]; [done|]. cbn beta iota.
    rewrite app_nil_r. split; [done|]. split; [|done]. apply step_ok_pc; try done; lock_tac.
  - assert (o = Some i) as -> by tauto.
    destruct (c_iovs c) as [|v rest] eqn:Ev.
    { eexists; split; [done|]. cbn beta iota. rewrite app_nil_r. split; [done|].
      split; [|by cbn; rewrite ?Ev]. apply step_ok_pc; try done; lock_tac. }
    case_test.
    + pose proof (k_off _ K) as Hoff. rewrite Ev in Hoff.
      assert (Hlv : zlen v < 2 ^ 64).
      { pose proof (k_len _ K) as Hl. rewrite Ev in Hl. by apply Forall_cons in Hl as [? _]. }
      destruct (write_spec (buf f) q v (c_off c) R ltac:(lia) Hlv) as (b' & Hw & R' & Ec & Eb).
      cbv zeta in Hw. set (n := Z.min _ _) in *. rewrite Hw. cbn [mbind option_bind].
      pose proof (r_fits _ _ R). pose proof (cap_bounds _ _ R) as [Hc _].
      destruct (Z.eqb_spec n 0) as [En|En].
      * case_test; (eexists; split; [done|]; cbn beta iota; rewrite app_nil_r; split; [done|]).
        -- split; [|by rewrite Ev]. destruct c as [dn iv off rs p]. cbn in Epc. subst p.
           by apply (step_ok_pc i f (Some i) (Some i) (Call dn iv off rs Loop) Loop); try done; lock_tac.
        -- split; [|by cbn; rewrite ?Ev]. apply step_ok_pc; try done; lock_tac.
      * eexists; split; [done|]. cbn beta iota. split; [done|]. split; [|by cbn; rewrite ?Ev].
        destruct (call_ok_advance c v v rest n K Ev ltac:(lia) ltac:(lia) eq_refl eq_refl) as [K' P'].
        split; [done|]. split; [done|]. split; [done|]. split; [lock_tac|]. done.
    + eexists; split; [done|]. cbn beta iota. rewrite app_nil_r. split; [done|].
      split; [|by cbn; rewrite ?Ev, <- app_assoc]. by apply step_ok_next.
  - case_test; (eexists; split; [done|]); [|done].
    unfold lock_then. destruct o as [j|]; [done|]. cbn beta iota. rewrite app_nil_r.
    split; [done|]. split; [|done]. apply step_ok_pc; try done; lock_tac.
  - by eexists.
Qed.

(** A reader's step takes what it moved from the front of the queue; it is undefined exactly when
    the code computes a wrong length for the block at the end of the buffer. *)
Definition read_hazard (f : pipe_file) (c : call) (q : list Z) : Prop :=
  c_pc c = Loop /\ exists v rest, c_iovs c = v :: rest /\ c_off c < zlen v /\
    read_safe (buf f) (Z.min (zlen q) (zlen v - c_off c)) = false.

Lemma read_step_spec fl i f o c q :
  rep (buf f) q -> call_ok c -> (c_pc c = Loop <-> o = Some i) -> c_pc c <> Lock ->
  (Z.land fl O_NONBLOCK = 0 -> finished c) ->
  match pipe_read_step fl i f o c with
  | None => read_hazard f c q
  | Some Blocked => True
  | Some (Next f' o' c' m) => exists q', q = m ++ q' /\ rep (buf f') q' /\ call_ok c' /\
      (Z.land fl O_NONBLOCK = 0 -> finished c') /\ progress c' = progress c ++ m /\
      lock_step i o o' c' /\ c_pc c' <> Lock /\
      r_refcount f' = r_refcount f /\ capacity (buf f') = capacity (buf f)
  end.
Proof.
  intros R K Ho Hpc Fi. unfold pipe_read_step.
  assert (Hplace : forall p o', p <> Enter -> p <> Lock -> lock_step i o o' (at_pc c p) ->
    (Z.land fl O_NONBLOCK = 0 -> finished (at_pc c p)) ->
    exists q', q = [] ++ q' /\ rep (buf f) q' /\ call_ok (at_pc c p) /\
      (Z.land fl O_NONBLOCK = 0 -> finished (at_pc c p)) /\ progress (at_pc c p) = progress c ++ [] /\
      lock_step i o o' (at_pc c p) /\ c_pc (at_pc c p) <> Lock /\
      r_refcount f = r_refcount f /\ capacity (buf f) = capacity (buf f)).
  { intros p o' H1 H2 H3 H4. exists q. rewrite app_nil_r. conj; try done.
    by apply call_ok_pc. }
  destruct (c_pc c) eqn:Epc.
  - unfold lock_then. destruct o as [j|]; [done|].
    case_test; apply Hplace; try done; lock_tac.
  - done.
  - assert (o = Some i) as -> by tauto.
    destruct (c_iovs c) as [|v rest] eqn:Ev.
    { apply Hplace; try done; lock_tac. }
    case_test.
    + pose proof (k_off _ K) as Hoff. rewrite Ev in Hoff.
      assert (Hlv : zlen v < 2 ^ 64).
      { pose proof (k_len _ K) as Hl. rewrite Ev in Hl. by apply Forall_cons in Hl as [? _]. }
      pose proof (read_spec (buf f) q v (c_off c) R ltac:(lia) Hlv) as HR. cbv zeta in HR.
      set (n := Z.min _ _) in *. destruct (read_safe (buf f) n) eqn:Es.
      2: { rewrite HR. cbn. split; [done|]. by exists v, rest. }
      destruct HR as (v' & b' & Hw & Hv & R' & Ec & Eb). rewrite Hw. cbn [mbind option_bind].
      destruct (Z.eqb_spec n 0) as [En|En].
      * destruct (Z.land fl O_NONBLOCK =? 0) eqn:Enb; cbn [negb]; tests.
        -- case_test; [|apply Hplace; try done; lock_tac].
           destruct c as [dn iv off rs p]. cbn in Epc. subst p.
           apply (Hplace Loop); try done; lock_tac.
        -- apply Hplace; try done; lock_tac.
      * exists (drop (Z.to_nat n) q). cbn [buf set_buf].
        assert (Hql : zlen (take (Z.to_nat n) q) = n) by (rewrite length_take; lia).
        pose proof (buf_write_length _ _ _ _ Hv) as Hlen.
        rewrite buf_write_ok in Hv by lia. injection Hv as <-.
        assert (Htl : length (take (Z.to_nat (c_off c)) v) = Z.to_nat (c_off c))
          by (rewrite length_take; lia).
        assert (Em : piece (take (Z.to_nat (c_off c)) v ++ take (Z.to_nat n) q ++
          drop (Z.to_nat (c_off c) + length (take (Z.to_nat n) q)) v) (c_off c) n =
          take (Z.to_nat n) q).
        { unfold piece. rewrite drop_app_length' by done. by rewrite take_app_length' by lia. }
        destruct (call_ok_advance c v (take (Z.to_nat (c_off c)) v ++ take (Z.to_nat n) q ++
          drop (Z.to_nat (c_off c) + length (take (Z.to_nat n) q)) v) rest n K Ev ltac:(lia)
          ltac:(lia) Hlen ltac:(by rewrite take_app_length' by done)) as [K' P'].
        unfold piece in Em, P'. rewrite Em in *. rewrite take_drop. conj; try done; lock_tac.
    + exists q. destruct (call_ok_next c v rest K Ev ltac:(lia)) as [K' P'].
      rewrite app_nil_r. conj; try done; lock_tac.
  - case_test; [|done]. unfold lock_then. destruct o as [j|]; [done|].
    apply Hplace; try done; lock_tac.
  - done.
Qed.

(** ** Any number of writers and readers *)

(** The pipe with the calls under way, and what was moved so far, each byte with the number of
    the thread that moved it. *)
Record sys := Sys {
  s_file : pipe_file; s_wlock : option nat; s_rlock : option nat;
  s_writers : list call; s_readers : list call;
  s_sent : list (nat * Z); s_rcvd : list (nat * Z)
}.

(** The bytes thread [i] moved. *)
Definition by_thread (i : nat) (l : list (nat * Z)) : list Z :=
  map snd (filter (fun x => x.1 = i) l).

Section System.
Context (f_flags : nat -> Z).

(** A step of a call that goes on.  A run ends where the step of a reader is undefined; [pipe_fifo]
    says when that is. *)
Inductive step : sys -> sys -> Prop :=
| step_write i c f wl rl ws rs st rv f' wl' c' m :
    ws !! i = Some c -> pipe_write_step i f wl c = Some (Next f' wl' c' m) ->
    step (Sys f wl rl ws rs st rv) (Sys f' wl' rl (<[i := c']> ws) rs (st ++ map (pair i) m) rv)
| step_read i c f wl rl ws rs st rv f' rl' c' m :
    rs !! i = Some c -> pipe_read_step (f_flags i) i f rl c = Some (Next f' rl' c' m) ->
    step (Sys f wl rl ws rs st rv) (Sys f' wl rl' ws (<[i := c']> rs) st (rv ++ map (pair i) m)).

Lemma by_thread_app i l1 l2 : by_thread i (l1 ++ l2) = by_thread i l1 ++ by_thread i l2.
Proof. unfold by_thread. by rewrite filter_app, map_app. Qed.

Lemma by_thread_tag i j m : by_thread i (map (pair j) m) = if decide (i = j) then m else [].
Proof.
  unfold by_thread. induction m as [|x m IH]; cbn [map].
  - by case_decide.
  - rewrite filter_cons. cbn [fst]. repeat case_decide; subst; try done; cbn [map snd]; by rewrite IH.
Qed.

Lemma map_snd_tag (i : nat) (m : list Z) : map snd (map (pair i) m) = m.
Proof. rewrite map_map. apply map_id. Qed.

(** What holds of the calls of one side. *)
Definition side_ok (fin : nat -> Prop) (o : option nat) (cs : list call) (log : list (nat * Z)) : Prop :=
  forall i c, cs !! i = Some c -> call_ok c /\ (fin i -> finished c) /\
    (c_pc c = Loop <-> o = Some i) /\ progress c = by_thread i log.
Definition owner_ok (o : option nat) (cs : list call) : Prop :=
  forall i, o = Some i -> is_Some (cs !! i).

Record inv (cap : Z) (ws0 : list call) (s : sys) : Prop := Inv {
  v_queue : exists q, rep (buf (s_file s)) q /\ map snd (s_sent s) = map snd (s_rcvd s) ++ q;
  v_cap : capacity (buf (s_file s)) = cap;
  v_cons : cons (buf (s_file s)) = u64 (zlen (s_rcvd s));
  v_writers : side_ok (fun _ => True) (s_wlock s) (s_writers s) (s_sent s);
  v_readers : side_ok (fun i => Z.land (f_flags i) O_NONBLOCK = 0) (s_rlock s) (s_readers s) (s_rcvd s);
  v_wown : owner_ok (s_wlock s) (s_writers s);
  v_rown : owner_ok (s_rlock s) (s_readers s);
  v_rpc : forall i c, s_readers s !! i = Some c -> c_pc c <> Lock;
  v_iovs : forall i c, s_writers s !! i = Some c ->
    exists c0, ws0 !! i = Some c0 /\ c_done c ++ c_iovs c = c_iovs c0
}.

Lemma side_step fin i o o' cs log c c' m :
  side_ok fin o cs log -> cs !! i = Some c -> call_ok c' -> (fin i -> finished c') ->
  progress c' = progress c ++ m -> lock_step i o o' c' ->
  side_ok fin o' (<[i := c']> cs) (log ++ map (pair i) m).
Proof.
  intros S Hc K' F' P' [L1 L2] j d Hj. rewrite by_thread_app, by_thread_tag.
  destruct (decide (j = i)) as [->|Hne].
  - rewrite list_lookup_insert_eq in Hj by (by eapply lookup_lt_Some). simplify_eq.
    destruct (S i c Hc) as (_ & _ & _ & P). repeat (split; [done|]). by rewrite P', P.
  - rewrite list_lookup_insert_ne in Hj by done. destruct (S j d Hj) as (K & F & O & P).
    split; [done|]. split; [done|]. rewrite L2 by done. by rewrite app_nil_r.
Qed.

Lemma owner_step i o o' cs c c' :
  owner_ok o cs -> cs !! i = Some c -> lock_step i o o' c' -> owner_ok o' (<[i := c']> cs).
Proof.
  intros O Hc [_ L2] j Hj. destruct (decide (j = i)) as [->|Hne].
  - rewrite list_lookup_insert_eq by (by eapply lookup_lt_Some). done.
  - rewrite list_lookup_insert_ne by done. apply O. by apply L2.
Qed.

(** Only a reader's step moves the consumer counter, by the bytes it takes. *)
Lemma buf_write_cons b v o n b' : pipe_buf_write b v o = Some (n, b') -> cons b' = cons b.
Proof.
  unfold pipe_buf_write. cbv zeta. case_test; [by intros [= _ <-]|].
  match goal with |- context [?x ≫= _] => destruct x end; [|done]. by intros [= _ <-].
Qed.

Lemma buf_read_prod b v o n v' b' : pipe_buf_read b v o = Some (n, v', b') -> prod b' = prod b.
Proof.
  unfold pipe_buf_read. cbv zeta. case_test; [by intros [= _ _ <-]|].
  match goal with |- context [?x ≫= _] => destruct x end; [|done]. by intros [= _ _ <-].
Qed.

Lemma write_step_cons i f wl c f' wl' c' m :
  pipe_write_step i f wl c = Some (Next f' wl' c' m) -> cons (buf f') = cons (buf f).
Proof.
  unfold pipe_write_step, lock_then. intros H. destruct (c_pc c); [| | | |done];
    try (repeat case_match; naive_solver).
  destruct (c_iovs c); [naive_solver|]. destruct (c_off c <? _); [|naive_solver].
  destruct (pipe_buf_write _ _ _) as [[n b']|] eqn:E1; [cbn in H|done].
  repeat case_match; simplify_eq; try done. by apply buf_write_cons in E1.
Qed.

Lemma read_step_prod fl i f rl c f' rl' c' m :
  pipe_read_step fl i f rl c = Some (Next f' rl' c' m) -> prod (buf f') = prod (buf f).
Proof.
  unfold pipe_read_step, lock_then. intros H. destruct (c_pc c); [|done| | |done];
    try (repeat case_match; naive_solver).
  destruct (c_iovs c); [naive_solver|]. destruct (c_off c <? _); [|naive_solver].
  destruct (pipe_buf_read _ _ _) as [[[n v] b']|] eqn:E1; [cbn in H|done].
  repeat case_match; simplify_eq; try done. by apply buf_read_prod in E1.
Qed.

Lemma rep_cons b b' m q n :
  rep b (m ++ q) -> rep b' q -> prod b' = prod b -> cons b = u64 n ->
  cons b' = u64 (n + zlen m).
Proof.
  intros R R' E Hn. rewrite (r_prod _ _ R), (r_prod _ _ R'), length_app, Hn in E.
  pose proof (r_cons _ _ R') as Hc. unfold in_u in Hc. unfold wrap in *.
  rewrite Zplus_mod_idemp_l in E. rewrite <- (Z.mod_small (cons b') (2 ^ 64)) by done.
  replace (cons b') with (cons b' + zlen q - zlen q) by lia.
  rewrite Zminus_mod, E, <- Zminus_mod. f_equal. lia.
Qed.

Lemma pipe_step_inv cap ws0 s s' : step s s' -> inv cap ws0 s -> inv cap ws0 s'.
Proof.
  intros [i c f wl rl ws rs st rv f' wl' c' m Hi Hw|i c f wl rl ws rs st rv f' rl' c' m Hi Hr]
    [(q & R & Q) C Cn W Rd WO RO RP IV]; cbn [s_file s_wlock s_rlock s_writers s_readers s_sent s_rcvd] in *.
  - destruct (W i c Hi) as (K & F & O & P).
    destruct (write_step_spec i f wl c q R K (F I) O) as (out & Hout & Hok).
    rewrite Hw in Hout. injection Hout as <-.
    destruct Hok as (R' & (K' & F' & P' & L' & _ & Cap) & IV').
    split; cbn [s_file s_wlock s_rlock s_writers s_readers s_sent s_rcvd]; try done.
    + exists (q ++ m). split; [done|]. by rewrite map_app, map_snd_tag, Q, app_assoc.
    + congruence.
    + by rewrite (write_step_cons _ _ _ _ _ _ _ _ Hw).
    + by eapply side_step.
    + by eapply owner_step.
    + intros j d Hj. destruct (decide (j = i)) as [->|Hne].
      * rewrite list_lookup_insert_eq in Hj by (by eapply lookup_lt_Some). simplify_eq.
        rewrite IV'. by apply IV.
      * rewrite list_lookup_insert_ne in Hj by done. by apply IV.
  - destruct (Rd i c Hi) as (K & F & O & P).
    pose proof (read_step_spec (f_flags i) i f rl c q R K O (RP i c Hi) F) as Hok.
    rewrite Hr in Hok. destruct Hok as (q' & -> & R' & K' & F' & P' & L' & Pc & _ & Cap).
    split; cbn [s_file s_wlock s_rlock s_writers s_readers s_sent s_rcvd]; try done.
    + exists q'. split; [done|]. by rewrite map_app, map_snd_tag, Q, app_assoc.
    + congruence.
    + rewrite length_app, length_map, Nat2Z.inj_add.
      exact (rep_cons _ _ m q' _ R R' (read_step_prod _ _ _ _ _ _ _ _ _ Hr) Cn).
    + by eapply side_step.
    + by eapply owner_step.
    + intros j d Hj. destruct (decide (j = i)) as [->|Hne].
      * rewrite list_lookup_insert_eq in Hj by (by eapply lookup_lt_Some). by simplify_eq.
      * rewrite list_lookup_insert_ne in Hj by done. by eapply RP.
Qed.

(** Calls as the system calls make them: nothing moved yet. *)
Definition fresh_call (iovs : list (list Z)) : call :=
  Call [] iovs 0 (zlen (concat iovs)) Enter.
Definition start (f : pipe_file) (ws rs : list (list (list Z))) : sys :=
  Sys f None None (map fresh_call ws) (map fresh_call rs) [] [].

Definition iovs_ok (l : list (list (list Z))) : Prop := Forall (Forall (fun v => zlen v < 2 ^ 64)) l.

Lemma fresh_side fin l : iovs_ok l -> side_ok fin None (map fresh_call l) [].
Proof.
  intros Hl i c Hc. rewrite list_lookup_fmap in Hc.
  destruct (l !! i) as [v|] eqn:E; [|done]. cbn in Hc. injection Hc as <-.
  apply Forall_lookup_1 with (i := i) (x := v) in Hl; [|done].
  repeat split; cbn; try done; try (destruct v; cbn; lia).
  unfold progress, fresh_call. cbn. by destruct v.
Qed.

Lemma pipe_alloc_rep mem k b :
  0 <= k <= 30 -> zlen mem = 2 ^ k -> pipe_buf_alloc true (Some mem) (2 ^ k) = Some (Some b) ->
  rep b [] /\ capacity b = 2 ^ k /\ cons b = 0.
Proof.
  intros Hk Hl. unfold pipe_buf_alloc. case_test; [|done]. intros [= <-]. split; [|done].
  pose proof (pow2_pos k ltac:(lia)).
  split; cbn [capacity data cons prod]; try done.
  - by exists k.
  - cbn. lia.
  - cbn. lia.
Qed.

Lemma start_inv f ws rs k mem b fl :
  0 <= k <= 30 -> zlen mem = 2 ^ k -> pipe_buf_alloc true (Some mem) (2 ^ k) = Some (Some b) ->
  f = PipeFile b 1 1 fl -> iovs_ok ws -> iovs_ok rs ->
  inv (2 ^ k) (map fresh_call ws) (start f ws rs).
Proof.
  intros Hk Hl Ha -> Hw Hr. destruct (pipe_alloc_rep mem k b Hk Hl Ha) as (R & C & C0).
  split; cbn [start s_file s_wlock s_rlock s_writers s_readers s_sent s_rcvd buf]; try done.
  - by exists [].
  - by apply fresh_side.
  - by apply fresh_side.
  - intros i c Hc. rewrite list_lookup_fmap in Hc. destruct (rs !! i); [|done]. cbn in Hc.
    by injection Hc as <-.
  - intros i c Hc. exists c. split; [done|]. rewrite list_lookup_fmap in Hc.
    destruct (ws !! i); [|done]. cbn in Hc. by injection Hc as <-.
Qed.

Lemma reach_inv cap ws0 s s' : rtc step s s' -> inv cap ws0 s -> inv cap ws0 s'.
Proof. induction 1; eauto using pipe_step_inv. Qed.

Lemma loop_not_blocked i f c : c_pc c = Loop ->
  pipe_write_step i f (Some i) c <> Some Blocked /\
  pipe_read_step (f_flags i) i f (Some i) c <> Some Blocked.
Proof.
  intros E. unfold pipe_write_step, pipe_read_step. rewrite E. split.
  - destruct (c_iovs c); [done|]. case_test; [|done].
    destruct (pipe_buf_write _ _ _) as [[n b']|]; [cbn|done]. by repeat case_match.
  - destruct (c_iovs c); [done|]. case_test; [|done].
    destruct (pipe_buf_read _ _ _) as [[[n v] b']|]; [cbn|done]. by repeat case_match.
Qed.

(** With nobody in its loop, a call that is not over waits for the buffer. *)
Lemma blocked_waits i f c :
  c_pc c <> Loop -> (forall rc, c_pc c <> Returned rc) ->
  (pipe_write_step i f None c = Some Blocked -> pipe_buf_can_write (buf f) = false) /\
  (c_pc c <> Lock -> pipe_read_step (f_flags i) i f None c = Some Blocked ->
   pipe_buf_can_read (buf f) = false).
Proof.
  intros HL HR. unfold pipe_write_step, pipe_read_step.
  destruct (c_pc c) as [| | | |rc]; cbn; repeat case_match; naive_solver.
Qed.

Lemma inv_not_stuck cap ws0 s i c j d :
  inv cap ws0 s -> s_writers s !! i = Some c -> s_readers s !! j = Some d ->
  (forall rc, c_pc c <> Returned rc) -> (forall rc, c_pc d <> Returned rc) ->
  exists i c, s_writers s !! i = Some c /\
      pipe_write_step i (s_file s) (s_wlock s) c <> Some Blocked \/
    s_readers s !! i = Some c /\
      pipe_read_step (f_flags i) i (s_file s) (s_rlock s) c <> Some Blocked.
Proof.
  intros V Hc Hd Hcr Hdr. destruct s as [f wl rl ws rs st rv]; cbn in *.
  destruct wl as [o|].
  { destruct (v_wown _ _ _ V o eq_refl) as [e He]. cbn in He. exists o, e. left. split; [done|].
    destruct (v_writers _ _ _ V o e He) as (_ & _ & L & _). apply loop_not_blocked. by apply L. }
  destruct rl as [o|].
  { destruct (v_rown _ _ _ V o eq_refl) as [e He]. cbn in He. exists o, e. right. split; [done|].
    destruct (v_readers _ _ _ V o e He) as (_ & _ & L & _). apply loop_not_blocked. by apply L. }
  destruct (v_writers _ _ _ V i c Hc) as (_ & _ & Lc & _).
  destruct (v_readers _ _ _ V j d Hd) as (_ & _ & Ld & _). cbn in Lc, Ld.
  destruct (blocked_waits i f c ltac:(naive_solver) Hcr) as [Bc _].
  destruct (blocked_waits j f d ltac:(naive_solver) Hdr) as [_ Bd].
  destruct (pipe_write_step i f None c) as [[|? ? ? ?]|] eqn:E1;
    [|exists i, c; left; by rewrite E1|exists i, c; left; by rewrite E1].
  destruct (pipe_read_step (f_flags j) j f None d) as [[|? ? ? ?]|] eqn:E2;
    [|exists j, d; right; by rewrite E2|exists j, d; right; by rewrite E2].
  exfalso. specialize (Bc eq_refl). specialize (Bd (v_rpc _ _ _ V j d Hd) eq_refl).
  destruct (v_queue _ _ _ V) as (q & R & _). cbn in R. pose proof (cap_bounds _ _ R) as [Hcap _].
  unfold pipe_buf_can_write, pipe_buf_can_read in *.
  rewrite (free_space_spec _ _ R) in Bc. rewrite (available_spec _ _ R) in Bd. tests. lia.
Qed.

End System.

(** A given order of steps: [inl i] is one of writer [i], [inr i] one of reader [i]. *)
Definition exec1 (f_flags : nat -> Z) (s : sys) (w : nat + nat) : option sys :=
  let 'Sys f wl rl ws rs st rv := s in
  match w with
  | inl i =>
      c ← ws !! i;
      match pipe_write_step i f wl c with
      | Some (Next f' wl' c' m) => Some (Sys f' wl' rl (<[i := c']> ws) rs (st ++ map (pair i) m) rv)
      | _ => None
      end
  | inr i =>
      c ← rs !! i;
      match pipe_read_step (f_flags i) i f rl c with
      | Some (Next f' rl' c' m) => Some (Sys f' wl rl' ws (<[i := c']> rs) st (rv ++ map (pair i) m))
      | _ => None
      end
  end.
Fixpoint exec (f_flags : nat -> Z) (s : sys) (order : list (nat + nat)) : option sys :=
  match order with [] => Some s | w :: order' => s' ← exec1 f_flags s w; exec f_flags s' order' end.

Lemma exec_rtc f_flags s order s' : exec f_flags s order = Some s' -> rtc (step f_flags) s s'.
Proof.
  revert s. induction order as [|w order IH]; intros s; cbn [exec]; [by intros [= <-]; apply rtc_refl|].
  destruct (exec1 f_flags s w) as [s1|] eqn:E; [|done]. cbn [mbind option_bind]. intros H.
  eapply rtc_l; [|by apply IH]. destruct s as [f wl rl ws rs st rv], w as [i|i]; cbn in E.
  - destruct (ws !! i) as [c|] eqn:Ec; [|done]. cbn in E. repeat case_match; simplify_eq.
    by eapply step_write.
  - destruct (rs !! i) as [c|] eqn:Ec; [|done]. cbn in E. repeat case_match; simplify_eq.
    by eapply step_read.
Qed.

(** A pipe of [2 ^ k] bytes with calls to write [ws] and to read into [rs] under way. *)
Definition running (f_flags : nat -> Z) (k : Z) (ws rs : list (list (list Z))) (s : sys) : Prop :=
  0 <= k <= 30 /\ iovs_ok ws /\ iovs_ok rs /\
  exists mem fl f, zlen mem = 2 ^ k /\
    pipe_file_alloc true true (Some mem) (2 ^ k) fl = Some (Some f) /\
    rtc (step f_flags) (start f ws rs) s.

Lemma running_inv f_flags k ws rs s :
  running f_flags k ws rs s -> inv f_flags (2 ^ k) (map fresh_call ws) s.
Proof.
  intros (Hk & Hw & Hr & mem & fl & f & Hm & Ha & Hs).
  apply (reach_inv f_flags _ _ _ _ Hs). unfold pipe_file_alloc in Ha.
  destruct (pipe_buf_alloc true (Some mem) (2 ^ k)) as [[b|]|] eqn:E; [|done|done].
  injection Ha as <-. by eapply (start_inv f_flags _ ws rs k mem b fl).
Qed.

(** A step of a reader that has the lock is undefined exactly when the block it reads goes
    around the end of the buffer and the low 32 bits of the consumer counter have passed the
    capacity: the code takes the counter instead of its index for the length of the block. *)
Theorem pipe_read_hazard b q iovec off :
  rep b q -> 0 <= off <= zlen iovec -> zlen iovec < 2 ^ 64 ->
  let n := Z.min (zlen q) (zlen iovec - off) in
  (pipe_buf_read b iovec off = None <->
   capacity b < cons b mod capacity b + n /\ capacity b <= u32 (cons b)) /\
  forall m v b', pipe_buf_read b iovec off = Some (m, v, b') ->
    m = n /\ buf_write iovec off (take (Z.to_nat n) q) = Some v /\ rep b' (drop (Z.to_nat n) q).
Proof.
  intros R Ho Hl n. pose proof (read_spec b q iovec off R Ho Hl) as H. cbv zeta in H. fold n in H.
  unfold read_safe in H. case_test; tests.
  - destruct H as (v & b' & E1 & Hv & R' & _). rewrite E1. split; [|naive_solver].
    split; [done|]. intros [H1 H2]. apply orb_true_iff in E as [E|E]; tests; lia.
  - rewrite H. split; [|done]. split; [lia|done].
Qed.

(** The next step of a reader goes around the end of a buffer of [cap] bytes holding [stored]
    bytes although [taken] bytes, [cap] or more in their low 32 bits, were read before. *)
Definition reads_round (cap taken stored : Z) (c : call) : Prop :=
  c_pc c = Loop /\ exists iovec rest, c_iovs c = iovec :: rest /\ c_off c < zlen iovec /\
    cap < taken mod cap + Z.min stored (zlen iovec - c_off c) /\ cap <= u32 taken.

Lemma u32_u64 n : u32 (u64 n) = u32 n.
Proof. unfold wrap. symmetry. apply Znumtheory.Zmod_div_mod; [lia|lia|]. by exists (2 ^ 32). Qed.

Lemma read_step_none fl i f rl c q taken :
  rep (buf f) q -> call_ok c -> cons (buf f) = u64 taken ->
  pipe_read_step fl i f rl c = None <-> reads_round (capacity (buf f)) taken (zlen q) c.
Proof.
  intros R K Hn. unfold reads_round, pipe_read_step.
  destruct (c_pc c) eqn:Ep; try (split; [by unfold lock_then; repeat case_match|by intros [? _]]).
  destruct (c_iovs c) as [|v rest] eqn:Ei; [split; [done|naive_solver]|].
  destruct (Z.ltb_spec (c_off c) (zlen v)) as [Hlt|Hge]; [|split; [done|intros (_ & ? & ? & [= <- <-] & ? & _); lia]].
  assert (Hv : 0 <= c_off c <= zlen v /\ zlen v < 2 ^ 64).
  { destruct K as [O L _ _]. rewrite Ei in O, L. apply Forall_cons in L as [L _]. done. }
  pose proof (proj1 (pipe_read_hazard (buf f) q v (c_off c) R (proj1 Hv) (proj2 Hv))) as H.
  rewrite Hn, (u64_mod_cap _ _ _ R), u32_u64 in H.
  destruct (pipe_buf_read (buf f) v (c_off c)) as [[[n v'] b']|] eqn:Er; cbn.
  - split; [repeat case_match; done|]. intros (_ & v1 & r1 & [= <- <-] & _ & H1).
    by apply H in H1.
  - split; [|done]. intros _. split; [done|]. exists v, rest. split; [done|]. split; [done|].
    by apply H.
Qed.

(** C22: whatever the interleaving of writers and readers, the bytes read followed by at most the
    capacity of bytes still stored are the bytes written, in order; every writer has put a
    prefix of its data in, all of it when its call returned 0, and a writer's step is always
    defined; every reader has its bytes in its own buffers in the order it took them.  A reader's
    step is undefined, so that the run ends there, exactly when its next block goes around the
    end of the buffer and at least the capacity of bytes was read before (in the low 32 bits of
    the count): [pipe_second_round_undefined] below is such a run. *)
Theorem pipe_fifo f_flags k ws rs s :
  running f_flags k ws rs s ->
  exists q, map snd (s_sent s) = map snd (s_rcvd s) ++ q /\ zlen q <= 2 ^ k /\
  (forall i c, s_writers s !! i = Some c -> exists iovs, ws !! i = Some iovs /\
     by_thread i (s_sent s) `prefix_of` concat iovs /\
     (c_pc c = Returned 0 -> by_thread i (s_sent s) = concat iovs) /\
     is_Some (pipe_write_step i (s_file s) (s_wlock s) c)) /\
  (forall i c, s_readers s !! i = Some c -> by_thread i (s_rcvd s) = progress c /\
     (pipe_read_step (f_flags i) i (s_file s) (s_rlock s) c = None <->
      reads_round (2 ^ k) (zlen (s_rcvd s)) (zlen q) c)).
Proof.
  intros V%running_inv. destruct (v_queue _ _ _ _ V) as (q & R & Q). exists q. split; [done|].
  split; [rewrite <- (v_cap _ _ _ _ V); apply (r_fits _ _ R)|]. split.
  - intros i c Hc. destruct (v_writers _ _ _ _ V i c Hc) as (K & F & O & P).
    destruct (v_iovs _ _ _ _ V i c Hc) as (c0 & H0 & E).
    rewrite list_lookup_fmap in H0. destruct (ws !! i) as [iovs|]; [|done]. cbn in H0.
    injection H0 as <-. cbn in E. exists iovs. split; [done|]. rewrite <- P, <- E, concat_app.
    split; [|split].
    + unfold progress. apply prefix_app. destruct (c_iovs c) as [|v rest]; [apply prefix_nil|].
      cbn [concat]. rewrite <- (take_drop (Z.to_nat (c_off c)) v) at 2. rewrite <- app_assoc.
      apply prefix_app_r, reflexivity.
    + intros Hr. unfold progress. by rewrite (F I Hr).
    + destruct (write_step_spec i _ _ c q R K (F I) O) as (out & -> & _). by eexists.
  - intros i c Hc. destruct (v_readers _ _ _ _ V i c Hc) as (K & _ & _ & ->). split; [done|].
    rewrite (read_step_none _ _ _ _ _ q _ R K (v_cons _ _ _ _ V)). by rewrite (v_cap _ _ _ _ V).
Qed.

(** As long as a write and a read are under way, some call can go on: the two sides never
    wait for each other. *)
Theorem pipe_no_deadlock f_flags k ws rs s i c j d :
  running f_flags k ws rs s -> s_writers s !! i = Some c -> s_readers s !! j = Some d ->
  (forall rc, c_pc c <> Returned rc) -> (forall rc, c_pc d <> Returned rc) ->
  exists i c, s_writers s !! i = Some c /\
      pipe_write_step i (s_file s) (s_wlock s) c <> Some Blocked \/
    s_readers s !! i = Some c /\
      pipe_read_step (f_flags i) i (s_file s) (s_rlock s) c <> Some Blocked.
Proof. intros V%running_inv. by apply (inv_not_stuck f_flags _ _ s i c j d V). Qed.

(** Six bytes through a pipe of four: the writer fills the buffer, the reader takes three bytes,
    the writer goes on. *)
Definition sample_file : pipe_file := PipeFile (PipeBuf [0; 0; 0; 0] 4 0 0) 1 1 0.
Definition sample_order : list (nat + nat) :=
  [inl 0; inl 0; inl 0; inl 0; inl 0; inr 0; inr 0; inl 0; inl 0]%nat.
Definition sample : sys :=
  default (start sample_file [] [])
    (exec (fun _ => 0) (start sample_file [[[1; 2]; [3; 4; 5; 6]]] [[[0; 0; 0; 0; 0]]]) sample_order).

Lemma sample_running : running (fun _ => 0) 2 [[[1; 2]; [3; 4; 5; 6]]] [[[0; 0; 0; 0; 0]]] sample.
Proof.
  split; [lia|]. split; [by repeat constructor|]. split; [by repeat constructor|].
  exists [0; 0; 0; 0], 0, sample_file. split; [done|]. split; [done|].
  apply (exec_rtc _ _ sample_order). vm_compute. reflexivity.
Qed.

Lemma pipe_fifo_witness :
  exists q, map snd (s_sent sample) = map snd (s_rcvd sample) ++ q /\ zlen q <= 2 ^ 2.
Proof.
  destruct (pipe_fifo _ 2 _ _ sample sample_running) as (q & Hq & Hl & _). by exists q.
Defined.

Lemma pipe_no_deadlock_witness : exists i c, s_writers sample !! i = Some c /\
      pipe_write_step i (s_file sample) (s_wlock sample) c <> Some Blocked \/
    s_readers sample !! i = Some c /\
      pipe_read_step 0 i (s_file sample) (s_rlock sample) c <> Some Blocked.
Proof.
  eapply (pipe_no_deadlock (fun _ => 0) 2 _ _ sample 0 _ 0 _ sample_running);
    [vm_compute; reflexivity|vm_compute; reflexivity|done|done].
Defined.

(** Reading four bytes after six have been read, from a pipe of four: undefined. *)
Lemma pipe_read_hazard_witness :
  pipe_buf_read (PipeBuf [4; 5; 6; 7] 4 10 6) [0; 0; 0; 0] 0 = None <->
  4 < 6 mod 4 + Z.min 4 (4 - 0) /\ 4 <= u32 6.
Proof.
  refine (proj1 (pipe_read_hazard (PipeBuf [4; 5; 6; 7] 4 10 6) [6; 7; 4; 5] [0; 0; 0; 0] 0 _ _ _)).
  - split; cbn [capacity data cons prod].
    + exists 2. split; [lia|done].
    + done.
    + split; [lia|done].
    + done.
    + done.
    + cbn [length]. intros i Hi.
      assert (i = 0 \/ i = 1 \/ i = 2 \/ i = 3) as [->|[->|[->| ->]]] by lia; reflexivity.
  - cbn. lia.
  - cbn. lia.
Defined.

(** Ten bytes written and ten read in pieces, as two processes may do: the third read leaves the
    buffer. *)
Theorem pipe_second_round_undefined :
  (let w := fun b bs => '(_, b) ← pipe_buf_write b bs 0; Some b in
   let r := fun b n => '(_, v, b) ← pipe_buf_read b (replicate n 0) 0; Some (v, b) in
   b ← w (PipeBuf [0; 0; 0; 0] 4 0 0) [1; 2; 3; 4];
   '(v1, b) ← r b 3%nat;
   b ← w b [5; 6; 7];
   '(v2, b) ← r b 3%nat;
   b ← w b [8; 9; 10];
   Some (v1, v2, r b 4%nat)) = Some ([1; 2; 3], [4; 5; 6], None).
Proof. vm_compute. reflexivity. Qed.

End Pipe.
