(* ===== verification/FdTable.v ===== *)
(** * FdTable: file descriptors

    Models [lib/vfscore/fd.c], [lib/vfscore/file.c] and the system calls of [lib/vfscore/main.c]
    that work on descriptors: [close], [dup], [dup2], [dup3], and [init_stdio] of
    [lib/vfscore/stdio.c].  The table is a bitmap of the descriptors in use ([Bitmap]) and an
    array of pointers to open files, which are counted by their references.  Closing a file for
    good ([vfs_close] and [free]) removes it from the heap. *)
From Stdlib Require Import ZArith Lia Bool.
From stdpp Require Import gmap.
From S2P Require Import Prelude ErrMonad Bitmap.
Open Scope Z_scope.

Module FdTable.
Import Bitmap.

Definition EBADF : Z := 9.
Definition EBUSY : Z := 16.
Definition EINVAL : Z := 22.
Definition ENFILE : Z := 23.
Definition O_CLOEXEC : Z := 0x80000.
Definition FDTABLE_MAX_FILES : Z := 1024.

(** The fields that this code uses. *)
Record vfscore_file := File { fd : Z; f_count : Z }.

(** The table, the files by their addresses, and the files that were closed for good, last one
    first.  [NULL] is 0. *)
Record fdtable := Fdtable {
  bitmap : list Z; files : list Z; heap : gmap Z vfscore_file; closed : list Z
}.
Abbreviation fm := (EM fdtable).

Definition set_bitmap (t : fdtable) (b : list Z) : fdtable := Fdtable b (files t) (heap t) (closed t).
Definition set_files (t : fdtable) (l : list Z) : fdtable := Fdtable (bitmap t) l (heap t) (closed t).
Definition set_heap (t : fdtable) (h : gmap Z vfscore_file) : fdtable :=
  Fdtable (bitmap t) (files t) h (closed t).

(** ** References *)

Definition fhold (p : Z) : fm unit := fun t =>
  f ← heap t !! p; Some (inr tt, set_heap t (<[p := File (fd f) (sext 32 (f_count f + 1))]> (heap t))).

Definition fdrop (p : Z) : fm Z := fun t =>
  f ← heap t !! p;
  if negb (0 <? f_count f) then None
  else if f_count f =? 1 then
    Some (inr 1, Fdtable (bitmap t) (files t) (delete p (heap t)) (p :: closed t))
  else Some (inr 0, set_heap t (<[p := File (fd f) (f_count f - 1)]> (heap t))).

(** ** The table *)

Definition vfscore_alloc_fd : fm Z := fun t =>
  ret ← uk_find_next_zero_bit (bitmap t) FDTABLE_MAX_FILES 0;
  if ret =? FDTABLE_MAX_FILES then Some (inl (- ENFILE), t)
  else b ← uk_bitmap_set (bitmap t) ret 1; Some (inr ret, set_bitmap t b).

Definition vfscore_reserve_fd (n : Z) : fm unit := fun t =>
  used ← uk_test_bit n (bitmap t);
  if (used : bool) then Some (inl (- EBUSY), t)
  else b ← uk_bitmap_set (bitmap t) n 1; Some (inr tt, set_bitmap t b).

Definition vfscore_put_fd (n : Z) : fm unit := fun t =>
  if negb (n <? FDTABLE_MAX_FILES) then None
  else
    b ← uk_bitmap_clear (bitmap t) n 1;
    fp ← zget (files t) n;
    l ← zset (files t) n 0;
    let t := set_files (set_bitmap t b) l in
    if negb (fp =? 0) then '(_, t) ← fdrop fp t; Some (inr tt, t) else Some (inr tt, t).

Definition set_fd (p n : Z) : fm unit := fun t =>
  f ← heap t !! p; Some (inr tt, set_heap t (<[p := File n (f_count f)]> (heap t))).

Definition vfscore_install_fd (n p : Z) : fm unit :=
  if (FDTABLE_MAX_FILES <=? n) || (p =? 0) then efail (- EBADF)
  else
    fhold p ;!
    set_fd p n ;!
    let! orig := (fun t => orig ← zget (files t) n; l ← zset (files t) n p;
                           Some (inr orig, set_files t l)) in
    fdrop p ;!
    if negb (orig =? 0) then fdrop orig ;! eret tt else eret tt.

(** 0 when there is no such file. *)
Definition vfscore_get_file (n : Z) : fm Z := fun t =>
  if negb (n <? FDTABLE_MAX_FILES) then None
  else
    used ← uk_test_bit n (bitmap t);
    if negb used then Some (inr 0, t)
    else ret ← zget (files t) n; (fhold ret ;! eret ret) t.

Definition vfscore_put_file (p : Z) : fm Z := fdrop p.

Definition fget (n : Z) : fm Z :=
  let! fp := vfscore_get_file n in
  if fp =? 0 then efail EBADF else eret fp.

Definition fdalloc (p : Z) : fm Z :=
  fhold p ;!
  let! n := vfscore_alloc_fd in
  on_error (fdrop p) (vfscore_install_fd n p) ;!
  eret n.

(** ** System calls

    An error is the value of [errno] of a call that returned -1. *)

Definition fdclose (n : Z) : fm unit :=
  let! fp := vfscore_get_file n in
  if fp =? 0 then efail EBADF
  else vfscore_put_fd n ;! fdrop fp ;! eret tt.

Definition close (n : Z) : fm unit := fdclose n.

Definition dup (oldfd : Z) : fm Z :=
  let! fp := fget oldfd in
  let! newfd := on_error (fdrop fp) (fdalloc fp) in
  fdrop fp ;!
  eret newfd.

(** [close] returns -1 when it fails, which becomes the error. *)
Definition dup3 (oldfd newfd fl : Z) : fm Z :=
  if negb (Z.land fl (lnotw 32 O_CLOEXEC) =? 0) then efail EINVAL
  else if oldfd =? newfd then efail EINVAL
  else
    let! fp := fget oldfd in
    (fun t => '(r, t) ← fget newfd t;
       match r with
       | inr _ => '(r, t) ← close newfd t;
                  match r with inr _ => Some (inr tt, t) | inl _ => Some (inl (-1), t) end
       | inl _ => Some (inr tt, t)
       end) ;!
    vfscore_reserve_fd newfd ;!
    on_error (fdrop fp) (vfscore_install_fd newfd fp) ;!
    fdrop fp ;!
    eret newfd.

Definition dup2 (oldfd newfd : Z) : fm Z :=
  if oldfd =? newfd then eret newfd else dup3 oldfd newfd 0.

(** The table after [memset] of [fdtable_init]; [p] is the address of [stdio_file]. *)
Definition fdtable_zero : fdtable := Fdtable (replicate 16 0) (replicate 1024 0) ∅ [].
Definition stdio_file : vfscore_file := File 1 2.
Definition init_stdio (p : Z) : fm unit := fun t =>
  '(r, t) ← vfscore_alloc_fd (set_heap t (<[p := stdio_file]> (heap t)));
  if negb (bool_decide (r = inr 0)) then None
  else
    '(_, t) ← vfscore_install_fd 0 p t;
    '(_, t) ← dup2 0 1 t;
    '(_, t) ← dup2 0 2 t;
    Some (inr tt, t).
Definition fdtable_init (p : Z) : option fdtable := '(_, t) ← init_stdio p fdtable_zero; Some t.

(** ** The invariant

    [ext p] is the number of references to the file [p] that are not in the table, less the
    references of descriptors that were never counted: [dup3] stores a descriptor without a
    reference of its own, and takes one from this balance. *)

Definition refs (l : list Z) (p : Z) : Z := zlen (filter (fun q => q = p) l).

Record inv (t : fdtable) (ext : Z -> Z) : Prop := Inv {
  i_words : words_ok (bitmap t);
  i_len : zlen (bitmap t) = 16;
  i_files : zlen (files t) = 1024;
  i_used : forall n p, zget (files t) n = Some p -> p <> 0 ->
    bit (bitmap t) n = true /\ is_Some (heap t !! p);
  i_count : forall p f, heap t !! p = Some f ->
    p <> 0 /\ f_count f = refs (files t) p + ext p /\ 1 <= f_count f;
  i_ext : forall p, ext p < 2 ^ 30 /\ (ext p <> 0 -> is_Some (heap t !! p))
}.

Lemma refs_nonneg l p : 0 <= refs l p <= zlen l.
Proof. unfold refs. pose proof (length_filter (fun q => q = p) l). lia. Qed.

(** Replacing the entry [q] by [p]. *)
Lemma refs_insert l n p q x :
  zget l n = Some q ->
  refs (<[Z.to_nat n := p]> l) x =
    refs l x + (if decide (p = x) then 1 else 0) - (if decide (q = x) then 1 else 0).
Proof.
  unfold zget. case_test; [done|]. intros H.
  rewrite <- (take_drop_middle l (Z.to_nat n) q H) at 2.
  rewrite insert_take_drop by (by eapply lookup_lt_Some).
  unfold refs. rewrite !filter_app, !length_app, !filter_cons.
  repeat case_decide; cbn [length]; lia.
Qed.

Lemma refs_pos l n p : zget l n = Some p -> 1 <= refs l p.
Proof.
  unfold zget. case_test; [done|]. intros H. apply list_elem_of_lookup_2 in H.
  unfold refs. enough (length (filter (fun q => q = p) l) <> 0%nat) by lia.
  intros H0%length_zero_iff_nil. by apply (filter_nil_not_elem_of _ _ p H0).
Qed.

Lemma refs_none l p : (forall n, zget l n <> Some p) -> refs l p = 0.
Proof.
  intros H. unfold refs. destruct (filter (fun q => q = p) l) as [|x r] eqn:E; [done|].
  exfalso. assert (Hx : x ∈ filter (fun q => q = p) l) by (rewrite E; apply list_elem_of_here).
  apply list_elem_of_filter in Hx as [-> Hx]. apply list_elem_of_lookup in Hx as [i Hi].
  apply (H (Z.of_nat i)). by rewrite zget_lookup.
Qed.

(** ** The operations keep the invariant *)

Lemma inv_ext t e1 e2 : (forall p, e2 p = e1 p) -> inv t e1 -> inv t e2.
Proof.
  intros H [W L F U C X]. split; try done.
  - intros p f Hf. rewrite H. by apply C.
  - intros p. rewrite H. apply X.
Qed.

Lemma inv_bump_back t ext p : inv t (bump (bump ext p 1) p (-1)) -> inv t ext.
Proof. apply inv_ext. intros x. unfold bump. repeat case_decide; lia. Qed.

Lemma hold_spec t ext p :
  inv t ext -> is_Some (heap t !! p) -> ext p < 2 ^ 30 - 1 ->
  exists h, fhold p t = Some (inr tt, set_heap t h) /\ inv (set_heap t h) (bump ext p 1) /\
    (exists f, h !! p = Some f /\ 2 <= f_count f) /\ forall q, q <> p -> h !! q = heap t !! q.
Proof.
  intros [W L F U C X] [f Hf] Hb. destruct (C p f Hf) as (Hp & Hc & H1).
  pose proof (refs_nonneg (files t) p) as Hr. pose proof (proj1 (X p)) as Hx.
  unfold fhold. rewrite Hf. cbn [mbind option_bind]. eexists. split; [done|].
  assert (Hs : sext 32 (f_count f + 1) = f_count f + 1).
  { unfold sext. rewrite wrap_small by (unfold in_u; lia). change (2 ^ (32 - 1)) with (2 ^ 31).
    by destruct (Z.ltb_spec (f_count f + 1) (2 ^ 31)); [|lia]. }
  split; [|split; [eexists; split; [by apply lookup_insert_eq|cbn; lia]|intros q Hq; by apply lookup_insert_ne]].
  split; cbn [bitmap files heap set_heap]; try done.
  - intros n q Hn Hq. destruct (U n q Hn Hq) as [U1 U2]. split; [done|].
    destruct (decide (q = p)) as [->|]; [by rewrite lookup_insert_eq|by rewrite lookup_insert_ne].
  - intros q g Hg. destruct (decide (q = p)) as [->|Hq].
    + rewrite lookup_insert_eq in Hg. injection Hg as <-. cbn [f_count].
      rewrite bump_eq, Hs. split; [done|]. lia.
    + rewrite lookup_insert_ne in Hg by done. rewrite bump_ne by done. by apply C.
  - intros q. destruct (decide (q = p)) as [->|Hq].
    + rewrite bump_eq, lookup_insert_eq. split; [lia|done].
    + rewrite bump_ne, lookup_insert_ne by done. apply X.
Qed.

(** Dropping a reference closes the file exactly when it was the last one. *)
Definition may_drop (t : fdtable) (ext : Z -> Z) (p : Z) : Prop :=
  is_Some (heap t !! p) /\ (0 < ext p \/ 1 < refs (files t) p + ext p).

Lemma held_may_drop t ext p : inv t ext -> 0 < ext p -> may_drop t ext p.
Proof. intros I H. split; [apply I; lia|by left]. Qed.

Lemma count_may_drop t ext p f :
  inv t ext -> heap t !! p = Some f -> 2 <= f_count f -> may_drop t ext p.
Proof. intros I Hf H. split; [by eexists|]. right. destruct (i_count _ _ I p f Hf). lia. Qed.

Lemma drop_spec t ext p :
  inv t ext -> may_drop t ext p ->
  exists last t', fdrop p t = Some (inr last, t') /\ inv t' (bump ext p (-1)) /\
    bitmap t' = bitmap t /\ files t' = files t /\
    (forall q, q <> p -> heap t' !! q = heap t !! q) /\
    if decide (refs (files t) p = 0 /\ ext p = 1)
    then last = 1 /\ heap t' !! p = None /\ closed t' = p :: closed t
    else last = 0 /\ is_Some (heap t' !! p) /\ closed t' = closed t.
Proof.
  intros [W L F U C X] [[f Hf] Hx]. pose proof (proj1 (X p)) as Hxp.
  destruct (C p f Hf) as (Hp & Hc & H1). pose proof (refs_nonneg (files t) p) as Hr.
  unfold fdrop. rewrite Hf. cbn [mbind option_bind].
  destruct (Z.ltb_spec 0 (f_count f)); [cbn [negb]|lia].
  destruct (Z.eqb_spec (f_count f) 1) as [E|E].
  - eexists _, _. split; [done|]. rewrite decide_True by lia. split.
    { split; cbn [bitmap files heap]; try done.
      - intros n q Hn Hq. destruct (U n q Hn Hq) as [U1 U2]. split; [done|].
        destruct (decide (q = p)) as [->|]; [|by rewrite lookup_delete_ne].
        pose proof (refs_pos _ _ _ Hn). lia.
      - intros q g Hg. destruct (decide (q = p)) as [->|Hq]; [by rewrite lookup_delete_eq in Hg|].
        rewrite lookup_delete_ne in Hg by done. rewrite bump_ne by done. by apply C.
      - intros q. destruct (decide (q = p)) as [->|Hq].
        + rewrite bump_eq. lia.
        + rewrite bump_ne, lookup_delete_ne by done. apply X. }
    split; [done|]. split; [done|]. split; [intros q Hq; by apply lookup_delete_ne|].
    split; [done|]. split; [by apply lookup_delete_eq|done].
  - eexists _, _. split; [done|]. rewrite decide_False by lia. split.
    { split; cbn [bitmap files heap set_heap]; try done.
      - intros n q Hn Hq. destruct (U n q Hn Hq) as [U1 U2]. split; [done|].
        destruct (decide (q = p)) as [->|]; [by rewrite lookup_insert_eq|by rewrite lookup_insert_ne].
      - intros q g Hg. destruct (decide (q = p)) as [->|Hq].
        + rewrite lookup_insert_eq in Hg. injection Hg as <-. cbn [f_count]. rewrite bump_eq. lia.
        + rewrite lookup_insert_ne in Hg by done. rewrite bump_ne by done. by apply C.
      - intros q. destruct (decide (q = p)) as [->|Hq].
        + rewrite bump_eq, lookup_insert_eq. split; [lia|done].
        + rewrite bump_ne, lookup_insert_ne by done. apply X. }
    split; [done|]. split; [done|]. split; [intros q Hq; by apply lookup_insert_ne|].
    split; [done|]. split; [|done]. cbn. rewrite lookup_insert_eq. done.
Qed.

(** One descriptor more or less in the bitmap. *)
Lemma mark_spec t ext n :
  inv t ext -> 0 <= n < 1024 -> zget (files t) n = Some 0 \/ bit (bitmap t) n = true ->
  exists bs bc, uk_bitmap_set (bitmap t) n 1 = Some bs /\ inv (set_bitmap t bs) ext /\
    (forall i, 0 <= i -> bit bs i = (i =? n) || bit (bitmap t) i) /\
    uk_bitmap_clear (bitmap t) n 1 = Some bc /\ words_ok bc /\ zlen bc = 16 /\
    (forall i, 0 <= i -> bit bc i = negb (i =? n) && bit (bitmap t) i).
Proof.
  intros [W L F U C X] Hn Hz.
  destruct (range_update_spec set_mask true set_mask_in_u set_mask_bits (bitmap t) n 1)
    as (bs & Es & Ws & Ls & Bs); [done|lia..|].
  destruct (range_update_spec clear_mask false clear_mask_in_u clear_mask_bits (bitmap t) n 1)
    as (bc & Ec & Wc & Lc & Bc); [done|lia..|].
  assert (Hbs : forall i, 0 <= i -> bit bs i = (i =? n) || bit (bitmap t) i).
  { intros i Hi. rewrite Bs by done.
    destruct (Z.leb_spec n i), (Z.ltb_spec i (n + 1)), (Z.eqb_spec i n); done || lia. }
  exists bs, bc. split; [done|]. split.
  { split; cbn [bitmap files heap set_bitmap]; try done; [lia|]. intros m p Hm Hp.
    destruct (U m p Hm Hp) as [U1 U2]. split; [|done].
    rewrite Hbs by (apply zget_Some_range in Hm; lia). rewrite U1. apply orb_true_r. }
  split; [done|]. split; [done|]. split; [done|]. split; [lia|]. intros i Hi. rewrite Bc by done.
  destruct (Z.leb_spec n i), (Z.ltb_spec i (n + 1)), (Z.eqb_spec i n); done || lia.
Qed.

Lemma alloc_spec t ext :
  inv t ext ->
  exists r t', vfscore_alloc_fd t = Some (r, t') /\ inv t' ext /\ files t' = files t /\
    heap t' = heap t /\ closed t' = closed t /\
    match r with
    | inl rc => rc = - ENFILE /\ t' = t /\ forall i, 0 <= i < 1024 -> bit (bitmap t) i = true
    | inr n => 0 <= n < 1024 /\ bit (bitmap t) n = false /\
        (forall i, 0 <= i < n -> bit (bitmap t) i = true) /\
        forall i, 0 <= i -> bit (bitmap t') i = (i =? n) || bit (bitmap t) i
    end.
Proof.
  intros I. pose proof I as [W L F U C X].
  destruct (scan_spec (lnotw 64) negb (fun w _ => lnotw_in_u 64 w ltac:(lia)) lnotw64_bits
    (bitmap t) (Z.to_nat ((1024 - 0) / 64)) 0 (1024 - 0) W) as (n & En & (H1 & H2 & H3) & H4);
    [lia|lia|lia|lia|].
  unfold vfscore_alloc_fd. change (uk_find_next_zero_bit (bitmap t) FDTABLE_MAX_FILES 0) with
    (scan (Z.to_nat ((1024 - 0) / 64)) (lnotw 64) (bitmap t) 0 (64 * 0) (1024 - 0)).
  rewrite En. cbn [mbind option_bind]. unfold FDTABLE_MAX_FILES.
  destruct (Z.eqb_spec n 1024) as [->|Hn].
  - eexists _, _. split; [done|]. repeat (split; [done|]). intros i Hi.
    apply negb_false_iff, H2; lia.
  - assert (Hfree : bit (bitmap t) n = false) by (apply negb_true_iff, H3; lia).
    assert (Hz : zget (files t) n = Some 0).
    { destruct (zget_is_Some (files t) n) as [p Hp]; [lia|].
      destruct (decide (p = 0)) as [->|Hne]; [done|].
      destruct (U n p Hp Hne) as [Hb _]. congruence. }
    destruct (mark_spec t ext n I ltac:(lia) ltac:(by left)) as (bs & _ & Es & Is & Bs & _).
    rewrite Es. cbn [mbind option_bind]. eexists _, _. split; [done|]. split; [done|].
    repeat (split; [done|]). split; [lia|]. split; [done|]. split; [|done].
    intros i Hi. apply negb_false_iff, H2; lia.
Qed.

Definition opt_bump (ext : Z -> Z) (p k : Z) : Z -> Z := if decide (p = 0) then ext else bump ext p k.

Lemma opt_bump_at ext p k x :
  opt_bump ext p k x = ext x + (if decide (p = x /\ p <> 0) then k else 0).
Proof. unfold opt_bump, bump. repeat case_decide; lia || naive_solver. Qed.

(** Storing [p] in place of [q]: the table takes over a reference and gives one back. *)
Lemma entry_spec t ext n p q b :
  inv t ext -> zget (files t) n = Some q -> (p <> 0 -> is_Some (heap t !! p) /\ bit b n = true) ->
  (q <> 0 -> ext q < 2 ^ 30 - 1) ->
  words_ok b -> zlen b = 16 -> (forall i, 0 <= i -> i <> n -> bit b i = bit (bitmap t) i) ->
  inv (Fdtable b (<[Z.to_nat n := p]> (files t)) (heap t) (closed t))
    (opt_bump (opt_bump ext p (-1)) q 1).
Proof.
  intros [W L F U C X] Hq Hp Hb Wb Lb Bb. pose proof (zget_Some_range _ _ _ Hq) as Hn.
  assert (HpL : p <> 0 -> is_Some (heap t !! p)) by (intros Hp0; by destruct (Hp Hp0)).
  assert (HqL : q <> 0 -> is_Some (heap t !! q)) by (intros Hq0; by apply (U n q)).
  assert (H0 : heap t !! 0 = None).
  { destruct (heap t !! 0) as [f|] eqn:E; [|done]. by destruct (C 0 f E). }
  split; cbn [bitmap files heap]; try done.
  - by rewrite length_insert.
  - intros m x Hm Hx. pose proof (zget_Some_range _ _ _ Hm) as Hmr. rewrite length_insert in Hmr.
    destruct (decide (m = n)) as [->|Hne].
    + unfold zget in Hm. case_test; [lia|]. rewrite list_lookup_insert_eq in Hm by lia.
      injection Hm as ->. split; [by apply Hp|auto].
    + unfold zget in Hm. case_test; [lia|]. rewrite list_lookup_insert_ne in Hm by lia.
      rewrite Bb by lia. apply (U m x); [|done]. unfold zget. by destruct (Z.ltb_spec m 0); [lia|].
  - intros x f Hf. destruct (C x f Hf) as (Hx & Hc & H1). split; [done|].
    rewrite (refs_insert _ n p q x Hq), !opt_bump_at. repeat case_decide; lia || naive_solver.
  - intros x. rewrite !opt_bump_at. destruct (X x) as [X1 X2].
    destruct (decide (p = x /\ p <> 0)) as [[-> Hx]|], (decide (q = x /\ q <> 0)) as [[-> Hx']|];
      try (destruct (Hp Hx)); try specialize (Hb Hx'); split; auto; try lia; intros; apply X2; lia.
Qed.

(** Dropping the entry that was replaced. *)
Lemma drop_entry t ext q :
  inv t (opt_bump ext q 1) -> (q <> 0 -> may_drop t (bump ext q 1) q) ->
  exists t', (if negb (q =? 0) then '(_, t') ← fdrop q t; Some t' else Some t) = Some t' /\
    inv t' ext /\ bitmap t' = bitmap t /\ files t' = files t /\
    (forall x, x <> q -> heap t' !! x = heap t !! x) /\
    (q <> 0 -> 0 < refs (files t) q + ext q -> is_Some (heap t' !! q)).
Proof.
  intros I Hx. destruct (Z.eqb_spec q 0) as [->|Hq]; cbn [negb]; [by exists t|].
  unfold opt_bump in I. rewrite decide_False in I by done.
  destruct (drop_spec t _ q I (Hx Hq)) as (last & t' & E & I' & Eb & Ef & Eh & Hl).
  rewrite E. exists t'. split; [done|]. split.
  { eapply inv_ext; [|exact I']. intros x. unfold bump. repeat case_decide; lia. }
  do 3 (split; [done|]). intros _ H. rewrite bump_eq, decide_False in Hl by lia. tauto.
Qed.

(** The file [p] of a descriptor loses it: its count covers its descriptors, or stays above 0. *)
Definition spare (t : fdtable) (ext : Z -> Z) (p : Z) : Prop :=
  0 <= ext p \/ 1 < refs (files t) p + ext p.

Lemma put_fd_spec t ext n :
  inv t ext -> 0 <= n < 1024 -> (forall x, ext x < 2 ^ 30 - 1) ->
  (forall q, zget (files t) n = Some q -> q <> 0 -> spare t ext q) ->
  exists t', vfscore_put_fd n t = Some (inr tt, t') /\ inv t' ext /\
    files t' = <[Z.to_nat n := 0]> (files t) /\
    (forall i, 0 <= i -> bit (bitmap t') i = negb (i =? n) && bit (bitmap t) i) /\
    (forall x, zget (files t) n = Some x -> x <> 0 -> 1 < refs (files t) x + ext x ->
       is_Some (heap t' !! x)).
Proof.
  intros I Hn Hb Hs. pose proof I as [W L F U C X].
  destruct (zget_is_Some (files t) n) as [q Hq]; [lia|].
  unfold vfscore_put_fd, FDTABLE_MAX_FILES. destruct (Z.ltb_spec n 1024); [cbn [negb]|lia].
  destruct (range_update_spec clear_mask false clear_mask_in_u clear_mask_bits (bitmap t) n 1)
    as (bc & Ec & Wc & Lc & Bc); [done|lia..|].
  assert (Hbc : forall i, 0 <= i -> bit bc i = negb (i =? n) && bit (bitmap t) i).
  { intros i Hi. rewrite Bc by done.
    destruct (Z.leb_spec n i), (Z.ltb_spec i (n + 1)), (Z.eqb_spec i n); done || lia. }
  unfold uk_bitmap_clear. rewrite Ec, Hq. cbn [mbind option_bind].
  rewrite zset_is_Some by lia. cbn [mbind option_bind].
  pose proof (entry_spec t ext n 0 q bc I Hq ltac:(done) ltac:(auto) Wc ltac:(lia)
    ltac:(intros i Hi Hne; rewrite Hbc by done; by destruct (Z.eqb_spec i n))) as I1.
  destruct (drop_entry _ ext q I1) as (t' & E & I' & Eb & Ef & Eh & El).
  { intros Hq0. split; [by apply (U n q)|]. cbn [files]. rewrite bump_eq, (refs_insert _ n 0 q q Hq).
    rewrite (decide_False (P := 0 = q)), (decide_True (P := q = q)) by done.
    destruct (Hs q Hq Hq0); [left|right]; lia. }
  set (t1 := set_files _ _). change (Fdtable bc _ _ _) with t1 in *. exists t'. cbn in Eb.
  split; [|split; [done|split; [done|split; [by intros i Hi; rewrite Eb, Hbc|]]]].
  - destruct (negb (q =? 0)); [|by injection E as <-].
    destruct (fdrop q t1) as [[r t2]|]; [|done]. cbn in E |- *. by injection E as <-.
  - intros x Hx Hx0 H1. assert (x = q) as -> by congruence. apply El; [done|].
    unfold t1. cbn [files set_files set_bitmap]. rewrite (refs_insert _ n 0 q q Hq), (decide_False (P := 0 = q)), (decide_True (P := q = q)) by done.
    lia.
Qed.

Lemma install_spec t ext n p :
  inv t ext -> 0 <= n < 1024 -> bit (bitmap t) n = true -> is_Some (heap t !! p) ->
  (forall x, ext x < 2 ^ 30 - 2) ->
  (forall q, zget (files t) n = Some q -> q <> 0 -> spare t (bump ext p (-1)) q) ->
  exists t', vfscore_install_fd n p t = Some (inr tt, t') /\ inv t' (bump ext p (-1)) /\
    files t' = <[Z.to_nat n := p]> (files t) /\ bitmap t' = bitmap t.
Proof.
  intros I Hn Hbit [f Hf] Hb Hs. pose proof I as [W L F U C X].
  assert (Hp0 : p <> 0) by (by apply (C p f)).
  unfold vfscore_install_fd, FDTABLE_MAX_FILES.
  destruct (Z.leb_spec 1024 n); [lia|]. destruct (Z.eqb_spec p 0); [done|]. cbn [orb].
  destruct (hold_spec t ext p I ltac:(by eexists) ltac:(specialize (Hb p); lia)) as (h1 & E1 & I1 & (f1 & Hf1 & H2) & Eh1).
  rewrite (ebind_ok _ _ _ _ _ E1). unfold ebind at 1, set_fd at 1. cbn [heap set_heap].
  rewrite Hf1. cbn [mbind option_bind].
  set (t2 := set_heap _ _).
  assert (I2 : inv t2 (bump ext p 1)).
  { destruct I1 as [W1 L1 F1 U1 C1 X1]. split; cbn [bitmap files heap t2 set_heap] in *; try done.
    - intros m x Hm Hx. destruct (U1 m x Hm Hx). split; [done|].
      destruct (decide (x = p)) as [->|]; [by rewrite lookup_insert_eq|by rewrite lookup_insert_ne].
    - intros x g Hg. destruct (decide (x = p)) as [->|Hx].
      + rewrite lookup_insert_eq in Hg. injection Hg as <-. by apply (C1 p f1).
      + rewrite lookup_insert_ne in Hg by done. by apply C1.
    - intros x. destruct (decide (x = p)) as [->|Hx].
      + rewrite lookup_insert_eq. split; [apply X1|done].
      + rewrite lookup_insert_ne by done. apply X1. }
  destruct (zget_is_Some (files t) n) as [q Hq]; [lia|].
  assert (Hq2 : zget (files t2) n = Some q) by done.
  unfold ebind at 1. rewrite Hq2. cbn [mbind option_bind].
  rewrite zset_is_Some by (cbn; lia). cbn [mbind option_bind].
  assert (I3 : inv (set_files t2 (<[Z.to_nat n := p]> (files t2))) (opt_bump ext q 1)).
  { eapply inv_ext; [|apply (entry_spec t2 (bump ext p 1) n p q (bitmap t2) I2 Hq2);
      [|intros _; specialize (Hb q); unfold bump; case_decide; lia|apply W|apply L|done]].
    - intros x. rewrite !opt_bump_at. unfold bump. repeat case_decide; lia || naive_solver.
    - intros _. split; [unfold t2; cbn; by rewrite lookup_insert_eq|done]. }
  set (t3 := set_files _ _) in *.
  assert (Hq3 : q <> 0 -> q <> p -> is_Some (heap t3 !! q)).
  { intros Hq0 Hqp. unfold t3, t2. cbn. rewrite lookup_insert_ne by done.
    rewrite Eh1 by done. by apply (U n q). }
  assert (Hr3 : refs (files t3) p <> 0).
  { enough (1 <= refs (files t3) p) by lia. apply (refs_pos _ n). unfold t3, t2. cbn.
    unfold zget. case_test; [lia|]. by rewrite list_lookup_insert_eq by lia. }
  destruct (drop_spec t3 _ p I3) as (last & t4 & E4 & I4 & Eb4 & Ef4 & Eh4 & Hlast).
  { apply (count_may_drop t3 _ p (File n (f_count f1)) I3); [by apply lookup_insert_eq|done]. }
  rewrite decide_False in Hlast by tauto. destruct Hlast as (_ & Hp4 & _).
  rewrite (ebind_ok _ _ _ _ _ E4).
  destruct (drop_entry t4 (bump ext p (-1)) q) as (t5 & E5 & I5 & Eb5 & Ef5 & _).
  { eapply inv_ext; [|exact I4]. intros x. rewrite opt_bump_at. unfold bump.
    rewrite opt_bump_at. repeat case_decide; lia. }
  { intros Hq0. split.
    - destruct (decide (q = p)) as [->|Hqp]; [done|]. rewrite Eh4 by done. by apply Hq3.
    - rewrite Ef4. unfold t3, t2. cbn [files set_files set_heap]. rewrite (refs_insert _ n p q q Hq).
      destruct (Hs q Hq Hq0) as [Hs1|Hs1]; unfold bump in *; repeat case_decide; subst; done || lia. }
  exists t5. split; [|split; [done|split; [by rewrite Ef5, Ef4|by rewrite Eb5, Eb4]]].
  destruct (negb (q =? 0)); [|by injection E5 as <-].
  unfold ebind. destruct (fdrop q t4) as [[[rc|r] t6]|] eqn:Eq; [|by injection E5 as <-|done].
  unfold fdrop in Eq. destruct (heap t4 !! q); [|done]. cbn in Eq. by repeat case_match.
Qed.

(** The file of a descriptor, with a reference for the caller. *)
Lemma get_file_spec t ext n :
  inv t ext -> 0 <= n < 1024 -> (forall x, ext x < 2 ^ 30 - 2) ->
  if bit (bitmap t) n then
    exists p, zget (files t) n = Some p /\
      if decide (p = 0) then vfscore_get_file n t = None
      else exists h, vfscore_get_file n t = Some (inr p, set_heap t h) /\
        inv (set_heap t h) (bump ext p 1)
  else vfscore_get_file n t = Some (inr 0, t).
Proof.
  intros I Hn Hb. pose proof I as [W L F U C X].
  unfold vfscore_get_file, FDTABLE_MAX_FILES. destruct (Z.ltb_spec n 1024); [cbn [negb]|lia].
  destruct (single_bit_correct (bitmap t) n W ltac:(lia)) as [-> _]. cbn [mbind option_bind].
  destruct (bit (bitmap t) n) eqn:Eb; cbn [negb]; [|done].
  destruct (zget_is_Some (files t) n) as [p Hp]; [lia|]. rewrite Hp. cbn [mbind option_bind].
  exists p. split; [done|]. case_decide as Hp0.
  - subst. unfold ebind, fhold. destruct (heap t !! 0) as [f|] eqn:E; [by destruct (C 0 f E)|done].
  - destruct (U n p Hp Hp0) as [_ HL].
    destruct (hold_spec t ext p I HL ltac:(specialize (Hb p); lia)) as (h & E & I' & _).
    exists h. by rewrite (ebind_ok _ _ _ _ _ E).
Qed.

(** A new descriptor is the lowest free one. *)
Definition lowest_free (t : fdtable) (n : Z) : Prop :=
  0 <= n < 1024 /\ bit (bitmap t) n = false /\ forall i, 0 <= i < n -> bit (bitmap t) i = true.
Definition all_used (t : fdtable) : Prop := forall i, 0 <= i < 1024 -> bit (bitmap t) i = true.
Definition marks (t : fdtable) (n : Z) (t' : fdtable) : Prop :=
  forall i, 0 <= i -> bit (bitmap t') i = (i =? n) || bit (bitmap t) i.
Definition unmarks (t : fdtable) (n : Z) (t' : fdtable) : Prop :=
  forall i, 0 <= i -> bit (bitmap t') i = negb (i =? n) && bit (bitmap t) i.

Lemma fdalloc_spec t ext p :
  inv t ext -> is_Some (heap t !! p) -> (forall x, ext x < 2 ^ 30 - 3) ->
  exists r t', fdalloc p t = Some (r, t') /\
  match r with
  | inr n => inv t' ext /\ lowest_free t n /\ marks t n t' /\
      files t' = <[Z.to_nat n := p]> (files t)
  | inl rc => rc = - ENFILE /\ all_used t /\ inv t' (bump ext p 1) /\
      files t' = files t /\ bitmap t' = bitmap t
  end.
Proof.
  intros I Hp Hb. unfold fdalloc.
  destruct (hold_spec t ext p I Hp ltac:(specialize (Hb p); lia))
    as (h & E1 & I1 & (f1 & Hf1 & _) & _).
  rewrite (ebind_ok _ _ _ _ _ E1). set (t1 := set_heap t h) in *.
  destruct (alloc_spec t1 _ I1) as (r & t2 & E2 & I2 & Ef & Eh & Ec & Hr).
  destruct r as [rc|n].
  - rewrite (ebind_err _ _ _ _ _ E2). destruct Hr as (-> & -> & Hall).
    exists (inl (- ENFILE)), t1. done.
  - rewrite (ebind_ok _ _ _ _ _ E2). destruct Hr as (Hn & Hfree & Hlow & Hmark).
    destruct (install_spec t2 (bump ext p 1) n p I2 Hn) as (t3 & E3 & I3 & Ef3 & Eb3).
    + rewrite Hmark, Z.eqb_refl by lia. done.
    + rewrite Eh. by exists f1.
    + intros x. specialize (Hb x). unfold bump. case_decide; lia.
    + intros q Hq Hq0. rewrite Ef in Hq. by destruct (i_used _ _ I1 n q Hq Hq0); congruence.
    + exists (inr n), t3. split.
      { unfold ebind, on_error. rewrite E3. done. }
      split; [by apply inv_bump_back in I3|].
      split; [by split|]. split; [intros i Hi; by rewrite Eb3, Hmark|]. by rewrite Ef3, Ef.
Qed.

(** The file that descriptor [n] refers to. *)
Definition open_fd (t : fdtable) (n p : Z) : Prop := zget (files t) n = Some p /\ p <> 0.

Lemma open_fd_used t ext n p : inv t ext -> open_fd t n p -> 0 <= n < 1024 /\ bit (bitmap t) n = true.
Proof.
  intros I [Hn Hp]. pose proof (zget_Some_range _ _ _ Hn) as Hr. rewrite (i_files _ _ I) in Hr.
  split; [lia|]. by apply (i_used _ _ I n p).
Qed.

Lemma open_fd_counted t ext n p : inv t ext -> open_fd t n p ->
  is_Some (heap t !! p) /\ 1 <= refs (files t) p + ext p.
Proof.
  intros I [Hn Hp]. destruct (i_used _ _ I n p Hn Hp) as [_ [f Hf]]. split; [by eexists|].
  destruct (i_count _ _ I p f Hf). lia.
Qed.

Lemma get_open t ext n p :
  inv t ext -> open_fd t n p -> (forall x, ext x < 2 ^ 30 - 2) ->
  exists h, vfscore_get_file n t = Some (inr p, set_heap t h) /\ inv (set_heap t h) (bump ext p 1).
Proof.
  intros I Ho Hb. destruct (open_fd_used t ext n p I Ho) as [Hn Hbit]. destruct Ho as [Hz Hp].
  pose proof (get_file_spec t ext n I Hn Hb) as H. rewrite Hbit in H. destruct H as (q & Hq & H).
  assert (q = p) as -> by congruence. by rewrite decide_False in H.
Qed.

(** Closing a descriptor drops its file, which goes away with its last reference. *)
Lemma close_open t ext n p :
  inv t ext -> open_fd t n p -> (forall x, ext x < 2 ^ 30 - 3) -> spare t ext p ->
  exists t', close n t = Some (inr tt, t') /\ inv t' ext /\ unmarks t n t' /\
    files t' = <[Z.to_nat n := 0]> (files t) /\
    (heap t' !! p = None <-> refs (files t) p = 1 /\ ext p = 0).
Proof.
  intros I Ho Hb Hs. destruct (open_fd_used t ext n p I Ho) as [Hn Hbit].
  destruct (open_fd_counted t ext n p I Ho) as [_ H1].
  destruct (get_open t ext n p I Ho ltac:(intros x; specialize (Hb x); lia)) as (h & E1 & I1).
  destruct Ho as [Hz Hp]. unfold close, fdclose. rewrite (ebind_ok _ _ _ _ _ E1).
  destruct (Z.eqb_spec p 0); [done|].
  destruct (put_fd_spec _ _ n I1 Hn) as (t2 & E2 & I2 & Ef2 & Eb2 & El2).
  { intros x. specialize (Hb x). unfold bump. case_decide; lia. }
  { intros q Hq _. assert (q = p) as -> by (cbn in Hq; congruence). right. rewrite bump_eq. cbn. lia. }
  rewrite (ebind_ok _ _ _ _ _ E2).
  pose proof (proj1 (i_ext _ _ I p)) as Hx.
  cbn [files set_heap] in Ef2, El2.
  destruct (drop_spec t2 _ p I2) as (last & t3 & E3 & I3 & Eb3 & Ef3 & _ & Hlast).
  { split; [apply (El2 p Hz Hp); rewrite bump_eq; lia|].
    rewrite Ef2, bump_eq, (refs_insert _ n 0 p p Hz).
    rewrite (decide_False (P := 0 = p)), (decide_True (P := p = p)) by done.
    destruct Hs; [left|right]; lia. }
  rewrite (ebind_ok _ _ _ _ _ E3). exists t3. split; [done|]. cbn [files set_heap] in *.
  split; [by apply inv_bump_back in I3|].
  split; [intros i Hi; by rewrite Eb3, Eb2|]. split; [congruence|].
  rewrite Ef2, (refs_insert _ n 0 p p Hz), bump_eq in Hlast.
  rewrite (decide_False (P := 0 = p)), (decide_True (P := p = p)) in Hlast by done.
  case_decide as Hd.
  - destruct Hlast as (_ & -> & _). split; [lia|done].
  - destruct Hlast as (_ & [f Hf] & _). rewrite Hf. split; [done|]. lia.
Qed.

(** Duplicating a descriptor. *)
Lemma dup_open t ext n p :
  inv t ext -> open_fd t n p -> (forall x, ext x < 2 ^ 30 - 4) ->
  exists r t', dup n t = Some (r, t') /\
  match r with
  | inr m => inv t' ext /\ lowest_free t m /\ marks t m t' /\
      files t' = <[Z.to_nat m := p]> (files t)
  | inl rc => rc = - ENFILE /\ all_used t /\ inv t' (bump ext p 1) /\
      files t' = files t /\ bitmap t' = bitmap t
  end.
Proof.
  intros I Ho Hb. destruct (open_fd_counted t ext n p I Ho) as [_ H1].
  destruct (get_open t ext n p I Ho ltac:(intros x; specialize (Hb x); lia)) as (h & E1 & I1).
  destruct (open_fd_counted _ _ n p I1 Ho) as [HL _].
  pose proof Ho as [Hz Hp]. unfold dup, fget.
  rewrite ebind_assoc, (ebind_ok _ _ _ _ _ E1). destruct (Z.eqb_spec p 0); [done|].
  rewrite (ebind_ok (eret p) _ (set_heap t h) p (set_heap t h)) by done.
  destruct (fdalloc_spec _ _ p I1 HL) as (r & t2 & E2 & H2).
  { intros x. specialize (Hb x). unfold bump. case_decide; lia. }
  unfold ebind at 1, on_error. rewrite E2. cbn [mbind option_bind]. destruct r as [rc|m].
  - destruct H2 as (-> & Hall & I2 & Ef & Eb).
    destruct (drop_spec t2 _ p I2) as (last & t3 & E3 & I3 & Eb3 & Ef3 & _).
    { split; [apply (open_fd_counted t2 _ n p I2); unfold open_fd; by rewrite Ef|].
      right. rewrite !bump_eq, Ef. cbn. lia. }
    rewrite E3. cbn [mbind option_bind]. exists (inl (- ENFILE)), t3.
    split; [done|]. split; [done|]. split; [done|]. split.
    { eapply inv_ext; [|exact I3]. intros x. unfold bump. repeat case_decide; lia. }
    split; [by rewrite Ef3|by rewrite Eb3].
  - destruct H2 as (I2 & Hlow & Hm & Ef).
    destruct (zget_is_Some (files t) m) as [q Hq];
      [destruct Hlow; rewrite (i_files _ _ I); lia|].
    assert (q = 0) as ->.
    { destruct (decide (q = 0)) as [|Hq0]; [done|]. destruct (i_used _ _ I m q Hq Hq0).
      destruct Hlow as (_ & Hlow & _). cbn in Hlow. congruence. }
    cbn in Ef. destruct (drop_spec t2 _ p I2) as (last & t3 & E3 & I3 & Eb3 & Ef3 & _).
    { split.
      - apply (open_fd_counted t2 _ m p I2). split; [|done]. rewrite Ef.
        pose proof (zget_Some_range _ _ _ Hq). unfold zget. case_test; [lia|].
        by rewrite list_lookup_insert_eq by lia.
      - right. rewrite bump_eq, Ef, (refs_insert _ m p 0 p Hq). repeat case_decide; done || lia. }
    cbn [mbind option_bind]. rewrite (ebind_ok _ _ _ _ _ E3). exists (inr m), t3. split; [done|].
    split; [by apply inv_bump_back in I3|].
    split; [done|]. split; [intros i Hi; by rewrite Eb3, Hm|]. by rewrite Ef3.
Qed.

(** The end of [dup3]: the descriptor is stored, but both references to the file are dropped. *)
Lemma dup3_tail t e m n p :
  inv t e -> open_fd t m p -> 1 < refs (files t) p + e p -> 0 <= n < 1024 ->
  bit (bitmap t) n = false -> (forall x, e x < 2 ^ 30 - 2) ->
  exists t', (vfscore_reserve_fd n ;!
    on_error (fdrop p) (vfscore_install_fd n p) ;! fdrop p ;! eret n) t = Some (inr n, t') /\
    inv t' (bump (bump e p (-1)) p (-1)) /\ marks t n t' /\
    files t' = <[Z.to_nat n := p]> (files t).
Proof.
  intros I Ho H1 Hn Hbit Hb. pose proof I as [W L F U C X].
  destruct (zget_is_Some (files t) n) as [q Hq]; [lia|].
  assert (q = 0) as ->.
  { destruct (decide (q = 0)) as [|Hq0]; [done|]. destruct (U n q Hq Hq0); congruence. }
  destruct (mark_spec t e n I Hn ltac:(by left)) as (bs & _ & Es & Is & Bs & _).
  assert (E1 : vfscore_reserve_fd n t = Some (inr tt, set_bitmap t bs)).
  { unfold vfscore_reserve_fd. destruct (single_bit_correct (bitmap t) n W ltac:(lia)) as [-> _].
    cbn [mbind option_bind]. by rewrite Hbit, Es. }
  rewrite (ebind_ok _ _ _ _ _ E1).
  destruct (install_spec (set_bitmap t bs) e n p Is Hn) as (t2 & E2 & I2 & Ef2 & Eb2).
  { cbn. by rewrite Bs, Z.eqb_refl by lia. }
  { by apply (open_fd_counted _ _ m p Is). }
  { done. }
  { intros q Hz Hq0. cbn in Hz. congruence. }
  destruct Ho as [Hm Hp]. cbn [files set_bitmap] in Ef2.
  assert (Ho2 : open_fd t2 n p).
  { split; [|done]. rewrite Ef2. unfold zget. case_test; [lia|]. by rewrite list_lookup_insert_eq by lia. }
  destruct (drop_spec t2 _ p I2) as (last & t3 & E3 & I3 & Eb3 & Ef3 & _).
  { split; [by apply (open_fd_counted _ _ n p I2)|]. right.
    rewrite Ef2, bump_eq, (refs_insert _ n p 0 p Hq). repeat case_decide; done || lia. }
  exists t3. split.
  { unfold ebind at 1, on_error. rewrite E2. cbn [mbind option_bind].
    by rewrite (ebind_ok _ _ _ _ _ E3). }
  split; [done|]. split; [intros i Hi; rewrite Eb3, Eb2; cbn; by apply Bs|]. by rewrite Ef3.
Qed.

(** [dup3] stores the file of [m] at [n]; a descriptor that was open there loses its file, whose
    reference from the test stays. *)
Lemma dup3_spec t ext m n p fl :
  inv t ext -> open_fd t m p -> 0 <= n < 1024 -> m <> n ->
  Z.land fl (lnotw 32 O_CLOEXEC) = 0 -> (forall x, ext x < 2 ^ 30 - 5) ->
  (bit (bitmap t) n = false -> exists t', dup3 m n fl t = Some (inr n, t') /\
     inv t' (bump ext p (-1)) /\ marks t n t' /\ files t' = <[Z.to_nat n := p]> (files t)) /\
  (forall q, open_fd t n q -> exists t', dup3 m n fl t = Some (inr n, t') /\
     inv t' (bump (bump ext q 1) p (-1)) /\ marks t n t' /\
     files t' = <[Z.to_nat n := p]> (files t)).
Proof.
  intros I Ho Hn Hne Hfl Hb. destruct (open_fd_counted t ext m p I Ho) as [_ H1].
  destruct (get_open t ext m p I Ho ltac:(intros x; specialize (Hb x); lia)) as (h & E1 & I1).
  pose proof Ho as [Hz Hp].
  assert (D : dup3 m n fl t =
    ((fun t => '(r, t) ← fget n t;
       match r with
       | inr _ => '(r, t) ← close n t;
                  match r with inr _ => Some (inr tt, t) | inl _ => Some (inl (-1), t) end
       | inl _ => Some (inr tt, t)
       end) ;!
     vfscore_reserve_fd n ;! on_error (fdrop p) (vfscore_install_fd n p) ;! fdrop p ;! eret n)
      (set_heap t h)).
  { unfold dup3. rewrite Hfl. destruct (Z.eqb_spec m n); [done|]. cbn [negb Z.eqb]. unfold fget at 1.
    rewrite ebind_assoc, (ebind_ok _ _ _ _ _ E1). by destruct (Z.eqb_spec p 0). }
  rewrite D. clear D. split.
  - intros Hbit. pose proof (get_file_spec _ _ n I1 Hn
      ltac:(intros x; specialize (Hb x); unfold bump; case_decide; lia)) as Hg.
    cbn [bitmap set_heap] in Hg. rewrite Hbit in Hg.
    destruct (dup3_tail (set_heap t h) _ m n p I1 Ho) as (t' & E & I' & Hm & Ef).
    { rewrite bump_eq. cbn. lia. } { done. } { done. }
    { intros x. specialize (Hb x). unfold bump. case_decide; lia. }
    exists t'. split.
    { unfold ebind at 1, fget. rewrite (ebind_ok _ _ _ _ _ Hg). cbn. exact E. }
    split; [|done]. eapply inv_ext; [|exact I']. intros x. unfold bump. repeat case_decide; lia.
  - intros q Hq. destruct (get_open _ _ n q I1 Hq
      ltac:(intros x; specialize (Hb x); unfold bump; case_decide; lia)) as (h2 & E2 & I2).
    destruct (open_fd_counted t ext n q I Hq) as [_ Hq1].
    destruct (close_open _ _ n q I2 Hq) as (t3 & E3 & I3 & Hu & Ef3 & _).
    { intros x. specialize (Hb x). unfold bump. repeat case_decide; lia. }
    { right. rewrite bump_eq. cbn [files set_heap]. unfold bump. case_decide; lia. }
    cbn [files set_heap] in Ef3.
    assert (Ho3 : open_fd t3 m p).
    { split; [|done]. rewrite Ef3. pose proof (zget_Some_range _ _ _ Hz). unfold zget in *.
      case_test; [lia|]. by rewrite list_lookup_insert_ne by lia. }
    destruct (dup3_tail t3 _ m n p I3 Ho3) as (t' & E & I' & Hm & Ef).
    { rewrite Ef3, (refs_insert _ n 0 q p (proj1 Hq)). unfold bump. repeat case_decide; subst; done || lia. }
    { done. } { rewrite Hu by lia. by rewrite Z.eqb_refl. }
    { intros x. specialize (Hb x). unfold bump. repeat case_decide; lia. }
    exists t'. split.
    { unfold ebind at 1, fget. rewrite (ebind_ok _ _ _ _ _ E2).
      destruct (Z.eqb_spec q 0); [by destruct Hq|]. cbn. rewrite E3. exact E. }
    split.
    { eapply inv_ext; [|exact I']. intros x. unfold bump. repeat case_decide; lia. }
    split; [|rewrite Ef, Ef3; apply list_insert_insert_eq].
    intros i Hi. rewrite Hm, Hu by done. cbn. by destruct (Z.eqb_spec i n).
Qed.

(** ** Sequences of operations *)

(** What the clients of the table do: a file system makes a new file with a reference for the
    caller; the file of a descriptor is asked for only when it is installed; a file is given to
    the table only while it is live.  A step that takes a reference away, by dropping it or by
    emptying or replacing a descriptor, needs the file to be covered ([may_drop], [spare]): its
    count is not short of its descriptors, or it is at least 2.  [fdalloc] and [dup] that find
    no descriptor keep a reference nobody will drop, and so does [dup3] for a file it replaces;
    the file that [dup3] stores is short of one reference more. *)
Definition covered (t : fdtable) (ext : Z -> Z) (n : Z) : Prop :=
  forall q, open_fd t n q -> spare t ext q.

Inductive step : fdtable * (Z -> Z) -> fdtable * (Z -> Z) -> Prop :=
| step_new t ext p n : heap t !! p = None -> p <> 0 ->
    step (t, ext) (set_heap t (<[p := File n 1]> (heap t)), bump ext p 1)
| step_alloc t ext r t' : vfscore_alloc_fd t = Some (r, t') -> step (t, ext) (t', ext)
| step_install t ext n p r t' : 0 <= n < 1024 -> bit (bitmap t) n = true ->
    is_Some (heap t !! p) -> covered t (bump ext p (-1)) n ->
    vfscore_install_fd n p t = Some (r, t') -> step (t, ext) (t', bump ext p (-1))
| step_fdalloc t ext p r t' : is_Some (heap t !! p) -> fdalloc p t = Some (r, t') ->
    step (t, ext) (t', match r with inr _ => ext | inl _ => bump ext p 1 end)
| step_get t ext n p r t' : open_fd t n p -> vfscore_get_file n t = Some (r, t') ->
    step (t, ext) (t', bump ext p 1)
| step_drop t ext p r t' : may_drop t ext p -> vfscore_put_file p t = Some (r, t') ->
    step (t, ext) (t', bump ext p (-1))
| step_put t ext n r t' : 0 <= n < 1024 -> covered t ext n ->
    vfscore_put_fd n t = Some (r, t') -> step (t, ext) (t', ext)
| step_close t ext n p r t' : open_fd t n p -> spare t ext p -> close n t = Some (r, t') ->
    step (t, ext) (t', ext)
| step_dup t ext n p r t' : open_fd t n p -> dup n t = Some (r, t') ->
    step (t, ext) (t', match r with inr _ => ext | inl _ => bump ext p 1 end)
| step_dup3 t ext m n p fl r t' : open_fd t m p -> 0 <= n < 1024 -> m <> n ->
    Z.land fl (lnotw 32 O_CLOEXEC) = 0 -> bit (bitmap t) n = false ->
    dup3 m n fl t = Some (r, t') -> step (t, ext) (t', bump ext p (-1))
| step_dup3_open t ext m n p q fl r t' : open_fd t m p -> open_fd t n q -> m <> n ->
    Z.land fl (lnotw 32 O_CLOEXEC) = 0 ->
    dup3 m n fl t = Some (r, t') -> step (t, ext) (t', bump (bump ext q 1) p (-1)).

(** No file has anywhere near [2^30] references. *)
Definition few (ext : Z -> Z) : Prop := forall x, ext x < 2 ^ 30 - 5.
Definition counted_step (s s' : fdtable * (Z -> Z)) : Prop := step s s' /\ few s.2 /\ few s'.2.

Lemma fd_step_inv s s' : counted_step s s' -> inv s.1 s.2 -> inv s'.1 s'.2.
Proof.
  intros (Hs & Hb & Hb') I. destruct Hs as [t ext p n Hp Hp0|t ext r t' H|t ext n p r t' Hn Hbit Hp Hs H
    |t ext p r t' Hp H|t ext n p r t' Ho H|t ext p r t' Hp H|t ext n r t' Hn Hs H
    |t ext n p r t' Ho Hs H|t ext n p r t' Ho H|t ext m n p fl r t' Ho Hn Hne Hfl Hbit H
    |t ext m n p q fl r t' Ho Hq Hne Hfl H]; cbn [fst snd] in *; unfold few in *.
  - pose proof I as [W L F U C X].
    assert (Hx : ext p = 0).
    { destruct (X p) as [_ X2]. destruct (decide (ext p = 0)) as [|Hne]; [done|].
      rewrite Hp in X2. by destruct (X2 Hne). }
    assert (Hr : refs (files t) p = 0).
    { apply refs_none. intros m Hm. destruct (U m p Hm Hp0) as [_ [f Hf]]. congruence. }
    split; cbn [bitmap files heap set_heap]; try done.
    + intros m q Hm Hq. destruct (U m q Hm Hq) as [U1 U2]. split; [done|].
      destruct (decide (q = p)) as [->|]; [by rewrite lookup_insert_eq|by rewrite lookup_insert_ne].
    + intros q f Hf. destruct (decide (q = p)) as [->|Hq].
      * rewrite lookup_insert_eq in Hf. injection Hf as <-. cbn. rewrite bump_eq. lia.
      * rewrite lookup_insert_ne in Hf by done. rewrite bump_ne by done. by apply C.
    + intros q. destruct (decide (q = p)) as [->|Hq].
      * rewrite bump_eq, lookup_insert_eq. split; [lia|done].
      * rewrite bump_ne, lookup_insert_ne by done. apply X.
  - destruct (alloc_spec t ext I) as (r1 & t1 & E & I1 & _). congruence.
  - destruct (install_spec t ext n p I Hn Hbit Hp) as (t1 & E & I1 & _);
      [intros x; specialize (Hb x); lia|intros q Hq Hq0; by apply Hs|congruence].
  - destruct (fdalloc_spec t ext p I Hp) as (r1 & t1 & E & H1); [intros x; specialize (Hb x); lia|].
    assert (r1 = r /\ t1 = t') as [-> ->] by (split; congruence). destruct r; tauto.
  - destruct (get_open t ext n p I Ho) as (h & E & I1); [intros x; specialize (Hb x); lia|].
    by assert (t' = set_heap t h) as -> by congruence.
  - destruct (drop_spec t ext p I Hp) as (l & t1 & E & I1 & _). unfold vfscore_put_file in H. congruence.
  - destruct (put_fd_spec t ext n I Hn) as (t1 & E & I1 & _);
      [intros x; specialize (Hb x); lia|intros q Hq Hq0; by apply Hs|congruence].
  - destruct (close_open t ext n p I Ho) as (t1 & E & I1 & _);
      [intros x; specialize (Hb x); lia|done|congruence].
  - destruct (dup_open t ext n p I Ho) as (r1 & t1 & E & H1); [intros x; specialize (Hb x); lia|].
    assert (r1 = r /\ t1 = t') as [-> ->] by (split; congruence). destruct r; tauto.
  - destruct (dup3_spec t ext m n p fl I Ho Hn Hne Hfl Hb) as [D _].
    destruct (D Hbit) as (t1 & E & I1 & _). congruence.
  - destruct (open_fd_used t ext n q I Hq) as [Hn _].
    destruct (dup3_spec t ext m n p fl I Ho Hn Hne Hfl Hb) as [_ D].
    destruct (D q Hq) as (t1 & E & I1 & _). congruence.
Qed.

Lemma zero_bit i : bit (bitmap fdtable_zero) i = false.
Proof.
  unfold bit, fdtable_zero. cbn [bitmap]. destruct (zget (replicate 16 0) (i / 64)) as [w|] eqn:E; [|done].
  assert (w = 0) as -> by (unfold zget in E; case_test; [done|]; by apply lookup_replicate in E as [-> _]).
  apply Z.bits_0.
Qed.

Lemma stdio_inv p : p <> 0 ->
  inv (set_heap fdtable_zero (<[p := stdio_file]> ∅)) (bump (fun _ => 0) p 2).
Proof.
  intros Hp0. assert (Hz : forall n q, zget (replicate 1024 0) n = Some q -> q = 0).
  { intros n q. unfold zget. case_test; [done|]. intros H. by apply lookup_replicate in H as [-> _]. }
  split; cbn [fdtable_zero set_heap bitmap files heap]; try done.
  - apply Forall_replicate. by compute.
  - intros n q Hn Hq. by apply Hz in Hn.
  - intros q f Hf. rewrite lookup_insert_Some in Hf. destruct Hf as [[<- <-]|[_ Hf]]; [|done].
    rewrite bump_eq, (refs_none _ p) by (by intros n Hn%Hz). cbn. lia.
  - intros q. destruct (decide (q = p)) as [->|Hq].
    + rewrite bump_eq, lookup_insert_eq. split; [lia|done].
    + rewrite bump_ne by done. split; [lia|done].
Qed.

(** The boot: descriptors 0, 1 and 2 refer to [stdio_file], whose count is one short. *)
Lemma fd_init_inv p : p <> 0 ->
  exists t, fdtable_init p = Some t /\ inv t (bump (fun _ => 0) p (-1)) /\
    open_fd t 0 p /\ open_fd t 1 p /\ open_fd t 2 p /\
    forall i, 0 <= i -> bit (bitmap t) i = (i <? 3).
Proof.
  intros Hp0. unfold fdtable_init, init_stdio. change (heap fdtable_zero) with (∅ : gmap Z vfscore_file).
  pose proof (stdio_inv p Hp0) as I0.
  destruct (alloc_spec _ _ I0) as (r & t1 & -> & I1 & Ef1 & Eh1 & _ & Hr). cbn [mbind option_bind].
  destruct r as [rc|n].
  { destruct Hr as (_ & _ & Hr). specialize (Hr 0 ltac:(lia)). cbn in Hr. by rewrite zero_bit in Hr. }
  destruct Hr as (Hn & _ & Hlow & Hm1). assert (n = 0) as ->.
  { destruct (decide (n = 0)) as [|H]; [done|]. specialize (Hlow 0 ltac:(lia)). cbn in Hlow.
    by rewrite zero_bit in Hlow. }
  rewrite bool_decide_eq_true_2 by done. cbn [negb].
  destruct (install_spec t1 _ 0 p I1 Hn) as (t2 & -> & I2 & Ef2 & Eb2).
  { by rewrite Hm1 by lia. }
  { rewrite Eh1. cbn. by rewrite lookup_insert_eq. }
  { intros x. unfold bump. case_decide; lia. }
  { intros q Hq Hq0. rewrite Ef1 in Hq. change (Some 0 = Some q) in Hq. congruence. }
  cbn [mbind option_bind]. rewrite Ef1 in Ef2.
  assert (Hb2 : forall i, 0 <= i -> bit (bitmap t2) i = (i =? 0)).
  { intros i Hi. rewrite Eb2, Hm1 by done. cbn. rewrite zero_bit. apply orb_false_r. }
  assert (O2 : open_fd t2 0 p) by (split; [by rewrite Ef2|done]).
  destruct (dup3_spec t2 _ 0 1 p 0 I2 O2 ltac:(lia) ltac:(lia) eq_refl) as [D _].
  { intros x. unfold bump. repeat case_decide; lia. }
  destruct (D ltac:(by rewrite Hb2)) as (t3 & E3 & I3 & Hm3 & Ef3).
  change (dup2 0 1 t2) with (dup3 0 1 0 t2). rewrite E3. cbn [mbind option_bind].
  assert (O3 : open_fd t3 0 p) by (split; [by rewrite Ef3, Ef2|done]).
  destruct (dup3_spec t3 _ 0 2 p 0 I3 O3 ltac:(lia) ltac:(lia) eq_refl) as [D3 _].
  { intros x. unfold bump. repeat case_decide; lia. }
  destruct (D3 ltac:(by rewrite Hm3, Hb2)) as (t4 & E4 & I4 & Hm4 & Ef4).
  change (dup2 0 2 t3) with (dup3 0 2 0 t3). rewrite E4. cbn [mbind option_bind].
  exists t4. split; [done|]. split.
  { eapply inv_ext; [|exact I4]. intros x. unfold bump. repeat case_decide; lia. }
  unfold open_fd. rewrite Ef4, Ef3, Ef2. do 3 (split; [done|]).
  intros i Hi. rewrite Hm4, Hm3, Hb2 by done.
  destruct (Z.eqb_spec i 2), (Z.eqb_spec i 1), (Z.eqb_spec i 0), (Z.ltb_spec i 3); done || lia.
Qed.

(** The states after the boot with [stdio_file] at [p0], with the balance of references. *)
Definition reachable (t : fdtable) (ext : Z -> Z) : Prop :=
  exists p0 t0, p0 <> 0 /\ fdtable_init p0 = Some t0 /\
    rtc counted_step (t0, bump (fun _ => 0) p0 (-1)) (t, ext) /\ few ext.

Lemma fd_reachable_inv t ext : reachable t ext -> inv t ext /\ few ext.
Proof.
  intros (p0 & t0 & Hp0 & H0 & H & Hf). split; [|done].
  destruct (fd_init_inv p0 Hp0) as (t1 & E & I & _). assert (t1 = t0) as -> by congruence.
  change t with (t, ext).1. change ext with (t, ext).2 at 2.
  change (inv (t0, bump (fun _ => 0) p0 (-1)).1 (t0, bump (fun _ => 0) p0 (-1)).2) in I.
  clear -H I. induction H as [|s1 s2 s3 Hs _ IH]; [done|]. apply IH. by eapply fd_step_inv.
Qed.

(** C23: in every state the clients can reach from the boot with its three standard descriptors,
    by new files, descriptors allocated, installed, duplicated ([dup], [dup2], [dup3]) and
    closed and references taken and dropped, every open descriptor is marked in the bitmap and
    refers to a live file, whose reference count is the number of descriptors plus the balance
    [ext]: the references held elsewhere less the ones that [dup3] owes, one for each descriptor
    it made (one for [stdio_file] at the boot, [init_stdio_count]).  As long as the file is not
    short of references or its count is at least 2, closing a descriptor closes that one only,
    and frees the file exactly when it was the last reference; otherwise, which the steps leave
    out, the count is 1 for two descriptors or more, and the first [close] frees the file
    ([dup3_loses_reference]). *)
Theorem fdtable_safe t ext n p :
  reachable t ext -> open_fd t n p ->
  bit (bitmap t) n = true /\
  (exists f, heap t !! p = Some f /\ f_count f = refs (files t) p + ext p /\ 1 <= f_count f) /\
  (spare t ext p ->
   exists t', close n t = Some (inr tt, t') /\ unmarks t n t' /\
    (forall m q, open_fd t' m q <-> m <> n /\ open_fd t m q) /\
    (heap t' !! p = None <-> refs (files t) p = 1 /\ ext p = 0)) /\
  (~ spare t ext p -> refs (files t) p + ext p = 1 /\ 1 < refs (files t) p).
Proof.
  intros [I Hb]%fd_reachable_inv Ho.
  destruct (open_fd_used t ext n p I Ho) as [Hn Hbit]. split; [done|].
  destruct (open_fd_counted t ext n p I Ho) as [[f Hf] H1]. split.
  { exists f. split; [done|]. destruct (i_count _ _ I p f Hf). lia. }
  split; [|unfold spare; lia]. intros Hs.
  destruct (close_open t ext n p I Ho ltac:(intros x; specialize (Hb x); lia) Hs)
    as (t' & E & I' & Hu & Ef & Hl).
  exists t'. split; [done|]. split; [done|]. split; [|done]. intros m q. unfold open_fd.
  rewrite Ef. pose proof (i_files _ _ I) as Hlen. unfold zget.
  destruct (Z.ltb_spec m 0); [naive_solver|]. destruct (decide (m = n)) as [->|Hne].
  - rewrite list_lookup_insert_eq by lia. naive_solver.
  - rewrite list_lookup_insert_ne by lia. tauto.
Qed.

(** [dup] gives the lowest free descriptor, which refers to the same file, and leaves the
    others alone; it fails only when all descriptors are in use.  A descriptor that is not in
    use is reported as [EBADF]. *)
Theorem fd_dup_correct t ext n :
  reachable t ext -> 0 <= n < 1024 ->
  (forall p, open_fd t n p -> exists r t', dup n t = Some (r, t') /\
    match r with
    | inr m => lowest_free t m /\ marks t m t' /\
        (forall i q, open_fd t' i q <-> i = m /\ q = p \/ i <> m /\ open_fd t i q)
    | inl rc => rc = - ENFILE /\ all_used t
    end) /\
  (bit (bitmap t) n = false -> dup n t = Some (inl EBADF, t) /\ close n t = Some (inl EBADF, t)).
Proof.
  intros [I Hb]%fd_reachable_inv Hn. split.
  - intros p Ho. destruct (dup_open t ext n p I Ho ltac:(intros x; specialize (Hb x); lia)) as (r & t' & E & H).
    exists r, t'. split; [done|]. destruct r as [rc|m]; [tauto|]. destruct H as (I' & Hlow & Hm & Ef).
    split; [done|]. split; [done|]. intros i q. unfold open_fd. rewrite Ef.
    pose proof (i_files _ _ I) as Hlen. destruct Hlow as [Hmr _]. destruct Ho as [_ Hp]. unfold zget.
    destruct (Z.ltb_spec i 0); [split; [naive_solver|]; intros [[-> _]|[_ [? _]]]; done || lia|]. destruct (decide (i = m)) as [->|Hne].
    + rewrite list_lookup_insert_eq by lia. naive_solver.
    + rewrite list_lookup_insert_ne by lia. tauto.
  - intros Hbit. pose proof (get_file_spec t ext n I Hn ltac:(intros x; specialize (Hb x); lia)) as H.
    rewrite Hbit in H. unfold dup, fget, close, fdclose.
    rewrite ebind_assoc, !(ebind_ok _ _ _ _ _ H). done.
Qed.

(** A table with a file at descriptor 3, behind the standard ones. *)
Definition boot_table : fdtable := default fdtable_zero (fdtable_init 2048).
Definition table0 : fdtable := set_heap boot_table (<[4096 := File (-1) 1]> (heap boot_table)).
Definition table1 : fdtable := match fdalloc 4096 table0 with Some (_, t) => t | None => table0 end.
Definition table2 : fdtable :=
  match vfscore_put_file 4096 table1 with Some (_, t) => t | None => table1 end.

Definition ext2 : Z -> Z := bump (bump (bump (fun _ => 0) 2048 (-1)) 4096 1) 4096 (-1).

(** A file that a file system opens after the boot. *)
Lemma opened_reachable p0 t0 p n r t1 t2 :
  p0 <> 0 -> fdtable_init p0 = Some t0 -> heap t0 !! p = None -> p <> 0 -> p <> p0 ->
  fdalloc p (set_heap t0 (<[p := File (-1) 1]> (heap t0))) = Some (inr n, t1) ->
  is_Some (heap t1 !! p) -> vfscore_put_file p t1 = Some (r, t2) ->
  reachable t2 (bump (bump (bump (fun _ => 0) p0 (-1)) p 1) p (-1)).
Proof.
  intros H0 Hi Hn Hp Hne H1 HL H2.
  assert (F : forall k, k <= 1 -> few (bump (bump (fun _ => 0) p0 (-1)) p k))
    by (intros k Hk x; unfold bump; repeat case_decide; lia).
  assert (F0 : few (bump (fun _ => 0) p0 (-1))) by (intros x; unfold bump; repeat case_decide; lia).
  assert (F2 : few (bump (bump (bump (fun _ => 0) p0 (-1)) p 1) p (-1)))
    by (intros x; unfold bump; repeat case_decide; lia).
  exists p0, t0. split; [done|]. split; [done|]. split; [|done].
  eapply rtc_l; [split; [exact (step_new _ _ p (-1) Hn Hp)|by split; [|apply F]]|].
  eapply rtc_l; [split; [eapply (step_fdalloc _ _ p); [|exact H1]|split; by apply F]|].
  { cbn. rewrite lookup_insert_eq. done. }
  apply rtc_once. split; [|by split; [apply F|]]. eapply step_drop; [|exact H2].
  split; [done|]. left. rewrite bump_eq, bump_ne by done. lia.
Qed.

Lemma table2_reachable : reachable table2 ext2.
Proof.
  apply (opened_reachable 2048 boot_table 4096 3 (inr 0) table1 table2);
    [lia|vm_compute; reflexivity|vm_compute; reflexivity|lia|lia|vm_compute; reflexivity| |vm_compute; reflexivity].
  vm_compute. eexists. reflexivity.
Qed.

Lemma fdtable_safe_witness :
  bit (bitmap table2) 3 = true /\
  (exists f, heap table2 !! 4096 = Some f /\ f_count f = refs (files table2) 4096 + ext2 4096) /\
  exists t', close 3 table2 = Some (inr tt, t') /\ unmarks table2 3 t' /\
    (forall m q, open_fd t' m q <-> m <> 3 /\ open_fd table2 m q) /\
    (heap t' !! 4096 = None <-> refs (files table2) 4096 = 1 /\ ext2 4096 = 0).
Proof.
  destruct (fdtable_safe table2 ext2 3 4096 table2_reachable) as (H1 & (f & H2 & H3 & _) & H4 & _).
  - split; [vm_compute; reflexivity|lia].
  - exact (conj H1 (conj (ex_intro _ f (conj H2 H3)) (H4 (or_introl (Z.le_refl 0))))).
Defined.

Lemma fd_dup_correct_witness : exists r t', dup 3 table2 = Some (r, t') /\
    match r with
    | inr m => lowest_free table2 m /\ marks table2 m t' /\
        (forall i q, open_fd t' i q <-> i = m /\ q = 4096 \/ i <> m /\ open_fd table2 i q)
    | inl rc => rc = - ENFILE /\ all_used table2
    end.
Proof.
  apply (proj1 (fd_dup_correct table2 ext2 3 table2_reachable ltac:(lia))).
  split; [vm_compute; reflexivity|done].
Defined.

(** [dup3] leaves two descriptors with one reference between them: closing either frees the file
    under the other. *)
Theorem dup3_loses_reference :
  match dup3 3 5 0 table2 with
  | Some (r, t) => r = inr 5 /\ zget (files t) 3 = Some 4096 /\ zget (files t) 5 = Some 4096 /\
      option_map f_count (heap t !! 4096) = Some 1 /\
      match close 5 t with
      | Some (r, t) => r = inr tt /\ zget (files t) 3 = Some 4096 /\ closed t = [4096] /\
                       close 3 t = None
      | None => False
      end
  | None => False
  end.
Proof. vm_compute. repeat split. Qed.

(** The three standard descriptors share a file with the count 2. *)
Theorem init_stdio_count :
  match fdtable_init 4096 with
  | Some t => refs (files t) 4096 = 3 /\ option_map f_count (heap t !! 4096) = Some 2
  | None => False
  end.
Proof. vm_compute. by split. Qed.

(** A descriptor that was allocated but has no file yet, and a negative descriptor. *)
Theorem get_file_unchecked :
  (let! n := vfscore_alloc_fd in vfscore_get_file n) table2 = None /\ fget (-1) table2 = None.
Proof. vm_compute. by split. Qed.

End FdTable.
