(* ===== verification/Sched.v ===== *)
(** * Sched: threads, wait queues and the cooperative scheduler

    Models [lib/ukschedcoop/schedcoop.c], the parts of [lib/uksched/sched.c] and
    [lib/uksched/thread.c] that it works with, and the wait queues of
    [lib/uksched/include/uk/wait.h].  A thread is linked into a list of the scheduler through one
    field, so inserting a thread that is in a list, or removing one from a list it is not in,
    corrupts the lists: both are [None].  The context switch itself is assembly; the model keeps
    the thread whose stack is in use as [current].  The clock and the interrupts are an input: a
    pass of the scheduler's loop reads the time and, when it halts, handles interrupts that may
    wake threads. *)
From Stdlib Require Import ZArith Lia Bool.
From stdpp Require Import gmap relations.
From S2P Require Import Prelude.
Open Scope Z_scope.

Module Sched.

Definition EINVAL : Z := 22.
Definition RUNNABLE_FLAG : Z := 1.
Definition EXITED_FLAG : Z := 2.
Definition QUEUEABLE_FLAG : Z := 4.

(** [fresh] says that the thread was never switched to: it will start at its function, not inside
    [schedcoop_schedule].  [waiting_threads] holds the threads that wait for its exit. *)
Record uk_thread := Thread {
  flags : Z; wakeup_time : Z; detached : bool; waiting_threads : list Z; fresh : bool
}.

Definition has_flag (t : uk_thread) (f : Z) : bool := negb (Z.land (flags t) f =? 0).
Definition is_runnable (t : uk_thread) : bool := has_flag t RUNNABLE_FLAG.
Definition is_exited (t : uk_thread) : bool := has_flag t EXITED_FLAG.
Definition is_queueable (t : uk_thread) : bool := has_flag t QUEUEABLE_FLAG.

Definition set_flags (t : uk_thread) (f : Z) : uk_thread :=
  Thread f (wakeup_time t) (detached t) (waiting_threads t) (fresh t).
Definition set_flag (f : Z) (t : uk_thread) : uk_thread := set_flags t (Z.lor (flags t) f).
Definition clear_flag (f : Z) (t : uk_thread) : uk_thread :=
  set_flags t (Z.land (flags t) (lnotw 32 f)).
Definition set_runnable : uk_thread -> uk_thread := set_flag RUNNABLE_FLAG.
Definition clear_runnable : uk_thread -> uk_thread := clear_flag RUNNABLE_FLAG.
Definition set_exited : uk_thread -> uk_thread := set_flag EXITED_FLAG.
Definition set_queueable : uk_thread -> uk_thread := set_flag QUEUEABLE_FLAG.
Definition clear_queueable : uk_thread -> uk_thread := clear_flag QUEUEABLE_FLAG.
Definition set_wakeup (w : Z) (t : uk_thread) : uk_thread :=
  Thread (flags t) w (detached t) (waiting_threads t) (fresh t).
Definition set_detached (t : uk_thread) : uk_thread :=
  Thread (flags t) (wakeup_time t) true (waiting_threads t) (fresh t).
Definition set_waiting (q : list Z) (t : uk_thread) : uk_thread :=
  Thread (flags t) (wakeup_time t) (detached t) q (fresh t).
Definition set_started (t : uk_thread) : uk_thread :=
  Thread (flags t) (wakeup_time t) (detached t) (waiting_threads t) false.

(** The scheduler with its private lists; [wqs] are the wait queues of the system, by name. *)
Record uk_sched := Sched {
  threads : gmap Z uk_thread; current : Z;
  thread_list : list Z; sleeping_threads : list Z; exited_threads : list Z;
  wqs : gmap Z (list Z)
}.

Definition update (s : uk_sched) (t : Z) (f : uk_thread -> uk_thread) : option uk_sched :=
  th ← threads s !! t;
  Some (Sched (<[t := f th]> (threads s)) (current s) (thread_list s) (sleeping_threads s)
          (exited_threads s) (wqs s)).
Definition set_lists (s : uk_sched) (r sl e : list Z) : uk_sched :=
  Sched (threads s) (current s) r sl e (wqs s).
Definition set_wqs (s : uk_sched) (w : gmap Z (list Z)) : uk_sched :=
  Sched (threads s) (current s) (thread_list s) (sleeping_threads s) (exited_threads s) w.
Definition set_current (s : uk_sched) (t : Z) : uk_sched :=
  Sched (threads s) t (thread_list s) (sleeping_threads s) (exited_threads s) (wqs s).

(** The lists of [include/uk/list.h]. *)
Definition linked (s : uk_sched) (t : Z) : bool :=
  bool_decide (t ∈ thread_list s ++ sleeping_threads s ++ exited_threads s).
Definition tailq_remove (t : Z) (l : list Z) : option (list Z) :=
  if bool_decide (t ∈ l) then Some (filter (fun x => x <> t) l) else None.
Definition run_insert_tail (s : uk_sched) (t : Z) : option uk_sched :=
  if linked s t then None
  else Some (set_lists s (thread_list s ++ [t]) (sleeping_threads s) (exited_threads s)).
Definition run_remove (s : uk_sched) (t : Z) : option uk_sched :=
  l ← tailq_remove t (thread_list s);
  Some (set_lists s l (sleeping_threads s) (exited_threads s)).
Definition sleep_insert_tail (s : uk_sched) (t : Z) : option uk_sched :=
  if linked s t then None
  else Some (set_lists s (thread_list s) (sleeping_threads s ++ [t]) (exited_threads s)).
Definition sleep_remove (s : uk_sched) (t : Z) : option uk_sched :=
  l ← tailq_remove t (sleeping_threads s);
  Some (set_lists s (thread_list s) l (exited_threads s)).
Definition exited_insert_head (s : uk_sched) (t : Z) : option uk_sched :=
  if linked s t then None
  else Some (set_lists s (thread_list s) (sleeping_threads s) (t :: exited_threads s)).
Definition exited_remove (s : uk_sched) (t : Z) : option uk_sched :=
  l ← tailq_remove t (exited_threads s);
  Some (set_lists s (thread_list s) (sleeping_threads s) l).

(** ** Blocking and waking *)

Definition schedcoop_thread_blocked (s : uk_sched) (t : Z) : option uk_sched :=
  s ← (if negb (t =? current s) then run_remove s t else Some s);
  th ← threads s !! t;
  if 0 <? wakeup_time th then sleep_insert_tail s t else Some s.

Definition schedcoop_thread_woken (s : uk_sched) (t : Z) : option uk_sched :=
  th ← threads s !! t;
  s ← (if 0 <? wakeup_time th then sleep_remove s t else Some s);
  if negb (t =? current s) || is_queueable th then
    s ← run_insert_tail s t; update s t clear_queueable
  else Some s.

Definition uk_thread_block_until (s : uk_sched) (t until : Z) : option uk_sched :=
  s ← update s t (set_wakeup until);
  s ← update s t clear_runnable;
  schedcoop_thread_blocked s t.

Definition uk_thread_block_timeout (s : uk_sched) (t now nsec : Z) : option uk_sched :=
  uk_thread_block_until s t (sext 64 (now + nsec)).
Definition uk_thread_block (s : uk_sched) (t : Z) : option uk_sched := uk_thread_block_until s t 0.

Definition uk_thread_wake (s : uk_sched) (t : Z) : option uk_sched :=
  th ← threads s !! t;
  if negb (is_runnable th) then
    s ← schedcoop_thread_woken s t;
    s ← update s t (set_wakeup 0);
    update s t set_runnable
  else Some s.

Fixpoint wake_all (s : uk_sched) (l : list Z) : option uk_sched :=
  match l with [] => Some s | t :: l' => s ← uk_thread_wake s t; wake_all s l' end.

(** ** Choosing the next thread *)

(** One pass over the sleeping threads: the expired ones are woken; the earliest of the others,
    or [min], is the time to halt until. *)
Fixpoint wake_expired (s : uk_sched) (now min : Z) (l : list Z) : option (uk_sched * Z) :=
  match l with
  | [] => Some (s, min)
  | t :: l' =>
      th ← threads s !! t;
      if negb (wakeup_time th =? 0) && (wakeup_time th <=? now) then
        s ← uk_thread_wake s t; wake_expired s now min l'
      else if wakeup_time th <? min then wake_expired s now (wakeup_time th) l'
      else wake_expired s now min l'
  end.

(** [irq] are the threads that interrupts wake while the scheduler halts, or, in the last pass,
    before the switch. *)
Record event := Event { now : Z; irq : list Z }.

(** The loop, with the times it halts until. *)
Fixpoint schedule_loop (s : uk_sched) (events : list event) : option (uk_sched * Z * list Z) :=
  match events with
  | [] => None
  | e :: events' =>
      let prev := current s in
      let min_wakeup_time := now e + 10000000000 in
      '(s, min_wakeup_time) ← wake_expired s (now e) min_wakeup_time (sleeping_threads s);
      pth ← threads s !! prev;
      match thread_list s with
      | next :: _ =>
          nth ← threads s !! next;
          if (next =? prev) || negb (is_runnable nth) || is_exited nth then None
          else
            s ← run_remove s next;
            s ← (if is_runnable pth then run_insert_tail s prev else update s prev set_queueable);
            s ← update s next clear_queueable;
            s ← wake_all s (irq e);
            Some (s, next, [])
      | [] =>
          if is_runnable pth then s ← wake_all s (irq e); Some (s, prev, [])
          else
            s ← wake_all s (irq e);
            '(s, next, halts) ← schedule_loop s events';
            Some (s, next, min_wakeup_time :: halts)
      end
  end.

Definition uk_sched_thread_destroy (s : uk_sched) (t : Z) : option uk_sched :=
  th ← threads s !! t;
  if negb (is_exited th) then None
  else
    s ← exited_remove s t;
    Some (Sched (delete t (threads s)) (current s) (thread_list s) (sleeping_threads s)
            (exited_threads s) (wqs s)).

(** Detached threads that have exited are freed by the thread that runs next. *)
Fixpoint reap (s : uk_sched) (prev : Z) (l : list Z) : option uk_sched :=
  match l with
  | [] => Some s
  | t :: l' =>
      th ← threads s !! t;
      if negb (detached th) then reap s prev l'
      else s ← (if negb (t =? prev) then uk_sched_thread_destroy s t else Some s); reap s prev l'
  end.

(** After the switch the code goes on in [next], whose own [prev] is [next]; a fresh thread starts
    at its function instead. *)
Definition schedcoop_schedule (s : uk_sched) (events : list event) : option (uk_sched * list Z) :=
  '(s, next, halts) ← schedule_loop s events;
  nth ← threads s !! next;
  let s := set_current s next in
  s ← update s next set_started;
  s ← (if fresh nth then Some s else reap s next (exited_threads s));
  Some (s, halts).

(** ** Threads *)

Definition uk_thread_init : uk_thread := Thread 0 0 false [] true.

Definition schedcoop_thread_add (s : uk_sched) (t : Z) : option uk_sched :=
  s ← update s t set_runnable; run_insert_tail s t.

(** [t] is the address that was allocated for the thread. *)
Definition uk_sched_thread_create (s : uk_sched) (t : Z) (det : option bool) : option uk_sched :=
  let th := match det with Some d => if d then set_detached uk_thread_init else uk_thread_init
                         | None => uk_thread_init end in
  schedcoop_thread_add (Sched (<[t := th]> (threads s)) (current s) (thread_list s)
    (sleeping_threads s) (exited_threads s) (wqs s)) t.

Definition uk_thread_exit (s : uk_sched) (t : Z) : option uk_sched :=
  s ← update s t set_exited;
  th ← threads s !! t;
  if negb (detached th) then wake_all s (waiting_threads th) else Some s.

(** Without the call of the scheduler at its end when the current thread exits. *)
Definition schedcoop_thread_remove (s : uk_sched) (t : Z) : option uk_sched :=
  s ← (if negb (t =? current s) then run_remove s t else Some s);
  s ← update s t clear_runnable;
  s ← uk_thread_exit s t;
  exited_insert_head s t.

Definition uk_thread_detach (s : uk_sched) (t : Z) : option uk_sched := update s t set_detached.

(** ** Wait queues

    An entry is in its queue exactly when its [waiting] flag is set; a thread has one entry per
    wait. *)

Definition uk_waitq_add (q : list Z) (t : Z) : list Z := if bool_decide (t ∈ q) then q else q ++ [t].
Definition uk_waitq_remove (q : list Z) (t : Z) : list Z := filter (fun x => x <> t) q.
Definition uk_waitq_empty (q : list Z) : bool := match q with [] => true | _ => false end.

Definition uk_waitq_wake_up (s : uk_sched) (w : Z) : option uk_sched :=
  q ← wqs s !! w; wake_all s q.

(** One round of the loop of [__wq_wait_event_deadline] up to the test of the condition. *)
Definition wait_event_block (s : uk_sched) (w deadline : Z) : option uk_sched :=
  q ← wqs s !! w;
  let t := current s in
  let s := set_wqs s (<[w := uk_waitq_add q t]> (wqs s)) in
  uk_thread_block_until s t deadline.

(** The end of it, when the condition holds. *)
Definition wait_event_done (s : uk_sched) (w : Z) : option uk_sched :=
  let t := current s in
  s ← uk_thread_wake s t;
  q ← wqs s !! w;
  Some (set_wqs s (<[w := uk_waitq_remove q t]> (wqs s))).

(** The same for the wait queue of thread [t], and the end of [uk_thread_wait]. *)
Definition thread_wait_block (s : uk_sched) (t : Z) : option uk_sched :=
  th ← threads s !! t;
  let c := current s in
  s ← update s t (set_waiting (uk_waitq_add (waiting_threads th) c));
  uk_thread_block_until s c 0.
Definition thread_wait_done (s : uk_sched) (t : Z) : option uk_sched :=
  let c := current s in
  s ← uk_thread_wake s c;
  th ← threads s !! t;
  s ← update s t (set_waiting (uk_waitq_remove (waiting_threads th) c));
  s ← update s t set_detached;
  uk_sched_thread_destroy s t.

(** [uk_sched_thread_sleep] up to the call of the scheduler. *)
Definition uk_sched_thread_sleep (s : uk_sched) (now nsec : Z) : option uk_sched :=
  uk_thread_block_timeout s (current s) now nsec.

(** ** The registered schedulers *)

(** [uk_sched_head] and the [next] pointers; [NULL] is 0. *)
Record registry := Registry { uk_sched_head : Z; next : gmap Z Z }.

(** [while (this && this->next) this = this->next;] *)
Fixpoint last_sched (fuel : nat) (r : registry) (this : Z) : option Z :=
  n ← next r !! this;
  if n =? 0 then Some this
  else match fuel with O => None | S fuel' => last_sched fuel' r n end.

Definition uk_sched_register (fuel : nat) (r : registry) (s : Z) : option registry :=
  if uk_sched_head r =? 0 then Some (Registry s (<[s := 0]> (next r)))
  else
    this ← last_sched fuel r (uk_sched_head r);
    Some (Registry (uk_sched_head r) (<[s := 0]> (<[this := s]> (next r)))).

Definition uk_sched_get_default (r : registry) : Z := uk_sched_head r.

(** The loop returns [Some] of the new registry when [s] is found. *)
Fixpoint set_default_loop (fuel : nat) (r : registry) (s head this : Z)
    : option (option registry) :=
  n ← next r !! this;
  if n =? 0 then Some None
  else match fuel with
  | O => None
  | S fuel' =>
      let prev := this in
      let this := n in
      if s =? this then
        tn ← next r !! this;
        let nx := <[prev := tn]> (next r) in
        hn ← nx !! head;
        Some (Some (Registry (uk_sched_head r) (<[this := hn]> nx)))
      else set_default_loop fuel' r s head this
  end.

Definition uk_sched_set_default (fuel : nat) (r : registry) (s : Z) : option registry :=
  let head := uk_sched_get_default r in
  if s =? head then Some r
  else if head =? 0 then Some (Registry s (next r))
  else
    found ← set_default_loop fuel r s head head;
    match found with
    | Some r' => Some r'
    | None => Some (Registry s (<[s := head]> (next r)))
    end.

(** ** Flags *)

Lemma has_flag_bit t k : 0 <= k -> has_flag t (2 ^ k) = Z.testbit (flags t) k.
Proof.
  intros Hk. unfold has_flag. destruct (Z.testbit (flags t) k) eqn:E.
  - apply negb_true_iff, Z.eqb_neq. intros H.
    assert (Z.testbit (Z.land (flags t) (2 ^ k)) k = false) as H1 by (by rewrite H, Z.bits_0).
    by rewrite Z.land_spec, E, Z.pow2_bits_true in H1.
  - apply negb_false_iff, Z.eqb_eq, Z.bits_inj'. intros i Hi. rewrite Z.land_spec, Z.bits_0.
    destruct (decide (i = k)) as [->|]; [by rewrite E|]. rewrite Z.pow2_bits_false by lia.
    apply andb_false_r.
Qed.

Lemma set_flag_bit t j k : 0 <= j -> 0 <= k ->
  has_flag (set_flag (2 ^ j) t) (2 ^ k) = (k =? j) || has_flag t (2 ^ k).
Proof.
  intros Hj Hk. rewrite !has_flag_bit by done. cbn [set_flag flags set_flags].
  rewrite Z.lor_spec. destruct (Z.eqb_spec k j) as [->|]; cbn [orb].
  - rewrite Z.pow2_bits_true by done. apply orb_true_r.
  - rewrite Z.pow2_bits_false by lia. apply orb_false_r.
Qed.

Lemma clear_flag_bit t j k : 0 <= j -> 0 <= k < 32 ->
  has_flag (clear_flag (2 ^ j) t) (2 ^ k) = negb (k =? j) && has_flag t (2 ^ k).
Proof.
  intros Hj Hk. rewrite !has_flag_bit by lia. cbn [clear_flag flags set_flags].
  rewrite Z.land_spec. unfold lnotw. rewrite wrap_testbit, Z.lnot_spec by lia.
  destruct (Z.ltb_spec k 32); [|lia]. cbn [andb]. rewrite andb_comm.
  destruct (Z.eqb_spec k j) as [->|]; cbn [negb].
  - by rewrite Z.pow2_bits_true.
  - by rewrite Z.pow2_bits_false by lia.
Qed.

Section Flags.
Context (t : uk_thread).
Lemma runnable_set_runnable : is_runnable (set_runnable t) = true.
Proof. apply (set_flag_bit t 0 0); lia. Qed.
Lemma exited_set_runnable : is_exited (set_runnable t) = is_exited t.
Proof. apply (set_flag_bit t 0 1); lia. Qed.
Lemma queueable_set_runnable : is_queueable (set_runnable t) = is_queueable t.
Proof. apply (set_flag_bit t 0 2); lia. Qed.
Lemma runnable_clear_runnable : is_runnable (clear_runnable t) = false.
Proof. apply (clear_flag_bit t 0 0); lia. Qed.
Lemma exited_clear_runnable : is_exited (clear_runnable t) = is_exited t.
Proof. apply (clear_flag_bit t 0 1); lia. Qed.
Lemma queueable_clear_runnable : is_queueable (clear_runnable t) = is_queueable t.
Proof. apply (clear_flag_bit t 0 2); lia. Qed.
Lemma runnable_set_exited : is_runnable (set_exited t) = is_runnable t.
Proof. apply (set_flag_bit t 1 0); lia. Qed.
Lemma exited_set_exited : is_exited (set_exited t) = true.
Proof. apply (set_flag_bit t 1 1); lia. Qed.
Lemma queueable_set_exited : is_queueable (set_exited t) = is_queueable t.
Proof. apply (set_flag_bit t 1 2); lia. Qed.
Lemma runnable_set_queueable : is_runnable (set_queueable t) = is_runnable t.
Proof. apply (set_flag_bit t 2 0); lia. Qed.
Lemma exited_set_queueable : is_exited (set_queueable t) = is_exited t.
Proof. apply (set_flag_bit t 2 1); lia. Qed.
Lemma queueable_set_queueable : is_queueable (set_queueable t) = true.
Proof. apply (set_flag_bit t 2 2); lia. Qed.
Lemma runnable_clear_queueable : is_runnable (clear_queueable t) = is_runnable t.
Proof. apply (clear_flag_bit t 2 0); lia. Qed.
Lemma exited_clear_queueable : is_exited (clear_queueable t) = is_exited t.
Proof. apply (clear_flag_bit t 2 1); lia. Qed.
Lemma queueable_clear_queueable : is_queueable (clear_queueable t) = false.
Proof. apply (clear_flag_bit t 2 2); lia. Qed.
End Flags.

Create Rewrite HintDb flags.
#[local] Hint Rewrite runnable_set_runnable exited_set_runnable queueable_set_runnable
  runnable_clear_runnable exited_clear_runnable queueable_clear_runnable runnable_set_exited
  exited_set_exited queueable_set_exited runnable_set_queueable exited_set_queueable
  queueable_set_queueable runnable_clear_queueable exited_clear_queueable
  queueable_clear_queueable : flags.

(** The other fields do not touch the flags. *)
Lemma flags_same t w : is_runnable (set_wakeup w t) = is_runnable t /\
  is_exited (set_wakeup w t) = is_exited t /\ is_queueable (set_wakeup w t) = is_queueable t.
Proof. done. Qed.

(** ** The invariant

    [c] is the thread that runs: [current], or, between the choice of the next thread and the
    switch to it, that next thread. *)

Record inv (c : Z) (s : uk_sched) : Prop := Inv {
  v_nodup : NoDup (thread_list s ++ sleeping_threads s ++ exited_threads s);
  v_dom : forall t, t ∈ thread_list s ++ sleeping_threads s ++ exited_threads s ->
    is_Some (threads s !! t);
  v_c : is_Some (threads s !! c);
  v_current : is_Some (threads s !! current s);
  v_run : forall t th, threads s !! t = Some th ->
    (t ∈ thread_list s <-> is_runnable th = true /\ t <> c);
  v_sleep : forall t th, threads s !! t = Some th ->
    (t ∈ sleeping_threads s <-> is_runnable th = false /\ 0 < wakeup_time th /\ is_exited th = false);
  v_exited : forall t th, threads s !! t = Some th -> (t ∈ exited_threads s <-> is_exited th = true);
  v_stop : forall t th, threads s !! t = Some th -> is_exited th = true -> is_runnable th = false;
  v_next : forall th, c <> current s -> threads s !! c = Some th -> is_runnable th = true;
  v_queue : forall th, threads s !! current s = Some th -> is_runnable th = false ->
    is_queueable th = negb (c =? current s);
  v_cqueue : forall th, threads s !! c = Some th -> is_queueable th = false;
  v_wqs : forall w q t, wqs s !! w = Some q -> t ∈ q ->
    exists th, threads s !! t = Some th /\ is_exited th = false;
  v_waiting : forall x xh t, threads s !! x = Some xh -> t ∈ waiting_threads xh ->
    exists th, threads s !! t = Some th /\ is_exited th = false
}.

Definition live (s : uk_sched) (t : Z) : Prop :=
  exists th, threads s !! t = Some th /\ is_exited th = false.

Lemma elem_of_filter_ne (t x : Z) (l : list Z) : t ∈ filter (fun y => y <> x) l <-> t <> x /\ t ∈ l.
Proof. by rewrite list_elem_of_filter. Qed.

Lemma linked_spec s t : linked s t = true <->
  t ∈ thread_list s \/ t ∈ sleeping_threads s \/ t ∈ exited_threads s.
Proof. unfold linked. by rewrite bool_decide_eq_true, !elem_of_app. Qed.

Lemma linked_false s t : t ∉ thread_list s -> t ∉ sleeping_threads s -> t ∉ exited_threads s ->
  linked s t = false.
Proof. intros. apply not_true_is_false. rewrite linked_spec. tauto. Qed.

Lemma tailq_remove_ok t l : t ∈ l -> tailq_remove t l = Some (filter (fun x => x <> t) l).
Proof. intros. unfold tailq_remove. by rewrite bool_decide_eq_true_2. Qed.

(** ** Waking a thread *)

Lemma update_ok s t th f : threads s !! t = Some th ->
  update s t f = Some (Sched (<[t := f th]> (threads s)) (current s) (thread_list s)
    (sleeping_threads s) (exited_threads s) (wqs s)).
Proof. intros H. unfold update. by rewrite H. Qed.

(** A thread that was waiting is runnable again; it goes to the tail of the run queue unless it
    is the one that runs. *)
Definition woken (c t : Z) (th : uk_thread) : uk_thread :=
  set_runnable (set_wakeup 0 (if t =? c then th else clear_queueable th)).

Definition after_wake (c t : Z) (s s' : uk_sched) : Prop :=
  current s' = current s /\ exited_threads s' = exited_threads s /\ wqs s' = wqs s /\
  (forall x, x <> t -> threads s' !! x = threads s !! x) /\
  exists th, threads s !! t = Some th /\
    if is_runnable th then s' = s
    else threads s' !! t = Some (woken c t th) /\
      thread_list s' = thread_list s ++ (if t =? c then [] else [t]) /\
      sleeping_threads s' = filter (fun x => x <> t) (sleeping_threads s).

Lemma woken_facts c t th :
  is_runnable (woken c t th) = true /\ is_exited (woken c t th) = is_exited th /\
  is_queueable (woken c t th) = (if t =? c then is_queueable th else false) /\
  wakeup_time (woken c t th) = 0 /\ waiting_threads (woken c t th) = waiting_threads th /\
  detached (woken c t th) = detached th /\ fresh (woken c t th) = fresh th.
Proof.
  unfold woken. destruct (t =? c); autorewrite with flags;
    rewrite ?(proj1 (proj2 (flags_same _ _))), ?(proj2 (proj2 (flags_same _ _)));
    autorewrite with flags; done.
Qed.

Lemma thread_woken_spec c s t th :
  inv c s -> threads s !! t = Some th -> is_runnable th = false -> is_exited th = false ->
  schedcoop_thread_woken s t = Some (Sched
    (if t =? c then threads s else <[t := clear_queueable th]> (threads s)) (current s)
    (thread_list s ++ (if t =? c then [] else [t])) (filter (fun x => x <> t) (sleeping_threads s))
    (exited_threads s) (wqs s)).
Proof.
  intros V Ht Hr He. unfold schedcoop_thread_woken. rewrite Ht. cbn [mbind option_bind].
  assert (Hnr : t ∉ thread_list s) by (rewrite (v_run _ _ V t th Ht); rewrite Hr; (intuition congruence)).
  assert (Hne : t ∉ exited_threads s) by (rewrite (v_exited _ _ V t th Ht); congruence).
  assert (E1 : (if 0 <? wakeup_time th then sleep_remove s t else Some s) =
    Some (set_lists s (thread_list s) (filter (fun x => x <> t) (sleeping_threads s))
            (exited_threads s))).
  { destruct (Z.ltb_spec 0 (wakeup_time th)).
    - unfold sleep_remove. rewrite tailq_remove_ok; [done|].
      by apply (v_sleep _ _ V t th Ht).
    - rewrite filter_ne_id; [by destruct s|]. rewrite (v_sleep _ _ V t th Ht). lia. }
  rewrite E1. cbn [mbind option_bind].
  assert (E2 : negb (t =? current s) || is_queueable th = negb (t =? c)).
  { destruct (Z.eqb_spec t (current s)) as [->|Hn]; cbn [negb orb].
    - rewrite (v_queue _ _ V th Ht Hr). f_equal. apply Z.eqb_sym.
    - destruct (Z.eqb_spec t c) as [->|]; [|done]. exfalso.
      pose proof (v_next _ _ V th Hn Ht). congruence. }
  cbn [current set_lists]. rewrite E2. destruct (Z.eqb_spec t c) as [->|Hn]; cbn [negb].
  - by rewrite app_nil_r.
  - unfold run_insert_tail. rewrite linked_false; cbn [thread_list sleeping_threads exited_threads
      set_lists]; [|done|by rewrite elem_of_filter_ne; tauto|done].
    cbn [mbind option_bind]. by rewrite (update_ok _ t th).
Qed.

Lemma inv_woken c s t th :
  inv c s -> threads s !! t = Some th -> is_runnable th = false -> is_exited th = false ->
  inv c (Sched (<[t := woken c t th]> (threads s)) (current s)
    (thread_list s ++ (if t =? c then [] else [t])) (filter (fun x => x <> t) (sleeping_threads s))
    (exited_threads s) (wqs s)).
Proof.
  intros V Ht Hr He. pose proof V as [ND D C CU R S X ST NX Q CQ W WT].
  destruct (woken_facts c t th) as (F1 & F2 & F3 & F4 & F5 & _).
  assert (Hnr : t ∉ thread_list s) by (rewrite (R t th Ht); rewrite Hr; (intuition congruence)).
  assert (Hne : t ∉ exited_threads s) by (rewrite (X t th Ht); congruence).
  assert (Hsome : forall x, is_Some (threads s !! x) -> is_Some (<[t := woken c t th]> (threads s) !! x)).
  { intros x Hx. destruct (decide (x = t)) as [->|]; [by rewrite lookup_insert_eq|by rewrite lookup_insert_ne]. }
  assert (Hlive : forall x, live s x -> exists th', <[t := woken c t th]> (threads s) !! x = Some th' /\
    is_exited th' = false).
  { intros x (xh & Hx & Hx2). destruct (decide (x = t)) as [->|].
    - rewrite lookup_insert_eq. eexists. split; [done|]. congruence.
    - rewrite lookup_insert_ne by done. eauto. }
  split; cbn [thread_list sleeping_threads exited_threads threads current wqs].
  - apply NoDup_app in ND as (N1 & N2 & N3). apply NoDup_app in N3 as (N3 & N4 & N5).
    apply NoDup_app. split; [|split].
    + destruct (t =? c); [by rewrite app_nil_r|]. apply NoDup_app. split; [done|].
      split; [|apply NoDup_singleton]. by intros x Hx ->%list_elem_of_singleton.
    + intros x Hx Hx2. rewrite elem_of_app, elem_of_filter_ne in Hx2.
      apply elem_of_app in Hx as [Hx|Hx].
      * apply (N2 x Hx). apply elem_of_app. tauto.
      * destruct (t =? c); [by apply not_elem_of_nil in Hx|]. apply list_elem_of_singleton in Hx as ->.
        tauto.
    + apply NoDup_app. split; [by apply NoDup_filter|]. split; [|done].
      intros x [_ Hx]%elem_of_filter_ne. by apply N4.
  - intros x Hx. apply Hsome. destruct (decide (x = t)) as [->|]; [by eexists|]. apply D.
    rewrite !elem_of_app, elem_of_filter_ne in *. destruct (t =? c); [|rewrite list_elem_of_singleton in Hx; tauto].
    rewrite elem_of_nil in Hx. tauto.
  - by apply Hsome.
  - by apply Hsome.
  - intros x xh Hx. rewrite elem_of_app. destruct (decide (x = t)) as [->|Hxt].
    + rewrite lookup_insert_eq in Hx. injection Hx as <-. rewrite F1.
      destruct (Z.eqb_spec t c) as [->|Hc]; [rewrite elem_of_nil; (intuition congruence)|].
      rewrite list_elem_of_singleton. tauto.
    + rewrite lookup_insert_ne in Hx by done. rewrite <- (R x xh Hx).
      destruct (t =? c); [rewrite elem_of_nil; tauto|]. rewrite list_elem_of_singleton. (intuition congruence).
  - intros x xh Hx. rewrite elem_of_filter_ne. destruct (decide (x = t)) as [->|Hxt].
    + rewrite lookup_insert_eq in Hx. injection Hx as <-. rewrite F1. (intuition congruence).
    + rewrite lookup_insert_ne in Hx by done. rewrite <- (S x xh Hx). tauto.
  - intros x xh Hx. destruct (decide (x = t)) as [->|Hxt].
    + rewrite lookup_insert_eq in Hx. injection Hx as <-. rewrite F2. by apply X.
    + rewrite lookup_insert_ne in Hx by done. by apply X.
  - intros x xh Hx. destruct (decide (x = t)) as [->|Hxt].
    + rewrite lookup_insert_eq in Hx. injection Hx as <-. congruence.
    + rewrite lookup_insert_ne in Hx by done. by apply (ST x).
  - intros xh Hc. destruct (decide (c = t)) as [->|Hxt].
    + rewrite lookup_insert_eq. by intros [= <-].
    + rewrite lookup_insert_ne by done. by apply NX.
  - intros xh. destruct (decide (current s = t)) as [E|Hxt].
    + rewrite E, lookup_insert_eq. intros [= <-]. congruence.
    + rewrite lookup_insert_ne by done. by apply Q.
  - intros xh. destruct (decide (c = t)) as [->|Hxt].
    + rewrite lookup_insert_eq. intros [= <-]. rewrite F3, Z.eqb_refl. by apply CQ.
    + rewrite lookup_insert_ne by done. by apply CQ.
  - intros w q x Hw Hx. apply Hlive. by eapply W.
  - intros x xh y Hx Hy. apply Hlive. destruct (decide (x = t)) as [->|Hxt].
    + rewrite lookup_insert_eq in Hx. injection Hx as <-. rewrite F5 in Hy. by eapply WT.
    + rewrite lookup_insert_ne in Hx by done. by eapply WT.
Qed.

Lemma wake_spec c s t :
  inv c s -> live s t -> exists s', uk_thread_wake s t = Some s' /\ inv c s' /\ after_wake c t s s'.
Proof.
  intros V (th & Ht & He). unfold uk_thread_wake. rewrite Ht. cbn [mbind option_bind].
  destruct (is_runnable th) eqn:Hr; cbn [negb].
  { exists s. split; [done|]. split; [done|]. repeat split. exists th. by rewrite Hr. }
  rewrite (thread_woken_spec c s t th V Ht Hr He). cbn [mbind option_bind].
  eexists. split; [|split; [exact (inv_woken c s t th V Ht Hr He)|]].
  - unfold update, woken. cbn [threads current thread_list sleeping_threads exited_threads wqs].
    destruct (Z.eqb_spec t c) as [E|E].
    + rewrite Ht. cbn. rewrite lookup_insert_eq. cbn. by rewrite insert_insert_eq.
    + rewrite lookup_insert_eq. cbn. rewrite lookup_insert_eq. cbn. by rewrite !insert_insert_eq.
  - split; [done|]. split; [done|]. split; [done|].
    split; [intros x Hx; by apply lookup_insert_ne|]. exists th. split; [done|]. rewrite Hr. cbn.
    by rewrite lookup_insert_eq.
Qed.

(** ** Waking several threads *)

(** What waking threads leaves as it is. *)
Record grows (s s' : uk_sched) : Prop := Grows {
  g_current : current s' = current s;
  g_exited : exited_threads s' = exited_threads s;
  g_wqs : wqs s' = wqs s;
  g_list : exists extra, thread_list s' = thread_list s ++ extra;
  g_threads : forall x th, threads s !! x = Some th -> exists th', threads s' !! x = Some th' /\
    is_exited th' = is_exited th /\ detached th' = detached th /\ fresh th' = fresh th /\
    waiting_threads th' = waiting_threads th /\ (is_runnable th = true -> th' = th)
}.

Lemma grows_refl s : grows s s.
Proof. split; try done; [exists []; by rewrite app_nil_r|]. intros x th H. by exists th. Qed.

Lemma grows_trans s1 s2 s3 : grows s1 s2 -> grows s2 s3 -> grows s1 s3.
Proof.
  intros [A1 B1 C1 [e1 L1] T1] [A2 B2 C2 [e2 L2] T2]. split; try congruence.
  - exists (e1 ++ e2). by rewrite L2, L1, app_assoc.
  - intros x th Hx. destruct (T1 x th Hx) as (th1 & H1 & E1 & D1 & F1 & W1 & R1).
    destruct (T2 x th1 H1) as (th2 & H2 & E2 & D2 & F2 & W2 & R2). exists th2.
    split; [done|]. repeat (split; [congruence|]). intros Hr. specialize (R1 Hr).
    subst th1. auto.
Qed.

Lemma after_wake_grows c t s s' : after_wake c t s s' -> grows s s'.
Proof.
  intros (A & B & C & D & th & Ht & H). destruct (is_runnable th) eqn:Hr.
  { subst s'. apply grows_refl. }
  destruct H as (H1 & H2 & H3). split; try done.
  - by eexists.
  - intros x xh Hx. destruct (decide (x = t)) as [->|Hne].
    + assert (xh = th) as -> by congruence. exists (woken c t th). split; [done|].
      destruct (woken_facts c t th) as (F1 & F2 & F3 & F4 & F5 & F6 & F7).
      repeat (split; [done|]). congruence.
    + exists xh. by rewrite D.
Qed.

Lemma grows_live s s' t : grows s s' -> live s t -> live s' t.
Proof.
  intros G (th & Ht & He). destruct (g_threads _ _ G t th Ht) as (th' & H1 & H2 & _).
  exists th'. split; [done|congruence].
Qed.

(** A thread that was woken can run. *)
Definition can_run (s : uk_sched) (t : Z) : Prop :=
  exists th, threads s !! t = Some th /\ is_runnable th = true.

Lemma grows_can_run s s' t : grows s s' -> can_run s t -> can_run s' t.
Proof.
  intros G (th & Ht & Hr). destruct (g_threads _ _ G t th Ht) as (th' & H1 & _ & _ & _ & _ & H2).
  exists th'. split; [done|]. by rewrite (H2 Hr).
Qed.

Lemma wake_can_run c s s' t : after_wake c t s s' -> can_run s' t.
Proof.
  intros (_ & _ & _ & _ & th & Ht & H). destruct (is_runnable th) eqn:Hr.
  - subst. by exists th.
  - destruct H as (H & _). eexists. split; [exact H|]. apply woken_facts.
Qed.

Lemma wake_all_spec c l s :
  inv c s -> Forall (live s) l ->
  exists s', wake_all s l = Some s' /\ inv c s' /\ grows s s' /\ Forall (can_run s') l.
Proof.
  revert s. induction l as [|t l IH]; intros s V Hl; cbn [wake_all].
  { exists s. split; [done|]. split; [done|]. split; [apply grows_refl|constructor]. }
  apply Forall_cons in Hl as [Ht Hl].
  destruct (wake_spec c s t V Ht) as (s1 & -> & V1 & A1). cbn [mbind option_bind].
  pose proof (after_wake_grows _ _ _ _ A1) as G1.
  destruct (IH s1 V1) as (s2 & -> & V2 & G2 & R2).
  { eapply Forall_impl; [exact Hl|]. intros x. by apply grows_live. }
  exists s2. split; [done|]. split; [done|]. split; [by eapply grows_trans|].
  apply Forall_cons. split; [|done]. eapply grows_can_run; [exact G2|]. by eapply wake_can_run.
Qed.

(** The pass over the sleeping threads wakes exactly those whose time has come, and computes when
    the next one is due. *)
Lemma wake_expired_spec c now l : forall s min,
  inv c s -> NoDup l -> (forall t, t ∈ l -> t ∈ sleeping_threads s) ->
  exists s' m, wake_expired s now min l = Some (s', m) /\ inv c s' /\ grows s s' /\
    (forall t th, t ∈ l -> threads s !! t = Some th ->
       if wakeup_time th <=? now then can_run s' t else threads s' !! t = Some th) /\
    (forall t, t ∉ l -> threads s' !! t = threads s !! t) /\
    m <= min /\ (forall t th, t ∈ l -> threads s !! t = Some th -> now < wakeup_time th -> m <= wakeup_time th) /\
    (m = min \/ exists t th, t ∈ l /\ threads s !! t = Some th /\ now < wakeup_time th /\ m = wakeup_time th) /\
    ((forall t th, t ∈ l -> threads s !! t = Some th -> now < wakeup_time th) -> s' = s).
Proof.
  induction l as [|t l IH]; intros s min V ND Hin; cbn [wake_expired].
  { exists s, min. split; [done|]. split; [done|]. split; [apply grows_refl|].
    split; [by intros t th Ht%not_elem_of_nil|]. split; [done|]. split; [lia|].
    split; [by intros t th Ht%not_elem_of_nil|]. split; [by left|done]. }
  apply NoDup_cons in ND as [Htl ND].
  assert (Hts : t ∈ sleeping_threads s) by (apply Hin, list_elem_of_here).
  destruct (v_dom _ _ V t) as [th Ht]; [rewrite !elem_of_app; tauto|].
  pose proof (proj1 (v_sleep _ _ V t th Ht) Hts) as (Hr & Hw & He).
  rewrite Ht. cbn [mbind option_bind].
  destruct (Z.eqb_spec (wakeup_time th) 0); [lia|]. cbn [negb andb].
  destruct (Z.leb_spec (wakeup_time th) now) as [Hle|Hgt].
  - destruct (wake_spec c s t V ltac:(by exists th)) as (s1 & -> & V1 & A1). cbn [mbind option_bind].
    pose proof (after_wake_grows _ _ _ _ A1) as G1.
    pose proof A1 as (_ & _ & _ & Hother & th1 & Ht1 & Hs1).
    assert (th1 = th) as -> by congruence. rewrite Hr in Hs1. destruct Hs1 as (_ & _ & Hsl).
    destruct (IH s1 min V1 ND) as (s2 & m & -> & V2 & G2 & P2 & O2 & M1 & M2 & M3 & M4).
    { intros x Hx. rewrite Hsl, elem_of_filter_ne. split; [by intros ->|].
      by apply Hin, list_elem_of_further. }
    assert (Hne : forall x, x ∈ l -> x <> t) by (intros x Hx ->; done).
    exists s2, m. split; [done|]. split; [done|]. split; [by eapply grows_trans|].
    split; [|split; [|split; [done|split; [|split]]]].
    + intros x xh Hx Hxh. apply elem_of_cons in Hx as [->|Hx].
      * assert (xh = th) as -> by congruence. destruct (Z.leb_spec (wakeup_time th) now); [|lia].
        eapply grows_can_run; [exact G2|]. by eapply wake_can_run.
      * apply P2; [done|]. rewrite Hother; [done|]. by apply Hne.
    + intros x Hx. apply not_elem_of_cons in Hx as [Hx1 Hx2]. rewrite O2 by done. by apply Hother.
    + intros x xh Hx Hxh Hlt. apply elem_of_cons in Hx as [->|Hx].
      * assert (xh = th) as -> by congruence. lia.
      * apply (M2 x xh Hx); [|done]. rewrite Hother; [done|]. by apply Hne.
    + destruct M3 as [->|(x & xh & Hx & Hxh & H1 & H2)]; [by left|]. right. exists x, xh.
      split; [by apply list_elem_of_further|]. split; [|done]. rewrite <- Hother; [done|]. by apply Hne.
    + intros Hall. specialize (Hall t th ltac:(apply list_elem_of_here) Ht). lia.
  - assert (Hrec : exists s' m, wake_expired s now (Z.min min (wakeup_time th)) l = Some (s', m) /\
      (if wakeup_time th <? min then wake_expired s now (wakeup_time th) l
       else wake_expired s now min l) = Some (s', m) /\ inv c s' /\ grows s s' /\
      (forall t th, t ∈ l -> threads s !! t = Some th ->
         if wakeup_time th <=? now then can_run s' t else threads s' !! t = Some th) /\
      (forall t, t ∉ l -> threads s' !! t = threads s !! t) /\
      m <= Z.min min (wakeup_time th) /\
      (forall t th, t ∈ l -> threads s !! t = Some th -> now < wakeup_time th -> m <= wakeup_time th) /\
      (m = Z.min min (wakeup_time th) \/ exists t th, t ∈ l /\ threads s !! t = Some th /\
         now < wakeup_time th /\ m = wakeup_time th) /\
      ((forall t th, t ∈ l -> threads s !! t = Some th -> now < wakeup_time th) -> s' = s)).
    { destruct (IH s (Z.min min (wakeup_time th)) V ND) as (s2 & m & E & H).
      { intros x Hx. by apply Hin, list_elem_of_further. }
      exists s2, m. split; [done|]. split; [|done]. rewrite <- E.
      destruct (Z.ltb_spec (wakeup_time th) min); by rewrite ?Z.min_l, ?Z.min_r by lia. }
    destruct Hrec as (s2 & m & _ & -> & V2 & G2 & P2 & O2 & M1 & M2 & M3 & M4).
    exists s2, m. split; [done|]. split; [done|]. split; [done|].
    split; [|split; [|split; [lia|split; [|split]]]].
    + intros x xh Hx Hxh. apply elem_of_cons in Hx as [->|Hx]; [|by apply P2].
      assert (xh = th) as -> by congruence. destruct (Z.leb_spec (wakeup_time th) now); [lia|].
      by rewrite O2.
    + intros x Hx. apply not_elem_of_cons in Hx as [Hx1 Hx2]. by apply O2.
    + intros x xh Hx Hxh Hlt. apply elem_of_cons in Hx as [->|Hx]; [|by eapply M2].
      assert (xh = th) as -> by congruence. lia.
    + destruct M3 as [->|(x & xh & Hx & Hxh & H1 & H2)].
      * destruct (Z.min_spec min (wakeup_time th)) as [[_ ->]|[_ ->]]; [by left|].
        right. exists t, th. split; [apply list_elem_of_here|]. done.
      * right. exists x, xh. split; [by apply list_elem_of_further|]. done.
    + intros Hall. apply M4. intros x xh Hx. apply Hall. by apply list_elem_of_further.
Qed.

(** ** The switch *)

(** The state after the head of the run queue was chosen. *)
Definition chosen (s : uk_sched) (next : Z) (rest : list Z) (pth nth : uk_thread) : uk_sched :=
  let c := current s in
  Sched (<[next := clear_queueable nth]>
           (if is_runnable pth then threads s else <[c := set_queueable pth]> (threads s))) c
    (rest ++ (if is_runnable pth then [c] else [])) (sleeping_threads s) (exited_threads s) (wqs s).

Lemma chosen_inv s next rest pth nth :
  inv (current s) s -> thread_list s = next :: rest -> threads s !! current s = Some pth ->
  threads s !! next = Some nth -> inv next (chosen s next rest pth nth).
Proof.
  intros V El Hp Hn. pose proof V as [ND D C CU R S X ST NX Q CQ W WT].
  set (c := current s) in *.
  assert (Hin : next ∈ thread_list s) by (rewrite El; apply list_elem_of_here).
  destruct (proj1 (R next nth Hn) Hin) as [Hnr Hnc].
  assert (Hlook : forall x, threads (chosen s next rest pth nth) !! x =
    if decide (x = next) then Some (clear_queueable nth)
    else if decide (x = c) then Some (if is_runnable pth then pth else set_queueable pth)
    else threads s !! x).
  { intros x. unfold chosen. cbn [threads]. case_decide; [subst; by rewrite lookup_insert_eq|].
    rewrite lookup_insert_ne by done. fold c. destruct (is_runnable pth); case_decide; subst; try done.
    - by rewrite lookup_insert_eq.
    - by rewrite lookup_insert_ne. }
  assert (Hsame : forall x xh', threads (chosen s next rest pth nth) !! x = Some xh' ->
    exists xh, threads s !! x = Some xh /\ is_runnable xh' = is_runnable xh /\
      is_exited xh' = is_exited xh /\ wakeup_time xh' = wakeup_time xh /\
      waiting_threads xh' = waiting_threads xh).
  { intros x xh'. rewrite Hlook. repeat case_decide; subst; intros Hx'; try injection Hx' as <-.
    - exists nth. split; [done|]. autorewrite with flags. done.
    - exists pth. split; [done|]. destruct (is_runnable pth) eqn:E; [done|].
      autorewrite with flags. done.
    - by exists xh'. }
  assert (Hback : forall x xh, threads s !! x = Some xh ->
    exists xh', threads (chosen s next rest pth nth) !! x = Some xh' /\ is_exited xh' = is_exited xh).
  { intros x xh Hx. rewrite Hlook. repeat case_decide; subst.
    - eexists. split; [done|]. autorewrite with flags. congruence.
    - eexists. split; [done|]. destruct (is_runnable pth); autorewrite with flags; congruence.
    - by exists xh. }
  set (s' := chosen s next rest pth nth) in *.
  assert (E1 : thread_list s' = rest ++ (if is_runnable pth then [c] else [])) by done.
  assert (E2 : sleeping_threads s' = sleeping_threads s) by done.
  assert (E3 : exited_threads s' = exited_threads s) by done.
  assert (E4 : current s' = c) by done. assert (E5 : wqs s' = wqs s) by done. clearbody s'.
  rewrite El in ND. cbn [app] in ND. apply NoDup_cons in ND as [Nn ND].
  rewrite !elem_of_app in Nn.
  assert (Hcl : c ∉ thread_list s) by (rewrite (R c pth Hp); tauto).
  split; rewrite ?E1, ?E2, ?E3, ?E4, ?E5.
  - destruct (is_runnable pth) eqn:Ep; [|by rewrite app_nil_r].
    assert (c ∉ sleeping_threads s) by (rewrite (S c pth Hp), Ep; (intuition congruence)).
    assert (c ∉ exited_threads s).
    { rewrite (X c pth Hp). intros He. specialize (ST c pth Hp He). congruence. }
    rewrite <- app_assoc. apply NoDup_app in ND as (N1 & N2 & N3). apply NoDup_app.
    split; [done|]. split.
    + intros x Hx Hx2. apply elem_of_cons in Hx2 as [->|Hx2]; [|by apply (N2 x)].
      apply Hcl. rewrite El. by apply list_elem_of_further.
    + apply NoDup_cons. split; [|done]. rewrite elem_of_app. tauto.
  - intros x Hx. assert (is_Some (threads s !! x)) as [xh Hxh].
    { destruct (decide (x = c)) as [->|]; [done|]. apply D. rewrite El, !elem_of_app in *.
      rewrite elem_of_cons. destruct (is_runnable pth);
        rewrite ?list_elem_of_singleton, ?elem_of_nil in Hx; tauto. }
    destruct (Hback x xh Hxh) as (xh' & -> & _). by eexists.
  - destruct (Hback next nth Hn) as (xh' & -> & _). by eexists.
  - destruct (Hback c pth Hp) as (xh' & -> & _). by eexists.
  - intros x xh' Hx'. destruct (Hsame x xh' Hx') as (xh & Hx & -> & _).
    pose proof (R x xh Hx) as Rx. rewrite El, elem_of_cons in Rx. rewrite elem_of_app.
    destruct (decide (x = c)) as [->|Hxc].
    + assert (xh = pth) as -> by congruence. rewrite El, elem_of_cons in Hcl.
      destruct (is_runnable pth); rewrite ?list_elem_of_singleton, ?elem_of_nil; [|(intuition congruence)].
      split; [intros _; split; congruence|tauto].
    + destruct (is_runnable pth); rewrite ?list_elem_of_singleton, ?elem_of_nil;
        destruct (decide (x = next)) as [->|]; tauto.
  - intros x xh' Hx'. destruct (Hsame x xh' Hx') as (xh & Hx & -> & -> & -> & _). by apply S.
  - intros x xh' Hx'. destruct (Hsame x xh' Hx') as (xh & Hx & _ & -> & _). by apply X.
  - intros x xh' Hx'. destruct (Hsame x xh' Hx') as (xh & Hx & -> & -> & _). by apply (ST x).
  - intros xh' _ Hx'. destruct (Hsame next xh' Hx') as (xh & Hx & -> & _). congruence.
  - intros xh'. rewrite Hlook. rewrite decide_False, decide_True by congruence. intros [= <-].
    destruct (is_runnable pth) eqn:Ep; [congruence|]. intros _. autorewrite with flags.
    by destruct (Z.eqb_spec next c).
  - intros xh'. rewrite Hlook, decide_True by done. intros [= <-]. by autorewrite with flags.
  - intros w q t Hw Ht. destruct (W w q t Hw Ht) as (th & Hth & He).
    destruct (Hback t th Hth) as (th' & H1 & H2). exists th'. split; [done|congruence].
  - intros x xh' t Hx' Ht. destruct (Hsame x xh' Hx') as (xh & Hx & _ & _ & _ & Ew). rewrite Ew in Ht.
    destruct (WT x xh t Hx Ht) as (th & Hth & He).
    destruct (Hback t th Hth) as (th' & H1 & H2). exists th'. split; [done|congruence].
Qed.

(** The code of the choice computes it. *)
Lemma choose_code s next rest pth nth :
  inv (current s) s -> thread_list s = next :: rest -> threads s !! current s = Some pth ->
  threads s !! next = Some nth ->
  (next =? current s) || negb (is_runnable nth) || is_exited nth = false /\
  (s0 ← run_remove s next;
   s0 ← (if is_runnable pth then run_insert_tail s0 (current s) else update s0 (current s) set_queueable);
   update s0 next clear_queueable) = Some (chosen s next rest pth nth).
Proof.
  intros V El Hp Hn. pose proof V as [ND D C CU R S X ST _ _ _ _ _].
  assert (Hin : next ∈ thread_list s) by (rewrite El; apply list_elem_of_here).
  destruct (proj1 (R next nth Hn) Hin) as [Hnr Hnc]. split.
  - rewrite Hnr. destruct (Z.eqb_spec next (current s)); [done|]. cbn [orb negb].
    destruct (is_exited nth) eqn:He; [|done]. specialize (ST next nth Hn He). congruence.
  - unfold run_remove. rewrite tailq_remove_ok by done. cbn [mbind option_bind].
    assert (Ef : filter (fun x => x <> next) (thread_list s) = rest).
    { rewrite El, filter_cons_False by (intuition congruence). apply filter_ne_id. rewrite El in ND.
      cbn [app] in ND. apply NoDup_cons in ND as [Nn _]. rewrite elem_of_app in Nn. tauto. }
    rewrite Ef. unfold chosen. destruct (is_runnable pth) eqn:Ep.
    + unfold run_insert_tail. rewrite linked_false; cbn [thread_list sleeping_threads exited_threads
        set_lists].
      * cbn [mbind option_bind]. by rewrite (update_ok _ next nth).
      * assert (Hcl : current s ∉ thread_list s) by (rewrite (R _ pth Hp); tauto).
        rewrite El, elem_of_cons in Hcl. tauto.
      * rewrite (S _ pth Hp), Ep. (intuition congruence).
      * rewrite (X _ pth Hp). intros He. specialize (ST _ pth Hp He). congruence.
    + rewrite (update_ok _ (current s) pth) by done. cbn [mbind option_bind].
      rewrite (update_ok _ next nth); [by rewrite app_nil_r|]. cbn [threads set_lists].
      by rewrite lookup_insert_ne by congruence.
Qed.

(** What the scheduler's loop leaves as it is. *)
Record keeps (s s' : uk_sched) : Prop := Keeps {
  k_current : current s' = current s;
  k_exited : exited_threads s' = exited_threads s;
  k_wqs : wqs s' = wqs s;
  k_threads : forall x th, threads s !! x = Some th -> exists th', threads s' !! x = Some th' /\
    is_exited th' = is_exited th /\ detached th' = detached th /\ fresh th' = fresh th /\
    waiting_threads th' = waiting_threads th
}.

Lemma grows_keeps s s' : grows s s' -> keeps s s'.
Proof.
  intros [A B C _ T]. split; try done. intros x th Hx. destruct (T x th Hx) as (th' & H). exists th'.
  tauto.
Qed.

Lemma keeps_trans s1 s2 s3 : keeps s1 s2 -> keeps s2 s3 -> keeps s1 s3.
Proof.
  intros [A1 B1 C1 T1] [A2 B2 C2 T2]. split; try congruence.
  intros x th Hx. destruct (T1 x th Hx) as (th1 & H1 & E1 & D1 & F1 & W1).
  destruct (T2 x th1 H1) as (th2 & H2 & E2 & D2 & F2 & W2). exists th2.
  split; [done|]. repeat split; congruence.
Qed.

Lemma chosen_keeps s next rest pth nth :
  threads s !! current s = Some pth -> threads s !! next = Some nth ->
  keeps s (chosen s next rest pth nth).
Proof.
  intros Hp Hn. split; try done. intros x th Hx. unfold chosen. cbn [threads].
  destruct (decide (x = next)) as [->|Hne].
  - rewrite lookup_insert_eq. eexists. split; [done|]. autorewrite with flags.
    assert (th = nth) as -> by congruence. done.
  - rewrite lookup_insert_ne by done. destruct (is_runnable pth); [by exists th|].
    destruct (decide (x = current s)) as [->|Hc].
    + rewrite lookup_insert_eq. eexists. split; [done|]. autorewrite with flags.
      assert (th = pth) as -> by congruence. done.
    + rewrite lookup_insert_ne by done. by exists th.
Qed.

Lemma keeps_live s s' t : keeps s s' -> live s t -> live s' t.
Proof.
  intros K (th & Ht & He). destruct (k_threads _ _ K t th Ht) as (th' & H1 & H2 & _).
  exists th'. split; [done|congruence].
Qed.

(** The interrupts wake threads that exist and have not exited. *)
Definition events_live (s : uk_sched) (events : list event) : Prop :=
  Forall (fun e => Forall (live s) (irq e)) events.

Lemma keeps_events s s' events : keeps s s' -> events_live s events -> events_live s' events.
Proof.
  intros K H. eapply Forall_impl; [exact H|]. intros e He. eapply Forall_impl; [exact He|].
  intros x. by apply keeps_live.
Qed.

Lemma grows_list_nil s s' : grows s s' -> thread_list s' = [] -> thread_list s = [].
Proof.
  intros G H. destruct (g_list _ _ G) as [extra E]. rewrite H in E. symmetry in E.
  by apply app_eq_nil in E as [-> _].
Qed.

Lemma sleeping_nodup c s : inv c s -> NoDup (sleeping_threads s).
Proof.
  intros V. pose proof (v_nodup _ _ V) as N. apply NoDup_app in N as (_ & _ & N).
  by apply NoDup_app in N as (N & _ & _).
Qed.

(** The loop takes the head of a run queue that has only grown, and puts the thread that called it
    behind the others when it can go on running; it goes on with the same thread only when
    there is no other. *)
Definition round_robin (s : uk_sched) (next : Z) (s' : uk_sched) : Prop :=
  exists extra, match thread_list s ++ extra with
  | n :: rest => next = n /\ exists later,
      (can_run s (current s) -> exists more, later = current s :: more) /\
      thread_list s' = rest ++ later
  | [] => next = current s
  end.

(** One pass of the loop, after the sleeping threads were looked at: it goes on with the running
    thread, takes the head of the run queue, or halts and tries again. *)
Inductive passed (s s1 : uk_sched) (m : Z) (e : event) (events : list event) : Prop :=
| pass_stay s2 :
    thread_list s1 = [] -> can_run s1 (current s) -> inv (current s) s2 -> grows s1 s2 ->
    schedule_loop s (e :: events) = Some (s2, current s, []) -> passed s s1 m e events
| pass_switch next rest pth nth s2 :
    thread_list s1 = next :: rest -> threads s1 !! current s = Some pth ->
    threads s1 !! next = Some nth -> is_runnable nth = true ->
    inv next s2 -> grows (chosen s1 next rest pth nth) s2 ->
    schedule_loop s (e :: events) = Some (s2, next, []) -> passed s s1 m e events
| pass_halt s2 :
    thread_list s1 = [] -> ~ can_run s1 (current s) -> inv (current s) s2 -> grows s1 s2 ->
    Forall (can_run s2) (irq e) -> (irq e = [] -> s2 = s1) ->
    schedule_loop s (e :: events) =
      ('(s', next, halts) ← schedule_loop s2 events; Some (s', next, m :: halts)) ->
    passed s s1 m e events.

Lemma pass_spec s e events :
  inv (current s) s -> Forall (live s) (irq e) ->
  exists s1 m, wake_expired s (now e) (now e + 10000000000) (sleeping_threads s) = Some (s1, m) /\
    inv (current s) s1 /\ grows s s1 /\ passed s s1 m e events.
Proof.
  intros V He.
  destruct (wake_expired_spec (current s) (now e) (sleeping_threads s) s (now e + 10000000000) V
    (sleeping_nodup _ _ V) ltac:(done)) as (s1 & m & E1 & V1 & G1 & _).
  exists s1, m. split; [done|]. split; [done|]. split; [done|].
  assert (Ec : current s1 = current s) by apply (g_current _ _ G1).
  destruct (v_c _ _ V1) as [pth Hp].
  assert (He1 : Forall (live s1) (irq e))
    by (eapply Forall_impl; [exact He|]; intros x; by apply grows_live).
  destruct (thread_list s1) as [|next rest] eqn:El1.
  - destruct (wake_all_spec (current s) (irq e) s1 V1 He1) as (s2 & E2 & V2 & G2 & R2).
    destruct (is_runnable pth) eqn:Er.
    + eapply (pass_stay s s1 m e events s2); try done; [by exists pth|]. cbn [schedule_loop].
      rewrite E1. cbn [mbind option_bind]. rewrite Hp. cbn [mbind option_bind]. by rewrite El1, Er, E2.
    + eapply (pass_halt s s1 m e events s2); try done.
      * intros (th & Hth & Hr). congruence.
      * intros Ei. rewrite Ei in E2. cbn in E2. congruence.
      * cbn [schedule_loop]. rewrite E1. cbn [mbind option_bind]. rewrite Hp. cbn [mbind option_bind].
        by rewrite El1, Er, E2.
  - assert (Hin : next ∈ thread_list s1) by (rewrite El1; apply list_elem_of_here).
    destruct (v_dom _ _ V1 next) as [nth Hn]; [rewrite elem_of_app; tauto|].
    destruct (choose_code s1 next rest pth nth ltac:(by rewrite Ec) El1 ltac:(by rewrite Ec) Hn)
      as [Eb Ech]. rewrite Ec in Eb, Ech.
    pose proof (chosen_inv s1 next rest pth nth ltac:(by rewrite Ec) El1 ltac:(by rewrite Ec) Hn) as V2.
    destruct (wake_all_spec next (irq e) _ V2) as (s3 & E3 & V3 & G3 & _).
    { eapply Forall_impl; [exact He1|]. intros x.
      apply keeps_live, chosen_keeps; [by rewrite Ec|done]. }
    eapply (pass_switch s s1 m e events next rest pth nth s3); try done.
    + by apply (v_run _ _ V1 next nth Hn).
    + cbn [schedule_loop]. rewrite E1. cbn [mbind option_bind]. rewrite Hp. cbn [mbind option_bind].
      rewrite El1, Hn. cbn [mbind option_bind]. rewrite Eb.
      destruct (run_remove s1 next) as [s1a|]; [|done]. cbn [mbind option_bind] in *.
      destruct (if is_runnable pth then run_insert_tail s1a (current s)
                else update s1a (current s) set_queueable) as [s1b|]; [|done].
      cbn [mbind option_bind] in *. rewrite Ech. cbn [mbind option_bind]. by rewrite E3.
Qed.

Lemma chosen_can_run s next rest pth nth t :
  threads s !! current s = Some pth -> threads s !! next = Some nth -> can_run s t ->
  can_run (chosen s next rest pth nth) t.
Proof.
  intros Hp Hn (th & Ht & Hr). unfold chosen, can_run. cbn [threads].
  destruct (decide (t = next)) as [->|].
  - rewrite lookup_insert_eq. eexists. split; [done|]. autorewrite with flags. congruence.
  - rewrite lookup_insert_ne by done. destruct (is_runnable pth) eqn:E; [by exists th|].
    rewrite lookup_insert_ne; [by exists th|]. intros <-. congruence.
Qed.

Lemma loop_spec events : forall s,
  inv (current s) s -> events_live s events ->
  match schedule_loop s events with
  | Some (s', next, _) => inv next s' /\ keeps s s' /\ can_run s' next /\ round_robin s next s'
  | None => True
  end.
Proof.
  induction events as [|e events IH]; intros s V Hev; [done|].
  apply Forall_cons in Hev as [He Hev].
  destruct (pass_spec s e events V He) as (s1 & m & _ & V1 & G1 & P).
  destruct (g_list _ _ G1) as [extra El]. pose proof (grows_keeps _ _ G1) as K1.
  assert (Ec : current s1 = current s) by apply (g_current _ _ G1).
  destruct P as [s2 El1 Hc V2 G2 ->|next rest pth nth s2 El1 Hp Hn Hr V2 G2 ->|s2 El1 Hc V2 G2 _ _ ->].
  - split; [done|]. split; [eapply keeps_trans; [done|by apply grows_keeps]|].
    split; [by eapply grows_can_run|]. exists []. rewrite app_nil_r.
    rewrite El1 in El. symmetry in El. by apply app_eq_nil in El as [-> _].
  - assert (K2 : keeps s1 (chosen s1 next rest pth nth)) by (apply chosen_keeps; [by rewrite Ec|done]).
    split; [done|]. split.
    { eapply keeps_trans; [exact K1|]. eapply keeps_trans; [exact K2|]. by apply grows_keeps. }
    split.
    { eapply grows_can_run; [exact G2|]. apply chosen_can_run; [by rewrite Ec|done|by exists nth]. }
    exists extra. rewrite <- El, El1. split; [done|].
    destruct (g_list _ _ G2) as [extra2 El2]. unfold chosen in El2. cbn [thread_list] in El2.
    rewrite Ec in El2. exists ((if is_runnable pth then [current s] else []) ++ extra2).
    split; [|by rewrite app_assoc]. intros Hcr. apply (grows_can_run _ _ _ G1) in Hcr.
    destruct Hcr as (th & Hth & Hr'). assert (th = pth) as -> by congruence. rewrite Hr'. by eexists.
  - pose proof (grows_trans _ _ _ G1 G2) as G12.
    assert (Ec2 : current s2 = current s) by apply (g_current _ _ G12).
    specialize (IH s2 ltac:(by rewrite Ec2) ltac:(eapply keeps_events; [|exact Hev];
      by apply grows_keeps)).
    destruct (schedule_loop s2 events) as [[[s3 next] halts]|]; [|done]. cbn [mbind option_bind].
    destruct IH as (V3 & K3 & R3 & (extra3 & RR)). split; [done|].
    split; [eapply keeps_trans; [by apply grows_keeps|done]|]. split; [done|].
    destruct (g_list _ _ G12) as [extra2 El2]. exists (extra2 ++ extra3).
    rewrite El2, <- app_assoc in RR. rewrite Ec2 in RR.
    destruct (thread_list s ++ extra2 ++ extra3) as [|n rest]; [done|].
    destruct RR as (-> & later & HL & EL). split; [done|]. exists later. split; [|done].
    intros Hcr. apply HL. by eapply grows_can_run.
Qed.

(** ** The loop ends *)

(** Somebody can run, or will be able to before the events end. *)
Definition will_run (s : uk_sched) (events : list event) : Prop :=
  events <> [] /\ (can_run s (current s) \/ thread_list s <> [] \/
    exists t th e, t ∈ sleeping_threads s /\ threads s !! t = Some th /\ e ∈ events /\
      wakeup_time th <= now e).

Lemma can_run_listed c s t : inv c s -> can_run s t -> can_run s c \/ thread_list s <> [].
Proof.
  intros V (th & Ht & Hr). destruct (decide (t = c)) as [->|Hne]; [left; by exists th|]. right.
  intros E. assert (t ∈ thread_list s) as Hin by (by apply (v_run _ _ V t th Ht)).
  rewrite E in Hin. by apply not_elem_of_nil in Hin.
Qed.

Lemma loop_returns events : forall s,
  inv (current s) s -> events_live s events -> will_run s events ->
  is_Some (schedule_loop s events).
Proof.
  induction events as [|e events IH]; intros s V Hev [Hne Hw]; [done|].
  apply Forall_cons in Hev as [He Hev].
  destruct (pass_spec s e events V He) as (s1 & m & E1 & V1 & G1 & P).
  destruct P as [s2 _ _ _ _ ->|next rest pth nth s2 _ _ _ _ _ _ ->|s2 El1 Hc V2 G2 R2 Ei ->];
    [by eexists|by eexists|].
  destruct (wake_expired_spec (current s) (now e) (sleeping_threads s) s (now e + 10000000000) V
    (sleeping_nodup _ _ V) ltac:(done)) as (s1' & m' & E1' & _ & _ & P1 & _ & _ & _ & _ & Same).
  rewrite E1 in E1'. injection E1' as <- <-.
  pose proof (grows_trans _ _ _ G1 G2) as G12.
  assert (Ec2 : current s2 = current s) by apply (g_current _ _ G12).
  assert (Hnone : forall t, can_run s1 t -> False).
  { intros t Ht. by destruct (can_run_listed _ _ t V1 Ht). }
  assert (Hexp : forall t th, t ∈ sleeping_threads s -> threads s !! t = Some th ->
    now e < wakeup_time th).
  { intros t th Ht Hth. specialize (P1 t th Ht Hth).
    destruct (Z.leb_spec (wakeup_time th) (now e)); [by apply Hnone in P1|done]. }
  assert (Es : s1 = s) by auto. subst s1.
  destruct Hw as [Hw|[Hw|(t & th & e' & Ht & Hth & He' & Hle)]]; [by apply Hnone in Hw|done|].
  apply elem_of_cons in He' as [->|He']; [specialize (Hexp t th Ht Hth); lia|].
  destruct (IH s2) as [[[s3 next] halts] ->]; [by rewrite Ec2| | |by eexists].
  { eapply keeps_events; [|exact Hev]. by apply grows_keeps. }
  split; [by intros ->; apply not_elem_of_nil in He'|].
  destruct (irq e) as [|x irqs].
  - rewrite (Ei eq_refl). right. right. by exists t, th, e'.
  - apply Forall_cons in R2 as [Hx _]. rewrite Ec2.
    destruct (can_run_listed _ _ x V2 Hx); [by left|by right; left].
Qed.

(** ** After the switch *)

(** A change of a thread that the invariant does not see. *)
Lemma inv_update c s t th th' :
  inv c s -> threads s !! t = Some th -> flags th' = flags th -> wakeup_time th' = wakeup_time th ->
  (forall x, x ∈ waiting_threads th' -> live s x) ->
  inv c (Sched (<[t := th']> (threads s)) (current s) (thread_list s) (sleeping_threads s)
    (exited_threads s) (wqs s)).
Proof.
  intros [ND D C CU R S X ST NX Q CQ W WT] Ht Ef Ew Eq.
  assert (Hlook : forall x xh', <[t := th']> (threads s) !! x = Some xh' ->
    exists xh, threads s !! x = Some xh /\ flags xh' = flags xh /\ wakeup_time xh' = wakeup_time xh /\
      (forall y, y ∈ waiting_threads xh' -> live s y)).
  { intros x xh'. destruct (decide (x = t)) as [->|].
    - rewrite lookup_insert_eq. intros [= <-]. by exists th.
    - rewrite lookup_insert_ne by done. intros Hx. exists xh'. split; [done|]. split; [done|].
      split; [done|]. intros y Hy. by eapply WT. }
  assert (Hback : forall x, is_Some (threads s !! x) -> is_Some (<[t := th']> (threads s) !! x)).
  { intros x Hx. destruct (decide (x = t)) as [->|]; [by rewrite lookup_insert_eq|by rewrite lookup_insert_ne]. }
  assert (Hlive : forall x, live s x -> exists xh, <[t := th']> (threads s) !! x = Some xh /\ is_exited xh = false).
  { intros x (xh & Hx & He). destruct (decide (x = t)) as [->|].
    - rewrite lookup_insert_eq. eexists. split; [done|]. assert (xh = th) as -> by congruence.
      unfold is_exited, has_flag in *. by rewrite Ef.
    - rewrite lookup_insert_ne by done. eauto. }
  assert (Fl : forall a b k, flags a = flags b -> has_flag a k = has_flag b k)
    by (intros a b k E; unfold has_flag; by rewrite E).
  split; cbn [thread_list sleeping_threads exited_threads threads current wqs]; auto.
  - intros x xh' Hx'. destruct (Hlook x xh' Hx') as (xh & Hx & E1 & E2 & _).
    unfold is_runnable. rewrite (Fl _ _ _ E1). by apply R.
  - intros x xh' Hx'. destruct (Hlook x xh' Hx') as (xh & Hx & E1 & E2 & _).
    unfold is_runnable, is_exited. rewrite !(Fl _ _ _ E1), E2. by apply S.
  - intros x xh' Hx'. destruct (Hlook x xh' Hx') as (xh & Hx & E1 & E2 & _).
    unfold is_exited. rewrite (Fl _ _ _ E1). by apply X.
  - intros x xh' Hx'. destruct (Hlook x xh' Hx') as (xh & Hx & E1 & E2 & _).
    unfold is_exited, is_runnable. rewrite !(Fl _ _ _ E1). by apply (ST x).
  - intros xh' Hc Hx'. destruct (Hlook c xh' Hx') as (xh & Hx & E1 & E2 & _).
    unfold is_runnable. rewrite (Fl _ _ _ E1). by apply NX.
  - intros xh' Hx'. destruct (Hlook _ xh' Hx') as (xh & Hx & E1 & E2 & _).
    unfold is_runnable, is_queueable. rewrite !(Fl _ _ _ E1). by apply Q.
  - intros xh' Hx'. destruct (Hlook _ xh' Hx') as (xh & Hx & E1 & E2 & _).
    unfold is_queueable. rewrite (Fl _ _ _ E1). by apply CQ.
  - intros w q x Hw Hx. apply Hlive. by eapply W.
  - intros x xh' y Hx' Hy. destruct (Hlook x xh' Hx') as (xh & Hx & E1 & E2 & E3). apply Hlive. by apply E3.
Qed.

(** The switch itself. *)
Lemma inv_switch c s : inv c s -> can_run s c -> inv c (set_current s c).
Proof.
  intros [ND D C CU R S X ST NX Q CQ W WT] (th & Ht & Hr). split; try done.
  intros th' Ht' Hr'. cbn in Ht'. congruence.
Qed.

(** Freeing a thread that has exited. *)
Lemma destroy_spec c s t th :
  inv c s -> threads s !! t = Some th -> is_exited th = true -> t <> c -> t <> current s ->
  exists s', uk_sched_thread_destroy s t = Some s' /\ inv c s' /\ current s' = current s /\
    thread_list s' = thread_list s /\ threads s' = delete t (threads s) /\
    exited_threads s' = filter (fun x => x <> t) (exited_threads s).
Proof.
  intros V Ht He Hc Hcu. pose proof V as [ND D C CU R S X ST NX Q CQ W WT].
  unfold uk_sched_thread_destroy. rewrite Ht. cbn [mbind option_bind]. rewrite He. cbn [negb].
  unfold exited_remove. rewrite tailq_remove_ok by (by apply (X t th Ht)). cbn [mbind option_bind].
  eexists. split; [done|]. split; [|done].
  cbn [set_lists threads current thread_list sleeping_threads exited_threads wqs].
  assert (Hnr : t ∉ thread_list s) by (rewrite (R t th Ht), (ST t th Ht He); (intuition congruence)).
  assert (Hns : t ∉ sleeping_threads s) by (rewrite (S t th Ht), He; (intuition congruence)).
  assert (Hlook : forall x xh, delete t (threads s) !! x = Some xh -> x <> t /\ threads s !! x = Some xh)
    by (by intros x xh [? ?]%lookup_delete_Some).
  assert (Hlive : forall x, live s x -> exists xh, delete t (threads s) !! x = Some xh /\ is_exited xh = false).
  { intros x (xh & Hx & Hxe). exists xh. rewrite lookup_delete_ne; [done|]. intros <-. congruence. }
  split; cbn [thread_list sleeping_threads exited_threads threads current wqs].
  - apply NoDup_app in ND as (N1 & N2 & N3). apply NoDup_app in N3 as (N3 & N4 & N5).
    apply NoDup_app. split; [done|]. split.
    + intros x Hx. rewrite elem_of_app, elem_of_filter_ne. specialize (N2 x Hx).
      rewrite elem_of_app in N2. tauto.
    + apply NoDup_app. split; [done|]. split; [|by apply NoDup_filter].
      intros x Hx [_ Hx2]%elem_of_filter_ne. by apply (N4 x).
  - intros x Hx. rewrite !elem_of_app, elem_of_filter_ne in Hx.
    assert (x <> t) by (intuition congruence). rewrite lookup_delete_ne by done. apply D.
    rewrite !elem_of_app. tauto.
  - by rewrite lookup_delete_ne.
  - by rewrite lookup_delete_ne.
  - intros x xh [_ Hx]%Hlook. by apply R.
  - intros x xh [_ Hx]%Hlook. by apply S.
  - intros x xh [Hxt Hx]%Hlook. rewrite elem_of_filter_ne, (X x xh Hx). tauto.
  - intros x xh [_ Hx]%Hlook. by apply (ST x).
  - intros xh Hc' [_ Hx]%Hlook. by apply NX.
  - intros xh [_ Hx]%Hlook. by apply Q.
  - intros xh [_ Hx]%Hlook. by apply CQ.
  - intros w q x Hw Hx. apply Hlive. by eapply W.
  - intros x xh y [_ Hx]%Hlook Hy. apply Hlive. by eapply WT.
Qed.

Lemma reap_spec c l : forall s,
  inv c s -> current s = c -> NoDup l -> (forall t, t ∈ l -> t ∈ exited_threads s) ->
  exists s', reap s c l = Some s' /\ inv c s' /\ current s' = c /\ thread_list s' = thread_list s /\
    (forall t th, threads s !! t = Some th -> is_exited th = false \/ t = c -> threads s' !! t = Some th).
Proof.
  induction l as [|t l IH]; intros s V Ec ND Hin; cbn [reap].
  { exists s. repeat (split; [done|]). done. }
  apply NoDup_cons in ND as [Htl ND].
  assert (Hte : t ∈ exited_threads s) by (apply Hin, list_elem_of_here).
  destruct (v_dom _ _ V t) as [th Ht]; [rewrite !elem_of_app; tauto|].
  rewrite Ht. cbn [mbind option_bind].
  destruct (detached th); cbn [negb].
  2: { apply IH; try done. intros x Hx. by apply Hin, list_elem_of_further. }
  destruct (Z.eqb_spec t c) as [->|Hne]; cbn [negb mbind option_bind].
  { apply IH; try done. intros x Hx. by apply Hin, list_elem_of_further. }
  assert (He : is_exited th = true) by (by apply (v_exited _ _ V t th Ht)).
  destruct (destroy_spec c s t th V Ht He Hne ltac:(congruence)) as (s1 & -> & V1 & E1 & L1 & T1 & X1).
  cbn [mbind option_bind]. destruct (IH s1 V1) as (s2 & -> & V2 & E2 & L2 & T2).
  - congruence.
  - done.
  - intros x Hx. rewrite X1, elem_of_filter_ne. split; [by intros ->|]. by apply Hin, list_elem_of_further.
  - exists s2. split; [done|]. split; [done|]. split; [done|]. split; [congruence|].
    intros x xh Hx Hor. apply T2; [|done]. rewrite T1, lookup_delete_ne; [done|]. intros <-.
    destruct Hor as [H|H]; congruence.
Qed.

(** The whole of [schedcoop_schedule]. *)
Lemma schedule_spec s events :
  inv (current s) s -> events_live s events ->
  (will_run s events -> is_Some (schedcoop_schedule s events)) /\
  forall s' halts, schedcoop_schedule s events = Some (s', halts) ->
    inv (current s') s' /\ can_run s' (current s') /\ round_robin s (current s') s'.
Proof.
  intros V Hev. pose proof (loop_spec events s V Hev) as HL. unfold schedcoop_schedule.
  destruct (schedule_loop s events) as [[[s1 next] halts]|] eqn:E.
  2: { split; [|done]. intros Hw. destruct (loop_returns events s V Hev Hw) as [x Hx]. congruence. }
  cbn [mbind option_bind]. destruct HL as (V1 & K1 & R1 & RR).
  pose proof R1 as (nth & Hn & Hnr). rewrite Hn. cbn [mbind option_bind].
  pose proof (inv_switch next s1 V1 R1) as V2. set (s2 := set_current s1 next) in *.
  rewrite (update_ok s2 next nth) by done. cbn [mbind option_bind].
  assert (V3 : inv next (Sched (<[next := set_started nth]> (threads s2)) (current s2) (thread_list s2)
    (sleeping_threads s2) (exited_threads s2) (wqs s2))).
  { apply (inv_update next s2 next nth); try done. intros x Hx. by apply (v_waiting _ _ V2 next nth). }
  set (s3 := Sched _ _ _ _ _ _) in *.
  assert (Hn3 : threads s3 !! next = Some (set_started nth)) by apply lookup_insert_eq.
  destruct (fresh nth); cbn [mbind option_bind].
  - split; [by eexists|]. intros s' h [= <- <-]. cbn [current s3]. split; [done|].
    split; [by exists (set_started nth)|]. exact RR.
  - destruct (reap_spec next (exited_threads s3) s3 V3 eq_refl) as (s4 & -> & V4 & E4 & L4 & T4).
    { pose proof (v_nodup _ _ V3) as N. apply NoDup_app in N as (_ & _ & N).
      by apply NoDup_app in N as (_ & _ & N). }
    { done. }
    cbn [mbind option_bind]. split; [by eexists|]. intros s' h [= <- <-]. rewrite E4.
    split; [done|]. split; [exists (set_started nth); split; [apply T4; [done|by right]|done]|].
    destruct RR as (extra & RR). exists extra. by rewrite L4.
Qed.

(** ** The operations of the running thread *)

(** The running thread stops being runnable, with or without a time to wake it. *)
Lemma block_spec s th until :
  let c := current s in
  inv c s -> threads s !! c = Some th -> is_exited th = false -> c ∉ sleeping_threads s ->
  exists s', uk_thread_block_until s c until = Some s' /\ inv c s' /\ current s' = c /\
    thread_list s' = thread_list s /\ wqs s' = wqs s /\
    threads s' = <[c := clear_runnable (set_wakeup until th)]> (threads s).
Proof.
  intros c V Ht He Hs. pose proof V as [ND D C CU R S X ST NX Q CQ W WT].
  unfold uk_thread_block_until. rewrite (update_ok s c th) by done. cbn [mbind option_bind].
  rewrite (update_ok _ c (set_wakeup until th)) by apply lookup_insert_eq.
  cbn [mbind option_bind threads current thread_list sleeping_threads exited_threads wqs].
  rewrite insert_insert_eq. set (th' := clear_runnable (set_wakeup until th)).
  assert (Hcl : c ∉ thread_list s) by (rewrite (R c th Ht); tauto).
  assert (Hce : c ∉ exited_threads s) by (rewrite (X c th Ht); congruence).
  unfold schedcoop_thread_blocked. cbn [current]. rewrite Z.eqb_refl. cbn [negb mbind option_bind threads].
  rewrite lookup_insert_eq. cbn [mbind option_bind]. change (wakeup_time th') with until.
  assert (F1 : is_runnable th' = false) by apply runnable_clear_runnable.
  assert (F2 : is_exited th' = false) by (unfold th'; by autorewrite with flags).
  assert (F3 : is_queueable th' = is_queueable th) by (unfold th'; by autorewrite with flags).
  exists (Sched (<[c := th']> (threads s)) c (thread_list s)
    (sleeping_threads s ++ (if 0 <? until then [c] else [])) (exited_threads s) (wqs s)).
  split; [|split; [|done]].
  { destruct (0 <? until); [|by rewrite app_nil_r]. unfold sleep_insert_tail.
    by rewrite linked_false. }
  assert (Hback : forall x, is_Some (threads s !! x) -> is_Some (<[c := th']> (threads s) !! x)).
  { intros x Hx. destruct (decide (x = c)) as [->|]; [by rewrite lookup_insert_eq|by rewrite lookup_insert_ne]. }
  assert (Hlive : forall x, live s x -> exists xh, <[c := th']> (threads s) !! x = Some xh /\ is_exited xh = false).
  { intros x (xh & Hx & Hxe). destruct (decide (x = c)) as [->|].
    - rewrite lookup_insert_eq. by exists th'.
    - rewrite lookup_insert_ne by done. by exists xh. }
  assert (Hlook : forall x xh, <[c := th']> (threads s) !! x = Some xh ->
    x = c /\ xh = th' \/ x <> c /\ threads s !! x = Some xh).
  { intros x xh. destruct (decide (x = c)) as [->|].
    - rewrite lookup_insert_eq. intros [= <-]. by left.
    - rewrite lookup_insert_ne by done. by right. }
  split; cbn [thread_list sleeping_threads exited_threads threads current wqs]; auto.
  - destruct (0 <? until); [|by rewrite app_nil_r]. apply NoDup_app in ND as (N1 & N2 & N3).
    apply NoDup_app in N3 as (N3 & N4 & N5). apply NoDup_app. split; [done|]. split.
    + intros x Hx. specialize (N2 x Hx). rewrite !elem_of_app, list_elem_of_singleton in *.
      intros [[H| ->]|H]; tauto.
    + apply NoDup_app. split; [|split; [|done]].
      * apply NoDup_app. split; [done|]. split; [|apply NoDup_singleton].
        by intros x Hx ->%list_elem_of_singleton.
      * intros x Hx. rewrite elem_of_app, list_elem_of_singleton in Hx. destruct Hx as [Hx| ->]; auto.
  - intros x Hx. apply Hback. destruct (decide (x = c)) as [->|]; [by exists th|]. apply D.
    rewrite !elem_of_app in *. destruct (0 <? until);
      rewrite ?list_elem_of_singleton, ?elem_of_nil in Hx; tauto.
  - intros x xh Hx. apply Hlook in Hx as [[-> ->]|[Hxc Hx]]; [|by apply R].
    rewrite F1. (intuition congruence).
  - intros x xh Hx. rewrite elem_of_app. apply Hlook in Hx as [[-> ->]|[Hxc Hx]].
    + rewrite F1, F2. change (wakeup_time th') with until.
      destruct (Z.ltb_spec 0 until); rewrite ?list_elem_of_singleton, ?elem_of_nil; (intuition (lia || congruence)).
    + rewrite <- (S x xh Hx). destruct (0 <? until);
        rewrite ?list_elem_of_singleton, ?elem_of_nil; tauto.
  - intros x xh Hx. apply Hlook in Hx as [[-> ->]|[Hxc Hx]]; [|by apply X]. rewrite F2. (intuition congruence).
  - intros x xh Hx. apply Hlook in Hx as [[-> ->]|[Hxc Hx]]; [done|by apply (ST x)].
  - intros xh Hx. apply Hlook in Hx as [[_ ->]|[Hxc Hx]]; [|done]. intros _. rewrite F3, Z.eqb_refl.
    by apply CQ.
  - intros xh Hx. apply Hlook in Hx as [[_ ->]|[Hxc Hx]]; [|by apply CQ]. rewrite F3. by apply CQ.
  - intros w q x Hw Hx. apply Hlive. by eapply W.
  - intros x xh y Hx Hy. apply Hlive. apply Hlook in Hx as [[-> ->]|[Hxc Hx]]; [|by eapply WT].
    by apply (WT c th y Ht).
Qed.

Lemma thread_create_spec c s t det :
  inv c s -> c = current s -> threads s !! t = None ->
  exists s', uk_sched_thread_create s t det = Some s' /\ inv c s' /\ current s' = c /\
    thread_list s' = thread_list s ++ [t].
Proof.
  intros V Ec Ht. pose proof V as [ND D C CU R S X ST NX Q CQ W WT].
  unfold uk_sched_thread_create, schedcoop_thread_add. cbv zeta.
  set (th := match det with Some d => _ | None => _ end).
  rewrite (update_ok _ t th) by apply lookup_insert_eq.
  cbn [mbind option_bind threads current thread_list sleeping_threads exited_threads wqs].
  rewrite insert_insert_eq.
  assert (F : is_runnable (set_runnable th) = true /\ is_exited (set_runnable th) = false /\
    is_queueable (set_runnable th) = false /\ waiting_threads (set_runnable th) = []).
  { autorewrite with flags. unfold th. destruct det as [[]|]; done. }
  destruct F as (F1 & F2 & F3 & F4).
  assert (Hnl : t ∉ thread_list s ++ sleeping_threads s ++ exited_threads s).
  { intros Hin. destruct (D t Hin). congruence. }
  rewrite !elem_of_app in Hnl.
  assert (Htc : t <> c) by (intros ->; destruct C; congruence).
  unfold run_insert_tail. rewrite linked_false; cbn [thread_list sleeping_threads exited_threads];
    [|tauto..].
  eexists. split; [done|]. split; [|done].
  cbn [set_lists threads current thread_list sleeping_threads exited_threads wqs].
  set (th' := set_runnable th) in *.
  assert (Hlook : forall x xh, <[t := th']> (threads s) !! x = Some xh ->
    x = t /\ xh = th' \/ x <> t /\ threads s !! x = Some xh).
  { intros x xh. destruct (decide (x = t)) as [->|].
    - rewrite lookup_insert_eq. intros [= <-]. by left.
    - rewrite lookup_insert_ne by done. by right. }
  assert (Hback : forall x, is_Some (threads s !! x) -> is_Some (<[t := th']> (threads s) !! x)).
  { intros x Hx. destruct (decide (x = t)) as [->|]; [by rewrite lookup_insert_eq|by rewrite lookup_insert_ne]. }
  assert (Hlive : forall x, live s x -> exists xh, <[t := th']> (threads s) !! x = Some xh /\ is_exited xh = false).
  { intros x (xh & Hx & Hxe). rewrite lookup_insert_ne; [by exists xh|]. intros <-. congruence. }
  split; cbn [set_lists thread_list sleeping_threads exited_threads threads current wqs]; auto.
  - apply NoDup_app in ND as (N1 & N2 & N3). apply NoDup_app. split; [|split; [|done]].
    + apply NoDup_app. split; [done|]. split; [|apply NoDup_singleton].
      intros x Hx ->%list_elem_of_singleton. tauto.
    + intros x Hx. rewrite elem_of_app, list_elem_of_singleton in Hx. destruct Hx as [Hx| ->]; [by apply N2|].
      rewrite elem_of_app. tauto.
  - intros x Hx. destruct (decide (x = t)) as [->|]; [by rewrite lookup_insert_eq|]. apply Hback, D.
    rewrite !elem_of_app, list_elem_of_singleton in *. tauto.
  - intros x xh Hx. rewrite elem_of_app, list_elem_of_singleton.
    apply Hlook in Hx as [[-> ->]|[Hxt Hx]]; [tauto|]. rewrite <- (R x xh Hx). tauto.
  - intros x xh Hx. apply Hlook in Hx as [[-> ->]|[Hxt Hx]]; [|by apply S]. rewrite F1. (intuition congruence).
  - intros x xh Hx. apply Hlook in Hx as [[-> ->]|[Hxt Hx]]; [|by apply X]. rewrite F2. (intuition congruence).
  - intros x xh Hx. apply Hlook in Hx as [[-> ->]|[Hxt Hx]]; [congruence|by apply (ST x)].
  - intros xh Hx. apply Hlook in Hx as [[H0 ->]|[Hxt Hx]]; [congruence|by apply Q].
  - intros xh Hx. apply Hlook in Hx as [[H0 ->]|[Hxt Hx]]; [done|by apply CQ].
  - intros w q x Hw Hx. apply Hlive. by eapply W.
  - intros x xh y Hx Hy. apply Hlook in Hx as [[-> ->]|[Hxt Hx]].
    + rewrite F4 in Hy. by apply not_elem_of_nil in Hy.
    + apply Hlive. by eapply WT.
Qed.

(** ** Exit *)

(** The thread [t] has no entry in a wait queue. *)
Definition not_waiting (s : uk_sched) (t : Z) : Prop :=
  (forall w q, wqs s !! w = Some q -> t ∉ q) /\
  (forall x xh, threads s !! x = Some xh -> t ∉ waiting_threads xh).

Definition with_exited (s : uk_sched) (t : Z) : uk_sched :=
  set_lists s (thread_list s) (sleeping_threads s) (t :: exited_threads s).

(** Waking other threads does not see the exited ones. *)
Lemma linked_with_exited s t x : x <> t -> linked (with_exited s t) x = linked s x.
Proof.
  intros Hx. apply eq_true_iff_eq. rewrite !linked_spec. cbn [with_exited set_lists thread_list
    sleeping_threads exited_threads]. rewrite elem_of_cons. tauto.
Qed.

Lemma insert_with_exited s t x : x <> t ->
  run_insert_tail (with_exited s t) x = option_map (fun s => with_exited s t) (run_insert_tail s x).
Proof. intros Hx. unfold run_insert_tail. rewrite linked_with_exited by done. by destruct (linked s x). Qed.

Lemma update_with_exited s t x f :
  update (with_exited s t) x f = option_map (fun s => with_exited s t) (update s x f).
Proof. unfold update. cbn. by destruct (threads s !! x). Qed.

Lemma wake_with_exited s t x : x <> t ->
  uk_thread_wake (with_exited s t) x = option_map (fun s => with_exited s t) (uk_thread_wake s x).
Proof.
  intros Hx. unfold uk_thread_wake, schedcoop_thread_woken. cbn [with_exited set_lists threads].
  destruct (threads s !! x) as [th|]; [|done]. cbn [mbind option_bind].
  destruct (negb (is_runnable th)); [|done].
  assert (E : (if 0 <? wakeup_time th then sleep_remove (with_exited s t) x else Some (with_exited s t)) =
    option_map (fun s => with_exited s t)
      (if 0 <? wakeup_time th then sleep_remove s x else Some s)).
  { destruct (0 <? wakeup_time th); [|done]. unfold sleep_remove. cbn.
    by destruct (tailq_remove x (sleeping_threads s)). }
  change (set_lists s (thread_list s) (sleeping_threads s) (t :: exited_threads s)) with (with_exited s t).
  rewrite E. destruct (if 0 <? wakeup_time th then sleep_remove s x else Some s) as [s1|]; [|done].
  cbn [option_map option_fmap option_bind mbind]. change (current (with_exited s1 t)) with (current s1).
  assert (Hrest : forall o, (s2 ← option_map (fun s => with_exited s t) o;
      s3 ← update s2 x (set_wakeup 0); update s3 x set_runnable) =
    option_map (fun s => with_exited s t)
      (s2 ← o; s3 ← update s2 x (set_wakeup 0); update s3 x set_runnable)).
  { intros [s2|]; [|done]. cbn [option_map mbind option_bind]. rewrite update_with_exited.
    destruct (update s2 x (set_wakeup 0)) as [s3|]; [|done]. cbn [option_map mbind option_bind].
    apply update_with_exited. }
  rewrite <- Hrest. f_equal.
  destruct (negb (x =? current s1) || is_queueable th); [|done].
  rewrite insert_with_exited by done. destruct (run_insert_tail s1 x) as [s2|]; [|done].
  cbn [option_map mbind option_bind]. apply update_with_exited.
Qed.

Lemma wake_all_with_exited t l : forall s, t ∉ l ->
  wake_all (with_exited s t) l = option_map (fun s => with_exited s t) (wake_all s l).
Proof.
  induction l as [|x l IH]; intros s Ht; cbn [wake_all]; [done|].
  apply not_elem_of_cons in Ht as [Hx Ht]. rewrite wake_with_exited by congruence.
  destruct (uk_thread_wake s x) as [s1|]; [|done]. cbn [option_map mbind option_bind]. by apply IH.
Qed.

(** The state after the thread [t] was taken off the run queue and marked as exited. *)
Definition exiting (s : uk_sched) (t : Z) (th : uk_thread) : uk_sched :=
  Sched (<[t := set_exited (clear_runnable th)]> (threads s)) (current s)
    (filter (fun x => x <> t) (thread_list s)) (sleeping_threads s) (exited_threads s) (wqs s).

Lemma exiting_inv s t th :
  inv (current s) s -> threads s !! t = Some th -> is_runnable th = true -> not_waiting s t ->
  inv (current s) (with_exited (exiting s t th) t).
Proof.
  intros V Ht Hr [NW1 NW2]. pose proof V as [ND D C CU R S X ST NX Q CQ W WT].
  set (th' := set_exited (clear_runnable th)).
  assert (F1 : is_runnable th' = false) by (unfold th'; by autorewrite with flags).
  assert (F2 : is_exited th' = true) by (unfold th'; by autorewrite with flags).
  assert (F3 : is_queueable th' = is_queueable th) by (unfold th'; by autorewrite with flags).
  assert (He : is_exited th = false).
  { destruct (is_exited th) eqn:E; [|done]. specialize (ST t th Ht E). congruence. }
  assert (Hns : t ∉ sleeping_threads s) by (rewrite (S t th Ht), Hr; intuition congruence).
  assert (Hne : t ∉ exited_threads s) by (rewrite (X t th Ht); congruence).
  assert (Hlook : forall x xh, <[t := th']> (threads s) !! x = Some xh ->
    x = t /\ xh = th' \/ x <> t /\ threads s !! x = Some xh).
  { intros x xh. destruct (decide (x = t)) as [->|].
    - rewrite lookup_insert_eq. intros [= <-]. by left.
    - rewrite lookup_insert_ne by done. by right. }
  assert (Hback : forall x, is_Some (threads s !! x) -> is_Some (<[t := th']> (threads s) !! x)).
  { intros x Hx. destruct (decide (x = t)) as [->|]; [by rewrite lookup_insert_eq|by rewrite lookup_insert_ne]. }
  split; cbn [with_exited exiting set_lists thread_list sleeping_threads exited_threads threads current
    wqs]; fold th'; auto.
  - apply NoDup_app in ND as (N1 & N2 & N3). apply NoDup_app in N3 as (N3 & N4 & N5).
    apply NoDup_app. split; [by apply NoDup_filter|]. split.
    + intros x [Hx1 Hx2]%elem_of_filter_ne. specialize (N2 x Hx2).
      rewrite elem_of_app, elem_of_cons. rewrite elem_of_app in N2. tauto.
    + apply NoDup_app. split; [done|]. split; [|by apply NoDup_cons].
      intros x Hx. rewrite elem_of_cons. intros [->|Hx2]; [done|]. by apply (N4 x).
  - intros x Hx. apply Hback. destruct (decide (x = t)) as [->|]; [by exists th|]. apply D.
    rewrite !elem_of_app, elem_of_filter_ne, elem_of_cons in Hx. rewrite !elem_of_app. tauto.
  - intros x xh Hx. rewrite elem_of_filter_ne. apply Hlook in Hx as [[-> ->]|[Hxt Hx]].
    + rewrite F1. intuition congruence.
    + rewrite <- (R x xh Hx). tauto.
  - intros x xh Hx. apply Hlook in Hx as [[-> ->]|[Hxt Hx]]; [|by apply S].
    rewrite F2. intuition congruence.
  - intros x xh Hx. rewrite elem_of_cons. apply Hlook in Hx as [[-> ->]|[Hxt Hx]].
    + rewrite F2. tauto.
    + rewrite <- (X x xh Hx). tauto.
  - intros x xh Hx. apply Hlook in Hx as [[-> ->]|[Hxt Hx]]; [done|by apply (ST x)].
  - intros xh Hx. apply Hlook in Hx as [[H0 ->]|[Hxt Hx]]; [|by apply Q]. intros _.
    rewrite F3, Z.eqb_refl. apply CQ. by rewrite H0.
  - intros xh Hx. apply Hlook in Hx as [[H0 ->]|[Hxt Hx]]; [|by apply CQ].
    rewrite F3. apply CQ. by rewrite H0.
  - intros w q x Hw Hx. destruct (W w q x Hw Hx) as (xh & H1 & H2). exists xh.
    rewrite lookup_insert_ne; [done|]. intros <-. by apply (NW1 w q).
  - intros x xh y Hx Hy.
    assert (Hw : exists yh, threads s !! y = Some yh /\ is_exited yh = false /\ y <> t).
    { apply Hlook in Hx as [[-> ->]|[Hxt Hx]].
      - destruct (WT t th y Ht Hy) as (yh & H1 & H2). exists yh. split; [done|]. split; [done|].
        intros ->. by apply (NW2 t th Ht).
      - destruct (WT x xh y Hx Hy) as (yh & H1 & H2). exists yh. split; [done|]. split; [done|].
        intros ->. by apply (NW2 x xh Hx). }
    destruct Hw as (yh & H1 & H2 & H3). exists yh. by rewrite lookup_insert_ne.
Qed.

(** A runnable thread that waits for nothing exits, by itself or by order; who waits for it is
    woken. *)
Lemma exit_spec s t th :
  inv (current s) s -> threads s !! t = Some th -> is_runnable th = true -> not_waiting s t ->
  exists s' extra, schedcoop_thread_remove s t = Some s' /\ inv (current s) s' /\
    current s' = current s /\ thread_list s' = filter (fun x => x <> t) (thread_list s) ++ extra.
Proof.
  intros V Ht Hr NW. pose proof (exiting_inv s t th V Ht Hr NW) as V2.
  set (s1 := exiting s t th) in *.
  assert (E1 : exists s0, (if negb (t =? current s) then run_remove s t else Some s) = Some s0 /\
    s0 = set_lists s (filter (fun x => x <> t) (thread_list s)) (sleeping_threads s) (exited_threads s)).
  { destruct (Z.eqb_spec t (current s)) as [E|E]; cbn [negb].
    - exists s. split; [done|]. rewrite filter_ne_id; [by destruct s|].
      rewrite (v_run _ _ V t th Ht). tauto.
    - unfold run_remove. rewrite tailq_remove_ok; [by eexists|]. by apply (v_run _ _ V t th Ht). }
  destruct E1 as (s0 & E1 & ->). unfold schedcoop_thread_remove. rewrite E1. cbn [mbind option_bind].
  rewrite (update_ok _ t th) by done. cbn [mbind option_bind]. unfold uk_thread_exit.
  rewrite (update_ok _ t (clear_runnable th)) by apply lookup_insert_eq.
  cbn [mbind option_bind threads current thread_list sleeping_threads exited_threads wqs set_lists].
  rewrite insert_insert_eq, lookup_insert_eq. cbn [mbind option_bind].
  change (Sched _ _ _ _ _ _) with s1.
  change (detached (set_exited (clear_runnable th))) with (detached th).
  change (waiting_threads (set_exited (clear_runnable th))) with (waiting_threads th).
  assert (Hw : exists s2, (if negb (detached th) then wake_all s1 (waiting_threads th) else Some s1) = Some s2 /\
    inv (current s) (with_exited s2 t) /\ grows (with_exited s1 t) (with_exited s2 t)).
  { destruct (negb (detached th)); [|exists s1; split; [done|]; split; [done|]; apply grows_refl].
    destruct NW as [_ NW2].
    destruct (wake_all_spec (current s) (waiting_threads th) (with_exited s1 t) V2)
      as (s2 & E2 & V3 & G3 & _).
    { apply Forall_forall. intros x Hx.
      apply (v_waiting _ _ V2 t (set_exited (clear_runnable th)) x); [apply lookup_insert_eq|done]. }
    rewrite wake_all_with_exited in E2 by (by apply (NW2 t th)).
    destruct (wake_all s1 (waiting_threads th)) as [s3|]; [|done]. cbn in E2. injection E2 as <-.
    by exists s3. }
  destruct Hw as (s2 & -> & V3 & G3). cbn [mbind option_bind].
  assert (Hl : linked s2 t = false).
  { pose proof (v_nodup _ _ V3) as N. cbn [with_exited set_lists thread_list sleeping_threads
      exited_threads] in N. apply NoDup_app in N as (_ & N2 & N3).
    apply NoDup_app in N3 as (_ & N4 & N5). apply NoDup_cons in N5 as [N5 _].
    apply linked_false; [| |done].
    - intros Hx. apply (N2 t Hx). rewrite elem_of_app, elem_of_cons. tauto.
    - intros Hx. apply (N4 t Hx). apply list_elem_of_here. }
  destruct (g_list _ _ G3) as [extra El].
  exists (with_exited s2 t), extra. unfold exited_insert_head. rewrite Hl. split; [done|].
  split; [done|]. split; [apply (g_current _ _ G3)|]. exact El.
Qed.

(** ** Everything the threads do *)

(** The calls of the running thread.  Waiting for an event, or for a thread, is a block followed by
    a call of the scheduler as long as the condition does not hold, and an end when it does. *)
Inductive op :=
  | Yield (events : list event) | Sleep (now nsec : Z) | Idle | Wake (t : Z) | WakeUp (w : Z)
  | WaitBlock (w deadline : Z) | WaitDone (w : Z) | JoinBlock (t : Z) | JoinDone (t : Z)
  | Spawn (t : Z) (det : option bool) | Detach (t : Z) | Exit | Kill (t : Z) | NewQueue (w : Z).

Definition run_op (o : op) (s : uk_sched) : option uk_sched :=
  match o with
  | Yield events => '(s, _) ← schedcoop_schedule s events; Some s
  | Sleep now nsec => uk_sched_thread_sleep s now nsec
  | Idle => uk_thread_block s (current s)
  | Wake t => uk_thread_wake s t
  | WakeUp w => uk_waitq_wake_up s w
  | WaitBlock w deadline => wait_event_block s w deadline
  | WaitDone w => wait_event_done s w
  | JoinBlock t => thread_wait_block s t
  | JoinDone t => thread_wait_done s t
  | Spawn t det => uk_sched_thread_create s t det
  | Detach t => uk_thread_detach s t
  | Exit => schedcoop_thread_remove s (current s)
  | Kill t => schedcoop_thread_remove s t
  | NewQueue w => Some (set_wqs s (<[w := []]> (wqs s)))
  end.

(** The thread that runs is not on its way into another block, nor gone. *)
Definition ready (s : uk_sched) : Prop := live s (current s) /\ current s ∉ sleeping_threads s.

Definition allowed (o : op) (s : uk_sched) : Prop :=
  match o with
  | Yield events => events_live s events
  | Sleep _ _ | Idle => ready s
  | Wake t => live s t
  | WakeUp w => is_Some (wqs s !! w)
  | WaitBlock w _ => ready s /\ is_Some (wqs s !! w)
  | WaitDone w => live s (current s) /\ is_Some (wqs s !! w)
  | JoinBlock t => ready s /\ is_Some (threads s !! t)
  | JoinDone t => live s (current s) /\ exists th, threads s !! t = Some th /\ is_exited th = true
  | Spawn t _ => threads s !! t = None
  | Detach t => is_Some (threads s !! t)
  | Exit => can_run s (current s) /\ not_waiting s (current s)
  | Kill t => t <> current s /\ can_run s t /\ not_waiting s t
  | NewQueue w => wqs s !! w = None
  end.

(** What an operation does to the run queue. *)
Definition queue_effect (o : op) (s s' : uk_sched) : Prop :=
  match o with
  | Yield _ => can_run s' (current s') /\ round_robin s (current s') s'
  | Kill t => current s' = current s /\
      exists extra, thread_list s' = filter (fun x => x <> t) (thread_list s) ++ extra
  | _ => current s' = current s /\ exists extra, thread_list s' = thread_list s ++ extra
  end.

Lemma inv_wqs c s m :
  inv c s -> (forall w q t, m !! w = Some q -> t ∈ q -> live s t) -> inv c (set_wqs s m).
Proof. intros [ND D C CU R S X ST NX Q CQ W WT] H. by split. Qed.

Lemma grows_extra s s' : grows s s' ->
  current s' = current s /\ exists extra, thread_list s' = thread_list s ++ extra.
Proof. intros [A _ _ B _]. done. Qed.

Lemma block_op s s1 until :
  inv (current s) s1 -> current s1 = current s -> thread_list s1 = thread_list s ->
  live s1 (current s) -> current s ∉ sleeping_threads s1 ->
  exists s', uk_thread_block_until s1 (current s) until = Some s' /\ inv (current s') s' /\
    current s' = current s /\ exists extra, thread_list s' = thread_list s ++ extra.
Proof.
  intros V Ec El (th & Ht & He) Hs.
  destruct (block_spec s1 th until) as (s' & E & V' & E' & L' & _); rewrite ?Ec; try done.
  rewrite Ec in *. exists s'. rewrite E'. split; [done|]. split; [done|]. split; [done|]. exists [].
  by rewrite app_nil_r, L'.
Qed.

Lemma op_spec o s :
  inv (current s) s -> allowed o s ->
  (match o with Yield events => will_run s events | _ => True end -> is_Some (run_op o s)) /\
  forall s', run_op o s = Some s' -> inv (current s') s' /\ queue_effect o s s'.
Proof.
  intros V Ha.
  assert (Done : forall s', inv (current s') s' -> current s' = current s ->
    (exists extra, thread_list s' = thread_list s ++ extra) ->
    match o with Yield _ | Kill _ => False | _ => True end -> inv (current s') s' /\ queue_effect o s s').
  { intros s' V' E L H. split; [done|]. by destruct o. }
  assert (Same : exists extra, thread_list s = thread_list s ++ extra) by (exists []; by rewrite app_nil_r).
  destruct o as [events|now nsec| |t|w|w deadline|w|t|t|t det|t| |t|w]; cbn [run_op allowed] in *.
  - destruct (schedule_spec s events V Ha) as [H1 H2]. split.
    + intros Hw. destruct (H1 Hw) as [[s' h] ->]. by eexists.
    + intros s'. destruct (schedcoop_schedule s events) as [[s1 h]|] eqn:E; [|done]. cbn.
      intros [= <-]. destruct (H2 s1 h eq_refl) as (V' & R' & RR). done.
  - destruct Ha as [Hl Hs]. destruct (block_op s s (sext 64 (now + nsec)) V eq_refl eq_refl Hl Hs)
      as (s1 & E & V' & E' & L'). unfold uk_sched_thread_sleep, uk_thread_block_timeout.
    rewrite E. split; [by eexists|]. intros s' [= <-]. by apply Done.
  - destruct Ha as [Hl Hs]. destruct (block_op s s 0 V eq_refl eq_refl Hl Hs)
      as (s1 & E & V' & E' & L'). unfold uk_thread_block.
    rewrite E. split; [by eexists|]. intros s' [= <-]. by apply Done.
  - destruct (wake_spec _ s t V Ha) as (s1 & -> & V1 & A1). split; [by eexists|]. intros s' [= <-].
    destruct (grows_extra _ _ (after_wake_grows _ _ _ _ A1)). apply Done; try done. congruence.
  - destruct Ha as [q Hq]. unfold uk_waitq_wake_up. rewrite Hq. cbn [mbind option_bind].
    destruct (wake_all_spec _ q s V) as (s1 & -> & V1 & G1 & _).
    { apply Forall_forall. intros x Hx. by eapply (v_wqs _ _ V). }
    split; [by eexists|]. intros s' [= <-]. destruct (grows_extra _ _ G1). apply Done; try done. congruence.
  - destruct Ha as [[Hl Hs] [q Hq]]. unfold wait_event_block. rewrite Hq. cbn [mbind option_bind].
    set (s1 := set_wqs s _). assert (V1 : inv (current s) s1).
    { apply inv_wqs; [done|]. intros w' q' t. destruct (decide (w' = w)) as [->|].
      - rewrite lookup_insert_eq. intros [= <-]. unfold uk_waitq_add. case_bool_decide.
        + by apply (v_wqs _ _ V w).
        + rewrite elem_of_app, list_elem_of_singleton. intros [H0| ->]; [by apply (v_wqs _ _ V w q)|done].
      - rewrite lookup_insert_ne by done. apply (v_wqs _ _ V w'). }
    destruct (block_op s s1 deadline V1 eq_refl eq_refl Hl Hs) as (s2 & E & V' & E' & L').
    rewrite E. split; [by eexists|]. intros s' [= <-]. by apply Done.
  - destruct Ha as [Hl [q Hq]]. unfold wait_event_done.
    destruct (wake_spec _ s _ V Hl) as (s1 & -> & V1 & A1). cbn [mbind option_bind].
    pose proof (after_wake_grows _ _ _ _ A1) as G1. destruct (grows_extra _ _ G1) as [Ec El].
    rewrite (g_wqs _ _ G1), Hq. cbn [mbind option_bind]. split; [by eexists|]. intros s' [= <-].
    apply Done; try done. cbn [current set_wqs]. rewrite Ec. apply inv_wqs; [done|].
    intros w' q' t Hw Ht. destruct (decide (w' = w)) as [->|].
    + rewrite lookup_insert_eq in Hw. injection Hw as <-. apply elem_of_filter_ne in Ht as [_ Ht].
      apply (v_wqs _ _ V1 w q); [by rewrite (g_wqs _ _ G1)|done].
    + rewrite lookup_insert_ne in Hw by done. apply (v_wqs _ _ V1 w' q'); [by rewrite (g_wqs _ _ G1)|done].
  - destruct Ha as [[Hl Hs] [th Ht]]. unfold thread_wait_block. rewrite Ht. cbn [mbind option_bind].
    rewrite (update_ok s t th) by done. cbn [mbind option_bind].
    set (s1 := Sched _ _ _ _ _ _). assert (V1 : inv (current s) s1).
    { apply (inv_update _ s t th); try done. cbn [waiting_threads set_waiting].
      intros x. unfold uk_waitq_add. case_bool_decide.
      - by apply (v_waiting _ _ V t).
      - rewrite elem_of_app, list_elem_of_singleton. intros [H0| ->]; [by apply (v_waiting _ _ V t th)|done]. }
    assert (Hl1 : live s1 (current s)).
    { destruct Hl as (ch & Hc & He). destruct (decide (current s = t)) as [E|E].
      - exists (set_waiting (uk_waitq_add (waiting_threads th) (current s)) th). cbn [threads s1].
        rewrite E, lookup_insert_eq. split; [done|].
        rewrite E in Hc. assert (ch = th) as -> by congruence. done.
      - exists ch. cbn [threads s1]. by rewrite lookup_insert_ne. }
    destruct (block_op s s1 0 V1 eq_refl eq_refl Hl1 Hs) as (s2 & E & V' & E' & L').
    rewrite E. split; [by eexists|]. intros s' [= <-]. by apply Done.
  - destruct Ha as [Hl (th & Ht & He)]. unfold thread_wait_done.
    destruct (wake_spec _ s _ V Hl) as (s1 & -> & V1 & A1). cbn [mbind option_bind].
    pose proof (after_wake_grows _ _ _ _ A1) as G1. destruct (grows_extra _ _ G1) as [Ec [extra El]].
    assert (Hne : t <> current s) by (intros ->; destruct Hl as (ch & ? & ?); congruence).
    destruct (g_threads _ _ G1 t th Ht) as (th1 & Ht1 & He1 & _).
    rewrite Ht1. cbn [mbind option_bind]. rewrite (update_ok s1 t th1) by done. cbn [mbind option_bind].
    rewrite (update_ok _ t (set_waiting (uk_waitq_remove (waiting_threads th1) (current s)) th1))
      by apply lookup_insert_eq.
    cbn [mbind option_bind threads current thread_list sleeping_threads exited_threads wqs].
    rewrite insert_insert_eq. set (th2 := set_detached _).
    assert (V2 : inv (current s) (Sched (<[t := th2]> (threads s1)) (current s1) (thread_list s1)
      (sleeping_threads s1) (exited_threads s1) (wqs s1))).
    { apply (inv_update _ s1 t th1); try done. intros x. cbn [waiting_threads th2 set_detached set_waiting].
      intros [_ Hx]%elem_of_filter_ne. by apply (v_waiting _ _ V1 t th1). }
    destruct (destroy_spec (current s) _ t th2 V2) as (s3 & E3 & V3 & Ec3 & L3 & _);
      [apply lookup_insert_eq|unfold th2; by rewrite <- He, <- He1|done|cbn; congruence|].
    rewrite E3. cbn [current thread_list] in Ec3, L3. split; [by eexists|]. intros s' [= <-].
    apply Done; [congruence|congruence|exists extra; congruence|done].
  - destruct (thread_create_spec _ s t det V eq_refl Ha) as (s1 & -> & V1 & E1 & L1). split; [by eexists|].
    intros s' [= <-]. apply Done; [by rewrite E1|done|by exists [t]|done].
  - destruct Ha as [th Ht]. unfold uk_thread_detach. rewrite (update_ok s t th) by done.
    split; [by eexists|]. intros s' [= <-]. apply Done; try done. cbn [current].
    apply (inv_update _ s t th); try done. intros x. by apply (v_waiting _ _ V t th).
  - destruct Ha as [(th & Ht & Hr) NW]. destruct (exit_spec s _ th V Ht Hr NW) as (s1 & extra & -> & V1 & E1 & L1).
    split; [by eexists|]. intros s' [= <-]. apply Done; [by rewrite E1|done| |done].
    exists extra. rewrite L1, filter_ne_id; [done|]. rewrite (v_run _ _ V _ th Ht). tauto.
  - destruct Ha as (Hne & (th & Ht & Hr) & NW). destruct (exit_spec s _ th V Ht Hr NW) as (s1 & extra & -> & V1 & E1 & L1).
    split; [by eexists|]. intros s' [= <-]. split; [by rewrite E1|]. split; [done|]. by exists extra.
  - split; [by eexists|]. intros s' [= <-]. apply Done; try done. cbn [current set_wqs].
    apply inv_wqs; [done|]. intros w' q' t Hw Hq. destruct (decide (w' = w)) as [->|].
    + rewrite lookup_insert_eq in Hw. injection Hw as <-. by apply not_elem_of_nil in Hq.
    + rewrite lookup_insert_ne in Hw by done. by apply (v_wqs _ _ V w' q').
Qed.

(** The scheduler right after its start: the idle thread runs. *)
Definition uk_schedcoop_init (idle : Z) : uk_sched :=
  Sched {[idle := set_started uk_thread_init]} idle [] [] [] ∅.

Lemma sched_init_inv idle : inv idle (uk_schedcoop_init idle).
Proof.
  assert (Hl : forall x xh, threads (uk_schedcoop_init idle) !! x = Some xh ->
    x = idle /\ xh = set_started uk_thread_init) by (intros x xh H; cbn in H; by apply lookup_singleton_Some in H as [-> <-]).
  split; cbn [uk_schedcoop_init threads current thread_list sleeping_threads exited_threads wqs].
  - constructor.
  - intros t Ht. by apply not_elem_of_nil in Ht.
  - by rewrite lookup_singleton_eq.
  - by rewrite lookup_singleton_eq.
  - intros t th [-> ->]%Hl. rewrite elem_of_nil. split; [done|by intros [_ ?]].
  - intros t th [-> ->]%Hl. rewrite elem_of_nil. split; [done|]. intros (_ & H & _). cbn in H. lia.
  - intros t th [-> ->]%Hl. by rewrite elem_of_nil.
  - by intros t th [-> ->]%Hl.
  - done.
  - intros th [_ ->]%Hl _. by rewrite Z.eqb_refl.
  - by intros th [_ ->]%Hl.
  - intros w q t. by rewrite lookup_empty.
  - intros x xh t [-> ->]%Hl Ht. by apply not_elem_of_nil in Ht.
Qed.

Inductive reachable (idle : Z) : uk_sched -> Prop :=
| reach_init : reachable idle (uk_schedcoop_init idle)
| reach_step s o s' : reachable idle s -> allowed o s -> run_op o s = Some s' -> reachable idle s'.

Lemma sched_reachable_inv idle s : reachable idle s -> inv (current s) s.
Proof.
  induction 1 as [|s o s' _ IH Ha Hs]; [apply sched_init_inv|]. by apply (op_spec o s IH Ha).
Qed.

(** C11: in every state the threads reach by the operations of [allowed], the run queue holds every
    thread that can run apart from the running one, once; the sleeping list holds the blocked
    threads with a timeout, the exited list the exited ones; and every operation of [allowed] goes
    through: no list is corrupted and no assertion fails, and the scheduler returns as soon as
    there is a thread to run ([will_run]).  A thread exits or is killed only while it can run and
    is in no wait queue: to remove a blocked one is not allowed, because the code takes it off the
    run queue, where it is not ([remove_blocked_corrupts]). *)
Theorem sched_safe idle s :
  reachable idle s ->
  NoDup (thread_list s ++ sleeping_threads s ++ exited_threads s) /\
  (forall t th, threads s !! t = Some th ->
     (t ∈ thread_list s <-> is_runnable th = true /\ t <> current s) /\
     (t ∈ sleeping_threads s <-> is_runnable th = false /\ 0 < wakeup_time th /\ is_exited th = false) /\
     (t ∈ exited_threads s <-> is_exited th = true)) /\
  (forall o, allowed o s -> match o with Yield events => will_run s events | _ => True end ->
     is_Some (run_op o s)).
Proof.
  intros V%sched_reachable_inv. split; [apply (v_nodup _ _ V)|]. split.
  - intros t th Ht. split; [by apply (v_run _ _ V)|]. split; [by apply (v_sleep _ _ V)|by apply (v_exited _ _ V)].
  - intros o Ha. by apply (op_spec o s V Ha).
Qed.

(** ** Fairness *)

(** The operations go through one after the other. *)
Fixpoint executes (ops : list op) (s : uk_sched) : Prop :=
  match ops with
  | [] => True
  | o :: ops' => allowed o s /\ match run_op o s with Some s' => executes ops' s' | None => False end
  end.
Fixpoint final (ops : list op) (s : uk_sched) : option uk_sched :=
  match ops with [] => Some s | o :: ops' => s ← run_op o s; final ops' s end.
(** At some point of it [t] runs. *)
Fixpoint runs (t : Z) (ops : list op) (s : uk_sched) : Prop :=
  current s = t \/
  match ops with
  | [] => False
  | o :: ops' => match run_op o s with Some s' => runs t ops' s' | None => False end
  end.
Fixpoint yields (ops : list op) : nat :=
  match ops with [] => 0%nat | Yield _ :: ops' => S (yields ops') | _ :: ops' => yields ops' end.

Lemma final_reachable idle ops : forall s s',
  reachable idle s -> executes ops s -> final ops s = Some s' -> reachable idle s'.
Proof.
  induction ops as [|o ops IH]; cbn [executes final]; intros s s' R He E.
  - by injection E as <-.
  - destruct He as [Ha He]. destruct (run_op o s) as [s1|] eqn:E1; [|done]. cbn in E.
    apply (IH s1 s'); [|done|done]. by apply (reach_step _ s o s1).
Qed.

Lemma round_robin_runs t ops : forall s l1 l2,
  inv (current s) s -> thread_list s = l1 ++ t :: l2 -> executes ops s -> Kill t ∉ ops ->
  (length l1 < yields ops)%nat -> runs t ops s.
Proof.
  induction ops as [|o ops IH]; intros s l1 l2 V El He Hk Hy; [cbn in Hy; lia|].
  apply not_elem_of_cons in Hk as [Hko Hk]. destruct He as [Ha He]. right.
  destruct (run_op o s) as [s'|] eqn:E; [|done].
  destruct (proj2 (op_spec o s V Ha) s' E) as [V' Q].
  assert (Append : (exists extra, thread_list s' = thread_list s ++ extra) ->
    (length l1 < yields ops)%nat -> runs t ops s').
  { intros [extra L'] Hy'. apply (IH s' l1 (l2 ++ extra)); try done.
    by rewrite L', El, <- app_assoc. }
  destruct o; cbn [queue_effect yields] in *; try (by apply Append; [apply Q|]).
  - destruct Q as [_ (extra & RR)]. rewrite El in RR. destruct l1 as [|n l1]; cbn [app] in RR.
    + destruct RR as [Hc _]. destruct ops; cbn [runs]; by left.
    + destruct RR as [_ (later & _ & L')]. apply (IH s' l1 (l2 ++ extra ++ later)); try done.
      * rewrite L'. by rewrite <- !app_assoc.
      * cbn [length] in Hy. lia.
  - destruct Q as [_ [extra L']].
    assert (Ht : t <> t0) by congruence.
    apply (IH s' (filter (fun x => x <> t0) l1) (filter (fun x => x <> t0) l2 ++ extra)); try done.
    + rewrite L', El, filter_app, filter_cons_True by done. by rewrite <- app_assoc.
    + pose proof (length_filter (fun x => x <> t0) l1). lia.
Qed.


(** ** Timeouts *)

(** Who can run after a pass over the sleeping threads can run when the loop ends. *)
Lemma loop_can_run events : forall e s s1 m s' next halts t,
  inv (current s) s -> events_live s (e :: events) ->
  wake_expired s (now e) (now e + 10000000000) (sleeping_threads s) = Some (s1, m) ->
  schedule_loop s (e :: events) = Some (s', next, halts) -> can_run s1 t -> can_run s' t.
Proof.
  induction events as [|e' events IH]; intros e s s1 m s' next halts t V Hev E1 Hl Ht;
    apply Forall_cons in Hev as [He Hev].
  all: edestruct (pass_spec s e) as (s1' & m' & E1' & V1 & G1 & P); [done|done|].
  all: rewrite E1 in E1'; injection E1' as <- <-.
  all: destruct P as [s2 El1 Hc V2 G2 Eq|n rest pth nth s2 El1 Hp Hn Hr V2 G2 Eq|s2 El1 Hc V2 G2 _ _ Eq];
    rewrite Hl in Eq.
  all: try (injection Eq as Eq _ _; rewrite Eq; apply (grows_can_run _ _ _ G2); first
    [exact Ht|apply chosen_can_run; [by rewrite (g_current _ _ G1)|done|done]]).
  - done.
  - pose proof (grows_trans _ _ _ G1 G2) as G12.
    assert (Ec2 : current s2 = current s) by apply (g_current _ _ G12).
    destruct (schedule_loop s2 (e' :: events)) as [[[s3 n3] h3]|] eqn:E3; [|done]. cbn in Eq.
    injection Eq as -> _ _.
    assert (Hev2 : events_live s2 (e' :: events)) by (apply (keeps_events s); [exact (grows_keeps _ _ G12)|exact Hev]).
    assert (V2' : inv (current s2) s2) by (by rewrite Ec2).
    destruct (pass_spec s2 e' events V2') as (s4 & m4 & E4 & _ & G4 & _).
    { by apply Forall_cons in Hev2 as [? _]. }
    apply (IH e' s2 s4 m4 s3 n3 h3 t V2' Hev2 E4 E3).
    by apply (grows_can_run _ _ _ G4), (grows_can_run _ _ _ G2).
Qed.

Lemma schedule_can_run s events s' halts t :
  inv (current s) s -> events_live s events -> schedcoop_schedule s events = Some (s', halts) ->
  (forall s1 next h, schedule_loop s events = Some (s1, next, h) -> can_run s1 t) -> can_run s' t.
Proof.
  intros V Hev. pose proof (loop_spec events s V Hev) as HL. unfold schedcoop_schedule.
  destruct (schedule_loop s events) as [[[s1 next] h]|] eqn:E; [|done]. cbn [mbind option_bind].
  destruct HL as (V1 & _ & R1 & _). pose proof R1 as (nth & Hn & Hnr). rewrite Hn. cbn [mbind option_bind].
  pose proof (inv_switch next s1 V1 R1) as V2. set (s2 := set_current s1 next) in *.
  rewrite (update_ok s2 next nth) by done. cbn [mbind option_bind].
  assert (V3 : inv next (Sched (<[next := set_started nth]> (threads s2)) (current s2) (thread_list s2)
    (sleeping_threads s2) (exited_threads s2) (wqs s2))).
  { apply (inv_update next s2 next nth); try done. intros x Hx. by apply (v_waiting _ _ V2 next nth). }
  set (s3 := Sched _ _ _ _ _ _) in *. intros H Hc. destruct (Hc s1 next h eq_refl) as (th & Ht & Hr).
  assert (C3 : can_run s3 t).
  { unfold can_run. cbn [threads s3 s2 set_current]. destruct (decide (t = next)) as [->|].
    - rewrite lookup_insert_eq. by eexists.
    - rewrite lookup_insert_ne by done. by exists th. }
  destruct (fresh nth); [by injection H as <- _|].
  destruct (reap_spec next (exited_threads s3) s3 V3 eq_refl) as (s4 & E4 & _ & _ & _ & T4).
  { pose proof (v_nodup _ _ V3) as N. apply NoDup_app in N as (_ & _ & N).
    by apply NoDup_app in N as (_ & _ & N). }
  { done. }
  rewrite E4 in H. injection H as <- _. destruct C3 as (th3 & Ht3 & Hr3). exists th3. split; [|done].
  apply T4; [done|]. left. destruct (is_exited th3) eqn:Ee; [|done].
  pose proof (v_stop _ _ V3 t th3 Ht3 Ee). congruence.
Qed.

(** A sleeping thread whose time has come when the scheduler reads the clock can run when the
    scheduler returns; and the scheduler never halts beyond the wake-up time of a sleeping
    thread, nor for more than ten seconds. *)
Theorem sched_timeouts idle s e events :
  reachable idle s -> events_live s (e :: events) ->
  (forall t th s' halts, t ∈ sleeping_threads s -> threads s !! t = Some th -> wakeup_time th <= now e ->
     schedcoop_schedule s (e :: events) = Some (s', halts) -> can_run s' t) /\
  (forall s' next h halts, schedule_loop s (e :: events) = Some (s', next, h :: halts) ->
     h <= now e + 10000000000 /\
     forall t th, t ∈ sleeping_threads s -> threads s !! t = Some th -> now e < wakeup_time th -> h <= wakeup_time th).
Proof.
  intros V%sched_reachable_inv Hev.
  destruct (wake_expired_spec (current s) (now e) (sleeping_threads s) s (now e + 10000000000) V
    (sleeping_nodup _ _ V) ltac:(done)) as (s1 & m & E1 & V1 & G1 & P1 & _ & M1 & M2 & _).
  split.
  - intros t th s' halts Ht Hth Hle Hs. apply (schedule_can_run s (e :: events) s' halts t V Hev Hs).
    intros s2 next h Hl. specialize (P1 t th Ht Hth). destruct (Z.leb_spec (wakeup_time th) (now e)); [|lia].
    by eapply loop_can_run.
  - intros s' next h halts Hl. apply Forall_cons in Hev as [He _].
    destruct (pass_spec s e events V He) as (s1' & m' & E1' & _ & _ & P).
    rewrite E1 in E1'. injection E1' as <- <-.
    destruct P as [s2 _ _ _ _ Eq|n rest pth nth s2 _ _ _ _ _ _ Eq|s2 _ _ _ _ _ _ Eq];
      rewrite Hl in Eq; [done|done|].
    destruct (schedule_loop s2 events) as [[[? ?] ?]|]; [|done]. cbn in Eq. injection Eq as <- <- <- <-.
    split; [lia|done].
Qed.

(** ** Examples and boundary cases *)

(** Thread 1 starts 2 and 3 and sleeps until time 9, thread 2 runs. *)
Definition sample_ops : list op := [Spawn 2 None; Spawn 3 (Some true); Sleep 5 4; Yield [Event 5 []]].
Definition sample : uk_sched := default (uk_schedcoop_init 1) (final sample_ops (uk_schedcoop_init 1)).

Lemma executes_cons o ops s s' :
  allowed o s -> run_op o s = Some s' -> executes ops s' -> executes (o :: ops) s.
Proof. intros Ha E H. split; [done|]. by rewrite E. Qed.

Lemma sample_reachable : reachable 1 sample.
Proof.
  apply (final_reachable 1 sample_ops (uk_schedcoop_init 1)); [constructor| |by vm_compute].
  unfold sample_ops.
  eapply executes_cons; [by vm_compute|by vm_compute|].
  eapply executes_cons; [by vm_compute|by vm_compute|].
  eapply executes_cons; [|by vm_compute|].
  { split; [by eexists|]. apply not_elem_of_nil. }
  eapply executes_cons; [repeat constructor|by vm_compute|done].
Qed.

Lemma sched_safe_witness :
  current sample = 2 /\ thread_list sample = [3] /\ sleeping_threads sample = [1] /\
  is_Some (run_op (Yield [Event 10 []]) sample).
Proof.
  split; [by vm_compute|]. split; [by vm_compute|]. split; [by vm_compute|].
  apply (sched_safe 1 sample sample_reachable).
  - repeat constructor.
  - split; [done|]. left. by eexists.
Defined.


Lemma sched_timeouts_witness : exists s' halts,
  schedcoop_schedule sample [Event 10 []] = Some (s', halts) /\ can_run s' 1.
Proof.
  destruct (schedcoop_schedule sample [Event 10 []]) as [[s' halts]|] eqn:E; [|by vm_compute in E].
  exists s', halts. split; [done|].
  refine (proj1 (sched_timeouts 1 sample (Event 10 []) [] sample_reachable _) 1 _ s' halts _ _ _ E).
  - by repeat apply Forall_cons_2.
  - apply (bool_decide_unpack (1 ∈ sleeping_threads sample)). by vm_compute.
  - by vm_compute.
  - by vm_compute.
Defined.

(** [uk_sched_set_default] assigns its local [head] instead of [uk_sched_head]: making the second
    of two registered schedulers the default leaves the first one the default and takes the
    second one off the list. *)
Theorem set_default_loses_scheduler a b :
  a <> 0 -> b <> 0 -> a <> b ->
  exists r r', (uk_sched_register 2 (Registry 0 ∅) a ≫= (fun r => uk_sched_register 2 r b)) = Some r /\
    next r !! a = Some b /\
    uk_sched_set_default 2 r b = Some r' /\ uk_sched_get_default r' = a /\ next r' !! a = Some 0.
Proof.
  intros Ha Hb Hab. exists (Registry a (<[b := 0]> (<[a := b]> (<[a := 0]> ∅)))).
  exists (Registry a (<[b := 0]> (<[a := 0]> (<[b := 0]> (<[a := b]> (<[a := 0]> ∅)))))).
  split; [|split; [|split; [|split]]].
  - unfold uk_sched_register. cbn. destruct (Z.eqb_spec a 0); [done|].
    by rewrite lookup_insert_eq.
  - cbn. by rewrite lookup_insert_ne, lookup_insert_eq.
  - unfold uk_sched_set_default, uk_sched_get_default. cbn [uk_sched_head].
    destruct (Z.eqb_spec b a); [done|]. destruct (Z.eqb_spec a 0); [done|].
    cbn [set_default_loop next]. rewrite lookup_insert_ne, lookup_insert_eq by done. cbn [mbind option_bind].
    destruct (Z.eqb_spec b 0); [done|]. rewrite Z.eqb_refl, lookup_insert_eq. cbn [mbind option_bind].
    by rewrite lookup_insert_eq.
  - done.
  - cbn. rewrite lookup_insert_ne by done. by rewrite lookup_insert_eq.
Qed.

(** [schedcoop_thread_remove] of a blocked thread takes it off the run queue, where it is not. *)
Theorem remove_blocked_corrupts idle s t th :
  reachable idle s -> threads s !! t = Some th -> is_runnable th = false -> t <> current s ->
  schedcoop_thread_remove s t = None.
Proof.
  intros V%sched_reachable_inv Ht Hr Hne. unfold schedcoop_thread_remove.
  destruct (Z.eqb_spec t (current s)); [done|]. cbn [negb]. unfold run_remove, tailq_remove.
  rewrite bool_decide_eq_false_2; [done|]. rewrite (v_run _ _ V t th Ht). intuition congruence.
Qed.

End Sched.
