(* ===== verification/Uio.v ===== *)
(** * Uio: scatter-gather transfers between the kernel and the caller

    Models [lib/vfscore/include/vfscore/uio.h] and [lib/vfscore/subr_uio.c].  An [iovec] is a
    block of the caller's memory with the position and the length that are left of it; the
    entries that [uio_iov] has been moved past are kept in [uio_done], so that what the caller
    finds in its memory can be stated. *)
From Stdlib Require Import ZArith Lia Bool.
From S2P Require Import Prelude Buf.
Open Scope Z_scope.

Module Uio.

Inductive uio_rw := UIO_READ | UIO_WRITE.

Record iovec := Iovec { iov_block : list Z; iov_base : Z; iov_len : Z }.

Record uio := MkUio {
  uio_done : list iovec; uio_iov : list iovec; uio_offset : Z; uio_resid : Z; uio_dir : uio_rw
}.

(** The copy of one part: [memcpy] from or to the kernel's buffer [buf] at [cp]. *)
Definition copy_part (dir : uio_rw) (buf : list Z) (cp : Z) (v : iovec) (cnt : Z)
    : option (list Z * list Z) :=
  match dir with
  | UIO_READ =>
      data ← buf_read buf cp cnt;
      block ← buf_write (iov_block v) (iov_base v) data;
      Some (buf, block)
  | UIO_WRITE =>
      data ← buf_read (iov_block v) (iov_base v) cnt;
      buf ← buf_write buf cp data;
      Some (buf, iov_block v)
  end.

(** [vfscore_uioforeach] with [memcpy] as the function to apply. *)
Fixpoint vfscore_uioforeach (fuel : nat) (buf : list Z) (cp n : Z) (u : uio)
    : option (list Z * uio) :=
  if (0 <? n) && negb (uio_resid u =? 0) then
    match fuel, uio_iov u with
    | O, _ | _, [] => None
    | S fuel', v :: rest =>
        if iov_len v =? 0 then
          vfscore_uioforeach fuel' buf cp n
            (MkUio (uio_done u ++ [v]) rest (uio_offset u) (uio_resid u) (uio_dir u))
        else
          let cnt := if n <? iov_len v then n else iov_len v in
          '(buf, block) ← copy_part (uio_dir u) buf cp v cnt;
          vfscore_uioforeach fuel' buf (cp + cnt) (n - cnt)
            (MkUio (uio_done u) (Iovec block (iov_base v + cnt) (iov_len v - cnt) :: rest)
               (sext 64 (uio_offset u + cnt)) (sext 64 (uio_resid u - cnt)) (uio_dir u))
    end
  else Some (buf, u).

(** [n] is an [int] that becomes a [size_t]. *)
Definition vfscore_uiomove (buf : list Z) (cp n : Z) (u : uio) : option (list Z * uio) :=
  vfscore_uioforeach (2 * length (uio_iov u)) buf cp (u64 (sext 32 n)) u.

(** The transfer that a list of buffers asks for. *)
Definition uio_of (bufs : list (list Z)) (off : Z) (dir : uio_rw) : uio :=
  MkUio [] (map (fun b => Iovec b 0 (zlen b)) bufs) off (zlen (concat bufs)) dir.

(** ** What the caller's memory holds *)

Definition front (u : uio) : list Z :=
  concat (map (fun v => take (Z.to_nat (iov_base v)) (iov_block v)) (uio_done u ++ uio_iov u)).
Definition rest (u : uio) : list Z :=
  concat (map (fun v => drop (Z.to_nat (iov_base v)) (iov_block v)) (uio_done u ++ uio_iov u)).

Definition iov_ok (v : iovec) : Prop :=
  0 <= iov_base v /\ 0 <= iov_len v /\ iov_base v + iov_len v = zlen (iov_block v).
Definition passed (v : iovec) : Prop := iov_ok v /\ iov_len v = 0.
Definition ahead (v : iovec) : Prop := iov_ok v /\ iov_base v = 0.

Record uio_ok (u : uio) : Prop := UioOk {
  uo_done : Forall passed (uio_done u);
  uo_iov : match uio_iov u with [] => True | v :: r => iov_ok v /\ Forall ahead r end;
  uo_resid : uio_resid u = zlen (rest u)
}.

Lemma passed_rest l :
  Forall passed l -> concat (map (fun v => drop (Z.to_nat (iov_base v)) (iov_block v)) l) = [].
Proof.
  induction 1 as [|v l [Ho H0] _ IH]; [done|]. cbn [map concat]. rewrite IH, app_nil_r.
  unfold iov_ok in Ho. apply drop_ge. lia.
Qed.

Lemma ahead_front l :
  Forall ahead l -> concat (map (fun v => take (Z.to_nat (iov_base v)) (iov_block v)) l) = [].
Proof. induction 1 as [|v l [Ho H0] _ IH]; [done|]. cbn [map concat]. by rewrite IH, app_nil_r, H0. Qed.

Lemma ahead_ok r : Forall ahead r -> match r with [] => True | v :: r' => iov_ok v /\ Forall ahead r' end.
Proof. intros H. destruct H as [|v r [Hv _] Hr]; [done|]. by split. Qed.

(** The parts of a transfer that is at entry [v]. *)
Lemma rest_at dn v r off res dir :
  Forall passed dn ->
  rest (MkUio dn (v :: r) off res dir) =
    drop (Z.to_nat (iov_base v)) (iov_block v) ++
    concat (map (fun v => drop (Z.to_nat (iov_base v)) (iov_block v)) r).
Proof.
  intros H. unfold rest. cbn [uio_done uio_iov]. rewrite map_app, concat_app, passed_rest by done.
  done.
Qed.

Lemma front_at dn v r off res dir :
  Forall ahead r ->
  front (MkUio dn (v :: r) off res dir) =
    concat (map (fun v => take (Z.to_nat (iov_base v)) (iov_block v)) dn) ++
    take (Z.to_nat (iov_base v)) (iov_block v).
Proof.
  intros H. unfold front. cbn [uio_done uio_iov]. rewrite map_app, concat_app. cbn [map concat].
  by rewrite (ahead_front r), app_nil_r.
Qed.

(** ** The transfer *)

(** What a transfer of [n] bytes moves. *)
Definition moved (dir : uio_rw) (buf : list Z) (cp n : Z) (u : uio) : list Z :=
  match dir with
  | UIO_READ => take (Z.to_nat n) (drop (Z.to_nat cp) buf)
  | UIO_WRITE => take (Z.to_nat n) (rest u)
  end.

Record transferred (buf : list Z) (cp n : Z) (u : uio) (buf' : list Z) (u' : uio) : Prop := Transferred {
  tr_ok : uio_ok u';
  tr_dir : uio_dir u' = uio_dir u;
  tr_offset : uio_offset u' = uio_offset u + n;
  tr_resid : uio_resid u' = uio_resid u - n;
  tr_front : front u' = front u ++ moved (uio_dir u) buf cp n u;
  tr_rest : rest u' = drop (Z.to_nat n) (rest u);
  tr_buf : match uio_dir u with
           | UIO_READ => buf' = buf
           | UIO_WRITE => buf_write buf cp (moved (uio_dir u) buf cp n u) = Some buf'
           end
}.

(** Transfers one after the other. *)
Lemma transferred_trans buf cp n1 n2 u buf1 u1 buf2 u2 :
  0 <= n1 -> 0 <= n2 -> 0 <= cp ->
  transferred buf cp n1 u buf1 u1 -> transferred buf1 (cp + n1) n2 u1 buf2 u2 ->
  n1 + n2 <= zlen (rest u) ->
  transferred buf cp (n1 + n2) u buf2 u2.
Proof.
  intros H1 H2 Hc [O1 D1 F1 R1 Fr1 Re1 B1] [O2 D2 F2 R2 Fr2 Re2 B2] Hr.
  rewrite D1 in *. split; try done; try lia; try congruence.
  - rewrite Fr2, Fr1, <- app_assoc. f_equal. unfold moved. destruct (uio_dir u).
    + rewrite B1. replace (Z.to_nat (cp + n1)) with (Z.to_nat cp + Z.to_nat n1)%nat by lia.
      rewrite <- drop_drop, Z2Nat.inj_add by lia. by rewrite take_take_drop.
    + rewrite Re1, Z2Nat.inj_add by lia. by rewrite take_take_drop.
  - rewrite Re2, Re1, drop_drop. f_equal. lia.
  - unfold moved in *. destruct (uio_dir u); [congruence|].
    rewrite Re1 in B2. rewrite Z2Nat.inj_add, <- take_take_drop by lia.
    eapply buf_write_app; [exact B1|]. rewrite length_take.
    by replace (cp + Z.of_nat (Z.to_nat n1 `min` length (rest u))) with (cp + n1) by lia.
Qed.

Lemma transferred_nil buf cp u : uio_ok u -> 0 <= cp <= zlen buf -> transferred buf cp 0 u buf u.
Proof.
  intros H Hc. split; try done; try lia; unfold moved.
  - destruct (uio_dir u); by rewrite app_nil_r.
  - destruct (uio_dir u); [done|]. by apply buf_write_nil.
Qed.

(** Moving on to the next entry changes nothing else. *)
Lemma skip_ok dn v r off res dir :
  uio_ok (MkUio dn (v :: r) off res dir) -> iov_len v = 0 ->
  let u := MkUio (dn ++ [v]) r off res dir in
  uio_ok u /\ front u = front (MkUio dn (v :: r) off res dir) /\
  rest u = rest (MkUio dn (v :: r) off res dir).
Proof.
  intros [Hd [Hv Hr] Hs] H0 u. cbn [uio_done uio_iov uio_resid] in *.
  assert (Ef : front u = front (MkUio dn (v :: r) off res dir)).
  { unfold front, u. cbn [uio_done uio_iov]. by rewrite <- app_assoc. }
  assert (Er : rest u = rest (MkUio dn (v :: r) off res dir)).
  { unfold rest, u. cbn [uio_done uio_iov]. by rewrite <- app_assoc. }
  split; [|done]. split; cbn [u uio_done uio_iov uio_resid].
  - apply Forall_app. split; [done|]. by apply Forall_singleton.
  - by apply ahead_ok.
  - rewrite Hs. by rewrite <- Er.
Qed.

(** Copying one part. *)
Lemma copy_ok dn v r off res dir buf cp cnt :
  uio_ok (MkUio dn (v :: r) off res dir) -> 0 < cnt <= iov_len v -> 0 <= cp ->
  cp + cnt <= zlen buf -> 0 <= off -> off + res < 2 ^ 63 ->
  exists buf' block, copy_part dir buf cp v cnt = Some (buf', block) /\
    transferred buf cp cnt (MkUio dn (v :: r) off res dir) buf'
      (MkUio dn (Iovec block (iov_base v + cnt) (iov_len v - cnt) :: r)
         (sext 64 (off + cnt)) (sext 64 (res - cnt)) dir).
Proof.
  intros [Hd [Hv Hr] Hs] Hc Hcp Hb Ho Hm. cbn [uio_done uio_iov uio_resid] in *.
  pose proof Hv as (Hv1 & Hv2 & Hv3).
  assert (Hres : iov_len v <= res).
  { rewrite Hs, rest_at by done. rewrite length_app, length_drop. lia. }
  assert (Eo : sext 64 (off + cnt) = off + cnt) by (apply sext_small; lia).
  assert (Es : sext 64 (res - cnt) = res - cnt) by (apply sext_small; lia).
  rewrite Eo, Es.
  set (data := match dir with UIO_READ => take (Z.to_nat cnt) (drop (Z.to_nat cp) buf)
    | UIO_WRITE => take (Z.to_nat cnt) (drop (Z.to_nat (iov_base v)) (iov_block v)) end).
  assert (Hd1 : zlen data = cnt) by (unfold data; destruct dir; rewrite length_take, length_drop; lia).
  assert (Hm1 : moved dir buf cp cnt (MkUio dn (v :: r) off res dir) = data).
  { unfold moved, data. destruct dir; [done|]. rewrite rest_at by done.
    apply take_app_le. rewrite length_drop. lia. }
  assert (exists buf' block, copy_part dir buf cp v cnt = Some (buf', block) /\
    zlen block = zlen (iov_block v) /\
    take (Z.to_nat (iov_base v + cnt)) block = take (Z.to_nat (iov_base v)) (iov_block v) ++ data /\
    drop (Z.to_nat (iov_base v + cnt)) block = drop (Z.to_nat (iov_base v + cnt)) (iov_block v) /\
    match dir with UIO_READ => buf' = buf | UIO_WRITE => buf_write buf cp data = Some buf' end)
    as (buf' & block & Ec & Hl & Ht & Hdr & Hbuf).
  { unfold copy_part, data in *. destruct dir.
    - rewrite buf_read_ok by lia. cbn [mbind option_bind]. rewrite buf_write_ok by lia.
      cbn [mbind option_bind]. eexists _, _. split; [done|].
      set (d := take (Z.to_nat cnt) (drop (Z.to_nat cp) buf)) in *.
      assert (Hn : Z.to_nat (iov_base v + cnt) = (Z.to_nat (iov_base v) + length d)%nat) by lia.
      assert (Hlt : length (take (Z.to_nat (iov_base v)) (iov_block v)) = Z.to_nat (iov_base v))
        by (rewrite length_take; lia).
      split; [rewrite !length_app, length_take, length_drop; lia|].
      rewrite app_assoc, Hn. split; [|split; [|done]].
      + apply take_app_length'. rewrite length_app. lia.
      + apply drop_app_length'. rewrite length_app. lia.
    - rewrite buf_read_ok by lia. cbn [mbind option_bind].
      set (d := take _ (drop _ (iov_block v))) in *. rewrite (buf_write_ok buf cp d) by lia.
      eexists _, _. split; [done|]. split; [done|]. split; [|done].
      unfold d. rewrite Z2Nat.inj_add by lia. by rewrite take_take_drop. }
  exists buf', block. split; [done|].
  assert (Hr' : rest (MkUio dn (Iovec block (iov_base v + cnt) (iov_len v - cnt) :: r) (off + cnt) (res - cnt) dir)
    = drop (Z.to_nat cnt) (rest (MkUio dn (v :: r) off res dir))).
  { rewrite !rest_at by done. cbn [iov_base iov_block]. rewrite Hdr.
    rewrite drop_app_le by (rewrite length_drop; lia). rewrite drop_drop. do 2 f_equal. lia. }
  split; cbn [uio_done uio_iov uio_resid uio_dir uio_offset]; try done.
  - split; cbn [uio_done uio_iov uio_resid]; [done| |].
    + split; [|done]. unfold iov_ok. cbn [iov_base iov_len iov_block]. lia.
    + rewrite Hr', length_drop. lia.
  - rewrite !front_at by done. cbn [iov_base iov_block]. by rewrite Ht, Hm1, app_assoc.
  - by rewrite Hm1.
Qed.

(** The bytes are moved, whatever the cut of the caller's buffers; twice the number of buffers is
    enough fuel. *)
Definition loop_bound (u : uio) : nat :=
  match uio_iov u with [] => 0 | v :: r => 2 * length r + (if iov_len v =? 0%Z then 1 else 2) end.

Lemma uioforeach_ok fuel : forall buf cp n u,
  uio_ok u -> (loop_bound u <= fuel)%nat -> 0 <= n <= uio_resid u -> 0 <= cp -> cp + n <= zlen buf ->
  0 <= uio_offset u -> uio_offset u + uio_resid u < 2 ^ 63 ->
  exists buf' u', vfscore_uioforeach fuel buf cp n u = Some (buf', u') /\ transferred buf cp n u buf' u'.
Proof.
  induction fuel as [|fuel IH]; intros buf cp n u Hu Hf Hn Hc Hb Ho Hm; cbn [vfscore_uioforeach];
    (destruct (Z.ltb_spec 0 n), (Z.eqb_spec (uio_resid u) 0); cbn [andb negb]; try lia;
     try (assert (n = 0) as -> by lia; eexists _, _; split; [done|]; apply transferred_nil; [done|lia])).
  all: destruct u as [dn iov off res dir]; cbn [uio_done uio_iov uio_offset uio_resid uio_dir] in *.
  all: unfold loop_bound in Hf; cbn [uio_iov] in Hf; destruct iov as [|v r].
  all: try (destruct Hu as [Hd _ Hs]; cbn [uio_done uio_resid] in Hd, Hs; unfold rest in Hs;
    cbn [uio_done uio_iov] in Hs; rewrite app_nil_r, passed_rest in Hs by done; cbn in Hs; lia).
  { destruct (iov_len v =? 0); lia. }
  revert Hf. destruct (Z.eqb_spec (iov_len v) 0) as [H0|H0]; intros Hf.
  - destruct (skip_ok _ _ _ _ _ _ Hu H0) as (Hu' & Ef & Er). set (u' := MkUio (dn ++ [v]) r off res dir) in *.
    destruct (IH buf cp n u') as (buf2 & u2 & -> & T); cbn [u' uio_iov uio_resid uio_offset]; try done.
    { unfold loop_bound. cbn [u' uio_iov]. destruct r as [|w r]; [lia|]. cbn [length] in Hf.
      destruct (iov_len w =? 0); lia. }
    eexists _, _. split; [done|]. destruct T as [T1 T2 T3 T4 T5 T6 T7]. unfold moved in *.
    rewrite Ef in T5. rewrite Er in T5, T6, T7. by split.
  - pose proof Hu as [_ [(Hv1 & Hv2 & Hv3) _] _].
    set (cnt := if n <? iov_len v then n else iov_len v).
    assert (Hcnt : 0 < cnt <= iov_len v /\ cnt <= n) by (unfold cnt; destruct (Z.ltb_spec n (iov_len v)); lia).
    destruct (copy_ok dn v r off res dir buf cp cnt) as (buf1 & block & E1 & T1); try done; try lia.
    rewrite E1. cbn [mbind option_bind].
    set (u1 := MkUio dn (Iovec block (iov_base v + cnt) (iov_len v - cnt) :: r) _ _ dir) in *.
    pose proof T1 as [U1 _ O1 R1 _ Re1 B1]. cbn [u1 uio_offset uio_resid] in O1, R1.
    assert (Hb1 : zlen buf1 = zlen buf).
    { cbn [uio_dir] in B1. destruct dir; [by rewrite B1|]. by rewrite (buf_write_length _ _ _ _ B1). }
    destruct (decide (n - cnt = 0)) as [En|En].
    + rewrite En. assert (Eq : vfscore_uioforeach fuel buf1 (cp + cnt) 0 u1 = Some (buf1, u1)) by (by destruct fuel).
      rewrite Eq. eexists _, _. split; [done|]. by replace n with cnt by lia.
    + destruct (IH buf1 (cp + cnt) (n - cnt) u1) as (buf2 & u2 & E2 & T2); try done; cbn [u1 uio_resid uio_offset]; try lia.
      { unfold loop_bound, u1. cbn [uio_iov iov_len]. unfold cnt in *.
        destruct (Z.ltb_spec n (iov_len v)); [lia|]. rewrite Z.sub_diag, Z.eqb_refl. lia. }
      rewrite E2. eexists _, _. split; [done|]. replace n with (cnt + (n - cnt)) by lia.
      apply (transferred_trans buf cp cnt (n - cnt) _ buf1 u1 buf2 u2); try done; try lia.
      destruct Hu as [_ _ Hs]. cbn [uio_resid] in Hs. lia.
Qed.

Lemma uiomove_ok buf cp n u :
  uio_ok u -> 0 <= n <= uio_resid u -> n < 2 ^ 31 -> 0 <= cp -> cp + n <= zlen buf ->
  0 <= uio_offset u -> uio_offset u + uio_resid u < 2 ^ 63 ->
  exists buf' u', vfscore_uiomove buf cp n u = Some (buf', u') /\ transferred buf cp n u buf' u'.
Proof.
  intros Hu Hn Hi Hc Hb Ho Hm. unfold vfscore_uiomove. rewrite sext_small, wrap_small by (unfold in_u; lia).
  apply uioforeach_ok; try done. unfold loop_bound. destruct (uio_iov u) as [|v r]; [lia|]. cbn [length].
  destruct (iov_len v =? 0); lia.
Qed.

Lemma uio_of_rest bufs off dir : rest (uio_of bufs off dir) = concat bufs.
Proof.
  unfold rest, uio_of. cbn [uio_done uio_iov app]. rewrite map_map. cbn [iov_base iov_block].
  f_equal. by apply map_id.
Qed.

Lemma uio_of_front bufs off dir : front (uio_of bufs off dir) = [].
Proof. unfold front, uio_of. cbn [uio_done uio_iov app]. rewrite map_map. induction bufs; [done|]. by cbn. Qed.

Lemma uio_of_ok bufs off dir : uio_ok (uio_of bufs off dir).
Proof.
  split; cbn [uio_of uio_done uio_iov uio_resid].
  - constructor.
  - apply ahead_ok, Forall_forall. intros v (b & -> & _)%list_elem_of_fmap.
    unfold ahead, iov_ok. cbn [iov_base iov_len iov_block]. lia.
  - by rewrite uio_of_rest.
Qed.

End Uio.
