(* ===== verification/Vnode.v ===== *)
(** * Vnode: the table of active vnodes

    Models the vnode cache of [lib/vfscore/vnode.c]: the hash table of vnodes by mount point and
    inode number, and their reference counts.  A vnode is freed with its last reference; a use
    of a freed vnode, a failed assertion and the overflow of a counter are [None].  The mutexes
    are not modelled: every definition is the code between taking and releasing [vnode_lock].
    What a file system does in its [vget] and [inactive] operations is its own: its answer to
    [vget] is an argument. *)
From Stdlib Require Import ZArith Lia Bool.
From stdpp Require Import gmap relations.
From S2P Require Import Prelude.
Open Scope Z_scope.

Module Vnode.

Definition VNODE_BUCKETS : Z := 32.
Definition INT_MAX : Z := 2 ^ 31 - 1.

Record vnode := MkVnode {
  v_ino : Z; v_mount : Z; v_refcnt : Z; v_type : Z; v_mode : Z; v_size : Z; v_data : Z;
  v_names : list Z
}.

(** [vnode_table], the vnodes by their address, and the users of each mount point. *)
Record vtab := VTab {
  vnodes : gmap Z vnode; vnode_table : list (list Z); m_count : gmap Z Z
}.

Definition set_refcnt (v : vnode) (n : Z) : vnode :=
  MkVnode (v_ino v) (v_mount v) n (v_type v) (v_mode v) (v_size v) (v_data v) (v_names v).
Definition set_vnode (st : vtab) (p : Z) (v : vnode) : vtab :=
  VTab (<[p := v]> (vnodes st)) (vnode_table st) (m_count st).

Definition vn_hash (mp ino : Z) : Z := Z.land (Z.lxor ino mp) (VNODE_BUCKETS - 1).

Fixpoint find_vnode (vs : gmap Z vnode) (mp ino : Z) (l : list Z) : option (option Z) :=
  match l with
  | [] => Some None
  | p :: l' =>
      v ← vs !! p;
      if (v_mount v =? mp) && (v_ino v =? ino) then Some (Some p) else find_vnode vs mp ino l'
  end.

(** [v_refcnt] is an [int]. *)
Definition hold (p : Z) (st : vtab) : option vtab :=
  v ← vnodes st !! p;
  if v_refcnt v <? INT_MAX then Some (set_vnode st p (set_refcnt v (v_refcnt v + 1))) else None.

Definition vn_lookup (mp ino : Z) (st : vtab) : option (option Z * vtab) :=
  l ← zget (vnode_table st) (vn_hash mp ino);
  r ← find_vnode (vnodes st) mp ino l;
  match r with
  | Some p => st ← hold p st; Some (Some p, st)
  | None => Some (None, st)
  end.

Definition vfs_busy (mp : Z) (m : gmap Z Z) : gmap Z Z := <[mp := default 0 (m !! mp) + 1]> m.
Definition vfs_unbusy (mp : Z) (m : gmap Z Z) : gmap Z Z := <[mp := default 0 (m !! mp) - 1]> m.

(** [addr] is what [calloc] returns, 0 when there is no memory; [rc] is the answer of the file
    system.  The result is the returned value with [*vpp]. *)
Definition vfscore_vget (addr rc mp ino : Z) (st : vtab) : option (Z * Z * vtab) :=
  '(r, st) ← vn_lookup mp ino st;
  match r with
  | Some p => Some (1, p, st)
  | None =>
      if addr =? 0 then Some (0, 0, st)
      else if negb (rc =? 0) then Some (0, 0, st)
      else
        l ← zget (vnode_table st) (vn_hash mp ino);
        table ← zset (vnode_table st) (vn_hash mp ino) (addr :: l);
        Some (0, addr, VTab (<[addr := MkVnode ino mp 1 0 0 0 0 []]> (vnodes st)) table
                         (vfs_busy mp (m_count st)))
  end.

Definition vref (p : Z) (st : vtab) : option vtab :=
  v ← vnodes st !! p;
  if 0 <? v_refcnt v then hold p st else None.

(** Removing an entry that is not in its list corrupts it. *)
Definition list_del (p : Z) (l : list Z) : option (list Z) :=
  if bool_decide (p ∈ l) then Some (filter (fun x => x <> p) l) else None.

Definition vrele (p : Z) (st : vtab) : option vtab :=
  v ← vnodes st !! p;
  if negb (0 <? v_refcnt v) then None
  else
    let st := set_vnode st p (set_refcnt v (v_refcnt v - 1)) in
    if 0 <? v_refcnt v - 1 then Some st
    else
      l ← zget (vnode_table st) (vn_hash (v_mount v) (v_ino v));
      l ← list_del p l;
      table ← zset (vnode_table st) (vn_hash (v_mount v) (v_ino v)) l;
      Some (VTab (delete p (vnodes st)) table (vfs_unbusy (v_mount v) (m_count st))).

(** The same with the lock of the vnode held. *)
Definition vput (p : Z) (st : vtab) : option vtab := vrele p st.

Definition vnode_init : vtab := VTab ∅ (replicate 32 []) ∅.

(** ** Permissions *)

Definition EACCES : Z := 13.
Definition EROFS : Z := 30.
Definition VEXEC : Z := 1.
Definition VWRITE : Z := 2.
Definition VREAD : Z := 4.
Definition MNT_RDONLY : Z := 1.

Definition bits (x mask : Z) : bool := negb (Z.land x mask =? 0).

(** [m_flags] are the flags of the vnode's mount point; the masks are 0111, 0444 and 0222. *)
Definition vn_access (m_flags flags : Z) (v : vnode) : Z :=
  if bits flags VEXEC && negb (bits (v_mode v) 73) then EACCES
  else if bits flags VREAD && negb (bits (v_mode v) 292) then EACCES
  else if bits flags VWRITE then
    if bits m_flags MNT_RDONLY then EROFS
    else if negb (bits (v_mode v) 146) then EACCES
    else 0
  else 0.

(** ** The invariant

    [ext p] is the number of references that the rest of the system holds to vnode [p]. *)

Definition bucket_of (v : vnode) : Z := vn_hash (v_mount v) (v_ino v).
Definition users (vs : gmap Z vnode) (mp : Z) : Z :=
  Z.of_nat (size (filter (fun kv => v_mount kv.2 = mp) vs)).

Record inv (st : vtab) (ext : Z -> Z) : Prop := Inv {
  i_len : zlen (vnode_table st) = VNODE_BUCKETS;
  i_table : forall b l, zget (vnode_table st) b = Some l ->
    NoDup l /\ forall p, p ∈ l <-> exists v, vnodes st !! p = Some v /\ bucket_of v = b;
  i_uniq : forall p q v w, vnodes st !! p = Some v -> vnodes st !! q = Some w ->
    v_mount v = v_mount w -> v_ino v = v_ino w -> p = q;
  i_ref : forall p v, vnodes st !! p = Some v -> p <> 0 /\ v_refcnt v = ext p /\ 0 < ext p <= INT_MAX;
  i_dead : forall p, vnodes st !! p = None -> ext p = 0;
  i_busy : forall mp, default 0 (m_count st !! mp) = users (vnodes st) mp
}.

Lemma vn_hash_range mp ino : 0 <= vn_hash mp ino < VNODE_BUCKETS.
Proof.
  unfold vn_hash, VNODE_BUCKETS. change (32 - 1) with (2 ^ 5 - 1). rewrite land_mask by lia.
  apply Z.mod_pos_bound. lia.
Qed.

Lemma bucket_exists st ext mp ino : inv st ext -> exists l, zget (vnode_table st) (vn_hash mp ino) = Some l.
Proof. intros I. apply zget_is_Some. rewrite (i_len _ _ I). apply vn_hash_range. Qed.

(** The search of a bucket finds the vnode of the mount point and the inode. *)
Lemma find_vnode_spec vs mp ino l :
  (forall p, p ∈ l -> is_Some (vs !! p)) ->
  exists r, find_vnode vs mp ino l = Some r /\
    match r with
    | Some p => p ∈ l /\ exists v, vs !! p = Some v /\ v_mount v = mp /\ v_ino v = ino
    | None => forall p v, p ∈ l -> vs !! p = Some v -> ~ (v_mount v = mp /\ v_ino v = ino)
    end.
Proof.
  induction l as [|p l IH]; intros Hl; cbn [find_vnode].
  { exists None. split; [done|]. intros p v Hp. by apply not_elem_of_nil in Hp. }
  destruct (Hl p (list_elem_of_here _ _)) as [v Hv]. rewrite Hv. cbn [mbind option_bind].
  destruct (Z.eqb_spec (v_mount v) mp), (Z.eqb_spec (v_ino v) ino); cbn [andb].
  1: { exists (Some p). split; [done|]. split; [apply list_elem_of_here|]. by exists v. }
  all: destruct IH as (r & -> & Hr); [intros q Hq; by apply Hl, list_elem_of_further|].
  all: exists r; split; [done|]; destruct r as [q|].
  all: try (destruct Hr as [Hq Hr]; split; [by apply list_elem_of_further|done]).
  all: intros q w [->|Hq]%elem_of_cons Hw; [rewrite Hv in Hw; injection Hw as <-; tauto|by apply (Hr q w)].
Qed.

Definition has_vnode (st : vtab) (mp ino p : Z) : Prop :=
  exists v, vnodes st !! p = Some v /\ v_mount v = mp /\ v_ino v = ino.

Lemma has_vnode_unique st ext mp ino p q :
  inv st ext -> has_vnode st mp ino p -> has_vnode st mp ino q -> p = q.
Proof. intros I (v & Hv & E1 & E2) (w & Hw & F1 & F2). apply (i_uniq _ _ I p q v w); congruence. Qed.

Lemma lookup_bucket st ext mp ino :
  inv st ext -> exists l r, zget (vnode_table st) (vn_hash mp ino) = Some l /\
    find_vnode (vnodes st) mp ino l = Some r /\
    match r with Some p => has_vnode st mp ino p | None => forall p, ~ has_vnode st mp ino p end.
Proof.
  intros I. destruct (bucket_exists st ext mp ino I) as [l Hl]. destruct (i_table _ _ I _ _ Hl) as [_ Hb].
  destruct (find_vnode_spec (vnodes st) mp ino l) as (r & Hr & Hs).
  { intros p (v & Hv & _)%Hb. by exists v. }
  exists l, r. split; [done|]. split; [done|]. destruct r as [p|]; [by destruct Hs as [_ Hs]|].
  intros p (v & Hv & E1 & E2). apply (Hs p v); [|done|done]. apply Hb. exists v. split; [done|].
  unfold bucket_of. congruence.
Qed.

(** Changing the fields of a vnode that do not place it in the table. *)
Lemma inv_set st ext ext' p v w :
  inv st ext -> vnodes st !! p = Some v -> v_mount w = v_mount v -> v_ino w = v_ino v ->
  v_refcnt w = ext' p -> 0 < ext' p <= INT_MAX -> (forall q, q <> p -> ext' q = ext q) ->
  inv (set_vnode st p w) ext'.
Proof.
  intros [L T U R D B] Hp Em Ei Er He Ho. split; cbn [set_vnode vnodes vnode_table m_count].
  - done.
  - intros b l Hl. destruct (T b l Hl) as [ND Hb]. split; [done|]. intros q. rewrite Hb.
    destruct (decide (q = p)) as [->|Hne].
    + rewrite lookup_insert_eq. split; intros (x & Hx & Hbx).
      * exists w. split; [done|]. unfold bucket_of in *. congruence.
      * exists v. split; [done|]. unfold bucket_of in *. congruence.
    + by rewrite lookup_insert_ne.
  - intros a b x y Ha Hb E1 E2. rewrite lookup_insert_Some in Ha, Hb.
    destruct Ha as [[<- <-]|[Hna Ha]], Hb as [[<- <-]|[Hnb Hb]]; try done.
    + apply (U p b v y); congruence.
    + apply (U a p x v); congruence.
    + by apply (U a b x y).
  - intros q x Hx. rewrite lookup_insert_Some in Hx. destruct Hx as [[<- <-]|[Hne Hx]].
    + split; [by apply (R p v)|]. done.
    + rewrite Ho by done. by apply R.
  - intros q Hq. apply lookup_insert_None in Hq as [Hq Hne]. rewrite Ho by done. by apply D.
  - intros mp. rewrite B. unfold users. f_equal.
    rewrite <- (insert_id (vnodes st) p v) at 1 by done.
    destruct (decide (v_mount v = mp)) as [E|E].
    + rewrite !map_filter_insert_True by (cbn; congruence). by rewrite !map_size_insert.
    + rewrite !map_filter_insert_False by (cbn; congruence). done.
Qed.

(** One more reference. *)
Lemma hold_vnode st ext p v :
  inv st ext -> vnodes st !! p = Some v -> ext p < INT_MAX ->
  hold p st = Some (set_vnode st p (set_refcnt v (ext p + 1))) /\
  inv (set_vnode st p (set_refcnt v (ext p + 1))) (bump ext p 1).
Proof.
  intros I Hp He. destruct (i_ref _ _ I p v Hp) as (_ & Hr & H0). unfold hold. rewrite Hp.
  cbn [mbind option_bind]. rewrite Hr. destruct (Z.ltb_spec (ext p) INT_MAX); [|lia]. split; [done|].
  apply (inv_set st ext _ p v); try done.
  - by rewrite bump_eq.
  - rewrite bump_eq. lia.
  - intros q Hq. by apply bump_ne.
Qed.

(** A new vnode at the head of its bucket. *)
Lemma insert_vnode st ext a mp ino l v :
  inv st ext -> a <> 0 -> vnodes st !! a = None -> (forall p, ~ has_vnode st mp ino p) ->
  v_mount v = mp -> v_ino v = ino -> v_refcnt v = 1 ->
  zget (vnode_table st) (vn_hash mp ino) = Some l ->
  exists table, zset (vnode_table st) (vn_hash mp ino) (a :: l) = Some table /\
    inv (VTab (<[a := v]> (vnodes st)) table (vfs_busy mp (m_count st))) (bump ext a 1).
Proof.
  intros I Ha Hd Hn Em Ei Er Hl. pose proof (zget_Some_range _ _ _ Hl) as Hr.
  destruct (zset (vnode_table st) (vn_hash mp ino) (a :: l)) as [table|] eqn:Hs; [|by rewrite zset_is_Some in Hs].
  exists table. split; [done|]. pose proof I as [L T U R D B]. split; cbn [vnodes vnode_table m_count].
  - by rewrite (zset_length _ _ _ _ Hs).
  - assert (Hnl : forall b k, zget (vnode_table st) b = Some k -> a ∉ k).
    { intros b k Hk Hin. destruct (T b k Hk) as [_ Hb]. apply Hb in Hin as (w & Hw & _). congruence. }
    intros b k Hk. rewrite (zget_zset _ _ b _ _ Hs) in Hk. case_decide as Eb.
    + injection Hk as <-. destruct (T _ _ Hl) as [ND Hb]. split.
      { apply NoDup_cons. split; [by apply (Hnl _ _ Hl)|done]. }
      intros p. rewrite elem_of_cons, Hb. destruct (decide (p = a)) as [->|Hne].
      * rewrite lookup_insert_eq. split; [|by left]. intros _. exists v. split; [done|].
        unfold bucket_of. congruence.
      * rewrite lookup_insert_ne by done. rewrite Eb. intuition congruence.
    + destruct (T b k Hk) as [ND Hb]. split; [done|]. intros p. rewrite Hb.
      destruct (decide (p = a)) as [->|Hne]; [|by rewrite lookup_insert_ne].
      rewrite lookup_insert_eq. split; intros (w & Hw & Hbw); [congruence|].
      injection Hw as <-. unfold bucket_of in Hbw. congruence.
  - intros p q x y Hx Hy E1 E2. rewrite lookup_insert_Some in Hx, Hy.
    destruct Hx as [[<- <-]|[Hnx Hx]], Hy as [[<- <-]|[Hny Hy]]; try done.
    + destruct (Hn q). exists y. split; [done|]. split; congruence.
    + destruct (Hn p). exists x. split; [done|]. split; congruence.
    + by apply (U p q x y).
  - intros p x Hx. rewrite lookup_insert_Some in Hx. destruct Hx as [[<- <-]|[Hne Hx]].
    + rewrite bump_eq, (D a Hd), Er. unfold INT_MAX. lia.
    + rewrite bump_ne by done. by apply R.
  - intros p Hp. apply lookup_insert_None in Hp as [Hp Hne]. rewrite bump_ne by done. by apply D.
  - intros mq. unfold vfs_busy, users. destruct (decide (mp = mq)) as [<-|Hne].
    + rewrite lookup_insert_eq. cbn [default from_option]. unfold id. rewrite B. unfold users.
      rewrite map_filter_insert_True by done. rewrite map_size_insert_None; [lia|].
      apply map_lookup_filter_None. by left.
    + rewrite lookup_insert_ne by done. rewrite B. unfold users. f_equal.
      rewrite map_filter_insert_False by (cbn; congruence). by rewrite delete_id.
Qed.

(** [vfscore_vget]: the vnode that is there, with one more reference, or a new one. *)
Definition got (st : vtab) (ext : Z -> Z) (addr rc mp ino ret vp : Z) (st' : vtab) : Prop :=
  (exists p v, has_vnode st mp ino p /\ vnodes st !! p = Some v /\ ret = 1 /\ vp = p /\
     st' = set_vnode st p (set_refcnt v (ext p + 1))) \/
  (forall p, ~ has_vnode st mp ino p) /\ ret = 0 /\
    ((addr = 0 \/ rc <> 0) /\ vp = 0 /\ st' = st \/
     addr <> 0 /\ rc = 0 /\ vp = addr /\
       vnodes st' = <[addr := MkVnode ino mp 1 0 0 0 0 []]> (vnodes st)).

Lemma vget_spec st ext addr rc mp ino :
  inv st ext -> vnodes st !! addr = None -> (forall p, ext p < INT_MAX) ->
  exists ret vp st', vfscore_vget addr rc mp ino st = Some (ret, vp, st') /\
    got st ext addr rc mp ino ret vp st' /\
    inv st' (if vp =? 0 then ext else bump ext vp 1).
Proof.
  intros I Ha He. unfold vfscore_vget, vn_lookup.
  destruct (lookup_bucket st ext mp ino I) as (l & r & Hl & Hf & Hr). rewrite Hl. cbn [mbind option_bind].
  rewrite Hf. cbn [mbind option_bind]. destruct r as [p|].
  - pose proof Hr as (v & Hv & Em & Ei). destruct (hold_vnode st ext p v I Hv (He p)) as [-> I'].
    cbn [mbind option_bind]. eexists _, _, _. split; [done|]. split.
    + left. exists p, v. done.
    + destruct (i_ref _ _ I p v Hv) as (Hp & _). by destruct (Z.eqb_spec p 0).
  - cbn [mbind option_bind]. destruct (Z.eqb_spec addr 0) as [->|Hne].
    { eexists _, _, _. split; [done|]. split; [|done]. right. split; [done|]. split; [done|]. left. auto. }
    destruct (Z.eqb_spec rc 0) as [->|Hrc]; cbn [negb].
    2: { eexists _, _, _. split; [done|]. split; [|done]. right. split; [done|]. split; [done|]. left. auto. }
    destruct (insert_vnode st ext addr mp ino l (MkVnode ino mp 1 0 0 0 0 [])) as (table & Hs & I'); try done.
    rewrite Hl. cbn [mbind option_bind]. rewrite Hs. cbn [mbind option_bind].
    eexists _, _, _. split; [done|]. split; [|by destruct (Z.eqb_spec addr 0)].
    right. split; [done|]. split; [done|]. by right.
Qed.

(** The last reference frees the vnode, any other one only counts down. *)
Lemma remove_vnode st ext p v l :
  inv st ext -> vnodes st !! p = Some v -> ext p = 1 ->
  zget (vnode_table st) (bucket_of v) = Some l ->
  exists table, zset (vnode_table st) (bucket_of v) (filter (fun x => x <> p) l) = Some table /\
    inv (VTab (delete p (vnodes st)) table (vfs_unbusy (v_mount v) (m_count st))) (bump ext p (-1)).
Proof.
  intros I Hp He Hl. pose proof (zget_Some_range _ _ _ Hl) as Hr.
  destruct (zset (vnode_table st) (bucket_of v) (filter (fun x => x <> p) l)) as [table|] eqn:Hs;
    [|by rewrite zset_is_Some in Hs].
  exists table. split; [done|]. pose proof I as [L T U R D B]. split; cbn [vnodes vnode_table m_count].
  - by rewrite (zset_length _ _ _ _ Hs).
  - intros b k Hk. rewrite (zget_zset _ _ b _ _ Hs) in Hk. case_decide as Eb.
    + injection Hk as <-. destruct (T _ _ Hl) as [ND Hb]. split; [by apply NoDup_filter|].
      intros q. rewrite list_elem_of_filter, Hb, Eb. split.
      * intros [Hne H]. by rewrite lookup_delete_ne.
      * intros (w & Hw & Hbw). apply lookup_delete_Some in Hw as [Hne Hw]. split; [done|]. by exists w.
    + destruct (T b k Hk) as [ND Hb]. split; [done|]. intros q. rewrite Hb.
      destruct (decide (q = p)) as [->|Hne]; [|by rewrite lookup_delete_ne].
      rewrite lookup_delete_eq. split; intros (w & Hw & Hbw); [congruence|done].
  - intros a b x y Ha Hb. apply lookup_delete_Some in Ha as [_ Ha], Hb as [_ Hb]. by apply (U a b x y).
  - intros q x [Hne Hx]%lookup_delete_Some. rewrite bump_ne by done. by apply R.
  - intros q. destruct (decide (q = p)) as [->|Hne].
    + intros _. rewrite bump_eq. lia.
    + rewrite lookup_delete_ne, bump_ne by done. apply D.
  - intros mp. unfold vfs_unbusy, users. rewrite map_filter_delete.
    destruct (decide (v_mount v = mp)) as [<-|Hne].
    + rewrite lookup_insert_eq. cbn [default from_option]. unfold id. rewrite B. unfold users.
      rewrite map_size_delete_Some; [|exists v; by apply map_lookup_filter_Some].
      assert (0 < size (filter (fun kv : Z * vnode => v_mount kv.2 = v_mount v) (vnodes st)))%nat; [|lia].
      apply Nat.neq_0_lt_0. intros E0%map_size_empty_inv.
      assert (filter (fun kv : Z * vnode => v_mount kv.2 = v_mount v) (vnodes st) !! p = Some v) as Hf
        by (by apply map_lookup_filter_Some). by rewrite E0 in Hf.
    + rewrite lookup_insert_ne by done. rewrite B. unfold users. f_equal.
      rewrite map_size_delete_None; [done|]. apply map_lookup_filter_None. right. intros w Hw. cbn. congruence.
Qed.

Lemma vrele_spec st ext p :
  inv st ext -> 0 < ext p ->
  exists v st', vnodes st !! p = Some v /\ vrele p st = Some st' /\ inv st' (bump ext p (-1)) /\
    vnodes st' = if ext p =? 1 then delete p (vnodes st)
                 else <[p := set_refcnt v (ext p - 1)]> (vnodes st).
Proof.
  intros I He. destruct (vnodes st !! p) as [v|] eqn:Hp; [|rewrite (i_dead _ _ I p Hp) in He; lia].
  exists v. destruct (i_ref _ _ I p v Hp) as (_ & Hr & _ & Hm). unfold vrele. rewrite Hp.
  cbn [mbind option_bind]. rewrite Hr. destruct (Z.ltb_spec 0 (ext p)); [cbn [negb]|lia].
  destruct (Z.ltb_spec 0 (ext p - 1)).
  - eexists. split; [done|]. split; [done|]. destruct (Z.eqb_spec (ext p) 1); [lia|]. split; [|done].
    apply (inv_set st ext _ p v); try done.
    + rewrite bump_eq. cbn. lia.
    + rewrite bump_eq. lia.
    + intros q Hq. by apply bump_ne.
  - destruct (bucket_exists st ext (v_mount v) (v_ino v) I) as [l Hl].
    destruct (remove_vnode st ext p v l I Hp ltac:(lia) Hl) as (table & Hs & I').
    cbn [vnode_table set_vnode vnodes m_count]. rewrite Hl. cbn [mbind option_bind]. unfold list_del.
    rewrite bool_decide_eq_true_2 by (apply (proj2 (i_table _ _ I _ _ Hl) p); by exists v).
    cbn [mbind option_bind]. unfold bucket_of in Hs. rewrite Hs. cbn [mbind option_bind].
    rewrite delete_insert_eq. eexists. split; [done|]. split; [done|].
    destruct (Z.eqb_spec (ext p) 1); [|lia]. done.
Qed.

(** ** The users of the table *)

Inductive step : vtab * (Z -> Z) -> vtab * (Z -> Z) -> Prop :=
| step_vget st ext addr rc mp ino ret vp st' :
    vnodes st !! addr = None -> (forall p, ext p < INT_MAX) ->
    vfscore_vget addr rc mp ino st = Some (ret, vp, st') ->
    step (st, ext) (st', if vp =? 0 then ext else bump ext vp 1)
| step_vref st ext p st' :
    0 < ext p < INT_MAX -> vref p st = Some st' -> step (st, ext) (st', bump ext p 1)
| step_vrele st ext p st' :
    0 < ext p -> vrele p st = Some st' -> step (st, ext) (st', bump ext p (-1))
| step_fields st ext p v type mode size data names :
    vnodes st !! p = Some v ->
    step (st, ext)
      (set_vnode st p (MkVnode (v_ino v) (v_mount v) (v_refcnt v) type mode size data names), ext).

Lemma inv_vnode_init : inv vnode_init (fun _ => 0).
Proof.
  split; cbn [vnode_init vnodes vnode_table m_count].
  - done.
  - intros b l Hl. assert (l = []) as ->.
    { pose proof (zget_Some_range _ _ _ Hl). unfold zget in Hl.
      destruct (Z.ltb_spec b 0); [done|]. by apply lookup_replicate in Hl as [-> _]. }
    split; [constructor|]. intros p. split; [by intros ?%not_elem_of_nil|].
    intros (v & Hv & _). by rewrite lookup_empty in Hv.
  - intros p q v w Hv. by rewrite lookup_empty in Hv.
  - intros p v Hv. by rewrite lookup_empty in Hv.
  - done.
  - intros mp. rewrite lookup_empty. unfold users. by rewrite map_filter_empty, map_size_empty.
Qed.

Lemma vnode_step_inv st ext st' ext' : inv st ext -> step (st, ext) (st', ext') -> inv st' ext'.
Proof.
  intros I H. remember (st, ext) as a. remember (st', ext') as b.
  destruct H as [s x addr rc mp ino ret vp s' Ha He E|s x p s' He E|s x p s' He E|s x p v ty mo si da na Hp];
    injection Heqa as -> ->; injection Heqb as <- <-.
  - destruct (vget_spec st ext addr rc mp ino I Ha He) as (ret' & vp' & s2 & E' & _ & I').
    rewrite E in E'. by injection E' as <- <- <-.
  - destruct (vnodes st !! p) as [v|] eqn:Hp; [|unfold vref in E; by rewrite Hp in E].
    destruct (hold_vnode st ext p v I Hp ltac:(lia)) as [Eh I']. unfold vref in E. rewrite Hp in E.
    cbn [mbind option_bind] in E. destruct (0 <? v_refcnt v); [|done]. rewrite Eh in E. by injection E as <-.
  - destruct (vrele_spec st ext p I He) as (v & s2 & _ & E' & I' & _). rewrite E in E'. by injection E' as <-.
  - destruct (i_ref _ _ I p v Hp) as (_ & Hr & Hx). by apply (inv_set st ext ext p v).
Qed.

Definition reachable (st : vtab) (ext : Z -> Z) : Prop := rtc step (vnode_init, fun _ => 0) (st, ext).

Lemma vnode_reachable_inv st ext : reachable st ext -> inv st ext.
Proof.
  intros H. change (inv (st, ext).1 (st, ext).2).
  assert (H0 : inv (vnode_init, fun _ : Z => 0).1 (vnode_init, fun _ : Z => 0).2) by apply inv_vnode_init.
  induction H as [|[s1 x1] [s2 x2] [s3 x3] Hs _ IH]; [done|]. apply IH. by apply (vnode_step_inv s1 x1).
Qed.

(** C20: whatever the users of the vnode table do, a mount point and an inode number name at most
    one vnode; [vfscore_vget] finds it and takes a reference, or makes a new one, or reports that
    there is no memory; a vnode is freed exactly when its last reference is dropped; and a mount
    point counts its vnodes. *)
Theorem vnode_cache_safe st ext :
  reachable st ext ->
  (forall mp ino p q, has_vnode st mp ino p -> has_vnode st mp ino q -> p = q) /\
  (forall addr rc mp ino, vnodes st !! addr = None -> (forall p, ext p < INT_MAX) ->
     exists ret vp st', vfscore_vget addr rc mp ino st = Some (ret, vp, st') /\
       got st ext addr rc mp ino ret vp st') /\
  (forall p, 0 < ext p -> exists v st', vnodes st !! p = Some v /\ vrele p st = Some st' /\
     vnodes st' = if ext p =? 1 then delete p (vnodes st)
                  else <[p := set_refcnt v (ext p - 1)]> (vnodes st)) /\
  (forall mp, default 0 (m_count st !! mp) = users (vnodes st) mp).
Proof.
  intros I%vnode_reachable_inv. split; [intros mp ino p q; by apply (has_vnode_unique st ext)|].
  split; [|split; [|apply I]].
  - intros addr rc mp ino Ha He. destruct (vget_spec st ext addr rc mp ino I Ha He) as (r & vp & st' & H & G & _).
    by exists r, vp, st'.
  - intros p He. destruct (vrele_spec st ext p I He) as (v & st' & H1 & H2 & _ & H3). by exists v, st'.
Qed.

Definition sample_tab : vtab :=
  match vfscore_vget 100 0 7 5 vnode_init with Some (_, _, st) => st | None => vnode_init end.

Lemma vnode_cache_safe_witness :
  exists ret vp st', vfscore_vget 200 0 7 5 sample_tab = Some (ret, vp, st') /\
    got sample_tab (bump (fun _ => 0) 100 1) 200 0 7 5 ret vp st' /\ vp = 100.
Proof.
  assert (R : reachable sample_tab (bump (fun _ => 0) 100 1)).
  { apply rtc_once. apply (step_vget vnode_init (fun _ => 0) 100 0 7 5 0 100 sample_tab); [done| |by vm_compute].
    intros p. unfold INT_MAX. lia. }
  destruct (proj1 (proj2 (vnode_cache_safe _ _ R)) 200 0 7 5) as (ret & vp & st' & E & G).
  - by vm_compute.
  - intros p. unfold INT_MAX, bump. case_decide; lia.
  - exists ret, vp, st'. split; [done|]. split; [done|]. vm_compute in E. by injection E.
Defined.

End Vnode.
