(* ===== verification/Ramfs.v ===== *)
(** * Ramfs: the file system in memory

    Models [lib/ramfs/ramfs_vnops.c] and [ramfs_mount] of [ramfs_vfsops.c]: directories are
    linked lists of nodes, a file is one buffer that is replaced by a larger one when it grows.
    Every definition is the code between taking and releasing [ramfs_lock] respectively the lock
    of the vnode.

    The state holds the nodes and the buffers by their addresses, the vnodes ([Vnode]), and what
    the next calls of [malloc] will return: an address, 0 when there is no memory, and the bytes
    that are found there.  A buffer that did not come from [malloc] (the data of
    [ramfs_set_file_data]) may not be freed.  [None] is a use of a freed node or buffer, an
    access outside a buffer, or such a free. *)
From Stdlib Require Import ZArith Lia Bool.
From stdpp Require Import gmap relations.
From S2P Require Import Prelude Buf Uio Vnode.
Import Uio.
Open Scope Z_scope.

Module Ramfs.

Definition ENOENT : Z := 2.
Definition EIO : Z := 5.
Definition ENOMEM : Z := 12.
Definition EBUSY : Z := 16.
Definition EISDIR : Z := 21.
Definition EINVAL : Z := 22.
Definition EFBIG : Z := 27.
Definition ENAMETOOLONG : Z := 63.
Definition NAME_MAX : Z := 255.
Definition LONG_MAX : Z := 2 ^ 63 - 1.
Definition VREG : Z := 1.
Definition VDIR : Z := 2.
Definition VLNK : Z := 5.
Definition S_IFMT : Z := 61440.
Definition S_IFDIR : Z := 16384.
Definition S_IFREG : Z := 32768.
Definition S_IFLNK : Z := 40960.
Definition S_ISDIR (mode : Z) : bool := Z.land mode S_IFMT =? S_IFDIR.
Definition S_ISREG (mode : Z) : bool := Z.land mode S_IFMT =? S_IFREG.
Definition UK_ALLPERMS : Z := 4095.
Definition IO_APPEND : Z := 1.
Definition DT_DIR : Z := 4.
Definition DT_REG : Z := 8.
Definition DT_LNK : Z := 10.
Definition AT_MODE : Z := 2.
Definition AT_ATIME : Z := 256.
Definition AT_MTIME : Z := 512.
Definition AT_CTIME : Z := 1024.
Definition round_pgup (a : Z) : Z := ALIGN_UP a 4096.

Abbreviation timespec := (Z * Z)%type.

(** [rn_name] is the buffer that holds the name and its terminator. *)
Record ramfs_node := Node {
  rn_next : Z; rn_child : Z; rn_type : Z; rn_name : list Z; rn_namelen : Z; rn_size : Z;
  rn_buf : Z; rn_bufsize : Z; rn_ctime : timespec; rn_atime : timespec; rn_mtime : timespec;
  rn_mode : Z; rn_owns_buf : bool
}.

Record block := Block { b_data : list Z; b_malloced : bool }.

Record ramfs := Ramfs {
  nodes : gmap Z ramfs_node; blocks : gmap Z block; vt : Vnode.vtab; inode_count : Z;
  memory : list (Z * list Z)
}.

Definition set_next (n : ramfs_node) (p : Z) : ramfs_node :=
  Node p (rn_child n) (rn_type n) (rn_name n) (rn_namelen n) (rn_size n) (rn_buf n) (rn_bufsize n)
    (rn_ctime n) (rn_atime n) (rn_mtime n) (rn_mode n) (rn_owns_buf n).
Definition set_child (n : ramfs_node) (p : Z) : ramfs_node :=
  Node (rn_next n) p (rn_type n) (rn_name n) (rn_namelen n) (rn_size n) (rn_buf n) (rn_bufsize n)
    (rn_ctime n) (rn_atime n) (rn_mtime n) (rn_mode n) (rn_owns_buf n).
Definition set_name (n : ramfs_node) (name : list Z) (len : Z) : ramfs_node :=
  Node (rn_next n) (rn_child n) (rn_type n) name len (rn_size n) (rn_buf n) (rn_bufsize n)
    (rn_ctime n) (rn_atime n) (rn_mtime n) (rn_mode n) (rn_owns_buf n).
Definition set_file (n : ramfs_node) (size buf bufsize : Z) (owns : bool) : ramfs_node :=
  Node (rn_next n) (rn_child n) (rn_type n) (rn_name n) (rn_namelen n) size buf bufsize
    (rn_ctime n) (rn_atime n) (rn_mtime n) (rn_mode n) owns.
Definition set_attr (n : ramfs_node) (c a m : timespec) (mode : Z) : ramfs_node :=
  Node (rn_next n) (rn_child n) (rn_type n) (rn_name n) (rn_namelen n) (rn_size n) (rn_buf n)
    (rn_bufsize n) c a m mode (rn_owns_buf n).

Definition set_nodes (st : ramfs) (ns : gmap Z ramfs_node) : ramfs :=
  Ramfs ns (blocks st) (vt st) (inode_count st) (memory st).
Definition set_blocks (st : ramfs) (bs : gmap Z block) : ramfs :=
  Ramfs (nodes st) bs (vt st) (inode_count st) (memory st).
Definition set_vt (st : ramfs) (v : Vnode.vtab) (i : Z) : ramfs :=
  Ramfs (nodes st) (blocks st) v i (memory st).
Definition set_node (st : ramfs) (p : Z) (n : ramfs_node) : ramfs := set_nodes st (<[p := n]> (nodes st)).

(** [set_times_to_now]: the clock stands at 0. *)
Definition now : timespec := (0, 0).
Definition touch_mc (n : ramfs_node) : ramfs_node := set_attr n now (rn_atime n) now (rn_mode n).
Definition touch_a (n : ramfs_node) : ramfs_node := set_attr n (rn_ctime n) now (rn_mtime n) (rn_mode n).
Definition touch_c (n : ramfs_node) : ramfs_node := set_attr n now (rn_atime n) (rn_mtime n) (rn_mode n).

(** ** Memory *)

(** The address, and the bytes found there. *)
Definition malloc (n : Z) (st : ramfs) : Z * list Z * ramfs :=
  match memory st with
  | [] => (0, [], st)
  | (a, junk) :: m =>
      (a, take (Z.to_nat n) (junk ++ replicate (Z.to_nat n) 0),
       Ramfs (nodes st) (blocks st) (vt st) (inode_count st) m)
  end.

Definition free_block (p : Z) (st : ramfs) : option ramfs :=
  b ← blocks st !! p;
  if b_malloced b then Some (set_blocks st (delete p (blocks st))) else None.

(** ** Nodes *)

Definition ramfs_allocate_node (name : list Z) (type : Z) (st : ramfs) : Z * ramfs :=
  let '(np, _, st) := malloc 0 st in
  if np =? 0 then (0, st)
  else
    let '(nm, _, st) := malloc (zlen name + 1) st in
    if nm =? 0 then (0, st)
    else
      let mode := if type =? VDIR then Z.lor S_IFDIR 511
                  else if type =? VLNK then Z.lor S_IFLNK 511 else Z.lor S_IFREG 511 in
      (np, set_node st np (Node 0 0 type (name ++ [0]) (zlen name) 0 0 0 now now now mode true)).

Definition ramfs_free_node (np : Z) (st : ramfs) : option ramfs :=
  n ← nodes st !! np;
  st ← (if negb (rn_buf n =? 0) && rn_owns_buf n then free_block (rn_buf n) st else Some st);
  Some (set_nodes st (delete np (nodes st))).

(** [while (prev->rn_next != NULL) prev = prev->rn_next;] *)
Fixpoint last_node (fuel : nat) (ns : gmap Z ramfs_node) (prev : Z) : option Z :=
  n ← ns !! prev;
  if rn_next n =? 0 then Some prev
  else match fuel with O => None | S fuel' => last_node fuel' ns (rn_next n) end.

Definition ramfs_add_node (dnp : Z) (name : list Z) (type : Z) (st : ramfs) : option (Z * ramfs) :=
  let '(np, st) := ramfs_allocate_node name type st in
  if np =? 0 then Some (0, st)
  else
    d ← nodes st !! dnp;
    st ← (if rn_child d =? 0 then Some (set_node st dnp (set_child d np))
          else
            prev ← last_node (size (nodes st)) (nodes st) (rn_child d);
            pn ← nodes st !! prev;
            Some (set_node st prev (set_next pn np)));
    d ← nodes st !! dnp;
    Some (np, set_node st dnp (touch_mc d)).

(** The node in front of [np], [Some None] when the list ends before. *)
Fixpoint find_prev (fuel : nat) (ns : gmap Z ramfs_node) (np prev : Z) : option (option Z) :=
  n ← ns !! prev;
  if rn_next n =? np then Some (Some prev)
  else if rn_next n =? 0 then Some None
  else match fuel with O => None | S fuel' => find_prev fuel' ns np (rn_next n) end.

Definition ramfs_remove_node (dnp np : Z) (st : ramfs) : option (Z * ramfs) :=
  d ← nodes st !! dnp;
  if rn_child d =? 0 then Some (EBUSY, st)
  else
    unlinked ← (if rn_child d =? np then
                  n ← nodes st !! np; Some (Some (set_node st dnp (set_child d (rn_next n))))
                else
                  r ← find_prev (size (nodes st)) (nodes st) np (rn_child d);
                  match r with
                  | None => Some None
                  | Some prev =>
                      n ← nodes st !! np; pn ← nodes st !! prev;
                      Some (Some (set_node st prev (set_next pn (rn_next n))))
                  end);
    match unlinked with
    | None => Some (ENOENT, st)
    | Some st =>
        st ← ramfs_free_node np st;
        d ← nodes st !! dnp;
        Some (0, set_node st dnp (touch_mc d))
    end.

Definition ramfs_rename_node (np : Z) (name : list Z) (st : ramfs) : option (Z * ramfs) :=
  n ← nodes st !! np;
  let len := zlen name in
  if NAME_MAX <? len then Some (ENAMETOOLONG, st)
  else if len <=? rn_namelen n then
    buf ← buf_write (rn_name n) 0 (name ++ [0]);
    Some (0, set_node st np (touch_c (set_name n buf len)))
  else
    let '(tmp, _, st) := malloc (len + 1) st in
    if tmp =? 0 then Some (ENOMEM, st)
    else Some (0, set_node st np (touch_c (set_name n (name ++ [0]) len))).

(** ** Directories *)

(** The first node of the list with this name. *)
Fixpoint find_name (fuel : nat) (ns : gmap Z ramfs_node) (name : list Z) (np : Z) : option (option Z) :=
  if np =? 0 then Some None
  else
    n ← ns !! np;
    same ← (if rn_namelen n =? zlen name then
              bytes ← buf_read (rn_name n) 0 (zlen name); Some (bool_decide (bytes = name))
            else Some false : option bool);
    if (same : bool) then Some (Some np)
    else match fuel with O => None | S fuel' => find_name fuel' ns name (rn_next n) end.

Definition set_data (v : Vnode.vnode) (type mode size data : Z) : Vnode.vnode :=
  Vnode.MkVnode (Vnode.v_ino v) (Vnode.v_mount v) (Vnode.v_refcnt v) type mode size data (Vnode.v_names v).

(** [addr] is the memory that a new vnode gets.  The result is the error code and [*vpp]. *)
Definition ramfs_lookup (addr dvp : Z) (name : list Z) (st : ramfs) : option (Z * Z * ramfs) :=
  match name with
  | [] => Some (ENOENT, 0, st)
  | _ =>
      dv ← Vnode.vnodes (vt st) !! dvp;
      d ← nodes st !! Vnode.v_data dv;
      found ← find_name (size (nodes st)) (nodes st) name (rn_child d);
      match found with
      | None => Some (ENOENT, 0, st)
      | Some np =>
          '(cached, vp, v) ← Vnode.vfscore_vget addr 0 (Vnode.v_mount dv) (inode_count st) (vt st);
          let st := set_vt st v (u64 (inode_count st + 1)) in
          if negb (cached =? 0) then Some (0, vp, st)
          else if vp =? 0 then Some (ENOMEM, 0, st)
          else
            n ← nodes st !! np;
            x ← Vnode.vnodes v !! vp;
            Some (0, vp, set_vt st (Vnode.set_vnode v vp
                           (set_data x (rn_type n) UK_ALLPERMS (rn_size n) np)) (inode_count st))
      end
  end.

(** The node of a vnode. *)
Definition node_of (vp : Z) (st : ramfs) : option Z := v ← Vnode.vnodes (vt st) !! vp; Some (Vnode.v_data v).

Definition ramfs_mkdir (dvp : Z) (name : list Z) (mode : Z) (st : ramfs) : option (Z * ramfs) :=
  if NAME_MAX <? zlen name then Some (ENAMETOOLONG, st)
  else if negb (S_ISDIR mode) then Some (EINVAL, st)
  else
    dnp ← node_of dvp st;
    '(np, st) ← ramfs_add_node dnp name VDIR st;
    if np =? 0 then Some (ENOMEM, st)
    else
      n ← nodes st !! np;
      Some (0, set_node st np (set_file n 0 (rn_buf n) (rn_bufsize n) (rn_owns_buf n))).

Definition ramfs_create (dvp : Z) (name : list Z) (mode : Z) (st : ramfs) : option (Z * ramfs) :=
  if NAME_MAX <? zlen name then Some (ENAMETOOLONG, st)
  else if negb (S_ISREG mode) then Some (EINVAL, st)
  else
    dnp ← node_of dvp st;
    '(np, st) ← ramfs_add_node dnp name VREG st;
    if np =? 0 then Some (ENOMEM, st) else Some (0, st).

Definition ramfs_symlink (dvp : Z) (name link : list Z) (st : ramfs) : option (Z * ramfs) :=
  if NAME_MAX <? zlen name then Some (ENAMETOOLONG, st)
  else
    dnp ← node_of dvp st;
    '(np, st) ← ramfs_add_node dnp name VLNK st;
    if np =? 0 then Some (ENOMEM, st)
    else
      let len := zlen link in
      let '(buf, _, st) := malloc (len + 1) st in
      let st := if buf =? 0 then st else set_blocks st (<[buf := Block (link ++ [0]) true]> (blocks st)) in
      n ← nodes st !! np;
      Some (0, set_node st np (set_file n len buf len (rn_owns_buf n))).

Definition ramfs_remove (dvp vp : Z) (st : ramfs) : option (Z * ramfs) :=
  dnp ← node_of dvp st; np ← node_of vp st; ramfs_remove_node dnp np st.
Definition ramfs_rmdir (dvp vp : Z) (st : ramfs) : option (Z * ramfs) :=
  dnp ← node_of dvp st; np ← node_of vp st; ramfs_remove_node dnp np st.

(** [vp2] is 0 when there is no file of the new name. *)
Definition ramfs_rename (dvp1 vp1 dvp2 vp2 : Z) (name2 : list Z) (st : ramfs) : option (Z * ramfs) :=
  '(error, st) ← (if negb (vp2 =? 0) then
                    dnp2 ← node_of dvp2 st; np2 ← node_of vp2 st; ramfs_remove_node dnp2 np2 st
                  else Some (0, st));
  if negb (error =? 0) then Some (error, st)
  else
    old_np ← node_of vp1 st;
    if dvp1 =? dvp2 then ramfs_rename_node old_np name2 st
    else
      dnp2 ← node_of dvp2 st;
      old ← nodes st !! old_np;
      '(np, st) ← ramfs_add_node dnp2 name2 (rn_type old) st;
      if np =? 0 then Some (ENOMEM, st)
      else
        old ← nodes st !! old_np;
        st ← (if negb (rn_buf old =? 0) then
                n ← nodes st !! np;
                let st := set_node st np (set_file n (rn_size old) (rn_buf old) (rn_bufsize old) (rn_owns_buf n)) in
                Some (set_node st old_np (set_file old (rn_size old) 0 (rn_bufsize old) (rn_owns_buf old)))
              else Some st);
        dnp1 ← node_of dvp1 st;
        '(_, st) ← ramfs_remove_node dnp1 old_np st;
        Some (0, st).

Record dirent := Dirent { d_fileno : Z; d_type : Z; d_name : list Z }.

(** [for (i = 0; i != count; i++) np = np->rn_next], until the list ends. *)
Fixpoint nth_node (fuel : nat) (ns : gmap Z ramfs_node) (count np : Z) : option (option Z) :=
  if count =? 0 then Some (Some np)
  else
    n ← ns !! np;
    if rn_next n =? 0 then Some None
    else match fuel with O => None | S fuel' => nth_node fuel' ns (count - 1) (rn_next n) end.

(** The string in a buffer. *)
Fixpoint c_string (l : list Z) : list Z :=
  match l with [] => [] | c :: l' => if c =? 0 then [] else c :: c_string l' end.

(** [f_offset] is the position of the open directory; the result has the new one. *)
Definition ramfs_readdir (vp f_offset : Z) (st : ramfs) : option (Z * option dirent * Z * ramfs) :=
  dnp ← node_of vp st;
  d ← nodes st !! dnp;
  let st := set_node st dnp (touch_a d) in
  if f_offset =? 0 then Some (0, Some (Dirent f_offset DT_DIR [46]), f_offset + 1, st)
  else if f_offset =? 1 then Some (0, Some (Dirent f_offset DT_DIR [46; 46]), f_offset + 1, st)
  else if rn_child d =? 0 then Some (ENOENT, None, f_offset, st)
  else
    r ← nth_node (size (nodes st)) (nodes st) (f_offset - 2) (rn_child d);
    match r with
    | None => Some (ENOENT, None, f_offset, st)
    | Some np =>
        n ← nodes st !! np;
        let type := if rn_type n =? VDIR then DT_DIR else if rn_type n =? VLNK then DT_LNK else DT_REG in
        Some (0, Some (Dirent f_offset type (take 255 (c_string (rn_name n)))), f_offset + 1, st)
    end.

(** ** Files *)

Definition set_v_size (vp : Z) (v : Vnode.vnode) (size : Z) (st : ramfs) : ramfs :=
  set_vt st (Vnode.set_vnode (vt st) vp
    (set_data v (Vnode.v_type v) (Vnode.v_mode v) size (Vnode.v_data v))) (inode_count st).

(** The bytes from [uio_offset] on that are there, at most as many as asked for. *)
Definition read_len (size : Z) (u : uio) : Z :=
  if size - uio_offset u <? uio_resid u then size - uio_offset u else uio_resid u.

Definition read_buf (np : Z) (len : Z) (u : uio) (st : ramfs) : option (Z * uio * ramfs) :=
  n ← nodes st !! np;
  let st := set_node st np (touch_a n) in
  b ← blocks st !! rn_buf n;
  '(_, u) ← vfscore_uiomove (b_data b) (uio_offset u) len u;
  Some (0, u, st).

Definition ramfs_read (vp : Z) (u : uio) (st : ramfs) : option (Z * uio * ramfs) :=
  v ← Vnode.vnodes (vt st) !! vp;
  if Vnode.v_type v =? VDIR then Some (EISDIR, u, st)
  else if negb (Vnode.v_type v =? VREG) then Some (EINVAL, u, st)
  else if uio_offset u <? 0 then Some (EINVAL, u, st)
  else if uio_resid u =? 0 then Some (0, u, st)
  else if Vnode.v_size v <=? uio_offset u then Some (0, u, st)
  else read_buf (Vnode.v_data v) (read_len (Vnode.v_size v) u) u st.

Definition ramfs_readlink (vp : Z) (u : uio) (st : ramfs) : option (Z * uio * ramfs) :=
  v ← Vnode.vnodes (vt st) !! vp;
  if negb (Vnode.v_type v =? VLNK) then Some (EINVAL, u, st)
  else if uio_offset u <? 0 then Some (EINVAL, u, st)
  else if uio_resid u =? 0 then Some (0, u, st)
  else if Vnode.v_size v <=? uio_offset u then Some (0, u, st)
  else read_buf (Vnode.v_data v) (read_len (Vnode.v_size v) u) u st.

(** The first [size] bytes of the old buffer go into the new one, and the old one is freed. *)
Definition move_buf (n : ramfs_node) (size : Z) (data : list Z) (st : ramfs) : option (list Z * ramfs) :=
  if rn_size n =? 0 then Some (data, st)
  else
    old ← blocks st !! rn_buf n;
    bytes ← buf_read (b_data old) 0 (u64 size);
    data ← buf_write data 0 bytes;
    st ← (if rn_owns_buf n then free_block (rn_buf n) st else Some st);
    Some (data, st).

Definition ramfs_truncate (vp length : Z) (st : ramfs) : option (Z * ramfs) :=
  v ← Vnode.vnodes (vt st) !! vp;
  let np := Vnode.v_data v in
  n ← nodes st !! np;
  let finish n st :=
    Some (0, set_v_size vp v length
      (set_node st np (touch_mc (set_file n length (rn_buf n) (rn_bufsize n) (rn_owns_buf n))))) in
  if length =? 0 then
    if negb (rn_buf n =? 0) then
      st ← (if rn_owns_buf n then free_block (rn_buf n) st else Some st);
      finish (set_file n (rn_size n) 0 0 (rn_owns_buf n)) st
    else finish n st
  else if rn_bufsize n <? u64 length then
    let new_size := round_pgup length in
    let '(new_buf, data, st) := malloc new_size st in
    if new_buf =? 0 then Some (EIO, st)
    else
      '(data, st) ← move_buf n (Vnode.v_size v) data st;
      finish (set_file n (rn_size n) new_buf new_size true)
        (set_blocks st (<[new_buf := Block data true]> (blocks st)))
  else finish n st.

(** [data] is the address of memory of the caller. *)
Definition ramfs_set_file_data (vp data size : Z) (st : ramfs) : option (Z * ramfs) :=
  v ← Vnode.vnodes (vt st) !! vp;
  if Vnode.v_type v =? VDIR then Some (EISDIR, st)
  else if negb (Vnode.v_type v =? VREG) then Some (EINVAL, st)
  else
    n ← nodes st !! Vnode.v_data v;
    if negb (rn_buf n =? 0) then Some (EINVAL, st)
    else Some (0, set_v_size vp v size (set_node st (Vnode.v_data v) (set_file n size data size false))).

(** Growing the file before a write that ends behind it; [inr] goes on. *)
Definition grow (vp : Z) (v : Vnode.vnode) (u : uio) (st : ramfs) : option (Z * ramfs) :=
  let np := Vnode.v_data v in
  n ← nodes st !! np;
  if u64 (Vnode.v_size v) <? u64 (uio_offset u + uio_resid u) then
    let end_pos := sext 64 (uio_offset u + uio_resid u) in
    let finish n st := Some (0, set_v_size vp v end_pos (set_node st np (set_file n end_pos (rn_buf n) (rn_bufsize n) true))) in
    if sext 64 (rn_bufsize n) <? end_pos then
      let new_size := round_pgup end_pos in
      let '(new_buf, _, st) := malloc new_size st in
      if new_buf =? 0 then Some (EIO, st)
      else
        '(data, st) ← move_buf n (Vnode.v_size v) (replicate (Z.to_nat new_size) 0) st;
        finish (set_file n (rn_size n) new_buf new_size (rn_owns_buf n))
          (set_blocks st (<[new_buf := Block data true]> (blocks st)))
    else finish n st
  else Some (0, st).

Definition set_offset (u : uio) (off : Z) : uio := MkUio (uio_done u) (uio_iov u) off (uio_resid u) (uio_dir u).

Definition ramfs_write (vp : Z) (u : uio) (ioflag : Z) (st : ramfs) : option (Z * uio * ramfs) :=
  v ← Vnode.vnodes (vt st) !! vp;
  if Vnode.v_type v =? VDIR then Some (EISDIR, u, st)
  else if negb (Vnode.v_type v =? VREG) then Some (EINVAL, u, st)
  else if uio_offset u <? 0 then Some (EINVAL, u, st)
  else if LONG_MAX <=? uio_offset u then Some (EFBIG, u, st)
  else if uio_resid u =? 0 then Some (0, u, st)
  else
    n ← nodes st !! Vnode.v_data v;
    let u := if negb (Z.land ioflag IO_APPEND =? 0) then set_offset u (rn_size n) else u in
    '(error, st) ← grow vp v u st;
    if negb (error =? 0) then Some (error, u, st)
    else
      n ← nodes st !! Vnode.v_data v;
      let st := set_node st (Vnode.v_data v) (touch_mc n) in
      b ← blocks st !! rn_buf n;
      '(data, u) ← vfscore_uiomove (b_data b) (uio_offset u) (uio_resid u) u;
      Some (0, u, set_blocks st (<[rn_buf n := Block data (b_malloced b)]> (blocks st))).

(** ** Attributes *)

Record vattr := Vattr {
  va_mask : Z; va_type : Z; va_mode : Z; va_nodeid : Z; va_atime : timespec; va_mtime : timespec;
  va_ctime : timespec; va_size : Z
}.

Definition ramfs_getattr (vp mask : Z) (st : ramfs) : option vattr :=
  v ← Vnode.vnodes (vt st) !! vp;
  n ← nodes st !! Vnode.v_data v;
  Some (Vattr mask (rn_type n) (rn_mode n) (Vnode.v_ino v) (rn_atime n) (rn_mtime n) (rn_ctime n) (Vnode.v_size v)).

Definition ramfs_setattr (vp : Z) (a : vattr) (st : ramfs) : option ramfs :=
  np ← node_of vp st;
  n ← nodes st !! np;
  let has m := negb (Z.land (va_mask a) m =? 0) in
  Some (set_node st np (set_attr n
    (if has AT_CTIME then va_ctime a else rn_ctime n)
    (if has AT_ATIME then va_atime a else rn_atime n)
    (if has AT_MTIME then va_mtime a else rn_mtime n)
    (if has AT_MODE then va_mode a else rn_mode n))).

(** [vp] is the vnode of the root, the name is a slash. *)
Definition ramfs_mount (vp : Z) (st : ramfs) : option (Z * ramfs) :=
  let '(np, st) := ramfs_allocate_node [47] VDIR st in
  if np =? 0 then Some (ENOMEM, st)
  else
    v ← Vnode.vnodes (vt st) !! vp;
    Some (0, set_vt st (Vnode.set_vnode (vt st) vp
      (set_data v (Vnode.v_type v) (Vnode.v_mode v) (Vnode.v_size v) np)) (inode_count st)).

(** Membership in lists that are written out. *)
Ltac mem_now :=
  rewrite ?elem_of_app, ?elem_of_cons, ?elem_of_app, ?elem_of_cons, ?elem_of_nil in *; intuition congruence.

(** ** Lists of siblings *)

Fixpoint siblings (ns : gmap Z ramfs_node) (p : Z) (l : list Z) : Prop :=
  match l with
  | [] => p = 0
  | x :: l' => p = x /\ x <> 0 /\ exists n, ns !! x = Some n /\ siblings ns (rn_next n) l'
  end.

Lemma sib_head ns p l : siblings ns p l -> (p =? 0) = match l with [] => true | _ => false end.
Proof. destruct l as [|x l]; cbn; [by intros ->|]. intros (-> & Hx & _). by apply Z.eqb_neq. Qed.

Lemma sib_det ns p l1 l2 : siblings ns p l1 -> siblings ns p l2 -> l1 = l2.
Proof.
  revert p l2. induction l1 as [|x l1 IH]; intros p [|y l2]; cbn.
  - done.
  - intros -> (-> & ? & _). done.
  - intros (-> & ? & _) ->. done.
  - intros (-> & _ & n & Hn & H1) (<- & _ & m & Hm & H2). f_equal.
    rewrite Hn in Hm. injection Hm as <-. by eapply IH.
Qed.

Lemma sib_live ns p l x : siblings ns p l -> x ∈ l -> x <> 0 /\ is_Some (ns !! x).
Proof.
  revert p. induction l as [|y l IH]; intros p; cbn; [by intros _ ?%not_elem_of_nil|].
  intros (-> & Hy & n & Hn & Hc) [->|Hx]%elem_of_cons; [by split; [|exists n]|]. by eapply IH.
Qed.

(** The list depends on the links of its own nodes only. *)
Lemma sib_frame ns ns' p l :
  siblings ns p l ->
  (forall x n, x ∈ l -> ns !! x = Some n -> exists n', ns' !! x = Some n' /\ rn_next n' = rn_next n) ->
  siblings ns' p l.
Proof.
  revert p. induction l as [|y l IH]; intros p; cbn; [done|].
  intros (-> & Hy & n & Hn & Hc) H. split; [done|]. split; [done|].
  destruct (H y n (list_elem_of_here _ _) Hn) as (n' & Hn' & E). exists n'. split; [done|].
  rewrite E. apply IH; [done|]. intros x m Hx. by apply H, list_elem_of_further.
Qed.

Lemma sib_insert ns p l x n : siblings ns p l -> x ∉ l -> siblings (<[x := n]> ns) p l.
Proof.
  intros Hc Hx. apply (sib_frame ns); [done|]. intros y m Hy Hm. exists m. split; [|done].
  rewrite lookup_insert_ne; [done|]. by intros ->.
Qed.

Lemma sib_delete ns p l x : siblings ns p l -> x ∉ l -> siblings (delete x ns) p l.
Proof.
  intros Hc Hx. apply (sib_frame ns); [done|]. intros y m Hy Hm. exists m. split; [|done].
  rewrite lookup_delete_ne; [done|]. by intros ->.
Qed.

(** The list is no longer than there are nodes. *)
Lemma sib_length ns p l : siblings ns p l -> NoDup l -> (length l <= size ns)%nat.
Proof.
  intros Hc ND. rewrite <- (size_dom (D := gset Z)). rewrite <- (size_list_to_set (C := gset Z) l) by done.
  apply subseteq_size. intros x Hx%elem_of_list_to_set. apply elem_of_dom. by apply (sib_live ns p l).
Qed.

Lemma last_node_spec fuel ns : forall p l z,
  siblings ns p (l ++ [z]) -> (length l <= fuel)%nat -> last_node fuel ns p = Some z.
Proof.
  induction fuel as [|fuel IH]; intros p l z Hc Hf; destruct l as [|x l]; cbn [length] in Hf; try lia;
    cbn [app siblings] in Hc; destruct Hc as (-> & Hx & n & Hn & Hc); cbn [last_node]; rewrite Hn;
    cbn [mbind option_bind].
  - by rewrite Hc.
  - by rewrite Hc.
  - rewrite (sib_head _ _ _ Hc). assert (E : match l ++ [z] with [] => true | _ => false end = false) by (by destruct l).
    rewrite E. apply (IH _ l z); [done|lia].
Qed.

(** Appending a new node behind the last one. *)
Lemma sib_append ns p l z np zn nn :
  siblings ns p (l ++ [z]) -> NoDup (l ++ [z]) -> ns !! z = Some zn -> np <> 0 -> np ∉ l ++ [z] ->
  ns !! np = Some nn -> rn_next nn = 0 ->
  siblings (<[z := set_next zn np]> ns) p ((l ++ [z]) ++ [np]).
Proof.
  revert p. induction l as [|x l IH]; intros p; cbn [app siblings].
  - intros (-> & Hz & n & Hn & Hc) _ Ez Hnp Hni Hnn H0. split; [done|]. split; [done|].
    exists (set_next zn np). rewrite lookup_insert_eq. split; [done|]. cbn [rn_next set_next].
    split; [done|]. split; [done|]. exists nn. split; [|done]. rewrite lookup_insert_ne; [done|].
    intros ->. apply Hni, list_elem_of_here.
  - intros (-> & Hx & n & Hn & Hc) [Hni ND]%NoDup_cons Ez Hnp Hni' Hnn H0. split; [done|]. split; [done|].
    exists n. split.
    + rewrite lookup_insert_ne; [done|]. intros ->. apply Hni. apply elem_of_app. right. apply list_elem_of_here.
    + apply IH; try done. intros Hin. apply Hni'. by apply list_elem_of_further.
Qed.

Lemma find_prev_spec fuel ns np : forall p l,
  siblings ns p l -> np <> 0 -> p <> np -> p <> 0 -> (length l <= S fuel)%nat ->
  (np ∉ l -> find_prev fuel ns np p = Some None) /\
  (forall l1 prev l2, l = l1 ++ prev :: np :: l2 -> NoDup l -> find_prev fuel ns np p = Some (Some prev)).
Proof.
  induction fuel as [|fuel IH]; intros p l Hc Hnp Hp H0 Hf;
    (destruct l as [|x l]; cbn [siblings] in Hc; [done|]); destruct Hc as (-> & Hx & n & Hn & Hc);
    cbn [find_prev length] in *; rewrite Hn; cbn [mbind option_bind];
    (destruct l as [|y l]; cbn [siblings length] in *;
      [rewrite Hc; destruct (Z.eqb_spec 0 np); [congruence|]; rewrite Z.eqb_refl; split; [done|];
       intros [|? [|? l1]] ? ? [=] |]); try lia.
  destruct Hc as (-> & Hy & m & Hm & Hc). destruct (Z.eqb_spec y np) as [->|Hny].
  - split; [intros Hni; exfalso; apply Hni; mem_now|]. intros l1 prev l2 E ND.
    destruct l1 as [|a l1]; [by injection E as -> _|]. injection E as -> E.
    destruct l1 as [|b l1].
    + injection E as -> ->. exfalso. apply NoDup_cons in ND as [_ ND]. apply NoDup_cons in ND as [ND _].
      apply ND, list_elem_of_here.
    + injection E as -> ->. exfalso. apply NoDup_cons in ND as [_ ND]. apply NoDup_cons in ND as [ND _].
      apply ND. mem_now.
  - destruct (Z.eqb_spec y 0); [done|].
    destruct (IH y (y :: l)) as [I1 I2]; try done; [cbn; split; [done|]; split; [done|]; by exists m|cbn [length]; lia|].
    split.
    + intros Hni. apply I1. intros Hin. apply Hni. by apply list_elem_of_further.
    + intros l1 prev l2 E ND. apply NoDup_cons in ND as [_ ND]. destruct l1 as [|a l1].
      * by injection E as -> -> _.
      * injection E as -> E. by apply (I2 l1 prev l2).
Qed.

(** Taking a node that is not the first one out of the list. *)
Lemma sib_unlink ns p l1 prev np l2 pn n :
  siblings ns p (l1 ++ prev :: np :: l2) -> NoDup (l1 ++ prev :: np :: l2) ->
  ns !! prev = Some pn -> ns !! np = Some n ->
  siblings (<[prev := set_next pn (rn_next n)]> ns) p (l1 ++ prev :: l2).
Proof.
  revert p. induction l1 as [|x l1 IH]; intros p; cbn [app siblings].
  - intros (-> & Hp & m & Hm & _ & Hnp & m' & Hm' & Hc) ND Ep En. split; [done|]. split; [done|].
    exists (set_next pn (rn_next n)). rewrite lookup_insert_eq. split; [done|]. cbn [rn_next set_next].
    assert (m' = n) as -> by congruence. apply sib_insert; [done|].
    apply NoDup_cons in ND as [ND _]. mem_now.
  - intros (-> & Hx & m & Hm & Hc) [Hni ND]%NoDup_cons Ep En. split; [done|]. split; [done|]. exists m.
    split; [|by apply IH]. rewrite lookup_insert_ne; [done|]. intros ->. mem_now.
Qed.

(** The name of a node. *)
Definition name_of (n : ramfs_node) : list Z := take (Z.to_nat (rn_namelen n)) (rn_name n).

Record node_ok (n : ramfs_node) : Prop := NodeOk {
  no_len : 0 <= rn_namelen n <= NAME_MAX;
  no_name : exists junk, rn_name n = name_of n ++ 0 :: junk;
  no_chars : 0 ∉ name_of n
}.

Lemma name_length n : node_ok n -> zlen (name_of n) = rn_namelen n.
Proof.
  intros [Hl (junk & E) _]. assert (length (rn_name n) = length (name_of n ++ 0 :: junk)) as H by (by rewrite <- E).
  unfold name_of in *. rewrite length_app, length_take in H. cbn [length] in H. rewrite length_take. lia.
Qed.

Lemma c_string_app l junk : 0 ∉ l -> c_string (l ++ 0 :: junk) = l.
Proof.
  induction l as [|c l IH]; intros Hc; [done|]. cbn [app c_string].
  apply not_elem_of_cons in Hc as [Hc Hl]. destruct (Z.eqb_spec c 0); [congruence|]. f_equal. by apply IH.
Qed.

Lemma c_string_name n : node_ok n -> c_string (rn_name n) = name_of n.
Proof. intros [_ (junk & E) Hc]. rewrite E. by apply c_string_app. Qed.

(** The comparison of the look-up. *)
Lemma same_name n name :
  node_ok n ->
  (if rn_namelen n =? zlen name then
     bytes ← buf_read (rn_name n) 0 (zlen name); Some (bool_decide (bytes = name))
   else Some false) = Some (bool_decide (name_of n = name)).
Proof.
  intros Hn. pose proof (name_length n Hn) as Hl. destruct (no_name _ Hn) as (junk & E).
  destruct (Z.eqb_spec (rn_namelen n) (zlen name)) as [El|El].
  - rewrite buf_read_ok; try lia.
    + cbn [mbind option_bind]. rewrite <- El. done.
    + rewrite E, length_app. cbn [length]. lia.
  - f_equal. symmetry. apply bool_decide_eq_false. intros <-. lia.
Qed.

Definition named (ns : gmap Z ramfs_node) (name : list Z) (x : Z) : Prop :=
  exists n, ns !! x = Some n /\ name_of n = name.

Lemma find_name_spec fuel ns name : forall p l,
  siblings ns p l -> (forall x n, ns !! x = Some n -> node_ok n) -> (length l <= fuel)%nat ->
  exists r, find_name fuel ns name p = Some r /\
    match r with
    | Some x => exists l1 l2, l = l1 ++ x :: l2 /\ named ns name x /\ Forall (fun y => ~ named ns name y) l1
    | None => Forall (fun y => ~ named ns name y) l
    end.
Proof.
  induction fuel as [|fuel IH]; intros p l Hc Hok Hf; (destruct l as [|x l]; cbn [length siblings] in *;
    [rewrite Hc; exists None; split; [done|constructor]|]); [lia|].
  destruct Hc as (-> & Hx & n & Hn & Hc). cbn [find_name]. destruct (Z.eqb_spec x 0); [done|].
  rewrite Hn. cbn [mbind option_bind]. pose proof (same_name n name (Hok x n Hn)) as Es.
  cbn [mbind option_bind] in Es. rewrite Es. cbn [mbind option_bind].
  destruct (bool_decide_reflect (name_of n = name)) as [E|E].
  - exists (Some x). split; [done|]. exists [], l. split; [done|]. split; [by exists n|constructor].
  - destruct (IH (rn_next n) l Hc Hok ltac:(lia)) as (r & -> & Hr). exists r. split; [done|].
    assert (Hnx : ~ named ns name x) by (intros (m & Hm & Em); congruence).
    destruct r as [y|].
    + destruct Hr as (l1 & l2 & -> & Hy & Hl). exists (x :: l1), l2. split; [done|]. split; [done|]. by constructor.
    + by constructor.
Qed.

Lemma nth_node_spec fuel ns : forall p l count,
  siblings ns p l -> p <> 0 -> (length l <= S fuel)%nat -> 0 <= count ->
  nth_node fuel ns count p = Some (l !! Z.to_nat count).
Proof.
  induction fuel as [|fuel IH]; intros p l count Hc Hp Hf H0; (destruct l as [|x l]; cbn [length siblings] in *; [done|]);
    destruct Hc as (-> & Hx & n & Hn & Hc); cbn [nth_node]; destruct (Z.eqb_spec count 0) as [->|Hne];
    try done; rewrite Hn; cbn [mbind option_bind];
    replace (Z.to_nat count) with (S (Z.to_nat (count - 1))) by lia; cbn [lookup list_lookup].
  - destruct l; [|cbn [length] in Hf; lia]. cbn [siblings] in Hc. by rewrite Hc.
  - rewrite (sib_head _ _ _ Hc). destruct l as [|y l]; [done|]. cbn [length] in Hf.
    rewrite (IH (rn_next n) (y :: l)); [done|done| |cbn [length]; lia|lia].
    cbn [siblings] in Hc. destruct Hc as (-> & Hy & _). done.
Qed.

(** ** The tree

    [K d] are the children of [d] in order. *)
Record tree (ns : gmap Z ramfs_node) (K : Z -> list Z) : Prop := Tree {
  t_chain : forall d n, ns !! d = Some n -> siblings ns (rn_child n) (K d);
  t_nodup : forall d, is_Some (ns !! d) -> NoDup (K d) /\ d ∉ K d;
  t_disj : forall d1 d2 x, is_Some (ns !! d1) -> is_Some (ns !! d2) -> x ∈ K d1 -> x ∈ K d2 -> d1 = d2;
  t_null : ns !! 0 = None
}.

(** Changes of a node that leave its links alone. *)
Lemma tree_update ns K p n n' :
  tree ns K -> ns !! p = Some n -> rn_next n' = rn_next n -> rn_child n' = rn_child n ->
  tree (<[p := n']> ns) K.
Proof.
  intros [C N D ZN] Hp En Ec.
  assert (Hs : forall d, is_Some (<[p := n']> ns !! d) <-> is_Some (ns !! d)).
  { intros d. rewrite lookup_insert_is_Some. split; [intros [<-|[_ ?]]; [by exists n|done]|].
    destruct (decide (p = d)); [by left|by right]. }
  split.
  - intros d m Hm. apply (sib_frame ns).
    + rewrite lookup_insert_Some in Hm. destruct Hm as [[<- <-]|[_ Hm]]; [rewrite Ec|]; by apply C.
    + intros x k _ Hk. destruct (decide (x = p)) as [->|Hne].
      * exists n'. rewrite lookup_insert_eq. split; [done|]. congruence.
      * exists k. by rewrite lookup_insert_ne.
  - intros d. rewrite Hs. apply N.
  - intros d1 d2 x. rewrite !Hs. apply D.
  - rewrite lookup_insert_ne; [done|]. intros ->. congruence.
Qed.

Definition set_kids (K : Z -> list Z) (d : Z) (l : list Z) : Z -> list Z := fun x => if decide (x = d) then l else K x.

Lemma kids_eq K d l : set_kids K d l d = l.
Proof. unfold set_kids. by rewrite decide_True. Qed.
Lemma kids_ne K d l x : x <> d -> set_kids K d l x = K x.
Proof. intros. unfold set_kids. by rewrite decide_False. Qed.

(** Changing one link, of the directory or of one of its children, such that [l] is the new list
    of [d]. *)
Lemma tree_relink ns K p n n' d m l :
  tree ns K -> ns !! p = Some n -> <[p := n']> ns !! d = Some m -> is_Some (ns !! d) ->
  (p = d /\ rn_next n' = rn_next n \/ p ∈ K d /\ rn_child n' = rn_child n) ->
  siblings (<[p := n']> ns) (rn_child m) l -> NoDup l -> d ∉ l ->
  (forall x, x ∈ l -> x ∈ K d \/ forall d', is_Some (ns !! d') -> x ∉ K d') ->
  tree (<[p := n']> ns) (set_kids K d l).
Proof.
  intros [C N D ZN] Hp Hd Hsd Hor Hl ND Hdl Hnew.
  assert (Hs : forall x, is_Some (<[p := n']> ns !! x) <-> is_Some (ns !! x)).
  { intros x. rewrite lookup_insert_is_Some. split; [intros [<-|[_ ?]]; [by exists n|done]|].
    destruct (decide (p = x)); [by left|by right]. }
  split.
  - intros x k Hk. destruct (decide (x = d)) as [->|Hne].
    + rewrite kids_eq. by rewrite Hd in Hk; injection Hk as <-.
    + rewrite kids_ne by done. assert (is_Some (ns !! x)) as [k0 Hk0] by (apply Hs; by exists k).
      assert (Ek : rn_child k = rn_child k0).
      { destruct (decide (x = p)) as [->|Hxp].
        - rewrite lookup_insert_eq in Hk. injection Hk as <-. rewrite Hp in Hk0. injection Hk0 as <-.
          destruct Hor as [[-> _]|[_ E]]; [done|done].
        - rewrite lookup_insert_ne in Hk by done. congruence. }
      rewrite Ek. destruct Hor as [[-> En]|[Hpd _]].
      * apply (sib_frame ns); [by apply C|]. intros y q _ Hq. destruct (decide (y = d)) as [->|Hyd].
        -- exists n'. rewrite lookup_insert_eq. split; [done|]. congruence.
        -- exists q. by rewrite lookup_insert_ne.
      * apply sib_insert; [by apply C|]. intros Hpx. apply Hne, (D x d p); done || by exists k0.
  - intros x Hx%Hs. destruct (decide (x = d)) as [->|Hne]; [by rewrite kids_eq|]. rewrite kids_ne by done. by apply N.
  - intros d1 d2 x H1%Hs H2%Hs Hx1 Hx2. unfold set_kids in *.
    destruct (decide (d1 = d)) as [->|], (decide (d2 = d)) as [->|]; try done.
    + destruct (Hnew x Hx1) as [Hk|Hk]; [|by destruct (Hk d2 H2)]. by apply (D d d2 x).
    + destruct (Hnew x Hx2) as [Hk|Hk]; [|by destruct (Hk d1 H1)]. by apply (D d1 d x).
    + by apply (D d1 d2 x).
  - rewrite lookup_insert_ne; [done|]. intros ->. congruence.
Qed.

(** A new node that is in no directory. *)
Lemma tree_fresh ns K np n :
  tree ns K -> ns !! np = None -> np <> 0 -> rn_next n = 0 -> rn_child n = 0 ->
  tree (<[np := n]> ns) (set_kids K np []) /\ forall d, is_Some (ns !! d) -> np ∉ K d.
Proof.
  intros [C N D ZN] Hf H0 En Ec.
  assert (Hni : forall d, is_Some (ns !! d) -> np ∉ K d).
  { intros d [m Hm] Hin. destruct (sib_live ns (rn_child m) (K d) np (C d m Hm) Hin) as [_ [? ?]]. congruence. }
  split; [|done]. split.
  - intros d m Hm. rewrite lookup_insert_Some in Hm. destruct Hm as [[<- <-]|[Hne Hm]].
    + by rewrite kids_eq, Ec.
    + rewrite kids_ne by done. apply sib_insert; [by apply C|]. apply Hni. by exists m.
  - intros d. destruct (decide (d = np)) as [->|Hne].
    + rewrite kids_eq. intros _. split; [constructor|apply not_elem_of_nil].
    + rewrite kids_ne, lookup_insert_ne by done. apply N.
  - intros d1 d2 x. unfold set_kids. repeat case_decide; subst; try done; try (intros _ _ ?%not_elem_of_nil; done);
      try (intros _ _ _ ?%not_elem_of_nil; done). rewrite !lookup_insert_ne by done. apply D.
  - by rewrite lookup_insert_ne.
Qed.

(** A node that is in no directory goes away. *)
Lemma tree_delete ns K np :
  tree ns K -> (forall d, is_Some (ns !! d) -> np ∉ K d) -> tree (delete np ns) K.
Proof.
  intros [C N D ZN] Hni.
  assert (Hs : forall x, is_Some (delete np ns !! x) -> is_Some (ns !! x)) by (intros x; rewrite lookup_delete_is_Some; tauto).
  split.
  - intros d m [Hne Hm]%lookup_delete_Some. apply sib_delete; [by apply C|]. apply Hni. by exists m.
  - intros d Hd%Hs. by apply N.
  - intros d1 d2 x H1%Hs H2%Hs. by apply D.
  - by rewrite lookup_delete_None; right.
Qed.

(** ** Files *)

(** The bytes of a node's buffer are there, and only a buffer that came from [malloc] is freed. *)
Definition file_ok (bs : gmap Z block) (n : ramfs_node) : Prop :=
  if rn_buf n =? 0 then rn_bufsize n = 0 /\ rn_size n = 0
  else exists b, bs !! rn_buf n = Some b /\ 0 <= rn_size n <= rn_bufsize n /\
    rn_bufsize n <= zlen (b_data b) < 2 ^ 63 /\ b_malloced b = rn_owns_buf n /\
    (rn_owns_buf n = false -> rn_size n = rn_bufsize n).

Record files (ns : gmap Z ramfs_node) (bs : gmap Z block) : Prop := Files {
  f_node : forall p n, ns !! p = Some n -> node_ok n;
  f_file : forall p n, ns !! p = Some n -> file_ok bs n;
  f_apart : forall p q n m, ns !! p = Some n -> ns !! q = Some m -> rn_buf n = rn_buf m ->
    rn_buf n <> 0 -> p = q
}.

(** Changing a node that keeps or changes its own buffer. *)
Lemma files_update ns bs bs' p n n' :
  files ns bs -> ns !! p = Some n -> node_ok n' -> file_ok bs' n' ->
  (forall q m, q <> p -> ns !! q = Some m -> rn_buf m <> 0 -> rn_buf m <> rn_buf n' /\ bs' !! rn_buf m = bs !! rn_buf m) ->
  files (<[p := n']> ns) bs'.
Proof.
  intros [N F A] Hp Hn Hf Ho. split.
  - intros q m Hm. rewrite lookup_insert_Some in Hm. destruct Hm as [[<- <-]|[Hne Hm]]; [done|]. by apply (N q).
  - intros q m Hm. rewrite lookup_insert_Some in Hm. destruct Hm as [[<- <-]|[Hne Hm]]; [done|].
    pose proof (F q m Hm) as Fm. unfold file_ok in *. destruct (Z.eqb_spec (rn_buf m) 0); [done|].
    destruct (Ho q m) as [_ ->]; done.
  - intros q r m k Hm Hk E H0. rewrite lookup_insert_Some in Hm, Hk.
    destruct Hm as [[<- <-]|[Hq Hm]], Hk as [[<- <-]|[Hr Hk]]; try done.
    + destruct (Ho r k) as [Hx _]; try done; congruence.
    + destruct (Ho q m) as [Hx _]; done.
    + by apply (A q r m k).
Qed.

Lemma files_add ns bs np n :
  files ns bs -> node_ok n -> rn_buf n = 0 -> rn_bufsize n = 0 -> rn_size n = 0 -> files (<[np := n]> ns) bs.
Proof.
  intros [N F A] Hn Hb Hs Hz. split.
  - intros q m Hm. rewrite lookup_insert_Some in Hm. destruct Hm as [[<- <-]|[Hne Hm]]; [done|]. by apply (N q).
  - intros q m Hm. rewrite lookup_insert_Some in Hm. destruct Hm as [[<- <-]|[Hne Hm]].
    + unfold file_ok. by rewrite Hb.
    + by apply (F q).
  - intros q r m k Hm Hk E H0. rewrite lookup_insert_Some in Hm, Hk.
    destruct Hm as [[<- <-]|[Hq Hm]], Hk as [[<- <-]|[Hr Hk]]; try done; [congruence|].
    by apply (A q r m k).
Qed.

(** Links and attributes are no matter of the files. *)
Lemma files_same ns bs p n n' :
  files ns bs -> ns !! p = Some n -> rn_name n' = rn_name n -> rn_namelen n' = rn_namelen n ->
  rn_size n' = rn_size n -> rn_buf n' = rn_buf n -> rn_bufsize n' = rn_bufsize n ->
  rn_owns_buf n' = rn_owns_buf n -> files (<[p := n']> ns) bs.
Proof.
  intros F Hp E1 E2 E3 E4 E5 E6. apply (files_update ns bs bs p n); try done.
  - destruct (f_node _ _ F p n Hp) as [A B C]. unfold name_of in *. split; unfold name_of; rewrite ?E1, ?E2; done.
  - pose proof (f_file _ _ F p n Hp) as Ff. unfold file_ok in *. rewrite E3, E4, E5, E6. done.
  - intros q m Hq Hm H0. split; [|done]. rewrite E4. intros E. apply Hq. by apply (f_apart _ _ F q p m n).
Qed.

(** ** The invariant

    The memory that [malloc] will hand out is not in use. *)
Definition mem_ok (ns : gmap Z ramfs_node) (bs : gmap Z block) (m : list (Z * list Z)) : Prop :=
  NoDup (filter (fun a => a <> 0) (map fst m)) /\
  forall a, a ∈ map fst m -> a <> 0 -> ns !! a = None /\ bs !! a = None.

Record inv (st : ramfs) (K : Z -> list Z) : Prop := Inv {
  i_tree : tree (nodes st) K;
  i_files : files (nodes st) (blocks st);
  i_null : blocks st !! 0 = None;
  i_mem : mem_ok (nodes st) (blocks st) (memory st)
}.

Lemma mem_ok_tail ns bs a j m : mem_ok ns bs ((a, j) :: m) -> mem_ok ns bs m /\
  (a <> 0 -> ns !! a = None /\ bs !! a = None /\ a ∉ map fst m).
Proof.
  intros [ND H]. cbn [map fst] in *. split.
  - split.
    + destruct (decide (a = 0)) as [->|]; [by rewrite filter_cons_False in ND by tauto|].
      rewrite filter_cons_True in ND by done. by apply NoDup_cons in ND as [_ ND].
    + intros b Hb. by apply H, list_elem_of_further.
  - intros Ha. destruct (H a (list_elem_of_here _ _) Ha) as [H1 H2]. split; [done|]. split; [done|].
    rewrite filter_cons_True in ND by done. apply NoDup_cons in ND as [ND _]. intros Hin. apply ND.
    by apply list_elem_of_filter.
Qed.

Lemma mem_ok_use ns bs ns' bs' m a :
  mem_ok ns bs m -> a ∉ map fst m ->
  (forall x, x <> a -> ns !! x = None -> ns' !! x = None) ->
  (forall x, x <> a -> bs !! x = None -> bs' !! x = None) -> mem_ok ns' bs' m.
Proof.
  intros [ND H] Ha Hn Hb. split; [done|]. intros x Hx H0. destruct (H x Hx H0) as [H1 H2].
  assert (x <> a) by (by intros ->). auto.
Qed.

(** Nothing new is in use. *)
Lemma mem_ok_mono ns bs ns' bs' m :
  mem_ok ns bs m -> (forall x, ns !! x = None -> ns' !! x = None) ->
  (forall x, bs !! x = None -> bs' !! x = None) -> mem_ok ns' bs' m.
Proof. intros [ND H] Hn Hb. split; [done|]. intros x Hx H0. destruct (H x Hx H0). auto. Qed.

Lemma insert_none {A} (m : gmap Z A) p (a b : A) x : m !! p = Some a -> m !! x = None -> <[p := b]> m !! x = None.
Proof. intros Hp Hx. rewrite lookup_insert_ne; [done|]. intros ->. congruence. Qed.

(** A change of a node that its directory does not see. *)
Lemma inv_node st K p n n' :
  inv st K -> nodes st !! p = Some n -> rn_next n' = rn_next n -> rn_child n' = rn_child n ->
  files (<[p := n']> (nodes st)) (blocks st) -> inv (set_node st p n') K.
Proof.
  intros [T F B M] Hp En Ec F'. split; cbn [set_node set_nodes nodes blocks memory]; [|done|done|].
  - by apply (tree_update _ _ p n).
  - apply (mem_ok_mono _ _ _ _ _ M); [|done]. intros x. by apply (insert_none _ p n).
Qed.

Lemma inv_attr st K p n c a m mode :
  inv st K -> nodes st !! p = Some n -> inv (set_node st p (set_attr n c a m mode)) K.
Proof. intros I Hp. apply (inv_node st K p n); try done. by apply (files_same _ _ p n); [apply I|..]. Qed.

Definition new_node (type : Z) (name : list Z) (mode : Z) : ramfs_node :=
  Node 0 0 type (name ++ [0]) (zlen name) 0 0 0 now now now mode true.

Lemma new_node_name type name mode : name_of (new_node type name mode) = name.
Proof. unfold name_of, new_node. cbn [rn_namelen rn_name]. rewrite Nat2Z.id. apply take_app_length. Qed.

Lemma new_node_ok type name mode : zlen name <= NAME_MAX -> 0 ∉ name -> node_ok (new_node type name mode).
Proof.
  intros Hl Hc. split; rewrite ?new_node_name; cbn [new_node rn_namelen rn_name]; [lia| |done]. by exists [].
Qed.

Lemma allocate_spec st K name type :
  inv st K -> zlen name <= NAME_MAX -> 0 ∉ name ->
  exists np m st', ramfs_allocate_node name type st = (np, st') /\
    blocks st' = blocks st /\ vt st' = vt st /\ inode_count st' = inode_count st /\
    (np = 0 /\ nodes st' = nodes st /\ inv st' K \/
     np <> 0 /\ nodes st !! np = None /\ nodes st' = <[np := new_node type name m]> (nodes st) /\
     inv st' (set_kids K np []) /\ forall d, is_Some (nodes st !! d) -> np ∉ K d).
Proof.
  intros [T F B M] Hl Hc. unfold ramfs_allocate_node, malloc.
  destruct (memory st) as [|[a j] m] eqn:Em.
  { exists 0, 0, st. cbn. split; [done|]. repeat (split; [done|]). left. split; [done|]. split; [done|].
    split; try done. by rewrite Em. }
  destruct (mem_ok_tail _ _ _ _ _ M) as [M1 Ha]. cbn [memory].
  destruct (Z.eqb_spec a 0) as [->|Hne].
  { exists 0, 0. eexists. split; [done|]. cbn [blocks vt inode_count nodes]. repeat (split; [done|]).
    left. split; [done|]. split; [done|]. by split. }
  destruct (Ha Hne) as (Hn & Hb & Hni). destruct m as [|[b j2] m].
  { exists 0, 0. eexists. split; [done|]. cbn [blocks vt inode_count nodes]. repeat (split; [done|]).
    left. split; [done|]. split; [done|]. by split. }
  destruct (mem_ok_tail _ _ _ _ _ M1) as [M2 _]. cbn [nodes blocks vt inode_count memory].
  destruct (Z.eqb_spec b 0) as [->|Hbne].
  { exists 0, 0. eexists. split; [done|]. cbn [blocks vt inode_count nodes]. repeat (split; [done|]).
    left. split; [done|]. split; [done|]. by split. }
  set (mode := if type =? VDIR then _ else _). fold (new_node type name mode).
  destruct (tree_fresh (nodes st) K a (new_node type name mode) T) as [T' Hk]; try done.
  exists a, mode. eexists. split; [done|]. cbn [blocks vt inode_count nodes set_node set_nodes].
  repeat (split; [done|]). right. repeat (split; [done|]). split; [|done].
  split; cbn [nodes blocks memory set_node set_nodes]; try done.
  - apply files_add; try done. by apply new_node_ok.
  - apply (mem_ok_use _ _ _ _ _ a M2); [cbn [map fst] in Hni; mem_now| |done].
    intros x Hx. by rewrite lookup_insert_ne.
Qed.

(** ** What the user sees

    A node's type, name and bytes, and the children of a directory. *)
Definition content (bs : gmap Z block) (n : ramfs_node) : list Z :=
  match bs !! rn_buf n with Some b => take (Z.to_nat (rn_size n)) (b_data b) | None => [] end.
Definition view (st : ramfs) (x : Z) : option (Z * list Z * list Z) :=
  n ← nodes st !! x; Some (rn_type n, name_of n, content (blocks st) n).
Definition dir (st : ramfs) (d : Z) (l : list Z) : Prop :=
  exists n, nodes st !! d = Some n /\ siblings (nodes st) (rn_child n) l.

Lemma dir_K st K d l : inv st K -> dir st d l -> l = K d.
Proof. intros I (n & Hn & Hc). eapply sib_det; [exact Hc|]. by apply I. Qed.

Lemma K_dir st K d : inv st K -> is_Some (nodes st !! d) -> dir st d (K d).
Proof. intros I [n Hn]. exists n. split; [done|]. by apply I. Qed.

(** Nodes with the same data look the same. *)
Definition alike (n n' : ramfs_node) : Prop :=
  rn_type n' = rn_type n /\ rn_name n' = rn_name n /\ rn_namelen n' = rn_namelen n /\
  rn_size n' = rn_size n /\ rn_buf n' = rn_buf n /\ rn_bufsize n' = rn_bufsize n /\
  rn_owns_buf n' = rn_owns_buf n.

Lemma view_alike st st' x n n' :
  nodes st !! x = Some n -> nodes st' !! x = Some n' -> alike n n' -> blocks st' = blocks st ->
  view st' x = view st x.
Proof.
  intros H H' (E1 & E2 & E3 & E4 & E5 & _) Eb. unfold view, content, name_of. rewrite H, H', Eb.
  cbn [mbind option_bind]. by rewrite E1, E2, E3, E4, E5.
Qed.

Lemma view_insert st p n n' x :
  nodes st !! p = Some n -> alike n n' -> view (set_node st p n') x = view st x.
Proof.
  intros Hp Ha. destruct (decide (x = p)) as [->|Hne].
  - apply (view_alike _ _ p n n'); try done. apply lookup_insert_eq.
  - unfold view. cbn [set_node set_nodes nodes blocks]. by rewrite lookup_insert_ne.
Qed.

(** One link is changed, and with it the children of one directory. *)
Lemma inv_relink st K p n n' d m l :
  inv st K -> nodes st !! p = Some n -> alike n n' -> <[p := n']> (nodes st) !! d = Some m ->
  is_Some (nodes st !! d) ->
  (p = d /\ rn_next n' = rn_next n \/ p ∈ K d /\ rn_child n' = rn_child n) ->
  siblings (<[p := n']> (nodes st)) (rn_child m) l -> NoDup l -> d ∉ l ->
  (forall x, x ∈ l -> x ∈ K d \/ forall d', is_Some (nodes st !! d') -> x ∉ K d') ->
  inv (set_node st p n') (set_kids K d l).
Proof.
  intros [T F B M] Hp (E1 & E2 & E3 & E4 & E5 & E6 & E7) Hd Hs Hor Hl ND Hdl Hnew.
  split; cbn [set_node set_nodes nodes blocks memory]; [|by apply (files_same _ _ p n)|done|].
  - by apply (tree_relink _ _ p n n' d m).
  - apply (mem_ok_mono _ _ _ _ _ M); [|done]. intros x. by apply (insert_none _ p n).
Qed.

(** [np], which is in no directory, becomes the last child of [d]. *)
Lemma link_spec st K d dn np nn :
  inv st K -> nodes st !! d = Some dn -> nodes st !! np = Some nn -> rn_next nn = 0 -> np <> d ->
  (forall x, is_Some (nodes st !! x) -> np ∉ K x) ->
  exists st', (if rn_child dn =? 0 then Some (set_node st d (set_child dn np))
      else prev ← last_node (size (nodes st)) (nodes st) (rn_child dn);
           pn ← nodes st !! prev; Some (set_node st prev (set_next pn np))) = Some st' /\
    inv st' (set_kids K d (K d ++ [np])) /\
    blocks st' = blocks st /\ vt st' = vt st /\ inode_count st' = inode_count st /\
    (forall x, view st' x = view st x) /\ (forall x, is_Some (nodes st' !! x) <-> is_Some (nodes st !! x)).
Proof.
  intros I Hd Hnp H0 Hne Hni. pose proof (t_chain _ _ (i_tree _ _ I) d dn Hd) as Hc.
  destruct (t_nodup _ _ (i_tree _ _ I) d ltac:(by exists dn)) as [ND Hdd].
  assert (Hp0 : np <> 0) by (intros ->; rewrite (t_null _ _ (i_tree _ _ I)) in Hnp; done).
  assert (Hnd : np ∉ K d) by (apply Hni; by exists dn).
  assert (Hs : forall p n n' x, nodes st !! p = Some n ->
    is_Some (nodes (set_node st p n') !! x) <-> is_Some (nodes st !! x)).
  { intros p n n' x Hp. cbn [set_node set_nodes nodes]. rewrite lookup_insert_is_Some.
    split; [intros [<-|[_ ?]]; [by exists n|done]|]. destruct (decide (p = x)); [by left|by right]. }
  assert (ND' : NoDup (K d ++ [np])).
  { apply NoDup_app. split; [done|]. split; [by intros x Hx ->%list_elem_of_singleton|apply NoDup_singleton]. }
  assert (Hd' : d ∉ K d ++ [np]) by mem_now.
  assert (Hnew : forall x, x ∈ K d ++ [np] -> x ∈ K d \/ forall d', is_Some (nodes st !! d') -> x ∉ K d').
  { intros x [Hx|Hx]%elem_of_app; [by left|]. apply list_elem_of_singleton in Hx as ->. by right. }
  rewrite (sib_head _ _ _ Hc).
  assert (HK : K d = [] \/ exists l z, K d = l ++ [z])
    by (destruct (K d) as [|l z _] using rev_ind; [by left|right; by eexists _, _]).
  destruct HK as [EK|(l & z & EK)]; rewrite EK in *.
  - eexists. split; [done|]. split; [|repeat (split; [done|]); split; [|intros x; by apply (Hs d dn)]].
    + apply (inv_relink st K d dn _ d (set_child dn np)); rewrite ?EK; try done.
      * apply lookup_insert_eq.
      * by left.
      * cbn [rn_child set_child app siblings]. split; [done|]. split; [done|]. exists nn.
        rewrite lookup_insert_ne by done. done.
    + intros x. by apply (view_insert st d dn).
  - assert (E : match l ++ [z] with [] => true | _ => false end = false) by (by destruct l). rewrite E.
    pose proof (sib_length _ _ _ Hc ND) as Hlen. rewrite length_app in Hlen. cbn [length] in Hlen.
    rewrite (last_node_spec _ _ _ l z Hc) by lia. cbn [mbind option_bind].
    destruct (sib_live _ _ _ z Hc) as [Hz [zn Hzn]]; [mem_now|]. rewrite Hzn. cbn [mbind option_bind].
    assert (Hzd : z <> d) by (intros ->; mem_now).
    eexists. split; [done|]. split; [|repeat (split; [done|]); split; [|intros x; by apply (Hs z zn)]].
    + apply (inv_relink st K z zn _ d dn); rewrite ?EK; try done.
      * by rewrite lookup_insert_ne.
      * right. split; [mem_now|done].
      * by apply (sib_append _ _ l z np zn nn).
    + intros x. by apply (view_insert st z zn).
Qed.

Lemma kids_comm K a b l1 l2 x : a <> b -> set_kids (set_kids K a l1) b l2 x = set_kids (set_kids K b l2) a l1 x.
Proof. intros Hne. unfold set_kids. repeat case_decide; congruence. Qed.

(** The state after [np] was added to [d]. *)
Record added (st : ramfs) (K : Z -> list Z) (d np : Z) (name : list Z) (type : Z) (st' : ramfs) : Prop := Added {
  a_null : np <> 0;
  a_fresh : nodes st !! np = None;
  a_inv : inv st' (set_kids (set_kids K np []) d (K d ++ [np]));
  a_node : exists n m, nodes st' !! np = Some n /\ alike (new_node type name m) n;
  a_old : forall x n, nodes st !! x = Some n -> exists n', nodes st' !! x = Some n' /\ alike n n';
  a_view : forall x, x <> np -> view st' x = view st x;
  a_live : forall x, is_Some (nodes st' !! x) <-> x = np \/ is_Some (nodes st !! x);
  a_blocks : blocks st' = blocks st;
  a_vt : vt st' = vt st;
  a_inode : inode_count st' = inode_count st
}.

Lemma add_spec st K d name type :
  inv st K -> is_Some (nodes st !! d) -> zlen name <= NAME_MAX -> 0 ∉ name ->
  exists np st', ramfs_add_node d name type st = Some (np, st') /\
    (np = 0 /\ nodes st' = nodes st /\ blocks st' = blocks st /\ vt st' = vt st /\
       inode_count st' = inode_count st /\ inv st' K \/
     added st K d np name type st').
Proof.
  intros I Hd Hl Hc. unfold ramfs_add_node.
  destruct (allocate_spec st K name type I Hl Hc) as (np & m & st1 & -> & Eb & Ev & Ei & [(-> & En & I1)|H]).
  { exists 0, st1. split; [done|]. by left. }
  destruct H as (Hnp & Hf & En & I1 & Hk). destruct (Z.eqb_spec np 0); [done|].
  destruct Hd as [dn Hdn]. assert (Hne : np <> d) by congruence.
  assert (Hd1 : nodes st1 !! d = Some dn) by (by rewrite En, lookup_insert_ne).
  rewrite Hd1. cbn [mbind option_bind].
  destruct (link_spec st1 (set_kids K np []) d dn np (new_node type name m) I1 Hd1) as
    (st2 & E2 & I2 & Eb2 & Ev2 & Ei2 & Vi2 & L2); try done.
  { by rewrite En, lookup_insert_eq. }
  { intros x Hx. destruct (decide (x = np)) as [->|Hxn]; [rewrite kids_eq; apply not_elem_of_nil|].
    rewrite kids_ne by done. apply Hk. by rewrite En, lookup_insert_ne in Hx. }
  rewrite E2. cbn [mbind option_bind]. rewrite kids_ne in I2 by done.
  destruct (proj2 (L2 d) ltac:(by exists dn)) as [d2 Hd2]. rewrite Hd2. cbn [mbind option_bind].
  eexists _, _. split; [done|]. right.
  assert (Ha2 : forall x n, nodes st1 !! x = Some n -> exists n2, nodes st2 !! x = Some n2 /\ alike n n2).
  { clear -E2 Hd1. intros x n Hx.
    assert (Hi : forall z zn zn', nodes st1 !! z = Some zn -> alike zn zn' ->
      exists n2, <[z := zn']> (nodes st1) !! x = Some n2 /\ alike n n2).
    { intros z zn zn' Hz Hza. destruct (decide (z = x)) as [->|Hzx].
      - rewrite lookup_insert_eq. assert (zn = n) as -> by congruence. by eexists.
      - rewrite lookup_insert_ne by done. by eexists. }
    revert E2. destruct (rn_child dn =? 0).
    - intros [= <-]. cbn [set_node set_nodes nodes]. by apply (Hi d dn).
    - destruct (last_node _ _ _) as [z|]; [|done]. cbn [mbind option_bind].
      destruct (nodes st1 !! z) as [zn|] eqn:Hz; [|done]. cbn [mbind option_bind]. intros [= <-].
      cbn [set_node set_nodes nodes]. by apply (Hi z zn). }
  split; try done.
  - by apply inv_attr.
  - destruct (Ha2 np (new_node type name m)) as (n2 & Hn2 & A2); [by rewrite En, lookup_insert_eq|].
    exists n2, m. cbn [set_node set_nodes nodes]. by rewrite lookup_insert_ne.
  - intros x k Hx. assert (Hxn : x <> np) by (intros ->; congruence).
    destruct (Ha2 x k) as (n2 & Hn2 & A2); [by rewrite En, lookup_insert_ne|].
    cbn [set_node set_nodes nodes]. destruct (decide (x = d)) as [->|Hxd].
    + rewrite lookup_insert_eq. assert (n2 = d2) as -> by congruence. by eexists.
    + rewrite lookup_insert_ne by done. by eexists.
  - intros x Hx. rewrite (view_insert st2 d d2) by done. rewrite Vi2. unfold view. rewrite En, Eb.
    by rewrite lookup_insert_ne.
  - intros x. cbn [set_node set_nodes nodes]. rewrite lookup_insert_is_Some', L2, En, lookup_insert_is_Some'.
    split; [intros [<-|[->|?]]; [right; by exists dn|by left|by right]|].
    intros [->|?]; [right; by left|right; by right].
  - cbn. congruence.
  - cbn. congruence.
  - cbn. congruence.
Qed.

(** Taking [np] out of the list of [d]. *)
Definition unlink_step (st : ramfs) (d np : Z) (dn : ramfs_node) : option (option ramfs) :=
  if rn_child dn =? np then
    n ← nodes st !! np; Some (Some (set_node st d (set_child dn (rn_next n))))
  else
    r ← find_prev (size (nodes st)) (nodes st) np (rn_child dn);
    match r with
    | None => Some None
    | Some prev =>
        n ← nodes st !! np; pn ← nodes st !! prev;
        Some (Some (set_node st prev (set_next pn (rn_next n))))
    end.

Lemma fs_unlink_spec st K d dn np :
  inv st K -> nodes st !! d = Some dn -> np ∈ K d ->
  exists st', unlink_step st d np dn = Some (Some st') /\
    inv st' (set_kids K d (filter (fun x => x <> np) (K d))) /\
    blocks st' = blocks st /\ vt st' = vt st /\ inode_count st' = inode_count st /\
    (forall x, view st' x = view st x) /\
    (forall x n, nodes st !! x = Some n -> exists n', nodes st' !! x = Some n' /\ alike n n') /\
    (forall x, is_Some (nodes st' !! x) <-> is_Some (nodes st !! x)).
Proof.
  intros I Hd Hin. pose proof (t_chain _ _ (i_tree _ _ I) d dn Hd) as Hc.
  destruct (t_nodup _ _ (i_tree _ _ I) d ltac:(by exists dn)) as [ND Hdd].
  destruct (sib_live _ _ _ np Hc Hin) as [Hnp0 [n Hn]].
  assert (ND' : NoDup (filter (fun x => x <> np) (K d))) by (by apply NoDup_filter).
  assert (Hd' : d ∉ filter (fun x => x <> np) (K d)) by (rewrite list_elem_of_filter; tauto).
  assert (Hnew : forall x, x ∈ filter (fun x => x <> np) (K d) ->
    x ∈ K d \/ forall d', is_Some (nodes st !! d') -> x ∉ K d') by (intros x [_ Hx]%list_elem_of_filter; by left).
  assert (Done : forall p pn pn', nodes st !! p = Some pn -> alike pn pn' ->
    inv (set_node st p pn') (set_kids K d (filter (fun x => x <> np) (K d))) ->
    let st' := set_node st p pn' in
    inv st' (set_kids K d (filter (fun x => x <> np) (K d))) /\
    blocks st' = blocks st /\ vt st' = vt st /\ inode_count st' = inode_count st /\
    (forall x, view st' x = view st x) /\
    (forall x n, nodes st !! x = Some n -> exists n', nodes st' !! x = Some n' /\ alike n n') /\
    (forall x, is_Some (nodes st' !! x) <-> is_Some (nodes st !! x))).
  { intros p pn pn' Hp Ha I'. cbn zeta. split; [done|]. repeat (split; [done|]).
    split; [intros x; by apply (view_insert st p pn)|]. cbn [set_node set_nodes nodes]. split.
    - intros x m Hm. destruct (decide (x = p)) as [->|Hne].
      + rewrite lookup_insert_eq. exists pn'. split; [done|]. congruence.
      + rewrite lookup_insert_ne by done. by exists m.
    - intros x. rewrite lookup_insert_is_Some'. split; [intros [<-|?]; [by exists pn|done]|by right]. }
  unfold unlink_step. destruct (K d) as [|k kr] eqn:EK; [by apply not_elem_of_nil in Hin|].
  pose proof Hc as (Ek & Hk & kn & Hkn & Hcr). rewrite Ek in *.
  apply NoDup_cons in ND as [Hkr NDr]. destruct (Z.eqb_spec k np) as [->|Hne].
  - rewrite Hn. cbn [mbind option_bind]. eexists. split; [done|]. apply (Done d dn); [done|done|].
    assert (kn = n) as -> by congruence.
    assert (Ef : filter (fun x => x <> np) (np :: kr) = kr) by (rewrite filter_cons_False by tauto; by apply filter_ne_id).
    apply (inv_relink st K d dn _ d (set_child dn (rn_next n))); rewrite ?EK; try done.
    + apply lookup_insert_eq.
    + by left.
    + cbn [rn_child set_child]. rewrite Ef. apply (sib_frame (nodes st)); [done|].
      intros x m _ Hm. destruct (decide (x = d)) as [->|Hxd].
      * exists (set_child dn (rn_next n)). rewrite lookup_insert_eq. split; [done|]. cbn. congruence.
      * exists m. by rewrite lookup_insert_ne.
  - apply elem_of_cons in Hin as [->|Hin]; [done|].
    assert (Hsp : exists l1 prev l2, k :: kr = l1 ++ prev :: np :: l2).
    { apply list_elem_of_split in Hin as (l1 & l2 & ->). destruct l1 as [|z l1 _] using rev_ind.
      - by exists [], k, l2.
      - exists (k :: l1), z, l2. cbn. by rewrite <- app_assoc. }
    destruct Hsp as (l1 & prev & l2 & Esp).
    assert (NDk : NoDup (k :: kr)) by (by apply NoDup_cons).
    pose proof (sib_length _ _ _ Hc NDk) as Hlen.
    destruct (find_prev_spec (size (nodes st)) (nodes st) np k (k :: kr) Hc Hnp0 Hne Hk ltac:(lia)) as [_ Hfp].
    rewrite (Hfp l1 prev l2 Esp NDk). cbn [mbind option_bind]. rewrite Hn. cbn [mbind option_bind].
    destruct (sib_live _ _ _ prev Hc) as [Hpr [pn Hpn]]; [rewrite Esp; mem_now|].
    rewrite Hpn. cbn [mbind option_bind]. eexists. split; [done|]. apply (Done prev pn); [done|done|].
    assert (Ef : filter (fun x => x <> np) (k :: kr) = l1 ++ prev :: l2).
    { rewrite Esp in NDk |- *. apply NoDup_app in NDk as (ND1 & Hx & ND2). apply NoDup_cons in ND2 as [Hp2 ND2].
      apply NoDup_cons in ND2 as [Hn2 ND2].
      rewrite filter_app, filter_cons_True, filter_cons_False by (tauto || mem_now).
      rewrite !filter_ne_id; [done|done|]. intros Hi. apply (Hx np Hi). mem_now. }
    assert (Hpd : prev <> d) by (intros ->; apply Hdd; rewrite Esp; mem_now).
    apply (inv_relink st K prev pn _ d dn); rewrite ?EK; try done.
    + by rewrite lookup_insert_ne.
    + right. split; [rewrite Esp; mem_now|done].
    + rewrite Ef, Ek. apply (sib_unlink _ _ l1 prev np l2); try done; by rewrite <- Esp.
Qed.

(** Freeing a node that is in no directory. *)
Lemma free_node_spec st K np n :
  inv st K -> nodes st !! np = Some n -> (forall d, is_Some (nodes st !! d) -> np ∉ K d) ->
  exists st', ramfs_free_node np st = Some st' /\ inv st' K /\ nodes st' = delete np (nodes st) /\
    vt st' = vt st /\ inode_count st' = inode_count st /\
    (forall x, x <> np -> view st' x = view st x) /\
    (forall p, blocks st !! p = None -> blocks st' !! p = None).
Proof.
  intros [T F B M] Hn Hni. unfold ramfs_free_node. rewrite Hn. cbn [mbind option_bind].
  pose proof (tree_delete _ _ np T Hni) as T'.
  assert (Done : forall bs, (forall x m, x <> np -> nodes st !! x = Some m -> rn_buf m <> 0 ->
      bs !! rn_buf m = blocks st !! rn_buf m) -> (forall p, blocks st !! p = None -> bs !! p = None) ->
    let st' := set_nodes (set_blocks st bs) (delete np (nodes st)) in
    inv st' K /\ nodes st' = delete np (nodes st) /\ vt st' = vt st /\ inode_count st' = inode_count st /\
    (forall x, x <> np -> view st' x = view st x) /\
    (forall p, blocks st !! p = None -> blocks st' !! p = None)).
  { intros bs Hbs Hnone. cbn zeta. split.
    - split; cbn [set_nodes set_blocks nodes blocks memory]; [done| |by apply Hnone|].
      + destruct F as [N FF A]. split.
        * intros p m [_ Hm]%lookup_delete_Some. by apply (N p).
        * intros p m [Hne Hm]%lookup_delete_Some. pose proof (FF p m Hm) as Fm. unfold file_ok in *.
          destruct (Z.eqb_spec (rn_buf m) 0); [done|]. by rewrite (Hbs p m).
        * intros p q m k [_ Hm]%lookup_delete_Some [_ Hk]%lookup_delete_Some. by apply (A p q m k).
      + apply (mem_ok_mono _ _ _ _ _ M); [|done]. intros x Hx. by rewrite lookup_delete_None; right.
    - cbn [set_nodes set_blocks nodes blocks memory vt inode_count]. repeat (split; [done|]). split; [|done].
      intros x Hx. unfold view. cbn [set_nodes set_blocks nodes blocks]. rewrite lookup_delete_ne by done.
      destruct (nodes st !! x) as [m|] eqn:Hm; [|done]. cbn [mbind option_bind]. unfold content.
      destruct (decide (rn_buf m = 0)) as [E|E]; [by rewrite E, (Hnone 0 B), B|]. by rewrite (Hbs x m). }
  destruct (negb (rn_buf n =? 0) && rn_owns_buf n) eqn:Eo.
  - tests. pose proof (f_file _ _ F np n Hn) as Fn. unfold file_ok in Fn. destruct (Z.eqb_spec (rn_buf n) 0); [done|].
    destruct Fn as (b & Hb & _ & _ & Hm & _). unfold free_block. rewrite Hb. cbn [mbind option_bind].
    rewrite Hm, H0. cbn [mbind option_bind]. eexists. split; [done|]. apply Done.
    + intros x m Hx Hmx H1. rewrite lookup_delete_ne; [done|]. intros E. apply Hx.
      by apply (f_apart _ _ F x np m n).
    + intros p Hp. by rewrite lookup_delete_None; right.
  - cbn [mbind option_bind]. eexists. split; [done|]. by apply (Done (blocks st)).
Qed.

Record removed (st : ramfs) (K : Z -> list Z) (d np : Z) (st' : ramfs) : Prop := Removed {
  r_inv : inv st' (set_kids K d (filter (fun x => x <> np) (K d)));
  r_old : forall x n, x <> np -> nodes st !! x = Some n -> exists n', nodes st' !! x = Some n' /\ alike n n';
  r_view : forall x, x <> np -> view st' x = view st x;
  r_live : forall x, is_Some (nodes st' !! x) <-> x <> np /\ is_Some (nodes st !! x);
  r_vt : vt st' = vt st;
  r_inode : inode_count st' = inode_count st
}.

Lemma fs_remove_spec st K d np :
  inv st K -> is_Some (nodes st !! d) -> np <> 0 ->
  (np ∈ K d -> exists st', ramfs_remove_node d np st = Some (0, st') /\ removed st K d np st') /\
  (np ∉ K d -> exists rc, ramfs_remove_node d np st = Some (rc, st) /\ (rc = EBUSY \/ rc = ENOENT)).
Proof.
  intros I [dn Hd] Hnp. pose proof (t_chain _ _ (i_tree _ _ I) d dn Hd) as Hc.
  unfold ramfs_remove_node. rewrite Hd. cbn [mbind option_bind]. fold (unlink_step st d np dn).
  rewrite (sib_head _ _ _ Hc). destruct (t_nodup _ _ (i_tree _ _ I) d ltac:(by exists dn)) as [ND Hdd].
  split; intros Hin.
  - destruct (fs_unlink_spec st K d dn np I Hd Hin) as (st1 & E1 & I1 & Eb1 & Ev1 & Ei1 & V1 & A1 & L1).
    destruct (K d) as [|k kr] eqn:EK; [by apply not_elem_of_nil in Hin|]. rewrite E1. cbn [mbind option_bind].
    destruct (sib_live _ _ _ np Hc Hin) as [_ [n Hn]]. destruct (A1 np n Hn) as (n1 & Hn1 & _).
    set (K1 := set_kids K d (filter (fun x => x <> np) (k :: kr))) in *.
    destruct (free_node_spec st1 K1 np n1 I1 Hn1) as (st2 & E2 & I2 & N2 & Ev2 & Ei2 & V2 & _).
    { intros x Hx Hk. unfold K1, set_kids in Hk. case_decide as Exd.
      - apply list_elem_of_filter in Hk as [Hk _]. done.
      - apply Exd, (t_disj _ _ (i_tree _ _ I) x d np); [by apply L1|by exists dn|done|by rewrite EK]. }
    rewrite E2. cbn [mbind option_bind].
    assert (Hdn : d <> np) by (intros ->; done).
    destruct (proj2 (L1 d) ltac:(by exists dn)) as [d1 Hd1].
    assert (Hd2 : nodes st2 !! d = Some d1) by (by rewrite N2, lookup_delete_ne). rewrite Hd2. cbn [mbind option_bind].
    eexists. split; [done|]. unfold K1 in I2. split.
    + rewrite EK. by apply inv_attr.
    + intros x m Hx Hm. destruct (A1 x m Hm) as (k1 & Hk1 & Ak). cbn [set_node set_nodes nodes].
      destruct (decide (d = x)) as [->|Hdx].
      * rewrite lookup_insert_eq. assert (k1 = d1) as -> by congruence. by eexists.
      * rewrite lookup_insert_ne, N2, lookup_delete_ne by done. by exists k1.
    + intros x Hx. rewrite (view_insert st2 d d1) by done. by rewrite V2, V1.
    + intros x. cbn [set_node set_nodes nodes]. rewrite lookup_insert_is_Some', N2, lookup_delete_is_Some, L1.
      split; [intros [<-|[? ?]]; [split; [done|by exists dn]|done]|]. intros [? ?]. right. by split.
    + cbn. congruence.
    + cbn. congruence.
  - destruct (K d) as [|k kr] eqn:EK; [exists EBUSY; split; [done|by left]|].
    unfold unlink_step. pose proof Hc as (Ek & Hk & _). rewrite Ek in *.
    destruct (Z.eqb_spec k np) as [->|Hne]; [exfalso; mem_now|].
    pose proof (sib_length _ _ _ Hc ND) as Hlen.
    destruct (find_prev_spec (size (nodes st)) (nodes st) np k (k :: kr) Hc Hnp Hne Hk ltac:(lia)) as [Hfp _].
    rewrite (Hfp Hin). cbn [mbind option_bind]. exists ENOENT. split; [done|by right].
Qed.

End Ramfs.
