(* ===== verification/RamfsFile.v ===== *)
(** * RamfsFile: reading, writing and truncating files of the RAM file system

    The operations of [Ramfs] on the bytes of a file: what a reader gets, what a file holds after
    a write or a change of its size, and that no other file is touched. *)
From Stdlib Require Import ZArith Lia Bool.
From stdpp Require Import gmap.
From S2P Require Import Prelude Buf Uio Vnode Ramfs.
Import Uio Ramfs.
Open Scope Z_scope.

Module RamfsFile.

(** Nothing that a user sees has changed. *)
Record unchanged (st : ramfs) (K : Z -> list Z) (st' : ramfs) : Prop := Unchanged {
  u_inv : inv st' K;
  u_nodes : nodes st' = nodes st;
  u_blocks : blocks st' = blocks st;
  u_vt : vt st' = vt st;
  u_inode : inode_count st' = inode_count st
}.

Lemma unchanged_refl st K : inv st K -> unchanged st K st.
Proof. by split. Qed.

(** A file gets another buffer, or another size. *)
Lemma inv_replace st K np n size buf bufsize owns c a m mode bs v i mem :
  inv st K -> nodes st !! np = Some n ->
  let n' := set_attr (set_file n size buf bufsize owns) c a m mode in
  file_ok bs n' -> bs !! 0 = None ->
  (forall q k, q <> np -> nodes st !! q = Some k -> rn_buf k <> 0 ->
     rn_buf k <> buf /\ bs !! rn_buf k = blocks st !! rn_buf k) ->
  mem_ok (nodes st) bs mem ->
  let st' := Ramfs (<[np := n']> (nodes st)) bs v i mem in
  inv st' K /\ (forall x, x <> np -> view st' x = view st x) /\
  (forall x, is_Some (nodes st' !! x) <-> is_Some (nodes st !! x)).
Proof.
  intros [T F B M] Hn n' Hf H0 Ho Hm st'. split; [|split].
  - split; cbn [st' nodes blocks memory]; [by apply (tree_update _ _ np n)| |done|].
    + apply (files_update _ (blocks st) bs np n); try done.
      destruct (f_node _ _ F np n Hn) as [A1 A2 A3]. by split.
    + apply (mem_ok_mono _ _ _ _ _ Hm); [|done]. intros x. by apply (insert_none _ np n).
  - intros x Hx. unfold view. cbn [st' nodes blocks]. rewrite lookup_insert_ne by done.
    destruct (nodes st !! x) as [k|] eqn:Hk; [|done]. cbn [mbind option_bind]. unfold content.
    destruct (decide (rn_buf k = 0)) as [E|E]; [by rewrite E, H0, B|]. by destruct (Ho x k Hx Hk E) as [_ ->].
  - intros x. cbn [st' nodes]. rewrite lookup_insert_is_Some'. split; [intros [<-|?]; [by exists n|done]|by right].
Qed.

(** The bytes that the buffer holds behind the file. *)
Definition spare (bs : gmap Z block) (n : ramfs_node) : list Z :=
  match bs !! rn_buf n with
  | Some b => drop (Z.to_nat (rn_size n)) (take (Z.to_nat (rn_bufsize n)) (b_data b))
  | None => []
  end.

Lemma content_nil st K np n : inv st K -> nodes st !! np = Some n -> rn_size n = 0 -> content (blocks st) n = [].
Proof. intros I Hn E. unfold content. rewrite E. by destruct (blocks st !! rn_buf n). Qed.

Lemma content_length st K np n : inv st K -> nodes st !! np = Some n -> zlen (content (blocks st) n) = rn_size n.
Proof.
  intros I Hn. pose proof (f_file _ _ (i_files _ _ I) np n Hn) as Fn. unfold file_ok in Fn. unfold content.
  destruct (Z.eqb_spec (rn_buf n) 0) as [E|E].
  - rewrite E, (i_null _ _ I). cbn. lia.
  - destruct Fn as (b & -> & Hs & Hb & _). rewrite length_take. lia.
Qed.

Lemma size_bound st K np n : inv st K -> nodes st !! np = Some n -> 0 <= rn_size n <= rn_bufsize n /\ rn_bufsize n < 2 ^ 63.
Proof.
  intros I Hn. pose proof (f_file _ _ (i_files _ _ I) np n Hn) as Fn. unfold file_ok in Fn.
  destruct (Z.eqb_spec (rn_buf n) 0) as [E|E]; [lia|]. destruct Fn as (b & _ & Hs & Hb & _). lia.
Qed.

Definition release (n : ramfs_node) (bs : gmap Z block) : gmap Z block :=
  if negb (rn_size n =? 0) && rn_owns_buf n then delete (rn_buf n) bs else bs.

Lemma move_buf_spec st K np n data st1 :
  inv st K -> nodes st !! np = Some n -> blocks st1 = blocks st -> rn_size n <= zlen data ->
  move_buf n (rn_size n) data st1 =
    Some (content (blocks st) n ++ drop (Z.to_nat (rn_size n)) data, set_blocks st1 (release n (blocks st))).
Proof.
  intros I Hn Eb Hd. unfold move_buf, release. pose proof (size_bound st K np n I Hn) as Hs.
  destruct (Z.eqb_spec (rn_size n) 0) as [E|E]; cbn [negb andb].
  - rewrite (content_nil st K np n I Hn E), E. cbn [app drop Z.to_nat]. rewrite <- Eb. by destruct st1.
  - pose proof (f_file _ _ (i_files _ _ I) np n Hn) as Fn. unfold file_ok in Fn.
    destruct (Z.eqb_spec (rn_buf n) 0) as [E0|E0]; [lia|]. destruct Fn as (b & Hb & Hz & Hl & Hm & _).
    unfold content. rewrite Eb, Hb. cbn [mbind option_bind]. rewrite wrap_small by (unfold in_u; lia).
    rewrite buf_read_ok by lia. cbn [mbind option_bind Z.to_nat]. rewrite drop_0.
    rewrite buf_write_front by (rewrite length_take; lia). cbn [mbind option_bind].
    assert (Elt : length (take (Z.to_nat (rn_size n)) (b_data b)) = Z.to_nat (rn_size n))
      by (rewrite length_take; lia).
    rewrite Elt. destruct (rn_owns_buf n) eqn:Eo; cbn [mbind option_bind].
    + unfold free_block. rewrite Eb, Hb. cbn [mbind option_bind]. rewrite Hm. done.
    + by rewrite <- Eb; destruct st1.
Qed.

(** After [malloc] of a nonzero address. *)
Lemma fs_malloc_spec st K size a data st1 :
  inv st K -> malloc size st = (a, data, st1) ->
  nodes st1 = nodes st /\ blocks st1 = blocks st /\ vt st1 = vt st /\ inode_count st1 = inode_count st /\
  inv st1 K /\ (a <> 0 -> nodes st !! a = None /\ blocks st !! a = None /\ (a ∉ map fst (memory st1)) /\
    (0 <= size -> zlen data = size)).
Proof.
  intros [T F B M]. unfold malloc. destruct (memory st) as [|[x j] m] eqn:Em.
  - intros [= <- <- <-]. do 4 (split; [done|]). split; [|done]. split; try done. by rewrite Em.
  - destruct (mem_ok_tail _ _ _ _ _ M) as [M1 Ha]. intros [= <- <- <-]. cbn [nodes blocks vt inode_count memory].
    do 4 (split; [done|]). split; [by split|]. intros Hx. destruct (Ha Hx) as (H1 & H2 & H3).
    do 3 (split; [done|]). intros Hs. rewrite length_take, length_app, length_replicate. lia.
Qed.

(** What the file holds between its old end and a write behind it. *)
Definition gap (bs : gmap Z block) (n : ramfs_node) (z : Z) : list Z :=
  if z <=? rn_bufsize n then take (Z.to_nat (z - rn_size n)) (spare bs n)
  else replicate (Z.to_nat (z - rn_size n)) 0.

Definition zeros (l : list Z) : Prop := Forall (fun c => c = 0) l.

Record vnode_ok (st : ramfs) (vp : Z) (v : Vnode.vnode) (n : ramfs_node) : Prop := VnodeOk {
  vo_vnode : Vnode.vnodes (vt st) !! vp = Some v;
  vo_node : nodes st !! Vnode.v_data v = Some n;
  vo_type : Vnode.v_type v = rn_type n;
  vo_size : Vnode.v_size v = rn_size n
}.

(** The file of [vp] has new bytes, and a vnode that agrees with it. *)
Record refreshed (st : ramfs) (K : Z -> list Z) (vp : Z) (v : Vnode.vnode) (n : ramfs_node) (data : list Z)
    (st' : ramfs) (n' : ramfs_node) : Prop := Refreshed {
  rf_inv : inv st' K;
  rf_vnode : vnode_ok st' vp (set_data v (Vnode.v_type v) (Vnode.v_mode v) (zlen data) (Vnode.v_data v)) n';
  rf_vt : vt st' = Vnode.set_vnode (vt st) vp (set_data v (Vnode.v_type v) (Vnode.v_mode v) (zlen data) (Vnode.v_data v));
  rf_inode : inode_count st' = inode_count st;
  rf_name : name_of n' = name_of n /\ rn_type n' = rn_type n;
  rf_content : content (blocks st') n' = data;
  rf_view : forall x, x <> Vnode.v_data v -> view st' x = view st x;
  rf_live : forall x, is_Some (nodes st' !! x) <-> is_Some (nodes st !! x)
}.

Lemma refreshed_size st K vp v n data st' n' : refreshed st K vp v n data st' n' -> rn_size n' = zlen data.
Proof. intros R. by rewrite <- (vo_size _ _ _ _ (rf_vnode _ _ _ _ _ _ _ _ R)). Qed.

(** The state of a file that was only looked at. *)
Lemma refreshed_refl st K vp v n :
  inv st K -> vnode_ok st vp v n -> refreshed st K vp v n (content (blocks st) n) st n.
Proof.
  intros I V. destruct V as [V1 V2 V3 V4].
  assert (Ev : set_data v (Vnode.v_type v) (Vnode.v_mode v) (zlen (content (blocks st) n)) (Vnode.v_data v) = v).
  { rewrite (content_length st K _ n I V2), <- V4. by destruct v. }
  split; rewrite ?Ev; try done. unfold Vnode.set_vnode. rewrite insert_id by done. by destruct (vt st).
Qed.

(** A buffer taken from [malloc] is nobody's. *)
Lemma others_apart st K np n a bs :
  inv st K -> nodes st !! np = Some n -> blocks st !! a = None -> (bs = blocks st \/ bs = delete (rn_buf n) (blocks st)) ->
  forall b q k, q <> np -> nodes st !! q = Some k -> rn_buf k <> 0 ->
  rn_buf k <> a /\ <[a := b]> bs !! rn_buf k = blocks st !! rn_buf k.
Proof.
  intros I Hn Ha Hbs b q k Hq Hk H0.
  assert (Hne : rn_buf k <> a).
  { intros E. pose proof (f_file _ _ (i_files _ _ I) q k Hk) as Fk. unfold file_ok in Fk.
    destruct (Z.eqb_spec (rn_buf k) 0); [done|]. destruct Fk as (b' & Hb' & _). congruence. }
  split; [done|]. rewrite lookup_insert_ne by done. destruct Hbs as [->| ->]; [done|].
  rewrite lookup_delete_ne; [done|]. intros E. apply Hq. by apply (f_apart _ _ (i_files _ _ I) q np k n).
Qed.

Lemma release_cases n bs : release n bs = bs \/ release n bs = delete (rn_buf n) bs.
Proof. unfold release. destruct (_ && _); auto. Qed.

Lemma pgup_bounds e : 0 <= e < 2 ^ 62 -> e <= round_pgup e < e + 4096.
Proof. intros He. unfold round_pgup. change 4096 with (2 ^ 12).
  destruct (ALIGN_UP_bounds 12 e) as [H _]; lia. Qed.

(** The node gets the new buffer [a] with the old bytes in front of [data]. *)
Lemma new_buffer st K vp v n st1 a data z new_size owned c at_ mt mode :
  inv st K -> vnode_ok st vp v n -> inv st1 K -> nodes st1 = nodes st -> blocks st1 = blocks st -> vt st1 = vt st ->
  inode_count st1 = inode_count st -> a <> 0 -> blocks st !! a = None -> a ∉ map fst (memory st1) -> zlen data = new_size - rn_size n ->
  rn_size n <= z <= new_size -> new_size < 2 ^ 63 -> owned = true ->
  let n' := set_attr (set_file n z a new_size owned) c at_ mt mode in
  let blk := Block (content (blocks st) n ++ data) true in
  refreshed st K vp v n (content (blocks st) n ++ take (Z.to_nat (z - rn_size n)) data)
    (set_v_size vp v z (set_node (set_blocks st1 (<[a := blk]> (release n (blocks st)))) (Vnode.v_data v) n')) n' /\
  spare (<[a := blk]> (release n (blocks st))) n' = drop (Z.to_nat (z - rn_size n)) data.
Proof.
  intros I V I1 En Eb Ev Ei Ha Hf Hni Hd Hz Hs -> n' blk.
  pose proof (content_length st K _ n I (vo_node _ _ _ _ V)) as Hcl.
  pose proof (size_bound st K _ n I (vo_node _ _ _ _ V)) as Hsb.
  set (bs := <[a := blk]> (release n (blocks st))).
  destruct (inv_replace st1 K (Vnode.v_data v) n z a new_size true c at_ mt mode bs
    (Vnode.set_vnode (vt st1) vp (set_data v (Vnode.v_type v) (Vnode.v_mode v) z (Vnode.v_data v)))
    (inode_count st1) (memory st1)) as (I' & V' & L'); try done.
  - by rewrite En, (vo_node _ _ _ _ V).
  - unfold file_ok. cbn [set_attr set_file rn_buf rn_bufsize rn_size rn_owns_buf]. destruct (Z.eqb_spec a 0); [done|].
    exists blk. unfold bs. rewrite lookup_insert_eq. split; [done|]. unfold blk. cbn [b_data b_malloced].
    rewrite length_app. split; [lia|]. split; [lia|]. done.
  - unfold bs. rewrite lookup_insert_ne by done.
    destruct (release_cases n (blocks st)) as [->| ->]; [apply I|]. rewrite lookup_delete_None. right. apply I.
  - intros q k Hq Hk H0. rewrite Eb. rewrite En in Hk. unfold bs.
    exact (others_apart st K _ n a _ I (vo_node _ _ _ _ V) Hf (release_cases n (blocks st)) blk q k Hq Hk H0).
  - apply (mem_ok_use _ _ _ _ _ a (i_mem _ _ I1)); [done|done|]. intros x Hx Hb. unfold bs.
    rewrite lookup_insert_ne by done. rewrite Eb in Hb.
    destruct (release_cases n (blocks st)) as [->| ->]; [done|]. by rewrite lookup_delete_None; right.
  - cbn zeta in I', V', L'.
    assert (Hzl : zlen (content (blocks st) n ++ take (Z.to_nat (z - rn_size n)) data) = z).
    { rewrite length_app, length_take. lia. }
    split.
    + split; rewrite ?Hzl; cbn [set_v_size set_node set_blocks set_nodes set_vt nodes blocks vt inode_count memory].
      * exact I'.
      * split; cbn [set_v_size set_node set_blocks set_nodes set_vt nodes blocks vt inode_count memory
          Vnode.set_vnode Vnode.vnodes set_data Vnode.v_data Vnode.v_type Vnode.v_size].
        -- apply lookup_insert_eq.
        -- apply lookup_insert_eq.
        -- by rewrite (vo_type _ _ _ _ V).
        -- done.
      * by rewrite Ev.
      * done.
      * done.
      * unfold content at 1. cbn [n' set_attr set_file rn_buf rn_size]. unfold bs. rewrite lookup_insert_eq. cbn [b_data blk].
        rewrite take_app. replace (Z.to_nat z) with (length (content (blocks st) n) + Z.to_nat (z - rn_size n))%nat by lia.
        rewrite take_ge by lia. do 2 f_equal. lia.
      * intros x Hx. transitivity (view st1 x); [exact (V' x Hx)|]. unfold view. by rewrite En, Eb.
      * intros x. rewrite <- En. apply L'.
    + unfold spare. cbn [n' set_attr set_file rn_buf rn_size rn_bufsize]. unfold bs. rewrite lookup_insert_eq. cbn [b_data blk].
      rewrite take_ge by (rewrite length_app; lia). rewrite drop_app.
      rewrite drop_ge by lia. cbn [app]. f_equal. lia.
Qed.

Lemma spare_length st K np n : inv st K -> nodes st !! np = Some n -> zlen (spare (blocks st) n) = rn_bufsize n - rn_size n.
Proof.
  intros I Hn. pose proof (f_file _ _ (i_files _ _ I) np n Hn) as Fn. unfold file_ok in Fn. unfold spare.
  destruct (Z.eqb_spec (rn_buf n) 0) as [E|E].
  - rewrite E, (i_null _ _ I). cbn. lia.
  - destruct Fn as (b & -> & Hs & Hb & _). rewrite length_drop, length_take. lia.
Qed.

(** The file gets another size within its buffer. *)
Lemma same_buffer st K vp v n z c at_ mt mode :
  inv st K -> vnode_ok st vp v n -> rn_buf n <> 0 -> 0 <= z <= rn_bufsize n ->
  (rn_owns_buf n = false -> z = rn_bufsize n) ->
  let n' := set_attr (set_file n z (rn_buf n) (rn_bufsize n) (rn_owns_buf n)) c at_ mt mode in
  let whole := content (blocks st) n ++ spare (blocks st) n in
  refreshed st K vp v n (take (Z.to_nat z) whole) (set_v_size vp v z (set_node st (Vnode.v_data v) n')) n' /\
  spare (blocks st) n' = drop (Z.to_nat z) whole.
Proof.
  intros I V Hb Hz Ho n' whole. pose proof (vo_node _ _ _ _ V) as Hn.
  pose proof (f_file _ _ (i_files _ _ I) _ n Hn) as Fn. unfold file_ok in Fn.
  destruct (Z.eqb_spec (rn_buf n) 0); [done|]. destruct Fn as (b & Hb1 & Hs & Hl & Hm & Hu).
  assert (Hw : whole = take (Z.to_nat (rn_bufsize n)) (b_data b)).
  { unfold whole, content, spare. rewrite Hb1.
    rewrite <- (take_drop (Z.to_nat (rn_size n)) (take (Z.to_nat (rn_bufsize n)) (b_data b))) at 2.
    f_equal. rewrite take_take. f_equal. lia. }
  destruct (inv_replace st K (Vnode.v_data v) n z (rn_buf n) (rn_bufsize n) (rn_owns_buf n) c at_ mt mode (blocks st)
    (Vnode.set_vnode (vt st) vp (set_data v (Vnode.v_type v) (Vnode.v_mode v) z (Vnode.v_data v)))
    (inode_count st) (memory st)) as (I' & V' & L'); try done.
  - unfold file_ok. cbn [set_attr set_file rn_buf rn_bufsize rn_size rn_owns_buf]. destruct (Z.eqb_spec (rn_buf n) 0); [done|].
    exists b. done.
  - apply I.
  - intros q k Hq Hk H0. split; [|done]. intros E. apply Hq. by apply (f_apart _ _ (i_files _ _ I) q _ k n).
  - apply I.
  - cbn zeta in I', V', L'.
    assert (Hzl : zlen (take (Z.to_nat z) whole) = z) by (rewrite Hw, take_take, length_take; lia).
    split.
    + split; rewrite ?Hzl; cbn [set_v_size set_node set_blocks set_nodes set_vt nodes blocks vt inode_count memory]; try done.
      * split; cbn [set_v_size set_node set_blocks set_nodes set_vt nodes blocks vt inode_count memory
          Vnode.set_vnode Vnode.vnodes set_data Vnode.v_data Vnode.v_type Vnode.v_size]; try apply lookup_insert_eq; try done.
        by rewrite (vo_type _ _ _ _ V).
      * unfold content at 1. cbn [n' set_attr set_file rn_buf rn_size]. rewrite Hb1, Hw, take_take. f_equal. lia.
    + unfold spare at 1. cbn [n' set_attr set_file rn_buf rn_size rn_bufsize]. by rewrite Hb1, Hw.
Qed.

(** [grow]: an error leaves the file as it is; otherwise the file reaches to the end of the
    write, with zeros, or what the buffer holds, behind its old end. *)
Lemma grow_spec st K vp v n u :
  inv st K -> vnode_ok st vp v n -> 0 <= uio_offset u -> 0 < uio_resid u ->
  uio_offset u + uio_resid u < 2 ^ 62 ->
  let z := Z.max (rn_size n) (uio_offset u + uio_resid u) in
  exists rc st', grow vp v u st = Some (rc, st') /\
    (rc = EIO /\ unchanged st K st' \/
     rc = 0 /\ exists n', refreshed st K vp v n (content (blocks st) n ++ gap (blocks st) n z) st' n' /\
       rn_buf n' <> 0 /\ (zeros (spare (blocks st) n) -> zeros (spare (blocks st') n'))).
Proof.
  intros I V Ho Hr He z. pose proof (vo_node _ _ _ _ V) as Hn. pose proof (vo_size _ _ _ _ V) as Hv.
  pose proof (size_bound st K _ n I Hn) as Hsb. pose proof (content_length st K _ n I Hn) as Hcl.
  pose proof (spare_length st K _ n I Hn) as Hsl.
  unfold grow. rewrite Hn. cbn [mbind option_bind]. rewrite Hv.
  rewrite !wrap_small by (unfold in_u; lia). rewrite !sext_small by lia.
  destruct (Z.ltb_spec (rn_size n) (uio_offset u + uio_resid u)) as [Hlt|Hge].
  - assert (Ez : z = uio_offset u + uio_resid u) by lia. rewrite <- Ez in *.
    destruct (Z.ltb_spec (rn_bufsize n) z) as [Hbig|Hsmall].
    + pose proof (pgup_bounds z ltac:(lia)) as Hpg.
      destruct (malloc (round_pgup z) st) as [[a junk] st1] eqn:Em.
      destruct (fs_malloc_spec st K _ _ _ _ I Em) as (En1 & Eb1 & Ev1 & Ei1 & I1 & Ha).
      destruct (Z.eqb_spec a 0) as [->|Hne].
      { exists EIO, st1. split; [done|]. left. split; [done|]. by split. }
      destruct (Ha Hne) as (_ & Hf & Hni & _).
      rewrite (move_buf_spec st K (Vnode.v_data v) n) by (done || rewrite length_replicate; lia).
      cbn [mbind option_bind]. eexists 0, _. split; [done|]. right. split; [done|].
      rewrite drop_replicate.
      destruct (new_buffer st K vp v n st1 a (replicate (Z.to_nat (round_pgup z) - Z.to_nat (rn_size n)) 0) z
        (round_pgup z) true (rn_ctime n) (rn_atime n) (rn_mtime n) (rn_mode n)) as [R S]; try done;
        try (rewrite length_replicate); try lia.
      eexists. split; [|split; [|]].
      * unfold gap. destruct (Z.leb_spec z (rn_bufsize n)); [lia|]. rewrite take_replicate, Nat.min_l in R by lia. exact R.
      * done.
      * intros _. cbn [set_v_size set_node set_blocks set_nodes set_vt blocks]. rewrite S, drop_replicate.
        by apply Forall_replicate.
    + eexists 0, _. split; [done|]. right. split; [done|].
      assert (Hb0 : rn_buf n <> 0).
      { intros E. pose proof (f_file _ _ (i_files _ _ I) _ n Hn) as Fn. unfold file_ok in Fn. rewrite E in Fn. cbn in Fn. lia. }
      assert (Hown : rn_owns_buf n = true).
      { destruct (rn_owns_buf n) eqn:Eo; [done|]. pose proof (f_file _ _ (i_files _ _ I) _ n Hn) as Fn. unfold file_ok in Fn.
        destruct (Z.eqb_spec (rn_buf n) 0); [done|]. destruct Fn as (b & _ & _ & _ & _ & Hu). specialize (Hu Eo). lia. }
      destruct (same_buffer st K vp v n z (rn_ctime n) (rn_atime n) (rn_mtime n) (rn_mode n)) as [R S]; try done; try lia; [congruence|].
      eexists. split; [|split; [|]].
      * unfold gap. destruct (Z.leb_spec z (rn_bufsize n)); [|lia].
        rewrite take_app, (take_ge (content _ _)) in R by lia. rewrite <- Hown at 1.
        replace (Z.to_nat z - length (content (blocks st) n))%nat with (Z.to_nat (z - rn_size n)) in R by lia.
        exact R.
      * done.
      * intros Hzs. cbn [set_v_size set_node set_blocks set_nodes set_vt blocks]. rewrite S.
        rewrite drop_app, (drop_ge (content _ _)) by lia. cbn [app]. by apply Forall_drop.
  - exists 0, st. split; [done|]. right. split; [done|]. exists n.
    assert (Ez : z = rn_size n) by lia. unfold gap. rewrite Ez, Z.sub_diag.
    destruct (Z.leb_spec (rn_size n) (rn_bufsize n)); [|lia]. cbn [Z.to_nat take]. rewrite take_0, app_nil_r.
    split; [|split; [|done]].
    + by apply refreshed_refl.
    + intros E. pose proof (f_file _ _ (i_files _ _ I) _ n Hn) as Fn. unfold file_ok in Fn. rewrite E in Fn. cbn in Fn. lia.
Qed.

(** Storing bytes inside the file. *)
Lemma store_spec st K vp v n data st1 n1 off d b l :
  refreshed st K vp v n data st1 n1 -> rn_buf n1 <> 0 -> blocks st1 !! rn_buf n1 = Some b ->
  buf_write (b_data b) off d = Some l -> off + zlen d <= zlen data ->
  exists data', buf_write data off d = Some data' /\
    refreshed st K vp v n data'
      (set_blocks (set_node st1 (Vnode.v_data v) (touch_mc n1)) (<[rn_buf n1 := Block l (b_malloced b)]> (blocks st1)))
      (touch_mc n1) /\
    spare (<[rn_buf n1 := Block l (b_malloced b)]> (blocks st1)) (touch_mc n1) = spare (blocks st1) n1.
Proof.
  intros R Hb0 Hb Hw Hin. pose proof (refreshed_size _ _ _ _ _ _ _ _ R) as Hsz.
  destruct R as [I1 V1 O1 P1 N1 C1 W1 L1]. pose proof (vo_node _ _ _ _ V1) as Hn1. cbn [set_data Vnode.v_data] in Hn1.
  pose proof (f_file _ _ (i_files _ _ I1) _ n1 Hn1) as Fn. unfold file_ok in Fn.
  destruct (Z.eqb_spec (rn_buf n1) 0); [done|]. destruct Fn as (b' & Hb' & Hs & Hl & Hm & Hu).
  assert (b' = b) as -> by congruence.
  pose proof (buf_write_length _ _ _ _ Hw) as Hll.
  destruct (buf_write_prefix _ _ _ _ (Z.to_nat (rn_size n1)) Hw) as [Q1 Q2]; try lia.
  assert (P3 : drop (Z.to_nat (rn_size n1)) (take (Z.to_nat (rn_bufsize n1)) l) =
    drop (Z.to_nat (rn_size n1)) (take (Z.to_nat (rn_bufsize n1)) (b_data b))).
  { replace (Z.to_nat (rn_bufsize n1)) with (Z.to_nat (rn_size n1) + Z.to_nat (rn_bufsize n1 - rn_size n1))%nat by lia.
    rewrite <- !take_drop_commute. by rewrite Q2. }
  assert (Ec : content (blocks st1) n1 = take (Z.to_nat (rn_size n1)) (b_data b)) by (unfold content; by rewrite Hb).
  rewrite Ec in C1. exists (take (Z.to_nat (rn_size n1)) l). split; [by rewrite <- C1|].
  assert (Hz : zlen (take (Z.to_nat (rn_size n1)) l) = zlen data) by (rewrite length_take; lia).
  set (bs := <[rn_buf n1 := Block l (b_malloced b)]> (blocks st1)).
  destruct (inv_replace st1 K (Vnode.v_data v) n1 (rn_size n1) (rn_buf n1) (rn_bufsize n1) (rn_owns_buf n1)
    now (rn_atime n1) now (rn_mode n1) bs (vt st1) (inode_count st1) (memory st1) I1 Hn1) as (I' & V' & L').
  - unfold file_ok. cbn [set_attr set_file rn_buf rn_bufsize rn_size rn_owns_buf]. destruct (Z.eqb_spec (rn_buf n1) 0); [done|].
    eexists. unfold bs. rewrite lookup_insert_eq. split; [done|]. cbn [b_data b_malloced]. rewrite Hll. done.
  - unfold bs. rewrite lookup_insert_ne by done. apply I1.
  - intros q k Hq Hk H0. assert (Hne : rn_buf k <> rn_buf n1).
    { intros E. apply Hq. by apply (f_apart _ _ (i_files _ _ I1) q _ k n1). }
    split; [done|]. unfold bs. by rewrite lookup_insert_ne.
  - apply (mem_ok_mono _ _ _ _ _ (i_mem _ _ I1)); [done|]. intros x. unfold bs. by apply (insert_none _ _ b).
  - cbn zeta in I', V', L'. split.
    + split; rewrite ?Hz; cbn [set_blocks set_node set_nodes nodes blocks vt inode_count memory].
      * exact I'.
      * destruct V1 as [A1 A2 A3 A4]. split; cbn [set_blocks set_node set_nodes nodes blocks vt]; try done.
        apply lookup_insert_eq.
      * exact O1.
      * exact P1.
      * exact N1.
      * unfold content, bs. cbn [touch_mc set_attr rn_buf rn_size]. by rewrite lookup_insert_eq.
      * intros x Hx. transitivity (view st1 x); [exact (V' x Hx)|by apply W1].
      * intros x. rewrite <- L1. apply L'.
    + unfold spare, bs. cbn [touch_mc set_attr rn_buf rn_size rn_bufsize]. rewrite lookup_insert_eq, Hb. cbn [b_data]. done.
Qed.

Definition write_pos (n : ramfs_node) (u : uio) (ioflag : Z) : Z :=
  if Z.land ioflag IO_APPEND =? 0 then uio_offset u else rn_size n.

Lemma fs_write_spec st K vp v n u ioflag :
  inv st K -> vnode_ok st vp v n -> rn_type n = VREG -> uio_ok u -> uio_dir u = UIO_WRITE ->
  0 <= uio_offset u -> 0 < uio_resid u < 2 ^ 31 ->
  let off := write_pos n u ioflag in
  let z := Z.max (rn_size n) (off + uio_resid u) in
  off + uio_resid u < 2 ^ 62 -> uio_offset u < 2 ^ 62 ->
  exists rc u' st', ramfs_write vp u ioflag st = Some (rc, u', st') /\
    (rc = EIO /\ unchanged st K st' \/
     rc = 0 /\ uio_resid u' = 0 /\ uio_offset u' = off + uio_resid u /\
     exists data n', buf_write (content (blocks st) n ++ gap (blocks st) n z) off (rest u) = Some data /\
       refreshed st K vp v n data st' n' /\
       (zeros (spare (blocks st) n) -> zeros (spare (blocks st') n'))).
Proof.
  intros I V Ht Hu Hdir Ho Hr off z Hb Hb2. pose proof (vo_node _ _ _ _ V) as Hn.
  pose proof (size_bound st K _ n I Hn) as Hsb.
  unfold ramfs_write. rewrite (vo_vnode _ _ _ _ V). cbn [mbind option_bind]. rewrite (vo_type _ _ _ _ V), Ht.
  cbn [Z.eqb VREG VDIR Pos.eqb negb]. destruct (Z.ltb_spec (uio_offset u) 0); [lia|].
  destruct (Z.leb_spec LONG_MAX (uio_offset u)); [unfold LONG_MAX in *; lia|].
  destruct (Z.eqb_spec (uio_resid u) 0); [lia|]. rewrite Hn. cbn [mbind option_bind].
  set (u1 := if negb (Z.land ioflag IO_APPEND =? 0) then set_offset u (rn_size n) else u).
  assert (Hu1 : uio_offset u1 = off /\ uio_resid u1 = uio_resid u /\ uio_dir u1 = UIO_WRITE /\ uio_ok u1 /\ rest u1 = rest u).
  { unfold u1, off, write_pos. destruct (Z.land ioflag IO_APPEND =? 0); cbn [negb]; [done|].
    repeat (split; [done|]). split; [|done]. by destruct Hu. }
  destruct Hu1 as (Eo & Er & Ed & Hu1 & Ers). assert (Hoff : 0 <= off) by (unfold off, write_pos; case_match; lia).
  destruct (grow_spec st K vp v n u1 I V) as (rc & st1 & Eg & Hg); try lia.
  rewrite Eo, Er in Hg. fold z in Hg. rewrite Eg. cbn [mbind option_bind].
  destruct Hg as [(-> & U1)|(-> & n1 & R1 & Hb1 & Hz1)].
  { eexists _, _, _. split; [done|]. left. done. }
  cbn [Z.eqb negb]. pose proof (vo_node _ _ _ _ (rf_vnode _ _ _ _ _ _ _ _ R1)) as Hn1. cbn [set_data Vnode.v_data] in Hn1.
  rewrite Hn1. cbn [mbind option_bind set_node set_nodes blocks].
  pose proof (f_file _ _ (i_files _ _ (rf_inv _ _ _ _ _ _ _ _ R1)) _ n1 Hn1) as Fn. unfold file_ok in Fn.
  destruct (Z.eqb_spec (rn_buf n1) 0); [done|]. destruct Fn as (b & Hbl & Hs1 & Hl1 & _ & _). rewrite Hbl.
  cbn [mbind option_bind]. pose proof (refreshed_size _ _ _ _ _ _ _ _ R1) as Hsz.
  assert (Hgl : zlen (content (blocks st) n ++ gap (blocks st) n z) = z).
  { pose proof (content_length st K _ n I Hn) as Hcl. pose proof (spare_length st K _ n I Hn) as Hsl.
    rewrite length_app. unfold gap. destruct (Z.leb_spec z (rn_bufsize n)); rewrite ?length_take, ?length_replicate; lia. }
  rewrite Hgl in Hsz.
  destruct (uiomove_ok (b_data b) (uio_offset u1) (uio_resid u1) u1) as (l & u2 & Em & T); try done; try lia.
  rewrite Em. cbn [mbind option_bind]. destruct T as [T1 T2 T3 T4 T5 T6 T7]. rewrite Ed in T7. unfold moved in T7.
  assert (Hrl : zlen (rest u1) = uio_resid u1) by (by rewrite <- (uo_resid _ Hu1)).
  rewrite take_ge in T7 by lia. rewrite Ers, Eo in T7.
  destruct (store_spec st K vp v n _ st1 n1 off (rest u) b l R1 Hb1 Hbl T7) as (data & W & R2 & S2).
  { rewrite Hgl, <- Ers. lia. }
  eexists _, _, _. split; [done|]. right. split; [done|]. split; [lia|]. split; [lia|].
  exists data, (touch_mc n1). split; [done|]. split; [exact R2|]. intros Hz.
  cbn [set_blocks blocks]. rewrite S2. by apply Hz1.
Qed.

(** What [ramfs_read] and [ramfs_readlink] do once the type is the right one. *)
Definition read_bytes (v : Vnode.vnode) (u : uio) (st : ramfs) : option (Z * uio * ramfs) :=
  if uio_offset u <? 0 then Some (EINVAL, u, st)
  else if uio_resid u =? 0 then Some (0, u, st)
  else if Vnode.v_size v <=? uio_offset u then Some (0, u, st)
  else read_buf (Vnode.v_data v) (read_len (Vnode.v_size v) u) u st.

Lemma read_file_bytes st vp v n u : vnode_ok st vp v n ->
  ramfs_read vp u st = if rn_type n =? VDIR then Some (EISDIR, u, st)
    else if negb (rn_type n =? VREG) then Some (EINVAL, u, st) else read_bytes v u st.
Proof. intros V. unfold ramfs_read. rewrite (vo_vnode _ _ _ _ V). cbn [mbind option_bind]. by rewrite (vo_type _ _ _ _ V). Qed.

Lemma readlink_bytes st vp v n u : vnode_ok st vp v n ->
  ramfs_readlink vp u st = if negb (rn_type n =? VLNK) then Some (EINVAL, u, st) else read_bytes v u st.
Proof. intros V. unfold ramfs_readlink. rewrite (vo_vnode _ _ _ _ V). cbn [mbind option_bind]. by rewrite (vo_type _ _ _ _ V). Qed.

(** Reading gives the bytes of the file from the offset on, and changes no file. *)
Lemma read_bytes_spec st K vp v n u :
  inv st K -> vnode_ok st vp v n -> uio_ok u -> uio_dir u = UIO_READ ->
  0 <= uio_offset u -> 0 <= uio_resid u < 2 ^ 31 -> uio_offset u + uio_resid u < 2 ^ 62 ->
  let data := take (Z.to_nat (uio_resid u)) (drop (Z.to_nat (uio_offset u)) (content (blocks st) n)) in
  exists u' st', read_bytes v u st = Some (0, u', st') /\
    front u' = front u ++ data /\ rest u' = drop (length data) (rest u) /\ uio_ok u' /\
    uio_offset u' = uio_offset u + zlen data /\ uio_resid u' = uio_resid u - zlen data /\
    inv st' K /\ blocks st' = blocks st /\ vt st' = vt st /\ inode_count st' = inode_count st /\ (forall x, view st' x = view st x) /\
    exists n', vnode_ok st' vp v n' /\ alike n n'.
Proof.
  intros I V Hu Hdir Ho Hr Hb data. pose proof (vo_node _ _ _ _ V) as Hn.
  pose proof (content_length st K _ n I Hn) as Hcl.
  unfold read_bytes. destruct (Z.ltb_spec (uio_offset u) 0); [lia|]. rewrite (vo_size _ _ _ _ V).
  assert (Nothing : data = [] -> exists u' st', Some (0, u, st) = Some (0, u', st') /\
    front u' = front u ++ data /\ rest u' = drop (length data) (rest u) /\ uio_ok u' /\
    uio_offset u' = uio_offset u + zlen data /\ uio_resid u' = uio_resid u - zlen data /\
    inv st' K /\ blocks st' = blocks st /\ vt st' = vt st /\ inode_count st' = inode_count st /\ (forall x, view st' x = view st x) /\
    exists n', vnode_ok st' vp v n' /\ alike n n').
  { intros ->. exists u, st. rewrite app_nil_r. cbn [length drop Z.of_nat]. rewrite drop_0, Z.add_0_r, Z.sub_0_r.
    do 10 (split; [done|]). split; [done|]. by exists n. }
  destruct (Z.eqb_spec (uio_resid u) 0) as [E0|E0].
  { apply Nothing. unfold data. rewrite E0. by rewrite take_0. }
  destruct (Z.leb_spec (rn_size n) (uio_offset u)) as [Hge|Hlt].
  { apply Nothing. unfold data. rewrite drop_ge by lia. by rewrite take_nil. }
  unfold read_buf. rewrite Hn. cbn [mbind option_bind set_node set_nodes blocks].
  pose proof (f_file _ _ (i_files _ _ I) _ n Hn) as Fn. unfold file_ok in Fn.
  destruct (Z.eqb_spec (rn_buf n) 0); [lia|]. destruct Fn as (b & Hbl & Hs & Hl & _ & _). rewrite Hbl. cbn [mbind option_bind].
  set (len := read_len (rn_size n) u).
  assert (Hlen : len = Z.min (rn_size n - uio_offset u) (uio_resid u)) by (unfold len, read_len; case_test; lia).
  destruct (uiomove_ok (b_data b) (uio_offset u) len u) as (l & u' & Em & T); try done; try lia.
  rewrite Em. cbn [mbind option_bind]. destruct T as [T1 T2 T3 T4 T5 T6 T7].
  assert (Ed : moved (uio_dir u) (b_data b) (uio_offset u) len u = data).
  { rewrite Hdir. unfold moved, data, content. rewrite Hbl.
    rewrite <- (take_drop (Z.to_nat (rn_size n)) (b_data b)) at 1.
    rewrite drop_app_le by (rewrite length_take; lia). rewrite take_app_le by (rewrite length_drop, length_take; lia).
    destruct (Z.leb_spec (uio_resid u) (rn_size n - uio_offset u)).
    - do 2 f_equal. lia.
    - set (l0 := drop _ (take _ _)).
      assert (zlen l0 = rn_size n - uio_offset u) by (unfold l0; rewrite length_drop, length_take; lia).
      by rewrite (take_ge l0 (Z.to_nat len)), (take_ge l0 (Z.to_nat (uio_resid u))) by lia. }
  assert (Hdl : zlen data = len).
  { unfold data. rewrite length_take, length_drop. lia. }
  eexists _, _. split; [done|]. split; [by rewrite T5, Ed|]. split; [rewrite T6; f_equal; lia|]. split; [done|].
  split; [lia|]. split; [lia|]. split; [by apply inv_attr|]. do 3 (split; [done|]).
  split; [intros x; by apply (view_insert st _ n)|]. exists (touch_a n). split; [|done].
  destruct V as [V1 V2 V3 V4]. split; try done. cbn [set_node set_nodes nodes]. apply lookup_insert_eq.
Qed.

(** Cutting a file, or making it longer. *)
Lemma truncate_spec st K vp v n len :
  inv st K -> vnode_ok st vp v n -> 0 <= len < 2 ^ 62 ->
  (rn_owns_buf n = false -> len = 0 \/ rn_bufsize n <= len) ->
  exists rc st', ramfs_truncate vp len st = Some (rc, st') /\
    (rc = EIO /\ rn_size n < len /\ unchanged st K st' \/
     rc = 0 /\ exists data n', refreshed st K vp v n data st' n' /\ zlen data = len /\
       take (Z.to_nat len) (content (blocks st) n) `prefix_of` data).
Proof.
  intros I V Hlen Hown. pose proof (vo_node _ _ _ _ V) as Hn. pose proof (size_bound st K _ n I Hn) as Hsb.
  pose proof (content_length st K _ n I Hn) as Hcl. pose proof (spare_length st K _ n I Hn) as Hsl.
  pose proof (f_file _ _ (i_files _ _ I) _ n Hn) as Fn.
  unfold ramfs_truncate. rewrite (vo_vnode _ _ _ _ V). cbn [mbind option_bind]. rewrite Hn. cbn [mbind option_bind].
  rewrite (wrap_small 64 len) by (unfold in_u; lia).
  destruct (Z.eqb_spec len 0) as [->|Hne].
  - assert (Empty : forall bs owns, (bs = blocks st \/ bs = delete (rn_buf n) (blocks st)) ->
      let n' := touch_mc (set_file n 0 0 0 owns) in
      let st' := set_v_size vp v 0 (set_node (set_blocks st bs) (Vnode.v_data v) n') in
      exists data n', refreshed st K vp v n data st' n' /\ zlen data = 0 /\
        take (Z.to_nat 0) (content (blocks st) n) `prefix_of` data).
    { intros bs owns Hbs n' st'. exists [], n'. split; [|split; [done|]; rewrite take_0; apply prefix_nil].
      destruct (inv_replace st K (Vnode.v_data v) n 0 0 0 owns now (rn_atime n) now (rn_mode n) bs
        (vt st') (inode_count st) (memory st) I Hn) as (I' & V' & L').
      - by unfold file_ok.
      - destruct Hbs as [->| ->]; [apply I|]. rewrite lookup_delete_None. right. apply I.
      - intros q k Hq Hk H0. split; [done|]. destruct Hbs as [->| ->]; [done|]. rewrite lookup_delete_ne; [done|].
        intros E. apply Hq. apply (f_apart _ _ (i_files _ _ I) q _ k n); try done; congruence.
      - apply (mem_ok_mono _ _ _ _ _ (i_mem _ _ I)); [done|]. intros x Hx.
        destruct Hbs as [->| ->]; [done|]. by rewrite lookup_delete_None; right.
      - cbn zeta in I', V', L'. split; try done.
        + split; cbn [st' set_v_size set_node set_blocks set_nodes set_vt nodes vt Vnode.set_vnode Vnode.vnodes
            set_data Vnode.v_data Vnode.v_type Vnode.v_size]; try apply lookup_insert_eq; try done. apply V.
        + unfold content. cbn. destruct (bs !! 0); [by rewrite take_0|done]. }
    unfold file_ok in Fn. destruct (Z.eqb_spec (rn_buf n) 0) as [E|E]; cbn [negb].
    + eexists 0, _. split; [done|]. right. split; [done|].
      destruct (Empty (blocks st) (rn_owns_buf n)) as (d & n' & R); [by left|]. exists d, n'.
      replace (set_file n 0 (rn_buf n) (rn_bufsize n) (rn_owns_buf n)) with (set_file n 0 0 0 (rn_owns_buf n))
        by (unfold set_file; f_equal; lia). by destruct st.
    + destruct Fn as (b & Hbl & _ & _ & Hm & _). destruct (rn_owns_buf n) eqn:Eo; cbn [mbind option_bind].
      * unfold free_block. rewrite Hbl. cbn [mbind option_bind]. rewrite Hm. cbn [mbind option_bind].
        eexists 0, _. split; [done|]. right. split; [done|]. by apply (Empty (delete (rn_buf n) (blocks st)) true); right.
      * eexists 0, _. split; [done|]. right. split; [done|].
        destruct (Empty (blocks st) false) as (d & n' & R); [by left|]. exists d, n'. by destruct st.
  - destruct (Z.ltb_spec (rn_bufsize n) len) as [Hbig|Hsmall].
    + pose proof (pgup_bounds len ltac:(lia)) as Hpg.
      destruct (malloc (round_pgup len) st) as [[a junk] st1] eqn:Em.
      destruct (fs_malloc_spec st K _ _ _ _ I Em) as (En1 & Eb1 & Ev1 & Ei1 & I1 & Ha).
      destruct (Z.eqb_spec a 0) as [->|Hna].
      { exists EIO, st1. split; [done|]. left. split; [done|]. split; [lia|]. by split. }
      destruct (Ha Hna) as (_ & Hf & Hni & Hj). specialize (Hj ltac:(lia)).
      rewrite (vo_size _ _ _ _ V), (move_buf_spec st K (Vnode.v_data v) n) by (done || lia). cbn [mbind option_bind].
      eexists 0, _. split; [done|]. right. split; [done|].
      destruct (new_buffer st K vp v n st1 a (drop (Z.to_nat (rn_size n)) junk) len (round_pgup len) true
        now (rn_atime n) now (rn_mode n)) as [R _]; try done; try (rewrite length_drop); try lia.
      eexists _, _. split; [exact R|]. split.
      * rewrite length_app, length_take, length_drop. lia.
      * rewrite take_ge by lia. by apply prefix_app_r.
    + assert (Hb0 : rn_buf n <> 0).
      { intros E. unfold file_ok in Fn. rewrite E in Fn. cbn in Fn. lia. }
      destruct (same_buffer st K vp v n len now (rn_atime n) now (rn_mode n)) as [R _]; try done;
        [lia|intros Eo; specialize (Hown Eo); lia|].
      eexists 0, _. split; [done|]. right. split; [done|]. eexists _, _. split; [exact R|]. split.
      * rewrite length_take, length_app. lia.
      * rewrite take_app. by apply prefix_app_r.
Qed.

End RamfsFile.
