(* ===== verification/RamfsDir.v ===== *)
(** * RamfsDir: the directories of the RAM file system

    The operations of [Ramfs] that work on names: looking up, creating, removing, renaming and
    listing; and the invariant over all sequences of operations, those on files included. *)
From Stdlib Require Import ZArith Lia Bool.
From stdpp Require Import gmap.
From S2P Require Import Prelude Buf Uio Vnode Ramfs RamfsFile.
Import Uio Ramfs RamfsFile.
Open Scope Z_scope.

Module RamfsDir.

(** ** Names *)

(** A node gets another name. *)
Lemma inv_name st K np n buf len junk :
  inv st K -> nodes st !! np = Some n -> 0 <= len <= NAME_MAX ->
  (exists name, buf = name ++ 0 :: junk /\ zlen name = len /\ 0 ∉ name) ->
  inv (set_node st np (touch_c (set_name n buf len))) K.
Proof.
  intros I Hn Hl (name & -> & Hlen & Hc). apply (inv_node st K np n); try done.
  pose proof (i_files _ _ I) as F. apply (files_update _ (blocks st) (blocks st) np n _ F Hn).
  - assert (E : name_of (touch_c (set_name n (name ++ 0 :: junk) len)) = name).
    { unfold name_of. cbn [touch_c set_attr set_name rn_namelen rn_name].
      replace (Z.to_nat len) with (length name) by lia. apply take_app_length. }
    split; rewrite ?E; cbn [touch_c set_attr set_name rn_namelen rn_name]; [done| |done]. by exists junk.
  - apply (f_file _ _ F np n Hn).
  - intros q m Hq Hm H0. split; [|done]. cbn [touch_c set_attr set_name rn_buf]. intros E. apply Hq.
    by apply (f_apart _ _ F q np m n).
Qed.

Lemma view_name st np n buf name len junk :
  nodes st !! np = Some n -> buf = name ++ 0 :: junk -> len = zlen name ->
  let st' := set_node st np (touch_c (set_name n buf len)) in
  view st' np = Some (rn_type n, name, content (blocks st) n) /\ forall x, x <> np -> view st' x = view st x.
Proof.
  intros Hn -> -> st'. unfold view. cbn [st' set_node set_nodes nodes blocks]. split.
  - rewrite lookup_insert_eq. cbn [mbind option_bind]. unfold name_of, content.
    cbn [touch_c set_attr set_name rn_namelen rn_name rn_type rn_buf rn_size].
    by rewrite Nat2Z.id, take_app_length.
  - intros x Hx. by rewrite lookup_insert_ne.
Qed.

Lemma rename_node_spec st K np n name :
  inv st K -> nodes st !! np = Some n -> 0 ∉ name ->
  exists rc st', ramfs_rename_node np name st = Some (rc, st') /\ inv st' K /\ vt st' = vt st /\
    inode_count st' = inode_count st /\ (forall x, is_Some (nodes st' !! x) <-> is_Some (nodes st !! x)) /\
    (rc = 0 /\ view st' np = Some (rn_type n, name, content (blocks st) n) /\
       (forall x, x <> np -> view st' x = view st x) \/
     (rc = ENAMETOOLONG /\ NAME_MAX < zlen name \/ rc = ENOMEM) /\ forall x, view st' x = view st x).
Proof.
  intros I Hn Hc. unfold ramfs_rename_node. rewrite Hn. cbn [mbind option_bind].
  assert (Live : forall st1 n', nodes st1 = nodes st -> forall x, is_Some (nodes (set_node st1 np n') !! x) <-> is_Some (nodes st !! x)).
  { intros st1 n' E x. cbn [set_node set_nodes nodes]. rewrite E, lookup_insert_is_Some'.
    split; [intros [<-|?]; [by exists n|done]|by right]. }
  destruct (Z.ltb_spec NAME_MAX (zlen name)).
  { exists ENAMETOOLONG, st. split; [done|]. do 4 (split; [done|]). right. split; [by left|done]. }
  destruct (f_node _ _ (i_files _ _ I) np n Hn) as [Hl (junk & En) Hcn].
  pose proof (name_length n (f_node _ _ (i_files _ _ I) np n Hn)) as Hnl.
  destruct (Z.leb_spec (zlen name) (rn_namelen n)).
  - assert (Hroom : zlen (name ++ [0]) <= zlen (rn_name n)).
    { rewrite En, !length_app. cbn [length]. lia. }
    rewrite buf_write_front by done. cbn [mbind option_bind].
    set (j2 := drop (length (name ++ [0])) (rn_name n)).
    assert (Eb : (name ++ [0]) ++ j2 = name ++ 0 :: j2) by (by rewrite <- app_assoc). rewrite Eb.
    eexists 0, _. split; [done|]. split; [apply (inv_name st K np n _ _ j2 I Hn); [lia|by exists name]|].
    split; [done|]. split; [done|]. split; [by apply Live|]. left. split; [done|].
    by apply (view_name st np n _ name _ j2).
  - destruct (malloc (zlen name + 1) st) as [[a junk2] st1] eqn:Em.
    destruct (fs_malloc_spec st K _ _ _ _ I Em) as (En1 & Eb1 & Ev1 & Ei1 & I1 & _).
    assert (V1 : forall x, view st1 x = view st x) by (intros x; unfold view; by rewrite En1, Eb1).
    destruct (Z.eqb_spec a 0).
    { exists ENOMEM, st1. split; [done|]. split; [done|]. split; [done|]. split; [done|].
      split; [by rewrite En1|]. right. split; [by right|done]. }
    rewrite <- En1 in Hn.
    eexists 0, _. split; [done|]. split; [apply (inv_name st1 K np n _ _ [] I1 Hn); [lia|by exists name]|].
    split; [done|]. split; [done|]. split; [by apply Live|]. left. split; [done|].
    destruct (view_name st1 np n _ name _ [] Hn eq_refl eq_refl) as [W1 W2]. split; [by rewrite W1, Eb1|].
    intros x Hx. by rewrite W2, V1.
Qed.

(** ** Looking up *)

(** The first child of the name. *)
Definition first_named (st : ramfs) (l : list Z) (name : list Z) (x : Z) : Prop :=
  exists l1 l2, l = l1 ++ x :: l2 /\ named (nodes st) name x /\ Forall (fun y => ~ named (nodes st) name y) l1.

(** Inode numbers are given out once. *)
Definition inodes_ok (st : ramfs) : Prop :=
  0 <= inode_count st < 2 ^ 64 - 1 /\
  forall vp v, Vnode.vnodes (vt st) !! vp = Some v -> Vnode.v_ino v < inode_count st.

Lemma inv_vt st K v i : inv st K -> inv (set_vt st v i) K.
Proof. intros [T F B M]. by split. Qed.

Lemma fs_lookup_spec st K ext addr dvp d name :
  inv st K -> Vnode.inv (vt st) ext -> (forall p, ext p < Vnode.INT_MAX) -> inodes_ok st ->
  node_of dvp st = Some d -> is_Some (nodes st !! d) -> name <> [] -> Vnode.vnodes (vt st) !! addr = None ->
  exists rc vp st', ramfs_lookup addr dvp name st = Some (rc, vp, st') /\
    inv st' K /\ nodes st' = nodes st /\ blocks st' = blocks st /\
    Vnode.inv (vt st') (if vp =? 0 then ext else bump ext vp 1) /\
    (forall x v, x <> vp -> Vnode.vnodes (vt st) !! x = Some v -> Vnode.vnodes (vt st') !! x = Some v) /\
    (inode_count st < 2 ^ 64 - 2 -> inodes_ok st' /\ inode_count st <= inode_count st' <= inode_count st + 1) /\
    (rc = ENOENT /\ vp = 0 /\ Forall (fun y => ~ named (nodes st) name y) (K d) \/
     exists np, first_named st (K d) name np /\
       (rc = ENOMEM /\ addr = 0 /\ vp = 0 \/
        rc = 0 /\ addr <> 0 /\ vp = addr /\ exists v n, vnode_ok st' vp v n /\ Vnode.v_data v = np /\
          Vnode.v_names v = [] /\ forall w, Vnode.vnodes (vt st) !! dvp = Some w -> Vnode.v_mount v = Vnode.v_mount w)).
Proof.
  intros I VI Hext [Hic Hino] Hd [dn Hdn] Hne Ha. unfold ramfs_lookup. destruct name as [|c0 name0]; [done|].
  set (name := c0 :: name0) in *. unfold node_of in Hd. destruct (Vnode.vnodes (vt st) !! dvp) as [dv|] eqn:Edv; [|done].
  cbn [mbind option_bind] in Hd |- *. injection Hd as ->. rewrite Hdn. cbn [mbind option_bind].
  pose proof (t_chain _ _ (i_tree _ _ I) d dn Hdn) as Hc. destruct (t_nodup _ _ (i_tree _ _ I) d ltac:(by exists dn)) as [ND _].
  destruct (find_name_spec (size (nodes st)) (nodes st) name (rn_child dn) (K d) Hc) as (r & -> & Hr).
  { intros x n. apply (f_node _ _ (i_files _ _ I)). }
  { by apply (sib_length _ (rn_child dn)). }
  cbn [mbind option_bind]. destruct r as [np|].
  2: { exists ENOENT, 0, st. do 6 (split; [done|]). split; [intros _; split; [by split|lia]|]. by left. }
  assert (Hnp : exists n, nodes st !! np = Some n).
  { destruct Hr as (l1 & l2 & _ & (n & Hn & _) & _). by exists n. }
  destruct Hnp as [n Hn].
  destruct (Vnode.vget_spec (vt st) ext addr 0 (Vnode.v_mount dv) (inode_count st) VI Ha Hext)
    as (ret & vp & v' & -> & G & VI').
  cbn [mbind option_bind]. destruct G as [(p & v & (w & Hw & _ & Eino) & _)|(_ & -> & G)].
  { specialize (Hino p w Hw). lia. }
  cbn [Z.eqb negb]. rewrite wrap_small by (unfold in_u; lia).
  destruct G as [(Ha0 & -> & ->)|(Ha0 & _ & -> & Ev)].
  - destruct Ha0 as [->|]; [|done]. cbn [Z.eqb]. exists ENOMEM, 0. eexists. split; [done|].
    split; [by apply inv_vt|]. do 2 (split; [done|]). split; [done|]. split; [done|]. split.
    { intros Hlt. cbn [set_vt inode_count vt]. split; [|lia]. split; cbn [set_vt inode_count vt]; [lia|]. intros x w Hw. specialize (Hino x w Hw). lia. }
    right. exists np. split; [done|]. left. done.
  - destruct (Z.eqb_spec addr 0) as [|_]; [done|]. cbn [set_vt nodes]. rewrite Hn. cbn [mbind option_bind].
    rewrite Ev, lookup_insert_eq. cbn [mbind option_bind]. exists 0, addr. eexists. split; [done|].
    split; [by apply inv_vt, inv_vt|]. do 2 (split; [done|]). cbn [set_vt vt inode_count].
    destruct (Z.eqb_spec addr 0); [done|].
    assert (Hvi : Vnode.vnodes v' !! addr = Some (Vnode.MkVnode (inode_count st) (Vnode.v_mount dv) 1 0 0 0 0 []))
      by (by rewrite Ev, lookup_insert_eq).
    destruct (Vnode.i_ref _ _ VI' addr _ Hvi) as (_ & Hrf & Hrb).
    split; [by apply (Vnode.inv_set v' _ _ addr _ _ VI' Hvi)|].
    split.
    { intros x w Hx Hw. cbn [Vnode.set_vnode Vnode.vnodes]. by rewrite Ev, !lookup_insert_ne. }
    split.
    { intros Hlt. split; [|cbn [set_vt inode_count]; lia]. split; cbn [inode_count vt set_vt Vnode.set_vnode Vnode.vnodes]; [lia|]. intros x w Hw.
      rewrite lookup_insert_Some in Hw. destruct Hw as [[_ <-]|[Hx Hw]]; [cbn; lia|].
      rewrite Ev, lookup_insert_ne in Hw by done. specialize (Hino x w Hw). lia. }
    right. exists np. split; [done|]. right. do 3 (split; [done|]). eexists _, n. split; [split|];
      cbn [vt nodes set_vt Vnode.set_vnode Vnode.vnodes]; [apply lookup_insert_eq|done|done|done|].
    split; [done|]. split; [done|]. by intros w [= <-].
Qed.

(** ** Listing *)

Definition dt_of (type : Z) : Z := if type =? VDIR then DT_DIR else if type =? VLNK then DT_LNK else DT_REG.

Definition dots : list (Z * list Z) := [(DT_DIR, [46]); (DT_DIR, [46; 46])].

(** What the listing says of a child. *)
Definition entry (st : ramfs) (x : Z) : Z * list Z :=
  match view st x with Some (type, name, _) => (dt_of type, name) | None => (0, []) end.

Lemma readdir_spec st K vp d off :
  inv st K -> node_of vp st = Some d -> is_Some (nodes st !! d) -> 0 <= off ->
  exists rc e off' st', ramfs_readdir vp off st = Some (rc, e, off', st') /\
    inv st' K /\ vt st' = vt st /\ inode_count st' = inode_count st /\ (forall x, view st' x = view st x) /\
    (forall x, is_Some (nodes st' !! x) <-> is_Some (nodes st !! x)) /\
    match (dots ++ map (entry st) (K d)) !! Z.to_nat off with
    | Some (type, name) => rc = 0 /\ e = Some (Dirent off type name) /\ off' = off + 1
    | None => rc = ENOENT /\ e = None /\ off' = off
    end.
Proof.
  intros I Hd [dn Hdn] Ho. unfold ramfs_readdir. rewrite Hd. cbn [mbind option_bind]. rewrite Hdn. cbn [mbind option_bind].
  set (st1 := set_node st d (touch_a dn)).
  assert (I1 : inv st1 K) by (by apply inv_attr).
  assert (W1 : forall x, view st1 x = view st x) by (intros x; by apply (view_insert st d dn)).
  assert (L1 : forall x, is_Some (nodes st1 !! x) <-> is_Some (nodes st !! x)).
  { intros x. cbn [st1 set_node set_nodes nodes]. rewrite lookup_insert_is_Some'.
    split; [intros [<-|?]; [by exists dn|done]|by right]. }
  assert (Ret : forall rc e off', (match (dots ++ map (entry st) (K d)) !! Z.to_nat off with
      | Some (type, name) => rc = 0 /\ e = Some (Dirent off type name) /\ off' = off + 1
      | None => rc = ENOENT /\ e = None /\ off' = off end) ->
    exists rc' e' off2 st', Some (rc, e, off', st1) = Some (rc', e', off2, st') /\
    inv st' K /\ vt st' = vt st /\ inode_count st' = inode_count st /\ (forall x, view st' x = view st x) /\
    (forall x, is_Some (nodes st' !! x) <-> is_Some (nodes st !! x)) /\
    match (dots ++ map (entry st) (K d)) !! Z.to_nat off with
    | Some (type, name) => rc' = 0 /\ e' = Some (Dirent off type name) /\ off2 = off + 1
    | None => rc' = ENOENT /\ e' = None /\ off2 = off
    end).
  { intros rc e off' H. exists rc, e, off', st1. done. }
  destruct (Z.eqb_spec off 0) as [->|H0]; [by apply Ret|].
  destruct (Z.eqb_spec off 1) as [->|H1]; [by apply Ret|].
  pose proof (t_chain _ _ (i_tree _ _ I) d dn Hdn) as Hc. destruct (t_nodup _ _ (i_tree _ _ I) d ltac:(by exists dn)) as [ND _].
  assert (Ei : (dots ++ map (entry st) (K d)) !! Z.to_nat off = entry st <$> K d !! Z.to_nat (off - 2)).
  { replace (Z.to_nat off) with (S (S (Z.to_nat (off - 2)))) by lia. cbn [dots app lookup list_lookup]. apply list_lookup_fmap. }
  rewrite (sib_head _ _ _ Hc). destruct (K d) as [|k kr] eqn:EK; [apply Ret; by rewrite Ei|].
  assert (Hc1 : siblings (nodes st1) (rn_child dn) (k :: kr)).
  { pose proof (t_chain _ _ (i_tree _ _ I1) d (touch_a dn)) as Hc1. rewrite EK in Hc1. apply Hc1.
    cbn [st1 set_node set_nodes nodes]. apply lookup_insert_eq. }
  pose proof (sib_length _ _ _ Hc1 ND) as Hlen.
  rewrite (nth_node_spec (size (nodes st1)) (nodes st1) (rn_child dn) (k :: kr)); try done; try lia.
  2: { destruct Hc1 as (-> & Hk & _). done. }
  cbn [mbind option_bind]. destruct ((k :: kr) !! Z.to_nat (off - 2)) as [np|] eqn:Enp.
  2: { apply Ret. by rewrite Ei. }
  assert (Hin : np ∈ k :: kr) by (by eapply list_elem_of_lookup_2).
  destruct (sib_live _ _ _ np Hc1 Hin) as [_ [n Hn]]. rewrite Hn. cbn [mbind option_bind]. apply Ret. rewrite Ei.
  cbn [fmap option_fmap option_map]. unfold entry. rewrite <- W1. unfold view. rewrite Hn. cbn [mbind option_bind].
  split; [done|]. split; [|done]. pose proof (f_node _ _ (i_files _ _ I1) np n Hn) as Nok.
  rewrite c_string_name by done. pose proof (name_length n Nok) as Hnl. pose proof (no_len _ Nok) as Hmx. unfold NAME_MAX in Hmx.
  rewrite take_ge by lia. done.
Qed.

(** ** Creating *)

(** The state after a child [np] of [d] with these bytes was made; nothing else has changed. *)
Record made (st : ramfs) (K : Z -> list Z) (d np type : Z) (name data : list Z) (st' : ramfs) : Prop := Made {
  m_fresh : np <> 0 /\ nodes st !! np = None;
  m_inv : inv st' (set_kids (set_kids K np []) d (K d ++ [np]));
  m_view : view st' np = Some (type, name, data);
  m_others : forall x, x <> np -> view st' x = view st x;
  m_live : forall x, is_Some (nodes st' !! x) <-> x = np \/ is_Some (nodes st !! x);
  m_vt : vt st' = vt st;
  m_inode : inode_count st' = inode_count st
}.

Lemma added_view st K d np name type st' : added st K d np name type st' -> view st' np = Some (type, name, []).
Proof.
  intros A. destruct (a_node _ _ _ _ _ _ _ A) as (n & m & Hn & E1 & E2 & E3 & E4 & E5 & _). unfold view. rewrite Hn.
  cbn [mbind option_bind]. unfold name_of, content. rewrite E1, E2, E3, E4, E5.
  change (rn_buf (new_node type name m)) with 0. rewrite (i_null _ _ (a_inv _ _ _ _ _ _ _ A)).
  do 3 f_equal. apply new_node_name.
Qed.

Lemma added_made st K d np name type st' : added st K d np name type st' -> made st K d np type name [] st'.
Proof. intros A. pose proof (added_view _ _ _ _ _ _ _ A). destruct A. by split. Qed.

Lemma create_spec st K dvp d name mode :
  inv st K -> node_of dvp st = Some d -> is_Some (nodes st !! d) -> 0 ∉ name ->
  exists rc st', ramfs_create dvp name mode st = Some (rc, st') /\
    (rc = ENAMETOOLONG /\ NAME_MAX < zlen name /\ st' = st \/ rc = EINVAL /\ S_ISREG mode = false /\ st' = st \/
     rc = ENOMEM /\ unchanged st K st' \/ rc = 0 /\ exists np, made st K d np VREG name [] st').
Proof.
  intros I Hd Hdl Hc. unfold ramfs_create.
  destruct (Z.ltb_spec NAME_MAX (zlen name)); [exists ENAMETOOLONG, st; split; [done|]; by left|].
  destruct (S_ISREG mode) eqn:Em; cbn [negb]; [|exists EINVAL, st; split; [done|]; right; by left].
  rewrite Hd. cbn [mbind option_bind]. destruct (add_spec st K d name VREG I Hdl ltac:(lia) Hc) as (np & st1 & -> & H1).
  cbn [mbind option_bind]. destruct H1 as [(-> & H1)|A].
  - exists ENOMEM, st1. split; [done|]. right. right. left. split; [done|]. by split; apply H1.
  - destruct (Z.eqb_spec np 0) as [->|_]; [by destruct (a_null _ _ _ _ _ _ _ A)|]. exists 0, st1. split; [done|].
    right. right. right. split; [done|]. exists np. by apply added_made.
Qed.

Lemma mkdir_spec st K dvp d name mode :
  inv st K -> node_of dvp st = Some d -> is_Some (nodes st !! d) -> 0 ∉ name ->
  exists rc st', ramfs_mkdir dvp name mode st = Some (rc, st') /\
    (rc = ENAMETOOLONG /\ NAME_MAX < zlen name /\ st' = st \/ rc = EINVAL /\ S_ISDIR mode = false /\ st' = st \/
     rc = ENOMEM /\ unchanged st K st' \/ rc = 0 /\ exists np, made st K d np VDIR name [] st').
Proof.
  intros I Hd Hdl Hc. unfold ramfs_mkdir.
  destruct (Z.ltb_spec NAME_MAX (zlen name)); [exists ENAMETOOLONG, st; split; [done|]; by left|].
  destruct (S_ISDIR mode) eqn:Em; cbn [negb]; [|exists EINVAL, st; split; [done|]; right; by left].
  rewrite Hd. cbn [mbind option_bind]. destruct (add_spec st K d name VDIR I Hdl ltac:(lia) Hc) as (np & st1 & -> & H1).
  cbn [mbind option_bind]. destruct H1 as [(-> & H1)|A].
  - exists ENOMEM, st1. split; [done|]. right. right. left. split; [done|]. by split; apply H1.
  - destruct (Z.eqb_spec np 0) as [->|_]; [by destruct (a_null _ _ _ _ _ _ _ A)|].
    destruct (a_node _ _ _ _ _ _ _ A) as (n & m & Hn & E1 & E2 & E3 & E4 & E5 & E6 & E7). rewrite Hn. cbn [mbind option_bind].
    assert (En : set_file n 0 (rn_buf n) (rn_bufsize n) (rn_owns_buf n) = n).
    { destruct n. unfold set_file. cbn in *. by rewrite <- E4. }
    rewrite En. assert (Es : set_node st1 np n = st1).
    { unfold set_node, set_nodes. rewrite insert_id by done. by destruct st1. }
    rewrite Es. exists 0, st1. split; [done|]. right. right. right. split; [done|]. exists np. by apply added_made.
Qed.

(** A link without memory for its target is left behind broken; with memory it holds the target. *)
Lemma symlink_spec st K dvp d name link :
  inv st K -> node_of dvp st = Some d -> is_Some (nodes st !! d) -> 0 ∉ name -> zlen link < 2 ^ 62 ->
  (forall a b c m, memory st = a :: b :: c :: m -> c.1 <> 0) -> (2 < length (memory st))%nat ->
  exists rc st', ramfs_symlink dvp name link st = Some (rc, st') /\
    (rc = ENAMETOOLONG /\ NAME_MAX < zlen name /\ st' = st \/
     rc = ENOMEM /\ unchanged st K st' \/ rc = 0 /\ exists np, made st K d np VLNK name link st').
Proof.
  intros I Hd Hdl Hc Hlink Hmem Hlen. unfold ramfs_symlink.
  destruct (Z.ltb_spec NAME_MAX (zlen name)); [exists ENAMETOOLONG, st; split; [done|]; by left|].
  rewrite Hd. cbn [mbind option_bind].
  assert (Hm1 : forall np st1, ramfs_add_node d name VLNK st = Some (np, st1) -> np <> 0 ->
    exists c m, memory st1 = c :: m /\ c.1 <> 0).
  { intros np st1 E Hnp. destruct (memory st) as [|[a ja] [|[b jb] [|c m]]] eqn:Em; cbn [length] in Hlen; try lia.
    specialize (Hmem _ _ _ _ eq_refl). unfold ramfs_add_node, ramfs_allocate_node, malloc in E. rewrite Em in E.
    cbn [memory] in E. exists c, m. split; [|done].
    destruct (a =? 0) eqn:Ea; [by simplify_eq/=|]. destruct (b =? 0); [by simplify_eq/=|]. rewrite Ea in E.
    destruct (nodes (set_node _ _ _) !! d) as [dn|]; [|done]. cbn [mbind option_bind] in E.
    destruct (rn_child dn =? 0).
    - cbn [mbind option_bind] in E. destruct (nodes (set_node _ _ _) !! d); [|done]. by simplify_eq/=.
    - destruct (last_node _ _ _) as [z|]; [|done]. cbn [mbind option_bind] in E.
      destruct (nodes (set_node _ _ _) !! z); [|done]. cbn [mbind option_bind] in E.
      destruct (nodes (set_node _ _ _) !! d); [|done]. by simplify_eq/=. }
  destruct (add_spec st K d name VLNK I Hdl ltac:(lia) Hc) as (np & st1 & E1 & H1). specialize (Hm1 np st1 E1).
  rewrite E1. cbn [mbind option_bind]. destruct H1 as [(-> & H1)|A].
  - exists ENOMEM, st1. split; [done|]. right. left. split; [done|]. by split; apply H1.
  - pose proof (a_null _ _ _ _ _ _ _ A) as Hnp. destruct (Z.eqb_spec np 0) as [|_]; [done|].
    destruct (Hm1 Hnp) as ([c jc] & m & Em & Hc0). cbn [fst] in Hc0. clear Hm1.
    pose proof (a_inv _ _ _ _ _ _ _ A) as I1.
    destruct (malloc (zlen link + 1) st1) as [[a junk] st2] eqn:Ea.
    destruct (fs_malloc_spec st1 _ _ _ _ _ I1 Ea) as (En2 & Eb2 & Ev2 & Ei2 & I2 & Hfa).
    assert (a = c) as ->. { unfold malloc in Ea. rewrite Em in Ea. by injection Ea as <- _ _. }
    destruct (Hfa Hc0) as (_ & Hfb & Hni & _). destruct (Z.eqb_spec c 0) as [|_]; [done|].
    destruct (a_node _ _ _ _ _ _ _ A) as (n & md & Hn & E2 & E3 & E4 & E5 & E6 & E7 & E8).
    cbn [set_blocks nodes]. rewrite En2, Hn. cbn [mbind option_bind]. eexists 0, _. split; [done|].
    right. right. split; [done|]. exists np.
    set (K1 := set_kids (set_kids K np []) d (K d ++ [np])) in *.
    set (bs := <[c := Block (link ++ [0]) true]> (blocks st2)).
    rewrite <- En2 in Hn.
    destruct (inv_replace st2 K1 np n (zlen link) c (zlen link) (rn_owns_buf n) (rn_ctime n) (rn_atime n) (rn_mtime n) (rn_mode n)
      bs (vt st2) (inode_count st2) (memory st2) I2 Hn) as (I' & V' & L').
    + unfold file_ok. cbn [set_attr set_file rn_buf rn_bufsize rn_size rn_owns_buf]. destruct (Z.eqb_spec c 0); [done|].
      eexists. unfold bs. rewrite lookup_insert_eq. split; [done|]. cbn [b_data b_malloced]. rewrite length_app. cbn [length].
      split; [lia|]. split; [lia|]. rewrite E8. done.
    + unfold bs. rewrite lookup_insert_ne by done. apply I2.
    + intros q k Hq Hk H0. unfold bs. rewrite <- Eb2 in Hfb.
      exact (others_apart st2 K1 np n c _ I2 Hn Hfb (or_introl eq_refl) _ q k Hq Hk H0).
    + apply (mem_ok_use _ _ _ _ _ c (i_mem _ _ I2)); [done|done|]. intros x Hx Hb. unfold bs. by rewrite lookup_insert_ne.
    + cbn zeta in I', V', L'. split.
      * split; [done|apply A].
      * exact I'.
      * unfold view. cbn [set_node set_nodes set_blocks nodes blocks]. rewrite lookup_insert_eq. cbn [mbind option_bind].
        unfold name_of, content, bs. cbn [set_file rn_type rn_name rn_namelen rn_buf rn_size]. rewrite E2, E3, E4, lookup_insert_eq.
        cbn [b_data]. rewrite Nat2Z.id, take_app_length. do 3 f_equal. apply new_node_name.
      * intros x Hx. rewrite <- (a_view _ _ _ _ _ _ _ A x Hx). transitivity (view st2 x); [exact (V' x Hx)|].
        unfold view. by rewrite En2, Eb2.
      * intros x. rewrite <- (a_live _ _ _ _ _ _ _ A), <- En2. apply L'.
      * cbn [set_node set_nodes set_blocks vt]. rewrite Ev2. apply A.
      * cbn [set_node set_nodes set_blocks inode_count]. rewrite Ei2. apply A.
Qed.

(** ** Renaming *)

Lemma find_prev_ext fuel ns ns' np : forall p,
  (forall x, rn_next <$> ns' !! x = rn_next <$> ns !! x) -> find_prev fuel ns' np p = find_prev fuel ns np p.
Proof.
  induction fuel as [|fuel IH]; intros p H; cbn [find_prev]; specialize (H p) as Hp;
    destruct (ns' !! p) as [n'|], (ns !! p) as [n|]; cbn in Hp |- *; try done; injection Hp as ->; [done|].
  by rewrite IH.
Qed.

(** A node without a buffer is removed in the same way whatever its sizes say. *)
Lemma remove_stale st d np n n' st1 :
  nodes st !! np = Some n -> rn_next n' = rn_next n -> rn_buf n = 0 -> rn_buf n' = 0 -> d <> np ->
  ramfs_remove_node d np st = Some (0, st1) -> ramfs_remove_node d np (set_node st np n') = Some (0, st1).
Proof.
  intros Hn En Eb Eb' Hd. unfold ramfs_remove_node. cbn [set_node set_nodes nodes].
  rewrite (lookup_insert_ne _ np d), lookup_insert_eq, Hn by (intros E; by apply Hd).
  destruct (nodes st !! d) as [dn|] eqn:Hdn; [|done]. cbn [mbind option_bind].
  destruct (rn_child dn =? 0); [done|].
  assert (Es : size (<[np := n']> (nodes st)) = size (nodes st)) by (apply map_size_insert_Some; by exists n).
  rewrite Es, (find_prev_ext _ (nodes st) (<[np := n']> (nodes st))).
  2: { intros x. destruct (decide (x = np)) as [->|Hx]; [by rewrite lookup_insert_eq, Hn; cbn; rewrite En|].
       by rewrite lookup_insert_ne. }
  unfold ramfs_free_node.
  destruct (rn_child dn =? np) eqn:Ec.
  - cbn [mbind option_bind set_node set_nodes nodes]. rewrite !(lookup_insert_ne _ d np), lookup_insert_eq, Hn by done.
    cbn [mbind option_bind]. rewrite Eb, Eb', En. cbn [Z.eqb negb andb mbind option_bind set_node set_nodes nodes].
    rewrite !lookup_delete_ne, !lookup_insert_eq by done. cbn [mbind option_bind]. intros [= <-]. do 2 f_equal.
    unfold set_nodes. cbn. f_equal. f_equal. rewrite !(delete_insert_ne _ np d) by done. by rewrite delete_insert_eq.
  - destruct (find_prev (size (nodes st)) (nodes st) np (rn_child dn)) as [[prev|]|]; cbn [mbind option_bind]; try done.
    cbn [set_node set_nodes nodes]. destruct (decide (prev = np)) as [->|Hp].
    + rewrite !lookup_insert_eq, Hn. cbn [mbind option_bind set_node set_nodes nodes set_next rn_buf]. rewrite !lookup_insert_eq.
      cbn [mbind option_bind set_next rn_buf]. rewrite Eb, Eb', En. cbn [Z.eqb negb andb mbind option_bind set_node set_nodes nodes].
      rewrite !lookup_delete_ne, !lookup_insert_ne by done. rewrite Hdn. cbn [mbind option_bind]. intros [= <-]. do 2 f_equal.
      unfold set_nodes. cbn. f_equal. f_equal. by rewrite !delete_insert_eq.
    + rewrite !(lookup_insert_ne _ np prev) by done. destruct (nodes st !! prev) as [pn|] eqn:Hpn; [|done].
      cbn [mbind option_bind set_node set_nodes nodes]. rewrite !(lookup_insert_ne _ prev np), lookup_insert_eq, Hn by done.
      cbn [mbind option_bind]. rewrite Eb, Eb', En. cbn [Z.eqb negb andb mbind option_bind set_node set_nodes nodes].
      rewrite !lookup_delete_ne by done. rewrite (insert_insert_ne _ prev np), (lookup_insert_ne _ np d) by done.
      destruct (<[prev := set_next pn (rn_next n)]> (nodes st) !! d) as [d1|]; [|done]. cbn [mbind option_bind].
      intros [= <-]. do 2 f_equal. unfold set_nodes. cbn. f_equal. f_equal. by rewrite delete_insert_eq.
Qed.

(** The buffer of [o] becomes that of [np], which had none. *)
Lemma hand_over st K np a o on :
  inv st K -> nodes st !! np = Some a -> nodes st !! o = Some on -> np <> o ->
  rn_buf a = 0 -> rn_buf on <> 0 -> rn_owns_buf on = true ->
  let st' := set_node (set_node st np (set_file a (rn_size on) (rn_buf on) (rn_bufsize on) true)) o (set_file on 0 0 0 true) in
  inv st' K /\ view st' np = Some (rn_type a, name_of a, content (blocks st) on) /\
  (forall x, x <> np -> x <> o -> view st' x = view st x) /\
  (forall x, is_Some (nodes st' !! x) <-> is_Some (nodes st !! x)).
Proof.
  intros I Ha Ho Hne Hb Hbo Hown st'. pose proof (f_file _ _ (i_files _ _ I) o on Ho) as Fo.
  destruct (inv_replace st K o on 0 0 0 true (rn_ctime on) (rn_atime on) (rn_mtime on) (rn_mode on)
    (blocks st) (vt st) (inode_count st) (memory st) I Ho) as (I1 & V1 & L1); try done.
  { apply I. }
  { apply I. }
  cbn zeta in I1, V1, L1. set (st1 := Ramfs _ _ _ _ _) in I1, V1, L1.
  assert (Ha1 : nodes st1 !! np = Some a) by (cbn [st1 nodes]; by rewrite lookup_insert_ne).
  destruct (inv_replace st1 K np a (rn_size on) (rn_buf on) (rn_bufsize on) true (rn_ctime a) (rn_atime a) (rn_mtime a) (rn_mode a)
    (blocks st) (vt st) (inode_count st) (memory st) I1 Ha1) as (I2 & V2 & L2).
  - unfold file_ok in *. cbn [set_attr set_file rn_buf rn_bufsize rn_size rn_owns_buf]. destruct (Z.eqb_spec (rn_buf on) 0); [done|].
    destruct Fo as (b & Hbl & H1 & H2 & H3 & H4). exists b. rewrite Hown in H3. done.
  - apply I.
  - intros q k Hq Hk H0. split; [|done]. cbn [st1 nodes] in Hk. rewrite lookup_insert_Some in Hk.
    destruct Hk as [[<- <-]|[Hqo Hk]]; [done|]. intros E. apply Hqo. symmetry. by apply (f_apart _ _ (i_files _ _ I) q o k on).
  - apply (i_mem _ _ I1).
  - cbn zeta in I2, V2, L2.
    assert (Es : st' = Ramfs (<[np := set_attr (set_file a (rn_size on) (rn_buf on) (rn_bufsize on) true)
        (rn_ctime a) (rn_atime a) (rn_mtime a) (rn_mode a)]> (nodes st1)) (blocks st) (vt st) (inode_count st) (memory st)).
    { unfold st', set_node, set_nodes. cbn [nodes blocks vt inode_count memory st1]. f_equal. by rewrite insert_insert_ne. }
    rewrite Es. split; [done|]. split.
    + unfold view. cbn [nodes blocks]. rewrite lookup_insert_eq. done.
    + split; [intros x H1 H2; rewrite V2 by done; by apply V1|]. intros x. rewrite L2. apply L1.
Qed.

(** The children after the file [o] of [d1] was renamed to a new node [np] of [d2]. *)
Definition moved_kids (K : Z -> list Z) (d1 o d2 np : Z) : Z -> list Z :=
  let K1 := set_kids (set_kids K np []) d2 (K d2 ++ [np]) in
  set_kids K1 d1 (filter (fun x => x <> o) (K1 d1)).

(** The part of [ramfs_rename] that moves a file into another directory. *)
Definition move_file (dvp1 old_np d2 : Z) (name2 : list Z) (st : ramfs) : option (Z * ramfs) :=
  old ← nodes st !! old_np;
  '(np, st) ← ramfs_add_node d2 name2 (rn_type old) st;
  if np =? 0 then Some (ENOMEM, st)
  else
    old ← nodes st !! old_np;
    st ← (if negb (rn_buf old =? 0) then
            n ← nodes st !! np;
            let st := set_node st np (set_file n (rn_size old) (rn_buf old) (rn_bufsize old) (rn_owns_buf n)) in
            Some (set_node st old_np (set_file old (rn_size old) 0 (rn_bufsize old) (rn_owns_buf old)))
          else Some st);
    dnp1 ← node_of dvp1 st;
    '(_, st) ← ramfs_remove_node dnp1 old_np st;
    Some (0, st).

Lemma move_file_spec st K dvp1 d1 d2 o on name :
  inv st K -> node_of dvp1 st = Some d1 -> is_Some (nodes st !! d1) -> is_Some (nodes st !! d2) ->
  nodes st !! o = Some on -> o ∈ K d1 -> d2 <> o -> 0 ∉ name -> zlen name <= NAME_MAX ->
  (rn_buf on <> 0 -> rn_owns_buf on = true) ->
  exists rc st', move_file dvp1 o d2 name st = Some (rc, st') /\ vt st' = vt st /\ inode_count st' = inode_count st /\
    (rc = ENOMEM /\ unchanged st K st' \/
     rc = 0 /\ exists np, nodes st !! np = None /\ inv st' (moved_kids K d1 o d2 np) /\
       view st' np = Some (rn_type on, name, content (blocks st) on) /\
       (forall x, x <> np -> x <> o -> view st' x = view st x) /\
       (forall x, is_Some (nodes st' !! x) <-> x = np \/ x <> o /\ is_Some (nodes st !! x))).
Proof.
  intros I Hd1 L1 L2 Ho Hin Hd2 Hc Hnm Hown. unfold move_file. rewrite Ho. cbn [mbind option_bind].
  destruct (t_nodup _ _ (i_tree _ _ I) d1 L1) as [_ Hdd].
  assert (Hd1o : d1 <> o) by (by intros ->).
  destruct (add_spec st K d2 name (rn_type on) I L2 Hnm Hc) as (np & st1 & -> & H1).
  cbn [mbind option_bind]. destruct H1 as [(-> & H1)|A].
  { exists ENOMEM, st1. split; [done|]. split; [apply H1|]. split; [apply H1|]. left. split; [done|]. by split; apply H1. }
  pose proof (a_null _ _ _ _ _ _ _ A) as Hnp. destruct (Z.eqb_spec np 0) as [|_]; [done|].
  pose proof (a_fresh _ _ _ _ _ _ _ A) as Hfr. assert (Hno : np <> o) by (intros ->; congruence).
  pose proof (a_inv _ _ _ _ _ _ _ A) as I1. pose proof (added_view _ _ _ _ _ _ _ A) as Vn.
  set (K1 := set_kids (set_kids K np []) d2 (K d2 ++ [np])) in *.
  destruct (a_old _ _ _ _ _ _ _ A o on Ho) as (on1 & Ho1 & Al). rewrite Ho1. cbn [mbind option_bind].
  destruct (a_node _ _ _ _ _ _ _ A) as (an & md & Han & E2 & E3 & E4 & E5 & E6 & E7 & E8).
  destruct Al as (T1 & T2 & T3 & T4 & T5 & T6 & T7).
  assert (Hk1 : K1 d1 = K d1 \/ d1 = d2 /\ K1 d1 = K d1 ++ [np]).
  { unfold K1, set_kids. destruct (decide (d1 = d2)) as [->|]; [by right|]. left. case_decide as E; [|done].
    destruct L1 as [? ?]. congruence. }
  assert (Hin1 : o ∈ K1 d1) by (destruct Hk1 as [->|[_ ->]]; mem_now).
  assert (Hl1 : is_Some (nodes st1 !! d1)) by (apply (a_live _ _ _ _ _ _ _ A); by right).
  assert (Hdv : node_of dvp1 st1 = Some d1) by (unfold node_of; rewrite (a_vt _ _ _ _ _ _ _ A); exact Hd1).
  assert (Hcont : content (blocks st1) on1 = content (blocks st) on).
  { unfold content. by rewrite T4, T5, (a_blocks _ _ _ _ _ _ _ A). }
  assert (Ho0 : o <> 0). { intros ->. pose proof (t_null _ _ (i_tree _ _ I)). congruence. }
  (* [st2] is the state before the removal, with the sizes of the old node cleared *)
  assert (H2 : exists st2 on2, inv st2 K1 /\ nodes st2 !! o = Some on2 /\ rn_buf on2 = 0 /\ vt st2 = vt st /\
    inode_count st2 = inode_count st /\
    view st2 np = Some (rn_type on, name, content (blocks st) on) /\
    (forall x, x <> np -> x <> o -> view st2 x = view st x) /\
    (forall x, is_Some (nodes st2 !! x) <-> is_Some (nodes st1 !! x)) /\
    exists on2', rn_next on2' = rn_next on2 /\ rn_buf on2' = 0 /\
    (if negb (rn_buf on1 =? 0) then
            n ← nodes st1 !! np;
            let st := set_node st1 np (set_file n (rn_size on1) (rn_buf on1) (rn_bufsize on1) (rn_owns_buf n)) in
            Some (set_node st o (set_file on1 (rn_size on1) 0 (rn_bufsize on1) (rn_owns_buf on1)))
          else Some st1) = Some (set_node st2 o on2')).
  { destruct (Z.eqb_spec (rn_buf on1) 0) as [E0|E0]; cbn [negb].
    - exists st1, on1. do 3 (split; [done|]). split; [apply A|]. split; [apply A|]. split.
      { rewrite Vn, <- Hcont. unfold content. by rewrite E0, (i_null _ _ I1). }
      split; [intros x Hx _; by apply A|]. split; [done|]. exists on1. do 2 (split; [done|]).
      unfold set_node, set_nodes. rewrite insert_id by done. by destruct st1.
    - rewrite Han. cbn [mbind option_bind].
      destruct (hand_over st1 K1 np an o on1 I1 Han Ho1) as (I2 & W2 & V2 & Li2); try done; [rewrite T7; apply Hown; congruence|].
      cbn zeta in I2, W2, V2, Li2. rewrite E8. cbn [new_node rn_owns_buf].
      eexists _, (set_file on1 0 0 0 true). split; [exact I2|]. split; [apply lookup_insert_eq|]. split; [done|].
      split; [apply A|]. split; [apply A|]. split.
      { rewrite W2, Hcont. unfold name_of. rewrite E2, E3, E4. do 3 f_equal. apply new_node_name. }
      split; [intros x H1 H2; rewrite V2 by done; by apply A|]. split; [exact Li2|].
      exists (set_file on1 (rn_size on1) 0 (rn_bufsize on1) (rn_owns_buf on1)). do 2 (split; [done|]).
      unfold set_node, set_nodes. cbn [nodes blocks vt inode_count memory]. by rewrite insert_insert_eq. }
  destruct H2 as (st2 & on2 & I2 & Ho2 & B2 & Ev2 & Ei2 & W2 & V2 & Li2 & on2' & N2 & B2' & Eh).
  cbn [mbind option_bind] in Eh. rewrite Eh. cbn [mbind option_bind]. replace (node_of dvp1 (set_node st2 o on2')) with (Some d1).
  2: { rewrite <- Hd1. unfold node_of. cbn [set_node set_nodes vt]. by rewrite Ev2. }
  cbn [mbind option_bind].
  destruct (fs_remove_spec st2 K1 d1 o I2 ltac:(by apply Li2) Ho0) as [Hr _].
  destruct (Hr Hin1) as (st3 & Er & R).
  rewrite (remove_stale st2 d1 o on2 on2' st3 Ho2 N2 B2 B2' Hd1o Er). cbn [mbind option_bind].
  exists 0, st3. split; [done|]. split; [by rewrite (r_vt _ _ _ _ _ R)|]. split; [by rewrite (r_inode _ _ _ _ _ R)|].
  right. split; [done|]. exists np. split; [done|]. split; [apply R|]. split; [by rewrite (r_view _ _ _ _ _ R)|].
  split; [intros x H1 H2; rewrite (r_view _ _ _ _ _ R) by done; by apply V2|].
  intros x. rewrite (r_live _ _ _ _ _ R), Li2, (a_live _ _ _ _ _ _ _ A). split; [tauto|].
  intros [->|[? ?]]; [split; [done|by left]|tauto].
Qed.

(** Removing the file that has the new name is the first step; nothing brings it back when the
    second one fails. *)
Lemma rename_spec st K dvp1 d1 vp1 o on dvp2 d2 vp2 t name :
  inv st K -> node_of dvp1 st = Some d1 -> node_of vp1 st = Some o -> node_of dvp2 st = Some d2 ->
  is_Some (nodes st !! d1) -> is_Some (nodes st !! d2) -> nodes st !! o = Some on -> o ∈ K d1 -> d2 <> o -> 0 ∉ name ->
  (dvp1 <> dvp2 -> zlen name <= NAME_MAX /\ (rn_buf on <> 0 -> rn_owns_buf on = true)) ->
  (vp2 <> 0 -> node_of vp2 st = Some t /\ t <> o /\ t <> d1 /\ t <> 0) ->
  exists rc st', ramfs_rename dvp1 vp1 dvp2 vp2 name st = Some (rc, st') /\
    ((rc = EBUSY \/ rc = ENOENT) /\ vp2 <> 0 /\ (t ∉ K d2) /\ st' = st \/
     exists st1 K1, (vp2 = 0 /\ st1 = st /\ K1 = K \/
         vp2 <> 0 /\ t ∈ K d2 /\ K1 = set_kids K d2 (filter (fun x => x <> t) (K d2)) /\ removed st K d2 t st1) /\
       inv st1 K1 /\ vt st' = vt st1 /\ inode_count st' = inode_count st1 /\
       exists on1, nodes st1 !! o = Some on1 /\ rn_type on1 = rn_type on /\ content (blocks st1) on1 = content (blocks st) on /\
       ((rc = ENAMETOOLONG \/ rc = ENOMEM) /\ inv st' K1 /\ (forall x, view st' x = view st1 x) /\
          (forall x, is_Some (nodes st' !! x) <-> is_Some (nodes st1 !! x)) \/
        rc = 0 /\ dvp1 = dvp2 /\ inv st' K1 /\ view st' o = Some (rn_type on, name, content (blocks st) on) /\
          (forall x, x <> o -> view st' x = view st1 x) /\
          (forall x, is_Some (nodes st' !! x) <-> is_Some (nodes st1 !! x)) \/
        rc = 0 /\ dvp1 <> dvp2 /\ exists np, nodes st1 !! np = None /\ inv st' (moved_kids K1 d1 o d2 np) /\
          view st' np = Some (rn_type on, name, content (blocks st) on) /\
          (forall x, x <> np -> x <> o -> view st' x = view st1 x) /\
          (forall x, is_Some (nodes st' !! x) <-> x = np \/ x <> o /\ is_Some (nodes st1 !! x)))).
Proof.
  intros I Hd1 Hvo Hd2 L1 L2 Ho Hin Hd2o Hc Hx Ht. unfold ramfs_rename.
  assert (Rest : forall st1 K1, inv st1 K1 -> vt st1 = vt st -> is_Some (nodes st1 !! d1) -> is_Some (nodes st1 !! d2) ->
    forall on1, nodes st1 !! o = Some on1 -> alike on on1 -> content (blocks st1) on1 = content (blocks st) on -> o ∈ K1 d1 ->
    exists rc st', (old_np ← node_of vp1 st1; if dvp1 =? dvp2 then ramfs_rename_node old_np name st1
        else dnp2 ← node_of dvp2 st1; move_file dvp1 old_np dnp2 name st1) = Some (rc, st') /\
      vt st' = vt st1 /\ inode_count st' = inode_count st1 /\
       ((rc = ENAMETOOLONG \/ rc = ENOMEM) /\ inv st' K1 /\ (forall x, view st' x = view st1 x) /\
          (forall x, is_Some (nodes st' !! x) <-> is_Some (nodes st1 !! x)) \/
        rc = 0 /\ dvp1 = dvp2 /\ inv st' K1 /\ view st' o = Some (rn_type on, name, content (blocks st) on) /\
          (forall x, x <> o -> view st' x = view st1 x) /\
          (forall x, is_Some (nodes st' !! x) <-> is_Some (nodes st1 !! x)) \/
        rc = 0 /\ dvp1 <> dvp2 /\ exists np, nodes st1 !! np = None /\ inv st' (moved_kids K1 d1 o d2 np) /\
          view st' np = Some (rn_type on, name, content (blocks st) on) /\
          (forall x, x <> np -> x <> o -> view st' x = view st1 x) /\
          (forall x, is_Some (nodes st' !! x) <-> x = np \/ x <> o /\ is_Some (nodes st1 !! x)))).
  { intros st1 K1 I1 Ev M1 M2 on1 Ho1 (T1 & _ & _ & _ & T5 & _ & T7) Hct Hin1.
    unfold node_of in *. rewrite Ev, Hvo. cbn [mbind option_bind]. destruct (Z.eqb_spec dvp1 dvp2) as [Ed|Ed].
    - destruct (rename_node_spec st1 K1 o on1 name I1 Ho1 Hc) as (rc & st' & E & I' & Ev' & Ei' & Lv' & H).
      exists rc, st'. split; [done|]. split; [congruence|]. split; [done|]. destruct H as [(-> & H1 & H2)|(Hrc & H2)].
      + right. left. rewrite T1, Hct in H1. done.
      + left. split; [tauto|done].
    - rewrite Hd2. cbn [mbind option_bind]. destruct (Hx Ed) as [Hl Hown].
      destruct (move_file_spec st1 K1 dvp1 d1 d2 o on1 name I1) as (rc & st' & E & Ev' & Ei' & H); try done.
      { unfold node_of. by rewrite Ev. }
      { rewrite T5, T7. exact Hown. }
      exists rc, st'. split; [done|]. split; [congruence|]. split; [done|]. destruct H as [(-> & [U1 U2 U3 U4 U5])|(-> & np & H)].
      + left. split; [by right|]. split; [done|]. unfold view. rewrite U2, U3. done.
      + right. right. do 2 (split; [done|]). exists np. by rewrite T1, Hct in H. }
  destruct (Z.eqb_spec vp2 0) as [E0|E0]; cbn [negb mbind option_bind Z.eqb].
  - destruct (Rest st K I eq_refl L1 L2 on Ho) as (rc & st' & E & Ev & Ei & H); try done. exists rc, st'. split; [exact E|].
    right. exists st, K. split; [by left|]. do 3 (split; [done|]). by exists on.
  - destruct (Ht E0) as (Hvt & Hto & Ht1 & Ht0). rewrite Hd2. cbn [mbind option_bind]. rewrite Hvt. cbn [mbind option_bind].
    destruct (fs_remove_spec st K d2 t I L2 Ht0) as [R1 R2]. destruct (decide (t ∈ K d2)) as [Hk|Hk].
    + destruct (R1 Hk) as (st1 & -> & R). cbn [mbind option_bind Z.eqb negb].
      destruct (t_nodup _ _ (i_tree _ _ I) d2 L2) as [_ Hdd].
      destruct (r_old _ _ _ _ _ R o on) as (on1 & Ho1 & Al); [done|done|].
      assert (Hct : content (blocks st1) on1 = content (blocks st) on).
      { pose proof (r_view _ _ _ _ _ R o) as Hv. unfold view in Hv. rewrite Ho, Ho1 in Hv. cbn [mbind option_bind] in Hv.
        by injection (Hv ltac:(done)). }
      assert (Hin1 : o ∈ set_kids K d2 (filter (fun x => x <> t) (K d2)) d1).
      { unfold set_kids. case_decide as Ed; [|done]. subst d2. by apply list_elem_of_filter. }
      assert (Ht2 : t <> d2) by (by intros ->).
      destruct (Rest st1 _ (r_inv _ _ _ _ _ R) (r_vt _ _ _ _ _ R)) with (on1 := on1) as (rc & st' & E & Ev & Ei & H); try done.
      { apply (r_live _ _ _ _ _ R). by split. }
      { apply (r_live _ _ _ _ _ R). by split. }
      exists rc, st'. split; [exact E|]. right. exists st1. eexists. split; [by right|]. split; [apply R|].
      do 2 (split; [done|]). exists on1. split; [done|]. split; [apply Al|]. split; [done|exact H].
    + destruct (R2 Hk) as (rc & -> & Hrc). cbn [mbind option_bind]. destruct (Z.eqb_spec rc 0) as [->|_].
      { unfold EBUSY, ENOENT in Hrc. lia. }
      exists rc, st. split; [done|]. by left.
Qed.

End RamfsDir.
