(* ===== verification/RamfsRun.v ===== *)
(** * RamfsRun: the RAM file system as a whole

    An abstract file system maps nodes to their type, name, bytes and children.  Every operation
    of [Ramfs], called as the layer above calls it, returns, keeps the invariant and does to the
    abstract file system what the operation is for. *)
From Stdlib Require Import ZArith Lia Bool.
From stdpp Require Import gmap relations.
From S2P Require Import Prelude Buf Uio Vnode Ramfs RamfsFile RamfsDir.
Import Uio Ramfs RamfsFile RamfsDir.
Open Scope Z_scope.

Module RamfsRun.

(** ** The operations *)

(** [Refill] says what [malloc] will return, [Supply] is memory of the caller. *)
Inductive op :=
| Refill (m : list (Z * list Z))
| Supply (a : Z) (bytes : list Z)
| Lookup (addr dvp : Z) (name : list Z)
| Create (dvp : Z) (name : list Z) (mode : Z)
| Mkdir (dvp : Z) (name : list Z) (mode : Z)
| Symlink (dvp : Z) (name link : list Z)
| Remove (dvp vp : Z)
| Rmdir (dvp vp : Z)
| Rename (dvp1 vp1 dvp2 vp2 : Z) (name : list Z)
| Readdir (vp off : Z)
| Read (vp : Z) (u : uio)
| Readlink (vp : Z) (u : uio)
| Write (vp : Z) (u : uio) (ioflag : Z)
| Truncate (vp len : Z)
| SetData (vp a size : Z)
| Setattr (vp : Z) (a : vattr).

Inductive out := ONone | OVnode (vp : Z) | OEntry (e : option dirent) (off : Z) | OUio (u : uio).

Definition quiet (r : option (Z * ramfs)) : option (Z * out * ramfs) := '(rc, st) ← r; Some (rc, ONone, st).
Definition with_uio (r : option (Z * uio * ramfs)) : option (Z * out * ramfs) := '(rc, u, st) ← r; Some (rc, OUio u, st).

Definition exec (o : op) (st : ramfs) : option (Z * out * ramfs) :=
  match o with
  | Refill m => Some (0, ONone, Ramfs (nodes st) (blocks st) (vt st) (inode_count st) m)
  | Supply a bytes => Some (0, ONone, set_blocks st (<[a := Block bytes false]> (blocks st)))
  | Lookup addr dvp name => '(rc, vp, st) ← ramfs_lookup addr dvp name st; Some (rc, OVnode vp, st)
  | Create dvp name mode => quiet (ramfs_create dvp name mode st)
  | Mkdir dvp name mode => quiet (ramfs_mkdir dvp name mode st)
  | Symlink dvp name link => quiet (ramfs_symlink dvp name link st)
  | Remove dvp vp => quiet (ramfs_remove dvp vp st)
  | Rmdir dvp vp => quiet (ramfs_rmdir dvp vp st)
  | Rename dvp1 vp1 dvp2 vp2 name => quiet (ramfs_rename dvp1 vp1 dvp2 vp2 name st)
  | Readdir vp off => '(rc, e, off, st) ← ramfs_readdir vp off st; Some (rc, OEntry e off, st)
  | Read vp u => with_uio (ramfs_read vp u st)
  | Readlink vp u => with_uio (ramfs_readlink vp u st)
  | Write vp u ioflag => with_uio (ramfs_write vp u ioflag st)
  | Truncate vp len => quiet (ramfs_truncate vp len st)
  | SetData vp a size => quiet (ramfs_set_file_data vp a size st)
  | Setattr vp a => st ← ramfs_setattr vp a st; Some (0, ONone, st)
  end.

(** ** What the caller promises *)

(** [vp] is the vnode of a directory or file that has not been removed. *)
Definition live (st : ramfs) (vp : Z) : Prop := exists d, node_of vp st = Some d /\ is_Some (nodes st !! d).

(** [x] is a child of [d]. *)
Definition child (st : ramfs) (d x : Z) : Prop := exists l, dir st d l /\ x ∈ l.

Definition uio_fits (u : uio) : Prop :=
  uio_ok u /\ 0 <= uio_offset u /\ uio_resid u < 2 ^ 31 /\ uio_offset u + uio_resid u < 2 ^ 62.

Definition allowed (st : ramfs) (o : op) : Prop :=
  match o with
  | Refill m => mem_ok (nodes st) (blocks st) m
  | Supply a bytes => a <> 0 /\ blocks st !! a = None /\ (a ∉ map fst (memory st)) /\ zlen bytes < 2 ^ 63
  | Lookup addr dvp name => live st dvp /\ Vnode.vnodes (vt st) !! addr = None /\ inode_count st < 2 ^ 64 - 2
  | Create dvp name _ | Mkdir dvp name _ => live st dvp /\ 0 ∉ name
  | Symlink dvp name link => live st dvp /\ (0 ∉ name) /\ zlen link < 2 ^ 62 /\
      (2 < length (memory st))%nat /\ forall a b c m, memory st = a :: b :: c :: m -> c.1 <> 0
  | Remove dvp vp | Rmdir dvp vp => live st dvp /\ live st vp
  | Rename dvp1 vp1 dvp2 vp2 name => (0 ∉ name) /\ live st dvp1 /\ live st dvp2 /\
      exists d1 o on d2, node_of dvp1 st = Some d1 /\ node_of vp1 st = Some o /\ node_of dvp2 st = Some d2 /\
        nodes st !! o = Some on /\ child st d1 o /\ d2 <> o /\
        (dvp1 <> dvp2 -> zlen name <= NAME_MAX /\ (rn_buf on <> 0 -> rn_owns_buf on = true)) /\
        (vp2 <> 0 -> exists t, node_of vp2 st = Some t /\ t <> o /\ t <> d1 /\ is_Some (nodes st !! t))
  | Readdir vp off => live st vp /\ 0 <= off
  | Read vp u | Readlink vp u => (exists v n, vnode_ok st vp v n) /\ uio_fits u /\ uio_dir u = UIO_READ /\ 0 <= uio_resid u
  | Write vp u ioflag => uio_fits u /\ uio_dir u = UIO_WRITE /\ 0 < uio_resid u /\
      exists v n, vnode_ok st vp v n /\ rn_size n + uio_resid u < 2 ^ 62
  | Truncate vp len => 0 <= len < 2 ^ 62 /\ exists v n, vnode_ok st vp v n /\
      (rn_owns_buf n = false -> len = 0 \/ rn_bufsize n <= len)
  | SetData vp a size => (exists v n, vnode_ok st vp v n) /\ 0 < size /\
      (exists b, blocks st !! a = Some b /\ b_malloced b = false /\ size <= zlen (b_data b) < 2 ^ 63) /\
      forall q m, nodes st !! q = Some m -> rn_buf m <> a
  | Setattr vp a => live st vp
  end.

(** ** The abstract file system *)

Record obj := Obj { o_type : Z; o_name : list Z; o_data : list Z; o_kids : list Z }.
Abbreviation fs := (gmap Z obj).

Definition abs (st : ramfs) (K : Z -> list Z) : fs :=
  map_imap (fun x n => Some (Obj (rn_type n) (name_of n) (content (blocks st) n) (K x))) (nodes st).

Definition with_kids (f : list Z -> list Z) (o : obj) : obj := Obj (o_type o) (o_name o) (o_data o) (f (o_kids o)).
Definition with_data (l : list Z) (o : obj) : obj := Obj (o_type o) (o_name o) l (o_kids o).
Definition with_name (l : list Z) (o : obj) : obj := Obj (o_type o) l (o_data o) (o_kids o).

(** A new last child of [d]; taking a child away. *)
Definition fs_add (d np : Z) (o : obj) (F : fs) : fs := <[np := o]> (alter (with_kids (fun l => l ++ [np])) d F).
Definition fs_del (d np : Z) (F : fs) : fs := delete np (alter (with_kids (filter (fun x => x <> np))) d F).

Definition has_name (F : fs) (name : list Z) (x : Z) : Prop := exists o, F !! x = Some o /\ o_name o = name.
Definition kid (F : fs) (d x : Z) : Prop := exists o, F !! d = Some o /\ x ∈ o_kids o.
(** [x] is the first child of [d] with the name. *)
Definition first_kid (F : fs) (d : Z) (name : list Z) (x : Z) : Prop :=
  exists o l1 l2, F !! d = Some o /\ o_kids o = l1 ++ x :: l2 /\ has_name F name x /\
    Forall (fun y => ~ has_name F name y) l1.
Definition listing (F : fs) (o : obj) : list (Z * list Z) :=
  dots ++ map (fun x => match F !! x with Some k => (dt_of (o_type k), o_name k) | None => (0, []) end) (o_kids o).

(** One of the next [k] calls of [malloc] fails. *)
Definition short (k : nat) (M : list (Z * list Z)) : Prop :=
  exists i, (i < k)%nat /\ default 0 (fst <$> M !! i) = 0.

(** The file that has the new name already is removed first. *)
Inductive cleared (N : Z -> option Z) : Z -> Z -> fs -> fs -> Prop :=
| C_none dvp F : cleared N dvp 0 F F
| C_target dvp vp d t F : vp <> 0 -> N dvp = Some d -> N vp = Some t -> kid F d t -> cleared N dvp vp F (fs_del d t F).

(** [N] and [N'] give the node of a vnode before and after the operation, [M] what [malloc]
    returns.  What a file holds between its old end and the start of a write behind it, and what
    it gets when it is made longer, is left open. *)
Inductive spec (N N' : Z -> option Z) (M : list (Z * list Z)) : op -> fs -> Z -> out -> fs -> Prop :=
| S_refill m F : spec N N' M (Refill m) F 0 ONone F
| S_supply a bytes F : spec N N' M (Supply a bytes) F 0 ONone F
| S_lookup_none addr dvp d o name F :
    N dvp = Some d -> F !! d = Some o -> (name = [] \/ forall x, x ∈ o_kids o -> ~ has_name F name x) ->
    spec N N' M (Lookup addr dvp name) F ENOENT (OVnode 0) F
| S_lookup_memory dvp name F : spec N N' M (Lookup 0 dvp name) F ENOMEM (OVnode 0) F
| S_lookup addr dvp d name x F :
    N dvp = Some d -> first_kid F d name x -> addr <> 0 -> N' addr = Some x ->
    spec N N' M (Lookup addr dvp name) F 0 (OVnode addr) F
| S_create_name dvp name mode F :
    NAME_MAX < zlen name -> spec N N' M (Create dvp name mode) F ENAMETOOLONG ONone F
| S_create_mode dvp name mode F :
    S_ISREG mode = false -> spec N N' M (Create dvp name mode) F EINVAL ONone F
| S_create_memory dvp name mode F : short 2 M -> spec N N' M (Create dvp name mode) F ENOMEM ONone F
| S_create dvp d np name mode F :
    N dvp = Some d -> np <> 0 -> F !! np = None ->
    spec N N' M (Create dvp name mode) F 0 ONone (fs_add d np (Obj VREG name [] []) F)
| S_mkdir_name dvp name mode F :
    NAME_MAX < zlen name -> spec N N' M (Mkdir dvp name mode) F ENAMETOOLONG ONone F
| S_mkdir_mode dvp name mode F :
    S_ISDIR mode = false -> spec N N' M (Mkdir dvp name mode) F EINVAL ONone F
| S_mkdir_memory dvp name mode F : short 2 M -> spec N N' M (Mkdir dvp name mode) F ENOMEM ONone F
| S_mkdir dvp d np name mode F :
    N dvp = Some d -> np <> 0 -> F !! np = None ->
    spec N N' M (Mkdir dvp name mode) F 0 ONone (fs_add d np (Obj VDIR name [] []) F)
| S_symlink_name dvp name link F :
    NAME_MAX < zlen name -> spec N N' M (Symlink dvp name link) F ENAMETOOLONG ONone F
| S_symlink_memory dvp name link F : short 2 M -> spec N N' M (Symlink dvp name link) F ENOMEM ONone F
| S_symlink dvp d np name link F :
    N dvp = Some d -> np <> 0 -> F !! np = None ->
    spec N N' M (Symlink dvp name link) F 0 ONone (fs_add d np (Obj VLNK name link []) F)
| S_remove o dvp vp d x F :
    o = Remove dvp vp \/ o = Rmdir dvp vp -> N dvp = Some d -> N vp = Some x -> kid F d x ->
    spec N N' M o F 0 ONone (fs_del d x F)
| S_remove_not o dvp vp d x rc F :
    o = Remove dvp vp \/ o = Rmdir dvp vp -> N dvp = Some d -> N vp = Some x -> ~ kid F d x ->
    rc = EBUSY \/ rc = ENOENT -> spec N N' M o F rc ONone F
| S_rename_not dvp1 vp1 dvp2 vp2 d2 t name rc F :
    N dvp2 = Some d2 -> N vp2 = Some t -> vp2 <> 0 -> ~ kid F d2 t -> rc = EBUSY \/ rc = ENOENT ->
    spec N N' M (Rename dvp1 vp1 dvp2 vp2 name) F rc ONone F
| S_rename_failed dvp1 vp1 dvp2 vp2 name rc F F1 :
    cleared N dvp2 vp2 F F1 -> rc = ENAMETOOLONG /\ NAME_MAX < zlen name \/ rc = ENOMEM /\ short 2 M ->
    spec N N' M (Rename dvp1 vp1 dvp2 vp2 name) F rc ONone F1
| S_rename vp1 dvp vp2 o name F F1 :
    cleared N dvp vp2 F F1 -> N vp1 = Some o ->
    spec N N' M (Rename dvp vp1 dvp vp2 name) F 0 ONone (alter (with_name name) o F1)
| S_rename_move dvp1 vp1 dvp2 vp2 d1 d2 x o np name F F1 :
    cleared N dvp2 vp2 F F1 -> dvp1 <> dvp2 -> N dvp1 = Some d1 -> N vp1 = Some x -> N dvp2 = Some d2 ->
    F1 !! x = Some o -> F1 !! np = None ->
    spec N N' M (Rename dvp1 vp1 dvp2 vp2 name) F 0 ONone
      (fs_del d1 x (fs_add d2 np (Obj (o_type o) name (o_data o) []) F1))
| S_readdir vp d o off type name F :
    N vp = Some d -> F !! d = Some o -> listing F o !! Z.to_nat off = Some (type, name) ->
    spec N N' M (Readdir vp off) F 0 (OEntry (Some (Dirent off type name)) (off + 1)) F
| S_readdir_end vp d o off F :
    N vp = Some d -> F !! d = Some o -> listing F o !! Z.to_nat off = None ->
    spec N N' M (Readdir vp off) F ENOENT (OEntry None off) F
| S_read o vp x u u' k data F :
    o = Read vp u /\ o_type k = VREG \/ o = Readlink vp u /\ o_type k = VLNK ->
    N vp = Some x -> F !! x = Some k ->
    data = take (Z.to_nat (uio_resid u)) (drop (Z.to_nat (uio_offset u)) (o_data k)) ->
    front u' = front u ++ data -> rest u' = drop (length data) (rest u) -> uio_ok u' ->
    uio_offset u' = uio_offset u + zlen data -> uio_resid u' = uio_resid u - zlen data ->
    spec N N' M o F 0 (OUio u') F
| S_not_a_file o vp x u k rc F :
    (exists flag, o = Write vp u flag) \/ o = Read vp u -> N vp = Some x -> F !! x = Some k -> o_type k <> VREG ->
    rc = (if o_type k =? VDIR then EISDIR else EINVAL) -> spec N N' M o F rc (OUio u) F
| S_not_a_link vp x u k F :
    N vp = Some x -> F !! x = Some k -> o_type k <> VLNK -> spec N N' M (Readlink vp u) F EINVAL (OUio u) F
| S_write_memory vp u u' flag F : short 1 M -> spec N N' M (Write vp u flag) F EIO (OUio u') F
| S_write vp x k u u' flag off g data F :
    N vp = Some x -> F !! x = Some k -> o_type k = VREG ->
    off = (if Z.land flag IO_APPEND =? 0 then uio_offset u else zlen (o_data k)) ->
    zlen g = Z.max 0 (off + uio_resid u - zlen (o_data k)) ->
    buf_write (o_data k ++ g) off (rest u) = Some data ->
    uio_resid u' = 0 -> uio_offset u' = off + uio_resid u ->
    spec N N' M (Write vp u flag) F 0 (OUio u') (alter (with_data data) x F)
| S_truncate_memory vp len F : short 1 M -> spec N N' M (Truncate vp len) F EIO ONone F
| S_truncate vp x k len data F :
    N vp = Some x -> F !! x = Some k -> zlen data = len -> take (Z.to_nat len) (o_data k) `prefix_of` data ->
    spec N N' M (Truncate vp len) F 0 ONone (alter (with_data data) x F)
| S_set_data vp x k a size data F :
    N vp = Some x -> F !! x = Some k -> o_type k = VREG -> o_data k = [] -> zlen data = size ->
    spec N N' M (SetData vp a size) F 0 ONone (alter (with_data data) x F)
| S_set_data_not vp a size rc F : rc = EINVAL \/ rc = EISDIR -> spec N N' M (SetData vp a size) F rc ONone F
| S_setattr vp a F : spec N N' M (Setattr vp a) F 0 ONone F.

(** ** Memory that runs out *)

Lemma short_0 k m : default 0 (fst <$> m !! 0%nat) = 0 -> short (S k) m.
Proof. intros H. exists 0%nat. split; [lia|done]. Qed.

Lemma alloc_short name type st st' : ramfs_allocate_node name type st = (0, st') -> short 2 (memory st).
Proof.
  unfold ramfs_allocate_node, malloc. destruct (memory st) as [|[a ja] m]; [by intros _; apply short_0|].
  destruct (Z.eqb_spec a 0) as [->|Ha]; [by intros _; apply short_0|]. cbn [memory].
  destruct m as [|[b jb] m]; [intros _; by exists 1%nat; split; [lia|]|].
  destruct (Z.eqb_spec b 0) as [->|Hb]; [intros _; by exists 1%nat; split; [lia|]|]. by intros [= -> _].
Qed.

Lemma add_short d name type st st' : ramfs_add_node d name type st = Some (0, st') -> short 2 (memory st).
Proof.
  unfold ramfs_add_node. destruct (ramfs_allocate_node name type st) as [np st1] eqn:E.
  destruct (Z.eqb_spec np 0) as [->|Hnp]; [intros _; by eapply alloc_short|].
  destruct (nodes st1 !! d); [|done]. cbn [mbind option_bind].
  match goal with |- context [if ?b then _ else _] => destruct b end; cbn [mbind option_bind].
  - destruct (nodes (set_node _ _ _) !! d); [|done]. cbn [mbind option_bind]. by intros [= -> _].
  - destruct (last_node _ _ _) as [z|]; [|done]. cbn [mbind option_bind].
    destruct (nodes st1 !! z); [|done]. cbn [mbind option_bind].
    destruct (nodes (set_node _ _ _) !! d); [|done]. cbn [mbind option_bind]. by intros [= -> _].
Qed.

Lemma make_short dvp name mode link st st' :
  ramfs_create dvp name mode st = Some (ENOMEM, st') \/ ramfs_mkdir dvp name mode st = Some (ENOMEM, st') \/
  ramfs_symlink dvp name link st = Some (ENOMEM, st') -> short 2 (memory st).
Proof.
  unfold ramfs_create, ramfs_mkdir, ramfs_symlink. destruct (NAME_MAX <? zlen name); [by intros [?|[?|?]]; simplify_eq|].
  destruct (node_of dvp st) as [d|]; cbn [mbind option_bind].
  2: { destruct (S_ISREG mode), (S_ISDIR mode); cbn [negb]; by intros [?|[?|?]]; simplify_eq. }
  intros [H|[H|H]].
  - destruct (S_ISREG mode); [|by simplify_eq]. cbn [negb] in H.
    destruct (ramfs_add_node d name VREG st) as [[np st1]|] eqn:E; [|done]. cbn [mbind option_bind] in H.
    destruct (Z.eqb_spec np 0) as [->|]; [by eapply add_short|by simplify_eq].
  - destruct (S_ISDIR mode); [|by simplify_eq]. cbn [negb] in H.
    destruct (ramfs_add_node d name VDIR st) as [[np st1]|] eqn:E; [|done]. cbn [mbind option_bind] in H.
    destruct (Z.eqb_spec np 0) as [->|]; [by eapply add_short|]. destruct (nodes st1 !! np); by simplify_eq/=.
  - destruct (ramfs_add_node d name VLNK st) as [[np st1]|] eqn:E; [|done]. cbn [mbind option_bind] in H.
    destruct (Z.eqb_spec np 0) as [->|]; [by eapply add_short|]. destruct (malloc _ st1) as [[a j] st2].
    destruct (nodes _ !! np); by simplify_eq/=.
Qed.

Lemma grow_short vp v u st st' : grow vp v u st = Some (EIO, st') -> short 1 (memory st).
Proof.
  unfold grow. destruct (nodes st !! Vnode.v_data v) as [n|]; [|done]. cbn [mbind option_bind].
  match goal with |- context [if ?b then _ else _] => destruct b end; [|by intros].
  match goal with |- context [if ?b then _ else _] => destruct b end; [|by intros].
  unfold malloc. destruct (memory st) as [|[a j] m]; [by intros _; apply short_0|].
  destruct (Z.eqb_spec a 0) as [->|]; [by intros _; apply short_0|].
  destruct (move_buf _ _ _ _) as [[]|]; by intros.
Qed.

Lemma write_short vp u flag st u' st' : ramfs_write vp u flag st = Some (EIO, u', st') -> short 1 (memory st).
Proof.
  unfold ramfs_write. destruct (Vnode.vnodes (vt st) !! vp) as [v|]; [|done]. cbn [mbind option_bind].
  repeat (match goal with |- context [if ?b then Some _ else _] => destruct b; [by intros|] end).
  destruct (nodes st !! Vnode.v_data v) as [n|]; [|done]. cbn [mbind option_bind].
  match goal with |- context [grow vp v ?x st] => set (u1 := x) end.
  destruct (grow vp v u1 st) as [[rc st1]|] eqn:E; [|done]. cbn [mbind option_bind].
  destruct (Z.eqb_spec rc 0) as [->|]; cbn [negb]; [|intros [= -> _ _]; by eapply grow_short].
  destruct (nodes st1 !! Vnode.v_data v) as [n1|]; [|done]. cbn [mbind option_bind].
  destruct (blocks (set_node _ _ _) !! _); [|done]. cbn [mbind option_bind].
  destruct (vfscore_uiomove _ _ _ _) as [[]|]; by intros.
Qed.

Lemma truncate_short vp len st st' : ramfs_truncate vp len st = Some (EIO, st') -> short 1 (memory st).
Proof.
  unfold ramfs_truncate. destruct (Vnode.vnodes (vt st) !! vp) as [v|]; [|done]. cbn [mbind option_bind].
  destruct (nodes st !! Vnode.v_data v) as [n|]; [|done]. cbn [mbind option_bind].
  destruct (len =? 0).
  { destruct (negb _); [|by intros]. destruct (rn_owns_buf n); cbn [mbind option_bind]; [|by intros].
    destruct (free_block _ _); by intros. }
  match goal with |- context [if ?b then _ else _] => destruct b end; [|by intros].
  unfold malloc. destruct (memory st) as [|[a j] m]; [by intros _; apply short_0|].
  destruct (Z.eqb_spec a 0) as [->|]; [by intros _; apply short_0|].
  destruct (move_buf _ _ _ _) as [[]|]; by intros.
Qed.

Lemma free_node_memory np st st' : ramfs_free_node np st = Some st' -> memory st' = memory st.
Proof.
  unfold ramfs_free_node, free_block. destruct (nodes st !! np) as [n|]; [|done]. cbn [mbind option_bind].
  destruct (negb (rn_buf n =? 0) && rn_owns_buf n); cbn [mbind option_bind]; [|by intros [= <-]].
  destruct (blocks st !! rn_buf n) as [b|]; [|done]. cbn [mbind option_bind]. destruct (b_malloced b); [|done].
  by intros [= <-].
Qed.

Lemma remove_memory d np st rc st' : ramfs_remove_node d np st = Some (rc, st') ->
  memory st' = memory st /\ (rc = 0 \/ rc = EBUSY \/ rc = ENOENT).
Proof.
  unfold ramfs_remove_node. destruct (nodes st !! d) as [dn|]; [|done]. cbn [mbind option_bind].
  destruct (rn_child dn =? 0); [intros [= <- <-]; split; [done|tauto]|].
  match goal with |- (?x ≫= _) = _ -> _ => assert (U : forall st1, x = Some (Some st1) -> memory st1 = memory st) end.
  { intros st1. destruct (rn_child dn =? np).
    - destruct (nodes st !! np); [|done]. by intros [= <-].
    - destruct (find_prev _ _ _ _) as [[prev|]|]; [|done|done]. cbn [mbind option_bind].
      destruct (nodes st !! np); [|done]. cbn [mbind option_bind]. destruct (nodes st !! prev); [|done]. by intros [= <-]. }
  match goal with |- (?x ≫= _) = _ -> _ => destruct x as [[st1|]|] end; [|by intros [= <- <-]; split; [|tauto]|done].
  specialize (U st1 eq_refl). cbn [mbind option_bind].
  destruct (ramfs_free_node np st1) as [st2|] eqn:Ef; [|done]. cbn [mbind option_bind].
  destruct (nodes st2 !! d); [|done]. cbn [mbind option_bind]. intros [= <- <-].
  split; [|tauto]. cbn. rewrite (free_node_memory _ _ _ Ef). done.
Qed.

Lemma rename_short dvp1 vp1 dvp2 vp2 name st rc st' :
  ramfs_rename dvp1 vp1 dvp2 vp2 name st = Some (rc, st') ->
  rc = 0 \/ rc = EBUSY \/ rc = ENOENT \/ rc = ENAMETOOLONG /\ NAME_MAX < zlen name \/ rc = ENOMEM /\ short 2 (memory st).
Proof.
  unfold ramfs_rename.
  match goal with |- (?x ≫= _) = _ -> _ =>
    assert (U : forall e st1, x = Some (e, st1) -> memory st1 = memory st /\ (e = 0 \/ e = EBUSY \/ e = ENOENT));
    [|destruct x as [[e st1]|]; [|done]] end.
  { intros e st1. destruct (negb (vp2 =? 0)); [|intros [= <- <-]; split; [done|tauto]].
    destruct (node_of dvp2 st); [|done]. cbn [mbind option_bind]. destruct (node_of vp2 st); [|done]. apply remove_memory. }
  destruct (U e st1 eq_refl) as [Em He]. cbn [mbind option_bind].
  destruct (Z.eqb_spec e 0) as [->|He0]; cbn [negb]; [|intros [= <- _]; tauto].
  destruct (node_of vp1 st1) as [o|]; [|done]. cbn [mbind option_bind]. destruct (dvp1 =? dvp2).
  - unfold ramfs_rename_node. destruct (nodes st1 !! o) as [n|]; [|done]. cbn [mbind option_bind].
    destruct (Z.ltb_spec NAME_MAX (zlen name)); [intros [= <- _]; tauto|].
    destruct (zlen name <=? rn_namelen n); [destruct (buf_write _ _ _); [|done]; intros [= <- _]; tauto|].
    unfold malloc. rewrite Em. destruct (memory st) as [|[a j] m].
    + intros [= <- _]. do 4 right. split; [done|by apply short_0].
    + destruct (Z.eqb_spec a 0) as [->|]; intros [= <- _]; [|tauto]. do 4 right. split; [done|by apply short_0].
  - destruct (node_of dvp2 st1) as [d2|]; [|done]. cbn [mbind option_bind].
    destruct (nodes st1 !! o) as [on|]; [|done]. cbn [mbind option_bind].
    destruct (ramfs_add_node d2 name (rn_type on) st1) as [[np st2]|] eqn:Ea; [|done]. cbn [mbind option_bind].
    destruct (Z.eqb_spec np 0) as [->|]; [intros [= <- _]; apply add_short in Ea; rewrite Em in Ea; tauto|].
    destruct (nodes st2 !! o) as [on2|]; [|done]. cbn [mbind option_bind].
    match goal with |- (?x ≫= _) = _ -> _ => destruct x as [st3|]; [|done] end. cbn [mbind option_bind].
    destruct (node_of dvp1 st3); [|done]. cbn [mbind option_bind].
    destruct (ramfs_remove_node _ _ _) as [[]|]; [|done]. intros [= <- _]. tauto.
Qed.

(** ** The abstraction *)

Lemma abs_lookup st K x :
  abs st K !! x = match view st x with Some (t, n, c) => Some (Obj t n c (K x)) | None => None end.
Proof. unfold abs, view. rewrite map_lookup_imap. by destruct (nodes st !! x). Qed.

Lemma abs_node st K x n : nodes st !! x = Some n ->
  abs st K !! x = Some (Obj (rn_type n) (name_of n) (content (blocks st) n) (K x)).
Proof. intros H. rewrite abs_lookup. unfold view. by rewrite H. Qed.

Lemma abs_none st K x : nodes st !! x = None -> abs st K !! x = None.
Proof. intros H. rewrite abs_lookup. unfold view. by rewrite H. Qed.

Lemma view_none st x : nodes st !! x = None -> view st x = None.
Proof. intros H. unfold view. by rewrite H. Qed.

Lemma abs_same st st' K : (forall x, view st' x = view st x) -> abs st' K = abs st K.
Proof. intros H. apply map_eq. intros x. by rewrite !abs_lookup, H. Qed.

Lemma abs_kid st K d x : inv st K -> is_Some (nodes st !! d) -> kid (abs st K) d x <-> x ∈ K d.
Proof.
  intros I [n Hn]. unfold kid. rewrite (abs_node st K d n Hn). split; [by intros (o & [= <-] & H)|by eexists].
Qed.

Lemma abs_named st K name x : inv st K -> has_name (abs st K) name x <-> named (nodes st) name x.
Proof.
  intros I. unfold has_name, named. rewrite abs_lookup. unfold view. split.
  - intros (o & H & E). destruct (nodes st !! x) as [n|]; [|done]. cbn in H. injection H as <-. by exists n.
  - intros (n & -> & E). cbn. by eexists.
Qed.

Lemma abs_added st K d np type name data st' :
  is_Some (nodes st !! d) -> made st K d np type name data st' ->
  abs st' (set_kids (set_kids K np []) d (K d ++ [np])) = fs_add d np (Obj type name data []) (abs st K).
Proof.
  intros [dn Hd] M. destruct (m_fresh _ _ _ _ _ _ _ _ M) as [_ Hf]. assert (Hne : np <> d) by congruence.
  apply map_eq. intros x. rewrite abs_lookup. unfold fs_add. destruct (decide (x = np)) as [->|Hx].
  - by rewrite (m_view _ _ _ _ _ _ _ _ M), lookup_insert_eq, kids_ne, kids_eq.
  - rewrite (m_others _ _ _ _ _ _ _ _ M), lookup_insert_ne by done. destruct (decide (x = d)) as [->|Hxd].
    + rewrite lookup_alter_eq, (abs_node st K d dn Hd), kids_eq. unfold view. by rewrite Hd.
    + rewrite lookup_alter_ne, abs_lookup, !kids_ne by done. done.
Qed.

Lemma abs_removed st K d np st' :
  is_Some (nodes st !! d) -> np <> d -> removed st K d np st' ->
  abs st' (set_kids K d (filter (fun x => x <> np) (K d))) = fs_del d np (abs st K).
Proof.
  intros [dn Hd] Hne R. apply map_eq. intros x. unfold fs_del. destruct (decide (x = np)) as [->|Hx].
  - rewrite lookup_delete_eq. apply abs_none. apply eq_None_not_Some. rewrite (r_live _ _ _ _ _ R). tauto.
  - rewrite abs_lookup, (r_view _ _ _ _ _ R), lookup_delete_ne by done. destruct (decide (x = d)) as [->|Hxd].
    + rewrite lookup_alter_eq, (abs_node st K d dn Hd), kids_eq. unfold view. by rewrite Hd.
    + rewrite lookup_alter_ne, abs_lookup, !kids_ne by done. done.
Qed.

Lemma abs_refreshed st K vp v n data st' n' :
  vnode_ok st vp v n -> refreshed st K vp v n data st' n' ->
  abs st' K = alter (with_data data) (Vnode.v_data v) (abs st K).
Proof.
  intros V R. apply map_eq. intros x. destruct (decide (x = Vnode.v_data v)) as [->|Hx].
  - rewrite lookup_alter_eq, (abs_node st K _ n) by apply V. destruct (rf_name _ _ _ _ _ _ _ _ R) as [E1 E2].
    rewrite (abs_node st' K _ n') by apply (rf_vnode _ _ _ _ _ _ _ _ R).
    by rewrite (rf_content _ _ _ _ _ _ _ _ R), E1, E2.
  - by rewrite lookup_alter_ne, !abs_lookup, (rf_view _ _ _ _ _ _ _ _ R).
Qed.

Lemma abs_renamed st K o on name st' :
  nodes st !! o = Some on -> view st' o = Some (rn_type on, name, content (blocks st) on) ->
  (forall x, x <> o -> view st' x = view st x) -> abs st' K = alter (with_name name) o (abs st K).
Proof.
  intros Ho Hv Hs. apply map_eq. intros x. destruct (decide (x = o)) as [->|Hx].
  - by rewrite lookup_alter_eq, (abs_node st K o on Ho), abs_lookup, Hv.
  - by rewrite lookup_alter_ne, !abs_lookup, Hs.
Qed.

Lemma abs_moved st K d1 o on d2 np name st' :
  inv st K -> is_Some (nodes st !! d1) -> is_Some (nodes st !! d2) -> nodes st !! o = Some on -> nodes st !! np = None ->
  d1 <> o -> d2 <> o -> view st' np = Some (rn_type on, name, content (blocks st) on) ->
  (forall x, x <> np -> x <> o -> view st' x = view st x) ->
  (forall x, is_Some (nodes st' !! x) <-> x = np \/ x <> o /\ is_Some (nodes st !! x)) ->
  abs st' (moved_kids K d1 o d2 np) =
    fs_del d1 o (fs_add d2 np (Obj (rn_type on) name (content (blocks st) on) []) (abs st K)).
Proof.
  intros I [dn1 L1] [dn2 L2] Ho Hf Hd1 Hd2 Hv Hs Hl. apply map_eq. intros x. unfold fs_del, fs_add.
  assert (Hn1 : np <> d1) by congruence. assert (Hn2 : np <> d2) by congruence.
  destruct (decide (x = o)) as [->|Hxo].
  { rewrite lookup_delete_eq. apply abs_none, eq_None_not_Some. rewrite Hl. intros [->|[? _]]; [congruence|done]. }
  rewrite lookup_delete_ne, abs_lookup by done. unfold moved_kids. destruct (decide (x = np)) as [->|Hx].
  { rewrite lookup_alter_ne, lookup_insert_eq, Hv, !kids_ne, kids_eq by done. done. }
  rewrite Hs by done. destruct (decide (x = d1)) as [->|Hx1].
  - rewrite lookup_alter_eq, kids_eq, lookup_insert_ne by done. destruct (decide (d1 = d2)) as [->|H12].
    + rewrite lookup_alter_eq, (abs_node st K d2 dn2 L2), kids_eq. unfold view. by rewrite L2.
    + rewrite lookup_alter_ne, (abs_node st K d1 dn1 L1), !kids_ne by done. unfold view. by rewrite L1.
  - rewrite lookup_alter_ne, lookup_insert_ne, kids_ne by done. destruct (decide (x = d2)) as [->|Hx2].
    + rewrite lookup_alter_eq, (abs_node st K d2 dn2 L2), kids_eq. unfold view. by rewrite L2.
    + by rewrite lookup_alter_ne, abs_lookup, !kids_ne by done.
Qed.

(** ** The invariant of a run *)

Record good (st : ramfs) (K : Z -> list Z) (ext : Z -> Z) : Prop := Good {
  g_inv : inv st K;
  g_vt : Vnode.inv (vt st) ext;
  g_ext : forall p, ext p < Vnode.INT_MAX;
  g_inodes : inodes_ok st
}.

Lemma good_same st K ext st' K' :
  good st K ext -> inv st' K' -> vt st' = vt st -> inode_count st' = inode_count st -> good st' K' ext.
Proof. intros [I V E [B N]] I' Ev Ei. split; [done|by rewrite Ev|done|]. split; by rewrite ?Ev, ?Ei. Qed.

Lemma good_unchanged st K ext st' : good st K ext -> unchanged st K st' -> good st' K ext /\ abs st' K = abs st K.
Proof.
  intros G [U1 U2 U3 U4 U5]. split; [by apply (good_same st K)|]. apply abs_same. intros x. unfold view. by rewrite U2, U3.
Qed.

Lemma good_refreshed st K ext vp v n data st' n' :
  good st K ext -> vnode_ok st vp v n -> refreshed st K vp v n data st' n' -> good st' K ext.
Proof.
  intros [I V E [B N]] Vo R. pose proof (vo_vnode _ _ _ _ Vo) as Hv. destruct (Vnode.i_ref _ _ V vp v Hv) as (_ & Hr & Hb).
  split; [apply R| |done|].
  - rewrite (rf_vt _ _ _ _ _ _ _ _ R). by apply (Vnode.inv_set (vt st) ext ext vp v).
  - split; rewrite (rf_inode _ _ _ _ _ _ _ _ R); [done|]. intros p w Hw. rewrite (rf_vt _ _ _ _ _ _ _ _ R) in Hw.
    cbn [Vnode.set_vnode Vnode.vnodes] in Hw. rewrite lookup_insert_Some in Hw. destruct Hw as [[_ <-]|[_ Hw]]; [|by apply (N p)].
    by apply (N vp v).
Qed.

(** The outcome of an operation: it returns, the invariant holds and the file system did as
    specified. *)
Definition performs (st : ramfs) (K : Z -> list Z) (o : op) : Prop :=
  exists rc r st' K' ext', exec o st = Some (rc, r, st') /\ good st' K' ext' /\
    spec (fun vp => node_of vp st) (fun vp => node_of vp st') (memory st) o (abs st K) rc r (abs st' K').

Lemma performs_intro st K o rc r st' K' ext' F :
  exec o st = Some (rc, r, st') -> good st' K' ext' -> abs st' K' = F ->
  spec (fun vp => node_of vp st) (fun vp => node_of vp st') (memory st) o (abs st K) rc r F -> performs st K o.
Proof. intros E G <- S. by exists rc, r, st', K', ext'. Qed.

Lemma quiet_some r rc st : r = Some (rc, st) -> quiet r = Some (rc, ONone, st).
Proof. by intros ->. Qed.

Lemma good_made st K ext d np type name data st' :
  good st K ext -> made st K d np type name data st' -> good st' (set_kids (set_kids K np []) d (K d ++ [np])) ext.
Proof. intros G M. apply (good_same st K); [done|apply M..]. Qed.

Lemma create_performs st K ext dvp name mode :
  good st K ext -> allowed st (Create dvp name mode) -> performs st K (Create dvp name mode).
Proof.
  intros G ((d & Hd & Hl) & Hc). destruct (create_spec st K dvp d name mode (g_inv _ _ _ G) Hd Hl Hc) as (rc & st' & E & H).
  pose proof (quiet_some _ _ _ E) as Eq. destruct H as [(-> & Hn & ->)|[(-> & Hm & ->)|[(-> & U)|(-> & np & M)]]].
  - apply (performs_intro st K (Create dvp name mode) _ _ _ K ext _ Eq G eq_refl). by constructor.
  - apply (performs_intro st K (Create dvp name mode) _ _ _ K ext _ Eq G eq_refl). by constructor.
  - destruct (good_unchanged st K ext st' G U) as [G' A']. apply (performs_intro st K (Create dvp name mode) _ _ _ K ext _ Eq G' A').
    constructor. eapply (make_short dvp name mode []). by left.
  - apply (performs_intro st K (Create dvp name mode) _ _ _ _ ext _ Eq (good_made _ _ _ _ _ _ _ _ _ G M) (abs_added _ _ _ _ _ _ _ _ Hl M)).
    destruct (m_fresh _ _ _ _ _ _ _ _ M). by constructor; [| |apply abs_none].
Qed.

Lemma mkdir_performs st K ext dvp name mode :
  good st K ext -> allowed st (Mkdir dvp name mode) -> performs st K (Mkdir dvp name mode).
Proof.
  intros G ((d & Hd & Hl) & Hc). destruct (mkdir_spec st K dvp d name mode (g_inv _ _ _ G) Hd Hl Hc) as (rc & st' & E & H).
  pose proof (quiet_some _ _ _ E) as Eq. destruct H as [(-> & Hn & ->)|[(-> & Hm & ->)|[(-> & U)|(-> & np & M)]]].
  - apply (performs_intro st K (Mkdir dvp name mode) _ _ _ K ext _ Eq G eq_refl). by constructor.
  - apply (performs_intro st K (Mkdir dvp name mode) _ _ _ K ext _ Eq G eq_refl). by constructor.
  - destruct (good_unchanged st K ext st' G U) as [G' A']. apply (performs_intro st K (Mkdir dvp name mode) _ _ _ K ext _ Eq G' A').
    constructor. eapply (make_short dvp name mode []). by right; left.
  - apply (performs_intro st K (Mkdir dvp name mode) _ _ _ _ ext _ Eq (good_made _ _ _ _ _ _ _ _ _ G M) (abs_added _ _ _ _ _ _ _ _ Hl M)).
    destruct (m_fresh _ _ _ _ _ _ _ _ M). by constructor; [| |apply abs_none].
Qed.

Lemma symlink_performs st K ext dvp name link :
  good st K ext -> allowed st (Symlink dvp name link) -> performs st K (Symlink dvp name link).
Proof.
  intros G ((d & Hd & Hl) & Hc & Hk & H1 & H2).
  destruct (symlink_spec st K dvp d name link (g_inv _ _ _ G) Hd Hl Hc Hk H2 H1) as (rc & st' & E & H).
  pose proof (quiet_some _ _ _ E) as Eq. destruct H as [(-> & Hn & ->)|[(-> & U)|(-> & np & M)]].
  - apply (performs_intro st K (Symlink dvp name link) _ _ _ K ext _ Eq G eq_refl). by constructor.
  - destruct (good_unchanged st K ext st' G U) as [G' A']. apply (performs_intro st K (Symlink dvp name link) _ _ _ K ext _ Eq G' A').
    constructor. eapply (make_short dvp name 0 link). by right; right.
  - apply (performs_intro st K (Symlink dvp name link) _ _ _ _ ext _ Eq (good_made _ _ _ _ _ _ _ _ _ G M) (abs_added _ _ _ _ _ _ _ _ Hl M)).
    destruct (m_fresh _ _ _ _ _ _ _ _ M). by constructor; [| |apply abs_none].
Qed.

Lemma remove_performs st K ext o dvp vp :
  good st K ext -> o = Remove dvp vp \/ o = Rmdir dvp vp -> live st dvp -> live st vp -> performs st K o.
Proof.
  intros G Ho (d & Hd & Hl) (x & Hx & Hlx). pose proof (g_inv _ _ _ G) as I.
  assert (Ex : exec o st = quiet (ramfs_remove_node d x st)).
  { destruct Ho as [->| ->]; cbn [exec]; unfold ramfs_remove, ramfs_rmdir; rewrite Hd, Hx; done. }
  assert (Hx0 : x <> 0). { intros ->. rewrite (t_null _ _ (i_tree _ _ I)) in Hlx. by destruct Hlx. }
  destruct (fs_remove_spec st K d x I Hl Hx0) as [R1 R2]. destruct (decide (x ∈ K d)) as [Hk|Hk].
  - destruct (R1 Hk) as (st' & E & R). rewrite (quiet_some _ _ _ E) in Ex.
    assert (Hne : x <> d). { intros ->. by destruct (t_nodup _ _ (i_tree _ _ I) d Hl). }
    apply (performs_intro st K o 0 ONone st' (set_kids K d (filter (fun y => y <> x) (K d))) ext
      (fs_del d x (abs st K)) Ex); [|by apply (abs_removed st K d x)|].
    + apply (good_same st K); [done|apply R..].
    + apply (S_remove _ _ _ o dvp vp); try done. by apply abs_kid.
  - destruct (R2 Hk) as (rc & E & Hrc). rewrite (quiet_some _ _ _ E) in Ex.
    apply (performs_intro st K o _ _ _ K ext _ Ex G eq_refl). apply (S_remove_not _ _ _ o dvp vp d x); try done.
    by rewrite abs_kid.
Qed.

Lemma lookup_performs st K ext addr dvp name :
  good st K ext -> allowed st (Lookup addr dvp name) -> performs st K (Lookup addr dvp name).
Proof.
  intros G ((d & Hd & Hl) & Ha & Hi). destruct G as [I V Ex N]. pose proof Hl as [dn Hdn].
  destruct name as [|c name'].
  { apply (performs_intro st K (Lookup addr dvp []) _ _ _ K ext (abs st K) eq_refl); [by split|done|].
    apply (S_lookup_none _ _ _ addr dvp d _ [] _ Hd (abs_node st K d dn Hdn)). by left. }
  destruct (fs_lookup_spec st K ext addr dvp d (c :: name') I V Ex N Hd Hl ltac:(done) Ha)
    as (rc & vp & st' & E & I' & En & Eb & V' & _ & N' & H).
  assert (Eq : exec (Lookup addr dvp (c :: name')) st = Some (rc, OVnode vp, st')) by (cbn [exec]; by rewrite E).
  assert (G' : good st' K (if vp =? 0 then ext else bump ext vp 1)).
  { split; [done|done| |by apply N']. intros p. destruct (vp =? 0); [done|]. destruct (decide (p = vp)) as [->|Hp].
    - destruct H as [(-> & -> & _)|(np & _ & [(_ & _ & ->)|(_ & Ha0 & -> & _)])]; rewrite bump_eq.
      + rewrite (Vnode.i_dead _ _ V 0); [unfold Vnode.INT_MAX; lia|]. destruct (Vnode.vnodes (vt st) !! 0) as [w|] eqn:Hw; [|done].
        by destruct (Vnode.i_ref _ _ V 0 w Hw).
      + rewrite (Vnode.i_dead _ _ V 0); [unfold Vnode.INT_MAX; lia|]. destruct (Vnode.vnodes (vt st) !! 0) as [w|] eqn:Hw; [|done].
        by destruct (Vnode.i_ref _ _ V 0 w Hw).
      + rewrite (Vnode.i_dead _ _ V addr Ha). unfold Vnode.INT_MAX. lia.
    - by rewrite bump_ne. }
  assert (A' : abs st' K = abs st K) by (apply abs_same; intros x; unfold view; by rewrite En, Eb).
  apply (performs_intro st K _ _ _ _ K _ _ Eq G' A').
  destruct H as [(-> & -> & Hnone)|(np & (l1 & l2 & Hk & Hnm & Hl1) & [(-> & -> & ->)|(-> & Ha0 & -> & v & n & Vo & Ed & _)])].
  - apply (S_lookup_none _ _ _ addr dvp d _ _ _ Hd (abs_node st K d dn Hdn)). right. cbn [o_kids]. intros x Hx.
    rewrite abs_named by done. by apply (proj1 (Forall_forall _ _) Hnone).
  - constructor.
  - apply (S_lookup _ _ _ addr dvp d _ np); try done.
    + exists (Obj (rn_type dn) (name_of dn) (content (blocks st) dn) (K d)), l1, l2.
      split; [by apply abs_node|]. split; [done|]. split; [by apply abs_named|].
      apply Forall_forall. intros x Hx. rewrite abs_named by done. by apply (proj1 (Forall_forall _ _) Hl1).
    + unfold node_of. rewrite (vo_vnode _ _ _ _ Vo). cbn. by rewrite Ed.
Qed.

Lemma readdir_performs st K ext vp off :
  good st K ext -> allowed st (Readdir vp off) -> performs st K (Readdir vp off).
Proof.
  intros G ((d & Hd & Hl) & Ho). pose proof Hl as [dn Hdn].
  destruct (readdir_spec st K vp d off (g_inv _ _ _ G) Hd Hl Ho) as (rc & e & off' & st' & E & I' & Ev & Ei & W & _ & H).
  assert (Eq : exec (Readdir vp off) st = Some (rc, OEntry e off', st')) by (cbn [exec]; by rewrite E).
  apply (performs_intro st K _ _ _ _ K ext (abs st K) Eq); [by apply (good_same st K)|by apply abs_same|].
  assert (El : listing (abs st K) (Obj (rn_type dn) (name_of dn) (content (blocks st) dn) (K d)) = dots ++ map (entry st) (K d)).
  { unfold listing. f_equal. apply map_ext. intros x. rewrite abs_lookup. unfold entry. by destruct (view st x) as [[[? ?] ?]|]. }
  destruct ((dots ++ map (entry st) (K d)) !! Z.to_nat off) as [[type name]|] eqn:Ee.
  - destruct H as (-> & -> & ->). apply (S_readdir _ _ _ vp d _ off _ _ _ Hd (abs_node st K d dn Hdn)). by rewrite El.
  - destruct H as (-> & -> & ->). apply (S_readdir_end _ _ _ vp d _ off _ Hd (abs_node st K d dn Hdn)). by rewrite El.
Qed.

Lemma vnode_ok_node st vp v n : vnode_ok st vp v n -> node_of vp st = Some (Vnode.v_data v).
Proof. intros V. unfold node_of. by rewrite (vo_vnode _ _ _ _ V). Qed.

Lemma read_performs st K ext o vp u v n :
  good st K ext -> vnode_ok st vp v n -> uio_fits u -> uio_dir u = UIO_READ -> 0 <= uio_resid u ->
  o = Read vp u /\ rn_type n = VREG \/ o = Readlink vp u /\ rn_type n = VLNK ->
  exec o st = with_uio (read_bytes v u st) -> performs st K o.
Proof.
  intros G Vo (Hu & Ho & Hr & Hs) Hdir Hr0 Hop Ex.
  destruct (read_bytes_spec st K vp v n u (g_inv _ _ _ G) Vo Hu Hdir Ho ltac:(lia) Hs)
    as (u' & st' & E & Hf & Hrs & Hu' & Hof & Hre & I' & Eb & Ev & Ei & W & _).
  rewrite E in Ex. apply (performs_intro st K o _ _ _ K ext (abs st K) Ex); [by apply (good_same st K)|by apply abs_same|].
  eapply S_read; [|by eapply vnode_ok_node|apply abs_node, Vo|reflexivity|done..]. exact Hop.
Qed.

Lemma files_performs st K ext o :
  good st K ext -> allowed st o -> (exists vp u, o = Read vp u \/ o = Readlink vp u) -> performs st K o.
Proof.
  intros G A (vp & u & Ho).
  assert (A' : (exists v n, vnode_ok st vp v n) /\ uio_fits u /\ uio_dir u = UIO_READ /\ 0 <= uio_resid u) by (by destruct Ho as [->| ->]).
  destruct A' as ((v & n & Vo) & Hu & Hdir & Hr). pose proof (vnode_ok_node _ _ _ _ Vo) as Hn.
  pose proof (abs_node st K _ n (vo_node _ _ _ _ Vo)) as Ha.
  destruct Ho as [->| ->]; [pose proof (read_file_bytes st vp v n u Vo) as E|pose proof (readlink_bytes st vp v n u Vo) as E].
  - destruct (decide (rn_type n = VREG)) as [Et|Et].
    + apply (read_performs st K ext _ vp u v n); try done; [by left|]. cbn [exec]. by rewrite E, Et.
    + apply (performs_intro st K (Read vp u) (if rn_type n =? VDIR then EISDIR else EINVAL) (OUio u) st K ext (abs st K)); [|done|done|].
      * cbn [exec]. rewrite E. destruct (rn_type n =? VDIR); [done|]. destruct (Z.eqb_spec (rn_type n) VREG); done.
      * eapply S_not_a_file; [by right|done|done|done|done].
  - destruct (decide (rn_type n = VLNK)) as [Et|Et].
    + apply (read_performs st K ext _ vp u v n); try done; [by right|]. cbn [exec]. by rewrite E, Et.
    + apply (performs_intro st K (Readlink vp u) EINVAL (OUio u) st K ext (abs st K)); [|done|done|].
      * cbn [exec]. rewrite E. destruct (Z.eqb_spec (rn_type n) VLNK); done.
      * by eapply S_not_a_link.
Qed.

Lemma child_kids st K d x : inv st K -> child st d x -> x ∈ K d.
Proof. intros I (l & Hd & Hx). by rewrite <- (dir_K st K d l I Hd). Qed.

Lemma write_performs st K ext vp u flag :
  good st K ext -> allowed st (Write vp u flag) -> performs st K (Write vp u flag).
Proof.
  intros G ((Hu & Ho & Hr & Hs) & Hdir & Hr0 & v & n & Vo & Hsz). pose proof (g_inv _ _ _ G) as I.
  pose proof (abs_node st K _ n (vo_node _ _ _ _ Vo)) as Ha. pose proof (vnode_ok_node _ _ _ _ Vo) as Hn.
  destruct (decide (rn_type n = VREG)) as [Et|Et].
  - destruct (fs_write_spec st K vp v n u flag I Vo Et Hu Hdir Ho ltac:(lia)) as (rc & u' & st' & E & H).
    { unfold write_pos. case_match; lia. }
    { lia. }
    assert (Eq : exec (Write vp u flag) st = Some (rc, OUio u', st')) by (cbn [exec]; by rewrite E).
    destruct H as [(-> & U)|(-> & Hre & Hof & data & n' & Hw & R & _)].
    + destruct (good_unchanged st K ext st' G U) as [G' A']. apply (performs_intro st K _ _ _ _ K ext _ Eq G' A').
      constructor. by eapply write_short.
    + apply (performs_intro st K _ _ _ _ K ext _ Eq (good_refreshed _ _ _ _ _ _ _ _ _ G Vo R) (abs_refreshed _ _ _ _ _ _ _ _ Vo R)).
      pose proof (content_length st K _ n I (vo_node _ _ _ _ Vo)) as Hcl.
      eapply (S_write _ _ _ vp _ _ u u' flag (write_pos n u flag) _ data); try done; cbn [o_data].
      * by rewrite Hcl.
      * pose proof (spare_length st K _ n I (vo_node _ _ _ _ Vo)) as Hsl. pose proof (size_bound st K _ n I (vo_node _ _ _ _ Vo)) as Hsb.
        rewrite Hcl. unfold gap, write_pos. match goal with |- context [if ?b then _ else _] => destruct b eqn:? end; tests;
          rewrite ?length_take, ?length_replicate; case_match; lia.
  - apply (performs_intro st K (Write vp u flag) (if rn_type n =? VDIR then EISDIR else EINVAL) (OUio u) st K ext (abs st K)); [|done|done|].
    + cbn [exec]. unfold ramfs_write. rewrite (vo_vnode _ _ _ _ Vo). cbn [mbind option_bind]. rewrite (vo_type _ _ _ _ Vo).
      destruct (rn_type n =? VDIR); [done|]. destruct (Z.eqb_spec (rn_type n) VREG); done.
    + eapply S_not_a_file; [left; by eexists|done|done|done|done].
Qed.

Lemma truncate_performs st K ext vp len :
  good st K ext -> allowed st (Truncate vp len) -> performs st K (Truncate vp len).
Proof.
  intros G (Hlen & v & n & Vo & Hown). pose proof (g_inv _ _ _ G) as I.
  destruct (truncate_spec st K vp v n len I Vo Hlen Hown) as (rc & st' & E & H). pose proof (quiet_some _ _ _ E) as Eq.
  destruct H as [(-> & _ & U)|(-> & data & n' & R & Hd & Hp)].
  - destruct (good_unchanged st K ext st' G U) as [G' A'].
    apply (performs_intro st K (Truncate vp len) _ _ _ K ext _ Eq G' A'). constructor. by eapply truncate_short.
  - apply (performs_intro st K (Truncate vp len) _ _ _ K ext _ Eq (good_refreshed _ _ _ _ _ _ _ _ _ G Vo R) (abs_refreshed _ _ _ _ _ _ _ _ Vo R)).
    eapply S_truncate; [by eapply vnode_ok_node|by apply abs_node, Vo|done|done].
Qed.

Lemma set_data_performs st K ext vp a size :
  good st K ext -> allowed st (SetData vp a size) -> performs st K (SetData vp a size).
Proof.
  intros G ((v & n & Vo) & Hsz & (b & Hb & Hm & Hl) & Hap). pose proof (g_inv _ _ _ G) as I. pose proof (vo_node _ _ _ _ Vo) as Hn.
  assert (Ex : exec (SetData vp a size) st = quiet (if rn_type n =? VDIR then Some (EISDIR, st)
    else if negb (rn_type n =? VREG) then Some (EINVAL, st)
    else if negb (rn_buf n =? 0) then Some (EINVAL, st)
    else Some (0, set_v_size vp v size (set_node st (Vnode.v_data v) (set_file n size a size false))))).
  { cbn [exec]. f_equal. unfold ramfs_set_file_data. rewrite (vo_vnode _ _ _ _ Vo). cbn [mbind option_bind].
    rewrite (vo_type _ _ _ _ Vo), Hn. done. }
  destruct (rn_type n =? VDIR).
  { apply (performs_intro st K _ _ _ _ K ext _ Ex G eq_refl). apply S_set_data_not. by right. }
  destruct (Z.eqb_spec (rn_type n) VREG) as [Et|Et]; cbn [negb] in Ex.
  2: { apply (performs_intro st K _ _ _ _ K ext _ Ex G eq_refl). apply S_set_data_not. by left. }
  destruct (Z.eqb_spec (rn_buf n) 0) as [E0|E0]; cbn [negb] in Ex.
  2: { apply (performs_intro st K _ _ _ _ K ext _ Ex G eq_refl). apply S_set_data_not. by left. }
  set (data := take (Z.to_nat size) (b_data b)). assert (Hd : zlen data = size) by (unfold data; rewrite length_take; lia).
  assert (Ha0 : a <> 0) by (intros ->; rewrite (i_null _ _ I) in Hb; done).
  assert (R : refreshed st K vp v n data (set_v_size vp v size (set_node st (Vnode.v_data v) (set_file n size a size false)))
    (set_file n size a size false)).
  { destruct (inv_replace st K (Vnode.v_data v) n size a size false (rn_ctime n) (rn_atime n) (rn_mtime n) (rn_mode n) (blocks st)
      (Vnode.set_vnode (vt st) vp (set_data v (Vnode.v_type v) (Vnode.v_mode v) size (Vnode.v_data v)))
      (inode_count st) (memory st) I Hn) as (I' & V' & L').
    - unfold file_ok. cbn [set_attr set_file rn_buf rn_size rn_bufsize rn_owns_buf]. destruct (Z.eqb_spec a 0); [done|].
      exists b. repeat split; try done; lia.
    - apply I.
    - intros q k Hq Hk _. split; [by apply (Hap q)|done].
    - apply I.
    - cbn zeta in I', V', L'. split; rewrite ?Hd; try done.
      + split; cbn [set_v_size set_node set_nodes set_vt nodes vt Vnode.set_vnode Vnode.vnodes]; try apply lookup_insert_eq; try done.
        apply Vo.
      + unfold content. cbn [set_v_size set_node set_nodes set_vt blocks set_file rn_buf rn_size]. by rewrite Hb. }
  apply (performs_intro st K _ _ _ _ K ext _ Ex (good_refreshed _ _ _ _ _ _ _ _ _ G Vo R) (abs_refreshed _ _ _ _ _ _ _ _ Vo R)).
  eapply S_set_data; [by eapply vnode_ok_node|by apply abs_node|done| |done]. cbn [o_data]. unfold content.
  by rewrite E0, (i_null _ _ I).
Qed.

Lemma supply_performs st K ext a bytes :
  good st K ext -> allowed st (Supply a bytes) -> performs st K (Supply a bytes).
Proof.
  intros G (Ha & Hb & Hm & Hl). pose proof (g_inv _ _ _ G) as I. pose proof I as [T F B M].
  assert (Hno : forall q m, nodes st !! q = Some m -> rn_buf m <> 0 -> rn_buf m <> a).
  { intros q m Hq H0 E. pose proof (f_file _ _ F q m Hq) as Fm. unfold file_ok in Fm. destruct (Z.eqb_spec (rn_buf m) 0); [done|].
    rewrite E in Fm. destruct Fm as (b & Hx & _). congruence. }
  apply (performs_intro st K (Supply a bytes) _ _ _ K ext (abs st K) eq_refl).
  - apply (good_same st K); [done| |done|done]. split; cbn [set_blocks nodes blocks memory]; [done| |by rewrite lookup_insert_ne|].
    + destruct F as [N FF A]. split; [done| |done]. intros q m Hq. pose proof (FF q m Hq) as Fm. unfold file_ok in *.
      destruct (Z.eqb_spec (rn_buf m) 0); [done|]. rewrite lookup_insert_ne; [done|]. intros E. by apply (Hno q m).
    + apply (mem_ok_use _ _ _ _ _ a M); [done|done|]. intros x Hx. by rewrite lookup_insert_ne.
  - apply abs_same. intros x. unfold view. cbn [set_blocks nodes blocks]. destruct (nodes st !! x) as [m|] eqn:Hx; [|done].
    cbn [mbind option_bind]. unfold content. destruct (decide (rn_buf m = 0)) as [E|E].
    + by rewrite E, lookup_insert_ne by done.
    + rewrite lookup_insert_ne; [done|]. intros E'. by apply (Hno x m).
  - constructor.
Qed.

Lemma refill_performs st K ext m : good st K ext -> allowed st (Refill m) -> performs st K (Refill m).
Proof.
  intros G Hm. apply (performs_intro st K (Refill m) _ _ _ K ext (abs st K) eq_refl); [|done|constructor].
  apply (good_same st K); [done| |done|done]. destruct (g_inv _ _ _ G). by split.
Qed.

Lemma setattr_performs st K ext vp a : good st K ext -> live st vp -> performs st K (Setattr vp a).
Proof.
  intros G (x & Hx & [n Hn]).
  assert (Ex : exists c at_ mt mode, exec (Setattr vp a) st = Some (0, ONone, set_node st x (set_attr n c at_ mt mode))).
  { cbn [exec]. unfold ramfs_setattr. rewrite Hx. cbn [mbind option_bind]. rewrite Hn. by do 4 eexists. }
  destruct Ex as (c & at_ & mt & mode & Ex).
  apply (performs_intro st K _ _ _ _ K ext (abs st K) Ex); [|by apply abs_same; intros y; apply (view_insert st x n)|constructor].
  apply (good_same st K); [done| |done|done]. by apply inv_attr, Hn; apply G.
Qed.

Lemma rename_performs st K ext dvp1 vp1 dvp2 vp2 name :
  good st K ext -> allowed st (Rename dvp1 vp1 dvp2 vp2 name) -> performs st K (Rename dvp1 vp1 dvp2 vp2 name).
Proof.
  intros G (Hc & (d1' & Hd1' & L1) & (d2' & Hd2' & L2) & d1 & o & on & d2 & Hd1 & Hvo & Hd2 & Ho & Hch & Hd2o & Hx & Ht).
  assert (d1' = d1) as -> by congruence. assert (d2' = d2) as -> by congruence. clear Hd1' Hd2'.
  pose proof (g_inv _ _ _ G) as I. pose proof (child_kids st K d1 o I Hch) as Hin.
  destruct (t_nodup _ _ (i_tree _ _ I) d1 L1) as [_ Hdd]. assert (Hd1o : d1 <> o) by (by intros ->).
  assert (Ht' : exists t, vp2 <> 0 -> node_of vp2 st = Some t /\ t <> o /\ t <> d1 /\ t <> 0).
  { destruct (decide (vp2 = 0)) as [->|Hv2]; [by exists 0|]. destruct (Ht Hv2) as (t & A & B & C & D). exists t. intros _.
    do 3 (split; [done|]). intros ->. rewrite (t_null _ _ (i_tree _ _ I)) in D. by destruct D. }
  destruct Ht' as [t Ht'].
  destruct (rename_spec st K dvp1 d1 vp1 o on dvp2 d2 vp2 t name I Hd1 Hvo Hd2 L1 L2 Ho Hin Hd2o Hc Hx Ht') as (rc & st' & E & H).
  pose proof (quiet_some _ _ _ E) as Eq. pose proof (rename_short _ _ _ _ _ _ _ _ E) as Hsh.
  destruct H as [(Hrc & Hv2 & Hk & ->)|(st1 & K1 & H1 & I1 & Ev & Ei & on1 & Ho1 & Et & Ect & H)].
  { destruct (Ht' Hv2) as (Htn & _). apply (performs_intro st K (Rename dvp1 vp1 dvp2 vp2 name) _ _ _ K ext _ Eq G eq_refl).
    apply (S_rename_not _ _ _ dvp1 vp1 dvp2 vp2 d2 t); try done. by rewrite abs_kid. }
  (* the state in between *)
  assert (M1 : vt st1 = vt st /\ inode_count st1 = inode_count st /\ is_Some (nodes st1 !! d1) /\ is_Some (nodes st1 !! d2) /\
    cleared (fun vp => node_of vp st) dvp2 vp2 (abs st K) (abs st1 K1)).
  { destruct H1 as [(-> & -> & ->)|(Hv2 & Hk & -> & R)]; [by repeat split; try constructor|].
    destruct (Ht' Hv2) as (Htn & Hto & Htd & Ht0).
    assert (Hd2t : t <> d2) by (intros ->; by destruct (t_nodup _ _ (i_tree _ _ I) d2 L2)).
    split; [apply R|]. split; [apply R|]. split; [apply (r_live _ _ _ _ _ R); by split|].
    split; [apply (r_live _ _ _ _ _ R); by split|].
    rewrite (abs_removed st K d2 t st1 L2 Hd2t R). apply C_target; try done. by apply abs_kid. }
  destruct M1 as (Ev1 & Ei1 & L11 & L12 & Cl).
  assert (Gs : forall K', inv st' K' -> good st' K' ext) by (intros K' I'; apply (good_same st K); congruence || done).
  destruct H as [(Hrc & I' & W & _)|[(-> & <- & I' & W & Ws & _)|(-> & Hne & np & Hf & I' & W & Ws & Lv)]].
  - assert (Hrc' : rc = ENAMETOOLONG /\ NAME_MAX < zlen name \/ rc = ENOMEM /\ short 2 (memory st)).
    { destruct Hsh as [Z|[Z|[Z|Z]]]; [unfold ENAMETOOLONG, ENOMEM, EBUSY, ENOENT in *; lia..|exact Z]. }
    apply (performs_intro st K (Rename dvp1 vp1 dvp2 vp2 name) _ _ _ K1 ext _ Eq (Gs _ I') (abs_same _ _ _ W)).
    by apply S_rename_failed.
  - assert (A : abs st' K1 = alter (with_name name) o (abs st1 K1)) by (apply (abs_renamed st1 K1 o on1); [done|congruence|done]).
    apply (performs_intro st K (Rename dvp1 vp1 dvp1 vp2 name) _ _ _ K1 ext _ Eq (Gs _ I') A). by apply S_rename.
  - assert (A : abs st' (moved_kids K1 d1 o d2 np) =
      fs_del d1 o (fs_add d2 np (Obj (rn_type on1) name (content (blocks st1) on1) []) (abs st1 K1))).
    { apply abs_moved; try done. congruence. }
    apply (performs_intro st K (Rename dvp1 vp1 dvp2 vp2 name) _ _ _ _ ext _ Eq (Gs _ I') A).
    apply (S_rename_move _ _ _ dvp1 vp1 dvp2 vp2 d1 d2 o _ np name _ (abs st1 K1) Cl Hne Hd1 Hvo Hd2 (abs_node st1 K1 o on1 Ho1)).
    by apply abs_none.
Qed.

(** ** Runs *)

Lemma exec_performs st K ext o : good st K ext -> allowed st o -> performs st K o.
Proof.
  intros G A. destruct o.
  - by apply (refill_performs st K ext).
  - by apply (supply_performs st K ext).
  - by apply (lookup_performs st K ext).
  - by apply (create_performs st K ext).
  - by apply (mkdir_performs st K ext).
  - by apply (symlink_performs st K ext).
  - apply (remove_performs st K ext _ dvp vp G); [by left|apply A..].
  - apply (remove_performs st K ext _ dvp vp G); [by right|apply A..].
  - by apply (rename_performs st K ext).
  - by apply (readdir_performs st K ext).
  - apply (files_performs st K ext _ G A). eexists _, _. by left.
  - apply (files_performs st K ext _ G A). eexists _, _. by right.
  - by apply (write_performs st K ext).
  - by apply (truncate_performs st K ext).
  - by apply (set_data_performs st K ext).
  - by apply (setattr_performs st K ext).
Qed.

(** Mounting makes the vnode of the root, at [addr], and its node. *)
Definition mount_root (addr mp : Z) (m : list (Z * list Z)) : option (Z * ramfs) :=
  '(_, vp, v) ← Vnode.vfscore_vget addr 0 mp 0 Vnode.vnode_init;
  if vp =? 0 then Some (ENOMEM, Ramfs ∅ ∅ v 1 m)
  else
    x ← Vnode.vnodes v !! vp;
    ramfs_mount vp (Ramfs ∅ ∅ (Vnode.set_vnode v vp (set_data x VDIR (Z.lor S_IFDIR 448) (Vnode.v_size x) 0)) 1 m).

Definition started (st : ramfs) : Prop :=
  exists addr mp m, addr <> 0 /\ mem_ok ∅ ∅ m /\ mount_root addr mp m = Some (0, st).

Definition step (st st' : ramfs) : Prop := exists o rc r, allowed st o /\ exec o st = Some (rc, r, st').

Lemma step_good st K ext st' : good st K ext -> step st st' -> exists K' ext', good st' K' ext'.
Proof.
  intros G (o & rc & r & A & E). destruct (exec_performs st K ext o G A) as (rc' & r' & st2 & K' & ext' & E' & G' & _).
  rewrite E in E'. injection E' as <- <- <-. by exists K', ext'.
Qed.

Lemma inv_empty v i m : mem_ok ∅ ∅ m -> inv (Ramfs ∅ ∅ v i m) (fun _ => []).
Proof.
  intros M. split; cbn [nodes blocks memory]; [| |done|done].
  - split; [by intros d n ?%lookup_empty_Some| |by intros d1 d2 x ? ? ?%not_elem_of_nil|done].
    intros d _. split; [constructor|apply not_elem_of_nil].
  - split; [by intros p n ?%lookup_empty_Some..|by intros p q n k ?%lookup_empty_Some].
Qed.

Lemma mount_good addr mp m st :
  addr <> 0 -> mem_ok ∅ ∅ m -> mount_root addr mp m = Some (0, st) -> exists K ext, good st K ext.
Proof.
  intros Ha M. unfold mount_root.
  destruct (Vnode.vget_spec Vnode.vnode_init (fun _ => 0) addr 0 mp 0 Vnode.inv_vnode_init) as (rc & vp & v & -> & H & VI); [done|done|].
  cbn [mbind option_bind]. destruct H as [(p & w & (x & Hx & _) & _)|(_ & _ & [([|] & _)|(_ & _ & -> & Ev)])]; [cbn in Hx; by rewrite lookup_empty in Hx|done|done|].
  destruct (Z.eqb_spec addr 0) as [|_]; [done|].
  assert (Hv : Vnode.vnodes v !! addr = Some (Vnode.MkVnode 0 mp 1 0 0 0 0 [])) by (by rewrite Ev, lookup_insert_eq).
  rewrite Hv. cbn [mbind option_bind]. set (w := set_data _ _ _ _ _). set (st0 := Ramfs ∅ ∅ _ 1 m).
  destruct (Vnode.i_ref _ _ VI addr _ Hv) as (_ & Hr & Hb).
  assert (VI0 : Vnode.inv (vt st0) (bump (fun _ => 0) addr 1)) by (by apply (Vnode.inv_set v _ _ addr _ _ VI Hv)).
  unfold ramfs_mount. destruct (allocate_spec st0 (fun _ => []) [47] VDIR (inv_empty _ _ _ M)) as (np & md & st1 & -> & Eb & Evt & Ei & H).
  { done. }
  { intros H0. apply list_elem_of_singleton in H0. done. }
  destruct H as [(-> & _)|(Hnp & _ & _ & I1 & _)]; [done|]. destruct (Z.eqb_spec np 0) as [|_]; [done|].
  rewrite Evt. assert (Hw : Vnode.vnodes (vt st0) !! addr = Some w) by (cbn; apply lookup_insert_eq). rewrite Hw.
  cbn [mbind option_bind]. intros [= <-]. exists (set_kids (fun _ => []) np []), (bump (fun _ => 0) addr 1). split.
  - by apply inv_vt.
  - cbn [set_vt vt]. destruct (Vnode.i_ref _ _ VI0 addr _ Hw) as (_ & Hr0 & Hb0).
    by apply (Vnode.inv_set (vt st0) (bump (fun _ => 0) addr 1) _ addr w).
  - intros p. destruct (decide (p = addr)) as [->|Hp]; [rewrite bump_eq|rewrite bump_ne by done]; unfold Vnode.INT_MAX; lia.
  - split; cbn [set_vt inode_count vt]; rewrite Ei; [cbn; lia|]. intros p x Hx. cbn [Vnode.set_vnode Vnode.vnodes] in Hx.
    rewrite lookup_insert_Some in Hx. destruct Hx as [[_ <-]|[Hne Hx]]; [cbn; lia|]. cbn in Hx.
    rewrite lookup_insert_ne, Ev, lookup_insert_ne in Hx by done. cbn in Hx; by rewrite lookup_empty in Hx.
Qed.

Lemma reach_good st0 st : started st0 -> rtc step st0 st -> exists K ext, good st K ext.
Proof.
  intros (addr & mp & m & Ha & M & E) R. destruct (mount_good addr mp m st0 Ha M E) as (K & ext & G). clear E. revert K ext G.
  induction R as [|s1 s2 s3 Hs _ IH]; intros K ext G; [by eexists _, _|].
  destruct (step_good s1 K ext s2 G Hs) as (K' & ext' & G'). by apply (IH K' ext').
Qed.


(** ** A mounted file system *)

Definition demo_mem : list (Z * list Z) := map (fun i => (4096 + 16 * Z.of_nat i, [])) (seq 0 12).
Definition demo : ramfs := default (Ramfs ∅ ∅ Vnode.vnode_init 1 []) (snd <$> mount_root 64 7 demo_mem).

Fixpoint run (ops : list op) (st : ramfs) : option ramfs :=
  match ops with [] => Some st | o :: ops' => '(_, _, st) ← exec o st; run ops' st end.

Definition file_mode : Z := Z.lor S_IFREG 420.
Definition dir_mode : Z := Z.lor S_IFDIR 493.

Lemma demo_started : started demo.
Proof.
  exists 64, 7, demo_mem. split; [done|]. split; [|by vm_compute]. split; [|done].
  apply (bool_decide_unpack _). by vm_compute.
Qed.

Definition demo_file : ramfs := default demo (run [Create 64 [102] file_mode; Lookup 80 64 [102]] demo).
Definition demo_write : op := Write 80 (uio_of [[97; 98]; [99]] 4 UIO_WRITE) 0.

Lemma demo_reached : rtc step demo demo_file.
Proof.
  apply rtc_l with (default demo (run [Create 64 [102] file_mode] demo)).
  - eexists (Create 64 [102] file_mode), _, _. split; [|by vm_compute].
    split; [eexists; split; [by vm_compute|eexists; by vm_compute]|]. apply (bool_decide_unpack _). by vm_compute.
  - apply rtc_once. eexists (Lookup 80 64 [102]), _, _. split; [|by vm_compute].
    split; [eexists; split; [by vm_compute|eexists; by vm_compute]|]. by vm_compute.
Qed.

Lemma demo_allowed : allowed demo_file demo_write.
Proof.
  split; [split; [apply uio_of_ok|by vm_compute]|]. split; [done|]. split; [by vm_compute|].
  eexists _, _. split; [split; by vm_compute|by vm_compute].
Qed.


(** ** Where the code does less than it should *)

(** Making a file shorter keeps its bytes in the buffer; a later write behind the end brings them
    back, where the file should have zeros. *)
Theorem truncate_keeps_bytes :
  (st ← run [Create 64 [102] file_mode; Lookup 80 64 [102]; Write 80 (uio_of [[97; 98; 99; 100]] 0 UIO_WRITE) 0;
             Truncate 80 1; Write 80 (uio_of [[120]] 3 UIO_WRITE) 0] demo;
   x ← node_of 80 st; view st x) = Some (VREG, [102], [97; 98; 99; 120]).
Proof. by vm_compute. Qed.

(** A write that makes the file longer within its buffer says that the buffer is owned, also when
    the caller supplied it; it is freed later. *)
Theorem supplied_data_freed :
  run [Create 64 [102] file_mode; Lookup 80 64 [102]; Supply 9000 [1; 2; 3; 4]; SetData 80 9000 4; Truncate 80 2;
       Write 80 (uio_of [[120; 121]] 1 UIO_WRITE) 0; Truncate 80 0] demo = None.
Proof. by vm_compute. Qed.

(** Renaming a directory into another one loses the files in it. *)
Theorem rename_loses_children :
  (st ← run [Mkdir 64 [97] dir_mode; Mkdir 64 [98] dir_mode; Lookup 80 64 [97]; Lookup 96 64 [98];
             Create 80 [102] file_mode; Rename 64 80 96 0 [99]; Lookup 112 96 [99]] demo;
   fst <$> exec (Readdir 112 2) st) = Some (ENOENT, OEntry None 2).
Proof. by vm_compute. Qed.

(** A link whose target could not be copied has a size and no bytes; reading it follows a null
    pointer. *)
Theorem symlink_without_target :
  (st ← run [Refill [(5000, []); (5016, []); (0, [])]; Symlink 64 [97] [98]; Lookup 80 64 [97]] demo; Some (memory st)) = Some [] /\
  (st ← run [Refill [(5000, []); (5016, []); (0, [])]; Symlink 64 [97] [98]; Lookup 80 64 [97]] demo;
   exec (Readlink 80 (uio_of [[0; 0]] 0 UIO_READ)) st) = None.
Proof. by vm_compute. Qed.

(** Removing a file frees its node while a vnode still refers to it. *)
Theorem removed_node_used :
  is_Some (run [Create 64 [102] file_mode; Lookup 80 64 [102]; Remove 64 80] demo) /\
  run [Create 64 [102] file_mode; Lookup 80 64 [102]; Remove 64 80; Truncate 80 0] demo = None.
Proof. split; [eexists|]; by vm_compute. Qed.

(** A write whose end does not fit into [off_t] makes the size negative and stores outside the
    buffer. *)
Theorem write_end_overflows :
  (st ← run [Create 64 [102] file_mode; Lookup 80 64 [102]] demo; Some (memory st)) <> None /\
  run [Create 64 [102] file_mode; Lookup 80 64 [102]; Write 80 (uio_of [[1; 2; 3]] (LONG_MAX - 1) UIO_WRITE) 0] demo = None.
Proof. by vm_compute. Qed.

End RamfsRun.
