(* ===== verification/RamfsUse.v ===== *)
(** * RamfsUse: what a program sees of the RAM file system

    Sequences of calls on the file systems of [RamfsRun]: what was written is read back, a
    directory is listed to its end. *)
From Stdlib Require Import ZArith Lia Bool.
From stdpp Require Import gmap relations.
From S2P Require Import Prelude Buf Uio Vnode Ramfs RamfsFile RamfsDir RamfsRun.
Import Uio Ramfs RamfsFile RamfsDir RamfsRun.
Open Scope Z_scope.

Module RamfsUse.

(** What a write stored, at its offset or appended, is what a read of the same range returns
    afterwards, byte for byte and wherever the vectors of either call cut the range. *)
Theorem ramfs_write_read st0 st vp v n u flag u1 st1 r :
  started st0 -> rtc step st0 st -> allowed st (Write vp u flag) -> vnode_ok st vp v n -> rn_type n = VREG ->
  ramfs_write vp u flag st = Some (0, u1, st1) ->
  uio_ok r -> uio_dir r = UIO_READ -> uio_offset r = write_pos n u flag -> uio_resid r = uio_resid u ->
  exists r' st2, ramfs_read vp r st1 = Some (0, r', st2) /\ front r' = front r ++ rest u /\ uio_resid r' = 0.
Proof.
  intros S R ((Hu & Ho & Hr & Hs) & Hdir & Hr0 & v' & n' & Vo' & Hsz) Vo Et E Hru Hrd Hro Hrr.
  destruct (reach_good st0 st S R) as (K & ext & G). pose proof (g_inv _ _ _ G) as I.
  assert (v' = v) as -> by (pose proof (vo_vnode _ _ _ _ Vo); pose proof (vo_vnode _ _ _ _ Vo'); congruence).
  assert (n' = n) as -> by (pose proof (vo_node _ _ _ _ Vo); pose proof (vo_node _ _ _ _ Vo'); congruence).
  pose proof (size_bound st K _ n I (vo_node _ _ _ _ Vo)) as Hsb.
  assert (Hp : 0 <= write_pos n u flag /\ write_pos n u flag + uio_resid u < 2 ^ 62) by (unfold write_pos; case_match; lia).
  destruct (fs_write_spec st K vp v n u flag I Vo Et Hu Hdir Ho ltac:(lia)) as (rc & u2 & s2 & E2 & H); [apply Hp|lia|].
  rewrite E in E2. injection E2 as <- <- <-. destruct H as [[? _]|(_ & _ & _ & data & n1 & Hw & Rf & _)]; [done|].
  pose proof (rf_vnode _ _ _ _ _ _ _ _ Rf) as V1. pose proof (rf_name _ _ _ _ _ _ _ _ Rf) as [_ Et1].
  destruct (read_bytes_spec st1 K vp _ n1 r (rf_inv _ _ _ _ _ _ _ _ Rf) V1 Hru Hrd) as (r' & st2 & Er & Hf & _ & _ & _ & Hre & _); try lia.
  exists r', st2. rewrite (read_file_bytes st1 vp _ n1 r V1), Et1, Et. split; [exact Er|].
  assert (Hrl : zlen (rest u) = uio_resid u) by (by rewrite <- (uo_resid _ Hu)).
  assert (Ed : take (Z.to_nat (uio_resid r)) (drop (Z.to_nat (uio_offset r)) (content (blocks st1) n1)) = rest u).
  { rewrite (rf_content _ _ _ _ _ _ _ _ Rf), Hro, Hrr. pose proof (buf_read_write _ _ _ _ Hw) as Hb.
    unfold buf_read in Hb. rewrite Hrl in Hb. case_match; [|done]. by injection Hb. }
  rewrite Ed in Hf, Hre. split; [done|lia].
Qed.

Lemma ramfs_write_read_witness : exists v n u1 st1, vnode_ok demo_file 80 v n /\
  ramfs_write 80 (uio_of [[97; 98]; [99]] 4 UIO_WRITE) 0 demo_file = Some (0, u1, st1) /\
  exists r' st2, ramfs_read 80 (uio_of [[0]; [0; 0]] 4 UIO_READ) st1 = Some (0, r', st2) /\ front r' = [97; 98; 99] /\ uio_resid r' = 0.
Proof.
  eexists _, _, _, _. split; [|split].
  1: split; by vm_compute.
  1: by vm_compute.
  eapply (ramfs_write_read demo demo_file 80 _ _ (uio_of [[97; 98]; [99]] 4 UIO_WRITE) 0 _ _ (uio_of [[0]; [0; 0]] 4 UIO_READ)
    demo_started demo_reached demo_allowed); [split; by vm_compute|by vm_compute|by vm_compute|apply uio_of_ok|by vm_compute..].
Defined.

(** [readdir] until it finds no more entry. *)
Fixpoint list_dir (fuel : nat) (vp off : Z) (st : ramfs) : option (list (Z * list Z) * ramfs) :=
  match fuel with
  | O => None
  | S fuel' =>
      '(rc, e, off, st) ← ramfs_readdir vp off st;
      match e with
      | Some e => '(l, st) ← list_dir fuel' vp off st; Some ((d_type e, d_name e) :: l, st)
      | None => Some ([], st)
      end
  end.

Lemma list_dir_spec fuel : forall st K vp d off,
  inv st K -> node_of vp st = Some d -> is_Some (nodes st !! d) -> 0 <= off ->
  (length (dots ++ map (entry st) (K d)) - Z.to_nat off < fuel)%nat ->
  exists st', list_dir fuel vp off st = Some (drop (Z.to_nat off) (dots ++ map (entry st) (K d)), st').
Proof.
  induction fuel as [|fuel IH]; intros st K vp d off I Hd Hl Ho Hf; [lia|]. cbn [list_dir].
  destruct (readdir_spec st K vp d off I Hd Hl Ho) as (rc & e & off' & st' & -> & I' & Ev & _ & W & Lv & H).
  cbn [mbind option_bind]. set (all := dots ++ map (entry st) (K d)) in *.
  destruct (all !! Z.to_nat off) as [[type name]|] eqn:Ea.
  - destruct H as (-> & -> & ->).
    assert (Ee : map (entry st') (K d) = map (entry st) (K d)) by (apply map_ext; intros x; unfold entry; by rewrite W).
    pose proof (lookup_lt_Some _ _ _ Ea) as Hlt.
    destruct (IH st' K vp d (off + 1) I') as (st2 & E2); try lia.
    + unfold node_of in *. by rewrite Ev.
    + by apply Lv.
    + rewrite Ee. fold all. lia.
    + rewrite E2. cbn [mbind option_bind d_type d_name]. exists st2. rewrite Ee. fold all.
      rewrite (drop_S _ _ _ Ea). do 4 f_equal. lia.
  - destruct H as (-> & -> & _). exists st'. rewrite drop_ge; [done|]. by apply lookup_ge_None.
Qed.

(** Reading a directory from its start lists [.], [..] and then every child once, in the order
    of creation, with its name and type, and stops. *)
Theorem ramfs_listing st0 st vp d l :
  started st0 -> rtc step st0 st -> node_of vp st = Some d -> dir st d l ->
  exists st', list_dir (length l + 3) vp 0 st = Some (dots ++ map (entry st) l, st').
Proof.
  intros S R Hd Hl. destruct (reach_good st0 st S R) as (K & ext & G). pose proof (g_inv _ _ _ G) as I.
  rewrite (dir_K st K d l I Hl). destruct Hl as (n & Hn & _).
  apply (list_dir_spec _ st K vp d 0 I Hd); [by exists n|lia|]. rewrite length_app, length_map. cbn [dots length]. lia.
Qed.

Lemma ramfs_listing_witness :
  exists st', list_dir 4 64 0 demo_file = Some (dots ++ [(DT_REG, [102])], st').
Proof.
  eapply (ramfs_listing demo demo_file 64 4096 [4128] demo_started demo_reached); [by vm_compute|].
  eexists. split; [by vm_compute|]. cbn [siblings]. split; [done|]. split; [done|]. eexists. split; by vm_compute.
Defined.

End RamfsUse.
