(* ===== verification/ArgParse.v ===== *)
(** * ArgParse: splitting a command line

    Models [lib/ukargparse/argparse.c]: [uk_argnparse] cuts the line in place, closing up the gaps
    that removed quotes leave, and stores the positions where arguments start.  An index outside
    the buffer is [None]. *)
From Stdlib Require Import ZArith Lia Bool.
From stdpp Require Import list.
From S2P Require Import Prelude.
Open Scope Z_scope.

Module ArgParse.

(** [while (buf[index] != 0 && index < maxlen) ...] *)
Fixpoint left_shift (fuel : nat) (buf : list Z) (index maxlen : Z) : option (list Z) :=
  c ← zget buf index;
  if negb (c =? 0) && (index <? maxlen) then
    match fuel with
    | O => None
    | S fuel' =>
        d ← zget buf (index + 1);
        buf ← zset buf index d;
        left_shift fuel' buf (index + 1) maxlen
    end
  else Some buf.

(** [argv] grows at its end, [argc] is its length; [--i; ++i] around the end of an iteration leaves
    [i] as it is. *)
Definition is_wspace (c : Z) : bool := (c =? 32) || (c =? 13) || (c =? 10) || (c =? 9) || (c =? 11).
Definition is_quote (c : Z) : bool := (c =? 39) || (c =? 34).

Record pstate := PState { p_buf : list Z; p_argv : list Z; p_wspace : bool; p_quote : Z }.

(** One iteration at index [i]: [None] out of bounds, [Some (inl _)] the end of the string,
    otherwise the new state and index. *)
Definition arg_char (i maxlen : Z) (s : pstate) : option (pstate + pstate * Z) :=
  c ← zget (p_buf s) i;
  if c =? 0 then Some (inl s)
  else if is_wspace c then
    if p_quote s =? 0 then
      buf ← zset (p_buf s) i 0; Some (inr (PState buf (p_argv s) true (p_quote s), i + 1))
    else Some (inr (s, i + 1))
  else
    let plain := Some (inr (if p_wspace s then PState (p_buf s) (p_argv s ++ [i]) false (p_quote s) else s, i + 1)) in
    if is_quote c then
      if p_quote s =? 0 then
        buf ← left_shift (length (p_buf s)) (p_buf s) i maxlen;
        Some (inr (PState buf (p_argv s) (p_wspace s) c, i))
      else if p_quote s =? c then
        buf ← left_shift (length (p_buf s)) (p_buf s) i maxlen;
        Some (inr (PState buf (p_argv s) (p_wspace s) 0, i))
      else plain
    else plain.

Fixpoint arg_loop (fuel : nat) (i maxlen maxcount : Z) (s : pstate) : option pstate :=
  if (i <? maxlen) && (zlen (p_argv s) <? maxcount) then
    match fuel with
    | O => None
    | S fuel' =>
        r ← arg_char i maxlen s;
        match r with inl s => Some s | inr (s, i) => arg_loop fuel' i maxlen maxcount s end
    end
  else Some s.

Definition uk_argnparse (argb : list Z) (maxlen maxcount : Z) : option (list Z * list Z) :=
  s ← arg_loop (S (length argb)) 0 maxlen maxcount (PState argb [] true 0);
  Some (p_buf s, p_argv s).

(** ** What the arguments of a line are *)

Definition flush (cur : option (list Z)) : list (list Z) := match cur with Some w => [w] | None => [] end.

(** [q] is the quote that is open or 0, [cur] the argument that has begun.  A quote on its own does
    not begin an argument, nor does white space inside quotes. *)
Fixpoint words (q : Z) (cur : option (list Z)) (s : list Z) : list (list Z) :=
  match s with
  | [] => flush cur
  | c :: s =>
      if is_wspace c then
        if q =? 0 then flush cur ++ words 0 None s
        else words q (match cur with Some w => Some (w ++ [c]) | None => None end) s
      else if is_quote c && (q =? 0) then words c cur s
      else if is_quote c && (q =? c) then words 0 cur s
      else words q (Some (default [] cur ++ [c])) s
  end.

(** The same when only [k] more arguments may begin: the loop ends with the first character of the
    last one, which keeps the rest of the line as it is. *)
Fixpoint words_max (k q : Z) (cur : option (list Z)) (s : list Z) : list (list Z) :=
  match s with
  | [] => flush cur
  | c :: s =>
      if k =? 0 then match cur with Some w => [w ++ c :: s] | None => [] end
      else if is_wspace c then
        if q =? 0 then flush cur ++ words_max k 0 None s
        else words_max k q (match cur with Some w => Some (w ++ [c]) | None => None end) s
      else if is_quote c && (q =? 0) then words_max k c cur s
      else if is_quote c && (q =? c) then words_max k 0 cur s
      else words_max (match cur with Some _ => k | None => k - 1 end) q (Some (default [] cur ++ [c])) s
  end.

(** The string at a position. *)
Fixpoint string_at (l : list Z) : list Z :=
  match l with [] => [] | c :: l' => if c =? 0 then [] else c :: string_at l' end.

Lemma string_at_app w l : 0 ∉ w -> string_at (w ++ 0 :: l) = w.
Proof.
  induction w as [|c w IH]; intros H; [done|]. apply not_elem_of_cons in H as [H1 H2]. cbn [app string_at].
  destruct (Z.eqb_spec c 0); [done|]. by rewrite IH.
Qed.

(** ** Closing a gap *)

Lemma zget_middle {A} (l1 : list A) x l2 : zget (l1 ++ x :: l2) (zlen l1) = Some x.
Proof. rewrite zget_lookup. rewrite lookup_app_r, Nat.sub_diag by lia. done. Qed.

Lemma zset_middle {A} (l1 : list A) x y l2 : zset (l1 ++ x :: l2) (zlen l1) y = Some (l1 ++ y :: l2).
Proof.
  rewrite zset_is_Some by (rewrite length_app; cbn [length]; lia). f_equal. rewrite Nat2Z.id.
  rewrite insert_app_r_alt, Nat.sub_diag by lia. done.
Qed.

Lemma left_shift_spec suf : forall fuel pre c junk maxlen,
  c <> 0 -> 0 ∉ suf -> zlen pre + zlen suf < maxlen -> (length suf < fuel)%nat ->
  left_shift fuel (pre ++ c :: suf ++ 0 :: junk) (zlen pre) maxlen = Some (pre ++ suf ++ 0 :: 0 :: junk).
Proof.
  induction suf as [|d suf IH]; intros fuel pre c junk maxlen Hc Hs Hm Hf; destruct fuel as [|fuel]; cbn [length] in Hf, Hm; try lia.
  - cbn [left_shift app]. rewrite zget_middle. cbn [mbind option_bind]. destruct (Z.eqb_spec c 0); [done|].
    destruct (Z.ltb_spec (zlen pre) maxlen); [|lia]. cbn [negb andb].
    replace (zlen pre + 1) with (zlen (pre ++ [c])) by (rewrite length_app; cbn [length]; lia).
    replace (pre ++ c :: 0 :: junk) with ((pre ++ [c]) ++ 0 :: junk) at 1 by (by rewrite <- app_assoc).
    rewrite zget_middle. cbn [mbind option_bind]. rewrite zset_middle. cbn [mbind option_bind].
    replace (pre ++ 0 :: 0 :: junk) with ((pre ++ [0]) ++ 0 :: junk) by (by rewrite <- app_assoc).
    replace (zlen (pre ++ [c])) with (zlen (pre ++ [0])) by (rewrite !length_app; done).
    destruct fuel; cbn [left_shift]; rewrite zget_middle; done.
  - apply not_elem_of_cons in Hs as [Hd Hs]. cbn [left_shift app]. rewrite zget_middle. cbn [mbind option_bind].
    destruct (Z.eqb_spec c 0); [done|]. destruct (Z.ltb_spec (zlen pre) maxlen); [|lia]. cbn [negb andb].
    replace (zlen pre + 1) with (zlen (pre ++ [c])) by (rewrite length_app; cbn [length]; lia).
    replace (pre ++ c :: d :: suf ++ 0 :: junk) with ((pre ++ [c]) ++ d :: suf ++ 0 :: junk) at 1 by (by rewrite <- app_assoc).
    rewrite zget_middle. cbn [mbind option_bind]. rewrite zset_middle. cbn [mbind option_bind].
    replace (pre ++ d :: d :: suf ++ 0 :: junk) with ((pre ++ [d]) ++ d :: suf ++ 0 :: junk) by (by rewrite <- app_assoc).
    replace (zlen (pre ++ [c])) with (zlen (pre ++ [d])) by (rewrite !length_app; done).
    rewrite IH; [|done|done|rewrite length_app; cbn [length]; lia|lia]. by rewrite <- app_assoc.
Qed.

(** ** The loop *)

Lemma words_begun s : forall q cur, (length (flush cur) <= length (words q cur s))%nat.
Proof.
  induction s as [|c s IH]; intros q cur; cbn [words]; [done|]. destruct (is_wspace c).
  - destruct (q =? 0); [rewrite length_app; lia|]. specialize (IH q (match cur with Some w => Some (w ++ [c]) | None => None end)).
    destruct cur; done.
  - destruct (is_quote c && (q =? 0)); [apply IH|]. destruct (is_quote c && (q =? c)); [apply IH|].
    specialize (IH q (Some (default [] cur ++ [c]))). cbn [flush length] in *. destruct cur; cbn [flush length]; lia.
Qed.

Lemma words_max_words s : forall k q cur,
  zlen (words q cur s) < k + zlen (flush cur) -> words_max k q cur s = words q cur s.
Proof.
  induction s as [|c s IH]; intros k q cur H; [done|]. pose proof (words_begun (c :: s) q cur) as Hb.
  cbn [words words_max] in *. destruct (Z.eqb_spec k 0); [lia|]. destruct (is_wspace c).
  - destruct (q =? 0).
    + rewrite length_app in H. rewrite IH; [done|]. cbn [flush length]. lia.
    + apply IH. by destruct cur.
  - destruct (is_quote c && (q =? 0)); [by apply IH|]. destruct (is_quote c && (q =? c)); [by apply IH|].
    apply IH. destruct cur; cbn [flush length] in *; lia.
Qed.

(** Every argument but the last one allowed is a word of the line. *)
Lemma words_max_prefix s : forall k q cur, 0 <= k ->
  let n := (Z.to_nat (k + zlen (flush cur)) - 1)%nat in
  take n (words_max k q cur s) = take n (words q cur s) /\
  length (words_max k q cur s) = Nat.min (S n) (length (words q cur s)) \/ k + zlen (flush cur) = 0.
Proof.
  induction s as [|c s IH]; intros k q cur Hk; cbv zeta.
  - destruct cur; cbn [flush length words words_max]; [left|].
    + split; [done|]. lia.
    + destruct (decide (k = 0)); [right; lia|left]. split; [done|]. cbn. lia.
  - pose proof (words_begun (c :: s) q cur) as Hb. cbn [words words_max] in *.
    destruct (Z.eqb_spec k 0) as [->|Hk0].
    { destruct cur as [w|]; [left|by right]. cbn [flush length] in *. split; [done|lia]. }
    left. destruct (is_wspace c).
    + destruct (q =? 0).
      * destruct (IH k 0 None Hk) as [[H1 H2]|H]; [|cbn in H; lia]. cbn [flush length] in H1, H2.
        rewrite !length_app, H2. destruct cur as [w|]; cbn [flush length app] in *; [|split; [done|lia]].
        replace (Z.to_nat (k + Z.of_nat 1) - 1)%nat with (S (Z.to_nat (k + Z.of_nat 0) - 1)) by lia.
        cbn [take]. rewrite H1. split; [done|lia].
      * destruct (IH k q (match cur with Some w => Some (w ++ [c]) | None => None end) Hk) as [H|H];
          destruct cur; cbn [flush length] in *; done || lia.
    + destruct (is_quote c && (q =? 0)); [destruct (IH k c cur Hk) as [H|H]; done || lia|].
      destruct (is_quote c && (q =? c)); [destruct (IH k 0 cur Hk) as [H|H]; done || lia|].
      destruct (IH (match cur with Some _ => k | None => k - 1 end) q (Some (default [] cur ++ [c]))) as [H|H];
        [destruct cur; lia| |destruct cur; cbn [flush length] in H; lia].
      destruct cur; cbn [flush length] in *; [done|]. by replace (k - 1 + Z.of_nat 1) with (k + Z.of_nat 0) in H by lia.
Qed.

(** The argument [w] stands at [o] with its terminator. *)
Definition placed (pre : list Z) (o : Z) (w : list Z) : Prop :=
  exists a b, pre = a ++ w ++ 0 :: b /\ zlen a = o /\ 0 ∉ w.

Lemma placed_app pre post o w : placed pre o w -> placed (pre ++ post) o w.
Proof. intros (a & b & -> & Ha & Hw). exists a, (b ++ post). by rewrite <- !app_assoc. Qed.

Lemma placed_string buf o w : placed buf o w -> string_at (drop (Z.to_nat o) buf) = w.
Proof. intros (a & b & -> & <- & Hw). rewrite Nat2Z.id, drop_app_length. by apply string_at_app. Qed.

(** [os] are the positions of the finished arguments [ws]. *)
Record scanned (pre : list Z) (os : list Z) (ws : list (list Z)) (cur : option (list Z)) (argv : list Z) (wspace : bool) : Prop :=
  Scanned {
  sc_done : Forall2 (placed pre) os ws;
  sc_cur : match cur with
           | Some w => wspace = false /\ (0 ∉ w) /\ exists a, pre = a ++ w /\ argv = os ++ [zlen a]
           | None => wspace = true /\ argv = os
           end
}.

Lemma scanned_length pre os ws cur argv wspace :
  scanned pre os ws cur argv wspace -> length argv = (length ws + length (flush cur))%nat.
Proof.
  intros [D C]. pose proof (Forall2_length _ _ _ D) as E. destruct cur.
  - destruct C as (_ & _ & a & _ & ->). rewrite length_app. cbn [length flush]. lia.
  - destruct C as [_ ->]. cbn [flush length]. lia.
Qed.

(** A character that ends the argument, one that is kept, and one that begins or goes on with it. *)
Lemma scanned_end pre os ws cur argv wspace :
  scanned pre os ws cur argv wspace ->
  scanned (pre ++ [0]) argv (ws ++ flush cur) None argv true.
Proof.
  intros [D C]. assert (D' : Forall2 (placed (pre ++ [0])) os ws) by (eapply Forall2_impl; [exact D|intros; by apply placed_app]).
  split; [|done]. destruct cur as [w|]; cbn [flush].
  - destruct C as (_ & Hw & a & -> & ->). apply Forall2_app; [done|]. constructor; [|constructor].
    exists a, []. by rewrite <- app_assoc.
  - destruct C as [_ ->]. by rewrite app_nil_r.
Qed.

Lemma scanned_keep pre os ws cur argv wspace c :
  c <> 0 -> scanned pre os ws cur argv wspace ->
  scanned (pre ++ [c]) os ws (match cur with Some w => Some (w ++ [c]) | None => None end) argv wspace.
Proof.
  intros Hc [D C]. split; [eapply Forall2_impl; [exact D|intros; by apply placed_app]|]. destruct cur as [w|]; [|done].
  destruct C as (Hs & Hw & a & -> & ->). split; [done|]. split.
  - rewrite elem_of_app, list_elem_of_singleton. intuition congruence.
  - exists a. by rewrite <- app_assoc.
Qed.

Lemma scanned_char pre os ws cur argv wspace c :
  c <> 0 -> scanned pre os ws cur argv wspace ->
  scanned (pre ++ [c]) os ws (Some (default [] cur ++ [c])) (if wspace then argv ++ [zlen pre] else argv) false.
Proof.
  intros Hc S. destruct cur as [w|]; cbn [default from_option id].
  - destruct (scanned_keep _ _ _ _ _ _ c Hc S) as [D C]. split; [done|]. destruct S as [_ (-> & _)]. cbn. tauto.
  - destruct S as [D [-> ->]]. split; [eapply Forall2_impl; [exact D|intros; by apply placed_app]|]. split; [done|].
    split; [rewrite elem_of_app, list_elem_of_singleton; intros [?%not_elem_of_nil|]; congruence|]. exists pre. done.
Qed.

(** The buffer [buf] holds the arguments [ws] where [argv] says; it has the length of [old], and no bytes but the old ones and zeros. *)
Definition cut_into (old : list Z) (r : pstate) (ws : list (list Z)) : Prop :=
  Forall2 (placed (p_buf r)) (p_argv r) ws /\ length (p_buf r) = length old /\ forall P : Z -> Prop, P 0 -> Forall P old -> Forall P (p_buf r).

(** What holds after a run from a buffer that came from [old]. *)
Lemma cut_into_from old old' r ws : length old' = length old -> (forall P : Z -> Prop, P 0 -> Forall P old -> Forall P old') -> cut_into old' r ws -> cut_into old r ws.
Proof. intros Hl HP (H1 & H2 & H3). split; [done|]. split; [congruence|]. auto. Qed.

(** The array is full: the last argument is the rest of the buffer. *)
Lemma cut_into_full pre os ws cur argv wspace q s junk :
  scanned pre os ws cur argv wspace -> 0 ∉ s ->
  cut_into (pre ++ s ++ 0 :: junk) (PState (pre ++ s ++ 0 :: junk) argv wspace q)
    (ws ++ match cur with Some w => [w ++ s] | None => [] end).
Proof.
  intros [D C] Hs. split; [|done]. cbn [p_buf p_argv].
  assert (D' : Forall2 (placed (pre ++ s ++ 0 :: junk)) os ws) by (eapply Forall2_impl; [exact D|intros; by apply placed_app]).
  destruct cur as [w|]; [|by destruct C as [_ ->]; rewrite app_nil_r].
  destruct C as (_ & Hw & a & -> & ->). apply Forall2_app; [done|]. constructor; [|constructor].
  exists a, junk. rewrite <- !app_assoc. split; [done|]. split; [done|]. rewrite elem_of_app. tauto.
Qed.

Lemma arg_loop_spec s : forall fuel pre os ws cur argv wspace q junk maxlen maxcount,
  scanned pre os ws cur argv wspace -> 0 ∉ s -> zlen pre + zlen s < maxlen ->
  zlen argv <= maxcount -> (length s < fuel)%nat ->
  exists r, arg_loop fuel (zlen pre) maxlen maxcount (PState (pre ++ s ++ 0 :: junk) argv wspace q) = Some r /\
    cut_into (pre ++ s ++ 0 :: junk) r (ws ++ words_max (maxcount - zlen argv) q cur s).
Proof.
  induction s as [|c s IH]; intros fuel pre os ws cur argv wspace q junk maxlen maxcount S Hs Hm Hc Hf;
    destruct fuel as [|fuel]; cbn [length] in Hf, Hm; try lia; cbn [arg_loop p_argv]; pose proof (scanned_length _ _ _ _ _ _ S) as Ha.
  - cbn [words_max]. exists (PState (pre ++ 0 :: junk) argv wspace q). split.
    { destruct (_ && _); [|done]. unfold arg_char. cbn [p_buf app]. by rewrite zget_middle. }
    cbn [p_buf p_argv]. pose proof (sc_done _ _ _ _ _ _ (scanned_end _ _ _ _ _ _ S)) as D. split; [|done]. eapply Forall2_impl; [exact D|]. intros o w Hp. cbn.
    replace (pre ++ 0 :: junk) with ((pre ++ [0]) ++ junk) by (by rewrite <- app_assoc). by apply placed_app.
  - apply not_elem_of_cons in Hs as [Hc0 Hs]. cbn [words_max].
    destruct (Z.ltb_spec (zlen pre) maxlen); [|lia].
    destruct (Z.eqb_spec (maxcount - zlen argv) 0) as [Hk|Hk].
    { destruct (Z.ltb_spec (zlen argv) maxcount); [lia|]. cbn [andb]. eexists. split; [done|].
      apply (cut_into_full pre os ws cur argv wspace q (c :: s) junk S). by apply not_elem_of_cons. }
    destruct (Z.ltb_spec (zlen argv) maxcount); [|lia]. cbn [andb]. unfold arg_char. cbn [p_buf p_quote p_wspace p_argv app].
    rewrite zget_middle. cbn [mbind option_bind]. destruct (Z.eqb_spec c 0); [done|].
    assert (Next : forall x, zlen pre + 1 = zlen (pre ++ [x])) by (intros x; rewrite length_app; cbn [length]; lia).
    assert (Shift : forall x, pre ++ x :: s ++ 0 :: junk = (pre ++ [x]) ++ s ++ 0 :: junk) by (intros x; by rewrite <- app_assoc).
    assert (Hm' : forall x, zlen (pre ++ [x]) + zlen s < maxlen) by (intros x; rewrite length_app; cbn [length]; lia).
    destruct (is_wspace c).
    + destruct (Z.eqb_spec q 0) as [->|Hq].
      * rewrite zset_middle. cbn [mbind option_bind]. rewrite (Next 0), (Shift 0), (app_assoc ws).
        destruct (IH fuel (pre ++ [0]) argv (ws ++ flush cur) None argv true 0 junk maxlen maxcount) as (r & E & C); try done; [by eapply scanned_end|lia|].
        exists r. split; [exact E|]. eapply cut_into_from; [| |exact C]; rewrite <- (Shift 0); [by rewrite !length_app|].
        intros P P0. rewrite !Forall_app, !Forall_cons. tauto.
      * rewrite (Next c), Shift. apply (IH fuel (pre ++ [c]) os ws _ argv wspace); try done; [by apply scanned_keep|lia].
    + assert (Quote : forall q',
        exists r, (r ← (buf ← left_shift (length (pre ++ c :: s ++ 0 :: junk)) (pre ++ c :: s ++ 0 :: junk) (zlen pre) maxlen;
            Some (inr (PState buf argv wspace q', zlen pre)));
          match r with inl s => Some s | inr (s, i) => arg_loop fuel i maxlen maxcount s end) = Some r /\
          cut_into (pre ++ c :: s ++ 0 :: junk) r (ws ++ words_max (maxcount - zlen argv) q' cur s)).
      { intros q'. rewrite left_shift_spec; [|done|done|lia|rewrite !length_app; cbn [length]; rewrite length_app; cbn [length]; lia].
        cbn [mbind option_bind]. destruct (IH fuel pre os ws cur argv wspace q' (0 :: junk) maxlen maxcount) as (r & E & C); try done; [lia|lia|]. exists r. split; [exact E|].
        eapply cut_into_from; [| |exact C]; [rewrite !length_app; cbn [length]; rewrite length_app; cbn [length]; lia|]. intros P P0. rewrite !Forall_app, !Forall_cons, !Forall_app, !Forall_cons. tauto. }
      assert (Plain : exists r, arg_loop fuel (zlen pre + 1) maxlen maxcount (if wspace then PState (pre ++ c :: s ++ 0 :: junk) (argv ++ [zlen pre]) false q
            else PState (pre ++ c :: s ++ 0 :: junk) argv wspace q) = Some r /\
          cut_into (pre ++ c :: s ++ 0 :: junk) r (ws ++ words_max (match cur with Some _ => maxcount - zlen argv | None => maxcount - zlen argv - 1 end)
            q (Some (default [] cur ++ [c])) s)).
      { rewrite (Next c), Shift. pose proof (scanned_char _ _ _ _ _ _ c n S) as S'.
        replace (if wspace then _ else _) with (PState ((pre ++ [c]) ++ s ++ 0 :: junk) (if wspace then argv ++ [zlen pre] else argv) false q)
          by (by destruct wspace).
        replace (match cur with Some _ => _ | None => _ end) with (maxcount - zlen (if wspace then argv ++ [zlen pre] else argv)).
        2: { destruct S as [_ C]. destruct cur; [destruct C as [-> _]; done|destruct C as [-> _]]. rewrite length_app. cbn [length]. lia. }
        apply (IH fuel (pre ++ [c]) os ws _ _ false); try done; [destruct wspace; [rewrite length_app; cbn [length]|]; lia|lia]. }
      destruct (is_quote c); cbn [andb]; [|exact Plain]. destruct (q =? 0); [apply Quote|].
      destruct (Z.eqb_spec q c) as [->|Hqc]; [apply Quote|exact Plain].
Qed.

(** The call as a whole. *)
Lemma argnparse_full line junk maxlen maxcount : 0 ∉ line -> zlen line < maxlen -> 0 <= maxcount ->
  exists r, uk_argnparse (line ++ 0 :: junk) maxlen maxcount = Some (p_buf r, p_argv r) /\
    cut_into (line ++ 0 :: junk) r (words_max maxcount 0 None line).
Proof.
  intros Hl Hm Hc. unfold uk_argnparse.
  destruct (arg_loop_spec line (S (length (line ++ 0 :: junk))) [] [] [] None [] true 0 junk maxlen maxcount) as (r & E & F);
    [by split; [constructor|]|done|cbn [length]; lia|cbn [length]; lia|rewrite length_app; lia|].
  cbn [app length] in E, F. change (Z.of_nat 0) with 0 in E, F. rewrite E. rewrite Z.sub_0_r in F. by exists r.
Qed.

Lemma argnparse_spec line junk maxlen maxcount : 0 ∉ line -> zlen line < maxlen -> zlen (words 0 None line) < maxcount ->
  exists r, uk_argnparse (line ++ 0 :: junk) maxlen maxcount = Some (p_buf r, p_argv r) /\ cut_into (line ++ 0 :: junk) r (words 0 None line).
Proof.
  intros Hl Hm Hc. rewrite <- (words_max_words line maxcount 0 None) by (cbn [flush length]; lia).
  apply argnparse_full; [done|done|lia].
Qed.

(** C30: A line that ends within [maxlen] is cut into the arguments that its blanks and quotes make,
    at most [maxcount] of them: every entry of [argv] points to one of them, terminated, in the
    order of the line.  All but the last of [maxcount] are words of the line; with fewer words
    than [maxcount] all are, and there are no others.  With [maxcount] words or more (an exact
    fit included) the last argument is not cut at all: it is its first character and the rest of
    the line as it is, quotes and blanks included ([words_max], [last_argument_takes_rest]). *)
Theorem argparse_correct line junk maxlen maxcount :
  0 ∉ line -> zlen line < maxlen -> 0 < maxcount ->
  exists buf argv, uk_argnparse (line ++ 0 :: junk) maxlen maxcount = Some (buf, argv) /\
    let args := map (fun o => string_at (drop (Z.to_nat o) buf)) argv in
    let ws := words 0 None line in
    let n := (Z.to_nat maxcount - 1)%nat in
    args = words_max maxcount 0 None line /\
    take n args = take n ws /\ length args = Nat.min (S n) (length ws) /\
    (zlen ws < maxcount -> args = ws).
Proof.
  intros Hl Hm Hc. destruct (argnparse_full line junk maxlen maxcount Hl Hm ltac:(lia)) as (r & E & [F _]).
  exists (p_buf r), (p_argv r). split; [exact E|]. cbv zeta.
  assert (A : map (fun o => string_at (drop (Z.to_nat o) (p_buf r))) (p_argv r) = words_max maxcount 0 None line).
  { clear -F. revert F. generalize (p_argv r) (words_max maxcount 0 None line). intros os ws F.
    induction F as [|o w os ws Ho _ IH]; [done|]. cbn [map]. by rewrite IH, (placed_string _ _ _ Ho). }
  rewrite A. split; [done|].
  destruct (words_max_prefix line maxcount 0 None ltac:(lia)) as [[H1 H2]|H]; cbn [flush length] in *; [|lia].
  rewrite Z.add_0_r in *. split; [done|]. split; [done|]. intros H. apply words_max_words. cbn [flush length]. lia.
Qed.

Definition demo_line : list Z := [97; 32; 39; 98; 32; 34; 39; 99; 9; 34; 100; 34].

Lemma argparse_correct_witness : words 0 None demo_line = [[97]; [98; 32; 34; 99]; [100]] /\
  exists buf argv, uk_argnparse (demo_line ++ [0]) 64 8 = Some (buf, argv) /\
    map (fun o => string_at (drop (Z.to_nat o) buf)) argv = words 0 None demo_line.
Proof.
  split; [by vm_compute|].
  destruct (argparse_correct demo_line [] 64 8) as (buf & argv & E & _ & _ & _ & H); [|by vm_compute..|].
  - apply (bool_decide_unpack _). by vm_compute.
  - exists buf, argv. split; [exact E|]. apply H. by vm_compute.
Defined.

(** The last argument that fits keeps the rest of the line, its quotes too: [a 'b'] in two. *)
Theorem last_argument_takes_rest :
  uk_argnparse ([97; 32; 98; 32; 99] ++ [0]) 64 2 = Some ([97; 0; 98; 32; 99; 0], [0; 2]) /\
  uk_argnparse ([97; 32; 39; 98; 39] ++ [0]) 64 2 = Some ([97; 0; 98; 39; 0; 0], [0; 2]).
Proof. by vm_compute. Qed.

(** Blanks at the start of a quoted argument are lost, and an empty one is not there at all. *)
Theorem quoted_blanks_lost :
  (r ← uk_argnparse ([39; 32; 97; 39] ++ [0]) 64 8; Some (map (fun o => string_at (drop (Z.to_nat o) r.1)) r.2)) = Some [[97]] /\
  (r ← uk_argnparse ([39; 39] ++ [0]) 64 8; Some r.2) = Some [].
Proof. by vm_compute. Qed.

(** Without a terminator the byte behind the buffer is read. *)
Theorem shift_reads_behind : uk_argnparse [97; 39] 2 8 = None.
Proof. by vm_compute. Qed.

End ArgParse.
