(* ===== verification/Netbuf.v ===== *)
(** * Netbuf: network packet buffers

    Models [lib/uknetdev/netbuf.c] and [include/uk/netbuf.h]: the layout of a netbuf in one
    allocation, moving the start of the packet data, chains of netbufs and reference counts.

    The state maps the addresses of live netbufs to their fields and records the destructors
    called and the memory freed.  A failed assertion and the use of a netbuf that is not there are
    [None].  Allocators and destructors are numbers; what a destructor returns is a parameter. *)
From Stdlib Require Import ZArith Lia Bool.
From stdpp Require Import gmap.
From S2P Require Import Prelude P9Dev.
Open Scope Z_scope.

Module Netbuf.

Definition ENOSPC : Z := 28.
Definition EFAULT : Z := 14.
Definition UINT16_MAX : Z := 65535.
(** [sizeof(struct uk_netbuf)] and [sizeof(long long)]. *)
Definition sizeof_netbuf : Z := 72.
Definition NETBUF_ADDR_ALIGNMENT : Z := 8.
Definition NETBUF_ADDR_ALIGN_UP (x : Z) : Z := ALIGN_UP x NETBUF_ADDR_ALIGNMENT.

Record uk_netbuf := MkNetbuf {
  nb_next : Z; nb_prev : Z; nb_data : Z; nb_len : Z; nb_refcount : Z; nb_priv : Z; nb_buf : Z;
  nb_buflen : Z; nb_dtor : Z; nb_a : Z
}.

Definition set_next (n : uk_netbuf) (x : Z) : uk_netbuf :=
  MkNetbuf x (nb_prev n) (nb_data n) (nb_len n) (nb_refcount n) (nb_priv n) (nb_buf n) (nb_buflen n) (nb_dtor n) (nb_a n).
Definition set_prev (n : uk_netbuf) (x : Z) : uk_netbuf :=
  MkNetbuf (nb_next n) x (nb_data n) (nb_len n) (nb_refcount n) (nb_priv n) (nb_buf n) (nb_buflen n) (nb_dtor n) (nb_a n).
Definition set_refcount (n : uk_netbuf) (c : Z) : uk_netbuf :=
  MkNetbuf (nb_next n) (nb_prev n) (nb_data n) (nb_len n) c (nb_priv n) (nb_buf n) (nb_buflen n) (nb_dtor n) (nb_a n).
Definition set_data (n : uk_netbuf) (d len : Z) : uk_netbuf :=
  MkNetbuf (nb_next n) (nb_prev n) d len (nb_refcount n) (nb_priv n) (nb_buf n) (nb_buflen n) (nb_dtor n) (nb_a n).
Definition set_a (n : uk_netbuf) (a : Z) : uk_netbuf :=
  MkNetbuf (nb_next n) (nb_prev n) (nb_data n) (nb_len n) (nb_refcount n) (nb_priv n) (nb_buf n) (nb_buflen n) (nb_dtor n) a.

(** ** Setting up a netbuf *)

Definition uk_netbuf_init_indir (m buf buflen headroom priv dtor : Z) : option uk_netbuf :=
  if negb (m =? 0) && (negb (buf =? 0) || (buflen =? 0)) && (headroom <=? buflen)
  then Some (MkNetbuf 0 0 (u64 (buf + headroom)) 0 1 priv buf buflen dtor 0)
  else None.

(** [m] is what [uk_malloc] returns; the result is the netbuf if there was memory. *)
Definition uk_netbuf_alloc_indir (m a buf buflen headroom privlen dtor : Z) : option (option uk_netbuf) :=
  if m =? 0 then Some None
  else
    n ← uk_netbuf_init_indir m buf buflen headroom
          (if 0 <? privlen then u64 (m + NETBUF_ADDR_ALIGN_UP sizeof_netbuf) else 0) dtor;
    Some (Some (set_a n a)).

Definition alloc_buf_size (buflen privlen : Z) : Z :=
  u64 (NETBUF_ADDR_ALIGN_UP sizeof_netbuf + NETBUF_ADDR_ALIGN_UP privlen + buflen).

(** The offsets of the private data and of the buffer, and the bytes that alignment adds to the
    headroom. *)
Definition layout (headroom privlen : Z) : Z * Z * Z :=
  if NETBUF_ADDR_ALIGNMENT <? UINT16_MAX - headroom then
    if privlen =? 0 then (0, sizeof_netbuf, u64 (NETBUF_ADDR_ALIGN_UP sizeof_netbuf - sizeof_netbuf))
    else
      let priv_offset := NETBUF_ADDR_ALIGN_UP sizeof_netbuf in
      (priv_offset, u64 (priv_offset + privlen), u64 (NETBUF_ADDR_ALIGN_UP privlen - privlen))
  else (0, 0, 0).

Definition uk_netbuf_alloc_buf (m a buflen headroom privlen dtor : Z) : option (option uk_netbuf) :=
  if negb ((0 <? buflen) && (headroom <=? buflen)) then None
  else if m =? 0 then Some None
  else
    let '(priv_offset, buf_offset, headroom_extra) := layout headroom privlen in
    n ← uk_netbuf_init_indir m (u64 (m + buf_offset)) (u64 (buflen + headroom_extra)) (u16 (headroom + headroom_extra))
          (if 0 <? privlen then u64 (m + priv_offset) else 0) dtor;
    Some (Some (set_a n a)).

Definition uk_netbuf_prepare_buf (mem size headroom privlen dtor : Z) : option (option uk_netbuf) :=
  if mem =? 0 then None
  else if size <? u64 (NETBUF_ADDR_ALIGN_UP sizeof_netbuf + NETBUF_ADDR_ALIGN_UP privlen + headroom) then Some None
  else
    let '(priv_offset, buf_offset, extra) := layout headroom privlen in
    n ← uk_netbuf_init_indir mem (u64 (mem + buf_offset)) (u64 (size - buf_offset)) (u16 (headroom + extra))
          (if 0 <? privlen then u64 (mem + priv_offset) else 0) dtor;
    Some (Some n).

(** ** The packet data *)

Definition data_ok (n : uk_netbuf) : bool := negb (nb_buf n =? 0) && negb (nb_data n =? 0).

Definition uk_netbuf_headroom (n : uk_netbuf) : option Z :=
  if data_ok n then Some (u64 (nb_data n - nb_buf n)) else None.
Definition uk_netbuf_tailroom (n : uk_netbuf) : option Z :=
  if data_ok n then Some (u64 (u64 (nb_buf n + nb_buflen n) - u64 (nb_data n + nb_len n))) else None.

(** [len] is an [int16_t]. *)
Definition uk_netbuf_header (n : uk_netbuf) (len : Z) : option (Z * uk_netbuf) :=
  if negb (data_ok n && (nb_prev n =? 0)) then None
  else
    room ← uk_netbuf_headroom n;
    if (sext 64 room <? len) || (nb_len n <? - len) then Some (- ENOSPC, n)
    else if UINT16_MAX <? len + nb_len n then Some (- EFAULT, n)
    else Some (1, set_data n (u64 (nb_data n - len)) (u16 (nb_len n + len))).

(** ** Chains *)

Record pool := Pool { bufs : gmap Z uk_netbuf; dtors : list Z; frees : list Z }.

Definition put (st : pool) (m : Z) (n : uk_netbuf) : pool := Pool (<[m := n]> (bufs st)) (dtors st) (frees st).

(** [uk_netbuf_chain_last], [uk_netbuf_chain_first]: [None] is a chain without an end. *)
Fixpoint chain_last (fuel : nat) (ns : gmap Z uk_netbuf) (m : Z) : option Z :=
  n ← ns !! m;
  if nb_next n =? 0 then Some m else match fuel with O => None | S fuel' => chain_last fuel' ns (nb_next n) end.
Fixpoint chain_first (fuel : nat) (ns : gmap Z uk_netbuf) (m : Z) : option Z :=
  n ← ns !! m;
  if nb_prev n =? 0 then Some m else match fuel with O => None | S fuel' => chain_first fuel' ns (nb_prev n) end.

Definition uk_netbuf_disconnect (m : Z) (st : pool) : option (Z * pool) :=
  n ← bufs st !! m;
  let remhead := nb_next n in
  st ← (if negb (nb_prev n =? 0) then p ← bufs st !! nb_prev n; Some (put st (nb_prev n) (set_next p (nb_next n))) else Some st);
  st ← (if negb (nb_next n =? 0) then x ← bufs st !! nb_next n; Some (put st (nb_next n) (set_prev x (nb_prev n))) else Some st);
  n ← bufs st !! m;
  Some (remhead, put st m (set_next (set_prev n 0) 0)).

Definition uk_netbuf_connect (headtail tail : Z) (st : pool) : option pool :=
  h ← bufs st !! headtail;
  t ← bufs st !! tail;
  if (nb_next h =? 0) && (nb_prev t =? 0) then
    let st := put st headtail (set_next h tail) in
    t ← bufs st !! tail;
    Some (put st tail (set_prev t headtail))
  else None.

Definition uk_netbuf_append (head tail : Z) (st : pool) : option pool :=
  h ← bufs st !! head;
  t ← bufs st !! tail;
  if (nb_prev h =? 0) && (nb_prev t =? 0) then
    headtail ← chain_last (size (bufs st)) (bufs st) head;
    l ← bufs st !! headtail;
    let st := put st headtail (set_next l tail) in
    t ← bufs st !! tail;
    Some (put st tail (set_prev t headtail))
  else None.

(** ** References *)

Definition uk_netbuf_ref_single (m : Z) (st : pool) : option pool :=
  n ← bufs st !! m;
  Some (put st m (set_refcount n (P9Dev.uk_refcount_acquire (nb_refcount n)))).

(** [UK_NETBUF_CHAIN_FOREACH(iter, m)] *)
Fixpoint uk_netbuf_ref (fuel : nat) (m : Z) (st : pool) : option pool :=
  if m =? 0 then Some st
  else
    st ← uk_netbuf_ref_single m st;
    n ← bufs st !! m;
    match fuel with O => None | S fuel' => uk_netbuf_ref fuel' (nb_next n) st end.

Section free.
(** What the destructor [dtor] returns for the netbuf [m]. *)
Context (dtor_rc : Z -> Z -> Z).

Definition uk_netbuf_free_single (m : Z) (st : pool) : option pool :=
  n ← bufs st !! m;
  let '(last, c) := P9Dev.uk_refcount_release (nb_refcount n) in
  let st := put st m (set_refcount n c) in
  if (last : bool) then
    '(_, st) ← uk_netbuf_disconnect m st;
    let called := negb (nb_dtor n =? 0) in
    let rc := if called then dtor_rc (nb_dtor n) m else 0 in
    let freed := negb (nb_a n =? 0) && (rc =? 0) in
    Some (Pool (delete m (bufs st)) (if called then dtors st ++ [m] else dtors st) (if freed then frees st ++ [m] else frees st))
  else Some st.

Fixpoint free_loop (fuel : nat) (m : Z) (st : pool) : option pool :=
  if m =? 0 then Some st
  else
    n ← bufs st !! m;
    st ← uk_netbuf_free_single m st;
    match fuel with O => None | S fuel' => free_loop fuel' (nb_next n) st end.

Definition uk_netbuf_free (m : Z) (st : pool) : option pool :=
  n ← bufs st !! m;
  if nb_prev n =? 0 then free_loop (size (bufs st)) m st else None.
End free.

(** ** The layout *)

Lemma align_bounds x : 0 <= x < 2 ^ 62 -> x <= NETBUF_ADDR_ALIGN_UP x < x + 8 /\ NETBUF_ADDR_ALIGN_UP x mod 8 = 0.
Proof.
  intros Hx. unfold NETBUF_ADDR_ALIGN_UP, NETBUF_ADDR_ALIGNMENT. change 8 with (2 ^ 3).
  destruct (ALIGN_UP_bounds 3 x ltac:(lia) ltac:(lia) ltac:(lia)) as [B D]. split; [exact B|]. by apply Z.mod_divide.
Qed.

(** [a, a+n) and [b, b+k) have no byte in common. *)
Definition apart (a n b k : Z) : Prop := a + n <= b \/ b + k <= a.

(** C38: In the one allocation of [uk_netbuf_alloc_buf] the netbuf, its private data and its buffer lie
    inside the memory asked for and do not overlap; the data start behind at least the headroom
    asked for, have all the room that is left of the buffer, and are aligned when the
    allocation is and the headroom is.  The headroom is below 65535 - 8: with more of it the code does not round it
    up, and the buffer begins inside the netbuf ([netbuf_overlaps_itself]). *)
Theorem netbuf_layout m a buflen headroom privlen dtor :
  0 < m -> 0 < buflen -> 0 <= headroom <= buflen -> NETBUF_ADDR_ALIGNMENT < UINT16_MAX - headroom ->
  0 <= privlen < 2 ^ 32 -> buflen < 2 ^ 32 -> m < 2 ^ 62 ->
  exists n, uk_netbuf_alloc_buf m a buflen headroom privlen dtor = Some (Some n) /\
    let size := alloc_buf_size buflen privlen in
    m + sizeof_netbuf <= nb_buf n /\ nb_buf n + nb_buflen n <= m + size /\
    (0 < privlen -> m + sizeof_netbuf <= nb_priv n /\ nb_priv n + privlen <= m + size /\
       apart (nb_priv n) privlen (nb_buf n) (nb_buflen n)) /\
    uk_netbuf_tailroom n = Some (buflen - headroom) /\
    (exists h, uk_netbuf_headroom n = Some h /\ headroom <= h < headroom + 8) /\
    (m mod 8 = 0 -> headroom mod 8 = 0 -> nb_data n mod 8 = 0).
Proof.
  intros Hm Hb Hh Hx Hp Hb2 Hm2. unfold uk_netbuf_alloc_buf, layout.
  destruct (Z.ltb_spec 0 buflen); [|lia]. destruct (Z.leb_spec headroom buflen); [|lia]. cbn [negb andb].
  destruct (Z.eqb_spec m 0) as [|Hm0]; [lia|]. destruct (Z.ltb_spec NETBUF_ADDR_ALIGNMENT (UINT16_MAX - headroom)); [|lia].
  change (NETBUF_ADDR_ALIGN_UP sizeof_netbuf) with 72. change sizeof_netbuf with 72 in *.
  unfold NETBUF_ADDR_ALIGNMENT, UINT16_MAX in *.
  pose proof (align_bounds privlen ltac:(lia)) as [Ha Hm8]. set (ap := NETBUF_ADDR_ALIGN_UP privlen) in *.
  assert (Es : alloc_buf_size buflen privlen = 72 + ap + buflen).
  { unfold alloc_buf_size. change (NETBUF_ADDR_ALIGN_UP sizeof_netbuf) with 72. fold ap. apply wrap_small. unfold in_u. lia. }
  rewrite Es. clear Es.
  assert (G : forall priv_offset buf_offset extra, priv_offset = (if privlen =? 0 then 0 else 72) ->
    buf_offset = (if privlen =? 0 then 72 else 72 + privlen) -> extra = ap - privlen ->
    exists n, (n ← uk_netbuf_init_indir m (u64 (m + buf_offset)) (u64 (buflen + extra)) (u16 (headroom + extra))
          (if 0 <? privlen then u64 (m + priv_offset) else 0) dtor; Some (Some (set_a n a))) = Some (Some n) /\
    nb_buf n = m + buf_offset /\ nb_buflen n = buflen + extra /\ nb_data n = m + buf_offset + headroom + extra /\ nb_len n = 0 /\
    (0 < privlen -> nb_priv n = m + 72)).
  { intros po bo ex -> -> ->. rewrite !wrap_small by (unfold in_u; destruct (privlen =? 0); lia).
    unfold uk_netbuf_init_indir. destruct (Z.eqb_spec m 0); [lia|]. cbn [negb andb].
    set (bo := if privlen =? 0 then 72 else 72 + privlen). assert (Hbo : 72 <= bo < 2 ^ 33) by (unfold bo; case_match; lia).
    destruct (Z.eqb_spec (m + bo) 0); [lia|]. destruct (Z.leb_spec (headroom + (ap - privlen)) (buflen + (ap - privlen))); [|lia].
    cbn [negb orb andb mbind option_bind]. eexists. split; [done|]. cbn [set_a nb_buf nb_buflen nb_data nb_len nb_priv].
    rewrite wrap_small by (unfold in_u; lia). do 4 (split; [done || lia|]). intros Hpp. destruct (Z.ltb_spec 0 privlen); [|lia].
    destruct (Z.eqb_spec privlen 0); [lia|]. done. }
  assert (H72 : u64 (72 - 72) = 0) by done.
  destruct (Z.eqb_spec privlen 0) as [E0|E0].
  - assert (Eap : ap = 0) by (unfold ap; rewrite E0; done).
    destruct (G 0 72 (u64 (72 - 72))) as (n & En & E1 & E2 & E3 & E4 & _); [done|done|rewrite H72; lia|].
    exists n. split; [exact En|]. rewrite H72 in *. cbn zeta.
    split; [lia|]. split; [lia|]. split; [lia|]. unfold uk_netbuf_tailroom, uk_netbuf_headroom, data_ok. rewrite E1, E2, E3, E4.
    destruct (Z.eqb_spec (m + 72) 0); [lia|]. destruct (Z.eqb_spec (m + 72 + headroom + 0) 0); [lia|]. cbn [negb andb].
    split; [rewrite !wrap_small; unfold in_u; rewrite ?wrap_small; unfold in_u; try lia; f_equal; lia|].
    split; [eexists; split; [done|]; rewrite wrap_small by (unfold in_u; lia); lia|].
    intros. replace (m + 72 + headroom + 0) with (m + headroom + 9 * 8) by lia. rewrite Z.mod_add by lia.
    rewrite Z.add_mod by lia. by rewrite H2, H3.
  - assert (Ep : u64 (72 + privlen) = 72 + privlen) by (apply wrap_small; unfold in_u; lia).
    assert (Ee : u64 (ap - privlen) = ap - privlen) by (apply wrap_small; unfold in_u; lia).
    destruct (G 72 (u64 (72 + privlen)) (u64 (ap - privlen))) as (n & En & E1 & E2 & E3 & E4 & E5); [done|done|done|].
    exists n. split; [exact En|]. rewrite Ep, Ee in *. cbn zeta. specialize (E5 ltac:(lia)).
    split; [lia|]. split; [lia|]. split; [intros _; unfold apart; lia|]. unfold uk_netbuf_tailroom, uk_netbuf_headroom, data_ok. rewrite E1, E2, E3, E4.
    destruct (Z.eqb_spec (m + (72 + privlen)) 0); [lia|].
    destruct (Z.eqb_spec (m + (72 + privlen) + headroom + (ap - privlen)) 0); [lia|]. cbn [negb andb].
    split; [rewrite !wrap_small; unfold in_u; rewrite ?wrap_small; unfold in_u; try lia; f_equal; lia|].
    split; [eexists; split; [done|]; rewrite wrap_small by (unfold in_u; lia); lia|].
    intros. replace (m + (72 + privlen) + headroom + (ap - privlen)) with (m + headroom + ap + 9 * 8) by lia. rewrite Z.mod_add by lia.
    rewrite Z.add_mod, (Z.add_mod m) by lia. by rewrite H2, H3, Hm8.
Qed.

Lemma netbuf_layout_witness : exists n, uk_netbuf_alloc_buf 4096 7 2048 128 10 3 = Some (Some n) /\
  let size := alloc_buf_size 2048 10 in
  4096 + sizeof_netbuf <= nb_buf n /\ nb_buf n + nb_buflen n <= 4096 + size /\
  (0 < 10 -> 4096 + sizeof_netbuf <= nb_priv n /\ nb_priv n + 10 <= 4096 + size /\
     apart (nb_priv n) 10 (nb_buf n) (nb_buflen n)) /\
  uk_netbuf_tailroom n = Some (2048 - 128) /\
  (exists h, uk_netbuf_headroom n = Some h /\ 128 <= h < 128 + 8) /\
  (4096 mod 8 = 0 -> 128 mod 8 = 0 -> nb_data n mod 8 = 0).
Proof. apply (netbuf_layout 4096 7 2048 128 10 3); unfold NETBUF_ADDR_ALIGNMENT, UINT16_MAX; lia. Defined.

(** With a headroom close to 64 kB the buffer is laid over the netbuf itself. *)
Theorem netbuf_overlaps_itself :
  (r ← uk_netbuf_alloc_buf 4096 7 70000 65530 16 3; n ← r; Some (nb_buf n, nb_priv n)) = Some (4096, 4096).
Proof. by vm_compute. Qed.

(** ** Moving the start of the data *)

(** The data lie inside the buffer. *)
Record geo (n : uk_netbuf) : Prop := Geo {
  g_buf : 0 < nb_buf n;
  g_data : nb_buf n <= nb_data n;
  g_len : 0 <= nb_len n <= UINT16_MAX;
  g_end : nb_data n + nb_len n <= nb_buf n + nb_buflen n < 2 ^ 63
}.

Lemma header_spec n len :
  geo n -> nb_prev n = 0 -> - 2 ^ 15 <= len < 2 ^ 15 ->
  exists rc n', uk_netbuf_header n len = Some (rc, n') /\ geo n' /\
    (rc = 1 /\ n' = set_data n (nb_data n - len) (nb_len n + len) \/
     n' = n /\ (rc = - ENOSPC /\ (nb_data n - nb_buf n < len \/ nb_len n + len < 0) \/ rc = - EFAULT /\ UINT16_MAX < nb_len n + len)).
Proof.
  intros G Hp Hl. destruct G as [G1 G2 G3 G4]. unfold uk_netbuf_header, uk_netbuf_headroom, data_ok, UINT16_MAX in *.
  destruct (Z.eqb_spec (nb_buf n) 0); [lia|]. destruct (Z.eqb_spec (nb_data n) 0); [lia|]. rewrite Hp. cbn [negb andb Z.eqb mbind option_bind].
  rewrite (wrap_small 64 (nb_data n - nb_buf n)) by (unfold in_u; lia). rewrite sext_small by lia.
  destruct (Z.ltb_spec (nb_data n - nb_buf n) len).
  { eexists _, _. split; [done|]. split; [by split|]. right. split; [done|]. left. lia. }
  destruct (Z.ltb_spec (nb_len n) (- len)); cbn [orb].
  { eexists _, _. split; [done|]. split; [by split|]. right. split; [done|]. left. lia. }
  destruct (Z.ltb_spec 65535 (len + nb_len n)).
  { eexists _, _. split; [done|]. split; [by split|]. right. split; [done|]. right. lia. }
  rewrite !wrap_small by (unfold in_u; lia). eexists _, _. split; [done|]. split; [|by left].
  split; unfold UINT16_MAX; cbn [set_data nb_buf nb_data nb_len nb_buflen]; lia.
Qed.

(** ** Doubly linked chains *)

Definition links (ns : gmap Z uk_netbuf) (x p n : Z) : Prop :=
  x <> 0 /\ exists b, ns !! x = Some b /\ nb_prev b = p /\ nb_next b = n.

Fixpoint dll (ns : gmap Z uk_netbuf) (p : Z) (l : list Z) (nx : Z) : Prop :=
  match l with [] => True | x :: l' => links ns x p (List.hd nx l') /\ dll ns x l' nx end.

Lemma hd_app (l1 l2 : list Z) d : List.hd d (l1 ++ l2) = List.hd (List.hd d l2) l1.
Proof. by destruct l1. Qed.

Lemma last_cons_default (x : Z) l d d' : List.last (x :: l) d = List.last (x :: l) d'.
Proof. revert x. induction l as [|y l IH]; intros x; [done|]. apply (IH y). Qed.

Lemma dll_app ns l1 : forall p l2 nx, dll ns p (l1 ++ l2) nx <-> dll ns p l1 (List.hd nx l2) /\ dll ns (List.last l1 p) l2 nx.
Proof.
  induction l1 as [|x l1 IH]; intros p l2 nx; [cbn; tauto|]. cbn [app dll]. rewrite IH, hd_app.
  assert (E : List.last (x :: l1) p = List.last l1 x) by (destruct l1 as [|z l1]; [done|exact (last_cons_default z l1 p x)]). rewrite E. tauto.
Qed.

Lemma dll_frame ns ns' l : forall p nx,
  dll ns p l nx -> (forall x b, x ∈ l -> ns !! x = Some b -> exists b', ns' !! x = Some b' /\ nb_prev b' = nb_prev b /\ nb_next b' = nb_next b) ->
  dll ns' p l nx.
Proof.
  induction l as [|x l IH]; intros p nx; [done|]. cbn [dll]. intros [(Hx & b & Hb & Ep & En) Hl] H. split.
  - split; [done|]. destruct (H x b (list_elem_of_here _ _) Hb) as (b' & Hb' & E1 & E2). exists b'. split; [done|]. split; congruence.
  - apply IH; [done|]. intros y c Hy. by apply H, list_elem_of_further.
Qed.

Lemma dll_insert ns p l nx x n : dll ns p l nx -> x ∉ l -> dll (<[x := n]> ns) p l nx.
Proof.
  intros H Hx. apply (dll_frame ns); [done|]. intros y b Hy Hb. exists b. rewrite lookup_insert_ne; [done|]. by intros ->.
Qed.

(** A change of a netbuf that leaves its links alone. *)
Lemma dll_same ns p l nx x b b' :
  dll ns p l nx -> ns !! x = Some b -> nb_prev b' = nb_prev b -> nb_next b' = nb_next b -> dll (<[x := b']> ns) p l nx.
Proof.
  intros H Hx E1 E2. apply (dll_frame ns); [done|]. intros y c Hy Hc. destruct (decide (x = y)) as [->|Hne].
  - rewrite lookup_insert_eq. exists b'. split; [done|]. split; congruence.
  - rewrite lookup_insert_ne by done. by exists c.
Qed.

Lemma dll_live ns p l nx x : dll ns p l nx -> x ∈ l -> x <> 0 /\ is_Some (ns !! x).
Proof.
  revert p. induction l as [|y l IH]; intros p; [by intros _ ?%not_elem_of_nil|]. cbn [dll].
  intros [(Hy & b & Hb & _) Hl] [->|Hx]%elem_of_cons; [by split; [|exists b]|]. by eapply IH.
Qed.

Lemma links_insert ns x b p n : x <> 0 -> nb_prev b = p -> nb_next b = n -> links (<[x := b]> ns) x p n.
Proof. intros Hx Hp Hn. split; [done|]. exists b. by rewrite lookup_insert_eq. Qed.

(** The end of a chain. *)
Lemma chain_last_spec fuel ns : forall p x l, dll ns p (x :: l) 0 -> (length l <= fuel)%nat ->
  chain_last fuel ns x = Some (List.last l x).
Proof.
  induction fuel as [|fuel IH]; intros p x l; cbn [dll]; intros [(Hx & b & Hb & _ & Hn) Hl] Hf; destruct l as [|y l]; cbn [length] in Hf; try lia;
    cbn [chain_last]; rewrite Hb; cbn [mbind option_bind]; cbn [List.hd] in Hn; rewrite Hn.
  - done.
  - done.
  - destruct (Z.eqb_spec y 0) as [->|_]; [by destruct Hl as [[? _] _]|]. rewrite (IH x y l Hl) by lia.
    f_equal. destruct l as [|z l]; [done|exact (last_cons_default z l y x)].
Qed.

Lemma dll_length ns p l nx : dll ns p l nx -> NoDup l -> (length l <= size ns)%nat.
Proof.
  intros Hc ND. rewrite <- (size_dom (D := gset Z)). rewrite <- (size_list_to_set (C := gset Z) l) by done.
  apply subseteq_size. intros x Hx%elem_of_list_to_set. apply elem_of_dom. by apply (dll_live ns p l nx).
Qed.

(** Joining the last of one chain to the first of another. *)
Lemma dll_join ns l1 h hn t tn l2 :
  dll ns 0 (l1 ++ [h]) 0 -> dll ns 0 (t :: l2) 0 -> NoDup ((l1 ++ [h]) ++ t :: l2) ->
  ns !! h = Some hn -> ns !! t = Some tn ->
  dll (<[t := set_prev tn h]> (<[h := set_next hn t]> ns)) 0 ((l1 ++ [h]) ++ t :: l2) 0.
Proof.
  intros H1 H2 ND Hh Ht. apply NoDup_app in ND as (ND1 & Hd & ND2). apply NoDup_app in ND1 as (_ & Hh1 & _).
  apply NoDup_cons in ND2 as [Ht2 _].
  assert (Hht : h <> t) by (intros ->; apply (Hd t); [apply elem_of_app; right|]; apply list_elem_of_here).
  apply dll_app in H1 as [H1 [(Hh0 & b & Hb & Ebp & _) _]]. cbn [List.hd] in H1. cbn [dll] in H2. destruct H2 as [(Ht0 & c & Hc & _ & Ecn) H2].
  rewrite Hh in Hb. injection Hb as <-. rewrite Ht in Hc. injection Hc as <-.
  assert (Hn1 : h ∉ l1) by (intros Hi; apply (Hh1 h Hi), list_elem_of_here).
  assert (Hn2 : t ∉ l1) by (intros Hi; apply (Hd t); [apply elem_of_app; by left|apply list_elem_of_here]).
  assert (Hn3 : h ∉ l2) by (intros Hi; apply (Hd h); [apply elem_of_app; right; apply list_elem_of_here|by apply list_elem_of_further]).
  rewrite <- app_assoc. apply dll_app. cbn [app List.hd]. split; [by apply dll_insert; [apply dll_insert|]|].
  cbn [dll List.hd]. split.
  - split; [done|]. exists (set_next hn t). rewrite lookup_insert_ne, lookup_insert_eq by done. done.
  - split; [by apply links_insert|]. apply dll_insert; [|done]. by apply dll_insert.
Qed.

End Netbuf.
