(* ===== verification/NetbufRun.v ===== *)
(** * NetbufRun: chains of netbufs as lists

    The abstract state of the netbufs of [Netbuf] is a collection of lists, one for every chain,
    and the number of references that are held to each netbuf.  Every call that respects it runs
    and does to the lists what its name says. *)
From Stdlib Require Import ZArith Lia Bool.
From stdpp Require Import gmap relations.
From S2P Require Import Prelude P9Dev Netbuf.
Import Netbuf.
Open Scope Z_scope.

Module NetbufRun.

(** ** The invariant *)

(** Netbufs have a buffer. *)
Abbreviation fits := geo.

Record inv (st : pool) (cs : list (list Z)) (ext : Z -> Z) : Prop := Inv {
  i_nodup : NoDup (concat cs);
  i_dom : forall x, x ∈ concat cs <-> is_Some (bufs st !! x);
  i_dll : forall l, l ∈ cs -> dll (bufs st) 0 l 0;
  i_full : [] ∉ cs;
  i_ref : forall x n, bufs st !! x = Some n -> nb_refcount n = ext x /\ 1 <= ext x < 2 ^ 16 /\ fits n;
  i_dead : forall x, bufs st !! x = None -> ext x = 0
}.

Lemma elem_concat (x : Z) cs : x ∈ concat cs <-> exists l, l ∈ cs /\ x ∈ l.
Proof.
  induction cs as [|l cs IH]; cbn [concat].
  - split; [by intros ?%not_elem_of_nil|intros (? & ?%not_elem_of_nil & _); done].
  - rewrite elem_of_app, IH. split.
    + intros [H|(k & Hk & H)]; [exists l; split; [apply list_elem_of_here|done]|exists k; split; [by apply list_elem_of_further|done]].
    + intros (k & [->|Hk]%elem_of_cons & H); [by left|right; by exists k].
Qed.

Lemma concat_perm (cs cs' : list (list Z)) : cs ≡ₚ cs' -> concat cs ≡ₚ concat cs'.
Proof.
  induction 1 as [|l cs cs' _ IH|l k cs|cs cs' cs'' _ IH1 _ IH2]; cbn [concat]; [done|by rewrite IH| |by rewrite IH1].
  rewrite !app_assoc. by rewrite (Permutation_app_comm k l).
Qed.

Lemma inv_perm st cs cs' ext : cs ≡ₚ cs' -> inv st cs ext -> inv st cs' ext.
Proof.
  intros P [N D L F R Z]. pose proof (concat_perm _ _ P) as Pc. split; [by rewrite <- Pc|intros x; by rewrite <- Pc|..|done|done].
  - intros l Hl. apply L. by rewrite P.
  - by rewrite <- P.
Qed.

(** The chains [cs1] become [cs2], with the same netbufs; nothing else is touched. *)
Lemma inv_rechain st st' cs1 cs2 rest ext :
  inv st (cs1 ++ rest) ext -> concat cs2 ≡ₚ concat cs1 -> [] ∉ cs2 ->
  (forall l, l ∈ cs2 -> dll (bufs st') 0 l 0) ->
  (forall x, x ∉ concat cs1 -> bufs st' !! x = bufs st !! x) ->
  (forall x n', bufs st' !! x = Some n' -> exists n, bufs st !! x = Some n /\ nb_refcount n' = nb_refcount n /\ (fits n -> fits n')) ->
  (forall x, is_Some (bufs st !! x) -> is_Some (bufs st' !! x)) ->
  inv st' (cs2 ++ rest) ext.
Proof.
  intros [N D L F R Z] P Hf Hd Ho Hr Hl. rewrite concat_app in *. split.
  - rewrite concat_app. by rewrite P.
  - intros x. rewrite concat_app, P, D. split; [apply Hl|]. intros [n' Hn']. destruct (Hr x n' Hn') as (n & Hn & _). by exists n.
  - intros l [Hl2|Hl2]%elem_of_app; [by apply Hd|]. apply (dll_frame (bufs st)); [apply L, elem_of_app; by right|].
    intros x b Hx Hb. exists b. rewrite Ho; [done|]. intros Hx1. apply NoDup_app in N as (_ & Hdis & _). apply (Hdis x Hx1).
    apply elem_concat. by exists l.
  - rewrite elem_of_app in *. tauto.
  - intros x n' Hn'. destruct (Hr x n' Hn') as (n & Hn & E & Hft). destruct (R x n Hn) as (R1 & R2 & R3). split; [congruence|]. by split; [|apply Hft].
  - intros x Hx. apply Z. apply eq_None_not_Some. intros Hs%Hl. rewrite Hx in Hs. by destruct Hs.
Qed.

(** ** Cutting a netbuf out of its chain *)

Definition nonempty (l : list Z) : list (list Z) := match l with [] => [] | _ => [l] end.

Lemma dll_set_next ns p l a an nx nx' :
  dll ns p (l ++ [a]) nx -> NoDup (l ++ [a]) -> ns !! a = Some an -> dll (<[a := set_next an nx']> ns) p (l ++ [a]) nx'.
Proof.
  intros H ND Ha. apply NoDup_app in ND as (_ & Hd & _). apply dll_app in H as [H1 [(Ha0 & b & Hb & Ep & _) _]].
  rewrite Ha in Hb. injection Hb as <-. apply dll_app. cbn [List.hd] in *. split.
  - apply dll_insert; [done|]. intros Hi. apply (Hd a Hi), list_elem_of_here.
  - split; [|done]. by apply links_insert.
Qed.

Lemma dll_set_prev ns p p' b bn l nx :
  dll ns p (b :: l) nx -> b ∉ l -> ns !! b = Some bn -> dll (<[b := set_prev bn p']> ns) p' (b :: l) nx.
Proof.
  intros [(Hb0 & c & Hc & _ & En) H] Hn Hb. rewrite Hb in Hc. injection Hc as <-. split; [by apply links_insert|]. by apply dll_insert.
Qed.

(** The netbuf in front of [m] and the one behind it after both were told. *)
Lemma disconnect_spec st l1 m l2 :
  dll (bufs st) 0 (l1 ++ m :: l2) 0 -> NoDup (l1 ++ m :: l2) ->
  exists st', uk_netbuf_disconnect m st = Some (List.hd 0 l2, st') /\ dtors st' = dtors st /\ frees st' = frees st /\
    dll (bufs st') 0 (l1 ++ l2) 0 /\ links (bufs st') m 0 0 /\
    (forall x, x ∉ l1 ++ m :: l2 -> bufs st' !! x = bufs st !! x) /\
    (forall x n', bufs st' !! x = Some n' -> exists n, bufs st !! x = Some n /\
       (nb_refcount n', nb_data n', nb_len n', nb_buf n', nb_buflen n', nb_dtor n', nb_a n') =
       (nb_refcount n, nb_data n, nb_len n, nb_buf n, nb_buflen n, nb_dtor n, nb_a n)) /\
    (forall x, is_Some (bufs st !! x) -> is_Some (bufs st' !! x)).
Proof.
  intros H ND. pose proof ND as ND0. apply NoDup_app in ND as (ND1 & Hd & ND2). apply NoDup_cons in ND2 as [Hm2 ND2].
  apply dll_app in H as [H1 [(Hm0 & mn & Hm & Ep & En) H2]]. cbn [List.hd] in H1.
  assert (Hm1 : m ∉ l1) by (intros Hi; apply (Hd m Hi), list_elem_of_here).
  unfold uk_netbuf_disconnect. rewrite Hm. cbn [mbind option_bind]. rewrite Ep, En.
  (* the state after the one in front was told *)
  assert (S1 : exists st1, (if negb (List.last l1 0 =? 0) then p ← bufs st !! List.last l1 0; Some (put st (List.last l1 0) (set_next p (List.hd 0 l2))) else Some st) = Some st1 /\
    dtors st1 = dtors st /\ frees st1 = frees st /\ dll (bufs st1) 0 l1 (List.hd 0 l2) /\
    (forall x, x ∉ l1 -> bufs st1 !! x = bufs st !! x) /\
    (forall x n', bufs st1 !! x = Some n' -> exists n, bufs st !! x = Some n /\
       (nb_refcount n', nb_data n', nb_len n', nb_buf n', nb_buflen n', nb_dtor n', nb_a n') =
       (nb_refcount n, nb_data n, nb_len n, nb_buf n, nb_buflen n, nb_dtor n, nb_a n)) /\
    (forall x, is_Some (bufs st !! x) -> is_Some (bufs st1 !! x))).
  { destruct l1 as [|a l1' _] using rev_ind.
    - exists st. cbn. do 4 (split; [done|]). split; [done|]. split; [intros x n' Hx; by exists n'|done].
    - rewrite last_last. destruct (dll_live _ _ _ _ a H1 ltac:(apply elem_of_app; right; apply list_elem_of_here)) as [Ha0 [an Ha]].
      destruct (Z.eqb_spec a 0); [done|]. cbn [negb]. rewrite Ha. cbn [mbind option_bind]. eexists. split; [done|]. cbn [put bufs dtors frees].
      do 2 (split; [done|]). split; [by apply (dll_set_next _ _ _ _ _ m)|]. split.
      { intros x Hx. rewrite lookup_insert_ne; [done|]. intros ->. apply Hx, elem_of_app. right. apply list_elem_of_here. }
      split.
      { intros x n' Hx. rewrite lookup_insert_Some in Hx. destruct Hx as [[<- <-]|[_ Hx]]; [by exists an|by exists n']. }
      intros x Hx. rewrite lookup_insert_is_Some'. by right. }
  destruct S1 as (st1 & E1 & D1 & F1 & L1 & O1 & R1 & V1). cbn [mbind option_bind] in E1. rewrite E1. cbn [mbind option_bind]. clear E1.
  assert (H2' : dll (bufs st1) m l2 0).
  { apply (dll_frame (bufs st)); [done|]. intros x b Hx Hb. exists b. rewrite O1; [done|]. intros Hi. apply (Hd x Hi). by apply list_elem_of_further. }
  assert (S2 : exists st2, (if negb (List.hd 0 l2 =? 0) then x ← bufs st1 !! List.hd 0 l2; Some (put st1 (List.hd 0 l2) (set_prev x (List.last l1 0))) else Some st1) = Some st2 /\
    dtors st2 = dtors st /\ frees st2 = frees st /\ dll (bufs st2) (List.last l1 0) l2 0 /\
    (forall x, x ∉ l2 -> bufs st2 !! x = bufs st1 !! x) /\
    (forall x n', bufs st2 !! x = Some n' -> exists n, bufs st !! x = Some n /\
       (nb_refcount n', nb_data n', nb_len n', nb_buf n', nb_buflen n', nb_dtor n', nb_a n') =
       (nb_refcount n, nb_data n, nb_len n, nb_buf n, nb_buflen n, nb_dtor n, nb_a n)) /\
    (forall x, is_Some (bufs st !! x) -> is_Some (bufs st2 !! x))).
  { destruct l2 as [|b l2'].
    - exists st1. cbn. do 6 (split; [done|]). done.
    - cbn [List.hd]. destruct (dll_live _ _ _ _ b H2' ltac:(apply list_elem_of_here)) as [Hb0 [bn Hb]].
      destruct (Z.eqb_spec b 0); [done|]. cbn [negb]. rewrite Hb. cbn [mbind option_bind]. eexists. split; [done|]. cbn [put bufs dtors frees].
      do 2 (split; [done|]). split; [apply (dll_set_prev _ m); [done| |done]; by apply NoDup_cons in ND2 as [? _]|]. split.
      { intros x Hx. rewrite lookup_insert_ne; [done|]. intros ->. apply Hx, list_elem_of_here. }
      split.
      { intros x n' Hx. rewrite lookup_insert_Some in Hx. destruct Hx as [[<- <-]|[_ Hx]]; [exact (R1 b bn Hb)|by apply R1]. }
      intros x Hx. rewrite lookup_insert_is_Some'. right. by apply V1. }
  destruct S2 as (st2 & E2 & D2 & F2 & L2 & O2 & R2 & V2). cbn [mbind option_bind] in E2. rewrite E2. cbn [mbind option_bind]. clear E2.
  assert (Hm' : bufs st2 !! m = Some mn) by (by rewrite O2, O1). rewrite Hm'. cbn [mbind option_bind].
  eexists. split; [done|]. cbn [put bufs dtors frees]. do 2 (split; [done|]). split; [|split; [by apply links_insert|]].
  - apply dll_insert; [|rewrite elem_of_app; tauto]. apply dll_app. split; [|done]. apply (dll_frame (bufs st1)); [done|].
    intros x b Hx Hb. exists b. rewrite O2; [done|]. intros Hi. apply (Hd x Hx). by apply list_elem_of_further.
  - split.
    + intros x Hx. rewrite elem_of_app, elem_of_cons in Hx. rewrite lookup_insert_ne, O2, O1; [done|tauto|tauto|]. intros ->. tauto.
    + split.
      * intros x n' Hx. rewrite lookup_insert_Some in Hx. destruct Hx as [[<- <-]|[_ Hx]]; [exact (R2 m mn Hm')|by apply R2].
      * intros x Hx. rewrite lookup_insert_is_Some'. right. by apply V2.
Qed.

(** ** References *)

(** [k] more references to every netbuf of [l]. *)
Definition shift (ext : Z -> Z) (l : list Z) (k : Z) : Z -> Z := fun x => if decide (x ∈ l) then ext x + k else ext x.

Lemma inv_same_counts st cs ext ext' : (forall x, ext x = ext' x) -> inv st cs ext -> inv st cs ext'.
Proof. intros E [N D L F R Z]. split; [done..| |]; intros x; rewrite <- E; [intros n Hn; by apply R|apply Z]. Qed.

(** Changes of the fields of netbufs that leave the chains alone. *)
Lemma inv_fields st st' cs ext ext' (f : Z -> uk_netbuf -> uk_netbuf) :
  inv st cs ext -> (forall x, bufs st' !! x = f x <$> bufs st !! x) ->
  (forall x n, nb_prev (f x n) = nb_prev n /\ nb_next (f x n) = nb_next n) ->
  (forall x n, bufs st !! x = Some n -> nb_refcount (f x n) = ext' x /\ 1 <= ext' x < 2 ^ 16 /\ fits (f x n)) ->
  (forall x, bufs st !! x = None -> ext' x = 0) -> inv st' cs ext'.
Proof.
  intros [N D L F R Z] E Hl Hf Hz. split; [done| | |done| |].
  - intros x. rewrite D, E, fmap_is_Some. done.
  - intros l Hll. apply (dll_frame (bufs st)); [by apply L|]. intros x b _ Hb. exists (f x b). rewrite E, Hb. split; [done|]. apply Hl.
  - intros x n. rewrite E. destruct (bufs st !! x) as [b|] eqn:Hb; [|done]. intros [= <-]. by apply Hf.
  - intros x. rewrite E. destruct (bufs st !! x) eqn:Hb; [done|]. by intros _; apply Hz.
Qed.

Lemma shift_in ext l k x : x ∈ l -> shift ext l k x = ext x + k.
Proof. intros H. unfold shift. by rewrite decide_True. Qed.
Lemma shift_out ext l k x : x ∉ l -> shift ext l k x = ext x.
Proof. intros H. unfold shift. by rewrite decide_False. Qed.

Lemma put_refcount st m n c x : bufs st !! m = Some n ->
  bufs (put st m (set_refcount n c)) !! x = (fun b => if decide (x = m) then set_refcount b c else b) <$> bufs st !! x.
Proof.
  intros Hm. cbn [put bufs]. destruct (decide (x = m)) as [->|Hx].
  - rewrite lookup_insert_eq, Hm. done.
  - rewrite lookup_insert_ne by done. by destruct (bufs st !! x).
Qed.

Lemma fits_refcount n c : fits n -> fits (set_refcount n c).
Proof. by intros [G1 G2 G3 G4]. Qed.

Lemma ref_single_spec st cs ext m :
  inv st cs ext -> is_Some (bufs st !! m) -> ext m < 2 ^ 16 - 1 ->
  exists st', uk_netbuf_ref_single m st = Some st' /\ inv st' cs (shift ext [m] 1) /\ dtors st' = dtors st /\ frees st' = frees st /\
    (forall x n, bufs st !! x = Some n -> exists n', bufs st' !! x = Some n' /\ nb_prev n' = nb_prev n /\ nb_next n' = nb_next n).
Proof.
  intros I [n Hn] He. unfold uk_netbuf_ref_single. rewrite Hn. cbn [mbind option_bind].
  destruct (i_ref _ _ _ I m n Hn) as (Er & Hb & Hf). rewrite Er, P9Dev.acquire_small by lia. eexists. split; [done|]. split; [|split; [done|split; [done|]]].
  - apply (inv_fields st _ cs ext _ _ I (fun x => put_refcount st m n (ext m + 1) x Hn)).
    + intros x b. by case_decide.
    + intros x b Hb'. destruct (i_ref _ _ _ I x b Hb') as (Er' & Hb2 & Hf'). case_decide as Ex.
      * subst x. rewrite shift_in by apply list_elem_of_here. split; [done|]. split; [lia|]. by apply fits_refcount.
      * rewrite shift_out by (rewrite list_elem_of_singleton; done). done.
    + intros x Hx. rewrite shift_out; [by apply I|]. rewrite list_elem_of_singleton. congruence.
  - intros x b Hb'. rewrite (put_refcount st m n (ext m + 1) x Hn), Hb'. eexists. split; [done|]. by case_decide.
Qed.

Lemma shift_cons ext x l k : x ∉ l -> forall y, shift (shift ext [x] k) l k y = shift ext (x :: l) k y.
Proof.
  intros Hx y. unfold shift. destruct (decide (y = x)) as [->|Hy].
  - rewrite (decide_False (P := x ∈ l)), !decide_True; [done|apply list_elem_of_here|apply list_elem_of_here|done].
  - rewrite (decide_False (P := y ∈ [x])) by (by rewrite list_elem_of_singleton).
    destruct (decide (y ∈ l)) as [Hl|Hl]; [rewrite decide_True by (by apply list_elem_of_further); done|].
    rewrite decide_False; [done|]. rewrite elem_of_cons. tauto.
Qed.

Lemma ref_chain_spec l : forall fuel st cs ext p,
  inv st cs ext -> dll (bufs st) p l 0 -> NoDup l -> (forall x, x ∈ l -> ext x < 2 ^ 16 - 1) -> (length l <= fuel)%nat ->
  exists st', uk_netbuf_ref fuel (List.hd 0 l) st = Some st' /\ inv st' cs (shift ext l 1) /\ dtors st' = dtors st /\ frees st' = frees st.
Proof.
  induction l as [|x l IH]; intros fuel st cs ext p I H ND He Hf.
  - exists st. destruct fuel; cbn; (split; [done|]); (split; [|done]); (apply (inv_same_counts _ _ ext); [|done]); intros x; by rewrite shift_out by apply not_elem_of_nil.
  - destruct fuel as [|fuel]; cbn [length] in Hf; [lia|]. cbn [dll] in H. destruct H as [(Hx & b & Hb & Ep & En) H]. apply NoDup_cons in ND as [Hxl ND].
    cbn [List.hd uk_netbuf_ref]. destruct (Z.eqb_spec x 0); [done|].
    destruct (ref_single_spec st cs ext x I ltac:(by exists b) (He x (list_elem_of_here _ _))) as (st1 & -> & I1 & D1 & F1 & K1).
    cbn [mbind option_bind]. destruct (K1 x b Hb) as (b1 & -> & _ & En1). cbn [mbind option_bind]. rewrite En1, En.
    destruct (IH fuel st1 cs (shift ext [x] 1) x I1) as (st2 & E2 & I2 & D2 & F2); [|done| |lia|].
    + apply (dll_frame (bufs st)); [done|]. intros y c _. by apply K1.
    + intros y Hy. rewrite shift_out; [apply He; by apply list_elem_of_further|]. rewrite list_elem_of_singleton. by intros ->.
    + exists st2. split; [done|]. split; [|split; congruence]. apply (inv_same_counts _ _ (shift (shift ext [x] 1) l 1)); [|done]. by apply shift_cons.
Qed.

(** ** Joining and cutting *)

Lemma nonempty_concat l : concat (nonempty l) = l.
Proof. destruct l; [done|]. cbn. by rewrite app_nil_r. Qed.

Lemma nonempty_in l k : k ∈ nonempty l -> k = l /\ l <> [].
Proof. destruct l; [by intros ?%not_elem_of_nil|]. by intros ->%list_elem_of_singleton. Qed.

Lemma fits_same n n' :
  nb_data n' = nb_data n -> nb_len n' = nb_len n -> nb_buf n' = nb_buf n -> nb_buflen n' = nb_buflen n -> fits n -> fits n'.
Proof. intros E1 E2 E3 E4 [G1 G2 G3 G4]. split; rewrite ?E1, ?E2, ?E3, ?E4; done. Qed.

Lemma inv_join st ext l1 h hn t tn l2 rest :
  inv st ((l1 ++ [h]) :: (t :: l2) :: rest) ext -> bufs st !! h = Some hn -> bufs st !! t = Some tn ->
  inv (Pool (<[t := set_prev tn h]> (<[h := set_next hn t]> (bufs st))) (dtors st) (frees st)) ((l1 ++ h :: t :: l2) :: rest) ext.
Proof.
  intros I Hh Ht. pose proof (i_nodup _ _ _ I) as ND. cbn [concat] in ND. rewrite app_assoc in ND. apply NoDup_app in ND as (ND & _ & _).
  assert (Hht : h <> t).
  { intros ->. apply NoDup_app in ND as (_ & Hd & _). apply (Hd t); [apply elem_of_app; right|]; apply list_elem_of_here. }
  assert (Eq : l1 ++ h :: t :: l2 = (l1 ++ [h]) ++ t :: l2) by (by rewrite <- app_assoc).
  apply (inv_rechain st _ [l1 ++ [h]; t :: l2] [l1 ++ h :: t :: l2] rest ext I); cbn [bufs].
  - cbn [concat]. rewrite !app_nil_r, Eq. done.
  - rewrite list_elem_of_singleton. by destruct l1.
  - intros l ->%list_elem_of_singleton. rewrite Eq. apply dll_join; try done; apply I; [apply list_elem_of_here|apply list_elem_of_further, list_elem_of_here].
  - intros x Hx. cbn [concat] in Hx. rewrite !elem_of_app, !elem_of_cons in Hx.
    rewrite !lookup_insert_ne; [done|intros ->; tauto|intros ->; tauto].
  - intros x n' Hx. rewrite lookup_insert_Some in Hx. destruct Hx as [[<- <-]|[_ Hx]]; [exists tn; split; [done|]; split; [done|]; by apply fits_same|].
    rewrite lookup_insert_Some in Hx. destruct Hx as [[<- <-]|[_ Hx]]; [exists hn; split; [done|]; split; [done|]; by apply fits_same|by exists n'].
  - intros x Hx. rewrite !lookup_insert_is_Some'. tauto.
Qed.

Lemma chain_node st cs ext l x : inv st cs ext -> l ∈ cs -> x ∈ l -> exists n, bufs st !! x = Some n.
Proof. intros I Hl Hx. apply (i_dom _ _ _ I), elem_concat. by exists l. Qed.

Lemma dll_node ns l1 x l2 n : dll ns 0 (l1 ++ x :: l2) 0 -> ns !! x = Some n ->
  nb_prev n = List.last l1 0 /\ nb_next n = List.hd 0 l2.
Proof. intros H Hn. apply dll_app in H as [_ [(_ & b & Hb & Hp & Hx) _]]. rewrite Hn in Hb. injection Hb as <-. done. Qed.

Lemma connect_spec st ext l1 h t l2 rest :
  inv st ((l1 ++ [h]) :: (t :: l2) :: rest) ext ->
  exists st', uk_netbuf_connect h t st = Some st' /\ inv st' ((l1 ++ h :: t :: l2) :: rest) ext /\ dtors st' = dtors st /\ frees st' = frees st.
Proof.
  intros I. destruct (chain_node _ _ _ (l1 ++ [h]) h I) as [hn Hh]; [apply list_elem_of_here|apply elem_of_app; right; apply list_elem_of_here|].
  destruct (chain_node _ _ _ (t :: l2) t I) as [tn Ht]; [apply list_elem_of_further, list_elem_of_here|apply list_elem_of_here|].
  destruct (dll_node (bufs st) l1 h [] hn) as [_ En]; [apply I, list_elem_of_here|done|].
  destruct (dll_node (bufs st) [] t l2 tn) as [Ep _]; [apply I, list_elem_of_further, list_elem_of_here|done|].
  unfold uk_netbuf_connect. rewrite Hh, Ht. cbn [mbind option_bind]. rewrite En, Ep. cbn [List.hd List.last Z.eqb andb put bufs].
  pose proof (i_nodup _ _ _ I) as ND. cbn [concat] in ND. rewrite app_assoc in ND. apply NoDup_app in ND as (ND & _ & _).
  assert (Hht : h <> t).
  { intros ->. apply NoDup_app in ND as (_ & Hd & _). apply (Hd t); [apply elem_of_app; right|]; apply list_elem_of_here. }
  rewrite lookup_insert_ne, Ht by done. cbn [mbind option_bind]. eexists. split; [done|]. split; [|done]. exact (inv_join st ext l1 h hn t tn l2 rest I Hh Ht).
Qed.

Lemma append_spec st ext h l1 t l2 rest :
  inv st ((h :: l1) :: (t :: l2) :: rest) ext ->
  exists st', uk_netbuf_append h t st = Some st' /\ inv st' ((h :: l1 ++ t :: l2) :: rest) ext /\ dtors st' = dtors st /\ frees st' = frees st.
Proof.
  intros I. destruct (chain_node _ _ _ (h :: l1) h I) as [hn Hh]; [apply list_elem_of_here..|].
  destruct (chain_node _ _ _ (t :: l2) t I) as [tn Ht]; [apply list_elem_of_further, list_elem_of_here|apply list_elem_of_here|].
  pose proof (i_dll _ _ _ I _ (list_elem_of_here _ _)) as Hd1.
  destruct (dll_node (bufs st) [] h l1 hn Hd1 Hh) as [Ep1 _].
  destruct (dll_node (bufs st) [] t l2 tn) as [Ep _]; [apply I, list_elem_of_further, list_elem_of_here|done|].
  unfold uk_netbuf_append. rewrite Hh, Ht. cbn [mbind option_bind]. rewrite Ep1, Ep. cbn [List.last Z.eqb andb].
  pose proof (i_nodup _ _ _ I) as ND. cbn [concat] in ND. rewrite app_assoc in ND. apply NoDup_app in ND as (ND & _ & _).
  pose proof ND as ND1. apply NoDup_app in ND1 as (ND1 & Hdis & _).
  pose proof (dll_length _ _ _ _ Hd1 ND1) as Hlen. cbn [length] in Hlen.
  rewrite (chain_last_spec (size (bufs st)) (bufs st) 0 h l1 Hd1) by lia. cbn [mbind option_bind].
  set (e := List.last l1 h). assert (Ee : exists k, h :: l1 = k ++ [e]).
  { unfold e. destruct l1 as [|y k _] using rev_ind; [by exists []|]. rewrite last_last. by exists (h :: k). }
  destruct Ee as [k Ee]. rewrite Ee in *.
  destruct (chain_node _ _ _ (k ++ [e]) e I) as [en He]; [apply list_elem_of_here|apply elem_of_app; right; apply list_elem_of_here|].
  rewrite He. cbn [mbind option_bind put bufs].
  assert (Het : e <> t). { intros ->. apply (Hdis t); [apply elem_of_app; right|]; apply list_elem_of_here. }
  rewrite lookup_insert_ne, Ht by done. cbn [mbind option_bind]. eexists. split; [done|]. split; [|done].
  replace (h :: l1 ++ t :: l2) with (k ++ e :: t :: l2); [exact (inv_join st ext k e en t tn l2 rest I He Ht)|]. change (h :: l1 ++ t :: l2) with ((h :: l1) ++ t :: l2).
  by rewrite Ee, <- app_assoc.
Qed.

Lemma cut_spec st ext l1 m l2 rest :
  inv st ((l1 ++ m :: l2) :: rest) ext ->
  exists st', uk_netbuf_disconnect m st = Some (List.hd 0 l2, st') /\ inv st' ([m] :: nonempty (l1 ++ l2) ++ rest) ext /\
    dtors st' = dtors st /\ frees st' = frees st /\
    (forall x n', bufs st' !! x = Some n' -> exists n, bufs st !! x = Some n /\ nb_dtor n' = nb_dtor n /\ nb_a n' = nb_a n).
Proof.
  intros I. pose proof (i_nodup _ _ _ I) as ND. cbn [concat] in ND. apply NoDup_app in ND as (ND & _ & _).
  destruct (disconnect_spec st l1 m l2) as (st' & E & D & F & L & (Hm & mn & Hmn & Ep & En) & O & R & V); [apply I, list_elem_of_here|done|].
  exists st'. split; [done|]. split; [|split; [done|]; split; [done|]].
  2: { intros x n' Hx. destruct (R x n' Hx) as (n & Hn & Eq). exists n. split; [done|]. by injection Eq. }
  apply (inv_rechain st st' [l1 ++ m :: l2] ([m] :: nonempty (l1 ++ l2)) rest ext I).
  - cbn [concat]. rewrite nonempty_concat, app_nil_r. cbn [app]. by rewrite Permutation_middle.
  - rewrite elem_of_cons. intros [?|[? ?]%nonempty_in]; [done|congruence].
  - intros l [->|[-> _]%nonempty_in]%elem_of_cons; [|done]. cbn [dll]. split; [|done]. split; [done|]. by exists mn.
  - intros x Hx. apply O. cbn [concat] in Hx. by rewrite app_nil_r in Hx.
  - intros x n' Hx. destruct (R x n' Hx) as (n & Hn & Eq). exists n. split; [done|]. injection Eq as E1 E2 E3 E4 E5 _ _.
    split; [done|]. by apply fits_same.
  - done.
Qed.

(** ** Releasing *)

Definition has_dtor (st : pool) (x : Z) : Prop := exists n, bufs st !! x = Some n /\ nb_dtor n <> 0.

Instance has_dtor_dec st x : Decision (has_dtor st x).
Proof.
  destruct (bufs st !! x) as [n|] eqn:Hx; [|right; intros (n & Hn & _); congruence].
  destruct (decide (nb_dtor n = 0)) as [E|E]; [right; intros (k & Hk & Hd); congruence|left; by exists n].
Defined.

(** The netbufs that lose their last reference, and those that stay. *)
Definition last_ref (ext : Z -> Z) (x : Z) : Prop := ext x = 1.
Definition kept (ext : Z -> Z) (x : Z) : Prop := 1 < ext x.
Instance last_ref_dec ext x : Decision (last_ref ext x).
Proof. unfold last_ref. apply _. Defined.
Instance kept_dec ext x : Decision (kept ext x).
Proof. unfold kept. apply _. Defined.

Lemma filter_ext_in {P Q : Z -> Prop} `{forall x, Decision (P x)} `{forall x, Decision (Q x)} (l : list Z) :
  (forall x, x ∈ l -> P x <-> Q x) -> filter P l = filter Q l.
Proof.
  intros E. induction l as [|x l IH]; [done|]. rewrite !filter_cons, IH by (intros; by apply E, list_elem_of_further).
  pose proof (E x (list_elem_of_here _ _)). destruct (decide (P x)), (decide (Q x)); tauto || done.
Qed.

Section free.
Context (dtor_rc : Z -> Z -> Z).

(** The state after the references to the netbufs [l] were dropped: those in [gone] are destroyed,
    with one call of their destructor each. *)
Record dropped (st : pool) (gone : list Z) (st' : pool) : Prop := Dropped {
  dr_dtors : dtors st' = dtors st ++ filter (has_dtor st) gone;
  dr_frees : exists k, frees st' = frees st ++ k /\ k `sublist_of` gone;
  dr_same : forall x n', bufs st' !! x = Some n' -> exists n, bufs st !! x = Some n /\ nb_dtor n' = nb_dtor n
}.

Lemma free_last_spec st ext l1 m l2 rest :
  inv st ((l1 ++ m :: l2) :: rest) ext -> ext m = 1 ->
  exists st', uk_netbuf_free_single dtor_rc m st = Some st' /\ inv st' (nonempty (l1 ++ l2) ++ rest) (shift ext [m] (-1)) /\ dropped st [m] st'.
Proof.
  intros I He. pose proof I as [N D L F R Z]. cbn [concat] in N. pose proof N as N0. apply NoDup_app in N as (ND & Hdis & NDr).
  pose proof (L _ (list_elem_of_here _ _)) as Hd.
  destruct (chain_node _ _ _ (l1 ++ m :: l2) m I) as [mn Hm]; [apply list_elem_of_here|apply elem_of_app; right; apply list_elem_of_here|].
  destruct (R m mn Hm) as (Er & Hb & Hf). unfold uk_netbuf_free_single. rewrite Hm. cbn [mbind option_bind].
  rewrite Er, He, P9Dev.release_small by lia. cbn [Z.leb Z.compare Pos.compare Pos.compare_cont].
  set (st1 := put st m (set_refcount mn (1 - 1))).
  assert (Hs1 : forall x b, bufs st !! x = Some b -> exists b', bufs st1 !! x = Some b' /\ nb_prev b' = nb_prev b /\ nb_next b' = nb_next b).
  { intros x b Hx. unfold st1. rewrite (put_refcount st m mn _ x Hm), Hx. eexists. split; [done|]. by case_decide. }
  destruct (disconnect_spec st1 l1 m l2) as (st2 & -> & D2 & F2 & L2 & _ & O2 & R2 & V2); [|done|].
  { apply (dll_frame (bufs st)); [done|]. intros x b _. apply Hs1. }
  cbn [mbind option_bind]. eexists. split; [done|].
  assert (Hm12 : m ∉ l1 ++ l2).
  { apply NoDup_app in ND as (_ & H1 & [H2 _]%NoDup_cons). rewrite elem_of_app. intros [Hi|Hi]; [|done]. apply (H1 m Hi), list_elem_of_here. }
  assert (Old : forall x n', x <> m -> bufs st2 !! x = Some n' -> exists n, bufs st !! x = Some n /\ nb_refcount n' = nb_refcount n /\
    nb_data n' = nb_data n /\ nb_len n' = nb_len n /\ nb_buf n' = nb_buf n /\ nb_buflen n' = nb_buflen n /\ nb_dtor n' = nb_dtor n).
  { intros x n' Hx Hn'. destruct (R2 x n' Hn') as (n & Hn & Eq). unfold st1 in Hn. cbn [put bufs] in Hn. rewrite lookup_insert_ne in Hn by done.
    exists n. split; [done|]. by injection Eq as -> -> -> -> -> -> _. }
  assert (Live : forall x, is_Some (bufs st2 !! x) <-> is_Some (bufs st !! x)).
  { intros x. split.
    - intros [n' Hn']. destruct (R2 x n' Hn') as (n & Hn & _). unfold st1 in Hn. rewrite (put_refcount st m mn _ x Hm) in Hn.
      destruct (bufs st !! x); [by eexists|done].
    - intros [n Hn]. apply V2. destruct (Hs1 x n Hn) as (b & Hb' & _). by exists b. }
  split.
  - split; cbn [bufs]; rewrite ?concat_app, ?nonempty_concat.
    + apply NoDup_app. split; [by apply (sublist_NoDup (l1 ++ l2) (l1 ++ m :: l2)); [|apply sublist_app; [done|by constructor]]|]. split; [|done].
      intros x Hx. apply Hdis. rewrite elem_of_app in Hx. rewrite elem_of_app, elem_of_cons. tauto.
    + intros x. rewrite lookup_delete_is_Some, Live, <- D. cbn [concat]. rewrite !elem_of_app, elem_of_cons.
      split; [|intros [? [[?|[?|?]]|?]]; intuition congruence]. intros Hx. split; [|tauto]. intros E; subst x. destruct Hx as [Hx|Hx]; [by rewrite <- elem_of_app in Hx|].
      apply (Hdis m); [apply elem_of_app; right; apply list_elem_of_here|done].
    + intros l [[-> _]%nonempty_in|Hl]%elem_of_app.
      * apply (dll_frame (bufs st2)); [done|]. intros x b Hx Hb'. exists b. rewrite lookup_delete_ne; [done|]. by intros ->.
      * apply (dll_frame (bufs st)); [apply L; by apply list_elem_of_further|]. intros x b Hx Hb'.
        assert (Hx1 : x ∉ l1 ++ m :: l2) by (intros Hi; apply (Hdis x Hi), elem_concat; by exists l).
        assert (Hxm : x <> m) by (intros ->; apply Hx1, elem_of_app; right; apply list_elem_of_here).
        exists b. rewrite lookup_delete_ne, O2 by done. unfold st1. cbn [put bufs]. by rewrite lookup_insert_ne.
    + rewrite elem_of_app. intros [[? ?]%nonempty_in|Hi]; [done|]. apply F. by apply list_elem_of_further.
    + intros x n' [Hx Hn']%lookup_delete_Some. destruct (Old x n' ltac:(done) Hn') as (n & Hn & E1 & E2 & E3 & E4 & E5 & _).
      destruct (R x n Hn) as (R1 & R3 & R4). rewrite shift_out by (rewrite list_elem_of_singleton; congruence). split; [congruence|]. split; [done|].
      by apply (fits_same n).
    + intros x Hx. destruct (decide (x = m)) as [->|Hxm]; [rewrite shift_in by apply list_elem_of_here; lia|].
      rewrite shift_out by (rewrite list_elem_of_singleton; done). apply Z. rewrite lookup_delete_ne in Hx by done.
      apply eq_None_not_Some. rewrite <- Live, Hx. by intros [? ?].
  - split; cbn [bufs dtors frees].
    + rewrite D2. cbn [st1 put dtors]. destruct (Z.eqb_spec (nb_dtor mn) 0) as [E|E]; cbn [negb].
      * rewrite filter_cons_False, filter_nil, app_nil_r; [done|]. intros (k & Hk & Hdk). congruence.
      * rewrite filter_cons_True, filter_nil; [done|]. by exists mn.
    + rewrite F2. cbn [st1 put frees]. match goal with |- context [if ?b then _ else _] => destruct b end.
      * by exists [m].
      * exists []. rewrite app_nil_r. split; [done|]. apply sublist_nil_l.
    + intros x n' [Hx Hn']%lookup_delete_Some. destruct (Old x n' ltac:(done) Hn') as (n & Hn & _ & _ & _ & _ & _ & E). by exists n.
Qed.

Lemma free_shared_spec st cs ext m :
  inv st cs ext -> is_Some (bufs st !! m) -> 1 < ext m ->
  exists st', uk_netbuf_free_single dtor_rc m st = Some st' /\ inv st' cs (shift ext [m] (-1)) /\ dropped st [] st' /\
    (forall x n, bufs st !! x = Some n -> exists n', bufs st' !! x = Some n' /\ nb_prev n' = nb_prev n /\ nb_next n' = nb_next n).
Proof.
  intros I [n Hn] He. unfold uk_netbuf_free_single. rewrite Hn. cbn [mbind option_bind].
  destruct (i_ref _ _ _ I m n Hn) as (Er & Hb & Hf). rewrite Er, P9Dev.release_small by lia. destruct (Z.leb_spec (ext m) 1); [lia|].
  eexists. split; [done|]. split; [|split].
  - apply (inv_fields st _ cs ext _ _ I (fun x => put_refcount st m n (ext m - 1) x Hn)).
    + intros x b. by case_decide.
    + intros x b Hb'. destruct (i_ref _ _ _ I x b Hb') as (Er' & Hb2 & Hf'). case_decide as Ex.
      * subst x. rewrite shift_in by apply list_elem_of_here. split; [done|]. split; [lia|]. by apply fits_refcount.
      * rewrite shift_out by (rewrite list_elem_of_singleton; done). done.
    + intros x Hx. rewrite shift_out; [by apply I|]. rewrite list_elem_of_singleton. congruence.
  - split; cbn [put dtors frees].
    + by rewrite filter_nil, app_nil_r.
    + exists []. rewrite app_nil_r. by split.
    + intros x n'. rewrite (put_refcount st m n (ext m - 1) x Hn). destruct (bufs st !! x) as [b|]; [|done]. intros [= <-]. exists b.
      split; [done|]. by case_decide.
  - intros x b Hb'. rewrite (put_refcount st m n (ext m - 1) x Hn), Hb'. eexists. split; [done|]. by case_decide.
Qed.
Lemma dropped_trans st g1 st1 g2 st2 :
  dropped st g1 st1 -> dropped st1 g2 st2 -> (forall x, x ∈ g2 -> has_dtor st1 x <-> has_dtor st x) -> dropped st (g1 ++ g2) st2.
Proof.
  intros [D1 (k1 & F1 & S1) M1] [D2 (k2 & F2 & S2) M2] H. split.
  - rewrite D2, D1, filter_app, <- app_assoc. do 2 f_equal. clear -H. induction g2 as [|x g IH]; [done|].
    rewrite !filter_cons. rewrite IH by (intros; by apply H, list_elem_of_further). specialize (H x (list_elem_of_here _ _)).
    destruct (decide (has_dtor st1 x)), (decide (has_dtor st x)); tauto || done.
  - exists (k1 ++ k2). rewrite F2, F1, app_assoc. split; [done|]. by apply sublist_app.
  - intros x n' Hn'. destruct (M2 x n' Hn') as (n1 & Hn1 & E1). destruct (M1 x n1 Hn1) as (n & Hn & E). exists n. split; [done|congruence].
Qed.

Lemma has_dtor_same st g st' x : dropped st g st' -> is_Some (bufs st' !! x) -> has_dtor st' x <-> has_dtor st x.
Proof.
  intros [_ _ M] [n' Hn']. destruct (M x n' Hn') as (n & Hn & E). unfold has_dtor. rewrite Hn, Hn'.
  split; intros (k & [= <-] & Hk); eexists; (split; [done|]); congruence.
Qed.

Lemma free_loop_spec l : forall fuel st keep rest ext,
  inv st (nonempty (keep ++ l) ++ rest) ext -> (length l <= fuel)%nat ->
  exists st', free_loop dtor_rc fuel (List.hd 0 l) st = Some st' /\
    inv st' (nonempty (keep ++ filter (kept ext) l) ++ rest) (shift ext l (-1)) /\ dropped st (filter (last_ref ext) l) st'.
Proof.
  induction l as [|x l IH]; intros fuel st keep rest ext I Hf.
  - exists st. split; [by destruct fuel|]. rewrite !filter_nil. split.
    + apply (inv_same_counts _ _ ext); [intros y; by rewrite shift_out by apply not_elem_of_nil|done].
    + split; [by rewrite filter_nil, app_nil_r|exists []; by rewrite app_nil_r|intros y n Hy; by exists n].
  - destruct fuel as [|fuel]; cbn [length] in Hf; [lia|].
    assert (Ene : nonempty (keep ++ x :: l) = [keep ++ x :: l]) by (by destruct keep). rewrite Ene in I. cbn [app] in I.
    pose proof (i_nodup _ _ _ I) as ND. cbn [concat] in ND. apply NoDup_app in ND as (ND & _ & _).
    apply NoDup_app in ND as (_ & _ & [Hxl ND]%NoDup_cons).
    destruct (chain_node _ _ _ (keep ++ x :: l) x I) as [xn Hx]; [apply list_elem_of_here|apply elem_of_app; right; apply list_elem_of_here|].
    pose proof (i_dll _ _ _ I _ (list_elem_of_here _ _)) as Hd. destruct (dll_node _ _ _ _ _ Hd Hx) as [_ En].
    destruct (dll_live _ _ _ _ x Hd) as [Hx0 _]; [apply elem_of_app; right; apply list_elem_of_here|].
    cbn [List.hd free_loop]. destruct (Z.eqb_spec x 0); [done|]. rewrite Hx. cbn [mbind option_bind]. rewrite En.
    destruct (i_ref _ _ _ I x xn Hx) as (_ & Hb & _).
    assert (Eext : forall y, y ∈ l -> shift ext [x] (-1) y = ext y).
    { intros y Hy. apply shift_out. rewrite list_elem_of_singleton. by intros ->. }
    assert (Fk : filter (kept (shift ext [x] (-1))) l = filter (kept ext) l) by (apply filter_ext_in; intros y Hy; unfold kept; by rewrite Eext).
    assert (Fl : filter (last_ref (shift ext [x] (-1))) l = filter (last_ref ext) l) by (apply filter_ext_in; intros y Hy; unfold last_ref; by rewrite Eext).
    destruct (decide (ext x = 1)) as [E1|E1].
    + destruct (free_last_spec st ext keep x l rest I E1) as (st1 & -> & I1 & D1). cbn [mbind option_bind].
      destruct (IH fuel st1 keep rest (shift ext [x] (-1)) I1 ltac:(lia)) as (st2 & E2 & I2 & D2). exists st2. split; [exact E2|].
      rewrite Fk in I2. rewrite Fl in D2. rewrite (filter_cons_False (kept ext)), (filter_cons_True (last_ref ext)) by (unfold kept, last_ref; lia). split.
      * apply (inv_same_counts _ _ (shift (shift ext [x] (-1)) l (-1))); [by apply shift_cons|done].
      * apply (dropped_trans st [x] st1); [done|done|]. intros y [_ Hy]%list_elem_of_filter. apply (has_dtor_same st [x] st1 y D1).
        apply (i_dom _ _ _ I1). rewrite concat_app, nonempty_concat, !elem_of_app. tauto.
    + destruct (free_shared_spec st _ ext x I ltac:(by exists xn) ltac:(lia)) as (st1 & -> & I1 & D1 & K1). cbn [mbind option_bind].
      destruct (IH fuel st1 (keep ++ [x]) rest (shift ext [x] (-1))) as (st2 & E2 & I2 & D2); [|lia|].
      { rewrite <- app_assoc. cbn [app]. by rewrite Ene. }
      exists st2. split; [exact E2|]. rewrite Fk, <- app_assoc in I2. rewrite Fl in D2.
      rewrite (filter_cons_True (kept ext)), (filter_cons_False (last_ref ext)) by (unfold kept, last_ref; lia). split.
      * apply (inv_same_counts _ _ (shift (shift ext [x] (-1)) l (-1))); [by apply shift_cons|done].
      * apply (dropped_trans st [] st1); [done|done|]. intros y [_ Hy]%list_elem_of_filter. apply (has_dtor_same st [] st1 y D1).
        apply (i_dom _ _ _ I1). cbn [concat]. rewrite !elem_of_app, elem_of_cons. tauto.
Qed.

Lemma netbuf_free_spec st ext m l rest :
  inv st ((m :: l) :: rest) ext ->
  exists st', uk_netbuf_free dtor_rc m st = Some st' /\
    inv st' (nonempty (filter (kept ext) (m :: l)) ++ rest) (shift ext (m :: l) (-1)) /\ dropped st (filter (last_ref ext) (m :: l)) st'.
Proof.
  intros I. destruct (chain_node _ _ _ (m :: l) m I) as [mn Hm]; [apply list_elem_of_here..|].
  pose proof (i_dll _ _ _ I _ (list_elem_of_here _ _)) as Hd. destruct (dll_node _ [] m l mn Hd Hm) as [Ep _].
  unfold uk_netbuf_free. rewrite Hm. cbn [mbind option_bind]. rewrite Ep. cbn [List.last Z.eqb].
  apply (free_loop_spec (m :: l) (size (bufs st)) st [] rest ext I). apply (dll_length _ _ _ _ Hd).
  pose proof (i_nodup _ _ _ I) as ND. cbn [concat] in ND. by apply NoDup_app in ND as (ND & _ & _).
Qed.
End free.

(** ** New netbufs and their data *)

(** What the functions that set up a netbuf at [m] return. *)
Definition new_netbuf (m : Z) (n : uk_netbuf) : Prop :=
  exists buf buflen headroom priv dtor a n0, 0 <= buf /\ 0 <= headroom /\
    uk_netbuf_init_indir m buf buflen headroom priv dtor = Some n0 /\ n = set_a n0 a /\ nb_buf n <> 0.

Lemma alloc_indir_new m a buf buflen headroom privlen dtor n :
  0 <= buf -> 0 <= headroom -> uk_netbuf_alloc_indir m a buf buflen headroom privlen dtor = Some (Some n) -> nb_buf n <> 0 -> new_netbuf m n.
Proof.
  intros Hb Hh. unfold uk_netbuf_alloc_indir. destruct (m =? 0); [done|].
  destruct (uk_netbuf_init_indir _ _ _ _ _ _) as [n0|] eqn:E; [|done]. intros [= <-] Hz. eexists _, _, _, _, _, _, _. split; [exact Hb|]. split; [exact Hh|]. by split; [exact E|].
Qed.

Lemma alloc_buf_new m a buflen headroom privlen dtor n :
  uk_netbuf_alloc_buf m a buflen headroom privlen dtor = Some (Some n) -> nb_buf n <> 0 -> new_netbuf m n.
Proof.
  unfold uk_netbuf_alloc_buf. destruct (negb _); [done|]. destruct (m =? 0); [done|]. destruct (layout headroom privlen) as [[po bo] ex].
  destruct (uk_netbuf_init_indir _ _ _ _ _ _) as [n0|] eqn:E; [|done]. intros [= <-] Hz. eexists _, _, _, _, _, _, _.
  split; [|split; [|by split; [exact E|]]].
  - apply wrap_range. lia.
  - apply wrap_range. lia.
Qed.

Lemma prepare_buf_new mem size headroom privlen dtor n :
  uk_netbuf_prepare_buf mem size headroom privlen dtor = Some (Some n) -> nb_buf n <> 0 -> new_netbuf mem n.
Proof.
  unfold uk_netbuf_prepare_buf. destruct (mem =? 0); [done|]. destruct (size <? _); [done|]. destruct (layout headroom privlen) as [[po bo] ex].
  destruct (uk_netbuf_init_indir _ _ _ _ _ _) as [n0|] eqn:E; [|done]. intros [= <-] Hz. eexists _, _, _, _, _, 0, n0.
  split; [|split; [|split; [exact E|split; [|done]]]].
  - apply wrap_range. lia.
  - apply wrap_range. lia.
  - revert E. unfold uk_netbuf_init_indir. match goal with |- (if ?b then _ else _) = _ -> _ => destruct b end; [|done]. by intros [= <-].
Qed.

Lemma new_spec st cs ext m n :
  inv st cs ext -> bufs st !! m = None -> new_netbuf m n -> nb_buf n + nb_buflen n < 2 ^ 63 ->
  inv (put st m n) ([m] :: cs) (shift ext [m] 1).
Proof.
  intros I Hm (buf & buflen & headroom & priv & dtor & a & n0 & Hb & Hh & E & -> & Hb0) Hsp.
  unfold uk_netbuf_init_indir in E. destruct (Z.eqb_spec m 0) as [|Hm0]; [done|].
  destruct (negb (buf =? 0) || (buflen =? 0)) eqn:Eb; [|done]. destruct (Z.leb_spec headroom buflen) as [Hle|]; [|done]. cbn [negb andb] in E. injection E as <-.
  cbn [set_a nb_buf nb_buflen] in Hsp, Hb0. pose proof I as [N D L F R Z].
  assert (Hmc : m ∉ concat cs) by (rewrite D, Hm; by intros [? ?]).
  split; cbn [put bufs concat app].
  - apply NoDup_cons. by split.
  - intros x. rewrite elem_of_cons, lookup_insert_is_Some', D. intuition congruence.
  - intros l [->|Hl]%elem_of_cons.
    + cbn [dll]. split; [|done]. by apply links_insert.
    + apply dll_insert; [by apply L|]. intros Hi. apply Hmc, elem_concat. by exists l.
  - rewrite elem_of_cons. intros [?|?]; [done|by apply F].
  - intros x k Hk. rewrite lookup_insert_Some in Hk. destruct Hk as [[<- <-]|[Hx Hk]].
    + rewrite shift_in by apply list_elem_of_here. rewrite (Z m Hm). split; [done|]. split; [lia|].
      split; unfold UINT16_MAX; cbn [set_a nb_buf nb_data nb_len nb_buflen]; rewrite ?wrap_small by (unfold in_u; lia); lia.
    + rewrite shift_out by (rewrite list_elem_of_singleton; congruence). by apply R.
  - intros x Hx. apply lookup_insert_None in Hx as [Hx Hxm]. rewrite shift_out by (rewrite list_elem_of_singleton; congruence). by apply Z.
Qed.

Lemma header_inv st cs ext m n n' :
  inv st cs ext -> bufs st !! m = Some n -> nb_prev n' = nb_prev n -> nb_next n' = nb_next n -> nb_refcount n' = nb_refcount n ->
  fits n' -> inv (put st m n') cs ext.
Proof.
  intros I Hn E1 E2 E3 Hf. apply (inv_fields st _ cs ext ext (fun x b => if decide (x = m) then set_next (set_prev n' (nb_prev b)) (nb_next b) else b) I).
  - intros x. cbn [put bufs]. case_decide as Hx.
    + subst x. rewrite lookup_insert_eq, Hn. cbn. rewrite <- E1, <- E2. by destruct n'.
    + rewrite lookup_insert_ne by done. by destruct (bufs st !! x).
  - intros x b. by case_decide.
  - intros x b Hb. destruct (i_ref _ _ _ I x b Hb) as (R1 & R2 & R3). case_decide as Hx; [|done]. subst x.
    assert (b = n) as -> by congruence. cbn [set_next set_prev nb_refcount]. split; [congruence|]. split; [done|].
    apply (fits_same n'); done.
  - intros x Hx. by apply I.
Qed.

(** ** Calls, and what they do to the lists *)

Inductive op :=
| New (m : Z) (n : uk_netbuf) | Ref (m : Z) | RefSingle (m : Z) | Connect (h t : Z) | Append (h t : Z)
| Disconnect (m : Z) | FreeSingle (m : Z) | Free (m : Z) | Header (m len : Z).

Section run.
Context (dtor_rc : Z -> Z -> Z).

Definition exec (o : op) (st : pool) : option pool :=
  match o with
  | New m n => Some (put st m n)
  | Ref m => uk_netbuf_ref (size (bufs st)) m st
  | RefSingle m => uk_netbuf_ref_single m st
  | Connect h t => uk_netbuf_connect h t st
  | Append h t => uk_netbuf_append h t st
  | Disconnect m => '(_, st) ← uk_netbuf_disconnect m st; Some st
  | FreeSingle m => uk_netbuf_free_single dtor_rc m st
  | Free m => uk_netbuf_free dtor_rc m st
  | Header m len => n ← bufs st !! m; '(_, n) ← uk_netbuf_header n len; Some (put st m n)
  end.

(** The last component are the netbufs destroyed.  Chains may be listed in any order. *)
Inductive call : op -> list (list Z) -> (Z -> Z) -> list (list Z) -> (Z -> Z) -> list Z -> Prop :=
| C_new m n cs ext : m ∉ concat cs -> new_netbuf m n -> nb_buf n + nb_buflen n < 2 ^ 63 ->
    call (New m n) cs ext ([m] :: cs) (shift ext [m] 1) []
| C_ref l1 m l2 rest ext : (forall x, x ∈ m :: l2 -> ext x < 2 ^ 16 - 1) ->
    call (Ref m) ((l1 ++ m :: l2) :: rest) ext ((l1 ++ m :: l2) :: rest) (shift ext (m :: l2) 1) []
| C_ref_single m cs ext : m ∈ concat cs -> ext m < 2 ^ 16 - 1 -> call (RefSingle m) cs ext cs (shift ext [m] 1) []
| C_connect l1 h t l2 rest ext :
    call (Connect h t) ((l1 ++ [h]) :: (t :: l2) :: rest) ext ((l1 ++ h :: t :: l2) :: rest) ext []
| C_append h l1 t l2 rest ext :
    call (Append h t) ((h :: l1) :: (t :: l2) :: rest) ext ((h :: l1 ++ t :: l2) :: rest) ext []
| C_disconnect l1 m l2 rest ext :
    call (Disconnect m) ((l1 ++ m :: l2) :: rest) ext ([m] :: nonempty (l1 ++ l2) ++ rest) ext []
| C_free_last l1 m l2 rest ext : ext m = 1 ->
    call (FreeSingle m) ((l1 ++ m :: l2) :: rest) ext (nonempty (l1 ++ l2) ++ rest) (shift ext [m] (-1)) [m]
| C_free_shared m cs ext : m ∈ concat cs -> 1 < ext m -> call (FreeSingle m) cs ext cs (shift ext [m] (-1)) []
| C_free m l rest ext :
    call (Free m) ((m :: l) :: rest) ext (nonempty (filter (kept ext) (m :: l)) ++ rest) (shift ext (m :: l) (-1))
      (filter (last_ref ext) (m :: l))
| C_header m len l rest ext : - 2 ^ 15 <= len < 2 ^ 15 -> call (Header m len) ((m :: l) :: rest) ext ((m :: l) :: rest) ext []
| C_order o cs0 cs ext cs' ext' gone : cs0 ≡ₚ cs -> call o cs ext cs' ext' gone -> call o cs0 ext cs' ext' gone.

(** One destructor call for every netbuf destroyed, and no more memory freed. *)
Definition logged (st : pool) (gone : list Z) (st' : pool) : Prop :=
  dtors st' = dtors st ++ filter (has_dtor st) gone /\ exists k, frees st' = frees st ++ k /\ k `sublist_of` gone.

Lemma logged_same st st' : dtors st' = dtors st -> frees st' = frees st -> logged st [] st'.
Proof. intros D F. split; [by rewrite filter_nil, app_nil_r|]. exists []. by rewrite app_nil_r. Qed.

Lemma dropped_logged st gone st' : dropped st gone st' -> logged st gone st'.
Proof. by intros [D F _]. Qed.

(** Every call runs, leads to netbufs that the lists describe, and calls one destructor for every
    netbuf it destroys. *)
Lemma call_runs o cs ext cs' ext' gone st :
  call o cs ext cs' ext' gone -> inv st cs ext ->
  exists st', exec o st = Some st' /\ inv st' cs' ext' /\
    logged st gone st'.
Proof.
  intros C. revert st. induction C as [m n cs ext Hm Hn Hsp|l1 m l2 rest ext He|m cs ext Hm He|l1 h t l2 rest ext|h l1 t l2 rest ext|
    l1 m l2 rest ext|l1 m l2 rest ext He|m cs ext Hm He|m l rest ext|m len l rest ext Hl|o cs0 cs ext cs' ext' gone P C IH]; intros st I.
  - eexists. split; [done|]. split; [|by apply logged_same]. apply new_spec; try done. rewrite (i_dom _ _ _ I) in Hm. by apply eq_None_not_Some.
  - pose proof (i_dll _ _ _ I _ (list_elem_of_here _ _)) as Hd. pose proof (i_nodup _ _ _ I) as ND. cbn [concat] in ND. apply NoDup_app in ND as (ND & _ & _).
    pose proof (dll_length _ _ _ _ Hd ND) as Hlen. rewrite length_app in Hlen. apply NoDup_app in ND as (_ & _ & ND). apply dll_app in Hd as [_ Hd].
    destruct (ref_chain_spec (m :: l2) (size (bufs st)) st _ ext _ I Hd ND He ltac:(lia)) as (st' & E & I' & D & F).
    exists st'. split; [exact E|]. split; [done|by apply logged_same].
  - apply (i_dom _ _ _ I) in Hm. destruct (ref_single_spec st cs ext m I Hm He) as (st' & E & I' & D & F & _).
    exists st'. split; [done|]. split; [done|by apply logged_same].
  - destruct (connect_spec st ext l1 h t l2 rest I) as (st' & E & I' & D & F). exists st'. split; [done|]. split; [done|by apply logged_same].
  - destruct (append_spec st ext h l1 t l2 rest I) as (st' & E & I' & D & F). exists st'. split; [done|]. split; [done|by apply logged_same].
  - destruct (cut_spec st ext l1 m l2 rest I) as (st' & E & I' & D & F & _). exists st'. cbn [exec]. rewrite E. split; [done|].
    split; [done|by apply logged_same].
  - destruct (free_last_spec dtor_rc st ext l1 m l2 rest I He) as (st' & E & I' & D). exists st'. split; [done|]. split; [done|by apply dropped_logged].
  - apply (i_dom _ _ _ I) in Hm. destruct (free_shared_spec dtor_rc st cs ext m I Hm He) as (st' & E & I' & D & _).
    exists st'. split; [done|]. split; [done|by apply dropped_logged].
  - destruct (netbuf_free_spec dtor_rc st ext m l rest I) as (st' & E & I' & D). exists st'. split; [done|]. split; [done|by apply dropped_logged].
  - destruct (chain_node _ _ _ (m :: l) m I) as [n Hn]; [apply list_elem_of_here..|].
    destruct (dll_node _ [] m l n (i_dll _ _ _ I _ (list_elem_of_here _ _)) Hn) as [Ep _]. cbn [List.last] in Ep.
    destruct (i_ref _ _ _ I m n Hn) as (_ & _ & G).
    destruct (header_spec n len G Ep Hl) as (rc & n' & E & G' & H). cbn [exec]. rewrite Hn. cbn [mbind option_bind]. rewrite E. cbn [mbind option_bind].
    eexists. split; [done|]. split; [|by apply logged_same]. destruct H as [(_ & ->)|(-> & _)]; by apply (header_inv st _ ext m n).
  - apply IH. by apply (inv_perm _ _ _ _ P).
Qed.

(** A run of calls, with the abstract states in between. *)
Inductive calls : list op -> list (list Z) -> (Z -> Z) -> list (list Z) -> (Z -> Z) -> list Z -> Prop :=
| calls_nil cs ext : calls [] cs ext cs ext []
| calls_cons o os cs ext cs1 ext1 g1 cs2 ext2 g2 :
    call o cs ext cs1 ext1 g1 -> calls os cs1 ext1 cs2 ext2 g2 -> calls (o :: os) cs ext cs2 ext2 (g1 ++ g2).

Fixpoint execs (os : list op) (st : pool) : option pool :=
  match os with [] => Some st | o :: os' => st ← exec o st; execs os' st end.

Lemma calls_run os cs ext cs' ext' gone : calls os cs ext cs' ext' gone -> forall st, inv st cs ext ->
  exists st', execs os st = Some st' /\ inv st' cs' ext'.
Proof.
  induction 1 as [cs ext|o os cs ext cs1 ext1 g1 cs2 ext2 g2 C _ IH]; intros st I; [by exists st|].
  destruct (call_runs o cs ext cs1 ext1 g1 st C I) as (st1 & E1 & I1 & _). cbn [execs]. rewrite E1. cbn [mbind option_bind]. by apply IH.
Qed.

Lemma pool_empty : inv (Pool ∅ [] []) [] (fun _ => 0).
Proof.
  split; cbn [bufs concat].
  - constructor.
  - intros x. rewrite lookup_empty. split; [by intros ?%not_elem_of_nil|by intros [? ?]].
  - by intros l ?%not_elem_of_nil.
  - apply not_elem_of_nil.
  - by intros x n ?%lookup_empty_Some.
  - done.
Qed.

(** C29: Whatever netbufs are set up, referenced, joined, cut out and released, as long as only chains
    that exist are joined and only references that are held are dropped, no assertion fails and
    no netbuf is used after it was destroyed; the next call runs too, makes of the chains what its
    name says, and destroys exactly the netbufs whose last reference it drops, each with one call
    of its destructor, leaving the others chained in order. *)
Theorem netbuf_chains_refine os o cs ext g cs' ext' gone :
  calls os [] (fun _ => 0) cs ext g -> call o cs ext cs' ext' gone ->
  exists st st', execs os (Pool ∅ [] []) = Some st /\ inv st cs ext /\
    exec o st = Some st' /\ inv st' cs' ext' /\ logged st gone st'.
Proof.
  intros Cs C. destruct (calls_run _ _ _ _ _ _ Cs _ pool_empty) as (st & E & I).
  destruct (call_runs _ _ _ _ _ _ _ C I) as (st' & E' & I' & D). exists st, st'. done.
Qed.

End run.

(** Two netbufs in a chain, the second one referenced twice. *)
Definition demo_netbuf (m : Z) : uk_netbuf :=
  default (MkNetbuf 0 0 0 0 0 0 0 0 0 0) (r ← uk_netbuf_alloc_buf m 7 2048 128 0 5; r).

Lemma demo_new m : m = 4096 \/ m = 8192 -> new_netbuf m (demo_netbuf m) /\ nb_buf (demo_netbuf m) + nb_buflen (demo_netbuf m) < 2 ^ 63.
Proof. intros Hm. split; [apply (alloc_buf_new m 7 2048 128 0 5)|]; destruct Hm as [->| ->]; by vm_compute. Qed.

Lemma netbuf_chains_refine_witness : exists cs ext cs' ext' st st',
  execs (fun _ _ => 0) [New 4096 (demo_netbuf 4096); New 8192 (demo_netbuf 8192); Append 8192 4096; RefSingle 4096] (Pool ∅ [] []) = Some st /\
  inv st cs ext /\ exec (fun _ _ => 0) (Free 8192) st = Some st' /\ inv st' cs' ext' /\ logged st [8192] st'.
Proof.
  eexists _, _, _, _. eapply (netbuf_chains_refine (fun _ _ => 0)).
  - eapply calls_cons; [apply C_new; [apply not_elem_of_nil|by apply demo_new; left..]|].
    eapply calls_cons; [apply C_new; [|by apply demo_new; right..]; apply (bool_decide_unpack _); by vm_compute|].
    eapply calls_cons; [apply (C_append 8192 [] 4096 [] [])|].
    eapply calls_cons; [apply C_ref_single; [apply (bool_decide_unpack _); by vm_compute|by vm_compute]|]. apply calls_nil.
  - apply (C_free 8192 [4096] []).
Defined.

(** The value that [uk_netbuf_disconnect] returns is the netbuf behind the one removed, not the head
    of the remaining chain: it is null for the last one of two. *)
Theorem disconnect_last_returns_null :
  (st ← execs (fun _ _ => 0) [New 4096 (demo_netbuf 4096); New 8192 (demo_netbuf 8192); Append 8192 4096] (Pool ∅ [] []);
   fst <$> uk_netbuf_disconnect 4096 st) = Some 0.
Proof. by vm_compute. Qed.

End NetbufRun.
