(* ===== verification/Path.v ===== *)
(** * Path: from path names to mount points

    Models [lib/vfscore/task.c] ([path_conv], [task_conv]) and [vfs_findroot] with [count_match] of
    [mount.c].  Strings are lists of characters without the terminator.  [path_conv] writes into a
    buffer of [PATH_MAX] bytes, of which the part in front of [tgt] is kept: [None] is a write
    behind the buffer or a read in front of it. *)
From Stdlib Require Import ZArith Lia Bool.
From stdpp Require Import list.
From S2P Require Import Prelude Buf.
Open Scope Z_scope.

Module Path.

Definition PATH_MAX : Z := 4096.
Definition ENAMETOOLONG : Z := 63.
Definition slash : Z := 47.
Definition dot : list Z := [46].
Definition dotdot : list Z := [46; 46].

(** ** Making a path absolute *)

(** Storing a character at [tgt]. *)
Definition push (out : list Z) (c : Z) : option (list Z) := if zlen out <? PATH_MAX then Some (out ++ [c]) else None.
Fixpoint pushes (out src : list Z) : option (list Z) :=
  match src with [] => Some out | c :: src' => out ← push out c; pushes out src' end.

(** Going back to the slash before. *)
Fixpoint back (fuel : nat) (out : list Z) (i : Z) : option Z :=
  c ← zget out i;
  if c =? slash then Some i else match fuel with O => None | S fuel' => back fuel' out (i - 1) end.

(** The characters up to the next slash or the end, and what follows them. *)
Fixpoint component (src : list Z) : list Z * list Z :=
  match src with
  | [] => ([], [])
  | c :: src' => if c =? slash then ([], src) else let '(w, rest) := component src' in (c :: w, rest)
  end.

(** What one component of the path does to the output. *)
Definition conv_component (comp out : list Z) : option (list Z) :=
  if bool_decide (comp = dotdot) then
    if 2 <=? zlen out then
      i ← back (length out) out (zlen out - 2);
      Some (take (Z.to_nat (if i =? 0 then i + 1 else i)) out)
    else Some out
  else if bool_decide (comp = dot) then Some out
  else pushes out comp.

Fixpoint conv_loop (fuel : nat) (src out : list Z) : option (list Z) :=
  match src, fuel with
  | [], _ => Some out
  | _, O => None
  | _, S fuel' =>
      let '(comp, rest) := component src in
      out ← conv_component comp out;
      match rest with
      | [] => Some out
      | _ :: src' =>
          out ← (match last out with
                 | Some c => if negb (c =? slash) then push out slash else Some out
                 | None => Some out
                 end);
          conv_loop fuel' src' out
      end
  end.

Definition path_conv (wd cpath : list Z) : option (Z * list Z) :=
  let path := take (Z.to_nat (PATH_MAX - 1)) cpath in
  if PATH_MAX <=? zlen path then Some (ENAMETOOLONG, [])
  else if PATH_MAX <=? zlen wd + zlen path then Some (ENAMETOOLONG, [])
  else
    '(src, out) ←
      (match path with
       | c :: path' => if c =? slash then out ← push [] c; Some (path', out)
                       else out ← (if (1 <? zlen wd) && negb (c =? 46) then push wd slash else Some wd); Some (path, out)
       | [] => out ← (if 1 <? zlen wd then push wd slash else Some wd); Some (path, out)
       end);
    out ← conv_loop (length src) src out;
    _ ← push out 0;
    Some (0, out).

Definition task_conv (t_cwd cpath : list Z) : option (Z * list Z) :=
  '(rc, full) ← path_conv t_cwd cpath;
  if negb (rc =? 0) then Some (rc, full) else Some (0, full).

(** ** Mount points *)

(** The matched characters: what is left of both strings, and how many they were. *)
Fixpoint match_len (path root : list Z) (len : Z) : list Z * list Z * Z :=
  match path, root with
  | c :: path', d :: root' => if c =? d then match_len path' root' (len + 1) else (path, root, len)
  | _, _ => (path, root, len)
  end.

Definition count_match (path mount_root : list Z) : Z :=
  let '(p, r, len) := match_len path mount_root 0 in
  match r with
  | _ :: _ => 0
  | [] =>
      if (len =? 1) && bool_decide (head path = Some slash) then 1
      else match p with [] => len | c :: _ => if c =? slash then len else 0 end
  end.

(** A mount point is its address and path. *)
Fixpoint best_mount (path : list Z) (mounts : list (Z * list Z)) (max_len : Z) (m : option Z) : Z * option Z :=
  match mounts with
  | [] => (max_len, m)
  | (tmp, m_path) :: mounts' =>
      let len := count_match path m_path in
      if max_len <? len then best_mount path mounts' len (Some tmp) else best_mount path mounts' max_len m
  end.

Definition vfs_findroot (path : list Z) (mounts : list (Z * list Z)) : option (Z * list Z) :=
  let '(max_len, m) := best_mount path mounts 0 None in
  m ← m;
  let root := drop (Z.to_nat max_len) path in
  Some (m, match root with c :: root' => if c =? slash then root' else root | [] => root end).

(** ** What a path means *)

Definition keep (w : list Z) : list (list Z) := match w with [] => [] | _ => [w] end.

(** The names between the slashes. *)
Fixpoint split (cur s : list Z) : list (list Z) :=
  match s with
  | [] => keep cur
  | c :: s' => if c =? slash then keep cur ++ split [] s' else split (cur ++ [c]) s'
  end.
Definition names (s : list Z) : list (list Z) := split [] s.

(** The directory that a name leads to from the one that the names [s] lead to. *)
Definition resolve (s : list (list Z)) (c : list Z) : list (list Z) :=
  if bool_decide (c = dot) then s else if bool_decide (c = dotdot) then removelast s else s ++ [c].

Definition absolute (s : list Z) : bool := match s with c :: _ => c =? slash | [] => false end.

(** The names of a path, written with slashes in front. *)
Definition spell (s : list (list Z)) : list Z := concat (map (cons slash) s).
Definition proper (c : list Z) : Prop := c <> [] /\ slash ∉ c.

(** [out] is a path of [s], with or without a slash at the end. *)
Definition spells (s : list (list Z)) (out : list Z) : Prop := out = spell s ++ [slash] \/ s <> [] /\ out = spell s.

Lemma keep_proper c : c <> [] -> keep c = [c].
Proof. by destruct c. Qed.

Lemma split_word w : forall cur s, slash ∉ w -> split cur (w ++ slash :: s) = keep (cur ++ w) ++ names s.
Proof.
  induction w as [|c w IH]; intros cur s Hw; cbn [app split].
  - by rewrite app_nil_r.
  - apply not_elem_of_cons in Hw as [Hc Hw]. destruct (Z.eqb_spec c slash); [done|]. rewrite IH by done. by rewrite <- app_assoc.
Qed.

Lemma split_end w : forall cur, slash ∉ w -> split cur w = keep (cur ++ w).
Proof.
  induction w as [|c w IH]; intros cur Hw; cbn [split]; [by rewrite app_nil_r|].
  apply not_elem_of_cons in Hw as [Hc Hw]. destruct (Z.eqb_spec c slash); [done|]. rewrite IH by done. by rewrite <- app_assoc.
Qed.

Lemma names_spell s : Forall proper s -> forall t, names (spell s ++ slash :: t) = s ++ names t.
Proof.
  intros H. unfold names. induction H as [|c s [Hc Hs] _ IH]; intros t; [done|].
  cbn [spell map concat app]. fold (spell s). cbn [split]. change (slash =? slash) with true. cbn [keep app].
  rewrite <- app_assoc. destruct s as [|d s].
  - cbn [spell map concat app]. rewrite split_word by done. cbn [app]. by rewrite keep_proper.
  - cbn [spell map concat app] in IH |- *. rewrite split_word by done. cbn [app]. rewrite keep_proper by done.
    specialize (IH t). cbn [split] in IH. change (slash =? slash) with true in IH. cbn [keep app] in IH. cbn [app].
    f_equal. exact IH.
Qed.

Lemma names_spells s out : Forall proper s -> spells s out -> names out = s.
Proof.
  intros H [->|[Hs ->]]; [rewrite names_spell by done; by rewrite app_nil_r|].
  destruct s as [|c s _] using rev_ind; [done|]. apply Forall_app in H as [H [[Hc Hw] _]%Forall_cons].
  unfold spell. rewrite map_app, concat_app. cbn [map concat]. rewrite app_nil_r. fold (spell s). rewrite names_spell by done.
  unfold names. rewrite split_end by done. cbn [app]. by rewrite keep_proper.
Qed.

(** ** The conversion *)

Lemma component_spec src : let '(w, rest) := component src in
  src = w ++ rest /\ (slash ∉ w) /\ match rest with [] => True | c :: _ => c = slash end.
Proof.
  induction src as [|c src IH]; cbn [component]; [split; [done|]; split; [apply not_elem_of_nil|done]|].
  destruct (Z.eqb_spec c slash) as [->|Hc]; [split; [done|]; split; [apply not_elem_of_nil|done]|].
  destruct (component src) as [w rest]. destruct IH as (-> & Hw & Hr). split; [done|]. split; [|done].
  rewrite elem_of_cons. intros [?|?]; [by apply Hc|done].
Qed.

Lemma pushes_ok src : forall out, zlen out + zlen src <= PATH_MAX -> pushes out src = Some (out ++ src).
Proof.
  induction src as [|c src IH]; intros out H; cbn [pushes]; [by rewrite app_nil_r|]. cbn [length] in H. unfold push.
  destruct (Z.ltb_spec (zlen out) PATH_MAX); [|lia]. cbn [mbind option_bind]. rewrite IH by (rewrite length_app; cbn [length]; lia).
  by rewrite <- app_assoc.
Qed.

Lemma zget_at {A} (l1 : list A) x l2 i : i = zlen l1 -> zget (l1 ++ x :: l2) i = Some x.
Proof. intros ->. rewrite zget_lookup, lookup_app_r, Nat.sub_diag by lia. done. Qed.

Lemma back_spec a b d : forall fuel, slash ∉ b -> (length b < fuel)%nat ->
  back fuel (a ++ slash :: b ++ d) (zlen a + zlen b) = Some (zlen a).
Proof.
  revert d. induction b as [|x b IH] using rev_ind; intros d fuel Hb Hf; destruct fuel as [|fuel]; cbn [length] in Hf; try lia.
  - cbn [back app length Z.of_nat]. rewrite zget_at by (cbn [length]; lia). cbn [mbind option_bind]. rewrite Z.eqb_refl. f_equal. cbn [length]. lia.
  - rewrite length_app in Hf. cbn [length] in Hf. rewrite elem_of_app, list_elem_of_singleton in Hb. cbn [back]. rewrite <- (app_assoc b).
    replace (a ++ slash :: b ++ [x] ++ d) with ((a ++ slash :: b) ++ x :: d) at 1 by (by rewrite <- app_assoc).
    rewrite zget_at by (rewrite !length_app; cbn [length]; lia). cbn [mbind option_bind].
    destruct (Z.eqb_spec x slash) as [->|]; [tauto|]. replace (zlen a + zlen (b ++ [x]) - 1) with (zlen a + zlen b) by (rewrite length_app; cbn [length]; lia).
    apply IH; [tauto|lia].
Qed.

Lemma spell_app s c : spell (s ++ [c]) = spell s ++ slash :: c.
Proof. unfold spell. rewrite map_app, concat_app. cbn [map concat]. by rewrite app_nil_r. Qed.

(** [..] goes to the directory above. *)
Lemma up_spec s out :
  Forall proper s -> spells s out -> exists out', conv_component dotdot out = Some out' /\ spells (removelast s) out' /\ zlen out' <= zlen out.
Proof.
  intros Hs Ho. unfold conv_component. rewrite bool_decide_eq_true_2 by done. destruct s as [|c s _] using rev_ind.
  - destruct Ho as [->|[? _]]; [|done]. exists [slash]. split; [done|]. split; [by left|done].
  - rewrite removelast_last. apply Forall_app in Hs as [Hs [[Hc Hw] _]%Forall_cons].
    assert (Hb : exists b d, out = spell s ++ slash :: b ++ d /\ (slash ∉ b) /\ zlen out - 2 = zlen (spell s) + zlen b).
    { destruct Ho as [->|[_ ->]]; rewrite spell_app.
      - exists c, [slash]. rewrite <- app_assoc. split; [done|]. split; [done|]. rewrite ?length_app; cbn [length]; rewrite ?length_app; cbn [length]; lia.
      - destruct c as [|x b _] using rev_ind; [done|]. exists b, [x]. rewrite elem_of_app in Hw. split; [done|]. split; [tauto|].
        rewrite ?length_app; cbn [length]; rewrite ?length_app; cbn [length]; lia. }
    destruct Hb as (b & d & -> & Hbs & Hl). destruct (Z.leb_spec 2 (zlen (spell s ++ slash :: b ++ d))) as [H2|H2]; [|rewrite length_app in *; cbn [length] in *; lia].
    rewrite Hl, back_spec by first [done|rewrite !length_app; cbn [length]; rewrite length_app; lia]. cbn [mbind option_bind].
    eexists. split; [done|]. destruct (Z.eqb_spec (zlen (spell s)) 0) as [E|E].
    + assert (Es : spell s = []) by (destruct (spell s); [done|cbn [length] in E; lia]). assert (s = []) as -> by (by destruct s).
      rewrite E. cbn [spell map concat app]. split; [by left|]. rewrite length_take. lia.
    + rewrite Nat2Z.id, take_app_length. split; [|rewrite length_app; lia]. right. split; [|done]. by intros ->.
Qed.

(** The slash behind a component. *)
Lemma slash_spec s out :
  Forall proper s -> spells s out -> zlen out < PATH_MAX ->
  (match last out with Some c => if negb (c =? slash) then push out slash else Some out | None => Some out end) = Some (spell s ++ [slash]).
Proof.
  intros Hs [->|[Hne ->]] Hl.
  - rewrite last_snoc. done.
  - destruct s as [|c s _] using rev_ind; [done|]. apply Forall_app in Hs as [_ [[Hc Hw] _]%Forall_cons].
    destruct c as [|x b _] using rev_ind; [done|]. rewrite spell_app in *.
    assert (El : last (spell s ++ slash :: b ++ [x]) = Some x) by (rewrite last_app, last_cons, last_snoc; done).
    rewrite El. destruct (Z.eqb_spec x slash) as [->|_]; [rewrite elem_of_app, list_elem_of_singleton in Hw; tauto|]. cbn [negb].
    unfold push. by destruct (Z.ltb_spec (zlen (spell s ++ slash :: b ++ [x])) PATH_MAX); [|lia].
Qed.

(** The output ends with a slash, or the next component is one of the two that need none. *)
Definition ready (s : list (list Z)) (out src : list Z) : Prop :=
  out = spell s ++ [slash] \/ src = [] \/ (component src).1 = dot \/ (component src).1 = dotdot.

Lemma component_step s out w :
  Forall proper s -> spells s out -> slash ∉ w -> (out = spell s ++ [slash] \/ w = dot \/ w = dotdot) ->
  zlen out + zlen w < PATH_MAX ->
  exists s' out', conv_component w out = Some out' /\ Forall proper s' /\ spells s' out' /\ zlen out' <= zlen out + zlen w /\
    s' = foldl resolve s (keep w).
Proof.
  intros Hs Ho Hw Hr Hl. destruct (decide (w = dotdot)) as [->|Hdd].
  - destruct (up_spec s out Hs Ho) as (out' & E & Ho' & Hl'). exists (removelast s), out'. split; [done|]. split.
    + destruct s as [|c s _] using rev_ind; [done|]. rewrite removelast_last. by apply Forall_app in Hs as [? _].
    + split; [done|]. split; [lia|]. done.
  - destruct (decide (w = dot)) as [->|Hd].
    + exists s, out. do 3 (split; [done|]). split; [cbn [length]; lia|done].
    + destruct Hr as [->|[?|?]]; [|done|done]. unfold conv_component. rewrite !bool_decide_eq_false_2 by done.
      rewrite pushes_ok by lia. destruct w as [|c w].
      * exists s, (spell s ++ [slash]). rewrite app_nil_r. split; [done|]. split; [done|]. split; [by left|]. split; [lia|done].
      * exists (s ++ [c :: w]), (spell s ++ slash :: c :: w). rewrite <- app_assoc. split; [done|].
        split; [apply Forall_app; split; [done|]; constructor; [by split|constructor]|].
        split; [right; split; [by destruct s|by rewrite spell_app]|]. split; [rewrite !length_app; cbn [length]; lia|].
        cbn [keep foldl]. unfold resolve. by rewrite !bool_decide_eq_false_2.
Qed.

Lemma conv_loop_next fuel src out : src <> [] ->
  conv_loop (S fuel) src out =
    (let '(comp, rest) := component src in
     out ← conv_component comp out;
     match rest with
     | [] => Some out
     | _ :: src' => out ← (match last out with Some c => if negb (c =? slash) then push out slash else Some out | None => Some out end);
                    conv_loop fuel src' out
     end).
Proof. by destruct src. Qed.

Lemma conv_loop_spec fuel : forall src s out,
  Forall proper s -> spells s out -> ready s out src -> zlen out + zlen src < PATH_MAX -> (length src <= fuel)%nat ->
  exists out', conv_loop fuel src out = Some out' /\ Forall proper (foldl resolve s (names src)) /\
    spells (foldl resolve s (names src)) out' /\ zlen out' < PATH_MAX.
Proof.
  induction fuel as [|fuel IH]; intros src s out Hs Ho Hr Hl Hf; destruct src as [|c0 src0]; cbn [length] in Hf; try lia.
  { exists out. cbn [length] in Hl. cbn. split; [done|]. split; [done|]. split; [done|lia]. }
  { exists out. cbn [length] in Hl. cbn. split; [done|]. split; [done|]. split; [done|lia]. }
  rewrite conv_loop_next by done. remember (c0 :: src0) as src eqn:E0. assert (Hsl : (length src <= S fuel)%nat) by (rewrite E0; cbn [length]; lia).
  assert (Hne : src <> []) by (by rewrite E0). clear E0 Hf. pose proof (component_spec src) as Hc. unfold ready in Hr.
  destruct (component src) as [w rest]. cbn [fst] in Hr. destruct Hc as (Esrc & Hw & Hrest).
  assert (Hr' : out = spell s ++ [slash] \/ w = dot \/ w = dotdot) by (destruct Hr as [?|[?|[?|?]]]; tauto || done).
  assert (Hlen : zlen src = zlen w + zlen rest) by (rewrite Esrc, length_app; lia).
  destruct (component_step s out w Hs Ho Hw Hr' ltac:(lia)) as (s' & out' & -> & Hs' & Ho' & Hl' & Es'). cbn [mbind option_bind].
  destruct rest as [|x src']; [|subst x].
  - exists out'. rewrite app_nil_r in Esrc. rewrite Esrc. unfold names. rewrite split_end by done. cbn [app]. rewrite <- Es'.
    do 3 (split; [done|]). lia.
  - cbn [length] in Hlen. rewrite (slash_spec s' out' Hs' Ho') by lia. cbn [mbind option_bind].
    assert (Hz : zlen (spell s' ++ [slash]) <= zlen out' + 1) by (destruct Ho' as [->|[_ ->]]; rewrite ?length_app; cbn [length]; lia).
    destruct (IH src' s' (spell s' ++ [slash])) as (out2 & E2 & P2 & S2 & L2); [done|by left|by left|lia| |].
    { assert (length src = length w + S (length src'))%nat by (rewrite Esrc, length_app; done). lia. }
    exists out2. rewrite Esrc. unfold names. rewrite split_word by done. cbn [app]. rewrite foldl_app, <- Es'. done.
Qed.

(** The first name of the path does not hide a dot that is neither [.] nor [..]. *)
Definition plain_start (path : list Z) : Prop :=
  match path with
  | c :: _ => c = 46 -> (component path).1 = dot \/ (component path).1 = dotdot
  | [] => True
  end.

Lemma path_conv_spec s wd path :
  Forall proper s -> spells s wd -> zlen wd <= 1 \/ wd = spell s -> zlen wd + zlen path + 1 < PATH_MAX ->
  absolute path = true \/ plain_start path ->
  exists full, path_conv wd path = Some (0, full) /\
    spells (foldl resolve (if absolute path then [] else s) (names path)) full /\
    Forall proper (foldl resolve (if absolute path then [] else s) (names path)).
Proof.
  intros Hs Hwd Hsp Hlen Hpl. unfold path_conv. rewrite take_ge by lia.
  destruct (Z.leb_spec PATH_MAX (zlen path)); [lia|]. destruct (Z.leb_spec PATH_MAX (zlen wd + zlen path)); [lia|].
  assert (Fin : forall s0 src out, Forall proper s0 -> spells s0 out -> ready s0 out src -> zlen out + zlen src < PATH_MAX ->
    names src = names path -> exists full, (out ← conv_loop (length src) src out; _ ← push out 0; Some (0, out)) = Some (0, full) /\
      spells (foldl resolve s0 (names path)) full /\ Forall proper (foldl resolve s0 (names path))).
  { intros s0 src out H1 H2 H3 H4 <-. destruct (conv_loop_spec (length src) src s0 out H1 H2 H3 H4 ltac:(lia)) as (full & -> & P & S & L).
    cbn [mbind option_bind]. unfold push. destruct (Z.ltb_spec (zlen full) PATH_MAX); [|lia]. cbn [mbind option_bind]. by exists full. }
  assert (Hwd1 : zlen wd = 1 -> wd = spell s ++ [slash]).
  { intros E. destruct Hwd as [->|[Hne ->]]; [done|]. destruct s as [|c s]; [done|]. apply Forall_cons in Hs as [[Hc _] _].
    unfold spell in E. cbn [map concat] in E. rewrite length_app in E. destruct c; [done|]. cbn [length] in E. lia. }
  assert (Slash : 1 < zlen wd -> push wd slash = Some (spell s ++ [slash])).
  { intros H1. destruct Hsp as [?| ->]; [lia|]. unfold push. by destruct (Z.ltb_spec (zlen (spell s)) PATH_MAX); [|lia]. }
  assert (Hw1 : 1 <= zlen wd). { destruct Hwd as [->|[Hne ->]]; [rewrite length_app; cbn [length]; lia|]. destruct s; [done|]. unfold spell. cbn [map concat app length]. lia. }
  assert (Hz : zlen (spell s ++ [slash]) <= zlen wd + 1) by (destruct Hwd as [->|[_ ->]]; rewrite ?length_app; cbn [length]; lia).
  destruct path as [|c path'].
  - cbn [absolute]. destruct (Z.ltb_spec 1 (zlen wd)).
    + rewrite Slash by done. cbn [mbind option_bind]. apply (Fin s [] _); [done|by left|by left|cbn [length]; lia|done].
    + cbn [mbind option_bind]. rewrite Hwd1 by lia. apply (Fin s [] _); [done|by left|by left|cbn [length]; lia|done].
  - cbn [absolute] in *. destruct (Z.eqb_spec c slash) as [->|Hc].
    + cbn [push length Z.ltb Z.compare mbind option_bind]. unfold push. cbn [length]. cbn [app mbind option_bind].
      apply (Fin [] path' [slash]); [constructor|by left|by left|cbn [length] in *; lia|done].
    + destruct Hpl as [?|Hpl]; [done|]. destruct (Z.ltb_spec 1 (zlen wd)) as [H1|H1].
      * destruct (Z.eqb_spec c 46) as [->|Hd]; cbn [andb negb].
        -- cbn [mbind option_bind]. apply (Fin s _ wd); [done|done| |lia|done]. right. right. by apply Hpl.
        -- rewrite Slash by done. cbn [mbind option_bind]. apply (Fin s _ _); [done|by left|by left|lia|done].
      * cbn [andb mbind option_bind]. rewrite Hwd1 by lia. apply (Fin s _ _); [done|by left|by left|lia|done].
Qed.

(** The path of the directory that the names lead to: what a dentry and the working directory keep. *)
Definition canonical (s : list (list Z)) : list Z := match s with [] => [slash] | _ => spell s end.

Lemma canonical_spells s : spells s (canonical s).
Proof. destruct s; [by left|by right]. Qed.

Lemma spells_absolute s out : spells s out -> absolute out = true.
Proof. intros [->|[Hne ->]]; by destruct s. Qed.

(** For a working directory, given by its names, and a path that fit together into the buffer,
    [path_conv] returns an absolute path of the directory that the path leads to: the names of the
    working directory, or none for an absolute path, with every name of the path appended, [.] and
    empty names left out and [..] taking the last one away, at the root nothing. *)
Lemma path_conv_correct s path :
  Forall proper s -> zlen (canonical s) + zlen path + 1 < PATH_MAX -> absolute path = true \/ plain_start path ->
  exists full, path_conv (canonical s) path = Some (0, full) /\ absolute full = true /\
    names full = foldl resolve (if absolute path then [] else s) (names path).
Proof.
  intros Hs Hl Hp. destruct (path_conv_spec s (canonical s) path) as (full & E & S & P); [done|apply canonical_spells| |done|done|].
  { destruct s; [by left|by right]. }
  exists full. split; [done|]. split; [by eapply spells_absolute|by apply names_spells].
Qed.

(** No slash is put in front of a path that starts with a dot: from [/a] the path [.b] gives [/a.b]. *)
Theorem hidden_file_glued : path_conv [47; 97] [46; 98] = Some (0, [47; 97; 46; 98]).
Proof. reflexivity. Qed.

(** The length check forgets the slash between the two: a path that just passes it is terminated
    behind the end of the buffer. *)
Theorem path_conv_overflows :
  path_conv [47; 97] (repeat 98 (Z.to_nat (PATH_MAX - 3))) = None /\
  zlen [47; 97] + zlen (repeat 98 (Z.to_nat (PATH_MAX - 3))) < PATH_MAX.
Proof. by vm_compute. Qed.

(** ** The mount point of a path *)

Lemma match_len_prefix r : forall p len, match_len (r ++ p) r len = (p, [], len + zlen r).
Proof.
  induction r as [|c r IH]; intros p len; cbn [app match_len length].
  - change (Z.of_nat 0) with 0. rewrite Z.add_0_r. by destruct p.
  - rewrite Z.eqb_refl, IH. f_equal. lia.
Qed.

Lemma match_len_inv r : forall path len p l, match_len path r len = (p, [], l) -> path = r ++ p.
Proof.
  induction r as [|c r IH]; intros path len p l H; destruct path as [|d path]; cbn [match_len] in H; try (by simplify_eq).
  destruct (Z.eqb_spec d c) as [->|]; [|by simplify_eq]. apply IH in H. by rewrite H.
Qed.

Lemma spell_concat s t : spell (s ++ t) = spell s ++ spell t.
Proof. unfold spell. by rewrite map_app, concat_app. Qed.

Lemma names_slash t : names (slash :: t) = names t.
Proof. done. Qed.

(** The path continues behind the names of a mount point with a slash, if at all. *)
Lemma spells_prefix ms ns path : Forall proper ms -> Forall proper ns -> spells ns path -> ms <> [] ->
  ms `prefix_of` ns <-> exists p, path = spell ms ++ p /\ match p with [] => True | c :: _ => c = slash end.
Proof.
  intros Pm Hns Hp Hms. split.
  - intros [k ->]. destruct Hp as [->|[_ ->]]; rewrite spell_concat, <- ?app_assoc; eexists; (split; [done|]); by destruct k.
  - intros (p & E & Hb). exists (names p). rewrite <- (names_spells ns path Hns Hp), E.
    destruct p as [|c p]; [|subst c; by rewrite names_spell]. rewrite !app_nil_r. apply names_spells; [done|by right].
Qed.

Lemma spell_pos s : s <> [] -> Forall proper s -> 2 <= zlen (spell s).
Proof.
  destruct s as [|[|x c] s]; [done|by intros _ [[? _] _]%Forall_cons|]. intros _ _. unfold spell. cbn [map concat app length]. lia.
Qed.

Lemma count_match_spec ms ns path : Forall proper ms -> Forall proper ns -> spells ns path ->
  count_match path (canonical ms) = if bool_decide (ms `prefix_of` ns) then zlen (canonical ms) else 0.
Proof.
  intros Pm Hns Hp. unfold count_match. destruct (decide (ms = [])) as [->|Hms].
  - rewrite (bool_decide_eq_true_2 ([] `prefix_of` ns)) by apply prefix_nil. apply spells_absolute in Hp. destruct path as [|c path]; [done|]. cbn [absolute] in Hp.
    apply Z.eqb_eq in Hp as ->. cbn [canonical]. change (slash :: path) with ([slash] ++ path) at 1. by rewrite (match_len_prefix [slash] path 0).
  - assert (canonical ms = spell ms) as -> by (by destruct ms). pose proof (spell_pos ms Hms Pm) as H2.
    destruct (match_len path (spell ms) 0) as [[p r] len] eqn:E. pose proof (spells_prefix ms ns path Pm Hns Hp Hms) as Hpre.
    destruct (bool_decide_reflect (ms `prefix_of` ns)) as [Hd|Hd].
    + apply Hpre in Hd as (p' & -> & Hb). rewrite match_len_prefix in E. injection E as <- <- <-.
      destruct (Z.eqb_spec (0 + zlen (spell ms)) 1); [lia|]. cbn [andb]. destruct p' as [|c p']; [done|]. subst c. done.
    + destruct r; [|done]. apply match_len_inv in E as Epath. rewrite Epath, match_len_prefix in E. injection E as El.
      destruct (Z.eqb_spec len 1); [lia|]. cbn [andb]. destruct p as [|c p].
      * exfalso. apply Hd, Hpre. by exists [].
      * destruct (Z.eqb_spec c slash) as [->|]; [|done]. exfalso. apply Hd, Hpre. by exists (slash :: p).
Qed.

Lemma names_behind ms ns path : Forall proper ms -> Forall proper ns -> spells ns path -> ms `prefix_of` ns ->
  names path = ms ++ names (drop (Z.to_nat (zlen (canonical ms))) path).
Proof.
  intros Pm Hns Hp Hpre. rewrite Nat2Z.id. destruct (decide (ms = [])) as [->|Hms].
  - apply spells_absolute in Hp. destruct path as [|c path]; [done|]. cbn [absolute] in Hp. by apply Z.eqb_eq in Hp as ->.
  - assert (canonical ms = spell ms) as -> by (by destruct ms). apply (spells_prefix ms ns path Pm Hns Hp Hms) in Hpre as (p & -> & Hb).
    rewrite drop_app_length. destruct p as [|c p]; [|subst c; by rewrite names_spell]. rewrite !app_nil_r. apply names_spells; [done|by right].
Qed.

(** The loop keeps the first of the longest matches. *)
Lemma best_mount_spec path mounts : forall max m, 0 <= max ->
  let '(max', m') := best_mount path mounts max m in
  max <= max' /\ (forall x, x ∈ mounts -> count_match path x.2 <= max') /\
  (max' = max /\ m' = m \/ exists x, x ∈ mounts /\ m' = Some x.1 /\ max' = count_match path x.2 /\ max < max').
Proof.
  induction mounts as [|[a r] mounts IH]; intros max m H0; cbn [best_mount].
  - split; [lia|]. split; [by intros x Hx%elem_of_nil|by left].
  - destruct (Z.ltb_spec max (count_match path r)) as [Hlt|Hge].
    + specialize (IH (count_match path r) (Some a) ltac:(lia)). destruct (best_mount _ _ _ _) as [max' m']. destruct IH as (H1 & H2 & H3).
      split; [lia|]. split; [intros x [->|Hx]%elem_of_cons; [done|by apply H2]|]. right. destruct H3 as [[-> ->]|(x & Hx & -> & -> & ?)].
      * exists (a, r). split; [apply elem_of_cons; by left|]. split; [done|]. split; [done|lia].
      * exists x. split; [apply elem_of_cons; by right|]. split; [done|]. split; [done|lia].
    + specialize (IH max m H0). destruct (best_mount _ _ _ _) as [max' m']. destruct IH as (H1 & H2 & H3).
      split; [lia|]. split; [intros x [->|Hx]%elem_of_cons; [cbn [snd]; lia|by apply H2]|]. destruct H3 as [?|(x & Hx & ? & ?)]; [by left|].
      right. exists x. split; [apply elem_of_cons; by right|done].
Qed.

(** The mount points by the names of their paths. *)
Definition mounted (mounts : list (Z * list (list Z))) : list (Z * list Z) := map (fun x => (x.1, canonical x.2)) mounts.

Lemma longer_prefix s t ns : Forall proper s -> Forall proper t -> s `prefix_of` ns -> t `prefix_of` ns ->
  zlen (canonical s) <= zlen (canonical t) -> s `prefix_of` t.
Proof.
  intros Ps Pt Hs Ht Hl. destruct (prefix_weak_total s t ns Hs Ht) as [?|[k ->]]; [done|].
  destruct k as [|c k]; [by rewrite app_nil_r|]. exfalso. apply Forall_app in Ps as [_ Pk].
  assert (H2 := spell_pos (c :: k) ltac:(done) Pk). destruct t as [|d t]; cbn [app canonical length] in Hl.
  - lia.
  - change (d :: t ++ c :: k) with ((d :: t) ++ c :: k) in Hl. rewrite spell_concat, length_app in Hl. lia.
Qed.

(** A path is served by the mount point whose names are the longest beginning of the path's
    names, and the file system is asked for the remaining names; there is no such mount point only
    when no mount point's names begin the path's. *)
Lemma findroot_correct ns path mounts :
  Forall proper ns -> spells ns path -> Forall (fun x => Forall proper x.2) mounts ->
  match vfs_findroot path (mounted mounts) with
  | Some (m, root) => exists ms, (m, ms) ∈ mounts /\ ns = ms ++ names root /\
      forall m' ms', (m', ms') ∈ mounts -> ms' `prefix_of` ns -> ms' `prefix_of` ms
  | None => forall m ms, (m, ms) ∈ mounts -> ~ ms `prefix_of` ns
  end.
Proof.
  intros Hns Hp Hm. unfold vfs_findroot. pose proof (best_mount_spec path (mounted mounts) 0 None ltac:(lia)) as B.
  destruct (best_mount _ _ _ _) as [max m]. destruct B as (_ & Hmax & Hbest).
  assert (Hc : forall m' ms', (m', ms') ∈ mounts -> ms' `prefix_of` ns -> zlen (canonical ms') <= max /\ Forall proper ms').
  { intros m' ms' Hin Hpre. rewrite Forall_forall in Hm. specialize (Hm _ Hin). cbn [snd] in Hm. split; [|done].
    specialize (Hmax (m', canonical ms')). cbn [snd] in Hmax. rewrite (count_match_spec ms' ns path), bool_decide_eq_true_2 in Hmax by done.
    apply Hmax. unfold mounted. apply list_elem_of_fmap. by exists (m', ms'). }
  destruct Hbest as [[-> ->]|(x & Hx & -> & -> & Hpos)]; cbn [mbind option_bind].
  - intros m ms Hin Hpre. destruct (Hc _ _ Hin Hpre) as [Hl P]. destruct ms as [|c ms]; [by cbn in Hl|].
    pose proof (spell_pos (c :: ms) ltac:(done) P). cbn [canonical] in Hl. lia.
  - unfold mounted in Hx. apply list_elem_of_fmap in Hx as ([m ms] & -> & Hin). cbn [fst snd] in *.
    assert (P : Forall proper ms) by (rewrite Forall_forall in Hm; by specialize (Hm _ Hin)).
    rewrite (count_match_spec ms ns path) in * by done. case_bool_decide as Hpre; [|lia].
    exists ms. split; [done|]. split.
    + rewrite <- (names_spells ns path Hns Hp) at 1. rewrite (names_behind ms ns path P Hns Hp Hpre). f_equal.
      destruct (drop _ path) as [|c t]; [done|]. by destruct (Z.eqb_spec c slash) as [->|].
    + intros m' ms' Hin' Hpre'. destruct (Hc _ _ Hin' Hpre') as [Hl P']. by eapply longer_prefix.
Qed.



(** [mount] keeps the path as it is given: a file system mounted at [/a/] is never found. *)
Theorem mounted_with_slash_unreachable : vfs_findroot [47; 97; 47; 98] [(10, [47]); (20, [47; 97; 47])] = Some (10, [97; 47; 98]).
Proof. reflexivity. Qed.

End Path.
