(* ===== verification/Dentry.v ===== *)
(** * Dentry: the cache of directory entries

    Models [lib/vfscore/dentry.c] with [vn_add_name] and [vn_del_name] of [vnode.c]: the hash table
    of dentries by mount point and path, their reference counts, the tree of parents and children
    and the references that dentries hold to vnodes ([Vnode]).  A dentry is freed with its last
    reference, and gives its references to its parent and its vnode back.  [None] is a use of a
    freed object, a failed assertion, the overflow of a counter, or the removal of an entry from a
    list that it is not on.  The mutexes are not modelled. *)
From Stdlib Require Import ZArith Lia Bool.
From stdpp Require Import gmap relations.
From S2P Require Import Prelude Vnode Path.
Open Scope Z_scope.

Module Dentry.
Import Vnode.
Import Path.

Definition DENTRY_BUCKETS : Z := 32.
Definition ENOMEM : Z := 12.

Record dentry := MkDentry {
  d_refcnt : Z; d_path : list Z; d_vnode : Z; d_mount : Z; d_parent : Z; d_child_list : list Z
}.

(** [dentry_hash_table] and [fake], the dentries by their address, and the vnodes. *)
Record dtab := DTab {
  dentries : gmap Z dentry; dentry_hash_table : list (list Z); fake : list Z; vt : vtab
}.

Definition set_dentry (st : dtab) (p : Z) (d : dentry) : dtab :=
  DTab (<[p := d]> (dentries st)) (dentry_hash_table st) (fake st) (vt st).
Definition set_vt (st : dtab) (v : vtab) : dtab := DTab (dentries st) (dentry_hash_table st) (fake st) v.
Definition with_refcnt (d : dentry) (n : Z) : dentry :=
  MkDentry n (d_path d) (d_vnode d) (d_mount d) (d_parent d) (d_child_list d).
Definition with_children (d : dentry) (l : list Z) : dentry :=
  MkDentry (d_refcnt d) (d_path d) (d_vnode d) (d_mount d) (d_parent d) l.
Definition with_place (d : dentry) (path : list Z) (parent : Z) : dentry :=
  MkDentry (d_refcnt d) path (d_vnode d) (d_mount d) parent (d_child_list d).

(** A [char] is signed. *)
Definition schar (c : Z) : Z := if c <? 128 then c else c - 256.
Definition hash_path (path : list Z) : Z :=
  foldl (fun val c => wrap 32 (wrap 32 (wrap 32 (Z.shiftl val 5) + val) + schar c)) 0 path.
Definition dentry_hash (mp : Z) (path : list Z) : Z :=
  Z.land (Z.lxor (hash_path path) mp) (DENTRY_BUCKETS - 1).

(** [uk_hlist_del] of [d_link] and [uk_hlist_add_head]. *)
Definition on_list (p : Z) (l : list Z) : bool := bool_decide (p ∈ l).
Definition others (p : Z) (l : list Z) : list Z := filter (fun x => x <> p) l.
Definition hlist_del (p : Z) (st : dtab) : option dtab :=
  if existsb (on_list p) (fake st :: dentry_hash_table st)
  then Some (DTab (dentries st) (map (others p) (dentry_hash_table st)) (others p (fake st)) (vt st))
  else None.
Definition hlist_add_head (p b : Z) (st : dtab) : option dtab :=
  l ← zget (dentry_hash_table st) b;
  table ← zset (dentry_hash_table st) b (p :: l);
  Some (DTab (dentries st) table (fake st) (vt st)).

Definition vn_add_name (vp dp : Z) (st : vtab) : option vtab :=
  v ← vnodes st !! vp;
  Some (set_vnode st vp (MkVnode (v_ino v) (v_mount v) (v_refcnt v) (v_type v) (v_mode v) (v_size v) (v_data v) (dp :: v_names v))).
Definition vn_del_name (vp dp : Z) (st : vtab) : option vtab :=
  v ← vnodes st !! vp;
  names ← list_del dp (v_names v);
  Some (set_vnode st vp (MkVnode (v_ino v) (v_mount v) (v_refcnt v) (v_type v) (v_mode v) (v_size v) (v_data v) names)).

(** [d_refcnt] is an [int]. *)
Definition inc_refcnt (p : Z) (st : dtab) : option dtab :=
  d ← dentries st !! p;
  if d_refcnt d <? INT_MAX then Some (set_dentry st p (with_refcnt d (d_refcnt d + 1))) else None.

Definition dref (p : Z) (st : dtab) : option dtab :=
  d ← dentries st !! p;
  if 0 <? d_refcnt d then inc_refcnt p st else None.

(** [d_child_link] into and out of the list of the parent. *)
Definition add_child (parent p : Z) (st : dtab) : option dtab :=
  d ← dentries st !! parent;
  Some (set_dentry st parent (with_children d (p :: d_child_list d))).
Definition del_child (parent p : Z) (st : dtab) : option dtab :=
  d ← dentries st !! parent;
  l ← list_del p (d_child_list d);
  Some (set_dentry st parent (with_children d l)).

(** [dp] is what [calloc] returns, 0 when there is no memory, [dup] whether [strdup] has some. *)
Definition dentry_alloc (dp : Z) (dup : bool) (parent_dp vp : Z) (path : list Z) (st : dtab) : option (Z * dtab) :=
  v ← vnodes (vt st) !! vp;
  if dp =? 0 then Some (0, st)
  else if negb dup then Some (0, st)
  else
    vt1 ← vref vp (vt st);
    let d := MkDentry 1 path vp (v_mount v) parent_dp [] in
    let st := set_dentry (set_vt st vt1) dp d in
    st ← (if parent_dp =? 0 then Some st else st ← dref parent_dp st; add_child parent_dp dp st);
    vt2 ← vn_add_name vp dp (vt st);
    st ← hlist_add_head dp (dentry_hash (v_mount v) path) (set_vt st vt2);
    Some (dp, st).

(** [strncmp] of at most [PATH_MAX] characters. *)
Definition same_path (a b : list Z) : bool :=
  bool_decide (take (Z.to_nat PATH_MAX) a = take (Z.to_nat PATH_MAX) b).

Fixpoint find_dentry (ds : gmap Z dentry) (mp : Z) (path : list Z) (l : list Z) : option (option Z) :=
  match l with
  | [] => Some None
  | p :: l' =>
      d ← ds !! p;
      if (d_mount d =? mp) && same_path (d_path d) path then Some (Some p) else find_dentry ds mp path l'
  end.

Definition dentry_lookup (mp : Z) (path : list Z) (st : dtab) : option (Z * dtab) :=
  l ← zget (dentry_hash_table st) (dentry_hash mp path);
  r ← find_dentry (dentries st) mp path l;
  match r with
  | Some p => st ← inc_refcnt p st; Some (p, st)
  | None => Some (0, st)
  end.

Definition children_remove (l : list Z) (st : dtab) : option dtab :=
  foldl (fun st entry =>
    st ← st;
    d ← dentries st !! entry;
    if 0 <? d_refcnt d then hlist_del entry st else None) (Some st) l.
Definition dentry_children_remove (p : Z) (st : dtab) : option dtab :=
  d ← dentries st !! p;
  children_remove (d_child_list d) st.

Definition dentry_remove (p : Z) (st : dtab) : option dtab :=
  _ ← dentries st !! p;
  st ← hlist_del p st;
  Some (DTab (dentries st) (dentry_hash_table st) (p :: fake st) (vt st)).

(** Every parent is released in turn: the fuel is the length of the chain. *)
Fixpoint drele_loop (fuel : nat) (p : Z) (st : dtab) : option dtab :=
  match fuel with
  | O => None
  | S fuel' =>
      d ← dentries st !! p;
      if negb (0 <? d_refcnt d) then None
      else
        let st := set_dentry st p (with_refcnt d (d_refcnt d - 1)) in
        if negb (d_refcnt d - 1 =? 0) then Some st
        else
          st ← hlist_del p st;
          vt1 ← vn_del_name (d_vnode d) p (vt st);
          let st := set_vt st vt1 in
          st ← (if d_parent d =? 0 then Some st
                else st ← del_child (d_parent d) p st; drele_loop fuel' (d_parent d) st);
          vt2 ← vrele (d_vnode d) (vt st);
          Some (DTab (delete p (dentries st)) (dentry_hash_table st) (fake st) vt2)
  end.
Definition drele (p : Z) (st : dtab) : option dtab := drele_loop (S (size (dentries st))) p st.

(** [new_path] is whether [strdup] has memory. *)
Definition dentry_move (new_path : bool) (dp parent_dp : Z) (path : list Z) (st : dtab) : option (Z * dtab) :=
  d ← dentries st !! dp;
  if negb new_path then Some (ENOMEM, st)
  else
    let old_pdp := d_parent d in
    st ← (if old_pdp =? 0 then Some st else del_child old_pdp dp st);
    st ← (if parent_dp =? 0 then Some st else st ← dref parent_dp st; add_child parent_dp dp st);
    st ← dentry_children_remove dp st;
    st ← hlist_del dp st;
    d ← dentries st !! dp;
    st ← hlist_add_head dp (dentry_hash (d_mount d) path) (set_dentry st dp (with_place d path parent_dp));
    st ← (if old_pdp =? 0 then Some st else drele old_pdp st);
    Some (0, st).

Definition dentry_init (v : vtab) : dtab := DTab ∅ (replicate 32 []) [] v.

(** ** The hash table

    What places a dentry in the cache: its mount point, its path, and its vnode. *)

Abbreviation core := (list Z * Z * Z)%type.
Definition core_of (d : dentry) : core := (d_path d, d_mount d, d_vnode d).
Definition bucket (c : core) : Z := dentry_hash c.1.2 c.1.1.
Definition cores (st : dtab) : gmap Z core := core_of <$> dentries st.

Record table_ok (cs : gmap Z core) (table : list (list Z)) (fk : list Z) : Prop := TableOk {
  t_len : zlen table = DENTRY_BUCKETS;
  t_bucket : forall b l, zget table b = Some l ->
    NoDup l /\ forall p, p ∈ l <-> exists c, cs !! p = Some c /\ (p ∉ fk) /\ bucket c = b;
  t_nodup : NoDup fk;
  t_fake : forall p, p ∈ fk -> is_Some (cs !! p);
  t_path : forall p c, cs !! p = Some c -> zlen c.1.1 < PATH_MAX;
  t_uniq : forall p q c e, cs !! p = Some c -> cs !! q = Some e -> p ∉ fk -> q ∉ fk -> c.1 = e.1 -> p = q
}.

Lemma dentry_hash_range mp path : 0 <= dentry_hash mp path < DENTRY_BUCKETS.
Proof.
  unfold dentry_hash, DENTRY_BUCKETS. change (32 - 1) with (2 ^ 5 - 1). rewrite land_mask by lia. apply Z.mod_pos_bound. lia.
Qed.

Lemma bucket_there cs table fk mp path : table_ok cs table fk -> exists l, zget table (dentry_hash mp path) = Some l.
Proof. intros T. apply zget_is_Some. rewrite (t_len _ _ _ T). apply dentry_hash_range. Qed.

Lemma zget_map {A B} (f : A -> B) l b : zget (map f l) b = f <$> zget l b.
Proof. unfold zget. destruct (b <? 0); [done|]. apply list_lookup_fmap. Qed.

Lemma elem_others p q l : q ∈ others p l <-> q <> p /\ q ∈ l.
Proof. unfold others. by rewrite list_elem_of_filter. Qed.

(** Every dentry is on a list. *)
Lemma linked cs table fk p c :
  table_ok cs table fk -> cs !! p = Some c -> existsb (on_list p) (fk :: table) = true.
Proof.
  intros T Hp. apply existsb_exists. destruct (decide (p ∈ fk)) as [Hf|Hf].
  - exists fk. split; [by left|]. by apply bool_decide_eq_true_2.
  - destruct (bucket_there cs table fk c.1.2 c.1.1 T) as [l Hl]. exists l. split.
    + right. apply base.list_elem_of_In. unfold zget in Hl. destruct (_ <? 0); [done|]. apply (list_elem_of_lookup_2 _ _ _ Hl).
    + apply bool_decide_eq_true_2. apply (proj2 (t_bucket _ _ _ T _ _ Hl) p). by exists c.
Qed.

Lemma table_del cs table fk p :
  table_ok cs table fk -> table_ok (delete p cs) (map (others p) table) (others p fk).
Proof.
  intros [L B N F P U]. split.
  - by rewrite length_map.
  - intros b l Hl. rewrite zget_map in Hl. destruct (zget table b) as [k|] eqn:Hk; [|done]. injection Hl as <-.
    destruct (B b k Hk) as [Nk Hb]. split; [by apply NoDup_filter|]. intros q. rewrite elem_others, Hb. split.
    + intros [Hq (c & Hc & Hf & Hbk)]. exists c. rewrite lookup_delete_ne, elem_others by done. tauto.
    + intros (c & [Hq Hc]%lookup_delete_Some & Hf & Hbk). apply not_eq_sym in Hq. rewrite elem_others in Hf. split; [done|]. exists c. tauto.
  - by apply NoDup_filter.
  - intros q [Hq Hf]%elem_others. rewrite lookup_delete_ne by done. by apply F.
  - intros q c [_ Hc]%lookup_delete_Some. by apply (P q c).
  - intros q r c e [Hq Hc]%lookup_delete_Some [Hr He]%lookup_delete_Some Hfq Hfr. apply not_eq_sym in Hq, Hr. rewrite elem_others in Hfq, Hfr. apply (U q r c e); tauto.
Qed.

Lemma table_add cs table fk p c :
  table_ok cs table fk -> cs !! p = None -> zlen c.1.1 < PATH_MAX ->
  (forall q e, cs !! q = Some e -> q ∉ fk -> e.1 <> c.1) ->
  exists l table', zget table (bucket c) = Some l /\ zset table (bucket c) (p :: l) = Some table' /\
    table_ok (<[p := c]> cs) table' fk.
Proof.
  intros T Hp Hc Hn. destruct (bucket_there cs table fk c.1.2 c.1.1 T) as [l Hl]. fold (bucket c) in Hl.
  pose proof (zget_Some_range _ _ _ Hl) as Hr. pose proof (zset_is_Some table (bucket c) (p :: l) Hr) as Hs.
  eexists l, _. split; [done|]. split; [done|]. destruct T as [L B N F P U].
  assert (Hpf : p ∉ fk) by (intros [e He]%F; congruence). split.
  - by rewrite (zset_length _ _ _ _ Hs).
  - intros b k Hk. rewrite (zget_zset _ _ b _ _ Hs) in Hk. case_decide as Eb.
    + injection Hk as <-. destruct (B _ _ Hl) as [Nl Hb]. split.
      { apply NoDup_cons. split; [|done]. intros (e & He & _)%Hb. congruence. }
      intros q. rewrite elem_of_cons, Hb. destruct (decide (q = p)) as [->|Hq].
      * rewrite lookup_insert_eq. split; [|by left]. intros _. exists c. by rewrite Eb.
      * rewrite lookup_insert_ne by done. rewrite Eb. intuition congruence.
    + destruct (B _ _ Hk) as [Nk Hb]. split; [done|]. intros q. rewrite Hb. destruct (decide (q = p)) as [->|Hq].
      * rewrite lookup_insert_eq, Hp. split; intros (e & He & Hx); [done|]. injection He as <-. destruct Hx as [_ Hx]. congruence.
      * by rewrite lookup_insert_ne.
  - done.
  - intros q [e He]%F. rewrite lookup_insert_ne by congruence. by exists e.
  - intros q e He. rewrite lookup_insert_Some in He. destruct He as [[<- <-]|[_ He]]; [done|by apply (P q e)].
  - intros q r e f He Hf Hq Hrr E. rewrite lookup_insert_Some in He, Hf.
    destruct He as [[<- <-]|[Hn1 He]], Hf as [[<- <-]|[Hn2 Hf]]; [done| | |by apply (U q r e f)].
    + by destruct (Hn r f Hf Hrr).
    + by destruct (Hn q e He Hq).
Qed.

Lemma table_hide cs table fk p c :
  table_ok cs table fk -> cs !! p = None -> zlen c.1.1 < PATH_MAX -> table_ok (<[p := c]> cs) table (p :: fk).
Proof.
  intros [L B N F P U] Hp Hc. assert (Hpf : p ∉ fk) by (intros [e He]%F; congruence). split.
  - done.
  - intros b k Hk. destruct (B _ _ Hk) as [Nk Hb]. split; [done|]. intros q. rewrite Hb. destruct (decide (q = p)) as [->|Hq].
    + rewrite Hp. split; intros (e & He & Hx); [done|]. rewrite elem_of_cons in Hx. tauto.
    + rewrite lookup_insert_ne by done. split; intros (e & He & Hf & Hbk); exists e; rewrite not_elem_of_cons in *; tauto.
  - by apply NoDup_cons.
  - intros q [->|[e He]%F]%elem_of_cons; [rewrite lookup_insert_eq; by eexists|]. rewrite lookup_insert_ne by congruence. by exists e.
  - intros q e He. rewrite lookup_insert_Some in He. destruct He as [[<- <-]|[_ He]]; [done|by apply (P q e)].
  - intros q r e f He Hf Hq Hrr E. rewrite not_elem_of_cons in Hq, Hrr. destruct Hq as [Hq Hqf], Hrr as [Hr Hrf].
    rewrite lookup_insert_ne in He, Hf by congruence. by apply (U q r e f).
Qed.

(** ** The vnodes

    [vext v] is the number of references to the vnode [v] that are not held by dentries. *)

Definition uses (cs : gmap Z core) (v : Z) : Z := Z.of_nat (size (filter (fun kv => kv.2.2 = v) cs)).

Record vnodes_ok (cs : gmap Z core) (vs : vtab) (vext : Z -> Z) : Prop := VnodesOk {
  v_counts : Vnode.inv vs (fun v => vext v + uses cs v);
  v_ext : forall v, 0 <= vext v;
  v_listed : forall v vn, vnodes vs !! v = Some vn ->
    NoDup (v_names vn) /\ forall p, p ∈ v_names vn <-> exists c, cs !! p = Some c /\ c.2 = v
}.

#[export] Instance inv_proper : Proper (eq ==> pointwise_relation Z eq ==> iff) Vnode.inv.
Proof.
  assert (H : forall st e1 e2, pointwise_relation Z eq e1 e2 -> Vnode.inv st e1 -> Vnode.inv st e2).
  { intros st e1 e2 He [L T U R D B]. split; try done.
    - intros p v Hp. rewrite <- He. by apply R.
    - intros p Hp. rewrite <- He. by apply D. }
  intros st ? <- e1 e2 He. split; apply H; [done|]. intros p. by rewrite He.
Qed.

Lemma uses_pos cs v : 0 <= uses cs v.
Proof. unfold uses. lia. Qed.

Lemma uses_insert cs p c v : cs !! p = None -> uses (<[p := c]> cs) v = bump (uses cs) c.2 1 v.
Proof.
  intros Hp. destruct (decide (v = c.2)) as [->|Hv].
  - rewrite bump_eq. unfold uses. rewrite map_filter_insert_True by done. rewrite map_size_insert_None; [by rewrite Nat2Z.inj_succ|]. apply map_lookup_filter_None. by left.
  - rewrite bump_ne by done. unfold uses. rewrite map_filter_insert_False by (cbn; congruence). by rewrite delete_id.
Qed.

Lemma uses_delete cs p c v : cs !! p = Some c -> uses (delete p cs) v = bump (uses cs) c.2 (-1) v.
Proof.
  intros Hp. rewrite <- (insert_delete_id cs p c Hp) at 2. unfold bump.
  assert (E := fun v => uses_insert (delete p cs) p c v (lookup_delete_eq cs p)). unfold bump in E.
  rewrite E. case_decide; lia.
Qed.

Lemma vnode_alive cs vs vext p c : vnodes_ok cs vs vext -> cs !! p = Some c -> exists vn, vnodes vs !! c.2 = Some vn /\ 0 < uses cs c.2.
Proof.
  intros [I E N] Hp. assert (Hu : 0 < uses cs c.2).
  { pose proof (uses_delete cs p c c.2 Hp) as H. rewrite bump_eq in H. pose proof (uses_pos (delete p cs) c.2). lia. }
  destruct (vnodes vs !! c.2) as [vn|] eqn:Hv; [by exists vn|]. pose proof (i_dead _ _ I _ Hv) as H. cbn in H. specialize (E c.2). lia.
Qed.

(** Only the names of a vnode change. *)
Definition with_names (v : vnode) (names : list Z) : vnode :=
  MkVnode (v_ino v) (v_mount v) (v_refcnt v) (v_type v) (v_mode v) (v_size v) (v_data v) names.

Lemma inv_names vs ext v vn names : Vnode.inv vs ext -> vnodes vs !! v = Some vn -> Vnode.inv (set_vnode vs v (with_names vn names)) ext.
Proof. intros I Hv. destruct (i_ref _ _ I v vn Hv) as (_ & Hr & Hx). by apply (inv_set vs ext ext v vn). Qed.

(** The vnodes that are left are the same files as before. *)
Definition vnode_key (v : vnode) : Z * Z * Z * Z := (v_ino v, v_mount v, v_type v, v_data v).
Definition vsame (vs vs' : vtab) : Prop :=
  forall p v', vnodes vs' !! p = Some v' -> exists v, vnodes vs !! p = Some v /\ vnode_key v' = vnode_key v.

Lemma vsame_trans v1 v2 v3 : vsame v1 v2 -> vsame v2 v3 -> vsame v1 v3.
Proof. intros H1 H2 p v Hv. destruct (H2 p v Hv) as (w & Hw & E). destruct (H1 p w Hw) as (x & Hx & E'). exists x. split; [done|]. congruence. Qed.

Lemma vsame_set vs p v w : vnodes vs !! p = Some v -> vnode_key w = vnode_key v -> vsame vs (set_vnode vs p w).
Proof.
  intros Hp E q x Hx. cbn [set_vnode vnodes] in Hx. rewrite lookup_insert_Some in Hx. destruct Hx as [[<- <-]|[_ Hx]]; [by exists v|by exists x].
Qed.

Lemma vnode_name_add cs vs vext p c :
  vnodes_ok cs vs vext -> cs !! p = None -> is_Some (vnodes vs !! c.2) -> vext c.2 + uses cs c.2 < INT_MAX ->
  exists vs1 vs2, vref c.2 vs = Some vs1 /\ vn_add_name c.2 p vs1 = Some vs2 /\ vnodes_ok (<[p := c]> cs) vs2 vext /\ vsame vs vs2.
Proof.
  intros [I E N] Hp [vn Hv] Hm. destruct (i_ref _ _ I _ _ Hv) as (_ & Hr & Hx).
  destruct (hold_vnode vs _ _ _ I Hv Hm) as [Hh I1]. unfold vref. rewrite Hv. cbn [mbind option_bind].
  destruct (Z.ltb_spec 0 (v_refcnt vn)); [|lia]. rewrite Hh. eexists _, _. split; [done|].
  unfold vn_add_name. cbn [set_vnode vnodes]. rewrite lookup_insert_eq. cbn [mbind option_bind]. split; [done|].
  split; [|eapply vsame_trans; [by apply (vsame_set vs c.2 vn (set_refcnt vn (vext c.2 + uses cs c.2 + 1)))|by eapply vsame_set; [apply lookup_insert_eq|]]]. split.
  - eapply inv_proper; [reflexivity| |eapply inv_names; [exact I1|cbn [set_vnode vnodes]; apply lookup_insert_eq]].
    intros v. rewrite uses_insert by done. unfold bump. case_decide; subst; lia.
  - done.
  - intros v vn' Hv'. cbn [set_vnode vnodes] in Hv'. rewrite insert_insert_eq, lookup_insert_Some in Hv'. destruct Hv' as [[<- <-]|[Hne Hv']].
    + cbn [v_names]. destruct (N _ _ Hv) as [Nd Hl]. split.
      * apply NoDup_cons. split; [|done]. intros (e & He & _)%Hl. congruence.
      * intros q. cbn [set_refcnt v_names]. rewrite elem_of_cons, Hl. destruct (decide (q = p)) as [->|Hq].
        -- rewrite lookup_insert_eq. split; [|by left]. intros _. by exists c.
        -- rewrite lookup_insert_ne by done. tauto.
    + destruct (N _ _ Hv') as [Nd Hl]. split; [done|]. intros q. rewrite Hl. destruct (decide (q = p)) as [->|Hq].
      * rewrite lookup_insert_eq, Hp. split; intros (e & He & Ee); [done|]. congruence.
      * by rewrite lookup_insert_ne.
Qed.

(** The reference of a dentry that goes away is one of its user until the vnode is released. *)
Lemma vnode_name_del cs vs vext p c :
  vnodes_ok cs vs vext -> cs !! p = Some c ->
  exists vs1, vn_del_name c.2 p vs = Some vs1 /\ vnodes_ok (delete p cs) vs1 (bump vext c.2 1) /\ vsame vs vs1.
Proof.
  intros V Hp. destruct (vnode_alive cs vs vext p c V Hp) as (vn & Hv & Hu). destruct V as [I E N].
  destruct (N _ _ Hv) as [Nd Hl]. unfold vn_del_name. rewrite Hv. cbn [mbind option_bind]. unfold list_del.
  rewrite bool_decide_eq_true_2 by (apply Hl; by exists c). cbn [mbind option_bind]. eexists. split; [done|].
  split; [|by apply (vsame_set _ _ vn)]. split.
  - eapply inv_proper; [reflexivity| |eapply inv_names; [exact I|exact Hv]].
    intros v. rewrite (uses_delete cs p c v Hp). unfold bump. case_decide; subst; lia.
  - intros v. unfold bump. specialize (E v). case_decide; lia.
  - intros v vn' Hv'. cbn [set_vnode vnodes] in Hv'. rewrite lookup_insert_Some in Hv'. destruct Hv' as [[<- <-]|[Hne Hv']].
    + cbn [v_names]. split; [by apply NoDup_filter|]. intros q. rewrite list_elem_of_filter, Hl. split.
      * intros [Hq (e & He & Ee)]. exists e. by rewrite lookup_delete_ne.
      * intros (e & [Hq He]%lookup_delete_Some & Ee). split; [done|]. by exists e.
    + destruct (N _ _ Hv') as [Nd' Hl']. split; [done|]. intros q. rewrite Hl'. split.
      * intros (e & He & Ee). exists e. split; [|done]. rewrite lookup_delete_ne; [done|]. intros ->. congruence.
      * intros (e & [Hq He]%lookup_delete_Some & Ee). by exists e.
Qed.

Lemma vnode_release cs vs vext v :
  vnodes_ok cs vs vext -> 0 < vext v -> exists vs', vrele v vs = Some vs' /\ vnodes_ok cs vs' (bump vext v (-1)) /\ vsame vs vs'.
Proof.
  intros [I E N] Hv. pose proof (uses_pos cs v). destruct (vrele_spec vs _ v I ltac:(cbn; lia)) as (vn & vs' & Hvn & -> & I' & Evs).
  exists vs'. split; [done|]. split; [|intros w wn Hw; rewrite Evs in Hw; destruct (_ =? 1);
    [apply lookup_delete_Some in Hw as [_ Hw]; by exists wn|rewrite lookup_insert_Some in Hw; destruct Hw as [[<- <-]|[_ Hw]]; [by exists vn|by exists wn]]]. split.
  - eapply inv_proper; [reflexivity| |exact I']. intros w. unfold bump. case_decide; subst; lia.
  - intros w. unfold bump. specialize (E w). case_decide; subst; lia.
  - intros w wn Hw. rewrite Evs in Hw. destruct (_ =? 1).
    + apply lookup_delete_Some in Hw as [_ Hw]. by apply N.
    + rewrite lookup_insert_Some in Hw. destruct Hw as [[<- <-]|[_ Hw]]; [|by apply N]. apply (N _ _ Hvn).
Qed.

(** ** The tree

    [ext p] is the number of references to the dentry [p] that are not held by its children. *)

Record tree_ok (ds : gmap Z dentry) (ext : Z -> Z) : Prop := TreeOk {
  r_ref : forall p d, ds !! p = Some d ->
    p <> 0 /\ d_refcnt d = ext p + zlen (d_child_list d) /\ 0 < d_refcnt d <= INT_MAX /\ 0 <= ext p;
  r_dead : forall p, ds !! p = None -> ext p = 0;
  r_kids : forall p d, ds !! p = Some d ->
    NoDup (d_child_list d) /\ forall c, c ∈ d_child_list d <-> exists e, ds !! c = Some e /\ d_parent e = p;
  r_parent : forall p d, ds !! p = Some d -> d_parent d <> 0 -> is_Some (ds !! d_parent d);
  r_rank : exists rank : Z -> nat, forall p d, ds !! p = Some d -> d_parent d <> 0 -> (rank (d_parent d) < rank p)%nat
}.

#[export] Instance tree_proper : Proper (eq ==> pointwise_relation Z eq ==> iff) tree_ok.
Proof.
  assert (H : forall ds e1 e2, pointwise_relation Z eq e1 e2 -> tree_ok ds e1 -> tree_ok ds e2).
  { intros ds e1 e2 He [R D K P Q]. split; try done.
    - intros p d Hp. rewrite <- He. by apply R.
    - intros p Hp. rewrite <- He. by apply D. }
  intros ds ? <- e1 e2 He. split; apply H; [done|]. intros p. by rewrite He.
Qed.

Lemma not_own_parent ds ext p d : tree_ok ds ext -> ds !! p = Some d -> d_parent d <> p.
Proof.
  intros T Hp E. destruct (r_rank _ _ T) as [rank Hr]. destruct (r_ref _ _ T p d Hp) as [H0 _].
  specialize (Hr p d Hp ltac:(congruence)). rewrite E in Hr. lia.
Qed.

(** Another count, with the place in the tree kept. *)
Lemma tree_same ds ext p d d' k :
  tree_ok ds ext -> ds !! p = Some d -> d_parent d' = d_parent d -> d_child_list d' = d_child_list d ->
  d_refcnt d' = d_refcnt d + k -> 0 < d_refcnt d' <= INT_MAX -> 0 <= ext p + k ->
  tree_ok (<[p := d']> ds) (bump ext p k).
Proof.
  intros [R D K P Q] Hp Ep Ek Ec Hn Hk.
  assert (Hsame : forall c x, (exists e, <[p := d']> ds !! c = Some e /\ d_parent e = x) <-> exists e, ds !! c = Some e /\ d_parent e = x).
  { intros c x. destruct (decide (c = p)) as [->|Hc]; [|by rewrite lookup_insert_ne]. rewrite lookup_insert_eq, Hp.
    split; intros (e & He & Ee); injection He as <-; eexists; (split; [done|]); congruence. }
  split.
  - intros q e He. rewrite lookup_insert_Some in He. destruct He as [[<- <-]|[Hq He]].
    + rewrite bump_eq, Ek. destruct (R p d Hp) as (H1 & H2 & H3). lia.
    + rewrite bump_ne by done. by apply R.
  - intros q Hq. apply lookup_insert_None in Hq as [Hq Hne]. rewrite bump_ne by done. by apply D.
  - intros q e He. setoid_rewrite Hsame. rewrite lookup_insert_Some in He. destruct He as [[<- <-]|[Hq He]]; [rewrite Ek; apply (K p d Hp)|by apply K].
  - intros q e He Hpe. rewrite lookup_insert_is_Some'. right. rewrite lookup_insert_Some in He.
    destruct He as [[<- <-]|[Hq He]]; [rewrite Ep in *; by apply (P p d)|by apply (P q e)].
  - destruct Q as [rank Q]. exists rank. intros q e He Hpe. rewrite lookup_insert_Some in He.
    destruct He as [[<- <-]|[Hq He]]; [rewrite Ep in *; by apply (Q p d)|by apply (Q q e)].
Qed.

Lemma tree_count ds ext p d n k :
  tree_ok ds ext -> ds !! p = Some d -> n = d_refcnt d + k -> 0 < n <= INT_MAX -> 0 <= ext p + k ->
  tree_ok (<[p := with_refcnt d n]> ds) (bump ext p k).
Proof. intros T Hp -> Hn Hk. by apply (tree_same ds ext p d). Qed.

(** A new root. *)
Lemma tree_new ds ext p path v mp :
  tree_ok ds ext -> ds !! p = None -> p <> 0 -> tree_ok (<[p := MkDentry 1 path v mp 0 []]> ds) (bump ext p 1).
Proof.
  intros [R D K P Q] Hp H0. split.
  - intros q e He. rewrite lookup_insert_Some in He. destruct He as [[<- <-]|[Hq He]].
    + rewrite bump_eq, (D _ Hp). cbn. unfold INT_MAX. lia.
    + rewrite bump_ne by done. by apply R.
  - intros q Hq. apply lookup_insert_None in Hq as [Hq Hne]. rewrite bump_ne by done. by apply D.
  - intros q e He. rewrite lookup_insert_Some in He. destruct He as [[<- <-]|[Hq He]].
    + cbn [d_child_list]. split; [constructor|]. intros c. split; [by intros ?%elem_of_nil|]. intros (f & Hf & Ef). exfalso.
      rewrite lookup_insert_Some in Hf. destruct Hf as [[<- <-]|[Hc Hf]]; [by cbn in Ef|].
      destruct (P c f Hf ltac:(congruence)) as [g Hg]. congruence.
    + destruct (K q e He) as [Nd Hk]. split; [done|]. intros c. rewrite Hk. destruct (decide (c = p)) as [->|Hc].
      * rewrite lookup_insert_eq, Hp. split; intros (f & Hf & Ef); [done|]. injection Hf as <-. cbn in Ef. destruct (R q e He) as [? _]. congruence.
      * by rewrite lookup_insert_ne.
  - intros q e He Hpe. rewrite lookup_insert_is_Some'. right. rewrite lookup_insert_Some in He.
    destruct He as [[<- <-]|[Hq He]]; [done|by apply (P q e)].
  - destruct Q as [rank Q]. exists rank. intros q e He Hpe. rewrite lookup_insert_Some in He.
    destruct He as [[<- <-]|[Hq He]]; [done|by apply (Q q e)].
Qed.

(** A root without children goes. *)
Lemma tree_gone ds ext p d :
  tree_ok ds ext -> ds !! p = Some d -> d_parent d = 0 -> d_refcnt d = 1 -> ext p = 1 ->
  tree_ok (delete p ds) (bump ext p (-1)).
Proof.
  intros [R D K P Q] Hp Hd Hr He. assert (Hk : d_child_list d = []).
  { destruct (R p d Hp) as (_ & H & _). destruct (d_child_list d); [done|]. cbn [length] in H. lia. }
  assert (Hno : forall c e, ds !! c = Some e -> d_parent e <> p).
  { intros c e Hc Ee. assert (Hin : c ∈ d_child_list d) by (apply (K p d Hp); by exists e). rewrite Hk in Hin. by apply elem_of_nil in Hin. }
  split.
  - intros q e [Hq Hqe]%lookup_delete_Some. rewrite bump_ne by done. by apply R.
  - intros q Hq. destruct (decide (q = p)) as [->|Hne]; [rewrite bump_eq; lia|]. rewrite lookup_delete_ne in Hq by done. rewrite bump_ne by done. by apply D.
  - intros q e [Hq Hqe]%lookup_delete_Some. destruct (K q e Hqe) as [Nd Hl]. split; [done|]. intros c. rewrite Hl. split.
    + intros (f & Hf & Ef). exists f. split; [|done]. rewrite lookup_delete_ne; [done|]. intros ->.
      rewrite Hp in Hf. injection Hf as <-. destruct (R q e Hqe) as [? _]. congruence.
    + intros (f & [_ Hf]%lookup_delete_Some & Ef). by exists f.
  - intros q e [Hq Hqe]%lookup_delete_Some Hpe. rewrite lookup_delete_ne; [by apply (P q e)|]. intros E. by apply (Hno q e Hqe).
  - destruct Q as [rank Q]. exists rank. intros q e [Hq Hqe]%lookup_delete_Some. by apply Q.
Qed.

Lemma others_length p l : NoDup l -> p ∈ l -> zlen (others p l) = zlen l - 1.
Proof.
  unfold others. induction l as [|x l IH]; intros Hn Hp; [by apply elem_of_nil in Hp|]. apply NoDup_cons in Hn as [Hx Hn]. cbn [length].
  destruct (decide (x = p)) as [->|Hne].
  - rewrite filter_cons_False by tauto. rewrite filter_ne_id by done. lia.
  - rewrite filter_cons_True by done. cbn [length]. apply elem_of_cons in Hp as [->|Hp]; [done|]. rewrite Nat2Z.inj_succ, IH by done. lia.
Qed.

Definition child (ds : gmap Z dentry) (x c : Z) : Prop := exists e, ds !! c = Some e /\ d_parent e = x.

(** A change of two dentries, [p] and the parent [q] that it leaves or gets. *)
Lemma tree_rehang ds ext ext' p d d' q e e' rank :
  tree_ok ds ext -> p <> q -> ds !! p = Some d -> ds !! q = Some e ->
  d_parent e' = d_parent e -> d_child_list d' = d_child_list d -> d_refcnt d' = d_refcnt d ->
  d_refcnt e' = ext' q + zlen (d_child_list e') -> 0 < d_refcnt e' <= INT_MAX -> 0 <= ext' q ->
  (forall c, c <> q -> ext' c = ext c) -> NoDup (d_child_list e') ->
  (forall c, c ∈ d_child_list e' <-> child (<[p := d']> (<[q := e']> ds)) q c) ->
  (forall x c, x <> 0 -> x <> q -> child (<[p := d']> (<[q := e']> ds)) x c <-> child ds x c) ->
  (d_parent d' = 0 \/ d_parent d' = q) ->
  (forall c f, <[p := d']> (<[q := e']> ds) !! c = Some f -> d_parent f <> 0 -> (rank (d_parent f) < rank c)%nat) ->
  tree_ok (<[p := d']> (<[q := e']> ds)) ext'.
Proof.
  intros [R D K P Q] Hpq Hp Hq Ee Ed Er Hr Hc H0 Hext Nd Hkq Hkx Hpar Hrank.
  assert (Lk : forall c f, <[p := d']> (<[q := e']> ds) !! c = Some f ->
    c = p /\ f = d' \/ c = q /\ f = e' \/ c <> p /\ c <> q /\ ds !! c = Some f).
  { intros c f. rewrite !lookup_insert_Some. intros [[<- <-]|[? [[<- <-]|[? ?]]]]; auto 6. }
  split.
  - intros c f [(-> & ->)|[(-> & ->)|(Hc1 & Hc2 & Hf)]]%Lk.
    + rewrite Er, Ed, Hext by done. by apply R.
    + destruct (R q e Hq) as (? & _). done.
    + rewrite Hext by done. by apply R.
  - intros c Hn. rewrite !lookup_insert_None in Hn. destruct Hn as [[Hn ?] ?]. rewrite Hext by done. by apply D.
  - intros c f Hf. change (NoDup (d_child_list f) /\ forall x, x ∈ d_child_list f <-> child (<[p := d']> (<[q := e']> ds)) c x).
    destruct (Lk c f Hf) as [(-> & ->)|[(-> & ->)|(Hc1 & Hc2 & Hf')]].
    + rewrite Ed. destruct (R p d Hp) as (Hp0 & _). destruct (K p d Hp) as [Ndp Hkp]. split; [done|]. intros x. rewrite Hkx by done. apply Hkp.
    + done.
    + destruct (R c f Hf') as (Hc0 & _). destruct (K c f Hf') as [Ndc Hkc]. split; [done|]. intros x. rewrite Hkx by done. apply Hkc.
  - intros c f [(-> & ->)|[(-> & ->)|(Hc1 & Hc2 & Hf)]]%Lk Hn.
    + destruct Hpar as [?| ->]; [done|]. rewrite lookup_insert_ne, lookup_insert_eq by done. by eexists.
    + rewrite Ee in *. rewrite !lookup_insert_is_Some'. right. right. by apply (P q e).
    + rewrite !lookup_insert_is_Some'. right. right. by apply (P c f).
  - by exists rank.
Qed.

(** A dentry leaves its parent, whose count keeps the reference. *)
Lemma tree_unlink ds ext p d q e :
  tree_ok ds ext -> ds !! p = Some d -> d_parent d = q -> q <> 0 -> ds !! q = Some e ->
  p <> q /\ p ∈ d_child_list e /\
  tree_ok (<[p := with_place d (d_path d) 0]> (<[q := with_children e (others p (d_child_list e))]> ds)) (bump ext q 1).
Proof.
  intros T Hp Hd H0 Hq. assert (Hpq : p <> q) by (intros ->; by apply (not_own_parent ds ext q d T Hp)).
  destruct (r_kids _ _ T q e Hq) as [Nq Hkq]. assert (Hin : p ∈ d_child_list e) by (apply Hkq; by exists d).
  split; [done|]. split; [done|]. destruct (r_ref _ _ T q e Hq) as (_ & Hr & Hc & He). destruct (r_rank _ _ T) as [rank Hrank].
  assert (Ck : forall x c, x <> 0 -> child (<[p := with_place d (d_path d) 0]> (<[q := with_children e (others p (d_child_list e))]> ds)) x c <-> c <> p /\ child ds x c).
  { intros x c Hx. unfold child. destruct (decide (c = p)) as [->|Hcp].
    - rewrite lookup_insert_eq. split; [|by intros [? _]]. intros (f & [= <-] & Ef). cbn in Ef. congruence.
    - rewrite (lookup_insert_ne _ p c) by done. destruct (decide (c = q)) as [->|Hcq]; [|rewrite lookup_insert_ne by done; tauto].
      rewrite lookup_insert_eq, Hq. split; [|intros [_ H]; revert H]; intros (f & [= <-] & Ef); [split; [done|]|]; by eexists. }
  apply (tree_rehang ds ext _ p d _ q e _ rank); try done.
  - rewrite bump_eq. cbn [with_children d_refcnt d_child_list]. rewrite others_length by done. lia.
  - rewrite bump_eq. lia.
  - intros c Hcq. by apply bump_ne.
  - by apply NoDup_filter.
  - intros c. rewrite Ck by done. cbn [with_children d_child_list]. rewrite elem_others, Hkq. done.
  - intros x c Hx Hxq. rewrite Ck by done. split; [by intros [_ ?]|]. intros H. split; [|done]. intros ->. destruct H as (f & Hf & Ef). congruence.
  - by left.
  - intros c f. rewrite !lookup_insert_Some. intros [[<- <-]|[? [[<- <-]|[? Hf]]]] Hn; [done| |by apply Hrank]. by apply (Hrank q e).
Qed.

(** A dentry without a parent and without children gets a parent. *)
Lemma tree_link ds ext p d q e path :
  tree_ok ds ext -> ds !! p = Some d -> d_parent d = 0 -> d_child_list d = [] -> p <> q -> ds !! q = Some e -> d_refcnt e < INT_MAX ->
  tree_ok (<[p := with_place d path q]> (<[q := with_children (with_refcnt e (d_refcnt e + 1)) (p :: d_child_list e)]> ds)) ext.
Proof.
  intros T Hp Hd Hk Hpq Hq Hm. destruct (r_kids _ _ T q e Hq) as [Nq Hkq]. destruct (r_ref _ _ T q e Hq) as (Hq0 & Hr & Hc & He).
  destruct (r_rank _ _ T) as [rank Hrank]. destruct (r_kids _ _ T p d Hp) as [_ Hkp]. rewrite Hk in Hkp.
  assert (Hno : forall c f, ds !! c = Some f -> d_parent f <> p).
  { intros c f Hf Ef. assert (Hin : c ∈ @nil Z) by (apply Hkp; by exists f). by apply elem_of_nil in Hin. }
  assert (Ck : forall x c, x <> 0 -> child (<[p := with_place d path q]> (<[q := with_children (with_refcnt e (d_refcnt e + 1)) (p :: d_child_list e)]> ds)) x c <->
    c = p /\ x = q \/ child ds x c).
  { intros x c Hx. unfold child. destruct (decide (c = p)) as [->|Hcp].
    - rewrite lookup_insert_eq, Hp. split.
      + intros (f & [= <-] & Ef). cbn in Ef. by left.
      + intros [[_ ->]|(f & [= <-] & Ef)]; [by eexists|]. congruence.
    - rewrite (lookup_insert_ne _ p c) by done. destruct (decide (c = q)) as [->|Hcq]; [|rewrite lookup_insert_ne by done; tauto].
      rewrite lookup_insert_eq, Hq. split; [intros (f & [= <-] & Ef); right; by eexists|]. intros [[? _]|(f & [= <-] & Ef)]; [done|]. by eexists. }
  apply (tree_rehang ds ext _ p d _ q e _ (fun c => if decide (c = p) then S (rank q) else rank c)); try done.
  - cbn [with_children with_refcnt d_refcnt d_child_list length]. lia.
  - cbn [with_children with_refcnt d_refcnt]. lia.
  - cbn [with_children d_child_list]. apply NoDup_cons. split; [|done]. intros (f & Hf & Ef)%Hkq. congruence.
  - intros c. rewrite Ck by done. cbn [with_children d_child_list]. rewrite elem_of_cons, Hkq. unfold child. tauto.
  - intros x c Hx Hxq. rewrite Ck by done. tauto.
  - by right.
  - intros c f. rewrite !lookup_insert_Some. intros [[<- <-]|[Hcp [[<- <-]|[Hcq Hf]]]] Hn.
    + cbn [with_place d_parent]. rewrite decide_False, decide_True by done. lia.
    + cbn [with_children with_refcnt d_parent] in *. rewrite decide_False by (by apply (Hno q e)). rewrite decide_False by done. by apply (Hrank q e).
    + rewrite decide_False by (by apply (Hno c f)). rewrite decide_False by done. by apply Hrank.
Qed.

(** ** The operations *)

Record dinv (st : dtab) (ext vext : Z -> Z) : Prop := DInv {
  d_table : table_ok (cores st) (dentry_hash_table st) (fake st);
  d_tree : tree_ok (dentries st) ext;
  d_vnodes : vnodes_ok (cores st) (vt st) vext
}.

#[export] Instance vnodes_proper : Proper (eq ==> eq ==> pointwise_relation Z eq ==> iff) vnodes_ok.
Proof.
  assert (H : forall cs vs e1 e2, pointwise_relation Z eq e1 e2 -> vnodes_ok cs vs e1 -> vnodes_ok cs vs e2).
  { intros cs vs e1 e2 He [I E N]. split; [|intros v; by rewrite <- He|done].
    eapply inv_proper; [reflexivity| |exact I]. intros v. by rewrite He. }
  intros cs ? <- vs ? <- e1 e2 He. split; apply H; [done|]. intros p. by rewrite He.
Qed.

Lemma lookup_cores st p d : dentries st !! p = Some d -> cores st !! p = Some (core_of d).
Proof. intros H. unfold cores. by rewrite lookup_fmap, H. Qed.

Lemma cores_same (ds : gmap Z dentry) p d d' : ds !! p = Some d -> core_of d' = core_of d -> core_of <$> <[p := d']> ds = core_of <$> ds.
Proof. intros Hp E. rewrite fmap_insert, E. apply insert_id. by rewrite lookup_fmap, Hp. Qed.

Lemma bump_back e p k q : bump (bump e p k) p (-k) q = e q.
Proof. unfold bump. case_decide; lia. Qed.

(** What is left of the cache after dentries went. *)
Definition shrinks (st st' : dtab) : Prop :=
  cores st' ⊆ cores st /\ (forall p, is_Some (cores st' !! p) -> p ∈ fake st' <-> p ∈ fake st) /\ vsame (vt st) (vt st').

Lemma hlist_del_frame p st st' k d : hlist_del p st = Some st' -> hlist_del p (set_dentry st k d) = Some (set_dentry st' k d).
Proof. unfold hlist_del. cbn [set_dentry fake dentry_hash_table]. destruct (existsb _ _); [|done]. by intros [= <-]. Qed.

Lemma drele_frame k d fuel : forall p st st',
  drele_loop fuel p st = Some st' -> dentries st !! k = None -> drele_loop fuel p (set_dentry st k d) = Some (set_dentry st' k d).
Proof.
  induction fuel as [|fuel IH]; intros p st st' H Hk; [done|]. cbn [drele_loop] in *.
  destruct (dentries st !! p) as [x|] eqn:Hp; [|done]. cbn [mbind option_bind] in H.
  assert (Hpk : p <> k) by (intros ->; congruence). cbn [set_dentry dentries]. rewrite lookup_insert_ne, Hp by done. cbn [mbind option_bind].
  destruct (negb (0 <? d_refcnt x)); [done|].
  assert (Sw : forall s y, set_dentry (set_dentry s k d) p y = set_dentry (set_dentry s p y) k d).
  { intros s y. unfold set_dentry. cbn [dentries dentry_hash_table fake vt]. by rewrite insert_insert_ne. }
  rewrite Sw. destruct (negb (d_refcnt x - 1 =? 0)); [by injection H as <-|].
  set (s0 := set_dentry st p (with_refcnt x (d_refcnt x - 1))) in *. assert (Hk0 : dentries s0 !! k = None) by (cbn; by rewrite lookup_insert_ne).
  clearbody s0. destruct (hlist_del p s0) as [s1|] eqn:H1; [|done]. rewrite (hlist_del_frame p s0 s1 k d H1). cbn [mbind option_bind] in H |- *.
  assert (Hk1 : dentries s1 !! k = None). { unfold hlist_del in H1. destruct (existsb _ _); [|done]. by injection H1 as <-. }
  cbn [set_dentry vt]. destruct (vn_del_name (d_vnode x) p (vt s1)) as [v1|]; [|done]. cbn [mbind option_bind] in H |- *.
  destruct (d_parent x =? 0).
  - cbn [mbind option_bind set_vt set_dentry vt dentries dentry_hash_table fake] in H |- *. destruct (vrele (d_vnode x) v1) as [v2|]; [|done]. cbn [mbind option_bind] in H |- *.
    injection H as <-. cbn [dentries dentry_hash_table fake vt]. by rewrite delete_insert_ne.
  - unfold del_child in *. cbn [mbind option_bind set_vt set_dentry vt dentries dentry_hash_table fake] in H |- *.
    destruct (dentries s1 !! d_parent x) as [y|] eqn:Hy; [|done]. assert (Hyk : d_parent x <> k) by (intros E; rewrite E in Hy; congruence).
    rewrite lookup_insert_ne, Hy by done. cbn [mbind option_bind] in H |- *. destruct (list_del p (d_child_list y)) as [l|]; [|done].
    cbn [mbind option_bind] in H |- *. set (s2 := set_dentry (set_vt s1 v1) (d_parent x) (with_children y l)) in *.
    assert (Hs2 : set_dentry (set_vt (set_dentry s1 k d) v1) (d_parent x) (with_children y l) = set_dentry s2 k d).
    { unfold s2, set_dentry, set_vt. cbn [dentries dentry_hash_table fake vt]. by rewrite insert_insert_ne. }
    unfold set_dentry, set_vt in Hs2. cbn [dentries dentry_hash_table fake vt] in Hs2. unfold set_dentry, set_vt. cbn [dentries dentry_hash_table fake vt].
    rewrite Hs2. destruct (drele_loop fuel (d_parent x) s2) as [s3|] eqn:H3; [|done].
    specialize (IH _ _ _ H3). unfold set_dentry in IH.
    rewrite IH by (cbn; rewrite lookup_insert_ne; done). cbn [mbind option_bind set_dentry vt dentries dentry_hash_table fake] in H |- *.
    destruct (vrele (d_vnode x) (vt s3)) as [v2|]; [|done]. cbn [mbind option_bind] in H |- *. injection H as <-.
    cbn [dentries dentry_hash_table fake vt]. by rewrite delete_insert_ne.
Qed.

(** A dentry whose last reference is given back leaves the table, its vnode and its parent. *)
Lemma last_reference st ext vext p d :
  dinv st ext vext -> dentries st !! p = Some d -> d_refcnt d = 1 -> 0 < ext p ->
  exists vt1, vn_del_name (d_vnode d) p (vt st) = Some vt1 /\ vsame (vt st) vt1 /\
    hlist_del p (set_dentry st p (with_refcnt d 0)) =
      Some (DTab (<[p := with_refcnt d 0]> (dentries st)) (map (others p) (dentry_hash_table st)) (others p (fake st)) (vt st)) /\
    let gone ds ext := dinv (DTab ds (map (others p) (dentry_hash_table st)) (others p (fake st)) vt1) ext (bump vext (d_vnode d) 1) in
    (d_parent d = 0 -> gone (delete p (dentries st)) (bump ext p (-1))) /\
    (d_parent d <> 0 -> exists e, dentries st !! d_parent d = Some e /\ p <> d_parent d /\ p ∈ d_child_list e /\
       gone (delete p (<[d_parent d := with_children e (others p (d_child_list e))]> (dentries st))) (bump (bump ext (d_parent d) 1) p (-1))).
Proof.
  intros [T R V] Hp Hr He. pose proof (lookup_cores st p d Hp) as Hc.
  destruct (vnode_name_del _ _ _ _ _ V Hc) as (vt1 & Ev & V1 & Vs). exists vt1. split; [done|]. split; [done|]. split.
  { unfold hlist_del. cbn [set_dentry fake dentry_hash_table dentries vt]. by rewrite (linked _ _ _ _ _ T Hc). }
  pose proof (table_del _ _ _ p T) as T1. destruct (r_ref _ _ R p d Hp) as (Hp0 & Hcnt & _).
  cbn zeta. split.
  - intros Hd. split; cbn [cores dentries dentry_hash_table fake vt].
    + unfold cores at 1. cbn [dentries]. by rewrite fmap_delete.
    + apply (tree_gone _ _ p d); [done|done|done|done|lia].
    + unfold cores at 1. cbn [dentries]. by rewrite fmap_delete.
  - intros Hd. destruct (r_parent _ _ R p d Hp Hd) as [e Hq]. destruct (tree_unlink _ _ p d _ e R Hp eq_refl Hd Hq) as (Hpq & Hin & R1).
    exists e. split; [done|]. split; [done|]. split; [done|].
    assert (Ec : cores (DTab (delete p (<[d_parent d := with_children e (others p (d_child_list e))]> (dentries st)))
      (map (others p) (dentry_hash_table st)) (others p (fake st)) vt1) = delete p (cores st)).
    { unfold cores. cbn [dentries]. rewrite fmap_delete. f_equal. by apply (cores_same _ _ e). }
    split; [by rewrite Ec| |by rewrite Ec]. cbn [dentries].
    rewrite <- (delete_insert_eq (<[d_parent d := with_children e (others p (d_child_list e))]> (dentries st)) p (with_place d (d_path d) 0)).
    eapply tree_gone; [exact R1|apply lookup_insert_eq|done|done|]. rewrite bump_ne by done. lia.
Qed.

Lemma drele_spec fuel : forall st ext vext p,
  dinv st ext vext -> 0 < ext p -> (size (dentries st) < fuel)%nat ->
  exists st', drele_loop fuel p st = Some st' /\ dinv st' (bump ext p (-1)) vext /\ shrinks st st'.
Proof.
  induction fuel as [|fuel IH]; intros st ext vext p I He Hf; [lia|]. pose proof I as [T R V].
  destruct (dentries st !! p) as [d|] eqn:Hp; [|rewrite (r_dead _ _ R p Hp) in He; lia].
  destruct (r_ref _ _ R p d Hp) as (Hp0 & Hcnt & Hr & _). cbn [drele_loop]. rewrite Hp. cbn [mbind option_bind].
  destruct (Z.ltb_spec 0 (d_refcnt d)); [cbn [negb]|lia]. destruct (Z.eqb_spec (d_refcnt d - 1) 0) as [E|E]; cbn [negb].
  2: { eexists. split; [done|]. assert (Ec : cores (set_dentry st p (with_refcnt d (d_refcnt d - 1))) = cores st) by (by apply (cores_same _ _ d)).
       split; [split; [by rewrite Ec| |by rewrite Ec]|]. { apply (tree_count _ _ p d); [done|done|lia|lia|lia]. }
       split; [by rewrite Ec|]. split; [done|]. intros q x Hx. by exists x. }
  destruct (last_reference st ext vext p d I Hp ltac:(lia) He) as (vt1 & Ev & Vs & Eh & H0 & H1). rewrite E, Eh. cbn [mbind option_bind vt].
  rewrite Ev. cbn [mbind option_bind]. destruct (Z.eqb_spec (d_parent d) 0) as [Ed|Ed].
  - destruct (H0 Ed) as [T1 R1 V1]. cbn [mbind option_bind set_vt dentries dentry_hash_table fake vt] in *.
    destruct (vnode_release _ _ _ (d_vnode d) V1) as (vt2 & Er & V2 & Vs2); [rewrite bump_eq; pose proof (v_ext _ _ _ V (d_vnode d)); lia|].
    rewrite Er. cbn [mbind option_bind]. rewrite delete_insert_eq. eexists. split; [done|]. split; [split|].
    + done.
    + done.
    + eapply vnodes_proper; [reflexivity|reflexivity| |exact V2]. intros v. by rewrite bump_back.
    + split; [|split]; cbn [fake vt]; [| |by eapply vsame_trans].
      * unfold cores. cbn [dentries]. rewrite fmap_delete. apply delete_subseteq.
      * intros q [c Hq]. unfold cores in Hq. cbn [dentries] in Hq. rewrite fmap_delete in Hq. apply lookup_delete_Some in Hq as [Hq _]. rewrite elem_others. intuition congruence.
  - destruct (H1 Ed) as (e & Hq & Hpq & Hin & I1). clear H0 H1. set (q := d_parent d) in *.
    set (sL := DTab _ _ _ _) in I1. assert (HsL : dentries sL !! p = None) by (cbn [sL dentries]; apply lookup_delete_eq).
    destruct (IH sL _ _ q I1) as (s3 & E3 & I3 & Sh).
    { rewrite bump_ne, bump_eq by done. destruct (r_ref _ _ R q e Hq) as (_ & _ & _ & ?). lia. }
    { cbn [sL dentries]. rewrite map_size_delete_Some by (rewrite lookup_insert_ne by done; by eexists).
      rewrite map_size_insert_Some by (by eexists).
      assert (size (dentries st) <> 0%nat) by (intros Hs%map_size_empty_inv; by rewrite Hs, lookup_empty in Hp). lia. }
    apply (drele_frame p (with_refcnt d 0)) in E3; [|done].
    unfold del_child. cbn [set_vt dentries]. rewrite lookup_insert_ne, Hq by done. cbn [mbind option_bind]. unfold list_del.
    rewrite bool_decide_eq_true_2 by done. cbn [mbind option_bind]. fold (others p (d_child_list e)).
    match goal with |- context [drele_loop fuel q ?s] => assert (Es : s = set_dentry sL p (with_refcnt d 0)) end.
    { unfold set_dentry, set_vt, sL. cbn [dentries dentry_hash_table fake vt]. f_equal. rewrite insert_insert_ne by done. by rewrite insert_delete_eq. }
    rewrite Es, E3. cbn [mbind option_bind set_dentry vt dentries dentry_hash_table fake]. destruct I3 as [T3 R3 V3].
    destruct (vnode_release _ _ _ (d_vnode d) V3) as (vt2 & Er & V4 & Vs4); [rewrite bump_eq; pose proof (v_ext _ _ _ V (d_vnode d)); lia|].
    rewrite Er. cbn [mbind option_bind]. destruct Sh as (Sc & Sf & Sv). assert (Ec : cores sL = delete p (cores st)).
    { unfold cores, sL. cbn [dentries]. rewrite fmap_delete. f_equal. by apply (cores_same _ _ e). }
    assert (H3p : dentries s3 !! p = None).
    { destruct (dentries s3 !! p) as [x|] eqn:Hx; [|done]. apply lookup_cores in Hx. rewrite map_subseteq_spec in Sc. apply Sc in Hx.
      rewrite Ec, lookup_delete_eq in Hx. done. }
    rewrite delete_insert_id by done. eexists. split; [done|]. split; [split|].
    + done.
    + eapply tree_proper; [reflexivity| |exact R3]. intros x. unfold bump. repeat case_decide; subst; try lia; congruence.
    + eapply vnodes_proper; [reflexivity|reflexivity| |exact V4]. intros v. by rewrite bump_back.
    + split; [|split; [|by eapply vsame_trans; [exact Vs|eapply vsame_trans; [exact Sv|exact Vs4]]]]; unfold cores at 1; cbn [dentries fake]; fold (cores s3).
      * etransitivity; [exact Sc|]. rewrite Ec. apply delete_subseteq.
      * intros x Hx. rewrite Sf by done. unfold sL. cbn [fake]. rewrite elem_others. destruct Hx as [c Hx].
        rewrite map_subseteq_spec in Sc. apply Sc in Hx. rewrite Ec in Hx. apply lookup_delete_Some in Hx as [Hx _]. intuition congruence.
Qed.

(** A dentry that a search can find. *)
Definition cached (st : dtab) (mp : Z) (path : list Z) (p : Z) : Prop :=
  exists d, dentries st !! p = Some d /\ (p ∉ fake st) /\ d_mount d = mp /\ d_path d = path.

(** No counter is at its maximum. *)
Definition room (st : dtab) : Prop := map_Forall (fun _ d => d_refcnt d < INT_MAX) (dentries st).

Lemma hold_dentry st ext vext p d :
  dinv st ext vext -> dentries st !! p = Some d -> d_refcnt d < INT_MAX ->
  let st' := set_dentry st p (with_refcnt d (d_refcnt d + 1)) in
  inc_refcnt p st = Some st' /\ dref p st = Some st' /\ dinv st' (bump ext p 1) vext.
Proof.
  intros [T R V] Hp Hm. destruct (r_ref _ _ R p d Hp) as (_ & Hc & Hr & He). cbn zeta. unfold dref, inc_refcnt. rewrite Hp. cbn [mbind option_bind].
  destruct (Z.ltb_spec (d_refcnt d) INT_MAX); [|lia]. destruct (Z.ltb_spec 0 (d_refcnt d)); [|lia]. split; [done|]. split; [done|].
  assert (Ec : cores (set_dentry st p (with_refcnt d (d_refcnt d + 1))) = cores st) by (by apply (cores_same _ _ d)).
  split; [by rewrite Ec| |by rewrite Ec]. apply (tree_count _ _ p d); [done|done|lia|lia|lia].
Qed.

Lemma find_dentry_spec ds mp path l :
  zlen path < PATH_MAX -> (forall p, p ∈ l -> exists d, ds !! p = Some d /\ zlen (d_path d) < PATH_MAX) ->
  exists r, find_dentry ds mp path l = Some r /\
    match r with
    | Some p => p ∈ l /\ exists d, ds !! p = Some d /\ d_mount d = mp /\ d_path d = path
    | None => forall p d, p ∈ l -> ds !! p = Some d -> ~ (d_mount d = mp /\ d_path d = path)
    end.
Proof.
  intros Hl. induction l as [|p l IH]; intros Hd; cbn [find_dentry].
  { exists None. split; [done|]. intros p d Hp. by apply not_elem_of_nil in Hp. }
  destruct (Hd p (list_elem_of_here _ _)) as (d & Hp & Hpl). rewrite Hp. cbn [mbind option_bind]. unfold same_path. rewrite !take_ge by lia.
  destruct (Z.eqb_spec (d_mount d) mp) as [Em|Em], (bool_decide_reflect (d_path d = path)) as [Ep|Ep]; cbn [andb].
  1: { exists (Some p). split; [done|]. split; [apply list_elem_of_here|]. by exists d. }
  all: destruct IH as (r & -> & Hr); [intros q Hq; by apply Hd, list_elem_of_further|].
  all: exists r; split; [done|]; destruct r as [q|].
  all: try (destruct Hr as [Hq Hr]; split; [by apply list_elem_of_further|done]).
  all: intros q e [->|Hq]%elem_of_cons He; [rewrite Hp in He; injection He as <-; tauto|by apply (Hr q e)].
Qed.

Lemma cached_unique st ext vext mp path p q : dinv st ext vext -> cached st mp path p -> cached st mp path q -> p = q.
Proof.
  intros [T _ _] (d & Hd & Hp & E1 & E2) (e & He & Hq & F1 & F2).
  apply (t_uniq _ _ _ T p q (core_of d) (core_of e)); [by apply lookup_cores|by apply lookup_cores|done|done|]. unfold core_of. cbn. congruence.
Qed.

(** The search finds the dentry of the path, and holds it. *)
Lemma dentry_lookup_spec st ext vext mp path :
  dinv st ext vext -> room st -> zlen path < PATH_MAX ->
  (exists p d, cached st mp path p /\ dentries st !! p = Some d /\
     dentry_lookup mp path st = Some (p, set_dentry st p (with_refcnt d (d_refcnt d + 1))) /\
     dinv (set_dentry st p (with_refcnt d (d_refcnt d + 1))) (bump ext p 1) vext) \/
  (forall p, ~ cached st mp path p) /\ dentry_lookup mp path st = Some (0, st).
Proof.
  intros I Hroom Hl. pose proof I as [T R V]. unfold dentry_lookup. destruct (bucket_there _ _ _ mp path T) as [l Hb]. rewrite Hb. cbn [mbind option_bind].
  destruct (t_bucket _ _ _ T _ _ Hb) as [_ Hin]. unfold cores in Hin. setoid_rewrite lookup_fmap in Hin.
  destruct (find_dentry_spec (dentries st) mp path l Hl) as (r & -> & Hr).
  { intros p (c & Hc & _)%Hin. destruct (dentries st !! p) as [d|] eqn:Hd; [|done]. exists d. split; [done|].
    apply (t_path _ _ _ T p (core_of d)). by apply lookup_cores. }
  cbn [mbind option_bind]. destruct r as [p|].
  - left. destruct Hr as [Hp (d & Hd & Em & Ep)]. apply Hin in Hp as (c & _ & Hf & _). exists p, d. split; [by exists d|]. split; [done|].
    destruct (hold_dentry st ext vext p d I Hd (Hroom p d Hd)) as (-> & _ & I'). done.
  - right. split; [|done]. intros p (d & Hd & Hf & Em & Ep). apply (Hr p d); [|done|done]. apply Hin. exists (core_of d). rewrite Hd.
    split; [done|]. split; [done|]. unfold bucket, core_of. cbn. congruence.
Qed.

(** The parent of a new or moved dentry. *)
Lemma attach q p st e : q <> 0 -> dentries st !! q = Some e -> 0 < d_refcnt e < INT_MAX ->
  (st ← dref q st; add_child q p st) = Some (set_dentry st q (with_children (with_refcnt e (d_refcnt e + 1)) (p :: d_child_list e))).
Proof.
  intros H0 Hq Hr. unfold dref, inc_refcnt. rewrite Hq. cbn [mbind option_bind]. destruct (Z.ltb_spec 0 (d_refcnt e)); [|lia].
  destruct (Z.ltb_spec (d_refcnt e) INT_MAX); [|lia]. unfold add_child. cbn [mbind option_bind set_dentry dentries]. rewrite lookup_insert_eq. cbn [mbind option_bind].
  unfold set_dentry. cbn [dentries dentry_hash_table fake vt]. by rewrite insert_insert_eq.
Qed.

Definition parent_fits (st : dtab) (p q : Z) : Prop := q = 0 \/ q <> p /\ exists e, dentries st !! q = Some e /\ d_refcnt e < INT_MAX.

(** A new dentry, found from now on by its path. *)
Lemma dentry_alloc_spec st ext vext dp parent vp v path :
  dinv st ext vext -> dp <> 0 -> dentries st !! dp = None -> parent_fits st dp parent ->
  vnodes (vt st) !! vp = Some v -> v_refcnt v < INT_MAX ->
  zlen path < PATH_MAX -> (forall p, ~ cached st (v_mount v) path p) ->
  exists st', dentry_alloc dp true parent vp path st = Some (dp, st') /\ dinv st' (bump ext dp 1) vext /\
    cached st' (v_mount v) path dp /\ fake st' = fake st /\ cores st' = <[dp := (path, v_mount v, vp)]> (cores st) /\ vsame (vt st) (vt st').
Proof.
  intros [T R V] Hdp Hnew Hpar Hv Hvr Hl Hn. unfold dentry_alloc. rewrite Hv. cbn [mbind option_bind negb]. destruct (Z.eqb_spec dp 0); [done|].
  assert (Hcn : cores st !! dp = None) by (unfold cores; by rewrite lookup_fmap, Hnew).
  destruct (i_ref _ _ (v_counts _ _ _ V) vp v Hv) as (_ & Evr & _). cbn in Evr.
  destruct (vnode_name_add _ _ _ dp (path, v_mount v, vp) V Hcn) as (vt1 & vt2 & E1 & E2 & V2 & Vs); [by exists v|cbn; lia|]. cbn [snd] in E1, E2.
  rewrite E1. cbn [mbind option_bind].
  destruct (table_add _ _ _ dp (path, v_mount v, vp) T Hcn Hl) as (l & table' & Hg & Hs & T2).
  { intros q c Hq Hf Ec. unfold cores in Hq. rewrite lookup_fmap in Hq. destruct (dentries st !! q) as [d|] eqn:Hd; [|done]. injection Hq as <-.
    apply (Hn q). exists d. unfold core_of in Ec. cbn in Ec. injection Ec as -> ->. done. }
  unfold bucket in Hg, Hs. cbn [fst snd] in Hg, Hs. set (d := MkDentry 1 path vp (v_mount v) parent []).
  assert (Fin : forall ds', cores (DTab ds' table' (fake st) vt2) = <[dp := (path, v_mount v, vp)]> (cores st) -> ds' !! dp = Some d -> tree_ok ds' (bump ext dp 1) ->
    let st' := DTab ds' table' (fake st) vt2 in dinv st' (bump ext dp 1) vext /\ cached st' (v_mount v) path dp /\ fake st' = fake st /\ cores st' = <[dp := (path, v_mount v, vp)]> (cores st) /\ vsame (vt st) (vt st')).
  { intros ds' Ec Hd R'. cbn zeta. split; [split; rewrite ?Ec; done|]. split; [|done]. exists d. split; [done|]. split; [|done].
    intros Hf. destruct (t_fake _ _ _ T dp Hf) as [c Hc]. congruence. }
  assert (R0 := tree_new _ _ dp path vp (v_mount v) R Hnew Hdp).
  destruct (Z.eqb_spec parent 0) as [E0|E0].
  - cbn [mbind option_bind set_dentry set_vt vt]. rewrite E2. cbn [mbind option_bind]. unfold hlist_add_head. cbn [set_vt dentry_hash_table set_dentry].
    rewrite Hg. cbn [mbind option_bind]. rewrite Hs. cbn [mbind option_bind dentries fake vt]. eexists. split; [done|]. apply Fin.
    + unfold cores. cbn [dentries set_dentry set_vt]. by rewrite fmap_insert.
    + apply lookup_insert_eq.
    + unfold d. by rewrite E0.
  - destruct Hpar as [?|(Hqp & e & Hq & Hqr)]; [done|]. destruct (r_ref _ _ R parent e Hq) as (_ & _ & Hr0 & _).
    rewrite (attach parent dp _ e) by (done || (cbn [set_dentry set_vt dentries]; by rewrite lookup_insert_ne) || lia).
    cbn [mbind option_bind set_dentry set_vt vt]. rewrite E2. cbn [mbind option_bind]. unfold hlist_add_head. cbn [set_vt dentry_hash_table set_dentry].
    rewrite Hg. cbn [mbind option_bind]. rewrite Hs. cbn [mbind option_bind dentries fake vt]. eexists. split; [done|]. apply Fin.
    + unfold cores. cbn [dentries set_dentry set_vt]. rewrite (cores_same _ parent e) by (done || by rewrite lookup_insert_ne). by rewrite fmap_insert.
    + cbn [dentries set_dentry set_vt]. rewrite lookup_insert_ne by done. apply lookup_insert_eq.
    + cbn [dentries set_dentry set_vt]. assert (Hm := tree_link _ _ dp _ parent e path R0 (lookup_insert_eq _ _ _) eq_refl eq_refl ltac:(done)).
      rewrite lookup_insert_ne in Hm by done. specialize (Hm Hq Hqr). rewrite (insert_insert_ne _ parent dp) by done.
      rewrite (insert_insert_ne _ parent dp), insert_insert_eq in Hm by done. exact Hm.
Qed.

(** A removed dentry stays until it is released, and is not found. *)
Lemma dentry_remove_spec st ext vext p d :
  dinv st ext vext -> dentries st !! p = Some d ->
  exists st', dentry_remove p st = Some st' /\ dinv st' ext vext /\ dentries st' = dentries st /\ p ∈ fake st' /\
    forall q, q <> p -> q ∈ fake st' <-> q ∈ fake st.
Proof.
  intros [T R V] Hp. pose proof (lookup_cores st p d Hp) as Hc. unfold dentry_remove, hlist_del. rewrite Hp. cbn [mbind option_bind].
  rewrite (linked _ _ _ _ _ T Hc). cbn [mbind option_bind dentries dentry_hash_table fake vt]. eexists. split; [done|]. split; [split|].
  - pose proof (table_hide _ _ _ p (core_of d) (table_del _ _ _ p T) (lookup_delete_eq _ _) (t_path _ _ _ T p _ Hc)) as T1.
    rewrite insert_delete_eq, insert_id in T1 by done. done.
  - done.
  - done.
  - cbn [dentries fake]. split; [done|]. split; [apply list_elem_of_here|]. intros q Hq. rewrite elem_of_cons, elem_others. tauto.
Qed.

Lemma vnodes_same cs vs vext p c c' :
  vnodes_ok cs vs vext -> cs !! p = Some c -> c'.2 = c.2 -> vnodes_ok (<[p := c']> cs) vs vext.
Proof.
  intros [I E N] Hp Ec. split; [|done|].
  - eapply inv_proper; [reflexivity| |exact I]. intros v. rewrite <- insert_delete_eq, uses_insert by apply lookup_delete_eq.
    pose proof (uses_delete cs p c v Hp) as H. unfold bump in *. rewrite Ec. case_decide; lia.
  - intros v vn Hv. destruct (N v vn Hv) as [Nd Hl]. split; [done|]. intros q. rewrite Hl. destruct (decide (q = p)) as [->|Hq].
    + rewrite lookup_insert_eq, Hp. split; intros (e & [= <-] & Ee); eexists; (split; [done|]); congruence.
    + by rewrite lookup_insert_ne.
Qed.

(** A dentry taken out of its parent. *)
Lemma detach st ext p d :
  tree_ok (dentries st) ext -> dentries st !! p = Some d ->
  exists ds1, (if d_parent d =? 0 then Some st else del_child (d_parent d) p st) = Some (DTab ds1 (dentry_hash_table st) (fake st) (vt st)) /\
    ds1 !! p = Some d /\ core_of <$> ds1 = core_of <$> dentries st /\ d_refcnt <$> ds1 = d_refcnt <$> dentries st /\
    tree_ok (<[p := with_place d (d_path d) 0]> ds1) (if d_parent d =? 0 then ext else bump ext (d_parent d) 1).
Proof.
  intros R Hp. destruct (Z.eqb_spec (d_parent d) 0) as [E|E].
  - exists (dentries st). split; [by destruct st|]. do 3 (split; [done|]). rewrite insert_id; [done|]. rewrite Hp. destruct d. cbn in *. by rewrite E.
  - destruct (r_parent _ _ R p d Hp E) as [e Hq]. destruct (tree_unlink _ _ p d _ e R Hp eq_refl E Hq) as (Hpq & Hin & R1).
    exists (<[d_parent d := with_children e (others p (d_child_list e))]> (dentries st)). unfold del_child. rewrite Hq. cbn [mbind option_bind].
    unfold list_del. rewrite bool_decide_eq_true_2 by done. split; [done|]. split; [by rewrite lookup_insert_ne|]. split; [by apply (cores_same _ _ e)|].
    split; [|done]. rewrite fmap_insert. apply insert_id. by rewrite lookup_fmap, Hq.
Qed.

(** A dentry without children at its new place. *)
Lemma place st ext p d q path :
  dentries st !! p = Some d -> d_child_list d = [] -> tree_ok (<[p := with_place d (d_path d) 0]> (dentries st)) ext -> parent_fits st p q ->
  exists ds2, (if q =? 0 then Some st else st ← dref q st; add_child q p st) = Some (DTab ds2 (dentry_hash_table st) (fake st) (vt st)) /\
    ds2 !! p = Some d /\ core_of <$> ds2 = core_of <$> dentries st /\ tree_ok (<[p := with_place d path q]> ds2) ext.
Proof.
  intros Hp Hk R Hq. destruct (r_ref _ _ R p _ (lookup_insert_eq _ _ _)) as (_ & _ & Hc & He). destruct (Z.eqb_spec q 0) as [E|E].
  - exists (dentries st). split; [by destruct st|]. split; [done|]. split; [done|].
    pose proof (tree_same _ _ p _ (with_place d path q) 0 R (lookup_insert_eq _ _ _)) as R1. rewrite insert_insert_eq in R1.
    eapply tree_proper; [reflexivity| |apply R1]; cbn in *; try lia; try done. intros x. unfold bump. case_decide; lia.
  - destruct Hq as [?|(Hqp & e & Hq & Hqr)]; [done|]. assert (Hq' : <[p := with_place d (d_path d) 0]> (dentries st) !! q = Some e) by (by rewrite lookup_insert_ne).
    destruct (r_ref _ _ R q e Hq') as (_ & _ & Hr & _). rewrite (attach q p st e) by (done || lia). eexists. split; [done|].
    split; [by rewrite lookup_insert_ne|]. split; [by apply (cores_same _ _ e)|].
    pose proof (tree_link _ _ p _ q e path R (lookup_insert_eq _ _ _) eq_refl Hk ltac:(done) Hq' Hqr) as R1.
    rewrite (insert_insert_ne _ q p), insert_insert_eq in R1 by done. exact R1.
Qed.

(** A dentry without children that moves is found by its new path, and its old parent is released. *)
Lemma dentry_move_spec st ext vext dp d parent path :
  dinv st ext vext -> dentries st !! dp = Some d -> d_child_list d = [] -> 0 < ext dp -> room st ->
  (parent = 0 \/ parent <> dp /\ is_Some (dentries st !! parent)) ->
  zlen path < PATH_MAX -> (forall q, q <> dp -> ~ cached st (d_mount d) path q) ->
  exists st', dentry_move true dp parent path st = Some (0, st') /\ dinv st' ext vext /\ cached st' (d_mount d) path dp.
Proof.
  intros [T R V] Hp Hk He Hroom Hpar Hl Hn. unfold dentry_move. rewrite Hp. cbn [mbind option_bind negb].
  destruct (detach st ext dp d R Hp) as (ds1 & -> & Hp1 & Ec1 & En1 & R1). cbn [mbind option_bind].
  assert (Fit : parent_fits (DTab ds1 (dentry_hash_table st) (fake st) (vt st)) dp parent).
  { destruct Hpar as [?|[Hqp [e Hq]]]; [by left|right]. split; [done|]. cbn [dentries]. assert (Hx := f_equal (lookup parent) En1). rewrite !lookup_fmap, Hq in Hx.
    destruct (ds1 !! parent) as [x|]; [|done]. injection Hx as Hx. exists x. split; [done|]. rewrite Hx. by apply (Hroom parent). }
  destruct (place (DTab ds1 (dentry_hash_table st) (fake st) (vt st)) _ dp d parent path Hp1 Hk R1 Fit) as (ds2 & -> & Hp2 & Ec2 & R2).
  cbn [mbind option_bind dentries dentry_hash_table fake vt] in *. unfold dentry_children_remove. cbn [dentries]. rewrite Hp2. cbn [mbind option_bind].
  rewrite Hk. cbn [children_remove foldl mbind option_bind]. pose proof (lookup_cores st dp d Hp) as Hc.
  unfold hlist_del at 1. cbn [fake dentry_hash_table]. rewrite (linked _ _ _ _ _ T Hc). cbn [mbind option_bind dentries fake vt dentry_hash_table].
  rewrite Hp2. cbn [mbind option_bind].
  destruct (table_add _ _ _ dp (path, d_mount d, d_vnode d) (table_del _ _ _ dp T) (lookup_delete_eq _ _) Hl) as (l & table' & Hg & Hs & T2).
  { intros q c [Hq Hqc]%lookup_delete_Some Hf Ec. rewrite elem_others in Hf. unfold cores in Hqc. rewrite lookup_fmap in Hqc.
    destruct (dentries st !! q) as [x|] eqn:Hx; [|done]. injection Hqc as <-. injection Ec as E1 E2. apply (Hn q ltac:(done)). exists x. split; [done|].
    split; [|done]. intros ?. apply Hf. done. }
  unfold bucket in Hg, Hs. cbn [fst snd] in Hg, Hs. unfold hlist_add_head. cbn [set_dentry dentry_hash_table]. rewrite Hg. cbn [mbind option_bind]. rewrite Hs.
  cbn [mbind option_bind dentries fake vt dentry_hash_table]. set (s4 := DTab _ _ _ _).
  assert (Ec4 : cores s4 = <[dp := (path, d_mount d, d_vnode d)]> (cores st)) by (unfold cores, s4; cbn [dentries set_dentry]; by rewrite fmap_insert, Ec2, Ec1).
  rewrite insert_delete_eq in T2. assert (I4 : dinv s4 (if d_parent d =? 0 then ext else bump ext (d_parent d) 1) vext).
  { split; rewrite ?Ec4; cbn [s4 set_dentry dentries dentry_hash_table fake vt]; [done|done|]. by apply (vnodes_same _ _ _ dp (core_of d)). }
  assert (Hf4 : dp ∉ fake s4) by (cbn [s4 set_dentry fake]; rewrite elem_others; tauto).
  destruct (Z.eqb_spec (d_parent d) 0) as [E|E].
  - cbn [mbind option_bind]. eexists. split; [done|]. split; [done|]. exists (with_place d path parent). split; [apply lookup_insert_eq|done].
  - assert (Hq0 : 0 <= ext (d_parent d)). { destruct (r_parent _ _ R dp d Hp E) as [e Hq]. by destruct (r_ref _ _ R _ e Hq) as (_ & _ & _ & ?). }
    destruct (drele_spec (S (size (dentries s4))) s4 _ vext (d_parent d) I4) as (s5 & E5 & I5 & Sc & Sf & _); [rewrite bump_eq; lia|lia|].
    unfold drele. rewrite E5. cbn [mbind option_bind]. eexists. split; [done|]. destruct I5 as [T5 R5 V5].
    assert (R6 : tree_ok (dentries s5) ext) by (eapply tree_proper; [reflexivity| |exact R5]; intros x; by rewrite bump_back).
    split; [by split|]. destruct (dentries s5 !! dp) as [x|] eqn:Hx; [|rewrite (r_dead _ _ R6 dp Hx) in He; lia].
    exists x. split; [done|]. pose proof (lookup_cores s5 dp x Hx) as Hcx. split; [by rewrite Sf|].
    rewrite map_subseteq_spec in Sc. apply Sc in Hcx. rewrite Ec4, lookup_insert_eq in Hcx. by injection Hcx as -> -> _.
Qed.

(** ** The users of the cache

    [ext] and [vext] count the references that the rest of the system holds to dentries and vnodes. *)

Definition more (e : Z -> Z) (p : Z) : Z -> Z := if p =? 0 then e else bump e p 1.

(** A dentry is made, or moved, to a path that no other one has, and moved only without children: [dentry_move] tests
    neither, and what it does to children is shown by [moved_children_unlinked_twice]. *)
Inductive dstep : dtab * (Z -> Z) * (Z -> Z) -> dtab * (Z -> Z) * (Z -> Z) -> Prop :=
| dstep_alloc st ext vext dp dup parent vp v path r st' :
    dentries st !! dp = None -> parent_fits st dp parent ->
    vnodes (vt st) !! vp = Some v -> 0 < vext vp -> v_refcnt v < INT_MAX ->
    zlen path < PATH_MAX -> (forall p, ~ cached st (v_mount v) path p) ->
    dentry_alloc dp dup parent vp path st = Some (r, st') -> dstep (st, ext, vext) (st', more ext r, vext)
| dstep_lookup st ext vext mp path r st' :
    room st -> zlen path < PATH_MAX -> dentry_lookup mp path st = Some (r, st') -> dstep (st, ext, vext) (st', more ext r, vext)
| dstep_dref st ext vext p st' : 0 < ext p -> room st -> dref p st = Some st' -> dstep (st, ext, vext) (st', bump ext p 1, vext)
| dstep_drele st ext vext p st' : 0 < ext p -> drele p st = Some st' -> dstep (st, ext, vext) (st', bump ext p (-1), vext)
| dstep_remove st ext vext p st' : 0 < ext p -> dentry_remove p st = Some st' -> dstep (st, ext, vext) (st', ext, vext)
| dstep_move st ext vext dup dp d parent path r st' :
    0 < ext dp -> room st -> dentries st !! dp = Some d -> d_child_list d = [] ->
    (parent = 0 \/ parent <> dp /\ is_Some (dentries st !! parent)) ->
    zlen path < PATH_MAX -> (forall q, q <> dp -> ~ cached st (d_mount d) path q) ->
    dentry_move dup dp parent path st = Some (r, st') -> dstep (st, ext, vext) (st', ext, vext)
| dstep_vget st ext vext addr rc mp ino ret vp vs :
    vnodes (vt st) !! addr = None -> (forall v, vext v + uses (cores st) v < INT_MAX) ->
    vfscore_vget addr rc mp ino (vt st) = Some (ret, vp, vs) -> dstep (st, ext, vext) (set_vt st vs, ext, more vext vp)
| dstep_vrele st ext vext v vs : 0 < vext v -> vrele v (vt st) = Some vs -> dstep (st, ext, vext) (set_vt st vs, ext, bump vext v (-1)).

Definition dreachable (st : dtab) (ext vext : Z -> Z) : Prop :=
  rtc dstep (dentry_init vnode_init, fun _ => 0, fun _ => 0) (st, ext, vext).

Lemma vnode_get cs vs vext addr rc mp ino ret vp vs' :
  vnodes_ok cs vs vext -> vnodes vs !! addr = None -> (forall v, vext v + uses cs v < INT_MAX) ->
  vfscore_vget addr rc mp ino vs = Some (ret, vp, vs') -> vnodes_ok cs vs' (more vext vp).
Proof.
  intros V Ha Hm Eg. pose proof V as [I E N]. destruct (vget_spec vs _ addr rc mp ino I Ha Hm) as (ret' & vp' & vs2 & Eg' & Hgot & I').
  rewrite Eg in Eg'. injection Eg' as <- <- <-. unfold more. split.
  - eapply inv_proper; [reflexivity| |exact I']. intros v. destruct (vp =? 0); [done|]. unfold bump. case_decide; subst; lia.
  - intros v. specialize (E v). destruct (vp =? 0); [done|]. unfold bump. case_decide; subst; lia.
  - intros v vn Hv. destruct Hgot as [(p & w & _ & Hw & _ & _ & ->)|(_ & _ & [(_ & _ & ->)|(_ & _ & _ & Ev)])].
    + cbn [set_vnode vnodes] in Hv. rewrite lookup_insert_Some in Hv. destruct Hv as [[<- <-]|[_ Hv]]; [apply (N _ _ Hw)|by apply N].
    + by apply N.
    + rewrite Ev, lookup_insert_Some in Hv. destruct Hv as [[<- <-]|[_ Hv]]; [|by apply N]. split; [constructor|]. intros q.
      split; [by intros ?%elem_of_nil|]. intros (c & Hc & Ec). destruct (vnode_alive cs vs vext q c V Hc) as (x & Hx & _). congruence.
Qed.

Lemma dinv_init : dinv (dentry_init vnode_init) (fun _ => 0) (fun _ => 0).
Proof.
  split; cbn [dentry_init dentries dentry_hash_table fake vt cores].
  - assert (Ec : cores (dentry_init vnode_init) = ∅) by (unfold cores; cbn [dentry_init dentries]; apply fmap_empty). rewrite Ec. split.
    + done.
    + intros b l Hl. assert (l = []) as ->.
      { unfold zget in Hl. destruct (b <? 0); [done|]. by apply lookup_replicate in Hl as [-> _]. }
      split; [constructor|]. intros p. split; [by intros ?%not_elem_of_nil|]. intros (c & Hc & _). by rewrite lookup_empty in Hc.
    + constructor.
    + by intros p ?%not_elem_of_nil.
    + intros p c Hc. by rewrite lookup_empty in Hc.
    + intros p q c e Hc. by rewrite lookup_empty in Hc.
  - split; try (intros p d Hp; by rewrite lookup_empty in Hp); [done|]. exists (fun _ => 0%nat). intros p d Hp. by rewrite lookup_empty in Hp.
  - assert (Ec : cores (dentry_init vnode_init) = ∅) by (unfold cores; cbn [dentry_init dentries]; apply fmap_empty). rewrite Ec. split.
    + eapply inv_proper; [reflexivity| |exact inv_vnode_init]. intros v. unfold uses. by rewrite map_filter_empty, map_size_empty.
    + done.
    + intros v vn Hv. cbn in Hv. by rewrite lookup_empty in Hv.
Qed.

Lemma dstep_inv s s' : dstep s s' -> dinv s.1.1 s.1.2 s.2 -> dinv s'.1.1 s'.1.2 s'.2.
Proof.
  intros H I. destruct H as [st ext vext dp dup parent vp v path r st' Hn Hpar Hv Hvx Hvr Hl Hc E|st ext vext mp path r st' Hr Hl E
    |st ext vext p st' He Hr E|st ext vext p st' He E|st ext vext p st' He E|st ext vext dup dp d parent path r st' He Hr Hp Hk Hpar Hl Hc E
    |st ext vext addr rc mp ino ret vp vs Ha Hm E|st ext vext v vs He E]; cbn [fst snd] in *.
  - destruct (Z.eqb_spec dp 0) as [E0|E0].
    { unfold dentry_alloc in E. rewrite Hv, E0 in E. cbn [mbind option_bind Z.eqb] in E. by injection E as <- <-. }
    destruct dup; [|unfold dentry_alloc in E; rewrite Hv in E; cbn [mbind option_bind negb] in E; destruct (dp =? 0); by injection E as <- <-].
    destruct (dentry_alloc_spec st ext vext dp parent vp v path I E0 Hn Hpar Hv Hvr Hl Hc) as (s2 & E2 & I2 & _). rewrite E in E2. injection E2 as -> ->.
    unfold more. by destruct (Z.eqb_spec dp 0).
  - destruct (dentry_lookup_spec st ext vext mp path I Hr Hl) as [(p & d & _ & Hp & E2 & I2)|[_ E2]]; rewrite E in E2; injection E2 as -> ->; [|done].
    unfold more. destruct (r_ref _ _ (d_tree _ _ _ I) p d Hp) as [? _]. by destruct (Z.eqb_spec p 0).
  - destruct (dentries st !! p) as [d|] eqn:Hp; [|unfold dref in E; by rewrite Hp in E].
    destruct (hold_dentry st ext vext p d I Hp (Hr p d Hp)) as (_ & E2 & I2). rewrite E in E2. by injection E2 as ->.
  - destruct (drele_spec _ st ext vext p I He (Nat.lt_succ_diag_r _)) as (s2 & E2 & I2 & _). unfold drele in E. rewrite E in E2. by injection E2 as ->.
  - destruct (dentries st !! p) as [d|] eqn:Hp; [|unfold dentry_remove in E; by rewrite Hp in E].
    destruct (dentry_remove_spec st ext vext p d I Hp) as (s2 & E2 & I2 & _). rewrite E in E2. by injection E2 as ->.
  - destruct dup; [|unfold dentry_move in E; rewrite Hp in E; by injection E as _ <-].
    destruct (dentry_move_spec st ext vext dp d parent path I Hp Hk He Hr Hpar Hl Hc) as (s2 & E2 & I2 & _). rewrite E in E2. by injection E2 as _ ->.
  - destruct I as [T R V]. split; [done|done|]. by apply (vnode_get _ _ _ _ _ _ _ _ _ _ V Ha Hm E).
  - destruct I as [T R V]. split; [done|done|]. destruct (vnode_release _ _ _ v V He) as (vs2 & E2 & V2 & _). cbn [set_vt vt]. rewrite E in E2. by injection E2 as ->.
Qed.

Lemma dreachable_inv st ext vext : dreachable st ext vext -> dinv st ext vext.
Proof.
  intros H. change (dinv (st, ext, vext).1.1 (st, ext, vext).1.2 (st, ext, vext).2).
  assert (I := dinv_init). change (dinv (dentry_init vnode_init, fun _ : Z => 0, fun _ : Z => 0).1.1 (dentry_init vnode_init, fun _ : Z => 0, fun _ : Z => 0).1.2
    (dentry_init vnode_init, fun _ : Z => 0, fun _ : Z => 0).2) in I.
  induction H as [|a b c Hab _ IH]; [done|]. apply IH. by apply (dstep_inv a).
Qed.

(** C14: In every state that the users of the cache can reach by [dstep], a dentry that somebody holds is there
    with its vnode and its parent; a search succeeds and finds exactly the dentry of the mount
    point and the path, if there is one; and releasing a dentry succeeds, with all the parents
    and the vnode that go with it, and takes nothing away that is still held.  A dentry is made or moved only to a
    path that no other one has, and only a dentry without children is moved: one with children,
    which renaming a directory moves as well, has them unlinked twice ([moved_children_unlinked_twice]).
    Reference counts stay below INT_MAX ([room]). *)
Theorem dentry_cache_safe st ext vext :
  dreachable st ext vext -> room st ->
  (forall p, 0 < ext p -> exists d, dentries st !! p = Some d /\ is_Some (vnodes (vt st) !! d_vnode d) /\
     (d_parent d = 0 \/ is_Some (dentries st !! d_parent d))) /\
  (forall mp path, zlen path < PATH_MAX -> exists r st', dentry_lookup mp path st = Some (r, st') /\
     (r = 0 /\ (forall p, ~ cached st mp path p) \/ cached st mp path r /\ forall p, cached st mp path p -> p = r)) /\
  (forall p, 0 < ext p -> exists st', drele p st = Some st' /\
     forall q, 0 < bump ext p (-1) q -> is_Some (cores st' !! q) /\ cores st' !! q = cores st !! q).
Proof.
  intros H Hroom. pose proof (dreachable_inv _ _ _ H) as I. pose proof I as [T R V]. split; [|split].
  - intros p He. destruct (dentries st !! p) as [d|] eqn:Hp; [|rewrite (r_dead _ _ R p Hp) in He; lia]. exists d. split; [done|]. split.
    + destruct (vnode_alive _ _ _ p _ V (lookup_cores st p d Hp)) as (vn & Hv & _). by exists vn.
    + destruct (Z.eqb_spec (d_parent d) 0); [by left|right]. by apply (r_parent _ _ R p d).
  - intros mp path Hl. destruct (dentry_lookup_spec st ext vext mp path I Hroom Hl) as [(p & d & Hc & _ & -> & _)|[Hn ->]]; eexists _, _; (split; [done|]).
    + right. split; [done|]. intros q Hq. by apply (cached_unique st ext vext mp path).
    + by left.
  - intros p He. destruct (drele_spec _ st ext vext p I He (Nat.lt_succ_diag_r _)) as (st' & E & [_ R' _] & (Sc & _)). exists st'. split; [exact E|].
    intros q Hq. destruct (dentries st' !! q) as [d|] eqn:Hd; [|rewrite (r_dead _ _ R' q Hd) in Hq; lia].
    apply lookup_cores in Hd. split; [by eexists|]. rewrite map_subseteq_spec in Sc. rewrite Hd. symmetry. by apply Sc.
Qed.

(** A mount point with its root directory, a directory [/a] and a file [/a/b]: dentries 1, 2, 3 and vnodes 11, 12, 13. *)
Definition enter (parent dp vp ino : Z) (path : list Z) (st : dtab) : option dtab :=
  '(_, _, vs) ← vfscore_vget vp 0 100 ino (vt st);
  '(_, st) ← dentry_alloc dp true parent vp path (set_vt st vs);
  Some st.
Definition demo_root : option dtab := enter 0 1 11 0 [47] (dentry_init vnode_init).
Definition demo_cache : option dtab := st ← demo_root; st ← enter 1 2 12 1 [47; 97] st; enter 2 3 13 2 [47; 97; 47; 98] st.

Lemma dentry_cache_safe_witness :
  exists st, demo_root = Some st /\ exists r st', dentry_lookup 100 [47] st = Some (r, st') /\
    (r = 0 /\ (forall p, ~ cached st 100 [47] p) \/ cached st 100 [47] r /\ forall p, cached st 100 [47] p -> p = r).
Proof.
  eexists. split; [vm_compute; reflexivity|]. eapply dentry_cache_safe.
  - eapply rtc_l; [|eapply rtc_l; [|apply rtc_refl]].
    + eapply (dstep_vget _ _ _ 11 0 100 0); [reflexivity| |vm_compute; reflexivity]. intros v. vm_compute. reflexivity.
    + eapply (dstep_alloc _ _ _ 1 true 0 11 _ [47]); [reflexivity|by left|vm_compute; reflexivity|vm_compute; reflexivity|vm_compute; reflexivity|vm_compute; reflexivity| |vm_compute; reflexivity].
      intros p (d & Hd & _). cbn in Hd. by rewrite lookup_empty in Hd.
  - apply (bool_decide_unpack _). vm_compute. exact I.
  - vm_compute. reflexivity.
Defined.

Lemma rank_bound {A} (m : gmap Z A) (rank : Z -> nat) : exists n, forall p x, m !! p = Some x -> (rank p <= n)%nat.
Proof.
  induction m as [|p x m Hp [n IH]] using map_ind.
  - exists 0%nat. intros p x Hp. by rewrite lookup_empty in Hp.
  - exists (Nat.max n (rank p)). intros q y Hq. rewrite lookup_insert_Some in Hq. destruct Hq as [[<- _]|[_ Hq]]; [lia|]. apply IH in Hq. lia.
Qed.

(** When all references are given back, the cache is empty: no dentry is left behind in memory or
    in the table, and no dentry holds a vnode any more. *)
Theorem dentry_cache_drains st ext vext :
  dreachable st ext vext -> (forall p, ext p = 0) ->
  dentries st = ∅ /\ fake st = [] /\ (forall b l, zget (dentry_hash_table st) b = Some l -> l = []) /\
  forall v vn, vnodes (vt st) !! v = Some vn -> v_refcnt vn = vext v /\ v_names vn = [].
Proof.
  intros H He. destruct (dreachable_inv _ _ _ H) as [T R V]. assert (E : dentries st = ∅).
  { destruct (r_rank _ _ R) as [rank Hr]. destruct (rank_bound (dentries st) rank) as [n Hn]. apply map_empty. intros p.
    destruct (dentries st !! p) as [d|] eqn:Hp; [exfalso|done]. assert (Hd : (n - rank p < S n)%nat) by lia. revert p d Hp Hd.
    induction (S n) as [|k IH]; intros p d Hp Hd; [lia|]. destruct (r_ref _ _ R p d Hp) as (Hp0 & Hc & Hpos & _). rewrite He in Hc.
    destruct (r_kids _ _ R p d Hp) as [_ Hk]. destruct (d_child_list d) as [|c l]; [cbn in Hc; lia|].
    destruct (proj1 (Hk c) (list_elem_of_here _ _)) as (e & Hce & Ee). specialize (Hr c e Hce ltac:(congruence)). rewrite Ee in Hr.
    specialize (Hn c e Hce). apply (IH c e Hce). lia. }
  assert (Ec : cores st = ∅) by (unfold cores; by rewrite E, fmap_empty). rewrite Ec in *. split; [done|]. split; [|split].
  - destruct (fake st) as [|p l] eqn:Hf; [done|]. destruct (t_fake _ _ _ T p (list_elem_of_here _ _)) as [c Hc]. by rewrite lookup_empty in Hc.
  - intros b l Hl. destruct (t_bucket _ _ _ T b l Hl) as [_ Hb]. destruct l as [|p l]; [done|].
    destruct (proj1 (Hb p) (list_elem_of_here _ _)) as (c & Hc & _). by rewrite lookup_empty in Hc.
  - intros v vn Hv. destruct V as [I _ N]. destruct (i_ref _ _ I v vn Hv) as (_ & Hr & _). split.
    + rewrite Hr. unfold uses. rewrite map_filter_empty, map_size_empty. lia.
    + destruct (N v vn Hv) as [_ Hl]. destruct (v_names vn) as [|p l]; [done|].
      destruct (proj1 (Hl p) (list_elem_of_here _ _)) as (c & Hc & _). by rewrite lookup_empty in Hc.
Qed.

(** After the root of [demo_root] is released, only the reference of the file system to the vnode is left. *)
Lemma dentry_cache_drains_witness :
  exists st st', demo_root = Some st /\ drele 1 st = Some st' /\ dentries st' = ∅ /\
    forall v vn, vnodes (vt st') !! v = Some vn -> v_refcnt vn = bump (fun _ => 0) 11 1 v /\ v_names vn = [].
Proof.
  eexists _, _. split; [vm_compute; reflexivity|]. split; [vm_compute; reflexivity|].
  destruct (dentry_cache_drains (default (dentry_init vnode_init) (st ← demo_root; drele 1 st))
    (bump (more (fun _ => 0) 1) 1 (-1)) (more (fun _ => 0) 11)) as (H1 & _ & _ & H2).
  - eapply rtc_l; [|eapply rtc_l; [|eapply rtc_l; [|apply rtc_refl]]].
    + eapply (dstep_vget _ _ _ 11 0 100 0); [reflexivity| |vm_compute; reflexivity]. intros v. vm_compute. reflexivity.
    + eapply (dstep_alloc _ _ _ 1 true 0 11 _ [47]); [reflexivity|by left|vm_compute; reflexivity|vm_compute; reflexivity|vm_compute; reflexivity|vm_compute; reflexivity| |vm_compute; reflexivity].
      intros p (d & Hd & _). cbn in Hd. by rewrite lookup_empty in Hd.
    + apply dstep_drele; [vm_compute; reflexivity|vm_compute; reflexivity].
  - intros p. unfold more. cbn [Z.eqb]. apply (bump_back (fun _ => 0) 1 1).
  - split; [vm_compute in H1; exact H1|exact H2].
Defined.

(** Moving a directory takes its cached children out of the table; the release of a child then removes
    it from a list that it is no longer on. *)
Theorem moved_children_unlinked_twice :
  exists st st', demo_cache = Some st /\ dentry_move true 2 1 [47; 99] st = Some (0, st') /\ drele 3 st' = None /\ drele 3 st <> None.
Proof. eexists _, _. do 3 (split; [vm_compute; reflexivity|]). by vm_compute. Qed.

(** [sys_rename] moves the dentry to the last name of the new path instead of the path: the dentry is not found any more. *)
Theorem renamed_not_found :
  exists st st' st'', demo_cache = Some st /\ dentry_move true 3 1 [99] st = Some (0, st') /\ dentry_lookup 100 [47; 99] st' = Some (0, st'').
Proof. eexists _, _, _. do 2 (split; [vm_compute; reflexivity|]). vm_compute. reflexivity. Qed.

End Dentry.
