(* ===== verification/FileIo.v ===== *)
(** * FileIo: reading, writing and seeking through file descriptors

    Models [vfs_read] and [vfs_write] of [lib/vfscore/fops.c], [sys_read], [sys_write] and
    [sys_lseek] of [syscalls.c] and the calls of [main.c] on top of them, from the descriptor
    ([FdTable]) to the file of the RAM file system ([Ramfs]) and the caller's buffers ([Uio]).
    [None] is a use of memory that is not there, as in those files.  An open file is kept with
    the vnode of its dentry. *)
From Stdlib Require Import ZArith Lia Bool.
From stdpp Require Import gmap relations.
From S2P Require Import Prelude ErrMonad Buf Uio Vnode FdTable Ramfs RamfsFile RamfsDir RamfsRun.
Import Uio Ramfs RamfsFile RamfsRun.
Open Scope Z_scope.

Module FileIo.

Definition UK_FREAD : Z := 1.
Definition UK_FWRITE : Z := 2.
Definition UK_VFSCORE_NOPOS : Z := 1.
Definition FOF_OFFSET : Z := 0x800.
Definition O_APPEND : Z := 0x400.
Definition O_DSYNC : Z := 0x1000.
Definition O_SYNC : Z := 0x101000.
Definition IO_SYNC : Z := 2.
Definition IOSIZE_MAX : Z := 2 ^ 31 - 1.
Definition SEEK_CUR : Z := 1.
Definition SEEK_END : Z := 2.
Definition ESPIPE : Z := 29.
Definition EWOULDBLOCK : Z := 35.
Definition EINTR : Z := 4.

(** An open file: [f_vnode] is the vnode of [f_dentry], 0 without one. *)
Record file := MkFile { f_flags : Z; f_offset : Z; f_vfs_flags : Z; f_vnode : Z }.

(** The descriptors, the open files by their addresses, and the file system. *)
Record io := Io { tab : FdTable.fdtable; opened : gmap Z file; fs : ramfs }.

Definition flag (x mask : Z) : bool := negb (Z.land x mask =? 0).
Definition move_to (f : file) (off : Z) : file := MkFile (f_flags f) off (f_vfs_flags f) (f_vnode f).

(** The position after a transfer of [count] bytes. *)
Definition advance (f : file) (error flags count : Z) : file :=
  if (error =? 0) && negb (flag flags FOF_OFFSET) && negb (flag (f_vfs_flags f) UK_VFSCORE_NOPOS)
  then move_to f (sext 64 (f_offset f + count)) else f.

Definition vfs_read (f : file) (u : uio) (flags : Z) (st : ramfs) : option (Z * uio * file * ramfs) :=
  if f_vnode f =? 0 then None
  else
    let bytes := uio_resid u in
    let u := if negb (flag flags FOF_OFFSET) then set_offset u (f_offset f) else u in
    '(error, u, st) ← ramfs_read (f_vnode f) u st;
    Some (error, u, advance f error flags (u64 (bytes - uio_resid u)), st).

Definition vfs_write (f : file) (u : uio) (flags : Z) (st : ramfs) : option (Z * uio * file * ramfs) :=
  if f_vnode f =? 0 then None
  else
    let bytes := uio_resid u in
    let ioflags := if flag (f_flags f) O_APPEND then IO_APPEND else 0 in
    let ioflags := if flag (f_flags f) (Z.lor O_DSYNC O_SYNC) then Z.lor ioflags IO_SYNC else ioflags in
    let u := if negb (flag flags FOF_OFFSET) then set_offset u (f_offset f) else u in
    '(error, u, st) ← ramfs_write (f_vnode f) u ioflags st;
    Some (error, u, advance f error flags (u64 (bytes - uio_resid u)), st).

(** The bytes of all vectors, [None] when there are too many. *)
Fixpoint iov_bytes (lens : list Z) (bytes : Z) : option Z :=
  match lens with
  | [] => Some bytes
  | len :: lens' => if IOSIZE_MAX - bytes <? len then None else iov_bytes lens' (bytes + len)
  end.

(** What the vectors of a transfer hold. *)
Definition memory_of (u : uio) : list (list Z) := map iov_block (uio_done u ++ uio_iov u).

(** The error, the value of [count] if it was set, the caller's buffers, the open file and the
    file system; [room] is whether [calloc] has memory for the copy of the vectors. *)
Definition transfer (allowed : Z) (dir : uio_rw) (run : file -> uio -> Z -> ramfs -> option (Z * uio * file * ramfs))
    (room : bool) (f : file) (bufs : list (list Z)) (offset : Z) (st : ramfs)
    : option (Z * option Z * list (list Z) * file * ramfs) :=
  if negb (flag (f_flags f) allowed) then Some (FdTable.EBADF, None, bufs, f, st)
  else
    match iov_bytes (map (fun b => zlen b) bufs) 0 with
    | None => Some (EINVAL, None, bufs, f, st)
    | Some bytes =>
        if bytes =? 0 then Some (0, Some 0, bufs, f, st)
        else if negb room then Some (ENOMEM, None, bufs, f, st)
        else
          '(error, u, f, st) ← run f (uio_of bufs offset dir) (if offset =? -1 then 0 else FOF_OFFSET) st;
          Some (error, Some (u64 (bytes - uio_resid u)), memory_of u, f, st)
    end.
Definition sys_read := transfer UK_FREAD UIO_READ vfs_read.
Definition sys_write := transfer UK_FWRITE UIO_WRITE vfs_write.

(** The seek operation of the RAM file system does nothing. *)
Definition sys_lseek (f : file) (off type : Z) (st : ramfs) : option (Z * option Z * file) :=
  if f_vnode f =? 0 then Some (ESPIPE, None, f)
  else
    v ← Vnode.vnodes (vt st) !! f_vnode f;
    let off := if type =? SEEK_CUR then sext 64 (f_offset f + off)
               else if type =? SEEK_END then sext 64 (Vnode.v_size v + off) else off in
    if 0 <=? off then Some (0, Some off, move_to f off) else Some (EINVAL, None, f).

(** [bytes] becomes an [int]. *)
Definition has_error (error : Z) (bytes : option Z) : bool :=
  negb (error =? 0) &&
  (match bytes with Some b => sext 32 b =? 0 | None => false end || negb (error =? EWOULDBLOCK) && negb (error =? EINTR)).

(** A call returns a value, or -1 with [errno]. *)
Definition with_file {A} (fd : Z) (none : A) (call : file -> ramfs -> option (Z * option Z * A * file * ramfs))
    (fails : Z -> option Z -> bool) (s : io) : option ((Z + Z) * A * io) :=
  '(r, t) ← FdTable.fget fd (tab s);
  match r with
  | inl e => Some (inl e, none, Io t (opened s) (fs s))
  | inr p =>
      f ← opened s !! p;
      '(error, value, a, f, st) ← call f (fs s);
      '(_, t) ← FdTable.fdrop p t;
      let s := Io t (<[p := f]> (opened s)) st in
      if fails error value then Some (inl error, a, s)
      else value ← value; Some (inr value, a, s)
  end.

Definition preadv (room : bool) (fd : Z) (bufs : list (list Z)) (offset : Z) : io -> option ((Z + Z) * list (list Z) * io) :=
  with_file fd bufs (fun f => sys_read room f bufs offset) has_error.
Definition pwritev (room : bool) (fd : Z) (bufs : list (list Z)) (offset : Z) : io -> option ((Z + Z) * list (list Z) * io) :=
  with_file fd bufs (fun f => sys_write room f bufs offset) has_error.
Definition readv (room : bool) (fd : Z) (bufs : list (list Z)) := preadv room fd bufs (-1).
Definition writev (room : bool) (fd : Z) (bufs : list (list Z)) := pwritev room fd bufs (-1).
Definition pread (room : bool) (fd : Z) (buf : list Z) (offset : Z) := preadv room fd [buf] offset.
Definition pwrite (room : bool) (fd : Z) (buf : list Z) (offset : Z) := pwritev room fd [buf] offset.
Definition read (room : bool) (fd : Z) (buf : list Z) := pread room fd buf (-1).
Definition write (room : bool) (fd : Z) (buf : list Z) := pwrite room fd buf (-1).
Definition lseek (fd offset whence : Z) : io -> option ((Z + Z) * unit * io) :=
  with_file fd tt (fun f st => '(error, org, f) ← sys_lseek f offset whence st; Some (error, org, tt, f, st))
    (fun error _ => negb (error =? 0)).

(** ** What the calls promise

    A file is its bytes and the position of the descriptor. *)

Record afile := AFile { a_bytes : list Z; a_pos : Z }.

Inductive call :=
| CRead (room : bool) (bufs : list (list Z)) (offset : Z)
| CWrite (room : bool) (bufs : list (list Z)) (offset : Z)
| CSeek (offset whence : Z).

(** The bytes [d] at [at_], with zeros between the old end and them. *)
Definition overwrite (l : list Z) (at_ : Z) (d : list Z) : list Z :=
  take (Z.to_nat at_) (l ++ replicate (Z.to_nat (at_ - zlen l)) 0) ++ d ++ drop (Z.to_nat (at_ + zlen d)) l.

Definition position (a : afile) (offset : Z) : Z := if offset =? -1 then a_pos a else offset.
Definition after (a : afile) (offset count : Z) : Z := if offset =? -1 then a_pos a + count else a_pos a.

(** The calls that fail before they reach the file. *)
Definition refused (room : bool) (bufs : list (list Z)) (at_ : Z) : option Z :=
  if IOSIZE_MAX <? zlen (concat bufs) then Some EINVAL
  else if zlen (concat bufs) =? 0 then None
  else if negb room then Some ENOMEM
  else if at_ <? 0 then Some EINVAL else None.

(** What a buffer to read into holds before the call. *)
Definition buffers (c : call) : list Z := match c with CRead _ bufs _ => concat bufs | _ => [] end.

(** The result of a call, what the buffers to read into hold after it, and the file. *)
Inductive promised (a : afile) : call -> Z + Z -> list Z -> afile -> Prop :=
| p_refused c room bufs offset e :
    c = CRead room bufs offset \/ c = CWrite room bufs offset ->
    refused room bufs (position a offset) = Some e -> promised a c (inl e) (buffers c) a
| p_read room bufs offset data :
    refused room bufs (position a offset) = None ->
    data = take (length (concat bufs)) (drop (Z.to_nat (position a offset)) (a_bytes a)) ->
    promised a (CRead room bufs offset) (inr (zlen data)) (data ++ drop (length data) (concat bufs))
      (AFile (a_bytes a) (after a offset (zlen data)))
| p_write_nothing room bufs offset : concat bufs = [] -> promised a (CWrite room bufs offset) (inr 0) [] a
| p_write room bufs offset :
    refused room bufs (position a offset) = None -> concat bufs <> [] ->
    promised a (CWrite room bufs offset) (inr (zlen (concat bufs))) []
      (AFile (overwrite (a_bytes a) (position a offset) (concat bufs)) (after a offset (zlen (concat bufs))))
| p_write_full room bufs offset :
    refused room bufs (position a offset) = None -> promised a (CWrite room bufs offset) (inl EIO) [] a
| p_seek offset whence pos :
    pos = (if whence =? SEEK_CUR then a_pos a + offset else if whence =? SEEK_END then zlen (a_bytes a) + offset else offset) ->
    promised a (CSeek offset whence) (if 0 <=? pos then inr pos else inl EINVAL) []
      (if 0 <=? pos then AFile (a_bytes a) pos else a).

Definition exec (fd : Z) (c : call) (s : io) : option ((Z + Z) * list Z * io) :=
  match c with
  | CRead room bufs offset => '(r, m, s) ← preadv room fd bufs offset s; Some (r, concat m, s)
  | CWrite room bufs offset => '(r, _, s) ← pwritev room fd bufs offset s; Some (r, [], s)
  | CSeek offset whence => '(r, _, s) ← lseek fd offset whence s; Some (r, [], s)
  end.

(** The descriptor [fd] is that of a file with the bytes and the position of [a], opened for reading and writing. *)
Record shows (fd : Z) (s : io) (a : afile) (p vp : Z) (f : file) (K : Z -> list Z) (ext : Z -> Z) (v : Vnode.vnode) (n : ramfs_node) : Prop := Shows {
  s_tab : FdTable.inv (tab s) ext;
  s_few : FdTable.few ext;
  s_open : FdTable.open_fd (tab s) fd p;
  s_file : opened s !! p = Some f;
  s_flags : flag (f_flags f) UK_FREAD = true /\ flag (f_flags f) UK_FWRITE = true /\ flag (f_flags f) O_APPEND = false;
  s_pos : flag (f_vfs_flags f) UK_VFSCORE_NOPOS = false /\ f_offset f = a_pos a /\ 0 <= a_pos a;
  s_vnode : f_vnode f = vp /\ vp <> 0;
  s_fs : inv (fs s) K;
  s_node : vnode_ok (fs s) vp v n /\ rn_type n = VREG;
  s_bytes : content (blocks (fs s)) n = a_bytes a;
  s_spare : zeros (spare (blocks (fs s)) n)
}.
Definition simulates (fd : Z) (s : io) (a : afile) : Prop := exists p vp f K ext v n, shows fd s a p vp f K ext v n.

Lemma iov_bytes_spec (bufs : list (list Z)) : forall b, 0 <= b <= IOSIZE_MAX ->
  iov_bytes (map (fun b : list Z => zlen b) bufs) b = if IOSIZE_MAX <? b + zlen (concat bufs) then None else Some (b + zlen (concat bufs)).
Proof.
  induction bufs as [|x bufs IH]; intros b Hb; cbn [map iov_bytes concat].
  - cbn [length]. change (Z.of_nat 0) with 0. rewrite Z.add_0_r. by destruct (Z.ltb_spec IOSIZE_MAX b); [lia|].
  - rewrite length_app. destruct (Z.ltb_spec (IOSIZE_MAX - b) (zlen x)).
    + by destruct (Z.ltb_spec IOSIZE_MAX (b + Z.of_nat (length x + length (concat bufs)))); [|lia].
    + rewrite IH by lia. replace (b + zlen x + zlen (concat bufs)) with (b + Z.of_nat (length x + length (concat bufs))) by lia. done.
Qed.

(** The buffers of a transfer hold what was moved, then what they held. *)
Lemma memory_front u : uio_ok u -> concat (memory_of u) = front u ++ rest u.
Proof.
  intros [D V _]. unfold memory_of, front, rest. induction (uio_done u) as [|x l IH]; cbn [app map concat].
  - destruct (uio_iov u) as [|x r]; [done|]. destruct V as [_ V]. cbn [map concat].
    rewrite ahead_front, app_nil_r by done. rewrite app_assoc, take_drop. f_equal.
    induction V as [|y r [_ Hy] _ IH]; [done|]. cbn [map concat]. rewrite Hy, drop_0. by f_equal.
  - apply Forall_cons in D as [[Ho H0] D]. rewrite IH by done. unfold iov_ok in Ho. rewrite (take_ge (iov_block x)), (drop_ge (iov_block x)) by lia.
    by rewrite <- app_assoc.
Qed.

(** The descriptor is looked up and given back around the call. *)
Lemma with_file_spec {A} fd s p f ext (none : A) call fails error value m f' st' :
  FdTable.inv (tab s) ext -> FdTable.few ext -> FdTable.open_fd (tab s) fd p -> opened s !! p = Some f ->
  call f (fs s) = Some (error, value, m, f', st') ->
  exists t', FdTable.inv t' ext /\ FdTable.files t' = FdTable.files (tab s) /\
    with_file fd none call fails s =
      (let s' := Io t' (<[p := f']> (opened s)) st' in
       if fails error value then Some (inl error, m, s') else value ← value; Some (inr value, m, s')).
Proof.
  intros I F O Hf Hc. destruct (FdTable.get_open (tab s) ext fd p I O) as (h & Eg & I1); [intros x; specialize (F x); lia|].
  destruct (FdTable.drop_spec _ _ p I1) as (last & t' & Ed & I2 & _ & Ef & _).
  { destruct (FdTable.open_fd_counted _ _ fd p I O) as [_ H1]. split; [by apply (FdTable.open_fd_counted _ _ fd p I1)|].
    right. rewrite bump_eq. cbn. lia. }
  exists t'. split; [by apply (FdTable.inv_bump_back _ _ p)|]. split; [done|]. unfold with_file, FdTable.fget.
  rewrite (ebind_ok _ _ _ _ _ Eg). destruct O as [_ Hp]. destruct (Z.eqb_spec p 0); [done|]. cbn [mbind option_bind eret].
  rewrite Hf. cbn [mbind option_bind]. rewrite Hc. cbn [mbind option_bind]. by rewrite Ed.
Qed.

(** What was there before a call that leaves the file as it is. *)
Lemma shows_again fd s a p vp f K ext v n t' f' :
  shows fd s a p vp f K ext v n -> FdTable.inv t' ext -> FdTable.files t' = FdTable.files (tab s) ->
  f_flags f' = f_flags f -> f_vfs_flags f' = f_vfs_flags f -> f_vnode f' = f_vnode f -> 0 <= f_offset f' ->
  forall st' K' v' n', inv st' K' -> vnode_ok st' vp v' n' -> rn_type n' = VREG -> zeros (spare (blocks st') n') ->
  simulates fd (Io t' (<[p := f']> (opened s)) st') (AFile (content (blocks st') n') (f_offset f')).
Proof.
  intros S I Ef E1 E2 E3 Ho st' K' v' n' Ifs Vo Et Z. destruct S as [S1 S2 S3 S4 S5 S6 S7 S8 S9 S10 S11].
  exists p, vp, f', K', ext, v', n'. split; cbn [tab opened fs a_bytes a_pos]; try done.
  - unfold FdTable.open_fd in *. by rewrite Ef.
  - apply lookup_insert_eq.
  - by rewrite E1.
  - rewrite E2. destruct S6 as [? _]. done.
  - by rewrite E3.
Qed.

Lemma sext64_id z : - 2 ^ 63 <= z < 2 ^ 63 -> sext 64 z = z.
Proof.
  intros Hz. unfold sext, wrap. change (64 - 1) with 63. destruct (Z.leb_spec 0 z).
  - rewrite Z.mod_small by lia. by destruct (Z.ltb_spec z (2 ^ 63)); [|lia].
  - assert (E : z mod 2 ^ 64 = z + 2 ^ 64) by (symmetry; apply Z.mod_unique with (-1); lia). rewrite E.
    destruct (Z.ltb_spec (z + 2 ^ 64) (2 ^ 63)); lia.
Qed.

(** Numbers that no call of the program can make overflow. *)
Definition fits (a : afile) (c : call) : Prop :=
  a_pos a < 2 ^ 61 /\ zlen (a_bytes a) < 2 ^ 61 /\
  match c with CRead _ _ off | CWrite _ _ off | CSeek off _ => - 2 ^ 61 < off < 2 ^ 61 end.

Definition performs (fd : Z) (c : call) (s : io) (a : afile) : Prop :=
  exists r m s' a', exec fd c s = Some (r, m, s') /\ promised a c r m a' /\ simulates fd s' a'.

Lemma afile_eta a b p : b = a_bytes a -> p = a_pos a -> AFile b p = a.
Proof. destruct a. by intros -> ->. Qed.

(** The file and its position are as before. *)
Lemma shows_same fd s a p vp f K ext v n t' :
  shows fd s a p vp f K ext v n -> FdTable.inv t' ext -> FdTable.files t' = FdTable.files (tab s) ->
  simulates fd (Io t' (<[p := f]> (opened s)) (fs s)) a.
Proof.
  intros S I Ef. destruct (s_pos _ _ _ _ _ _ _ _ _ _ S) as (_ & E & Hp). destruct (s_node _ _ _ _ _ _ _ _ _ _ S) as [Vo Et].
  rewrite <- (afile_eta a (content (blocks (fs s)) n) (f_offset f)); [|apply S|done].
  eapply (shows_again fd s a p vp f K ext v n t' f); try done; try lia; apply S.
Qed.

Lemma seek_performs fd s a off whence : simulates fd s a -> fits a (CSeek off whence) -> performs fd (CSeek off whence) s a.
Proof.
  intros (p & vp & f & K & ext & v & n & S) (Hp & Hb & Ho). pose proof S as [S1 S2 S3 S4 S5 (S6 & S6' & S6'') [S7 S7'] S8 [S9 S9'] S10 S11].
  pose proof (content_length _ _ _ _ S8 (vo_node _ _ _ _ S9)) as Hcl. rewrite S10 in Hcl.
  set (pos := if whence =? SEEK_CUR then a_pos a + off else if whence =? SEEK_END then zlen (a_bytes a) + off else off).
  assert (El : sys_lseek f off whence (fs s) = if 0 <=? pos then Some (0, Some pos, move_to f pos) else Some (EINVAL, None, f)).
  { unfold sys_lseek. rewrite S7. destruct (Z.eqb_spec vp 0); [done|]. rewrite (vo_vnode _ _ _ _ S9). cbn [mbind option_bind].
    rewrite (vo_size _ _ _ _ S9), <- Hcl, S6'. unfold pos. destruct (whence =? SEEK_CUR); [by rewrite sext64_id by lia|].
    destruct (whence =? SEEK_END); [by rewrite sext64_id by lia|]. done. }
  assert (P := p_seek a off whence pos eq_refl). unfold performs, exec, lseek. destruct (Z.leb_spec 0 pos) as [H0|H0].
  - destruct (with_file_spec fd s p f ext tt (fun f st => '(error, org, f) ← sys_lseek f off whence st; Some (error, org, tt, f, st))
      (fun error _ => negb (error =? 0)) 0 (Some pos) tt (move_to f pos) (fs s) S1 S2 S3 S4) as (t' & I' & Ef & E); [by rewrite El|].
    rewrite E. eexists _, _, _, _. split; [done|]. split; [exact P|]. rewrite <- S10.
    by apply (shows_again fd s a p vp f K ext v n t' (move_to f pos) S I' Ef) with (st' := fs s) (K' := K) (v' := v) (n' := n).
  - destruct (with_file_spec fd s p f ext tt (fun f st => '(error, org, f) ← sys_lseek f off whence st; Some (error, org, tt, f, st))
      (fun error _ => negb (error =? 0)) EINVAL None tt f (fs s) S1 S2 S3 S4) as (t' & I' & Ef & E); [by rewrite El|].
    rewrite E. eexists _, _, _, _. split; [done|]. split; [exact P|]. by apply (shows_same fd s a p vp f K ext v n).
Qed.

(** The calls that do not reach the file. *)
Lemma transfer_refused allowed dir run room f bufs offset st :
  flag (f_flags f) allowed = true ->
  transfer allowed dir run room f bufs offset st =
    if IOSIZE_MAX <? zlen (concat bufs) then Some (EINVAL, None, bufs, f, st)
    else if zlen (concat bufs) =? 0 then Some (0, Some 0, bufs, f, st)
    else if negb room then Some (ENOMEM, None, bufs, f, st)
    else '(error, u, f, st) ← run f (uio_of bufs offset dir) (if offset =? -1 then 0 else FOF_OFFSET) st;
         Some (error, Some (u64 (zlen (concat bufs) - uio_resid u)), memory_of u, f, st).
Proof.
  intros Hf. unfold transfer. rewrite Hf. cbn [negb]. rewrite iov_bytes_spec by (unfold IOSIZE_MAX; lia). rewrite Z.add_0_l.
  by destruct (IOSIZE_MAX <? zlen (concat bufs)).
Qed.

Lemma memory_uio_of bufs off dir : concat (memory_of (uio_of bufs off dir)) = concat bufs.
Proof. rewrite memory_front by apply uio_of_ok. by rewrite uio_of_front, uio_of_rest. Qed.

(** The transfer starts at the position or the offset. *)
Lemma start_offset f bufs offset dir a : f_offset f = a_pos a ->
  (if negb (flag (if offset =? -1 then 0 else FOF_OFFSET) FOF_OFFSET) then set_offset (uio_of bufs offset dir) (f_offset f) else uio_of bufs offset dir) =
    uio_of bufs (position a offset) dir.
Proof. intros E. unfold position. destruct (Z.eqb_spec offset (-1)) as [->|]; [|done]. rewrite E. done. Qed.

Lemma advance_ok f a offset count : f_offset f = a_pos a -> flag (f_vfs_flags f) UK_VFSCORE_NOPOS = false ->
  0 <= count < 2 ^ 61 -> 0 <= a_pos a < 2 ^ 61 ->
  advance f 0 (if offset =? -1 then 0 else FOF_OFFSET) count = move_to f (after a offset count).
Proof.
  intros E1 E2 Hc Hp. unfold advance, after. rewrite E2. destruct (Z.eqb_spec offset (-1)) as [->|].
  - change (flag 0 FOF_OFFSET) with false. cbn [Z.eqb andb negb]. rewrite E1, sext64_id by lia. done.
  - change (flag FOF_OFFSET FOF_OFFSET) with true. cbn [Z.eqb andb negb]. destruct f. cbn in *. by rewrite E1.
Qed.

Lemma read_performs_fd fd s a room bufs offset :
  simulates fd s a -> fits a (CRead room bufs offset) -> performs fd (CRead room bufs offset) s a.
Proof.
  intros (p & vp & f & K & ext & v & n & S) (Hp & Hb & Ho). pose proof S as [S1 S2 S3 S4 (F1 & F2 & F3) (S6 & S6' & S6'') [S7 S7'] S8 [S9 S9'] S10 S11].
  assert (Ec := transfer_refused UK_FREAD UIO_READ vfs_read room f bufs offset (fs s) F1). fold sys_read in Ec.
  pose proof (with_file_spec fd s p f ext bufs (fun f => sys_read room f bufs offset) has_error) as W.
  assert (R := fun e => p_refused a (CRead room bufs offset) room bufs offset e (or_introl eq_refl)). unfold refused in R.
  assert (Refuse : forall e, sys_read room f bufs offset (fs s) = Some (e, None, bufs, f, fs s) -> has_error e None = true ->
    promised a (CRead room bufs offset) (inl e) (concat bufs) a -> performs fd (CRead room bufs offset) s a).
  { intros e E H P. destruct (W e None bufs f (fs s) S1 S2 S3 S4 E) as (t' & I' & Ef & Ew). rewrite H in Ew. unfold performs, exec, preadv. rewrite Ew.
    eexists _, _, _, _. split; [done|]. split; [exact P|]. by apply (shows_same fd s a p vp f K ext v n). }
  destruct (Z.ltb_spec IOSIZE_MAX (zlen (concat bufs))) as [Hbig|Hbig]; [by apply (Refuse EINVAL); [| |apply R]|].
  destruct (Z.eqb_spec (zlen (concat bufs)) 0) as [H0|H0].
  { assert (En : concat bufs = []) by (destruct (concat bufs); [done|cbn [length] in H0; lia]).
    destruct (W 0 (Some 0) bufs f (fs s) S1 S2 S3 S4 Ec) as (t' & I' & Ef & Ew). unfold performs, exec, preadv. rewrite Ew. cbn [has_error Z.eqb negb andb mbind option_bind].
    eexists _, _, _, _. split; [done|]. split; [|by apply (shows_same fd s a p vp f K ext v n)].
    pose proof (p_read a room bufs offset [] ) as P. unfold refused in P. rewrite En in P. cbn [length take drop app] in P. change (Z.of_nat 0) with 0 in P. rewrite En.
    assert (Ea : AFile (a_bytes a) (after a offset 0) = a) by (apply afile_eta; [done|]; unfold after; destruct (offset =? -1); lia).
    rewrite Ea in P. apply P; [by destruct room|done]. }
  destruct room; cbn [negb] in *; [|by apply (Refuse ENOMEM); [| |apply R]].
  assert (Hn : 0 < zlen (concat bufs) < 2 ^ 31) by (unfold IOSIZE_MAX in Hbig; lia).
  unfold vfs_read in Ec. rewrite S7 in Ec. destruct (Z.eqb_spec vp 0); [done|]. rewrite (start_offset f bufs offset UIO_READ a S6') in Ec.
  set (u := uio_of bufs (position a offset) UIO_READ) in *. change (uio_resid (uio_of bufs offset UIO_READ)) with (zlen (concat bufs)) in Ec.
  rewrite (read_file_bytes (fs s) vp v n u S9), S9' in Ec. change (VREG =? VDIR) with false in Ec. change (VREG =? VREG) with true in Ec. cbn [negb] in Ec.
  destruct (Z.ltb_spec (position a offset) 0) as [Hneg|Hpos].
  - unfold read_bytes in Ec. change (uio_offset u) with (position a offset) in Ec. destruct (Z.ltb_spec (position a offset) 0); [|lia].
    cbn [mbind option_bind] in Ec. change (uio_resid u) with (zlen (concat bufs)) in Ec. rewrite Z.sub_diag in Ec. change (advance f EINVAL _ _) with f in Ec.
    destruct (W EINVAL (Some (u64 0)) (memory_of u) f (fs s) S1 S2 S3 S4 Ec) as (t' & I' & Ef & Ew). unfold performs, exec, preadv. rewrite Ew.
    change (has_error EINVAL (Some (u64 0))) with true. eexists _, _, _, _. split; [done|]. split; [|by apply (shows_same fd s a p vp f K ext v n)].
    unfold u. rewrite memory_uio_of. apply R. done.
  - destruct (read_bytes_spec (fs s) K vp v n u S8 S9 (uio_of_ok _ _ _) eq_refl Hpos) as (u' & st' & Er & Hfr & Hre & Hok & _ & Hres & I2 & Eb & _ & _ & _ & n' & Vo' & Al).
    { change (uio_resid u) with (zlen (concat bufs)). lia. }
    { change (uio_resid u) with (zlen (concat bufs)). change (uio_offset u) with (position a offset). unfold position. destruct (offset =? -1); lia. }
    change (uio_resid u) with (zlen (concat bufs)) in *. change (uio_offset u) with (position a offset) in *. rewrite S10 in *. rewrite Nat2Z.id in *.
    set (data := take (length (concat bufs)) (drop (Z.to_nat (position a offset)) (a_bytes a))) in *.
    assert (Hdl : zlen data <= zlen (concat bufs)) by (unfold data; rewrite length_take; lia).
    rewrite Er in Ec. cbn [mbind option_bind] in Ec. rewrite Hres in Ec. replace (zlen (concat bufs) - (zlen (concat bufs) - zlen data)) with (zlen data) in Ec by lia.
    rewrite wrap_small in Ec by (unfold in_u; lia). rewrite (advance_ok f a offset (zlen data) S6' S6) in Ec by lia.
    destruct (W 0 (Some (zlen data)) (memory_of u') _ st' S1 S2 S3 S4 Ec) as (t' & I' & Ef & Ew). unfold performs, exec, preadv. rewrite Ew.
    cbn [has_error Z.eqb negb andb mbind option_bind]. eexists _, _, _, _. split; [done|]. rewrite (memory_front u' Hok), Hfr, Hre.
    unfold u. rewrite uio_of_front, uio_of_rest. cbn [app]. split.
    + apply p_read; [|done]. unfold refused. destruct (Z.ltb_spec IOSIZE_MAX (zlen (concat bufs))); [lia|]. destruct (Z.eqb_spec (zlen (concat bufs)) 0); [lia|].
      cbn [negb]. by destruct (Z.ltb_spec (position a offset) 0); [lia|].
    + destruct Al as (A1 & _ & _ & A4 & A5 & A6 & _). assert (Ec' : content (blocks st') n' = a_bytes a) by (unfold content; by rewrite Eb, A4, A5).
      rewrite <- Ec'. apply (shows_again fd s a p vp f K ext v n t' (move_to f (after a offset (zlen data))) S I' Ef) with (K' := K) (v' := v); try done.
      * cbn [move_to f_offset]. unfold after. destruct (offset =? -1); lia.
      * congruence.
      * unfold spare in *. by rewrite Eb, A4, A5, A6.
Qed.

Lemma zeros_replicate l : zeros l -> l = replicate (length l) 0.
Proof. induction 1 as [|c l -> _ IH]; [done|]. cbn [length replicate]. by f_equal. Qed.

(** A write to a file whose spare room is zero. *)
Lemma write_overwrites l g off d data :
  zeros g -> 0 <= off -> zlen g = Z.max (zlen l) (off + zlen d) - zlen l -> buf_write (l ++ g) off d = Some data ->
  data = overwrite l off d.
Proof.
  intros Hz Ho Hg H. pose proof (buf_write_range _ _ _ _ H) as [_ Hr]. rewrite buf_write_ok in H by lia. injection H as <-.
  rewrite (zeros_replicate g Hz). unfold overwrite. f_equal; [|f_equal].
  - destruct (Z.leb_spec off (zlen l)).
    + by rewrite !take_app_le by lia.
    + rewrite !take_app_ge by lia. f_equal. rewrite !take_replicate. f_equal. lia.
  - destruct (Z.leb_spec (off + zlen d) (zlen l)).
    + rewrite drop_app_le by lia. replace (length g) with 0%nat by lia. rewrite app_nil_r. f_equal. lia.
    + rewrite !drop_ge; [done|lia|rewrite length_app, length_replicate; lia].
Qed.

Lemma gap_zeros st K np n z : inv st K -> nodes st !! np = Some n -> zeros (spare (blocks st) n) -> rn_size n <= z ->
  zeros (gap (blocks st) n z) /\ zlen (gap (blocks st) n z) = z - rn_size n.
Proof.
  intros I Hn Hz Hle. pose proof (spare_length st K np n I Hn) as Hsl. unfold gap. destruct (Z.leb_spec z (rn_bufsize n)).
  - split; [by apply Forall_take|]. rewrite length_take. lia.
  - split; [by apply Forall_replicate|]. rewrite length_replicate. lia.
Qed.

Lemma write_performs_fd fd s a room bufs offset :
  simulates fd s a -> fits a (CWrite room bufs offset) -> performs fd (CWrite room bufs offset) s a.
Proof.
  intros (p & vp & f & K & ext & v & n & S) (Hp & Hb & Ho). pose proof S as [S1 S2 S3 S4 (F1 & F2 & F3) (S6 & S6' & S6'') [S7 S7'] S8 [S9 S9'] S10 S11].
  assert (Ec := transfer_refused UK_FWRITE UIO_WRITE vfs_write room f bufs offset (fs s) F2). fold sys_write in Ec.
  pose proof (with_file_spec fd s p f ext bufs (fun f => sys_write room f bufs offset) has_error) as W.
  assert (R := fun e => p_refused a (CWrite room bufs offset) room bufs offset e (or_intror eq_refl)). unfold refused in R.
  assert (Refuse : forall e value m, sys_write room f bufs offset (fs s) = Some (e, value, m, f, fs s) -> has_error e value = true ->
    promised a (CWrite room bufs offset) (inl e) [] a -> performs fd (CWrite room bufs offset) s a).
  { intros e value m E H P. destruct (W e value m f (fs s) S1 S2 S3 S4 E) as (t' & I' & Ef & Ew). rewrite H in Ew. unfold performs, exec, pwritev. rewrite Ew.
    eexists _, _, _, _. split; [done|]. split; [exact P|]. by apply (shows_same fd s a p vp f K ext v n). }
  destruct (Z.ltb_spec IOSIZE_MAX (zlen (concat bufs))) as [Hbig|Hbig]; [by apply (Refuse EINVAL None bufs); [| |apply R]|].
  destruct (Z.eqb_spec (zlen (concat bufs)) 0) as [H0|H0].
  { assert (En : concat bufs = []) by (destruct (concat bufs); [done|cbn [length] in H0; lia]).
    destruct (W 0 (Some 0) bufs f (fs s) S1 S2 S3 S4 Ec) as (t' & I' & Ef & Ew). unfold performs, exec, pwritev. rewrite Ew. cbn [has_error Z.eqb negb andb mbind option_bind].
    eexists _, _, _, _. split; [done|]. split; [by apply p_write_nothing|by apply (shows_same fd s a p vp f K ext v n)]. }
  destruct room; cbn [negb] in *; [|by apply (Refuse ENOMEM None bufs); [| |apply R]].
  assert (Hn : 0 < zlen (concat bufs) < 2 ^ 31) by (unfold IOSIZE_MAX in Hbig; lia).
  unfold vfs_write in Ec. rewrite S7, F3 in Ec. destruct (Z.eqb_spec vp 0); [done|]. rewrite (start_offset f bufs offset UIO_WRITE a S6') in Ec.
  match type of Ec with context [ramfs_write vp _ ?x _] => set (fl := x) in Ec end.
  assert (Hio : Z.land fl IO_APPEND = 0) by (unfold fl; destruct (flag (f_flags f) (Z.lor O_DSYNC O_SYNC)); reflexivity). clearbody fl.
  set (u := uio_of bufs (position a offset) UIO_WRITE) in *. change (uio_resid (uio_of bufs offset UIO_WRITE)) with (zlen (concat bufs)) in Ec.
  destruct (Z.ltb_spec (position a offset) 0) as [Hneg|Hpos].
  - unfold ramfs_write in Ec. rewrite (vo_vnode _ _ _ _ S9) in Ec. cbn [mbind option_bind] in Ec. rewrite (vo_type _ _ _ _ S9), S9' in Ec.
    change (VREG =? VDIR) with false in Ec. change (VREG =? VREG) with true in Ec. change (uio_offset u) with (position a offset) in Ec.
    destruct (Z.ltb_spec (position a offset) 0); [|lia]. cbn [negb mbind option_bind] in Ec. change (advance f EINVAL _ _) with f in Ec.
    eapply Refuse; [exact Ec| |by apply R]. change (uio_resid u) with (zlen (concat bufs)). by rewrite Z.sub_diag.
  - assert (Hw : write_pos n u fl = position a offset) by (unfold write_pos; rewrite Hio; done).
    assert (Hpb : position a offset < 2 ^ 61) by (unfold position; destruct (offset =? -1); lia).
    destruct (fs_write_spec (fs s) K vp v n u fl S8 S9 S9' (uio_of_ok _ _ _) eq_refl Hpos Hn) as (rc & u' & st' & Er & Hrc).
    { rewrite Hw. change (uio_resid u) with (zlen (concat bufs)). lia. }
    { change (uio_offset u) with (position a offset). lia. }
    rewrite Hw in Hrc. change (uio_resid u) with (zlen (concat bufs)) in *. rewrite Er in Ec. cbn [mbind option_bind] in Ec.
    assert (Rn : refused true bufs (position a offset) = None).
    { unfold refused. destruct (Z.ltb_spec IOSIZE_MAX (zlen (concat bufs))); [lia|]. destruct (Z.eqb_spec (zlen (concat bufs)) 0); [lia|].
      cbn [negb]. by destruct (Z.ltb_spec (position a offset) 0); [lia|]. }
    destruct Hrc as [[-> U]|(-> & Hres & _ & data & n' & Hwr & Rf & Hz)].
    + change (advance f EIO _ _) with f in Ec. destruct (W EIO _ _ f st' S1 S2 S3 S4 Ec) as (t' & I' & Ef & Ew). unfold performs, exec, pwritev. rewrite Ew.
      assert (He : forall b, has_error EIO (Some b) = true) by (intros b; unfold has_error; by rewrite orb_true_r). rewrite He.
      eexists _, _, _, _. split; [done|]. split; [by apply p_write_full|]. destruct U as [U1 U2 U3 U4 U5].
      rewrite <- (afile_eta a (content (blocks st') n) (f_offset f)); [|by rewrite U3|done].
      apply (shows_again fd s a p vp f K ext v n t' f S I' Ef eq_refl eq_refl eq_refl) with (K' := K) (v' := v); [lia|done| |done|by rewrite U3].
      destruct S9 as [V1 V2 V3 V4]. split; [by rewrite U4|by rewrite U2|done|done].
    + rewrite Hres, Z.sub_0_r, wrap_small in Ec by (unfold in_u; lia). rewrite (advance_ok f a offset (zlen (concat bufs)) S6' S6) in Ec by lia.
      destruct (W 0 _ _ _ st' S1 S2 S3 S4 Ec) as (t' & I' & Ef & Ew). unfold performs, exec, pwritev. rewrite Ew. cbn [has_error Z.eqb negb andb mbind option_bind].
      eexists _, _, _, _. split; [done|]. split; [apply p_write; [done|]; intros E; rewrite E in H0; done|].
      pose proof (content_length _ _ _ _ S8 (vo_node _ _ _ _ S9)) as Hcl. rewrite S10 in Hcl.
      destruct (gap_zeros (fs s) K _ n (Z.max (rn_size n) (position a offset + zlen (concat bufs))) S8 (vo_node _ _ _ _ S9) S11) as [Gz Gl]; [lia|].
      rewrite <- Hcl in Gz, Gl, Hwr. rewrite S10 in Hwr. unfold u in Hwr. rewrite uio_of_rest in Hwr.
      rewrite <- (write_overwrites _ _ _ _ _ Gz Hpos Gl Hwr), <- (rf_content _ _ _ _ _ _ _ _ Rf).
      apply (shows_again fd s a p vp f K ext v n t' (move_to f (after a offset (zlen (concat bufs)))) S I' Ef) with
        (K' := K) (v' := set_data v (Vnode.v_type v) (Vnode.v_mode v) (zlen data) (Vnode.v_data v)); try done.
      * cbn [move_to f_offset]. unfold after. destruct (offset =? -1); lia.
      * apply Rf.
      * apply Rf.
      * rewrite (proj2 (rf_name _ _ _ _ _ _ _ _ Rf)). done.
      * by apply Hz.
Qed.

(** ** Sequences of calls *)

Fixpoint runs (fd : Z) (cs : list call) (s : io) : option (list ((Z + Z) * list Z) * io) :=
  match cs with
  | [] => Some ([], s)
  | c :: cs' => '(r, m, s) ← exec fd c s; '(rs, s) ← runs fd cs' s; Some ((r, m) :: rs, s)
  end.

Inductive all_promised : afile -> list call -> list ((Z + Z) * list Z) -> afile -> Prop :=
| ap_nil a : all_promised a [] [] a
| ap_cons a c r m a' cs rs a'' : promised a c r m a' -> all_promised a' cs rs a'' -> all_promised a (c :: cs) ((r, m) :: rs) a''.

Definition small (c : call) : Prop :=
  match c with CRead _ _ off | CWrite _ _ off | CSeek off _ => - 2 ^ 40 <= off <= 2 ^ 40 end.
Definition within (a : afile) (b : Z) : Prop := a_pos a <= b /\ zlen (a_bytes a) <= b.

Lemma refused_size room bufs at_ : refused room bufs at_ = None -> zlen (concat bufs) < 2 ^ 31 /\ (zlen (concat bufs) <> 0 -> 0 <= at_).
Proof.
  unfold refused, IOSIZE_MAX. destruct (Z.ltb_spec (2 ^ 31 - 1) (zlen (concat bufs))); [done|].
  destruct (Z.eqb_spec (zlen (concat bufs)) 0); [lia|]. destruct room; [|done]. cbn [negb]. destruct (Z.ltb_spec at_ 0); [done|]. lia.
Qed.

Lemma overwrite_length l at_ d : 0 <= at_ -> zlen (overwrite l at_ d) = Z.max (zlen l) (at_ + zlen d).
Proof.
  intros H. unfold overwrite. rewrite !length_app, length_take, length_app, length_replicate, length_drop. lia.
Qed.

(** One call adds little to the numbers. *)
Lemma promised_within a c r m a' b :
  promised a c r m a' -> small c -> within a b -> 2 ^ 40 <= b -> within a' (b + 2 ^ 40).
Proof.
  intros P Hs [W1 W2] Hb. destruct P as [c room bufs off e _ _|room bufs off data Hr ->|room bufs off E|room bufs off Hr Hn|room bufs off Hr|off whence pos ->];
    unfold within, small in *; cbn [a_bytes a_pos]; try lia.
  - destruct (refused_size _ _ _ Hr) as [H1 _]. unfold after. rewrite length_take. destruct (off =? -1); lia.
  - destruct (refused_size _ _ _ Hr) as [H1 H2]. assert (zlen (concat bufs) <> 0) by (destruct (concat bufs); [done|cbn [length]; lia]).
    rewrite overwrite_length by (by apply H2). unfold after, position in *. destruct (off =? -1); lia.
  - destruct (0 <=? _) eqn:E; [|lia]. cbn [a_bytes a_pos]. split; [|lia]. destruct (whence =? SEEK_CUR); [lia|]. destruct (whence =? SEEK_END); lia.
Qed.

Lemma exec_performs_fd fd s a c : simulates fd s a -> fits a c -> performs fd c s a.
Proof. destruct c; [apply read_performs_fd|apply write_performs_fd|apply seek_performs]. Qed.

Lemma runs_perform fd cs : Forall small cs -> forall s a b,
  simulates fd s a -> within a b -> 2 ^ 40 <= b -> b + 2 ^ 40 * zlen cs <= 2 ^ 60 + 2 ^ 40 ->
  exists rs s' a', runs fd cs s = Some (rs, s') /\ all_promised a cs rs a' /\ simulates fd s' a'.
Proof.
  induction 1 as [|c cs Hc _ IH]; intros s a b S W Hlb Hb.
  - exists [], s, a. split; [done|]. split; [constructor|done].
  - cbn [length] in Hb. rewrite Nat2Z.inj_succ in Hb. destruct (exec_performs_fd fd s a c S) as (r & m & s1 & a1 & E1 & P1 & S1).
    { destruct W as [W1 W2]. split; [lia|]. split; [lia|]. unfold small in Hc. destruct c; lia. }
    destruct (IH s1 a1 (b + 2 ^ 40) S1) as (rs & s2 & a2 & E2 & P2 & S2); [by eapply promised_within|lia|lia|].
    exists ((r, m) :: rs), s2, a2. cbn [runs]. rewrite E1. cbn [mbind option_bind]. rewrite E2. split; [done|]. split; [by econstructor|done].
Qed.

(** C13: A descriptor that is open for reading and writing, without [O_APPEND], on a regular file that
    has only zeros behind its end in its buffer, behaves like a sequence of bytes with a position: for
    every sequence of at most 2^20 calls with offsets up to 2^40, from a file and a position up to 2^40,
    a read returns the bytes at the position or the given offset as far as there are any, a
    write replaces them, with zeros behind the old end, and moves the position on when no offset is given, a seek
    sets it; calls that ask for too much or for a negative offset say so, a write may fail for lack of memory, and
    all of these leave the file alone.  With [O_APPEND] the position goes astray ([append_position]), and after a
    truncation old bytes come back behind the end ([truncate_keeps_bytes]): these are left out. *)
Theorem file_io_refines fd s a cs :
  simulates fd s a -> within a (2 ^ 40) -> Forall small cs -> zlen cs <= 2 ^ 20 ->
  exists rs s' a', runs fd cs s = Some (rs, s') /\ all_promised a cs rs a' /\ simulates fd s' a'.
Proof. intros S W Hc Hl. apply (runs_perform fd cs Hc s a (2 ^ 40)); [done|done|lia|lia]. Qed.

(** The file [f] of [demo_file], open at descriptor 3. *)
Definition demo_io (flags : Z) : io := Io FdTable.table2 {[4096 := MkFile flags 0 0 80]} demo_file.

Lemma file_io_refines_witness :
  exists rs s' a', runs 3 [CWrite true [[97; 98; 99]] (-1); CSeek 1 0; CRead true [[0]; [0; 0]] (-1)] (demo_io 3) = Some (rs, s') /\
    all_promised (AFile [] 0) [CWrite true [[97; 98; 99]] (-1); CSeek 1 0; CRead true [[0]; [0; 0]] (-1)] rs a' /\ simulates 3 s' a' /\
    rs = [(inr 3, []); (inr 1, []); (inr 2, [98; 99; 0])].
Proof.
  destruct (reach_good demo demo_file demo_started demo_reached) as (K & ext & G). pose proof (g_inv _ _ _ G) as I.
  destruct (file_io_refines 3 (demo_io 3) (AFile [] 0) [CWrite true [[97; 98; 99]] (-1); CSeek 1 0; CRead true [[0]; [0; 0]] (-1)]) as (rs & s' & a' & E & P & S).
  - eexists 4096, 80, _, K, FdTable.ext2, _, _. split; [exact (proj1 (FdTable.fd_reachable_inv _ _ FdTable.table2_reachable))| |split; [vm_compute; reflexivity|done]|vm_compute; reflexivity
      |done|done|done|exact I|split; [split; vm_compute; reflexivity|reflexivity]|vm_compute; reflexivity|vm_compute; constructor].
    exact (proj2 (FdTable.fd_reachable_inv _ _ FdTable.table2_reachable)).
  - split; cbn; lia.
  - repeat constructor; cbn; lia.
  - cbn. lia.
  - exists rs, s', a'. split; [exact E|]. split; [exact P|]. split; [exact S|]. vm_compute in E. by injection E as <- _.
Defined.

(** With [O_APPEND] the position moves on from where it was, not from the end where the bytes went. *)
Theorem append_position :
  fst <$> runs 3 [CWrite true [[97; 98; 99]] (-1); CSeek 0 0; CWrite true [[100]] (-1); CSeek 0 SEEK_CUR; CSeek 0 SEEK_END] (demo_io (3 + O_APPEND)) =
    Some [(inr 3, []); (inr 0, []); (inr 1, []); (inr 1, []); (inr 4, [])].
Proof. by vm_compute. Qed.

(** A seek of an unknown kind sets the position like [SEEK_SET]. *)
Theorem any_whence_seeks : fst <$> runs 3 [CSeek 5 77] (demo_io 3) = Some [(inr 5, [])].
Proof. by vm_compute. Qed.

End FileIo.
