(* ===== verification/Namei.v ===== *)
(** * Namei: from a path to a dentry

    Models [lib/vfscore/lookup.c]: [namei] walks a path through the dentry cache ([Dentry]), asks
    the file system for the names that are not there, and follows symbolic links; [lookup] finds
    the directory of a path.  The file system is a class: what [VOP_LOOKUP] and [VOP_READLINK] do,
    and what [namei] relies on; the RAM file system is an instance.  [None] is a use of memory that
    is not there. *)
From Stdlib Require Import ZArith Lia Bool.
From stdpp Require Import gmap relations.
From S2P Require Import Prelude Buf Uio Vnode Ramfs RamfsFile RamfsDir Path Dentry.
Open Scope Z_scope.

Module Namei.
Import Path.
Import Dentry.

Definition ENOENT : Z := 2.
Definition ENOTDIR : Z := 20.
Definition ELOOP : Z := 62.
Definition MAXSYMLINKS : nat := 20.
Definition VDIR : Z := Ramfs.VDIR.
Definition VLNK : Z := Ramfs.VLNK.

(** A file system with its state [F].  The operations get the table of vnodes; [vop_lookup] gets the
    address of memory for a new vnode. *)
Class DirOps (F : Type) := {
  vop_lookup : Z -> Z -> list Z -> F -> Vnode.vtab -> option (Z * Z * F * Vnode.vtab);
  vop_readlink : Z -> Uio.uio -> F -> Vnode.vtab -> option (Z * Uio.uio * F)
}.

(** The cache, the file system, and the memory for new vnodes and dentries: their addresses, 0 when
    there is no memory, and whether there is any for the path of the dentry. *)
Record sys (F : Type) := Sys { dt : dtab; fs : F; mem : list (Z * Z * bool) }.
Arguments Sys {F}.
Arguments dt {F}.
Arguments fs {F}.
Arguments mem {F}.

Definition set_dt {F} (s : sys F) (t : dtab) : sys F := Sys t (fs s) (mem s).
Definition next_mem {F} (s : sys F) : Z * Z * bool := default (0, 0, false) (head (mem s)).

(** What fits into a buffer of [PATH_MAX] bytes with its terminator: [strlcpy] and [strlcat]. *)
Definition clip (s : list Z) : list Z := take (Z.to_nat (PATH_MAX - 1)) s.

Fixpoint skip_slashes (p : list Z) : list Z :=
  match p with c :: p' => if c =? slash then skip_slashes p' else p | [] => [] end.

Fixpoint c_str (l : list Z) : list Z :=
  match l with c :: l' => if c =? 0 then [] else c :: c_str l' | [] => [] end.

(** How the walk of a path ends: with a dentry, an error, or the path to go on with behind a link. *)
Inductive walked := Found (dp : Z) | Failed (error : Z) | Linked (fp : list Z).

Section Lookup.
Context {F : Type} {Ops : DirOps F}.

(** The bytes that were read into the buffer of [PATH_MAX] bytes. *)
Definition read_link (vp : Z) (s : sys F) : option (Z * list Z * sys F) :=
  let uio := Uio.MkUio [] [Uio.Iovec (repeat 0 (Z.to_nat PATH_MAX)) 0 PATH_MAX] 0 PATH_MAX Uio.UIO_READ in
  '(rc, uio, f) ← vop_readlink vp uio (fs s) (vt (dt s));
  let buf := concat (map Uio.iov_block (Uio.uio_done uio ++ Uio.uio_iov uio)) in
  Some (rc, if negb (rc =? 0) then [] else take (Z.to_nat (PATH_MAX - Uio.uio_resid uio)) buf, Sys (dt s) f (mem s)).

(** The path with the link put in for its name; the link is terminated at [link[sz]]. *)
Definition namei_follow_link (dp : Z) (node name fp : list Z) (mountpoint_len : Z) (s : sys F) : option (Z * list Z * sys F) :=
  d ← dentries (dt s) !! dp;
  '(error, buf, s) ← read_link (d_vnode d) s;
  if negb (error =? 0) then Some (error, fp, s)
  else if PATH_MAX <=? zlen buf then None
  else
    let link := c_str buf in
    let p := drop (Z.to_nat (mountpoint_len + zlen node)) fp in
    let c := zlen node - zlen name - 1 in
    if bool_decide (head link = Some slash) then Some (0, clip (link ++ p), s)
    else
      let node := take (Z.to_nat (mountpoint_len + c)) fp in
      '(rc, full) ← path_conv node link;
      Some (0, clip ((if rc =? 0 then full else fp) ++ p), s).

(** The dentry of a name in the directory of [ddp]: from the cache or from the file system. *)
Definition get_child (mp ddp : Z) (node name : list Z) (s : sys F) : option (Z * Z * sys F) :=
  dd ← dentries (dt s) !! ddp;
  '(dp, t) ← dentry_lookup mp node (dt s);
  if negb (dp =? 0) then Some (0, dp, set_dt s t)
  else
    let '(va, da, dup) := next_mem s in
    '(error, vp, f, vs) ← vop_lookup va (d_vnode dd) name (fs s) (vt t);
    let s := Sys (set_vt t vs) f (tail (mem s)) in
    if negb (error =? 0) then t ← drele ddp (dt s); Some (error, 0, set_dt s t)
    else
      '(dp, t) ← dentry_alloc da dup ddp vp node (dt s);
      vs ← Vnode.vput vp (vt t);
      let t := set_vt t vs in
      if dp =? 0 then t ← drele ddp t; Some (ENOMEM, 0, set_dt s t)
      else Some (0, dp, set_dt s t).

(** The names of the path one after the other; [dp] is the last dentry found. *)
Fixpoint walk_path (fuel : nat) (mp : Z) (fp : list Z) (mountpoint_len : Z) (p node : list Z) (ddp dp : Z) (s : sys F)
    : option (walked * sys F) :=
  match skip_slashes p, fuel with
  | [], _ => Some (Found dp, s)
  | _, O => None
  | p, S fuel' =>
      let '(name, p) := component p in
      let node := clip (clip (node ++ [slash]) ++ name) in
      '(error, dp, s) ← get_child mp ddp node name s;
      if negb (error =? 0) then Some (Failed error, s)
      else
        t ← drele ddp (dt s);
        let s := set_dt s t in
        d ← dentries (dt s) !! dp;
        v ← Vnode.vnodes (vt (dt s)) !! d_vnode d;
        if Vnode.v_type v =? VLNK then
          '(error, fp, s) ← namei_follow_link dp node name fp mountpoint_len s;
          t ← drele dp (dt s);
          Some (if negb (error =? 0) then Failed error else Linked fp, set_dt s t)
        else if bool_decide (head p = Some slash) && negb (Vnode.v_type v =? VDIR) then
          t ← drele dp (dt s); Some (Failed ENOTDIR, set_dt s t)
        else walk_path fuel' mp fp mountpoint_len p node dp dp s
  end.

(** [left] is how many links may still be followed. *)
Fixpoint namei_loop (mounts : list (Z * list Z)) (m_root : Z -> Z) (left : nat) (fp : list Z) (s : sys F) : option (Z * Z * sys F) :=
  match left with
  | O => Some (ELOOP, 0, s)
  | S left' =>
      match vfs_findroot fp mounts with
      | None => Some (ENOTDIR, 0, s)
      | Some (mp, p) =>
          '(dp, t) ← dentry_lookup mp (clip (slash :: p)) (dt s);
          if negb (dp =? 0) then Some (0, dp, set_dt s t)
          else
            if m_root mp =? 0 then None
            else
              t ← dref (m_root mp) t;
              '(r, s) ← walk_path (length p) mp fp (zlen fp - zlen p - 1) p [] (m_root mp) 0 (set_dt s t);
              match r with
              | Found dp => Some (0, dp, s)
              | Failed error => Some (error, 0, s)
              | Linked fp => namei_loop mounts m_root left' fp s
              end
      end
  end.

(** The error and the dentry; NULL is 0. *)
Definition namei (mounts : list (Z * list Z)) (m_root : Z -> Z) (path : list Z) (s : sys F) : option (Z * Z * sys F) :=
  namei_loop mounts m_root MAXSYMLINKS (clip path) s.

(** The part up to the last slash and the name behind it; [None] without a slash. *)
Fixpoint split_last (path : list Z) : option (list Z * list Z) :=
  match path with
  | [] => None
  | c :: path' =>
      match split_last path' with
      | Some (dir, name) => Some (c :: dir, name)
      | None => if c =? slash then Some ([], path') else None
      end
  end.

(** The dentry of the directory of a path, and the name in it. *)
Definition lookup (mounts : list (Z * list Z)) (m_root : Z -> Z) (path : list Z) (s : sys F) : option (Z * Z * list Z * sys F) :=
  match clip path with
  | [] => Some (ENOTDIR, 0, [], s)
  | buf =>
      '(dir, _) ← split_last buf;
      '(error, dp, s) ← namei mounts m_root (match dir with [] => [slash] | _ => dir end) s;
      if negb (error =? 0) then Some (error, 0, [], s)
      else
        d ← dentries (dt s) !! dp;
        v ← Vnode.vnodes (vt (dt s)) !! d_vnode d;
        if negb (Vnode.v_type v =? VDIR) then t ← drele dp (dt s); Some (ENOTDIR, 0, [], set_dt s t)
        else '(_, name) ← split_last path; Some (0, dp, name, s)
  end.

End Lookup.
(** ** What [namei] relies on

    [entry f d name] is the node of a name in the directory node [d] with its type; [is_dir] that a node
    is that of a directory; [fs_ok n f vs] that the file system can look up [n] more names. *)

Class DirFs (F : Type) {Ops : DirOps F} := {
  entry : F -> Z -> list Z -> option (Z * Z);
  fs_ok : nat -> F -> Vnode.vtab -> Prop;
  is_dir : F -> Z -> Prop;
  entry_dir n f vs d c np : fs_ok n f vs -> entry f d c = Some (np, VDIR) -> is_dir f np;
  fs_ok_less n f vs : fs_ok (S n) f vs -> fs_ok n f vs;
  fs_ok_same n f vs vs' : fs_ok n f vs -> vsame vs vs' -> fs_ok n f vs';
  lookup_law n addr dvp v name f vs ext :
    fs_ok (S n) f vs -> Vnode.inv vs ext -> (forall p, ext p < Vnode.INT_MAX) -> Vnode.vnodes vs !! dvp = Some v ->
    Vnode.v_type v = VDIR -> is_dir f (Vnode.v_data v) -> name <> [] -> Vnode.vnodes vs !! addr = None ->
    exists rc vp f' vs', vop_lookup addr dvp name f vs = Some (rc, vp, f', vs') /\
      fs_ok n f' vs' /\ (forall d c, entry f' d c = entry f d c) /\ (forall d, is_dir f d -> is_dir f' d) /\
      Vnode.inv vs' (if vp =? 0 then ext else bump ext vp 1) /\
      (forall x w, x <> vp -> Vnode.vnodes vs !! x = Some w -> Vnode.vnodes vs' !! x = Some w) /\
      match entry f (Vnode.v_data v) name with
      | None => rc = ENOENT /\ vp = 0
      | Some (np, ty) =>
          rc = ENOMEM /\ addr = 0 /\ vp = 0 \/
          rc = 0 /\ addr <> 0 /\ vp = addr /\ exists w, Vnode.vnodes vs' !! addr = Some w /\ Vnode.v_data w = np /\ Vnode.v_type w = ty /\
            Vnode.v_mount w = Vnode.v_mount v /\ Vnode.v_names w = []
      end
}.

Section Walk.
Context {F : Type} {Ops : DirOps F} {Fs : DirFs F}.
(** The mount points with the nodes of their roots; the walk is in [mp]. *)
Variables (roots : gmap Z Z) (mp root : Z).
Hypothesis Hroot : roots !! mp = Some root.

(** What the names lead to, from a node and its type: a node with its type, or an error. *)
Fixpoint follow (f : F) (x : Z * Z) (ns : list (list Z)) : Z + Z * Z :=
  match ns with
  | [] => inr x
  | c :: ns' =>
      if x.2 =? VDIR then match entry f x.1 c with Some y => follow f y ns' | None => inl ENOENT end
      else inl ENOTDIR
  end.

(** A slash at the end asks for a directory. *)
Definition meaning (f : F) (x : Z * Z) (p : list Z) : Z + Z * Z :=
  match follow f x (names p) with
  | inr y => if bool_decide (last p = Some slash) && negb (y.2 =? VDIR) then inl ENOTDIR else inr y
  | inl e => inl e
  end.

Definition no_link (f : F) (ns : list (list Z)) : Prop :=
  forall ms np ty, ms `prefix_of` ns -> follow f (root, VDIR) ms = inr (np, ty) -> ty <> VLNK.

(** Every cached dentry is the file that its path leads to, from the root of its mount point. *)
Definition coherent (f : F) (st : dtab) : Prop :=
  forall p c r, cores st !! p = Some c -> p ∉ fake st -> roots !! c.1.2 = Some r ->
    exists ns v, c.1.1 = canonical ns /\ Forall proper ns /\ Vnode.vnodes (vt st) !! c.2 = Some v /\ Vnode.v_mount v = c.1.2 /\
      follow f (r, VDIR) ns = inr (Vnode.v_data v, Vnode.v_type v).

(** Room in the counters for [k] more references and dentries. *)
Definition slack (k : Z) (st : dtab) (ext vext : Z -> Z) : Prop :=
  forall q, ext q + vext q + Z.of_nat (size (dentries st)) + k < Vnode.INT_MAX.

(** The memory to come is not in use. *)
Definition fresh_mem (m : list (Z * Z * bool)) (st : dtab) : Prop :=
  NoDup (map (fun x => x.1.1) (filter (fun x => x.1.1 <> 0) m)) /\ NoDup (map (fun x => x.1.2) (filter (fun x => x.1.2 <> 0) m)) /\
  forall x, x ∈ m -> Vnode.vnodes (vt st) !! x.1.1 = None /\ dentries st !! x.1.2 = None.

Lemma follow_app f ms : forall x ns, follow f x (ms ++ ns) = match follow f x ms with inr y => follow f y ns | inl e => inl e end.
Proof.
  induction ms as [|c ms IH]; intros x ns; [done|]. cbn [app follow]. destruct (x.2 =? VDIR); [|done]. destruct (entry f x.1 c); [apply IH|done].
Qed.

Lemma follow_same f f' : (forall d c, entry f' d c = entry f d c) -> forall ns x, follow f' x ns = follow f x ns.
Proof. intros E ns. induction ns as [|c ns IH]; intros x; [done|]. cbn [follow]. rewrite E. destruct (x.2 =? VDIR); [|done]. destruct (entry f x.1 c); [apply IH|done]. Qed.

Lemma follow_dir n f vs : fs_ok n f vs -> is_dir f root -> forall ns np, follow f (root, VDIR) ns = inr (np, VDIR) -> is_dir f np.
Proof.
  intros Hok Hr ns. destruct ns as [|c ns _] using rev_ind; intros np E; [by injection E as <-|].
  rewrite follow_app in E. destruct (follow f (root, VDIR) ns) as [|[x ty]]; [done|]. cbn [follow fst snd] in E. destruct (ty =? VDIR); [|done].
  destruct (entry f x c) as [y|] eqn:Ey; [|done]. injection E as ->. by apply (entry_dir n f vs x c).
Qed.

Lemma canonical_inj s t : Forall proper s -> Forall proper t -> canonical s = canonical t -> s = t.
Proof. intros Hs Ht E. rewrite <- (names_spells s (canonical s)), <- (names_spells t (canonical t)); [by rewrite E|done|apply canonical_spells|done|apply canonical_spells]. Qed.

(** The coherence of a cache from which dentries went, or whose counters changed. *)
Lemma coherent_shrinks f st st' vext : coherent f st -> shrinks st st' -> vnodes_ok (cores st') (vt st') vext -> coherent f st'.
Proof.
  intros Co (Sc & Sf & Sv) V p c r Hc Hf Em. rewrite map_subseteq_spec in Sc. destruct (Co p c r (Sc p c Hc)) as (ns & v & E1 & E2 & E3 & E4 & E5); [|done|].
  { rewrite <- Sf; [done|]. by exists c. }
  destruct (vnode_alive _ _ _ p c V Hc) as (v' & Hv' & _). destruct (Sv _ _ Hv') as (w & Hw & K). rewrite E3 in Hw. injection Hw as <-.
  unfold vnode_key in K. injection K as _ K2 K3 K4. exists ns, v'. do 3 (split; [done|]). by rewrite K2, K3, K4.
Qed.

Lemma coherent_same f f' st : (forall d c, entry f' d c = entry f d c) -> coherent f st -> coherent f' st.
Proof.
  intros E Co p c r Hc Hf Em. destruct (Co p c r Hc Hf Em) as (ns & v & E1 & E2 & E3 & E4 & E5). exists ns, v. do 4 (split; [done|]). by rewrite (follow_same f f').
Qed.

(** A cached path, found in the cache, is what its names lead to. *)
Lemma coherent_path f st p path d : coherent f st -> dentries st !! p = Some d -> p ∉ fake st -> d_mount d = mp -> d_path d = path ->
  exists ns v, path = canonical ns /\ Forall proper ns /\ Vnode.vnodes (vt st) !! d_vnode d = Some v /\ Vnode.v_mount v = mp /\
    follow f (root, VDIR) ns = inr (Vnode.v_data v, Vnode.v_type v).
Proof. intros Co Hd Hf Em Ep. destruct (Co p (core_of d) root (lookup_cores st p d Hd) Hf) as (ns & v & E); cbn [core_of fst snd] in *; [by rewrite Em|]. rewrite Ep, Em in E. by exists ns, v. Qed.

Lemma children_bound ds ext p d : tree_ok ds ext -> ds !! p = Some d -> zlen (d_child_list d) <= Z.of_nat (size ds).
Proof.
  intros T Hp. destruct (r_kids _ _ T p d Hp) as [Nd Hk]. rewrite <- size_dom, <- (size_list_to_set (C := gset Z) (d_child_list d)) by done.
  apply inj_le, subseteq_size. intros c Hc. rewrite elem_of_list_to_set in Hc. apply Hk in Hc as (e & He & _). apply elem_of_dom. by exists e.
Qed.

Lemma uses_bound st v : uses (cores st) v <= Z.of_nat (size (dentries st)).
Proof. unfold uses. apply inj_le. etransitivity; [apply map_size_filter|]. unfold cores. by rewrite map_size_fmap. Qed.

Lemma slack_room k st ext vext : 0 <= k -> slack k st ext vext -> dinv st ext vext ->
  room st /\ forall v, vext v + uses (cores st) v + k < Vnode.INT_MAX.
Proof.
  intros Hk S [T R V]. assert (He : forall q, 0 <= ext q).
  { intros q. destruct (dentries st !! q) as [d|] eqn:Hd; [by destruct (r_ref _ _ R q d Hd) as (_ & _ & _ & ?)|]. by rewrite (r_dead _ _ R q Hd). }
  split.
  - intros p d Hp. destruct (r_ref _ _ R p d Hp) as (_ & -> & _). pose proof (children_bound _ _ p d R Hp). specialize (S p). pose proof (v_ext _ _ _ V p). lia.
  - intros v. specialize (S v). specialize (He v). pose proof (uses_bound st v). lia.
Qed.

(** The state between two names of a walk: [n] more names can be looked up, [k] more references taken. *)
Record ok (n : nat) (k : Z) (ext vext : Z -> Z) (s : sys F) : Prop := Ok {
  o_dinv : dinv (dt s) ext vext;
  o_coh : coherent (fs s) (dt s);
  o_fs : fs_ok n (fs s) (vt (dt s));
  o_root : forall m r, roots !! m = Some r -> is_dir (fs s) r;
  o_slack : slack k (dt s) ext vext;
  o_mem : fresh_mem (mem s) (dt s)
}.

Lemma dinv_ext st ext ext' vext : (forall q, ext' q = ext q) -> dinv st ext vext -> dinv st ext' vext.
Proof. intros E [T R V]. split; [done| |done]. eapply tree_proper; [reflexivity| |exact R]. intros q. by rewrite E. Qed.

Lemma ok_ext n k ext ext' vext s : (forall q, ext' q = ext q) -> ok n k ext vext s -> ok n k ext' vext s.
Proof. intros E [O1 O2 O3 O4 O5 O6]. split; try done; [by apply (dinv_ext _ ext)|]. intros q. rewrite E. apply O5. Qed.

Lemma shrinks_size st st' : shrinks st st' -> (size (dentries st') <= size (dentries st))%nat.
Proof. intros [Sc _]. rewrite <- (map_size_fmap core_of (dentries st')), <- (map_size_fmap core_of (dentries st)). by apply map_subseteq_size. Qed.

(** Memory that stays unused. *)
Lemma fresh_keep m st st' : fresh_mem m st -> (forall x, Vnode.vnodes (vt st) !! x = None -> Vnode.vnodes (vt st') !! x = None) ->
  (forall x, dentries st !! x = None -> dentries st' !! x = None) -> fresh_mem m st'.
Proof. intros (N1 & N2 & Hm) Hv Hd. split; [done|]. split; [done|]. intros x Hx. destruct (Hm x Hx) as [? ?]. split; auto. Qed.

Lemma vsame_none vs vs' x : vsame vs vs' -> Vnode.vnodes vs !! x = None -> Vnode.vnodes vs' !! x = None.
Proof. intros S Hx. destruct (Vnode.vnodes vs' !! x) as [v|] eqn:E; [|done]. destruct (S x v E) as (w & Hw & _). congruence. Qed.

Lemma shrinks_none st st' x : shrinks st st' -> dentries st !! x = None -> dentries st' !! x = None.
Proof.
  intros [Sc _] Hx. destruct (dentries st' !! x) as [d|] eqn:E; [|done]. apply lookup_cores in E. rewrite map_subseteq_spec in Sc. apply Sc in E.
  unfold cores in E. by rewrite lookup_fmap, Hx in E.
Qed.

(** The dentries that are held stay where they are. *)
Definition kept (ext : Z -> Z) (st st' : dtab) : Prop :=
  forall p c, 0 < ext p -> cores st !! p = Some c -> cores st' !! p = Some c /\ (p ∈ fake st' <-> p ∈ fake st).

Lemma kept_trans ext st1 st2 st3 : kept ext st1 st2 -> kept ext st2 st3 -> kept ext st1 st3.
Proof. intros K1 K2 p c Hp Hc. destruct (K1 p c Hp Hc) as [H1 E1]. destruct (K2 p c Hp H1) as [H2 E2]. split; [done|]. by rewrite E2. Qed.

Lemma kept_less ext ext' st st' : (forall p, 0 < ext' p -> 0 < ext p) -> kept ext st st' -> kept ext' st st'.
Proof. intros H K p c Hp. by apply K, H. Qed.

Lemma kept_shrinks ext ext' vext st st' : shrinks st st' -> dinv st' ext' vext -> (forall p, 0 < ext p -> 0 < ext' p) -> kept ext st st'.
Proof.
  intros (Sc & Sf & _) [_ R _] He p c Hp Hc. destruct (dentries st' !! p) as [d|] eqn:Hd; [|specialize (He p Hp); rewrite (r_dead _ _ R p Hd) in He; lia].
  apply lookup_cores in Hd. rewrite map_subseteq_spec in Sc. pose proof (Sc _ _ Hd) as Hd'. rewrite Hc in Hd'. injection Hd' as ->. split; [done|]. apply Sf. by exists (core_of d).
Qed.

(** Nothing belongs to a mount point. *)
Definition fresh_mount (m : Z) (st : dtab) : Prop :=
  (forall q w, Vnode.vnodes (vt st) !! q = Some w -> Vnode.v_mount w <> m) /\ (forall q c, cores st !! q = Some c -> c.1.2 <> m).

Lemma fresh_shrinks m st st' : shrinks st st' -> fresh_mount m st -> fresh_mount m st'.
Proof.
  intros (Sc & _ & Sv) [H1 H2]. rewrite map_subseteq_spec in Sc. split; [|intros q c Hq; by apply (H2 q), Sc].
  intros q w Hw. destruct (Sv q w Hw) as (w' & Hw' & K). unfold vnode_key in K. injection K as _ -> _ _. by apply (H1 q).
Qed.

(** What a walk in [mp] does to the rest: held dentries stay, other mount points get nothing. *)
Definition stays (ext : Z -> Z) (st st' : dtab) : Prop :=
  kept ext st st' /\ forall m, m <> mp -> fresh_mount m st -> fresh_mount m st'.

Lemma stays_refl ext st : stays ext st st.
Proof. by split. Qed.

Lemma stays_trans ext st1 st2 st3 : stays ext st1 st2 -> stays ext st2 st3 -> stays ext st1 st3.
Proof. intros [K1 F1] [K2 F2]. split; [by eapply kept_trans|]. intros m Hm H. by apply F2, F1. Qed.

Lemma stays_less ext ext' st st' : (forall p, 0 < ext' p -> 0 < ext p) -> stays ext st st' -> stays ext' st st'.
Proof. intros H [K Fm]. split; [by eapply kept_less|done]. Qed.

Lemma stays_shrinks ext ext' vext st st' : shrinks st st' -> dinv st' ext' vext -> (forall p, 0 < ext p -> 0 < ext' p) -> stays ext st st'.
Proof. intros Sh I H. split; [by eapply kept_shrinks|]. intros m _. by apply fresh_shrinks. Qed.

(** The file of a dentry. *)
Definition file_of (st : dtab) (p : Z) (path : list Z) (x : Z * Z) : Prop :=
  exists d v, dentries st !! p = Some d /\ d_mount d = mp /\ d_path d = path /\ Vnode.vnodes (vt st) !! d_vnode d = Some v /\
    Vnode.v_mount v = mp /\ x = (Vnode.v_data v, Vnode.v_type v).

Lemma file_kept st st' p path x vext : shrinks st st' -> vnodes_ok (cores st') (vt st') vext -> is_Some (dentries st' !! p) ->
  file_of st p path x -> file_of st' p path x.
Proof.
  intros (Sc & _ & Sv) V [d' Hd'] (d & v & Hd & Em & Ep & Hv & Ev & ->). pose proof (lookup_cores st' p d' Hd') as Hc. rewrite map_subseteq_spec in Sc.
  pose proof (Sc _ _ Hc) as Hc'. rewrite (lookup_cores st p d Hd) in Hc'. injection Hc' as E1 E2 E3.
  destruct (vnode_alive _ _ _ p _ V Hc) as (v' & Hv' & _). cbn [core_of snd] in Hv'. destruct (Sv _ _ Hv') as (w & Hw & K). rewrite <- E3, Hv in Hw. injection Hw as <-.
  unfold vnode_key in K. injection K as _ K2 K3 K4. exists d', v'. split; [done|]. split; [congruence|]. split; [congruence|]. split; [done|]. split; congruence.
Qed.

Lemma ok_drele n k ext vext s p : ok n k ext vext s -> 0 < ext p ->
  exists t, drele p (dt s) = Some t /\ ok n k (bump ext p (-1)) vext (set_dt s t) /\ shrinks (dt s) t.
Proof.
  intros [O1 O2 O3 O4 O5 O6] He. destruct (drele_spec _ (dt s) ext vext p O1 He (Nat.lt_succ_diag_r _)) as (t & E & I & Sh). exists t.
  split; [exact E|]. split; [|done]. pose proof Sh as (_ & _ & Sv). split; cbn [set_dt dt fs mem].
  - done.
  - eapply coherent_shrinks; [exact O2|exact Sh|apply I].
  - by apply (fs_ok_same n (fs s) (vt (dt s))).
  - done.
  - intros q. specialize (O5 q). pose proof (shrinks_size _ _ Sh). unfold bump. case_decide; lia.
  - eapply fresh_keep; [exact O6| |]; intros x; [by apply vsame_none|by apply shrinks_none].
Qed.

Lemma ok_hold n k ext vext s p d : ok n k ext vext s -> 1 <= k -> dentries (dt s) !! p = Some d ->
  let t := set_dentry (dt s) p (with_refcnt d (d_refcnt d + 1)) in
  dref p (dt s) = Some t /\ ok n (k - 1) (bump ext p 1) vext (set_dt s t) /\ shrinks (dt s) t.
Proof.
  intros O Hk Hp. pose proof O as [O1 O2 O3 O4 O5 O6]. destruct (slack_room k _ _ _ ltac:(lia) O5 O1) as [Hroom _].
  destruct (hold_dentry _ _ _ p d O1 Hp (Hroom p d Hp)) as (_ & E & I). cbn zeta. split; [exact E|].
  assert (Ec : cores (set_dentry (dt s) p (with_refcnt d (d_refcnt d + 1))) = cores (dt s)) by (by apply (cores_same _ _ d)).
  assert (Sh : shrinks (dt s) (set_dentry (dt s) p (with_refcnt d (d_refcnt d + 1)))).
  { split; [by rewrite Ec|]. split; [done|]. intros q x Hx. by exists x. }
  split; [|done]. split; cbn [set_dt dt fs mem]; [done|eapply coherent_shrinks; [exact O2|exact Sh|apply I]|done|done| |].
  - intros q. specialize (O5 q). pose proof (shrinks_size _ _ Sh). unfold bump. case_decide; lia.
  - eapply fresh_keep; [exact O6|done|]. intros x. by apply shrinks_none.
Qed.

Lemma fresh_head va da dup (s : sys F) : next_mem s = (va, da, dup) -> fresh_mem (mem s) (dt s) -> (forall ext vext, dinv (dt s) ext vext ->
  Vnode.vnodes (vt (dt s)) !! va = None /\ dentries (dt s) !! da = None).
Proof.
  unfold next_mem. intros E (_ & _ & Hm) ext vext [T R V]. destruct (mem s) as [|x m]; cbn in E.
  - injection E as <- <- <-. split.
    + destruct (Vnode.vnodes (vt (dt s)) !! 0) as [v|] eqn:Hv; [|done]. by destruct (Vnode.i_ref _ _ (v_counts _ _ _ V) 0 v Hv) as [? _].
    + destruct (dentries (dt s) !! 0) as [d|] eqn:Hd; [|done]. by destruct (r_ref _ _ R 0 d Hd) as [? _].
  - subst x. apply (Hm (va, da, dup)). apply list_elem_of_here.
Qed.

(** The addresses to come are other ones. *)
Lemma fresh_apart va da dup (s : sys F) x : next_mem s = (va, da, dup) -> fresh_mem (mem s) (dt s) -> x ∈ tail (mem s) ->
  (x.1.1 <> va \/ va = 0) /\ (x.1.2 <> da \/ da = 0).
Proof.
  unfold next_mem. intros E (N1 & N2 & _) Hx. destruct (mem s) as [|y m]; cbn in E, Hx; [by apply elem_of_nil in Hx|]. subst y. split.
  - destruct (decide (va = 0)) as [->|Hva]; [by right|left]. intros Ex. rewrite filter_cons, decide_True in N1 by done. cbn [map fst] in N1.
    apply NoDup_cons in N1 as [N1 _]. apply N1. apply list_elem_of_fmap. exists x. split; [done|]. apply list_elem_of_filter. split; [congruence|done].
  - destruct (decide (da = 0)) as [->|Hda]; [by right|left]. intros Ex. rewrite filter_cons, decide_True in N2 by done. cbn [map fst snd] in N2.
    apply NoDup_cons in N2 as [N2 _]. apply N2. apply list_elem_of_fmap. exists x. split; [done|]. apply list_elem_of_filter. split; [congruence|done].
Qed.

(** Memory that is still unused when the first addresses are taken. *)
Lemma fresh_next va da dup (s : sys F) st' : next_mem s = (va, da, dup) -> fresh_mem (mem s) (dt s) ->
  (forall x, x <> va \/ va = 0 -> Vnode.vnodes (vt (dt s)) !! x = None -> Vnode.vnodes (vt st') !! x = None) ->
  (forall x, x <> da \/ da = 0 -> dentries (dt s) !! x = None -> dentries st' !! x = None) -> fresh_mem (tail (mem s)) st'.
Proof.
  intros E Fm Hv Hd. pose proof (fun x => fresh_apart va da dup s x E Fm) as Ap. destruct Fm as (N1 & N2 & Hm).
  destruct (mem s) as [|y m]; cbn [tail] in *; [split; [constructor|]; split; [constructor|]; by intros x ?%elem_of_nil|]. split; [|split].
  - rewrite filter_cons in N1. case_decide; [|done]. cbn [map] in N1. by apply NoDup_cons in N1 as [_ N1].
  - rewrite filter_cons in N2. case_decide; [|done]. cbn [map] in N2. by apply NoDup_cons in N2 as [_ N2].
  - intros x Hx. destruct (Hm x (list_elem_of_further _ _ _ Hx)) as [M1 M2]. destruct (Ap x Hx) as [A1 A2]. split; [by apply Hv|by apply Hd].
Qed.

(** A vnode in the memory at hand, or none; the file system may have changed without the names. *)
Lemma ok_vnode n n' k ext vext s va da dup f' vs' vp :
  ok n k ext vext s -> 1 <= k -> next_mem s = (va, da, dup) -> fs_ok n' f' vs' -> (forall d c, entry f' d c = entry (fs s) d c) ->
  (forall d, is_dir (fs s) d -> is_dir f' d) ->
  Vnode.inv vs' (if vp =? 0 then (fun v => vext v + uses (cores (dt s)) v) else bump (fun v => vext v + uses (cores (dt s)) v) vp 1) ->
  (forall x w, x <> vp -> Vnode.vnodes (vt (dt s)) !! x = Some w -> Vnode.vnodes vs' !! x = Some w) ->
  (vp = 0 \/ vp = va /\ va <> 0 /\ exists w, Vnode.vnodes vs' !! va = Some w /\ Vnode.v_names w = []) ->
  ok n' (k - 1) ext (if vp =? 0 then vext else bump vext vp 1) (Sys (set_vt (dt s) vs') f' (tail (mem s))) /\
  dentries (dt s) !! da = None /\ (forall x, x ∈ tail (mem s) -> x.1.2 <> da \/ da = 0) /\
  forall x w, x <> vp -> Vnode.vnodes vs' !! x = Some w -> Vnode.vnodes (vt (dt s)) !! x = Some w.
Proof.
  intros [O1 O2 O3 O4 O5 O6] Hk Em Hok Hent Hdir I' Hsame Hnew. pose proof O1 as [T R V].
  destruct (fresh_head va da dup s Em O6 ext vext O1) as [Hva Hda].
  assert (Hback : forall x w, x <> vp -> Vnode.vnodes vs' !! x = Some w -> Vnode.vnodes (vt (dt s)) !! x = Some w).
  { intros x w Hx Hw. destruct (Vnode.vnodes (vt (dt s)) !! x) as [u|] eqn:Hu; [rewrite <- Hw; symmetry; by apply Hsame|].
    pose proof (Vnode.i_dead _ _ (v_counts _ _ _ V) x Hu) as H0. destruct (Vnode.i_ref _ _ I' x w Hw) as (_ & _ & Hp & _). destruct (vp =? 0); [lia|]. rewrite bump_ne in Hp by done. lia. }
  split; [|split; [done|split; [|exact Hback]]]; [|intros x Hx; by apply (fresh_apart va da dup s x Em O6 Hx)]. split; cbn [dt fs mem].
  - split; cbn [set_vt dentries dentry_hash_table fake vt]; [done|done|]. change (cores _) with (cores (dt s)). split.
    + eapply inv_proper; [reflexivity| |exact I']. intros q. destruct (vp =? 0); [done|]. unfold bump. destruct (decide (q = vp)); lia.
    + intros q. pose proof (v_ext _ _ _ V q). destruct (vp =? 0); [done|]. unfold bump. case_decide; lia.
    + intros x w Hw. destruct (decide (x = vp)) as [->|Hx]; [|apply (v_listed _ _ _ V); by apply Hback].
      destruct Hnew as [->|(-> & Hva0 & w' & Hw' & Hnm)]; [by destruct (Vnode.i_ref _ _ I' 0 w Hw) as [? _]|]. rewrite Hw in Hw'. injection Hw' as <-. rewrite Hnm.
      split; [constructor|]. intros q. split; [by intros ?%elem_of_nil|]. intros (c & Hc & Ec). destruct (vnode_alive _ _ _ q c V Hc) as (y & Hy & _). congruence.
  - apply (coherent_same (fs s)); [done|]. intros q c r Hc Hf Eq. destruct (O2 q c r Hc Hf Eq) as (ns & x & E1 & E2 & E3 & E4). exists ns, x. do 2 (split; [done|]). split; [|done].
    cbn [set_vt vt]. apply Hsame; [|done]. intros Ex. destruct Hnew as [E0|[E0 _]]; [|rewrite Ex, E0 in E3; congruence].
    rewrite Ex, E0 in E3. by destruct (Vnode.i_ref _ _ (v_counts _ _ _ V) 0 x E3) as [? _].
  - done.
  - intros m r Hr. by apply Hdir, (O4 m).
  - intros q. specialize (O5 q). cbn [set_vt dentries]. destruct (vp =? 0); [lia|]. unfold bump. case_decide; lia.
  - eapply (fresh_next va da dup s); [done|done| |done]. intros x Hx Hnone. cbn [set_vt vt]. destruct (Vnode.vnodes vs' !! x) as [w|] eqn:Hw; [|done].
    rewrite (Hback x w) in Hnone; [done| |done]. intros ->. destruct Hnew as [->|(-> & ? & _)]; [by destruct (Vnode.i_ref _ _ I' 0 w Hw) as [? _]|]. destruct Hx; done.
Qed.

(** Directories that only grow keep what was found in them. *)
Lemma follow_grows f f' : (forall d c y, entry f d c = Some y -> entry f' d c = Some y) -> forall ns x y, follow f x ns = inr y -> follow f' x ns = inr y.
Proof.
  intros G ns. induction ns as [|c ns IH]; intros x y E; [done|]. cbn [follow] in *. destruct (x.2 =? VDIR); [|done].
  destruct (entry f x.1 c) as [z|] eqn:Ez; [|done]. rewrite (G _ _ _ Ez). by apply IH.
Qed.

Lemma ok_grows n n' k ext vext s f' : ok n k ext vext s -> fs_ok n' f' (vt (dt s)) -> (forall d c y, entry (fs s) d c = Some y -> entry f' d c = Some y) ->
  (forall d, is_dir (fs s) d -> is_dir f' d) -> ok n' k ext vext (Sys (dt s) f' (mem s)).
Proof.
  intros [O1 O2 O3 O4 O5 O6] Hok G Hdir. split; try done; [|intros m r Hr; by apply Hdir, (O4 m)].
  intros q c r Hc Hf Hr. destruct (O2 q c r Hc Hf Hr) as (ns & v & E1 & E2 & E3 & E4 & E5). exists ns, v. do 4 (split; [done|]). by apply (follow_grows (fs s)).
Qed.

(** A vnode of a mount point that is not known yet gets other contents. *)
Lemma ok_vnode_set n n' k ext vext s vp w w' f' : ok n k ext vext s -> Vnode.vnodes (vt (dt s)) !! vp = Some w ->
  Vnode.v_ino w' = Vnode.v_ino w -> Vnode.v_mount w' = Vnode.v_mount w -> Vnode.v_refcnt w' = Vnode.v_refcnt w -> Vnode.v_names w' = Vnode.v_names w ->
  roots !! Vnode.v_mount w = None -> fs_ok n' f' (Vnode.set_vnode (vt (dt s)) vp w') -> (forall d c, entry f' d c = entry (fs s) d c) ->
  (forall d, is_dir (fs s) d -> is_dir f' d) -> ok n' k ext vext (Sys (set_vt (dt s) (Vnode.set_vnode (vt (dt s)) vp w')) f' (mem s)).
Proof.
  intros [[T R V] O2 O3 O4 O5 O6] Hw Ei Em Er En Hno Hok Hent Hdir. split; cbn [dt fs mem].
  - split; cbn [set_vt dentries dentry_hash_table fake vt]; [done|done|]. change (cores _) with (cores (dt s)). destruct V as [I E N]. split; [|done|].
    + destruct (Vnode.i_ref _ _ I vp w Hw) as (_ & Hr & Hb). apply (Vnode.inv_set _ _ _ vp w w' I Hw Em Ei); [by rewrite Er|lia|done].
    + intros x y Hy. cbn [Vnode.set_vnode Vnode.vnodes] in Hy. rewrite lookup_insert_Some in Hy. destruct Hy as [[<- <-]|[_ Hy]]; [rewrite En; by apply N|by apply N].
  - apply (coherent_same (fs s)); [done|]. intros q c r Hc Hf Eq. destruct (O2 q c r Hc Hf Eq) as (ns & x & E1 & E2 & E3 & E4 & E5). exists ns, x. do 2 (split; [done|]).
    split; [|done]. cbn [set_vt vt Vnode.set_vnode Vnode.vnodes]. rewrite lookup_insert_ne; [done|]. intros ->. congruence.
  - done.
  - intros m r Hr. by apply Hdir, (O4 m).
  - done.
  - eapply fresh_keep; [exact O6| |done]. intros x Hx. cbn [set_vt vt Vnode.set_vnode Vnode.vnodes]. rewrite lookup_insert_ne; [done|]. intros ->. congruence.
Qed.

(** A vnode from the file system. *)
Lemma ok_fetch n k ext vext s va da dup dvp v name :
  ok (S n) k ext vext s -> 1 <= k -> next_mem s = (va, da, dup) -> Vnode.vnodes (vt (dt s)) !! dvp = Some v -> Vnode.v_type v = VDIR ->
  Vnode.v_mount v = mp -> is_dir (fs s) (Vnode.v_data v) -> name <> [] ->
  exists rc vp f' vs', vop_lookup va dvp name (fs s) (vt (dt s)) = Some (rc, vp, f', vs') /\ (forall d c, entry f' d c = entry (fs s) d c) /\
    ok n (k - 1) ext (if vp =? 0 then vext else bump vext vp 1) (Sys (set_vt (dt s) vs') f' (tail (mem s))) /\ dentries (dt s) !! da = None /\
    (forall x, x ∈ tail (mem s) -> x.1.2 <> da \/ da = 0) /\ (forall e, stays e (dt s) (set_vt (dt s) vs')) /\
    match entry (fs s) (Vnode.v_data v) name with
    | None => rc = ENOENT /\ vp = 0
    | Some (np, ty) => rc = ENOMEM /\ vp = 0 \/
        rc = 0 /\ vp = va /\ va <> 0 /\ exists w, Vnode.vnodes vs' !! va = Some w /\ Vnode.v_data w = np /\ Vnode.v_type w = ty /\ Vnode.v_mount w = mp
    end.
Proof.
  intros O Hk Em Hv Ht Hmp Hd Hn. pose proof O as [O1 O2 O3 O4 O5 O6]. pose proof O1 as [T R V]. destruct (slack_room k _ _ _ ltac:(lia) O5 O1) as [Hroom Hcnt].
  destruct (fresh_head va da dup s Em O6 ext vext O1) as [Hva Hda].
  assert (Hb : forall q, (fun v => vext v + uses (cores (dt s)) v) q < Vnode.INT_MAX) by (intros q; specialize (Hcnt q); cbn beta; lia).
  destruct (lookup_law n va dvp v name (fs s) (vt (dt s)) _ O3 (v_counts _ _ _ V) Hb Hv Ht Hd Hn Hva)
    as (rc & vp & f' & vs' & E & Hok & Hent & Hdir & I' & Hsame & Hres).
  exists rc, vp, f', vs'. split; [done|]. split; [done|]. destruct (ok_vnode (S n) n k ext vext s va da dup f' vs' vp O Hk Em Hok Hent Hdir I' Hsame) as (O' & H2 & H3 & Hback).
  { destruct (entry (fs s) (Vnode.v_data v) name) as [[np ty]|]; [|destruct Hres as [_ ->]; by left].
    destruct Hres as [(_ & _ & ->)|(_ & ? & -> & w & Hw & _ & _ & _ & Hnm)]; [by left|right]. split; [done|]. split; [done|]. by exists w. }
  split; [done|]. split; [done|]. split; [done|]. split.
  { intros e. split; [done|]. intros m Hm [F1 F2]. split; [|done]. intros q w Hw. cbn [set_vt vt] in Hw. destruct (decide (q = vp)) as [->|Hq]; [|by apply (F1 q), Hback].
    destruct (entry (fs s) (Vnode.v_data v) name) as [[np ty]|].
    - destruct Hres as [(_ & _ & ->)|(_ & _ & -> & w' & Hw' & _ & _ & Hwm & _)]; [by destruct (Vnode.i_ref _ _ I' 0 w Hw) as [? _]|congruence].
    - destruct Hres as [_ ->]. by destruct (Vnode.i_ref _ _ I' 0 w Hw) as [? _]. }
  destruct (entry (fs s) (Vnode.v_data v) name) as [[np ty]|]; [|done]. destruct Hres as [(? & _ & ?)|(? & ? & ? & w & ? & ? & ? & Hwm & _)]; [by left|right].
  split; [done|]. split; [done|]. split; [done|]. exists w. split; [done|]. split; [done|]. split; [done|]. congruence.
Qed.

(** The reference that the look-up took is given back. *)
Lemma ok_vput n k ext vext s va : ok n k ext (bump vext va 1) s -> 0 <= vext va ->
  exists vs, Vnode.vput va (vt (dt s)) = Some vs /\ ok n k ext vext (set_dt s (set_vt (dt s) vs)) /\ shrinks (dt s) (set_vt (dt s) vs).
Proof.
  intros [[T R V] O2 O3 O4 O5 O6] Hva. destruct (vnode_release _ _ _ va V) as (vs & E & V' & Sv); [rewrite bump_eq; lia|]. exists vs. split; [exact E|].
  assert (Sh : shrinks (dt s) (set_vt (dt s) vs)) by (split; [done|split; done]). assert (V2 : vnodes_ok (cores (dt s)) vs vext).
  { eapply vnodes_proper; [reflexivity|reflexivity| |exact V']. intros q. by rewrite bump_back. }
  split; [|done]. split; cbn [set_dt dt fs mem].
  - by split.
  - by apply (coherent_shrinks (fs s) (dt s) _ vext).
  - by apply (fs_ok_same n (fs s) (vt (dt s))).
  - done.
  - intros q. specialize (O5 q). cbn [set_vt dentries]. unfold bump in O5. case_decide; lia.
  - eapply fresh_keep; [exact O6| |done]. intros x. by apply vsame_none.
Qed.

(** A new dentry for a vnode. *)
Lemma ok_enter n k ext vext s ddp va w da dup ns :
  ok n k ext vext s -> 2 <= k -> Vnode.vnodes (vt (dt s)) !! va = Some w -> Vnode.v_mount w = mp -> dentries (dt s) !! da = None ->
  (ddp = 0 \/ is_Some (dentries (dt s) !! ddp)) -> Forall proper ns -> zlen (canonical ns) < PATH_MAX -> (forall p, ~ cached (dt s) mp (canonical ns) p) ->
  (forall r, roots !! mp = Some r -> follow (fs s) (r, VDIR) ns = inr (Vnode.v_data w, Vnode.v_type w)) -> (forall x, x ∈ mem s -> x.1.2 <> da \/ da = 0) ->
  exists dp t, dentry_alloc da dup ddp va (canonical ns) (dt s) = Some (dp, t) /\
    (dp = 0 /\ t = dt s \/
     dp = da /\ dp <> 0 /\ ok n (k - 2) (bump ext dp 1) vext (set_dt s t) /\ file_of t dp (canonical ns) (Vnode.v_data w, Vnode.v_type w) /\
       cores t = <[dp := (canonical ns, mp, va)]> (cores (dt s)) /\ fake t = fake (dt s)) /\
    forall e, stays e (dt s) t.
Proof.
  intros O Hk Hw Hwm Hda Hddp Hns Hl Hnc Hfo Hmem. pose proof O as [O1 O2 O3 O4 O5 O6]. destruct (slack_room k _ _ _ ltac:(lia) O5 O1) as [Hroom Hcnt].
  destruct (Z.eqb_spec da 0) as [E0|E0].
  { exists 0, (dt s). split; [|split; [by left|done]]. unfold dentry_alloc. rewrite Hw, E0. done. }
  destruct dup.
  2: { exists 0, (dt s). split; [|split; [by left|done]]. unfold dentry_alloc. rewrite Hw. cbn [mbind option_bind negb]. by destruct (da =? 0). }
  destruct (dentry_alloc_spec (dt s) ext vext da ddp va w (canonical ns) O1 E0 Hda) as (t & E & I & Hc & Ef & Ec & Sv); try done.
  { destruct Hddp as [->|[dd Hdd]]; [by left|right]. split; [intros ->; congruence|]. exists dd. split; [done|]. by apply (Hroom ddp). }
  { destruct (Vnode.i_ref _ _ (v_counts _ _ _ (d_vnodes _ _ _ O1)) va w Hw) as (_ & -> & _). specialize (Hcnt va). lia. }
  { by rewrite Hwm. }
  exists da, t. split; [done|]. split; cycle 1.
  { intros e. split.
    - intros q c _ Hq. rewrite Ec, Ef, lookup_insert_ne; [done|]. intros <-. unfold cores in Hq. by rewrite lookup_fmap, Hda in Hq.
    - intros m Hm [F1 F2]. split; intros q c Hq.
      + destruct (Sv q c Hq) as (c' & Hc' & K). unfold vnode_key in K. injection K as _ -> _ _. by apply (F1 q).
      + rewrite Ec, lookup_insert_Some, Hwm in Hq. destruct Hq as [[_ <-]|[_ Hq]]; [cbn [fst snd]; congruence|by apply (F2 q)]. }
  right. split; [done|]. split; [done|]. rewrite Hwm in Hc, Ec. pose proof Hc as (d & Hd & Hnf & Emp & Ep).
  assert (Hcd : cores t !! da = Some (core_of d)) by (by apply lookup_cores). assert (Evn : d_vnode d = va).
  { rewrite Ec, lookup_insert_eq in Hcd. by injection Hcd as _ _ ->. }
  destruct (vnode_alive _ _ _ da _ (d_vnodes _ _ _ I) Hcd) as (w' & Hw' & _). cbn [core_of snd] in Hw'. rewrite Evn in Hw'.
  destruct (Sv _ _ Hw') as (w2 & Hw2 & Kw). rewrite Hw in Hw2. injection Hw2 as <-. unfold vnode_key in Kw. injection Kw as _ K2 K3 K4.
  split; [split; cbn [set_dt dt fs mem]|].
  - done.
  - intros q c r Hq Hf Em. rewrite Ec, lookup_insert_Some in Hq. destruct Hq as [[<- <-]|[Hq Hcq]].
    + cbn [fst snd] in *. exists ns, w'. split; [done|]. split; [done|]. split; [done|]. split; [congruence|]. rewrite K3, K4. by apply Hfo.
    + rewrite Ef in Hf. destruct (O2 q c r Hcq Hf Em) as (ns' & x & F1 & F2 & F3 & F4 & F5).
      destruct (vnode_alive _ _ _ q c (d_vnodes _ _ _ I)) as (x' & Hx' & _); [by rewrite Ec, lookup_insert_ne|]. destruct (Sv _ _ Hx') as (y & Hy & Ky).
      rewrite F3 in Hy. injection Hy as <-. unfold vnode_key in Ky. injection Ky as _ Y2 Y3 Y4. exists ns', x'. do 3 (split; [done|]). split; [congruence|]. by rewrite Y3, Y4.
  - by apply (fs_ok_same n (fs s) (vt (dt s))).
  - done.
  - intros q. specialize (O5 q). assert (size (dentries t) = S (size (dentries (dt s)))) as Hsz.
    { rewrite <- (map_size_fmap core_of), <- (map_size_fmap core_of (dentries (dt s))). fold (cores t). rewrite Ec. apply map_size_insert_None.
      unfold cores. by rewrite lookup_fmap, Hda. }
    unfold bump. case_decide; lia.
  - destruct O6 as (N1 & N2 & Hm). split; [done|]. split; [done|]. intros x Hx. destruct (Hm x Hx) as [M1 M2]. split; [by apply (vsame_none _ _ _ Sv)|].
    destruct (dentries t !! x.1.2) as [y|] eqn:Hy; [|done]. apply lookup_cores in Hy. rewrite Ec, lookup_insert_Some in Hy.
    destruct Hy as [[Hy _]|[_ Hy]]; [|unfold cores in Hy; by rewrite lookup_fmap, M2 in Hy]. destruct (Hmem x Hx); congruence.
  - split; [|done]. exists d, w'. split; [done|]. split; [done|]. split; [done|]. split; [by rewrite Evn|]. split; [congruence|]. by rewrite K3, K4.
Qed.

Lemma ok_less n k k' ext vext s : ok (S n) k ext vext s -> k' <= k -> ok n k' ext vext s.
Proof. intros [O1 O2 O3 O4 O5 O6] Hk. split; try done; [by apply fs_ok_less|]. intros q. specialize (O5 q). lia. Qed.

Lemma ok_slack n k k' ext vext s : ok n k ext vext s -> k' <= k -> ok n k' ext vext s.
Proof. intros [O1 O2 O3 O4 O5 O6] Hk. split; try done. intros q. specialize (O5 q). lia. Qed.

Lemma cached_found n k ext vext s ns p : ok n k ext vext s -> Forall proper ns -> cached (dt s) mp (canonical ns) p ->
  exists y, follow (fs s) (root, VDIR) ns = inr y /\ file_of (dt s) p (canonical ns) y.
Proof.
  intros [O1 O2 O3 O4 O5 O6] Hns (d & Hd & Hf & Em & Ep). destruct (coherent_path (fs s) (dt s) p _ d O2 Hd Hf Em Ep) as (ns' & v & E1 & E2 & E3 & E4 & E5).
  apply canonical_inj in E1; [subst ns'|done|done]. eexists. split; [exact E5|]. by exists d, v.
Qed.

Lemma bump_held ext p q : 0 < bump ext p (-1) q -> 0 < ext q.
Proof. unfold bump. case_decide; lia. Qed.

(** The next name of the walk: [dp] is held in addition to [ddp], or [ddp] is released and an error returned. *)
Lemma get_child_spec n k ext vext s ddp pth ns name x :
  ok (S n) k ext vext s -> 4 <= k -> 0 < ext ddp -> file_of (dt s) ddp pth x -> x.2 = VDIR -> follow (fs s) (root, VDIR) ns = inr x ->
  Forall proper (ns ++ [name]) -> zlen (canonical (ns ++ [name])) < PATH_MAX ->
  exists e dp s', get_child mp ddp (canonical (ns ++ [name])) name s = Some (e, dp, s') /\ (forall d c, entry (fs s') d c = entry (fs s) d c) /\
    stays (bump ext ddp (-1)) (dt s) (dt s') /\
    (e <> 0 /\ ok n (k - 4) (bump ext ddp (-1)) vext s' /\ (e = ENOMEM \/ entry (fs s) x.1 name = None /\ e = ENOENT) \/
     e = 0 /\ dp <> 0 /\ ok n (k - 4) (bump ext dp 1) vext s' /\ exists y, entry (fs s) x.1 name = Some y /\ file_of (dt s') dp (canonical (ns ++ [name])) y).
Proof.
  intros O Hk He (dd & v & Hdd & Emd & Epd & Hv & Evm & ->) Hty Hfo Hp Hl. cbn [fst snd] in *. pose proof O as [O1 O2 O3 O4 O5 O6].
  assert (Hfo' : follow (fs s) (root, VDIR) (ns ++ [name]) = match entry (fs s) (Vnode.v_data v) name with Some y => inr y | None => inl ENOENT end).
  { rewrite follow_app, Hfo. cbn [follow fst snd]. rewrite Hty, Z.eqb_refl. by destruct (entry _ _ _). }
  destruct (slack_room k _ _ _ ltac:(lia) O5 O1) as [Hroom _]. unfold get_child. rewrite Hdd. cbn [mbind option_bind].
  destruct (dentry_lookup_spec (dt s) ext vext mp (canonical (ns ++ [name])) O1 Hroom Hl) as [(p & d & Hc & Hd & -> & _)|[Hnc ->]]; cbn [mbind option_bind].
  - destruct (ok_hold (S n) k ext vext s p d O ltac:(lia) Hd) as (_ & O' & Sh). destruct (r_ref _ _ (d_tree _ _ _ O1) p d Hd) as [Hp0 _].
    destruct (Z.eqb_spec p 0); [done|]. cbn [negb]. eexists 0, p, _. split; [done|]. split; [done|].
    split; [eapply stays_shrinks; [exact Sh|apply O'|]; intros q; unfold bump; repeat case_decide; lia|]. right. split; [done|]. split; [done|].
    split; [eapply ok_less; [exact O'|lia]|]. destruct (cached_found _ _ _ _ s _ p O Hp Hc) as (y & Hy & Hfile). exists y. split.
    + rewrite Hfo' in Hy. destruct (entry _ _ _); [by injection Hy as ->|done].
    + eapply file_kept; [exact Sh|apply O'| |exact Hfile]. cbn [set_dt dt set_dentry dentries]. rewrite lookup_insert_eq. by eexists.
  - change (0 =? 0) with true. cbn [negb]. destruct (next_mem s) as [[va da] dup] eqn:Em. apply Forall_app in Hp as Hp'. destruct Hp' as [Hns [[Hne _] _]%Forall_cons].
    assert (Hdir : is_dir (fs s) (Vnode.v_data v)) by (apply (follow_dir (S n) (fs s) (vt (dt s)) O3 (O4 mp root Hroot) ns); by rewrite Hfo, Hty).
    destruct (ok_fetch n k ext vext s va da dup _ v name O ltac:(lia) Em Hv Hty Evm Hdir Hne) as (rc & vp & f' & vs' & -> & Hent & O' & Hda & Hmem & St & Hres).
    cbn [mbind option_bind dt]. set (s1 := Sys (set_vt (dt s) vs') f' (tail (mem s))) in *.
    assert (Fail : forall e k' s2, ok n k' ext vext s2 -> k - 4 <= k' -> stays ext (dt s) (dt s2) -> (forall d c, entry (fs s2) d c = entry (fs s) d c) -> e <> 0 ->
      e = ENOMEM \/ entry (fs s) (Vnode.v_data v) name = None /\ e = ENOENT ->
      exists e0 dp s', (t ← drele ddp (dt s2); Some (e, 0, set_dt s2 t)) = Some (e0, dp, s') /\ (forall d c, entry (fs s') d c = entry (fs s) d c) /\ stays (bump ext ddp (-1)) (dt s) (dt s') /\
        (e0 <> 0 /\ ok n (k - 4) (bump ext ddp (-1)) vext s' /\ (e0 = ENOMEM \/ entry (fs s) (Vnode.v_data v) name = None /\ e0 = ENOENT) \/
         e0 = 0 /\ dp <> 0 /\ ok n (k - 4) (bump ext dp 1) vext s' /\ exists y, entry (fs s) (Vnode.v_data v) name = Some y /\ file_of (dt s') dp (canonical (ns ++ [name])) y)).
    { intros e k' s2 Ok2 Hk2 Kp He2 Hne0 Hor. destruct (ok_drele n k' ext vext s2 ddp Ok2 He) as (t & -> & Ok3 & Sh). cbn [mbind option_bind].
      exists e, 0, (set_dt s2 t). split; [done|]. split; [done|].
      split; [eapply stays_trans; [eapply stays_less; [|exact Kp]; apply bump_held|eapply stays_shrinks; [exact Sh|apply Ok3|done]]|]. left. split; [done|]. split; [by eapply ok_slack; [exact Ok3|]|done]. }
    destruct (entry (fs s) (Vnode.v_data v) name) as [[np ty]|] eqn:Ee.
    2: { destruct Hres as [-> ->]. change (ENOENT =? 0) with false. cbn [negb]. apply (Fail ENOENT (k - 1) s1); [done|lia|apply St|done|done|by right]. }
    destruct Hres as [[-> ->]|(-> & -> & Hva0 & w & Hw & Ew1 & Ew2 & Ew3)].
    { change (ENOMEM =? 0) with false. cbn [negb]. apply (Fail ENOMEM (k - 1) s1); [done|lia|apply St|done|done|by left]. }
    change (0 =? 0) with true. cbn [negb]. destruct (Z.eqb_spec va 0); [done|].
    assert (Hddp0 : ddp <> 0) by (by destruct (r_ref _ _ (d_tree _ _ _ O1) ddp dd Hdd) as [? _]).
    destruct (ok_enter n (k - 1) ext _ s1 ddp va w da dup (ns ++ [name]) O' ltac:(lia) Hw Ew3 Hda (or_intror (ex_intro _ dd Hdd))) as (dp & t & Ea & Hcase & Kp); try done.
    { intros r Hr. assert (r = root) as -> by congruence. cbn [s1 fs]. rewrite (follow_same _ _ Hent), Hfo'. by rewrite Ew1, Ew2. }
    change (dt s1) with (set_vt (dt s) vs') in Ea at 1. rewrite Ea. cbn [mbind option_bind]. pose proof (v_ext _ _ _ (d_vnodes _ _ _ O1) va) as Hvx.
    destruct Hcase as [[-> ->]|(-> & Hda0 & O2' & Hfile & _)].
    + destruct (ok_vput n (k - 1) ext vext s1 va O' Hvx) as (vs2 & -> & O3' & Sh2). cbn [mbind option_bind]. change (0 =? 0) with true.
      apply (Fail ENOMEM (k - 1) (set_dt s1 (set_vt (dt s1) vs2))); [done|lia| |done|done|by left].
      eapply stays_trans; [apply St|]. by eapply stays_shrinks; [exact Sh2|apply O3'|].
    + destruct (ok_vput n (k - 1 - 2) (bump ext da 1) vext (set_dt s1 t) va O2' Hvx) as (vs2 & E2 & O3' & Sh2). cbn [set_dt dt] in E2. rewrite E2. cbn [mbind option_bind].
      destruct (Z.eqb_spec da 0); [done|]. eexists 0, da, _. split; [done|]. split; [done|].
      split; [eapply stays_trans; [apply St|]; eapply stays_trans; [apply Kp|eapply stays_shrinks; [exact Sh2|apply O3'|]; intros q; unfold bump; repeat case_decide; lia]|]. right. split; [done|]. split; [done|].
      split; [eapply ok_slack; [exact O3'|lia]|]. exists (np, ty). split; [done|]. rewrite <- Ew1, <- Ew2.
      eapply file_kept; [exact Sh2|apply O3'| |exact Hfile]. destruct Hfile as (d & _ & Hd & _). cbn [set_dt dt set_vt dentries]. by exists d.
Qed.

(** ** The names of a path *)

Lemma skip_none p : names p = [] -> skip_slashes p = [].
Proof.
  induction p as [|c p IH]; [done|]. cbn [skip_slashes]. destruct (Z.eqb_spec c slash) as [->|Hc]; [exact IH|].
  intros E. exfalso. pose proof (component_spec (c :: p)) as Hs. destruct (component (c :: p)) as [w rest]. destruct Hs as (Es & Hw & Hr).
  destruct w as [|x w].
  - cbn [app] in Es. rewrite <- Es in Hr. done.
  - rewrite Es in E. unfold names in E. destruct rest as [|y r]; [rewrite app_nil_r, split_end in E by done; done|]. subst y. rewrite split_word in E by done. done.
Qed.

(** The first name, and what follows it. *)
Lemma skip_name p c ns : names p = c :: ns -> exists p', skip_slashes p <> [] /\ component (skip_slashes p) = (c, p') /\
  zlen (skip_slashes p) = zlen c + zlen p' /\ (length (skip_slashes p) <= length p)%nat /\ proper c /\ names p' = ns /\
  (p' = [] /\ last p <> Some slash \/ exists q, p' = slash :: q /\ last p = last p').
Proof.
  induction p as [|d p IH]; [done|]. cbn [skip_slashes]. destruct (Z.eqb_spec d slash) as [->|Hd]; intros E.
  - destruct (IH E) as (p' & H1 & H2 & H3 & H4 & H5 & H6 & H7). exists p'. cbn [length]. split; [done|]. split; [done|]. split; [done|]. split; [lia|]. do 2 (split; [done|]).
    assert (El : last (slash :: p) = last p) by (destruct p; [done|by rewrite last_cons_cons]). by rewrite El.
  - pose proof (component_spec (d :: p)) as Hs. destruct (component (d :: p)) as [w rest]. destruct Hs as (Es & Hw & Hr).
    assert (Hw0 : w <> []) by (intros ->; cbn [app] in Es; rewrite <- Es in Hr; done). exists rest. split; [done|].
    assert (Hn : c = w /\ names rest = ns).
    { rewrite Es in E. unfold names in E. destruct rest as [|y r]; [rewrite app_nil_r, split_end in E by done|subst y; rewrite split_word in E by done]; cbn [app] in E;
        rewrite keep_proper in E by done; by injection E as -> <-. }
    destruct Hn as [-> Hns]. split; [done|]. split; [rewrite Es, length_app; lia|]. split; [done|]. split; [done|]. split; [done|]. rewrite Es. destruct rest as [|y r].
    + left. split; [done|]. rewrite app_nil_r. intros Hl. apply last_Some_elem_of in Hl. done.
    + subst y. right. exists r. split; [done|]. rewrite last_app, last_cons. by destruct (last r).
Qed.

Lemma meaning_step f x y p c p' ns : names p = c :: ns -> names p' = ns -> x.2 = VDIR -> entry f x.1 c = Some y ->
  (p' = [] /\ last p <> Some slash \/ exists q, p' = slash :: q /\ last p = last p') -> meaning f x p = meaning f y p'.
Proof.
  intros E1 E2 Hx Hy Hl. unfold meaning. rewrite E1, E2. cbn [follow]. rewrite Hx, Z.eqb_refl, Hy. destruct Hl as [[-> Hl]|(q & -> & ->)]; [|done].
  rewrite (bool_decide_eq_false_2 (last p = Some slash)) by done. done.
Qed.

Lemma ok_mono n n' k k' ext vext s : ok n k ext vext s -> (n' <= n)%nat -> k' <= k -> ok n' k' ext vext s.
Proof.
  intros O Hn Hk. assert (O' : ok n k' ext vext s) by (by eapply ok_slack). clear O. induction Hn as [|m Hm IH]; [done|]. apply IH. by eapply ok_less; [exact O'|].
Qed.

Lemma ext_pos st ext vext q : dinv st ext vext -> 0 <= ext q.
Proof. intros [T R V]. destruct (dentries st !! q) as [d|] eqn:Hd; [by destruct (r_ref _ _ R q d Hd) as (_ & _ & _ & ?)|]. by rewrite (r_dead _ _ R q Hd). Qed.

Lemma held_alive st ext vext q : dinv st ext vext -> 0 < ext q -> is_Some (dentries st !! q).
Proof. intros [T R V] Hq. destruct (dentries st !! q) as [d|] eqn:Hd; [by exists d|]. rewrite (r_dead _ _ R q Hd) in Hq. lia. Qed.

Lemma node_path ns name : zlen (spell ns) + zlen name + 1 < PATH_MAX -> clip (clip (spell ns ++ [slash]) ++ name) = canonical (ns ++ [name]).
Proof.
  intros Hl. unfold clip. rewrite (take_ge (spell ns ++ [slash])) by (rewrite length_app; cbn [length]; lia).
  rewrite take_ge by (rewrite !length_app; cbn [length]; lia). rewrite <- app_assoc. cbn [app]. rewrite <- spell_app. by destruct ns.
Qed.

Lemma spell_snoc ns name : spell (ns ++ [name]) = canonical (ns ++ [name]) /\ zlen (spell (ns ++ [name])) = zlen (spell ns) + zlen name + 1.
Proof. split; [by destruct ns|]. rewrite spell_app, length_app. cbn [length]. lia. Qed.

Lemma skip_short q : (length (skip_slashes q) <= length q)%nat.
Proof. induction q as [|c q IH]; [done|]. cbn [skip_slashes]. destruct (c =? slash); cbn [length]; lia. Qed.

Lemma skip_last q : skip_slashes q = [] -> q <> [] -> last q = Some slash.
Proof.
  induction q as [|c q IH]; [done|]. cbn [skip_slashes]. destruct (Z.eqb_spec c slash) as [->|]; [|done]. intros E _. destruct q as [|d q]; [done|].
  rewrite last_cons_cons. by apply IH.
Qed.

Lemma walk_path_step fuel (fp : list Z) mlen p node ddp dp s name p' : skip_slashes p <> [] -> component (skip_slashes p) = (name, p') ->
  walk_path (S fuel) mp fp mlen p node ddp dp s =
    let node := clip (clip (node ++ [slash]) ++ name) in
    '(error, dp, s) ← get_child mp ddp node name s;
    if negb (error =? 0) then Some (Failed error, s)
    else
      t ← drele ddp (dt s);
      let s := set_dt s t in
      d ← dentries (dt s) !! dp;
      v ← Vnode.vnodes (vt (dt s)) !! d_vnode d;
      if Vnode.v_type v =? VLNK then
        '(error, fp, s) ← namei_follow_link dp node name fp mlen s;
        t ← drele dp (dt s);
        Some (if negb (error =? 0) then Failed error else Linked fp, set_dt s t)
      else if bool_decide (head p' = Some slash) && negb (Vnode.v_type v =? VDIR) then
        t ← drele dp (dt s); Some (Failed ENOTDIR, set_dt s t)
      else walk_path fuel mp fp mlen p' node dp dp s.
Proof. intros Hne E. cbn [walk_path]. destruct (skip_slashes p); [done|]. by rewrite E. Qed.

(** The end of a walk from the dentry [ddp], which is a file [x], along [p]. *)
Definition arrives (n : nat) (k : Z) (f : F) (x : Z * Z) (p : list Z) (ddp : Z) (ext vext : Z -> Z) (r : walked) (s' : sys F) : Prop :=
  match r with
  | Found dp => exists pth y, meaning f x p = inr y /\ file_of (dt s') dp pth y /\ dp <> 0 /\ ok n k (bump (bump ext ddp (-1)) dp 1) vext s'
  | Failed e => (e = ENOMEM \/ meaning f x p = inl e) /\ e <> 0 /\ ok n k (bump ext ddp (-1)) vext s'
  | Linked _ => False
  end.

(** What a walk from [y] along the rest of the path says of the walk from [x]. *)
Lemma arrives_step n k f f' x y p p' ddp dp ext ext' vext r s' : (forall d c, entry f' d c = entry f d c) -> meaning f x p = meaning f y p' ->
  (forall q, bump ext' dp (-1) q = bump ext ddp (-1) q) ->
  arrives n k f' y p' dp ext' vext r s' -> arrives n k f x p ddp ext vext r s'.
Proof.
  intros Ef Em Ee A. assert (Em' : meaning f' y p' = meaning f x p) by (rewrite Em; unfold meaning; by rewrite (follow_same f f')).
  destruct r as [q|e|]; [| |done]; cbn [arrives] in *; rewrite Em' in A.
  - destruct A as (pth & z & A1 & A2 & A3 & A4). exists pth, z. do 3 (split; [done|]). eapply ok_ext; [|exact A4]. intros a. unfold bump at 1 3. case_decide; by rewrite Ee.
  - destruct A as (A1 & A2 & A3). do 2 (split; [done|]). eapply ok_ext; [|exact A3]. intros a. by rewrite Ee.
Qed.

Lemma walk_path_spec fp mlen fuel : forall p ddp dp ext vext s n k ns x pth,
  ok (length (names p) + n) (4 * zlen (names p) + k) ext vext s -> 0 <= k -> (length p <= fuel)%nat ->
  0 < ext ddp -> file_of (dt s) ddp pth x -> follow (fs s) (root, VDIR) ns = inr x -> Forall proper ns ->
  (skip_slashes p = [] \/ zlen (spell ns) + zlen (skip_slashes p) + 1 < PATH_MAX) -> no_link (fs s) (ns ++ names p) ->
  (names p = [] -> dp = ddp) -> (p <> [] -> x.2 = VDIR) ->
  exists r s', walk_path fuel mp fp mlen p (spell ns) ddp dp s = Some (r, s') /\ (forall d c, entry (fs s') d c = entry (fs s) d c) /\
    stays (bump ext ddp (-1)) (dt s) (dt s') /\
    arrives n k (fs s) x p ddp ext vext r s'.
Proof.
  induction fuel as [|fuel IH]; intros p ddp dp ext vext s n k ns x pth O Hk Hf He Hfile Hfo Hns Hlen Hnl Hdp Hx.
  all: destruct (names p) as [|c ns'] eqn:Enames.
  1, 3: rewrite (skip_none p Enames) in *; rewrite (Hdp eq_refl) in *; exists (Found ddp), s; unfold walk_path; rewrite ?(skip_none p Enames); (split; [done|]);
    (split; [done|]); (split; [done|]); exists pth, x; (split; [unfold meaning; rewrite Enames; cbn [follow]; destruct p as [|c p]; [done|]; rewrite (Hx ltac:(done)), Z.eqb_refl, andb_false_r; done|]);
    (split; [done|]); (split; [destruct Hfile as (d & _ & Hd & _); by destruct (r_ref _ _ (d_tree _ _ _ (o_dinv _ _ _ _ _ O)) ddp d Hd) as [? _]|]);
    eapply ok_ext; [|exact O]; intros q; unfold bump; repeat case_decide; lia.
  { destruct p; [done|cbn [length] in Hf; lia]. }
  assert (Hx2 : x.2 = VDIR) by (apply Hx; by intros ->). destruct (skip_name p c ns' Enames) as (p' & H1 & H2 & H3 & H4 & H5 & H6 & H7).
  destruct Hlen as [Hlen|Hlen]; [done|]. cbn [length plus] in O. destruct (spell_snoc ns c) as [Hsp Hsl].
  assert (Hpp : Forall proper (ns ++ [c])) by (apply Forall_app; split; [done|by apply Forall_singleton]).
  rewrite (walk_path_step fuel fp mlen p _ ddp dp s c p' H1 H2), node_path by lia. cbn zeta.
  destruct (get_child_spec _ _ ext vext s ddp pth ns c x O ltac:(lia) He Hfile Hx2 Hfo Hpp) as (e & dp1 & s1 & -> & Hent & Kp & Hres); [rewrite <- Hsp, Hsl; lia|].
  cbn [mbind option_bind]. destruct Hres as [(Hne & O1 & Hor)|(-> & Hdp0 & O1 & y & Hy & Hfy)].
  { destruct (Z.eqb_spec e 0); [done|]. cbn [negb]. exists (Failed e), s1. split; [done|]. split; [done|]. split; [done|]. split; [|split; [done|by eapply ok_mono; [exact O1|lia|lia]]].
    destruct Hor as [->|[Hno ->]]; [by left|right]. unfold meaning. rewrite Enames. cbn [follow]. by rewrite Hx2, Z.eqb_refl, Hno. }
  change (0 =? 0) with true. cbn [negb]. pose proof (ext_pos _ _ _ dp1 (o_dinv _ _ _ _ _ O)) as Hp1. pose proof (ext_pos _ _ _ ddp (o_dinv _ _ _ _ _ O)) as Hp2.
  destruct (ok_drele _ _ _ vext s1 ddp O1) as (t & -> & O2 & Sh); [unfold bump; case_decide; lia|]. cbn [mbind option_bind]. cbn zeta.
  assert (He1 : 0 < bump (bump ext dp1 1) ddp (-1) dp1) by (unfold bump; repeat case_decide; subst; lia).
  pose proof (file_kept _ _ dp1 _ y vext Sh (d_vnodes _ _ _ (o_dinv _ _ _ _ _ O2)) (held_alive _ _ _ dp1 (o_dinv _ _ _ _ _ O2) He1) Hfy) as Hfy2.
  pose proof Hfy2 as (d & v & Hd & Hdm & Hdp' & Hv & Hvm & Ey). cbn [set_dt dt]. rewrite Hd. cbn [mbind option_bind]. rewrite Hv. cbn [mbind option_bind].
  assert (Hfo1 : follow (fs s) (root, VDIR) (ns ++ [c]) = inr y) by (rewrite follow_app, Hfo; cbn [follow]; by rewrite Hx2, Z.eqb_refl, Hy).
  assert (Hnl1 : Vnode.v_type v <> VLNK).
  { apply (Hnl (ns ++ [c]) (Vnode.v_data v)); [|by rewrite Hfo1, Ey]. exists ns'. by rewrite <- app_assoc. }
  destruct (Z.eqb_spec (Vnode.v_type v) VLNK); [done|]. pose proof (meaning_step (fs s) x y p c p' ns' Enames H6 Hx2 Hy H7) as Hm.
  assert (Hback : forall q, bump (bump (bump ext dp1 1) ddp (-1)) dp1 (-1) q = bump ext ddp (-1) q) by (intros q; unfold bump; repeat case_decide; lia).
  assert (KpT : stays (bump ext ddp (-1)) (dt s) t).
  { eapply stays_trans; [exact Kp|]. eapply stays_shrinks; [exact Sh|apply O2|]. intros q. unfold bump. repeat case_decide; lia. }
  destruct (bool_decide_reflect (head p' = Some slash)) as [Hh|Hh]; cbn [andb].
  - destruct (Z.eqb_spec (Vnode.v_type v) VDIR) as [Hvd|Hvd]; cbn [negb].
    + destruct (IH p' dp1 dp1 (bump (bump ext dp1 1) ddp (-1)) vext (set_dt s1 t) n k (ns ++ [c]) y (canonical (ns ++ [c]))) as (r & s' & E & Hent2 & Kp2 & A); try done.
      1: { rewrite H6. eapply ok_mono; [exact O2|lia|lia]. }
      all: cbn [set_dt fs]; rewrite ?H6, ?(follow_same _ _ Hent); try done; try lia.
      * destruct H7 as [[-> _]|(q & -> & _)]; [done|]. cbn [length] in H3. pose proof (skip_short p). pose proof (component_spec (skip_slashes p)) as Hc.
        destruct c; [by destruct H5|]. cbn [length] in *. lia.
      * right. destruct H7 as [[-> _]|(q & -> & _)]; [done|]. cbn [skip_slashes]. change (slash =? slash) with true. cbn iota. pose proof (skip_short q).
        rewrite Hsl. cbn [length] in H3. lia.
      * rewrite <- app_assoc. cbn [app]. intros ms np ty. rewrite (follow_same _ _ Hent). apply Hnl.
      * by rewrite Ey.
      * rewrite <- Hsp. exists r, s'. split; [exact E|]. split; [intros; by rewrite Hent2, <- Hent|].
        split; [eapply stays_trans; [exact KpT|]; eapply stays_less; [|exact Kp2]; intros q; by rewrite Hback|]. by eapply arrives_step.
    + destruct (ok_drele _ _ _ vext (set_dt s1 t) dp1 O2 He1) as (t2 & E & O3 & Sh3). cbn [set_dt dt] in E. rewrite E. cbn [mbind option_bind].
      exists (Failed ENOTDIR), (set_dt s1 t2). split; [done|]. split; [done|].
      split; [eapply stays_trans; [exact KpT|]; eapply stays_shrinks; [exact Sh3|apply O3|]; intros q; by rewrite Hback|]. split; [|split; [done|]].
      * right. rewrite Hm. unfold meaning. rewrite H6. destruct ns' as [|c' ns'']; cbn [follow].
        -- rewrite (skip_last p' (skip_none p' H6)) by (by intros ->). rewrite Ey. cbn [snd]. by destruct (Z.eqb_spec (Vnode.v_type v) VDIR).
        -- rewrite Ey. cbn [snd]. by destruct (Z.eqb_spec (Vnode.v_type v) VDIR).
      * eapply ok_ext; [|eapply ok_mono; [exact O3|lia|lia]]. intros q. by rewrite Hback.
  - destruct H7 as [[-> Hl]|(q & -> & _)]; [|done]. assert (ns' = []) as -> by done.
    exists (Found dp1), (set_dt s1 t). rewrite <- Hsp.
    split; [destruct fuel; done|]. split; [done|]. split; [done|]. exists (canonical (ns ++ [c])), y. rewrite Hm. split; [done|]. split; [done|]. split; [done|].
    eapply ok_ext; [|eapply ok_mono; [exact O2|lia|lia]]. intros q. unfold bump. repeat case_decide; lia.
Qed.

(** ** The whole search *)

Lemma findroot_shorter path mounts m p : vfs_findroot path mounts = Some (m, p) -> zlen p + 1 <= zlen path.
Proof.
  unfold vfs_findroot. pose proof (best_mount_spec path mounts 0 None ltac:(lia)) as B. destruct (best_mount path mounts 0 None) as [max o].
  destruct B as (_ & _ & B). destruct B as [[-> ->]|(y & Hy & -> & Emax & Hpos)]; [done|]. cbn [mbind option_bind]. intros E. injection E as _ <-.
  assert (path <> []) by (intros ->; unfold count_match in Emax; cbn in Emax; destruct y.2; cbn in Emax; lia).
  assert (1 <= length path)%nat by (destruct path; [done|cbn [length]; lia]). pose proof (length_drop path (Z.to_nat max)) as Hd.
  destruct (drop (Z.to_nat max) path) as [|c l]; [cbn [length]; lia|]. cbn [length] in Hd. destruct (c =? slash); cbn [length]; lia.
Qed.

Lemma clip_fits l : zlen l < PATH_MAX -> clip l = l.
Proof. intros Hl. unfold clip. apply take_ge. lia. Qed.

Lemma last_spell ns : Forall proper ns -> ns <> [] -> last (spell ns) <> Some slash.
Proof.
  destruct ns as [|c ns _] using rev_ind; [done|]. intros Hp _. apply Forall_app in Hp as [_ Hp]. apply Forall_singleton in Hp as [Hne Hs].
  rewrite spell_app, last_app, last_cons. destruct (last c) as [x|] eqn:E; [|by apply last_None in E]. intros [= ->]. apply Hs. by apply last_Some_elem_of.
Qed.

(** A path as the cache keeps it means what its names lead to. *)
Lemma meaning_canonical f x p ns : slash :: p = canonical ns -> Forall proper ns -> names p = ns /\ meaning f x p = follow f x ns.
Proof.
  intros E Hns. assert (En : names p = ns).
  { transitivity (names (slash :: p)); [done|]. rewrite E. apply names_spells; [done|apply canonical_spells]. }
  split; [done|]. unfold meaning. rewrite En. destruct (follow f x ns) as [|y]; [done|]. rewrite bool_decide_eq_false_2; [done|]. intros Hl.
  destruct ns as [|c ns']; [cbn [canonical] in E; injection E as ->; done|]. apply (last_spell (c :: ns') Hns ltac:(done)).
  change (canonical (c :: ns')) with (spell (c :: ns')) in E. rewrite <- E, last_cons, Hl. done.
Qed.

(** A search on a path without links returns a held dentry of the file that the path means, or the
    error that it means, or that there was no memory. *)
Lemma namei_spec mounts m_root path p s n k ext vext :
  ok (length (names p) + n) (4 * zlen (names p) + 1 + k) ext vext s -> 0 <= k ->
  vfs_findroot path mounts = Some (mp, p) -> zlen path < PATH_MAX -> (names p = [] -> p = []) ->
  m_root mp <> 0 -> cached (dt s) mp [slash] (m_root mp) -> file_of (dt s) (m_root mp) [slash] (root, VDIR) -> no_link (fs s) (names p) ->
  exists e dp s', namei mounts m_root path s = Some (e, dp, s') /\ (forall d c, entry (fs s') d c = entry (fs s) d c) /\ stays ext (dt s) (dt s') /\
    (e = 0 /\ dp <> 0 /\ (exists pth y, meaning (fs s) (root, VDIR) p = inr y /\ file_of (dt s') dp pth y) /\ ok n k (bump ext dp 1) vext s' \/
     e <> 0 /\ dp = 0 /\ (e = ENOMEM \/ meaning (fs s) (root, VDIR) p = inl e) /\ ok n k ext vext s').
Proof.
  intros O Hk Hfr Hl Hp0 Hr0 Hrc Hrf Hnl. pose proof (findroot_shorter _ _ _ _ Hfr) as Hshort. unfold namei.
  rewrite (clip_fits path) by done. cbn [MAXSYMLINKS namei_loop]. rewrite Hfr, clip_fits by (cbn [length]; lia).
  destruct (slack_room (4 * zlen (names p) + 1 + k) _ _ _ ltac:(lia) (o_slack _ _ _ _ _ O) (o_dinv _ _ _ _ _ O)) as [Hroom _].
  destruct (dentry_lookup_spec (dt s) ext vext mp (slash :: p) (o_dinv _ _ _ _ _ O) Hroom) as [(q & d & Hc & Hd & -> & _)|[Hnc ->]]; [cbn [length]; lia| |]; cbn [mbind option_bind].
  - destruct (ok_hold _ _ ext vext s q d O ltac:(lia) Hd) as (_ & O' & Sh). destruct (r_ref _ _ (d_tree _ _ _ (o_dinv _ _ _ _ _ O)) q d Hd) as [Hq0 _].
    destruct (Z.eqb_spec q 0); [done|]. cbn [negb]. eexists 0, q, _. split; [done|]. split; [done|].
    split; [eapply stays_shrinks; [exact Sh|apply O'|]; intros a; unfold bump; case_decide; lia|]. left. split; [done|]. split; [done|]. split; [|by eapply ok_mono; [exact O'|lia|lia]].
    pose proof Hc as (d' & Hd' & Hf & Em & Ep). destruct (coherent_path (fs s) (dt s) q _ d' (o_coh _ _ _ _ _ O) Hd' Hf Em Ep) as (ns & v & E1 & E2 & _).
    destruct (meaning_canonical (fs s) (root, VDIR) p ns E1 E2) as [_ ->]. rewrite E1 in Hc. destruct (cached_found _ _ _ _ s _ q O E2 Hc) as (y & Hy & Hfile).
    exists (canonical ns), y. split; [done|]. eapply file_kept; [exact Sh|apply O'| |exact Hfile]. cbn [set_dt dt set_dentry dentries]. rewrite lookup_insert_eq. by eexists.
  - assert (Hp : p <> []) by (intros ->; by apply (Hnc (m_root mp))). change (0 =? 0) with true. cbn [negb]. destruct (Z.eqb_spec (m_root mp) 0); [done|].
    destruct Hrf as (d & v & Hd & Hrest). destruct (ok_hold _ _ ext vext s (m_root mp) d O ltac:(lia) Hd) as (-> & O' & Sh). cbn [mbind option_bind].
    set (s0 := set_dt s _) in *. assert (He : 0 < bump ext (m_root mp) 1 (m_root mp)) by (rewrite bump_eq; pose proof (ext_pos _ _ _ (m_root mp) (o_dinv _ _ _ _ _ O)); lia).
    destruct (walk_path_spec path (zlen path - zlen p - 1) (length p) p (m_root mp) 0 (bump ext (m_root mp) 1) vext s0 n k [] (root, VDIR) [slash]) as (r & s' & E & Hent & Kp & A); try done; try lia.
    + eapply ok_mono; [exact O'|lia|lia].
    + eapply file_kept; [exact Sh|apply O'|by eapply held_alive; [apply O'|]|]. by exists d, v.
    + right. pose proof (skip_short p). cbn [spell map concat length]. lia.
    + intros E. by specialize (Hp0 E).
    + change (@nil Z) with (spell []). rewrite E. cbn [mbind option_bind]. assert (KpT : stays ext (dt s) (dt s')).
      { eapply stays_trans; [eapply stays_shrinks; [exact Sh|apply O'|]|eapply stays_less; [|exact Kp]]; intros a; unfold bump; repeat case_decide; lia. }
      destruct r as [dp|e|]; cbn [arrives] in A; [| |done].
      * destruct A as (pth & y & A1 & A2 & A3 & A4). exists 0, dp, s'. split; [done|]. split; [done|]. split; [done|]. left. split; [done|]. split; [done|]. split; [by exists pth, y|].
        eapply ok_ext; [|exact A4]. intros a. unfold bump. repeat case_decide; lia.
      * destruct A as (A1 & A2 & A3). exists e, 0, s'. split; [done|]. split; [done|]. split; [done|]. right. split; [done|]. split; [done|]. split; [done|].
        eapply ok_ext; [|exact A3]. intros a. unfold bump. repeat case_decide; lia.
Qed.

End Walk.
End Namei.
