(* ===== verification/NameiRamfs.v ===== *)
(** * NameiRamfs: path walking on the RAM file system

    The RAM file system ([Ramfs]) as a file system that [namei] walks: its operations, the names that
    its directories have, and the proof that it keeps what [Namei] relies on. *)
From Stdlib Require Import ZArith Lia Bool.
From stdpp Require Import gmap relations.
From S2P Require Import Prelude Buf Uio Vnode Ramfs RamfsFile RamfsDir Path Dentry Namei.
Open Scope Z_scope.

Module NameiRamfs.
Import Ramfs.
Import RamfsFile.
Import RamfsDir.
Import Namei.

(** The vnodes are those of the cache. *)
Definition with_vnodes (f : ramfs) (vs : Vnode.vtab) : ramfs := set_vt f vs (inode_count f).

#[export] Instance ramfs_ops : DirOps ramfs := {
  vop_lookup addr dvp name f vs := '(rc, vp, f) ← ramfs_lookup addr dvp name (with_vnodes f vs); Some (rc, vp, f, vt f);
  vop_readlink vp u f vs := ramfs_readlink vp u (with_vnodes f vs)
}.

(** The first node of a name in a directory, with its type. *)
Definition ramfs_entry (f : ramfs) (d : Z) (name : list Z) : option (Z * Z) :=
  dn ← nodes f !! d;
  found ← find_name (size (nodes f)) (nodes f) name (rn_child dn);
  np ← found;
  n ← nodes f !! np;
  Some (np, rn_type n).

(** [n] more inode numbers can be given out, and those given out are below the counter. *)
Definition ramfs_ok (n : nat) (f : ramfs) (vs : Vnode.vtab) : Prop :=
  (exists K, inv f K) /\ 1 <= inode_count f /\ inode_count f + Z.of_nat n < 2 ^ 64 - 1 /\
  forall vp v, Vnode.vnodes vs !! vp = Some v -> Vnode.v_ino v < inode_count f.

(** A directory has an entry of a name if one of its files has the name; it is the first one that has. *)
Lemma ramfs_entry_spec f K d name : inv f K -> is_Some (nodes f !! d) ->
  match ramfs_entry f d name with
  | Some (np, ty) => first_named f (K d) name np /\ exists n, nodes f !! np = Some n /\ rn_type n = ty
  | None => Forall (fun y => ~ named (nodes f) name y) (K d)
  end.
Proof.
  intros I [dn Hdn]. unfold ramfs_entry. rewrite Hdn. cbn [mbind option_bind]. pose proof (t_chain _ _ (i_tree _ _ I) d dn Hdn) as Hc.
  destruct (t_nodup _ _ (i_tree _ _ I) d ltac:(by exists dn)) as [ND _].
  destruct (find_name_spec (size (nodes f)) (nodes f) name (rn_child dn) (K d) Hc) as (r & -> & Hr).
  { intros x n. apply (f_node _ _ (i_files _ _ I)). }
  { by apply (sib_length _ (rn_child dn)). }
  destruct r as [np|]; cbn [mbind option_bind]; [|done]. pose proof Hr as (_ & _ & _ & (n & Hn & _) & _). rewrite Hn. cbn [mbind option_bind]. split; [done|by exists n].
Qed.

Lemma ramfs_entry_same f f' : nodes f' = nodes f -> forall d c, ramfs_entry f' d c = ramfs_entry f d c.
Proof. intros E d c. unfold ramfs_entry. by rewrite E. Qed.

(** The first file of a name in a list of files. *)
Fixpoint pick (f : ramfs) (l : list Z) (name : list Z) : option (Z * Z) :=
  match l with
  | [] => None
  | x :: l' => match view f x with Some (ty, c, _) => if bool_decide (c = name) then Some (x, ty) else pick f l' name | None => pick f l' name end
  end.

Lemma view_named f x ty c data name : view f x = Some (ty, c, data) -> named (nodes f) name x <-> c = name.
Proof.
  unfold view, named. destruct (nodes f !! x) as [n|]; [|done]. cbn [mbind option_bind]. intros [= <- <- _]. split; [|intros <-; by exists n]. by intros (n' & [= <-] & ?).
Qed.

Lemma view_type f x ty c data : view f x = Some (ty, c, data) -> exists n, nodes f !! x = Some n /\ rn_type n = ty.
Proof. unfold view. destruct (nodes f !! x) as [n|]; [|done]. cbn [mbind option_bind]. intros [= <- _ _]. by exists n. Qed.

Lemma pick_first f name np : forall l1 l2, Forall (fun y => ~ named (nodes f) name y) l1 -> named (nodes f) name np ->
  exists n, nodes f !! np = Some n /\ pick f (l1 ++ np :: l2) name = Some (np, rn_type n).
Proof.
  intros l1 l2 Hl (n & Hn & En). exists n. split; [done|]. induction Hl as [|x l1 Hx _ IH]; cbn [app pick].
  - unfold view. rewrite Hn. cbn [mbind option_bind]. by rewrite bool_decide_eq_true_2.
  - destruct (view f x) as [[[ty c] data]|] eqn:Ev; [|done]. rewrite bool_decide_eq_false_2; [done|]. by rewrite <- (view_named _ _ _ _ _ name Ev).
Qed.

Lemma pick_none f name l : Forall (fun y => ~ named (nodes f) name y) l -> pick f l name = None.
Proof.
  induction 1 as [|x l Hx _ IH]; cbn [pick]; [done|]. destruct (view f x) as [[[ty c] data]|] eqn:Ev; [|done]. rewrite bool_decide_eq_false_2; [done|]. by rewrite <- (view_named _ _ _ _ _ name Ev).
Qed.

Lemma pick_same f f' name l : (forall x, x ∈ l -> view f' x = view f x) -> pick f' l name = pick f l name.
Proof.
  induction l as [|x l IH]; intros H; [done|]. cbn [pick]. rewrite (H x) by apply list_elem_of_here. rewrite IH by (intros y Hy; apply H; by apply list_elem_of_further). done.
Qed.

Lemma pick_app f name l l' : pick f (l ++ l') name = match pick f l name with Some y => Some y | None => pick f l' name end.
Proof. induction l as [|x l IH]; [done|]. cbn [app pick]. destruct (view f x) as [[[ty c] data]|]; [|done]. by destruct (bool_decide _). Qed.

Lemma ramfs_entry_pick f K d name : inv f K -> is_Some (nodes f !! d) -> ramfs_entry f d name = pick f (K d) name.
Proof.
  intros I Hd. pose proof (ramfs_entry_spec f K d name I Hd) as H. destruct (ramfs_entry f d name) as [[np ty]|]; [|symmetry; by apply pick_none].
  destruct H as [(l1 & l2 & -> & Hn & Hl) (n & Hnp & <-)]. destruct (pick_first f name np l1 l2 Hl Hn) as (n' & Hn' & ->). congruence.
Qed.

Lemma first_unique f l name x y : first_named f l name x -> first_named f l name y -> x = y.
Proof.
  intros (l1 & l2 & E & Hx & Hl) (m1 & m2 & -> & Hy & Hm). revert l1 E Hl. induction m1 as [|z m1 IH]; intros l1 E Hl; destruct l1 as [|w l1]; cbn [app] in E; injection E as E1 E2.
  - done.
  - subst w. by apply Forall_cons in Hl as [? _].
  - subst z. by apply Forall_cons in Hm as [? _].
  - apply Forall_cons in Hl as [_ Hl]. apply Forall_cons in Hm as [_ Hm]. by apply (IH Hm l1).
Qed.

Lemma ramfs_lookup_law n addr dvp v name f vs ext :
  ramfs_ok (S n) f vs -> Vnode.inv vs ext -> (forall p, ext p < Vnode.INT_MAX) -> Vnode.vnodes vs !! dvp = Some v ->
  Vnode.v_type v = VDIR -> is_Some (nodes f !! Vnode.v_data v) -> name <> [] -> Vnode.vnodes vs !! addr = None ->
  exists rc vp f' vs', vop_lookup addr dvp name f vs = Some (rc, vp, f', vs') /\
    ramfs_ok n f' vs' /\ (forall d c, ramfs_entry f' d c = ramfs_entry f d c) /\ (forall d, is_Some (nodes f !! d) -> is_Some (nodes f' !! d)) /\
    Vnode.inv vs' (if vp =? 0 then ext else bump ext vp 1) /\
    (forall x w, x <> vp -> Vnode.vnodes vs !! x = Some w -> Vnode.vnodes vs' !! x = Some w) /\
    match ramfs_entry f (Vnode.v_data v) name with
    | None => rc = ENOENT /\ vp = 0
    | Some (np, ty) =>
        rc = ENOMEM /\ addr = 0 /\ vp = 0 \/
        rc = 0 /\ addr <> 0 /\ vp = addr /\ exists w, Vnode.vnodes vs' !! addr = Some w /\ Vnode.v_data w = np /\ Vnode.v_type w = ty /\
          Vnode.v_mount w = Vnode.v_mount v /\ Vnode.v_names w = []
    end.
Proof.
  intros ((K & I) & Hi0 & Hi & Hino) VI Hext Hv Hty Hd Hne Ha. pose proof (ramfs_entry_spec f K (Vnode.v_data v) name I Hd) as He.
  destruct (fs_lookup_spec (with_vnodes f vs) K ext addr dvp (Vnode.v_data v) name) as (rc & vp & f' & E & I' & En & _ & VI' & Hk & Hn & Hres); try done.
  { by apply inv_vt. }
  { split; [cbn [with_vnodes set_vt inode_count]; lia|done]. }
  { unfold node_of. cbn [with_vnodes set_vt vt]. by rewrite Hv. }
  exists rc, vp, f', (vt f'). cbn [vop_lookup ramfs_ops]. rewrite E. split; [done|]. cbn [with_vnodes set_vt nodes vt inode_count] in *.
  split; [|split; [by apply ramfs_entry_same|split; [by rewrite En|split; [done|split; [done|]]]]].
  - destruct (Hn ltac:(lia)) as [[Hic Hin] Hle]. split; [by exists K|]. split; [lia|]. split; [lia|done].
  - destruct (ramfs_entry f (Vnode.v_data v) name) as [[np ty]|].
    + destruct He as (Hf & m & Hm & <-). destruct Hres as [(_ & _ & Hnone)|(np' & Hf' & Hc)].
      * destruct Hf as (l1 & l2 & El & Hnm & _). rewrite El in Hnone. apply Forall_app in Hnone as [_ Hnone]. by apply Forall_cons in Hnone as [? _].
      * assert (np' = np) as -> by (by apply (first_unique (with_vnodes f vs) (K (Vnode.v_data v)) name)). destruct Hc as [Hc|(-> & Ha0 & -> & w & m' & Vo & Ew & Ewn & Ewm)]; [by left|right].
        do 3 (split; [done|]). exists w. split; [apply Vo|]. split; [done|]. split; [|split; [by apply Ewm|done]].
        rewrite (vo_type _ _ _ _ Vo). pose proof (vo_node _ _ _ _ Vo) as Hm'. rewrite Ew, En, Hm in Hm'. by injection Hm' as ->.
    + destruct Hres as [(-> & -> & _)|(np' & Hf' & _)]; [done|]. destruct Hf' as (l1 & l2 & El & Hnm & _). rewrite El in He. apply Forall_app in He as [_ He].
      by apply Forall_cons in He as [? _].
Qed.

Lemma ramfs_entry_dir n f vs d c np : ramfs_ok n f vs -> ramfs_entry f d c = Some (np, VDIR) -> is_Some (nodes f !! np).
Proof.
  intros _ E. unfold ramfs_entry in E. destruct (nodes f !! d); [|done]. cbn in E. destruct (find_name _ _ _ _) as [[x|]|]; [|done|done]. cbn in E.
  destruct (nodes f !! x) as [y|] eqn:Ex; [|done]. cbn in E. injection E as <- _. by exists y.
Qed.

Lemma ramfs_ok_less n f vs : ramfs_ok (S n) f vs -> ramfs_ok n f vs.
Proof. intros (K & H1 & H2 & H3). split; [done|]. split; [done|]. split; [lia|done]. Qed.

Lemma ramfs_ok_same n f vs vs' : ramfs_ok n f vs -> Dentry.vsame vs vs' -> ramfs_ok n f vs'.
Proof.
  intros (K & H1 & H2 & H3) S. do 3 (split; [done|]). intros vp v Hv. destruct (S vp v Hv) as (w & Hw & Ek). unfold Dentry.vnode_key in Ek. injection Ek as -> _.
  by apply (H3 vp).
Qed.

(** ** A new file *)

Lemma live_child f K d x : inv f K -> is_Some (nodes f !! d) -> x ∈ K d -> is_Some (nodes f !! x).
Proof.
  intros I [dn Hdn] Hx. pose proof (t_chain _ _ (i_tree _ _ I) d dn Hdn) as Hc. eapply sib_live; [exact Hc|exact Hx].
Qed.

(** The new file is found if its name was not there. *)
Lemma made_entry f K d np ty name data f' : inv f K -> is_Some (nodes f !! d) -> made f K d np ty name data f' -> forall d' c, ramfs_entry f' d' c =
  match ramfs_entry f d' c with Some y => Some y | None => if bool_decide (d' = d /\ c = name) then Some (np, ty) else None end.
Proof.
  intros I Hd M d' c. destruct (m_fresh _ _ _ _ _ _ _ _ M) as [Hnp0 Hnp]. pose proof (m_live _ _ _ _ _ _ _ _ M) as Hl. pose proof (m_inv _ _ _ _ _ _ _ _ M) as I'.
  assert (Hdn : d <> np) by (intros ->; rewrite Hnp in Hd; by destruct Hd). destruct (decide (is_Some (nodes f' !! d'))) as [Hd'|Hd'].
  2: { assert (Hf : ramfs_entry f' d' c = None) by (unfold ramfs_entry; destruct (nodes f' !! d'); [destruct Hd'; by eexists|done]). rewrite Hf.
       rewrite Hl in Hd'. unfold ramfs_entry. destruct (nodes f !! d') as [x|] eqn:E; [destruct Hd'; right; by exists x|]. cbn [mbind option_bind].
       rewrite bool_decide_eq_false_2; [done|]. intros [-> _]. rewrite E in Hd. by destruct Hd. }
  rewrite (ramfs_entry_pick f' _ d' c I' Hd'). unfold set_kids at 1. destruct (decide (d' = d)) as [->|Hne].
  - rewrite (ramfs_entry_pick f K d c I Hd), pick_app. rewrite (pick_same f f').
    2: { intros x Hx. apply (m_others _ _ _ _ _ _ _ _ M). intros ->. destruct (live_child f K d np I Hd Hx) as [y Hy]. congruence. }
    destruct (pick f (K d) c); [done|]. cbn [pick]. rewrite (m_view _ _ _ _ _ _ _ _ M). destruct (bool_decide_reflect (name = c)) as [->|Hc].
    + by rewrite bool_decide_eq_true_2.
    + rewrite bool_decide_eq_false_2; [done|]. intros [_ ->]. done.
  - rewrite (bool_decide_eq_false_2 (d' = d /\ c = name)) by tauto. unfold set_kids. destruct (decide (d' = np)) as [->|Hn].
    + unfold ramfs_entry. by rewrite Hnp.
    + assert (Hdf : is_Some (nodes f !! d')) by (rewrite Hl in Hd'; by destruct Hd'). rewrite (ramfs_entry_pick f K d' c I Hdf), (pick_same f f').
      2: { intros x Hx. apply (m_others _ _ _ _ _ _ _ _ M). intros ->. destruct (live_child f K d' np I Hdf Hx) as [y Hy]. congruence. }
      by destruct (pick f (K d') c).
Qed.

#[export] Instance ramfs_dirs : DirFs ramfs := {
  entry := ramfs_entry;
  fs_ok := ramfs_ok;
  is_dir f d := is_Some (nodes f !! d);
  entry_dir := ramfs_entry_dir;
  fs_ok_less := ramfs_ok_less;
  fs_ok_same := ramfs_ok_same;
  lookup_law := ramfs_lookup_law
}.

End NameiRamfs.
