(* ===== verification/Mount.v ===== *)
(** * Mount: mounting and unmounting file systems

    Models [mount], [umount2] and [vfscore_release_mp_dentries] of [lib/vfscore/mount.c], over the
    search of paths ([Namei]), the dentry cache and the vnode table.  A file system adds what its
    [vfs_mount] and [vfs_unmount] do; the RAM file system is the instance.  [None] is a crash: a call
    of [UK_CRASH], a use of memory that is not there, or of a variable without a value. *)
From Stdlib Require Import ZArith Lia Bool.
From stdpp Require Import gmap relations.
From S2P Require Import Prelude Buf Uio Vnode Ramfs RamfsFile RamfsDir RamfsRun Path Dentry Namei NameiRamfs.
Open Scope Z_scope.

Module Mount.
Import Path.
Import Dentry.
Import Namei.

Definition EBUSY : Z := 16.
Definition ENODEV : Z := 19.
Definition EINVAL : Z := 22.
Definition ENAMETOOLONG : Z := 63.
Definition MNT_FORCE : Z := 1.
Definition FSMAXNAMES : nat := 16.
Definition MAXPATHLEN : Z := 4096.
Definition S_IWUSR : Z := 128.

(** A mount point with its address; [m_op] says which file system it is.  A dentry that is NULL is 0. *)
Record mount := MkMount { m_addr : Z; m_path : list Z; m_flags : Z; m_op : Z; m_root : Z; m_covered : Z }.

Record vfs (F : Type) := Vfs { core : sys F; mount_list : list mount }.
Arguments Vfs {F}.
Arguments core {F}.
Arguments mount_list {F}.

(** [vfs_mount] gets the vnode of the root, [vfs_unmount] the mount point. *)
Class VfsOps (F : Type) := {
  vfs_mount : Z -> Z -> F -> Vnode.vtab -> option (Z * F * Vnode.vtab);
  vfs_unmount : mount -> F -> dtab -> option (Z * F * dtab)
}.

Definition places (l : list mount) : list (Z * list Z) := map (fun m => (m_addr m, m_path m)) l.
Definition root_of (l : list mount) (mp : Z) : Z := default 0 (m_root <$> find (fun m => m_addr m =? mp) l).

(** The registered file systems: their names and operations. *)
Definition fs_getfs (fslist : list (list Z * Z)) (name : list Z) : option Z :=
  snd <$> find (fun fs => bool_decide (take FSMAXNAMES name = take FSMAXNAMES fs.1)) fslist.

Definition slash_dev : list Z := [47; 100; 101; 118; 47].

Definition drele_if (dp : Z) (t : dtab) : option dtab := if dp =? 0 then Some t else drele dp t.

Definition vfscore_release_mp_dentries (m : mount) (t : dtab) : option dtab :=
  t ← drele_if (m_covered m) t;
  drele (m_root m) t.

Section Ops.
Context {F : Type} {Ops : DirOps F} {Mops : VfsOps F}.

(** The dentry of the directory to mount on, and the error of [namei]: none is called for a slash. *)
Definition cover (dir : list Z) (v : vfs F) : option (Z * option Z * Z * sys F) :=
  if bool_decide (dir = [slash]) then Some (0, None, 0, core v)
  else
    '(error, dp, s) ← namei (places (mount_list v)) (root_of (mount_list v)) dir (core v);
    if negb (error =? 0) then Some (ENOENT, Some ENOENT, 0, s)
    else
      d ← dentries (dt s) !! dp;
      vn ← Vnode.vnodes (vt (dt s)) !! d_vnode d;
      if negb (Vnode.v_type vn =? VDIR) then t ← drele dp (dt s); Some (ENOTDIR, Some ENOTDIR, 0, set_dt s t)
      else Some (0, Some error, dp, s).

(** The file system's own part, with the dentry and the vnode of the root. *)
Definition mount_call (mp : Z) (op : Z) (path : list Z) (flags : Z) (dp_covered root vp : Z) (s : sys F) : option (Z * option mount * sys F) :=
  '(error, f, vs) ← vfs_mount op vp (fs s) (vt (dt s));
  let s := Sys (set_vt (dt s) vs) f (mem s) in
  if negb (error =? 0) then
    t ← drele root (dt s); t ← drele_if dp_covered t; Some (error, None, set_dt s t)
  else
    vs ← (if negb (Z.land flags Vnode.MNT_RDONLY =? 0) then
            y ← Vnode.vnodes vs !! vp;
            Some (Vnode.set_vnode vs vp (Ramfs.set_data y (Vnode.v_type y) (Z.land (Vnode.v_mode y) (Z.lnot S_IWUSR)) (Vnode.v_size y) (Vnode.v_data y)))
          else Some vs);
    Some (0, Some (MkMount mp path flags op root dp_covered), set_dt s (set_vt (dt s) vs)).

(** The root of the new file system; [error] is what was returned last. *)
Definition new_root (mp : Z) (op : Z) (path : list Z) (flags : Z) (error : option Z) (dp_covered : Z) (s : sys F)
    : option (Z * option mount * sys F) :=
  let '(va, da, dup) := next_mem s in
  '(_, vp, vs) ← Vnode.vfscore_vget va 0 mp 0 (vt (dt s));
  let s := Sys (set_vt (dt s) vs) (fs s) (tail (mem s)) in
  if vp =? 0 then t ← drele_if dp_covered (dt s); Some (ENOMEM, None, set_dt s t)
  else
    x ← Vnode.vnodes vs !! vp;
    let x := Ramfs.set_data x VDIR (Z.lor Ramfs.S_IFDIR 448) (Vnode.v_size x) (Vnode.v_data x) in
    '(root, t) ← dentry_alloc da dup 0 vp [slash] (set_vt (dt s) (Vnode.set_vnode vs vp x));
    vs ← Vnode.vput vp (vt t);
    let t := set_vt t vs in
    if root =? 0 then error ← error; t ← drele_if dp_covered t; Some (error, None, set_dt s t)
    else
      mount_call mp op path flags dp_covered root vp (set_dt s t).

(** [mp] is the memory for the mount point, 0 when there is none. *)
Definition mount_fs (fslist : list (list Z * Z)) (mp : Z) (dev dir : option (list Z)) (fsname : list Z) (flags : Z) (v : vfs F)
    : option (Z * vfs F) :=
  match dir with
  | None | Some [] => Some (ENOENT, v)
  | Some dir =>
      match fs_getfs fslist fsname with
      | None => Some (ENODEV, v)
      | Some op =>
          if (match dev with Some dev => bool_decide (take 5 dev = slash_dev) | None => false end) then None
          else if existsb (fun m => bool_decide (m_path m = dir)) (mount_list v) then Some (EBUSY, v)
          else if mp =? 0 then Some (ENOMEM, v)
          else
            _ ← dev;
            '(e, error, dp_covered, s) ← cover dir v;
            if negb (e =? 0) then Some (e, Vfs s (mount_list v))
            else
              '(e, m, s) ← new_root mp op (clip dir) flags error dp_covered s;
              Some (e, Vfs s (mount_list v ++ match m with Some m => [m] | None => [] end))
      end
  end.

Definition umount2 (path : list Z) (flags : Z) (v : vfs F) : option (Z * vfs F) :=
  if MAXPATHLEN <=? zlen path then Some (ENAMETOOLONG, v)
  else
    match find (fun m => bool_decide (path = m_path m)) (mount_list v) with
    | None => Some (EINVAL, v)
    | Some m =>
        if (m_covered m =? 0) && (Z.land flags MNT_FORCE =? 0) then Some (EINVAL, v)
        else
          '(error, f, t) ← vfs_unmount m (fs (core v)) (dt (core v));
          let s := Sys t f (mem (core v)) in
          if negb (error =? 0) then Some (error, Vfs s (mount_list v))
          else Some (0, Vfs s (filter (fun x => m_addr x <> m_addr m) (mount_list v)))
    end.

Definition umount (path : list Z) (v : vfs F) : option (Z * vfs F) := umount2 path 0 v.

End Ops.

(** ** The RAM file system *)

Definition ramfs_unmount (m : mount) (f : Ramfs.ramfs) (t : dtab) : option (Z * Ramfs.ramfs * dtab) :=
  t ← vfscore_release_mp_dentries m t;
  Some (0, f, t).

#[export] Instance ramfs_vfsops : VfsOps Ramfs.ramfs := {
  vfs_mount _ vp f vs := '(rc, f) ← Ramfs.ramfs_mount vp (NameiRamfs.with_vnodes f vs); Some (rc, f, Ramfs.vt f);
  vfs_unmount := ramfs_unmount
}.

(** ** What mounting relies on

    A file system relies on nothing of a vnode but its number; a mount makes the node of a root, or
    changes nothing but the state of the file system. *)
Class VfsFs (F : Type) {Ops : DirOps F} {Mops : VfsOps F} {Fs : DirFs F} := {
  fs_ok_inodes n f vs vs' : fs_ok n f vs ->
    (forall q w, Vnode.vnodes vs' !! q = Some w -> Vnode.v_ino w = 0 \/ exists x, Vnode.vnodes vs !! q = Some x /\ Vnode.v_ino w = Vnode.v_ino x) -> fs_ok n f vs';
  mount_law n op vp v f vs : fs_ok n f vs -> Vnode.vnodes vs !! vp = Some v ->
    exists rc f' vs', vfs_mount op vp f vs = Some (rc, f', vs') /\ fs_ok n f' vs' /\
      (forall d c, entry f' d c = entry f d c) /\ (forall d, is_dir f d -> is_dir f' d) /\
      (rc <> 0 /\ vs' = vs \/
       rc = 0 /\ exists r, is_dir f' r /\
         vs' = Vnode.set_vnode vs vp (Ramfs.set_data v (Vnode.v_type v) (Vnode.v_mode v) (Vnode.v_size v) r));
  unmount_law m f t : vfs_unmount m f t = (t ← vfscore_release_mp_dentries m t; Some (0, f, t))
}.

Section Laws.
Context {F : Type} {Ops : DirOps F} {Mops : VfsOps F} {Fs : DirFs F} {Vf : VfsFs F}.
Implicit Types (s : sys F).

Definition less (ext : Z -> Z) (dp : Z) : Z -> Z := if dp =? 0 then ext else bump ext dp (-1).

Lemma less_held ext dp q : 0 < less ext dp q -> 0 < ext q.
Proof. unfold less. destruct (dp =? 0); [done|apply bump_held]. Qed.

Lemma ok_drele_if roots n k ext vext s dp : ok roots n k ext vext s -> dp = 0 \/ 0 < ext dp ->
  exists t, drele_if dp (dt s) = Some t /\ ok roots n k (less ext dp) vext (set_dt s t) /\ kept (less ext dp) (dt s) t.
Proof.
  intros O Hd. unfold drele_if, less. destruct (Z.eqb_spec dp 0) as [->|Hne].
  - exists (dt s). destruct s. done.
  - destruct Hd as [?|Hd]; [done|]. destruct (ok_drele _ _ _ _ _ _ dp O Hd) as (t & -> & O' & Sh). exists t. split; [done|]. split; [done|].
    eapply kept_shrinks; [exact Sh|apply O'|done].
Qed.

(** The vnode of the root. *)
Lemma root_vnode roots n k ext vext s va da dup mp : ok roots n k ext vext s -> 1 <= k -> next_mem s = (va, da, dup) ->
  (forall q w, Vnode.vnodes (vt (dt s)) !! q = Some w -> Vnode.v_mount w <> mp) ->
  exists vs', Vnode.vfscore_vget va 0 mp 0 (vt (dt s)) = Some (0, va, vs') /\
    (va = 0 \/ va <> 0 /\ Vnode.vnodes vs' = <[va := Vnode.MkVnode 0 mp 1 0 0 0 0 []]> (Vnode.vnodes (vt (dt s)))) /\
    ok roots n (k - 1) ext (if va =? 0 then vext else bump vext va 1) (Sys (set_vt (dt s) vs') (fs s) (tail (mem s))) /\
    dentries (dt s) !! da = None /\ (forall x, x ∈ tail (mem s) -> x.1.2 <> da \/ da = 0).
Proof.
  intros O Hk Em Hmp. pose proof O as [O1 O2 O3 O4 O5 O6]. destruct (slack_room k _ _ _ ltac:(lia) O5 O1) as [_ Hcnt]. pose proof O1 as [T R V].
  destruct (fresh_head va da dup s Em O6 ext vext O1) as [Hva Hda].
  destruct (Vnode.vget_spec (vt (dt s)) _ va 0 mp 0 (v_counts _ _ _ V) Hva) as (ret & vp & vs' & E & G & I'); [intros p; specialize (Hcnt p); cbn beta; lia|].
  destruct G as [(p & w & (x & Hx & Hm & _) & _)|(_ & -> & G)]; [by destruct (Hmp p x Hx)|].
  assert (G' : vp = va /\ (va = 0 /\ vs' = vt (dt s) \/ va <> 0 /\ Vnode.vnodes vs' = <[va := Vnode.MkVnode 0 mp 1 0 0 0 0 []]> (Vnode.vnodes (vt (dt s))))).
  { destruct G as [([->|] & -> & ->)|(? & _ & -> & ?)]; [|done|]; (split; [done|]); [by left|by right]. }
  destruct G' as [-> G']. exists vs'. split; [exact E|]. split; [destruct G' as [[? _]|?]; [by left|by right]|].
  destruct (ok_vnode roots n n k ext vext s va da dup (fs s) vs' va O Hk Em) as (H1 & H2 & H3 & _); [|done|done|exact I'| | |done].
  - eapply fs_ok_inodes; [exact O3|]. intros q w Hw. destruct G' as [[_ ->]|[_ Ev]]; [right; by exists w|]. rewrite Ev, lookup_insert_Some in Hw.
    destruct Hw as [[_ <-]|[_ Hw]]; [by left|right; by exists w].
  - intros x w Hx Hw. destruct G' as [[_ ->]|[_ ->]]; [done|]. by rewrite lookup_insert_ne.
  - destruct G' as [[-> _]|[Hne Ev]]; [by left|right]. split; [done|]. split; [done|]. eexists. split; [by rewrite Ev, lookup_insert_eq|done].
Qed.

(** A mount point with its root becomes known. *)
Lemma ok_root roots n k ext vext s mp r dp vp v : ok roots n k ext vext s -> roots !! mp = None ->
  cores (dt s) !! dp = Some ([slash], mp, vp) -> (forall q c, cores (dt s) !! q = Some c -> c.1.2 = mp -> q = dp) ->
  Vnode.vnodes (vt (dt s)) !! vp = Some v -> Vnode.v_mount v = mp -> Vnode.v_type v = VDIR -> Vnode.v_data v = r -> is_dir (fs s) r ->
  ok (<[mp := r]> roots) n k ext vext s.
Proof.
  intros [O1 O2 O3 O4 O5 O6] Hno Hc Hall Hv Em Et Ed Hd. split; try done.
  - intros q c r' Hq Hf Hr. destruct (decide (c.1.2 = mp)) as [Emp|Hne].
    + rewrite Emp, lookup_insert_eq in Hr. injection Hr as <-. assert (q = dp) as -> by (by apply (Hall q c)). rewrite Hc in Hq. injection Hq as <-.
      exists [], v. cbn [fst snd follow]. split; [done|]. split; [constructor|]. split; [done|]. split; [done|]. by rewrite Et, Ed.
    + rewrite lookup_insert_ne in Hr by done. by apply (O2 q c r').
  - intros m r' Hr. rewrite lookup_insert_Some in Hr. destruct Hr as [[_ <-]|[_ Hr]]; [done|by apply (O4 m)].
Qed.

Lemma kept_vt e st st' : dentries st' = dentries st -> fake st' = fake st -> kept e st st'.
Proof. intros E1 E2 p c _ Hc. unfold cores in *. by rewrite E1, E2. Qed.

(** The file system's own part: the root is given back with an error, or becomes known. *)
Lemma mount_call_spec roots n k ext vext s mp op path flags dp_covered root vp v :
  ok roots n k (bump ext root 1) vext s -> 0 <= ext root -> roots !! mp = None ->
  cores (dt s) !! root = Some ([slash], mp, vp) -> root ∉ fake (dt s) -> (forall q c, cores (dt s) !! q = Some c -> c.1.2 = mp -> q = root) ->
  Vnode.vnodes (vt (dt s)) !! vp = Some v -> Vnode.v_mount v = mp -> Vnode.v_type v = VDIR -> dp_covered = 0 \/ 0 < ext dp_covered ->
  exists e m s', mount_call mp op path flags dp_covered root vp s = Some (e, m, s') /\ (forall d c, entry (fs s') d c = entry (fs s) d c) /\
    match m with
    | None => ok roots n k (less ext dp_covered) vext s' /\ kept (less ext dp_covered) (dt s) (dt s') /\ e <> 0
    | Some m => e = 0 /\ m = MkMount mp path flags op root dp_covered /\ kept (bump ext root 1) (dt s) (dt s') /\ cached (dt s') mp [slash] root /\
        exists r, ok (<[mp := r]> roots) n k (bump ext root 1) vext s'
    end.
Proof.
  intros O He Hno Hc Hnf Hall Hv Evm Evt Hcov. unfold mount_call.
  destruct (mount_law n op vp v (fs s) (vt (dt s)) (o_fs _ _ _ _ _ _ O) Hv) as (rc & f' & vs' & -> & Hok & Hent & Hdir & Hres). cbn [mbind option_bind].
  destruct Hres as [[Hrc ->]|(-> & r & Hr & ->)].
  - destruct (Z.eqb_spec rc 0); [done|]. cbn [negb]. set (s1 := Sys (set_vt (dt s) (vt (dt s))) f' (mem s)).
    assert (O1 : ok roots n k (bump ext root 1) vext s1).
    { destruct O as [A1 A2 A3 A4 A5 A6]. split; try done; [by destruct (dt s)|by apply (coherent_same roots (fs s))|intros m r Hr; by apply Hdir, (A4 m)]. }
    destruct (ok_drele _ _ _ _ _ _ root O1) as (t1 & -> & O2 & Sh); [rewrite bump_eq; lia|]. cbn [mbind option_bind].
    assert (O3 : ok roots n k ext vext (set_dt s1 t1)) by (eapply ok_ext; [|exact O2]; intros q; unfold bump; repeat case_decide; lia).
    destruct (ok_drele_if _ _ _ _ _ _ dp_covered O3 Hcov) as (t2 & E2 & O4 & Kp). cbn [set_dt dt] in E2. rewrite E2. cbn [mbind option_bind].
    exists rc, None, (set_dt s1 t2). split; [done|]. split; [done|]. split; [exact O4|]. split; [|done].
    eapply kept_trans; [|exact Kp]. eapply kept_less; [apply less_held|]. eapply kept_shrinks; [exact Sh|apply O3|done].
  - change (0 =? 0) with true. cbn [negb]. set (v1 := Ramfs.set_data v _ _ _ r) in *.
    assert (O1 : ok roots n k (bump ext root 1) vext (Sys (set_vt (dt s) (Vnode.set_vnode (vt (dt s)) vp v1)) f' (mem s))).
    { eapply (ok_vnode_set roots n n k _ _ s vp v v1 f' O Hv); try done. by rewrite Evm. }
    set (vs1 := Vnode.set_vnode (vt (dt s)) vp v1) in *. assert (Hv1 : Vnode.vnodes vs1 !! vp = Some v1) by (cbn; by rewrite lookup_insert_eq).
    assert (Hfin : exists vs2 v2, (if negb (Z.land flags Vnode.MNT_RDONLY =? 0) then
        y ← Vnode.vnodes vs1 !! vp;
        Some (Vnode.set_vnode vs1 vp (Ramfs.set_data y (Vnode.v_type y) (Z.land (Vnode.v_mode y) (Z.lnot S_IWUSR)) (Vnode.v_size y) (Vnode.v_data y)))
      else Some vs1) = Some vs2 /\ Vnode.vnodes vs2 !! vp = Some v2 /\ Vnode.v_mount v2 = mp /\ Vnode.v_type v2 = VDIR /\ Vnode.v_data v2 = r /\
      ok roots n k (bump ext root 1) vext (Sys (set_vt (dt s) vs2) f' (mem s))).
    { destruct (negb _); [|by exists vs1, v1]. rewrite Hv1. cbn [mbind option_bind]. eexists _, _. split; [done|]. split; [cbn; by rewrite lookup_insert_eq|].
      do 3 (split; [done|]). eapply (ok_vnode_set roots n n k _ _ _ vp v1 _ f' O1 Hv1); try done; [cbn; by rewrite Evm|].
      eapply fs_ok_inodes; [exact Hok|]. intros q w Hw. cbn [Vnode.set_vnode Vnode.vnodes] in Hw. fold vs1 in Hw.
      rewrite lookup_insert_Some in Hw. right. destruct Hw as [[<- <-]|[_ Hw]]; [by exists v1|by exists w]. }
    destruct Hfin as (vs2 & v2 & -> & Hv2 & E1 & E2 & E3 & O2). cbn [mbind option_bind].
    eexists 0, (Some _), _. split; [done|]. split; [done|]. split; [done|]. split; [done|]. split; [by apply kept_vt|].
    split.
    { unfold cached. cbn [set_dt dt set_vt dentries fake]. unfold cores in Hc. rewrite lookup_fmap in Hc. destruct (dentries (dt s) !! root) as [d|]; [|done].
      injection Hc as C1 C2 C3. by exists d. }
    exists r. eapply ok_root; [exact O2|done|exact Hc|exact Hall|exact Hv2|done|done|done|done].
Qed.

Lemma alloc_failed da dup parent vp path st t : dentry_alloc da dup parent vp path st = Some (0, t) -> da = 0 \/ dup = false.
Proof.
  unfold dentry_alloc. destruct (Vnode.vnodes (vt st) !! vp); [|done]. cbn [mbind option_bind]. destruct (Z.eqb_spec da 0); [by left|]. destruct dup; [|by right]. cbn [negb].
  destruct (Vnode.vref _ _); [|done]. cbn [mbind option_bind]. destruct (if parent =? 0 then _ else _); [|done]. cbn [mbind option_bind].
  destruct (vn_add_name _ _ _); [|done]. cbn [mbind option_bind]. destruct (hlist_add_head _ _ _); [|done]. cbn [mbind option_bind]. intros E. injection E as E _. done.
Qed.

(** The root of the new file system: none, and everything is given back, or a held dentry. *)
Lemma mount_root_spec roots n k ext vext s mp op path flags error dp_covered va da dup :
  ok roots n (k + 4) ext vext s -> 0 <= k -> roots !! mp = None ->
  (forall q w, Vnode.vnodes (vt (dt s)) !! q = Some w -> Vnode.v_mount w <> mp) ->
  (forall q c, cores (dt s) !! q = Some c -> c.1.2 <> mp) -> dp_covered = 0 \/ 0 < ext dp_covered ->
  next_mem s = (va, da, dup) -> is_Some error \/ da <> 0 /\ dup = true ->
  exists e m s', new_root mp op path flags error dp_covered s = Some (e, m, s') /\ (forall d c, entry (fs s') d c = entry (fs s) d c) /\
    match m with
    | None => ok roots n k (less ext dp_covered) vext s' /\ kept (less ext dp_covered) (dt s) (dt s') /\
        (e <> 0 \/ error = Some e /\ va <> 0 /\ (da = 0 \/ dup = false))
    | Some m => e = 0 /\ m = MkMount mp path flags op da dp_covered /\ da <> 0 /\ kept ext (dt s) (dt s') /\ cached (dt s') mp [slash] da /\
        exists r, ok (<[mp := r]> roots) n k (bump ext da 1) vext s'
    end.
Proof.
  intros O Hk Hno Hfv Hfc Hcov Em Herr. unfold new_root. rewrite Em.
  destruct (root_vnode roots n (k + 4) ext vext s va da dup mp O ltac:(lia) Em Hfv) as (vs' & -> & Hvs & O1 & Hda & Hmem). cbn [mbind option_bind].
  set (s1 := Sys (set_vt (dt s) vs') (fs s) (tail (mem s))) in *. destruct (Z.eqb_spec va 0) as [E0|Hva].
  { destruct (ok_drele_if _ _ _ _ _ s1 dp_covered O1 Hcov) as (t & -> & O2 & Kp). cbn [mbind option_bind]. exists ENOMEM, None, (set_dt s1 t). split; [done|]. split; [done|].
    split; [eapply ok_slack; [exact O2|lia]|]. split; [exact Kp|by left]. }
  destruct Hvs as [?|[_ Ev]]; [done|]. rewrite Ev, lookup_insert_eq. cbn [mbind option_bind].
  set (x := Ramfs.set_data _ _ _ _ _). set (w0 := Vnode.MkVnode 0 mp 1 0 0 0 0 []) in *.
  assert (Hw0 : Vnode.vnodes (vt (dt s1)) !! va = Some w0) by (cbn; by rewrite Ev, lookup_insert_eq).
  set (s2 := Sys (set_vt (dt s1) (Vnode.set_vnode vs' va x)) (fs s) (mem s1)).
  assert (O2 : ok roots n (k + 4 - 1) ext (bump vext va 1) s2).
  { eapply (ok_vnode_set roots n n _ _ _ s1 va w0 x (fs s) O1 Hw0); try done. eapply fs_ok_inodes; [apply O1|]. intros q w Hw. cbn in Hw.
    rewrite lookup_insert_Some in Hw. destruct Hw as [[_ <-]|[_ Hw]]; [by left|right; by exists w]. }
  assert (Hx : Vnode.vnodes (vt (dt s2)) !! va = Some x) by (cbn; by rewrite lookup_insert_eq).
  destruct (ok_enter roots mp n (k + 4 - 1) ext (bump vext va 1) s2 0 va x da dup [] O2 ltac:(lia) Hx eq_refl Hda (or_introl eq_refl)) as (dp & t & Ea & Hcase & Kp'); try done.
  { intros p (d & Hd & _ & Ed & _). apply (Hfc p (core_of d)); [by apply lookup_cores|done]. }
  { intros r Hr. congruence. }
  assert (Kp : forall e, kept e (dt s2) t) by (intros e; apply Kp'). change (set_vt (dt s1) (Vnode.set_vnode vs' va x)) with (dt s2). change [slash] with (canonical []) in Ea |- *. rewrite Ea. cbn [mbind option_bind].
  pose proof (v_ext _ _ _ (d_vnodes _ _ _ (o_dinv _ _ _ _ _ _ O)) va) as Hvx. assert (Kp0 : forall e, kept e (dt s) (dt s2)) by (intros e; by apply kept_vt).
  destruct Hcase as [[-> ->]|(-> & Hda0 & O3 & Hfile & Ec & Ef)].
  - destruct (ok_vput _ _ _ _ vext s2 va O2 Hvx) as (vs2 & -> & O3 & Sh2). cbn [mbind option_bind]. change (0 =? 0) with true. cbn iota. destruct Herr as [[e ->]|[Hda1 ->]].
    2: { by destruct (alloc_failed _ _ _ _ _ _ _ Ea). }
    cbn [mbind option_bind]. destruct (ok_drele_if _ _ _ _ _ _ dp_covered O3 Hcov) as (t2 & E2 & O4 & Kp2). cbn [set_dt dt] in E2. rewrite E2. cbn [mbind option_bind].
    exists e, None, (set_dt s1 t2). split; [done|]. split; [done|]. split; [eapply ok_slack; [exact O4|lia]|]. split.
    { eapply kept_trans; [apply Kp0|]. eapply kept_trans; [|exact Kp2]. by apply kept_vt. }
    right. split; [done|]. split; [done|]. by apply (alloc_failed _ _ _ _ _ _ _ Ea).
  - destruct (ok_vput _ _ _ _ vext (set_dt s2 t) va O3 Hvx) as (vs2 & E2 & O4 & Sh2). cbn [set_dt dt] in E2. rewrite E2. cbn [mbind option_bind].
    destruct (Z.eqb_spec da 0); [done|].
    set (s3 := set_dt (set_dt s2 t) (set_vt t vs2)) in *. change (set_dt s1 (set_vt t vs2)) with s3. cbn [canonical] in Ec. change (cores (dt s2)) with (cores (dt s)) in Ec.
    assert (Hcd : cores (dt s3) !! da = Some ([slash], mp, va)) by (change (cores (dt s3)) with (cores t); by rewrite Ec, lookup_insert_eq).
    destruct (vnode_alive _ _ _ da _ (d_vnodes _ _ _ (o_dinv _ _ _ _ _ _ O4)) Hcd) as (v3 & Hv3 & _). cbn [snd] in Hv3.
    destruct Hfile as (d & y & Hd & _ & _ & Hy & Ey1 & Ey2). injection Ey2 as _ Ey2. pose proof (lookup_cores t da d Hd) as Hcd'. rewrite Ec, lookup_insert_eq in Hcd'. injection Hcd' as _ _ Edv.
    rewrite <- Edv in Hy. destruct Sh2 as (_ & _ & Sv). destruct (Sv va v3 Hv3) as (y' & Hy' & Ky). cbn [set_dt dt] in Hy'. rewrite Hy in Hy'. injection Hy' as <-.
    unfold vnode_key in Ky. injection Ky as _ K2 K3 _.
    destruct (mount_call_spec roots n k ext vext s3 mp op path flags dp_covered da va v3) as (e & m & s' & E & Hent & Hres); try done; try congruence.
    + eapply ok_slack; [exact O4|lia].
    + eapply ext_pos, O.
    + change (fake (dt s3)) with (fake t). rewrite Ef. change (fake (dt s2)) with (fake (dt s)). intros Hf.
      destruct (t_fake _ _ _ (d_table _ _ _ (o_dinv _ _ _ _ _ _ O)) da Hf) as [c Hc]. unfold cores in Hc. by rewrite lookup_fmap, Hda in Hc.
    + intros q c Hq Em'. change (cores (dt s3)) with (cores t) in Hq. rewrite Ec, lookup_insert_Some in Hq. destruct Hq as [[? _]|[_ Hq]]; [done|]. by destruct (Hfc q c Hq).
    + exists e, m, s'. split; [exact E|]. split; [exact Hent|]. assert (KpT : forall g, kept g (dt s) (dt s3)).
      { intros g. eapply kept_trans; [apply Kp0|]. eapply kept_trans; [apply Kp|]. by apply kept_vt. }
      destruct m as [m|].
      * destruct Hres as (-> & -> & Kp3 & Hca & Hr). do 3 (split; [done|]). split; [|done]. eapply kept_trans; [apply KpT|]. eapply kept_less; [|exact Kp3].
        intros q. unfold bump. case_decide; lia.
      * destruct Hres as (H1 & H2 & H3). split; [done|]. split; [|by left]. eapply kept_trans; [apply KpT|exact H2].
Qed.


(** ** The whole system

    The references to dentries that the mount points hold: to their roots and to what they cover. *)
Definition pin (m : mount) (p : Z) : Z := (if m_root m =? p then 1 else 0) + (if (m_covered m =? p) && negb (p =? 0) then 1 else 0).
Definition pins (l : list mount) (p : Z) : Z := foldr (fun m n => pin m p + n) 0 l.
Definition held (l : list mount) (ext : Z -> Z) (p : Z) : Z := ext p + pins l p.

Definition in_place (roots : gmap Z Z) (st : dtab) (m : mount) : Prop :=
  m_addr m <> 0 /\ m_root m <> 0 /\ is_Some (roots !! m_addr m) /\ cached st (m_addr m) [slash] (m_root m).

(** [ext] and [vext] count the references that the users of the system hold. *)
Record vfs_ok (roots : gmap Z Z) (n : nat) (k : Z) (ext vext : Z -> Z) (v : vfs F) : Prop := VfsOk {
  w_ok : ok roots n k (held (mount_list v) ext) vext (core v);
  w_mounts : Forall (in_place roots (dt (core v))) (mount_list v);
  w_addrs : NoDup (map m_addr (mount_list v));
  w_paths : NoDup (map m_path (mount_list v));
  w_ext : forall p, 0 <= ext p
}.

(** A path that ends in the mount point [m] with the rest [p], and no link on the way. *)
Definition leads (roots : gmap Z Z) (v : vfs F) (path : list Z) (m : mount) (r : Z) (p : list Z) : Prop :=
  m ∈ mount_list v /\ vfs_findroot path (places (mount_list v)) = Some (m_addr m, p) /\ roots !! m_addr m = Some r /\
  (names p = [] -> p = []) /\ no_link r (fs (core v)) (names p).

Lemma pin_pos m p : 0 <= pin m p.
Proof. unfold pin. destruct (_ =? _), (_ && _); lia. Qed.

Lemma pins_pos l p : 0 <= pins l p.
Proof. unfold pins. induction l as [|m l IH]; cbn [foldr]; [lia|]. pose proof (pin_pos m p). lia. Qed.

Lemma pins_app l l' p : pins (l ++ l') p = pins l p + pins l' p.
Proof. unfold pins. induction l as [|m l IH]; cbn [foldr app]; lia. Qed.

Lemma pins_in l m p : m ∈ l -> pin m p <= pins l p.
Proof.
  intros Hm. apply list_elem_of_split in Hm as (l1 & l2 & ->). rewrite pins_app. unfold pins at 2. cbn [foldr]. fold (pins l2 p).
  pose proof (pins_pos l1 p). pose proof (pins_pos l2 p). lia.
Qed.

Lemma root_of_in l m : NoDup (map m_addr l) -> m ∈ l -> root_of l (m_addr m) = m_root m.
Proof.
  unfold root_of. induction l as [|x l IH]; intros ND Hm; [by apply elem_of_nil in Hm|]. cbn [map] in ND. apply NoDup_cons in ND as [Hx ND]. cbn [find].
  apply elem_of_cons in Hm as [->|Hm]; [by rewrite Z.eqb_refl|]. destruct (Z.eqb_spec (m_addr x) (m_addr m)) as [E|]; [|by apply IH].
  destruct Hx. rewrite E. apply list_elem_of_fmap. by exists m.
Qed.

Lemma held_root l ext m : (forall p, 0 <= ext p) -> m ∈ l -> 0 < held l ext (m_root m).
Proof. intros He Hm. unfold held. specialize (He (m_root m)). pose proof (pins_in l m (m_root m) Hm) as H. unfold pin in H. rewrite Z.eqb_refl in H. destruct (_ && _); lia. Qed.

Lemma cached_cores st mp path p : cached st mp path p <-> exists v, cores st !! p = Some (path, mp, v) /\ p ∉ fake st.
Proof.
  unfold cached, cores. split.
  - intros (d & Hd & Hf & <- & <-). exists (d_vnode d). by rewrite lookup_fmap, Hd.
  - intros (v & Hc & Hf). rewrite lookup_fmap in Hc. destruct (dentries st !! p) as [d|]; [|done]. injection Hc as H1 H2 H3. by exists d.
Qed.

Lemma in_place_kept roots ext st st' l : (forall m, m ∈ l -> 0 < ext (m_root m)) -> kept ext st st' -> Forall (in_place roots st) l -> Forall (in_place roots st') l.
Proof.
  intros He K H. rewrite Forall_forall in H |- *. intros m Hm. destruct (H m Hm) as (H1 & H2 & H3 & Hc). do 3 (split; [done|]). rewrite cached_cores in *.
  destruct Hc as (v & Hc & Hf). destruct (K _ _ (He m Hm) Hc) as [Hc' E]. exists v. split; [done|]. by rewrite E.
Qed.

(** A search in the whole system. *)
Lemma vfs_namei roots n k ext vext v path m r p :
  vfs_ok roots (length (names p) + n) (4 * zlen (names p) + 1 + k) ext vext v -> 0 <= k -> zlen path < PATH_MAX -> leads roots v path m r p ->
  exists e dp s', namei (places (mount_list v)) (root_of (mount_list v)) path (core v) = Some (e, dp, s') /\
    (forall d c, entry (fs s') d c = entry (fs (core v)) d c) /\ stays (m_addr m) (held (mount_list v) ext) (dt (core v)) (dt s') /\
    (e = 0 /\ dp <> 0 /\ (exists pth y, meaning (fs (core v)) (r, VDIR) p = inr y /\ file_of (m_addr m) (dt s') dp pth y) /\
       vfs_ok roots n k (bump ext dp 1) vext (Vfs s' (mount_list v)) \/
     e <> 0 /\ dp = 0 /\ (e = ENOMEM \/ meaning (fs (core v)) (r, VDIR) p = inl e) /\ vfs_ok roots n k ext vext (Vfs s' (mount_list v))).
Proof.
  intros [O M A P E] Hk Hl (Hm & Hfr & Hr & Hp0 & Hnl). rewrite Forall_forall in M. pose proof (M m Hm) as (_ & Hr0 & _ & Hca).
  pose proof (root_of_in _ _ A Hm) as Ero. pose proof Hca as (d & Hd & Hf & Emp & Ep).
  destruct (coherent_path roots (m_addr m) r Hr (fs (core v)) (dt (core v)) (m_root m) [slash] d (o_coh _ _ _ _ _ _ O) Hd Hf Emp Ep) as (ns & w & E1 & E2 & E3 & E4 & E5).
  change [slash] with (canonical []) in E1. apply canonical_inj in E1; [|constructor|done]. subst ns. cbn [follow] in E5. injection E5 as E5 E6.
  destruct (namei_spec roots (m_addr m) r Hr (places (mount_list v)) (root_of (mount_list v)) path p (core v) n k (held (mount_list v) ext) vext O Hk Hfr Hl Hp0)
    as (e & dp & s' & En & Hent & Kp & Hres); try (by rewrite Ero); [|done|].
  { rewrite Ero. exists d, w. do 5 (split; [done|]). by rewrite <- E5, <- E6. }
  exists e, dp, s'. split; [exact En|]. split; [exact Hent|]. split; [exact Kp|].
  assert (M' : Forall (in_place roots (dt s')) (mount_list v)).
  { eapply in_place_kept; [|apply Kp|by apply Forall_forall]. intros x Hx. by apply held_root. }
  destruct Hres as [(-> & Hdp & Hy & O')|(He & -> & Hor & O')]; [left|right].
  - do 3 (split; [done|]). split; try done; cbn [mount_list core].
    + eapply ok_ext; [|exact O']. intros q. unfold held, bump. case_decide; lia.
    + intros q. unfold bump. specialize (E q). case_decide; lia.
  - do 3 (split; [done|]). by split.
Qed.

Definition taken (ext : Z -> Z) (dp : Z) : Z -> Z := if dp =? 0 then ext else bump ext dp 1.

(** The directory to mount on is held, or there is an error. *)
Lemma cover_spec roots n k ext vext v dir m r p mp :
  vfs_ok roots (length (names p) + n) (4 * zlen (names p) + 1 + k) ext vext v -> 0 <= k -> zlen dir < PATH_MAX ->
  dir = [slash] \/ leads roots v dir m r p /\ mp <> m_addr m -> fresh_mount mp (dt (core v)) ->
  exists e error dp s', cover dir v = Some (e, error, dp, s') /\ (forall d c, entry (fs s') d c = entry (fs (core v)) d c) /\ fresh_mount mp (dt s') /\
    kept (held (mount_list v) ext) (dt (core v)) (dt s') /\
    (e <> 0 /\ vfs_ok roots n k ext vext (Vfs s' (mount_list v)) \/
     e = 0 /\ (dir = [slash] /\ error = None /\ s' = core v \/ dir <> [slash] /\ error = Some 0) /\ vfs_ok roots n k (taken ext dp) vext (Vfs s' (mount_list v))).
Proof.
  intros V Hk Hl Hp Hfm. unfold cover. destruct (bool_decide_reflect (dir = [slash])) as [Hd|Hd].
  { exists 0, None, 0, (core v). split; [done|]. split; [done|]. split; [done|]. split; [done|]. right. split; [done|]. split; [by left|].
    destruct V as [O M A P E]. destruct v as [s l]. split; try done. eapply ok_mono; [exact O|lia|lia]. }
  destruct Hp as [?|[Hp Hne]]; [done|]. destruct (vfs_namei roots n k ext vext v dir m r p V Hk Hl Hp) as (e & dp & s' & -> & Hent & [Kp Fm] & Hres). cbn [mbind option_bind].
  specialize (Fm mp Hne Hfm). destruct Hres as [(-> & Hdp & (pth & y & Hy & Hfile) & V')|(He & -> & _ & V')].
  2: { destruct (Z.eqb_spec e 0); [done|]. cbn [negb]. eexists _, _, _, s'. split; [done|]. split; [done|]. split; [done|]. split; [done|]. by left. }
  change (0 =? 0) with true. cbn [negb]. pose proof Hfile as (d & w & Hd' & _ & _ & Hw & _ & _). rewrite Hd'. cbn [mbind option_bind]. rewrite Hw. cbn [mbind option_bind].
  destruct (Z.eqb_spec (Vnode.v_type w) VDIR) as [Ht|Ht]; cbn [negb].
  { eexists _, _, dp, s'. split; [done|]. split; [done|]. split; [done|]. split; [done|]. right. split; [done|]. split; [by right|]. unfold taken. by destruct (Z.eqb_spec dp 0). }
  destruct V' as [O M A P E]. cbn [core mount_list] in *. destruct (ok_drele _ _ _ _ _ _ dp O) as (t & -> & O' & Sh).
  { unfold held. rewrite bump_eq. destruct V as [_ _ _ _ E0]. specialize (E0 dp). pose proof (pins_pos (mount_list v) dp). lia. }
  cbn [mbind option_bind]. eexists _, _, _, (set_dt s' t). split; [done|]. split; [done|]. split; [by eapply fresh_shrinks|].
  assert (O2 : ok roots n k (held (mount_list v) ext) vext (set_dt s' t)) by (eapply ok_ext; [|exact O']; intros q; unfold held, bump; repeat case_decide; lia).
  assert (K2 : kept (held (mount_list v) ext) (dt s') t) by (by eapply kept_shrinks; [exact Sh|apply O2|]).
  split; [by eapply kept_trans|]. left. split; [done|]. destruct V as [_ _ _ _ E0]. split; try done; cbn [core mount_list set_dt dt].
  eapply in_place_kept; [|exact K2|done]. intros x Hx. by apply held_root.
Qed.

(** ** Where a mount point is found *)

Lemma match_len_spec path : forall r len p' r' len', match_len path r len = (p', r', len') ->
  exists w, path = w ++ p' /\ r = w ++ r' /\ len' = len + zlen w.
Proof.
  induction path as [|c path IH]; intros r len p' r' len' E; cbn [match_len] in E.
  { injection E as <- <- <-. exists []. cbn. split; [done|]. split; [done|lia]. }
  destruct r as [|d r]; [injection E as <- <- <-; exists []; cbn; split; [done|split; [done|lia]]|].
  destruct (Z.eqb_spec c d) as [->|]; [|injection E as <- <- <-; exists []; cbn; split; [done|split; [done|lia]]].
  destruct (IH r (len + 1) p' r' len' E) as (w & -> & -> & ->). exists (d :: w). cbn. split; [done|]. split; [done|lia].
Qed.

Lemma match_len_self path : forall len, match_len path path len = ([], [], len + zlen path).
Proof. induction path as [|c path IH]; intros len; cbn [match_len length]; [f_equal; lia|]. rewrite Z.eqb_refl, IH. f_equal. lia. Qed.

(** A mount point whose path is the whole path matches best, and no other matches as well. *)
Lemma count_match_bound path r : path <> [] -> count_match path r <= zlen path /\ (count_match path r = zlen path -> r = path).
Proof.
  intros Hne. unfold count_match. destruct (match_len path r 0) as [[p' r'] len'] eqn:E. destruct (match_len_spec _ _ _ _ _ _ E) as (w & Ep & Er & ->).
  assert (1 <= zlen path) by (destruct path; [done|cbn [length]; lia]). assert (zlen path = zlen w + zlen p') by (rewrite Ep, length_app; lia).
  destruct r' as [|c r']; [|split; lia]. rewrite app_nil_r in Er. subst r.
  assert (Hlen : zlen w = zlen path -> w = path) by (intros Hw; destruct p'; [by rewrite app_nil_r in Ep|cbn [length] in *; lia]).
  destruct (Z.eqb_spec (0 + zlen w) 1) as [E1|E1]; cbn [andb].
  - destruct (bool_decide _); [split; [lia|intros; apply Hlen; lia]|]. destruct p' as [|c p']; [split; [lia|intros; apply Hlen; lia]|]. destruct (c =? slash); (split; [lia|intros; apply Hlen; lia]).
  - destruct p' as [|c p']; [split; [lia|intros; apply Hlen; lia]|]. destruct (c =? slash); (split; [lia|intros; apply Hlen; lia]).
Qed.

Lemma count_match_self path : count_match path path = zlen path.
Proof. unfold count_match. rewrite match_len_self. destruct (Z.eqb_spec (0 + zlen path) 1) as [E|]; cbn [andb]; [destruct (bool_decide _); lia|lia]. Qed.

Lemma nodup_map_inj {A B} (f : A -> B) l x y : NoDup (map f l) -> x ∈ l -> y ∈ l -> f x = f y -> x = y.
Proof.
  induction l as [|a l IH]; intros ND Hx Hy E; [by apply elem_of_nil in Hx|]. cbn [map] in ND. apply NoDup_cons in ND as [Ha ND].
  apply elem_of_cons in Hx as [->|Hx]; apply elem_of_cons in Hy as [->|Hy]; [done| | |by apply IH]; destruct Ha; [rewrite E|rewrite <- E]; apply list_elem_of_fmap; eauto.
Qed.

Lemma findroot_self path l m : path <> [] -> NoDup (map m_path l) -> m ∈ l -> m_path m = path -> vfs_findroot path (places l) = Some (m_addr m, []).
Proof.
  intros Hne ND Hm <-. unfold vfs_findroot. pose proof (best_mount_spec (m_path m) (places l) 0 None ltac:(lia)) as B. destruct (best_mount (m_path m) (places l) 0 None) as [max o].
  destruct B as (_ & Hmax & B). assert (Hin : (m_addr m, m_path m) ∈ places l) by (apply list_elem_of_fmap; by exists m).
  specialize (Hmax _ Hin). cbn [snd] in Hmax. rewrite count_match_self in Hmax. assert (1 <= zlen (m_path m)) by (destruct (m_path m); [done|cbn [length]; lia]).
  destruct B as [[-> _]|(x & Hx & -> & -> & _)]; [lia|]. cbn [mbind option_bind]. destruct (count_match_bound (m_path m) x.2 Hne) as [Hle Heq].
  specialize (Heq ltac:(lia)). apply list_elem_of_fmap in Hx as (m' & -> & Hm'). cbn [fst snd] in *.
  assert (m' = m) as -> by (by apply (nodup_map_inj m_path l)). rewrite drop_ge; [done|lia].
Qed.

(** The path of a mount point leads to its root. *)
Lemma namei_mounted roots n k ext vext v m : vfs_ok roots n k ext vext v -> 0 <= k -> m ∈ mount_list v -> m_path m <> [] -> zlen (m_path m) < PATH_MAX ->
  exists s', namei (places (mount_list v)) (root_of (mount_list v)) (m_path m) (core v) = Some (0, m_root m, s').
Proof.
  intros [O M A P E] Hk Hm Hne Hl. unfold namei. rewrite clip_fits by done. cbn [MAXSYMLINKS namei_loop]. rewrite (findroot_self (m_path m) _ m Hne P Hm eq_refl).
  rewrite Forall_forall in M. destruct (M m Hm) as (_ & Hr0 & _ & Hca). destruct (slack_room k _ _ _ Hk (o_slack _ _ _ _ _ _ O) (o_dinv _ _ _ _ _ _ O)) as [Hroom _].
  change (clip [slash]) with [slash].
  destruct (dentry_lookup_spec (dt (core v)) _ vext (m_addr m) [slash] (o_dinv _ _ _ _ _ _ O) Hroom ltac:(done)) as [(p & d & Hc & Hd & -> & _)|[Hnc _]]; [|by destruct (Hnc (m_root m))].
  cbn [mbind option_bind]. assert (p = m_root m) as -> by (by apply (cached_unique (dt (core v)) (held (mount_list v) ext) vext (m_addr m) [slash]); [apply O|..]).
  destruct (Z.eqb_spec (m_root m) 0); [done|]. cbn [negb]. by eexists.
Qed.

Lemma vfs_mount_root roots n k ext vext v mp op dir flags error dp va da dup :
  vfs_ok roots n (k + 4) (taken ext dp) vext v -> 0 <= k -> (forall q, 0 <= ext q) -> roots !! mp = None -> mp <> 0 -> fresh_mount mp (dt (core v)) ->
  dir ∉ map m_path (mount_list v) -> next_mem (core v) = (va, da, dup) -> is_Some error \/ da <> 0 /\ dup = true ->
  exists e m s', new_root mp op dir flags error dp (core v) = Some (e, m, s') /\ (forall d c, entry (fs s') d c = entry (fs (core v)) d c) /\
    match m with
    | None => vfs_ok roots n k ext vext (Vfs s' (mount_list v)) /\ (e <> 0 \/ error = Some e)
    | Some m => e = 0 /\ m_addr m = mp /\ m_path m = dir /\ m_flags m = flags /\ exists r, vfs_ok (<[mp := r]> roots) n k ext vext (Vfs s' (mount_list v ++ [m]))
    end.
Proof.
  intros [O M A P E] Hk He Hno Hmp [F1 F2] Hdir Em Herr. assert (Hcov : dp = 0 \/ 0 < held (mount_list v) (taken ext dp) dp).
  { destruct (decide (dp = 0)); [by left|right]. unfold held, taken. destruct (Z.eqb_spec dp 0); [done|]. rewrite bump_eq. specialize (He dp). pose proof (pins_pos (mount_list v) dp). lia. }
  destruct (mount_root_spec roots n k _ vext (core v) mp op dir flags error dp va da dup O Hk Hno F1 F2 Hcov Em Herr) as (e & m & s' & Er & Hent & Hres).
  exists e, m, s'. split; [exact Er|]. split; [exact Hent|]. destruct m as [m|].
  - destruct Hres as (-> & -> & Hda & Kp & Hca & r & O'). do 4 (split; [done|]). exists r. split; cbn [core mount_list].
    + eapply ok_ext; [|exact O']. intros q. unfold held, taken. rewrite pins_app. unfold pins at 2. cbn [foldr]. unfold pin. cbn [m_root m_covered].
      destruct (Z.eqb_spec dp 0) as [->|Hdp]; unfold bump; destruct (decide (q = da)) as [->|]; try (destruct (decide (da = dp))); try (destruct (decide (q = dp)));
        repeat match goal with |- context [?a =? ?b] => destruct (Z.eqb_spec a b) end; cbn [andb negb]; try lia; congruence.
    + apply Forall_app. split.
      * eapply Forall_impl; [eapply in_place_kept; [|exact Kp|exact M]; intros x Hx; by apply held_root|]. intros x (H1 & H2 & H3 & H4). do 2 (split; [done|]). split; [|done].
        destruct (decide (m_addr x = mp)) as [->|]; [by rewrite lookup_insert_eq; eexists|by rewrite lookup_insert_ne].
      * apply Forall_singleton. cbn. split; [done|]. split; [done|]. split; [|done]. cbn [m_addr]. rewrite lookup_insert_eq. by eexists.
    + rewrite map_app. cbn [map m_addr]. apply NoDup_app. split; [done|]. split; [|apply NoDup_singleton]. intros x Hx ->%list_elem_of_singleton.
      apply list_elem_of_fmap in Hx as (m & Ex & Hm). rewrite Forall_forall in M. destruct (M m Hm) as (_ & _ & [y Hy] & _). congruence.
    + rewrite map_app. cbn [map m_path]. apply NoDup_app. split; [done|]. split; [|apply NoDup_singleton]. by intros x Hx ->%list_elem_of_singleton.
    + done.
  - destruct Hres as (O' & Kp & Hor). assert (Heq : forall q, held (mount_list v) ext q = less (held (mount_list v) (taken ext dp)) dp q).
    { intros q. unfold held, taken, less. destruct (dp =? 0); [done|]. unfold bump. case_decide; lia. }
    split; [|destruct Hor as [?|[? _]]; [by left|by right]]. split; cbn [core mount_list]; try done.
    + eapply ok_ext; [|exact O']. exact Heq.
    + eapply in_place_kept; [|exact Kp|exact M]. intros x Hx. rewrite <- Heq. by apply held_root.
Qed.

Lemma mount_spec roots n k ext vext v fslist mp dev dir fsname op flags m r p va da :
  vfs_ok roots (length (names p) + n) (4 * zlen (names p) + 1 + (k + 4)) ext vext v -> 0 <= k ->
  fs_getfs fslist fsname = Some op -> take 5 dev <> slash_dev -> dir <> [] -> zlen dir < PATH_MAX -> dir ∉ map m_path (mount_list v) ->
  mp <> 0 -> roots !! mp = None -> fresh_mount mp (dt (core v)) ->
  dir = [slash] /\ next_mem (core v) = (va, da, true) /\ da <> 0 \/ dir <> [slash] /\ leads roots v dir m r p ->
  exists e v', mount_fs fslist mp (Some dev) (Some dir) fsname flags v = Some (e, v') /\
    (forall d c, entry (fs (core v')) d c = entry (fs (core v)) d c) /\
    (mount_list v' = mount_list v /\ (e = 0 -> dir <> [slash]) /\ vfs_ok roots n k ext vext v' \/
     e = 0 /\ exists m' r', mount_list v' = mount_list v ++ [m'] /\ m_addr m' = mp /\ m_path m' = dir /\ m_flags m' = flags /\
       vfs_ok (<[mp := r']> roots) n k ext vext v' /\
       exists s', namei (places (mount_list v')) (root_of (mount_list v')) dir (core v') = Some (0, m_root m', s')).
Proof.
  intros V Hk Hfs Hdev Hne Hl Hnew Hmp Hno Hfm Hp. unfold mount_fs. destruct dir as [|c0 dir0] eqn:Edir; [done|]. rewrite <- Edir in *. rewrite Hfs.
  rewrite bool_decide_eq_false_2 by done. assert (Hex : existsb (fun m => bool_decide (m_path m = dir)) (mount_list v) = false).
  { apply not_true_iff_false. intros H. apply existsb_exists in H as (x & Hx & Ex). apply bool_decide_eq_true in Ex. destruct Hnew. apply list_elem_of_fmap.
    exists x. split; [done|]. by apply list_elem_of_In. }
  rewrite Hex. destruct (Z.eqb_spec mp 0); [done|]. cbn [mbind option_bind].
  destruct (cover_spec roots n (k + 4) ext vext v dir m r p mp V ltac:(lia) Hl) as (e & error & dp & s' & -> & Hent & Hfm' & _ & Hres); [|done|].
  { destruct Hp as [[? _]|[_ Hp]]; [by left|right]. split; [done|]. destruct Hp as (_ & _ & Hr & _). congruence. }
  cbn [mbind option_bind]. destruct Hres as [[He V']|(-> & Hcase & V')].
  { destruct (Z.eqb_spec e 0); [done|]. cbn [negb]. eexists _, _. split; [done|]. split; [done|]. left. split; [done|]. split; [done|].
    destruct V' as [O M A P E]. split; try done. eapply ok_slack; [exact O|lia]. }
  change (0 =? 0) with true. cbn [negb]. rewrite clip_fits by done. destruct (next_mem s') as [[va' da'] dup'] eqn:Em.
  destruct (vfs_mount_root roots n k ext vext (Vfs s' (mount_list v)) mp op dir flags error dp va' da' dup' V' Hk (w_ext _ _ _ _ _ _ V) Hno Hmp Hfm' Hnew Em)
    as (e & mo & s2 & E2 & Hent2 & Hres).
  { destruct Hcase as [(Hs & _ & ->)|(_ & ->)]; [|by left]. destruct Hp as [(_ & Hn & Hda)|[? _]]; [|done]. right. rewrite Hn in Em. by injection Em as <- <- <-. }
  cbn [core] in E2. rewrite E2. cbn [mbind option_bind]. eexists _, _. split; [done|]. split; [intros d c; cbn [core]; by rewrite Hent2|]. destruct mo as [m'|].
  - destruct Hres as (-> & H1 & H2 & H3 & r' & V2). right. split; [done|]. exists m', r'. do 5 (split; [done|]). rewrite <- H2.
    eapply (namei_mounted _ n k ext vext _ m' V2 Hk); cbn [mount_list].
    + apply elem_of_app. right. by apply list_elem_of_singleton.
    + by rewrite H2.
    + by rewrite H2.
  - destruct Hres as (V2 & Hor). left. cbn [mount_list]. rewrite app_nil_r. split; [done|]. split; [|done]. intros ->. destruct Hor as [?|Her]; [done|].
    destruct Hcase as [(_ & -> & _)|(? & _)]; done.
Qed.

(** ** Unmounting *)

Lemma find_path l m : NoDup (map m_path l) -> m ∈ l -> find (fun x => bool_decide (m_path m = m_path x)) l = Some m.
Proof.
  induction l as [|x l IH]; intros ND Hm; [by apply elem_of_nil in Hm|]. cbn [find]. destruct (bool_decide_reflect (m_path m = m_path x)) as [E|E].
  - f_equal. apply (nodup_map_inj m_path (x :: l)); [done|apply list_elem_of_here|done|done].
  - apply elem_of_cons in Hm as [->|Hm]; [done|]. cbn [map] in ND. apply NoDup_cons in ND as [_ ND]. by apply IH.
Qed.

Lemma filter_all {A} (P : A -> Prop) `{forall x, Decision (P x)} l : Forall P l -> filter P l = l.
Proof. induction 1 as [|x l Hx _ IH]; [done|]. rewrite filter_cons, decide_True by done. by rewrite IH. Qed.

Lemma pins_filter l m p : NoDup (map m_addr l) -> m ∈ l -> pins l p = pin m p + pins (filter (fun x => m_addr x <> m_addr m) l) p.
Proof.
  induction l as [|x l IH]; intros ND Hm; [by apply elem_of_nil in Hm|]. cbn [map] in ND. apply NoDup_cons in ND as [Hx ND]. rewrite filter_cons. unfold pins at 1. cbn [foldr]. fold (pins l p).
  apply elem_of_cons in Hm as [->|Hm].
  - rewrite decide_False by (intros H; by apply H). rewrite filter_all; [done|]. apply Forall_forall. intros y Hy E. destruct Hx. rewrite <- E. apply list_elem_of_fmap. by exists y.
  - assert (m_addr x <> m_addr m) by (intros E; destruct Hx; rewrite E; apply list_elem_of_fmap; by exists m). rewrite decide_True by done.
    unfold pins at 2. cbn [foldr]. fold (pins (filter (fun x => m_addr x <> m_addr m) l) p). rewrite IH by done. lia.
Qed.

Lemma nodup_filter {A B} (f : A -> B) (P : A -> Prop) `{forall x, Decision (P x)} l : NoDup (map f l) -> NoDup (map f (filter P l)).
Proof.
  induction l as [|x l IH]; intros ND; [done|]. cbn [map] in ND. apply NoDup_cons in ND as [Hx ND]. rewrite filter_cons. destruct (decide (P x)); [|by apply IH]. cbn [map].
  apply NoDup_cons. split; [|by apply IH]. intros Hin. apply Hx. apply list_elem_of_fmap in Hin as (y & E & Hy). apply list_elem_of_filter in Hy as [_ Hy]. apply list_elem_of_fmap. by exists y.
Qed.

(** Unmounting gives back what mounting took. *)
Lemma umount_spec roots n k ext vext v m flags :
  vfs_ok roots n k ext vext v -> m ∈ mount_list v -> zlen (m_path m) < MAXPATHLEN -> m_covered m <> 0 \/ Z.land flags MNT_FORCE <> 0 ->
  exists s', umount2 (m_path m) flags v = Some (0, Vfs s' (filter (fun x => m_addr x <> m_addr m) (mount_list v))) /\ fs s' = fs (core v) /\
    vfs_ok (delete (m_addr m) roots) n k ext vext (Vfs s' (filter (fun x => m_addr x <> m_addr m) (mount_list v))).
Proof.
  intros [O M A P E] Hm Hl Hfl. unfold umount2. destruct (Z.leb_spec MAXPATHLEN (zlen (m_path m))) as [|_]; [lia|]. rewrite (find_path _ m P Hm).
  assert (Hg : (m_covered m =? 0) && (Z.land flags MNT_FORCE =? 0) = false) by (destruct (Z.eqb_spec (m_covered m) 0), (Z.eqb_spec (Z.land flags MNT_FORCE) 0); cbn; tauto).
  rewrite Hg, unmount_law. unfold vfscore_release_mp_dentries. set (l' := filter _ (mount_list v)). pose proof (fun p => pins_filter (mount_list v) m p A Hm) as Hpin. fold l' in Hpin.
  assert (Hcov : m_covered m = 0 \/ 0 < held (mount_list v) ext (m_covered m)).
  { destruct (decide (m_covered m = 0)) as [|Hc]; [by left|right]. unfold held. rewrite Hpin. specialize (E (m_covered m)). pose proof (pins_pos l' (m_covered m)). unfold pin.
    rewrite Z.eqb_refl. destruct (Z.eqb_spec (m_covered m) 0); [done|]. cbn [negb andb]. destruct (m_root m =? m_covered m); lia. }
  destruct (ok_drele_if _ _ _ _ _ _ (m_covered m) O Hcov) as (t1 & E1 & O1 & K1). rewrite E1. cbn [mbind option_bind].
  assert (Hheld : forall q, held l' ext q = bump (less (held (mount_list v) ext) (m_covered m)) (m_root m) (-1) q).
  { intros q. unfold less. specialize (Hpin q). unfold pin in Hpin. destruct (Z.eqb_spec (m_covered m) 0) as [Ec|Ec]; unfold bump, held; rewrite Hpin.
    - rewrite Ec. repeat case_decide; subst; repeat match goal with |- context [?a =? ?b] => destruct (Z.eqb_spec a b) end; subst; cbn [andb negb]; try lia; congruence.
    - repeat case_decide; subst; repeat match goal with |- context [?a =? ?b] => destruct (Z.eqb_spec a b) end; subst; cbn [andb negb]; try lia; congruence. }
  destruct (ok_drele _ _ _ _ _ (set_dt (core v) t1) (m_root m) O1) as (t2 & E2 & O2 & Sh2).
  { specialize (Hheld (m_root m)). rewrite bump_eq in Hheld. unfold held in Hheld at 1. specialize (E (m_root m)). pose proof (pins_pos l' (m_root m)). lia. }
  cbn [set_dt dt] in E2. rewrite E2. cbn [mbind option_bind]. change (0 =? 0) with true. cbn [negb]. eexists. split; [done|]. split; [done|].
  assert (O3 : ok roots n k (held l' ext) vext (set_dt (set_dt (core v) t1) t2)) by (eapply ok_ext; [|exact O2]; exact Hheld). split; cbn [core mount_list].
  - destruct O3 as [B1 B2 B3 B4 B5 B6]. split; try done.
    + intros q c r Hq Hf Hr. apply lookup_delete_Some in Hr as [_ Hr]. by apply (B2 q c r).
    + intros x r Hr. apply lookup_delete_Some in Hr as [_ Hr]. by apply (B4 x).
  - assert (M' : Forall (in_place roots t2) l').
    { eapply (in_place_kept roots (held l' ext) (dt (core v))).
      - intros x Hx. by apply held_root.
      - eapply kept_trans; [eapply kept_less; [|exact K1]|eapply kept_shrinks; [exact Sh2|apply O3|done]]. intros q Hq. rewrite Hheld in Hq. revert Hq. unfold bump. case_decide; lia.
      - apply Forall_forall. intros x Hx. apply list_elem_of_filter in Hx as [_ Hx]. by apply (proj1 (Forall_forall _ _) M). }
    apply Forall_forall. intros x Hx. pose proof (proj1 (Forall_forall _ _) M' x Hx) as (H1 & H2 & H3 & H4). apply list_elem_of_filter in Hx as [Hne Hx].
    do 2 (split; [done|]). split; [|done]. rewrite lookup_delete_ne; [done|congruence].
  - by apply nodup_filter.
  - by apply nodup_filter.
  - done.
Qed.

End Laws.

(** ** The RAM file system can be mounted *)

Lemma ramfs_inodes n f vs vs' : NameiRamfs.ramfs_ok n f vs ->
  (forall q w, Vnode.vnodes vs' !! q = Some w -> Vnode.v_ino w = 0 \/ exists x, Vnode.vnodes vs !! q = Some x /\ Vnode.v_ino w = Vnode.v_ino x) -> NameiRamfs.ramfs_ok n f vs'.
Proof.
  intros (I & H1 & H2 & H3) H. do 3 (split; [done|]). intros q w Hw. destruct (H q w Hw) as [->|(x & Hx & ->)]; [lia|by apply (H3 q)].
Qed.

(** A new node without a parent changes no directory. *)
Lemma entry_new_node f f' np m ty K : Ramfs.inv f K -> Ramfs.inv f' (Ramfs.set_kids K np []) -> Ramfs.nodes f !! np = None ->
  Ramfs.nodes f' = <[np := Ramfs.new_node ty [47] m]> (Ramfs.nodes f) -> Ramfs.blocks f' = Ramfs.blocks f -> (forall d, is_Some (Ramfs.nodes f !! d) -> np ∉ K d) ->
  forall d c, NameiRamfs.ramfs_entry f' d c = NameiRamfs.ramfs_entry f d c.
Proof.
  intros I I' Hnp En Eb Hout d c. destruct (decide (d = np)) as [->|Hd].
  - unfold NameiRamfs.ramfs_entry at 2. rewrite Hnp. cbn [mbind option_bind].
    pose proof (NameiRamfs.ramfs_entry_spec f' _ np c I') as H. destruct (NameiRamfs.ramfs_entry f' np c) as [[x ty']|]; [|done].
    destruct H as [(l1 & l2 & E & _) _]; [rewrite En, lookup_insert_eq; by eexists|]. rewrite Ramfs.kids_eq in E. by destruct l1.
  - destruct (Ramfs.nodes f !! d) as [dn|] eqn:Ed.
    2: { unfold NameiRamfs.ramfs_entry. by rewrite En, lookup_insert_ne, Ed. }
    rewrite (NameiRamfs.ramfs_entry_pick f' _ d c I'), (NameiRamfs.ramfs_entry_pick f K d c I); [|by exists dn|rewrite En, lookup_insert_ne by done; by exists dn].
    unfold Ramfs.set_kids. rewrite decide_False by done. apply NameiRamfs.pick_same. intros x Hx. unfold Ramfs.view. rewrite En, Eb, lookup_insert_ne; [done|].
    intros <-. by destruct (Hout d ltac:(by exists dn)).
Qed.

Lemma ramfs_mount_law n op vp v f vs : NameiRamfs.ramfs_ok n f vs -> Vnode.vnodes vs !! vp = Some v ->
  exists rc f' vs', vfs_mount op vp f vs = Some (rc, f', vs') /\ NameiRamfs.ramfs_ok n f' vs' /\
    (forall d c, NameiRamfs.ramfs_entry f' d c = NameiRamfs.ramfs_entry f d c) /\ (forall d, is_Some (Ramfs.nodes f !! d) -> is_Some (Ramfs.nodes f' !! d)) /\
    (rc <> 0 /\ vs' = vs \/
     rc = 0 /\ exists r, is_Some (Ramfs.nodes f' !! r) /\
       vs' = Vnode.set_vnode vs vp (Ramfs.set_data v (Vnode.v_type v) (Vnode.v_mode v) (Vnode.v_size v) r)).
Proof.
  intros ((K & I) & H1 & H2 & H3) Hv. cbn [vfs_mount ramfs_vfsops]. unfold Ramfs.ramfs_mount.
  destruct (Ramfs.allocate_spec (NameiRamfs.with_vnodes f vs) K [47] Ramfs.VDIR) as (np & m & f1 & -> & Eb & Evt & Ei & Hres); [by apply RamfsDir.inv_vt|done| |].
  { intros H0. by apply list_elem_of_singleton in H0. }
  cbn [NameiRamfs.with_vnodes Ramfs.set_vt Ramfs.nodes Ramfs.blocks Ramfs.vt Ramfs.inode_count] in *. destruct Hres as [(-> & En & I1)|(Hnp & Hno & En & I1 & Hout)].
  - change (0 =? 0) with true. cbn [mbind option_bind]. exists Ramfs.ENOMEM, f1, vs. rewrite Evt. split; [done|]. split; [|split; [|split; [by rewrite En|by left]]].
    + split; [by exists K|]. rewrite Ei. done.
    + intros d c. unfold NameiRamfs.ramfs_entry. by rewrite En.
  - destruct (Z.eqb_spec np 0); [done|]. rewrite Evt, Hv. cbn [mbind option_bind]. eexists 0, _, _. split; [done|]. cbn [Ramfs.set_vt Ramfs.vt Ramfs.nodes]. split; [|split; [|split]].
    + split; [eexists; by apply RamfsDir.inv_vt|]. cbn [Ramfs.set_vt Ramfs.inode_count]. rewrite Ei. do 2 (split; [done|]). intros q w Hw. cbn [Vnode.set_vnode Vnode.vnodes] in Hw.
      rewrite lookup_insert_Some in Hw. destruct Hw as [[<- <-]|[_ Hw]]; [exact (H3 vp v Hv)|exact (H3 q w Hw)].
    + by apply (entry_new_node f _ np m Ramfs.VDIR K I (RamfsDir.inv_vt _ _ _ _ I1)).
    + intros d Hd. rewrite En. destruct (decide (d = np)) as [->|]; [rewrite lookup_insert_eq; by eexists|by rewrite lookup_insert_ne].
    + right. split; [done|]. exists np. split; [rewrite En, lookup_insert_eq; by eexists|done].
Qed.

#[export] Instance ramfs_vfs : @VfsFs Ramfs.ramfs NameiRamfs.ramfs_ops ramfs_vfsops NameiRamfs.ramfs_dirs := {
  fs_ok_inodes := ramfs_inodes;
  mount_law := ramfs_mount_law;
  unmount_law m f t := eq_refl
}.

End Mount.
