(* ===== verification/Syscalls.v ===== *)
(** * Syscalls: files by their paths

    Models the system calls of [lib/vfscore/syscalls.c] that work on paths: opening and creating,
    making and removing directories and files, renaming, linking, and [namei_last_nofollow] of
    [lookup.c], on a system of mounted RAM file systems ([Mount], [Ramfs]).  The locks of the vnodes are
    recursive and there is one thread: they are left out.  A call returns its error code and the
    system; [None] is a use of memory that is not there or of a variable without a value. *)
From Stdlib Require Import ZArith Lia Bool.
From stdpp Require Import gmap relations.
From S2P Require Import Prelude Buf Uio Vnode Ramfs RamfsFile RamfsDir RamfsRun Path Dentry Namei NameiRamfs Mount.
Open Scope Z_scope.

Module Syscalls.
Import Path.
Import Dentry.
Import Namei.
Import NameiRamfs.
Import Mount.

Definition EPERM : Z := 1.
Definition EEXIST : Z := 17.
Definition EXDEV : Z := 18.
Definition ENOTEMPTY : Z := 66.
Definition O_CREAT : Z := 64.
Definition O_EXCL : Z := 128.
Definition O_TRUNC : Z := 512.
Definition O_DIRECTORY : Z := 65536.
Definition O_NOFOLLOW : Z := 131072.
Definition O_ACCMODE : Z := 2097155.
Definition UK_FWRITE : Z := 2.
Definition S_IFIFO : Z := 4096.
Definition S_IFSOCK : Z := 49152.
Definition R_OK : Z := 4.
Definition W_OK : Z := 2.
Definition X_OK : Z := 1.

Abbreviation system := (vfs Ramfs.ramfs).

Definition flag (x mask : Z) : bool := negb (Z.land x mask =? 0).
Definition clear (x mask : Z) : Z := Z.land x (Z.lnot mask).

(** An open file: [struct vfscore_file]. *)
Record file := MkFile { f_flags : Z; f_dentry : Z }.

Definition with_core (v : system) (s : sys Ramfs.ramfs) : system := Vfs s (mount_list v).
Definition v_namei (path : list Z) (v : system) : option (Z * Z * system) :=
  '(e, dp, s) ← namei (places (mount_list v)) (root_of (mount_list v)) path (core v); Some (e, dp, with_core v s).
Definition v_lookup (path : list Z) (v : system) : option (Z * Z * list Z * system) :=
  '(e, dp, name, s) ← lookup (places (mount_list v)) (root_of (mount_list v)) path (core v); Some (e, dp, name, with_core v s).
Definition v_drele (dp : Z) (v : system) : option system :=
  t ← drele dp (dt (core v)); Some (with_core v (set_dt (core v) t)).

(** The vnode of a dentry, with its address. *)
Definition vnode_at (dp : Z) (v : system) : option (Z * Vnode.vnode) :=
  d ← dentries (dt (core v)) !! dp; vn ← Vnode.vnodes (vt (dt (core v))) !! d_vnode d; Some (d_vnode d, vn).

(** A call of the file system. *)
Definition vop {A} (op : Ramfs.ramfs -> option (A * Ramfs.ramfs)) (v : system) : option (A * system) :=
  let s := core v in
  '(r, f) ← op (with_vnodes (fs s) (vt (dt s)));
  Some (r, with_core v (Sys (set_vt (dt s) (Ramfs.vt f)) f (mem s))).

Definition mount_flags (mp : Z) (l : list mount) : Z := default 0 (m_flags <$> find (fun m => m_addr m =? mp) l).
Definition access (vn : Vnode.vnode) (flags : Z) (v : system) : Z :=
  Vnode.vn_access (mount_flags (Vnode.v_mount vn) (mount_list v)) flags vn.

(** [VROOT] is set for the roots of mount points, which are the vnodes of number 0. *)
Definition vroot (vn : Vnode.vnode) : bool := Vnode.v_ino vn =? 0.

(** A slash at the end is left out, except of the root. *)
Definition drop_slash (node : list Z) : list Z :=
  if (1 <? zlen node) && bool_decide (last node = Some slash) then removelast node else node.

(** The last name of the path, in the directory of [ddp], without following a link. *)
Definition namei_last_nofollow (path : list Z) (ddp : Z) (v : system) : option (Z * Z * system) :=
  if negb (bool_decide (head path = Some slash)) then Some (ENOTDIR, 0, v)
  else
    match split_last path with
    | None => Some (ENOENT, 0, v)
    | Some (_, name) =>
        match vfs_findroot path (places (mount_list v)) with
        | None => Some (ENOTDIR, 0, v)
        | Some (mp, p) =>
            let node := drop_slash (clip (slash :: p)) in
            let s := core v in
            dd ← dentries (dt s) !! ddp;
            '(dp, t) ← dentry_lookup mp node (dt s);
            if negb (dp =? 0) then Some (0, dp, with_core v (set_dt s t))
            else
              let '(va, da, dup) := next_mem s in
              '(error, vp, f, vs) ← vop_lookup va (d_vnode dd) name (fs s) (vt t);
              let s := Sys (set_vt t vs) f (tail (mem s)) in
              if negb (error =? 0) then Some (error, 0, with_core v s)
              else
                '(dp, t) ← dentry_alloc da dup ddp vp node (dt s);
                vs ← Vnode.vput vp (vt t);
                Some (if dp =? 0 then ENOMEM else 0, dp, with_core v (set_dt s (set_vt t vs)))
        end
    end.

(** ** Opening *)

Definition vfscore_fflags (oflags : Z) : Z := Z.lor (Z.land oflags O_ACCMODE + 1) (clear oflags O_ACCMODE).

Definition open_no_follow_chk (path : list Z) (v : system) : option (Z * system) :=
  '(error, ddp, name, v) ← v_lookup path v;
  if negb (error =? 0) then Some (error, v)
  else
    '(error, dp, v) ← namei_last_nofollow path ddp v;
    if negb (error =? 0) then v ← v_drele ddp v; Some (error, v)
    else
      '(_, vn) ← vnode_at dp v;
      v ← v_drele dp v;
      v ← v_drele ddp v;
      Some (if Vnode.v_type vn =? VLNK then ELOOP else 0, v).

(** A new file of the name in the directory of a path. *)
Definition make_entry (op : Z -> list Z -> Ramfs.ramfs -> option (Z * Ramfs.ramfs)) (path : list Z) (v : system) : option (Z * system) :=
  '(error, ddp, name, v) ← v_lookup path v;
  if negb (error =? 0) then Some (error, v)
  else
    '(dvp, dvn) ← vnode_at ddp v;
    '(error, v) ← (let error := access dvn Vnode.VWRITE v in
                   if negb (error =? 0) then Some (error, v) else vop (op dvp name) v);
    v ← v_drele ddp v;
    Some (error, v).

(** From [vn_lock(vp)] on: the file that was found is truncated and opened; [fa] says whether there is memory. *)
Definition open_found (fa : bool) (flags dp : Z) (v : system) : option (Z * option file * system) :=
  '(vp, vn) ← vnode_at dp v;
  '(error, v) ← (if flag flags O_TRUNC then
                   if negb (flag flags UK_FWRITE) || (Vnode.v_type vn =? VDIR) then Some (Ramfs.EINVAL, v)
                   else vop (Ramfs.ramfs_truncate vp 0) v
                 else Some (0, v));
  if negb (error =? 0) then v ← v_drele dp v; Some (error, None, v)
  else if negb fa then v ← v_drele dp v; Some (ENOMEM, None, v)
  else Some (0, Some (MkFile flags dp), v).

Definition sys_open (fa : bool) (path : list Z) (oflags mode : Z) (v : system) : option (Z * option file * system) :=
  let flags := vfscore_fflags oflags in
  if flag flags O_CREAT then
    '(error, dp, v) ← v_namei path v;
    if error =? ENOENT then
      '(error, v) ← make_entry (fun dvp name => Ramfs.ramfs_create dvp name (Z.lor (clear mode Ramfs.S_IFMT) Ramfs.S_IFREG)) path v;
      if negb (error =? 0) then Some (error, None, v)
      else
        '(error, dp, v) ← v_namei path v;
        if negb (error =? 0) then Some (error, None, v)
        else open_found fa (clear (clear flags O_TRUNC) O_CREAT) dp v
    else if negb (error =? 0) then Some (error, None, v)
    else if flag flags O_EXCL then v ← v_drele dp v; Some (EEXIST, None, v)
    else open_found fa (clear flags O_CREAT) dp v
  else
    '(error, v) ← (if flag flags O_NOFOLLOW then open_no_follow_chk path v else Some (0, v));
    if negb (error =? 0) then Some (error, None, v)
    else
      '(error, dp, v) ← v_namei path v;
      if negb (error =? 0) then Some (error, None, v)
      else
        '(_, vn) ← vnode_at dp v;
        let error := if flag flags UK_FWRITE || flag flags O_TRUNC then
                       let error := access vn Vnode.VWRITE v in
                       if negb (error =? 0) then error else if Vnode.v_type vn =? VDIR then Ramfs.EISDIR else 0
                     else 0 in
        let error := if negb (error =? 0) then error
                     else if flag flags O_DIRECTORY && negb (Vnode.v_type vn =? VDIR) then ENOTDIR else 0 in
        if negb (error =? 0) then v ← v_drele dp v; Some (error, None, v)
        else open_found fa flags dp v.

(** [fdrop] of the last reference. *)
Definition close_file (fp : file) (v : system) : option system := v_drele (f_dentry fp) v.

(** ** Directories *)

(** [VOP_READDIR] until it shows a name that is not a dot or two; the offset starts at 0. *)
Fixpoint skip_dots (fuel : nat) (vp off : Z) (v : system) : option (Z * system) :=
  match fuel with
  | O => None
  | S fuel' =>
      '(error, d, off, v) ← ('(x, v) ← vop (fun f => '(e, d, off, f) ← Ramfs.ramfs_readdir vp off f; Some ((e, d, off), f)) v; Some (x.1.1, x.1.2, x.2, v));
      if negb (error =? 0) then Some (error, v)
      else
        match d with
        | Some d => if bool_decide (Ramfs.d_name d = dot) || bool_decide (Ramfs.d_name d = dotdot) then skip_dots fuel' vp off v else Some (0, v)
        | None => None
        end
  end.

Definition check_dir_empty (fa : bool) (path : list Z) (v : system) : option (Z * system) :=
  '(error, fp, v) ← sys_open fa path 0 0 v;
  match fp with
  | None => Some (error, v)
  | Some fp =>
      '(vp, vn) ← vnode_at (f_dentry fp) v;
      '(error, v) ← (if negb (Vnode.v_type vn =? VDIR) then Some (ENOTDIR, v) else skip_dots (3 + size (Ramfs.nodes (fs (core v)))) vp 0 v);
      v ← close_file fp v;
      Some (if error =? ENOENT then 0 else if error =? 0 then ENOTEMPTY else error, v)
  end.

Definition sys_mkdir (path : list Z) (mode : Z) (v : system) : option (Z * system) :=
  '(error, dp, v) ← v_namei path v;
  if error =? 0 then v ← v_drele dp v; Some (EEXIST, v)
  else make_entry (fun dvp name => Ramfs.ramfs_mkdir dvp name (Z.lor (clear mode Ramfs.S_IFMT) Ramfs.S_IFDIR)) path v.

Definition sys_mknod (path : list Z) (mode : Z) (v : system) : option (Z * system) :=
  let t := Z.land mode Ramfs.S_IFMT in
  if negb ((t =? Ramfs.S_IFREG) || (t =? Ramfs.S_IFDIR) || (t =? S_IFIFO) || (t =? S_IFSOCK)) then Some (Ramfs.EINVAL, v)
  else
    '(error, dp, v) ← v_namei path v;
    if error =? 0 then v ← v_drele dp v; Some (EEXIST, v)
    else make_entry (fun dvp name => if Ramfs.S_ISDIR mode then Ramfs.ramfs_mkdir dvp name mode else Ramfs.ramfs_create dvp name mode) path v.

(** The dentry leaves the cache whether the file system removed the file or not. *)
Definition forget (dp ddp : Z) (v : system) : option system :=
  t ← dentry_remove dp (dt (core v));
  v ← v_drele ddp (with_core v (set_dt (core v) t));
  v_drele dp v.

Definition sys_rmdir (fa : bool) (path : list Z) (v : system) : option (Z * system) :=
  '(error, v) ← check_dir_empty fa path v;
  if negb (error =? 0) then Some (error, v)
  else
    '(error, dp, v) ← v_namei path v;
    if negb (error =? 0) then Some (error, v)
    else
      '(vp, vn) ← vnode_at dp v;
      let error := access vn Vnode.VWRITE v in
      let error := if negb (error =? 0) then error
                   else if negb (Vnode.v_type vn =? VDIR) then ENOTDIR
                   else if vroot vn || (2 <=? Vnode.v_refcnt vn) then EBUSY else 0 in
      if negb (error =? 0) then v ← v_drele dp v; Some (error, v)
      else
        '(error, ddp, name, v) ← v_lookup path v;
        if negb (error =? 0) then v ← v_drele dp v; Some (error, v)
        else
          '(dvp, _) ← vnode_at ddp v;
          '(error, v) ← vop (Ramfs.ramfs_rmdir dvp vp) v;
          v ← forget dp ddp v;
          Some (error, v).

Definition sys_unlink (path : list Z) (v : system) : option (Z * system) :=
  '(error, ddp, name, v) ← v_lookup path v;
  if negb (error =? 0) then Some (error, v)
  else
    '(error, dp, v) ← namei_last_nofollow path ddp v;
    if negb (error =? 0) then v ← v_drele ddp v; Some (error, v)
    else
      '(vp, vn) ← vnode_at dp v;
      '(dvp, dvn) ← vnode_at ddp v;
      let error := if Vnode.v_type vn =? VDIR then Ramfs.EISDIR else if vroot vn then EBUSY else access dvn Vnode.VWRITE v in
      if negb (error =? 0) then v ← v_drele dp v; v ← v_drele ddp v; Some (error, v)
      else
        '(error, v) ← vop (Ramfs.ramfs_remove dvp vp) v;
        v ← forget dp ddp v;
        Some (error, v).

(** ** Renaming and linking *)

Definition is_parent (parent child : list Z) : bool :=
  bool_decide (parent `prefix_of` child) && (bool_decide (last parent = Some slash) || bool_decide (child !! length parent = Some slash)).
Definition has_trailing (path : list Z) (ch : Z) : bool := bool_decide (last path = Some ch).
Fixpoint strip_rev (l : list Z) (ch : Z) : list Z := match l with c :: l' => if c =? ch then strip_rev l' ch else l | [] => [] end.
Definition strip_trailing (path : list Z) (ch : Z) : list Z := rev (strip_rev (rev path) ch).

(** The path without the slashes at its end, and whether there were any; the root stays. *)
Definition strip_dir (path : list Z) : list Z * bool :=
  if has_trailing path slash && negb (zlen path =? 1) then (strip_trailing path slash, true) else (path, false).

(** Whether what is there may be replaced: 0, or the error. *)
Definition check_target (fa : bool) (vn1 : Vnode.vnode) (vp2 : option Vnode.vnode) (ts : bool) (dest : list Z) (v : system) : option (Z * system) :=
  match vp2 with
  | Some vn2 =>
      if negb (Vnode.v_type vn2 =? VDIR) && negb (Vnode.v_type vn2 =? VLNK) && ((Vnode.v_type vn1 =? VDIR) || ts) then Some (ENOTDIR, v)
      else if ((Vnode.v_type vn2 =? VDIR) || (Vnode.v_type vn2 =? VLNK)) && negb (Vnode.v_type vn1 =? VDIR) && (Vnode.v_type vn2 =? VDIR) then Some (Ramfs.EISDIR, v)
      else if Vnode.v_type vn2 =? VDIR then
        '(e, v) ← check_dir_empty fa dest v;
        Some (if negb (e =? 0) then EEXIST else 0, v)
      else Some (0, v)
  | None => Some (if negb (Vnode.v_type vn1 =? VDIR) && ts then ENOTDIR else 0, v)
  end.

(** The move itself: [dp2] is 0 when nothing is at the target, and [new_path] whether there is memory for the new path.
    The path that the dentry gets is the name alone. *)
Definition rename_move (new_path : bool) (dp1 ddp1 dp2 ddp2 : Z) (dest : list Z) (v : system) : option (Z * system) :=
  match split_last dest with
  | None => Some (ENOTDIR, v)
  | Some (_, dname) =>
      '(vp1, _) ← vnode_at dp1 v;
      '(dvp1, dvn1) ← vnode_at ddp1 v;
      '(dvp2, dvn2) ← vnode_at ddp2 v;
      let e1 := access dvn1 Vnode.VWRITE v in
      let e2 := access dvn2 Vnode.VWRITE v in
      if negb (e1 =? 0) then Some (e1, v)
      else if negb (e2 =? 0) then Some (e2, v)
      else if negb (Vnode.v_mount dvn1 =? Vnode.v_mount dvn2) then Some (EXDEV, v)
      else
        vp2 ← (if dp2 =? 0 then Some 0 else fst <$> vnode_at dp2 v);
        '(error, v) ← vop (Ramfs.ramfs_rename dvp1 vp1 dvp2 vp2 dname) v;
        if negb (error =? 0) then Some (error, v)
        else
          '(error, t) ← dentry_move new_path dp1 ddp2 dname (dt (core v));
          t ← (if dp2 =? 0 then Some t else dentry_remove dp2 t);
          Some (error, with_core v (set_dt (core v) t))
  end.

Definition sys_rename (fa new_path : bool) (src dest : list Z) (v : system) : option (Z * system) :=
  let '(src, ts) := strip_dir src in
  '(error, ddp1, sname, v) ← v_lookup src v;
  if negb (error =? 0) then Some (error, v)
  else
    '(error, dp1, v) ← namei_last_nofollow src ddp1 v;
    if negb (error =? 0) then v ← v_drele ddp1 v; Some (error, v)
    else
      '(vp1, vn1) ← vnode_at dp1 v;
      let out (e : Z) (v : system) := v ← v_drele dp1 v; v ← v_drele ddp1 v; Some (e, v) in
      if negb (Vnode.v_type vn1 =? VDIR) && ts then out ENOTDIR v
      else
        let '(dest, ts) := strip_dir dest in
        '(error, ddp2, _, v) ← v_lookup dest v;
        if negb (error =? 0) then out error v
        else
          '(found, dp2, v) ← namei_last_nofollow dest ddp2 v;
          let out2 (e : Z) (v : system) :=
            v ← (if found =? 0 then v_drele dp2 v else Some v); v ← v_drele ddp2 v; out e v in
          if negb (found =? 0) && negb (found =? ENOENT) then out2 found v
          else
            vn2 ← (if found =? 0 then '(_, vn2) ← vnode_at dp2 v; Some (Some vn2) else Some None);
            '(error, v) ← check_target fa vn1 vn2 ts dest v;
            if negb (error =? 0) then out2 error v
            else
              let dest := if bool_decide (dest = [slash]) then dest else strip_trailing dest slash in
              let src := if bool_decide (src = [slash]) then src else strip_trailing src slash in
              if bool_decide (src = dest) then out2 (if found =? 0 then 0 else found) v
              else if is_parent src dest then out2 Ramfs.EINVAL v
              else '(error, v) ← rename_move new_path dp1 ddp1 (if found =? 0 then dp2 else 0) ddp2 dest v; out2 error v.

(** [newpath] is the full path that [task_conv] made. *)
Definition sys_symlink (oldpath np : list Z) (v : system) : option (Z * system) :=
  '(error, ddp, name, v) ← v_lookup np v;
  if negb (error =? 0) then Some (ENOENT, v)
  else
    '(found, newdp, v) ← namei_last_nofollow np ddp v;
    '(error, v) ← (if found =? 0 then v ← v_drele newdp v; Some (EEXIST, v)
                   else
                     '(dvp, dvn) ← vnode_at ddp v;
                     let error := access dvn Vnode.VWRITE v in
                     if negb (error =? 0) then Some (error, v)
                     else if PATH_MAX - 1 <=? zlen oldpath then Some (ENAMETOOLONG, v)
                     else vop (Ramfs.ramfs_symlink dvp name oldpath) v);
    v ← v_drele ddp v;
    Some (error, v).

(** [newdp] has no value when the search for the new path fails and no dentry is made. *)
Definition sys_link (oldpath newpath : list Z) (v : system) : option (Z * system) :=
  '(error, olddp, v) ← v_namei oldpath v;
  if negb (error =? 0) then Some (error, v)
  else
    '(vp, vn) ← vnode_at olddp v;
    let out (e newdp : Z) (v : system) := v ← v_drele olddp v; v ← v_drele newdp v; Some (e, v) in
    if Vnode.v_type vn =? VDIR then None
    else
      '(found, newdp, v) ← v_namei newpath v;
      if found =? 0 then out EEXIST newdp v
      else
        '(error, ddp, name, v) ← v_lookup newpath v;
        if negb (error =? 0) then None
        else
          old ← dentries (dt (core v)) !! olddp;
          dd ← dentries (dt (core v)) !! ddp;
          '(_, dvn) ← vnode_at ddp v;
          if negb (d_mount old =? d_mount dd) then None
          else if negb (access dvn Vnode.VWRITE v =? 0) then None
          else
            let s := core v in
            let '(_, da, dup) := next_mem s in
            '(newdp, t) ← dentry_alloc da dup ddp vp newpath (dt s);
            let v := with_core v (Sys t (fs s) (tail (mem s))) in
            if newdp =? 0 then None
            else v ← v_drele ddp v; out EPERM newdp v.

(** ** Looking *)

Definition sys_access (path : list Z) (mode : Z) (v : system) : option (Z * system) :=
  '(error, dp, v) ← v_namei path v;
  if negb (error =? 0) then Some (error, v)
  else
    '(_, vn) ← vnode_at dp v;
    let flags := (if flag mode R_OK then Vnode.VREAD else 0) + (if flag mode W_OK then Vnode.VWRITE else 0) + (if flag mode X_OK then Vnode.VEXEC else 0) in
    v ← v_drele dp v;
    Some (access vn flags v, v).

Definition sys_truncate (path : list Z) (length : Z) (v : system) : option (Z * system) :=
  '(error, dp, v) ← v_namei path v;
  if negb (error =? 0) then Some (error, v)
  else
    '(vp, _) ← vnode_at dp v;
    '(error, v) ← vop (Ramfs.ramfs_truncate vp length) v;
    v ← v_drele dp v;
    Some (error, v).

(** ** The directory of a path *)

(** The path up to its last slash, and the name behind it. *)
Definition parent_path (dir : list Z) : list Z := match dir with [] => [slash] | _ => dir end.

Lemma split_last_spec path dir name : split_last path = Some (dir, name) -> path = dir ++ slash :: name /\ slash ∉ name.
Proof.
  revert dir name. induction path as [|c path IH]; intros dir name E; cbn [split_last] in E; [done|]. destruct (split_last path) as [[d n]|] eqn:Es.
  - injection E as <- <-. destruct (IH d n eq_refl) as [-> Hn]. done.
  - destruct (Z.eqb_spec c slash) as [->|]; [|done]. injection E as <- <-. split; [done|]. clear IH. induction path as [|a path IH]; [apply not_elem_of_nil|].
    cbn [split_last] in Es. destruct (split_last path) as [[? ?]|]; [done|]. destruct (Z.eqb_spec a slash); [done|]. apply not_elem_of_cons. split; [congruence|by apply IH].
Qed.

Lemma ok_vfs roots n k ext vext (v : system) s : vfs_ok roots n k ext vext v -> ok roots n k (held (mount_list v) ext) vext s -> kept (held (mount_list v) ext) (dt (core v)) (dt s) ->
  vfs_ok roots n k ext vext (with_core v s).
Proof.
  intros [O M A P E] O' K. split; try done. cbn [with_core core mount_list]. eapply in_place_kept; [|exact K|done]. intros m Hm. by apply held_root.
Qed.

(** Giving back a dentry. *)
Lemma v_drele_spec roots n k ext vext v dp : vfs_ok roots n k (bump ext dp 1) vext v -> (forall q, 0 <= ext q) ->
  exists t, v_drele dp v = Some (with_core v (set_dt (core v) t)) /\ vfs_ok roots n k ext vext (with_core v (set_dt (core v) t)).
Proof.
  intros [O M A P E] He. destruct (ok_drele _ _ _ _ _ _ dp O) as (t & Et & O' & Sh).
  { unfold held. rewrite bump_eq. specialize (He dp). pose proof (pins_pos (mount_list v) dp). lia. }
  exists t. unfold v_drele. rewrite Et. split; [done|].
  assert (O2 : ok roots n k (held (mount_list v) ext) vext (set_dt (core v) t)) by (eapply ok_ext; [|exact O']; intros q; unfold held, bump; repeat case_decide; lia).
  split; try done. cbn [with_core core mount_list]. eapply in_place_kept; [| |exact M]; [intros m Hm; by apply (held_root (mount_list v) ext)|].
  eapply kept_shrinks; [exact Sh|apply O2|done].
Qed.

(** The search for the directory of a path: it is held, or there is an error. *)
Lemma v_lookup_spec roots n k ext vext v path dir name m r p :
  vfs_ok roots (length (names p) + n) (4 * zlen (names p) + 1 + k) ext vext v -> 0 <= k -> zlen path < PATH_MAX ->
  split_last path = Some (dir, name) -> leads roots v (parent_path dir) m r p ->
  exists e ddp name' v', v_lookup path v = Some (e, ddp, name', v') /\ mount_list v' = mount_list v /\
    (forall d c, entry (fs (core v')) d c = entry (fs (core v)) d c) /\
    (e <> 0 /\ vfs_ok roots n k ext vext v' \/
     e = 0 /\ name' = name /\ vfs_ok roots n k (bump ext ddp 1) vext v' /\
       exists pth x, meaning (fs (core v)) (r, VDIR) p = inr (x, VDIR) /\ file_of (m_addr m) (dt (core v')) ddp pth (x, VDIR)).
Proof.
  intros V Hk Hl Es Hle. destruct (split_last_spec _ _ _ Es) as [Ep _]. unfold v_lookup, lookup. rewrite clip_fits by done. destruct path as [|c0 path0] eqn:Epath; [done|]. rewrite <- Epath in *.
  rewrite Es. cbn [mbind option_bind]. fold (parent_path dir).
  destruct (vfs_namei roots n k ext vext v (parent_path dir) m r p V Hk) as (e & dp & s' & -> & Hent & [Kp _] & Hres); [|done|].
  { rewrite Ep, length_app in Hl. cbn [length] in Hl. unfold parent_path. destruct dir; cbn [length] in *; lia. }
  cbn [mbind option_bind]. destruct Hres as [(-> & Hdp & (pth & y & Hy & Hfile) & V')|(He & -> & _ & V')].
  2: { destruct (Z.eqb_spec e 0); [done|]. cbn [negb mbind option_bind]. eexists e, 0, [], _. split; [done|]. split; [done|]. split; [done|]. by left. }
  change (0 =? 0) with true. cbn [negb]. pose proof Hfile as (d & w & Hd & _ & _ & Hw & _ & Ey). rewrite Hd. cbn [mbind option_bind]. rewrite Hw. cbn [mbind option_bind].
  destruct (Z.eqb_spec (Vnode.v_type w) VDIR) as [Ht|Ht]; cbn [negb].
  - cbn [mbind option_bind]. eexists 0, dp, name, _. split; [done|]. split; [done|]. split; [done|]. right. split; [done|]. split; [done|]. split; [done|].
    exists pth, (Vnode.v_data w). rewrite Ht in Ey. subst y. done.
  - destruct (v_drele_spec _ _ _ _ _ _ _ V' (w_ext _ _ _ _ _ _ V)) as (t & Et & V2). unfold v_drele in Et. cbn [core with_core] in Et. destruct (drele dp (dt s')) as [t'|]; [|done].
    cbn [mbind option_bind] in Et |- *. injection Et as ->. eexists ENOTDIR, 0, [], _. split; [done|]. split; [done|]. split; [done|]. by left.
Qed.

(** ** New files *)

(** A call of the RAM file system that makes a file of a type, or changes nothing. *)
Definition makes (ty : Z) (op : Z -> list Z -> Ramfs.ramfs -> option (Z * Ramfs.ramfs)) : Prop :=
  forall f K dvp d name, Ramfs.inv f K -> Ramfs.node_of dvp f = Some d -> is_Some (Ramfs.nodes f !! d) -> 0 ∉ name ->
    exists rc f', op dvp name f = Some (rc, f') /\
      (rc <> 0 /\ RamfsFile.unchanged f K f' \/ rc = 0 /\ exists np, RamfsDir.made f K d np ty name [] f').

Lemma mkdir_makes mode : makes VDIR (fun dvp name => Ramfs.ramfs_mkdir dvp name mode).
Proof.
  intros f K dvp d name I Hd Hl Hn. destruct (RamfsDir.mkdir_spec f K dvp d name mode I Hd Hl Hn) as (rc & f' & E & H). exists rc, f'. split; [exact E|].
  destruct H as [(-> & _ & ->)|[(-> & _ & ->)|[(-> & U)|(-> & np & M)]]]; [left..|right]; (split; [done|]); try done; try (by apply RamfsFile.unchanged_refl). by exists np.
Qed.

Lemma create_makes mode : makes Ramfs.VREG (fun dvp name => Ramfs.ramfs_create dvp name mode).
Proof.
  intros f K dvp d name I Hd Hl Hn. destruct (RamfsDir.create_spec f K dvp d name mode I Hd Hl Hn) as (rc & f' & E & H). exists rc, f'. split; [exact E|].
  destruct H as [(-> & _ & ->)|[(-> & _ & ->)|[(-> & U)|(-> & np & M)]]]; [left..|right]; (split; [done|]); try done; try (by apply RamfsFile.unchanged_refl). by exists np.
Qed.

(** The directories with a file more: it is found when its name was not there. *)
Definition plus (f : Ramfs.ramfs) (x : Z) (name : list Z) (y : Z * Z) (d : Z) (c : list Z) : option (Z * Z) :=
  match entry f d c with Some z => Some z | None => if bool_decide (d = x /\ c = name) then Some y else None end.

Lemma vop_makes roots n k ext vext v ty op dvp dvn x name : vfs_ok roots n k ext vext v -> makes ty op -> Vnode.vnodes (vt (dt (core v))) !! dvp = Some dvn ->
  Vnode.v_data dvn = x -> is_dir (fs (core v)) x -> 0 ∉ name ->
  exists rc v', vop (op dvp name) v = Some (rc, v') /\ mount_list v' = mount_list v /\ vfs_ok roots n k ext vext v' /\
    (rc <> 0 /\ (forall d c, entry (fs (core v')) d c = entry (fs (core v)) d c) \/
     rc = 0 /\ exists np, forall d c, entry (fs (core v')) d c = plus (fs (core v)) x name (np, ty) d c).
Proof.
  intros [O M A P E] Hop Hdv Ed Hx Hn. pose proof (o_fs _ _ _ _ _ _ O) as ((K & I) & H1 & H2 & H3). set (f := fs (core v)) in *. set (vs := vt (dt (core v))) in *.
  assert (I1 : Ramfs.inv (with_vnodes f vs) K) by (by apply RamfsDir.inv_vt).
  destruct (Hop (with_vnodes f vs) K dvp x name I1) as (rc & f' & Eo & Hres); [unfold Ramfs.node_of; cbn; rewrite Hdv; by rewrite <- Ed|done|done|].
  unfold vop. fold f vs. rewrite Eo. cbn [mbind option_bind]. eexists _, _. split; [done|]. split; [done|]. cbn [with_core core fs].
  assert (Hold : forall d, is_dir f d -> is_Some (Ramfs.nodes f' !! d)).
  { intros d Hd. destruct Hres as [[_ U]|(_ & np & Md)]; [by rewrite (RamfsFile.u_nodes _ _ _ U)|]. apply (RamfsDir.m_live _ _ _ _ _ _ _ _ Md). by right. }
  assert (Hvt : Ramfs.vt f' = vs) by (destruct Hres as [[_ U]|(_ & np & Md)]; [apply (RamfsFile.u_vt _ _ _ U)|apply (RamfsDir.m_vt _ _ _ _ _ _ _ _ Md)]).
  assert (Hent : rc <> 0 /\ (forall d c, entry f' d c = entry f d c) \/ rc = 0 /\ exists np, forall d c, entry f' d c = plus f x name (np, ty) d c).
  { destruct Hres as [[Hrc U]|(-> & np & Md)]; [left|right]; (split; [done|]).
    - intros d c. cbn [entry ramfs_dirs]. unfold ramfs_entry. by rewrite (RamfsFile.u_nodes _ _ _ U).
    - exists np. intros d c. apply (made_entry (with_vnodes f vs) K x np ty name [] f' I1 Hx Md). }
  split; [|exact Hent]. rewrite Hvt. assert (Edt : set_vt (dt (core v)) vs = dt (core v)) by (by destruct (dt (core v))). rewrite Edt.
  split; try done. cbn [with_core core mount_list]. eapply (ok_grows roots n n); [exact O| | |exact Hold].
  - split; [destruct Hres as [[_ U]|(_ & np & Md)]; eexists; [apply U|apply Md]|].
    assert (Ei : Ramfs.inode_count f' = Ramfs.inode_count f) by (destruct Hres as [[_ U]|(_ & np & Md)]; [apply (RamfsFile.u_inode _ _ _ U)|apply (RamfsDir.m_inode _ _ _ _ _ _ _ _ Md)]).
    by rewrite Ei.
  - intros d c y Hy. destruct Hent as [[_ ->]|(_ & np & ->)]; [done|]. unfold plus. fold f in Hy. by rewrite Hy.
Qed.

Lemma meaning_follow (f : Ramfs.ramfs) x p y : meaning f x p = inr y -> follow f x (names p) = inr y.
Proof. unfold meaning. destruct (follow f x (names p)); [done|]. destruct (_ && _); [done|]. done. Qed.

(** A file in the directory of a path: it is made, or an error is returned and nothing is changed. *)
Lemma make_entry_spec roots n k ext vext v ty op path dir name m r p :
  vfs_ok roots (length (names p) + n) (4 * zlen (names p) + 1 + k) ext vext v -> 0 <= k -> zlen path < PATH_MAX -> makes ty op -> 0 ∉ path ->
  split_last path = Some (dir, name) -> leads roots v (parent_path dir) m r p ->
  exists e v', make_entry op path v = Some (e, v') /\ mount_list v' = mount_list v /\ vfs_ok roots n k ext vext v' /\
    (e <> 0 /\ (forall d c, entry (fs (core v')) d c = entry (fs (core v)) d c) \/
     e = 0 /\ exists x np, meaning (fs (core v)) (r, VDIR) p = inr (x, VDIR) /\
       forall d c, entry (fs (core v')) d c = plus (fs (core v)) x name (np, ty) d c).
Proof.
  intros V Hk Hl Hop H0 Es Hle. unfold make_entry.
  destruct (v_lookup_spec roots n k ext vext v path dir name m r p V Hk Hl Es Hle) as (e & ddp & name' & v1 & -> & Em1 & Hent & Hres). cbn [mbind option_bind].
  destruct Hres as [[He V1]|(-> & -> & V1 & pth & x & Hmean & Hfile)].
  { destruct (Z.eqb_spec e 0); [done|]. cbn [negb]. exists e, v1. do 3 (split; [done|]). by left. }
  change (0 =? 0) with true. cbn [negb]. pose proof Hfile as (d & w & Hd & _ & _ & Hw & _ & Ex). injection Ex as Ex1 Ex2.
  assert (Hva : vnode_at ddp v1 = Some (d_vnode d, w)) by (unfold vnode_at; rewrite Hd; cbn [mbind option_bind]; by rewrite Hw). rewrite Hva. cbn [mbind option_bind].
  assert (Hdir : is_dir (fs (core v1)) x).
  { pose proof (w_ok _ _ _ _ _ _ V1) as O1. apply (follow_dir r n (fs (core v1)) (vt (dt (core v1))) (o_fs _ _ _ _ _ _ O1)) with (ns := names p).
    - destruct Hle as (_ & _ & Hr & _). apply (o_root _ _ _ _ _ _ O1 (m_addr m) r Hr).
    - rewrite (follow_same (fs (core v))) by done. by apply meaning_follow. }
  assert (Hn0 : 0 ∉ name) by (destruct (split_last_spec _ _ _ Es) as [-> _]; intros H; apply H0; apply elem_of_app; right; by apply list_elem_of_further).
  set (err := access w Vnode.VWRITE v1). destruct (Z.eqb_spec err 0) as [Herr|Herr]; cbn [negb].
  - destruct (vop_makes roots n k (bump ext ddp 1) vext v1 ty op (d_vnode d) w x name V1 Hop Hw (eq_sym Ex1) Hdir Hn0) as (rc & v2 & -> & Em2 & V2 & Hres). cbn [mbind option_bind].
    destruct (v_drele_spec _ _ _ _ _ _ _ V2 (w_ext _ _ _ _ _ _ V)) as (t & -> & V3). cbn [mbind option_bind]. eexists rc, _. split; [done|]. split; [cbn; congruence|]. split; [done|].
    cbn [with_core core set_dt fs]. destruct Hres as [[Hrc Hsame]|(-> & np & Hplus)].
    + left. split; [done|]. intros d' c. by rewrite Hsame.
    + right. split; [done|]. exists x, np. split; [done|]. intros d' c. rewrite Hplus. unfold plus. by rewrite Hent.
  - cbn [mbind option_bind]. destruct (v_drele_spec _ _ _ _ _ _ _ V1 (w_ext _ _ _ _ _ _ V)) as (t & -> & V3). cbn [mbind option_bind].
    eexists err, _. split; [done|]. split; [done|]. split; [done|]. by left.
Qed.

Lemma leads_same roots v v' path m r p : mount_list v' = mount_list v -> (forall d c, entry (fs (core v')) d c = entry (fs (core v)) d c) ->
  leads roots v path m r p -> leads roots v' path m r p.
Proof.
  intros Em Ee (H1 & H2 & H3 & H4 & H5). unfold leads. rewrite Em. do 4 (split; [done|]). intros ms np ty Hms E. rewrite (follow_same (fs (core v))) in E by done. by apply (H5 ms np).
Qed.

(** Making a directory. *)
Lemma sys_mkdir_spec roots n k ext vext v path mode dir name m0 r0 p0 m r p :
  vfs_ok roots (length (names p0) + (length (names p) + n)) (4 * zlen (names p0) + 1 + (4 * zlen (names p) + 1 + k)) ext vext v -> 0 <= k -> zlen path < PATH_MAX -> 0 ∉ path ->
  leads roots v path m0 r0 p0 -> split_last path = Some (dir, name) -> leads roots v (parent_path dir) m r p ->
  exists e0 dp0 v0 e v', v_namei path v = Some (e0, dp0, v0) /\ sys_mkdir path mode v = Some (e, v') /\ mount_list v' = mount_list v /\ vfs_ok roots n k ext vext v' /\
    (forall y, meaning (fs (core v)) (r0, VDIR) p0 = inr y -> e0 <> ENOMEM -> e = EEXIST) /\
    (e <> 0 -> forall d c, entry (fs (core v')) d c = entry (fs (core v)) d c) /\
    (e = 0 -> (e0 = ENOMEM \/ meaning (fs (core v)) (r0, VDIR) p0 = inl e0) /\ exists x np, meaning (fs (core v)) (r, VDIR) p = inr (x, VDIR) /\
       (forall d c, entry (fs (core v')) d c = plus (fs (core v)) x name (np, VDIR) d c) /\
       (entry (fs (core v)) x name = None -> follow (fs (core v')) (r, VDIR) (names p ++ [name]) = inr (np, VDIR))).
Proof.
  intros V Hk Hl H0 Hle0 Es Hle. unfold sys_mkdir, v_namei.
  destruct (vfs_namei roots _ _ ext vext v path m0 r0 p0 V ltac:(lia) Hl Hle0) as (e & dp & s' & -> & Hent & _ & Hres). cbn [mbind option_bind].
  eexists e, dp, _. destruct Hres as [(-> & Hdp & (pth & y & Hy & _) & V')|(He & -> & Hmean0 & V')].
  - change (0 =? 0) with true. cbn iota. destruct (v_drele_spec _ _ _ _ _ _ _ V' (w_ext _ _ _ _ _ _ V)) as (t & Et & V2). unfold with_core at 2. rewrite Et. cbn [mbind option_bind].
    eexists EEXIST, _. split; [done|]. split; [done|]. split; [done|]. split; [|by split]. destruct V2 as [O M A P E]. split; try done. eapply ok_mono; [exact O|lia|lia].
  - destruct (Z.eqb_spec e 0); [done|]. set (v1 := with_core v s'). change (Vfs s' (mount_list v)) with v1 in V'.
    destruct (make_entry_spec roots n k ext vext v1 VDIR _ path dir name m r p V' Hk Hl (mkdir_makes (Z.lor (clear mode Ramfs.S_IFMT) Ramfs.S_IFDIR)) H0 Es)
      as (e2 & v2 & -> & Em2 & V2 & Hres); [by apply (leads_same roots v)|].
    exists e2, v2. split; [done|]. split; [done|]. split; [done|]. split; [done|]. split; [intros y Hy Hne; destruct Hmean0 as [?|Hm]; congruence|].
    destruct Hres as [[He2 Hsame]|(-> & x & np & Hmean & Hplus)]; split; try done.
    + intros _ d c. by rewrite Hsame, <- Hent.
    + intros _. split; [done|]. exists x, np. assert (Hmean' : meaning (fs (core v)) (r, VDIR) p = inr (x, VDIR)) by (rewrite <- Hmean; unfold meaning; by rewrite (follow_same (fs (core v)) (fs (core v1)))).
      assert (Hplus' : forall d c, entry (fs (core v2)) d c = plus (fs (core v)) x name (np, VDIR) d c) by (intros d c; rewrite Hplus; unfold plus; change (fs (core v1)) with (fs s'); by rewrite (Hent d c)).
      split; [done|]. split; [done|]. intros Hnone. rewrite follow_app.
      rewrite (follow_grows (fs (core v)) (fs (core v2))) with (y := (x, VDIR)); [|intros d c z Hz; rewrite Hplus'; unfold plus; by rewrite Hz|by apply meaning_follow].
      cbn [follow fst snd]. change (VDIR =? VDIR) with true. cbn iota. rewrite Hplus'. unfold plus. rewrite Hnone, bool_decide_eq_true_2 by done. done.
Qed.

(** ** Opening a file *)

(** A path through a directory with a new regular file leads where it did, or to the file. *)
Lemma follow_plus (f f' : Ramfs.ramfs) x name np : (forall d c, entry f' d c = plus f x name (np, Ramfs.VREG) d c) ->
  forall ns z y, follow f' z ns = inr y -> follow f z ns = inr y \/ y = (np, Ramfs.VREG).
Proof.
  intros Hp ns. induction ns as [|c ns IH]; intros z y E; [by left|]. cbn [follow] in *. destruct (z.2 =? VDIR); [|done]. rewrite Hp in E. unfold plus in E.
  destruct (entry f z.1 c) as [w|]; [by apply IH|]. destruct (bool_decide _); [|done]. right. destruct ns as [|c' ns]; cbn [follow snd] in E; [by injection E as <-|done].
Qed.

Lemma leads_plus roots v v' path m r p x name np : mount_list v' = mount_list v ->
  (forall d c, entry (fs (core v')) d c = plus (fs (core v)) x name (np, Ramfs.VREG) d c) -> leads roots v path m r p -> leads roots v' path m r p.
Proof.
  intros Em Hp (H1 & H2 & H3 & H4 & H5). unfold leads. rewrite Em. do 4 (split; [done|]). intros ms q ty Hms E.
  destruct (follow_plus _ _ x name np Hp _ _ _ E) as [E'|E']; [by apply (H5 ms q)|]. injection E' as -> ->. done.
Qed.

Definition opens (roots : gmap Z Z) (n : nat) (k : Z) (ext vext : Z -> Z) (m : mount) (r : Z) (p : list Z) (e : Z) (fo : option file) (v' : system) : Prop :=
  match fo with
  | None => e <> 0 /\ vfs_ok roots n k ext vext v'
  | Some fp => e = 0 /\ vfs_ok roots n k (bump ext (f_dentry fp) 1) vext v' /\
      exists pth y, meaning (fs (core v')) (r, VDIR) p = inr y /\ file_of (m_addr m) (dt (core v')) (f_dentry fp) pth y
  end.

Lemma open_found_spec roots n k ext vext v fa flags dp m r p pth y :
  vfs_ok roots n k (bump ext dp 1) vext v -> (forall q, 0 <= ext q) -> flag flags O_TRUNC = false -> meaning (fs (core v)) (r, VDIR) p = inr y ->
  file_of (m_addr m) (dt (core v)) dp pth y ->
  exists e fo v', open_found fa flags dp v = Some (e, fo, v') /\ mount_list v' = mount_list v /\ (forall d c, entry (fs (core v')) d c = entry (fs (core v)) d c) /\
    opens roots n k ext vext m r p e fo v' /\ (is_Some fo -> f_flags <$> fo = Some flags).
Proof.
  intros V He Hfl Hy Hfile. unfold open_found. pose proof Hfile as (d & w & Hd & _ & _ & Hw & _ & _).
  assert (Hva : vnode_at dp v = Some (d_vnode d, w)) by (unfold vnode_at; rewrite Hd; cbn [mbind option_bind]; by rewrite Hw). rewrite Hva. cbn [mbind option_bind]. rewrite Hfl.
  cbn [mbind option_bind]. change (0 =? 0) with true. cbn [negb]. destruct fa; cbn [negb].
  - eexists 0, _, v. split; [done|]. split; [done|]. split; [done|]. split; [|done]. split; [done|]. cbn [f_dentry]. split; [done|]. by exists pth, y.
  - destruct (v_drele_spec _ _ _ _ _ _ _ V He) as (t & -> & V3). cbn [mbind option_bind]. eexists ENOMEM, None, _. split; [done|]. split; [done|]. split; [done|]. split; [by split|].
    intros [? ?]. done.
Qed.

Lemma meaning_same (f f' : Ramfs.ramfs) x p : (forall d c, entry f' d c = entry f d c) -> meaning f' x p = meaning f x p.
Proof. intros H. unfold meaning. by rewrite (follow_same f f'). Qed.

Lemma opens_mono roots n n' k k' ext vext m r p e fo v : opens roots n k ext vext m r p e fo v -> (n' <= n)%nat -> k' <= k -> opens roots n' k' ext vext m r p e fo v.
Proof.
  assert (H : forall ext, vfs_ok roots n k ext vext v -> (n' <= n)%nat -> k' <= k -> vfs_ok roots n' k' ext vext v).
  { intros e' [O M A P E] Hn Hk. split; try done. by eapply ok_mono. }
  destruct fo as [fp|]; cbn [opens]; [intros (H1 & H2 & H3)|intros (H1 & H2)]; intros Hn Hk; (split; [done|]); [split; [by apply H|done]|by apply H].
Qed.

Lemma flag_clear flags a : flag flags O_TRUNC = false -> flag (clear flags a) O_TRUNC = false.
Proof.
  unfold flag, clear. rewrite !negb_false_iff, !Z.eqb_eq. intros H. rewrite <- Z.land_assoc, (Z.land_comm (Z.lnot a)), Z.land_assoc, H. by apply Z.land_0_l.
Qed.

Lemma sys_open_spec roots n k ext vext v fa path oflags mode dir name m0 r0 p0 m r p :
  vfs_ok roots (length (names p0) + (length (names p) + (length (names p0) + n))) (4 * zlen (names p0) + 1 + (4 * zlen (names p) + 1 + (4 * zlen (names p0) + 1 + k))) ext vext v ->
  0 <= k -> zlen path < PATH_MAX -> 0 ∉ path -> flag (vfscore_fflags oflags) O_TRUNC = false -> flag (vfscore_fflags oflags) O_NOFOLLOW = false ->
  leads roots v path m0 r0 p0 -> split_last path = Some (dir, name) -> leads roots v (parent_path dir) m r p ->
  exists e fo v', sys_open fa path oflags mode v = Some (e, fo, v') /\ mount_list v' = mount_list v /\ opens roots n k ext vext m0 r0 p0 e fo v' /\
    ((forall d c, entry (fs (core v')) d c = entry (fs (core v)) d c) /\
       (is_Some fo -> flag (vfscore_fflags oflags) O_CREAT = true -> flag (vfscore_fflags oflags) O_EXCL = false) \/
     flag (vfscore_fflags oflags) O_CREAT = true /\ (exists e', meaning (fs (core v)) (r0, VDIR) p0 = inl e') /\
     exists x np, meaning (fs (core v)) (r, VDIR) p = inr (x, VDIR) /\ forall d c, entry (fs (core v')) d c = plus (fs (core v)) x name (np, Ramfs.VREG) d c).
Proof.
  intros V Hk Hl H0 Htr Hnf Hle0 Es Hle. unfold sys_open. set (flags := vfscore_fflags oflags) in *. pose proof (w_ext _ _ _ _ _ _ V) as Hext.
  destruct (vfs_namei roots _ _ ext vext v path m0 r0 p0 V ltac:(lia) Hl Hle0) as (e & dp & s' & Hn & Hent & _ & Hres). cbn [mbind option_bind].
  assert (Hvn : v_namei path v = Some (e, dp, with_core v s')) by (unfold v_namei; by rewrite Hn). set (v1 := with_core v s') in *. change (Vfs s' (mount_list v)) with v1 in Hres. change (forall d c, entry (fs (core v1)) d c = entry (fs (core v)) d c) in Hent.
  destruct (flag flags O_CREAT) eqn:Ecr.
  - rewrite Hvn. cbn [mbind option_bind]. destruct Hres as [(-> & Hdp & (pth & y & Hy & Hfile) & V')|(He & -> & Hor & V')].
    + change (0 =? ENOENT) with false. change (0 =? 0) with true. cbn iota. cbn [negb]. destruct (flag flags O_EXCL) eqn:Eex.
      * destruct (v_drele_spec _ _ _ _ _ _ _ V' Hext) as (t & -> & V2). cbn [mbind option_bind]. eexists EEXIST, None, _. split; [done|]. split; [done|].
        split; [eapply (opens_mono _ (length (names p) + (length (names p0) + n)) n _ k); [by split|lia|lia]|]. left. split; [done|]. by intros [? ?].
      * destruct (open_found_spec roots _ _ ext vext v1 fa (clear flags O_CREAT) dp m0 r0 p0 pth y V' Hext (flag_clear _ _ Htr)) as (e2 & fo & v2 & -> & Em2 & Hent2 & Ho & _); [by rewrite (meaning_same (fs (core v)))|done|].
        exists e2, fo, v2. split; [done|]. split; [done|]. split; [eapply opens_mono; [exact Ho|lia|lia]|]. left. split; [|done]. intros d c. by rewrite Hent2.
    + destruct (Z.eqb_spec e ENOENT) as [->|Hne].
      2: { destruct (Z.eqb_spec e 0); [done|]. cbn [negb]. eexists e, None, v1. split; [done|]. split; [done|]. split; [eapply (opens_mono _ (length (names p) + (length (names p0) + n)) n _ k); [by split|lia|lia]|].
           left. split; [done|]. by intros [? ?]. }
      destruct Hor as [Hor|Hor]; [done|].
      destruct (make_entry_spec roots _ _ ext vext v1 Ramfs.VREG _ path dir name m r p V' ltac:(lia) Hl (create_makes (Z.lor (clear mode Ramfs.S_IFMT) Ramfs.S_IFREG)) H0 Es)
        as (e2 & v2 & -> & Em2 & V2 & Hres); [by apply (leads_same roots v)|]. cbn [mbind option_bind]. destruct Hres as [[He2 Hsame]|(-> & x & np & Hmean & Hplus)].
      * destruct (Z.eqb_spec e2 0); [done|]. cbn [negb]. eexists e2, None, v2. split; [done|]. split; [done|]. split; [eapply (opens_mono _ (length (names p0) + n) n _ k); [by split|lia|lia]|].
        left. split; [intros d c; by rewrite Hsame|]. by intros [? ?].
      * change (0 =? 0) with true. cbn [negb]. assert (Hplus' : forall d c, entry (fs (core v2)) d c = plus (fs (core v)) x name (np, Ramfs.VREG) d c) by (intros d c; rewrite Hplus; unfold plus; by rewrite Hent).
        assert (Hmean' : meaning (fs (core v)) (r, VDIR) p = inr (x, VDIR)) by (by rewrite <- (meaning_same (fs (core v)) (fs (core v1)))).
        assert (Hle2 : leads roots v2 path m0 r0 p0) by (apply (leads_plus roots v v2 path m0 r0 p0 x name np); [by rewrite Em2|done|done]). unfold v_namei.
        destruct (vfs_namei roots n k ext vext v2 path m0 r0 p0 V2 Hk Hl Hle2) as (e3 & dp3 & s3 & -> & Hent3 & _ & Hres3). cbn [mbind option_bind].
        set (v3 := with_core v2 s3) in *. change (Vfs s3 (mount_list v2)) with v3 in Hres3. change (forall d c, entry (fs (core v3)) d c = entry (fs (core v2)) d c) in Hent3.
        assert (Em3 : mount_list v3 = mount_list v) by (change (mount_list v3) with (mount_list v2); by rewrite Em2).
        destruct Hres3 as [(-> & Hdp3 & (pth & y & Hy & Hfile) & V3)|(He3 & -> & _ & V3)].
        -- change (0 =? 0) with true. cbn [negb]. destruct (open_found_spec roots _ _ ext vext v3 fa (clear (clear flags O_TRUNC) O_CREAT) dp3 m0 r0 p0 pth y V3 Hext) as (e4 & fo & v4 & -> & Em4 & Hent4 & Ho & _);
             [by apply flag_clear, flag_clear|by rewrite (meaning_same (fs (core v2)))|done|]. exists e4, fo, v4. split; [done|]. split; [congruence|]. split; [done|]. right. split; [done|]. split; [by eexists|].
           exists x, np. split; [done|]. intros d c. by rewrite Hent4, Hent3.
        -- destruct (Z.eqb_spec e3 0); [done|]. cbn [negb]. exists e3, None, v3. split; [done|]. split; [done|]. split; [by split|]. right. split; [done|]. split; [by eexists|].
           exists x, np. split; [done|]. intros d c. by rewrite Hent3.
  - rewrite Hnf. cbn [mbind option_bind]. change (0 =? 0) with true. cbn [negb]. rewrite Hvn. cbn [mbind option_bind]. destruct Hres as [(-> & Hdp & (pth & y & Hy & Hfile) & V')|(He & -> & Hor & V')].
    2: { destruct (Z.eqb_spec e 0); [done|]. cbn [negb]. eexists e, None, v1. split; [done|]. split; [done|]. split; [eapply (opens_mono _ (length (names p) + (length (names p0) + n)) n _ k); [by split|lia|lia]|].
         left. split; [done|]. by intros _. }
    change (0 =? 0) with true. cbn [negb]. pose proof Hfile as (d & w & Hd & _ & _ & Hw & _ & _).
    assert (Hva : vnode_at dp v1 = Some (d_vnode d, w)) by (unfold vnode_at; change (dt (core v1)) with (dt s'); rewrite Hd; cbn [mbind option_bind]; by rewrite Hw). rewrite Hva. cbn [mbind option_bind]. cbn zeta.
    match goal with |- context [if negb (?a =? 0) then v ← v_drele dp v1; _ else _] => destruct (Z.eqb_spec a 0) as [E0|E0] end; cbn [negb].
    + destruct (open_found_spec roots _ _ ext vext v1 fa flags dp m0 r0 p0 pth y V' Hext Htr) as (e2 & fo & v2 & -> & Em2 & Hent2 & Ho & _); [by rewrite (meaning_same (fs (core v)))|done|].
      exists e2, fo, v2. split; [done|]. split; [done|]. split; [eapply opens_mono; [exact Ho|lia|lia]|]. left. split; [|done]. intros d' c. by rewrite Hent2.
    + destruct (v_drele_spec _ _ _ _ _ _ _ V' Hext) as (t & -> & V2). cbn [mbind option_bind]. eexists _, None, _. split; [done|]. split; [done|].
      split; [eapply (opens_mono _ (length (names p) + (length (names p0) + n)) n _ k); [by split|lia|lia]|]. left. split; [done|]. by intros _.
Qed.

End Syscalls.
