(* ===== verification/VfsUse.v ===== *)
(** * VfsUse: the file system from its paths

    What the calls of [Syscalls] and [Mount] promise together, on a system of mounted RAM file systems:
    the theorems on searching, mounting, unmounting, making directories and opening files, each with
    a run on a small system, and what happens where the code does not keep its promise. *)
From Stdlib Require Import ZArith Lia Bool.
From stdpp Require Import gmap relations.
From S2P Require Import Prelude Buf Uio Vnode Ramfs RamfsFile RamfsDir RamfsRun Path Dentry Namei NameiRamfs Mount Syscalls.
Open Scope Z_scope.

Module VfsUse.
Import Path.
Import Dentry.
Import Namei.
Import NameiRamfs.
Import Mount.
Import Syscalls.

(** ** A small system *)

Definition none : Z -> Z := fun _ => 0.
Definition demo_mem : list (Z * Z * bool) := map (fun i => (1000 + Z.of_nat i, 2000 + Z.of_nat i, true)) (seq 0 12).
Definition start : system := Vfs (Sys (dentry_init Vnode.vnode_init) (Ramfs.Ramfs ∅ ∅ Vnode.vnode_init 1 RamfsRun.demo_mem) demo_mem) [].
Definition ramfs_name : list Z := [114; 97; 109; 102; 115].
Definition fslist : list (list Z * Z) := [(ramfs_name, 1)].
Definition mount_at (mp : Z) (dir : list Z) (v : system) : option (Z * system) := mount_fs fslist mp (Some []) (Some dir) ramfs_name 0 v.

Lemma start_ok : vfs_ok ∅ 60 1000000 none none start.
Proof.
  split; cbn [start core mount_list]; [|constructor|constructor|constructor|done]. split; cbn [dt fs mem].
  - eapply dinv_ext; [|exact dinv_init]. done.
  - intros q c r _ _ Hr. by rewrite lookup_empty in Hr.
  - split; [|split; [cbn; lia|split; [cbn; lia|]]].
    + exists (fun _ => []). apply RamfsRun.inv_empty. split; [apply (bool_decide_unpack _); vm_compute; exact I|]. intros x _ _. done.
    + intros vp w Hw. cbn in Hw. by rewrite lookup_empty in Hw.
  - intros m r Hr. by rewrite lookup_empty in Hr.
  - intros q. cbn [held mount_list dentries dentry_init]. unfold held, none, Vnode.INT_MAX. cbn [pins foldr]. rewrite map_size_empty. lia.
  - split; [|split]; [apply (bool_decide_unpack _); vm_compute; exact I..|]. intros x Hx. done.
Qed.

Lemma vfs_mono roots n n' k k' ext vext (v : system) : vfs_ok roots n k ext vext v -> (n' <= n)%nat -> k' <= k -> vfs_ok roots n' k' ext vext v.
Proof. intros [O M A P E] Hn Hk. split; [by eapply ok_mono|exact M|exact A|exact P|exact E]. Qed.

Lemma some_pair {A B} {a c : A} {b d : B} : Some (a, b) = Some (c, d) -> a = c /\ b = d.
Proof. intros E. by injection E. Qed.

(** The system with a RAM file system at the root. *)
Definition rooted : system := default start (snd <$> mount_at 500 [slash] start).
Definition root_mount : mount := MkMount 500 [slash] 0 1 2000 0.

Lemma fresh_start mp : fresh_mount mp (dt (core start)).
Proof. split; intros q x Hq; cbn in Hq; [by rewrite lookup_empty in Hq|]. unfold cores in Hq. cbn in Hq. by rewrite fmap_empty, lookup_empty in Hq. Qed.

Lemma rooted_ok : exists r, vfs_ok (<[500 := r]> ∅) 40 900000 none none rooted /\ mount_list rooted = [root_mount].
Proof.
  assert (E : mount_at 500 [slash] start = Some (0, rooted)) by (vm_compute; reflexivity).
  assert (El : mount_list rooted = [root_mount]) by (vm_compute; reflexivity).
  destruct (mount_spec ∅ 40 900000 none none start fslist 500 [] [slash] ramfs_name 1 0 root_mount 0 [] 1000 2000) as (e & v' & E' & _ & H).
  - eapply vfs_mono; [exact start_ok|cbn; lia|cbn; lia].
  - lia.
  - vm_compute. reflexivity.
  - vm_compute. congruence.
  - congruence.
  - vm_compute. reflexivity.
  - apply not_elem_of_nil.
  - congruence.
  - apply lookup_empty.
  - apply fresh_start.
  - left. split; [reflexivity|]. split; [vm_compute; reflexivity|congruence].
  - destruct (some_pair (eq_trans (eq_sym E) E')) as [<- <-]. destruct H as [(H & _)|(_ & m' & r & _ & _ & _ & _ & V & _)].
    + rewrite El in H. discriminate H.
    + exists r. split; [exact V|exact El].
Qed.

Lemma rooted_leads r path p : vfs_findroot path [(500, [slash])] = Some (500, p) -> (names p = [] -> p = []) -> no_link r (fs (core rooted)) (names p) ->
  leads (<[500 := r]> ∅) rooted path root_mount r p.
Proof.
  intros Hf Hp Hn. destruct rooted_ok as (_ & _ & El). unfold leads. rewrite El. split; [apply list_elem_of_here|]. split; [exact Hf|]. split; [apply lookup_insert_eq|]. split; [exact Hp|exact Hn].
Qed.

(** ** Searching *)

(** C16: On a system of mounted file systems with room in its reference counts, the search for a path that has
    no symbolic link on its way and some name behind its mount point, or nothing at all, returns
    0 with a dentry that is held once more and is the file that the path means: the names are followed
    from the root of the longest mount point in front of the path, and a slash at the end asks for a
    directory.  Otherwise it returns the error that the path means, or that there was no memory.  In
    all cases the invariants of the cache, the vnodes and the mount points hold again, no other
    reference was taken or lost, and every held dentry stays in place.  Links are left out, and so are paths with only
    slashes behind the mount point, for which the code returns 0 without a dentry and loses a reference ([slashes_leak]). *)
Theorem namei_correct roots n k ext vext (v : system) path m r p :
  vfs_ok roots (length (names p) + n) (4 * zlen (names p) + 1 + k) ext vext v -> 0 <= k -> zlen path < PATH_MAX -> leads roots v path m r p ->
  exists e dp v', v_namei path v = Some (e, dp, v') /\ mount_list v' = mount_list v /\
    (forall d c, entry (fs (core v')) d c = entry (fs (core v)) d c) /\ kept (held (mount_list v) ext) (dt (core v)) (dt (core v')) /\
    (e = 0 /\ dp <> 0 /\ vfs_ok roots n k (bump ext dp 1) vext v' /\
       (exists pth y, meaning (fs (core v)) (r, VDIR) p = inr y /\ file_of (m_addr m) (dt (core v')) dp pth y) \/
     e <> 0 /\ dp = 0 /\ vfs_ok roots n k ext vext v' /\ (e = ENOMEM \/ meaning (fs (core v)) (r, VDIR) p = inl e)).
Proof.
  intros V Hk Hl Hle. destruct (vfs_namei roots n k ext vext v path m r p V Hk Hl Hle) as (e & dp & s' & E & Hent & [Kp _] & Hres).
  exists e, dp, (with_core v s'). unfold v_namei. rewrite E. split; [done|]. split; [done|]. split; [done|]. split; [done|].
  destruct Hres as [(-> & H1 & H2 & H3)|(H1 & -> & H2 & H3)]; [left|right]; done.
Qed.

Lemma name_no_link r (f : Ramfs.ramfs) c : entry f r c = None -> no_link r f [c].
Proof.
  intros En ms np ty [l Hl] E. destruct ms as [|c' ms]; [by injection E as _ <-|]. cbn [app] in Hl. injection Hl as <- Hl. destruct ms; [|done].
  cbn [follow fst snd] in E. change (VDIR =? VDIR) with true in E. cbn iota in E. rewrite En in E. done.
Qed.

Lemma rooted_empty r : vfs_ok (<[500 := r]> ∅) 40 900000 none none rooted -> forall c, entry (fs (core rooted)) r c = None.
Proof.
  intros V c. destruct (decide (is_Some (Ramfs.nodes (fs (core rooted)) !! r))) as [Hr|Hr].
  - assert (En : exists n, Ramfs.nodes (fs (core rooted)) = {[4096 := n]} /\ Ramfs.rn_child n = 0) by (eexists; split; vm_compute; reflexivity).
    destruct En as (n & En & Ec). cbn [entry ramfs_dirs]. unfold ramfs_entry. rewrite En in *. destruct (decide (r = 4096)) as [->|Hne].
    + rewrite lookup_singleton_eq. cbn [mbind option_bind]. rewrite Ec. done.
    + by rewrite lookup_singleton_ne.
  - cbn [entry ramfs_dirs]. unfold ramfs_entry. destruct (Ramfs.nodes (fs (core rooted)) !! r); [destruct Hr; by eexists|done].
Qed.

Lemma namei_correct_witness : exists e dp v', v_namei [slash; 97] rooted = Some (e, dp, v') /\ e = ENOENT /\ mount_list v' = [root_mount].
Proof.
  destruct rooted_ok as (r & V & El).
  destruct (namei_correct (<[500 := r]> ∅) 20 100 none none rooted [slash; 97] root_mount r [97]) as (e & dp & v' & E & Em & _ & _ & H).
  - eapply vfs_mono; [exact V|cbn; lia|cbn; lia].
  - lia.
  - vm_compute. reflexivity.
  - apply rooted_leads; [vm_compute; reflexivity|done|]. apply name_no_link, rooted_empty. exact V.
  - exists e, dp, v'. split; [exact E|]. split; [|by rewrite Em]. vm_compute in E. injection E as <- _ _. reflexivity.
Defined.

(** ** Mounting *)

(** C17: Mounting a registered file system, with a device that is not below [/dev/], on a directory whose path has no
    symbolic link on its way and some name behind its mount point, or on the root when there is memory for its dentry,
    at a path that is no mount point yet, returns
    with the system in order.  Either the mount points are as they were and all references are given
    back; the code is then not 0 for the root, but elsewhere it may be 0, because a missing dentry for the root of
    the new file system goes unnoticed ([mount_unnoticed]).  Or the code is 0 and there is one more mount point, with the path and the flags
    asked for: a search for the path now ends at its root, all directories are as before, and
    unmounting it by force leads back to the system with the old mount points. *)
Theorem mount_correct roots n k ext vext (v : system) types mp dev dir fsname op flags m r p va da :
  vfs_ok roots (length (names p) + n) (4 * zlen (names p) + 1 + (k + 4)) ext vext v -> 0 <= k ->
  fs_getfs types fsname = Some op -> take 5 dev <> slash_dev -> dir <> [] -> zlen dir < PATH_MAX -> dir ∉ map m_path (mount_list v) ->
  mp <> 0 -> roots !! mp = None -> fresh_mount mp (dt (core v)) ->
  dir = [slash] /\ next_mem (core v) = (va, da, true) /\ da <> 0 \/ dir <> [slash] /\ leads roots v dir m r p ->
  exists e v', mount_fs types mp (Some dev) (Some dir) fsname flags v = Some (e, v') /\
    (forall d c, entry (fs (core v')) d c = entry (fs (core v)) d c) /\
    (mount_list v' = mount_list v /\ (e = 0 -> dir <> [slash]) /\ vfs_ok roots n k ext vext v' \/
     e = 0 /\ exists m' r', mount_list v' = mount_list v ++ [m'] /\ m_addr m' = mp /\ m_path m' = dir /\ m_flags m' = flags /\
       vfs_ok (<[mp := r']> roots) n k ext vext v' /\
       (exists v2, v_namei dir v' = Some (0, m_root m', v2)) /\
       exists v2, umount2 dir MNT_FORCE v' = Some (0, v2) /\ mount_list v2 = mount_list v /\ vfs_ok roots n k ext vext v2).
Proof.
  intros V Hk Hfs Hdev Hne Hl Hnew Hmp Hno Hfm Hp.
  destruct (mount_spec roots n k ext vext v types mp dev dir fsname op flags m r p va da V Hk Hfs Hdev Hne Hl Hnew Hmp Hno Hfm Hp) as (e & v' & E & Hent & Hres).
  exists e, v'. split; [exact E|]. split; [exact Hent|]. destruct Hres as [H|(-> & m' & r' & El & Ea & Ep & Ef & V' & s' & En)]; [by left|right]. split; [done|].
  exists m', r'. do 5 (split; [done|]). split; [exists (with_core v' s'); unfold v_namei; by rewrite En|].
  assert (Hm' : m' ∈ mount_list v') by (rewrite El; apply elem_of_app; right; by apply list_elem_of_singleton).
  destruct (umount_spec _ n k ext vext v' m' MNT_FORCE V' Hm') as (s2 & Eu & _ & V2); [rewrite Ep; exact Hl|right; by vm_compute|]. rewrite Ep in Eu.
  assert (Hf : filter (fun x => m_addr x <> m_addr m') (mount_list v') = mount_list v).
  { rewrite El, filter_app, filter_cons, decide_False, app_nil_r by (intros H; by apply H). apply filter_all. apply Forall_forall. intros x Hx E'.
    destruct V as [_ M _ _ _]. destruct (proj1 (Forall_forall _ _) M x Hx) as (_ & _ & [y Hy] & _). congruence. }
  rewrite Hf, Ea in V2. rewrite Hf in Eu. rewrite delete_insert_id in V2 by done. by eexists.
Qed.

Lemma mount_correct_witness : exists e v', mount_at 500 [slash] start = Some (e, v') /\ e = 0 /\ mount_list v' = [root_mount].
Proof.
  destruct (mount_correct ∅ 10 10 none none start fslist 500 [] [slash] ramfs_name 1 0 root_mount 0 [] 1000 2000) as (e & v' & E & _).
  - eapply vfs_mono; [exact start_ok|cbn; lia|cbn; lia].
  - lia.
  - vm_compute. reflexivity.
  - vm_compute. congruence.
  - congruence.
  - vm_compute. reflexivity.
  - apply not_elem_of_nil.
  - congruence.
  - apply lookup_empty.
  - apply fresh_start.
  - left. split; [reflexivity|]. split; [vm_compute; reflexivity|congruence].
  - exists e, v'. split; [exact E|]. vm_compute in E. injection E as <- <-. split; reflexivity.
Defined.

(** ** Making directories *)

(** C18: Making a directory keeps the system in order.  The path and the one without its last name have no
    symbolic link on their way and some name behind their mount point.  If the path leads to a file and the search for it had memory
    enough, the code is EEXIST (without memory the name may be made a second time, [mkdir_twice]).  With any code but 0
    no directory has changed.  With 0 the search for the path had failed, with the error that the path means or for
    lack of memory; the directory that the path without its last name leads to has a new entry of that
    name, everything that was found before is still found, and, when the name was not there, the path
    leads to the new directory. *)
Theorem mkdir_correct roots n k ext vext (v : system) path mode dir name m0 r0 p0 m r p :
  vfs_ok roots (length (names p0) + (length (names p) + n)) (4 * zlen (names p0) + 1 + (4 * zlen (names p) + 1 + k)) ext vext v -> 0 <= k ->
  zlen path < PATH_MAX -> 0 ∉ path -> leads roots v path m0 r0 p0 -> split_last path = Some (dir, name) -> leads roots v (parent_path dir) m r p ->
  exists e0 dp0 v0 e v', v_namei path v = Some (e0, dp0, v0) /\ sys_mkdir path mode v = Some (e, v') /\ mount_list v' = mount_list v /\ vfs_ok roots n k ext vext v' /\
    (forall y, meaning (fs (core v)) (r0, VDIR) p0 = inr y -> e0 <> ENOMEM -> e = EEXIST) /\
    (e <> 0 -> forall d c, entry (fs (core v')) d c = entry (fs (core v)) d c) /\
    (e = 0 -> (e0 = ENOMEM \/ meaning (fs (core v)) (r0, VDIR) p0 = inl e0) /\ exists x np, meaning (fs (core v)) (r, VDIR) p = inr (x, VDIR) /\
       (forall d c, entry (fs (core v')) d c = plus (fs (core v)) x name (np, VDIR) d c) /\
       (entry (fs (core v)) x name = None -> follow (fs (core v')) (r, VDIR) (names p ++ [name]) = inr (np, VDIR))).
Proof. intros V Hk Hl H0 Hle0 Es Hle. exact (sys_mkdir_spec roots n k ext vext v path mode dir name m0 r0 p0 m r p V Hk Hl H0 Hle0 Es Hle). Qed.

Lemma rooted_root r : leads (<[500 := r]> ∅) rooted [slash] root_mount r [].
Proof. apply rooted_leads; [vm_compute; reflexivity|done|]. intros ms np ty [l Hl] E. destruct ms; [|done]. by injection E as _ <-. Qed.

Lemma mkdir_correct_witness : exists e v', sys_mkdir [slash; 97] 511 rooted = Some (e, v') /\ e = 0 /\ mount_list v' = [root_mount].
Proof.
  destruct rooted_ok as (r & V & El).
  destruct (mkdir_correct (<[500 := r]> ∅) 10 10 none none rooted [slash; 97] 511 [] [97] root_mount r [97] root_mount r []) as (e0 & dp0 & v0 & e & v' & _ & E & Em & _).
  - eapply vfs_mono; [exact V|cbn; lia|cbn; lia].
  - lia.
  - vm_compute. reflexivity.
  - intros H. apply elem_of_cons in H as [H|H]; [discriminate H|]. apply list_elem_of_singleton in H. discriminate H.
  - apply rooted_leads; [vm_compute; reflexivity|done|]. apply name_no_link, rooted_empty. exact V.
  - vm_compute. reflexivity.
  - apply rooted_root.
  - exists e, v'. split; [exact E|]. split; [|by rewrite Em]. vm_compute in E. injection E as <- _. reflexivity.
Defined.

(** ** Opening files *)

(** C19: Opening a path without [O_TRUNC] and [O_NOFOLLOW] keeps the system in order; the path and the one without
    its last name have no symbolic link on their way and some name behind their mount point (or nothing), and no zero byte.
    If a file is returned, the code is 0, and the file holds one reference to a dentry of what the path
    means then; otherwise the code is not 0 and all references are given back.  Either no directory
    has changed, and an exclusive creation did not open an old file; or creation was asked for, the path
    meant no file, and the directory of the path has a new regular file of the last name. *)
Theorem open_correct roots n k ext vext (v : system) fa path oflags mode dir name m0 r0 p0 m r p :
  vfs_ok roots (length (names p0) + (length (names p) + (length (names p0) + n))) (4 * zlen (names p0) + 1 + (4 * zlen (names p) + 1 + (4 * zlen (names p0) + 1 + k))) ext vext v ->
  0 <= k -> zlen path < PATH_MAX -> 0 ∉ path -> flag (vfscore_fflags oflags) O_TRUNC = false -> flag (vfscore_fflags oflags) O_NOFOLLOW = false ->
  leads roots v path m0 r0 p0 -> split_last path = Some (dir, name) -> leads roots v (parent_path dir) m r p ->
  exists e fo v', sys_open fa path oflags mode v = Some (e, fo, v') /\ mount_list v' = mount_list v /\ opens roots n k ext vext m0 r0 p0 e fo v' /\
    ((forall d c, entry (fs (core v')) d c = entry (fs (core v)) d c) /\
       (is_Some fo -> flag (vfscore_fflags oflags) O_CREAT = true -> flag (vfscore_fflags oflags) O_EXCL = false) \/
     flag (vfscore_fflags oflags) O_CREAT = true /\ (exists e', meaning (fs (core v)) (r0, VDIR) p0 = inl e') /\
     exists x np, meaning (fs (core v)) (r, VDIR) p = inr (x, VDIR) /\ forall d c, entry (fs (core v')) d c = plus (fs (core v)) x name (np, Ramfs.VREG) d c).
Proof.
  intros V Hk Hl H0 Ht Hf Hle0 Es Hle. exact (sys_open_spec roots n k ext vext v fa path oflags mode dir name m0 r0 p0 m r p V Hk Hl H0 Ht Hf Hle0 Es Hle).
Qed.

Lemma open_correct_witness : exists e fo v', sys_open true [slash; 97] (O_CREAT + O_EXCL + 2) 420 rooted = Some (e, fo, v') /\
  e = 0 /\ fo = Some (MkFile (O_EXCL + 3) 2002) /\ mount_list v' = [root_mount].
Proof.
  destruct rooted_ok as (r & V & El).
  destruct (open_correct (<[500 := r]> ∅) 10 10 none none rooted true [slash; 97] (O_CREAT + O_EXCL + 2) 420 [] [97] root_mount r [97] root_mount r []) as (e & fo & v' & E & Em & _).
  - eapply vfs_mono; [exact V|cbn; lia|cbn; lia].
  - lia.
  - vm_compute. reflexivity.
  - intros H. apply elem_of_cons in H as [H|H]; [discriminate H|]. apply list_elem_of_singleton in H. discriminate H.
  - vm_compute. reflexivity.
  - vm_compute. reflexivity.
  - apply rooted_leads; [vm_compute; reflexivity|done|]. apply name_no_link, rooted_empty. exact V.
  - vm_compute. reflexivity.
  - apply rooted_root.
  - exists e, fo, v'. split; [exact E|]. vm_compute in E. injection E as <- <- E. split; [reflexivity|]. split; [reflexivity|]. by rewrite Em.
Defined.

(** ** Where the code does not keep its promise *)

Definition refill (m : list (Z * Z * bool)) (v : system) : system := Vfs (Sys (dt (core v)) (fs (core v)) m) (mount_list v).
Definition with_dir : system := default start (snd <$> sys_mkdir [slash; 97] 511 rooted).

(** Without memory for the dentry of its root, a mount returns 0 and nothing is mounted. *)
Theorem mount_unnoticed : (fun x => (x.1, mount_list x.2)) <$> mount_at 600 [slash; 97] (refill [(3000, 4000, true); (3001, 0, false)] with_dir) = Some (0, [root_mount]).
Proof. by vm_compute. Qed.

(** A directory cannot be opened for writing, unless it is to be created. *)
Theorem creat_opens_directory :
  (fun x => x.1) <$> sys_open true [slash; 97] 1 0 with_dir = Some (Ramfs.EISDIR, None) /\
  (fun x => x.1.1) <$> sys_open true [slash; 97] (O_CREAT + 1) 0 with_dir = Some 0.
Proof. by vm_compute. Qed.

(** A name that could not be looked up for lack of memory is made a second time. *)
Theorem mkdir_twice : (fun x => (x.1, size (Ramfs.nodes (fs (core x.2))))) <$> sys_mkdir [slash; 97] 511 (refill [(0, 0, false)] with_dir) = Some (0, 3%nat).
Proof. by vm_compute. Qed.

(** Linking a directory releases a dentry that was never set. *)
Theorem link_directory_crashes : sys_link [slash; 97] [slash; 98] with_dir = None.
Proof. by vm_compute. Qed.

Definition opened : option (file * system) := '(_, fo, v) ← sys_open true [slash; 97; 47; 102] (O_CREAT + 2) 420 with_dir; fp ← fo; Some (fp, v).

(** What an open file has: the path of its dentry, and whether its node is still there. *)
Definition backing (fp : file) (v : system) : option (list Z * bool) :=
  d ← dentries (dt (core v)) !! f_dentry fp;
  '(_, vn) ← vnode_at (f_dentry fp) v;
  Some (d_path d, bool_decide (is_Some (Ramfs.nodes (fs (core v)) !! Vnode.v_data vn))).

(** Removing an open file, or moving it to another directory, frees the node that the file goes on to use;
    the dentry of a moved file has the bare name for its path. *)
Theorem open_file_dangles :
  ('(fp, v) ← opened; backing fp v) = Some ([47; 97; 47; 102], true) /\
  ('(fp, v) ← opened; '(_, v) ← sys_unlink [47; 97; 47; 102] v; backing fp v) = Some ([47; 97; 47; 102], false) /\
  ('(fp, v) ← opened; '(_, v) ← sys_rename true true [47; 97; 47; 102] [47; 103] v; backing fp v) = Some ([103], false).
Proof. by vm_compute. Qed.

Definition with_mount : system := default start (snd <$> mount_at 600 [slash; 97] with_dir).

(** A file system is unmounted while a file of it is open: the vnode of the file keeps the address of the mount point. *)
Theorem umount_busy :
  ('(_, fo, v) ← sys_open true [47; 97; 47; 102] (O_CREAT + 2) 420 with_mount; fp ← fo; '(e, v) ← umount [47; 97] v;
   '(_, vn) ← vnode_at (f_dentry fp) v; Some (e, Vnode.v_mount vn, map m_addr (mount_list v))) = Some (0, 600, [500]).
Proof. by vm_compute. Qed.

(** A path of slashes behind the root is found, but no dentry is returned, and the root is held for good. *)
Theorem slashes_leak : (fun x => (x.1, d_refcnt <$> dentries (dt (core x.2)) !! 2000)) <$> v_namei [slash; slash; slash] rooted = Some (0, 0, Some 2) /\
  d_refcnt <$> dentries (dt (core rooted)) !! 2000 = Some 1.
Proof. by vm_compute. Qed.

End VfsUse.
