(* ===== verification/Strto.v ===== *)
(** * Strto: numbers in strings

    The character classes of [lib/nolibc/ctype.c] and the conversions of [lib/nolibc/stdlib.c]
    ([strtoul], [strtol], [strtoll], [strtoull], [atoi]) on the memory of [Mem], against a reference that
    reads the spaces, the sign, the prefix and the digits of a string.  [errno] is a state
    that the functions take and return. *)
From Stdlib Require Import ZArith Lia Bool.
From stdpp Require Import gmap.
From S2P Require Import Prelude Mem NolibcString KvServer.
Open Scope Z_scope.

Module Strto.
Import Nolibc.

Definition EINVAL : Z := 22.
Definition ERANGE : Z := 34.
Definition LONG_MAX : Z := 2 ^ 63 - 1.
Definition LONG_MIN : Z := - LONG_MAX - 1.
Definition ULONG_MAX : Z := 2 ^ 64 - 1.
Definition I_MAX : Z := 2147483647.
Definition I_MIN : Z := - I_MAX - 1.

(** ** Character classes *)

Definition _U : Z := 1.
Definition _L : Z := 2.
Definition _D : Z := 4.
Definition _C : Z := 8.
Definition _P : Z := 16.
Definition _S : Z := 32.
Definition _X : Z := 64.
Definition _SP : Z := 128.

(** The table, row by row. *)
Definition _nolibc_ctype : list Z :=
  replicate 9 _C ++ replicate 5 (Z.lor _C _S) ++ replicate 18 _C ++
  [Z.lor _S _SP] ++ replicate 15 _P ++ replicate 10 _D ++ replicate 7 _P ++
  replicate 6 (Z.lor _U _X) ++ replicate 20 _U ++ replicate 6 _P ++
  replicate 6 (Z.lor _L _X) ++ replicate 20 _L ++ replicate 4 _P ++ [_C] ++
  replicate 32 0 ++ [Z.lor _S _SP] ++ replicate 31 _P ++
  replicate 23 _U ++ [_P] ++ replicate 7 _U ++ replicate 24 _L ++ [_P] ++ replicate 8 _L.

Definition ismask (c mask : Z) : bool := negb (Z.land (nth (Z.to_nat (u8 c)) _nolibc_ctype 0) mask =? 0).
Definition isspace (c : Z) : bool := ismask c _S.
Definition isdigit (c : Z) : bool := ismask c _D.
Definition isalpha (c : Z) : bool := ismask c (Z.lor _U _L).
Definition isupper (c : Z) : bool := ismask c _U.
Definition isascii (c : Z) : bool := u8 c <=? 0x7f.

(** ** The parts that the four conversions share *)

(** [do c = *s++; while (isspace(c))] *)
Fixpoint skip_spaces (fuel : nat) (m : mem) (s : Z) : option (Z * Z) :=
  match fuel with
  | O => None
  | S fuel' => c ← load8 m s; if isspace c then skip_spaces fuel' m (s + 1) else Some (c, s + 1)
  end.

(** The sign, with the character behind it. *)
Definition sign (m : mem) (c s : Z) : option (bool * Z * Z) :=
  if c =? 45 then c ← load8 m s; Some (true, c, s + 1)
  else if c =? 43 then c ← load8 m s; Some (false, c, s + 1)
  else Some (false, c, s).

(** The base, with the first character of the digits. *)
Definition prefix (m : mem) (base c s : Z) : option (Z * Z * Z) :=
  '(base, c, s) ← (if ((base =? 0) || (base =? 16)) && (c =? 48) then
    x ← load8 m s;
    if (x =? 120) || (x =? 88) then c ← load8 m (s + 1); Some (16, c, s + 2) else Some (base, c, s)
  else Some (base, c, s));
  Some (if base =? 0 then (if c =? 48 then 8 else 10) else base, c, s).

(** The digits: [acc], [any] and [s] at the end of the loop. *)
Fixpoint digit_loop (fuel : nat) (m : mem) (base cutoff cutlim c s acc any : Z) : option (Z * Z * Z) :=
  match fuel with
  | O => None
  | S fuel' =>
      if negb (isascii c) then Some (acc, any, s) else
      if negb (isdigit c || isalpha c) then Some (acc, any, s) else
      let c := if isdigit c then u8 (c - 48) else u8 (c - (if isupper c then 65 - 10 else 97 - 10)) in
      if base <=? c then Some (acc, any, s) else
      let '(acc, any) :=
        if (any <? 0) || (cutoff <? acc) || ((acc =? cutoff) && (cutlim <? c)) then (acc, -1) else (u64 (u64 (acc * base) + c), 1) in
      c ← load8 m s;
      digit_loop fuel' m base cutoff cutlim c (s + 1) acc any
  end.

Definition bad_base (base : Z) : bool := (base <? 0) || (base =? 1) || (36 <? base).

(** From the start of the string to the end of the digits, for the largest value [max] of either sign. *)
Definition number (fuel : nat) (m : mem) (nptr base : Z) (max : bool -> Z) : option (bool * Z * Z * Z) :=
  '(c, s) ← skip_spaces fuel m nptr;
  '(neg, c, s) ← sign m c s;
  '(base, c, s) ← prefix m base c s;
  '(acc, any, s) ← digit_loop fuel m base (max neg / base) (max neg mod base) c s 0 0;
  Some (neg, acc, any, s).

(** [exit:] of each function. *)
Definition set_end (m : mem) (endptr nptr s any : Z) : option mem :=
  if endptr =? 0 then Some m else store64 m endptr (if any =? 0 then nptr else s - 1).

(** ** The conversions: result, [errno] and memory *)

Definition strtoul (fuel : nat) (m : mem) (errno nptr endptr base : Z) : option (Z * Z * mem) :=
  if bad_base base then m ← set_end m endptr nptr nptr 0; Some (0, - EINVAL, m) else
  '(neg, acc, any, s) ← number fuel m nptr base (fun _ => ULONG_MAX);
  let '(acc, errno) := (if any <? 0 then (ULONG_MAX, ERANGE) else (if neg : bool then u64 (- acc) else acc, errno)) in
  m ← set_end m endptr nptr s any;
  Some (acc, errno, m).

Definition strtol (fuel : nat) (m : mem) (errno nptr endptr base : Z) : option (Z * Z * mem) :=
  if bad_base base then m ← set_end m endptr nptr nptr 0; Some (0, - EINVAL, m) else
  '(neg, acc, any, s) ← number fuel m nptr base (fun neg => if neg then u64 (LONG_MAX - u64 (LONG_MIN + LONG_MAX)) else LONG_MAX);
  let '(acc, errno) := if any <? 0 then (u64 (if neg : bool then LONG_MIN else LONG_MAX), ERANGE) else (if neg : bool then u64 (- acc) else acc, errno) in
  m ← set_end m endptr nptr s any;
  Some (sext 64 acc, errno, m).

(** [long long] has the width of [long]. *)
Definition strtoll := strtol.
Definition strtoull := strtoul.

Definition atoi (fuel : nat) (m : mem) (errno s : Z) : option (Z * Z * mem) :=
  '(atoll, errno, m) ← strtoll fuel m errno s 0 10;
  let atoll := if I_MAX <? atoll then I_MAX else atoll in
  let atoll := if atoll <? I_MIN then I_MIN else atoll in
  Some (sext 32 atoll, errno, m).

(** ** The reference *)

(** The value of a character as a digit; 99 for others. *)
Definition dval (c : Z) : Z :=
  if (48 <=? c) && (c <=? 57) then c - 48 else if (65 <=? c) && (c <=? 90) then c - 55 else if (97 <=? c) && (c <=? 122) then c - 87 else 99.

Definition digit_of (b c : Z) : bool := dval c <? b.

Fixpoint take_while (p : Z -> bool) (l : list Z) : list Z :=
  match l with [] => [] | x :: l' => if p x then x :: take_while p l' else [] end.
Fixpoint drop_while (p : Z -> bool) (l : list Z) : list Z :=
  match l with [] => [] | x :: l' => if p x then drop_while p l' else l end.

Definition value_from (b a : Z) (ds : list Z) : Z := fold_left (fun a c => a * b + dval c) ds a.

Definition split_sign (l : list Z) : bool * list Z :=
  match l with c :: l' => if c =? 45 then (true, l') else if c =? 43 then (false, l') else (false, l) | [] => (false, []) end.

Definition split_prefix (base : Z) (l : list Z) : Z * list Z :=
  match l with
  | c :: x :: l' =>
      if ((base =? 0) || (base =? 16)) && (c =? 48) && ((x =? 120) || (x =? 88)) then (16, l')
      else (if base =? 0 then (if c =? 48 then 8 else 10) else base, l)
  | c :: _ => (if base =? 0 then (if c =? 48 then 8 else 10) else base, l)
  | [] => (if base =? 0 then 10 else base, l)
  end.

(** What a string says: its sign, its base, its digits and what follows them. *)
Record numeral := Numeral { n_neg : bool; n_base : Z; n_digits : list Z; n_rest : list Z }.

Definition read_number (base : Z) (l : list Z) : numeral :=
  let '(neg, l) := split_sign (drop_while isspace l) in
  let '(b, l) := split_prefix base l in
  Numeral neg b (take_while (digit_of b) l) (drop_while (digit_of b) l).

Definition n_value (x : numeral) : Z := value_from (n_base x) 0 (n_digits x).

(** ** Characters *)

Lemma byte_forall (P : Z -> bool) : forallb P (seqZ 0 256) = true -> forall c, byte c -> P c = true.
Proof. intros H c Hc. rewrite forallb_forall in H. apply H, list_elem_of_In, elem_of_seqZ. unfold byte in Hc. lia. Qed.

(** The tests and the arithmetic of the loop give the value of a digit. *)
Lemma digit_char c : byte c ->
  dval c = if isascii c && (isdigit c || isalpha c) then (if isdigit c then u8 (c - 48) else u8 (c - (if isupper c then 65 - 10 else 97 - 10))) else 99.
Proof.
  intros Hc. apply Z.eqb_eq. revert c Hc. apply (byte_forall (fun c => dval c =? if isascii c && (isdigit c || isalpha c) then (if isdigit c then u8 (c - 48) else u8 (c - (if isupper c then 65 - 10 else 97 - 10))) else 99)).
  by vm_compute.
Qed.

Lemma dval_range c : 0 <= dval c.
Proof. unfold dval. repeat case_test; lia. Qed.

(** A pass of the loop. *)
Lemma digit_loop_step fuel m b cutoff cutlim c s acc any : byte c -> b <= 36 ->
  digit_loop (S fuel) m b cutoff cutlim c s acc any =
  if digit_of b c then
    let '(acc, any) := if (any <? 0) || (cutoff <? acc) || ((acc =? cutoff) && (cutlim <? dval c)) then (acc, -1) else (u64 (u64 (acc * b) + dval c), 1) in
    c ← load8 m s; digit_loop fuel m b cutoff cutlim c (s + 1) acc any
  else Some (acc, any, s).
Proof.
  intros Hc Hb. unfold digit_of. rewrite (digit_char c Hc). cbn [digit_loop].
  destruct (isascii c); cbn [negb andb]; [|by rewrite (proj2 (Z.ltb_ge 99 b)) by lia].
  destruct (isdigit c || isalpha c); cbn [negb]; [|by rewrite (proj2 (Z.ltb_ge 99 b)) by lia].
  rewrite (Z.ltb_antisym b). by destruct (b <=? _).
Qed.

Lemma value_from_mono b ds : 1 <= b -> forall a, 0 <= a -> a <= value_from b a ds.
Proof.
  intros Hb. induction ds as [|d ds IH]; intros a Ha; cbn [value_from fold_left]; [lia|].
  pose proof (dval_range d). specialize (IH (a * b + dval d)). unfold value_from in IH. nia.
Qed.

(** The first character of a string, its terminator included. *)
Definition head_char (l : list Z) : Z := match l with [] => 0 | c :: _ => c end.

Lemma cstr_head m p l : cstr m p l -> m !! p = Some (head_char l) /\ byte (head_char l).
Proof.
  destruct l as [|c l]; [rewrite cstr_nil; by split|]. rewrite cstr_cons. intros (H & Hc & _). split; [done|]. unfold byte. cbn. lia.
Qed.

Section Digits.
Context (b max : Z) (Hb : 2 <= b <= 36) (Hmax : 0 <= max < 2 ^ 64).

Lemma digit_loop_over l : forall fuel m p acc, cstr m p l -> (length l < fuel)%nat ->
  digit_loop fuel m b (max / b) (max mod b) (head_char l) (p + 1) acc (-1) = Some (acc, -1, p + 1 + zlen (take_while (digit_of b) l)).
Proof using Hb.
  induction l as [|c l IH]; intros fuel m p acc Hl Hf; destruct (cstr_head m p _ Hl) as [_ Hc]; (destruct fuel; [lia|]); rewrite digit_loop_step by (done || lia); cbn [head_char take_while].
  - unfold digit_of, dval. cbn. rewrite (proj2 (Z.ltb_ge 99 b)), Z.add_0_r by lia. done.
  - destruct (digit_of b c); [|by rewrite Z.add_0_r]. change (-1 <? 0) with true. cbn [orb]. apply cstr_cons in Hl as (_ & _ & Hl).
    unfold load8. destruct (cstr_head m _ _ Hl) as [-> _]. cbn [mbind option_bind length] in *. rewrite IH by (done || lia). f_equal. f_equal. lia.
Qed.

Lemma cutoff_test acc d : 0 <= acc <= max -> 0 <= d < b ->
  (max / b <? acc) || ((acc =? max / b) && (max mod b <? d)) = negb (acc * b + d <=? max).
Proof using Hb.
  intros Ha Hd. pose proof (Z.div_mod max b ltac:(lia)). pose proof (Z.mod_pos_bound max b ltac:(lia)).
  destruct (Z.leb_spec (acc * b + d) max); cbn [negb].
  - apply orb_false_iff. split; [apply Z.ltb_ge; nia|]. destruct (Z.eqb_spec acc (max / b)); [|done]. apply Z.ltb_ge. nia.
  - apply orb_true_iff. destruct (Z.ltb_spec (max / b) acc); [by left|right]. apply andb_true_iff. split; [apply Z.eqb_eq; nia|apply Z.ltb_lt; nia].
Qed.

(** The loop accumulates the digits, and says with [any] whether there were some and whether they fit. *)
Lemma digit_loop_spec l : forall fuel m p acc any, cstr m p l -> (length l < fuel)%nat -> 0 <= acc <= max -> 0 <= any ->
  let ds := take_while (digit_of b) l in
  exists acc', digit_loop fuel m b (max / b) (max mod b) (head_char l) (p + 1) acc any =
      Some (acc', if value_from b acc ds <=? max then (if bool_decide (ds = []) then any else 1) else -1, p + 1 + zlen ds) /\
    (value_from b acc ds <= max -> acc' = value_from b acc ds).
Proof using Hb Hmax.
  induction l as [|c l IH]; intros fuel m p acc any Hl Hf Ha Hany; cbn zeta; destruct (cstr_head m p _ Hl) as [_ Hc]; (destruct fuel; [lia|]);
    rewrite digit_loop_step by (done || lia); cbn [head_char take_while].
  - exists acc. cbn [value_from fold_left length]. rewrite (proj2 (Z.leb_le acc max)), bool_decide_true, Z.add_0_r by (done || lia). split; [|done].
    unfold digit_of, dval. cbn. by rewrite (proj2 (Z.ltb_ge 99 b)) by lia.
  - destruct (digit_of b c) eqn:Ed; [|exists acc; cbn [value_from fold_left length]; rewrite (proj2 (Z.leb_le acc max)), bool_decide_true, Z.add_0_r by (done || lia); done].
    unfold digit_of in Ed. tests. pose proof (dval_range c) as Hd. rewrite (proj2 (Z.ltb_ge any 0)) by lia. cbn [orb]. rewrite cutoff_test by lia.
    apply cstr_cons in Hl as (_ & _ & Hl). destruct (cstr_head m _ _ Hl) as [Hh _]. unfold load8. rewrite bool_decide_false by done.
    cbn [length value_from fold_left] in *. fold (value_from b (acc * b + dval c) (take_while (digit_of b) l)).
    destruct (Z.leb_spec (acc * b + dval c) max); cbn [negb]; rewrite Hh; cbn [mbind option_bind].
    + rewrite (wrap_small 64 (acc * b)), wrap_small by (unfold in_u; nia).
      destruct (IH fuel m (p + 1) (acc * b + dval c) 1 Hl ltac:(lia) ltac:(nia) ltac:(lia)) as (acc' & E & Hv). exists acc'. rewrite E. split; [|done].
      f_equal. f_equal; [|lia]. f_equal. by destruct (_ <=? max), (bool_decide _).
    + rewrite digit_loop_over by (done || lia). exists acc. pose proof (value_from_mono b (take_while (digit_of b) l) ltac:(lia) (acc * b + dval c) ltac:(nia)).
      rewrite (proj2 (Z.leb_gt _ max)) by lia. split; [|lia]. f_equal. f_equal. lia.
Qed.
End Digits.

(** ** From the start of the string *)

(** Where the rest [l'] of a string [l] at [p] is. *)
Definition at_rest (p : Z) (l l' : list Z) : Z := p + (zlen l - zlen l').

Lemma drop_while_suffix p l : exists l0, l = l0 ++ drop_while p l.
Proof. induction l as [|x l [l0 IH]]; cbn; [by exists []|]. destruct (p x); [exists (x :: l0); by rewrite IH at 1|by exists []]. Qed.

Lemma take_drop_while p l : l = take_while p l ++ drop_while p l.
Proof. induction l as [|x l IH]; cbn; [done|]. destruct (p x); cbn; congruence. Qed.

Lemma skip_spaces_spec l : forall fuel m p, cstr m p l -> (length l < fuel)%nat ->
  let l' := drop_while isspace l in skip_spaces fuel m p = Some (head_char l', at_rest p l l' + 1) /\ cstr m (at_rest p l l') l'.
Proof.
  induction l as [|c l IH]; intros fuel m p Hl Hf; (destruct fuel; [lia|]); cbn [skip_spaces drop_while length] in *; unfold load8;
    destruct (cstr_head m p _ Hl) as [-> _]; cbn [mbind option_bind head_char]; unfold at_rest; cbn zeta.
  - rewrite Z.add_0_r. done.
  - destruct (isspace c); [|cbn [head_char length]; by rewrite Z.sub_diag, Z.add_0_r]. apply cstr_cons in Hl as (_ & _ & Hl).
    specialize (IH fuel m (p + 1) Hl ltac:(lia)). cbn zeta in IH. unfold at_rest in IH.
    replace (p + (zlen (c :: l) - zlen (drop_while isspace l))) with (p + 1 + (zlen l - zlen (drop_while isspace l))) by (cbn [length]; lia). done.
Qed.

Lemma sign_spec m p l : cstr m p l ->
  let '(neg, l') := split_sign l in
  sign m (head_char l) (p + 1) = Some (neg, head_char l', at_rest p l l' + 1) /\ cstr m (at_rest p l l') l' /\ (length l' <= length l)%nat.
Proof.
  intros Hl. destruct l as [|c l]; cbn [split_sign head_char]; unfold sign, at_rest; [cbn; rewrite Z.add_0_r; done|].
  pose proof Hl as Hl'. apply cstr_cons in Hl as (_ & _ & Hl). destruct (cstr_head m _ _ Hl) as [Hh _]. unfold load8.
  destruct (c =? 45); [|destruct (c =? 43)]; rewrite ?Hh; cbn [mbind option_bind length head_char]; rewrite ?Z.sub_diag, ?Z.add_0_r;
    replace (p + (Z.of_nat (S (length l)) - zlen l)) with (p + 1) by lia; split; try done; split; try done; lia.
Qed.

Lemma prefix_spec m base p l : cstr m p l -> base = 0 \/ 2 <= base <= 36 ->
  let '(b, l') := split_prefix base l in
  prefix m base (head_char l) (p + 1) = Some (b, head_char l', at_rest p l l' + 1) /\ cstr m (at_rest p l l') l' /\ 2 <= b <= 36 /\ (length l' <= length l)%nat.
Proof.
  intros Hl Hb. assert (Hstay : forall b, 2 <= b <= 36 -> at_rest p l l = p /\ cstr m (at_rest p l l) l /\ 2 <= b <= 36 /\ (length l <= length l)%nat).
  { intros b Hb'. unfold at_rest. rewrite Z.sub_diag, Z.add_0_r. split; [done|]. split; [done|]. lia. }
  assert (Hd : forall c, 2 <= (if base =? 0 then if c =? 48 then 8 else 10 else base) <= 36) by (intros c; repeat case_test; lia).
  destruct l as [|c [|x l]]; cbn [split_prefix head_char]; unfold prefix.
  - rewrite andb_false_r. cbn [mbind option_bind]. destruct (Hstay _ (Hd 0)) as (E & H). rewrite E in *. done.
  - destruct (Hstay _ (Hd c)) as (E & H). rewrite E in *. destruct (cstr_cons m p c []) as [HH _]. destruct (HH Hl) as (_ & _ & Hn). apply cstr_nil in Hn. unfold load8. rewrite Hn.
    destruct (_ && _); done.
  - pose proof Hl as Hl'. apply cstr_cons in Hl as (_ & _ & Hl). apply cstr_cons in Hl as (Hx & _ & Hl). destruct (cstr_head m _ _ Hl) as [Hh _]. unfold load8. rewrite Hx.
    destruct (Hstay _ (Hd c)) as (E & H).
    destruct (((base =? 0) || (base =? 16)) && (c =? 48)); cbn [andb mbind option_bind]; [|rewrite E in *; done].
    destruct ((x =? 120) || (x =? 88)); cbn [mbind option_bind]; [|rewrite E in *; done]. unfold at_rest. cbn [length].
    replace (p + (Z.of_nat (S (S (length l))) - zlen l)) with (p + 1 + 1) by lia. rewrite Hh. cbn. split; [do 2 f_equal; lia|]. split; [done|]. lia.
Qed.

(** What the shared part finds is what the string says. *)
Lemma number_spec fuel m p base max l : cstr m p l -> (length l < fuel)%nat -> base = 0 \/ 2 <= base <= 36 -> (forall neg, 0 <= max neg < 2 ^ 64) ->
  let x := read_number base l in
  exists acc, number fuel m p base max =
      Some (n_neg x, acc, if n_value x <=? max (n_neg x) then (if bool_decide (n_digits x = []) then 0 else 1) else -1, at_rest p l (n_rest x) + 1) /\
    (n_value x <= max (n_neg x) -> acc = n_value x).
Proof.
  intros Hl Hf Hb Hmax. cbn zeta. unfold number, read_number, n_value. pose proof (skip_spaces_spec l fuel m p Hl Hf) as [E1 H1]. cbn zeta in E1, H1. rewrite E1. cbn [mbind option_bind].
  destruct (drop_while_suffix isspace l) as [l0 Hl0]. apply (f_equal length) in Hl0. rewrite length_app in Hl0. set (l1 := drop_while isspace l) in *.
  pose proof (sign_spec m _ _ H1) as H2. destruct (split_sign l1) as [neg l2]. destruct H2 as (E2 & H2 & Hl2). rewrite E2. cbn [mbind option_bind].
  pose proof (prefix_spec m base _ _ H2 Hb) as H3. destruct (split_prefix base l2) as [b l3]. destruct H3 as (E3 & H3 & Hb3 & Hl3). rewrite E3. cbn [mbind option_bind n_neg n_base n_digits n_rest].
  destruct (digit_loop_spec b (max neg) Hb3 (Hmax neg) l3 fuel m _ 0 0 H3 ltac:(lia) ltac:(specialize (Hmax neg); lia) ltac:(lia)) as (acc & E & Hv). rewrite E. cbn [mbind option_bind].
  exists acc. split; [|done]. f_equal. f_equal. unfold at_rest. pose proof (f_equal length (take_drop_while (digit_of b) l3)) as Ht. rewrite length_app in Ht. lia.
Qed.

(** ** The end pointer *)

Lemma le_bytes n : forall w, 0 <= w < 256 ^ Z.of_nat n -> exists bs, length bs = n /\ Forall byte bs /\ le bs = w.
Proof.
  induction n as [|n IH]; intros w Hw; [exists []; cbn in *; split; [done|]; split; [constructor|lia]|].
  rewrite Nat2Z.inj_succ, Z.pow_succ_r in Hw by lia. destruct (IH (w / 256)) as (bs & Hl & Hbs & E).
  { split; [apply Z.div_pos; lia|apply Z.div_lt_upper_bound; lia]. }
  exists (w mod 256 :: bs). cbn. split; [lia|]. split; [constructor; [apply Z.mod_pos_bound; lia|done]|]. rewrite E. pose proof (Z.div_mod w 256). lia.
Qed.

(** [m'] is [m] with the address [e] stored through [endptr], if that is not NULL. *)
Definition end_set (m : mem) (endptr e : Z) (m' : mem) : Prop :=
  if endptr =? 0 then m' = m else load64 m' endptr = Some e /\ forall x, ~ (endptr <= x < endptr + 8) -> m' !! x = m !! x.

Lemma set_end_spec m endptr nptr s any : endptr = 0 \/ mapped m endptr 8 -> 0 <= nptr < 2 ^ 64 -> 0 <= s - 1 < 2 ^ 64 ->
  exists m', set_end m endptr nptr s any = Some m' /\ end_set m endptr (if any =? 0 then nptr else s - 1) m'.
Proof.
  intros He Hn Hs. unfold set_end, end_set. destruct (Z.eqb_spec endptr 0) as [->|Hne]; [by exists m|]. destruct He as [?|He]; [done|].
  destruct (le_bytes 8 (if any =? 0 then nptr else s - 1)) as (bs & Hl & Hbs & E).
  { change (256 ^ Z.of_nat 8) with (2 ^ 64). by destruct (any =? 0). }
  destruct (store_le_spec bs m endptr Hbs) as (m' & Es & Hat & Hf); [rewrite Hl; done|]. rewrite Hl, E in Es. unfold store64. exists m'. split; [done|]. split; [|by rewrite Hl in Hf].
  unfold load64. rewrite <- Hl, (load_bytes_at m' endptr bs Hat). cbn. by rewrite E.
Qed.

(** ** What the conversions return *)

(** The value of a numeral with its sign, and where it ends in a string at [nptr]. *)
Definition n_signed (x : numeral) : Z := if n_neg x then - n_value x else n_value x.
Definition n_end (nptr : Z) (l : list Z) (x : numeral) : Z := if bool_decide (n_digits x = []) then nptr else at_rest nptr l (n_rest x).

Definition clamp (lo hi v : Z) : Z := Z.max lo (Z.min hi v).

Lemma n_value_range x : 2 <= n_base x -> 0 <= n_value x.
Proof. intros H. unfold n_value. apply value_from_mono; lia. Qed.

Lemma read_base base l : base = 0 \/ 2 <= base <= 36 -> 2 <= n_base (read_number base l).
Proof.
  intros Hb. unfold read_number. destruct (split_sign _) as [neg l']. destruct (split_prefix base l') as [b l''] eqn:E. cbn.
  unfold split_prefix in E. destruct l' as [|c [|x l']]; repeat case_test; simplify_eq; lia.
Qed.

Lemma at_rest_range p base l : 0 <= p -> p + zlen l < 2 ^ 64 -> 0 <= at_rest p l (n_rest (read_number base l)) < 2 ^ 64.
Proof.
  intros Hp Hl. assert (H : (length (n_rest (read_number base l)) <= length l)%nat); [|unfold at_rest; lia].
  unfold read_number. destruct (split_sign _) as [neg l1] eqn:E1. destruct (split_prefix base l1) as [b l2] eqn:E2. cbn.
  destruct (drop_while_suffix isspace l) as [l0 H0]. destruct (drop_while_suffix (digit_of b) l2) as [l3 H3].
  apply (f_equal length) in H0, H3. rewrite length_app in H0, H3.
  assert (length l1 <= length (drop_while isspace l))%nat by (unfold split_sign in E1; destruct (drop_while isspace l); repeat case_test; simplify_eq; cbn; lia).
  assert (length l2 <= length l1)%nat by (unfold split_prefix in E2; destruct l1 as [|? [|? ?]]; repeat case_test; simplify_eq; cbn; lia). lia.
Qed.

Lemma bad_base_false base : base = 0 \/ 2 <= base <= 36 -> bad_base base = false.
Proof. intros H. unfold bad_base. repeat (apply orb_false_iff; split); [apply Z.ltb_ge|apply Z.eqb_neq|apply Z.ltb_ge]; lia. Qed.

Lemma over_digits max x : 0 <= max -> max < n_value x -> n_digits x <> [].
Proof. intros H0 H E. unfold n_value in H. rewrite E in H. cbn in H. lia. Qed.

Section Convert.
Context (fuel : nat) (m : mem) (errno nptr endptr base : Z) (l : list Z).
Context (Hl : cstr m nptr l) (Hf : (length l < fuel)%nat) (Hb : base = 0 \/ 2 <= base <= 36).
Context (Hn : 0 <= nptr) (Hl64 : nptr + zlen l < 2 ^ 64) (He : endptr = 0 \/ mapped m endptr 8).

Lemma set_end_number (over : bool) : let x := read_number base l in
  (over = true -> n_digits x <> []) ->
  exists m', set_end m endptr nptr (at_rest nptr l (n_rest x) + 1) (if over then -1 else if bool_decide (n_digits x = []) then 0 else 1) = Some m' /\
    end_set m endptr (n_end nptr l x) m'.
Proof using Hn Hl64 He Hf.
  cbn zeta. intros Hov. pose proof (at_rest_range nptr base l Hn Hl64) as Hr.
  destruct (set_end_spec m endptr nptr (at_rest nptr l (n_rest (read_number base l)) + 1) (if over then -1 else if bool_decide (n_digits (read_number base l) = []) then 0 else 1)) as (m' & E & H); [done|lia|lia|].
  exists m'. split; [done|]. rewrite Z.add_simpl_r in H. unfold n_end. destruct over; [rewrite bool_decide_false by auto; done|]. by destruct (bool_decide _).
Qed.

Lemma strtoul_spec : let x := read_number base l in
  exists m', strtoul fuel m errno nptr endptr base =
      Some (if n_value x <=? ULONG_MAX then u64 (n_signed x) else ULONG_MAX, if n_value x <=? ULONG_MAX then errno else ERANGE, m') /\
    end_set m endptr (n_end nptr l x) m'.
Proof using Hl Hf Hb Hn Hl64 He.
  cbn zeta. unfold strtoul. rewrite bad_base_false by done.
  destruct (number_spec fuel m nptr base (fun _ => ULONG_MAX) l Hl Hf Hb) as (acc & E & Hv); [intros _; by vm_compute|]. rewrite E. cbn [mbind option_bind]. cbv beta in *.
  destruct (set_end_number (negb (n_value (read_number base l) <=? ULONG_MAX))) as (m' & Es & Hs).
  { intros H. tests. eapply over_digits; [|done]. by vm_compute. }
  exists m'. pose proof (n_value_range _ (read_base base l Hb)). unfold n_signed.
  destruct (Z.leb_spec (n_value (read_number base l)) ULONG_MAX); cbn [negb] in *.
  - rewrite (proj2 (Z.ltb_ge _ 0)) by (destruct (bool_decide _); lia). rewrite Es. cbn [mbind option_bind]. split; [|done]. rewrite Hv by done. do 3 f_equal.
    destruct (n_neg _); [done|]. by rewrite wrap_small by (unfold in_u, ULONG_MAX in *; lia).
  - change (-1 <? 0) with true. cbn iota. rewrite Es. done.
Qed.

Lemma strtol_spec : let x := read_number base l in
  exists m', strtol fuel m errno nptr endptr base =
      Some (clamp LONG_MIN LONG_MAX (n_signed x), if (LONG_MIN <=? n_signed x) && (n_signed x <=? LONG_MAX) then errno else ERANGE, m') /\
    end_set m endptr (n_end nptr l x) m'.
Proof using Hl Hf Hb Hn Hl64 He.
  cbn zeta. unfold strtol. rewrite bad_base_false by done.
  set (max := fun neg : bool => if neg then u64 (LONG_MAX - u64 (LONG_MIN + LONG_MAX)) else LONG_MAX).
  assert (Emax : forall neg : bool, max neg = if neg then 2 ^ 63 else 2 ^ 63 - 1) by (by intros []).
  destruct (number_spec fuel m nptr base max l Hl Hf Hb) as (acc & E & Hv); [intros neg; rewrite Emax; destruct neg; lia|]. rewrite E. cbn [mbind option_bind].
  destruct (set_end_number (negb (n_value (read_number base l) <=? max (n_neg (read_number base l))))) as (m' & Es & Hs).
  { intros H. tests. eapply over_digits; [|done]. rewrite Emax. destruct (n_neg _); lia. }
  exists m'. pose proof (n_value_range _ (read_base base l Hb)). unfold n_signed, clamp. rewrite Emax in *. unfold LONG_MIN, LONG_MAX.
  destruct (n_neg (read_number base l)); [destruct (Z.leb_spec (n_value (read_number base l)) (2 ^ 63))|destruct (Z.leb_spec (n_value (read_number base l)) (2 ^ 63 - 1))]; cbn [negb] in *.
  - rewrite (proj2 (Z.ltb_ge _ 0)) by (destruct (bool_decide _); lia). rewrite Es. cbn [mbind option_bind]. split; [|done]. rewrite Hv by done.
    rewrite (proj2 (Z.leb_le _ _)), (proj2 (Z.leb_le _ _)) by lia. cbn [andb]. do 3 f_equal. unfold sext. rewrite wrap_wrap by lia. unfold wrap.
    destruct (decide (n_value (read_number base l) = 0)) as [->|Hnz]; [by vm_compute|]. rewrite Z.mod_opp_l_nz, Z.mod_small by (rewrite ?Z.mod_small; lia).
    destruct (Z.ltb_spec (2 ^ 64 - n_value (read_number base l)) (2 ^ (64 - 1))); lia.
  - change (-1 <? 0) with true. cbn iota. rewrite Es. cbn [mbind option_bind]. split; [|done]. rewrite (proj2 (Z.leb_gt _ _)) by lia. cbn [andb]. do 3 f_equal.
    rewrite Z.max_l by lia. by vm_compute.
  - rewrite (proj2 (Z.ltb_ge _ 0)) by (destruct (bool_decide _); lia). rewrite Es. cbn [mbind option_bind]. split; [|done]. rewrite Hv by done.
    rewrite (proj2 (Z.leb_le _ _)) by lia. cbn [andb]. do 3 f_equal. rewrite sext_small by lia. lia.
  - change (-1 <? 0) with true. cbn iota. rewrite Es. cbn [mbind option_bind]. split; [|done]. rewrite andb_false_r. do 3 f_equal.
    rewrite Z.max_r, Z.min_l by lia. by vm_compute.
Qed.
End Convert.

(** A number that fits is itself as a two's complement integer. *)
Lemma sext_id w v : 0 < w -> - 2 ^ (w - 1) <= v < 2 ^ (w - 1) -> sext w v = v.
Proof.
  intros Hw Hv. assert (E : 2 ^ w = 2 * 2 ^ (w - 1)) by (rewrite <- Z.pow_succ_r by lia; f_equal; lia). unfold sext, wrap.
  destruct (decide (0 <= v)).
  - rewrite Z.mod_small, (proj2 (Z.ltb_lt _ _)) by lia. done.
  - rewrite <- (Z_mod_plus_full v 1), Z.mod_small, (proj2 (Z.ltb_ge _ _)) by lia. lia.
Qed.

(** C32: [strtoul], [strtol] and [atoi] (and their [long long] twins) read what a string says: after spaces
    an optional sign, a prefix for the bases 0 and 16, and the longest run of digits of the base.  The
    result is the number with its sign, modulo 2^64 for the unsigned ones; for [strtoul] and [strtol]
    a number that does not fit gives the nearest limit and ERANGE, otherwise [errno] is left alone.
    [atoi] gives the nearest limit of an [int], but sets ERANGE only for a number that does not
    fit into a [long]: 3000000000 becomes INT_MAX with [errno] as it was.  The
    end of the digits, or the start of the string if there are none, is stored through [endptr], and
    nothing else is written. *)
Theorem strto_correct fuel m errno nptr endptr base l :
  cstr m nptr l -> (length l < fuel)%nat -> base = 0 \/ 2 <= base <= 36 -> 0 <= nptr -> nptr + zlen l < 2 ^ 64 -> endptr = 0 \/ mapped m endptr 8 ->
  let x := read_number base l in
  (exists m', strtoul fuel m errno nptr endptr base =
      Some (if n_value x <=? ULONG_MAX then u64 (n_signed x) else ULONG_MAX, if n_value x <=? ULONG_MAX then errno else ERANGE, m') /\
    end_set m endptr (n_end nptr l x) m') /\
  (exists m', strtol fuel m errno nptr endptr base =
      Some (clamp LONG_MIN LONG_MAX (n_signed x), if (LONG_MIN <=? n_signed x) && (n_signed x <=? LONG_MAX) then errno else ERANGE, m') /\
    end_set m endptr (n_end nptr l x) m') /\
  (let z := n_signed (read_number 10 l) in atoi fuel m errno nptr =
     Some (clamp I_MIN I_MAX z, if (LONG_MIN <=? z) && (z <=? LONG_MAX) then errno else ERANGE, m)).
Proof.
  intros Hl Hf Hb Hn Hl64 He. cbn zeta. split; [by apply strtoul_spec|]. split; [by apply strtol_spec|].
  destruct (strtol_spec fuel m errno nptr 0 10 l Hl Hf ltac:(lia) Hn Hl64 ltac:(by left)) as (m' & E & ->). unfold atoi, strtoll. rewrite E. cbn [mbind option_bind].
  do 3 f_equal. unfold clamp, I_MIN, I_MAX, LONG_MIN, LONG_MAX. set (v := n_signed _).
  destruct (Z.ltb_spec 2147483647 (Z.max (- (2 ^ 63 - 1) - 1) (Z.min (2 ^ 63 - 1) v))).
  - rewrite Z.max_r, Z.min_l by lia. by vm_compute.
  - case_test; tests; [rewrite Z.max_l by lia; by vm_compute|]. rewrite (Z.min_r _ v), (Z.max_r _ v), (Z.min_r _ v), (Z.max_r _ v) by lia.
    apply sext_id; lia.
Qed.

(** " -0x7fz" at 100, and room for a pointer at 200. *)
Definition text : list Z := [32; 45; 48; 120; 55; 102; 122].
Definition text_mem : mem := mem_of 100 (text ++ [0]) ∪ mem_of 200 (replicate 8 0).

Lemma strto_correct_witness : exists m' m'', strtol 10 text_mem 0 100 200 0 = Some (-127, 0, m') /\ load64 m' 200 = Some 106 /\
  strtoul 10 text_mem 0 100 200 0 = Some (2 ^ 64 - 127, 0, m'') /\ atoi 10 text_mem 0 100 = Some (0, 0, text_mem).
Proof.
  destruct (strto_correct 10 text_mem 0 100 200 0 text) as [(m'' & E1 & _) [(m' & E2 & H2) E3]].
  - apply cstrb_ok. by vm_compute.
  - cbn. lia.
  - by left.
  - lia.
  - cbn. lia.
  - right. apply mappedb_ok. by vm_compute.
  - exists m', m''. split; [rewrite E2; do 3 f_equal|]. split; [exact (proj1 H2)|]. split; [rewrite E1; do 3 f_equal|]. rewrite E3. do 3 f_equal.
Defined.

(** ** Printing and reading *)

Lemma digits_value fuel : forall n acc, 0 <= n < 10 ^ Z.of_nat fuel -> (0 < fuel)%nat -> value_from 10 0 (digits fuel n acc) = value_from 10 n acc.
Proof.
  induction fuel as [|fuel IH]; intros n acc Hn Hf; [lia|]. cbn [digits]. pose proof (Z.mod_pos_bound n 10 ltac:(lia)). pose proof (Z.div_mod n 10 ltac:(lia)).
  assert (Hd : dval (48 + n mod 10) = n mod 10) by (unfold dval; rewrite (proj2 (Z.leb_le _ _)), (proj2 (Z.leb_le _ _)) by lia; cbn; lia).
  rewrite Nat2Z.inj_succ, Z.pow_succ_r in Hn by lia. case_test; tests.
  - cbn [value_from fold_left]. rewrite Hd. unfold value_from. f_equal. lia.
  - assert (fuel <> 0%nat) by (intros ->; cbn in Hn; pose proof (Z.div_small n 10); lia).
    rewrite IH by (split; [apply Z.div_pos; lia|apply Z.div_lt_upper_bound; lia] || lia). cbn [value_from fold_left]. rewrite Hd. unfold value_from. f_equal. lia.
Qed.

Lemma digits_nonempty fuel n acc : (0 < fuel)%nat -> digits fuel n acc <> [].
Proof.
  intros Hf. assert (H : forall f n acc, acc <> [] -> digits f n acc <> []); [|destruct fuel; [lia|]; cbn; case_test; [done|by apply H]].
  intros f. induction f as [|f IH]; intros n' acc' H; cbn; [done|]. case_test; [done|]. by apply IH.
Qed.

Lemma take_while_all p l : Forall (fun x => p x = true) l -> take_while p l = l /\ drop_while p l = [].
Proof. induction 1 as [|x l Hx Hl [IH1 IH2]]; cbn; [done|]. rewrite Hx, IH1. done. Qed.

Lemma read_digits ds : Forall (fun b => 48 <= b < 58) ds -> ds <> [] -> read_number 10 ds = Numeral false 10 ds [] /\ read_number 10 (45 :: ds) = Numeral true 10 ds [].
Proof.
  intros Hd Hne. destruct (take_while_all (digit_of 10) ds) as [Et Ed].
  { eapply Forall_impl; [exact Hd|]. cbn. intros b Hb. unfold digit_of, dval. rewrite (proj2 (Z.leb_le _ _)), (proj2 (Z.leb_le _ _)) by lia. cbn. apply Z.ltb_lt. lia. }
  assert (Hp : split_prefix 10 ds = (10, ds)) by (by destruct ds as [|c [|x ds]]). unfold read_number. split; [|change (drop_while isspace (45 :: ds)) with (45 :: ds); cbn [split_sign]; change (45 =? 45) with true; cbn iota; by rewrite Hp, Et, Ed].
  destruct ds as [|d ds]; [done|]. apply Forall_cons in Hd as [Hd _].
  assert (Hs : isspace d = false). { assert (E : (implb ((48 <=? d) && (d <? 58)) (negb (isspace d))) = true) by (apply (byte_forall (fun d => implb ((48 <=? d) && (d <? 58)) (negb (isspace d)))); [by vm_compute|unfold byte; lia]).
    rewrite (proj2 (Z.leb_le _ _)), (proj2 (Z.ltb_lt _ _)) in E by lia. by apply negb_true_iff. }
  cbn [drop_while]. rewrite Hs. cbn [split_sign]. rewrite (proj2 (Z.eqb_neq d 45)), (proj2 (Z.eqb_neq d 43)) by lia. by rewrite Hp, Et, Ed.
Qed.

(** Reading what "%d" prints gives the number back. *)
Theorem atoi_roundtrip fuel m errno s z :
  I_MIN <= z <= I_MAX -> cstr m s (fmt_d z) -> (length (fmt_d z) < fuel)%nat -> 0 <= s -> s + zlen (fmt_d z) < 2 ^ 64 ->
  exists errno', atoi fuel m errno s = Some (z, errno', m).
Proof.
  intros Hz Hc Hf Hs Hl. destruct (strtol_spec fuel m errno s 0 10 _ Hc Hf ltac:(lia) Hs Hl ltac:(by left)) as (m' & E & ->).
  assert (Hv : n_signed (read_number 10 (fmt_d z)) = z).
  { unfold I_MIN, I_MAX in Hz. unfold fmt_d. case_test; tests; (destruct (read_digits (digits 10 (Z.abs z) [])) as [E1 E2]; [apply digits_head_ge; [lia|constructor]|apply digits_nonempty; lia|]);
      [rewrite Z.abs_neq in * by lia; rewrite E2|rewrite Z.abs_eq in * by lia; rewrite E1]; unfold n_signed, n_value; cbn [n_neg n_base n_digits]; rewrite digits_value by lia; cbn [value_from fold_left]; lia. }
  unfold atoi, strtoll. rewrite E, Hv. cbn [mbind option_bind]. eexists. do 3 f_equal. unfold clamp, I_MIN, I_MAX, LONG_MIN, LONG_MAX in *.
  cbn zeta. rewrite (Z.min_r _ z), (Z.max_r _ z) by lia. rewrite (proj2 (Z.ltb_ge _ z)) by lia. rewrite (proj2 (Z.ltb_ge z _)) by lia. apply sext_id; lia.
Qed.

(** "0xg" says 0 with base 0, but its prefix without digits hides that, and nothing is converted. *)
Theorem prefix_without_digits : (fun x => load64 x.2 200) <$> strtol 10 (mem_of 100 [48; 120; 103; 0] ∪ mem_of 200 (replicate 8 7)) 0 100 200 0 = Some (Some 100) /\
  (fun x => load64 x.2 200) <$> strtol 10 (mem_of 100 [48; 121; 103; 0] ∪ mem_of 200 (replicate 8 7)) 0 100 200 0 = Some (Some 101).
Proof. by vm_compute. Qed.

(** A base out of range sets a negative [errno]. *)
Theorem bad_base_errno m errno nptr base : bad_base base = true -> strtol 0 m errno nptr 0 base = Some (0, - EINVAL, m).
Proof. intros H. unfold strtol. by rewrite H. Qed.
End Strto.
