(* ===== verification/Qsort.v ===== *)
(** * Qsort: sorting in place

    [lib/nolibc/qsort.c], the sort of Bentley and McIlroy, on the bytes of [Mem]: elements of [es] bytes
    are exchanged by words or by bytes, a median of up to nine is the pivot, the partition gathers the
    elements equal to it at both ends, short or nearly sorted arrays are sorted by insertion.
    The comparison is the caller's function. *)
From Stdlib Require Import ZArith Lia Bool Sorting.Sorted.
From stdpp Require Import gmap.
From S2P Require Import Prelude Mem NolibcString.
Open Scope Z_scope.

Module Qsort.
Import Nolibc.

(** ** Exchanging memory *)

(** One pass of [swapcode], for the types [long] and [char]. *)
Definition swap_unit (long : bool) (m : mem) (pi pj : Z) : option mem :=
  if long then t ← load64 m pi; x ← load64 m pj; m ← store64 m pi x; store64 m pj t
  else t ← load8 m pi; x ← load8 m pj; m ← store8 m pi x; store8 m pj t.

Definition unit_size (long : bool) : Z := if long then 8 else 1.

Fixpoint swapcode_loop (i : nat) (long : bool) (m : mem) (pi pj : Z) : option mem :=
  match i with
  | O => Some m
  | S i' => m ← swap_unit long m pi pj; swapcode_loop i' long m (pi + unit_size long) (pj + unit_size long)
  end.

(** The loop is left when [--i > 0] fails, so that it runs at least once. *)
Definition swapcode (long : bool) (m : mem) (pi pj n : Z) : option mem := swapcode_loop (Z.to_nat (Z.max 1 (n / unit_size long))) long m pi pj.

Definition swapfunc (m : mem) (a b n swaptype : Z) : option mem := swapcode (swaptype <=? 1) m a b n.

Section Qsort.
(** The size of an element, and the caller's comparison of two elements. *)
Context (es : Z) (cmp : list Z -> list Z -> Z).

Definition SWAPINIT (a : Z) : Z := if negb (a mod 8 =? 0) || negb (es mod 8 =? 0) then 2 else if es =? 8 then 0 else 1.

Definition swap (swaptype : Z) (m : mem) (a b : Z) : option mem :=
  if swaptype =? 0 then swap_unit true m a b else swapfunc m a b (sext 32 es) swaptype.

Definition vecswap (swaptype : Z) (m : mem) (a b n : Z) : option mem := if 0 <? n then swapfunc m a b n swaptype else Some m.

Definition compare (m : mem) (p q : Z) : option Z := x ← load_bytes m p (Z.to_nat es); y ← load_bytes m q (Z.to_nat es); Some (cmp x y).

Definition med3 (m : mem) (a b c : Z) : option Z :=
  ab ← compare m a b; bc ← compare m b c;
  if ab <? 0 then (if bc <? 0 then Some b else ac ← compare m a c; Some (if ac <? 0 then c else a))
  else (if 0 <? bc then Some b else ac ← compare m a c; Some (if ac <? 0 then a else c)).

(** ** Insertion *)

Fixpoint sift (fuel : nat) (swaptype : Z) (m : mem) (a pl : Z) : option mem :=
  match fuel with
  | O => None
  | S fuel' =>
      if negb (a <? pl) then Some m else
      r ← compare m (pl - es) pl;
      if negb (0 <? r) then Some m else
      m ← swap swaptype m pl (pl - es);
      sift fuel' swaptype m a (pl - es)
  end.

Fixpoint insertion (fuel : nat) (swaptype : Z) (m : mem) (a n pm : Z) : option mem :=
  match fuel with
  | O => None
  | S fuel' =>
      if negb (pm <? a + n * es) then Some m else
      m ← sift (S (Z.to_nat n)) swaptype m a pm;
      insertion fuel' swaptype m a n (pm + es)
  end.

(** ** Partition *)

Fixpoint scan_up (fuel : nat) (swaptype : Z) (m : mem) (a pa pb pc swap_cnt : Z) : option (mem * Z * Z * Z) :=
  match fuel with
  | O => None
  | S fuel' =>
      if negb (pb <=? pc) then Some (m, pa, pb, swap_cnt) else
      r ← compare m pb a;
      if negb (r <=? 0) then Some (m, pa, pb, swap_cnt) else
      if r =? 0 then m ← swap swaptype m pa pb; scan_up fuel' swaptype m a (pa + es) (pb + es) pc 1
      else scan_up fuel' swaptype m a pa (pb + es) pc swap_cnt
  end.

Fixpoint scan_down (fuel : nat) (swaptype : Z) (m : mem) (a pb pc pd swap_cnt : Z) : option (mem * Z * Z * Z) :=
  match fuel with
  | O => None
  | S fuel' =>
      if negb (pb <=? pc) then Some (m, pc, pd, swap_cnt) else
      r ← compare m pc a;
      if negb (0 <=? r) then Some (m, pc, pd, swap_cnt) else
      if r =? 0 then m ← swap swaptype m pc pd; scan_down fuel' swaptype m a pb (pc - es) (pd - es) 1
      else scan_down fuel' swaptype m a pb (pc - es) pd swap_cnt
  end.

Fixpoint partition (fuel : nat) (swaptype : Z) (m : mem) (a pa pb pc pd swap_cnt : Z) : option (mem * Z * Z * Z * Z * Z) :=
  match fuel with
  | O => None
  | S fuel' =>
      '(m, pa, pb, swap_cnt) ← scan_up (S fuel') swaptype m a pa pb pc swap_cnt;
      '(m, pc, pd, swap_cnt) ← scan_down (S fuel') swaptype m a pb pc pd swap_cnt;
      if pc <? pb then Some (m, pa, pb, pc, pd, swap_cnt) else
      m ← swap swaptype m pb pc;
      partition fuel' swaptype m a pa (pb + es) (pc - es) pd 1
  end.

(** The element to use as the pivot. *)
Definition choose (m : mem) (a n : Z) : option Z :=
  let pm := a + (n / 2) * es in
  if 7 <? n then
    let pl := a in
    let pn := a + (n - 1) * es in
    '(pl, pm, pn) ← (if 40 <? n then
      let d := sext 32 ((n / 8) * es) in
      pl ← med3 m pl (pl + d) (pl + 2 * d);
      pm ← med3 m (pm - d) pm (pm + d);
      pn ← med3 m (pn - 2 * d) (pn - d) pn;
      Some (pl, pm, pn)
    else Some (pl, pm, pn));
    med3 m pl pm pn
  else Some pm.

(** The jump back to [loop] is a call with the rest of the array. *)
Fixpoint qsort (fuel : nat) (m : mem) (a n : Z) : option mem :=
  match fuel with
  | O => None
  | S fuel' =>
      let swaptype := SWAPINIT a in
      if n <? 7 then insertion (S (Z.to_nat n)) swaptype m a n (a + es) else
      pm ← choose m a n;
      m ← swap swaptype m a pm;
      let pd := a + (n - 1) * es in
      '(m, pa, pb, pc, pd, swap_cnt) ← partition (S (Z.to_nat n)) swaptype m a (a + es) (a + es) pd pd 0;
      if swap_cnt =? 0 then insertion (S (Z.to_nat n)) swaptype m a n (a + es) else
      let pn := a + n * es in
      let r := sext 32 (Z.min (pa - a) (pb - pa)) in
      m ← vecswap swaptype m a (pb - r) r;
      let r := sext 32 (Z.min (pd - pc) (pn - pd - sext 32 es)) in
      m ← vecswap swaptype m pb (pn - r) r;
      let r := sext 32 (pb - pa) in
      m ← (if sext 32 es <? r then qsort fuel' m a (r / es) else Some m);
      let r := sext 32 (pd - pc) in
      if sext 32 es <? r then qsort fuel' m (pn - r) (r / es) else Some m
  end.
End Qsort.

(** ** Exchanging blocks of bytes *)

(** [m'] is [m] up to the bytes from [a] to [b]. *)
Definition only (a b : Z) (m m' : mem) : Prop := forall x, ~ (a <= x < b) -> m' !! x = m !! x.

Lemma only_refl a b m : only a b m m.
Proof. by intros x Hx. Qed.

Lemma only_trans a b m1 m2 m3 : only a b m1 m2 -> only a b m2 m3 -> only a b m1 m3.
Proof. intros H1 H2 x Hx. by rewrite H2, H1. Qed.

Lemma only_mono a b a' b' m m' : only a b m m' -> a' <= a -> b <= b' -> only a' b' m m'.
Proof. intros H Ha Hb x Hx. apply H. lia. Qed.

(** Bytes that a change leaves alone. *)
Lemma bytes_at_agree m m' p l : bytes_at m p l -> (forall x, p <= x < p + zlen l -> m' !! x = m !! x) -> bytes_at m' p l.
Proof. intros H Hag i x Hi. rewrite Hag by (apply lookup_lt_Some in Hi; lia). by apply H. Qed.

Lemma bytes_at_mapped m p l : bytes_at m p l -> mapped m p (zlen l).
Proof.
  intros H x Hx. destruct (lookup_lt_is_Some_2 l (Z.to_nat (x - p)) ltac:(lia)) as [y Hy]. exists y. specialize (H _ _ Hy). rewrite Z2Nat.id in H by lia.
  by replace (p + (x - p)) with x in H by lia.
Qed.

(** The blocks [x] at [p] and [y] at [q] have changed places. *)
Definition exchanged (m m' : mem) (p q : Z) (x y : list Z) : Prop :=
  bytes_at m' p y /\ bytes_at m' q x /\ forall z, ~ (p <= z < p + zlen x) -> ~ (q <= z < q + zlen y) -> m' !! z = m !! z.

(** Two blocks of one length that are apart, or the same. *)
Definition apart (p q n : Z) : Prop := p + n <= q \/ q + n <= p \/ p = q.

Lemma bytes_at_inj m p x y : bytes_at m p x -> bytes_at m p y -> length x = length y -> x = y.
Proof.
  intros Hx Hy Hl. apply list_eq_same_length with (length x); [done|done|]. intros i a b Hi Ha Hb. specialize (Hx _ _ Ha). specialize (Hy _ _ Hb). congruence.
Qed.

Lemma exchange_stores m m1 m2 p q x y : bytes_at m p x -> bytes_at m q y -> length x = length y -> apart p q (zlen x) ->
  bytes_at m1 p y -> (forall z, ~ (p <= z < p + zlen y) -> m1 !! z = m !! z) -> bytes_at m2 q x -> (forall z, ~ (q <= z < q + zlen x) -> m2 !! z = m1 !! z) ->
  exchanged m m2 p q x y.
Proof.
  intros Hx Hy Hl Hap H1 F1 H2 F2. split; [|split; [done|intros z Hz1 Hz2; rewrite F2, F1 by lia; done]].
  destruct Hap as [Hap|[Hap| ->]]; [apply (bytes_at_agree m1); [done|]; intros z Hz; apply F2; lia..|].
  by rewrite <- (bytes_at_inj m q x y Hx Hy Hl).
Qed.

Lemma swap_unit_spec long m p q x y : bytes_at m p x -> bytes_at m q y -> Forall byte x -> Forall byte y -> zlen x = unit_size long -> zlen y = unit_size long -> apart p q (zlen x) ->
  exists m', swap_unit long m p q = Some m' /\ exchanged m m' p q x y.
Proof.
  intros Hx Hy Bx By Lx Ly Hap. destruct long; cbn [unit_size] in *; unfold swap_unit.
  - assert (Ex : length x = 8%nat) by lia. assert (Ey : length y = 8%nat) by lia.
    unfold load64. pose proof (load_bytes_at _ _ _ Hx) as E1. pose proof (load_bytes_at _ _ _ Hy) as E2. rewrite Ex in E1. rewrite Ey in E2. rewrite E1, E2. cbn [mbind option_bind].
    destruct (store_le_spec y m p By) as (m1 & S1 & H1 & F1); [rewrite Ly, <- Lx; by apply bytes_at_mapped|]. unfold store64. rewrite Ey in S1. rewrite S1. cbn [mbind option_bind].
    destruct (store_le_spec x m1 q Bx) as (m2 & S2 & H2 & F2).
    { intros z Hz. destruct (decide (p <= z < p + zlen y)) as [Hz'|Hz']; [by apply (bytes_at_mapped _ _ _ H1)|]. rewrite F1 by done. apply (bytes_at_mapped _ _ _ Hy). lia. }
    rewrite Ex in S2. rewrite S2. exists m2. split; [done|]. eapply exchange_stores; try done. lia.
  - destruct x as [|b [|]], y as [|c [|]]; try done; try (cbn in *; lia). apply bytes_at_cons in Hx as [Hp Hx], Hy as [Hq Hy]. unfold load8. rewrite Hp, Hq. cbn [mbind option_bind].
    apply Forall_cons in Bx as [Bb _], By as [Bc _]. rewrite store8_byte by (done || eauto). cbn [mbind option_bind]. rewrite store8_byte; [|destruct (decide (p = q)) as [->|]; [rewrite lookup_insert_eq|rewrite lookup_insert_ne by done]; eauto|done].
    eexists. split; [done|]. apply (exchange_stores m (<[p := c]> m)); try (by apply bytes_at_cons); try done.
    + apply bytes_at_cons. split; [apply lookup_insert_eq|by intros i z Hi].
    + cbn. intros z Hz. apply lookup_insert_ne. lia.
    + apply bytes_at_cons. split; [apply lookup_insert_eq|by intros i z Hi].
    + cbn. intros z Hz. apply lookup_insert_ne. lia.
Qed.

Lemma exchanged_app m m1 m2 p q x y x' y' : length x = length y -> length x' = length y' -> apart p q (zlen (x ++ x')) ->
  exchanged m m1 p q x y -> exchanged m1 m2 (p + zlen x) (q + zlen x) x' y' -> exchanged m m2 p q (x ++ x') (y ++ y').
Proof.
  intros Hl Hl' Hap (A1 & A2 & A3) (B1 & B2 & B3). rewrite length_app in Hap. unfold apart in Hap.
  split; [apply bytes_at_app; split; [apply (bytes_at_agree m1); [done|]; intros z Hz; apply B3; lia|by rewrite <- Hl]|].
  split; [apply bytes_at_app; split; [apply (bytes_at_agree m1); [done|]; intros z Hz; apply B3; lia|done]|].
  rewrite !length_app. intros z Hz1 Hz2. rewrite B3, A3 by lia. done.
Qed.

Lemma cut {A} (l : list A) n : (n <= length l)%nat -> exists l1 l2, l = l1 ++ l2 /\ length l1 = n.
Proof. intros H. exists (take n l), (drop n l). rewrite take_drop, length_take. split; [done|lia]. Qed.

Lemma swapcode_loop_spec long i : forall m p q x y, bytes_at m p x -> bytes_at m q y -> Forall byte x -> Forall byte y ->
  zlen x = Z.of_nat i * unit_size long -> zlen y = Z.of_nat i * unit_size long -> apart p q (zlen x) ->
  exists m', swapcode_loop i long m p q = Some m' /\ exchanged m m' p q x y.
Proof.
  set (u := Z.to_nat (unit_size long)). assert (Hu : unit_size long = Z.of_nat u /\ (0 < u)%nat) by (unfold u; destruct long; cbn; lia). destruct Hu as [Eu Hu].
  induction i as [|i IH]; intros m p q x y Hx Hy Bx By Lx Ly Hap; cbn [swapcode_loop].
  { destruct x, y; cbn in *; try lia. exists m. split; [done|]. split; [done|]. split; [done|]. done. }
  assert (Lu : (u <= length x /\ u <= length y)%nat) by nia.
  destruct (cut x u (proj1 Lu)) as (x1 & x2 & -> & Lx1). destruct (cut y u (proj2 Lu)) as (y1 & y2 & -> & Ly1). clear Lu.
  rewrite !length_app in *. apply Forall_app in Bx as [Bx1 Bx2], By as [By1 By2]. apply bytes_at_app in Hx as [Hx1 Hx2], Hy as [Hy1 Hy2]. unfold apart in Hap.
  destruct (swap_unit_spec long m p q x1 y1) as (m1 & E1 & X1); try done; try lia; [unfold apart; lia|]. rewrite E1. cbn [mbind option_bind]. pose proof X1 as (_ & _ & F1).
  destruct (IH m1 (p + zlen x1) (q + zlen x1) x2 y2) as (m2 & E2 & X2); try done; try nia.
  - apply (bytes_at_agree m); [done|]. intros z Hz. apply F1; nia.
  - rewrite Lx1, <- Ly1. apply (bytes_at_agree m); [done|]. intros z Hz. apply F1; nia.
  - unfold apart. lia.
  - rewrite Lx1, <- Eu in E2. exists m2. split; [done|]. eapply exchanged_app; try done; [lia|nia|]. unfold apart. rewrite length_app. lia.
Qed.

Lemma swapfunc_spec m p q n swaptype x y : bytes_at m p x -> bytes_at m q y -> Forall byte x -> Forall byte y -> zlen x = n -> zlen y = n -> 0 < n ->
  (swaptype <= 1 -> n mod 8 = 0) -> apart p q n -> exists m', swapfunc m p q n swaptype = Some m' /\ exchanged m m' p q x y.
Proof.
  intros Hx Hy Bx By Lx Ly Hn Hal Hap. unfold swapfunc, swapcode. subst n.
  assert (E : Z.of_nat (Z.to_nat (Z.max 1 (zlen x / unit_size (swaptype <=? 1)))) * unit_size (swaptype <=? 1) = zlen x).
  { destruct (Z.leb_spec swaptype 1); cbn [unit_size]; [|rewrite Z.div_1_r; lia]. specialize (Hal ltac:(lia)). pose proof (Z.div_mod (zlen x) 8). lia. }
  apply swapcode_loop_spec; try done; by rewrite E.
Qed.

(** ** Arrays of elements *)

Section Array.
Context (es : Z) (cmp : list Z -> list Z -> Z) (Hes : 0 < es).

Definition element (x : list Z) : Prop := zlen x = es /\ Forall byte x.

(** The array [xs] is at [a]. *)
Definition holds (m : mem) (a : Z) (xs : list (list Z)) : Prop := bytes_at m a (concat xs) /\ Forall element xs.

(** Its size in bytes. *)
Definition sz (xs : list (list Z)) : Z := zlen (concat xs).

Lemma sz_app xs ys : sz (xs ++ ys) = sz xs + sz ys.
Proof using. unfold sz. rewrite concat_app, length_app. lia. Qed.

Lemma sz_cons x xs : element x -> sz (x :: xs) = es + sz xs.
Proof using. intros [Hx _]. unfold sz. cbn [concat]. rewrite length_app. lia. Qed.

Lemma sz_elements xs : Forall element xs -> sz xs = es * zlen xs.
Proof using. induction 1 as [|x xs Hx Hxs IH]; [change (0 = es * 0); lia|]. rewrite sz_cons by done. cbn [length]. nia. Qed.

Lemma sz_nonneg xs : 0 <= sz xs.
Proof using. unfold sz. lia. Qed.

Lemma holds_app m a xs ys : holds m a (xs ++ ys) <-> holds m a xs /\ holds m (a + sz xs) ys.
Proof using. unfold holds, sz. rewrite concat_app, bytes_at_app, Forall_app. tauto. Qed.

Lemma holds_agree m m' a xs : holds m a xs -> (forall x, a <= x < a + sz xs -> m' !! x = m !! x) -> holds m' a xs.
Proof using. intros [H1 H2] H. split; [|done]. by apply (bytes_at_agree m). Qed.

Lemma concat_bytes xs : Forall element xs -> Forall byte (concat xs).
Proof using. induction 1 as [|x xs [_ Hx] Hxs IH]; cbn; [constructor|]. by apply Forall_app. Qed.

Lemma exchanged_sym m m' p q x y : exchanged m m' p q x y -> exchanged m m' q p y x.
Proof using. intros (H1 & H2 & H3). split; [done|]. split; [done|]. auto. Qed.

(** Two blocks of the same size in an array change places. *)
Lemma exchanged_blocks m m' a A X B Y C : holds m a (A ++ X ++ B ++ Y ++ C) -> sz X = sz Y ->
  exchanged m m' (a + sz A) (a + sz A + sz X + sz B) (concat X) (concat Y) ->
  holds m' a (A ++ Y ++ B ++ X ++ C) /\ only a (a + sz (A ++ X ++ B ++ Y ++ C)) m m'.
Proof using.
  intros H Hn (E1 & E2 & F). rewrite !sz_app. rewrite !holds_app in H. destruct H as (HA & HX' & HB & HY' & HC).
  pose proof (sz_nonneg A). pose proof (sz_nonneg B). pose proof (sz_nonneg C). pose proof (sz_nonneg X).
  change (zlen (concat X)) with (sz X) in F. change (zlen (concat Y)) with (sz Y) in F. rewrite <- Hn in *. split; [|intros z Hz; apply F; lia].
  rewrite !holds_app, <- Hn. split; [apply (holds_agree m); [done|intros; apply F; lia]|]. split; [by split; [|apply HY']|]. split; [apply (holds_agree m); [done|intros; apply F; lia]|].
  split; [by split; [|apply HX']|]. apply (holds_agree m); [done|intros; apply F; lia].
Qed.

(** The ways of exchanging that fit the size. *)
Definition fits (swaptype : Z) : Prop := (swaptype <= 1 -> es mod 8 = 0) /\ (swaptype = 0 -> es = 8).

Lemma SWAPINIT_fits a : fits (SWAPINIT es a).
Proof using. unfold fits, SWAPINIT. repeat case_test; split; lia. Qed.

Context (Hes31 : es < 2 ^ 31).

Lemma sext_es : sext 32 es = es.
Proof using Hes Hes31. apply sext_small; lia. Qed.

Lemma swap_elements swaptype m p q x y : fits swaptype -> element x -> element y -> bytes_at m p x -> bytes_at m q y -> apart p q es ->
  exists m', swap es swaptype m p q = Some m' /\ exchanged m m' p q x y.
Proof using Hes Hes31.
  intros [F1 F0] [Lx Bx] [Ly By] Hx Hy Hap. unfold swap. rewrite sext_es. destruct (Z.eqb_spec swaptype 0) as [E|E].
  - specialize (F0 E). apply swap_unit_spec; try done; cbn; [lia..|]. by rewrite Lx.
  - by apply swapfunc_spec.
Qed.

Lemma concat_single (x : list Z) : concat [x] = x.
Proof using. cbn. apply app_nil_r. Qed.

Lemma sz_single x : element x -> sz [x] = es.
Proof using. intros [Hx _]. unfold sz. by rewrite concat_single. Qed.

Lemma holds_middle m a A x B : holds m a (A ++ x :: B) -> element x /\ bytes_at m (a + sz A) x.
Proof using.
  rewrite (cons_middle x), !holds_app. intros (_ & [H1 H2] & _). rewrite concat_single in H1. by apply Forall_cons in H2 as [H2 _].
Qed.

(** Exchanging two elements of an array, given in either order. *)
Lemma swap_array swaptype m a A x B y C (up : bool) : fits swaptype -> holds m a (A ++ x :: B ++ y :: C) ->
  let p := a + sz A in let q := p + es + sz B in
  exists m', (if up then swap es swaptype m p q else swap es swaptype m q p) = Some m' /\ holds m' a (A ++ y :: B ++ x :: C) /\
    only a (a + sz (A ++ x :: B ++ y :: C)) m m'.
Proof using Hes Hes31.
  intros Hf H. cbn zeta. destruct (holds_middle m a A x _ H) as [Ex Hx].
  assert (Eq : A ++ x :: B ++ y :: C = (A ++ x :: B) ++ y :: C) by (by rewrite <- app_assoc).
  pose proof H as H'. rewrite Eq in H'. destruct (holds_middle m a _ y _ H') as [Ey Hy]. rewrite sz_app, sz_cons, !Z.add_assoc in Hy by done.
  pose proof (sz_nonneg B). set (p := a + sz A) in *. set (q := p + es + sz B) in *.
  assert (X : forall m', exchanged m m' p q x y -> holds m' a (A ++ y :: B ++ x :: C) /\ only a (a + sz (A ++ x :: B ++ y :: C)) m m').
  { intros m' He. apply (exchanged_blocks m m' a A [x] B [y] C); [done|by rewrite !sz_single|]. rewrite !concat_single, sz_single by done. done. }
  destruct up.
  - destruct (swap_elements swaptype m p q x y) as (m' & E & He); try done; [left; lia|]. exists m'. split; [done|]. by apply X.
  - destruct (swap_elements swaptype m q p y x) as (m' & E & He); try done; [right; left; lia|]. exists m'. split; [done|]. by apply X, exchanged_sym.
Qed.

Lemma swap_same swaptype m a A x B : fits swaptype -> holds m a (A ++ x :: B) ->
  exists m', swap es swaptype m (a + sz A) (a + sz A) = Some m' /\ holds m' a (A ++ x :: B) /\ only a (a + sz (A ++ x :: B)) m m'.
Proof using Hes Hes31.
  intros Hf H. destruct (holds_middle m a A x _ H) as [Ex Hx]. destruct (swap_elements swaptype m (a + sz A) (a + sz A) x x) as (m' & E & H1 & _ & F); try done; [by right; right|].
  exists m'. split; [done|]. destruct Ex as [Lx Bx]. rewrite Lx in F. pose proof (sz_nonneg A). pose proof (sz_nonneg B). rewrite sz_app, sz_cons by done. split; [|intros z Hz; apply F; lia].
  rewrite (cons_middle x), !holds_app in *. destruct H as (HA & HX & HB). rewrite sz_single in * by done. split; [apply (holds_agree m); [done|intros; apply F; lia]|].
  split; [split; [by rewrite concat_single|apply HX]|]. apply (holds_agree m); [done|intros; apply F; lia].
Qed.

(** Comparing two elements of an array. *)
Lemma compare_array m p q x y : element x -> element y -> bytes_at m p x -> bytes_at m q y -> compare es cmp m p q = Some (cmp x y).
Proof using Hes.
  intros [Lx _] [Ly _] Hx Hy. unfold compare. apply load_bytes_at in Hx, Hy. replace (Z.to_nat es) with (length x) by lia. rewrite Hx. cbn.
  replace (length x) with (length y) by lia. by rewrite Hy.
Qed.

(** ** Insertion *)

(** What the caller's function must be: a comparison of a total preorder. *)
Record comparator : Prop := {
  cmp_opp : forall x y, cmp x y < 0 <-> 0 < cmp y x;
  cmp_trans : forall x y z, cmp x y <= 0 -> cmp y z <= 0 -> cmp x z <= 0
}.
Context (Hc : comparator).

Definition below (x y : list Z) : Prop := cmp x y <= 0.
Definition sorted : list (list Z) -> Prop := StronglySorted below.

Lemma above_below x y : 0 < cmp y x -> below x y.
Proof using Hc. intros H. apply (cmp_opp Hc) in H. unfold below. lia. Qed.

Lemma sz_perm xs ys : xs ≡ₚ ys -> Forall element xs -> sz xs = sz ys.
Proof using. intros Hp He. rewrite !sz_elements, Hp by (done || by rewrite <- Hp). done. Qed.

Lemma sorted_app xs ys : sorted (xs ++ ys) <-> sorted xs /\ sorted ys /\ Forall (fun x => Forall (below x) ys) xs.
Proof using.
  unfold sorted. induction xs as [|x xs IH]; cbn; [split; [intros H; split; [constructor|done]|tauto]|]. rewrite Forall_cons. split.
  - intros H. apply StronglySorted_inv in H as [H1 H2]. apply Forall_app in H2 as [H2 H3]. apply IH in H1 as (H1 & H4 & H5). split; [by constructor|done].
  - intros (H1 & H2 & H3 & H4). apply StronglySorted_inv in H1 as [H1 H5]. constructor; [apply IH; done|]. by apply Forall_app.
Qed.

(** Placing [x] between a sorted part that is not above it and one that is. *)
Lemma sorted_insert A x B : sorted (A ++ B) -> Forall (fun y => below y x) A -> Forall (fun y => 0 < cmp y x) B -> sorted (A ++ x :: B).
Proof using Hc.
  rewrite !sorted_app. intros (H1 & H2 & H3) HA HB. split; [done|]. split.
  - constructor; [done|]. eapply Forall_impl; [exact HB|]. intros y. apply above_below.
  - apply Forall_forall. intros y Hy. rewrite Forall_forall in HA, H3. constructor; [by apply HA|by apply H3].
Qed.

Lemma sift_spec swaptype a C : fits swaptype -> forall A fuel m x B, holds m a (A ++ x :: B ++ C) -> (length A < fuel)%nat -> sorted (A ++ B) -> Forall (fun y => 0 < cmp y x) B ->
  exists m' xs, sift es cmp fuel swaptype m a (a + sz A) = Some m' /\ holds m' a (xs ++ C) /\ xs ≡ₚ A ++ x :: B /\ sorted xs /\ only a (a + sz (A ++ x :: B ++ C)) m m'.
Proof using Hes Hes31 Hc.
  intros Hf A. induction A as [|y A IH] using rev_ind; intros fuel m x B H Hl Hs HB; (destruct fuel; [lia|]); cbn [sift].
  - change (sz []) with 0. rewrite Z.add_0_r, Z.ltb_irrefl. cbn [negb]. exists m, (x :: B). split; [done|]. split; [done|]. split; [done|].
    split; [by apply (sorted_insert [] x B)|apply only_refl].
  - rewrite <- app_assoc in H, Hs. cbn [app] in H, Hs. rewrite length_app in Hl. cbn in Hl. destruct (holds_middle m a A y _ H) as [Ey Hy].
    assert (Hx : element x /\ bytes_at m (a + sz (A ++ [y])) x) by (apply (holds_middle m a (A ++ [y]) x (B ++ C)); by rewrite <- app_assoc).
    destruct Hx as [Ex Hx]. rewrite sz_app, sz_single in * by done. pose proof (sz_nonneg A). rewrite (proj2 (Z.ltb_lt a _)) by lia. cbn [negb].
    replace (a + (sz A + es) - es) with (a + sz A) by lia. rewrite (compare_array m _ _ y x) by done. cbn [mbind option_bind].
    destruct (Z.ltb_spec 0 (cmp y x)) as [Hr|Hr]; cbn [negb].
    + destruct (swap_array swaptype m a A y [] x (B ++ C) false Hf H) as (m1 & E1 & H1 & O1). cbn zeta in E1. cbn [app sz] in *. change (sz []) with 0 in E1.
      rewrite Z.add_0_r, <- Z.add_assoc in E1. rewrite E1. cbn [mbind option_bind].
      destruct (IH fuel m1 x (y :: B)) as (m' & xs & E & H' & Hp & Hs' & O); [done|lia|done|by constructor|].
      exists m', xs. split; [done|]. split; [done|]. split; [rewrite Hp, <- app_assoc; cbn; by rewrite (Permutation_swap y x B)|]. split; [done|].
      rewrite <- app_assoc. eapply only_trans; [exact O1|]. destruct H as [_ He]. rewrite (sz_perm (A ++ [y] ++ x :: B ++ C) (A ++ x :: (y :: B) ++ C)); [done| |done].
      cbn. apply Permutation_app_head, Permutation_swap.
    + exists m, (A ++ y :: x :: B). split; [done|]. split; [by rewrite <- app_assoc|]. rewrite <- app_assoc. split; [done|]. split; [|apply only_refl].
      assert (Hyx : below y x) by done. replace (A ++ y :: x :: B) with ((A ++ [y]) ++ x :: B) by (by rewrite <- app_assoc). apply sorted_insert; [by rewrite <- app_assoc| |done].
      apply sorted_app in Hs as (_ & _ & HA). apply Forall_app. split; [|by constructor]. eapply Forall_impl; [exact HA|]. cbn. intros z Hz. apply Forall_cons in Hz as [Hz _].
      by eapply (cmp_trans Hc).
Qed.

Lemma insertion_spec swaptype a n : fits swaptype -> forall U fuel m xs, holds m a (xs ++ U) -> (length U < fuel)%nat -> sorted xs -> n = zlen (xs ++ U) ->
  exists m' ys, insertion es cmp fuel swaptype m a n (a + sz xs) = Some m' /\ holds m' a ys /\ ys ≡ₚ xs ++ U /\ sorted ys /\ only a (a + sz (xs ++ U)) m m'.
Proof using Hes Hes31 Hc.
  intros Hf U. induction U as [|x U IH]; intros fuel m xs H Hl Hs Hn; (destruct fuel; [lia|]); cbn [insertion]; pose proof H as [_ He]; rewrite Hn, Z.mul_comm, <- sz_elements by done.
  - rewrite app_nil_r in *. rewrite Z.ltb_irrefl. cbn [negb]. exists m, xs. split; [done|]. split; [done|]. split; [done|]. split; [done|apply only_refl].
  - destruct (holds_middle m a xs x U H) as [Ex _]. pose proof (sz_nonneg U). rewrite sz_app, sz_cons by done. rewrite (proj2 (Z.ltb_lt _ _)) by lia. cbn [negb].
    destruct (sift_spec swaptype a U Hf xs (S (Z.to_nat (zlen (xs ++ x :: U)))) m x [] H) as (m1 & zs & E1 & H1 & Hp1 & Hs1 & O1); [rewrite length_app; lia|by rewrite app_nil_r|constructor|].
    rewrite E1. cbn [mbind option_bind]. assert (Ez : sz zs = sz xs + es).
    { rewrite (sz_perm zs (xs ++ [x]) Hp1), sz_app, sz_single by (done || by apply Forall_app in H1 as [_ [? _]]) || (destruct H1 as [_ H1]; by apply Forall_app in H1 as [H1 _]). done. }
    destruct (IH fuel m1 zs H1) as (m' & ys & E & H' & Hp & Hs' & O); [cbn in Hl; lia|done|apply Permutation_length in Hp1; rewrite !length_app in *; cbn in *; lia|].
    rewrite Ez, Z.add_assoc in E. rewrite <- Hn in *. exists m', ys. split; [done|]. split; [done|]. split; [rewrite Hp, Hp1, <- app_assoc; done|]. split; [done|].
    cbn [app] in O1. rewrite sz_app, sz_cons in O1 by done. eapply only_trans; [exact O1|]. rewrite sz_app, Ez in O. by rewrite <- Z.add_assoc in O.
Qed.
(** ** Partition *)

(** An array during the partition around its first element [p]: elements equal to [p], smaller ones, those
    not yet looked at, greater ones, and equal ones again; [T] is its size. *)
Record parted (T : Z) (m : mem) (a : Z) (p : list Z) (E L U G Q : list (list Z)) : Prop := {
  pt_holds : holds m a (p :: E ++ L ++ U ++ G ++ Q);
  pt_size : sz (p :: E ++ L ++ U ++ G ++ Q) = T;
  pt_eq1 : Forall (fun x => cmp x p = 0) E;
  pt_less : Forall (fun x => cmp x p < 0) L;
  pt_more : Forall (fun x => 0 < cmp x p) G;
  pt_eq2 : Forall (fun x => cmp x p = 0) Q
}.

Lemma parted_pivot T m a p E L U G Q : parted T m a p E L U G Q -> element p /\ bytes_at m a p.
Proof using. intros [H _ _ _ _ _]. apply (holds_middle m a []) in H. by rewrite Z.add_0_r in H. Qed.

(** Comparing the element behind a prefix of the array with the pivot. *)
Lemma compare_pivot T m a p E L U G Q A u B : parted T m a p E L U G Q -> E ++ L ++ U ++ G ++ Q = A ++ u :: B -> element u /\ compare es cmp m (a + es + sz A) a = Some (cmp u p).
Proof using Hes.
  intros Hp Eq. destruct (parted_pivot _ _ _ _ _ _ _ _ _ Hp) as [Ep Bp]. destruct Hp as [H _ _ _ _ _]. rewrite Eq in H.
  destruct (holds_middle m a (p :: A) u B H) as [Eu Bu]. rewrite sz_cons, Z.add_assoc in Bu by done. split; [done|]. by apply compare_array.
Qed.

(** Moving [u] in front of a block, and moving it behind one. *)
Lemma swap_front swaptype m a A L u C : fits swaptype -> holds m a (A ++ L ++ u :: C) ->
  exists m' L', swap es swaptype m (a + sz A) (a + sz A + sz L) = Some m' /\ L' ≡ₚ L /\ holds m' a (A ++ u :: L' ++ C) /\ only a (a + sz (A ++ L ++ u :: C)) m m'.
Proof using Hes Hes31.
  intros Hf H. destruct L as [|x L].
  - destruct (swap_same swaptype m a A u C Hf H) as (m' & E & H' & O). exists m', []. change (sz []) with 0. rewrite Z.add_0_r. done.
  - destruct (holds_middle m a A x _ H) as [Ex _]. destruct (swap_array swaptype m a A x L u C true Hf H) as (m' & E & H' & O). cbn zeta in E.
    exists m', (L ++ [x]). rewrite sz_cons, Z.add_assoc by done. split; [done|]. split; [symmetry; apply Permutation_cons_append|]. split; [by rewrite <- app_assoc|done].
Qed.

Lemma swap_behind swaptype m a A u G C : fits swaptype -> holds m a (A ++ u :: G ++ C) ->
  exists m' G', swap es swaptype m (a + sz A) (a + sz A + sz G) = Some m' /\ G' ≡ₚ G /\ holds m' a (A ++ G' ++ u :: C) /\ only a (a + sz (A ++ u :: G ++ C)) m m'.
Proof using Hes Hes31.
  intros Hf H. destruct G as [|x G _] using rev_ind.
  - destruct (swap_same swaptype m a A u C Hf H) as (m' & E & H' & O). exists m', []. change (sz []) with 0. rewrite Z.add_0_r. done.
  - rewrite <- app_assoc in *. cbn [app] in *. assert (Ex : element x) by (destruct H as [_ H]; rewrite Forall_app, Forall_cons, Forall_app, Forall_cons in H; tauto).
    destruct (swap_array swaptype m a A u G x C true Hf H) as (m' & E & H' & O). cbn zeta in E.
    exists m', (x :: G). rewrite sz_app, sz_single by done. split; [rewrite <- E; f_equal; lia|]. split; [apply Permutation_cons_append|]. done.
Qed.

Lemma parted_rebuild T m a p E L U G Q m' E' L' U' G' Q' : parted T m a p E L U G Q -> holds m' a (p :: E' ++ L' ++ U' ++ G' ++ Q') -> E' ++ L' ++ U' ++ G' ++ Q' ≡ₚ E ++ L ++ U ++ G ++ Q ->
  Forall (fun x => cmp x p = 0) E' -> Forall (fun x => cmp x p < 0) L' -> Forall (fun x => 0 < cmp x p) G' -> Forall (fun x => cmp x p = 0) Q' -> parted T m' a p E' L' U' G' Q'.
Proof using. intros [_ S _ _ _ _] H Hp F1 F2 F3 F4. split; try done. rewrite <- S. apply sz_perm; [by rewrite Hp|apply H]. Qed.

Lemma scan_up_spec swaptype T a p G Q : fits swaptype -> forall U fuel m E L cnt, parted T m a p E L U G Q -> (length U < fuel)%nat ->
  let pa := a + es + sz E in let pb := pa + sz L in
  exists m' E' L' U' cnt', scan_up es cmp fuel swaptype m a pa pb (pb + sz U - es) cnt = Some (m', a + es + sz E', a + es + sz E' + sz L', cnt') /\
    parted T m' a p E' L' U' G Q /\ E' ++ L' ++ U' ≡ₚ E ++ L ++ U /\ (length U' <= length U)%nat /\ (forall u V, U' = u :: V -> 0 < cmp u p) /\ only a (a + T) m m'.
Proof using Hes Hes31 Hc.
  intros Hf U. induction U as [|u U IH]; intros fuel m E L cnt P Hl; (destruct fuel; [lia|]); cbn zeta; cbn [scan_up].
  - change (sz []) with 0. rewrite Z.add_0_r, (proj2 (Z.leb_gt _ _)) by lia. cbn [negb]. exists m, E, L, [], cnt. split; [done|]. split; [done|]. split; [done|]. split; [done|]. split; [done|apply only_refl].
  - destruct (compare_pivot T m a p E L (u :: U) G Q (E ++ L) u (U ++ G ++ Q) P) as [Eu Ec]; [by rewrite <- app_assoc|]. rewrite sz_app, Z.add_assoc in Ec.
    pose proof (sz_nonneg U) as HU. rewrite sz_cons by done. rewrite (proj2 (Z.leb_le _ _)) by lia. cbn [negb]. rewrite Ec. cbn [mbind option_bind].
    destruct (Z.leb_spec (cmp u p) 0) as [Hr|Hr]; cbn [negb].
    2: { exists m, E, L, (u :: U), cnt. split; [done|]. split; [done|]. split; [done|]. split; [done|]. split; [by intros ? ? [= -> ->]|apply only_refl]. }
    destruct (parted_pivot _ _ _ _ _ _ _ _ _ P) as [Ep _]. destruct (Z.eqb_spec (cmp u p) 0) as [Hz|Hz].
    + pose proof P as [H S F1 F2 F3 F4]. destruct (swap_front swaptype m a (p :: E) L u (U ++ G ++ Q) Hf H) as (m1 & L1 & E1 & HL & H1 & O1).
      rewrite sz_cons, !Z.add_assoc in E1 by done. rewrite E1. cbn [mbind option_bind].
      assert (P1 : parted T m1 a p (E ++ [u]) L1 U G Q).
      { eapply parted_rebuild; [exact P|rewrite <- !app_assoc; exact H1| |apply Forall_app; split; [done|by constructor]|by rewrite HL|done|done].
        rewrite HL, <- app_assoc. cbn. apply Permutation_app_head. by rewrite Permutation_middle. }
      destruct (IH fuel m1 (E ++ [u]) L1 1 P1) as (m' & E' & L' & U' & cnt' & E2 & P2 & Hp & Hle & Hh & O2); [cbn in Hl; lia|]. cbn zeta in E2.
      assert (EL : sz L1 = sz L) by (apply sz_perm; [done|]; rewrite HL; destruct H as [_ FH]; rewrite Forall_cons, !Forall_app in FH; tauto). rewrite sz_app, sz_single, EL in E2 by done.
      exists m', E', L', U', cnt'. split; [rewrite <- E2; f_equal; lia|].
      split; [done|]. split; [rewrite Hp, HL, <- app_assoc; cbn; apply Permutation_app_head; by rewrite Permutation_middle|]. split; [cbn; lia|]. split; [done|].
      eapply only_trans; [|exact O2]. rewrite <- S. exact O1.
    + assert (P1 : parted T m a p E (L ++ [u]) U G Q).
      { pose proof P as [H S F1 F2 F3 F4]. eapply parted_rebuild; [exact P|rewrite <- !app_assoc; exact H|by rewrite <- !app_assoc|done|apply Forall_app; split; [done|constructor; [lia|done]]|done|done]. }
      destruct (IH fuel m E (L ++ [u]) cnt P1) as (m' & E' & L' & U' & cnt' & E2 & P2 & Hp & Hle & Hh & O2); [cbn in Hl; lia|]. cbn zeta in E2.
      exists m', E', L', U', cnt'. split; [rewrite <- E2; f_equal; rewrite sz_app, sz_single by done; lia|]. split; [done|]. split; [by rewrite Hp, <- app_assoc|]. split; [cbn; lia|]. done.
Qed.
Lemma scan_down_spec swaptype T a p E L : fits swaptype -> forall U fuel m G Q cnt, parted T m a p E L U G Q -> (length U < fuel)%nat ->
  let pb := a + es + sz E + sz L in let pc := pb + sz U - es in
  exists m' U' W G' Q' cnt', scan_down es cmp fuel swaptype m a pb pc (pc + sz G) cnt = Some (m', pb + sz U' - es, pb + sz U' - es + sz G', cnt') /\
    parted T m' a p E L U' G' Q' /\ U = U' ++ W /\ G' ++ Q' ≡ₚ W ++ G ++ Q /\ (forall V u, U' = V ++ [u] -> cmp u p < 0) /\ only a (a + T) m m'.
Proof using Hes Hes31 Hc.
  intros Hf U. induction U as [|u U IH] using rev_ind; intros fuel m G Q cnt P Hl; (destruct fuel; [lia|]); cbn zeta; cbn [scan_down].
  - change (sz []) with 0. rewrite Z.add_0_r, (proj2 (Z.leb_gt _ _)) by lia. cbn [negb]. exists m, [], [], G, Q, cnt. rewrite Z.add_0_r. split; [done|]. split; [done|]. split; [done|]. split; [done|].
    split; [intros V u EV; by destruct V|apply only_refl].
  - rewrite length_app in Hl. cbn in Hl. destruct (compare_pivot T m a p E L (U ++ [u]) G Q (E ++ L ++ U) u (G ++ Q) P) as [Eu Ec]; [by rewrite <- !app_assoc|].
    rewrite !sz_app, !Z.add_assoc in Ec. pose proof (sz_nonneg U) as HU. rewrite sz_app, sz_single by done. rewrite (proj2 (Z.leb_le _ _)) by lia. cbn [negb].
    replace (a + es + sz E + sz L + (sz U + es) - es) with (a + es + sz E + sz L + sz U) by lia. rewrite Ec. cbn [mbind option_bind].
    destruct (Z.leb_spec 0 (cmp u p)) as [Hr|Hr]; cbn [negb].
    2: { exists m, (U ++ [u]), [], G, Q, cnt. rewrite sz_app, sz_single by done. split; [do 4 f_equal; lia|]. split; [done|]. split; [by rewrite app_nil_r|]. split; [done|].
         split; [intros V v EV; apply app_inj_tail in EV as [_ <-]; done|apply only_refl]. }
    destruct (parted_pivot _ _ _ _ _ _ _ _ _ P) as [Ep _]. pose proof P as [H S F1 F2 F3 F4]. rewrite <- (app_assoc U) in H. cbn [app] in H.
    destruct (Z.eqb_spec (cmp u p) 0) as [Hz|Hz].
    + assert (EqA : p :: E ++ L ++ U ++ u :: G ++ Q = (p :: E ++ L ++ U) ++ u :: G ++ Q) by (cbn; by rewrite <- !app_assoc). rewrite EqA in H.
      destruct (swap_behind swaptype m a (p :: E ++ L ++ U) u G Q Hf H) as (m1 & G1 & E1 & HG & H1 & O1). rewrite sz_cons, !sz_app, !Z.add_assoc in E1 by done. rewrite E1. cbn [mbind option_bind].
      assert (P1 : parted T m1 a p E L U G1 (u :: Q)).
      { eapply parted_rebuild; [exact P|cbn in H1; rewrite <- !app_assoc in H1; exact H1| |done|done|by rewrite HG|by constructor]. rewrite HG, <- !app_assoc. cbn. by rewrite Permutation_middle. }
      destruct (IH fuel m1 G1 (u :: Q) 1 P1) as (m' & U' & W & G' & Q' & cnt' & E2 & P2 & EU & Hp & Hh & O2); [lia|]. cbn zeta in E2.
      assert (EG : sz G1 = sz G) by (apply sz_perm; [done|]; rewrite HG; destruct H as [_ FH]; apply Forall_app in FH as [_ FH]; apply Forall_cons in FH as [_ FH]; by apply Forall_app in FH as [FH _]). rewrite EG in E2.
      exists m', U', (W ++ [u]), G', Q', cnt'. split; [rewrite <- E2; f_equal; lia|]. split; [done|]. split; [by rewrite EU, app_assoc|].
      split; [rewrite Hp, HG, <- app_assoc; cbn; by rewrite Permutation_middle|]. split; [done|]. eapply only_trans; [|exact O2]. rewrite <- EqA in O1. rewrite <- app_assoc in S. cbn [app] in S. rewrite <- S. exact O1.
    + assert (P1 : parted T m a p E L U (u :: G) Q).
      { eapply parted_rebuild; [exact P|exact H|by rewrite <- app_assoc|done|done|constructor; [lia|done]|done]. }
      destruct (IH fuel m (u :: G) Q cnt P1) as (m' & U' & W & G' & Q' & cnt' & E2 & P2 & EU & Hp & Hh & O2); [lia|]. cbn zeta in E2. rewrite sz_cons in E2 by done.
      exists m', U', (W ++ [u]), G', Q', cnt'. split; [rewrite <- E2; f_equal; lia|]. split; [done|]. split; [by rewrite EU, app_assoc|]. split; [by rewrite Hp, <- app_assoc|]. done.
Qed.

(** The whole partition. *)
Lemma partition_spec swaptype T a p : fits swaptype -> forall fuel m E L U G Q cnt, parted T m a p E L U G Q -> (length U < fuel)%nat ->
  let pa := a + es + sz E in let pb := pa + sz L in let pc := pb + sz U - es in
  exists m' E' L' G' Q' cnt', let pb' := a + es + sz E' + sz L' in
    partition es cmp fuel swaptype m a pa pb pc (pc + sz G) cnt = Some (m', a + es + sz E', pb', pb' - es, pb' - es + sz G', cnt') /\
    parted T m' a p E' L' [] G' Q' /\ E' ++ L' ++ G' ++ Q' ≡ₚ E ++ L ++ U ++ G ++ Q /\ only a (a + T) m m'.
Proof using Hes Hes31 Hc.
  intros Hf fuel. induction fuel as [|fuel IH]; intros m E L U G Q cnt P Hl; [lia|]. cbn zeta. cbn [partition].
  destruct (scan_up_spec swaptype T a p G Q Hf U (S fuel) m E L cnt P Hl) as (m1 & E1 & L1 & U1 & cnt1 & R1 & P1 & Hp1 & Hle1 & Hh1 & O1). cbn zeta in R1. rewrite R1. cbn [mbind option_bind].
  assert (Epc : a + es + sz E + sz L + sz U - es = a + es + sz E1 + sz L1 + sz U1 - es).
  { destruct P as [_ S0 _ _ _ _]. destruct P1 as [[_ He] S1 _ _ _ _]. destruct (Forall_cons_1 _ _ _ He) as [Ep _]. rewrite sz_cons, !sz_app in S0, S1 by done. lia. }
  rewrite Epc. destruct (scan_down_spec swaptype T a p E1 L1 Hf U1 (S fuel) m1 G Q cnt1 P1) as (m2 & U2 & W & G2 & Q2 & cnt2 & R2 & P2 & EU & Hp2 & Hh2 & O2); [lia|].
  cbn zeta in R2. rewrite R2. cbn [mbind option_bind]. pose proof (only_trans _ _ _ _ _ O1 O2) as O12.
  assert (Hperm : E1 ++ L1 ++ U2 ++ G2 ++ Q2 ≡ₚ E ++ L ++ U ++ G ++ Q).
  { transitivity ((E1 ++ L1 ++ U1) ++ G ++ Q); [rewrite EU, Hp2, <- !app_assoc|rewrite Hp1, <- !app_assoc]; done. }
  destruct U2 as [|u U2].
  - change (sz []) with 0. rewrite Z.add_0_r, (proj2 (Z.ltb_lt _ _)) by lia. exists m2, E1, L1, G2, Q2, cnt2. done.
  - destruct U2 as [|v M _] using rev_ind; [exfalso; rewrite (EU) in Hh1; specialize (Hh1 u W eq_refl); specialize (Hh2 [] u eq_refl); lia|].
    pose proof P2 as [H2 S2 F1 F2 F3 F4]. assert (EqA : p :: E1 ++ L1 ++ (u :: M ++ [v]) ++ G2 ++ Q2 = (p :: E1 ++ L1) ++ u :: M ++ v :: G2 ++ Q2) by (cbn; by rewrite <- !app_assoc).
    rewrite EqA in H2, S2. pose proof H2 as [_ FH]. cbn [app] in FH. rewrite Forall_cons, !Forall_app, !Forall_cons, !Forall_app, Forall_cons in FH.
    assert (Eu : element u) by tauto. assert (Ev : element v) by tauto. assert (Ep : element p) by tauto. pose proof (sz_nonneg M).
    rewrite sz_cons, sz_app, sz_single by done. rewrite (proj2 (Z.ltb_ge _ _)) by lia.
    destruct (swap_array swaptype m2 a (p :: E1 ++ L1) u M v (G2 ++ Q2) true Hf H2) as (m3 & R3 & H3 & O3). cbn zeta in R3. rewrite S2 in O3. rewrite sz_cons, sz_app in R3 by done.
    replace (a + es + sz E1 + sz L1 + (es + (sz M + es)) - es) with (a + (es + (sz E1 + sz L1)) + es + sz M) by lia.
    replace (swap es swaptype m2 (a + es + sz E1 + sz L1) (a + (es + (sz E1 + sz L1)) + es + sz M)) with (Some m3) by (rewrite <- R3; f_equal; lia). cbn [mbind option_bind].
    assert (P3 : parted T m3 a p E1 (L1 ++ [v]) M (u :: G2) Q2).
    { eapply parted_rebuild; [exact P2|cbn in H3 |- *; rewrite <- !app_assoc in *; exact H3| |done| | |done].
      - cbn. rewrite <- !app_assoc. cbn. do 2 apply Permutation_app_head. rewrite <- !Permutation_middle. apply perm_swap.
      - apply Forall_app. split; [done|]. constructor; [|done]. by apply (Hh2 (u :: M) v).
      - constructor; [|done]. by apply (Hh1 u ((M ++ [v]) ++ W)). }
    destruct (IH m3 E1 (L1 ++ [v]) M (u :: G2) Q2 1 P3) as (m' & E' & L' & G' & Q' & cnt' & R & P' & Hp' & O').
    { apply (f_equal length) in EU. rewrite length_app in EU. cbn in EU. rewrite length_app in EU. cbn in EU. lia. }
    cbn zeta in R. rewrite sz_app, sz_single, sz_cons in R by done. exists m', E', L', G', Q', cnt'. split; [rewrite <- R; f_equal; lia|]. split; [done|].
    split; [|eapply only_trans; [exact O12|]; eapply only_trans; [exact O3|exact O']]. rewrite Hp', <- Hperm, <- !app_assoc. do 2 apply Permutation_app_head. cbn. rewrite <- app_assoc. cbn.
    rewrite <- !Permutation_middle. apply perm_swap.
Qed.
(** ** The pivot *)

(** [p] points to an element of the array. *)
Definition points (a : Z) (xs : list (list Z)) (p : Z) : Prop := exists A x B, xs = A ++ x :: B /\ p = a + sz A.

Lemma points_index m a xs i : holds m a xs -> 0 <= i < zlen xs -> points a xs (a + i * es).
Proof using Hes.
  intros [_ H] Hi. destruct (cut xs (Z.to_nat i)) as (A & B & -> & Hl); [lia|]. destruct B as [|x B]; [rewrite length_app in Hi; cbn in Hi; lia|].
  exists A, x, B. split; [done|]. apply Forall_app in H as [H _]. rewrite sz_elements, Hl by done. lia.
Qed.

Lemma compare_points m a xs p q : holds m a xs -> points a xs p -> points a xs q -> exists r, compare es cmp m p q = Some r.
Proof using Hes.
  intros H (A & x & B & E & ->) (A' & y & B' & E' & ->). pose proof H as H'. rewrite E in H. rewrite E' in H'.
  destruct (holds_middle m a A x B H) as [Ex Hx]. destruct (holds_middle m a A' y B' H') as [Ey Hy]. exists (cmp x y). by apply compare_array.
Qed.

Lemma med3_spec m a xs p q r : holds m a xs -> points a xs p -> points a xs q -> points a xs r -> exists z, med3 es cmp m p q r = Some z /\ points a xs z.
Proof using Hes.
  intros H Hp Hq Hr. unfold med3. destruct (compare_points m a xs p q) as [c1 ->]; try done. destruct (compare_points m a xs q r) as [c2 ->]; try done.
  destruct (compare_points m a xs p r) as [c3 ->]; try done. cbn [mbind option_bind]. repeat case_test; eauto.
Qed.

Lemma choose_spec m a xs n : holds m a xs -> n = zlen xs -> 7 <= n -> n * es < 2 ^ 31 -> exists p, choose es cmp m a n = Some p /\ points a xs p.
Proof using Hes.
  intros H Hn H7 Hsz. assert (Hi : forall i z, 0 <= i < n -> z = a + i * es -> points a xs z) by (intros i z Hi ->; eapply points_index; [done|lia]).
  pose proof (Z.div_pos n 2 ltac:(lia) ltac:(lia)). pose proof (Z.div_lt n 2 ltac:(lia) ltac:(lia)). unfold choose.
  destruct (Z.ltb_spec 7 n); [|eexists; split; [done|]; apply (Hi (n / 2)); lia].
  destruct (Z.ltb_spec 40 n).
  - pose proof (Z.mul_div_le n 8 ltac:(lia)). pose proof (Z.div_pos n 8 ltac:(lia) ltac:(lia)). pose proof (Z.mul_succ_div_gt n 2 ltac:(lia)). pose proof (Z.mul_div_le n 2 ltac:(lia)).
    rewrite (sext_small 32 (n / 8 * es)) by nia. set (k := n / 8) in *. set (h := n / 2) in *.
    destruct (med3_spec m a xs a (a + k * es) (a + 2 * (k * es)) H) as (z1 & -> & P1); [apply (Hi 0); lia|apply (Hi k); lia|apply (Hi (2 * k)); lia|]. cbn [mbind option_bind].
    destruct (med3_spec m a xs (a + h * es - k * es) (a + h * es) (a + h * es + k * es) H) as (z2 & -> & P2); [apply (Hi (h - k)); lia|apply (Hi h); lia|apply (Hi (h + k)); lia|]. cbn [mbind option_bind].
    destruct (med3_spec m a xs (a + (n - 1) * es - 2 * (k * es)) (a + (n - 1) * es - k * es) (a + (n - 1) * es) H) as (z3 & -> & P3);
      [apply (Hi (n - 1 - 2 * k)); lia|apply (Hi (n - 1 - k)); lia|apply (Hi (n - 1)); lia|]. cbn [mbind option_bind].
    by apply med3_spec.
  - cbn [mbind option_bind]. apply med3_spec; [done|apply (Hi 0); lia|apply (Hi (n / 2)); lia|apply (Hi (n - 1)); lia].
Qed.

(** The pivot goes to the front. *)
Lemma swap_pivot swaptype m a xs p : fits swaptype -> holds m a xs -> points a xs p ->
  exists m' x ys, swap es swaptype m a p = Some m' /\ holds m' a (x :: ys) /\ x :: ys ≡ₚ xs /\ only a (a + sz xs) m m'.
Proof using Hes Hes31.
  intros Hf H (A & x & B & -> & ->). destruct A as [|y A].
  - destruct (swap_same swaptype m a [] x B Hf H) as (m' & E & H' & O). change (sz []) with 0 in *. rewrite !Z.add_0_r in *. by exists m', x, B.
  - destruct (holds_middle m a [] y _ H) as [Ey _]. destruct (swap_array swaptype m a [] y A x B true Hf H) as (m' & E & H' & O). cbn zeta in E. change (sz []) with 0 in E.
    rewrite Z.add_0_r in E. exists m', x, (A ++ y :: B). rewrite sz_cons, Z.add_assoc by done. split; [done|]. split; [done|]. split; [|done].
    cbn. rewrite <- !Permutation_middle. apply perm_swap.
Qed.

(** ** Gathering the equal elements *)

Lemma vecswap_spec swaptype m a A X Y C : fits swaptype -> holds m a (A ++ X ++ Y ++ C) ->
  let r := Z.min (sz X) (sz Y) in
  exists m' X' Y', vecswap swaptype m (a + sz A) (a + sz A + sz X + sz Y - r) r = Some m' /\ holds m' a (A ++ Y' ++ X' ++ C) /\ X' ≡ₚ X /\ Y' ≡ₚ Y /\
    only a (a + sz (A ++ X ++ Y ++ C)) m m'.
Proof using Hes Hes31.
  intros [Hf _] H. cbn zeta. pose proof H as [_ He]. apply Forall_app in He as [_ He]. apply Forall_app in He as [EX He]. apply Forall_app in He as [EY _].
  pose proof (sz_elements X EX) as SX. pose proof (sz_elements Y EY) as SY. unfold vecswap.
  assert (Hmod : forall k, swaptype <= 1 -> (es * k) mod 8 = 0) by (intros k Hs; specialize (Hf Hs); rewrite Z.mul_mod, Hf by lia; done).
  destruct (Z.ltb_spec 0 (Z.min (sz X) (sz Y))) as [Hr|Hr].
  2: { exists m, X, Y. split; [done|]. split; [|split; [done|]; split; [done|apply only_refl]].
       assert (X = [] \/ Y = []) as [-> | ->] by (destruct X, Y; cbn [length] in *; try (by left); try (by right); nia); done. }
  assert (Blk : forall A X B Y C : list (list Z), holds m a (A ++ X ++ B ++ Y ++ C) -> sz X = sz Y -> 0 < sz X -> exists m',
    swapfunc m (a + sz A) (a + sz A + sz X + sz B) (sz X) swaptype = Some m' /\ holds m' a (A ++ Y ++ B ++ X ++ C) /\ only a (a + sz (A ++ X ++ B ++ Y ++ C)) m m').
  { clear -Hmod Hes. intros A X B Y C H Hs Hp. pose proof H as H'. rewrite !holds_app in H'. destruct H' as (_ & [HX EX] & _ & [HY EY] & _). pose proof (sz_nonneg B).
    destruct (swapfunc_spec m (a + sz A) (a + sz A + sz X + sz B) (sz X) swaptype (concat X) (concat Y)) as (m' & E & X1); try done.
    - by apply concat_bytes.
    - by apply concat_bytes.
    - intros Hst. rewrite sz_elements by done. by apply Hmod.
    - left. lia.
    - exists m'. split; [done|]. by apply exchanged_blocks. }
  destruct (Z.le_gt_cases (sz X) (sz Y)).
  - destruct (cut Y (length Y - length X)) as (Y1 & Y2 & -> & Hl); [lia|]. apply Forall_app in EY as [EY1 EY2]. rewrite length_app in Hl. rewrite sz_app in *.
    assert (S2 : sz Y2 = sz X) by (rewrite (sz_elements X), (sz_elements Y2) by done; f_equal; assert (length X <= length Y1 + length Y2)%nat by (rewrite length_app in *; nia); lia).
    rewrite Z.min_l by lia. rewrite <- (app_assoc Y1) in *. destruct (Blk A X Y1 Y2 C H) as (m' & E & H' & O); [done|lia|]. exists m', X, (Y2 ++ Y1).
    split; [rewrite <- E; f_equal; lia|]. split; [by rewrite <- app_assoc|]. split; [done|]. split; [by rewrite Permutation_app_comm|done].
  - destruct (cut X (length Y)) as (X1 & X2 & -> & Hl); [nia|]. apply Forall_app in EX as [EX1 EX2]. rewrite sz_app in *.
    assert (S2 : sz X1 = sz Y) by (rewrite (sz_elements X1), (sz_elements Y) by done; f_equal; lia).
    rewrite Z.min_r by lia. rewrite <- (app_assoc X1) in *. destruct (Blk A X1 X2 Y C H) as (m' & E & H' & O); [done|lia|]. exists m', (X2 ++ X1), Y.
    rewrite S2 in E. split; [rewrite <- E; f_equal; lia|]. split; [by rewrite <- app_assoc|]. split; [by rewrite Permutation_app_comm|]. done.
Qed.
(** ** The sort *)

Lemma sorted_equal p xs : Forall (fun x => cmp x p = 0) xs -> sorted xs.
Proof using Hc.
  induction 1 as [|x xs Hx Hxs IH]; [constructor|]. constructor; [done|]. eapply Forall_impl; [exact Hxs|]. cbn. intros y Hy. apply (cmp_trans Hc x p y); [lia|].
  pose proof (proj2 (cmp_opp Hc y p)). lia.
Qed.

Lemma cmp_refl x : cmp x x = 0.
Proof using Hc. pose proof (cmp_opp Hc x x). lia. Qed.

Lemma cmp_pivot p x y : cmp x p <= 0 -> 0 <= cmp y p -> below x y.
Proof using Hc. intros Hx Hy. apply (cmp_trans Hc x p y); [done|]. pose proof (proj2 (cmp_opp Hc y p)). lia. Qed.

(** Sorted parts around a pivot make a sorted whole. *)
Lemma sorted_parts p xs ys zs : sorted xs -> sorted zs -> Forall (fun x => cmp x p < 0) xs -> Forall (fun x => cmp x p = 0) ys -> Forall (fun x => 0 < cmp x p) zs -> sorted (xs ++ ys ++ zs).
Proof using Hc.
  intros Sx Sz Fx Fy Fz. rewrite !sorted_app. rewrite Forall_forall in Fx, Fy, Fz. split; [done|]. split; [split; [eapply sorted_equal, Forall_forall; exact Fy|split; [done|]]|].
  - apply Forall_forall. intros y Hy. apply Forall_forall. intros z Hz. specialize (Fy y Hy). specialize (Fz z Hz). apply (cmp_pivot p); lia.
  - apply Forall_forall. intros x Hx. specialize (Fx x Hx). apply Forall_app. split; apply Forall_forall; intros z Hz; [specialize (Fy z Hz)|specialize (Fz z Hz)]; apply (cmp_pivot p); lia.
Qed.

(** What a call does to the array that it is given. *)
Definition sorts (m : mem) (a : Z) (xs : list (list Z)) (res : option mem) : Prop :=
  exists m' ys, res = Some m' /\ holds m' a ys /\ ys ≡ₚ xs /\ sorted ys /\ only a (a + sz xs) m m'.

(** A part of the array is sorted by a call, or has at most one element. *)
Lemma sort_part fuel m a A X C : holds m a (A ++ X ++ C) -> sz X < 2 ^ 31 -> (forall m a xs, holds m a xs -> zlen xs * es < 2 ^ 31 -> (length xs < fuel)%nat -> sorts m a xs (qsort es cmp fuel m a (zlen xs))) ->
  (length X < fuel)%nat ->
  exists m' Y, (if sext 32 es <? sext 32 (sz X) then qsort es cmp fuel m (a + sz A) (sext 32 (sz X) / es) else Some m) = Some m' /\ holds m' a (A ++ Y ++ C) /\ Y ≡ₚ X /\ sorted Y /\
    only a (a + sz (A ++ X ++ C)) m m'.
Proof using Hes Hes31 Hc.
  intros H HX IH Hl. pose proof H as H0. rewrite !holds_app in H0. destruct H0 as (HA & HX' & HC). pose proof HX' as [_ EX]. pose proof (sz_elements X EX) as SX. pose proof (sz_nonneg X).
  rewrite sext_es, sext_small by lia. destruct (Z.ltb_spec es (sz X)).
  - rewrite SX, Z.mul_comm, Z.div_mul by lia. destruct (IH m (a + sz A) X HX') as (m' & Y & E & H' & Hp & Hs & O); [lia|done|]. rewrite E. exists m', Y. split; [done|].
    rewrite !sz_app. pose proof (sz_nonneg A). pose proof (sz_nonneg C). split; [|split; [done|]; split; [done|eapply only_mono; [exact O|lia|lia]]].
    rewrite !holds_app, (sz_perm Y X) by (done || by rewrite Hp). split; [apply (holds_agree m); [done|intros; apply O; lia]|]. split; [done|]. apply (holds_agree m); [done|intros; apply O; lia].
  - exists m, X. split; [done|]. split; [done|]. split; [done|]. split; [|apply only_refl]. destruct X as [|x [|y X]]; [constructor|by repeat constructor|cbn [length] in SX; nia].
Qed.

(** After the partition: the equal elements go to the middle, the others are sorted. *)
Lemma finish_spec fuel st T m a p E L G Q : fits st -> parted T m a p E L [] G Q -> T < 2 ^ 31 ->
  (forall m a xs, holds m a xs -> zlen xs * es < 2 ^ 31 -> (length xs < fuel)%nat -> sorts m a xs (qsort es cmp fuel m a (zlen xs))) -> (length L < fuel)%nat -> (length G < fuel)%nat ->
  let pa := a + es + sz E in let pb := pa + sz L in let pc := pb - es in let pd := pc + sz G in let pn := a + T in
  sorts m a (p :: E ++ L ++ G ++ Q)
   (let r := sext 32 (Z.min (pa - a) (pb - pa)) in
    m ← vecswap st m a (pb - r) r;
    let r := sext 32 (Z.min (pd - pc) (pn - pd - sext 32 es)) in
    m ← vecswap st m pb (pn - r) r;
    let r := sext 32 (pb - pa) in
    m ← (if sext 32 es <? r then qsort es cmp fuel m a (r / es) else Some m);
    let r := sext 32 (pd - pc) in
    if sext 32 es <? r then qsort es cmp fuel m (pn - r) (r / es) else Some m).
Proof using Hes Hes31 Hc.
  intros Hf [H S F1 F2 F3 F4] HT IH HlL HlG. cbn zeta. cbn [app] in *. pose proof H as [_ He]. pose proof (Forall_cons_1 _ _ _ He) as [Ep Er]. rewrite !Forall_app in Er. destruct Er as (EE & EL & EG & EQ).
  rewrite sz_cons, !sz_app in S by done. pose proof (sz_nonneg E) as NE. pose proof (sz_nonneg L) as NL. pose proof (sz_nonneg G) as NG. pose proof (sz_nonneg Q) as NQ. rewrite sext_es.
  pose proof (sz_cons p E Ep) as S0. replace (a + es + sz E - a) with (sz (p :: E)) by lia. replace (a + es + sz E + sz L - (a + es + sz E)) with (sz L) by lia.
  rewrite (sext_small 32 (Z.min (sz (p :: E)) (sz L))) by lia.
  destruct (vecswap_spec st m a [] (p :: E) L (G ++ Q) Hf H) as (m1 & P1 & L1 & R1 & H1 & HP1 & HL1 & O1). cbn zeta in R1. change (sz []) with 0 in R1.
  replace (vecswap st m a (a + es + sz E + sz L - Z.min (sz (p :: E)) (sz L)) (Z.min (sz (p :: E)) (sz L))) with (Some m1) by (rewrite <- R1; f_equal; lia).
  cbn [mbind option_bind app] in *. pose proof (sz_perm _ _ (symmetry HP1) ltac:(by constructor)) as SP. pose proof (sz_perm _ _ (symmetry HL1) EL) as SL. rewrite sz_cons in SP by done.
  replace (a + es + sz E + sz L - es + sz G - (a + es + sz E + sz L - es)) with (sz G) by lia. replace (a + T - (a + es + sz E + sz L - es + sz G) - es) with (sz Q) by lia.
  rewrite (sext_small 32 (Z.min (sz G) (sz Q))) by lia.
  assert (H1' : holds m1 a ((L1 ++ P1) ++ G ++ Q ++ [])) by (by rewrite app_nil_r, <- app_assoc).
  destruct (vecswap_spec st m1 a (L1 ++ P1) G Q [] Hf H1') as (m2 & G2 & Q2 & R2 & H2 & HG2 & HQ2 & O2). cbn zeta in R2. rewrite sz_app in R2.
  replace (vecswap st m1 (a + es + sz E + sz L) (a + T - Z.min (sz G) (sz Q)) (Z.min (sz G) (sz Q))) with (Some m2) by (rewrite <- R2; f_equal; lia).
  cbn [mbind option_bind]. rewrite app_nil_r, <- app_assoc in H2. pose proof (sz_perm _ _ (symmetry HG2) EG) as SG. pose proof (sz_perm _ _ (symmetry HQ2) EQ) as SQ. rewrite SL.
  destruct (sort_part fuel m2 a [] L1 (P1 ++ Q2 ++ G2) H2 ltac:(lia) IH) as (m3 & L3 & R3 & H3 & HL3 & S3 & O3); [by rewrite HL1|]. change (sz []) with 0 in R3. rewrite Z.add_0_r, sext_es in R3. rewrite R3.
  cbn [mbind option_bind app] in *. rewrite SG.
  assert (H3' : holds m3 a ((L3 ++ P1 ++ Q2) ++ G2 ++ [])) by (by rewrite app_nil_r, <- !app_assoc).
  destruct (sort_part fuel m3 a (L3 ++ P1 ++ Q2) G2 [] H3' ltac:(lia) IH) as (m4 & G4 & R4 & H4 & HG4 & S4 & O4); [by rewrite HG2|].
  assert (SL3 : sz L3 = sz L1) by (apply sz_perm; [done|]; by rewrite HL3, HL1). rewrite !sz_app, SL3, sext_es in R4.
  rewrite (sext_small 32 (sz G2)) in * by lia. replace (a + T - sz G2) with (a + (sz L1 + (sz P1 + sz Q2))) by lia. rewrite R4.
  exists m4, (L3 ++ (P1 ++ Q2) ++ G4). rewrite app_nil_r, <- app_assoc in H4. split; [done|]. split; [done|]. split.
  - transitivity (L ++ (p :: E) ++ Q ++ G); [by rewrite HL3, HL1, HP1, HQ2, HG4, HG2, <- app_assoc|]. cbn. rewrite <- Permutation_middle. constructor.
    by rewrite (Permutation_app_comm Q G), (app_assoc L), (app_assoc E), (Permutation_app_comm L E).
  - split; [apply (sorted_parts p); [done|done|by rewrite HL3, HL1|apply Forall_app; split; [rewrite HP1; constructor; [apply cmp_refl|done]|by rewrite HQ2]|by rewrite HG4, HG2]|].
    assert (ST : sz (p :: E ++ L ++ G ++ Q) = T) by (rewrite sz_cons, !sz_app by done; lia). rewrite ST in *. change (sz []) with 0 in *.
    eapply only_trans; [exact O1|]. eapply only_trans; [eapply only_mono; [exact O2|lia|rewrite !sz_app; change (sz []) with 0; lia]|].
    eapply only_trans; [eapply only_mono; [exact O3|lia|rewrite !sz_app; lia]|]. eapply only_mono; [exact O4|lia|rewrite !sz_app; change (sz []) with 0; lia].
Qed.

Lemma qsort_spec fuel : forall m a xs, holds m a xs -> zlen xs * es < 2 ^ 31 -> (length xs < fuel)%nat -> sorts m a xs (qsort es cmp fuel m a (zlen xs)).
Proof using Hes Hes31 Hc.
  induction fuel as [|fuel IH]; intros m a xs H Hsz Hl; [lia|]. cbn [qsort]. pose proof (SWAPINIT_fits a) as Hf. set (st := SWAPINIT es a) in *. set (n := zlen xs) in *.
  assert (Ins : forall m1 ys, only a (a + sz xs) m m1 -> holds m1 a ys -> ys ≡ₚ xs -> ys <> [] -> sorts m a xs (insertion es cmp (S (Z.to_nat n)) st m1 a n (a + es))).
  { intros m1 ys O1 H1 Hp Hne. destruct ys as [|y ys]; [done|]. pose proof (Permutation_length Hp) as Hlen. pose proof H1 as [_ He]. destruct (Forall_cons_1 _ _ _ He) as [Ey _].
    destruct (insertion_spec st a n Hf ys (S (Z.to_nat n)) m1 [y] H1) as (m' & zs & E & H' & Hp' & Hs & O); [unfold n; rewrite <- Hlen; cbn; lia|by repeat constructor|unfold n; by rewrite <- Hlen|].
    rewrite sz_single in E by done. exists m', zs. split; [done|]. split; [done|]. split; [by rewrite Hp'|]. split; [done|]. eapply only_trans; [exact O1|]. by rewrite <- (sz_perm _ _ Hp He). }
  destruct (Z.ltb_spec n 7) as [H7|H7].
  { destruct (decide (xs = [])) as [->|Hne]; [|apply (Ins m xs); try done; apply only_refl]. unfold n. cbn. rewrite Z.add_0_r, (proj2 (Z.ltb_ge _ _)) by lia. cbn. exists m, []. split; [done|]. split; [done|]. split; [done|]. split; [constructor|apply only_refl]. }
  destruct (choose_spec m a xs n H eq_refl H7 Hsz) as (pm & -> & Hpm). cbn [mbind option_bind].
  destruct (swap_pivot st m a xs pm Hf H Hpm) as (m1 & p & rest & -> & H1 & Hp1 & O1). cbn [mbind option_bind]. pose proof H1 as [_ He]. destruct (Forall_cons_1 _ _ _ He) as [Ep Er].
  pose proof (sz_perm _ _ Hp1 He) as Sx. pose proof (sz_elements _ Er) as Sr. assert (Hn : n = zlen rest + 1) by (unfold n; rewrite <- (Permutation_length Hp1); cbn; lia).
  assert (P0 : parted (sz xs) m1 a p [] [] rest [] []) by (rewrite <- Sx; split; cbn [app]; rewrite ?app_nil_r; [done|done|apply Forall_nil_2..]).
  destruct (partition_spec st (sz xs) a p Hf (S (Z.to_nat n)) m1 [] [] rest [] [] 0 P0) as (m2 & E & L & G & Q & cnt & R & P & Hp2 & O2); [lia|]. cbn zeta in R. change (sz []) with 0 in R.
  rewrite !Z.add_0_r in R. replace (a + (n - 1) * es) with (a + es + sz rest - es) by (rewrite Sr, Hn; lia). rewrite R. cbn [mbind option_bind].
  pose proof (only_trans _ _ _ _ _ O1 O2) as O12. pose proof P as [H2 S2 _ _ _ _]. cbn [app] in H2, Hp2. rewrite app_nil_r in Hp2. assert (Hp3 : p :: E ++ L ++ G ++ Q ≡ₚ xs) by (by rewrite Hp2).
  destruct (cnt =? 0); [by apply (Ins m2 _ O12 H2 Hp3)|]. replace (a + n * es) with (a + sz xs) by (rewrite <- Sx, sz_cons, Sr, Hn by done; lia).
  assert (Hlen : (S (length E + (length L + (length G + length Q))) = length xs)%nat) by (rewrite <- (Permutation_length Hp3); cbn; rewrite !length_app; done).
  destruct (finish_spec fuel st (sz xs) m2 a p E L G Q Hf P) as (m' & ys & R' & H' & Hp' & Hs' & O'); [rewrite <- Sx, sz_cons, Sr by done; lia|exact IH|lia|lia|].
  exists m', ys. split; [exact R'|]. split; [done|]. split; [by rewrite Hp'|]. split; [done|]. eapply only_trans; [exact O12|]. cbn [app] in S2. by rewrite S2 in O'.
Qed.
End Array.

(** C31: [qsort] returns for every array of at most 2^31 - 1 bytes and every comparison that is one of a
    total preorder.  The array then holds the same elements, in ascending order, and no byte outside it
    has changed, whatever the size and the alignment of the elements. *)
Theorem qsort_sorts es cmp m a xs :
  0 < es < 2 ^ 31 -> comparator cmp -> holds es m a xs -> zlen xs * es < 2 ^ 31 ->
  exists m' ys, qsort es cmp (S (length xs)) m a (zlen xs) = Some m' /\ holds es m' a ys /\ ys ≡ₚ xs /\
    StronglySorted (fun x y => cmp x y <= 0) ys /\ (forall z, ~ (a <= z < a + zlen xs * es) -> m' !! z = m !! z).
Proof.
  intros [H0 H31] Hc H Hsz. destruct (qsort_spec es cmp H0 H31 Hc (S (length xs)) m a xs H Hsz ltac:(lia)) as (m' & ys & E & H' & Hp & Hs & O).
  exists m', ys. split; [done|]. split; [done|]. split; [done|]. split; [done|]. destruct H as [_ He]. rewrite (sz_elements es xs He), Z.mul_comm in O. exact O.
Qed.

(** Nine pairs of bytes, to be sorted by the first. *)
Definition pairs : list (list Z) := map (fun x => [x; 100 - x]) [5; 3; 9; 3; 7; 1; 3; 8; 2].
Definition pairs_mem : mem := mem_of 1000 (concat pairs).
Definition by_first (x y : list Z) : Z := hd 0 x - hd 0 y.

Lemma qsort_sorts_witness : exists m', qsort 2 by_first 10 pairs_mem 1000 9 = Some m' /\ load_bytes m' 1000 6 = Some [1; 99; 2; 98; 3; 97].
Proof.
  destruct (qsort_sorts 2 by_first pairs_mem 1000 pairs) as (m' & ys & E & _).
  - lia.
  - split; unfold by_first; intros; lia.
  - split; [|unfold pairs; cbn [map]; repeat constructor; unfold byte; lia].
    intros i x Hi. destruct (lookup_lt_Some _ _ _ Hi) as []; repeat (destruct i as [|i]; [cbn in Hi; injection Hi as <-; by vm_compute|]); done.
  - cbn. lia.
  - exists m'. split; [exact E|]. vm_compute in E. injection E as <-. by vm_compute.
Defined.
End Qsort.
