(* ===== verification/Libparam.v ===== *)
(** * Libparam: parameters of libraries on the command line

    [lib/uklibparam/param.c]: the arguments in front of "--" name parameters of libraries,
    [library.parameter=value] in four spellings, and set them.  The strings are C strings in the memory of
    [Mem], read with the functions of [NolibcString] and [Strto]; the table of libraries is a list.
    Messages are left out; [ukplat_halt] ends the run. *)
From Stdlib Require Import ZArith Lia Bool.
From stdpp Require Import gmap.
From S2P Require Import Prelude Mem NolibcString Strto.
Open Scope Z_scope.

Module Libparam.
Import Nolibc.

Definition EINVAL : Z := 22.

Record uk_param := Param { p_name : Z; param_type : Z; param_size : Z; p_addr : Z }.

(** A library with the parameters of its section. *)
Record uk_lib_section := LibSection { lib_name : Z; sec_params : list uk_param }.

Record param_args := Pargs { a_lib : Z; a_param : Z; a_value : Z; lib_len : Z; param_len : Z; value_len : Z }.

Definition set_param (p : param_args) (ptr len : Z) : param_args := Pargs (a_lib p) ptr (a_value p) (lib_len p) (u32 len) (value_len p).
Definition set_value (p : param_args) (ptr len : Z) : param_args := Pargs (a_lib p) (a_param p) ptr (lib_len p) (param_len p) (u32 len).
Definition set_lib_len (p : param_args) (len : Z) : param_args := Pargs (a_lib p) (a_param p) (a_value p) (u32 len) (param_len p) (value_len p).

Definition PARAM_SIGN_SHIFT : Z := 7.
Definition PARAM_SIGN_MASK : Z := 1.
Definition PARAM_SCOPY_SHIFT : Z := 6.
Definition PARAM_SCOPY_MASK : Z := 1.
Definition PARAM_SIZE_SHIFT : Z := 0.
Definition PARAM_SIZE_MASK : Z := 0x3F.
Definition PARAM_TYPE (sign scopy size : Z) : Z :=
  Z.lor (Z.lor (Z.shiftl (Z.land sign PARAM_SIGN_MASK) PARAM_SIGN_SHIFT) (Z.shiftl (Z.land scopy PARAM_SCOPY_MASK) PARAM_SCOPY_SHIFT))
    (Z.shiftl (Z.land size PARAM_SIZE_MASK) PARAM_SIZE_SHIFT).

Definition _uk_libparam_lib_add (lib_sec : uk_lib_section) (uk_libsections : list uk_lib_section) : list uk_lib_section := uk_libsections ++ [lib_sec].

Section Run.
(** Enough for every string of the command line. *)
Context (fuel : nat).

(** [strcmp(p, literal) == 0] *)
Fixpoint is_literal (m : mem) (p : Z) (lit : list Z) : option bool :=
  c ← load8 m p;
  match lit with
  | [] => Some (c =? 0)
  | x :: lit' => if c =? x then is_literal m (p + 1) lit' else Some false
  end.

Definition LIB_ARG_SEP : list Z := [45; 45].

Fixpoint kernel_arg_range_fetch (m : mem) (argv : list Z) (i : Z) : option Z :=
  match argv with
  | [] => Some (-1)
  | p :: argv' => b ← is_literal m p LIB_ARG_SEP; if b : bool then Some i else kernel_arg_range_fetch m argv' (i + 1)
  end.

Definition null (p : option Z) : Z := default 0 p.

(** ** One argument *)

(** The loop of [kernel_arg_fetch]: the result, the arguments read and what was found. *)
Fixpoint fetch_loop (m : mem) (args : list Z) (i equals_ptr equals cnt : Z) (pargs : param_args) : option (Z * Z * param_args) :=
  let ending := Some (if negb (param_len pargs =? 0) && (value_len pargs =? 0) then - EINVAL else 0, cnt, pargs) in
  match args with
  | [] => ending
  | arg :: args' =>
      if negb ((value_len pargs =? 0) || (param_len pargs =? 0)) then ending else
      len ← strlen fuel m arg;
      equals_ptr ← (if equals_ptr =? 0 then null <$> strchr fuel m arg 61 else Some equals_ptr);
      let cnt := cnt + 1 in
      dupl_ptr ← null <$> strrchr fuel m arg 61;
      if negb (equals_ptr =? 0) && negb (dupl_ptr =? 0) && negb (equals_ptr =? dupl_ptr) then Some (- EINVAL, cnt, pargs)
      else if equals <? 0 then
        if negb (equals_ptr =? 0) && (1 <? len) && (equals_ptr - arg =? len - 1) then
          fetch_loop m args' (i + 1) equals_ptr i cnt (set_param pargs arg (len - 1))
        else if negb (equals_ptr =? 0) && (1 <? len) && (equals_ptr =? arg) then
          fetch_loop m args' (i + 1) equals_ptr i cnt (set_value pargs (equals_ptr + 1) (len - 1))
        else if negb (equals_ptr =? 0) && (len =? 1) then fetch_loop m args' (i + 1) equals_ptr i cnt pargs
        else if negb (equals_ptr =? 0) then
          let pargs := set_param pargs arg (equals_ptr - arg) in
          fetch_loop m args' (i + 1) equals_ptr i cnt (set_value pargs (equals_ptr + 1) (len - (param_len pargs + 1)))
        else fetch_loop m args' (i + 1) equals_ptr equals cnt (set_param pargs arg len)
      else fetch_loop m args' (i + 1) equals_ptr equals cnt (set_value pargs arg len)
  end.

Definition kernel_arg_fetch (m : mem) (args : list Z) (pargs : param_args) : option (Z * Z * param_args) :=
  fetch_loop m args 0 0 (-1) 0 (Pargs (a_lib pargs) 0 0 (lib_len pargs) 0 0).

(** ** Finding the parameter *)

Fixpoint find_lib (m : mem) (libs : list uk_lib_section) (param len : Z) : option (option uk_lib_section) :=
  match libs with
  | [] => Some None
  | iter :: libs' =>
      n ← strlen fuel m (lib_name iter);
      if n =? len then
        r ← memcmp m param (lib_name iter) len;
        if r =? 0 then Some (Some iter) else find_lib m libs' param len
      else find_lib m libs' param len
  end.

Definition kernel_lib_fetch (m : mem) (libs : list uk_lib_section) (pargs : param_args) : option (Z * option uk_lib_section * param_args) :=
  let pargs := set_lib_len pargs 0 in
  libparam ← memchr fuel m (a_param pargs) 46 (param_len pargs);
  match libparam with
  | None => Some (- EINVAL, None, pargs)
  | Some libparam =>
      section ← find_lib m libs (a_param pargs) (libparam - a_param pargs);
      match section with
      | Some _ => Some (0, section, set_lib_len pargs (libparam - a_param pargs))
      | None => Some (- EINVAL, None, pargs)
      end
  end.

Fixpoint kernel_parse_arg (m : mem) (params : list uk_param) (pargs : param_args) : option (Z * option uk_param) :=
  match params with
  | [] => Some (- EINVAL, None)
  | iter :: params' =>
      if p_name iter =? 0 then None else
      n ← strlen fuel m (p_name iter);
      if n =? param_len pargs then
        r ← memcmp m (p_name iter) (a_param pargs) (param_len pargs);
        if r =? 0 then Some (0, Some iter) else kernel_parse_arg m params' pargs
      else kernel_parse_arg m params' pargs
  end.

(** ** Setting it *)

(** [NUMBER_SET(fn, type, value, addr, ..., result_type, ...)] for a [type] of [size] bytes and a
    [result_type] of [width] bits: the error code, [errno] and the memory. *)
Definition NUMBER_SET (fn : nat -> mem -> Z -> Z -> Z -> Z -> option (Z * Z * mem)) (size width : Z) (m : mem) (value addr : Z) : option (Z * Z * mem) :=
  '(x, errno, m) ← fn fuel m 0 value 0 10;
  let result := wrap width x in
  let maxvalue := if size =? 8 then wrap width (-1) else u64 (Z.shiftl 1 (8 * size)) - 1 in
  if negb (errno =? 0) then Some (- errno, errno, m) else
  m ← store_le m addr (wrap (8 * size) (Z.land result maxvalue)) (Z.to_nat size);
  Some (if maxvalue <=? result then 1 else 0, errno, m).

Definition kernel_arg_set (m : mem) (errno addr value size : Z) (sign : bool) : option (Z * Z * mem) :=
  if addr =? 0 then Some (- EINVAL, errno, m) else
  r ← (if size =? 1 then
      if sign then c ← load8 m value; m ← store8 m addr c; n ← strnlen fuel m value 2; Some (Some (if 1 <? n then 1 else 0, errno, m))
      else Some <$> NUMBER_SET Strto.strtoul 1 32 m value addr
    else if size =? 2 then Some <$> NUMBER_SET (if sign then Strto.strtol else Strto.strtoul) 2 32 m value addr
    else if size =? 4 then Some <$> NUMBER_SET (if sign then Strto.strtol else Strto.strtoul) 4 32 m value addr
    else if size =? 8 then Some <$> NUMBER_SET (if sign then Strto.strtoll else Strto.strtoull) 8 64 m value addr
    else Some None);
  match r with
  | Some (error, errno, m) => Some (if error <? 0 then - EINVAL else 0, errno, m)
  | None => Some (- EINVAL, errno, m)
  end.

(** [while (value && i < param->param_size)]; [n] elements are left. *)
Fixpoint array_loop (n : nat) (m : mem) (errno addr value i size : Z) (sign : bool) : option (Z * Z * mem) :=
  match n with
  | O => Some (0, errno, m)
  | S n' =>
      if value =? 0 then Some (0, errno, m) else
      let start := value in
      value ← null <$> strchr fuel m value 32;
      '(value, m) ← (if value =? 0 then Some (value, m) else m ← store8 m value 0; Some (value + 1, m));
      '(rc, errno, m) ← kernel_arg_set m errno (addr + i * size) start size sign;
      if rc <? 0 then Some (rc, errno, m) else array_loop n' m errno addr value (i + 1) size sign
  end.

Definition kernel_args_set (m : mem) (errno : Z) (pargs : param_args) (param : uk_param) : option (Z * Z * mem) :=
  let sign := Z.land (Z.shiftr (param_type param) PARAM_SIGN_SHIFT) PARAM_SIGN_MASK in
  let scopy := Z.land (Z.shiftr (param_type param) PARAM_SCOPY_SHIFT) PARAM_SCOPY_MASK in
  let size := Z.land (Z.shiftr (param_type param) PARAM_SIZE_SHIFT) PARAM_SIZE_MASK in
  if scopy =? 1 then m ← store64 m (p_addr param) (a_value pargs); Some (0, errno, m)
  else if 1 <? param_size param then array_loop (Z.to_nat (param_size param)) m errno (p_addr param) (a_value pargs) 0 size (negb (sign =? 0))
  else if param_size param =? 1 then kernel_arg_set m errno (p_addr param) (a_value pargs) size (negb (sign =? 0))
  else Some (- EINVAL, errno, m).

(** ** Quotes around the value *)

Definition is_blank (c : Z) : bool := (c =? 32) || (c =? 13) || (c =? 10) || (c =? 9) || (c =? 11).
Definition is_quote (c : Z) : bool := (c =? 39) || (c =? 34).

(** The loop of [kernel_value_sanitize]: [ptr], [start_idx], [end_idx] and [qcnt]. *)
Fixpoint sanitize_loop (k : nat) (m : mem) (ptr start_idx end_idx qcnt : Z) : option (Z * Z * Z * Z) :=
  match k with
  | O => None
  | S k' =>
      c ← load8 m ptr;
      let '(start_idx, end_idx, qcnt) :=
        if is_blank c then (start_idx, end_idx, qcnt)
        else if is_quote c then (if negb (start_idx =? 0) then (start_idx, ptr, qcnt + 1) else (ptr + 1, end_idx, qcnt + 1))
        else (if start_idx =? 0 then ptr else start_idx, end_idx, qcnt) in
      let ptr := ptr + 1 in
      c ← load8 m ptr;
      if negb (c =? 0) && negb (negb (end_idx =? 0) && negb (start_idx =? 0)) then sanitize_loop k' m ptr start_idx end_idx qcnt
      else Some (ptr, start_idx, end_idx, qcnt)
  end.

Definition kernel_value_sanitize (m : mem) (pargs : param_args) : option (Z * param_args * mem) :=
  if a_value pargs =? 0 then None else
  '(ptr, start_idx, end_idx, qcnt) ← sanitize_loop fuel m (a_value pargs) 0 0 0;
  let end_idx := if end_idx =? 0 then ptr else end_idx in
  if qcnt =? 1 then Some (- EINVAL, pargs, m)
  else if negb (start_idx =? 0) && negb (end_idx =? 0) then
    m ← memset m (a_value pargs) 0 (start_idx - a_value pargs);
    m ← memset m end_idx 0 (u64 (a_value pargs + value_len pargs - end_idx));
    Some (0, set_value pargs start_idx (end_idx - start_idx), m)
  else Some (0, pargs, m).

(** ** The command line *)

Inductive outcome :=
| Halted (m : mem)
| Parsed (rc : Z) (argv : list Z) (errno : Z) (m : mem).

Definition HELP : list Z := [45; 45; 104; 101; 108; 112].
Definition VERSION : list Z := [45; 45; 118; 101; 114; 115; 105; 111; 110].

(** [while (cnt < keindex)], for the arguments that are left; [None] in the result: the machine was halted. *)
Fixpoint parse_loop (k : nat) (libs : list uk_lib_section) (m : mem) (errno : Z) (args : list Z) (pargs : param_args) : option (option Z * mem) :=
  match k, args with
  | _, [] => Some (Some errno, m)
  | O, _ => None
  | S k', p :: _ =>
      h ← is_literal m p [45; 104]; hh ← is_literal m p HELP; v ← is_literal m p [45; 86]; vv ← is_literal m p VERSION;
      if (h : bool) || (hh : bool) || (v : bool) || (vv : bool) then Some (None, m) else
      '(rc, args_read, pargs) ← kernel_arg_fetch m args pargs;
      let args := drop (Z.to_nat args_read) args in
      if rc <? 0 then parse_loop k' libs m errno args pargs else
      '(rc, section, pargs) ← kernel_lib_fetch m libs pargs;
      match section with
      | None => parse_loop k' libs m errno args pargs
      | Some section =>
          '(rc, param) ← kernel_parse_arg m (sec_params section) pargs;
          match param with
          | None => parse_loop k' libs m errno args pargs
          | Some param =>
              '(rc, pargs, m) ← kernel_value_sanitize m pargs;
              if rc <? 0 then parse_loop k' libs m errno args pargs else
              '(rc, errno, m) ← kernel_args_set m errno pargs param;
              parse_loop k' libs m errno args pargs
          end
      end
  end.

Definition uk_libparam_parse (libs : list uk_lib_section) (m : mem) (errno progname : Z) (argv : list Z) : option outcome :=
  keindex ← kernel_arg_range_fetch m argv 0;
  if keindex <? 0 then Some (Parsed 0 argv errno m) else
  '(errno', m) ← parse_loop (Z.to_nat keindex) libs m errno (take (Z.to_nat keindex) argv) (Pargs 0 0 0 0 0 0);
  match errno' with
  | None => Some (Halted m)
  | Some errno => Some (Parsed (keindex + 1) (<[Z.to_nat keindex := progname]> argv) errno m)
  end.
End Run.

(** Decide the comparisons of the goal by arithmetic. *)
Ltac atoms :=
  repeat (match goal with
  | |- context [?a =? ?b] => first [rewrite (proj2 (Z.eqb_eq a b)) by lia|rewrite (proj2 (Z.eqb_neq a b)) by lia]
  | |- context [?a <? ?b] => first [rewrite (proj2 (Z.ltb_lt a b)) by lia|rewrite (proj2 (Z.ltb_ge a b)) by lia]
  end; cbn [negb andb orb]).

(** ** Strings in a zone that is not written *)

Section Proofs.
Context (fuel : nat) (safe : Z -> Prop).

(** The string [l] at [p], with the words it is in; it may be read with [fuel]. *)
Record str (m : mem) (p : Z) (l : list Z) : Prop := {
  s_cstr : cstr m p l;
  s_words : words_mapped m p (p + zlen l);
  s_safe : forall a, p <= a < 8 * ((p + zlen l) / 8) + 8 -> safe a;
  s_fuel : (length l < fuel)%nat;
  s_len : zlen l < 2 ^ 31;
  s_ptr : 0 < p;
  s_end : p + zlen l < 2 ^ 64
}.

(** The zone is as it was, and all mapped addresses still are, and hold bytes. *)
Record kept (m m' : mem) : Prop := {
  k_safe : forall a, safe a -> m' !! a = m !! a;
  k_mapped : forall a, is_Some (m !! a) -> is_Some (m' !! a);
  k_bytes : bytes_ok m -> bytes_ok m'
}.

Lemma kept_refl m : kept m m.
Proof using. by split. Qed.

Lemma str_kept m m' p l : kept m m' -> str m p l -> str m' p l.
Proof using.
  intros [A1 A2 A3] [H1 H2 H3 H4 H5 H6 H7]. split; try done; [|intros a Ha; by apply A2, H2].
  eapply cstr_agree; [exact H1|]. intros a Ha. apply A1, H3. pose proof (Z.div_mod (p + zlen l) 8 ltac:(lia)). pose proof (Z.mod_pos_bound (p + zlen l) 8 ltac:(lia)). lia.
Qed.

Lemma str_suffix m p l1 l2 : str m p (l1 ++ l2) -> str m (p + zlen l1) l2.
Proof using.
  intros [H1 H2 H3 H4 H5 H6 H7]. rewrite length_app in *. split; try lia; [by apply cstr_app|..]; replace (p + zlen l1 + zlen l2) with (p + Z.of_nat (length l1 + length l2)) by lia.
  - intros a Ha. apply H2. lia.
  - intros a Ha. apply H3. lia.
Qed.

Lemma strlen_str m p l : str m p l -> strlen fuel m p = Some (zlen l).
Proof using. intros [H1 H2 H3 H4 H5 H6 H7]. apply strlen_spec; [done|done|]. unfold SIZE_MAX. lia. Qed.

Lemma strchr_str m p l c : bytes_ok m -> str m p l -> 0 < c < 256 ->
  null <$> strchr fuel m p c = Some (if idx c l <? zlen l then p + idx c l else 0).
Proof using.
  intros Hok [H1 H2 H3 H4 H5 H6 H7] Hc. destruct (strchr_correct fuel m p l c Hok H1 H2) as (_ & -> & _); [unfold SIZE_MAX; lia|done|done|]. cbn. by destruct (_ <? _).
Qed.

Lemma memrchr_notin m p l k c : bytes_at m p l -> c ∉ l -> (k <= length l)%nat -> memrchr_loop k m p c = Some None.
Proof using.
  intros Hb Hc. induction k as [|k IH]; intros Hk; cbn [memrchr_loop]; [done|]. destruct (lookup_lt_is_Some_2 l k Hk) as [x Hx]. unfold load8. rewrite (Hb _ _ Hx). cbn [mbind option_bind].
  rewrite (proj2 (Z.eqb_neq x c)) by (intros ->; by apply Hc, (list_elem_of_lookup_2 _ k)). apply IH. lia.
Qed.

Lemma memrchr_last m p l1 c l2 : bytes_at m p (l1 ++ c :: l2) -> c ∉ l2 -> memrchr_loop (length (l1 ++ c :: l2)) m p c = Some (Some (p + zlen l1)).
Proof using.
  induction l2 as [|x l2 IH] using rev_ind; intros Hb Hc; rewrite length_app in *; cbn [length] in *.
  - replace (length l1 + 1)%nat with (S (length l1)) by lia. cbn [memrchr_loop]. unfold load8. rewrite (Hb (length l1) c) by (by rewrite list_lookup_middle). cbn. by rewrite Z.eqb_refl.
  - rewrite length_app. cbn [length]. replace (length l1 + S (length l2 + 1))%nat with (S (length l1 + S (length l2))) by lia. cbn [memrchr_loop]. unfold load8.
    assert (E : l1 ++ c :: l2 ++ [x] = (l1 ++ c :: l2) ++ [x]) by (by rewrite <- app_assoc).
    rewrite (Hb (length l1 + S (length l2))%nat x) by (rewrite E, lookup_app_r by (rewrite length_app; cbn; lia); rewrite length_app; cbn; by replace (_ - _)%nat with 0%nat by lia).
    cbn [mbind option_bind]. apply not_elem_of_app in Hc as [Hc Hx]. rewrite (proj2 (Z.eqb_neq x c)) by (intros ->; apply Hx, list_elem_of_here). apply IH; [|done].
    rewrite E in Hb. by apply bytes_at_app in Hb as [Hb _].
Qed.

(** The last "=" of a string: none, or the only one. *)
Lemma strrchr_none m p l c : str m p l -> 0 < c < 256 -> c ∉ l -> null <$> strrchr fuel m p c = Some 0.
Proof using.
  intros H Hc Hn. unfold strrchr. rewrite (strlen_str _ _ _ H). destruct H as [[B1 B2 B3] _ _ _ H5 _ _]. cbn [mbind option_bind]. unfold memrchr. rewrite !wrap_small by (unfold in_u; lia).
  rewrite (memrchr_notin m p (l ++ [0])); [done| | |rewrite length_app; cbn; lia].
  - apply bytes_at_app. split; [done|]. apply bytes_at_cons. split; [done|]. by intros i x Hi.
  - apply not_elem_of_app. split; [done|]. intros E. apply list_elem_of_singleton in E. lia.
Qed.

Lemma strrchr_one m p l1 l2 c : str m p (l1 ++ c :: l2) -> 0 < c < 256 -> c ∉ l2 -> null <$> strrchr fuel m p c = Some (p + zlen l1).
Proof using.
  intros H Hc Hn. unfold strrchr. rewrite (strlen_str _ _ _ H). destruct H as [[B1 B2 B3] _ _ _ H5 _ _]. cbn [mbind option_bind]. unfold memrchr. rewrite !wrap_small by (unfold in_u; lia).
  replace (Z.to_nat (zlen (l1 ++ c :: l2) + 1)) with (length (l1 ++ c :: (l2 ++ [0]))) by (rewrite !length_app; cbn; rewrite length_app; cbn; lia).
  rewrite (memrchr_last m p l1 c (l2 ++ [0])); [done| |].
  - replace (l1 ++ c :: l2 ++ [0]) with ((l1 ++ c :: l2) ++ [0]) by (by rewrite <- app_assoc). apply bytes_at_app. split; [done|]. apply bytes_at_cons. split; [done|]. by intros i x Hi.
  - apply not_elem_of_app. split; [done|]. intros E. apply list_elem_of_singleton in E. lia.
Qed.

(** ** Reading one setting *)

(** The ways to spell that [name] is [value]. *)
Inductive spells (name value : list Z) : list (list Z) -> Prop :=
| sp_one : spells name value [name ++ 61 :: value]
| sp_left : spells name value [name ++ [61]; value]
| sp_right : spells name value [name; 61 :: value]
| sp_three : spells name value [name; [61]; value].

Record fetched (m : mem) (p : param_args) (name value : list Z) : Prop := {
  f_name : bytes_at m (a_param p) name;
  f_nlen : param_len p = zlen name;
  f_value : str m (a_value p) value;
  f_vlen : value_len p = zlen value
}.

Lemma fetch_end m args i e1 e2 cnt pargs : param_len pargs <> 0 -> value_len pargs <> 0 -> fetch_loop fuel m args i e1 e2 cnt pargs = Some (0, cnt, pargs).
Proof using. intros H1 H2. destruct args; cbn [fetch_loop]; atoms; done. Qed.

Lemma u32_len (l : list Z) : zlen l < 2 ^ 31 -> u32 (zlen l) = zlen l.
Proof using. intros H. apply wrap_small. unfold in_u. lia. Qed.

(** The three kinds of arguments: with one "=" inside, alone without, and as the value. *)
Lemma arg_with m p l1 l2 : bytes_ok m -> str m p (l1 ++ 61 :: l2) -> 61 ∉ l1 -> 61 ∉ l2 ->
  strlen fuel m p = Some (zlen l1 + 1 + zlen l2) /\ null <$> strchr fuel m p 61 = Some (p + zlen l1) /\ null <$> strrchr fuel m p 61 = Some (p + zlen l1).
Proof using.
  intros Hok H H1 H2. rewrite (strlen_str _ _ _ H), (strchr_str _ _ _ _ Hok H), (strrchr_one _ _ _ _ _ H) by (done || lia). rewrite idx_app by done. cbn [idx]. change (61 =? 61) with true.
  rewrite length_app. cbn [length]. split; [f_equal; lia|]. rewrite Z.add_0_r, (proj2 (Z.ltb_lt _ _)) by lia. done.
Qed.

Lemma arg_without m p l : bytes_ok m -> str m p l -> 61 ∉ l ->
  strlen fuel m p = Some (zlen l) /\ null <$> strchr fuel m p 61 = Some 0 /\ null <$> strrchr fuel m p 61 = Some 0.
Proof using.
  intros Hok H H1. rewrite (strlen_str _ _ _ H), (strchr_str _ _ _ _ Hok H), (strrchr_none _ _ _ _ H), idx_notin, Z.ltb_irrefl by (done || lia). done.
Qed.

Lemma fetch_step m arg args i eqp equals cnt pargs len e d :
  strlen fuel m arg = Some len -> (if eqp =? 0 then null <$> strchr fuel m arg 61 else Some eqp) = Some e -> null <$> strrchr fuel m arg 61 = Some d -> value_len pargs = 0 \/ param_len pargs = 0 ->
  fetch_loop fuel m (arg :: args) i eqp equals cnt pargs =
  if negb (e =? 0) && negb (d =? 0) && negb (e =? d) then Some (- EINVAL, cnt + 1, pargs)
  else if equals <? 0 then
    if negb (e =? 0) && (1 <? len) && (e - arg =? len - 1) then fetch_loop fuel m args (i + 1) e i (cnt + 1) (set_param pargs arg (len - 1))
    else if negb (e =? 0) && (1 <? len) && (e =? arg) then fetch_loop fuel m args (i + 1) e i (cnt + 1) (set_value pargs (e + 1) (len - 1))
    else if negb (e =? 0) && (len =? 1) then fetch_loop fuel m args (i + 1) e i (cnt + 1) pargs
    else if negb (e =? 0) then fetch_loop fuel m args (i + 1) e i (cnt + 1) (set_value (set_param pargs arg (e - arg)) (e + 1) (len - (param_len (set_param pargs arg (e - arg)) + 1)))
    else fetch_loop fuel m args (i + 1) e equals (cnt + 1) (set_param pargs arg len)
  else fetch_loop fuel m args (i + 1) e equals (cnt + 1) (set_value pargs arg len).
Proof using.
  intros E1 E2 E3 Hl. cbn [fetch_loop]. assert (Hb : (value_len pargs =? 0) || (param_len pargs =? 0) = true) by (apply orb_true_iff; rewrite !Z.eqb_eq; done).
  rewrite Hb, E1, E2, E3. done.
Qed.

(** The fields that the steps leave. *)
Lemma fetched_intro m pargs p q name value : bytes_at m p name -> str m q value -> zlen name < 2 ^ 31 -> fetched m (set_value (set_param pargs p (zlen name)) q (zlen value)) name value.
Proof using. intros Hn Hv Hl. split; cbn; [done|by apply u32_len|done|apply u32_len, Hv]. Qed.

Lemma fetch_done m args i e1 e2 cnt pargs name value : fetched m pargs name value -> name <> [] -> value <> [] -> fetch_loop fuel m args i e1 e2 cnt pargs = Some (0, cnt, pargs).
Proof using. intros [_ H1 _ H2] Hn Hv. apply fetch_end; [rewrite H1; destruct name|rewrite H2; destruct value]; done. Qed.

Lemma fetch_spec m name value ptrs strs more pargs : bytes_ok m -> spells name value strs -> Forall2 (str m) ptrs strs -> name <> [] -> value <> [] -> 61 ∉ name -> 61 ∉ value ->
  exists pargs', kernel_arg_fetch fuel m (ptrs ++ more) pargs = Some (0, zlen ptrs, pargs') /\ fetched m pargs' name value.
Proof using.
  intros Hok Hs Hp Hn Hv En Ev. assert (Ln : 0 < zlen name) by (destruct name; [done|cbn; lia]). assert (Lv : 0 < zlen value) by (destruct value; [done|cbn; lia]).
  unfold kernel_arg_fetch. set (p0 := Pargs _ 0 0 _ 0 0). assert (E61 : 61 ∉ ([] : list Z)) by apply not_elem_of_nil. destruct Hs.
  - apply Forall2_cons_inv_r in Hp as (p & ps & Hp & Hps & ->). apply Forall2_nil_inv_r in Hps as ->. pose proof (s_len _ _ _ Hp) as Hl. pose proof (s_ptr _ _ _ Hp). rewrite length_app in Hl. cbn in Hl.
    destruct (arg_with m p name value Hok Hp En Ev) as (E1 & E2 & E3). cbn [app]. rewrite (fetch_step m p more 0 0 (-1) 0 p0 _ _ _ E1 E2 E3) by (by left). atoms.
    cbn [param_len set_param]. rewrite Z.add_simpl_l, (u32_len name) by lia. replace (zlen name + 1 + zlen value - (zlen name + 1)) with (zlen value) by lia.
    assert (F : fetched m (set_value (set_param p0 p (zlen name)) (p + zlen name + 1) (zlen value)) name value).
    { apply fetched_intro; [apply (bytes_at_app m p name (61 :: value)), Hp| |lia]. replace (p + zlen name + 1) with (p + zlen (name ++ [61])) by (rewrite length_app; cbn; lia). apply str_suffix. by rewrite <- app_assoc. }
    eexists. split; [by apply (fetch_done _ _ _ _ _ _ _ _ _ F)|exact F].
  - apply Forall2_cons_inv_r in Hp as (p & ps & Hp & Hps & ->). apply Forall2_cons_inv_r in Hps as (q & qs & Hq & Hqs & ->). apply Forall2_nil_inv_r in Hqs as ->.
    pose proof (s_len _ _ _ Hp) as Hl. pose proof (s_ptr _ _ _ Hp). pose proof (s_len _ _ _ Hq). rewrite length_app in Hl. cbn in Hl.
    destruct (arg_with m p name [] Hok Hp En E61) as (E1 & E2 & E3). destruct (arg_without m q value Hok Hq Ev) as (G1 & G2 & G3). cbn [length] in E1. cbn [app].
    rewrite (fetch_step m p _ 0 0 (-1) 0 p0 _ _ _ E1 E2 E3) by (by left). atoms. rewrite (fetch_step m q more _ _ 0 _ _ (zlen value) (p + zlen name) 0); [|done|by atoms|done|by left]. atoms.
    replace (zlen name + 1 + Z.of_nat 0 - 1) with (zlen name) by lia. assert (F : fetched m (set_value (set_param p0 p (zlen name)) q (zlen value)) name value).
    { apply fetched_intro; [apply (bytes_at_app m p name [61]), Hp|done|lia]. }
    eexists. split; [by apply (fetch_done _ _ _ _ _ _ _ _ _ F)|exact F].
  - apply Forall2_cons_inv_r in Hp as (p & ps & Hp & Hps & ->). apply Forall2_cons_inv_r in Hps as (q & qs & Hq & Hqs & ->). apply Forall2_nil_inv_r in Hqs as ->.
    pose proof (s_len _ _ _ Hp) as Hl. pose proof (s_ptr _ _ _ Hq). pose proof (s_len _ _ _ Hq) as Hl'. cbn in Hl'.
    destruct (arg_without m p name Hok Hp En) as (E1 & E2 & E3). destruct (arg_with m q [] value Hok Hq E61 Ev) as (G1 & G2 & G3). cbn [length] in G1, G2, G3. cbn [app].
    rewrite (fetch_step m p _ 0 0 (-1) 0 p0 _ _ _ E1 E2 E3) by (by left). atoms. rewrite (fetch_step m q more _ 0 (-1) _ _ _ _ _ G1 G2 G3) by (by left). atoms.
    replace (Z.of_nat 0 + 1 + zlen value - 1) with (zlen value) by lia. assert (F : fetched m (set_value (set_param p0 p (zlen name)) (q + Z.of_nat 0 + 1) (zlen value)) name value).
    { apply fetched_intro; [apply Hp| |lia]. replace (q + Z.of_nat 0 + 1) with (q + zlen [61]) by (cbn; lia). by apply str_suffix. }
    eexists. split; [by apply (fetch_done _ _ _ _ _ _ _ _ _ F)|exact F].
  - apply Forall2_cons_inv_r in Hp as (p & ps & Hp & Hps & ->). apply Forall2_cons_inv_r in Hps as (q & qs & Hq & Hqs & ->). apply Forall2_cons_inv_r in Hqs as (r & rs & Hr & Hrs & ->).
    apply Forall2_nil_inv_r in Hrs as ->. pose proof (s_len _ _ _ Hp) as Hl. pose proof (s_ptr _ _ _ Hq). pose proof (s_len _ _ _ Hr) as Hl'.
    destruct (arg_without m p name Hok Hp En) as (E1 & E2 & E3). destruct (arg_with m q [] [] Hok Hq E61 E61) as (G1 & G2 & G3). destruct (arg_without m r value Hok Hr Ev) as (K1 & K2 & K3).
    cbn [length] in G1, G2, G3. cbn [app]. rewrite (fetch_step m p _ 0 0 (-1) 0 p0 _ _ _ E1 E2 E3) by (by left). atoms. rewrite (fetch_step m q _ _ 0 (-1) _ _ _ _ _ G1 G2 G3) by (by left). atoms.
    rewrite (fetch_step m r more _ _ 1 _ _ (zlen value) (q + Z.of_nat 0) 0); [|done|by atoms|done|by left]. atoms.
    assert (F : fetched m (set_value (set_param p0 p (zlen name)) r (zlen value)) name value) by (apply fetched_intro; [apply Hp|done|lia]).
    eexists. split; [by apply (fetch_done _ _ _ _ _ _ _ _ _ F)|exact F].
Qed.

(** ** Finding the parameter *)

Lemma lex_zero l1 : forall l2, length l1 = length l2 -> lex l1 l2 = 0 <-> l1 = l2.
Proof using.
  induction l1 as [|x l1 IH]; intros [|y l2] Hl; cbn in *; try lia; [done|]. destruct (Z.eqb_spec x y) as [->|Hne]; [rewrite IH by lia; split; [by intros ->|by intros [= ->]]|].
  split; [lia|by intros [= -> _]].
Qed.

(** Comparing a registered name with [n] bytes at [p]. *)
Lemma name_test m q l p key : str m q l -> bytes_at m p key ->
  strlen fuel m q = Some (zlen l) /\ (zlen l = zlen key -> (exists r, memcmp m p q (zlen key) = Some r /\ (r = 0 <-> l = key)) /\ exists r, memcmp m q p (zlen key) = Some r /\ (r = 0 <-> l = key)).
Proof using.
  intros H Hk. split; [by apply strlen_str|]. intros Hl. destruct H as [[Hb _ _] _ _ _ _ _ _]. split.
  - rewrite (memcmp_spec m p key q l) by (done || lia). eexists. split; [done|]. rewrite lex_zero by lia. split; by intros ->.
  - rewrite <- Hl. rewrite (memcmp_spec m q l p key) by (done || lia). eexists. split; [done|]. rewrite lex_zero by lia. done.
Qed.

(** The first of [xs] whose name, in the list [ns], is [key]. *)
Fixpoint named {A} (ns : list (list Z)) (xs : list A) (key : list Z) : option A :=
  match ns, xs with
  | n :: ns', x :: xs' => if decide (n = key) then Some x else named ns' xs' key
  | _, _ => None
  end.

Lemma find_lib_spec m p key libs ns : bytes_at m p key -> Forall2 (fun x n => str m (lib_name x) n) libs ns -> find_lib fuel m libs p (zlen key) = Some (named ns libs key).
Proof using.
  intros Hk H. induction H as [|x n libs ns Hx H IH]; cbn [find_lib named]; [done|]. destruct (name_test m _ _ p key Hx Hk) as [-> Ht]. cbn [mbind option_bind].
  destruct (Z.eqb_spec (zlen n) (zlen key)) as [E|E].
  - destruct (Ht E) as [(r & -> & Hr) _]. cbn [mbind option_bind]. destruct (Z.eqb_spec r 0) as [Ez|Ez]; [by rewrite decide_True by (by apply Hr)|].
    by rewrite decide_False by (intros Hd; by apply Ez, Hr).
  - by rewrite decide_False by (intros ->; lia).
Qed.

Lemma parse_arg_spec m pargs key params ns : bytes_at m (a_param pargs) key -> param_len pargs = zlen key -> Forall2 (fun x n => str m (p_name x) n) params ns ->
  kernel_parse_arg fuel m params pargs = Some (match named ns params key with Some p => (0, Some p) | None => (- EINVAL, None) end).
Proof using.
  intros Hk Hl H. induction H as [|x n params ns Hx H IH]; cbn [kernel_parse_arg named]; [done|]. rewrite (proj2 (Z.eqb_neq (p_name x) 0)) by (pose proof (s_ptr _ _ _ Hx); lia). rewrite Hl.
  destruct (name_test m _ _ _ key Hx Hk) as [-> Ht]. cbn [mbind option_bind]. destruct (Z.eqb_spec (zlen n) (zlen key)) as [E|E].
  - destruct (Ht E) as [_ (r & -> & Hr)]. cbn [mbind option_bind]. destruct (Z.eqb_spec r 0) as [Ez|Ez]; [by rewrite decide_True by (by apply Hr)|].
    by rewrite decide_False by (intros Hd; by apply Ez, Hr).
  - by rewrite decide_False by (intros ->; lia).
Qed.

Lemma memchr_first m p l1 c l2 k o len : bytes_at m (p + o) (l1 ++ c :: l2) -> c ∉ l1 -> byte c -> (length l1 < k)%nat -> o + zlen l1 < len ->
  memchr_loop k m p o c len = Some (Some (p + o + zlen l1)).
Proof using.
  revert k o. induction l1 as [|x l1 IH]; intros k o Hb Hc Hby Hk Hl; (destruct k; [lia|]); cbn [memchr_loop length app] in *; rewrite (proj2 (Z.ltb_lt o len)) by lia; unfold load8;
    apply bytes_at_cons in Hb as [Hx Hb]; rewrite Hx; cbn [mbind option_bind]; rewrite (wrap_small 8 c) by done.
  - rewrite Z.eqb_refl, Z.add_0_r. done.
  - apply not_elem_of_cons in Hc as [Hne Hc]. rewrite (proj2 (Z.eqb_neq x c)) by congruence. rewrite IH; [do 2 f_equal; lia|by replace (p + (o + 1)) with (p + o + 1) by lia|done|done|lia|lia].
Qed.

Lemma lib_fetch_spec m libs ns pargs lib rest : bytes_at m (a_param pargs) (lib ++ 46 :: rest) -> param_len pargs = zlen (lib ++ 46 :: rest) -> 46 ∉ lib -> (length lib < fuel)%nat ->
  Forall2 (fun x n => str m (lib_name x) n) libs ns ->
  exists rc pargs', kernel_lib_fetch fuel m libs pargs = Some (rc, named ns libs lib, pargs') /\ a_param pargs' = a_param pargs /\ param_len pargs' = param_len pargs /\ a_value pargs' = a_value pargs /\ value_len pargs' = value_len pargs.
Proof using.
  intros Hb Hl Hd Hf Hlibs. unfold kernel_lib_fetch, memchr. cbn [set_lib_len a_param param_len]. rewrite length_app in Hl. cbn in Hl.
  rewrite (memchr_first m (a_param pargs) lib 46 rest) by (rewrite ?Z.add_0_r; done || unfold byte; lia). cbn [mbind option_bind]. rewrite Z.add_0_r.
  replace (a_param pargs + zlen lib - a_param pargs) with (zlen lib) by lia. apply bytes_at_app in Hb as [Hb _]. rewrite (find_lib_spec m _ lib libs ns) by done. cbn [mbind option_bind].
  destruct (named ns libs lib) eqn:E; eexists _, _; (split; [done|]); done.
Qed.

(** ** Quotes *)

Definition plain (c : Z) : Prop := is_blank c = false /\ is_quote c = false.

Lemma sanitize_loop_plain m start l : forall k ptr, 0 < start -> cstr m ptr l -> l <> [] -> Forall plain l -> (length l <= k)%nat ->
  sanitize_loop k m ptr start 0 0 = Some (ptr + zlen l, start, 0, 0).
Proof using.
  induction l as [|c l IH]; intros k ptr Hs Hc Hne Hp Hk; [done|]. destruct k; [cbn in Hk; lia|]. cbn [sanitize_loop]. apply Forall_cons in Hp as [[P1 P2] Hp].
  apply cstr_cons in Hc as (Hx & _ & Hc). unfold load8. rewrite Hx. cbn [mbind option_bind]. rewrite P1, P2, (proj2 (Z.eqb_neq start 0)) by lia.
  destruct l as [|d l]; [apply cstr_nil in Hc; rewrite Hc; cbn; done|]. pose proof Hc as Hc'. apply cstr_cons in Hc' as (Hd & Hd' & _). rewrite Hd. cbn [mbind option_bind].
  rewrite (proj2 (Z.eqb_neq d 0)) by lia. cbn [negb andb Z.eqb]. rewrite IH; [do 4 f_equal; cbn [length]; lia|done|done|done|done|cbn in *; lia].
Qed.

Lemma sanitize_plain m pargs l : str m (a_value pargs) l -> l <> [] -> Forall plain l -> value_len pargs = zlen l -> kernel_value_sanitize fuel m pargs = Some (0, set_value pargs (a_value pargs) (zlen l), m).
Proof using.
  intros [Hc _ _ Hf Hl Hp He] Hne Hpl Hv. unfold kernel_value_sanitize. rewrite (proj2 (Z.eqb_neq _ 0)) by lia.
  assert (E : sanitize_loop fuel m (a_value pargs) 0 0 0 = Some (a_value pargs + zlen l, a_value pargs, 0, 0)).
  { rewrite <- (sanitize_loop_plain m (a_value pargs) l fuel (a_value pargs)) by (done || lia). destruct l as [|c l]; [done|]. destruct fuel; [cbn in Hf; lia|]. cbn [sanitize_loop].
    apply Forall_cons in Hpl as [[P1 P2] _]. apply cstr_cons in Hc as (Hx & _ & _). unfold load8. rewrite Hx. cbn [mbind option_bind]. rewrite P1, P2. change (0 =? 0) with true. cbn iota.
    by rewrite (proj2 (Z.eqb_neq (a_value pargs) 0)) by lia. }
  rewrite E. cbn [mbind option_bind]. change (0 =? 0) with true. change (0 =? 1) with false. cbn iota. rewrite !(proj2 (Z.eqb_neq _ 0)) by lia. cbn [negb andb].
  rewrite Z.sub_diag, Hv, Z.sub_diag. rewrite Z.add_simpl_l. done.
Qed.

(** ** Setting a number *)

Definition psign (p : uk_param) : bool := negb (Z.land (Z.shiftr (param_type p) PARAM_SIGN_SHIFT) PARAM_SIGN_MASK =? 0).
Definition psize (p : uk_param) : Z := Z.land (Z.shiftr (param_type p) PARAM_SIZE_SHIFT) PARAM_SIZE_MASK.

(** A parameter that is one number, apart from the strings. *)
Record numeric (m : mem) (p : uk_param) : Prop := {
  n_type : exists sign size, param_type p = PARAM_TYPE (if sign : bool then 1 else 0) 0 size /\ (size = 2 \/ size = 4 \/ size = 8 \/ size = 1 /\ sign = false);
  n_one : param_size p = 1;
  n_addr : p_addr p <> 0;
  n_mapped : mapped m (p_addr p) (psize p);
  n_apart : forall a, p_addr p <= a < p_addr p + psize p -> ~ safe a
}.

(** Whether the conversion for the type of the parameter can represent the number. *)
Definition fits (p : uk_param) (x : Strto.numeral) : bool :=
  if psign p then (Strto.LONG_MIN <=? Strto.n_signed x) && (Strto.n_signed x <=? Strto.LONG_MAX) else Strto.n_value x <=? Strto.ULONG_MAX.

(** The memory with the number that [text] says in the parameter. *)
Definition written (m : mem) (p : uk_param) (text : list Z) : mem :=
  let x := Strto.read_number 10 text in
  if fits p x then default m (store_le m (p_addr p) (wrap (8 * psize p) (Strto.n_signed x)) (Z.to_nat (psize p))) else m.

Lemma mod_pow_pow v a b : 0 <= a <= b -> (v mod 2 ^ b) mod 2 ^ a = v mod 2 ^ a.
Proof using.
  intros H. replace b with (a + (b - a)) by lia. rewrite Z.pow_add_r by lia. rewrite Z.rem_mul_r by (try apply Z.pow_nonzero; lia || apply Z.pow_pos_nonneg; lia).
  rewrite Z.mul_comm, Z_mod_plus_full. apply Z.mod_mod, Z.pow_nonzero; lia.
Qed.

Lemma number_set_spec fn (size width : Z) m value addr x v errno : fn fuel m 0 value 0 10 = Some (x, errno, m) -> 0 < size -> 8 * size <= width -> (size = 8 -> width = 64) -> (size <> 8 -> 8 * size < 64) ->
  (errno = 0 -> wrap width x = wrap width v) -> is_Some (store_le m addr (wrap (8 * size) v) (Z.to_nat size)) ->
  exists error, NUMBER_SET fuel fn size width m value addr = Some (error, errno, if errno =? 0 then default m (store_le m addr (wrap (8 * size) v) (Z.to_nat size)) else m).
Proof using.
  intros E Hs Hw H8 H8' Hx [m' Hm]. unfold NUMBER_SET. rewrite E. cbn [mbind option_bind]. destruct (Z.eqb_spec errno 0) as [->|Hne]; cbn [negb]; [|by eexists].
  rewrite (Hx eq_refl). assert (Emax : (if size =? 8 then wrap width (-1) else u64 (Z.shiftl 1 (8 * size)) - 1) = 2 ^ (8 * size) - 1).
  { destruct (Z.eqb_spec size 8) as [->|Hn8]; [rewrite H8 by done; by vm_compute|]. rewrite Z.shiftl_1_l, wrap_small; [done|]. unfold in_u. split; [apply Z.pow_nonneg; lia|apply Z.pow_lt_mono_r; lia]. }
  rewrite Emax, land_mask by lia. assert (Ew : wrap (8 * size) (wrap width v mod 2 ^ (8 * size)) = wrap (8 * size) v) by (unfold wrap; rewrite Zmod_mod; apply mod_pow_pow; lia). rewrite Ew, Hm. cbn. by eexists.
Qed.

Lemma store_bytes m a n w : mapped m a (Z.of_nat n) -> 0 <= w < 256 ^ Z.of_nat n ->
  exists m', store_le m a w n = Some m' /\ (bytes_ok m -> bytes_ok m') /\ (forall x, is_Some (m !! x) -> is_Some (m' !! x)) /\ forall x, ~ (a <= x < a + Z.of_nat n) -> m' !! x = m !! x.
Proof using.
  intros Hm Hw. destruct (Strto.le_bytes n w Hw) as (bs & <- & Hbs & <-). destruct (store_le_spec bs m a Hbs Hm) as (m' & E & Hat & Hf). exists m'. split; [done|].
  assert (Hin : forall x, a <= x < a + zlen bs -> exists b, m' !! x = Some b /\ byte b).
  { intros x Hx. destruct (lookup_lt_is_Some_2 bs (Z.to_nat (x - a)) ltac:(lia)) as [b Hb]. exists b. split; [|by eapply Forall_lookup_1; [exact Hbs|]].
    specialize (Hat _ _ Hb). rewrite Z2Nat.id in Hat by lia. by replace (a + (x - a)) with x in Hat by lia. }
  split; [|split; [|done]].
  - intros Hok x y Hy. destruct (decide (a <= x < a + zlen bs)) as [Hx|Hx]; [destruct (Hin x Hx) as (b & Hb & Hby); congruence|]. rewrite Hf in Hy by done. by eapply Hok.
  - intros x Hx. destruct (decide (a <= x < a + zlen bs)) as [Hi|Hi]; [destruct (Hin x Hi) as (b & Hb & _); eauto|]. by rewrite Hf.
Qed.

Lemma numeric_size m p : numeric m p -> psize p = 1 \/ psize p = 2 \/ psize p = 4 \/ psize p = 8.
Proof using. intros [(sign & size & E & H) _ _ _ _]. unfold psize. rewrite E. destruct H as [-> |[-> |[-> |[-> ->]]]]; try destruct sign; vm_compute; tauto. Qed.

Lemma numeric_store m p v : numeric m p -> exists m', store_le m (p_addr p) (wrap (8 * psize p) v) (Z.to_nat (psize p)) = Some m' /\ kept m m'.
Proof using.
  intros H. pose proof (numeric_size m p H) as Hs. destruct H as [_ _ _ Hm Ha]. assert (Hn : Z.of_nat (Z.to_nat (psize p)) = psize p) by lia.
  destruct (store_bytes m (p_addr p) (Z.to_nat (psize p)) (wrap (8 * psize p) v)) as (m' & E & H1 & H2 & H3).
  - by rewrite Hn.
  - rewrite Hn. change 256 with (2 ^ 8). rewrite <- Z.pow_mul_r by lia. apply wrap_range. lia.
  - exists m'. split; [done|]. split; [|done|done]. intros a Hsafe. apply H3. rewrite Hn. intros Hin. by apply (Ha a).
Qed.

Lemma written_kept m p text : numeric m p -> kept m (written m p text).
Proof using.
  intros H. unfold written. destruct (fits _ _); [|apply kept_refl]. destruct (numeric_store m p (Strto.n_signed (Strto.read_number 10 text)) H) as (m' & -> & Hk). done.
Qed.

(** The conversions in the form that [NUMBER_SET] uses. *)
Lemma conversion_spec m value text (sign : bool) : str m value text ->
  let x := Strto.read_number 10 text in
  exists r errno, (if sign then Strto.strtol else Strto.strtoul) fuel m 0 value 0 10 = Some (r, errno, m) /\
    (errno = 0 <-> (if sign then (Strto.LONG_MIN <=? Strto.n_signed x) && (Strto.n_signed x <=? Strto.LONG_MAX) else Strto.n_value x <=? Strto.ULONG_MAX) = true) /\
    (errno = 0 -> forall w, w <= 64 -> 0 <= w -> wrap w r = wrap w (Strto.n_signed x)).
Proof using.
  intros [Hc _ _ Hf Hl Hp He]. cbn zeta. destruct sign.
  - destruct (Strto.strtol_spec fuel m 0 value 0 10 text Hc Hf ltac:(lia) ltac:(lia) He ltac:(by left)) as (m' & E & ->). rewrite E. eexists _, _. split; [done|].
    destruct (_ && _) eqn:Eb; [|split; done]. split; [done|]. intros _ w _ _. tests. unfold Strto.clamp. rewrite Z.min_r, Z.max_r by lia. done.
  - destruct (Strto.strtoul_spec fuel m 0 value 0 10 text Hc Hf ltac:(lia) ltac:(lia) He ltac:(by left)) as (m' & E & ->). rewrite E. eexists _, _. split; [done|].
    destruct (_ <=? _) eqn:Eb; [|split; done]. split; [done|]. intros _ w Hw H0. apply mod_pow_pow. lia.
Qed.

Lemma arg_set_spec m errno p text value : numeric m p -> str m value text ->
  exists rc errno', kernel_arg_set fuel m errno (p_addr p) value (psize p) (psign p) = Some (rc, errno', written m p text).
Proof using.
  intros Hn Hv. destruct (conversion_spec m value text (psign p) Hv) as (r & e & E & Hfit & Hr). unfold kernel_arg_set, written, fits. rewrite (proj2 (Z.eqb_neq _ 0)) by apply Hn.
  assert (Hstore : is_Some (store_le m (p_addr p) (wrap (8 * psize p) (Strto.n_signed (Strto.read_number 10 text))) (Z.to_nat (psize p)))).
  { destruct (numeric_store m p (Strto.n_signed (Strto.read_number 10 text)) Hn) as (m' & Em & _). eauto. }
  assert (Hset : forall width, (width = 32 /\ psize p <= 4 \/ width = 64 /\ psize p = 8) -> exists error, NUMBER_SET fuel (if psign p then Strto.strtol else Strto.strtoul) (psize p) width m value (p_addr p) =
    Some (error, e, if (if psign p then (Strto.LONG_MIN <=? Strto.n_signed (Strto.read_number 10 text)) && (Strto.n_signed (Strto.read_number 10 text) <=? Strto.LONG_MAX) else Strto.n_value (Strto.read_number 10 text) <=? Strto.ULONG_MAX)
      then default m (store_le m (p_addr p) (wrap (8 * psize p) (Strto.n_signed (Strto.read_number 10 text))) (Z.to_nat (psize p))) else m)).
  { intros width Hw. pose proof (numeric_size m p Hn). destruct (number_set_spec (if psign p then Strto.strtol else Strto.strtoul) (psize p) width m value (p_addr p) r (Strto.n_signed (Strto.read_number 10 text)) e) as [error En]; try done; try lia.
    - intros He. apply Hr; [done|lia|lia].
    - exists error. rewrite En. do 2 f_equal. destruct (Z.eqb_spec e 0) as [He|He]; [by rewrite (proj1 Hfit He)|]. by rewrite (not_true_is_false _ (fun Ht => He (proj2 Hfit Ht))). }
  pose proof Hn as [(sign & size & Et & Hs) _ _ _ _]. assert (Esz : psize p = size /\ psign p = sign) by (unfold psize, psign; rewrite Et; destruct Hs as [-> |[-> |[-> |[-> ->]]]]; try destruct sign; by vm_compute). destruct Esz as [Esz Esg].
  destruct Hs as [-> |[-> |[-> |[-> ->]]]]; rewrite Esz, Esg in *; cbn [Z.eqb Pos.eqb].
  - destruct (Hset 32) as [error ->]; [lia|]. cbn. by eexists _, _.
  - destruct (Hset 32) as [error ->]; [lia|]. cbn. by eexists _, _.
  - unfold Strto.strtoll, Strto.strtoull. destruct (Hset 64) as [error ->]; [lia|]. cbn. by eexists _, _.
  - destruct (Hset 32) as [error ->]; [lia|]. cbn. by eexists _, _.
Qed.

Lemma args_set_spec m errno p text pargs : numeric m p -> str m (a_value pargs) text -> exists rc errno', kernel_args_set fuel m errno pargs p = Some (rc, errno', written m p text).
Proof using.
  intros Hn Hv. unfold kernel_args_set. fold (psign p) (psize p). assert (E : Z.land (Z.shiftr (param_type p) PARAM_SCOPY_SHIFT) PARAM_SCOPY_MASK = 0).
  { destruct Hn as [(sign & size & -> & Hs) _ _ _ _]. destruct Hs as [-> |[-> |[-> |[-> ->]]]]; try destruct sign; by vm_compute. }
  rewrite E, (n_one _ _ Hn). change (0 =? 1) with false. change (1 <? 1) with false. change (1 =? 1) with true. cbn iota. by apply arg_set_spec.
Qed.

(** ** The settings of a command line *)

Lemma is_literal_spec m lit : forall p l, cstr m p l -> 0 ∉ lit -> is_literal m p lit = Some (bool_decide (l = lit)).
Proof using.
  induction lit as [|x lit IH]; intros p l Hl H0; cbn [is_literal]; unfold load8.
  - destruct l as [|c l]; [apply cstr_nil in Hl; by rewrite Hl|]. apply cstr_cons in Hl as (Hc & Hr & _). rewrite Hc. cbn. rewrite (proj2 (Z.eqb_neq c 0)) by lia. by rewrite bool_decide_false.
  - apply not_elem_of_cons in H0 as [Hx H0]. destruct l as [|c l].
    + apply cstr_nil in Hl. rewrite Hl. cbn [mbind option_bind]. rewrite (proj2 (Z.eqb_neq 0 x)) by done. by rewrite bool_decide_false.
    + apply cstr_cons in Hl as (Hc & Hr & Hl). rewrite Hc. cbn [mbind option_bind]. destruct (Z.eqb_spec c x) as [->|Hne].
      * rewrite (IH _ l Hl H0). f_equal. apply bool_decide_ext. split; [by intros ->|by intros [= ->]].
      * by rewrite bool_decide_false by (by intros [= -> _]).
Qed.

(** A library, a parameter of it, and the value. *)
Record setting := Setting { s_lib : list Z; s_par : list Z; s_val : list Z }.
Definition s_name (s : setting) : list Z := s_lib s ++ 46 :: s_par s.

(** The registered libraries, with their names and the names of their parameters. *)
Context (libs : list uk_lib_section) (lnames : list (list Z)) (pnames : uk_lib_section -> list (list Z)).

Record registered (m : mem) : Prop := {
  r_libs : Forall2 (fun x n => str m (lib_name x) n) libs lnames;
  r_params : Forall (fun x => Forall2 (fun y n => str m (p_name y) n) (sec_params x) (pnames x)) libs
}.

Definition target (s : setting) : option uk_param := sec ← named lnames libs (s_lib s); named (pnames sec) (sec_params sec) (s_name s).

(** What a setting does: nothing for an unknown name. *)
Definition effect (m : mem) (s : setting) : mem := match target s with Some p => written m p (s_val s) | None => m end.

Record setting_ok (m : mem) (s : setting) : Prop := {
  so_dot : 46 ∉ s_lib s;
  so_name : 61 ∉ s_name s;
  so_value : (61 ∉ s_val s) /\ s_val s <> [] /\ s_val s <> LIB_ARG_SEP;
  so_plain : Forall plain (s_val s);
  so_fuel : (length (s_lib s) < fuel)%nat;
  so_target : forall p, target s = Some p -> numeric m p
}.

(** The pointers [ps] spell the setting. *)
Definition spelled (m : mem) (s : setting) (ps : list Z) : Prop := exists strs, spells (s_name s) (s_val s) strs /\ Forall2 (str m) ps strs.

Lemma named_in {A} ns (xs : list A) key x : named ns xs key = Some x -> x ∈ xs.
Proof using.
  revert xs. induction ns as [|n ns IH]; intros [|y xs]; cbn; try done. destruct (decide (n = key)); [intros [= ->]; apply list_elem_of_here|]. intros H. apply list_elem_of_further. by apply IH.
Qed.

Lemma registered_kept m m' : kept m m' -> registered m -> registered m'.
Proof using.
  intros Hk [H1 H2]. split.
  - eapply Forall2_impl; [exact H1|]. intros. by eapply str_kept.
  - eapply Forall_impl; [exact H2|]. cbn. intros x Hx. eapply Forall2_impl; [exact Hx|]. intros. by eapply str_kept.
Qed.

Lemma setting_ok_kept m m' s : kept m m' -> setting_ok m s -> setting_ok m' s.
Proof using.
  intros Hk [H1 H2 H3 H4 H5 H6]. split; try done. intros p Hp. destruct (H6 p Hp) as [A1 A2 A3 A4 A5]. split; try done. intros a Ha. by apply (k_mapped _ _ Hk), A4.
Qed.

Lemma spelled_kept m m' s ps : kept m m' -> spelled m s ps -> spelled m' s ps.
Proof using. intros Hk (strs & H1 & H2). exists strs. split; [done|]. eapply Forall2_impl; [exact H2|]. intros. by eapply str_kept. Qed.

Lemma effect_kept m s : setting_ok m s -> kept m (effect m s).
Proof using. intros H. unfold effect. destruct (target s) eqn:E; [|apply kept_refl]. apply written_kept, (so_target _ _ H), E. Qed.

(** The first argument of a setting has a dot in it. *)
Lemma spelled_head m s ps : spelled m s ps -> exists p ps' l, ps = p :: ps' /\ cstr m p l /\ 46 ∈ l.
Proof using.
  intros (strs & Hs & Hp). assert (Hd : 46 ∈ s_name s) by (unfold s_name; apply elem_of_app; right; apply list_elem_of_here).
  destruct Hs; apply Forall2_cons_inv_r in Hp as (p & ps' & Hp & _ & ->); eexists p, ps', _; (split; [done|]); (split; [apply Hp|]); try done; apply elem_of_app; by left.
Qed.

Lemma option_head m p l : 46 ∈ l -> cstr m p l -> forall lit, 46 ∉ lit -> 0 ∉ lit -> is_literal m p lit = Some false.
Proof using. intros Hd Hc lit Hl H0. rewrite (is_literal_spec m lit p l Hc H0), bool_decide_false; [done|]. by intros ->. Qed.

(** One round of the loop. *)
Lemma parse_step k m errno s ps more pargs : bytes_ok m -> registered m -> setting_ok m s -> spelled m s ps ->
  exists errno' pargs', parse_loop fuel (S k) libs m errno (ps ++ more) pargs = parse_loop fuel k libs (effect m s) errno' more pargs'.
Proof using.
  intros Hok [R1 R2] [D N V P F T] Hsp. destruct (spelled_head m s ps Hsp) as (p & ps' & l & Eps & Hl & Hdot). cbn [parse_loop].
  assert (Hlit : forall lit, forallb (fun c => negb (c =? 46) && negb (c =? 0)) lit = true -> is_literal m p lit = Some false).
  { intros lit Hb. rewrite forallb_forall in Hb. apply (option_head m p l Hdot Hl); intros Hin; apply list_elem_of_In in Hin; by apply Hb in Hin. }
  destruct V as (V1 & V2 & V3). destruct Hsp as (strs & Hs & Hp). destruct (fetch_spec m (s_name s) (s_val s) ps strs more pargs Hok Hs Hp) as (pargs1 & Ef & [F1 F2 F3 F4]); try done; [by unfold s_name; destruct (s_lib s)|].
  rewrite Eps in *. cbn [app]. rewrite !Hlit by (by vm_compute). cbn [mbind option_bind orb]. cbn [app] in Ef. rewrite Ef. cbn [mbind option_bind]. change (0 <? 0) with false. cbn iota.
  change (p :: ps' ++ more) with ((p :: ps') ++ more). rewrite Nat2Z.id, drop_app_length.
  destruct (lib_fetch_spec m libs lnames pargs1 (s_lib s) (s_par s) F1 F2 D F R1) as (rc & pargs2 & -> & E1 & E2 & E3 & E4). cbn [mbind option_bind]. unfold effect, target.
  destruct (named lnames libs (s_lib s)) as [sec|] eqn:Esec; cbn [mbind option_bind]; [|by eexists _, _].
  rewrite (parse_arg_spec m pargs2 (s_name s) (sec_params sec) (pnames sec)); [|by rewrite E1|by rewrite E2|rewrite Forall_forall in R2; apply R2; by eapply named_in].
  cbn [mbind option_bind]. destruct (named (pnames sec) (sec_params sec) (s_name s)) as [q|] eqn:Eq; [|by eexists _, _].
  rewrite (sanitize_plain m pargs2 (s_val s)) by (rewrite ?E3, ?E4; done). cbn [mbind option_bind]. change (0 <? 0) with false. cbn iota.
  destruct (args_set_spec m errno q (s_val s) (set_value pargs2 (a_value pargs2) (zlen (s_val s)))) as (rc' & errno' & ->).
  - apply T. unfold target. by rewrite Esec.
  - cbn. by rewrite E3.
  - cbn [mbind option_bind]. by eexists _, _.
Qed.

Lemma parse_loop_spec settings : forall k m errno pss pargs, bytes_ok m -> registered m -> Forall (setting_ok m) settings -> Forall2 (spelled m) settings pss -> (length settings <= k)%nat ->
  exists errno', parse_loop fuel k libs m errno (concat pss) pargs = Some (Some errno', fold_left effect settings m).
Proof using.
  induction settings as [|s settings IH]; intros k m errno pss pargs Hok Hr Hs Hp Hk.
  - apply Forall2_nil_inv_l in Hp as ->. exists errno. by destruct k.
  - apply Forall2_cons_inv_l in Hp as (ps & pss' & Hps & Hpss & ->). apply Forall_cons in Hs as [Hso Hs]. destruct k; [cbn in Hk; lia|]. cbn [concat fold_left].
    destruct (parse_step k m errno s ps (concat pss') pargs Hok Hr Hso Hps) as (errno' & pargs' & ->). pose proof (effect_kept m s Hso) as Hkept. apply IH.
    + by apply (k_bytes _ _ Hkept).
    + by eapply registered_kept.
    + eapply Forall_impl; [exact Hs|]. intros. by eapply setting_ok_kept.
    + eapply Forall2_impl; [exact Hpss|]. intros. by eapply spelled_kept.
    + cbn in Hk. lia.
Qed.

Lemma range_fetch_spec m : forall ptrs strs sep more i, Forall2 (str m) ptrs strs -> LIB_ARG_SEP ∉ strs -> str m sep LIB_ARG_SEP -> kernel_arg_range_fetch m (ptrs ++ sep :: more) i = Some (i + zlen ptrs).
Proof using.
  intros ptrs strs sep more i H. revert i. induction H as [|p l ptrs strs Hp H IH]; intros i Hn Hs; cbn [app kernel_arg_range_fetch].
  - rewrite (is_literal_spec m LIB_ARG_SEP sep LIB_ARG_SEP) by (apply Hs || (intros E; apply elem_of_cons in E as [E|E]; [done|by apply list_elem_of_singleton in E])).
    cbn [mbind option_bind]. rewrite bool_decide_true by done. by rewrite Z.add_0_r.
  - apply not_elem_of_cons in Hn as [Hne Hn]. rewrite (is_literal_spec m LIB_ARG_SEP p l) by (apply Hp || (intros E; apply elem_of_cons in E as [E|E]; [done|by apply list_elem_of_singleton in E])).
    cbn [mbind option_bind]. rewrite bool_decide_false by done. rewrite IH by done. f_equal. cbn [length]. lia.
Qed.

Lemma range_fetch_none m : forall ptrs strs i, Forall2 (str m) ptrs strs -> LIB_ARG_SEP ∉ strs -> kernel_arg_range_fetch m ptrs i = Some (-1).
Proof using.
  intros ptrs strs i H. revert i. induction H as [|p l ptrs strs Hp H IH]; intros i Hn; cbn [kernel_arg_range_fetch]; [done|]. apply not_elem_of_cons in Hn as [Hne Hn].
  rewrite (is_literal_spec m LIB_ARG_SEP p l) by (apply Hp || (intros E; apply elem_of_cons in E as [E|E]; [done|by apply list_elem_of_singleton in E])). cbn [mbind option_bind]. rewrite bool_decide_false by done. by apply IH.
Qed.

Lemma spelled_no_sep m s ps : setting_ok m s -> spelled m s ps -> exists strs, Forall2 (str m) ps strs /\ LIB_ARG_SEP ∉ strs.
Proof using.
  intros [D N (V1 & V2 & V3) P F T] (strs & Hs & Hp). exists strs. split; [done|]. assert (Hd : 46 ∈ s_name s) by (unfold s_name; apply elem_of_app; right; apply list_elem_of_here).
  assert (H : forall x, x <> 45 -> x ∉ LIB_ARG_SEP) by (intros x Hx E; apply elem_of_cons in E as [E|E]; [done|by apply list_elem_of_singleton in E]).
  assert (Hn : s_name s <> LIB_ARG_SEP) by (intros E; rewrite E in Hd; by apply (H 46)). assert (He : forall l1 l2, l1 ++ 61 :: l2 <> LIB_ARG_SEP).
  { intros l1 l2 E. apply (H 61); [done|]. rewrite <- E. apply elem_of_app. right. apply list_elem_of_here. }
  assert (H61 : [61] <> LIB_ARG_SEP) by done. specialize (He (s_name s)). assert (He' : 61 :: s_val s <> LIB_ARG_SEP) by done.
  destruct Hs; rewrite !not_elem_of_cons; repeat split; try apply not_elem_of_nil; try (apply not_eq_sym; done); apply not_eq_sym, He.
Qed.

Lemma all_no_sep m settings pss : Forall (setting_ok m) settings -> Forall2 (spelled m) settings pss -> exists strs, Forall2 (str m) (concat pss) strs /\ LIB_ARG_SEP ∉ strs.
Proof using.
  intros Hs H. induction H as [|s ps settings pss Hsp H IH]; cbn [concat]; [exists []; split; [constructor|apply not_elem_of_nil]|]. apply Forall_cons in Hs as [Hso Hs].
  destruct (spelled_no_sep m s ps Hso Hsp) as (l1 & A1 & A2). destruct (IH Hs) as (l2 & B1 & B2). exists (l1 ++ l2). split; [by apply Forall2_app|]. by apply not_elem_of_app.
Qed.

Lemma parse_spec m errno progname settings pss sep more : bytes_ok m -> registered m -> Forall (setting_ok m) settings -> Forall2 (spelled m) settings pss -> str m sep LIB_ARG_SEP ->
  exists errno', uk_libparam_parse fuel libs m errno progname (concat pss ++ sep :: more) =
    Some (Parsed (zlen (concat pss) + 1) (concat pss ++ progname :: more) errno' (fold_left effect settings m)).
Proof using.
  intros Hok Hr Hs Hp Hsep. destruct (all_no_sep m settings pss Hs Hp) as (strs & Hstr & Hn). unfold uk_libparam_parse. rewrite (range_fetch_spec m _ strs) by done. cbn [mbind option_bind].
  rewrite (proj2 (Z.ltb_ge _ 0)) by lia. change (0 + zlen (concat pss)) with (zlen (concat pss)). rewrite Nat2Z.id, take_app_length.
  destruct (parse_loop_spec settings (length (concat pss)) m errno pss (Pargs 0 0 0 0 0 0) Hok Hr Hs Hp) as (errno' & ->).
  { clear -Hp. induction Hp as [|s ps settings pss Hsp H IH]; cbn; [lia|]. rewrite length_app. destruct (spelled_head m s ps Hsp) as (p & ps' & l & -> & _). cbn. lia. }
  cbn [mbind option_bind]. exists errno'. rewrite insert_app_r_alt, Nat.sub_diag by lia. done.
Qed.

(** The bytes of a parameter after a setting of it, and under the settings of others. *)
Definition value_is (m : mem) (p : uk_param) (v : Z) : Prop := exists bs, load_bytes m (p_addr p) (Z.to_nat (psize p)) = Some bs /\ le bs = wrap (8 * psize p) v.

Lemma effect_sets m s p : setting_ok m s -> target s = Some p -> fits p (Strto.read_number 10 (s_val s)) = true -> value_is (effect m s) p (Strto.n_signed (Strto.read_number 10 (s_val s))).
Proof using.
  intros Hs Ht Hfit. unfold effect, written. rewrite Ht, Hfit. pose proof (so_target _ _ Hs p Ht) as Hn. pose proof (numeric_size m p Hn) as Hsz. destruct Hn as [_ _ _ Hm _].
  destruct (Strto.le_bytes (Z.to_nat (psize p)) (wrap (8 * psize p) (Strto.n_signed (Strto.read_number 10 (s_val s))))) as (bs & Hl & Hbs & E).
  { rewrite Z2Nat.id by lia. change 256 with (2 ^ 8). rewrite <- Z.pow_mul_r by lia. apply wrap_range. lia. }
  destruct (store_le_spec bs m (p_addr p) Hbs) as (m' & Es & Hat & _); [rewrite Hl, Z2Nat.id by lia; done|]. rewrite Hl, E in Es. rewrite Es. exists bs. rewrite <- Hl. split; [by apply load_bytes_at|done].
Qed.

Lemma load_bytes_agree m m' n : forall a, (forall x, a <= x < a + Z.of_nat n -> m' !! x = m !! x) -> load_bytes m' a n = load_bytes m a n.
Proof using.
  induction n as [|n IH]; intros a H; cbn [load_bytes]; [done|]. unfold load8. rewrite H by lia. destruct (m !! a); cbn; [|done]. rewrite IH by (intros x Hx; apply H; lia). done.
Qed.

Definition overlap (p q : uk_param) : Prop := p_addr p < p_addr q + psize q /\ p_addr q < p_addr p + psize p.

Lemma effect_keeps m s p v : setting_ok m s -> 0 <= psize p -> (forall q, target s = Some q -> ~ overlap p q) -> value_is m p v -> value_is (effect m s) p v.
Proof using.
  intros Hs Hsz Ho (bs & E & Hv). exists bs. split; [|done]. rewrite <- E. apply load_bytes_agree. intros x Hx. rewrite Z2Nat.id in Hx by lia. unfold effect. destruct (target s) as [q|] eqn:Eq; [|done].
  specialize (Ho q eq_refl). unfold written. destruct (fits _ _); [|done]. pose proof (so_target _ _ Hs q Eq) as Hn. pose proof (numeric_size m q Hn). destruct Hn as [_ _ _ Hm _].
  destruct (store_bytes m (p_addr q) (Z.to_nat (psize q)) (wrap (8 * psize q) (Strto.n_signed (Strto.read_number 10 (s_val s))))) as (m' & -> & _ & _ & Hf).
  - by rewrite Z2Nat.id by lia.
  - rewrite Z2Nat.id by lia. change 256 with (2 ^ 8). rewrite <- Z.pow_mul_r by lia. apply wrap_range. lia.
  - apply Hf. unfold overlap in Ho. lia.
Qed.

Lemma effects_keep settings p v : 0 <= psize p -> forall m, Forall (setting_ok m) settings -> (forall s q, s ∈ settings -> target s = Some q -> ~ overlap p q) -> value_is m p v ->
  value_is (fold_left effect settings m) p v.
Proof using.
  intros Hsz. induction settings as [|s settings IH]; intros m Hs Ho Hv; cbn [fold_left]; [done|]. apply Forall_cons in Hs as [Hso Hs]. apply IH.
  - eapply Forall_impl; [exact Hs|]. intros x Hx. eapply setting_ok_kept; [by apply effect_kept|done].
  - intros x q Hx. apply Ho. by apply list_elem_of_further.
  - apply effect_keeps; [done|done| |done]. intros q. apply Ho, list_elem_of_here.
Qed.

Lemma settings_ok_after settings1 : forall m settings2, Forall (setting_ok m) (settings1 ++ settings2) -> Forall (setting_ok (fold_left effect settings1 m)) settings2.
Proof using.
  induction settings1 as [|s settings1 IH]; intros m settings2 H; [done|]. cbn in H |- *. apply Forall_cons in H as [Hs H]. apply IH. eapply Forall_impl; [exact H|].
  intros x Hx. eapply setting_ok_kept; [by apply effect_kept|done].
Qed.

Lemma last_setting m s1 s s2 p : Forall (setting_ok m) (s1 ++ s :: s2) -> target s = Some p -> fits p (Strto.read_number 10 (s_val s)) = true ->
  (forall s' q, s' ∈ s2 -> target s' = Some q -> ~ overlap p q) -> value_is (fold_left effect (s1 ++ s :: s2) m) p (Strto.n_signed (Strto.read_number 10 (s_val s))).
Proof using.
  intros H Ht Hfit Ho. rewrite fold_left_app. apply settings_ok_after in H. cbn [fold_left]. pose proof H as Hall. apply Forall_cons in H as [Hs H]. apply effects_keep; [|apply (settings_ok_after [s]); exact Hall|done|by apply effect_sets].
  pose proof (numeric_size _ _ (so_target _ _ Hs p Ht)). lia.
Qed.
End Proofs.

(** The arguments in front of "--", in any of the four spellings of [library.parameter=value], are read
    to the end: the call returns the index behind "--", which has become the name of the program.  The
    settings have been carried out in order, each of a known number being its only effect on memory and
    each of an unknown name having none; a parameter holds, in the width of its type, the number of the
    last setting that fits and that no later one overwrites. *)
Theorem libparam_sets fuel safe libs lnames pnames m errno progname settings pss sep more :
  bytes_ok m -> registered fuel safe libs lnames pnames m -> Forall (setting_ok fuel safe libs lnames pnames m) settings -> Forall2 (spelled fuel safe m) settings pss ->
  str fuel safe m sep LIB_ARG_SEP ->
  let m' := fold_left (effect libs lnames pnames) settings m in
  (exists errno', uk_libparam_parse fuel libs m errno progname (concat pss ++ sep :: more) = Some (Parsed (zlen (concat pss) + 1) (concat pss ++ progname :: more) errno' m')) /\
  (forall s1 s s2 p, settings = s1 ++ s :: s2 -> target libs lnames pnames s = Some p -> fits p (Strto.read_number 10 (s_val s)) = true ->
     (forall s' q, s' ∈ s2 -> target libs lnames pnames s' = Some q -> ~ overlap p q) -> value_is m' p (Strto.n_signed (Strto.read_number 10 (s_val s)))).
Proof.
  intros Hok Hr Hs Hp Hsep. cbn zeta. split; [by eapply parse_spec|]. intros s1 s s2 p -> Ht Hf Ho. by eapply (last_setting fuel safe).
Qed.

(** ** A command line *)

(** "lib" with the parameters "lib.x" ([int]) and "lib.y" ([__u16]), and "lib.x=-7", "lib.y", "=", "300", "--". *)
Definition demo_mem : mem :=
  list_to_map (map (fun i => (i, default 0 ((mem_of 96 [108; 105; 98] ∪ mem_of 112 [108; 105; 98; 46; 120] ∪ mem_of 128 [108; 105; 98; 46; 121] ∪
    mem_of 144 [108; 105; 98; 46; 120; 61; 45; 55] ∪ mem_of 160 [108; 105; 98; 46; 121] ∪ mem_of 176 [61] ∪ mem_of 192 [51; 48; 48] ∪ mem_of 208 [45; 45]) !! i))) (seqZ 96 192)).
Definition demo_safe (a : Z) : Prop := 96 <= a < 240.
Definition demo_x : uk_param := Param 112 (PARAM_TYPE 1 0 4) 1 240.
Definition demo_y : uk_param := Param 128 (PARAM_TYPE 0 0 2) 1 248.
Definition demo_lib : uk_lib_section := LibSection 96 [demo_x; demo_y].
Definition demo_names (_ : uk_lib_section) : list (list Z) := [[108; 105; 98; 46; 120]; [108; 105; 98; 46; 121]].
Definition demo_settings : list setting := [Setting [108; 105; 98] [120] [45; 55]; Setting [108; 105; 98] [121] [51; 48; 48]].

Definition strb (m : mem) (p : Z) (l : list Z) : bool :=
  cstrb m p l && mappedb m p (8 * ((p + zlen l) / 8) + 8 - p) && (96 <=? p) && (8 * ((p + zlen l) / 8) + 8 <=? 240) && (length l <? 40)%nat && (zlen l <? 1000).

Lemma strb_ok m p l : strb m p l = true -> str 40 demo_safe m p l.
Proof.
  unfold strb. intros H. do 5 (apply andb_true_iff in H as [H ?]). rewrite Nat.ltb_lt in *. apply cstrb_ok in H. tests. pose proof (Z.mul_succ_div_gt (p + zlen l) 8 ltac:(lia)). split; [done|by apply words_mappedb_ok| |done|lia|lia|lia].
  intros a Ha. unfold demo_safe. lia.
Qed.

Lemma demo_numeric p : p = demo_x \/ p = demo_y -> numeric demo_safe demo_mem p.
Proof.
  intros [-> | ->]; split; try done.
  - exists true, 4. split; [done|]. tauto.
  - apply mappedb_ok. by vm_compute.
  - intros a Ha. change (psize demo_x) with 4 in Ha. cbn in Ha. unfold demo_safe. lia.
  - exists false, 2. split; [done|]. tauto.
  - apply mappedb_ok. by vm_compute.
  - intros a Ha. change (psize demo_y) with 2 in Ha. cbn in Ha. unfold demo_safe. lia.
Qed.

Lemma libparam_sets_witness : exists errno m', uk_libparam_parse 40 [demo_lib] demo_mem 0 999 ([144] ++ [160; 176; 192] ++ 208 :: [500]) = Some (Parsed 5 [144; 160; 176; 192; 999; 500] errno m') /\
  value_is m' demo_x (-7).
Proof.
  destruct (libparam_sets 40 demo_safe [demo_lib] [[108; 105; 98]] demo_names demo_mem 0 999 demo_settings [[144]; [160; 176; 192]] 208 [500]) as [[errno E] H].
  - apply all_bytes_ok. by vm_compute.
  - split; [constructor; [apply strb_ok; by vm_compute|constructor]|]. constructor; [|constructor]. constructor; [apply strb_ok; by vm_compute|]. constructor; [apply strb_ok; by vm_compute|constructor].
  - constructor; [|constructor; [|constructor]].
    + split; [apply (bool_decide_unpack _); by vm_compute|apply (bool_decide_unpack _); by vm_compute|split; [apply (bool_decide_unpack _); by vm_compute|done]|repeat constructor|cbn; lia|].
      intros p Hp. vm_compute in Hp. injection Hp as <-. apply demo_numeric. by left.
    + split; [apply (bool_decide_unpack _); by vm_compute|apply (bool_decide_unpack _); by vm_compute|split; [apply (bool_decide_unpack _); by vm_compute|done]|repeat constructor|cbn; lia|].
      intros p Hp. vm_compute in Hp. injection Hp as <-. apply demo_numeric. by right.
  - constructor; [exists [[108; 105; 98; 46; 120; 61; 45; 55]]; split; [apply (sp_one [108; 105; 98; 46; 120] [45; 55])|constructor; [apply strb_ok; by vm_compute|constructor]]|].
    constructor; [|constructor]. exists [[108; 105; 98; 46; 121]; [61]; [51; 48; 48]]. split; [apply (sp_three [108; 105; 98; 46; 121] [51; 48; 48])|].
    repeat (constructor; [apply strb_ok; by vm_compute|]). constructor.
  - apply strb_ok. by vm_compute.
  - eexists errno, _. split; [exact E|]. apply (H [] (Setting [108; 105; 98] [120] [45; 55]) [Setting [108; 105; 98] [121] [51; 48; 48]] demo_x); [done|by vm_compute|by vm_compute|].
    intros s' q Hs Ht. apply list_elem_of_singleton in Hs as ->. vm_compute in Ht. injection Ht as <-. intros [_ Ho]. change (psize demo_x) with 4 in Ho. cbn in Ho. lia.
Defined.

(** ** Values that are not what they seem *)

Definition value_at (text : list Z) : mem := list_to_map (map (fun i => (i, default 0 (mem_of 100 text !! i))) (seqZ 100 100)).

(** A number beyond 32 bits is stored without a warning in its low bits, a text that is no number as 0. *)
Theorem large_value_truncated :
  (fun x => (x.1, load_bytes x.2 160 4)) <$> NUMBER_SET 40 Strto.strtoul 4 32 (value_at [52; 50; 57; 52; 57; 54; 55; 50; 57; 55]) 100 160 = Some (0, 0, Some [1; 0; 0; 0]) /\
  (fun x => (x.1, load_bytes x.2 160 4)) <$> NUMBER_SET 40 Strto.strtoul 4 32 (value_at [97; 98; 99]) 100 160 = Some (0, 0, Some [0; 0; 0; 0]).
Proof. by vm_compute. Qed.

(** The largest number of a type and the negative ones count as overflow. *)
Theorem largest_value_flagged :
  (fun x => (x.1, load_bytes x.2 160 2)) <$> NUMBER_SET 40 Strto.strtoul 2 32 (value_at [54; 53; 53; 51; 53]) 100 160 = Some (1, 0, Some [255; 255]) /\
  (fun x => (x.1, load_bytes x.2 160 2)) <$> NUMBER_SET 40 Strto.strtol 2 32 (value_at [45; 49]) 100 160 = Some (1, 0, Some [255; 255]).
Proof. by vm_compute. Qed.
End Libparam.
