(* ===== verification/Boot.v ===== *)
(** * Boot: from the command line and the memory map to [main]

    [lib/ukboot/boot.c]: [ukplat_entry_argp] splits the command line ([ArgParse]), [ukplat_entry] lets the
    libraries take their parameters ([Libparam]), gives the memory regions of the platform to an allocator
    ([BBuddy]) and starts the application with the rest of the arguments.  Constructors, interrupts, the
    clock and the first thread are left out. *)
From Stdlib Require Import ZArith Lia Bool.
From stdpp Require Import gmap.
From S2P Require Import Prelude Mem NolibcString Strto ArgParse Libparam.
Open Scope Z_scope.

Module Boot.
Import Nolibc.
Import Libparam.

(** [CONFIG_LIBUKBOOT_MAXNBARGS] *)
Definition MAXNBARGS : Z := 60.

Fixpoint store_list (m : mem) (a : Z) (bs : list Z) : option mem :=
  match bs with [] => Some m | b :: bs' => m ← store8 m a b; store_list m (a + 1) bs' end.

(** [argv] and the memory that [ukplat_entry_argp] hands to [ukplat_entry]. *)
Definition ukplat_entry_argp (m : mem) (arg0 argb argb_len : Z) : option (list Z * mem) :=
  let argv := if arg0 =? 0 then [] else [arg0] in
  if negb (argb =? 0) && negb (argb_len =? 0) then
    buf ← load_bytes m argb (Z.to_nat argb_len);
    '(buf, offsets) ← ArgParse.uk_argnparse buf argb_len (MAXNBARGS - zlen argv);
    m ← store_list m argb buf;
    Some (argv ++ map (Z.add argb) offsets, m)
  else Some (argv, m).

(** How the command line leaves the boot: halted by "--help" or "--version", or with the arguments of [main]. *)
Inductive boot_end :=
| Halt (m : mem)
| Main (argv : list Z) (errno : Z) (m : mem).

(** The command line in [ukplat_entry]: [argc] is the length of [argv]. *)
Definition ukplat_entry_args (fuel : nat) (libs : list uk_lib_section) (m : mem) (errno : Z) (argv : list Z) : option boot_end :=
  match argv with
  | progname :: (_ :: _) as args =>
      o ← uk_libparam_parse fuel libs m errno progname args;
      match o with
      | Halted m => Some (Halt m)
      | Parsed rc args errno m => Some (Main (if rc <? 0 then progname :: args else drop (Z.to_nat rc) (progname :: args)) errno m)
      end
  | _ => Some (Main argv errno m)
  end.

Definition boot_args (fuel : nat) (libs : list uk_lib_section) (m : mem) (errno arg0 argb argb_len : Z) : option boot_end :=
  '(argv, m) ← ukplat_entry_argp m arg0 argb argb_len;
  ukplat_entry_args fuel libs m errno argv.

(** ** The buffer *)

Lemma store_list_spec bs : forall m a, Forall byte bs -> mapped m a (zlen bs) ->
  exists m', store_list m a bs = Some m' /\ bytes_at m' a bs /\ forall x, ~ (a <= x < a + zlen bs) -> m' !! x = m !! x.
Proof.
  induction bs as [|b bs IH]; intros m a Hb Hm; cbn [store_list].
  - exists m. split; [done|]. split; [by intros i x Hi|done].
  - apply Forall_cons in Hb as [Hb0 Hb]. cbn [length] in Hm. rewrite store8_byte by (done || apply Hm; lia). cbn [mbind option_bind].
    destruct (IH (<[a := b]> m) (a + 1) Hb) as (m' & E & Hat & Hf). { intros x Hx. rewrite lookup_insert_ne by lia. apply Hm. lia. }
    exists m'. split; [done|]. split.
    + apply bytes_at_cons. split; [|done]. rewrite Hf by lia. apply lookup_insert_eq.
    + intros x Hx. cbn [length] in Hx. rewrite Hf by lia. apply lookup_insert_ne. lia.
Qed.

(** An argument placed in a buffer is a string of the memory that holds it. *)
Lemma placed_cstr m a buf o w : bytes_at m a buf -> Forall byte buf -> ArgParse.placed buf o w -> cstr m (a + o) w /\ 0 <= o /\ o + zlen w < zlen buf.
Proof.
  intros Hm Hb (x & y & -> & <- & Hw). apply bytes_at_app in Hm as [_ Hm]. apply bytes_at_app in Hm as [Hm H0]. apply bytes_at_cons in H0 as [H0 _].
  rewrite !Forall_app in Hb. destruct Hb as (_ & Hb & _). split; [|rewrite !length_app; cbn; lia]. split; [done|done|].
  apply Forall_forall. intros c Hc. rewrite Forall_forall in Hb. specialize (Hb c Hc). unfold byte in Hb. assert (c <> 0) by (intros ->; done). lia.
Qed.

Lemma Forall2_concat_inv {A B} (P : A -> B -> Prop) lss : forall l, Forall2 P l (concat lss) -> exists kss, l = concat kss /\ Forall2 (Forall2 P) kss lss.
Proof.
  induction lss as [|ls lss IH]; intros l H; cbn in H; [apply Forall2_nil_inv_r in H as ->; by exists []|].
  apply Forall2_app_inv_r in H as (k & l' & Hk & Hl & ->). destruct (IH l' Hl) as (kss & -> & Hkss). exists (k :: kss). split; [done|by constructor].
Qed.

Lemma str_mono fuel (safe safe' : Z -> Prop) m p l : (forall a, safe a -> safe' a) -> str fuel safe m p l -> str fuel safe' m p l.
Proof. intros Hs [H1 H2 H3 H4 H5 H6 H7]. split; try done. intros a Ha. by apply Hs, H3. Qed.

Lemma effects_kept fuel safe libs lnames pnames settings : forall m, Forall (setting_ok fuel safe libs lnames pnames m) settings -> kept safe m (fold_left (effect libs lnames pnames) settings m).
Proof.
  induction settings as [|s settings IH]; intros m H; cbn [fold_left]; [apply kept_refl|]. pose proof H as H0. apply Forall_cons in H as [Hs _]. pose proof (effect_kept fuel safe libs lnames pnames m s Hs) as K1.
  pose proof (IH _ (settings_ok_after fuel safe libs lnames pnames [s] m settings H0)) as K2. cbn [fold_left] in K2.
  split; [intros a Ha; by rewrite (k_safe _ _ _ K2), (k_safe _ _ _ K1)|intros a Ha; by apply (k_mapped _ _ _ K2), (k_mapped _ _ _ K1)|intros Hb; by apply (k_bytes _ _ _ K2), (k_bytes _ _ _ K1)].
Qed.

(** ** From the line to [main] *)

Section Line.
Context (fuel : nat) (names : Z -> Prop) (libs : list uk_lib_section) (lnames : list (list Z)) (pnames : uk_lib_section -> list (list Z)).
Context (m : mem) (argb : Z) (line junk : list Z).

(** The buffer, up to the end of its last word, and the zone that the parameters stay away from. *)
Definition size : Z := zlen (line ++ 0 :: junk).
Definition buffer (a : Z) : Prop := argb <= a < 8 * ((argb + size) / 8) + 8.
Definition zone (a : Z) : Prop := names a \/ buffer a.

Record line_ok : Prop := {
  l_bytes : bytes_ok m;
  l_ptr : 0 < argb;
  l_end : argb + size < 2 ^ 64;
  l_size : size < 2 ^ 31;
  l_fuel : (length (line ++ 0%Z :: junk) < fuel)%nat;
  l_mapped : forall a, buffer a -> is_Some (m !! a);
  l_buf : bytes_at m argb (line ++ 0 :: junk);
  l_line : 0 ∉ line;
  l_apart : forall a, names a -> ~ (argb <= a < argb + size);
  l_registered : registered fuel names libs lnames pnames m
}.

Context (Hok : line_ok).

(** The buffer in the memory is cut into the words of the line. *)
Lemma cut_line maxcount : zlen (ArgParse.words 0 None line) < maxcount ->
  exists m1 buf offsets, load_bytes m argb (Z.to_nat size) = Some (line ++ 0 :: junk) /\ ArgParse.uk_argnparse (line ++ 0 :: junk) size maxcount = Some (buf, offsets) /\
    store_list m argb buf = Some m1 /\ kept names m m1 /\ (forall x, ~ (argb <= x < argb + size) -> m1 !! x = m !! x) /\
    Forall2 (str fuel zone m1) (map (Z.add argb) offsets) (ArgParse.words 0 None line).
Proof using Hok.
  intros Hc. destruct Hok as [Hb Hp He Hs Hf Hm Hl H0 Ha Hr]. pose proof (bytes_at_ok _ _ _ Hb Hl) as Hby.
  destruct (ArgParse.argnparse_spec line junk size maxcount H0) as (r & E & Hpl & Hlen & HP); [unfold size; rewrite length_app; cbn; lia|done|].
  assert (Hbuf : Forall byte (ArgParse.p_buf r)) by (apply HP; [done|done]).
  assert (Hin : forall a, argb <= a < argb + size -> buffer a). { intros a Hx. unfold buffer. pose proof (Z.mul_succ_div_gt (argb + size) 8 ltac:(lia)). lia. }
  destruct (store_list_spec (ArgParse.p_buf r) m argb Hbuf) as (m1 & Es & Hat & Hfr). { rewrite Hlen. intros x Hx. apply Hm, Hin, Hx. }
  rewrite Hlen in Hfr. fold size in Hfr. exists m1, (ArgParse.p_buf r), (ArgParse.p_argv r).
  assert (Hget : forall a, argb <= a < argb + size -> exists b, m1 !! a = Some b /\ byte b).
  { intros a Hx. destruct (lookup_lt_is_Some_2 (ArgParse.p_buf r) (Z.to_nat (a - argb))) as [b Hbb]; [unfold size in Hx; lia|]. exists b. split; [|by eapply Forall_lookup_1; [exact Hbuf|]].
    specialize (Hat _ _ Hbb). rewrite Z2Nat.id in Hat by lia. by replace (argb + (a - argb)) with a in Hat by lia. }
  assert (Hmap : forall a, is_Some (m !! a) -> is_Some (m1 !! a)).
  { intros a Hx. destruct (decide (argb <= a < argb + size)) as [Hi|Hi]; [destruct (Hget a Hi) as (b & Hb' & _); eauto|by rewrite Hfr]. }
  split; [unfold size; rewrite Nat2Z.id; by apply load_bytes_at|]. split; [done|]. split; [done|]. split.
  { split; [intros a Hx; by apply Hfr, Ha|done|]. intros _ a b Hab. destruct (decide (argb <= a < argb + size)) as [Hi|Hi]; [destruct (Hget a Hi) as (c & Hc' & Hcb); congruence|]. rewrite Hfr in Hab by done. by eapply Hb. }
  split; [done|]. revert Hpl. generalize (ArgParse.p_argv r) (ArgParse.words 0 None line). intros os ws Hpl. induction Hpl as [|o w os ws Ho _ IH]; [constructor|]. cbn [map]. constructor; [|done].
  destruct (placed_cstr m1 argb _ o w Hat Hbuf Ho) as (Hcs & Ho0 & How). rewrite Hlen in How. fold size in How.
  assert (Hwd : 8 * ((argb + o + zlen w) / 8) <= 8 * ((argb + size) / 8)) by (apply Z.mul_le_mono_nonneg_l; [lia|]; apply Z.div_le_mono; lia).
  split; try done; try lia; [|intros a Hx; right; unfold buffer; lia|unfold size in How; lia]. intros a Hx. apply Hmap, Hm. unfold buffer. lia.
Qed.
(** The same with the first argument, which the platform may give. *)
Definition heads (arg0 : Z) : list Z := if arg0 =? 0 then [] else [arg0].

Lemma entry_argp arg0 prog : (arg0 <> 0 -> str fuel names m arg0 prog) -> zlen (ArgParse.words 0 None line) + zlen (heads arg0) < MAXNBARGS ->
  exists argv m1, ukplat_entry_argp m arg0 argb size = Some (argv, m1) /\ kept names m m1 /\ (forall x, ~ (argb <= x < argb + size) -> m1 !! x = m !! x) /\
    Forall2 (str fuel zone m1) argv ((if arg0 =? 0 then [] else [prog]) ++ ArgParse.words 0 None line).
Proof using Hok.
  intros Harg Hc. assert (Hs : 0 < size) by (unfold size; rewrite length_app; cbn; lia). pose proof (l_ptr Hok) as Hp.
  destruct (cut_line (MAXNBARGS - zlen (heads arg0))) as (m1 & buf & os & E1 & E2 & E3 & Hk & Hfr & Hw); [lia|]. exists (heads arg0 ++ map (Z.add argb) os), m1.
  unfold ukplat_entry_argp. fold (heads arg0). atoms. rewrite E1. cbn [mbind option_bind]. rewrite E2. cbn [mbind option_bind]. rewrite E3. cbn [mbind option_bind].
  split; [done|]. split; [done|]. split; [done|]. unfold heads in *. destruct (Z.eqb_spec arg0 0) as [->|H0]; [done|]. cbn [app]. constructor; [|done].
  eapply str_mono; [|eapply str_kept; [exact Hk|by apply Harg]]. intros a Ha. by left.
Qed.

Lemma registered_line m1 : kept names m m1 -> registered fuel zone libs lnames pnames m1.
Proof using Hok.
  intros Hk. destruct (registered_kept _ _ _ _ _ _ _ Hk (l_registered Hok)) as [R1 R2]. assert (Hz : forall a, names a -> zone a) by (intros a Ha; by left). split.
  - eapply Forall2_impl; [exact R1|]. intros x n Hx. cbn in *. by eapply str_mono.
  - eapply Forall_impl; [exact R2|]. intros x Hx. cbn in *. eapply Forall2_impl; [exact Hx|]. intros y n Hy. cbn in *. by eapply str_mono.
Qed.

Lemma setting_line m1 s : kept names m m1 -> setting_ok fuel zone libs lnames pnames m s -> setting_ok fuel zone libs lnames pnames m1 s.
Proof using.
  intros Hk [H1 H2 H3 H4 H5 H6]. split; try done. intros p Hp. destruct (H6 p Hp) as [A1 A2 A3 A4 A5]. split; try done. intros a Ha. by apply (k_mapped _ _ _ Hk), A4.
Qed.
(** The arguments as settings, "--" and the arguments of the application. *)
Lemma settings_line m1 settings strss ptrs : Forall2 (fun s strs => spells (s_name s) (s_val s) strs) settings strss -> Forall2 (str fuel zone m1) ptrs (concat strss) ->
  exists pss, ptrs = concat pss /\ Forall2 (spelled fuel zone m1) settings pss.
Proof using.
  intros Hsp Hp. destruct (Forall2_concat_inv _ _ _ Hp) as (pss & -> & Hpss). exists pss. split; [done|]. clear Hp. revert pss Hpss.
  induction Hsp as [|s strs settings strss Hs _ IH]; intros pss Hpss; [apply Forall2_nil_inv_r in Hpss as ->; constructor|].
  apply Forall2_cons_inv_r in Hpss as (ps & pss' & Hps & Hpss & ->). constructor; [by exists strs|by apply IH].
Qed.

Lemma parse_line m1 errno argv prog settings strss app : bytes_ok m -> kept names m m1 -> Forall (setting_ok fuel zone libs lnames pnames m) settings ->
  Forall2 (fun s strs => spells (s_name s) (s_val s) strs) settings strss -> Forall2 (str fuel zone m1) argv (prog :: concat strss ++ LIB_ARG_SEP :: app) ->
  let m' := fold_left (effect libs lnames pnames) settings m1 in
  exists argv' errno', ukplat_entry_args fuel libs m1 errno argv = Some (Main argv' errno' m') /\ Forall2 (cstr m') argv' (prog :: app).
Proof using Hok.
  intros Hb Hk Hset Hsp H. cbn zeta. pose proof (k_bytes _ _ _ Hk Hb) as Hb1. assert (Hset1 : Forall (setting_ok fuel zone libs lnames pnames m1) settings) by (eapply Forall_impl; [exact Hset|]; intros s Hs; by apply setting_line).
  apply Forall2_cons_inv_r in H as (progname & args & Hprog & H & ->). apply Forall2_app_inv_r in H as (ptrs & rest & Hptrs & H & ->). apply Forall2_cons_inv_r in H as (sep & more & Hsep & Hmore & ->).
  destruct (settings_line m1 settings strss ptrs Hsp Hptrs) as (pss & -> & Hpss).
  destruct (parse_spec fuel zone libs lnames pnames m1 errno progname settings pss sep more Hb1 (registered_line m1 Hk) Hset1 Hpss Hsep) as (errno' & E).
  exists (progname :: more), errno'. split.
  - unfold ukplat_entry_args. destruct (concat pss ++ sep :: more) as [|a args] eqn:Ea; [by destruct (concat pss)|]. rewrite E. cbn [mbind option_bind].
    rewrite (proj2 (Z.ltb_ge _ 0)) by lia. replace (Z.to_nat (zlen (concat pss) + 1)) with (S (length (concat pss))) by lia. cbn [drop]. by rewrite drop_app_length.
  - pose proof (effects_kept fuel zone libs lnames pnames settings m1 Hset1) as K.
    assert (Hx : forall p l, str fuel zone m1 p l -> cstr (fold_left (effect libs lnames pnames) settings m1) p l) by (intros p l Hx; by apply (s_cstr fuel zone), (str_kept fuel zone m1)).
    constructor; [by apply Hx|]. eapply Forall2_impl; [exact Hmore|]. intros p l Hp. by apply Hx.
Qed.
End Line.
(** C26: A command line of settings, "--" and the words of the application, fewer words than the array of arguments
    has entries, takes the boot to [main]: the
    line is cut into its words, each setting has been carried out, in order, on the memory that differs
    from the one before only in the line, and [main] gets the name of the program and the words of the
    application, as strings that no setting has damaged.  A parameter holds the number of the last
    setting that fits and that no later one overwrites.  The settings are numbers for scalar parameters ([numeric]: of 1, 2, 4 or
    8 bytes, [signed char] excepted) or for parameters that do not exist, with plain values without blanks and quotes;
    strings and arrays are left out. *)
Theorem boot_command_line fuel names libs lnames pnames m errno arg0 argb line junk prog settings strss app :
  line_ok fuel names libs lnames pnames m argb line junk ->
  Forall (setting_ok fuel (zone names argb line junk) libs lnames pnames m) settings ->
  Forall2 (fun s strs => spells (s_name s) (s_val s) strs) settings strss ->
  ArgParse.words 0 None line = (if arg0 =? 0 then [prog] else []) ++ concat strss ++ LIB_ARG_SEP :: app ->
  (arg0 <> 0 -> str fuel names m arg0 prog) ->
  zlen (ArgParse.words 0 None line) + zlen (heads arg0) < MAXNBARGS ->
  exists argv errno' m1, let m' := fold_left (effect libs lnames pnames) settings m1 in
    boot_args fuel libs m errno arg0 argb (size line junk) = Some (Main argv errno' m') /\
    (forall x, ~ (argb <= x < argb + size line junk) -> m1 !! x = m !! x) /\
    Forall2 (cstr m') argv (prog :: app) /\
    (forall s1 s s2 p, settings = s1 ++ s :: s2 -> target libs lnames pnames s = Some p -> fits p (Strto.read_number 10 (s_val s)) = true ->
       (forall s' q, s' ∈ s2 -> target libs lnames pnames s' = Some q -> ~ overlap p q) -> value_is m' p (Strto.n_signed (Strto.read_number 10 (s_val s)))).
Proof.
  intros Hok Hset Hsp Hw Harg Hc. destruct (entry_argp fuel names libs lnames pnames m argb line junk Hok arg0 prog Harg Hc) as (argv & m1 & E & Hk & Hfr & Hstr).
  assert (Hline : (if arg0 =? 0 then [] else [prog]) ++ ArgParse.words 0 None line = prog :: concat strss ++ LIB_ARG_SEP :: app) by (rewrite Hw; by destruct (arg0 =? 0)). rewrite Hline in Hstr.
  destruct (parse_line fuel names libs lnames pnames m argb line junk Hok m1 errno argv prog settings strss app (l_bytes _ _ _ _ _ _ _ _ _ Hok) Hk Hset Hsp Hstr) as (argv' & errno' & E' & Hv).
  exists argv', errno', m1. cbn zeta. unfold boot_args. rewrite E. cbn [mbind option_bind]. split; [done|]. split; [done|]. split; [done|]. intros s1 s s2 p -> Ht Hf Ho.
  apply (last_setting fuel (zone names argb line junk)); try done. eapply Forall_impl; [exact Hset|]. intros x Hx. by eapply setting_line.
Qed.

(** Without "--" all words go to [main], and nothing but the line is written. *)
Theorem boot_without_separator fuel names libs lnames pnames m errno arg0 argb line junk prog :
  line_ok fuel names libs lnames pnames m argb line junk ->
  (arg0 <> 0 -> str fuel names m arg0 prog) ->
  zlen (ArgParse.words 0 None line) + zlen (heads arg0) < MAXNBARGS -> LIB_ARG_SEP ∉ ArgParse.words 0 None line ->
  exists argv m1, boot_args fuel libs m errno arg0 argb (size line junk) = Some (Main argv errno m1) /\
    (forall x, ~ (argb <= x < argb + size line junk) -> m1 !! x = m !! x) /\
    Forall2 (cstr m1) argv ((if arg0 =? 0 then [] else [prog]) ++ ArgParse.words 0 None line).
Proof.
  intros Hok Harg Hc Hn. destruct (entry_argp fuel names libs lnames pnames m argb line junk Hok arg0 prog Harg Hc) as (argv & m1 & E & Hk & Hfr & Hstr).
  exists argv, m1. unfold boot_args. rewrite E. cbn [mbind option_bind]. split; [|split; [done|eapply Forall2_impl; [exact Hstr|]; intros p l Hp; apply Hp]].
  unfold ukplat_entry_args. destruct argv as [|p0 [|p1 args]]; [done..|]. assert (Hr : kernel_arg_range_fetch m1 (p1 :: args) 0 = Some (-1)).
  { destruct (arg0 =? 0); cbn [app] in Hstr.
    - destruct (ArgParse.words 0 None line) as [|w ws]; [by inversion Hstr|]. apply Forall2_cons in Hstr as [_ Hstr]. apply not_elem_of_cons in Hn as [_ Hn]. by eapply range_fetch_none.
    - apply Forall2_cons in Hstr as [_ Hstr]. by eapply range_fetch_none. }
  unfold uk_libparam_parse. rewrite Hr. done.
Qed.
(** ** A boot *)

(** [app lib.x=-7 lib.y = 300 -- 'a b'] at 144, with double quotes, in front of the parameters at 240. *)
Definition demo_line : list Z := [97; 112; 112; 32; 108; 105; 98; 46; 120; 61; 45; 55; 32; 108; 105; 98; 46; 121; 32; 61; 32; 51; 48; 48; 32; 45; 45; 32; 34; 97; 32; 98; 34].
Definition demo_boot : mem :=
  list_to_map (map (fun i => (i, default 0 ((mem_of 96 [108; 105; 98] ∪ mem_of 112 [108; 105; 98; 46; 120] ∪ mem_of 128 [108; 105; 98; 46; 121] ∪ mem_of 144 demo_line) !! i))) (seqZ 96 192)).
Definition demo_zone (a : Z) : Prop := 96 <= a < 144.

Lemma demo_str p l : strb demo_boot p l && (8 * ((p + zlen l) / 8) + 8 <=? 144) = true -> str 40 demo_zone demo_boot p l.
Proof.
  intros H. apply andb_true_iff in H as [H Hz]. apply Z.leb_le in Hz. destruct (strb_ok _ _ _ H) as [H1 H2 H3 H4 H5 H6 H7]. split; try done. intros a Ha. specialize (H3 a Ha). unfold demo_safe, demo_zone in *. lia.
Qed.

Lemma demo_param p : p = demo_x \/ p = demo_y -> numeric (zone demo_zone 144 demo_line []) demo_boot p.
Proof.
  assert (Hz : forall a, zone demo_zone 144 demo_line [] a -> a < 184) by (intros a [Ha|Ha]; [unfold demo_zone in Ha; lia|]; unfold buffer in Ha; change (size demo_line []) with 34 in Ha; change ((144 + 34) / 8) with 22 in Ha; lia).
  intros [-> | ->]; split; try done.
  - exists true, 4. split; [done|]. tauto.
  - apply mappedb_ok. by vm_compute.
  - intros a Ha Hx. apply Hz in Hx. cbn in Ha. lia.
  - exists false, 2. split; [done|]. tauto.
  - apply mappedb_ok. by vm_compute.
  - intros a Ha Hx. apply Hz in Hx. cbn in Ha. lia.
Qed.

Lemma demo_line_ok : line_ok 40 demo_zone [demo_lib] [[108; 105; 98]] demo_names demo_boot 144 demo_line [].
Proof.
  split; try done.
  - apply all_bytes_ok. by vm_compute.
  - cbn. lia.
  - assert (Hm : mapped demo_boot 144 40) by (apply mappedb_ok; by vm_compute). intros a Ha. apply Hm. unfold buffer in Ha. change (size demo_line []) with 34 in Ha. change ((144 + 34) / 8) with 22 in Ha. lia.
  - assert (Hc : cstr demo_boot 144 demo_line) by (apply cstrb_ok; by vm_compute). destruct Hc as [Hc H0 _]. apply bytes_at_app. split; [done|]. apply bytes_at_cons. split; [done|]. by intros i x Hi.
  - apply (bool_decide_unpack _). by vm_compute.
  - intros a Ha. unfold demo_zone in Ha. lia.
  - split; [constructor; [apply demo_str; by vm_compute|constructor]|]. constructor; [|constructor]. constructor; [apply demo_str; by vm_compute|]. constructor; [apply demo_str; by vm_compute|constructor].
Qed.

Lemma demo_setting s : s = Setting [108; 105; 98] [120] [45; 55] \/ s = Setting [108; 105; 98] [121] [51; 48; 48] -> setting_ok 40 (zone demo_zone 144 demo_line []) [demo_lib] [[108; 105; 98]] demo_names demo_boot s.
Proof.
  intros [-> | ->]; (split; [apply (bool_decide_unpack _); by vm_compute|apply (bool_decide_unpack _); by vm_compute|split; [apply (bool_decide_unpack _); by vm_compute|done]|repeat constructor|cbn; lia|]);
    intros p Hp; vm_compute in Hp; injection Hp as <-; apply demo_param; [by left|by right].
Qed.

Lemma boot_command_line_witness : exists argv errno' m', boot_args 40 [demo_lib] demo_boot 0 0 144 34 = Some (Main argv errno' m') /\ Forall2 (cstr m') argv [[97; 112; 112]; [97; 32; 98]] /\ value_is m' demo_x (-7).
Proof.
  destruct (boot_command_line 40 demo_zone [demo_lib] [[108; 105; 98]] demo_names demo_boot 0 0 144 demo_line [] [97; 112; 112] demo_settings
    [[[108; 105; 98; 46; 120; 61; 45; 55]]; [[108; 105; 98; 46; 121]; [61]; [51; 48; 48]]] [[97; 32; 98]]) as (argv & errno' & m1 & E & _ & Hv & Hp).
  - exact demo_line_ok.
  - constructor; [apply demo_setting; by left|]. constructor; [apply demo_setting; by right|constructor].
  - constructor; [apply (sp_one [108; 105; 98; 46; 120] [45; 55])|]. constructor; [apply (sp_three [108; 105; 98; 46; 121] [51; 48; 48])|constructor].
  - by vm_compute.
  - done.
  - by vm_compute.
  - exists argv, errno', (fold_left (effect [demo_lib] [[108; 105; 98]] demo_names) demo_settings m1). split; [exact E|]. split; [exact Hv|].
    apply (Hp [] (Setting [108; 105; 98] [120] [45; 55]) [Setting [108; 105; 98] [121] [51; 48; 48]] demo_x); [done|by vm_compute|by vm_compute|].
    intros s' q Hs Ht. apply list_elem_of_singleton in Hs as ->. vm_compute in Ht. injection Ht as <-. intros [_ Ho]. change (psize demo_x) with 4 in Ho. cbn in Ho. lia.
Defined.
End Boot.
