(* ===== verification/KvmMemory.v ===== *)
(** * KvmMemory: the memory map of the KVM platform and the heap

    [plat/kvm/x86/setup.c]: [_mb_init_mem] places the heap and the boot stack behind the image, with the
    memory map of the boot loader; [_mb_init_initrd] takes the initial RAM disk out of the heap.
    [plat/kvm/memory.c] lists the regions, [include/uk/plat/memory.h] walks over them, and the loop of
    [ukplat_entry] in [lib/ukboot/boot.c] gives those that may be allocated to the buddy allocator
    ([BBuddy]).  [None] stands for [UK_CRASH] and for a failed [UK_ASSERT]. *)
From Stdlib Require Import ZArith Lia Bool.
From stdpp Require Import gmap.
From S2P Require Import Prelude Mem PageAlloc BBuddyMap BBuddyList BBuddy.
Open Scope Z_scope.

Module KvmMemory.
Import Buddy.

(** ** [include/uk/essentials.h] *)

Definition IN_RANGE (val base len : Z) : bool := (base <=? val) && (val <? u64 (base + len)).
Definition RANGE_OVERLAP (base0 len0 base1 len1 : Z) : bool :=
  IN_RANGE base1 base0 len0 || IN_RANGE (u64 (base1 + len1)) base0 len0 ||
  ((base1 <=? base0) && (u64 (base0 + len0) <=? u64 (base1 + len1))).

(** ** The configuration *)

Definition PLATFORM_MEM_START : Z := 0x100000.
Definition PLATFORM_MAX_MEM_ADDR : Z := 0x40000000.
(** With the default [CONFIG_STACK_SIZE_PAGE_ORDER]. *)
Definition STACK_SIZE : Z := PAGE_SIZE * 2 ^ 4.
Definition MULTIBOOT_MEMORY_AVAILABLE : Z := 1.

(** The fields of [struct multiboot_info] that are read. *)
Record multiboot_info := MultibootInfo { mods_count : Z; mods_addr : Z; mmap_length : Z; mmap_addr : Z }.

Record kvmplat_config_memregion := Reg { start : Z; end_ : Z; len : Z }.
Record kvmplat_config := Cfg {
  heap : kvmplat_config_memregion;
  bstack : kvmplat_config_memregion;
  initrd : kvmplat_config_memregion;
  heap2 : kvmplat_config_memregion
}.
Definition no_region : kvmplat_config_memregion := Reg 0 0 0.

Definition load32 (m : mem) (a : Z) : option Z := bs ← load_bytes m a 4; Some (le bs).

(** The search for the entry of the memory map, at [mmap_addr + offset]. *)
Fixpoint find_entry (fuel : nat) (m : mem) (mi : multiboot_info) (offset : Z) : option (option Z) :=
  if offset <? mmap_length mi then
    match fuel with
    | O => None
    | S fuel' =>
        let e := u64 (mmap_addr mi + offset) in
        addr ← load64 m (e + 4);
        found ← (if addr =? PLATFORM_MEM_START then type ← load32 m (e + 20); Some (type =? MULTIBOOT_MEMORY_AVAILABLE) else Some false);
        if found : bool then Some (Some e)
        else size ← load32 m e; find_entry fuel' m mi (u64 (offset + (size + 4)))
    end
  else Some None.

(** [END] is the end of the image, [__END]. *)
Definition _mb_init_mem (END : Z) (m : mem) (mi : multiboot_info) (cfg : kvmplat_config) : option kvmplat_config :=
  r ← find_entry (Z.to_nat (mmap_length mi)) m mi 0;
  match r with
  | None => None
  | Some e =>
      addr ← load64 m (e + 4); l ← load64 m (e + 12);
      let max_addr := u64 (addr + l) in
      let max_addr := if PLATFORM_MAX_MEM_ADDR <? max_addr then PLATFORM_MAX_MEM_ADDR else max_addr in
      if max_addr <? END then None
      else if u64 (max_addr - addr) <? STACK_SIZE then None
      else
        let hstart := ALIGN_UP END PAGE_SIZE in
        let hend := u64 (max_addr - STACK_SIZE) in
        Some (Cfg (Reg hstart hend (u64 (hend - hstart))) (Reg hend max_addr STACK_SIZE) (initrd cfg) (heap2 cfg))
  end.

(** The two pieces that the RAM disk leaves of the heap: their starts and ends. *)
Definition heap_pieces (heap initrd : kvmplat_config_memregion) : (Z * Z) * (Z * Z) :=
  if RANGE_OVERLAP (start heap) (len heap) (start initrd) (len initrd) then
    (if IN_RANGE (start initrd) (start heap) (len heap) then (start heap, ALIGN_DOWN (start initrd) PAGE_SIZE) else (0, 0),
     if IN_RANGE (start initrd) (start heap) (len heap) then (ALIGN_UP (end_ initrd) PAGE_SIZE, end_ heap) else (0, 0))
  else ((start heap, end_ heap), (0, 0)).

Definition _mb_init_initrd (m : mem) (mi : multiboot_info) (cfg : kvmplat_config) : option kvmplat_config :=
  let no_initrd := Cfg (heap cfg) (bstack cfg) no_region no_region in
  if mods_count mi =? 0 then Some no_initrd
  else if mods_addr mi =? 0 then None
  else
    mod_start ← load32 m (mods_addr mi); mod_end ← load32 m (mods_addr mi + 4);
    if mod_end <? mod_start then None
    else if mod_end =? mod_start then Some no_initrd
    else
      let initrd := Reg mod_start mod_end (mod_end - mod_start) in
      if len (heap cfg) =? 0 then Some (Cfg (heap cfg) (bstack cfg) initrd (heap2 cfg))
      else
        let '((heap0_start, heap0_end), (heap1_start, heap1_end)) := heap_pieces (heap cfg) initrd in
        let heap0_len := u64 (heap0_end - heap0_start) in
        let heap1_len := u64 (heap1_end - heap1_start) in
        let piece0 := Reg heap0_start heap0_end heap0_len in
        let piece1 := if negb (heap1_len =? 0) then Reg heap1_start heap1_end heap1_len else no_region in
        let '(h, h2) := if heap0_len =? 0 then (piece1, no_region) else (piece0, piece1) in
        if RANGE_OVERLAP (start h) (len h) (start initrd) (len initrd) then None
        else Some (Cfg h (bstack cfg) initrd h2).

(** ** The list of regions *)

Definition UKPLAT_MEMRF_FREE : Z := 0x1.
Definition UKPLAT_MEMRF_RESERVED : Z := 0x2.
Definition UKPLAT_MEMRF_EXTRADATA : Z := 0x4.
Definition UKPLAT_MEMRF_READABLE : Z := 0x10.
Definition UKPLAT_MEMRF_WRITABLE : Z := 0x20.
Definition UKPLAT_MEMRF_ALLOCATABLE : Z := Z.lor (Z.lor UKPLAT_MEMRF_FREE UKPLAT_MEMRF_READABLE) UKPLAT_MEMRF_WRITABLE.
Definition UKPLAT_MEMRF_INITRD : Z := Z.lor UKPLAT_MEMRF_EXTRADATA UKPLAT_MEMRF_READABLE.

Record ukplat_memregion_desc := Desc { d_base : Z; d_len : Z; d_flags : Z }.

(** What a platform tells of its memory: the number of regions, and each of them with the result of the call. *)
Class MemRegions := {
  ukplat_memregion_count : Z;
  ukplat_memregion_get : Z -> Z * ukplat_memregion_desc
}.

(** The sections of the image, from the linker script. *)
Record image := Image {
  TEXT : Z; ETEXT : Z; EH_FRAME_START : Z; EH_FRAME_END : Z; EH_FRAME_HDR_START : Z; EH_FRAME_HDR_END : Z;
  RODATA : Z; ERODATA : Z; CTORS : Z; ECTORS : Z; DATA : Z; EDATA : Z; BSS_START : Z; IMAGE_END : Z
}.

Definition kvm_get (img : image) (cfg : kvmplat_config) (i : Z) : Z * ukplat_memregion_desc :=
  let ro := Z.lor UKPLAT_MEMRF_RESERVED UKPLAT_MEMRF_READABLE in
  let rw := Z.lor ro UKPLAT_MEMRF_WRITABLE in
  if i =? 0 then (0, Desc (TEXT img) (u64 (ETEXT img - TEXT img)) ro)
  else if i =? 1 then (0, Desc (EH_FRAME_START img) (u64 (EH_FRAME_END img - EH_FRAME_START img)) ro)
  else if i =? 2 then (0, Desc (EH_FRAME_HDR_START img) (u64 (EH_FRAME_HDR_END img - EH_FRAME_HDR_START img)) ro)
  else if i =? 3 then (0, Desc (RODATA img) (u64 (ERODATA img - RODATA img)) ro)
  else if i =? 4 then (0, Desc (CTORS img) (u64 (ECTORS img - CTORS img)) ro)
  else if i =? 5 then (0, Desc (DATA img) (u64 (EDATA img - DATA img)) rw)
  else if i =? 6 then (0, Desc (BSS_START img) (u64 (IMAGE_END img - BSS_START img)) rw)
  else if i =? 7 then (0, Desc (start (heap cfg)) (len (heap cfg)) UKPLAT_MEMRF_ALLOCATABLE)
  else if i =? 8 then (0, Desc (start (bstack cfg)) (len (bstack cfg)) rw)
  else if (i =? 9) && negb (len (initrd cfg) =? 0) then
    (0, Desc (start (initrd cfg)) (len (initrd cfg)) (Z.lor UKPLAT_MEMRF_INITRD UKPLAT_MEMRF_WRITABLE))
  else if ((i =? 9) || (i =? 10)) && negb (len (initrd cfg) =? 0) && negb (len (heap2 cfg) =? 0) then
    (0, Desc (start (heap2 cfg)) (len (heap2 cfg)) UKPLAT_MEMRF_ALLOCATABLE)
  else (-1, Desc 0 0 0).

Definition kvm_count (cfg : kvmplat_config) : Z :=
  9 + (if 0 <? len (initrd cfg) then 1 else 0) + (if 0 <? len (heap2 cfg) then 1 else 0).

Definition kvm_regions (img : image) (cfg : kvmplat_config) : MemRegions :=
  {| ukplat_memregion_count := kvm_count cfg; ukplat_memregion_get := kvm_get img cfg |}.

(** ** The walk over the regions *)

Section Walk.
Context {P : MemRegions}.

Definition suits (sflags : Z) (r : Z * ukplat_memregion_desc) : bool := negb ((r.1 <? 0) || negb (Z.land (d_flags r.2) sflags =? sflags)).

(** [do ... while]: the index it ends at and the descriptor. *)
Fixpoint find_loop (fuel : nat) (i sflags : Z) : option (Z * ukplat_memregion_desc) :=
  match fuel with
  | O => None
  | S fuel' =>
      let i := i + 1 in
      let r := ukplat_memregion_get i in
      if (i <? ukplat_memregion_count) && ((r.1 <? 0) || negb (Z.land (d_flags r.2) sflags =? sflags)) then find_loop fuel' i sflags
      else Some (i, r.2)
  end.

(** [Some None] for the result -1. *)
Definition ukplat_memregion_find_next (i sflags : Z) : option (option (Z * ukplat_memregion_desc)) :=
  if ukplat_memregion_count <=? i then Some None
  else
    '(i, mrd) ← find_loop (Z.to_nat (ukplat_memregion_count - i)) i sflags;
    Some (if i =? ukplat_memregion_count then None else Some (i, mrd)).

(** One pass of the loop of [ukplat_entry]; [sizes] is the size of the allocator's structures. *)
Definition add_region (sizes : Z) (a : option uk_bbpalloc) (md : ukplat_memregion_desc) : option (option uk_bbpalloc) :=
  match a with
  | None => uk_allocbbuddy_init sizes (d_base md) (d_len md)
  | Some b => '(_, b) ← bbuddy_addmem b (d_base md) (d_len md); Some (Some b)
  end.

(** [ukplat_memregion_foreach(&md, UKPLAT_MEMRF_ALLOCATABLE)] *)
Fixpoint heap_loop (fuel : nat) (sizes i : Z) (a : option uk_bbpalloc) : option (option uk_bbpalloc) :=
  r ← ukplat_memregion_find_next i UKPLAT_MEMRF_ALLOCATABLE;
  match r, fuel with
  | None, _ => Some a
  | Some _, O => None
  | Some (i, md), S fuel' => a ← add_region sizes a md; heap_loop fuel' sizes i a
  end.

Definition init_heap (sizes : Z) : option (option uk_bbpalloc) :=
  heap_loop (Z.to_nat ukplat_memregion_count) sizes (-1) None.
End Walk.

(** ** What the walk visits *)

Section WalkProofs.
Context {P : MemRegions}.

(** The [n] regions from [i] on that have the flags. *)
Fixpoint regions_from (n : nat) (i sflags : Z) : list ukplat_memregion_desc :=
  match n with
  | O => []
  | S n' => if suits sflags (ukplat_memregion_get i) then (ukplat_memregion_get i).2 :: regions_from n' (i + 1) sflags else regions_from n' (i + 1) sflags
  end.

Definition regions (sflags : Z) : list ukplat_memregion_desc := regions_from (Z.to_nat ukplat_memregion_count) 0 sflags.

Fixpoint add_regions (sizes : Z) (a : option uk_bbpalloc) (mds : list ukplat_memregion_desc) : option (option uk_bbpalloc) :=
  match mds with [] => Some a | md :: mds' => a ← add_region sizes a md; add_regions sizes a mds' end.

Lemma find_next_here i sflags : i + 1 < ukplat_memregion_count -> suits sflags (ukplat_memregion_get (i + 1)) = true ->
  ukplat_memregion_find_next i sflags = Some (Some (i + 1, (ukplat_memregion_get (i + 1)).2)).
Proof.
  intros Hi Hs. unfold ukplat_memregion_find_next. rewrite (proj2 (Z.leb_gt _ _)) by lia. replace (Z.to_nat (ukplat_memregion_count - i)) with (S (Z.to_nat (ukplat_memregion_count - (i + 1)))) by lia.
  cbn [find_loop]. unfold suits in Hs. apply negb_true_iff in Hs. rewrite Hs, andb_false_r. cbn [mbind option_bind]. by rewrite (proj2 (Z.eqb_neq _ _)) by lia.
Qed.

Lemma find_next_skip i sflags : i + 1 < ukplat_memregion_count -> suits sflags (ukplat_memregion_get (i + 1)) = false ->
  ukplat_memregion_find_next i sflags = ukplat_memregion_find_next (i + 1) sflags.
Proof.
  intros Hi Hs. unfold ukplat_memregion_find_next. rewrite !(proj2 (Z.leb_gt _ _)) by lia. replace (Z.to_nat (ukplat_memregion_count - i)) with (S (Z.to_nat (ukplat_memregion_count - (i + 1)))) by lia.
  cbn [find_loop]. unfold suits in Hs. apply negb_false_iff in Hs. by rewrite Hs, (proj2 (Z.ltb_lt _ _)) by lia.
Qed.

Lemma find_next_end i sflags : ukplat_memregion_count <= i + 1 -> ukplat_memregion_find_next i sflags = Some None.
Proof.
  intros Hi. unfold ukplat_memregion_find_next. destruct (Z.leb_spec ukplat_memregion_count i); [done|]. replace (Z.to_nat (ukplat_memregion_count - i)) with 1%nat by lia.
  cbn [find_loop]. rewrite (proj2 (Z.ltb_ge _ _)) by lia. cbn [andb mbind option_bind]. by rewrite (proj2 (Z.eqb_eq _ _)) by lia.
Qed.

(** The loop visits the regions that may be allocated, in order. *)
Lemma heap_loop_spec sizes n : forall fuel i a, Z.of_nat n = ukplat_memregion_count - (i + 1) -> (n <= fuel)%nat ->
  heap_loop fuel sizes i a = add_regions sizes a (regions_from n (i + 1) UKPLAT_MEMRF_ALLOCATABLE).
Proof.
  induction n as [|n IH]; intros fuel i a Hn Hf; cbn [regions_from].
  - destruct fuel; cbn [heap_loop]; rewrite find_next_end by lia; done.
  - destruct (suits _ _) eqn:Es.
    + destruct fuel as [|fuel]; [lia|]. cbn [heap_loop add_regions]. rewrite (find_next_here i _ ltac:(lia) Es). cbn [mbind option_bind]. destruct (add_region _ _ _) as [a'|]; [|done]. cbn [mbind option_bind]. apply IH; lia.
    + rewrite <- (IH fuel (i + 1)) by lia. destruct fuel; cbn [heap_loop]; by rewrite (find_next_skip i _ ltac:(lia) Es).
Qed.

Lemma init_heap_regions sizes : 0 <= ukplat_memregion_count -> init_heap sizes = add_regions sizes None (regions UKPLAT_MEMRF_ALLOCATABLE).
Proof. intros Hc. apply (heap_loop_spec sizes (Z.to_nat ukplat_memregion_count)); lia. Qed.
End WalkProofs.

(** ** The allocator over the regions *)

(** The pages of a region. *)
Definition lo (d : ukplat_memregion_desc) : Z := round_pgup (d_base d).
Definition hi (d : ukplat_memregion_desc) : Z := round_pgdown (d_base d + d_len d).
Definition pages (d : ukplat_memregion_desc) : Z := (hi d - lo d) / PAGE_SIZE.
Definition apart (d d' : ukplat_memregion_desc) : Prop := hi d <= lo d' \/ hi d' <= lo d.

(** A region with at least one page, and so few that a page holds the bits of all of them. *)
Record usable (d : ukplat_memregion_desc) : Prop := {
  us_base : 0 < d_base d;
  us_len : 0 <= d_len d;
  us_end : d_base d + d_len d < 2 ^ 64 - 4096;
  us_pages : 1 <= pages d <= 32449
}.

Lemma usable_bounds d : usable d -> hi d - lo d = PAGE_SIZE * pages d /\ (PAGE_SIZE | lo d) /\ (PAGE_SIZE | hi d) /\ d_base d <= lo d /\ hi d <= d_base d + d_len d.
Proof.
  intros [H1 H2 H3 H4]. destruct (round_pgup_page (d_base d)) as [Hr Hd]; [lia..|]. fold (lo d) in Hr, Hd.
  assert (Hh : hi d = PAGE_SIZE * ((d_base d + d_len d) / PAGE_SIZE)) by (unfold hi, round_pgdown; change PAGE_SIZE with (2 ^ 12); apply ALIGN_DOWN_spec; unfold in_u; lia).
  assert (Hd' : (PAGE_SIZE | hi d)) by (rewrite Hh; apply Z.divide_factor_l). split; [|split; [done|split; [done|split; [lia|]]]].
  - unfold pages. apply Z_div_exact_2; [done|]. apply Z.mod_divide; [done|]. by apply Z.divide_sub_r.
  - rewrite Hh. apply Z.mul_div_le. done.
Qed.

(** The allocator holds [np] pages, which are inside the regions [ds]. *)
Definition in_regions (ds : list ukplat_memregion_desc) (g : Z * Z) : Prop := exists d, d ∈ ds /\ lo d < g.1 /\ g.1 + PAGE_SIZE * g.2 <= hi d.
Definition heap_over (ds : list ukplat_memregion_desc) (np : Z) (b : uk_bbpalloc) : Prop :=
  (exists fl, wf np b fl None [] /\ merged fl) /\ Forall (in_regions ds) (geometry (memr_head b)).

Lemma in_regions_mono ds ds' g : (forall d, d ∈ ds -> d ∈ ds') -> in_regions ds g -> in_regions ds' g.
Proof. intros H (d & Hd & Hg). exists d. eauto. Qed.

Lemma heap_fits ds b d : Forall (in_regions ds) (geometry (memr_head b)) -> Forall (apart d) ds -> fits (memr_head b) (lo d) (hi d).
Proof.
  intros Hg Ha i m Hm. rewrite Forall_forall in Hg. rewrite Forall_forall in Ha. destruct (Hg (first_page m, nr_pages m)) as (d' & Hd & H1 & H2).
  { unfold geometry. apply list_elem_of_fmap. exists m. split; [done|]. by eapply list_elem_of_lookup_2. }
  cbn in H1, H2. destruct (Ha d' Hd); lia.
Qed.

(** Another region adds all of its pages but one. *)
Lemma add_region_spec ds np b d : heap_over ds np b -> usable d -> Forall (apart d) ds ->
  exists rc b', bbuddy_addmem b (d_base d) (d_len d) = Some (rc, b') /\ heap_over (d :: ds) (np + (pages d - 1)) b'.
Proof.
  intros [(fl & W & M) Hg] Hu Ha. destruct (usable_bounds d Hu) as (Hk & Hlo & Hhi & Hb & He). destruct Hu as [H1 H2 H3 H4].
  assert (Hg' : Forall (in_regions (d :: ds)) (geometry (memr_head b))) by (eapply Forall_impl; [exact Hg|]; intros g; apply in_regions_mono; intros x Hx; by apply list_elem_of_further).
  destruct (Z.eq_dec (pages d) 1) as [E|E].
  - exists (- EINVAL), b. rewrite E, Z.add_0_r. split; [|split; [by exists fl|done]]. unfold bbuddy_addmem. rewrite (proj2 (Z.eqb_neq _ 0)) by lia. rewrite (wrap_small 64 (d_base d + d_len d)) by (unfold in_u; lia).
    fold (lo d) (hi d). rewrite (proj2 (Z.ltb_ge (hi d) _)) by (unfold PAGE_SIZE in *; lia). change (round_pgup (sizeof_memr + BYTES_PER_MAPWORD)) with PAGE_SIZE. by rewrite (proj2 (Z.ltb_lt (hi d - lo d) _)) by (unfold PAGE_SIZE in *; lia).
  - destruct (addmem_spec np b fl [] (d_base d) (d_len d) (pages d) W) as (b' & fl' & Ea & W' & Eg & M'); [done|done|done|done|lia|exact (heap_fits ds b d Hg Ha)|]. fold (lo d) in Eg.
    exists 0, b'. split; [done|]. split; [exists fl'; auto|]. rewrite Eg. constructor; [|done]. exists d. split; [apply list_elem_of_here|]. cbn. unfold PAGE_SIZE in *. lia.
Qed.

(** The first one also holds the allocator, and the page behind it stays unused. *)
Lemma init_region_spec sizes d : usable d -> 0 < sizes <= PAGE_SIZE -> exists b, uk_allocbbuddy_init sizes (d_base d) (d_len d) = Some (Some b) /\ heap_over [d] (Z.max 0 (pages d - 3)) b.
Proof.
  intros Hu Hs. destruct (usable_bounds d Hu) as (Hk & Hlo & Hhi & Hb & He). destruct Hu as [H1 H2 H3 H4].
  assert (Em : round_pgup sizes = PAGE_SIZE). { unfold round_pgup. change PAGE_SIZE with (2 ^ 12) in *. rewrite ALIGN_UP_spec by lia. change (2 ^ 12) with 4096 in *. replace ((sizes + 4096 - 1) / 4096) with 1; [done|]. apply Z.div_unique with (sizes - 1); lia. }
  unfold uk_allocbbuddy_init. rewrite (wrap_small 64 (d_base d + d_len d)) by (unfold in_u; lia). fold (lo d) (hi d). rewrite Em. rewrite (proj2 (Z.leb_gt (hi d) _)) by (unfold PAGE_SIZE in *; lia).
  rewrite (wrap_small 64 (lo d + _)), (wrap_small 64 (lo d + _ + _)) by (unfold in_u, PAGE_SIZE in *; lia). rewrite (proj2 (Z.ltb_ge (hi d) _)) by (unfold PAGE_SIZE in *; lia).
  assert (H0 : heap_over [] 0 bb_empty) by (split; [exists (fun _ => []); split; [apply bb_empty_wf|apply empty_merged]|constructor]).
  destruct (Z.ltb_spec (lo d + PAGE_SIZE + PAGE_SIZE) (hi d)) as [Hlt|Hge].
  - rewrite (wrap_small 64 (hi d - _ - _)) by (unfold in_u, PAGE_SIZE in *; lia). set (d' := Desc (lo d + PAGE_SIZE + PAGE_SIZE) (hi d - (lo d + PAGE_SIZE) - PAGE_SIZE) 0).
    assert (El : lo d' = lo d + PAGE_SIZE + PAGE_SIZE). { unfold lo at 1. change (d_base d') with (lo d + PAGE_SIZE + PAGE_SIZE). unfold round_pgup. destruct Hlo as [x Hx]. change PAGE_SIZE with (2 ^ 12). rewrite ALIGN_UP_spec by (unfold PAGE_SIZE in *; lia). rewrite Hx. unfold PAGE_SIZE. change (2 ^ 12) with 4096. replace (x * 4096 + 4096 + 4096 + 4096 - 1) with (4095 + (x + 2) * 4096) by lia. rewrite Z.div_add by done. change (4095 / 4096) with 0. lia. }
    assert (Eh : hi d' = hi d). { unfold hi at 1. unfold d'. cbn [d_base d_len]. replace (_ + _ + _ + _) with (hi d) by lia. unfold round_pgdown. destruct Hhi as [x Hx]. change PAGE_SIZE with (2 ^ 12). rewrite ALIGN_DOWN_spec by (unfold in_u; lia). rewrite Hx. change PAGE_SIZE with (2 ^ 12). rewrite Z.div_mul by done. lia. }
    assert (Ep : pages d' = pages d - 2). { unfold pages at 1. rewrite El, Eh. symmetry. apply Z.div_unique_exact; [done|]. unfold PAGE_SIZE in *. lia. }
    destruct (add_region_spec [] 0 bb_empty d' H0) as (rc & b & Ea & [Hwf Hg]).
    { split; [unfold d'; cbn; unfold PAGE_SIZE in *; lia..|]. rewrite Ep. unfold PAGE_SIZE in *. lia. } { constructor. }
    unfold d' in Ea. cbn [d_base d_len] in Ea. rewrite Ea. cbn [mbind option_bind]. exists b. split; [done|]. split.
    + rewrite Ep in Hwf. replace (Z.max 0 (pages d - 3)) with (0 + (pages d - 2 - 1)) by (unfold PAGE_SIZE in *; lia). done.
    + eapply Forall_impl; [exact Hg|]. intros g (x & Hx & G1 & G2). apply list_elem_of_singleton in Hx as ->. exists d. split; [apply list_elem_of_here|]. unfold PAGE_SIZE in *. lia.
  - exists bb_empty. split; [done|]. destruct H0 as [H0 _]. replace (Z.max 0 (pages d - 3)) with 0 by (unfold PAGE_SIZE in *; lia). split; [done|constructor].
Qed.

Definition more_pages (ds : list ukplat_memregion_desc) : Z := foldr (fun d n => pages d - 1 + n) 0 ds.

Lemma add_regions_spec sizes ds : forall ds0 np b, heap_over ds0 np b -> Forall usable ds -> pairwise apart ds -> Forall (fun d => Forall (apart d) ds0) ds ->
  exists b' ds', add_regions sizes (Some b) ds = Some (Some b') /\ heap_over ds' (np + more_pages ds) b' /\ forall d, d ∈ ds' -> d ∈ ds0 ++ ds.
Proof.
  induction ds as [|d ds IH]; intros ds0 np b H Hu Hp Ha; cbn [add_regions].
  - exists b, ds0. split; [done|]. rewrite app_nil_r, Z.add_0_r. done.
  - apply Forall_cons in Hu as [Hud Hu]. apply Forall_cons in Ha as [Had Ha]. destruct Hp as [Hpd Hp]. destruct (add_region_spec ds0 np b d H Hud Had) as (rc & b1 & E & H1). cbn [add_region]. rewrite E. cbn [mbind option_bind].
    destruct (IH (d :: ds0) _ _ H1 Hu Hp) as (b' & ds' & E' & H' & Hd).
    { apply Forall_forall. intros x Hx. rewrite Forall_forall in Hpd. rewrite Forall_forall in Ha. constructor; [|by apply Ha]. unfold apart. destruct (Hpd x Hx); tauto. }
    exists b', ds'. split; [done|]. cbn [more_pages foldr]. rewrite Z.add_assoc. split; [done|]. intros x Hx. specialize (Hd x Hx). apply elem_of_app in Hd as [Hd|Hd].
    + apply elem_of_cons in Hd as [->|Hd]; apply elem_of_app; [right; apply list_elem_of_here|by left].
    + apply elem_of_app. right. by apply list_elem_of_further.
Qed.

Lemma pairwise_sym_cons d ds : pairwise apart (d :: ds) -> Forall (fun x => Forall (apart x) [d]) ds.
Proof. intros [H _]. eapply Forall_impl; [exact H|]. intros x Hx. constructor; [|constructor]. unfold apart in *. tauto. Qed.

Lemma init_regions_spec sizes d ds : 0 < sizes <= PAGE_SIZE -> Forall usable (d :: ds) -> pairwise apart (d :: ds) ->
  exists b ds', add_regions sizes None (d :: ds) = Some (Some b) /\ heap_over ds' (Z.max 0 (pages d - 3) + more_pages ds) b /\ forall x, x ∈ ds' -> x ∈ d :: ds.
Proof.
  intros Hs Hu Hp. apply Forall_cons in Hu as [Hud Hu]. destruct (init_region_spec sizes d Hud Hs) as (b & E & H). cbn [add_regions add_region]. rewrite E. cbn [mbind option_bind].
  exact (add_regions_spec sizes ds [d] _ b H Hu (proj2 Hp) (pairwise_sym_cons d ds Hp)).
Qed.

(** A run of requests on a heap over regions. *)
Definition inside (d : ukplat_memregion_desc) (blk : Z * Z) : Prop := d_base d <= blk.1 /\ block_end blk <= d_base d + d_len d.

Lemma heap_run ds np b reqs : heap_over ds np b -> Forall usable ds -> Forall page_req_ok reqs ->
  exists b' live, pa_run (T := pool np) b [] reqs = Some (b', live) /\ Forall block_ok live /\ pairwise blocks_apart live /\ (np < 2 ^ 64 -> nr_free_pages b' = np - live_pages live) /\
    Forall (fun blk => exists d, d ∈ ds /\ inside d blk) live.
Proof.
  intros [(fl & W & M) Hg] Hu Hr. destruct (pa_run_inv (T := pool np) b [] reqs) as (b' & live & Hrun & fl' & W' & _); [exists fl; auto|done|]. exists b', live. split; [done|].
  destruct (live_blocks _ _ _ _ W') as [H1 H2]. split; [done|]. split; [done|]. split; [by eapply free_pages_count|].
  assert (Hg' : Forall (in_regions ds) (geometry (memr_head b'))).
  { refine (pa_run_keeps (T := pool np) (fun b => Forall (in_regions ds) (geometry (memr_head b))) reqs _ _ b [] b' live Hrun Hg).
    - intros t n p t' E Ht. by rewrite (palloc_geometry _ _ _ _ E).
    - intros t p n t' E Ht. by rewrite (pfree_geometry _ _ _ _ E). }
  eapply Forall_impl; [exact (wf_live _ _ _ _ _ W')|]. intros blk [L1 L2 (i & m & Hi & Hlo & Hhi) L4]. rewrite Forall_forall in Hg'. destruct (Hg' (first_page m, nr_pages m)) as (d & Hd & G1 & G2).
  { unfold geometry. apply list_elem_of_fmap. exists m. split; [done|]. by eapply list_elem_of_lookup_2. }
  exists d. split; [done|]. rewrite Forall_forall in Hu. destruct (usable_bounds d (Hu d Hd)) as (_ & _ & _ & B1 & B2). rewrite bsize_page in Hhi by apply order_nonneg. pose proof (order_of_covers _ L1). unfold inside, block_end, PAGE, PAGE_SIZE in *. cbn in G1, G2. lia.
Qed.

(** ** The layout *)

(** [_libkvmplat_entry], as far as the configuration goes; it is zero at first. *)
Definition kvm_setup (END : Z) (m : mem) (mi : multiboot_info) : option kvmplat_config :=
  cfg ← _mb_init_mem END m mi (Cfg no_region no_region no_region no_region);
  _mb_init_initrd m mi cfg.

(** The memory map of the loader: entries one after the other, each with its size in front. *)
Record mmap_entry := Entry { e_size : Z; e_addr : Z; e_len : Z; e_type : Z }.
Definition is_ram (e : mmap_entry) : bool := (e_addr e =? PLATFORM_MEM_START) && (e_type e =? MULTIBOOT_MEMORY_AVAILABLE).
Definition map_bytes (es : list mmap_entry) : Z := foldr (fun e n => e_size e + 4 + n) 0 es.

Fixpoint map_at (m : mem) (a : Z) (es : list mmap_entry) : Prop :=
  match es with
  | [] => True
  | e :: es' => load32 m a = Some (e_size e) /\ load64 m (a + 4) = Some (e_addr e) /\ load64 m (a + 12) = Some (e_len e) /\ load32 m (a + 20) = Some (e_type e) /\
      20 <= e_size e /\ map_at m (a + (e_size e + 4)) es'
  end.

Lemma map_bytes_nonneg m a es : map_at m a es -> 24 * zlen es <= map_bytes es.
Proof. revert a. induction es as [|e es IH]; intros a; cbn [map_at map_bytes foldr length]; [done|]. intros (_ & _ & _ & _ & Hs & H). specialize (IH _ H). unfold map_bytes in IH. lia. Qed.

Lemma find_entry_spec m mi e es2 : 0 <= mmap_addr mi < 2 ^ 32 -> mmap_length mi < 2 ^ 32 -> is_ram e = true ->
  forall es1 offset fuel, 0 <= offset -> Forall (fun x => is_ram x = false) es1 -> map_at m (mmap_addr mi + offset) (es1 ++ e :: es2) -> offset + map_bytes (es1 ++ e :: es2) = mmap_length mi -> (length es1 < fuel)%nat ->
  find_entry fuel m mi offset = Some (Some (mmap_addr mi + offset + map_bytes es1)).
Proof.
  intros Ha Hl He. induction es1 as [|x es1 IH]; intros offset fuel Ho Hn Hm Hb Hf; destruct fuel as [|fuel]; cbn [length] in Hf; try lia;
    pose proof (map_bytes_nonneg _ _ _ Hm) as Hbn; cbn [app map_at map_bytes foldr] in Hm, Hb; cbn [app length] in Hbn; destruct Hm as (M1 & M2 & M3 & M4 & M5 & Hm); cbn [find_entry].
  - rewrite (proj2 (Z.ltb_lt _ _)) by (pose proof (map_bytes_nonneg _ _ _ Hm) as Hx; unfold map_bytes in Hx; lia). rewrite (wrap_small 64) by (unfold in_u; pose proof (map_bytes_nonneg _ _ _ Hm) as Hx; unfold map_bytes in Hx; lia).
    rewrite M2. cbn [mbind option_bind]. unfold is_ram in He. apply andb_true_iff in He as [He1 He2]. rewrite He1, M4. cbn [mbind option_bind]. rewrite He2. cbn. by rewrite Z.add_0_r.
  - apply Forall_cons in Hn as [Hx Hn]. pose proof (map_bytes_nonneg _ _ _ Hm) as Hb'. unfold map_bytes in Hb', Hb. rewrite (proj2 (Z.ltb_lt _ _)) by lia. rewrite (wrap_small 64) by (unfold in_u; lia). rewrite M2. cbn [mbind option_bind].
    assert (Hfound : (if e_addr x =? PLATFORM_MEM_START then type ← load32 m (mmap_addr mi + offset + 20); Some (type =? MULTIBOOT_MEMORY_AVAILABLE) else Some false) = Some false).
    { unfold is_ram in Hx. destruct (e_addr x =? PLATFORM_MEM_START); [|done]. rewrite M4. cbn in Hx |- *. by rewrite Hx. }
    rewrite Hfound. cbn [mbind option_bind]. rewrite M1. cbn [mbind option_bind]. rewrite (wrap_small 64) by (unfold in_u; lia). rewrite IH; [f_equal; f_equal; cbn [map_bytes foldr]; unfold map_bytes; lia|lia|done|by rewrite Z.add_assoc|unfold map_bytes; lia|lia].
Qed.

(** The end of the memory that is used, and the heap before the RAM disk is taken out. *)
Definition top (e : mmap_entry) : Z := Z.min (PLATFORM_MEM_START + e_len e) PLATFORM_MAX_MEM_ADDR.
Definition hstart (END : Z) : Z := ALIGN_UP END PAGE_SIZE.
Definition hend (e : mmap_entry) : Z := top e - STACK_SIZE.

Record loaded (END : Z) (m : mem) (mi : multiboot_info) (e : mmap_entry) : Prop := {
  ld_addr : 0 <= mmap_addr mi < 2 ^ 32;
  ld_length : mmap_length mi < 2 ^ 32;
  ld_map : exists es1 es2, Forall (fun x => is_ram x = false) es1 /\ map_at m (mmap_addr mi) (es1 ++ e :: es2) /\ map_bytes (es1 ++ e :: es2) = mmap_length mi;
  ld_ram : is_ram e = true;
  ld_len : 0 <= e_len e < 2 ^ 63;
  ld_end : PLATFORM_MEM_START <= END < 2 ^ 63;
  ld_room : hstart END < hend e
}.

Lemma map_at_app m es1 : forall a es2, map_at m a (es1 ++ es2) -> map_at m (a + map_bytes es1) es2.
Proof.
  induction es1 as [|e es1 IH]; intros a es2; cbn [app map_at map_bytes foldr]; [by rewrite Z.add_0_r|]. intros (_ & _ & _ & _ & _ & H). specialize (IH _ _ H). unfold map_bytes in IH. by rewrite Z.add_assoc.
Qed.

Lemma hstart_bounds END : 0 < END < 2 ^ 63 -> END <= hstart END < END + PAGE_SIZE /\ (PAGE_SIZE | hstart END).
Proof. intros H. apply (ALIGN_UP_bounds 12); lia. Qed.

Lemma init_mem_spec END m mi e cfg : loaded END m mi e ->
  _mb_init_mem END m mi cfg = Some (Cfg (Reg (hstart END) (hend e) (hend e - hstart END)) (Reg (hend e) (top e) STACK_SIZE) (initrd cfg) (heap2 cfg)).
Proof.
  intros [A1 A2 (es1 & es2 & Hn & Hm & Hb) Hr Hl HE Hroom]. destruct (hstart_bounds END) as [Hs _]; [unfold PLATFORM_MEM_START in HE; lia|]. unfold _mb_init_mem. pose proof (map_bytes_nonneg _ _ _ Hm) as Hbn. rewrite length_app in Hbn. cbn [length] in Hbn.
  rewrite (find_entry_spec m mi e es2 A1 A2 Hr es1 0); [|lia|done|by rewrite Z.add_0_r|lia|lia]. cbn [mbind option_bind]. rewrite Z.add_0_r.
  apply map_at_app in Hm. cbn [map_at] in Hm. destruct Hm as (_ & M2 & M3 & _). rewrite M2, M3. cbn [mbind option_bind]. unfold is_ram in Hr. apply andb_true_iff in Hr as [Hr _]. apply Z.eqb_eq in Hr. rewrite Hr.
  assert (Hst : 0 < STACK_SIZE) by done. unfold hend, top in *. assert (Hps : PLATFORM_MEM_START = 0x100000) by done. assert (Hpm : PLATFORM_MAX_MEM_ADDR = 0x40000000) by done. change STACK_SIZE with 65536 in *.
  rewrite (wrap_small 64 (PLATFORM_MEM_START + e_len e)) by (unfold in_u; lia). replace (if _ <? _ then _ else _) with (Z.min (PLATFORM_MEM_START + e_len e) PLATFORM_MAX_MEM_ADDR) by (destruct (Z.ltb_spec PLATFORM_MAX_MEM_ADDR (PLATFORM_MEM_START + e_len e)); lia).
  set (t := Z.min _ _) in *. rewrite (proj2 (Z.ltb_ge t _)) by lia. fold (hstart END).
  rewrite (wrap_small 64 (t - PLATFORM_MEM_START)) by (unfold in_u; lia). rewrite (proj2 (Z.ltb_ge (t - PLATFORM_MEM_START) _)) by lia. by rewrite !(wrap_small 64) by (unfold in_u; rewrite ?(wrap_small 64) by (unfold in_u; lia); lia).
Qed.

Lemma loaded_bounds END m mi e : loaded END m mi e -> 0 < hstart END < hend e /\ hend e < 2 ^ 32 /\ (PAGE_SIZE | hstart END).
Proof.
  intros [_ _ _ _ Hl HE Hroom]. assert (Hps : PLATFORM_MEM_START = 0x100000) by done. destruct (hstart_bounds END) as [Hs Hd]; [lia|]. split; [lia|]. split; [|done].
  assert (Hpm : PLATFORM_MAX_MEM_ADDR = 0x40000000) by done. assert (Hst : 0 < STACK_SIZE) by done. unfold hend, top. lia.
Qed.

(** *** The RAM disk *)

Inductive ramdisk (m : mem) (mi : multiboot_info) : option (Z * Z) -> Prop :=
| rd_none : mods_count mi = 0 -> ramdisk m mi None
| rd_empty s : mods_count mi <> 0 -> mods_addr mi <> 0 -> load32 m (mods_addr mi) = Some s -> load32 m (mods_addr mi + 4) = Some s -> ramdisk m mi None
| rd_some s e : mods_count mi <> 0 -> mods_addr mi <> 0 -> load32 m (mods_addr mi) = Some s -> load32 m (mods_addr mi + 4) = Some e -> s < e -> ramdisk m mi (Some (s, e)).

(** Where the RAM disk may be: away from the heap [[hs, he)] and the stack behind it, below not even touching it,
    or inside the heap, its last page too, and in the first page of the heap only if it does not end with a page. *)
Definition ramdisk_fits (hs he : Z) (rd : option (Z * Z)) : Prop :=
  match rd with
  | None => True
  | Some (s, e) => 0 < s /\ e < 2 ^ 32 /\
      (e < hs \/ he + STACK_SIZE <= s \/ (hs <= s /\ ALIGN_UP e PAGE_SIZE <= he /\ (hs + PAGE_SIZE <= s \/ ~ (PAGE_SIZE | e))))
  end.

(** A piece of the heap, which may be empty. *)
Definition piece (hs he : Z) (r : kvmplat_config_memregion) : Prop :=
  r = no_region \/ len r = end_ r - start r /\ hs <= start r < end_ r /\ end_ r <= he /\ (PAGE_SIZE | start r).

Definition away (rd : option (Z * Z)) (lo hi : Z) : Prop := match rd with None => True | Some (s, e) => hi <= s \/ e <= lo end.

Record mem_layout (hs he t : Z) (rd : option (Z * Z)) (cfg : kvmplat_config) : Prop := {
  ly_heap : piece hs he (heap cfg);
  ly_heap2 : piece hs he (heap2 cfg);
  ly_two : heap2 cfg = no_region \/ heap cfg <> no_region /\ len (initrd cfg) <> 0 /\ end_ (heap cfg) <= start (heap2 cfg);
  ly_stack : bstack cfg = Reg he t STACK_SIZE;
  ly_initrd : initrd cfg = match rd with None => no_region | Some (s, e) => Reg s e (e - s) end;
  ly_away : forall r, r = heap cfg \/ r = heap2 cfg -> r = no_region \/ away rd (start r) (end_ r);
  ly_all : forall a, (PAGE_SIZE | a) -> hs <= a -> a + PAGE_SIZE <= he -> away rd a (a + PAGE_SIZE) ->
    (start (heap cfg) <= a /\ a + PAGE_SIZE <= end_ (heap cfg)) \/ (start (heap2 cfg) <= a /\ a + PAGE_SIZE <= end_ (heap2 cfg))
}.

Lemma pages_order a b : (PAGE_SIZE | a) -> (PAGE_SIZE | b) -> a < b + PAGE_SIZE -> a <= b.
Proof. intros [x ->] [y ->]. unfold PAGE_SIZE. lia. Qed.

Lemma layout_whole hs he t rd : hs < he -> (PAGE_SIZE | hs) -> away rd hs he ->
  mem_layout hs he t rd (Cfg (Reg hs he (he - hs)) (Reg he t STACK_SIZE) (match rd with None => no_region | Some (s, e) => Reg s e (e - s) end) no_region).
Proof.
  intros H Hd Ha. split; cbn; try done; [right; cbn; repeat split; (done || lia)|by left|by left|intros r [-> | ->]; [by right|by left]|]. intros a _ H1 H2 _. by left.
Qed.

Lemma IN_RANGE_spec v b l : 0 <= b -> 0 <= l -> b + l < 2 ^ 64 -> IN_RANGE v b l = true <-> b <= v < b + l.
Proof. intros H1 H2 H3. unfold IN_RANGE. rewrite (wrap_small 64) by (unfold in_u; lia). rewrite andb_true_iff, Z.leb_le, Z.ltb_lt. done. Qed.

Lemma RANGE_OVERLAP_spec b0 l0 b1 l1 : 0 <= b0 -> 0 <= l0 -> b0 + l0 < 2 ^ 64 -> 0 <= b1 -> 0 <= l1 -> b1 + l1 < 2 ^ 64 ->
  RANGE_OVERLAP b0 l0 b1 l1 = true <-> (b0 <= b1 < b0 + l0 \/ b0 <= b1 + l1 < b0 + l0) \/ (b1 <= b0 /\ b0 + l0 <= b1 + l1).
Proof.
  intros. unfold RANGE_OVERLAP. rewrite !orb_true_iff, !IN_RANGE_spec by (rewrite ?(wrap_small 64) by (unfold in_u; lia); lia). rewrite andb_true_iff, !Z.leb_le, !(wrap_small 64) by (unfold in_u; lia). done.
Qed.

Lemma not_overlap b0 l0 b1 l1 : 0 <= b0 -> 0 <= l0 -> b0 + l0 < 2 ^ 64 -> 0 <= b1 -> 0 <= l1 -> b1 + l1 < 2 ^ 64 -> b1 < b0 \/ b0 + l0 <= b1 -> b1 + l1 < b0 \/ b0 + l0 <= b1 + l1 -> b0 < b1 \/ b1 + l1 < b0 + l0 -> RANGE_OVERLAP b0 l0 b1 l1 = false.
Proof. intros. apply not_true_is_false. rewrite RANGE_OVERLAP_spec by done. lia. Qed.

Section Initrd.
Context (hs he t : Z) (Hs : 0 < hs < he) (He : he < 2 ^ 32) (Hd : (PAGE_SIZE | hs)).
Context (s e : Z) (Hse : 0 < s < e) (He32 : e < 2 ^ 32).

(** The second piece, and the pages behind the RAM disk. *)
Definition behind : kvmplat_config_memregion := if negb (u64 (he - ALIGN_UP e PAGE_SIZE) =? 0) then Reg (ALIGN_UP e PAGE_SIZE) he (u64 (he - ALIGN_UP e PAGE_SIZE)) else no_region.

Lemma up_bounds : e <= ALIGN_UP e PAGE_SIZE < e + PAGE_SIZE /\ (PAGE_SIZE | ALIGN_UP e PAGE_SIZE).
Proof using Hse He32. apply (ALIGN_UP_bounds 12); lia. Qed.

Lemma down_bounds : hs <= s -> s - PAGE_SIZE < ALIGN_DOWN s PAGE_SIZE <= s /\ (PAGE_SIZE | ALIGN_DOWN s PAGE_SIZE) /\ hs <= ALIGN_DOWN s PAGE_SIZE.
Proof using Hse He32 Hd.
  intros Hle. assert (E : ALIGN_DOWN s PAGE_SIZE = PAGE_SIZE * (s / PAGE_SIZE)) by (apply (ALIGN_DOWN_spec 12); unfold in_u; lia). pose proof (Z.mul_div_le s PAGE_SIZE ltac:(done)). pose proof (Z.mul_succ_div_gt s PAGE_SIZE ltac:(done)).
  assert (D : (PAGE_SIZE | ALIGN_DOWN s PAGE_SIZE)) by (rewrite E; apply Z.divide_factor_l). split; [lia|]. split; [done|]. apply pages_order; [done|done|lia].
Qed.

Lemma behind_spec : hs <= s -> ALIGN_UP e PAGE_SIZE <= he -> piece hs he behind /\ (behind = no_region \/ e <= start behind) /\
  (forall a, (PAGE_SIZE | a) -> e <= a -> a + PAGE_SIZE <= he -> start behind <= a /\ a + PAGE_SIZE <= end_ behind).
Proof using Hse He32 Hs He.
  intros Hle Hup. destruct up_bounds as [Hu Hud]. unfold behind. rewrite (wrap_small 64) by (unfold in_u; lia). destruct (Z.eqb_spec (he - ALIGN_UP e PAGE_SIZE) 0) as [E|E]; cbn [negb].
  - split; [by left|]. split; [by left|]. intros a Ha H1 H2. pose proof (pages_order _ _ Hud Ha ltac:(lia)). unfold PAGE_SIZE in *. lia.
  - split; [right; cbn; repeat split; (done || lia)|]. split; [right; cbn; lia|]. intros a Ha H1 H2. cbn. split; [|done]. apply pages_order; [done|done|lia].
Qed.

Lemma initrd_inside : hs <= s -> ALIGN_UP e PAGE_SIZE <= he -> hs + PAGE_SIZE <= s \/ ~ (PAGE_SIZE | e) ->
  exists h h2, (let '((heap0_start, heap0_end), (heap1_start, heap1_end)) := heap_pieces (Reg hs he (he - hs)) (Reg s e (e - s)) in
    let heap0_len := u64 (heap0_end - heap0_start) in
    let heap1_len := u64 (heap1_end - heap1_start) in
    let piece0 := Reg heap0_start heap0_end heap0_len in
    let piece1 := if negb (heap1_len =? 0) then Reg heap1_start heap1_end heap1_len else no_region in
    if heap0_len =? 0 then (piece1, no_region) else (piece0, piece1)) = (h, h2) /\
    RANGE_OVERLAP (start h) (len h) s (e - s) = false /\ mem_layout hs he t (Some (s, e)) (Cfg h (Reg he t STACK_SIZE) (Reg s e (e - s)) h2).
Proof using Hse He32 Hs He Hd.
  intros Hle Hup Hcase. destruct up_bounds as [Hu Hud]. destruct (down_bounds Hle) as (Hdn & Hdd & Hhd). destruct (behind_spec Hle Hup) as (B1 & B2 & B3). unfold heap_pieces. cbn [start len end_].
  rewrite (proj2 (RANGE_OVERLAP_spec hs (he - hs) s (e - s) ltac:(lia) ltac:(lia) ltac:(lia) ltac:(lia) ltac:(lia) ltac:(lia))) by lia. rewrite (proj2 (IN_RANGE_spec s hs (he - hs) ltac:(lia) ltac:(lia) ltac:(lia))) by lia.
  cbv zeta. fold behind. rewrite (wrap_small 64 (ALIGN_DOWN s PAGE_SIZE - hs)) by (unfold in_u; lia). destruct (Z.eqb_spec (ALIGN_DOWN s PAGE_SIZE - hs) 0) as [E|E].
  - exists behind, no_region. split; [done|]. assert (Hne : ~ (PAGE_SIZE | e)) by (destruct Hcase; [unfold PAGE_SIZE in *; lia|done]). assert (Hlt : e < ALIGN_UP e PAGE_SIZE) by (destruct (Z.eq_dec e (ALIGN_UP e PAGE_SIZE)) as [Ee|]; [rewrite <- Ee in Hud; done|lia]).
    split; [|split; cbn; try done; [by left|by left|intros r [-> | ->]; [destruct B2; [by left|right; by right]|by left]|]].
    + unfold behind. rewrite (wrap_small 64) by (unfold in_u; lia). destruct (Z.eqb_spec (he - ALIGN_UP e PAGE_SIZE) 0); cbn [negb no_region start len]; apply not_overlap; lia.
    + intros a Ha H1 H2 [H3|H3]; [unfold PAGE_SIZE in *; lia|]. left. by apply B3.
  - exists (Reg hs (ALIGN_DOWN s PAGE_SIZE) (ALIGN_DOWN s PAGE_SIZE - hs)), behind. split; [done|]. cbn [start len]. split; [apply not_overlap; lia|].
    split; cbn; try done; [right; cbn; repeat split; (done || lia)| | |].
    + destruct B2 as [B2|B2]; [by left|]. destruct B1 as [B1|B1]; [by left|]. right. split; [intros Heq; injection Heq; lia|]. lia.
    + intros r [-> | ->]; [right; left; cbn; lia|]. destruct B2; [by left|right; by right].
    + intros a Ha H1 H2 [H3|H3]; [left|right; by apply B3]. split; [done|]. apply pages_order; [by apply Z.divide_add_r|done|lia].
Qed.

Lemma initrd_outside : e < hs \/ he + STACK_SIZE <= s -> RANGE_OVERLAP hs (he - hs) s (e - s) = false.
Proof using Hse He32 Hs He. intros H. assert (0 < STACK_SIZE) by done. apply not_overlap; lia. Qed.
End Initrd.

Lemma init_initrd_spec hs he t m mi rd : 0 < hs < he -> he < 2 ^ 32 -> (PAGE_SIZE | hs) -> ramdisk m mi rd -> ramdisk_fits hs he rd ->
  exists cfg, _mb_init_initrd m mi (Cfg (Reg hs he (he - hs)) (Reg he t STACK_SIZE) no_region no_region) = Some cfg /\ mem_layout hs he t rd cfg.
Proof.
  intros Hs He Hd Hrd Hfit. unfold _mb_init_initrd. cbn [heap bstack heap2 len]. destruct Hrd as [Hc|s Hc Ha L1 L2|s e Hc Ha L1 L2 Hse].
  - rewrite Hc. eexists. split; [done|]. apply (layout_whole hs he t None); [lia|done..].
  - rewrite (proj2 (Z.eqb_neq _ 0) Hc), (proj2 (Z.eqb_neq _ 0) Ha), L1, L2. cbn [mbind option_bind]. rewrite Z.ltb_irrefl, Z.eqb_refl. eexists. split; [done|]. apply (layout_whole hs he t None); [lia|done..].
  - rewrite (proj2 (Z.eqb_neq _ 0) Hc), (proj2 (Z.eqb_neq _ 0) Ha), L1, L2. cbn [mbind option_bind]. rewrite (proj2 (Z.ltb_ge e s)), (proj2 (Z.eqb_neq e s)), (proj2 (Z.eqb_neq (he - hs) 0)) by lia.
    destruct Hfit as (Hs0 & He32 & Hcase). assert (Hout : e < hs \/ he + STACK_SIZE <= s \/ hs <= s /\ ALIGN_UP e PAGE_SIZE <= he /\ (hs + PAGE_SIZE <= s \/ ~ (PAGE_SIZE | e))) by tauto. clear Hcase.
    destruct (decide (e < hs \/ he + STACK_SIZE <= s)) as [Ho|Ho].
    + pose proof (initrd_outside hs he Hs He s e ltac:(lia) He32 Ho) as Hov. unfold heap_pieces. cbn [start len end_]. rewrite Hov. cbv zeta. change (u64 (0 - 0) =? 0) with true. rewrite (wrap_small 64 (he - hs)) by (unfold in_u; lia). rewrite (proj2 (Z.eqb_neq (he - hs) 0)) by lia. cbn [negb start len].
      rewrite Hov. eexists. split; [done|]. apply (layout_whole hs he t (Some (s, e))); [lia|done|]. assert (0 < STACK_SIZE) by done. cbn. lia.
    + destruct Hout as [Hout|[Hout|(I1 & I2 & I3)]]; [tauto|tauto|]. destruct (initrd_inside hs he t Hs He Hd s e ltac:(lia) He32 I1 I2 I3) as (h & h2 & E & Hov & Hl).
      destruct (heap_pieces _ _) as [[h0s h0e] [h1s h1e]]. cbv zeta in E |- *. rewrite E. cbn [start len]. rewrite Hov. eexists. by split.
Qed.

Lemma kvm_setup_spec END m mi e rd : loaded END m mi e -> ramdisk m mi rd -> ramdisk_fits (hstart END) (hend e) rd ->
  exists cfg, kvm_setup END m mi = Some cfg /\ mem_layout (hstart END) (hend e) (top e) rd cfg.
Proof.
  intros Hld Hrd Hfit. destruct (loaded_bounds END m mi e Hld) as (H1 & H2 & H3). unfold kvm_setup. rewrite (init_mem_spec END m mi e _ Hld). cbn [mbind option_bind initrd heap2].
  exact (init_initrd_spec (hstart END) (hend e) (top e) m mi rd H1 H2 H3 Hrd Hfit).
Qed.

(** C25: With a memory map that has RAM at 1 MiB and room for the image and some heap in front of the boot stack
    ([loaded]), and with no RAM disk, or one that fits ([ramdisk_fits]): it ends below the heap, begins behind the
    stack, or lies inside the heap up to whole pages and does not both begin in its first page and end with a page;
    the start-up ends with a layout of the memory: the boot stack at the end, at
    most two pieces of heap behind the image that meet neither the stack nor the RAM disk nor each other,
    and every whole page that the RAM disk does not touch is in one of the pieces.  Where the conditions fail, so does
    the code: [kvm_initrd_first], [kvm_initrd_below], [kvm_initrd_in_stack], [kvm_image_in_stack]. *)
Theorem kvm_layout END m mi e rd :
  loaded END m mi e -> ramdisk m mi rd -> ramdisk_fits (hstart END) (hend e) rd ->
  exists cfg, kvm_setup END m mi = Some cfg /\ mem_layout (hstart END) (hend e) (top e) rd cfg.
Proof. apply kvm_setup_spec. Qed.

(** *** The regions of the platform *)

Definition desc_of (r : kvmplat_config_memregion) : ukplat_memregion_desc := Desc (start r) (len r) UKPLAT_MEMRF_ALLOCATABLE.

Lemma kvm_reserved img cfg i : 0 <= i < 7 \/ i = 8 -> suits UKPLAT_MEMRF_ALLOCATABLE (kvm_get img cfg i) = false.
Proof. intros Hi. assert (i = 0 \/ i = 1 \/ i = 2 \/ i = 3 \/ i = 4 \/ i = 5 \/ i = 6 \/ i = 8) as [-> |[-> |[-> |[-> |[-> |[-> |[-> | ->]]]]]]] by lia; reflexivity. Qed.

Lemma kvm_initrd img cfg : 0 < len (initrd cfg) -> suits UKPLAT_MEMRF_ALLOCATABLE (kvm_get img cfg 9) = false.
Proof. intros H. unfold kvm_get. cbn [Z.eqb Pos.eqb andb]. by rewrite (proj2 (Z.eqb_neq _ 0)) by lia. Qed.

Lemma kvm_heap2 img cfg : 0 < len (initrd cfg) -> 0 < len (heap2 cfg) -> kvm_get img cfg 10 = (0, desc_of (heap2 cfg)).
Proof. intros H1 H2. unfold kvm_get. cbn [Z.eqb Pos.eqb andb orb]. by rewrite !(proj2 (Z.eqb_neq _ 0)) by lia. Qed.

Lemma kvm_allocatable img cfg : 0 <= len (initrd cfg) -> 0 <= len (heap2 cfg) -> (len (heap2 cfg) <> 0 -> len (initrd cfg) <> 0) ->
  @regions (kvm_regions img cfg) UKPLAT_MEMRF_ALLOCATABLE = desc_of (heap cfg) :: (if len (heap2 cfg) =? 0 then [] else [desc_of (heap2 cfg)]).
Proof.
  intros H1 H2 H3. unfold regions. cbn [ukplat_memregion_count kvm_regions]. set (count := Z.to_nat (kvm_count cfg)).
  assert (Hstart : forall n, @regions_from (kvm_regions img cfg) (9 + n) 0 UKPLAT_MEMRF_ALLOCATABLE = desc_of (heap cfg) :: @regions_from (kvm_regions img cfg) n 9 UKPLAT_MEMRF_ALLOCATABLE).
  { intros n. cbn [Nat.add regions_from ukplat_memregion_get kvm_regions]. rewrite (kvm_reserved img cfg 0), (kvm_reserved img cfg (0 + 1)), !(kvm_reserved img cfg (_ + 1)) by lia. done. }
  unfold count, kvm_count. destruct (Z.ltb_spec 0 (len (initrd cfg))); destruct (Z.ltb_spec 0 (len (heap2 cfg))); try lia.
  - change (Z.to_nat (9 + 1 + 1)) with (9 + 2)%nat. rewrite Hstart, (proj2 (Z.eqb_neq _ 0)) by lia. f_equal. cbn [regions_from ukplat_memregion_get kvm_regions]. rewrite kvm_initrd by lia. change (9 + 1) with 10. by rewrite kvm_heap2 by lia.
  - change (Z.to_nat (9 + 1 + 0)) with (9 + 1)%nat. rewrite Hstart, (proj2 (Z.eqb_eq _ 0)) by lia. f_equal. cbn [regions_from ukplat_memregion_get kvm_regions]. by rewrite kvm_initrd by lia.
  - change (Z.to_nat (9 + 0 + 0)) with (9 + 0)%nat. rewrite Hstart, (proj2 (Z.eqb_eq _ 0)) by lia. done.
Qed.

(** *** The heap on it *)

Lemma piece_usable hs he r : 0 < hs -> he < 2 ^ 32 -> piece hs he r -> 1 <= pages (desc_of r) <= 32449 -> usable (desc_of r).
Proof.
  intros Hs He [-> |(Hl & Hb & Hh & _)] Hp; [|split; cbn; lia]. assert (Hz : pages (desc_of no_region) = 0) by reflexivity. lia.
Qed.

(** A block in a region is in the memory behind the image and before the stack, and not in the RAM disk. *)
Definition clear_of (END : Z) (e : mmap_entry) (rd : option (Z * Z)) (blk : Z * Z) : Prop :=
  END <= blk.1 /\ block_end blk <= top e - STACK_SIZE /\ away rd blk.1 (block_end blk).

Lemma piece_clear END e rd r blk : END <= hstart END -> piece (hstart END) (hend e) r -> r = no_region \/ away rd (start r) (end_ r) -> usable (desc_of r) -> inside (desc_of r) blk -> clear_of END e rd blk.
Proof.
  intros HE Hp Ha Hu [H1 H2]. pose proof (us_base _ Hu) as Hb. destruct Hp as [-> |(Hl & Hs & He & _)]; [done|]. cbn in Hb, H1, H2. destruct Ha as [-> |Ha]; [done|]. unfold clear_of. fold (hend e). split; [lia|]. split; [lia|].
  unfold away in *. destruct rd as [[s t]|]; [lia|done].
Qed.

(** The regions that the heap is made of. *)
Definition heap_regions (cfg : kvmplat_config) : list ukplat_memregion_desc := if len (heap2 cfg) =? 0 then [] else [desc_of (heap2 cfg)].
Definition heap_size (cfg : kvmplat_config) : Z := Z.max 0 (pages (desc_of (heap cfg)) - 3) + more_pages (heap_regions cfg).

Lemma layout_regions hs he t rd cfg img : mem_layout hs he t rd cfg -> match rd with None => True | Some (s, e) => s < e end ->
  @regions (kvm_regions img cfg) UKPLAT_MEMRF_ALLOCATABLE = desc_of (heap cfg) :: heap_regions cfg.
Proof.
  intros [L1 L2 L3 L4 L5 L6 L7] Hrd. apply kvm_allocatable.
  - rewrite L5. destruct rd as [[s e]|]; cbn; lia.
  - destruct L2 as [-> |L2]; [done|lia].
  - intros Hn. destruct L3 as [L3|(_ & L3 & _)]; [by rewrite L3 in Hn|done].
Qed.

Lemma layout_usable hs he t rd cfg : mem_layout hs he t rd cfg -> 0 < hs -> he < 2 ^ 32 -> 1 <= pages (desc_of (heap cfg)) <= 32449 -> (heap2 cfg <> no_region -> 1 <= pages (desc_of (heap2 cfg)) <= 32449) ->
  Forall usable (desc_of (heap cfg) :: heap_regions cfg) /\ pairwise apart (desc_of (heap cfg) :: heap_regions cfg).
Proof.
  intros [L1 L2 L3 L4 L5 L6 L7] Hs He Hp Hp2. pose proof (piece_usable hs he _ Hs He L1 Hp) as U1. unfold heap_regions. destruct (Z.eqb_spec (len (heap2 cfg)) 0) as [E|E]; [split; [constructor; [done|constructor]|split; [constructor|done]]|].
  assert (Hn : heap2 cfg <> no_region) by (intros Hx; by rewrite Hx in E). pose proof (piece_usable hs he _ Hs He L2 (Hp2 Hn)) as U2. split; [constructor; [done|]; constructor; [done|constructor]|]. split; [|split; [constructor|done]]. constructor; [|constructor]. left.
  destruct (usable_bounds _ U1) as (_ & _ & _ & _ & B1). destruct (usable_bounds _ U2) as (_ & _ & _ & B2 & _). cbn in B1, B2. destruct L3 as [?|(Hh & _ & Hle)]; [done|]. destruct L1 as [?|(Hlen & _)]; [done|]. lia.
Qed.

(** C24: The heap that the boot builds over the regions of the platform serves every sequence of requests
    for pages: it holds the pages of both pieces less those of the administration, and the blocks handed
    out are disjoint and never in the image, in the boot stack or in the RAM disk.  The memory is [loaded], the RAM
    disk where the start-up copes with it ([ramdisk_fits]), and each piece of the heap has 1 to 32449 pages, about
    127 MB: the platform maps up to 1 GiB, but for a larger piece the bitmap of the allocator is too small
    ([buddy_region_overrun]); the structures of the allocator take at most a page. *)
Theorem kvm_heap_safe END m mi e rd cfg img sizes reqs :
  loaded END m mi e -> ramdisk m mi rd -> ramdisk_fits (hstart END) (hend e) rd -> kvm_setup END m mi = Some cfg ->
  1 <= pages (desc_of (heap cfg)) <= 32449 -> (heap2 cfg <> no_region -> 1 <= pages (desc_of (heap2 cfg)) <= 32449) ->
  0 < sizes <= PAGE_SIZE -> Forall page_req_ok reqs ->
  exists b b' live, @init_heap (kvm_regions img cfg) sizes = Some (Some b) /\ pa_run (T := pool (heap_size cfg)) b [] reqs = Some (b', live) /\
    pairwise blocks_apart live /\ nr_free_pages b' = heap_size cfg - live_pages live /\ Forall (clear_of END e rd) live.
Proof.
  intros Hld Hrd Hfit Ecfg Hp Hp2 Hsz Hr. destruct (loaded_bounds END m mi e Hld) as (B1 & B2 & B3). destruct (kvm_setup_spec END m mi e rd Hld Hrd Hfit) as (cfg' & E' & L). assert (cfg' = cfg) as -> by congruence. clear E'.
  destruct (layout_usable _ _ _ _ _ L ltac:(lia) B2 Hp Hp2) as [Hu Ha]. assert (Hse : match rd with None => True | Some (s, e) => s < e end) by (destruct Hrd; done).
  destruct (init_regions_spec sizes (desc_of (heap cfg)) (heap_regions cfg) Hsz Hu Ha) as (b & ds & Ei & Hh & Hin).
  assert (Huds : Forall usable ds) by (apply Forall_forall; intros d Hd; rewrite Forall_forall in Hu; by apply Hu, Hin).
  destruct (heap_run ds _ b reqs Hh Huds Hr) as (b' & live & Erun & _ & Hap & Hfree & Hl). exists b, b', live.
  split; [rewrite init_heap_regions; [by rewrite (layout_regions _ _ _ _ _ img L Hse)|cbn; unfold kvm_count; destruct (_ <? _), (_ <? _); lia]|]. split; [exact Erun|]. split; [done|].
  split; [apply Hfree; unfold heap_regions; destruct (Z.eqb_spec (len (heap2 cfg)) 0) as [E2|E2]; cbn [more_pages foldr]; [lia|]; assert (heap2 cfg <> no_region) by (intros Hx; by rewrite Hx in E2); specialize (Hp2 H); lia|].
  destruct (hstart_bounds END) as [HE _]; [pose proof (ld_end _ _ _ _ Hld) as HE; unfold PLATFORM_MEM_START in HE; lia|]. eapply Forall_impl; [exact Hl|]. intros blk (d & Hd & Hi). rewrite Forall_forall in Huds. specialize (Huds d Hd). specialize (Hin d Hd).
  apply elem_of_cons in Hin as [-> |Hin]; [apply (piece_clear END e rd (heap cfg)); try done; [lia|apply L|apply L; by left]|]. unfold heap_regions in Hin. destruct (_ =? _); [by apply not_elem_of_nil in Hin|]. apply list_elem_of_singleton in Hin as ->.
  apply (piece_clear END e rd (heap2 cfg)); try done; [lia|apply L|apply L; by right].
Qed.

(** ** A machine with 2 MiB of memory *)

Fixpoint word_bytes (n : nat) (v : Z) : list Z := match n with O => [] | S n' => v mod 256 :: word_bytes n' (v / 256) end.
Definition entry_bytes (e : mmap_entry) : list Z := word_bytes 4 (e_size e) ++ word_bytes 8 (e_addr e) ++ word_bytes 8 (e_len e) ++ word_bytes 4 (e_type e).
Definition low_ram : mmap_entry := Entry 20 0 0x9fc00 1.
Definition high_ram : mmap_entry := Entry 20 0x100000 0x100000 1.

(** The memory map at 1000 and a module from [s] to [e] at 2000. *)
Definition loader_mem (s e : Z) : mem :=
  list_to_map (zip (seqZ 1000 48) (entry_bytes low_ram ++ entry_bytes high_ram) ++ zip (seqZ 2000 8) (word_bytes 4 s ++ word_bytes 4 e)).
Definition loader_info : multiboot_info := MultibootInfo 1 2000 48 1000.
Definition demo_end : Z := 0x120005.

Definition demo_memory : mem := loader_mem 0x130000 0x134100.
Definition demo_image : image := Image 0x100000 0x108000 0x108000 0x108100 0x108100 0x108200 0x109000 0x10a000 0x10a000 0x10a010 0x110000 0x118000 0x118000 demo_end.
Definition demo_cfg : kvmplat_config := Cfg (Reg 0x121000 0x130000 0xf000) (Reg 0x1f0000 0x200000 0x10000) (Reg 0x130000 0x134100 0x4100) (Reg 0x135000 0x1f0000 0xbb000).

Lemma demo_loaded : loaded demo_end demo_memory loader_info high_ram.
Proof.
  split; try done. exists [low_ram], []. split; [constructor; [done|constructor]|]. split; [|done]. cbn [app map_at]. repeat (split; [by vm_compute|]). done.
Qed.

Lemma demo_ramdisk : ramdisk demo_memory loader_info (Some (0x130000, 0x134100)).
Proof. constructor; try done; by vm_compute. Qed.

Lemma demo_fits : ramdisk_fits (hstart demo_end) (hend high_ram) (Some (0x130000, 0x134100)).
Proof.
  split; [done|]. split; [done|]. right. right. change (hstart demo_end) with 0x121000. change (hend high_ram) with 0x1f0000. change (ALIGN_UP 0x134100 PAGE_SIZE) with 0x135000. unfold PAGE_SIZE. split; [lia|]. split; [lia|]. left. lia.
Qed.

Lemma kvm_layout_witness : exists cfg, kvm_setup demo_end demo_memory loader_info = Some cfg /\ mem_layout 0x121000 0x1f0000 0x200000 (Some (0x130000, 0x134100)) cfg.
Proof. exact (kvm_layout demo_end demo_memory loader_info high_ram _ demo_loaded demo_ramdisk demo_fits). Defined.

Lemma demo_setup : kvm_setup demo_end demo_memory loader_info = Some demo_cfg.
Proof. by vm_compute. Qed.

Lemma kvm_heap_safe_witness : exists b b' live, @init_heap (kvm_regions demo_image demo_cfg) 1700 = Some (Some b) /\ pa_run (T := pool 198) b [] [PAlloc 3; PAlloc 64; PFree 1; PAlloc 9] = Some (b', live) /\
  pairwise blocks_apart live /\ nr_free_pages b' = 198 - live_pages live /\ Forall (clear_of demo_end high_ram (Some (0x130000, 0x134100))) live.
Proof.
  apply (kvm_heap_safe demo_end demo_memory loader_info high_ram _ demo_cfg demo_image 1700 [PAlloc 3; PAlloc 64; PFree 1; PAlloc 9] demo_loaded demo_ramdisk demo_fits demo_setup); [by vm_compute|by vm_compute|by vm_compute|].
  repeat first [apply List.Forall_nil | apply List.Forall_cons; [by compute|]].
Defined.

(** ** RAM disks that the code does not expect *)

(** A RAM disk that ends with a page and starts with the heap, as a loader may place it, stops the boot: the test meant for the stack
    takes the heap behind the RAM disk for one that meets it. *)
Theorem kvm_initrd_first : kvm_setup demo_end (loader_mem 0x121000 0x123000) loader_info = None.
Proof. by vm_compute. Qed.

(** One that ends where the heap starts counts as overlapping, and the heap is lost; so is that behind a RAM disk that
    starts below it, since the test for its end looks at its start.  The empty region then fails the assertion of the allocator. *)
Theorem kvm_initrd_below :
  (exists cfg, kvm_setup demo_end (loader_mem 0x120800 0x121000) loader_info = Some cfg /\ heap cfg = no_region /\ heap2 cfg = no_region /\ @init_heap (kvm_regions demo_image cfg) 1700 = None) /\
  (exists cfg, kvm_setup demo_end (loader_mem 0x120800 0x122000) loader_info = Some cfg /\ heap cfg = no_region /\ heap2 cfg = no_region).
Proof. split; eexists; (split; [vm_compute; reflexivity|]); repeat split; vm_compute; reflexivity. Qed.

(** One that reaches into the stack is accepted, and the second piece of the heap gets a length of almost 2^64. *)
Theorem kvm_initrd_in_stack :
  exists cfg, kvm_setup demo_end (loader_mem 0x1e0000 0x1f8000) loader_info = Some cfg /\ RANGE_OVERLAP (start (bstack cfg)) (len (bstack cfg)) (start (initrd cfg)) (len (initrd cfg)) = true /\
    heap2 cfg = Reg 0x1f8000 0x1f0000 (2 ^ 64 - 0x8000).
Proof. eexists. split; [vm_compute; reflexivity|]. split; vm_compute; reflexivity. Qed.

(** An image that ends within the last 64 KiB gets a heap with a length of almost 2^64. *)
Theorem kvm_image_in_stack :
  exists cfg, _mb_init_mem 0x1f8000 demo_memory loader_info (Cfg no_region no_region no_region no_region) = Some cfg /\ heap cfg = Reg 0x1f8000 0x1f0000 (2 ^ 64 - 0x8000).
Proof. eexists. split; vm_compute; reflexivity. Qed.
End KvmMemory.
